(* ===== verification/_CoqProject ===== *)
-Q . S2P
Prelude.v
CFile.v
CString.v
RRTypes.v
PandaCallbacks.v
RRState.v
RRQueue.v
RRFormat.v
RRReplay.v
RRReplayInv.v
RRRecord.v
RRMonitor.v
RRSession.v
RRTheorems.v
RRModes.v
PandaPlugins.v
PandaArgs.v
Scissors.v
RRPrint.v
HostMem.v
RamList.v
Radix.v
PhysPages.v
IOMem.v
PhysView.v
PhysMem.v
PhysMemFacts.v
IOMemFacts.v
PhysMemExamples.v
IOMemExamples.v
LdStPhys.v
LdStExamples.v
PhysReplay.v
PhysReplayExamples.v
Int128.v
FlatView.v
FlatViewFacts.v
TopologyFacts.v
IOPort.v
MemRegion.v
RamTopology.v
PortTopology.v
FlatViewExamples.v
PortTopologyExamples.v
RegionIO.v
RegionIOFacts.v
PortReplay.v
RegionIOExamples.v
TBCache.v
TBLists.v
TBInv.v
TBRemove.v
TBInsert.v
TBGen.v
TBBitmap.v
TBShape.v
TBFind.v
TBHost.v
TBChain.v
TBRange.v
TBFast.v
TBSteps.v
TBTheorems.v
TBLoop.v
TBExamples.v
TBLoopExamples.v
TLB.v
TLBQuiet.v
TLBFacts.v
TLBSet.v
TLBSteps.v
TLBDirty.v
TLBDebug.v
TLBWatch.v
TLBTheorems.v
TLBExamples.v
