(* ===== verification/Prelude.v ===== *)
(** * PANDA: record and replay, plugins, memory and translated code

    A verification library for the part of PANDA (a whole-system emulator built
    on QEMU, [src/qemu]) that is its own: recording the non-deterministic inputs
    of a guest, replaying them, the plugin mechanism, the access to guest memory
    that record/replay and the plugins hook into, and the cache of translated code
    and the software TLB between which the guest runs. Nothing here is
    extracted from C; every definition is a translation of the C function or
    macro of the same name, and the manifest names its lines.

    ** The program

    While a guest is recorded, every value that enters it from outside (a port or
    memory-mapped I/O read, an interrupt, a time stamp) and every write a device
    makes to guest memory is appended to a log with the program point at which it
    happened. While it is replayed, the devices are not called: at each of these
    places the emulator first performs the recorded device calls of the current
    point, then takes the value from the log. The log is read ahead into a queue up
    to the next entry that may interrupt the guest. Plugins register callbacks for
    events; they are loaded from files, have arguments, and may be unloaded between
    two translated blocks. Guest RAM is a list of blocks; a page table maps
    physical pages to RAM or to a table of device functions. Devices describe
    memory and ports as a graph of regions, which is flattened to a view; changes of
    the view are passed on to the page table and to the tables of ports.

    Guest code is translated block by block into a buffer. A block is on a hash
    chain of its physical address, on the lists of the one or two pages it lies on,
    and on the lists of the jumps that lead to it; generated code jumps from block
    to block directly. Pages with code are clean, so that the TLB, through which
    generated code reaches memory, sends writes to them to a slow path that throws
    the touched blocks away. In a replay a block must not run past the point of the
    next recorded interrupt.

    ** The files

    - [Prelude]: C integers, bytes and the error and state monad all files use; the
      hint databases [panda] and [width] and the lemmas that feed them.
    - [CFile], [CString]: the stdio and string functions the code calls.
    - [RRTypes], [RRState]: data and globals of [rr_log_all.h], [rr_log.h],
      [rr_log.c].
    - [RRFormat]: [rr_write_item], [rr_read_item] and the bytes in the file.
    - [RRQueue]: the queue, the recycle list and the history of entries, as linked
      nodes of a heap.
    - [RRReplay], [RRRecord]: the [rr_replay_*] and [rr_record_*] functions, the
      functions that act by mode, [RR_DO_RECORD_OR_REPLAY].
    - [RRReplayInv]: the invariant of a replay. [RRTheorems]: what the functions
      promise their callers.
    - [RRMonitor]: the monitor commands and the requests served by the main loop
      ([vl.c]). [RRSession]: the hooks of [cpu-exec.c] and [main-loop.c], and whole
      sessions. [RRModes]: reachable states.
    - [PandaCallbacks], [PandaPlugins], [PandaArgs]: [panda_plugin.c] and
      [panda_plugin.h], with the options of [vl.c] and the unload requests of
      [cpu-exec.c].
    - [Scissors], [RRPrint]: the scissors plugin and the log printer.
    - [HostMem], [RamList]: the emulator's memory, RAM blocks and dirty pages
      ([exec.c], [cpu-all.h]). [Radix]: the radix tree of descriptors, for any leaf;
      [PhysPages]: the page table, an instance of it.
    - [IOMem]: tables of device functions, byte-swapping wrappers, subpages and the
      registration of regions. [PhysMem]: [cpu_physical_memory_rw] and its
      variants, mapping, dispatch of I/O accesses, calls performed by a replay.
      [LdStPhys]: [ldl_phys], [stl_phys] and the like.
    - [Int128] ([int128.h]), [FlatView] (rendering and comparison of views),
      [MemRegion] (the API of [memory.c]), [IOPort] (the tables of [ioport.c]),
      [RegionIO] (accesses to regions and ports, lists of ports).
    - [FlatViewFacts]: rendering refines the graph. [TopologyFacts]: the passes over
      two views, proved against an interface ([Backend], [BackendLaws]);
      [RamTopology] and [PortTopology] show that the page table and the tables of
      ports meet it. [RegionIOFacts]: accesses. [PortReplay]: port accesses under
      record and replay.
    - [TBCache]: the cache of translated code ([exec.c], [exec-all.h], [cpu-exec.c]):
      blocks, tagged pointers between them, allocation, linking, lookup, chaining,
      invalidation, flushing, bitmaps of pages, self-modifying code, interrupts.
      [TBLists]: lists threaded through tagged pointers. [TBInv]: the abstract cache
      ([view]) and the invariant that relates it to the pointers. [TBRemove],
      [TBInsert], [TBGen], [TBBitmap], [TBShape], [TBFind], [TBHost], [TBChain],
      [TBRange], [TBFast]: what each operation does to the view. [TBSteps]: the
      operations as steps; [TBTheorems]: what the cache promises. [TBLoop]: the
      choice of the next block in the loop of [cpu_exec], and the watch on a
      replay that makes no progress.
    - [TLB]: the software TLB, watchpoints, breakpoints, single steps, writes to clean
      pages ([exec.c], [cpu-defs.h], [cpu-all.h], [exec-all.h]). [TLBQuiet]: no
      operation of the cache makes a page clean without telling the TLB.
      [TLBFacts], [TLBSet], [TLBSteps], [TLBDirty], [TLBDebug], [TLBWatch]: what each
      operation does to the TLB; [TLBTheorems]: all operations as steps of one
      machine, and what the TLB promises.
    - [PhysView] is the abstract memory; [PhysMemFacts], [IOMemFacts] and
      [PhysReplay] are the theorems about it; the files [*Examples] apply the
      theorems to one concrete machine.

    ** How code becomes definitions

    A C function is a state transformer [M S A]: it returns a value and a new state
    or stops the process with a [c_error] (exit, abort, null or freed pointer, index
    out of bounds, read of uninitialised memory). Integers are [Z] with [wrap] and
    [int32] where C wraps. Structures are records, tagged unions inductive types.
    Linked lists that the code threads through nodes are heaps of nodes with
    explicit freed nodes; where only the order matters they are lists. The
    emulator's memory is a finite map from addresses to bytes. A component with its
    own globals has its own state; [in_rr], [in_ram] and [in_io] run the operations
    of a part in the whole.

    Loops whose number of turns depends on data have fuel, always enough: the number
    of bytes left in the log for filling the queue and printing, of entries for
    dropping debug entries, of bytes for memory transfers (each turn transfers at
    least one), of pages for registration and mapping, of nodes of a heap for
    walking callback lists, of rows and wrappers for the dispatch of an I/O access,
    of ranges for passes over views, of regions for the depth of the graph, twice the
    number of blocks and two for a list through tagged pointers (its pointers are
    all different) and for the recursion that unchains jumps (each level removes a
    jump), the bits of an address for widening the region of large pages.
    [OutOfFuel] is an error of its own, and the theorems state that the functions
    return.

    Parameters, with their laws as classes where the proofs need any: the functions
    of devices and what invalidating translated code does ([Devices],
    [RegionDevices]), what KVM answers ([KvmEventfd]), the host's
    allocator ([HostAlloc], [HostAllocLaws]), what a plugin's own code does, the
    width of physical addresses and the byte order of the target ([TargetPhys],
    [TargetEndian], [PhysSpace]), whether a replayed mapping succeeds ([Machine]),
    the guest itself (a function of the values it was given), the translator, the
    registers and the MMU of the target ([Translator], [TranslatorLaws], [FetchLaws],
    [TargetLong]), what a plugin answers before a block runs ([InvalidateOpt]), and
    that a translation in a replay ends before the next interrupt ([ReplayLaws]).
    [Devices] takes what invalidating translated code does as a parameter because
    it has a state of its own; [TBCache] is its model. Each theorem about
    them has an instance at which it is applied.

    ** What is shown

    - Record and replay: an entry is read back as it was written, unless its buffer
      is empty, and malformed logs are refused; filling the queue keeps the entries
      in order and the countdown right; the replay functions refine a queue of
      recorded items; a session recorded from a deterministic guest and replayed
      gives the guest the same values at the same points, several at one point
      included, when no poll that found nothing is followed by a request for the
      same point ([RRSession.record_replay], [run_wf]); a device call or a port
      read that writes guest memory leaves the same guest memory when it is replayed
      ([PhysReplay.device_call_replayed], [PortReplay.port_read_replayed]); nodes are
      freed once; log and mode agree in every reachable state.
    - Plugins: callbacks are registered and removed as the lists show, running them
      terminates; names and plugins stay within the tables; a single request to
      unload is served, with the plugin's clean-up; arguments come back as they were
      given.
    - Tools: the scissors plugin copies exactly the entries of the window, moved to
      start at 0, or fails in one of two ways that are told apart; the printer prints
      every entry.
    - Memory: RAM blocks never overlap, in RAM or in the host; the page table is a
      finite map; registering a region that fits its pages updates a flat address
      space and nothing else; accesses reach the registered device at the right offset and byte
      order; reads and writes of RAM are those of a map from addresses to bytes,
      mark pages dirty and drop their code; the fixed-size variants agree with the
      general one; the safe variant never reaches a device.
    - Regions: 128-bit arithmetic is exact; the view says at each address what the
      graph says, when no region begins inside a rendered range; two passes leave the backend with exactly the new ranges; after a
      transaction the guest's memory, when it is RAM, and its ports are those of the
      graph ([PortTopology.transaction_refines]); split accesses are the access they stand
      for.
    - Translated code: the pointers of the cache are the lists of an abstract cache in
      every reachable state ([TBTheorems.cache_run]); the lookup returns the block for
      the state of the CPU; generating code never leaves the buffer; a write leaves
      no code from the bytes it changes, and the fast path does what the full one does
      (they leave exactly when the block that writes overwrites itself, [written]);
      interrupts end every chain of jumps; the jump a block left through is chained to
      the block that runs next ([TBLoop.next_block_chained]); the block a replay runs next does not
      pass the next interrupt ([TBLoop.replay_block_fits]), and a replay that is
      stuck is ended.
    - TLB: an entry that writes to memory directly leads to a page without code, in
      every reachable state ([TLBTheorems.code_writes_trapped]); writes to clean
      pages store their bytes and drop the code, or leave before the store when the
      block that writes is overwritten; a page that is mapped is where code
      is fetched from; flushes leave no entry of the page, also when it is part of a
      large page; watchpoints trap and are hit by exactly the accesses that touch
      them; breakpoints leave no block with their address.
    - Places where the code does not do what it means to are stated too, as lemmas or
      as examples on the concrete machines (a dangling head of a callback list, a failed load reported as a success,
      data lost by the scissors plugin, a region across a page boundary that is not
      registered, a view with overlapping ranges, a port region in two pieces, a
      block on one page twice, a stale jump after a flush, two MMU modes that share
      a dirty bit), and listed in the manifest.

    ** Not modelled

    The translators, the code they generate and its execution, the devices, the block
    layer, snapshots, migration, timers and host I/O: they meet the modelled code
    only at the parameters above. The filling of the TLB by the targets' page walks
    ([tlb_fill]) and the physical access after a watchpoint check: the first is the
    target's code, the second is modelled in [LdStPhys] on a state of its own. User-mode emulation, which has no record/replay. The
    logging of plugins ([pandalog.c]) and the taint and LLVM plugins, which are
    written against generated code, C++ libraries and LLVM. Host variants of RAM
    allocation (Xen, KVM, [-mem-path]), guests with several CPUs, which record/replay
    does not support, and [-icount]: interrupts are requested on the CPU's own thread
    ([TBCache.tcg_handle_interrupt]). *)

From stdpp Require Export base gmap strings list fin_maps.
From Stdlib Require Export ZArith Lia.
From Stdlib Require Strings.Byte.

(** ** Machine integers

    A C unsigned integer of [w] bits is a [Z] in [0, 2^w); assigning a wider
    value to it keeps the value modulo [2^w]. *)

Declare Scope panda_scope.
Delimit Scope panda_scope with panda.
#[global] Open Scope Z_scope.

Definition wrap (w z : Z) : Z := z `mod` 2 ^ w.
Abbreviation u8 := (wrap 8).
Abbreviation u16 := (wrap 16).
Abbreviation u32 := (wrap 32).
Abbreviation u64 := (wrap 64).
Definition in_width (w z : Z) : Prop := 0 ≤ z < 2 ^ w.

#[export] Instance in_width_dec w z : Decision (in_width w z).
Proof. unfold in_width. apply _. Defined.

(** ** Bytes and the host's little-endian representation *)

Abbreviation byte := Corelib.Init.Byte.byte.

#[export] Instance byte_eq_dec : EqDecision byte.
Proof. intros x y. apply Stdlib.Strings.Byte.byte_eq_dec. Defined.

Definition byte_to_Z (b : byte) : Z := Z.of_N (Stdlib.Strings.Byte.to_N b).

Definition byte_of_Z (z : Z) : byte :=
  default Corelib.Init.Byte.x00 (Stdlib.Strings.Byte.of_N (Z.to_N (wrap 8 z))).

(** [le_bytes n z] is what [fwrite(&v, n, 1, fp)] puts in the file for an
    [n]-byte unsigned [v = z] on a little-endian host. *)
Fixpoint le_bytes (n : nat) (z : Z) : list byte :=
  match n with
  | O => []
  | S n' => byte_of_Z z :: le_bytes n' (Z.shiftr z 8)
  end.

Fixpoint le_value (bs : list byte) : Z :=
  match bs with
  | [] => 0
  | b :: bs' => byte_to_Z b + 256 * le_value bs'
  end.

Definition zero_bytes (n : nat) : list byte := replicate n Corelib.Init.Byte.x00.

(** ** Outcomes of C code

    A C function is a state transformer that either returns or stops the
    process. The errors are the ways the modelled code stops: [exit(1)] of a
    failed [rr_assert], [abort()] (also of a failed [assert]), an access
    through a null or freed pointer, an array index out of bounds and a read of
    memory that was never written. [OutOfFuel] is the bound of a modelled loop:
    the theorems show it is never reached. *)

Inductive c_error :=
| ExitFailure
| Abort
| Segv
| UseAfterFree
| OutOfBounds
| UninitRead
| OutOfFuel.

#[export] Instance c_error_eq_dec : EqDecision c_error.
Proof. solve_decision. Defined.

Inductive outcome (S A : Type) :=
| Ok (a : A) (s : S)
| Err (e : c_error) (s : S).
Arguments Ok {S A} a s.
Arguments Err {S A} e s.

Definition M (S A : Type) : Type := S → outcome S A.

#[export] Instance M_ret {S} : MRet (M S) := λ A a s, Ok a s.
#[export] Instance M_bind {S} : MBind (M S) := λ A B k m s,
  match m s with
  | Ok a s' => k a s'
  | Err e s' => Err e s'
  end.

Definition fail {S A} (e : c_error) : M S A := λ s, Err e s.
Definition get {S} : M S S := λ s, Ok s s.
Definition gets {S A} (f : S → A) : M S A := λ s, Ok (f s) s.
Definition modify {S} (f : S → S) : M S () := λ s, Ok () (f s).

(** [assert_or e b]: go on when [b] holds, stop with [e] otherwise. *)
Definition assert_or {S} (e : c_error) (b : bool) : M S () :=
  if b then mret () else fail e.

(** Use of a pointer: [None] is the null pointer. *)
Definition nonnull {S A} (p : option A) : M S A :=
  match p with Some a => mret a | None => fail Segv end.

(** Element [i] of an array. *)
Definition at_idx {S A} (l : list A) (i : Z) : M S A :=
  if i <? 0 then fail OutOfBounds
  else match l !! Z.to_nat i with Some a => mret a | None => fail OutOfBounds end.

(** A C [int] of 32 bits holding [z]. *)
Definition int32 (z : Z) : Z := wrap 32 (z + 2 ^ 31) - 2 ^ 31.

(** ** Lemmas on machine integers *)

Create HintDb panda discriminated.
Create HintDb width discriminated.

Lemma wrap_small w z : in_width w z → wrap w z = z.
Proof. intros ?. by apply Z.mod_small. Qed.

Lemma wrap_in_width w z : 0 ≤ w → in_width w (wrap w z).
Proof. intros Hw. apply Z.mod_pos_bound. by apply Z.pow_pos_nonneg. Qed.

Lemma wrap_wrap w z : 0 ≤ w → wrap w (wrap w z) = wrap w z.
Proof. intros. by apply wrap_small, wrap_in_width. Qed.

Lemma wrap_sub_l w a b : wrap w (wrap w a - b) = wrap w (a - b).
Proof. unfold wrap. apply Zminus_mod_idemp_l. Qed.

Lemma wrap_sub_r w a b : wrap w (a - wrap w b) = wrap w (a - b).
Proof. unfold wrap. apply Zminus_mod_idemp_r. Qed.

Lemma wrap_add_l w a b : wrap w (wrap w a + b) = wrap w (a + b).
Proof. unfold wrap. apply Zplus_mod_idemp_l. Qed.

Lemma wrap_sub_0 w a b :
  in_width w a → in_width w b → (wrap w (a - b) = 0 ↔ a = b).
Proof.
  unfold in_width, wrap. intros Ha Hb. split.
  - intros Hd. apply Z.mod_divide in Hd; [|lia]. destruct Hd as [k Hk].
    assert (k = 0) by nia. lia.
  - intros ->. by rewrite Z.sub_diag, Z.mod_0_l by lia.
Qed.

Lemma in_width_0 w : 0 ≤ w → in_width w 0.
Proof. split; [done|]. by apply Z.pow_pos_nonneg. Qed.

Lemma in_width_mono w w' z : w ≤ w' → in_width w z → in_width w' z.
Proof.
  intros Hw [Hl Hu]. split; [done|].
  destruct (decide (0 ≤ w)) as [H0|H0].
  - eapply Z.lt_le_trans; [done|]. by apply Z.pow_le_mono_r.
  - rewrite Z.pow_neg_r in Hu by lia. lia.
Qed.

#[export] Hint Resolve wrap_in_width in_width_0 : width.
#[export] Hint Extern 0 (_ ≤ _) => lia : width.

(** ** Lemmas on bytes *)

Lemma byte_to_Z_range b : in_width 8 (byte_to_Z b).
Proof.
  unfold in_width, byte_to_Z.
  pose proof (Stdlib.Strings.Byte.to_N_bounded b). lia.
Qed.

Lemma byte_to_of_Z z : byte_to_Z (byte_of_Z z) = wrap 8 z.
Proof.
  unfold byte_to_Z, byte_of_Z.
  pose proof (wrap_in_width 8 z ltac:(lia)) as [Hl Hu].
  destruct (Stdlib.Strings.Byte.of_N (Z.to_N (wrap 8 z))) as [b|] eqn:E; simpl.
  - apply Stdlib.Strings.Byte.to_of_N in E. rewrite E, Z2N.id; lia.
  - apply Stdlib.Strings.Byte.of_N_None_iff in E. lia.
Qed.

Lemma byte_of_to_Z b : byte_of_Z (byte_to_Z b) = b.
Proof.
  unfold byte_of_Z. rewrite wrap_small by apply byte_to_Z_range.
  unfold byte_to_Z. by rewrite N2Z.id, Stdlib.Strings.Byte.of_to_N.
Qed.

Lemma length_le_bytes n z : length (le_bytes n z) = n.
Proof. revert z. induction n; intros; simpl; auto. Qed.

Lemma le_value_bytes n z :
  le_value (le_bytes n z) = wrap (8 * Z.of_nat n) z.
Proof.
  revert z. induction n as [|n IH]; intros z.
  { unfold wrap. by rewrite Z.mod_1_r. }
  cbn [le_bytes le_value]. rewrite IH, byte_to_of_Z. unfold wrap.
  rewrite Z.shiftr_div_pow2 by lia.
  replace (8 * Z.of_nat (S n)) with (8 + 8 * Z.of_nat n) by lia.
  rewrite Z.pow_add_r by lia. change (2 ^ 8) with 256.
  rewrite Z.rem_mul_r by lia. lia.
Qed.

Lemma le_value_le_bytes n z :
  in_width (8 * Z.of_nat n) z → le_value (le_bytes n z) = z.
Proof. intros. rewrite le_value_bytes. by apply wrap_small. Qed.

Lemma le_value_range bs : in_width (8 * Z.of_nat (length bs)) (le_value bs).
Proof.
  induction bs as [|b bs IH]; [by apply in_width_0|].
  cbn [le_value length]. unfold in_width in *.
  pose proof (byte_to_Z_range b) as [Hl Hu].
  replace (8 * Z.of_nat (S (length bs))) with (8 + 8 * Z.of_nat (length bs)) by lia.
  rewrite Z.pow_add_r by lia. change (2 ^ 8) with 256 in *. nia.
Qed.

Lemma le_bytes_value bs : le_bytes (length bs) (le_value bs) = bs.
Proof.
  induction bs as [|b bs IH]; [done|]. cbn [le_value length le_bytes].
  pose proof (byte_to_Z_range b) as [Hl Hu]. change (2 ^ 8) with 256 in Hu.
  f_equal.
  - rewrite <-(byte_of_to_Z b) at 2. unfold byte_of_Z. f_equal. f_equal. f_equal.
    unfold wrap. change (2 ^ 8) with 256.
    rewrite (Z.mul_comm 256), Z.mod_add by lia. done.
  - rewrite Z.shiftr_div_pow2 by lia. change (2 ^ 8) with 256.
    rewrite (Z.mul_comm 256), Z.div_add by lia.
    rewrite Z.div_small by lia. done.
Qed.

(** ** Lemmas on lists *)

Lemma take_app_exact {A} (l k : list A) : take (length l) (l ++ k) = l.
Proof. by rewrite take_app_length. Qed.

Lemma drop_app_exact {A} (l k : list A) : drop (length l) (l ++ k) = k.
Proof. by rewrite drop_app_length. Qed.

Lemma drop_add_app {A} (l k : list A) n data :
  drop n data = l ++ k → drop (n + length l) data = k.
Proof. intros H. by rewrite <-drop_drop, H, drop_app_length. Qed.

Lemma drop_nonempty_length {A} (l : list A) n x xs :
  drop n l = x :: xs → (n < length l)%nat.
Proof.
  intros H. destruct (decide (n < length l)%nat) as [|Hn]; [done|].
  rewrite drop_ge in H by lia. done.
Qed.

(** ** Running monadic code *)

Lemma bind_Ok {S A B} (m : M S A) (k : A → M S B) s a s' :
  m s = Ok a s' → (m ≫= k) s = k a s'.
Proof. unfold mbind, M_bind. by intros ->. Qed.

Lemma bind_Err {S A B} (m : M S A) (k : A → M S B) s e s' :
  m s = Err e s' → (m ≫= k) s = Err e s'.
Proof. unfold mbind, M_bind. by intros ->. Qed.

Lemma bind_inv_Ok {S A B} (m : M S A) (k : A → M S B) s b s'' :
  (m ≫= k) s = Ok b s'' → ∃ a s', m s = Ok a s' ∧ k a s' = Ok b s''.
Proof. unfold mbind, M_bind. destruct (m s) eqn:E; [eauto|done]. Qed.

Lemma bind_gets {S A B} (f : S → A) (k : A → M S B) s : (gets f ≫= k) s = k (f s) s.
Proof. done. Qed.

Lemma bind_modify {S B} (f : S → S) (k : () → M S B) s : (modify f ≫= k) s = k () (f s).
Proof. done. Qed.

Lemma bind_ret {S A B} (a : A) (k : A → M S B) s : (mret a ≫= k) s = k a s.
Proof. done. Qed.

Lemma bind_nonnull {S A B} (a : A) (k : A → M S B) s : (nonnull (Some a) ≫= k) s = k a s.
Proof. done. Qed.

Lemma bind_assoc {S A B C} (m : M S A) (f : A → M S B) (g : B → M S C) s :
  ((m ≫= f) ≫= g) s = (m ≫= (λ a, f a ≫= g)) s.
Proof. unfold mbind, M_bind. by destruct (m s). Qed.

Lemma bind_ext {S A B} (m : M S A) (k k' : A → M S B) s :
  (∀ a s', m s = Ok a s' → k a s' = k' a s') → (m ≫= k) s = (m ≫= k') s.
Proof. intros Hk. unfold mbind, M_bind. destruct (m s) eqn:E; [by apply Hk|done]. Qed.

Lemma at_idx_ok {S A} (l : list A) i a (s : S) :
  0 ≤ i → l !! Z.to_nat i = Some a → at_idx l i s = Ok a s.
Proof. intros Hi Hl. unfold at_idx. by rewrite (proj2 (Z.ltb_ge i 0)), Hl by lia. Qed.

Lemma at_idx_inv {S A} (l : list A) i (s : S) a s' :
  at_idx l i s = Ok a s' → 0 ≤ i ∧ l !! Z.to_nat i = Some a ∧ s' = s.
Proof.
  unfold at_idx. destruct (Z.ltb_spec i 0); [done|].
  destruct (l !! Z.to_nat i); [|done]. by intros [= -> ->].
Qed.

Lemma at_idx_out {S A} (l : list A) i (s : S) :
  Z.of_nat (length l) ≤ i → at_idx l i s = Err OutOfBounds s.
Proof.
  intros Hi. unfold at_idx. destruct (i <? 0); [done|].
  by rewrite lookup_ge_None_2 by lia.
Qed.

Lemma assert_true {S} e b (s : S) : b = true → assert_or e b s = Ok () s.
Proof. by intros ->. Qed.

Lemma assert_false {S} e b (s : S) : b = false → assert_or e b s = Err e s.
Proof. by intros ->. Qed.

(** [mrun H]: execute the leading operation of a bind with the equation [H]
    for it; [mstep] executes the leading primitive operations. *)
Ltac mrun H := rewrite (bind_Ok _ _ _ _ _ H); simpl.

Ltac munfold :=
  unfold mbind, M_bind, mret, M_ret, gets, get, modify, fail, nonnull in *.

#[global] Arguments le_bytes : simpl never.
#[global] Arguments le_value : simpl never.
#[global] Arguments wrap : simpl never.
