(* ===== verification/CFile.v ===== *)
(** * The C stdio calls the record/replay code uses

    The host's files are a finite map from path to contents; an open stream
    holds its path, its position and its end-of-file flag. [fwrite] stores its
    bytes at once (no user-space buffering is observable to the code, which
    never reads a file it has open for writing before closing it). A path of
    [h_readonly] cannot be opened for writing. *)

From S2P Require Import Prelude.

Record host := Host {
  h_files : gmap string (list byte);
  h_readonly : gset string;
}.

Record FILE := mkFILE {
  f_name : string;
  f_pos : nat;
  f_eof : bool;
}.

Definition h_data (h : host) (name : string) : list byte :=
  default [] (h_files h !! name).

(** [fopen(name, "r")]: null when there is no such file. *)
Definition fopen_r (h : host) (name : string) : option FILE :=
  match h_files h !! name with
  | Some _ => Some (mkFILE name 0 false)
  | None => None
  end.

(** [fopen(name, "w")]: truncates or creates the file. *)
Definition fopen_w (h : host) (name : string) : option FILE * host :=
  if decide (name ∈ h_readonly h) then (None, h)
  else (Some (mkFILE name 0 false),
        Host (<[name:=[]]> (h_files h)) (h_readonly h)).

(** What is left to read on a stream. *)
Definition f_rest (h : host) (f : FILE) : list byte := drop (f_pos f) (h_data h (f_name f)).

(** [fread] of [n] bytes in all: the bytes obtained (fewer than [n] at the end
    of the file) and the stream afterwards. *)
Definition fread (h : host) (f : FILE) (n : nat) : list byte * FILE :=
  let bs := take n (f_rest h f) in
  (bs, mkFILE (f_name f) (f_pos f + length bs)
              (f_eof f || (length bs <? n)%nat)).

(** [fwrite] of the bytes [bs] at the stream's position. *)
Definition fwrite (h : host) (f : FILE) (bs : list byte) : host * FILE :=
  let data := h_data h (f_name f) in
  let data' := take (f_pos f) data ++ bs ++ drop (f_pos f + length bs) data in
  (Host (<[f_name f:=data']> (h_files h)) (h_readonly h),
   mkFILE (f_name f) (f_pos f + length bs) (f_eof f)).

Definition rewind (f : FILE) : FILE := mkFILE (f_name f) 0 false.

(** [fseek(f, n, SEEK_SET)] and [fseek(f, n, SEEK_CUR)] clear the end-of-file
    flag and may move past the end of the file. *)
Definition fseek_set (f : FILE) (n : nat) : FILE := mkFILE (f_name f) n false.
Definition fseek_cur (f : FILE) (n : nat) : FILE := mkFILE (f_name f) (f_pos f + n) false.

Definition stat_size (h : host) (name : string) : Z := Z.of_nat (length (h_data h name)).

(** ** Lemmas *)

Lemma f_rest_app h f bs rest :
  f_rest h f = bs ++ rest →
  fread h f (length bs) =
    (bs, mkFILE (f_name f) (f_pos f + length bs) (f_eof f)).
Proof.
  intros H. unfold fread. rewrite H, take_app_length.
  by rewrite Nat.ltb_irrefl, orb_false_r.
Qed.

(** Reading what an encoder wrote: the [n] leading bytes are consumed. *)
Lemma fread_app h f n bs rest :
  f_rest h f = bs ++ rest → length bs = n →
  fread h f n = (bs, mkFILE (f_name f) (f_pos f + n) (f_eof f)).
Proof. intros H <-. by eapply f_rest_app. Qed.

Lemma f_rest_advance h f n eof bs rest :
  f_rest h f = bs ++ rest → length bs = n →
  f_rest h (mkFILE (f_name f) (f_pos f + n) eof) = rest.
Proof. unfold f_rest. simpl. intros H <-. by eapply drop_add_app. Qed.

Lemma fread_length h f n bs f' : fread h f n = (bs, f') → (length bs ≤ n)%nat.
Proof. unfold fread. intros [= <- _]. rewrite length_take. lia. Qed.

Lemma fread_name h f n bs f' : fread h f n = (bs, f') → f_name f' = f_name f.
Proof. unfold fread. by intros [= _ <-]. Qed.

Lemma fread_short h f n bs f' :
  fread h f n = (bs, f') → (length (f_rest h f) < n)%nat → (length bs < n)%nat.
Proof. unfold fread. intros [= <- _] ?. rewrite length_take. lia. Qed.

(** Appending at the end of the file. *)
Lemma fwrite_append h f bs :
  f_pos f = length (h_data h (f_name f)) →
  fwrite h f bs =
    (Host (<[f_name f:=h_data h (f_name f) ++ bs]> (h_files h)) (h_readonly h),
     mkFILE (f_name f) (f_pos f + length bs) (f_eof f)).
Proof.
  intros H. unfold fwrite. rewrite firstn_all2 by lia.
  rewrite drop_ge by lia. by rewrite app_nil_r.
Qed.

Lemma h_data_insert h name d ro :
  h_data (Host (<[name:=d]> (h_files h)) ro) name = d.
Proof. unfold h_data. simpl. by rewrite lookup_insert_eq. Qed.

Lemma h_data_lookup h name d : h_files h !! name = Some d → h_data h name = d.
Proof. unfold h_data. by intros ->. Qed.

Lemma h_data_insert_ne h name name' d ro :
  name ≠ name' →
  h_data (Host (<[name:=d]> (h_files h)) ro) name' = h_data h name'.
Proof. intros. unfold h_data. simpl. by rewrite lookup_insert_ne. Qed.

(** Rewriting a prefix of the same length keeps the rest of the file. *)
Lemma fwrite_prefix h f old bs rest :
  h_data h (f_name f) = old ++ rest → f_pos f = 0%nat → length bs = length old →
  h_data (fwrite h f bs).1 (f_name f) = bs ++ rest.
Proof.
  intros Hd Hp Hl. unfold fwrite. simpl. rewrite h_data_insert, Hp, Hd. simpl.
  by rewrite Hl, drop_app_length.
Qed.

