(* ===== verification/CString.v ===== *)
(** * C strings

    A C string is a [string] without the terminating NUL. [option] is a pointer
    that may be null. *)

From Stdlib Require Import Ascii.
From S2P Require Import Prelude.
Local Open Scope Z_scope.

(** ** Paths *)

Definition slash : ascii := "/"%char.

Fixpoint drop_while {A} (p : A → bool) (l : list A) : list A :=
  match l with [] => [] | x :: l' => if p x then drop_while p l' else l end.
Fixpoint take_while {A} (p : A → bool) (l : list A) : list A :=
  match l with [] => [] | x :: l' => if p x then x :: take_while p l' else [] end.

Definition is_slash (c : ascii) : bool := bool_decide (c = slash).

(** POSIX [basename] and [dirname]; [None] is a null argument. *)
Definition basename (path : option string) : string :=
  match path with
  | None | Some EmptyString => "."
  | Some s =>
      match drop_while is_slash (reverse (String.list_ascii_of_string s)) with
      | [] => "/"
      | r => String.string_of_list_ascii (reverse (take_while (λ c, negb (is_slash c)) r))
      end
  end.

Definition dirname (path : option string) : string :=
  match path with
  | None | Some EmptyString => "."
  | Some s =>
      match drop_while is_slash (reverse (String.list_ascii_of_string s)) with
      | [] => "/"
      | r =>
          match drop_while (λ c, negb (is_slash c)) r with
          | [] => "."
          | r' =>
              match drop_while is_slash r' with
              | [] => "/"
              | r'' => String.string_of_list_ascii (reverse r'')
              end
          end
      end
  end.

(** [strncpy(dst, src, n)], read back as at most [n] characters, and
    [snprintf] into a buffer of [n] bytes. *)
Definition strncpy (src : string) (n : nat) : string := String.substring 0 n src.
Definition snprintf (n : nat) (s : string) : string := String.substring 0 (n - 1) s.

(** [strncmp(a, b, n) == 0]. *)
Definition strneq (a b : string) (n : nat) : bool :=
  String.eqb (String.substring 0 n a) (String.substring 0 n b).

Lemma substring_twice n (s : string) :
  String.substring 0 n (String.substring 0 n s) = String.substring 0 n s.
Proof.
  revert n. induction s as [|c s IH]; intros [|n]; simpl; [done..|]. by rewrite IH.
Qed.

(** A copy compares equal to the original, up to the same length. *)
Lemma strneq_strncpy (s : string) n : strneq (strncpy s n) s n = true.
Proof. unfold strneq, strncpy. by rewrite substring_twice, String.eqb_refl. Qed.
