(* ===== verification/RRTypes.v ===== *)
(** * The data of record/replay

    The enumerations, program points, log entries and log descriptor of
    [rr_log_all.h] and [rr_log.h]. A tagged union (a kind byte with a C union
    beside it) is an inductive type whose constructor is the tag. *)

From S2P Require Import Prelude CFile.

(** ** Modes, kinds and call sites *)

Inductive RR_mode := RR_OFF | RR_RECORD | RR_REPLAY.
Inductive RR_log_type := RECORD | REPLAY.

Inductive RR_skipped_call_kind :=
| RR_CALL_CPU_MEM_RW
| RR_CALL_CPU_REG_MEM_REGION
| RR_CALL_CPU_MEM_UNMAP
| RR_CALL_HD_TRANSFER
| RR_CALL_NET_TRANSFER
| RR_CALL_HANDLE_PACKET
| RR_CALL_LAST.

Definition call_kind_Z (c : RR_skipped_call_kind) : Z :=
  match c with
  | RR_CALL_CPU_MEM_RW => 0
  | RR_CALL_CPU_REG_MEM_REGION => 1
  | RR_CALL_CPU_MEM_UNMAP => 2
  | RR_CALL_HD_TRANSFER => 3
  | RR_CALL_NET_TRANSFER => 4
  | RR_CALL_HANDLE_PACKET => 5
  | RR_CALL_LAST => 6
  end.

Definition call_kind_name (c : RR_skipped_call_kind) : string :=
  match c with
  | RR_CALL_CPU_MEM_RW => "RR_CALL_CPU_MEM_RW"
  | RR_CALL_CPU_REG_MEM_REGION => "RR_CALL_CPU_REG_MEM_REGION"
  | RR_CALL_CPU_MEM_UNMAP => "RR_CALL_CPU_MEM_UNMAP"
  | RR_CALL_HD_TRANSFER => "RR_CALL_HD_TRANSFER"
  | RR_CALL_NET_TRANSFER => "RR_CALL_NET_TRANSFER"
  | RR_CALL_HANDLE_PACKET => "RR_CALL_HANDLE_PACKET"
  | RR_CALL_LAST => "RR_CALL_LAST"
  end.

Definition skipped_call_kind_str : list string :=
  [ "RR_CALL_CPU_MEM_RW";
    "RR_CALL_CPU_REG_MEM_REGION";
    "RR_CALL_CPU_MEM_UNMAP";
    "RR_CALL_HD_TRANSFER";
    "RR_CALL_NET_TRANSFER";
    "RR_CALL_HANDLE_PACKET";
    "RR_CALL_LAST" ].

Inductive RR_log_entry_kind :=
| RR_INPUT_1
| RR_INPUT_2
| RR_INPUT_4
| RR_INPUT_8
| RR_INTERRUPT_REQUEST
| RR_EXIT_REQUEST
| RR_SKIPPED_CALL
| RR_DEBUG
| RR_LAST.

Definition kind_Z (c : RR_log_entry_kind) : Z :=
  match c with
  | RR_INPUT_1 => 0
  | RR_INPUT_2 => 1
  | RR_INPUT_4 => 2
  | RR_INPUT_8 => 3
  | RR_INTERRUPT_REQUEST => 4
  | RR_EXIT_REQUEST => 5
  | RR_SKIPPED_CALL => 6
  | RR_DEBUG => 7
  | RR_LAST => 8
  end.

Definition kind_name (c : RR_log_entry_kind) : string :=
  match c with
  | RR_INPUT_1 => "RR_INPUT_1"
  | RR_INPUT_2 => "RR_INPUT_2"
  | RR_INPUT_4 => "RR_INPUT_4"
  | RR_INPUT_8 => "RR_INPUT_8"
  | RR_INTERRUPT_REQUEST => "RR_INTERRUPT_REQUEST"
  | RR_EXIT_REQUEST => "RR_EXIT_REQUEST"
  | RR_SKIPPED_CALL => "RR_SKIPPED_CALL"
  | RR_DEBUG => "RR_DEBUG"
  | RR_LAST => "RR_LAST"
  end.

Definition log_entry_kind_str : list string :=
  [ "RR_INPUT_1";
    "RR_INPUT_2";
    "RR_INPUT_4";
    "RR_INPUT_8";
    "RR_INTERRUPT_REQUEST";
    "RR_EXIT_REQUEST";
    "RR_SKIPPED_CALL";
    "RR_DEBUG";
    "RR_LAST" ].
(** The enumerators of [RR_callsite_id], in the order of the header. *)
Inductive RR_callsite_id :=
| RR_CALLSITE_DEFAULT_IOPORT_READW
| RR_CALLSITE_CPU_INB
| RR_CALLSITE_CPU_INW
| RR_CALLSITE_CPU_INL
| RR_CALLSITE_CPU_PHYSICAL_MEMORY_RW_1
| RR_CALLSITE_CPU_PHYSICAL_MEMORY_RW_2
| RR_CALLSITE_CPU_PHYSICAL_MEMORY_RW_3
| RR_CALLSITE_CPU_PHYSICAL_MEMORY_RW_4
| RR_CALLSITE_CPU_PHYSICAL_MEMORY_UNMAP
| RR_CALLSITE_LDL_PHYS
| RR_CALLSITE_LDQ_PHYS
| RR_CALLSITE_IO_READ_0
| RR_CALLSITE_IO_READ_1
| RR_CALLSITE_IO_READ_2
| RR_CALLSITE_IO_READ_3
| RR_CALLSITE_WAIT_IO_EVENT
| RR_CALLSITE_CPU_EXEC_0
| RR_CALLSITE_CPU_EXEC_00
| RR_CALLSITE_CPU_EXEC_000
| RR_CALLSITE_CPU_EXEC_1
| RR_CALLSITE_CPU_EXEC_2
| RR_CALLSITE_CPU_EXEC_3
| RR_CALLSITE_CPU_EXEC_4
| RR_CALLSITE_CPU_EXEC_DBG
| RR_CALLSITE_CPU_HALTED
| RR_CALLSITE_RDTSC
| RR_CALLSITE_TB_INVALIDATE_PHYS_PAGE_RANGE
| RR_CALLSITE_CPU_OUTB
| RR_CALLSITE_CPU_OUTW
| RR_CALLSITE_CPU_OUTL
| RR_CALLSITE_IO_WRITE_0
| RR_CALLSITE_IO_WRITE_1
| RR_CALLSITE_IO_WRITE_2
| RR_CALLSITE_IO_WRITE_3
| RR_CALLSITE_DEFAULT_IOPORT_WRITEW
| RR_CALLSITE_MAIN_LOOP
| RR_CALLSITE_MAIN_LOOP_WAIT
| RR_CALLSITE_PHYS_MEM_IO_1
| RR_CALLSITE_PHYS_MEM_IO_2
| RR_CALLSITE_PHYS_MEM_IO_3
| RR_CALLSITE_STL_PHYS_ND
| RR_CALLSITE_STQ_PHYS_ND
| RR_CALLSITE_STL_PHYS
| RR_CALLSITE_DO_SMM_ENTER
| RR_CALLSITE_HELPER_RSM
| RR_CALLSITE_IOPORT_READ
| RR_CALLSITE_IOPORT_WRITE
| RR_CALLSITE_SPARC_CPU_EXEC_1
| RR_CALLSITE_MIPS_CPU_EXEC_1
| RR_CALLSITE_IDE_SECTOR_READ
| RR_CALLSITE_IDE_SECTOR_WRITE
| RR_CALLSITE_IDE_DMA_CB
| RR_CALLSITE_IDE_DATA_WRITEW
| RR_CALLSITE_IDE_DATA_WRITEL
| RR_CALLSITE_IDE_DATA_READW
| RR_CALLSITE_IDE_DATA_READL
| RR_CALLSITE_E1000_RECEIVE_1
| RR_CALLSITE_E1000_RECEIVE_2
| RR_CALLSITE_E1000_RECEIVE_3
| RR_CALLSITE_E1000_RECEIVE_MEMCPY_1
| RR_CALLSITE_E1000_XMIT_SEG_1
| RR_CALLSITE_E1000_XMIT_SEG_2
| RR_CALLSITE_E1000_PROCESS_TX_DESC_1
| RR_CALLSITE_E1000_PROCESS_TX_DESC_2
| RR_CALLSITE_E1000_PROCESS_TX_DESC_MEMMOVE_1
| RR_CALLSITE_E1000_PROCESS_TX_DESC_MEMMOVE_2
| RR_CALLSITE_E1000_TXDESC_WRITEBACK
| RR_CALLSITE_E1000_START_XMIT
| RR_CALLSITE_LAST.

Definition callsite_Z (c : RR_callsite_id) : Z :=
  match c with
  | RR_CALLSITE_DEFAULT_IOPORT_READW => 0
  | RR_CALLSITE_CPU_INB => 1
  | RR_CALLSITE_CPU_INW => 2
  | RR_CALLSITE_CPU_INL => 3
  | RR_CALLSITE_CPU_PHYSICAL_MEMORY_RW_1 => 4
  | RR_CALLSITE_CPU_PHYSICAL_MEMORY_RW_2 => 5
  | RR_CALLSITE_CPU_PHYSICAL_MEMORY_RW_3 => 6
  | RR_CALLSITE_CPU_PHYSICAL_MEMORY_RW_4 => 7
  | RR_CALLSITE_CPU_PHYSICAL_MEMORY_UNMAP => 8
  | RR_CALLSITE_LDL_PHYS => 9
  | RR_CALLSITE_LDQ_PHYS => 10
  | RR_CALLSITE_IO_READ_0 => 11
  | RR_CALLSITE_IO_READ_1 => 12
  | RR_CALLSITE_IO_READ_2 => 13
  | RR_CALLSITE_IO_READ_3 => 14
  | RR_CALLSITE_WAIT_IO_EVENT => 15
  | RR_CALLSITE_CPU_EXEC_0 => 16
  | RR_CALLSITE_CPU_EXEC_00 => 17
  | RR_CALLSITE_CPU_EXEC_000 => 18
  | RR_CALLSITE_CPU_EXEC_1 => 19
  | RR_CALLSITE_CPU_EXEC_2 => 20
  | RR_CALLSITE_CPU_EXEC_3 => 21
  | RR_CALLSITE_CPU_EXEC_4 => 22
  | RR_CALLSITE_CPU_EXEC_DBG => 23
  | RR_CALLSITE_CPU_HALTED => 24
  | RR_CALLSITE_RDTSC => 25
  | RR_CALLSITE_TB_INVALIDATE_PHYS_PAGE_RANGE => 26
  | RR_CALLSITE_CPU_OUTB => 27
  | RR_CALLSITE_CPU_OUTW => 28
  | RR_CALLSITE_CPU_OUTL => 29
  | RR_CALLSITE_IO_WRITE_0 => 30
  | RR_CALLSITE_IO_WRITE_1 => 31
  | RR_CALLSITE_IO_WRITE_2 => 32
  | RR_CALLSITE_IO_WRITE_3 => 33
  | RR_CALLSITE_DEFAULT_IOPORT_WRITEW => 34
  | RR_CALLSITE_MAIN_LOOP => 35
  | RR_CALLSITE_MAIN_LOOP_WAIT => 36
  | RR_CALLSITE_PHYS_MEM_IO_1 => 37
  | RR_CALLSITE_PHYS_MEM_IO_2 => 38
  | RR_CALLSITE_PHYS_MEM_IO_3 => 39
  | RR_CALLSITE_STL_PHYS_ND => 40
  | RR_CALLSITE_STQ_PHYS_ND => 41
  | RR_CALLSITE_STL_PHYS => 42
  | RR_CALLSITE_DO_SMM_ENTER => 43
  | RR_CALLSITE_HELPER_RSM => 44
  | RR_CALLSITE_IOPORT_READ => 45
  | RR_CALLSITE_IOPORT_WRITE => 46
  | RR_CALLSITE_SPARC_CPU_EXEC_1 => 47
  | RR_CALLSITE_MIPS_CPU_EXEC_1 => 48
  | RR_CALLSITE_IDE_SECTOR_READ => 49
  | RR_CALLSITE_IDE_SECTOR_WRITE => 50
  | RR_CALLSITE_IDE_DMA_CB => 51
  | RR_CALLSITE_IDE_DATA_WRITEW => 52
  | RR_CALLSITE_IDE_DATA_WRITEL => 53
  | RR_CALLSITE_IDE_DATA_READW => 54
  | RR_CALLSITE_IDE_DATA_READL => 55
  | RR_CALLSITE_E1000_RECEIVE_1 => 56
  | RR_CALLSITE_E1000_RECEIVE_2 => 57
  | RR_CALLSITE_E1000_RECEIVE_3 => 58
  | RR_CALLSITE_E1000_RECEIVE_MEMCPY_1 => 59
  | RR_CALLSITE_E1000_XMIT_SEG_1 => 60
  | RR_CALLSITE_E1000_XMIT_SEG_2 => 61
  | RR_CALLSITE_E1000_PROCESS_TX_DESC_1 => 62
  | RR_CALLSITE_E1000_PROCESS_TX_DESC_2 => 63
  | RR_CALLSITE_E1000_PROCESS_TX_DESC_MEMMOVE_1 => 64
  | RR_CALLSITE_E1000_PROCESS_TX_DESC_MEMMOVE_2 => 65
  | RR_CALLSITE_E1000_TXDESC_WRITEBACK => 66
  | RR_CALLSITE_E1000_START_XMIT => 67
  | RR_CALLSITE_LAST => 68
  end.

Definition callsite_name (c : RR_callsite_id) : string :=
  match c with
  | RR_CALLSITE_DEFAULT_IOPORT_READW => "RR_CALLSITE_DEFAULT_IOPORT_READW"
  | RR_CALLSITE_CPU_INB => "RR_CALLSITE_CPU_INB"
  | RR_CALLSITE_CPU_INW => "RR_CALLSITE_CPU_INW"
  | RR_CALLSITE_CPU_INL => "RR_CALLSITE_CPU_INL"
  | RR_CALLSITE_CPU_PHYSICAL_MEMORY_RW_1 => "RR_CALLSITE_CPU_PHYSICAL_MEMORY_RW_1"
  | RR_CALLSITE_CPU_PHYSICAL_MEMORY_RW_2 => "RR_CALLSITE_CPU_PHYSICAL_MEMORY_RW_2"
  | RR_CALLSITE_CPU_PHYSICAL_MEMORY_RW_3 => "RR_CALLSITE_CPU_PHYSICAL_MEMORY_RW_3"
  | RR_CALLSITE_CPU_PHYSICAL_MEMORY_RW_4 => "RR_CALLSITE_CPU_PHYSICAL_MEMORY_RW_4"
  | RR_CALLSITE_CPU_PHYSICAL_MEMORY_UNMAP => "RR_CALLSITE_CPU_PHYSICAL_MEMORY_UNMAP"
  | RR_CALLSITE_LDL_PHYS => "RR_CALLSITE_LDL_PHYS"
  | RR_CALLSITE_LDQ_PHYS => "RR_CALLSITE_LDQ_PHYS"
  | RR_CALLSITE_IO_READ_0 => "RR_CALLSITE_IO_READ_0"
  | RR_CALLSITE_IO_READ_1 => "RR_CALLSITE_IO_READ_1"
  | RR_CALLSITE_IO_READ_2 => "RR_CALLSITE_IO_READ_2"
  | RR_CALLSITE_IO_READ_3 => "RR_CALLSITE_IO_READ_3"
  | RR_CALLSITE_WAIT_IO_EVENT => "RR_CALLSITE_WAIT_IO_EVENT"
  | RR_CALLSITE_CPU_EXEC_0 => "RR_CALLSITE_CPU_EXEC_0"
  | RR_CALLSITE_CPU_EXEC_00 => "RR_CALLSITE_CPU_EXEC_00"
  | RR_CALLSITE_CPU_EXEC_000 => "RR_CALLSITE_CPU_EXEC_000"
  | RR_CALLSITE_CPU_EXEC_1 => "RR_CALLSITE_CPU_EXEC_1"
  | RR_CALLSITE_CPU_EXEC_2 => "RR_CALLSITE_CPU_EXEC_2"
  | RR_CALLSITE_CPU_EXEC_3 => "RR_CALLSITE_CPU_EXEC_3"
  | RR_CALLSITE_CPU_EXEC_4 => "RR_CALLSITE_CPU_EXEC_4"
  | RR_CALLSITE_CPU_EXEC_DBG => "RR_CALLSITE_CPU_EXEC_DBG"
  | RR_CALLSITE_CPU_HALTED => "RR_CALLSITE_CPU_HALTED"
  | RR_CALLSITE_RDTSC => "RR_CALLSITE_RDTSC"
  | RR_CALLSITE_TB_INVALIDATE_PHYS_PAGE_RANGE => "RR_CALLSITE_TB_INVALIDATE_PHYS_PAGE_RANGE"
  | RR_CALLSITE_CPU_OUTB => "RR_CALLSITE_CPU_OUTB"
  | RR_CALLSITE_CPU_OUTW => "RR_CALLSITE_CPU_OUTW"
  | RR_CALLSITE_CPU_OUTL => "RR_CALLSITE_CPU_OUTL"
  | RR_CALLSITE_IO_WRITE_0 => "RR_CALLSITE_IO_WRITE_0"
  | RR_CALLSITE_IO_WRITE_1 => "RR_CALLSITE_IO_WRITE_1"
  | RR_CALLSITE_IO_WRITE_2 => "RR_CALLSITE_IO_WRITE_2"
  | RR_CALLSITE_IO_WRITE_3 => "RR_CALLSITE_IO_WRITE_3"
  | RR_CALLSITE_DEFAULT_IOPORT_WRITEW => "RR_CALLSITE_DEFAULT_IOPORT_WRITEW"
  | RR_CALLSITE_MAIN_LOOP => "RR_CALLSITE_MAIN_LOOP"
  | RR_CALLSITE_MAIN_LOOP_WAIT => "RR_CALLSITE_MAIN_LOOP_WAIT"
  | RR_CALLSITE_PHYS_MEM_IO_1 => "RR_CALLSITE_PHYS_MEM_IO_1"
  | RR_CALLSITE_PHYS_MEM_IO_2 => "RR_CALLSITE_PHYS_MEM_IO_2"
  | RR_CALLSITE_PHYS_MEM_IO_3 => "RR_CALLSITE_PHYS_MEM_IO_3"
  | RR_CALLSITE_STL_PHYS_ND => "RR_CALLSITE_STL_PHYS_ND"
  | RR_CALLSITE_STQ_PHYS_ND => "RR_CALLSITE_STQ_PHYS_ND"
  | RR_CALLSITE_STL_PHYS => "RR_CALLSITE_STL_PHYS"
  | RR_CALLSITE_DO_SMM_ENTER => "RR_CALLSITE_DO_SMM_ENTER"
  | RR_CALLSITE_HELPER_RSM => "RR_CALLSITE_HELPER_RSM"
  | RR_CALLSITE_IOPORT_READ => "RR_CALLSITE_IOPORT_READ"
  | RR_CALLSITE_IOPORT_WRITE => "RR_CALLSITE_IOPORT_WRITE"
  | RR_CALLSITE_SPARC_CPU_EXEC_1 => "RR_CALLSITE_SPARC_CPU_EXEC_1"
  | RR_CALLSITE_MIPS_CPU_EXEC_1 => "RR_CALLSITE_MIPS_CPU_EXEC_1"
  | RR_CALLSITE_IDE_SECTOR_READ => "RR_CALLSITE_IDE_SECTOR_READ"
  | RR_CALLSITE_IDE_SECTOR_WRITE => "RR_CALLSITE_IDE_SECTOR_WRITE"
  | RR_CALLSITE_IDE_DMA_CB => "RR_CALLSITE_IDE_DMA_CB"
  | RR_CALLSITE_IDE_DATA_WRITEW => "RR_CALLSITE_IDE_DATA_WRITEW"
  | RR_CALLSITE_IDE_DATA_WRITEL => "RR_CALLSITE_IDE_DATA_WRITEL"
  | RR_CALLSITE_IDE_DATA_READW => "RR_CALLSITE_IDE_DATA_READW"
  | RR_CALLSITE_IDE_DATA_READL => "RR_CALLSITE_IDE_DATA_READL"
  | RR_CALLSITE_E1000_RECEIVE_1 => "RR_CALLSITE_E1000_RECEIVE_1"
  | RR_CALLSITE_E1000_RECEIVE_2 => "RR_CALLSITE_E1000_RECEIVE_2"
  | RR_CALLSITE_E1000_RECEIVE_3 => "RR_CALLSITE_E1000_RECEIVE_3"
  | RR_CALLSITE_E1000_RECEIVE_MEMCPY_1 => "RR_CALLSITE_E1000_RECEIVE_MEMCPY_1"
  | RR_CALLSITE_E1000_XMIT_SEG_1 => "RR_CALLSITE_E1000_XMIT_SEG_1"
  | RR_CALLSITE_E1000_XMIT_SEG_2 => "RR_CALLSITE_E1000_XMIT_SEG_2"
  | RR_CALLSITE_E1000_PROCESS_TX_DESC_1 => "RR_CALLSITE_E1000_PROCESS_TX_DESC_1"
  | RR_CALLSITE_E1000_PROCESS_TX_DESC_2 => "RR_CALLSITE_E1000_PROCESS_TX_DESC_2"
  | RR_CALLSITE_E1000_PROCESS_TX_DESC_MEMMOVE_1 => "RR_CALLSITE_E1000_PROCESS_TX_DESC_MEMMOVE_1"
  | RR_CALLSITE_E1000_PROCESS_TX_DESC_MEMMOVE_2 => "RR_CALLSITE_E1000_PROCESS_TX_DESC_MEMMOVE_2"
  | RR_CALLSITE_E1000_TXDESC_WRITEBACK => "RR_CALLSITE_E1000_TXDESC_WRITEBACK"
  | RR_CALLSITE_E1000_START_XMIT => "RR_CALLSITE_E1000_START_XMIT"
  | RR_CALLSITE_LAST => "RR_CALLSITE_LAST"
  end.

(** The string table [callsite_str] of the header, indexed by enumerator. *)
Definition callsite_str : list string :=
  [ "RR_CALLSITE_DEFAULT_IOPORT_READW";
    "RR_CALLSITE_CPU_INB";
    "RR_CALLSITE_CPU_INW";
    "RR_CALLSITE_CPU_INL";
    "RR_CALLSITE_CPU_PHYSICAL_MEMORY_RW_1";
    "RR_CALLSITE_CPU_PHYSICAL_MEMORY_RW_2";
    "RR_CALLSITE_CPU_PHYSICAL_MEMORY_RW_3";
    "RR_CALLSITE_CPU_PHYSICAL_MEMORY_RW_4";
    "RR_CALLSITE_CPU_PHYSICAL_MEMORY_UNMAP";
    "RR_CALLSITE_LDL_PHYS";
    "RR_CALLSITE_LDQ_PHYS";
    "RR_CALLSITE_IO_READ_0";
    "RR_CALLSITE_IO_READ_1";
    "RR_CALLSITE_IO_READ_2";
    "RR_CALLSITE_IO_READ_3";
    "RR_CALLSITE_WAIT_IO_EVENT";
    "RR_CALLSITE_CPU_EXEC_0";
    "RR_CALLSITE_CPU_EXEC_00";
    "RR_CALLSITE_CPU_EXEC_000";
    "RR_CALLSITE_CPU_EXEC_1";
    "RR_CALLSITE_CPU_EXEC_2";
    "RR_CALLSITE_CPU_EXEC_3";
    "RR_CALLSITE_CPU_EXEC_4";
    "RR_CALLSITE_CPU_EXEC_DBG";
    "RR_CALLSITE_CPU_HALTED";
    "RR_CALLSITE_RDTSC";
    "RR_CALLSITE_TB_INVALIDATE_PHYS_PAGE_RANGE";
    "RR_CALLSITE_CPU_OUTB";
    "RR_CALLSITE_CPU_OUTW";
    "RR_CALLSITE_CPU_OUTL";
    "RR_CALLSITE_IO_WRITE_0";
    "RR_CALLSITE_IO_WRITE_1";
    "RR_CALLSITE_IO_WRITE_2";
    "RR_CALLSITE_IO_WRITE_3";
    "RR_CALLSITE_DEFAULT_IOPORT_WRITEW";
    "RR_CALLSITE_MAIN_LOOP";
    "RR_CALLSITE_MAIN_LOOP_WAIT";
    "RR_CALLSITE_PHYS_MEM_IO_1";
    "RR_CALLSITE_PHYS_MEM_IO_2";
    "RR_CALLSITE_PHYS_MEM_IO_3";
    "RR_CALLSITE_STL_PHYS_ND";
    "RR_CALLSITE_STQ_PHYS_ND";
    "RR_CALLSITE_STL_PHYS";
    "RR_CALLSITE_DO_SMM_ENTER";
    "RR_CALLSITE_HELPER_RSM";
    "RR_CALLSITE_IOPORT_READ";
    "RR_CALLSITE_IOPORT_WRITE";
    "RR_CALLSITE_SPARC_CPU_EXEC_1";
    "RR_CALLSITE_MIPS_CPU_EXEC_1";
    "RR_CALLSITE_IDE_SECTOR_READ";
    "RR_CALLSITE_IDE_SECTOR_WRITE";
    "RR_CALLSITE_IDE_DMA_CB";
    "RR_CALLSITE_IDE_DATA_WRITEW";
    "RR_CALLSITE_IDE_DATA_WRITEL";
    "RR_CALLSITE_IDE_DATA_READW";
    "RR_CALLSITE_IDE_DATA_READL";
    "RR_CALLSITE_E1000_RECEIVE_1";
    "RR_CALLSITE_E1000_RECEIVE_2";
    "RR_CALLSITE_E1000_RECEIVE_3";
    "RR_CALLSITE_E1000_RECEIVE_MEMCPY_1";
    "RR_CALLSITE_E1000_XMIT_SEG_1";
    "RR_CALLSITE_E1000_XMIT_SEG_2";
    "RR_CALLSITE_E1000_PROCESS_TX_DESC_1";
    "RR_CALLSITE_E1000_PROCESS_TX_DESC_2";
    "RR_CALLSITE_E1000_PROCESS_TX_DESC_MEMMOVE_1";
    "RR_CALLSITE_E1000_PROCESS_TX_DESC_MEMMOVE_2";
    "RR_CALLSITE_E1000_TXDESC_WRITEBACK";
    "RR_CALLSITE_E1000_START_XMIT";
    "RR_CALLSITE_LAST" ].

#[export] Instance RR_mode_eq_dec : EqDecision RR_mode.
Proof. solve_decision. Defined.
#[export] Instance RR_log_type_eq_dec : EqDecision RR_log_type.
Proof. solve_decision. Defined.
#[export] Instance RR_log_entry_kind_eq_dec : EqDecision RR_log_entry_kind.
Proof. solve_decision. Defined.
#[export] Instance RR_skipped_call_kind_eq_dec : EqDecision RR_skipped_call_kind.
Proof. solve_decision. Defined.

(** The enumerator stored in a kind byte, if it is one. *)
Definition kind_of_Z (z : Z) : option RR_log_entry_kind :=
  match z with
  | 0 => Some RR_INPUT_1 | 1 => Some RR_INPUT_2 | 2 => Some RR_INPUT_4
  | 3 => Some RR_INPUT_8 | 4 => Some RR_INTERRUPT_REQUEST
  | 5 => Some RR_EXIT_REQUEST | 6 => Some RR_SKIPPED_CALL
  | 7 => Some RR_DEBUG | 8 => Some RR_LAST
  | _ => None
  end.

Definition call_kind_of_Z (z : Z) : option RR_skipped_call_kind :=
  match z with
  | 0 => Some RR_CALL_CPU_MEM_RW | 1 => Some RR_CALL_CPU_REG_MEM_REGION
  | 2 => Some RR_CALL_CPU_MEM_UNMAP | 3 => Some RR_CALL_HD_TRANSFER
  | 4 => Some RR_CALL_NET_TRANSFER | 5 => Some RR_CALL_HANDLE_PACKET
  | 6 => Some RR_CALL_LAST
  | _ => None
  end.

(** [get_..._string]: a null pointer outside the table. *)
Definition get_skipped_call_kind_string (kind : Z) : option string :=
  if kind <=? call_kind_Z RR_CALL_LAST
  then skipped_call_kind_str !! Z.to_nat kind else None.

Definition get_log_entry_kind_string (kind : Z) : option string :=
  if kind <=? kind_Z RR_LAST then log_entry_kind_str !! Z.to_nat kind else None.

Definition get_callsite_string (cid : Z) : option string :=
  if cid <=? callsite_Z RR_CALLSITE_LAST
  then callsite_str !! Z.to_nat cid else None.

(** ** Program points *)

Record RR_prog_point := mkPP {
  pc : Z;
  secondary : Z;
  guest_instr_count : Z;
}.

#[export] Instance RR_prog_point_eq_dec : EqDecision RR_prog_point.
Proof. solve_decision. Defined.

Definition pp_zero : RR_prog_point := mkPP 0 0 0.

(** ** Host buffers

    A [uint8_t *] of the emulator: null, or an address with the initialised
    bytes found there. *)
Inductive host_buf :=
| NULLbuf
| HBuf (addr : Z) (data : list byte).

Definition buf_addr (b : host_buf) : Z :=
  match b with NULLbuf => 0 | HBuf a _ => a end.
Definition buf_data (b : host_buf) : list byte :=
  match b with NULLbuf => [] | HBuf _ d => d end.
Definition buf_is_null (b : host_buf) : bool :=
  match b with NULLbuf => true | HBuf _ _ => false end.

(** ** Arguments of skipped calls *)

Record RR_cpu_mem_rw_args := mkMemRw { rw_addr : Z; rw_buf : host_buf; rw_len : Z }.
Record RR_cpu_reg_mem_region_args :=
  mkRegion { rg_start_addr : Z; rg_size : Z; rg_phys_offset : Z }.
Record RR_cpu_mem_unmap := mkUnmap { um_addr : Z; um_buf : host_buf; um_len : Z }.
Record RR_hd_transfer_args :=
  mkHd { hd_type : Z; hd_src_addr : Z; hd_dest_addr : Z; hd_num_bytes : Z }.
Record RR_net_transfer_args :=
  mkNet { nt_type : Z; nt_src_addr : Z; nt_dest_addr : Z; nt_num_bytes : Z }.
Record RR_handle_packet_args := mkPacket { hp_buf : host_buf; hp_size : Z; hp_direction : Z }.

(** [RR_skipped_call_args]: the kind byte with the union; [old_buf_addr] is
    only set for packets. *)
Inductive RR_skipped_call_args :=
| ArgsMemRw (a : RR_cpu_mem_rw_args)
| ArgsRegion (a : RR_cpu_reg_mem_region_args)
| ArgsUnmap (a : RR_cpu_mem_unmap)
| ArgsHd (a : RR_hd_transfer_args)
| ArgsNet (a : RR_net_transfer_args)
| ArgsPacket (a : RR_handle_packet_args) (old_buf_addr : Z).

Definition call_kind (a : RR_skipped_call_args) : RR_skipped_call_kind :=
  match a with
  | ArgsMemRw _ => RR_CALL_CPU_MEM_RW
  | ArgsRegion _ => RR_CALL_CPU_REG_MEM_REGION
  | ArgsUnmap _ => RR_CALL_CPU_MEM_UNMAP
  | ArgsHd _ => RR_CALL_HD_TRANSFER
  | ArgsNet _ => RR_CALL_NET_TRANSFER
  | ArgsPacket _ _ => RR_CALL_HANDLE_PACKET
  end.

(** ** Log entries *)

Inductive RR_variant :=
| VInput1 (v : Z)
| VInput2 (v : Z)
| VInput4 (v : Z)
| VInput8 (v : Z)
| VInterrupt (v : Z)
| VExit (v : Z)
| VCall (a : RR_skipped_call_args)
| VDebug
| VLast.

Definition variant_kind (v : RR_variant) : RR_log_entry_kind :=
  match v with
  | VInput1 _ => RR_INPUT_1
  | VInput2 _ => RR_INPUT_2
  | VInput4 _ => RR_INPUT_4
  | VInput8 _ => RR_INPUT_8
  | VInterrupt _ => RR_INTERRUPT_REQUEST
  | VExit _ => RR_EXIT_REQUEST
  | VCall _ => RR_SKIPPED_CALL
  | VDebug => RR_DEBUG
  | VLast => RR_LAST
  end.

(** [RR_log_entry] without its [next] link: the header (program point and call
    site; the kind is the constructor of the variant) and the variant. *)
Record RR_log_entry := mkEntry {
  prog_point : RR_prog_point;
  callsite_loc : Z;
  variant : RR_variant;
}.

Definition kind (e : RR_log_entry) : RR_log_entry_kind := variant_kind (variant e).

(** A zeroed entry ([memset(item, 0, sizeof(RR_log_entry))]). *)
Definition entry_zero : RR_log_entry := mkEntry pp_zero 0 (VInput1 0).

(** ** The log descriptor *)

Record RR_log := mkLog {
  log_type : RR_log_type;
  last_prog_point : RR_prog_point;
  log_name : string;
  log_fp : option FILE;
  log_size : Z;
  bytes_read : Z;
  current_item : RR_log_entry;
  item_number : Z;
}.

(** ** Configuration: the width of [target_phys_addr_t]

    64 bits for the i386 and x86_64 targets, 32 for arm. *)
Inductive phys_bits := PHYS32 | PHYS64.
Class TargetPhys := target_phys_bits : phys_bits.

Definition phys_bytes `{TargetPhys} : nat :=
  match target_phys_bits with PHYS32 => 4%nat | PHYS64 => 8%nat end.
Definition phys_width `{TargetPhys} : Z := 8 * Z.of_nat phys_bytes.

(** ** Theorems *)

Lemma kind_of_kind_Z k : kind_of_Z (kind_Z k) = Some k.
Proof. by destruct k. Qed.

Lemma call_kind_of_kind_Z k : call_kind_of_Z (call_kind_Z k) = Some k.
Proof. by destruct k. Qed.

Lemma kind_Z_of_kind z k : kind_of_Z z = Some k → z = kind_Z k.
Proof.
  unfold kind_of_Z.
  repeat (case_match; try done); intros; simplify_eq; done.
Qed.

Lemma kind_Z_byte k : in_width 8 (kind_Z k).
Proof. by destruct k. Qed.

Lemma call_kind_Z_byte k : in_width 8 (call_kind_Z k).
Proof. by destruct k. Qed.

Lemma callsite_Z_byte c : in_width 8 (callsite_Z c).
Proof. by destruct c. Qed.

#[export] Hint Resolve kind_Z_byte call_kind_Z_byte callsite_Z_byte : width.

Lemma phys_width_cases `{TargetPhys} : phys_width = 32 ∨ phys_width = 64.
Proof. unfold phys_width, phys_bytes. destruct target_phys_bits; auto. Qed.

(** The three name tables are aligned with their enumerations, and every call
    site fits the byte it is stored in. *)
Theorem name_tables_aligned :
  (∀ k, get_log_entry_kind_string (kind_Z k) = Some (kind_name k)) ∧
  (∀ k, get_skipped_call_kind_string (call_kind_Z k) = Some (call_kind_name k)) ∧
  (∀ c, get_callsite_string (callsite_Z c) = Some (callsite_name c)
        ∧ wrap 8 (callsite_Z c) = callsite_Z c).
Proof.
  split; [|split].
  - by intros [].
  - by intros [].
  - intros c. split; [by destruct c|]. apply wrap_small, callsite_Z_byte.
Qed.
