(* ===== verification/PandaCallbacks.v ===== *)
(** * Plugin callback lists ([panda_plugin.c], [panda_plugin.h])

    One doubly linked list of callbacks per event type, threaded through heap
    nodes with [next] and [prev] pointers. The operations work on the pointers
    exactly as the source does; [dchain] relates them to a plain list. *)

From S2P Require Import Prelude.
Local Open Scope Z_scope.

(** ** Callback types (system-emulation build without [CONFIG_PANDA_VMI]) *)

Inductive panda_cb_type :=
| PANDA_CB_BEFORE_BLOCK_TRANSLATE
| PANDA_CB_AFTER_BLOCK_TRANSLATE
| PANDA_CB_BEFORE_BLOCK_EXEC_INVALIDATE_OPT
| PANDA_CB_BEFORE_BLOCK_EXEC
| PANDA_CB_AFTER_BLOCK_EXEC
| PANDA_CB_INSN_TRANSLATE
| PANDA_CB_INSN_EXEC
| PANDA_CB_VIRT_MEM_READ
| PANDA_CB_VIRT_MEM_WRITE
| PANDA_CB_PHYS_MEM_READ
| PANDA_CB_PHYS_MEM_WRITE
| PANDA_CB_VIRT_MEM_BEFORE_READ
| PANDA_CB_VIRT_MEM_BEFORE_WRITE
| PANDA_CB_PHYS_MEM_BEFORE_READ
| PANDA_CB_PHYS_MEM_BEFORE_WRITE
| PANDA_CB_VIRT_MEM_AFTER_READ
| PANDA_CB_VIRT_MEM_AFTER_WRITE
| PANDA_CB_PHYS_MEM_AFTER_READ
| PANDA_CB_PHYS_MEM_AFTER_WRITE
| PANDA_CB_HD_READ
| PANDA_CB_HD_WRITE
| PANDA_CB_GUEST_HYPERCALL
| PANDA_CB_MONITOR
| PANDA_CB_CPU_RESTORE_STATE
| PANDA_CB_BEFORE_REPLAY_LOADVM
| PANDA_CB_VMI_PGD_CHANGED
| PANDA_CB_REPLAY_HD_TRANSFER
| PANDA_CB_REPLAY_NET_TRANSFER
| PANDA_CB_REPLAY_BEFORE_CPU_PHYSICAL_MEM_RW_RAM
| PANDA_CB_REPLAY_AFTER_CPU_PHYSICAL_MEM_RW_RAM
| PANDA_CB_REPLAY_HANDLE_PACKET.

Definition panda_cb_types : list panda_cb_type :=
  [ PANDA_CB_BEFORE_BLOCK_TRANSLATE; PANDA_CB_AFTER_BLOCK_TRANSLATE;
    PANDA_CB_BEFORE_BLOCK_EXEC_INVALIDATE_OPT; PANDA_CB_BEFORE_BLOCK_EXEC;
    PANDA_CB_AFTER_BLOCK_EXEC; PANDA_CB_INSN_TRANSLATE; PANDA_CB_INSN_EXEC;
    PANDA_CB_VIRT_MEM_READ; PANDA_CB_VIRT_MEM_WRITE; PANDA_CB_PHYS_MEM_READ;
    PANDA_CB_PHYS_MEM_WRITE; PANDA_CB_VIRT_MEM_BEFORE_READ;
    PANDA_CB_VIRT_MEM_BEFORE_WRITE; PANDA_CB_PHYS_MEM_BEFORE_READ;
    PANDA_CB_PHYS_MEM_BEFORE_WRITE; PANDA_CB_VIRT_MEM_AFTER_READ;
    PANDA_CB_VIRT_MEM_AFTER_WRITE; PANDA_CB_PHYS_MEM_AFTER_READ;
    PANDA_CB_PHYS_MEM_AFTER_WRITE; PANDA_CB_HD_READ; PANDA_CB_HD_WRITE;
    PANDA_CB_GUEST_HYPERCALL; PANDA_CB_MONITOR; PANDA_CB_CPU_RESTORE_STATE;
    PANDA_CB_BEFORE_REPLAY_LOADVM; PANDA_CB_VMI_PGD_CHANGED;
    PANDA_CB_REPLAY_HD_TRANSFER; PANDA_CB_REPLAY_NET_TRANSFER;
    PANDA_CB_REPLAY_BEFORE_CPU_PHYSICAL_MEM_RW_RAM;
    PANDA_CB_REPLAY_AFTER_CPU_PHYSICAL_MEM_RW_RAM; PANDA_CB_REPLAY_HANDLE_PACKET ].

#[export] Instance panda_cb_type_eq_dec : EqDecision panda_cb_type.
Proof. solve_decision. Defined.

(** The enumerator's value: its index in [panda_cbs]. *)
Definition cb_idx (t : panda_cb_type) : nat :=
  default 0%nat (fst <$> list_find (t =.) panda_cb_types).
Definition PANDA_CB_LAST : nat := length panda_cb_types.

(** ** State *)

Definition loc := positive.

(** A list node; the callback function and the owning plugin are identified by
    their addresses. *)
Record panda_cb_list := mkCb {
  cb_entry : Z;
  cb_owner : Z;
  cb_next : option loc;
  cb_prev : option loc;
  cb_enabled : bool;
}.

Record cb_state := mkCbState {
  cb_heap : gmap loc panda_cb_list;
  cb_fresh : loc;
  panda_cbs : list (option loc);
}.

(** The zero-initialised globals. *)
Definition cb_init : cb_state := mkCbState ∅ 1%positive (replicate PANDA_CB_LAST None).

Definition set_heap (h : gmap loc panda_cb_list) (s : cb_state) : cb_state :=
  mkCbState h (cb_fresh s) (panda_cbs s).
Definition set_cbs (a : list (option loc)) (s : cb_state) : cb_state :=
  mkCbState (cb_heap s) (cb_fresh s) a.
Definition cb_set_next (p : option loc) (n : panda_cb_list) : panda_cb_list :=
  mkCb (cb_entry n) (cb_owner n) p (cb_prev n) (cb_enabled n).
Definition cb_set_prev (p : option loc) (n : panda_cb_list) : panda_cb_list :=
  mkCb (cb_entry n) (cb_owner n) (cb_next n) p (cb_enabled n).
Definition cb_set_enabled (b : bool) (n : panda_cb_list) : panda_cb_list :=
  mkCb (cb_entry n) (cb_owner n) (cb_next n) (cb_prev n) b.

(** Memory accesses. *)
Definition cb_load (l : loc) : M cb_state panda_cb_list := λ s,
  match cb_heap s !! l with Some n => Ok n s | None => Err UseAfterFree s end.
Definition cb_update (l : loc) (f : panda_cb_list → panda_cb_list) : M cb_state () :=
  n ← cb_load l; modify (λ s, set_heap (<[l:=f n]> (cb_heap s)) s).
Definition cb_free (l : loc) : M cb_state () :=
  _ ← cb_load l; modify (λ s, set_heap (delete l (cb_heap s)) s).
Definition cbs_at (i : nat) : M cb_state (option loc) := λ s,
  match panda_cbs s !! i with Some p => Ok p s | None => Err OutOfBounds s end.
Definition cbs_set (i : nat) (p : option loc) : M cb_state () :=
  _ ← cbs_at i; modify (λ s, set_cbs (<[i:=p]> (panda_cbs s)) s).

(** ** Operations *)

Definition panda_register_callback (plugin : Z) (type : panda_cb_type) (cb : Z) :
    M cb_state () :=
  l ← gets cb_fresh;
  modify (λ s, mkCbState (<[l:=mkCb cb plugin None None true]> (cb_heap s))
                         (Pos.succ l) (panda_cbs s));;
  first ← cbs_at (cb_idx type);
  match first with
  | Some h => cb_update l (cb_set_next (Some h));; cb_update h (cb_set_prev (Some l))
  | None => mret ()
  end;;
  cbs_set (cb_idx type) (Some l).

Fixpoint unregister_list (fuel : nat) (i : nat) (plugin : Z) (plist : option loc) :
    M cb_state () :=
  match plist with
  | None => mret ()
  | Some l =>
    match fuel with
    | O => fail OutOfFuel
    | S fuel' =>
      n ← cb_load l;
      if decide (cb_owner n = plugin) then
        match cb_prev n with
        | Some p => cb_update p (cb_set_next (cb_next n)) | None => mret ()
        end;;
        match cb_next n with
        | Some q => cb_update q (cb_set_prev (cb_prev n)) | None => mret ()
        end;;
        match cb_prev n, cb_next n with
        | None, None => cbs_set i None
        | _, _ => mret ()
        end;;
        cb_free l;;
        unregister_list fuel' i plugin (cb_next n)
      else unregister_list fuel' i plugin (cb_next n)
    end
  end.

(** [for (i = 0; i < PANDA_CB_LAST; i++)] *)
Fixpoint for_each_type (i n : nat) (body : nat → M cb_state ()) : M cb_state () :=
  match n with
  | O => mret ()
  | S n' => body i;; for_each_type (S i) n' body
  end.

(** A list has at most as many nodes as the heap, which bounds each walk. *)
Definition walk_fuel (s : cb_state) : nat := size (cb_heap s).

Definition panda_unregister_callbacks (plugin : Z) : M cb_state () :=
  for_each_type 0 PANDA_CB_LAST (λ i,
    plist ← cbs_at i; fuel ← gets walk_fuel; unregister_list fuel i plugin plist).

Fixpoint set_enabled_list (fuel : nat) (plugin : Z) (b : bool) (plist : option loc) :
    M cb_state () :=
  match plist with
  | None => mret ()
  | Some l =>
    match fuel with
    | O => fail OutOfFuel
    | S fuel' =>
      n ← cb_load l;
      (if decide (cb_owner n = plugin) then cb_update l (cb_set_enabled b) else mret ());;
      set_enabled_list fuel' plugin b (cb_next n)
    end
  end.

Definition panda_enable_plugin (plugin : Z) : M cb_state () :=
  for_each_type 0 PANDA_CB_LAST (λ i,
    plist ← cbs_at i; fuel ← gets walk_fuel; set_enabled_list fuel plugin true plist).

Definition panda_disable_plugin (plugin : Z) : M cb_state () :=
  for_each_type 0 PANDA_CB_LAST (λ i,
    plist ← cbs_at i; fuel ← gets walk_fuel; set_enabled_list fuel plugin false plist).

(** The next enabled node after [plist]. *)
Fixpoint panda_cb_list_next (fuel : nat) (plist : loc) : M cb_state (option loc) :=
  match fuel with
  | O => fail OutOfFuel
  | S fuel' =>
    n ← cb_load plist;
    match cb_next n with
    | None => mret None
    | Some q =>
      m ← cb_load q;
      if cb_enabled m then mret (Some q) else panda_cb_list_next fuel' q
    end
  end.

(** The loop the emulator runs at every event:
    [for (plist = panda_cbs[t]; plist != NULL; plist = panda_cb_list_next(plist))
       plist->entry.f(...)];
    the result is the sequence of callbacks called. *)
Fixpoint run_cb_loop (fuel : nat) (plist : option loc) : M cb_state (list Z) :=
  match plist with
  | None => mret []
  | Some l =>
    match fuel with
    | O => fail OutOfFuel
    | S fuel' =>
      n ← cb_load l;
      wf ← gets walk_fuel;
      nxt ← panda_cb_list_next wf l;
      rest ← run_cb_loop fuel' nxt;
      mret (cb_entry n :: rest)
    end
  end.

Definition panda_run_callbacks (t : panda_cb_type) : M cb_state (list Z) :=
  first ← cbs_at (cb_idx t); fuel ← gets walk_fuel; run_cb_loop fuel first.

(** ** The lists the pointers represent *)

Record cb_info := mkInfo { ci_entry : Z; ci_owner : Z; ci_enabled : bool }.

Definition node_of (c : cb_info) (nx pv : option loc) : panda_cb_list :=
  mkCb (ci_entry c) (ci_owner c) nx pv (ci_enabled c).

(** [dchain h pv p xs]: from pointer [p], whose node's [prev] is [pv], the
    [next] links run through exactly the nodes [xs], with matching [prev]. *)
Fixpoint dchain (h : gmap loc panda_cb_list) (pv p : option loc)
    (xs : list (loc * cb_info)) : Prop :=
  match xs with
  | [] => p = None
  | (l, c) :: xs' =>
    p = Some l ∧ ∃ nx, h !! l = Some (node_of c nx pv) ∧ dchain h (Some l) nx xs'
  end.

Record cb_rep (s : cb_state) (xss : list (list (loc * cb_info))) : Prop := {
  rep_last : length xss = PANDA_CB_LAST;
  rep_chains : Forall2 (λ p xs, dchain (cb_heap s) None p xs) (panda_cbs s) xss;
  rep_nodup : Forall (λ xs, NoDup xs.*1) xss;
  rep_disjoint : ∀ i j xs ys l,
    xss !! i = Some xs → xss !! j = Some ys → l ∈ xs.*1 → l ∈ ys.*1 → (i = j)%nat;
  rep_fresh : ∀ l, is_Some (cb_heap s !! l) → (l < cb_fresh s)%positive;
}.

(** The callbacks an event runs: the first of the list whatever its flag, then
    the enabled ones of the rest. *)
Definition called (xs : list (loc * cb_info)) : list Z :=
  match xs with
  | [] => []
  | x :: xs' => ci_entry x.2 :: ((λ y, ci_entry y.2) <$> filter (λ y, ci_enabled y.2 = true) xs')
  end.

(** What unregistering, enabling and disabling mean on a list. *)
Definition without (plugin : Z) (xs : list (loc * cb_info)) : list (loc * cb_info) :=
  filter (λ x, ci_owner x.2 ≠ plugin) xs.
Definition mark (plugin : Z) (b : bool) (x : loc * cb_info) : loc * cb_info :=
  if decide (ci_owner x.2 = plugin)
  then (x.1, mkInfo (ci_entry x.2) (ci_owner x.2) b) else x.

Definition mark_all (plugin : Z) (b : bool) (xs : list (loc * cb_info)) :
    list (loc * cb_info) := mark plugin b <$> xs.

(** The lists on which [panda_unregister_callbacks] keeps its head pointer
    right: the first callback belongs to another plugin, or all are removed. *)
Definition unregister_safe (plugin : Z) (xs : list (loc * cb_info)) : Prop :=
  (∀ x, head xs = Some x → ci_owner x.2 ≠ plugin) ∨ without plugin xs = [].

(** ** Heap lemmas *)

Lemma dchain_frame h h' pv p xs :
  (∀ l, l ∈ xs.*1 → h' !! l = h !! l) → dchain h pv p xs → dchain h' pv p xs.
Proof.
  revert pv p. induction xs as [|[l c] xs IH]; intros pv p Hf; simpl; [done|].
  intros [-> (nx & Hl & Hc)]. split; [done|]. exists nx. split.
  - rewrite Hf; [done|]. set_solver.
  - apply IH; [|done]. intros l' Hl'. apply Hf. set_solver.
Qed.

Lemma dchain_ptr h pv p xs : dchain h pv p xs → p = fst <$> head xs.
Proof. destruct xs as [|[l c] xs]; simpl; [done|]. by intros [-> _]. Qed.

Lemma dchain_lookup h pv p xs l :
  dchain h pv p xs → l ∈ xs.*1 → is_Some (h !! l).
Proof.
  revert pv p. induction xs as [|[l' c] xs IH]; intros pv p; simpl.
  { intros _ H. set_solver. }
  intros [-> (nx & Hl & Hc)] Hin. apply elem_of_cons in Hin as [->|Hin]; eauto.
Qed.

Lemma nodup_size (h : gmap loc panda_cb_list) (ls : list loc) :
  NoDup ls → (∀ l, l ∈ ls → is_Some (h !! l)) → (length ls ≤ size h)%nat.
Proof.
  intros Hnd Hin. rewrite <-(size_dom h), <-(size_list_to_set (C:=gset loc)) by done.
  apply subseteq_size. intros l Hl. rewrite elem_of_list_to_set in Hl.
  apply elem_of_dom. eauto.
Qed.

Lemma dchain_size h pv p xs :
  dchain h pv p xs → NoDup xs.*1 → (length xs ≤ size h)%nat.
Proof.
  intros Hc Hnd. rewrite <-(length_fmap fst). apply nodup_size; [done|].
  intros l Hl. by eapply dchain_lookup.
Qed.

Lemma cb_load_ok l n s : cb_heap s !! l = Some n → cb_load l s = Ok n s.
Proof. unfold cb_load. by intros ->. Qed.

Lemma cb_update_ok l f n s :
  cb_heap s !! l = Some n → cb_update l f s = Ok () (set_heap (<[l:=f n]> (cb_heap s)) s).
Proof. intros H. unfold cb_update. by rewrite (bind_Ok _ _ _ _ _ (cb_load_ok _ _ _ H)). Qed.

Lemma cb_free_ok l n s :
  cb_heap s !! l = Some n → cb_free l s = Ok () (set_heap (delete l (cb_heap s)) s).
Proof. intros H. unfold cb_free. by rewrite (bind_Ok _ _ _ _ _ (cb_load_ok _ _ _ H)). Qed.

Lemma cbs_at_ok i p s : panda_cbs s !! i = Some p → cbs_at i s = Ok p s.
Proof. unfold cbs_at. by intros ->. Qed.

Lemma cbs_set_ok i p q s :
  panda_cbs s !! i = Some p → cbs_set i q s = Ok () (set_cbs (<[i:=q]> (panda_cbs s)) s).
Proof. intros H. unfold cbs_set. by rewrite (bind_Ok _ _ _ _ _ (cbs_at_ok _ _ _ H)). Qed.

Lemma rep_at s xss i xs :
  cb_rep s xss → xss !! i = Some xs →
  ∃ p, panda_cbs s !! i = Some p ∧ dchain (cb_heap s) None p xs ∧ NoDup xs.*1.
Proof.
  intros Hr Hi. destruct (Forall2_lookup_r _ _ _ _ _ (rep_chains _ _ Hr) Hi) as (p & Hp & Hc).
  exists p. split_and!; [done..|]. by eapply (Forall_lookup_1 _ _ _ _ (rep_nodup _ _ Hr)).
Qed.

(** Replacing list [i] and the heap nodes of that list only. *)
Lemma cb_rep_update s s' xss i xs ys p :
  cb_rep s xss → xss !! i = Some xs →
  panda_cbs s' = <[i:=p]> (panda_cbs s) →
  dchain (cb_heap s') None p ys → NoDup ys.*1 →
  (∀ l, l ∉ xs.*1 → l ∉ ys.*1 → cb_heap s' !! l = cb_heap s !! l) →
  (∀ l, l ∈ ys.*1 → l ∈ xs.*1 ∨ cb_heap s !! l = None) →
  (∀ l, is_Some (cb_heap s' !! l) → (l < cb_fresh s')%positive) →
  cb_rep s' (<[i:=ys]> xss).
Proof.
  intros Hr Hi Hcbs Hc Hnd Hframe Hnew Hfresh.
  assert (Hsep : ∀ j zs l, j ≠ i → xss !! j = Some zs → l ∈ zs.*1 →
            (l ∉ xs.*1) ∧ (l ∉ ys.*1)).
  { intros j zs l Hj Hzs Hl.
    assert (l ∉ xs.*1) as Hx.
    { intros Hx. apply Hj. eapply rep_disjoint; eauto. }
    split; [done|]. intros Hy. apply Hnew in Hy as [?|Hn]; [done|].
    destruct (rep_at _ _ _ _ Hr Hzs) as (q & _ & Hq & _).
    destruct (dchain_lookup _ _ _ _ _ Hq Hl). congruence. }
  split.
  - rewrite length_insert. by eapply rep_last.
  - rewrite Hcbs. apply Forall2_same_length_lookup. split.
    { rewrite !length_insert. eapply Forall2_length, Hr. }
    intros j q zs Hq Hzs.
    destruct (decide (j = i)) as [->|Hj].
    + rewrite list_lookup_insert_eq in Hzs by (by eapply lookup_lt_Some).
      rewrite list_lookup_insert_eq in Hq; [by simplify_eq|].
      rewrite (Forall2_length _ _ _ (rep_chains _ _ Hr)). by eapply lookup_lt_Some.
    + rewrite list_lookup_insert_ne in Hq by done.
      rewrite list_lookup_insert_ne in Hzs by done.
      destruct (rep_at _ _ _ _ Hr Hzs) as (q' & Hq' & Hqc & _). simplify_eq.
      eapply dchain_frame; [|done]. intros l Hl.
      destruct (Hsep _ _ _ Hj Hzs Hl). by apply Hframe.
  - apply Forall_insert; [by eapply rep_nodup|done].
  - intros j k zs ws l Hj Hk Hlj Hlk.
    destruct (decide (j = i)) as [->|Hji]; destruct (decide (k = i)) as [->|Hki]; [done|..].
    + rewrite list_lookup_insert_eq in Hj by (by eapply lookup_lt_Some).
      rewrite list_lookup_insert_ne in Hk by done. simplify_eq.
      by destruct (Hsep _ _ _ Hki Hk Hlk).
    + rewrite list_lookup_insert_eq in Hk by (by eapply lookup_lt_Some).
      rewrite list_lookup_insert_ne in Hj by done. simplify_eq.
      by destruct (Hsep _ _ _ Hji Hj Hlj).
    + rewrite list_lookup_insert_ne in Hj by done.
      rewrite list_lookup_insert_ne in Hk by done. by eapply rep_disjoint.
  - done.
Qed.

(** ** Registration *)

Lemma dchain_reprev h pv pv' l c nx xs :
  dchain h pv (Some l) ((l, c) :: xs) → h !! l = Some (node_of c nx pv) →
  NoDup (l :: xs.*1) →
  dchain (<[l:=node_of c nx pv']> h) pv' (Some l) ((l, c) :: xs).
Proof.
  simpl. intros [_ (nx' & Hl & Hc)] Hl' [Hni Hnd]%NoDup_cons.
  rewrite Hl in Hl'. injection Hl' as <-.
  split; [done|]. exists nx'. rewrite lookup_insert_eq. split; [done|].
  eapply dchain_frame; [|done]. intros l' Hin. apply lookup_insert_ne. by intros <-.
Qed.

Lemma cb_idx_lt t : (cb_idx t < PANDA_CB_LAST)%nat.
Proof. destruct t; vm_compute; lia. Qed.

Lemma rep_idx s xss t : cb_rep s xss → ∃ xs, xss !! cb_idx t = Some xs.
Proof.
  intros Hr. apply lookup_lt_is_Some. rewrite (rep_last _ _ Hr). apply cb_idx_lt.
Qed.

Lemma register_rep s xss plugin t cb xs :
  cb_rep s xss → xss !! cb_idx t = Some xs →
  ∃ s', panda_register_callback plugin t cb s = Ok () s' ∧
    cb_rep s' (<[cb_idx t := (cb_fresh s, mkInfo cb plugin true) :: xs]> xss).
Proof.
  intros Hr Hx. destruct (rep_at _ _ _ _ Hr Hx) as (p & Hp & Hc & Hnd).
  set (l := cb_fresh s).
  assert (Hfree : cb_heap s !! l = None).
  { destruct (cb_heap s !! l) eqn:E; [|done].
    pose proof (rep_fresh _ _ Hr l ltac:(eauto)). subst l. lia. }
  assert (Hlx : l ∉ xs.*1).
  { intros Hin. destruct (dchain_lookup _ _ _ _ _ Hc Hin). congruence. }
  assert (Hndl : NoDup (l :: xs.*1)) by (by constructor).
  assert (Hfr : ∀ k, is_Some (cb_heap s !! k) → (k < Pos.succ l)%positive).
  { intros k Hk. pose proof (rep_fresh _ _ Hr k Hk). subst l. lia. }
  unfold panda_register_callback, gets, modify, mbind, M_bind. fold l. simpl.
  rewrite (cbs_at_ok _ p) by done. destruct xs as [|[h c] xs].
  - simpl in Hc. subst p. unfold mret, M_ret. erewrite cbs_set_ok by done.
    eexists. split; [done|].
    eapply (cb_rep_update s); [done|done|done|..]; simpl.
    + split; [done|]. exists None. by rewrite lookup_insert_eq.
    + done.
    + intros k _ Hk. apply lookup_insert_ne. set_solver.
    + intros k Hk. right. assert (k = l) as -> by set_solver. done.
    + intros k Hk. destruct (decide (k = l)) as [->|Hkl]; [lia|].
      rewrite lookup_insert_ne in Hk by done. auto.
  - pose proof Hc as Hc0. simpl in Hc. destruct Hc as [-> (nx & Hh & Hc)].
    assert (Hhl : h ≠ l) by (intros ->; congruence).
    erewrite cb_update_ok by (simpl; apply lookup_insert_eq). simpl.
    erewrite cb_update_ok by (simpl; rewrite !lookup_insert_ne by done; done). simpl.
    erewrite cbs_set_ok by done. eexists. split; [done|].
    eapply (cb_rep_update s); [done|done|done|..]; simpl.
    + split; [done|]. exists (Some h). split.
      * rewrite lookup_insert_ne, lookup_insert_eq by done. done.
      * rewrite insert_insert_eq.
        apply (dchain_reprev _ None (Some l) h c nx xs); [|by rewrite lookup_insert_ne|done].
        eapply dchain_frame; [|done]. intros k Hk. apply lookup_insert_ne. set_solver.
    + done.
    + intros k Hk1 Hk2. rewrite lookup_insert_ne by set_solver.
      rewrite insert_insert_eq. apply lookup_insert_ne. set_solver.
    + intros k Hk. destruct (decide (k = l)) as [->|]; [by right|left; set_solver].
    + intros k Hk. destruct (decide (k = h)) as [->|Hkh].
      { apply Hfr. eauto. }
      rewrite lookup_insert_ne, insert_insert_eq in Hk by done.
      destruct (decide (k = l)) as [->|Hkl]; [lia|].
      rewrite lookup_insert_ne in Hk by done. auto.
Qed.

(** ** Running the callbacks of an event *)

Fixpoint skip_disabled (xs : list (loc * cb_info)) : list (loc * cb_info) :=
  match xs with
  | [] => []
  | x :: xs' => if ci_enabled x.2 then xs else skip_disabled xs'
  end.

Lemma skip_disabled_filter xs :
  filter (λ y, ci_enabled y.2 = true) xs =
  match skip_disabled xs with
  | [] => []
  | x :: xs' => x :: filter (λ y, ci_enabled y.2 = true) xs'
  end.
Proof.
  induction xs as [|[l c] xs IH]; [done|]. simpl.
  destruct (ci_enabled c) eqn:E.
  - by rewrite filter_cons_True.
  - by rewrite filter_cons_False by (simpl; congruence).
Qed.

Lemma skip_disabled_length xs : (length (skip_disabled xs) ≤ length xs)%nat.
Proof. induction xs as [|[l c] xs IH]; simpl; [done|]. destruct (ci_enabled c); simpl; lia. Qed.

Lemma cb_list_next_ok s pv l c xs fuel :
  dchain (cb_heap s) pv (Some l) ((l, c) :: xs) → (length xs < fuel)%nat →
  ∃ pv', panda_cb_list_next fuel l s = Ok (fst <$> head (skip_disabled xs)) s ∧
    dchain (cb_heap s) pv' (fst <$> head (skip_disabled xs)) (skip_disabled xs).
Proof.
  revert pv l c fuel. induction xs as [|[l' c'] xs IH]; intros pv l c fuel Hc Hf;
    destruct fuel as [|fuel]; simpl in Hf; try lia;
    destruct Hc as [_ (nx & Hl & Hc)]; cbn [panda_cb_list_next].
  - simpl in Hc. subst nx. rewrite (bind_Ok _ _ _ _ _ (cb_load_ok _ _ _ Hl)). by exists None.
  - destruct Hc as [-> (nx' & Hl' & Hc)].
    rewrite (bind_Ok _ _ _ _ _ (cb_load_ok _ _ _ Hl)). simpl.
    rewrite (bind_Ok _ _ _ _ _ (cb_load_ok _ _ _ Hl')). simpl.
    destruct (ci_enabled c') eqn:E; simpl.
    + exists (Some l). split; [done|]. split; [done|]. eauto.
    + eapply (IH (Some l) l' c' fuel); [|lia]. split; [done|]. eauto.
Qed.

Lemma run_cb_loop_ok s pv p xs fuel :
  dchain (cb_heap s) pv p xs → (length xs ≤ fuel)%nat → (length xs ≤ size (cb_heap s))%nat →
  run_cb_loop fuel p s = Ok (called xs) s.
Proof.
  revert pv p xs. induction fuel as [|fuel IH]; intros pv p xs Hc Hf Hsz.
  { destruct xs; simpl in *; [|lia]. by subst p. }
  destruct xs as [|[l c] xs]; [simpl in Hc; by subst p|].
  pose proof Hc as [-> (nx & Hl & _)]. cbn [run_cb_loop].
  rewrite (bind_Ok _ _ _ _ _ (cb_load_ok _ _ _ Hl)).
  unfold gets at 1, mbind at 1, M_bind at 1. simpl in Hf, Hsz.
  destruct (cb_list_next_ok s pv l c xs (walk_fuel s)) as (pv' & Hn & Hc'); [done|unfold walk_fuel; lia|].
  rewrite (bind_Ok _ _ _ _ _ Hn).
  pose proof (skip_disabled_length xs).
  rewrite (bind_Ok _ _ _ _ _ (IH _ _ _ Hc' ltac:(lia) ltac:(lia))).
  unfold mret, M_ret. simpl. rewrite (skip_disabled_filter xs).
  by destruct (skip_disabled xs) as [|x xs'].
Qed.

Lemma run_callbacks_rep s xss t xs :
  cb_rep s xss → xss !! cb_idx t = Some xs →
  panda_run_callbacks t s = Ok (called xs) s.
Proof.
  intros Hr Hx. destruct (rep_at _ _ _ _ Hr Hx) as (p & Hp & Hc & Hnd).
  pose proof (dchain_size _ _ _ _ Hc Hnd). unfold panda_run_callbacks.
  rewrite (bind_Ok _ _ _ _ _ (cbs_at_ok _ _ _ Hp)).
  unfold gets, mbind, M_bind. eapply run_cb_loop_ok; [done|unfold walk_fuel; lia|lia].
Qed.

(** ** Operations that walk every list *)

Lemma for_each_type_rep (P : list (loc * cb_info) → Prop)
    (f : list (loc * cb_info) → list (loc * cb_info)) body :
  (∀ i s xss xs, cb_rep s xss → xss !! i = Some xs → P xs →
     ∃ s', body i s = Ok () s' ∧ cb_rep s' (<[i:=f xs]> xss)) →
  ∀ n i s xss, cb_rep s xss → (i + n = length xss)%nat → Forall P (drop i xss) →
  ∃ s', for_each_type i n body s = Ok () s' ∧ cb_rep s' (take i xss ++ (f <$> drop i xss)).
Proof.
  intros Hb. induction n as [|n IH]; intros i s xss Hr Hn HP.
  { exists s. rewrite drop_ge by lia. rewrite firstn_all2 by lia. by rewrite app_nil_r. }
  destruct (lookup_lt_is_Some_2 xss i ltac:(lia)) as [xs Hx].
  rewrite (drop_S _ _ _ Hx) in HP. apply Forall_cons in HP as [HPx HP].
  destruct (Hb i s xss xs Hr Hx HPx) as (s1 & E1 & Hr1).
  destruct (IH (S i) s1 (<[i:=f xs]> xss) Hr1) as (s2 & E2 & Hr2).
  { rewrite length_insert. lia. }
  { by rewrite drop_insert_lt by lia. }
  exists s2. cbn [for_each_type]. rewrite (bind_Ok _ _ _ _ _ E1). split; [done|].
  rewrite drop_insert_lt in Hr2 by lia.
  rewrite (take_S_r _ _ (f xs)) in Hr2 by (apply list_lookup_insert_eq; lia).
  rewrite take_insert_ge in Hr2 by lia.
  rewrite (drop_S _ _ _ Hx). by rewrite <-app_assoc in Hr2.
Qed.

Lemma set_enabled_list_ok plugin b xs :
  ∀ s pv p fuel,
  dchain (cb_heap s) pv p xs → NoDup xs.*1 → (length xs ≤ fuel)%nat →
  ∃ h', set_enabled_list fuel plugin b p s = Ok () (set_heap h' s) ∧
    dchain h' pv p (mark plugin b <$> xs) ∧
    (∀ l, l ∉ xs.*1 → h' !! l = cb_heap s !! l) ∧
    (∀ l, is_Some (h' !! l) → is_Some (cb_heap s !! l)).
Proof.
  induction xs as [|[l c] xs IH]; intros s pv p fuel Hc Hnd Hf.
  { simpl in Hc. subst p. exists (cb_heap s). destruct fuel, s; done. }
  destruct fuel as [|fuel]; simpl in Hf; [lia|].
  destruct Hc as [-> (nx & Hl & Hc)]. apply NoDup_cons in Hnd as [Hni Hnd].
  cbn [set_enabled_list]. rewrite (bind_Ok _ _ _ _ _ (cb_load_ok _ _ _ Hl)).
  set (c' := (mark plugin b (l, c)).2).
  set (h1 := <[l := node_of c' nx pv]> (cb_heap s)).
  assert (E : (if decide (cb_owner (node_of c nx pv) = plugin)
               then cb_update l (cb_set_enabled b) else mret ()) s = Ok () (set_heap h1 s)).
  { subst h1 c'. unfold mark. simpl. case_decide.
    - by rewrite (cb_update_ok _ _ _ _ Hl).
    - rewrite insert_id by done. by destruct s. }
  rewrite (bind_Ok _ _ _ _ _ E). cbn [node_of cb_next].
  destruct (IH (set_heap h1 s) (Some l) nx fuel) as (h2 & E2 & Hc2 & Hfr & Hdom); [|done|lia|].
  { eapply dchain_frame; [|done]. intros k Hk. apply lookup_insert_ne. by intros <-. }
  exists h2. simpl in Hfr, Hdom. split_and!.
  - by rewrite E2.
  - cbn [fmap list_fmap]. assert (mark plugin b (l, c) = (l, c')) as ->.
    { subst c'. unfold mark. simpl. by destruct (decide (ci_owner c = plugin)). }
    split; [done|]. exists nx. split; [|done]. rewrite (Hfr l Hni). apply lookup_insert_eq.
  - intros k Hk. rewrite Hfr by set_solver. apply lookup_insert_ne. set_solver.
  - intros k Hk. apply Hdom in Hk. destruct (decide (k = l)) as [->|]; [eauto|].
    subst h1. by rewrite lookup_insert_ne in Hk.
Qed.

Lemma mark_locs plugin b xs : (mark plugin b <$> xs).*1 = xs.*1.
Proof.
  induction xs as [|x xs IH]; [done|]. csimpl. rewrite IH. f_equal.
  unfold mark. by case_decide.
Qed.

Lemma set_enabled_body plugin b i s xss xs :
  cb_rep s xss → xss !! i = Some xs →
  ∃ s', (plist ← cbs_at i; fuel ← gets walk_fuel; set_enabled_list fuel plugin b plist) s
          = Ok () s' ∧
    cb_rep s' (<[i := mark plugin b <$> xs]> xss).
Proof.
  intros Hr Hx. destruct (rep_at _ _ _ _ Hr Hx) as (p & Hp & Hc & Hnd).
  pose proof (dchain_size _ _ _ _ Hc Hnd).
  rewrite (bind_Ok _ _ _ _ _ (cbs_at_ok _ _ _ Hp)). unfold gets at 1, mbind at 1, M_bind at 1.
  destruct (set_enabled_list_ok plugin b xs s None p (walk_fuel s)) as (h' & E & Hc' & Hfr & Hdom);
    [done|done|unfold walk_fuel; lia|].
  rewrite E. eexists. split; [done|].
  eapply (cb_rep_update s _ _ _ xs _ p); simpl; [done|done|..].
  - by rewrite list_insert_id.
  - done.
  - by rewrite mark_locs.
  - intros. by apply Hfr.
  - intros l. rewrite mark_locs. auto.
  - intros l Hl. eapply rep_fresh; eauto.
Qed.

Lemma set_enabled_rep s xss plugin b :
  cb_rep s xss →
  ∃ s', for_each_type 0 PANDA_CB_LAST (λ i,
          plist ← cbs_at i; fuel ← gets walk_fuel; set_enabled_list fuel plugin b plist) s
        = Ok () s' ∧ cb_rep s' (mark_all plugin b <$> xss).
Proof.
  intros Hr.
  destruct (for_each_type_rep (λ _, True) (mark_all plugin b) (λ i,
     plist ← cbs_at i; fuel ← gets walk_fuel; set_enabled_list fuel plugin b plist))
    with (n := PANDA_CB_LAST) (i := 0%nat) (s := s) (xss := xss) as (s' & E & Hr').
  - intros. by apply set_enabled_body.
  - done.
  - by rewrite (rep_last _ _ Hr).
  - by apply Forall_true.
  - eauto.
Qed.

(** ** Unregistration *)

Lemma without_cons_owned plugin l c xs :
  ci_owner c = plugin → without plugin ((l, c) :: xs) = without plugin xs.
Proof. intros. unfold without. rewrite filter_cons_False; [done|]. simpl. auto. Qed.

Lemma without_cons_other plugin l c xs :
  ci_owner c ≠ plugin → without plugin ((l, c) :: xs) = (l, c) :: without plugin xs.
Proof. intros. unfold without. by rewrite filter_cons_True. Qed.

Lemma without_locs plugin xs l : l ∈ (without plugin xs).*1 → l ∈ xs.*1.
Proof.
  rewrite !list_elem_of_fmap. intros ([l' c] & -> & Hin).
  apply list_elem_of_filter in Hin as [_ Hin]. eauto.
Qed.

Lemma without_nodup plugin xs : NoDup xs.*1 → NoDup (without plugin xs).*1.
Proof.
  induction xs as [|[l c] xs IH]; [done|]. csimpl. intros [Hni Hnd]%NoDup_cons.
  destruct (decide (ci_owner c = plugin)).
  - rewrite without_cons_owned by done. auto.
  - rewrite without_cons_other by done. csimpl. constructor; [|auto].
    intros ?%without_locs. done.
Qed.

(** Past a node [k] that stays: the rest of the list is filtered and [k]'s link
    follows. *)
Lemma unregister_after plugin i xs :
  ∀ s k nk p fuel,
  cb_heap s !! k = Some nk → cb_next nk = p →
  dchain (cb_heap s) (Some k) p xs → NoDup (k :: xs.*1) → (length xs ≤ fuel)%nat →
  ∃ h' p', unregister_list fuel i plugin p s = Ok () (set_heap h' s) ∧
    h' !! k = Some (cb_set_next p' nk) ∧
    dchain h' (Some k) p' (without plugin xs) ∧
    (∀ l, l ∉ (k :: xs.*1) → h' !! l = cb_heap s !! l) ∧
    (∀ l, is_Some (h' !! l) → is_Some (cb_heap s !! l)).
Proof.
  induction xs as [|[l c] xs IH]; intros s k nk p fuel Hk Hnk Hc Hnd Hf.
  { simpl in Hc. subst p. rewrite Hc. exists (cb_heap s), None.
    split_and!; [by destruct fuel, s | by rewrite Hk; destruct nk; simpl in *; subst|done..]. }
  destruct fuel as [|fuel]; simpl in Hf; [lia|].
  destruct Hc as [-> (nx & Hl & Hc)]. csimpl in *.
  apply NoDup_cons in Hnd as [Hkn Hnd]. pose proof Hnd as Hnd0.
  apply NoDup_cons in Hnd as [Hln Hnd].
  assert (Hkl : k ≠ l) by set_solver.
  cbn [unregister_list]. rewrite (bind_Ok _ _ _ _ _ (cb_load_ok _ _ _ Hl)).
  cbn [node_of cb_owner cb_prev cb_next]. destruct (decide (ci_owner c = plugin)) as [Ho|Ho].
  - rewrite without_cons_owned by done.
    erewrite bind_Ok by (by apply cb_update_ok).
    destruct xs as [|[q cq] xs].
    + simpl in Hc. subst nx. erewrite bind_Ok by done. erewrite bind_Ok by done.
      erewrite bind_Ok.
      2: { eapply cb_free_ok. simpl. by rewrite lookup_insert_ne. }
      eexists _, None. split; [by destruct fuel|]. split_and!; simpl.
      * rewrite lookup_delete_ne by done. by rewrite lookup_insert_eq.
      * done.
      * intros j Hj. rewrite lookup_delete_ne by set_solver. rewrite lookup_insert_ne by set_solver. done.
      * intros j Hj. apply lookup_delete_is_Some in Hj as [Hj1 Hj2].
        destruct (decide (k = j)) as [->|]; [eauto|]. by rewrite lookup_insert_ne in Hj2.
    + pose proof Hc as Hc0. destruct Hc as [-> (nx' & Hq & Hc)]. csimpl in *.
      assert (Hkq : k ≠ q) by set_solver. assert (Hlq : l ≠ q) by set_solver.
      erewrite bind_Ok.
      2: { eapply cb_update_ok. simpl. by rewrite lookup_insert_ne. }
      erewrite bind_Ok by done.
      erewrite bind_Ok.
      2: { eapply cb_free_ok. simpl. rewrite !lookup_insert_ne by done. done. }
      simpl.
      match goal with |- context [unregister_list _ _ _ _ ?st] => set (s1 := st) end.
      destruct (IH s1 k (cb_set_next (Some q) nk) (Some q) fuel) as (h' & p' & E & H1 & H2 & H3 & H4).
      * subst s1. simpl. rewrite lookup_delete_ne, lookup_insert_ne, lookup_insert_eq by done. done.
      * done.
      * subst s1. simpl. split; [done|]. exists nx'. split.
        { rewrite lookup_delete_ne, lookup_insert_eq by done. done. }
        eapply dchain_frame; [|done]. intros j Hj. apply NoDup_cons in Hnd as [? ?].
        rewrite lookup_delete_ne, !lookup_insert_ne by set_solver. done.
      * constructor; [set_solver|done].
      * lia.
      * exists h', p'. split_and!; [by rewrite E|by rewrite H1|done|..].
        -- intros j Hj. rewrite H3 by set_solver. subst s1. simpl.
           rewrite lookup_delete_ne, !lookup_insert_ne by set_solver. done.
        -- intros j Hj. apply H4 in Hj. subst s1. simpl in Hj.
           apply lookup_delete_is_Some in Hj as [Hj1 Hj2].
           destruct (decide (q = j)) as [->|]; [eauto|]. rewrite lookup_insert_ne in Hj2 by done.
           destruct (decide (k = j)) as [->|]; [eauto|]. by rewrite lookup_insert_ne in Hj2.
  - rewrite without_cons_other by done.
    destruct (IH s l (node_of c nx (Some k)) nx fuel) as (h' & p' & E & H1 & H2 & H3 & H4);
      [done|done|done|by constructor|lia|].
    exists h', (Some l). split_and!; [done|..].
    + rewrite H3 by set_solver. rewrite Hk. f_equal. destruct nk; simpl in *; by subst.
    + split; [done|]. exists p'. split; [by rewrite H1|done].
    + intros j Hj. apply H3. set_solver.
    + done.
Qed.

(** The array after the walk: cleared only when every node went. *)
Definition cbs_after (plugin : Z) (i : nat) (xs : list (loc * cb_info))
    (a : list (option loc)) : list (option loc) :=
  match xs, without plugin xs with
  | _ :: _, [] => <[i:=None]> a
  | _, _ => a
  end.

Lemma unregister_front plugin i xs :
  ∀ s p p0 fuel,
  panda_cbs s !! i = Some p0 →
  dchain (cb_heap s) None p xs → NoDup xs.*1 → (length xs ≤ fuel)%nat →
  ∃ h', unregister_list fuel i plugin p s =
          Ok () (set_cbs (cbs_after plugin i xs (panda_cbs s)) (set_heap h' s)) ∧
    dchain h' None (fst <$> head (without plugin xs)) (without plugin xs) ∧
    (∀ l, l ∉ xs.*1 → h' !! l = cb_heap s !! l) ∧
    (∀ l, is_Some (h' !! l) → is_Some (cb_heap s !! l)) ∧
    (∀ l c, head xs = Some (l, c) → ci_owner c = plugin → h' !! l = None).
Proof.
  induction xs as [|[l c] xs IH]; intros s p p0 fuel Hp0 Hc Hnd Hf.
  { simpl in Hc. subst p. exists (cb_heap s). by destruct fuel, s. }
  destruct fuel as [|fuel]; simpl in Hf; [lia|].
  destruct Hc as [-> (nx & Hl & Hc)]. csimpl in *. apply NoDup_cons in Hnd as [Hln Hnd].
  cbn [unregister_list]. rewrite (bind_Ok _ _ _ _ _ (cb_load_ok _ _ _ Hl)).
  cbn [node_of cb_owner cb_prev cb_next]. unfold cbs_after.
  destruct (decide (ci_owner c = plugin)) as [Ho|Ho].
  - rewrite without_cons_owned by done. erewrite bind_Ok by done.
    destruct xs as [|[q cq] xs].
    + simpl in Hc. subst nx. erewrite bind_Ok by done.
      erewrite bind_Ok by (by eapply cbs_set_ok).
      erewrite bind_Ok by (by eapply cb_free_ok).
      exists (delete l (cb_heap s)). split; [by destruct fuel|]. split_and!; [done|..].
      * intros j Hj. apply lookup_delete_ne. set_solver.
      * intros j Hj. by apply lookup_delete_is_Some in Hj as [_ ?].
      * intros ?? [= -> ->] _. apply lookup_delete_eq.
    + pose proof Hc as [-> (nx' & Hq & Hc')]. csimpl in *.
      assert (Hlq : l ≠ q) by set_solver.
      erewrite bind_Ok by (by eapply cb_update_ok).
      erewrite bind_Ok by done.
      erewrite bind_Ok.
      2: { eapply cb_free_ok. simpl. by rewrite lookup_insert_ne. }
      match goal with |- context [unregister_list _ _ _ _ ?st] => set (s1 := st) end.
      destruct (IH s1 (Some q) p0 fuel) as (h' & E & H1 & H2 & H3 & H4);
        [done| |done|lia|].
      { subst s1. simpl. split; [done|]. exists nx'. split.
        - rewrite lookup_delete_ne, lookup_insert_eq by done. done.
        - eapply dchain_frame; [|done]. intros j Hj. apply NoDup_cons in Hnd as [? ?].
          rewrite lookup_delete_ne, lookup_insert_ne by set_solver. done. }
      exists h'. split_and!; [exact E|done|..].
      * intros j Hj. rewrite H2 by set_solver. subst s1. simpl.
        rewrite lookup_delete_ne, lookup_insert_ne by set_solver. done.
      * intros j Hj. apply H3 in Hj. subst s1. simpl in Hj.
        apply lookup_delete_is_Some in Hj as [Hj1 Hj2].
        destruct (decide (q = j)) as [->|]; [eauto|]. by rewrite lookup_insert_ne in Hj2.
      * intros ?? [= <- <-] _. apply eq_None_not_Some. intros Hs. apply H3 in Hs.
        subst s1. simpl in Hs. by apply lookup_delete_is_Some in Hs as [? _].
  - rewrite without_cons_other by done.
    destruct (unregister_after plugin i xs s l (node_of c nx None) nx fuel)
      as (h' & p' & E & H1 & H2 & H3 & H4); [done|done|done|by constructor|lia|].
    exists h'. split_and!; [by rewrite E; destruct s|..].
    + split; [done|]. exists p'. split; [by rewrite H1|done].
    + intros j Hj. apply H3. set_solver.
    + done.
    + intros ?? [= <- <-]. done.
Qed.

Lemma unregister_body plugin i s xss xs :
  cb_rep s xss → xss !! i = Some xs → unregister_safe plugin xs →
  ∃ s', (plist ← cbs_at i; fuel ← gets walk_fuel; unregister_list fuel i plugin plist) s
          = Ok () s' ∧
    cb_rep s' (<[i := without plugin xs]> xss).
Proof.
  intros Hr Hx Hsafe. destruct (rep_at _ _ _ _ Hr Hx) as (p & Hp & Hc & Hnd).
  pose proof (dchain_size _ _ _ _ Hc Hnd).
  rewrite (bind_Ok _ _ _ _ _ (cbs_at_ok _ _ _ Hp)). unfold gets at 1, mbind at 1, M_bind at 1.
  destruct (unregister_front plugin i xs s p p (walk_fuel s)) as (h' & E & H1 & H2 & H3 & _);
    [done|done|done|unfold walk_fuel; lia|].
  rewrite E. eexists. split; [done|].
  eapply (cb_rep_update s _ _ _ xs _ (fst <$> head (without plugin xs))); simpl; [done|done|..].
  - unfold cbs_after. destruct xs as [|[l c] xs].
    { simpl in Hc. subst p. by rewrite list_insert_id. }
    destruct (without plugin ((l, c) :: xs)) as [|[k ck] ws] eqn:Ew; [done|].
    destruct Hsafe as [Hs|Hs]; [|congruence]. specialize (Hs _ eq_refl). simpl in Hs.
    rewrite without_cons_other in Ew by done. simplify_eq/=.
    destruct Hc as [-> _]. by rewrite list_insert_id.
  - done.
  - by apply without_nodup.
  - intros. by apply H2.
  - intros l Hl. left. by eapply without_locs.
  - intros l Hl. eapply rep_fresh; eauto.
Qed.

Lemma unregister_rep s xss plugin :
  cb_rep s xss → Forall (unregister_safe plugin) xss →
  ∃ s', panda_unregister_callbacks plugin s = Ok () s' ∧
    cb_rep s' (without plugin <$> xss).
Proof.
  intros Hr Hs.
  destruct (for_each_type_rep (unregister_safe plugin) (without plugin) (λ i,
     plist ← cbs_at i; fuel ← gets walk_fuel; unregister_list fuel i plugin plist))
    with (n := PANDA_CB_LAST) (i := 0%nat) (s := s) (xss := xss) as (s' & E & Hr').
  - intros. by apply unregister_body.
  - done.
  - by rewrite (rep_last _ _ Hr).
  - done.
  - eauto.
Qed.

(** ** Theorems *)

(** The zero-initialised globals represent empty lists. *)
Lemma cb_init_rep : cb_rep cb_init (replicate PANDA_CB_LAST []).
Proof.
  split.
  - by rewrite length_replicate.
  - by apply Forall2_replicate.
  - by apply Forall_replicate; constructor.
  - intros i j xs ys l Hi _ Hl _. apply lookup_replicate_1 in Hi as [-> _]. set_solver.
  - intros l [? Hl]. simpl in Hl. by rewrite lookup_empty in Hl.
Qed.

(** Registering a callback puts it first in its type's list, enabled, and
    changes no other list. *)
Theorem register_prepends s xss plugin t cb :
  cb_rep s xss →
  ∃ s' xs, xss !! cb_idx t = Some xs ∧
    panda_register_callback plugin t cb s = Ok () s' ∧
    cb_rep s' (<[cb_idx t := (cb_fresh s, mkInfo cb plugin true) :: xs]> xss).
Proof.
  intros Hr. destruct (rep_idx _ _ t Hr) as [xs Hx].
  destruct (register_rep s xss plugin t cb xs Hr Hx) as (s' & ? & ?). eauto 10.
Qed.

(** Running an event's callbacks terminates, changes nothing and calls exactly
    the callbacks [called] says. *)
Theorem run_callbacks_called s xss t :
  cb_rep s xss →
  ∃ xs, xss !! cb_idx t = Some xs ∧ panda_run_callbacks t s = Ok (called xs) s.
Proof.
  intros Hr. destruct (rep_idx _ _ t Hr) as [xs Hx]. exists xs. split; [done|].
  by eapply run_callbacks_rep.
Qed.

(** Disabling or enabling a plugin sets the flag of its callbacks only. *)
Theorem enable_disable_marks s xss plugin :
  cb_rep s xss →
  (∃ s', panda_enable_plugin plugin s = Ok () s' ∧ cb_rep s' (mark_all plugin true <$> xss)) ∧
  (∃ s', panda_disable_plugin plugin s = Ok () s' ∧ cb_rep s' (mark_all plugin false <$> xss)).
Proof. intros Hr. split; by apply set_enabled_rep. Qed.

(** Unregistering a plugin removes exactly its callbacks from every list, when
    in each list its callbacks are not in front of another plugin's. *)
Theorem unregister_removes s xss plugin :
  cb_rep s xss → Forall (unregister_safe plugin) xss →
  ∃ s', panda_unregister_callbacks plugin s = Ok () s' ∧
    cb_rep s' (without plugin <$> xss).
Proof. apply unregister_rep. Qed.

(** Otherwise the list's head pointer is left on a freed node: when the front
    callback of a list belongs to the plugin and another plugin's callback is
    behind it, the walk over that list leaves [panda_cbs[i]] dangling, and
    running the event then reads freed memory. *)
Theorem unregister_front_dangles s xss plugin t l c xs :
  cb_rep s xss → xss !! cb_idx t = Some ((l, c) :: xs) →
  ci_owner c = plugin → without plugin xs ≠ [] →
  ∃ s', unregister_list (walk_fuel s) (cb_idx t) plugin (Some l) s = Ok () s' ∧
    panda_cbs s' !! cb_idx t = Some (Some l) ∧
    panda_run_callbacks t s' = Err UseAfterFree s'.
Proof.
  intros Hr Hx Ho Hw. destruct (rep_at _ _ _ _ Hr Hx) as (p & Hp & Hc & Hnd).
  pose proof (dchain_size _ _ _ _ Hc Hnd). pose proof Hc as [-> _].
  destruct (unregister_front plugin (cb_idx t) ((l, c) :: xs) s (Some l) (Some l) (walk_fuel s))
    as (h' & E & H1 & _ & _ & H4); [done|done|done|unfold walk_fuel; lia|].
  specialize (H4 l c eq_refl Ho). eexists. split; [exact E|].
  unfold cbs_after in *. rewrite without_cons_owned in * by done.
  pose proof (dchain_size _ _ _ _ H1 (without_nodup _ _ (NoDup_cons_1_2 _ _ Hnd))) as Hsz.
  destruct (without plugin xs) as [|w ws]; [done|]. simpl in Hsz. split; [done|].
  unfold panda_run_callbacks. erewrite bind_Ok by (by eapply cbs_at_ok).
  unfold gets, mbind, M_bind, walk_fuel. simpl. destruct (size h'); [lia|]. simpl.
  unfold cb_load, mbind, M_bind. simpl. by rewrite H4.
Qed.

(** ** Witnesses *)

(** The state after an operation, for building concrete states. *)
Definition exec {A} (m : M cb_state A) (s : cb_state) : cb_state :=
  match m s with Ok _ s' => s' | Err _ s' => s' end.

Lemma exec_register_rep s xss plugin t cb xs :
  cb_rep s xss → xss !! cb_idx t = Some xs →
  cb_rep (exec (panda_register_callback plugin t cb) s)
         (<[cb_idx t := (cb_fresh s, mkInfo cb plugin true) :: xs]> xss).
Proof.
  intros Hr Hx. destruct (register_rep s xss plugin t cb xs Hr Hx) as (s' & E & Hr').
  unfold exec. by rewrite E.
Qed.

(** Plugin 1 registered callback 10, then plugin 2 callback 20, for the same
    event. *)
Definition two_plugins : cb_state :=
  exec (panda_register_callback 2 PANDA_CB_BEFORE_BLOCK_EXEC 20)
    (exec (panda_register_callback 1 PANDA_CB_BEFORE_BLOCK_EXEC 10) cb_init).

Definition two_lists : list (list (loc * cb_info)) :=
  <[cb_idx PANDA_CB_BEFORE_BLOCK_EXEC :=
     [(2%positive, mkInfo 20 2 true); (1%positive, mkInfo 10 1 true)]]>
    (replicate PANDA_CB_LAST []).

Lemma two_plugins_rep : cb_rep two_plugins two_lists.
Proof.
  pose proof (exec_register_rep cb_init _ 1 PANDA_CB_BEFORE_BLOCK_EXEC 10 []
                cb_init_rep eq_refl) as H1.
  exact (exec_register_rep _ _ 2 PANDA_CB_BEFORE_BLOCK_EXEC 20
           [(1%positive, mkInfo 10 1 true)] H1 eq_refl).
Qed.

Lemma register_prepends_witness :
  ∃ s' xs, replicate PANDA_CB_LAST [] !! cb_idx PANDA_CB_MONITOR = Some xs ∧
    panda_register_callback 1 PANDA_CB_MONITOR 10 cb_init = Ok () s' ∧
    cb_rep s' (<[cb_idx PANDA_CB_MONITOR := (1%positive, mkInfo 10 1 true) :: xs]>
                 (replicate PANDA_CB_LAST [])).
Proof. exact (register_prepends cb_init _ 1 PANDA_CB_MONITOR 10 cb_init_rep). Defined.

Lemma run_callbacks_called_witness :
  ∃ xs, two_lists !! cb_idx PANDA_CB_BEFORE_BLOCK_EXEC = Some xs ∧
    panda_run_callbacks PANDA_CB_BEFORE_BLOCK_EXEC two_plugins = Ok (called xs) two_plugins.
Proof. exact (run_callbacks_called _ _ _ two_plugins_rep). Defined.

Lemma enable_disable_marks_witness :
  (∃ s', panda_enable_plugin 1 two_plugins = Ok () s' ∧
     cb_rep s' (mark_all 1 true <$> two_lists)) ∧
  (∃ s', panda_disable_plugin 1 two_plugins = Ok () s' ∧
     cb_rep s' (mark_all 1 false <$> two_lists)).
Proof. exact (enable_disable_marks _ _ 1 two_plugins_rep). Defined.

Lemma unregister_removes_witness :
  ∃ s', panda_unregister_callbacks 1 two_plugins = Ok () s' ∧
    cb_rep s' (without 1 <$> two_lists).
Proof.
  apply (unregister_removes _ _ 1 two_plugins_rep).
  apply Forall_insert.
  - apply Forall_replicate. by right.
  - left. by intros x [= <-].
Defined.

Lemma unregister_front_dangles_witness :
  ∃ s', unregister_list (walk_fuel two_plugins) (cb_idx PANDA_CB_BEFORE_BLOCK_EXEC) 2
          (Some 2%positive) two_plugins = Ok () s' ∧
    panda_cbs s' !! cb_idx PANDA_CB_BEFORE_BLOCK_EXEC = Some (Some 2%positive) ∧
    panda_run_callbacks PANDA_CB_BEFORE_BLOCK_EXEC s' = Err UseAfterFree s'.
Proof.
  apply (unregister_front_dangles two_plugins two_lists 2 PANDA_CB_BEFORE_BLOCK_EXEC
           2%positive (mkInfo 20 2 true) [(1%positive, mkInfo 10 1 true)] two_plugins_rep);
    done.
Defined.

(** The whole operation on that state: unloading the plugin loaded last leaves
    the list dangling, and the next event of the type reads freed memory. *)
Example unregister_last_loaded :
  panda_run_callbacks PANDA_CB_BEFORE_BLOCK_EXEC (exec (panda_unregister_callbacks 2) two_plugins)
  = Err UseAfterFree (exec (panda_unregister_callbacks 2) two_plugins).
Proof. vm_compute. reflexivity. Qed.

(** The callback in front of a list is called even when its plugin is disabled. *)
Example disabled_front_still_called :
  match panda_run_callbacks PANDA_CB_BEFORE_BLOCK_EXEC
          (exec (panda_disable_plugin 2) two_plugins) with
  | Ok l _ => l = [20; 10]
  | Err _ _ => False
  end.
Proof. vm_compute. reflexivity. Qed.
