(* ===== verification/RRState.v ===== *)
(** * Global state of record/replay

    The globals of [rr_log.c] (with the part of the CPU state, the host's files
    and the plugin callbacks they interact with) as one record. The queue and
    the recycle list are linked through heap nodes as in the source. Calls that
    leave the component (device memory writes, snapshots, plugin callbacks) are
    appended to [rr_trace]. *)

From S2P Require Import Prelude CFile RRTypes PandaCallbacks.
Local Open Scope Z_scope.

(** A [struct rr_log_entry_t] in memory: the entry with its [next] link. *)
Record qnode := mkQnode { qn_entry : RR_log_entry; qn_next : option loc }.

(** The queue of entries read from the log, the recycle list and the history
    ring. [q_brk] is the address the next [g_malloc] of a buffer returns. *)
Record rr_queue := mkQueue {
  q_heap : gmap loc qnode;
  q_fresh : loc;
  q_brk : Z;
  rr_queue_head : option loc;
  rr_queue_tail : option loc;
  recycle_list : option loc;
  rr_log_entry_history : list RR_log_entry;
  rr_hist_index : Z;
  rr_max_num_queue_entries : Z;
}.

(** Flags set by the monitor. *)
Record rr_requests := mkReq {
  rr_replay_requested : Z;
  rr_record_requested : Z;
  rr_end_record_requested : Z;
  rr_end_replay_requested : Z;
  rr_requested_name : option string;
  rr_snapshot_name : option string;
}.

(** Calls out of the component, in order. A plugin event carries the callbacks
    that were called. *)
Inductive rr_event :=
| EvMemRw (addr : Z) (data : list byte) (len : Z)
| EvRegMem (start_addr size phys_offset : Z)
| EvMapUnmap (addr plen : Z) (data : list byte)
| EvHdTransfer (cbs : list Z) (type src_addr dest_addr num_bytes : Z)
| EvNetTransfer (cbs : list Z) (type src_addr dest_addr num_bytes : Z)
| EvHandlePacket (cbs : list Z) (data : list byte) (size direction old_buf_addr : Z)
| EvBeforeLoadvm (cbs : list Z)
| EvSaveVM (name : string)
| EvLoadVM (name : string)
| EvLoadVMRR (name : string)
| EvShutdownRequest
| EvQmpStop
| EvPandaCleanup
| EvEndReplay (is_error completed : bool)
| EvVmStart
| EvVmStop
| EvQuitTimers
| EvInitTimerAlarm.

(** What [cpu_physical_memory_map(addr, &plen, 1)] of [exec.c] returns after the
    calls [tr]: null, or a mapping of so many bytes. *)
Class Machine := phys_map : ∀ (tr : list rr_event) (addr len : Z), option Z.

(** The part of the guest CPU a program point is made of. There is one CPU:
    [cpu_single_env] says whether the global pointer of that name is set to it
    (it is null outside of the CPU loop). *)
Record cpu_env := mkCpu { eip : Z; ecx : Z; rr_guest_instr_count : Z }.

Record rr_state := mkState {
  rr_mode : RR_mode;
  rr_prog_point : RR_prog_point;
  rr_num_instr_before_next_interrupt : Z;
  rr_record_in_progress : bool;
  rr_skipped_callsite_location : Z;
  rr_nondet_log : option RR_log;
  rr_q : rr_queue;
  rr_req : rr_requests;
  rr_please_flush_tb : bool;
  rr_host : host;
  first_cpu : cpu_env;
  cpu_single_env : bool;
  rr_cbs : cb_state;
  rr_trace : list rr_event;
}.

(** ** Assignments to the globals *)

Definition set_q_heap (x : gmap loc qnode) (s : rr_queue) : rr_queue :=
    mkQueue x (q_fresh s) (q_brk s) (rr_queue_head s) (rr_queue_tail s) (recycle_list s)
    (rr_log_entry_history s) (rr_hist_index s) (rr_max_num_queue_entries s).
Definition set_q_fresh (x : loc) (s : rr_queue) : rr_queue :=
    mkQueue (q_heap s) x (q_brk s) (rr_queue_head s) (rr_queue_tail s) (recycle_list s)
    (rr_log_entry_history s) (rr_hist_index s) (rr_max_num_queue_entries s).
Definition set_q_brk (x : Z) (s : rr_queue) : rr_queue :=
    mkQueue (q_heap s) (q_fresh s) x (rr_queue_head s) (rr_queue_tail s) (recycle_list
    s) (rr_log_entry_history s) (rr_hist_index s) (rr_max_num_queue_entries s).
Definition set_rr_queue_head (x : option loc) (s : rr_queue) : rr_queue :=
    mkQueue (q_heap s) (q_fresh s) (q_brk s) x (rr_queue_tail s) (recycle_list s)
    (rr_log_entry_history s) (rr_hist_index s) (rr_max_num_queue_entries s).
Definition set_rr_queue_tail (x : option loc) (s : rr_queue) : rr_queue :=
    mkQueue (q_heap s) (q_fresh s) (q_brk s) (rr_queue_head s) x (recycle_list s)
    (rr_log_entry_history s) (rr_hist_index s) (rr_max_num_queue_entries s).
Definition set_recycle_list (x : option loc) (s : rr_queue) : rr_queue :=
    mkQueue (q_heap s) (q_fresh s) (q_brk s) (rr_queue_head s) (rr_queue_tail s) x
    (rr_log_entry_history s) (rr_hist_index s) (rr_max_num_queue_entries s).
Definition set_rr_log_entry_history (x : list RR_log_entry) (s : rr_queue) : rr_queue :=
    mkQueue (q_heap s) (q_fresh s) (q_brk s) (rr_queue_head s) (rr_queue_tail s)
    (recycle_list s) x (rr_hist_index s) (rr_max_num_queue_entries s).
Definition set_rr_hist_index (x : Z) (s : rr_queue) : rr_queue :=
    mkQueue (q_heap s) (q_fresh s) (q_brk s) (rr_queue_head s) (rr_queue_tail s)
    (recycle_list s) (rr_log_entry_history s) x (rr_max_num_queue_entries s).
Definition set_rr_max_num_queue_entries (x : Z) (s : rr_queue) : rr_queue :=
    mkQueue (q_heap s) (q_fresh s) (q_brk s) (rr_queue_head s) (rr_queue_tail s)
    (recycle_list s) (rr_log_entry_history s) (rr_hist_index s) x.

Definition set_rr_replay_requested (x : Z) (s : rr_requests) : rr_requests :=
    mkReq x (rr_record_requested s) (rr_end_record_requested s) (rr_end_replay_requested
    s) (rr_requested_name s) (rr_snapshot_name s).
Definition set_rr_record_requested (x : Z) (s : rr_requests) : rr_requests :=
    mkReq (rr_replay_requested s) x (rr_end_record_requested s) (rr_end_replay_requested
    s) (rr_requested_name s) (rr_snapshot_name s).
Definition set_rr_end_record_requested (x : Z) (s : rr_requests) : rr_requests :=
    mkReq (rr_replay_requested s) (rr_record_requested s) x (rr_end_replay_requested s)
    (rr_requested_name s) (rr_snapshot_name s).
Definition set_rr_end_replay_requested (x : Z) (s : rr_requests) : rr_requests :=
    mkReq (rr_replay_requested s) (rr_record_requested s) (rr_end_record_requested s) x
    (rr_requested_name s) (rr_snapshot_name s).
Definition set_rr_requested_name (x : option string) (s : rr_requests) : rr_requests :=
    mkReq (rr_replay_requested s) (rr_record_requested s) (rr_end_record_requested s)
    (rr_end_replay_requested s) x (rr_snapshot_name s).
Definition set_rr_snapshot_name (x : option string) (s : rr_requests) : rr_requests :=
    mkReq (rr_replay_requested s) (rr_record_requested s) (rr_end_record_requested s)
    (rr_end_replay_requested s) (rr_requested_name s) x.

Definition set_rr_mode (x : RR_mode) (s : rr_state) : rr_state :=
    mkState x (rr_prog_point s) (rr_num_instr_before_next_interrupt s)
    (rr_record_in_progress s) (rr_skipped_callsite_location s) (rr_nondet_log s) (rr_q
    s) (rr_req s) (rr_please_flush_tb s) (rr_host s) (first_cpu s) (cpu_single_env s)
    (rr_cbs s) (rr_trace s).
Definition set_rr_prog_point (x : RR_prog_point) (s : rr_state) : rr_state :=
    mkState (rr_mode s) x (rr_num_instr_before_next_interrupt s)
    (rr_record_in_progress s) (rr_skipped_callsite_location s) (rr_nondet_log s) (rr_q
    s) (rr_req s) (rr_please_flush_tb s) (rr_host s) (first_cpu s) (cpu_single_env s)
    (rr_cbs s) (rr_trace s).
Definition set_rr_num_instr_before_next_interrupt (x : Z) (s : rr_state) : rr_state :=
    mkState (rr_mode s) (rr_prog_point s) x (rr_record_in_progress s)
    (rr_skipped_callsite_location s) (rr_nondet_log s) (rr_q s) (rr_req s)
    (rr_please_flush_tb s) (rr_host s) (first_cpu s) (cpu_single_env s) (rr_cbs s)
    (rr_trace s).
Definition set_rr_record_in_progress (x : bool) (s : rr_state) : rr_state :=
    mkState (rr_mode s) (rr_prog_point s) (rr_num_instr_before_next_interrupt s) x
    (rr_skipped_callsite_location s) (rr_nondet_log s) (rr_q s) (rr_req s)
    (rr_please_flush_tb s) (rr_host s) (first_cpu s) (cpu_single_env s) (rr_cbs s)
    (rr_trace s).
Definition set_rr_skipped_callsite_location (x : Z) (s : rr_state) : rr_state :=
    mkState (rr_mode s) (rr_prog_point s) (rr_num_instr_before_next_interrupt s)
    (rr_record_in_progress s) x (rr_nondet_log s) (rr_q s) (rr_req s)
    (rr_please_flush_tb s) (rr_host s) (first_cpu s) (cpu_single_env s) (rr_cbs s)
    (rr_trace s).
Definition set_rr_nondet_log (x : option RR_log) (s : rr_state) : rr_state :=
    mkState (rr_mode s) (rr_prog_point s) (rr_num_instr_before_next_interrupt s)
    (rr_record_in_progress s) (rr_skipped_callsite_location s) x (rr_q s) (rr_req s)
    (rr_please_flush_tb s) (rr_host s) (first_cpu s) (cpu_single_env s) (rr_cbs s)
    (rr_trace s).
Definition set_rr_q (x : rr_queue) (s : rr_state) : rr_state :=
    mkState (rr_mode s) (rr_prog_point s) (rr_num_instr_before_next_interrupt s)
    (rr_record_in_progress s) (rr_skipped_callsite_location s) (rr_nondet_log s) x
    (rr_req s) (rr_please_flush_tb s) (rr_host s) (first_cpu s) (cpu_single_env s)
    (rr_cbs s) (rr_trace s).
Definition set_rr_req (x : rr_requests) (s : rr_state) : rr_state :=
    mkState (rr_mode s) (rr_prog_point s) (rr_num_instr_before_next_interrupt s)
    (rr_record_in_progress s) (rr_skipped_callsite_location s) (rr_nondet_log s) (rr_q
    s) x (rr_please_flush_tb s) (rr_host s) (first_cpu s) (cpu_single_env s) (rr_cbs
    s) (rr_trace s).
Definition set_rr_please_flush_tb (x : bool) (s : rr_state) : rr_state :=
    mkState (rr_mode s) (rr_prog_point s) (rr_num_instr_before_next_interrupt s)
    (rr_record_in_progress s) (rr_skipped_callsite_location s) (rr_nondet_log s) (rr_q
    s) (rr_req s) x (rr_host s) (first_cpu s) (cpu_single_env s) (rr_cbs s) (rr_trace
    s).
Definition set_rr_host (x : host) (s : rr_state) : rr_state :=
    mkState (rr_mode s) (rr_prog_point s) (rr_num_instr_before_next_interrupt s)
    (rr_record_in_progress s) (rr_skipped_callsite_location s) (rr_nondet_log s) (rr_q
    s) (rr_req s) (rr_please_flush_tb s) x (first_cpu s) (cpu_single_env s) (rr_cbs s)
    (rr_trace s).
Definition set_first_cpu (x : cpu_env) (s : rr_state) : rr_state :=
    mkState (rr_mode s) (rr_prog_point s) (rr_num_instr_before_next_interrupt s)
    (rr_record_in_progress s) (rr_skipped_callsite_location s) (rr_nondet_log s) (rr_q
    s) (rr_req s) (rr_please_flush_tb s) (rr_host s) x (cpu_single_env s) (rr_cbs s)
    (rr_trace s).
Definition set_cpu_single_env (x : bool) (s : rr_state) : rr_state :=
    mkState (rr_mode s) (rr_prog_point s) (rr_num_instr_before_next_interrupt s)
    (rr_record_in_progress s) (rr_skipped_callsite_location s) (rr_nondet_log s) (rr_q
    s) (rr_req s) (rr_please_flush_tb s) (rr_host s) (first_cpu s) x (rr_cbs s)
    (rr_trace s).
Definition set_rr_cbs (x : cb_state) (s : rr_state) : rr_state :=
    mkState (rr_mode s) (rr_prog_point s) (rr_num_instr_before_next_interrupt s)
    (rr_record_in_progress s) (rr_skipped_callsite_location s) (rr_nondet_log s) (rr_q
    s) (rr_req s) (rr_please_flush_tb s) (rr_host s) (first_cpu s) (cpu_single_env s)
    x (rr_trace s).
Definition set_rr_trace (x : list rr_event) (s : rr_state) : rr_state :=
    mkState (rr_mode s) (rr_prog_point s) (rr_num_instr_before_next_interrupt s)
    (rr_record_in_progress s) (rr_skipped_callsite_location s) (rr_nondet_log s) (rr_q
    s) (rr_req s) (rr_please_flush_tb s) (rr_host s) (first_cpu s) (cpu_single_env s)
    (rr_cbs s) x.

Definition set_log_type (x : RR_log_type) (s : RR_log) : RR_log :=
    mkLog x (last_prog_point s) (log_name s) (log_fp s) (log_size s) (bytes_read s)
    (current_item s) (item_number s).
Definition set_last_prog_point (x : RR_prog_point) (s : RR_log) : RR_log :=
    mkLog (log_type s) x (log_name s) (log_fp s) (log_size s) (bytes_read s)
    (current_item s) (item_number s).
Definition set_log_name (x : string) (s : RR_log) : RR_log :=
    mkLog (log_type s) (last_prog_point s) x (log_fp s) (log_size s) (bytes_read s)
    (current_item s) (item_number s).
Definition set_log_fp (x : option FILE) (s : RR_log) : RR_log :=
    mkLog (log_type s) (last_prog_point s) (log_name s) x (log_size s) (bytes_read s)
    (current_item s) (item_number s).
Definition set_log_size (x : Z) (s : RR_log) : RR_log :=
    mkLog (log_type s) (last_prog_point s) (log_name s) (log_fp s) x (bytes_read s)
    (current_item s) (item_number s).
Definition set_bytes_read (x : Z) (s : RR_log) : RR_log :=
    mkLog (log_type s) (last_prog_point s) (log_name s) (log_fp s) (log_size s) x
    (current_item s) (item_number s).
Definition set_current_item (x : RR_log_entry) (s : RR_log) : RR_log :=
    mkLog (log_type s) (last_prog_point s) (log_name s) (log_fp s) (log_size s)
    (bytes_read s) x (item_number s).
Definition set_item_number (x : Z) (s : RR_log) : RR_log :=
    mkLog (log_type s) (last_prog_point s) (log_name s) (log_fp s) (log_size s)
    (bytes_read s) (current_item s) x.

(** The monad of the component. *)
Abbreviation RR := (M rr_state).

(** Initial values of the globals in [rr_log.c] on a host with files [h]. *)
Definition RR_HIST_SIZE : Z := 10.
Definition queue_init : rr_queue :=
  mkQueue ∅ 1%positive 4096 None None None (replicate (Z.to_nat RR_HIST_SIZE) entry_zero) 0 0.
Definition rr_init (h : host) (cpu : cpu_env) (cbs : cb_state) : rr_state :=
  mkState RR_OFF pp_zero 0 false 0 None queue_init (mkReq 0 0 0 0 None None) false
    h cpu false cbs [].

(** Lifting of queue and callback operations, and of the log descriptor. *)
Definition on_q {A} (m : M rr_queue A) : RR A := λ s,
  match m (rr_q s) with
  | Ok a q => Ok a (set_rr_q q s)
  | Err e q => Err e (set_rr_q q s)
  end.

Definition on_cbs {A} (m : M cb_state A) : RR A := λ s,
  match m (rr_cbs s) with
  | Ok a c => Ok a (set_rr_cbs c s)
  | Err e c => Err e (set_rr_cbs c s)
  end.

(** [rr_nondet_log->...]: a fault when no log is open. *)
Definition get_log : RR RR_log := l ← gets rr_nondet_log; nonnull l.
Definition upd_log (f : RR_log → RR_log) : RR () :=
  l ← get_log; modify (set_rr_nondet_log (Some (f l))).

Definition emit (e : rr_event) : RR () := modify (λ s, set_rr_trace (rr_trace s ++ [e]) s).

(** [rr_assert(exp)]: a failed assertion ends the process with [exit(1)]. *)
Definition rr_assert (b : bool) : RR () := assert_or ExitFailure b.

(** [rr_in_replay], [rr_in_record], [rr_off], [rr_on]. *)
Definition rr_in_replay (s : rr_state) : bool := bool_decide (rr_mode s = RR_REPLAY).
Definition rr_in_record (s : rr_state) : bool := bool_decide (rr_mode s = RR_RECORD).
Definition rr_off (s : rr_state) : bool := bool_decide (rr_mode s = RR_OFF).
Definition rr_on (s : rr_state) : bool := negb (rr_off s).

(** [fread] of [n] bytes in all on the log's stream. *)
Definition log_fread (n : nat) : RR (list byte) :=
  l ← get_log; f ← nonnull (log_fp l); h ← gets rr_host;
  let '(bs, f') := fread h f n in
  upd_log (set_log_fp (Some f'));; mret bs.

(** [rr_assert(fread(&v, sizeof v, 1, fp) == 1)], the value as an integer. *)
Definition fread_int (n : nat) : RR Z :=
  bs ← log_fread n; rr_assert (length bs =? n)%nat;; mret (le_value bs).

(** [fwrite] on the log's stream; the source ignores the result. *)
Definition log_fwrite (bs : list byte) : RR () :=
  l ← get_log; f ← nonnull (log_fp l); h ← gets rr_host;
  let '(h', f') := fwrite h f bs in
  modify (set_rr_host h');; upd_log (set_log_fp (Some f')).

(** Setting the program point: the number of instructions to the next interrupt
    goes down by the number executed. *)
Definition rr_set_prog_point (new_pc new_secondary new_count : Z) : RR () :=
  modify (λ s,
    set_rr_prog_point (mkPP new_pc new_secondary new_count)
      (set_rr_num_instr_before_next_interrupt
         (wrap 64 (rr_num_instr_before_next_interrupt s
                   - (new_count - guest_instr_count (rr_prog_point s)))) s)).

(** [rr_set_program_point] for the i386 targets. *)
Definition rr_set_program_point : RR () :=
  running ← gets cpu_single_env; e ← gets first_cpu;
  if (running : bool) then rr_set_prog_point (eip e) (ecx e) (rr_guest_instr_count e)
  else mret ().

Definition rr_get_pc (s : rr_state) : Z := pc (rr_prog_point s).
Definition rr_get_secondary (s : rr_state) : Z := secondary (rr_prog_point s).
Definition rr_get_guest_instr_count (s : rr_state) : Z := guest_instr_count (rr_prog_point s).

(** ** Lemmas *)

Lemma get_log_ok s l : rr_nondet_log s = Some l → get_log s = Ok l s.
Proof. intros H. unfold get_log, gets, mbind, M_bind. by rewrite H. Qed.

Lemma upd_log_ok s l f :
  rr_nondet_log s = Some l → upd_log f s = Ok () (set_rr_nondet_log (Some (f l)) s).
Proof. intros H. unfold upd_log. by rewrite (bind_Ok _ _ _ _ _ (get_log_ok _ _ H)). Qed.

Lemma on_q_ok {A} (m : M rr_queue A) s a q :
  m (rr_q s) = Ok a q → on_q m s = Ok a (set_rr_q q s).
Proof. unfold on_q. by intros ->. Qed.

Lemma on_cbs_ok {A} (m : M cb_state A) s a c :
  m (rr_cbs s) = Ok a c → on_cbs m s = Ok a (set_rr_cbs c s).
Proof. unfold on_cbs. by intros ->. Qed.

Lemma log_fwrite_gen s l f bs :
  rr_nondet_log s = Some l → log_fp l = Some f →
  log_fwrite bs s
  = Ok () (set_rr_nondet_log (Some (set_log_fp (Some (fwrite (rr_host s) f bs).2) l))
             (set_rr_host (fwrite (rr_host s) f bs).1 s)).
Proof.
  intros Hl Hf. unfold log_fwrite. rewrite (bind_Ok _ _ _ _ _ (get_log_ok _ _ Hl)).
  rewrite Hf, bind_nonnull, bind_gets. unfold fwrite. rewrite bind_modify. by erewrite upd_log_ok.
Qed.
