(* ===== verification/RRQueue.v ===== *)
(** * The entry queue, the recycle list and the history ring ([rr_log.c])

    Both lists are threaded through the same heap nodes: an entry is taken from
    the recycle list (or allocated), filled, appended to the queue, popped, used
    and put back. [qrep] relates the pointers to two disjoint lists. *)

From S2P Require Import Prelude CFile RRTypes PandaCallbacks RRState.
Local Open Scope Z_scope.

Abbreviation Q := (M rr_queue).

(** ** Memory accesses *)

Definition q_load (l : loc) : Q qnode := λ q,
  match q_heap q !! l with Some n => Ok n q | None => Err UseAfterFree q end.
Definition q_store (l : loc) (n : qnode) : Q () :=
  _ ← q_load l; modify (λ q, set_q_heap (<[l:=n]> (q_heap q)) q).
Definition q_set_next (l : loc) (p : option loc) : Q () :=
  n ← q_load l; q_store l (mkQnode (qn_entry n) p).
Definition q_free (l : loc) : Q () :=
  _ ← q_load l; modify (λ q, set_q_heap (delete l (q_heap q)) q).

(** [g_malloc(n)] for a data buffer: null for 0 bytes, else a new address. *)
Definition g_malloc (n : Z) : Q Z :=
  if n =? 0 then mret 0 else
  a ← gets q_brk; modify (λ q, set_q_brk (a + n) q);; mret a.

(** ** Operations *)

(** [free_entry_params]: release and null the buffer of a skipped call. *)
Definition free_entry_params (e : RR_log_entry) : RR_log_entry :=
  mkEntry (prog_point e) (callsite_loc e)
    match variant e with
    | VCall (ArgsMemRw a) => VCall (ArgsMemRw (mkMemRw (rw_addr a) NULLbuf (rw_len a)))
    | VCall (ArgsUnmap a) => VCall (ArgsUnmap (mkUnmap (um_addr a) NULLbuf (um_len a)))
    | VCall (ArgsPacket a old) =>
        VCall (ArgsPacket (mkPacket NULLbuf (hp_size a) (hp_direction a)) old)
    | v => v
    end.

(** [rr_log_entry_history[rr_hist_index] = *entry] and the ring's step. *)
Definition save_history (e : RR_log_entry) (q : rr_queue) : rr_queue :=
  set_rr_log_entry_history
    (<[Z.to_nat (rr_hist_index q) := e]> (rr_log_entry_history q))
    (set_rr_hist_index ((rr_hist_index q + 1) `mod` RR_HIST_SIZE) q).

Definition add_to_recycle_list (l : loc) : Q () :=
  n ← q_load l;
  q_store l (mkQnode (free_entry_params (qn_entry n)) (qn_next n));;
  r ← gets recycle_list;
  match r with
  | None => modify (set_recycle_list (Some l))
  | Some _ => q_set_next l r;; modify (set_recycle_list (Some l))
  end;;
  m ← q_load l;
  modify (save_history (qn_entry m)).

Definition alloc_new_entry : Q loc :=
  r ← gets recycle_list;
  l ← match r with
      | Some l =>
          n ← q_load l; modify (set_recycle_list (qn_next n));;
          q_set_next l None;; mret l
      | None =>
          l ← gets q_fresh;
          modify (λ q, set_q_fresh (Pos.succ l)
                    (set_q_heap (<[l:=mkQnode entry_zero None]> (q_heap q)) q));;
          mret l
      end;
  q_store l (mkQnode entry_zero None);;
  mret l.

(** Append an entry to the queue (in [rr_fill_queue]). *)
Definition queue_append (l : loc) : Q () :=
  h ← gets rr_queue_head;
  match h with
  | None => modify (λ q, set_rr_queue_head (Some l) (set_rr_queue_tail (Some l) q))
  | Some _ =>
      t ← gets rr_queue_tail; t ← nonnull t;
      q_set_next t (Some l);;
      n ← q_load t; modify (set_rr_queue_tail (qn_next n))
  end.

(** Unlink the head of the queue (in [get_next_entry] and [rr_replay_debug]). *)
Definition queue_pop : Q loc :=
  h ← gets rr_queue_head; cur ← nonnull h;
  n ← q_load cur;
  modify (set_rr_queue_head (qn_next n));;
  q_set_next cur None;;
  t ← gets rr_queue_tail;
  (if decide (Some cur = t) then modify (set_rr_queue_tail None) else mret ());;
  mret cur.

(** The cleanup loops of [rr_do_end_replay]; a list has at most as many nodes
    as the heap. *)
Fixpoint free_recycle_list (fuel : nat) : Q () :=
  r ← gets recycle_list;
  match r with
  | None => mret ()
  | Some l =>
    match fuel with
    | O => fail OutOfFuel
    | S fuel' =>
        n ← q_load l; modify (set_recycle_list (qn_next n));;
        q_free l;; free_recycle_list fuel'
    end
  end.

Fixpoint free_queue (fuel : nat) : Q () :=
  h ← gets rr_queue_head;
  match h with
  | None => mret ()
  | Some l =>
    match fuel with
    | O => fail OutOfFuel
    | S fuel' =>
        n ← q_load l; modify (set_rr_queue_head (qn_next n));;
        q_store l (mkQnode (free_entry_params (qn_entry n)) None);;
        q_free l;; free_queue fuel'
    end
  end.

(** ** The lists the pointers represent *)

Fixpoint chain (h : gmap loc qnode) (p : option loc) (xs : list (loc * RR_log_entry)) : Prop :=
  match xs with
  | [] => p = None
  | (l, e) :: xs' => p = Some l ∧ ∃ nx, h !! l = Some (mkQnode e nx) ∧ chain h nx xs'
  end.

Record qrep (q : rr_queue) (qs rs : list (loc * RR_log_entry)) : Prop := {
  qr_queue : chain (q_heap q) (rr_queue_head q) qs;
  qr_tail : rr_queue_tail q = last qs.*1;
  qr_recycle : chain (q_heap q) (recycle_list q) rs;
  qr_nodup : NoDup (qs.*1 ++ rs.*1);
  qr_fresh : ∀ l, is_Some (q_heap q !! l) → (l < q_fresh q)%positive;
  qr_hist : length (rr_log_entry_history q) = Z.to_nat RR_HIST_SIZE;
  qr_hist_index : 0 ≤ rr_hist_index q < RR_HIST_SIZE;
}.

(** A node that is in neither list, unlinked. *)
Definition detached (q : rr_queue) (qs rs : list (loc * RR_log_entry))
    (l : loc) (e : RR_log_entry) : Prop :=
  q_heap q !! l = Some (mkQnode e None) ∧ (l ∉ qs.*1) ∧ (l ∉ rs.*1).

(** The parts of the queue state the list operations do not touch. *)
Definition q_same (q q' : rr_queue) : Prop :=
  q_brk q' = q_brk q ∧ rr_max_num_queue_entries q' = rr_max_num_queue_entries q.

(** ** Lemmas *)

Lemma chain_frame h h' p xs :
  (∀ l, l ∈ xs.*1 → h' !! l = h !! l) → chain h p xs → chain h' p xs.
Proof.
  revert p. induction xs as [|[l e] xs IH]; intros p Hf; simpl; [done|].
  intros [-> (nx & Hl & Hc)]. csimpl in *. split; [done|]. exists nx. split.
  - rewrite Hf by (constructor; done). done.
  - apply IH; [|done]. intros l' Hl'. apply Hf. by constructor.
Qed.

Lemma chain_insert_ne h p xs l n :
  l ∉ xs.*1 → chain h p xs → chain (<[l:=n]> h) p xs.
Proof. intros Hl. apply chain_frame. intros k Hk. apply lookup_insert_ne. by intros ->. Qed.

Lemma chain_lookup h p xs l : chain h p xs → l ∈ xs.*1 → is_Some (h !! l).
Proof.
  revert p. induction xs as [|[l' c] xs IH]; intros p; csimpl.
  { intros _ H. by apply not_elem_of_nil in H. }
  intros [-> (nx & Hl & Hc)] Hin. apply elem_of_cons in Hin as [->|Hin]; eauto.
Qed.

Lemma chain_size h p xs : chain h p xs → NoDup xs.*1 → (length xs ≤ size h)%nat.
Proof.
  intros Hc Hnd. rewrite <-(length_fmap fst), <-(size_dom h),
    <-(size_list_to_set (C:=gset loc)) by done.
  apply subseteq_size. intros l Hl. rewrite elem_of_list_to_set in Hl.
  apply elem_of_dom. by eapply chain_lookup.
Qed.

Lemma q_load_ok l n q : q_heap q !! l = Some n → q_load l q = Ok n q.
Proof. unfold q_load. by intros ->. Qed.

Lemma q_store_ok l n n' q :
  q_heap q !! l = Some n → q_store l n' q = Ok () (set_q_heap (<[l:=n']> (q_heap q)) q).
Proof. intros H. unfold q_store. by rewrite (bind_Ok _ _ _ _ _ (q_load_ok _ _ _ H)). Qed.

Lemma q_set_next_ok l n p q :
  q_heap q !! l = Some n →
  q_set_next l p q = Ok () (set_q_heap (<[l:=mkQnode (qn_entry n) p]> (q_heap q)) q).
Proof.
  intros H. unfold q_set_next. rewrite (bind_Ok _ _ _ _ _ (q_load_ok _ _ _ H)).
  by eapply q_store_ok.
Qed.

Lemma q_free_ok l n q :
  q_heap q !! l = Some n → q_free l q = Ok () (set_q_heap (delete l (q_heap q)) q).
Proof. intros H. unfold q_free. by rewrite (bind_Ok _ _ _ _ _ (q_load_ok _ _ _ H)). Qed.

Lemma fresh_insert (h : gmap loc qnode) l k n n' (b : loc) :
  (∀ j, is_Some (h !! j) → (j < b)%positive) → h !! l = Some n →
  is_Some (<[l:=n']> h !! k) → (k < b)%positive.
Proof.
  intros Hf Hl Hk. apply Hf. destruct (decide (l = k)) as [->|]; [eauto|].
  by rewrite lookup_insert_ne in Hk.
Qed.

(** Overwriting a node of neither list. *)
Lemma store_detached q qs rs l e e' :
  qrep q qs rs → detached q qs rs l e →
  ∃ q', q_store l (mkQnode e' None) q = Ok () q' ∧ qrep q' qs rs ∧
    detached q' qs rs l e' ∧ q_same q q'.
Proof.
  intros Hr (Hl & Hlq & Hlr). eexists. split; [by eapply q_store_ok|]. split_and!.
  - destruct Hr. split; simpl; try done.
    + by apply chain_insert_ne.
    + by apply chain_insert_ne.
    + intros k Hk. by eapply fresh_insert.
  - split_and!; [apply lookup_insert_eq|done|done].
  - done.
Qed.

Lemma alloc_rep q qs rs :
  qrep q qs rs →
  ∃ l q' rs', alloc_new_entry q = Ok l q' ∧ qrep q' qs rs' ∧
    detached q' qs rs' l entry_zero ∧ q_same q q'.
Proof.
  intros Hr. pose proof Hr as [Hq Ht Hrc Hnd Hf Hh Hi].
  unfold alloc_new_entry. rewrite bind_gets.
  destruct rs as [|[l e] rs].
  - simpl in Hrc. rewrite Hrc. erewrite bind_Ok by done. simpl.
    set (l := q_fresh q). assert (Hfree : q_heap q !! l = None).
    { destruct (q_heap q !! l) eqn:E; [|done].
      pose proof (Hf l ltac:(eauto)). subst l. lia. }
    assert (Hlq : l ∉ qs.*1).
    { intros Hin. destruct (chain_lookup _ _ _ _ Hq Hin). congruence. }
    erewrite bind_Ok by (eapply q_store_ok; simpl; apply lookup_insert_eq). simpl.
    eexists l, _, []. split; [done|]. rewrite insert_insert_eq. split_and!.
    + split; simpl; try done.
      * by apply chain_insert_ne.
      * intros k Hk. destruct (decide (l = k)) as [->|]; [lia|].
        rewrite lookup_insert_ne in Hk by done. apply Hf in Hk. subst l. lia.
    + split_and!; [apply lookup_insert_eq|done|apply not_elem_of_nil].
    + done.
  - destruct Hrc as [Hrc (nx & Hl & Hrc')]. rewrite Hrc. csimpl in *.
    apply NoDup_app in Hnd as (Hnq & Hd & Hnr). apply NoDup_cons in Hnr as [Hlr Hnr].
    assert (Hlq : l ∉ qs.*1) by (intros Hx; apply (Hd l Hx); by constructor).
    erewrite bind_Ok.
    2: { erewrite bind_Ok by (by eapply q_load_ok). simpl.
         erewrite bind_Ok by done. simpl.
         erewrite bind_Ok by (by eapply q_set_next_ok). done. }
    simpl. erewrite bind_Ok by (eapply q_store_ok; simpl; apply lookup_insert_eq).
    simpl. eexists l, _, rs. split; [done|]. simpl. rewrite insert_insert_eq. split_and!.
    + split; simpl; try done.
      * by apply chain_insert_ne.
      * by apply chain_insert_ne.
      * apply NoDup_app. split_and!; [done| |done]. intros k Hk Hkr.
        apply (Hd k Hk). by constructor.
      * intros k Hk. by eapply fresh_insert.
    + split_and!; [apply lookup_insert_eq|done|done].
    + done.
Qed.

Lemma chain_snoc h p xs l e :
  chain h p xs → NoDup xs.*1 → l ∉ xs.*1 → xs ≠ [] →
  h !! l = Some (mkQnode e None) →
  ∃ k ek, last xs = Some (k, ek) ∧ h !! k = Some (mkQnode ek None) ∧
    chain (<[k:=mkQnode ek (Some l)]> h) p (xs ++ [(l, e)]).
Proof.
  revert p. induction xs as [|[k ek] xs IH]; intros p Hc Hnd Hl Hne Hle; [done|].
  destruct Hc as [-> (nx & Hk & Hc)]. csimpl in *. apply NoDup_cons in Hnd as [Hkx Hnd].
  apply not_elem_of_cons in Hl as [Hlk Hl]. destruct xs as [|x xs].
  - simpl in Hc. subst nx. exists k, ek. split; [done|]. split; [done|]. simpl.
    split; [done|]. exists (Some l). rewrite lookup_insert_eq. split; [done|].
    split; [done|]. exists None. rewrite lookup_insert_ne by done. done.
  - destruct (IH nx) as (k' & ek' & Hlast & Hk' & Hc'); [done..|].
    exists k', ek'. split; [done|]. split; [done|]. split; [done|]. exists nx. split; [|done].
    rewrite lookup_insert_ne; [done|]. intros ->. apply Hkx.
    apply last_Some_elem_of, (list_elem_of_fmap_2 fst) in Hlast. done.
Qed.

Lemma append_rep q qs rs l e :
  qrep q qs rs → detached q qs rs l e →
  ∃ q', queue_append l q = Ok () q' ∧ qrep q' (qs ++ [(l, e)]) rs ∧ q_same q q'.
Proof.
  intros Hr (Hl & Hlq & Hlr). pose proof Hr as [Hq Ht Hrc Hnd Hf Hh Hi].
  assert (Hnd' : NoDup ((qs ++ [(l, e)]).*1 ++ rs.*1)).
  { rewrite fmap_app, <-app_assoc. simpl. rewrite <-Permutation_middle.
    constructor; [|done]. rewrite elem_of_app. naive_solver. }
  apply NoDup_app in Hnd as (Hnq & Hd & Hnr).
  unfold queue_append. rewrite bind_gets.
  destruct qs as [|[k ek] qs].
  - simpl in Hq. rewrite Hq. simpl. eexists. split; [done|]. split; [|done].
    split; simpl; try done. split; [done|]. eauto.
  - pose proof Hq as [-> _]. rewrite bind_gets.
    destruct (chain_snoc _ _ _ l e Hq) as (j & ej & Hlast & Hj & Hc); [done..|].
    assert (Hlast1 : last ((k, ek) :: qs).*1 = Some j) by (by rewrite fmap_last, Hlast).
    assert (Hjq : j ∈ ((k, ek) :: qs).*1) by (by apply last_Some_elem_of).
    rewrite Ht, Hlast1. erewrite bind_Ok by done.
    erewrite bind_Ok by (by eapply q_set_next_ok).
    erewrite bind_Ok by (eapply q_load_ok; simpl; apply lookup_insert_eq).
    simpl. eexists. split; [done|]. split; [|done]. split; simpl; try done.
    + rewrite fmap_app. simpl. by rewrite app_comm_cons, last_snoc.
    + apply chain_insert_ne; [|done]. by apply Hd.
    + intros n Hn. by eapply fresh_insert.
Qed.

Lemma pop_rep q qs rs l e :
  qrep q ((l, e) :: qs) rs →
  ∃ q', queue_pop q = Ok l q' ∧ qrep q' qs rs ∧ detached q' qs rs l e ∧ q_same q q'.
Proof.
  intros [Hq Ht Hrc Hnd Hf Hh Hi]. destruct Hq as [Hhd (nx & Hl & Hq)]. csimpl in *.
  apply NoDup_cons in Hnd as [Hlx Hnd]. rewrite elem_of_app in Hlx.
  assert (Hlq : l ∉ qs.*1) by naive_solver. assert (Hlr : l ∉ rs.*1) by naive_solver.
  unfold queue_pop. rewrite bind_gets, Hhd.
  erewrite bind_Ok by done. erewrite bind_Ok by (by eapply q_load_ok).
  erewrite bind_Ok by done. erewrite bind_Ok by (by eapply q_set_next_ok).
  rewrite bind_gets. simpl. rewrite Ht.
  set (q1 := set_q_heap _ _).
  assert (Hr1 : ∀ t, t = last qs.*1 → qrep (set_rr_queue_tail t q1) qs rs).
  { intros t ->. split; simpl; try done.
    - by apply chain_insert_ne.
    - by apply chain_insert_ne.
    - intros k Hk. by eapply fresh_insert. }
  destruct qs as [|x qs].
  - simpl. rewrite decide_True by done. eexists. split; [done|].
    split_and!; [by apply (Hr1 None)|split_and!; [apply lookup_insert_eq|done|done]|done].
  - assert (last (l :: (x :: qs).*1) = last (x :: qs).*1) as -> by done.
    assert (Some l ≠ last (x :: qs).*1).
    { intros Hx. symmetry in Hx. apply last_Some_elem_of in Hx. done. }
    rewrite decide_False by done. eexists. split; [done|].
    split_and!; [|split_and!; [apply lookup_insert_eq|done|done]|done].
    specialize (Hr1 (rr_queue_tail q1)). subst q1. simpl in Hr1.
    replace (set_rr_queue_tail _ _) with
      (set_q_heap (<[l:={| qn_entry := e; qn_next := None |}]> (q_heap (set_rr_queue_head nx q)))
         (set_rr_queue_head nx q)) in Hr1 by (by destruct q).
    by apply Hr1.
Qed.

Lemma save_history_rep q qs rs e : qrep q qs rs → qrep (save_history e q) qs rs.
Proof.
  intros []. split; simpl; try done.
  - by rewrite length_insert.
  - unfold RR_HIST_SIZE. apply Z.mod_pos_bound. lia.
Qed.

Lemma recycle_rep q qs rs l e :
  qrep q qs rs → detached q qs rs l e →
  ∃ q', add_to_recycle_list l q = Ok () q' ∧
    qrep q' qs ((l, free_entry_params e) :: rs) ∧ q_same q q'.
Proof.
  intros [Hq Ht Hrc Hnd Hf Hh Hi] (Hl & Hlq & Hlr).
  assert (Hnd' : NoDup (qs.*1 ++ ((l, free_entry_params e) :: rs).*1)).
  { csimpl. rewrite <-Permutation_middle. constructor; [|done]. rewrite elem_of_app. naive_solver. }
  unfold add_to_recycle_list. erewrite bind_Ok by (by eapply q_load_ok).
  erewrite bind_Ok by (by eapply q_store_ok).
  rewrite bind_gets. simpl.
  destruct (recycle_list q) as [r|] eqn:Er.
  - erewrite bind_Ok.
    2: { erewrite bind_Ok by (eapply q_set_next_ok; simpl; apply lookup_insert_eq). done. }
    erewrite bind_Ok by (eapply q_load_ok; simpl; apply lookup_insert_eq).
    eexists. split; [done|]. split; [|done]. apply save_history_rep.
    simpl. rewrite insert_insert_eq. split; simpl; try done.
    + by apply chain_insert_ne.
    + split; [done|]. exists (Some r). rewrite lookup_insert_eq. split; [done|].
      by apply chain_insert_ne.
    + intros k Hk. by eapply fresh_insert.
  - erewrite bind_Ok by done.
    erewrite bind_Ok by (eapply q_load_ok; simpl; apply lookup_insert_eq).
    eexists. split; [done|]. split; [|done]. apply save_history_rep.
    destruct rs as [|x rs]; [|destruct x; by destruct Hrc as [? _]].
    split; simpl; try done.
    + by apply chain_insert_ne.
    + split; [done|]. exists None. by rewrite lookup_insert_eq.
    + intros k Hk. by eapply fresh_insert.
Qed.

(** Allocating a buffer does not touch the lists. *)
Lemma qrep_brk q qs rs b : qrep q qs rs → qrep (set_q_brk b q) qs rs.
Proof. by intros []. Qed.

(** ** Releasing the lists at the end of a replay *)

Lemma chain_delete_ne h p xs l : l ∉ xs.*1 → chain h p xs → chain (delete l h) p xs.
Proof. intros Hl. apply chain_frame. intros k Hk. apply lookup_delete_ne. by intros ->. Qed.

Lemma fresh_delete (h : gmap loc qnode) l k (b : loc) :
  (∀ j, is_Some (h !! j) → (j < b)%positive) → is_Some (delete l h !! k) → (k < b)%positive.
Proof. intros Hf [x Hk]. apply lookup_delete_Some in Hk as [_ Hk]. eauto. Qed.

Lemma lookup_freed (h : gmap loc qnode) l ls k :
  (if decide (k ∈ ls) then None else delete l h !! k)
  = if decide (k ∈ l :: ls) then None else h !! k.
Proof.
  destruct (decide (k = l)) as [->|Hne].
  - rewrite (decide_True (P := l ∈ l :: ls)) by constructor. rewrite lookup_delete_eq. by case_decide.
  - rewrite lookup_delete_ne by done. repeat case_decide; try done; exfalso; set_solver.
Qed.

Lemma free_recycle_rep n : ∀ q qs rs,
  qrep q qs rs → (length rs ≤ n)%nat →
  ∃ q', free_recycle_list n q = Ok () q' ∧ qrep q' qs [] ∧ q_same q q' ∧
    ∀ k, q_heap q' !! k = if decide (k ∈ rs.*1) then None else q_heap q !! k.
Proof.
  induction n as [|n IH]; intros q qs rs Hr Hn; (destruct rs as [|[l e] rs];
    [exists q; split; [unfold free_recycle_list; rewrite bind_gets; by rewrite (qr_recycle _ _ _ Hr)
                      |by split; [|split; [|intros k; rewrite decide_False by apply not_elem_of_nil]]]
    |]); [simpl in Hn; lia|].
  destruct Hr as [Hq Ht [Hrc (nx & Hl & Hc)] Hnd Hf Hh Hi]. csimpl in *.
  apply NoDup_app in Hnd as (Hnq & Hd & Hnr). apply NoDup_cons in Hnr as [Hlr Hnr].
  assert (Hlq : l ∉ qs.*1) by (intros Hx; apply (Hd l Hx); by constructor).
  rewrite bind_gets, Hrc. erewrite bind_Ok by (by apply q_load_ok).
  erewrite bind_Ok by done. erewrite bind_Ok by (eapply q_free_ok; exact Hl). simpl.
  edestruct (IH (set_q_heap (delete l (q_heap q)) (set_recycle_list nx q)) qs rs)
    as (q' & Hfree & Hq' & Hs & Hh'); [|lia|exists q'; split; [exact Hfree|]; split; [done|];
      split; [done|]; intros k; rewrite Hh'; apply lookup_freed].
  split; simpl; try done.
  - by apply chain_delete_ne.
  - by apply chain_delete_ne.
  - apply NoDup_app. split_and!; try done. intros k Hk Hkr. apply (Hd k Hk). by constructor.
  - intros k. by apply fresh_delete.
Qed.

Lemma free_queue_rep n : ∀ q qs,
  qrep (set_rr_queue_tail (last qs.*1) q) qs [] → (length qs ≤ n)%nat →
  ∃ q', free_queue n q = Ok () q' ∧
    qrep (set_rr_queue_head None (set_rr_queue_tail None q')) [] [] ∧ q_same q q' ∧
    ∀ k, q_heap q' !! k = if decide (k ∈ qs.*1) then None else q_heap q !! k.
Proof.
  induction n as [|n IH]; intros q qs Hr Hn; (destruct qs as [|[l e] qs];
    [exists q; destruct Hr as [Hq Ht Hrc Hnd Hf Hh Hi]; simpl in *;
     split; [unfold free_queue; rewrite bind_gets; by rewrite Hq|split; [by split|split; [done|]];
       by intros k]|]); [simpl in Hn; lia|].
  destruct Hr as [[Hhd (nx & Hl & Hc)] Ht Hrc Hnd Hf Hh Hi]. csimpl in *.
  rewrite app_nil_r in Hnd. apply NoDup_cons in Hnd as [Hlq Hnq].
  rewrite bind_gets, Hhd. erewrite bind_Ok by (by apply q_load_ok).
  erewrite bind_Ok by done. erewrite bind_Ok by (eapply q_store_ok; exact Hl).
  erewrite bind_Ok by (eapply q_free_ok; simpl; apply lookup_insert_eq). simpl.
  rewrite delete_insert_eq.
  edestruct (IH (set_q_heap (delete l (q_heap q)) (set_rr_queue_head nx q)) qs)
    as (q' & Hfree & Hq' & Hs & Hh'); [|lia|exists q'; split; [exact Hfree|]; split; [done|];
      split; [done|]; intros k; rewrite Hh'; apply lookup_freed].
  split; simpl; try done.
  - by apply chain_delete_ne.
  - by rewrite app_nil_r.
  - intros k. by apply fresh_delete.
Qed.
