(* ===== verification/RRFormat.v ===== *)
(** * The log file format: [rr_write_item] and [rr_read_item]

    The bytes a log entry takes in the file, with the layout the compiler gives
    the argument structures on a 64-bit little-endian host (padding bytes are 0:
    the item is cleared with [memset] before its fields are set). [log_item] is
    the abstract content of one entry of the file. *)

From S2P Require Import Prelude CFile RRTypes PandaCallbacks RRState RRQueue.
Local Open Scope Z_scope.

Section Format.
Context `{TargetPhys}.

(** ** Structure layouts *)

Definition pp_bytes (p : RR_prog_point) : list byte :=
  le_bytes 8 (pc p) ++ le_bytes 8 (secondary p) ++ le_bytes 8 (guest_instr_count p).

(** A [target_phys_addr_t] followed by an 8-byte aligned field. *)
Definition phys_field (a : Z) : list byte :=
  le_bytes phys_bytes a ++ zero_bytes (8 - phys_bytes).

Definition mem_rw_struct (addr buf len : Z) : list byte :=
  phys_field addr ++ le_bytes 8 buf ++ le_bytes 4 len ++ zero_bytes 4.
Definition unmap_struct (addr buf len : Z) : list byte :=
  phys_field addr ++ le_bytes 8 buf ++ phys_field len.
Definition region_struct (start_addr size phys_offset : Z) : list byte :=
  phys_field start_addr ++ le_bytes 8 size ++ le_bytes 8 phys_offset.
Definition transfer_struct (type src dest num_bytes : Z) : list byte :=
  le_bytes 4 type ++ zero_bytes 4 ++ le_bytes 8 src ++ le_bytes 8 dest
  ++ le_bytes 4 num_bytes ++ zero_bytes 4.
Definition packet_struct (buf size direction : Z) : list byte :=
  le_bytes 8 buf ++ le_bytes 4 size ++ le_bytes 1 direction ++ zero_bytes 3.

(** ** Writing *)

(** [fwrite(buf, 1, len, fp)]: reads [len] bytes of the buffer. *)
Definition fwrite_buf (b : host_buf) (len : Z) : RR () :=
  if len <=? Z.of_nat (length (buf_data b))
  then log_fwrite (take (Z.to_nat len) (buf_data b))
  else fail OutOfBounds.

Definition write_call_args (args : RR_skipped_call_args) : RR () :=
  match args with
  | ArgsMemRw a =>
      rr_assert (negb (buf_is_null (rw_buf a)) || (rw_len a =? 0));;
      log_fwrite (mem_rw_struct (rw_addr a) (buf_addr (rw_buf a)) (rw_len a));;
      fwrite_buf (rw_buf a) (rw_len a)
  | ArgsUnmap a =>
      rr_assert (negb (buf_is_null (um_buf a)) || (um_len a =? 0));;
      log_fwrite (unmap_struct (um_addr a) (buf_addr (um_buf a)) (um_len a));;
      fwrite_buf (um_buf a) (um_len a)
  | ArgsRegion a =>
      log_fwrite (region_struct (rg_start_addr a) (rg_size a) (rg_phys_offset a))
  | ArgsHd a =>
      log_fwrite (transfer_struct (hd_type a) (hd_src_addr a) (hd_dest_addr a) (hd_num_bytes a))
  | ArgsNet a =>
      log_fwrite (transfer_struct (nt_type a) (nt_src_addr a) (nt_dest_addr a) (nt_num_bytes a))
  | ArgsPacket a _ =>
      assert_or Abort (negb (buf_is_null (hp_buf a)) || (hp_size a =? 0));;
      log_fwrite (packet_struct (buf_addr (hp_buf a)) (hp_size a) (hp_direction a));;
      fwrite_buf (hp_buf a) (hp_size a)
  end.

Definition rr_write_item : RR () :=
  lg ← gets rr_nondet_log; r ← gets rr_in_record;
  rr_assert r;;
  rr_assert (bool_decide (is_Some lg));;
  l ← get_log;
  let item := current_item l in
  log_fwrite (pp_bytes (prog_point item));;
  log_fwrite (le_bytes 1 (kind_Z (kind item)));;
  log_fwrite (le_bytes 1 (callsite_loc item));;
  upd_log (set_last_prog_point (prog_point item));;
  match variant item with
  | VInput1 v => log_fwrite (le_bytes 1 v)
  | VInput2 v => log_fwrite (le_bytes 2 v)
  | VInput4 v => log_fwrite (le_bytes 4 v)
  | VInput8 v => log_fwrite (le_bytes 8 v)
  | VInterrupt v => log_fwrite (le_bytes 2 v)
  | VExit v => log_fwrite (le_bytes 2 v)
  | VCall args =>
      log_fwrite (le_bytes 1 (call_kind_Z (call_kind args)));; write_call_args args
  | VDebug => mret ()
  | VLast => mret ()
  end;;
  upd_log (λ l, set_item_number (wrap 64 (item_number l + 1)) l).

(** ** Reading *)

(** [rr_log_is_empty]: [size - bytes_read == 0] in 64-bit arithmetic. *)
Definition rr_log_is_empty : RR bool :=
  l ← get_log;
  mret (bool_decide (log_type l = REPLAY) && (wrap 64 (log_size l - bytes_read l) =? 0)).

Definition add_bytes_read (n : Z) : RR () :=
  upd_log (λ l, set_bytes_read (wrap 64 (bytes_read l + n)) l).

(** A structure is one [fread]: it fails as a whole when the file is short. *)
Definition fread_struct (n : nat) : RR (list byte) :=
  bs ← log_fread n; rr_assert (length bs =? n)%nat;; mret bs.

(** The field of [n] bytes at offset [off] of a structure. *)
Definition field (off n : nat) (bs : list byte) : Z := le_value (take n (drop off bs)).

(** [fread(buf, 1, len, fp) > 0] into a new buffer of [len] bytes. *)
Definition fread_buf (len : Z) : RR host_buf :=
  a ← on_q (g_malloc len);
  bs ← log_fread (Z.to_nat len);
  rr_assert (0 <? length bs)%nat;;
  mret (if a =? 0 then NULLbuf else HBuf a bs).

(** [assert(fread(buf, size, 1, fp) == 1)] *)
Definition fread_packet_buf (size : Z) : RR host_buf :=
  a ← on_q (g_malloc size);
  bs ← log_fread (Z.to_nat size);
  assert_or Abort ((0 <? length bs) && (length bs =? Z.to_nat size))%nat;;
  mret (if a =? 0 then NULLbuf else HBuf a bs).

Definition read_call_args (k : RR_skipped_call_kind) : RR RR_skipped_call_args :=
  match k with
  | RR_CALL_CPU_MEM_RW =>
      st ← fread_struct 24;
      add_bytes_read 24;;
      let addr := field 0 phys_bytes st in
      let len := field 16 4 st in
      buf ← fread_buf len;
      add_bytes_read len;;
      mret (ArgsMemRw (mkMemRw addr buf len))
  | RR_CALL_CPU_MEM_UNMAP =>
      st ← fread_struct 24;
      add_bytes_read 24;;
      let addr := field 0 phys_bytes st in
      let len := field 16 phys_bytes st in
      buf ← fread_buf len;
      add_bytes_read len;;
      mret (ArgsUnmap (mkUnmap addr buf len))
  | RR_CALL_CPU_REG_MEM_REGION =>
      st ← fread_struct 24;
      add_bytes_read 24;;
      mret (ArgsRegion (mkRegion (field 0 phys_bytes st) (field 8 8 st) (field 16 8 st)))
  | RR_CALL_HD_TRANSFER =>
      st ← fread_struct 32;
      add_bytes_read 32;;
      mret (ArgsHd (mkHd (field 0 4 st) (field 8 8 st) (field 16 8 st) (field 24 4 st)))
  | RR_CALL_NET_TRANSFER =>
      st ← fread_struct 32;
      add_bytes_read 32;;
      mret (ArgsNet (mkNet (field 0 4 st) (field 8 8 st) (field 16 8 st) (field 24 4 st)))
  | RR_CALL_HANDLE_PACKET =>
      st ← fread_struct 16;
      add_bytes_read 16;;
      let old := field 0 8 st in
      let size := field 8 4 st in
      buf ← fread_packet_buf size;
      add_bytes_read size;;
      mret (ArgsPacket (mkPacket buf size (field 12 1 st)) old)
  | RR_CALL_LAST => fail ExitFailure
  end.

Definition read_input (n : nat) : RR Z :=
  v ← fread_int n; add_bytes_read (Z.of_nat n);; mret v.

Definition read_variant (k : RR_log_entry_kind) : RR RR_variant :=
  match k with
  | RR_INPUT_1 => v ← read_input 1; mret (VInput1 v)
  | RR_INPUT_2 => v ← read_input 2; mret (VInput2 v)
  | RR_INPUT_4 => v ← read_input 4; mret (VInput4 v)
  | RR_INPUT_8 => v ← read_input 8; mret (VInput8 v)
  | RR_INTERRUPT_REQUEST => v ← read_input 2; mret (VInterrupt v)
  | RR_EXIT_REQUEST => v ← read_input 2; mret (VExit v)
  | RR_SKIPPED_CALL =>
      c ← fread_int 1;
      add_bytes_read 1;;
      match call_kind_of_Z c with
      | Some ck => a ← read_call_args ck; mret (VCall a)
      | None => fail ExitFailure
      end
  | RR_LAST => mret VLast
  | RR_DEBUG => mret VDebug
  end.

(** The fields of [*item], header first. *)
Definition read_entry : RR RR_log_entry :=
  pst ← fread_struct 24;
  let pp := mkPP (field 0 8 pst) (field 8 8 pst) (field 16 8 pst) in
  k ← fread_int 1;
  cs ← fread_int 1;
  add_bytes_read 26;;
  match kind_of_Z k with
  | Some kd => v ← read_variant kd; mret (mkEntry pp cs v)
  | None => fail ExitFailure
  end.

Definition rr_read_item : RR loc :=
  item ← on_q alloc_new_entry;
  r ← gets rr_in_replay; rr_assert r;;
  e ← rr_log_is_empty; rr_assert (negb e);;
  l ← get_log; rr_assert (bool_decide (is_Some (log_fp l)));;
  en ← read_entry;
  on_q (q_store item (mkQnode en None));;
  upd_log (λ l, set_item_number (wrap 64 (item_number l + 1)) l);;
  mret item.

(** ** The abstract content of the file *)

Inductive log_call :=
| LMemRw (addr ptr : Z) (data : list byte)
| LRegion (start_addr size phys_offset : Z)
| LUnmap (addr ptr : Z) (data : list byte)
| LHd (type src dest num_bytes : Z)
| LNet (type src dest num_bytes : Z)
| LPacket (ptr : Z) (data : list byte) (direction : Z).

Inductive log_body :=
| LInput1 (v : Z)
| LInput2 (v : Z)
| LInput4 (v : Z)
| LInput8 (v : Z)
| LInterrupt (v : Z)
| LExit (v : Z)
| LCall (c : log_call)
| LDebug
| LLast.

Record log_item := mkItem {
  li_pp : RR_prog_point;
  li_callsite : Z;
  li_body : log_body;
}.

Definition zlen (d : list byte) : Z := Z.of_nat (length d).

Definition call_bytes (c : log_call) : list byte :=
  match c with
  | LMemRw addr ptr data =>
      le_bytes 1 (call_kind_Z RR_CALL_CPU_MEM_RW) ++ mem_rw_struct addr ptr (zlen data) ++ data
  | LRegion s n o =>
      le_bytes 1 (call_kind_Z RR_CALL_CPU_REG_MEM_REGION) ++ region_struct s n o
  | LUnmap addr ptr data =>
      le_bytes 1 (call_kind_Z RR_CALL_CPU_MEM_UNMAP) ++ unmap_struct addr ptr (zlen data) ++ data
  | LHd t s d n =>
      le_bytes 1 (call_kind_Z RR_CALL_HD_TRANSFER) ++ transfer_struct t s d n
  | LNet t s d n =>
      le_bytes 1 (call_kind_Z RR_CALL_NET_TRANSFER) ++ transfer_struct t s d n
  | LPacket ptr data dir =>
      le_bytes 1 (call_kind_Z RR_CALL_HANDLE_PACKET) ++ packet_struct ptr (zlen data) dir ++ data
  end.

Definition body_kind (b : log_body) : RR_log_entry_kind :=
  match b with
  | LInput1 _ => RR_INPUT_1 | LInput2 _ => RR_INPUT_2 | LInput4 _ => RR_INPUT_4
  | LInput8 _ => RR_INPUT_8 | LInterrupt _ => RR_INTERRUPT_REQUEST
  | LExit _ => RR_EXIT_REQUEST | LCall _ => RR_SKIPPED_CALL
  | LDebug => RR_DEBUG | LLast => RR_LAST
  end.

Definition body_bytes (b : log_body) : list byte :=
  match b with
  | LInput1 v => le_bytes 1 v
  | LInput2 v => le_bytes 2 v
  | LInput4 v => le_bytes 4 v
  | LInput8 v => le_bytes 8 v
  | LInterrupt v => le_bytes 2 v
  | LExit v => le_bytes 2 v
  | LCall c => call_bytes c
  | LDebug => []
  | LLast => []
  end.

Definition item_bytes (i : log_item) : list byte :=
  pp_bytes (li_pp i) ++ le_bytes 1 (kind_Z (body_kind (li_body i)))
  ++ le_bytes 1 (li_callsite i) ++ body_bytes (li_body i).

(** Items whose fields fit the widths the format gives them, and whose buffers
    are not empty. *)
Definition wf_pp (p : RR_prog_point) : Prop :=
  in_width 64 (pc p) ∧ in_width 64 (secondary p) ∧ in_width 64 (guest_instr_count p).

Definition wf_call (c : log_call) : Prop :=
  match c with
  | LMemRw addr ptr data =>
      in_width phys_width addr ∧ in_width 64 ptr ∧ 0 < zlen data ∧ in_width 32 (zlen data)
  | LRegion s n o => in_width phys_width s ∧ in_width 64 n ∧ in_width 64 o
  | LUnmap addr ptr data =>
      in_width phys_width addr ∧ in_width 64 ptr ∧ 0 < zlen data
      ∧ in_width phys_width (zlen data)
  | LHd t s d n | LNet t s d n =>
      in_width 32 t ∧ in_width 64 s ∧ in_width 64 d ∧ in_width 32 n
  | LPacket ptr data dir =>
      in_width 64 ptr ∧ 0 < zlen data ∧ in_width 32 (zlen data) ∧ in_width 8 dir
  end.

Definition wf_body (b : log_body) : Prop :=
  match b with
  | LInput1 v => in_width 8 v
  | LInput2 v | LInterrupt v | LExit v => in_width 16 v
  | LInput4 v => in_width 32 v
  | LInput8 v => in_width 64 v
  | LCall c => wf_call c
  | LDebug | LLast => True
  end.

Definition wf_item (i : log_item) : Prop :=
  wf_pp (li_pp i) ∧ in_width 8 (li_callsite i) ∧ wf_body (li_body i).

(** The same widths, for buffers of any length, and the entries with an empty one. *)
Definition fits_call (c : log_call) : Prop :=
  match c with
  | LMemRw addr ptr data =>
      in_width phys_width addr ∧ in_width 64 ptr ∧ in_width 32 (zlen data)
  | LUnmap addr ptr data =>
      in_width phys_width addr ∧ in_width 64 ptr ∧ in_width phys_width (zlen data)
  | LPacket ptr data dir => in_width 64 ptr ∧ in_width 32 (zlen data) ∧ in_width 8 dir
  | _ => wf_call c
  end.

Definition fits_item (i : log_item) : Prop :=
  wf_pp (li_pp i) ∧ in_width 8 (li_callsite i) ∧
  match li_body i with LCall c => fits_call c | b => wf_body b end.

Definition empty_buf (i : log_item) : bool :=
  match li_body i with
  | LCall (LMemRw _ _ []) | LCall (LUnmap _ _ []) | LCall (LPacket _ [] _) => true
  | _ => false
  end.

#[export] Instance wf_pp_dec p : Decision (wf_pp p).
Proof. unfold wf_pp. apply _. Defined.
#[export] Instance wf_call_dec c : Decision (wf_call c).
Proof. destruct c; simpl; apply _. Defined.
#[export] Instance fits_call_dec c : Decision (fits_call c).
Proof. destruct c; simpl; apply _. Defined.
#[export] Instance wf_body_dec b : Decision (wf_body b).
Proof. destruct b; simpl; apply _. Defined.
#[export] Instance wf_item_dec i : Decision (wf_item i).
Proof. unfold wf_item. apply _. Defined.

#[export] Instance fits_item_dec i : Decision (fits_item i).
Proof. unfold fits_item. destruct (li_body i); apply _. Defined.

Lemma wf_fits i : fits_item i → empty_buf i = false → wf_item i.
Proof.
  destruct i as [pp cs b]. intros (Hp & Hc & Hb) He. split; [done|]. split; [done|].
  unfold empty_buf in He. simpl in *. destruct b as [| | | | | |c| |]; try done.
  destruct c as [? ? []| |? ? []| | |? [] ?]; simpl in *; try done; split_and!; try tauto;
    unfold zlen; simpl; lia.
Qed.

(** The entry in memory that reading an item yields, its buffer at address
    [brk]. *)
Definition load_call (brk : Z) (c : log_call) : RR_skipped_call_args :=
  match c with
  | LMemRw addr _ data => ArgsMemRw (mkMemRw addr (HBuf brk data) (zlen data))
  | LRegion s n o => ArgsRegion (mkRegion s n o)
  | LUnmap addr _ data => ArgsUnmap (mkUnmap addr (HBuf brk data) (zlen data))
  | LHd t s d n => ArgsHd (mkHd t s d n)
  | LNet t s d n => ArgsNet (mkNet t s d n)
  | LPacket ptr data dir => ArgsPacket (mkPacket (HBuf brk data) (zlen data) dir) ptr
  end.

Definition load_body (brk : Z) (b : log_body) : RR_variant :=
  match b with
  | LInput1 v => VInput1 v | LInput2 v => VInput2 v | LInput4 v => VInput4 v
  | LInput8 v => VInput8 v | LInterrupt v => VInterrupt v | LExit v => VExit v
  | LCall c => VCall (load_call brk c)
  | LDebug => VDebug | LLast => VLast
  end.

Definition load_item (brk : Z) (i : log_item) : RR_log_entry :=
  mkEntry (li_pp i) (li_callsite i) (load_body brk (li_body i)).

(** The item a recorded entry denotes. *)
Definition item_of_args (args : RR_skipped_call_args) : log_call :=
  match args with
  | ArgsMemRw a => LMemRw (rw_addr a) (buf_addr (rw_buf a))
                     (take (Z.to_nat (rw_len a)) (buf_data (rw_buf a)))
  | ArgsRegion a => LRegion (rg_start_addr a) (rg_size a) (rg_phys_offset a)
  | ArgsUnmap a => LUnmap (um_addr a) (buf_addr (um_buf a))
                     (take (Z.to_nat (um_len a)) (buf_data (um_buf a)))
  | ArgsHd a => LHd (hd_type a) (hd_src_addr a) (hd_dest_addr a) (hd_num_bytes a)
  | ArgsNet a => LNet (nt_type a) (nt_src_addr a) (nt_dest_addr a) (nt_num_bytes a)
  | ArgsPacket a _ => LPacket (buf_addr (hp_buf a))
                        (take (Z.to_nat (hp_size a)) (buf_data (hp_buf a))) (hp_direction a)
  end.

Definition body_of_variant (v : RR_variant) : log_body :=
  match v with
  | VInput1 v => LInput1 v | VInput2 v => LInput2 v | VInput4 v => LInput4 v
  | VInput8 v => LInput8 v | VInterrupt v => LInterrupt v | VExit v => LExit v
  | VCall a => LCall (item_of_args a)
  | VDebug => LDebug | VLast => LLast
  end.

Definition item_of_entry (e : RR_log_entry) : log_item :=
  mkItem (prog_point e) (callsite_loc e) (body_of_variant (variant e)).

(** ** Lemmas: writing

    [writes m bs]: on a log open for recording at the end of its file, [m]
    appends [bs] and changes nothing else. *)

Record recording (s : rr_state) (l : RR_log) (f : FILE) : Prop := {
  rec_mode : rr_mode s = RR_RECORD;
  rec_log : rr_nondet_log s = Some l;
  rec_fp : log_fp l = Some f;
  rec_file : is_Some (h_files (rr_host s) !! f_name f);
  rec_end : f_pos f = length (h_data (rr_host s) (f_name f));
}.

Definition f_advance (f : FILE) (n : nat) : FILE := mkFILE (f_name f) (f_pos f + n) (f_eof f).

Definition host_append (h : host) (name : string) (bs : list byte) : host :=
  Host (<[name:=h_data h name ++ bs]> (h_files h)) (h_readonly h).

Definition written (s : rr_state) (l : RR_log) (f : FILE) (bs : list byte) : rr_state :=
  set_rr_nondet_log (Some (set_log_fp (Some (f_advance f (length bs))) l))
    (set_rr_host (host_append (rr_host s) (f_name f) bs) s).

Definition writes (m : RR ()) (bs : list byte) : Prop :=
  ∀ s l f, recording s l f → m s = Ok () (written s l f bs).

Lemma h_data_append h name bs : h_data (host_append h name bs) name = h_data h name ++ bs.
Proof. apply h_data_insert. Qed.

Lemma recording_written s l f bs :
  recording s l f →
  recording (written s l f bs) (set_log_fp (Some (f_advance f (length bs))) l)
    (f_advance f (length bs)).
Proof.
  intros []. split; simpl; try done.
  - rewrite lookup_insert_eq. eauto.
  - rewrite h_data_append, length_app. lia.
Qed.

Lemma written_written s l f b1 b2 :
  written (written s l f b1) (set_log_fp (Some (f_advance f (length b1))) l)
    (f_advance f (length b1)) b2 = written s l f (b1 ++ b2).
Proof.
  unfold written, host_append, f_advance. simpl.
  rewrite h_data_insert, insert_insert_eq, length_app, <-app_assoc. unfold set_rr_nondet_log,
    set_rr_host, set_log_fp. simpl. by rewrite Nat.add_assoc.
Qed.

Lemma writes_fwrite bs : writes (log_fwrite bs) bs.
Proof.
  intros s l f []. unfold log_fwrite.
  erewrite bind_Ok by (by apply get_log_ok). rewrite rec_fp0, bind_nonnull, bind_gets.
  rewrite fwrite_append by done. rewrite bind_modify. by erewrite upd_log_ok.
Qed.

Lemma writes_seq m1 m2 b1 b2 : writes m1 b1 → writes m2 b2 → writes (m1;; m2) (b1 ++ b2).
Proof.
  intros H1 H2 s l f Hr. erewrite bind_Ok by (by apply H1).
  erewrite H2 by (by apply recording_written). f_equal. apply written_written.
Qed.

Lemma writes_3 m1 m2 m3 b1 b2 b3 (k : RR ()) s l f :
  writes m1 b1 → writes m2 b2 → writes m3 b3 → recording s l f →
  (m1;; m2;; m3;; k) s = k (written s l f (b1 ++ b2 ++ b3)).
Proof.
  intros H1 H2 H3 Hr.
  pose proof (writes_seq _ _ _ _ H1 (writes_seq _ _ _ _ H2 H3) s l f Hr) as H0.
  unfold mbind, M_bind in *. repeat case_match; by simplify_eq.
Qed.

Lemma writes_assert e b m bs : b = true → writes m bs → writes (assert_or e b;; m) bs.
Proof. intros -> Hm s l f Hr. by apply Hm. Qed.

Lemma written_nil s l f : recording s l f → written s l f [] = s.
Proof.
  intros [? Hl Hf [d Hd] He]. unfold written, host_append, h_data, f_advance. simpl.
  rewrite Hd. simpl. rewrite app_nil_r, insert_id, Nat.add_0_r by done.
  destruct s as [? ? ? ? ? ? ? ? ? [] ? ? ? ?], l, f. simpl in *. by simplify_eq.
Qed.

Lemma writes_ret : writes (mret ()) [].
Proof. intros s l f Hr. by rewrite written_nil. Qed.

Lemma writes_buf b len :
  0 ≤ len ≤ zlen (buf_data b) → writes (fwrite_buf b len) (take (Z.to_nat len) (buf_data b)).
Proof.
  intros Hl. unfold fwrite_buf. rewrite (proj2 (Z.leb_le _ _)) by (unfold zlen in *; lia).
  apply writes_fwrite.
Qed.

Lemma zlen_take b len : 0 ≤ len ≤ zlen b → zlen (take (Z.to_nat len) b) = len.
Proof. unfold zlen. intros. rewrite length_take. lia. Qed.

(** What the code may record: the buffer holds the [len] bytes it claims. *)
Definition args_ok (args : RR_skipped_call_args) : Prop :=
  match args with
  | ArgsMemRw a => 0 ≤ rw_len a ≤ zlen (buf_data (rw_buf a))
  | ArgsUnmap a => 0 ≤ um_len a ≤ zlen (buf_data (um_buf a))
  | ArgsPacket a _ => 0 ≤ hp_size a ≤ zlen (buf_data (hp_buf a))
  | _ => True
  end.

Definition variant_ok (v : RR_variant) : Prop :=
  match v with VCall a => args_ok a | _ => True end.

Lemma null_guard b len :
  0 ≤ len ≤ zlen (buf_data b) → negb (buf_is_null b) || (len =? 0) = true.
Proof. destruct b; simpl; [|done]. intros. apply Z.eqb_eq. unfold zlen in *. simpl in *. lia. Qed.

Lemma writes_call_args args :
  args_ok args →
  writes (log_fwrite (le_bytes 1 (call_kind_Z (call_kind args)));; write_call_args args)
    (call_bytes (item_of_args args)).
Proof.
  intros Hok. destruct args; simpl in Hok;
    cbn [item_of_args call_bytes call_kind write_call_args];
    (apply writes_seq; [apply writes_fwrite|]);
    try (rewrite zlen_take by done; apply writes_assert; [by apply null_guard|];
         apply writes_seq; [apply writes_fwrite|by apply writes_buf]);
    apply writes_fwrite.
Qed.

Lemma writes_variant v :
  variant_ok v →
  writes match v with
         | VInput1 v => log_fwrite (le_bytes 1 v)
         | VInput2 v => log_fwrite (le_bytes 2 v)
         | VInput4 v => log_fwrite (le_bytes 4 v)
         | VInput8 v => log_fwrite (le_bytes 8 v)
         | VInterrupt v => log_fwrite (le_bytes 2 v)
         | VExit v => log_fwrite (le_bytes 2 v)
         | VCall args =>
             log_fwrite (le_bytes 1 (call_kind_Z (call_kind args)));; write_call_args args
         | VDebug => mret ()
         | VLast => mret ()
         end (body_bytes (body_of_variant v)).
Proof.
  intros Hok. destruct v; simpl; try apply writes_fwrite; try apply writes_ret.
  by apply writes_call_args.
Qed.

(** [item_appended s l f i]: the state after item [i] was written. *)
Definition item_appended (s : rr_state) (l : RR_log) (f : FILE) (i : log_item) : rr_state :=
  set_rr_nondet_log
    (Some (set_item_number (wrap 64 (item_number l + 1))
       (set_last_prog_point (li_pp i) (set_log_fp (Some (f_advance f (length (item_bytes i)))) l))))
    (set_rr_host (host_append (rr_host s) (f_name f) (item_bytes i)) s).

Lemma body_kind_of_variant v : body_kind (body_of_variant v) = variant_kind v.
Proof. by destruct v. Qed.

Lemma recording_last_pp s l f p :
  recording s l f →
  recording (set_rr_nondet_log (Some (set_last_prog_point p l)) s) (set_last_prog_point p l) f.
Proof. intros []. by split. Qed.

Lemma write_item_ok s l f :
  recording s l f → variant_ok (variant (current_item l)) →
  rr_write_item s = Ok () (item_appended s l f (item_of_entry (current_item l))).
Proof.
  intros Hr Hok. unfold rr_write_item. rewrite !bind_gets.
  unfold rr_in_record. rewrite (rec_mode _ _ _ Hr), (rec_log _ _ _ Hr).
  erewrite bind_Ok by done. erewrite bind_Ok by done.
  erewrite bind_Ok by (by eapply get_log_ok, Hr).
  set (i := item_of_entry (current_item l)).
  pose proof (writes_fwrite (pp_bytes (li_pp i))) as W1.
  pose proof (writes_fwrite (le_bytes 1 (kind_Z (kind (current_item l))))) as W2.
  pose proof (writes_fwrite (le_bytes 1 (callsite_loc (current_item l)))) as W3.
  rewrite (writes_3 _ _ _ _ _ _ _ _ _ _ W1 W2 W3 Hr).
  eapply recording_written in Hr as Hr3.
  erewrite bind_Ok by (by eapply upd_log_ok, Hr3).
  erewrite bind_Ok.
  2: { apply writes_variant; [done|]. by apply recording_last_pp. }
  erewrite upd_log_ok by done. f_equal. unfold item_appended.
  assert (item_bytes i = (pp_bytes (li_pp i) ++ le_bytes 1 (kind_Z (kind (current_item l)))
    ++ le_bytes 1 (callsite_loc (current_item l)))
    ++ body_bytes (body_of_variant (variant (current_item l)))) as ->.
  { unfold item_bytes, i, kind. cbn [li_pp li_callsite li_body item_of_entry].
    by rewrite body_kind_of_variant, <-!app_assoc. }
  clear. generalize (pp_bytes (li_pp i) ++ le_bytes 1 (kind_Z (kind (current_item l)))
    ++ le_bytes 1 (callsite_loc (current_item l))) as hb. intros hb.
  unfold written, host_append, f_advance. simpl.
  by rewrite h_data_insert, insert_insert_eq, length_app, Nat.add_assoc, <-app_assoc.
Qed.

(** ** Lemmas: reading

    [reads brk m bs br n a]: with the next buffer to be allocated at [brk] and
    [bs] next in the file, [m] returns [a] after it consumed [bs], counted [br]
    bytes as read and allocated [n] bytes. *)

Record replaying (s : rr_state) (l : RR_log) (f : FILE) : Prop := {
  rep_log : rr_nondet_log s = Some l;
  rep_fp : log_fp l = Some f;
  rep_count : in_width 64 (bytes_read l);
}.

Definition l_advance (l : RR_log) (f : FILE) (n : nat) (br : Z) : RR_log :=
  set_bytes_read (wrap 64 (bytes_read l + br)) (set_log_fp (Some (f_advance f n)) l).

Definition consumed (s : rr_state) (l : RR_log) (f : FILE) (n : nat) (br m : Z) : rr_state :=
  set_rr_nondet_log (Some (l_advance l f n br))
    (set_rr_q (set_q_brk (q_brk (rr_q s) + m) (rr_q s)) s).

Definition reads {A} (brk : Z) (m : RR A) (bs : list byte) (br n : Z) (a : A) : Prop :=
  ∀ s l f rest, replaying s l f → q_brk (rr_q s) = brk → f_rest (rr_host s) f = bs ++ rest →
    m s = Ok a (consumed s l f (length bs) br n).

Lemma replaying_consumed s l f n br m :
  replaying s l f → replaying (consumed s l f n br m) (l_advance l f n br) (f_advance f n).
Proof. intros []. split; simpl; try done. auto with width. Qed.

Lemma f_rest_consumed h f bs rest :
  f_rest h f = bs ++ rest → f_rest h (f_advance f (length bs)) = rest.
Proof. intros. by eapply f_rest_advance. Qed.

Lemma consumed_consumed s l f n1 b1 m1 n2 b2 m2 :
  consumed (consumed s l f n1 b1 m1) (l_advance l f n1 b1) (f_advance f n1) n2 b2 m2
  = consumed s l f (n1 + n2) (b1 + b2) (m1 + m2).
Proof.
  unfold consumed, l_advance, f_advance. simpl.
  rewrite wrap_add_l, Z.add_assoc, Nat.add_assoc. unfold set_rr_nondet_log, set_rr_q, set_q_brk.
  simpl. by rewrite Z.add_assoc.
Qed.

Lemma consumed_0 s l f : replaying s l f → consumed s l f 0 0 0 = s.
Proof.
  intros [? ? ?]. unfold consumed, l_advance, f_advance.
  rewrite Nat.add_0_r, !Z.add_0_r, wrap_small by done.
  destruct s as [? ? ? ? ? ? [] ? ? ? ? ? ? ?], l, f. simpl in *. by simplify_eq.
Qed.

Lemma reads_bind {A B} brk (m : RR A) (k : A → RR B) b1 r1 n1 a b2 r2 n2 b :
  reads brk m b1 r1 n1 a → reads (brk + n1) (k a) b2 r2 n2 b →
  reads brk (m ≫= k) (b1 ++ b2) (r1 + r2) (n1 + n2) b.
Proof.
  intros Hm Hk s l f rest Hr Hb Hf. rewrite <-app_assoc in Hf.
  rewrite (bind_Ok _ _ _ _ _ (Hm _ _ _ _ Hr Hb Hf)).
  rewrite length_app, <-consumed_consumed.
  eapply Hk; [by apply replaying_consumed|simpl; by rewrite Hb|].
  by apply f_rest_consumed.
Qed.

Lemma reads_ret {A} brk (a : A) : reads brk (mret a) [] 0 0 a.
Proof. intros s l f rest Hr _ _. simpl. by rewrite consumed_0. Qed.

Lemma reads_log_fread brk n bs : length bs = n → reads brk (log_fread n) bs 0 0 bs.
Proof.
  intros Hn s l f rest [Hl Hf Hw] Hb Hr. unfold log_fread.
  erewrite bind_Ok by (by apply get_log_ok). rewrite Hf, bind_nonnull, bind_gets.
  erewrite fread_app by done. erewrite bind_Ok by (by apply upd_log_ok).
  f_equal. subst n. unfold consumed, l_advance. rewrite !Z.add_0_r, wrap_small by done.
  destruct s as [? ? ? ? ? ? [] ? ? ? ? ? ? ?], l. simpl in *. by simplify_eq.
Qed.

Lemma reads_assert {A} brk e b (m : RR A) bs br n a :
  b = true → reads brk m bs br n a → reads brk (assert_or e b;; m) bs br n a.
Proof. by intros ->. Qed.

Lemma reads_add1 brk c : reads brk (add_bytes_read c) [] c 0 ().
Proof.
  intros s l f rest [Hl Hf Hw] _ _. unfold add_bytes_read. erewrite upd_log_ok by done.
  f_equal. unfold consumed, l_advance, f_advance. rewrite Nat.add_0_r, Z.add_0_r.
  destruct s as [? ? ? ? ? ? [] ? ? ? ? ? ? ?], l, f. simpl in *. by simplify_eq.
Qed.

Lemma reads_add_bytes {A} brk c (m : RR A) bs br n a :
  reads brk m bs br n a → reads brk (add_bytes_read c;; m) bs (c + br) n a.
Proof.
  intros Hm. change bs with ([] ++ bs). change n with (0 + n).
  eapply reads_bind; [apply reads_add1|]. by rewrite Z.add_0_r.
Qed.

Lemma reads_map {A B} brk (m : RR A) (g : A → B) bs br n a :
  reads brk m bs br n a → reads brk (x ← m; mret (g x)) bs br n (g a).
Proof.
  intros Hm. rewrite <-(app_nil_r bs), <-(Z.add_0_r br), <-(Z.add_0_r n).
  eapply reads_bind; [done|apply reads_ret].
Qed.

Lemma reads_conv {A} brk (m : RR A) bs br n a bs' br' n' a' :
  reads brk m bs br n a → bs = bs' → br = br' → n = n' → a = a' → reads brk m bs' br' n' a'.
Proof. by intros ? -> -> -> ->. Qed.

(** [errs brk m bs e]: with [bs] next in the file, [m] stops with [e]. *)
Definition errs {A} (brk : Z) (m : RR A) (bs : list byte) (e : c_error) : Prop :=
  ∀ s l f, replaying s l f → q_brk (rr_q s) = brk → f_rest (rr_host s) f = bs →
    ∃ s', m s = Err e s'.

Lemma errs_bind {A B} brk (m : RR A) (k : A → RR B) b1 r1 n1 a b2 e :
  reads brk m b1 r1 n1 a → errs (brk + n1) (k a) b2 e → errs brk (m ≫= k) (b1 ++ b2) e.
Proof.
  intros Hm Hk s l f Hr Hb Hf. rewrite (bind_Ok _ _ _ _ _ (Hm _ _ _ _ Hr Hb Hf)).
  eapply Hk; [by apply replaying_consumed|simpl; by rewrite Hb|]. by apply f_rest_consumed.
Qed.

Lemma errs_here {A B} brk (m : RR A) (k : A → RR B) bs e :
  errs brk m bs e → errs brk (m ≫= k) bs e.
Proof.
  intros Hm s l f Hr Hb Hf. destruct (Hm s l f Hr Hb Hf) as [s' Hs']. exists s'.
  by apply bind_Err.
Qed.

Lemma log_fread_gen s l f n :
  replaying s l f → ∃ s', log_fread n s = Ok (take n (f_rest (rr_host s) f)) s'.
Proof.
  intros [Hl Hf Hw]. unfold log_fread. erewrite bind_Ok by (by apply get_log_ok).
  rewrite Hf, bind_nonnull, bind_gets. unfold fread.
  erewrite bind_Ok by (by apply upd_log_ok). eexists. done.
Qed.

Lemma errs_short {A} brk n bs (k : list byte → RR A) :
  (length bs < n)%nat → errs brk (x ← log_fread n; rr_assert (length x =? n)%nat;; k x) bs ExitFailure.
Proof.
  intros Hn s l f Hr Hb <-. destruct (log_fread_gen s l f n Hr) as [s' Hs].
  rewrite (bind_Ok _ _ _ _ _ Hs). eexists. apply bind_Err, assert_false, Nat.eqb_neq. rewrite length_take. lia.
Qed.

Lemma reads_struct1 brk st : reads brk (fread_struct (length st)) st 0 0 st.
Proof.
  eapply (reads_conv _ _ (st ++ []) (0 + 0) (0 + 0)); [|apply app_nil_r|done..].
  eapply reads_bind; [by apply reads_log_fread|].
  apply reads_assert; [by apply Nat.eqb_eq|apply reads_ret].
Qed.

Lemma reads_int1 brk n v :
  in_width (8 * Z.of_nat n) v → reads brk (fread_int n) (le_bytes n v) 0 0 v.
Proof.
  intros. eapply (reads_conv _ _ (le_bytes n v ++ []) (0 + 0) (0 + 0)); [|apply app_nil_r|done..].
  eapply reads_bind; [apply reads_log_fread, length_le_bytes|].
  apply reads_assert; [apply Nat.eqb_eq, length_le_bytes|].
  eapply reads_conv; [apply reads_ret|done..|]. by apply le_value_le_bytes.
Qed.

Lemma reads_then {A B} brk (m : RR A) (k : A → RR B) b1 a b2 r n b :
  reads brk m b1 0 0 a → reads brk (k a) b2 r n b → reads brk (m ≫= k) (b1 ++ b2) r n b.
Proof.
  intros Hm Hk. change r with (0 + r). change n with (0 + n).
  eapply reads_bind; [done|]. by rewrite Z.add_0_r.
Qed.

Lemma reads_struct {A} brk n (k : list byte → RR A) st bs br m a :
  length st = n → reads brk (k st) bs br m a →
  reads brk (fread_struct n ≫= k) (st ++ bs) br m a.
Proof. intros <-. apply reads_then, reads_struct1. Qed.

Lemma reads_int {A} brk n (k : Z → RR A) v bs br m a :
  in_width (8 * Z.of_nat n) v → reads brk (k v) bs br m a →
  reads brk (fread_int n ≫= k) (le_bytes n v ++ bs) br m a.
Proof. intros ?. by apply reads_then, reads_int1. Qed.

Lemma reads_malloc {A} brk len (k : Z → RR A) bs br m a :
  0 < len → reads (brk + len) (k brk) bs br m a →
  reads brk (on_q (g_malloc len) ≫= k) bs br (len + m) a.
Proof.
  intros Hl Hk. change bs with ([] ++ bs). change br with (0 + br).
  eapply reads_bind; [|exact Hk]. intros s l f rest [Hlog Hf Hw] Hb _.
  unfold g_malloc. rewrite (proj2 (Z.eqb_neq _ _)) by lia. simpl.
  unfold on_q. simpl. f_equal; [done|].
  unfold consumed, l_advance, f_advance. rewrite Nat.add_0_r, Z.add_0_r, wrap_small by done.
  destruct s as [? ? ? ? ? ? [] ? ? ? ? ? ? ?], l, f. simpl in *. by simplify_eq.
Qed.

Lemma to_nat_zlen d : Z.to_nat (zlen d) = length d.
Proof. unfold zlen. lia. Qed.

Lemma reads_buf_gen brk data e (g : list byte → bool) :
  0 < brk → 0 < zlen data → g data = true →
  reads brk (a ← on_q (g_malloc (zlen data)); bs ← log_fread (Z.to_nat (zlen data));
             assert_or e (g bs);; mret (if a =? 0 then NULLbuf else HBuf a bs))
    data 0 (zlen data) (HBuf brk data).
Proof.
  intros Hb Hd Hg. rewrite to_nat_zlen.
  eapply reads_conv; [apply reads_malloc; [done|]|done|done|apply Z.add_0_r|done].
  eapply (reads_conv _ _ (data ++ []) (0 + 0) (0 + 0)); [|apply app_nil_r|done..].
  eapply reads_bind; [by apply reads_log_fread|]. apply reads_assert; [done|].
  eapply reads_conv; [apply reads_ret|done..|]. simpl.
  by rewrite (proj2 (Z.eqb_neq _ _)) by lia.
Qed.

Lemma reads_buf brk data :
  0 < brk → 0 < zlen data → reads brk (fread_buf (zlen data)) data 0 (zlen data) (HBuf brk data).
Proof.
  intros. apply (reads_buf_gen _ _ _ (λ bs, (0 <? length bs)%nat)); [done..|].
  apply Nat.ltb_lt. unfold zlen in *. lia.
Qed.

Lemma reads_packet_buf brk data :
  0 < brk → 0 < zlen data →
  reads brk (fread_packet_buf (zlen data)) data 0 (zlen data) (HBuf brk data).
Proof.
  intros. apply (reads_buf_gen _ _ _
    (λ bs, (0 <? length bs) && (length bs =? Z.to_nat (zlen data)))%nat); [done..|].
  rewrite to_nat_zlen, Nat.eqb_refl, andb_true_r. apply Nat.ltb_lt. unfold zlen in *. lia.
Qed.

(** The fields of the structures, where the reader finds them. *)
Ltac layout :=
  intros; unfold mem_rw_struct, unmap_struct, region_struct, transfer_struct, packet_struct,
    phys_field, phys_width, phys_bytes, field in *;
  repeat match goal with |- context [target_phys_bits] => destruct target_phys_bits end;
  match goal with
  | |- le_value (take ?n _) = ?z =>
      transitivity (le_value (le_bytes n z)); [reflexivity|by apply le_value_le_bytes]
  | |- _ => reflexivity
  end.

Lemma mem_rw_layout addr buf len :
  in_width phys_width addr → in_width 32 len →
  length (mem_rw_struct addr buf len) = 24%nat ∧
  field 0 phys_bytes (mem_rw_struct addr buf len) = addr ∧
  field 16 4 (mem_rw_struct addr buf len) = len.
Proof. intros. split_and!; layout. Qed.

Lemma unmap_layout addr buf len :
  in_width phys_width addr → in_width phys_width len →
  length (unmap_struct addr buf len) = 24%nat ∧
  field 0 phys_bytes (unmap_struct addr buf len) = addr ∧
  field 16 phys_bytes (unmap_struct addr buf len) = len.
Proof. intros. split_and!; layout. Qed.

Lemma region_layout s n o :
  in_width phys_width s → in_width 64 n → in_width 64 o →
  length (region_struct s n o) = 24%nat ∧ field 0 phys_bytes (region_struct s n o) = s ∧
  field 8 8 (region_struct s n o) = n ∧ field 16 8 (region_struct s n o) = o.
Proof. intros. split_and!; layout. Qed.

Lemma transfer_layout t s d n :
  in_width 32 t → in_width 64 s → in_width 64 d → in_width 32 n →
  length (transfer_struct t s d n) = 32%nat ∧ field 0 4 (transfer_struct t s d n) = t ∧
  field 8 8 (transfer_struct t s d n) = s ∧ field 16 8 (transfer_struct t s d n) = d ∧
  field 24 4 (transfer_struct t s d n) = n.
Proof. intros. split_and!; layout. Qed.

Lemma packet_layout b n d :
  in_width 64 b → in_width 32 n → in_width 8 d →
  length (packet_struct b n d) = 16%nat ∧ field 0 8 (packet_struct b n d) = b ∧
  field 8 4 (packet_struct b n d) = n ∧ field 12 1 (packet_struct b n d) = d.
Proof. intros. split_and!; layout. Qed.

Lemma pp_layout p :
  wf_pp p →
  length (pp_bytes p) = 24%nat ∧
  mkPP (field 0 8 (pp_bytes p)) (field 8 8 (pp_bytes p)) (field 16 8 (pp_bytes p)) = p.
Proof.
  intros (H1 & H2 & H3). split; [done|]. destruct p as [a b c]. simpl in *.
  unfold pp_bytes. f_equal; layout.
Qed.

(** Bytes allocated for the buffer of an item. *)
Definition body_alloc (b : log_body) : Z :=
  match b with
  | LCall (LMemRw _ _ d) | LCall (LUnmap _ _ d) | LCall (LPacket _ d _) => zlen d
  | _ => 0
  end.

Lemma length_zlen (st : list byte) n : length st = n → zlen st = Z.of_nat n.
Proof. by intros <-. Qed.

Lemma reads_struct_only {A} brk n (g : list byte → A) st a :
  length st = n → g st = a →
  reads brk (x ← fread_struct n; add_bytes_read (Z.of_nat n);; mret (g x)) st (zlen st) 0 a.
Proof.
  intros Hn <-. rewrite <-(app_nil_r st) at 1. apply reads_struct; [done|].
  eapply reads_conv; [apply reads_add_bytes, reads_ret|done| |done..].
  rewrite (length_zlen _ _ Hn). lia.
Qed.

Lemma reads_call_buf brk st data (k : host_buf → RR_skipped_call_args) g :
  0 < brk → 0 < zlen data → 
  reads brk (g (zlen data)) data 0 (zlen data) (HBuf brk data) →
  reads brk (add_bytes_read (zlen st);; b ← g (zlen data); add_bytes_read (zlen data);; mret (k b))
    data (zlen (st ++ data)) (zlen data) (k (HBuf brk data)).
Proof.
  intros Hb Hd Hg.
  eapply reads_conv; [apply reads_add_bytes; eapply reads_bind; [exact Hg|]
    |apply app_nil_r| |apply Z.add_0_r|done].
  - apply reads_add_bytes, reads_ret.
  - unfold zlen. rewrite length_app. lia.
Qed.

Lemma reads_call brk c :
  0 < brk → wf_call c →
  reads brk (read_variant RR_SKIPPED_CALL) (call_bytes c) (zlen (call_bytes c))
    (body_alloc (LCall c)) (VCall (load_call brk c)).
Proof.
  intros Hb Hwf. unfold read_variant.
  assert (Hcount : ∀ (st : list byte) z, zlen (le_bytes 1 z ++ st) = 1 + zlen st).
  { intros. unfold zlen. rewrite length_app, length_le_bytes. lia. }
  assert (∃ ck bs, call_bytes c = le_bytes 1 (call_kind_Z ck) ++ bs ∧
    reads brk (read_call_args ck) bs (zlen bs) (body_alloc (LCall c)) (load_call brk c))
    as (ck & bs & -> & Hck).
  2: { rewrite Hcount. apply reads_int; [apply call_kind_Z_byte|]. apply reads_add_bytes.
       rewrite call_kind_of_kind_Z. by apply (reads_map _ _ VCall). }
  destruct c; simpl in Hwf; cbn [call_bytes load_call body_alloc]; do 2 eexists; 
    (split; [reflexivity|]); cbn [read_call_args].
  - destruct Hwf as (Ha & Hp & Hd & Hl).
    destruct (mem_rw_layout addr ptr (zlen data)) as (Hn & Hf1 & Hf2); [done..|].
    apply reads_struct; [done|]. cbv zeta. rewrite Hf1, Hf2, <-(length_zlen _ _ Hn : _ = 24).
    apply (reads_call_buf _ _ _ (λ b, ArgsMemRw (mkMemRw addr b (zlen data)))); [done..|].
    by apply reads_buf.
  - destruct Hwf as (Ha & Hp & Hl).
    destruct (region_layout start_addr size phys_offset) as (Hn & Hf1 & Hf2 & Hf3); [done..|].
    apply (reads_struct_only _ 24); [done|]. by rewrite Hf1, Hf2, Hf3.
  - destruct Hwf as (Ha & Hp & Hd & Hl).
    destruct (unmap_layout addr ptr (zlen data)) as (Hn & Hf1 & Hf2); [done..|].
    apply reads_struct; [done|]. cbv zeta. rewrite Hf1, Hf2, <-(length_zlen _ _ Hn : _ = 24).
    apply (reads_call_buf _ _ _ (λ b, ArgsUnmap (mkUnmap addr b (zlen data)))); [done..|].
    by apply reads_buf.
  - destruct Hwf as (H1 & H2 & H3 & H4).
    destruct (transfer_layout type src dest num_bytes) as (Hn & Hf1 & Hf2 & Hf3 & Hf4); [done..|].
    apply (reads_struct_only _ 32); [done|]. by rewrite Hf1, Hf2, Hf3, Hf4.
  - destruct Hwf as (H1 & H2 & H3 & H4).
    destruct (transfer_layout type src dest num_bytes) as (Hn & Hf1 & Hf2 & Hf3 & Hf4); [done..|].
    apply (reads_struct_only _ 32); [done|]. by rewrite Hf1, Hf2, Hf3, Hf4.
  - destruct Hwf as (Hp & Hd & Hl & Hdir).
    destruct (packet_layout ptr (zlen data) direction) as (Hn & Hf1 & Hf2 & Hf3); [done..|].
    apply reads_struct; [done|]. cbv zeta. rewrite Hf1, Hf2, Hf3, <-(length_zlen _ _ Hn : _ = 16).
    apply (reads_call_buf _ _ _ (λ b, ArgsPacket (mkPacket b (zlen data) direction) ptr));
      [done..|]. by apply reads_packet_buf.
Qed.

Lemma reads_input brk n v :
  in_width (8 * Z.of_nat n) v →
  reads brk (read_input n) (le_bytes n v) (zlen (le_bytes n v)) 0 v.
Proof.
  intros Hv. unfold read_input. rewrite <-(app_nil_r (le_bytes n v)) at 1.
  apply reads_int; [done|]. eapply reads_conv; [apply reads_add_bytes, reads_ret|done| |done..].
  unfold zlen. rewrite length_le_bytes. lia.
Qed.

Lemma reads_variant brk b :
  0 < brk → wf_body b →
  reads brk (read_variant (body_kind b)) (body_bytes b) (zlen (body_bytes b))
    (body_alloc b) (load_body brk b).
Proof.
  intros Hb Hwf. destruct b; cbn [body_kind body_bytes body_alloc load_body read_variant];
    try (apply (reads_map _ _ _); by apply reads_input); try apply reads_ret.
  by apply reads_call.
Qed.

(** Reading fails as a whole on a cut header, on a kind that does not exist and
    on a memory write of no bytes. *)
Lemma errs_fail {A} brk bs e : errs brk (fail e : RR A) bs e.
Proof. intros s l f _ _ _. by exists s. Qed.

Lemma errs_header brk bs : (length bs < 26)%nat → errs brk read_entry bs ExitFailure.
Proof.
  intros Hn. unfold read_entry.
  destruct (decide (length bs < 24)%nat) as [|Hge].
  { apply errs_here. by apply errs_short. }
  rewrite <-(take_drop 24 bs). eapply errs_bind.
  { rewrite <-(length_take_le bs 24) at 1 by lia. apply reads_struct1. }
  rewrite Z.add_0_r. assert (Hl : (length (drop 24 bs) < 2)%nat) by (rewrite length_drop; lia).
  destruct (drop 24 bs) as [|b [|b' bs']]; simpl in Hl; [|  |lia].
  - apply errs_here. apply errs_short. simpl. lia.
  - change [b] with ([b] ++ []). eapply errs_bind.
    { rewrite <-(le_bytes_value [b]). apply (reads_int1 _ 1).
      apply (le_value_range [b]). }
    apply errs_here. apply errs_short. simpl. lia.
Qed.

Lemma reads_entry brk i :
  0 < brk → wf_item i →
  reads brk read_entry (item_bytes i) (zlen (item_bytes i)) (body_alloc (li_body i))
    (load_item brk i).
Proof.
  intros Hb (Hpp & Hcs & Hbd). destruct (pp_layout _ Hpp) as [Hn Hf].
  unfold read_entry, item_bytes, load_item. apply reads_struct; [done|]. cbv zeta. rewrite Hf.
  apply reads_int; [apply kind_Z_byte|]. apply reads_int; [done|].
  rewrite kind_of_kind_Z. eapply reads_conv;
    [apply reads_add_bytes; apply (reads_map _ _ (mkEntry (li_pp i) (li_callsite i)));
     by apply reads_variant|done| |done..].
  unfold zlen. rewrite !length_app, !length_le_bytes, Hn. lia.
Qed.

(** The replay log: [items] are left in the file, and the byte counts agree. *)
Record log_at (s : rr_state) (l : RR_log) (f : FILE) (items : list log_item) : Prop := {
  la_log : rr_nondet_log s = Some l;
  la_type : log_type l = REPLAY;
  la_fp : log_fp l = Some f;
  la_rest : f_rest (rr_host s) f = concat (item_bytes <$> items);
  la_wf : Forall wf_item items;
  la_count : bytes_read l + zlen (concat (item_bytes <$> items)) = log_size l;
  la_read : 0 ≤ bytes_read l;
  la_size : in_width 64 (log_size l);
}.

Lemma item_bytes_pos i : 26 ≤ zlen (item_bytes i).
Proof.
  unfold zlen, item_bytes, pp_bytes. rewrite !length_app, !length_le_bytes. lia.
Qed.

Lemma log_at_bytes s l f items : log_at s l f items → in_width 64 (bytes_read l).
Proof. intros []. unfold in_width, zlen in *. lia. Qed.

Lemma zlen_app d1 d2 : zlen (d1 ++ d2) = zlen d1 + zlen d2.
Proof. unfold zlen. rewrite length_app. lia. Qed.

Lemma zlen_nonneg d : 0 ≤ zlen d.
Proof. unfold zlen. lia. Qed.

Lemma zlen_items i items :
  zlen (concat (item_bytes <$> i :: items))
  = zlen (item_bytes i) + zlen (concat (item_bytes <$> items)).
Proof. apply zlen_app. Qed.

(** The emptiness test by byte counts is exact. *)
Lemma is_empty_ok s l f items :
  log_at s l f items → rr_log_is_empty s = Ok (bool_decide (items = [])) s.
Proof.
  intros Hl. unfold rr_log_is_empty.
  erewrite bind_Ok by (eapply get_log_ok, Hl). unfold mret, M_ret. f_equal.
  rewrite (la_type _ _ _ _ Hl), bool_decide_true by done. simpl.
  pose proof (log_at_bytes _ _ _ _ Hl) as Hw. destruct Hl.
  apply eq_true_iff_eq. rewrite Z.eqb_eq, bool_decide_eq_true.
  rewrite wrap_sub_0 by done.
  destruct items as [|i items]; [by split; [|change (zlen _) with 0 in *; lia]|].
  split; [|done]. pose proof (item_bytes_pos i). intros Hx.
  rewrite zlen_items in la_count0. pose proof (zlen_nonneg (concat (item_bytes <$> items))). lia.
Qed.

#[local] Opaque item_bytes.

Definition l_next (l : RR_log) (f : FILE) (i : log_item) : RR_log :=
  set_item_number (wrap 64 (item_number l + 1))
    (l_advance l f (length (item_bytes i)) (zlen (item_bytes i))).

Lemma read_item_ok s l f i items qs rs :
  log_at s l f (i :: items) → rr_mode s = RR_REPLAY → qrep (rr_q s) qs rs → 0 < q_brk (rr_q s) →
  ∃ p q' rs', let l' := l_next l f i in let s' := set_rr_nondet_log (Some l') (set_rr_q q' s) in
    rr_read_item s = Ok p s' ∧ log_at s' l' (f_advance f (length (item_bytes i))) items ∧
    qrep q' qs rs' ∧ detached q' qs rs' p (load_item (q_brk (rr_q s)) i) ∧
    q_brk q' = q_brk (rr_q s) + body_alloc (li_body i) ∧
    rr_max_num_queue_entries q' = rr_max_num_queue_entries (rr_q s).
Proof.
  intros Hl Hm Hq Hb. unfold rr_read_item.
  destruct (alloc_rep _ _ _ Hq) as (p & q1 & rs' & Ha & Hq1 & Hd1 & [Hs1 Hs2]).
  erewrite bind_Ok by (by apply on_q_ok). rewrite bind_gets. unfold rr_in_replay. simpl.
  rewrite Hm. erewrite bind_Ok by done.
  assert (Hl1 : log_at (set_rr_q q1 s) l f (i :: items)) by (by destruct Hl).
  erewrite bind_Ok by (by eapply is_empty_ok). erewrite bind_Ok by done.
  erewrite bind_Ok by (eapply get_log_ok, Hl1).
  rewrite (la_fp _ _ _ _ Hl1). erewrite bind_Ok by done.
  pose proof (Forall_inv (la_wf _ _ _ _ Hl)) as Hwf.
  pose proof (la_rest _ _ _ _ Hl1) as Hrest. rewrite fmap_cons in Hrest. simpl in Hrest.
  erewrite bind_Ok.
  2: { eapply (reads_entry (q_brk (rr_q s)) i Hb Hwf _ l f); [|done|exact Hrest].
       split; [by destruct Hl1|by destruct Hl1|by eapply log_at_bytes]. }
  destruct (store_detached _ _ _ _ _ (load_item (q_brk (rr_q s)) i)
    (qrep_brk _ _ _ (q_brk q1 + body_alloc (li_body i)) Hq1) Hd1) as (q2 & Hst & Hq2 & Hd2 & Hs3).
  erewrite bind_Ok by (apply on_q_ok; simpl; exact Hst).
  erewrite bind_Ok by (by eapply upd_log_ok).
  exists p, q2, rs'. cbv zeta. split; [done|].
  destruct Hs3 as [Hs3 Hs4]. simpl in *. split; [|split_and!; [done|done|congruence|congruence]].
  destruct Hl as [? ? ? ? Hall Hc Hr Hz]. rewrite zlen_items in Hc.
  pose proof (item_bytes_pos i). pose proof (zlen_nonneg (concat (item_bytes <$> items))).
  assert (wrap 64 (bytes_read l + zlen (item_bytes i)) = bytes_read l + zlen (item_bytes i)) as Hw.
  { apply wrap_small. unfold in_width in *. lia. }
  split; simpl; try done.
  - by apply f_rest_consumed.
  - by apply Forall_inv_tail in Hall.
  - rewrite Hw. lia.
  - rewrite Hw. lia.
Qed.

(** What [rr_read_item] needs to start on an entry: bytes are left by count. *)
Record log_open (s : rr_state) (l : RR_log) (f : FILE) : Prop := {
  lo_rep : replaying s l f;
  lo_type : log_type l = REPLAY;
  lo_mode : rr_mode s = RR_REPLAY;
  lo_left : wrap 64 (log_size l - bytes_read l) ≠ 0;
}.

Lemma read_item_err s l f qs rs e :
  log_open s l f → qrep (rr_q s) qs rs →
  errs (q_brk (rr_q s)) read_entry (f_rest (rr_host s) f) e →
  ∃ s', rr_read_item s = Err e s'.
Proof.
  intros [[Hl Hf Hw] Ht Hm Hz] Hq He. unfold rr_read_item.
  destruct (alloc_rep _ _ _ Hq) as (p & q1 & rs' & Ha & Hq1 & Hd1 & [Hs1 Hs2]).
  erewrite bind_Ok by (by apply on_q_ok). rewrite bind_gets. unfold rr_in_replay. simpl.
  rewrite Hm. erewrite bind_Ok by done.
  assert (rr_log_is_empty (set_rr_q q1 s) = Ok false (set_rr_q q1 s)) as Hem.
  { unfold rr_log_is_empty. erewrite bind_Ok by (by apply get_log_ok).
    unfold mret, M_ret. f_equal. rewrite Ht. by apply Z.eqb_neq. }
  rewrite (bind_Ok _ _ _ _ _ Hem). erewrite bind_Ok by done.
  erewrite bind_Ok by (by apply get_log_ok). rewrite Hf. erewrite bind_Ok by done.
  destruct (He (set_rr_q q1 s) l f) as [s' Hs']; [by split|done|done|].
  exists s'. by apply bind_Err.
Qed.

#[local] Transparent item_bytes.

Lemma errs_add {A} brk c (m : RR A) bs e :
  errs brk m bs e → errs brk (add_bytes_read c;; m) bs e.
Proof.
  intros Hm. apply (errs_bind _ _ _ [] _ _ _ bs _ (reads_add1 _ _)). by rewrite Z.add_0_r.
Qed.

Lemma errs_kind brk p k cs rest :
  length p = 24%nat → in_width 8 k → in_width 8 cs → kind_of_Z k = None →
  errs brk read_entry (p ++ le_bytes 1 k ++ le_bytes 1 cs ++ rest) ExitFailure.
Proof.
  intros Hp Hk Hcs Hn. unfold read_entry. rewrite <-Hp.
  eapply errs_bind; [apply reads_struct1|]. cbv zeta.
  eapply errs_bind; [by apply (reads_int1 _ 1)|].
  eapply errs_bind; [by apply (reads_int1 _ 1)|].
  apply errs_add. rewrite Hn. apply errs_fail.
Qed.

Lemma errs_empty_alloc {A} brk bs e (g : list byte → bool) (k : Z → list byte → RR A) :
  g [] = false →
  errs brk (a ← on_q (g_malloc 0); x ← log_fread 0; assert_or e (g x);; k a x) bs e.
Proof.
  intros Hg s l f Hr Hb Hf. erewrite bind_Ok by done.
  destruct (log_fread_gen (set_rr_q (rr_q s) s) l f 0) as [s' Hs]; [by destruct Hr|].
  rewrite (bind_Ok _ _ _ _ _ Hs). eexists. apply bind_Err. by apply assert_false.
Qed.

Lemma errs_empty_buf brk bs : errs brk (fread_buf 0) bs ExitFailure.
Proof. by apply (errs_empty_alloc _ _ _ (λ x, (0 <? length x)%nat)). Qed.

Lemma errs_empty_packet brk bs : errs brk (fread_packet_buf 0) bs Abort.
Proof. by apply (errs_empty_alloc _ _ _ (λ x, (0 <? length x) && (length x =? Z.to_nat 0))%nat). Qed.

(** An entry whose arguments cannot be read. *)
Lemma errs_call brk p cs c ck args rest e :
  wf_pp p → in_width 8 cs → call_bytes c = le_bytes 1 (call_kind_Z ck) ++ args →
  errs brk (read_call_args ck) (args ++ rest) e →
  errs brk read_entry (item_bytes (mkItem p cs (LCall c)) ++ rest) e.
Proof.
  intros Hp Hcs Hc He. unfold item_bytes. cbn [li_pp li_callsite li_body body_kind body_bytes].
  rewrite Hc, <-!app_assoc. unfold read_entry.
  eapply errs_bind; [apply (reads_struct1 _ (pp_bytes p))|]. cbv zeta.
  eapply errs_bind; [apply (reads_int1 _ 1), kind_Z_byte|].
  eapply errs_bind; [by apply (reads_int1 _ 1)|].
  apply errs_add. rewrite kind_of_kind_Z.
  apply errs_here. eapply errs_bind; [apply (reads_int1 _ 1), call_kind_Z_byte|].
  apply errs_add. rewrite call_kind_of_kind_Z. apply errs_here. by rewrite !Z.add_0_r.
Qed.

(** A recorded buffer of no bytes is refused: the reader asks for more than 0. *)
Lemma errs_empty_item brk i rest :
  fits_item i → empty_buf i = true → ∃ e, errs brk read_entry (item_bytes i ++ rest) e.
Proof.
  destruct i as [p cs b]. intros (Hp & Hcs & Hb) He. unfold empty_buf in He. simpl in *.
  destruct b as [| | | | | |c| |]; try done.
  destruct c as [addr ptr []| |addr ptr []| | |ptr [] dir]; try done; simpl in Hb.
  - destruct Hb as (Ha & Hptr & Hl).
    destruct (mem_rw_layout addr ptr (zlen [])) as (Hn & Hf1 & Hf2); [done..|].
    exists ExitFailure. eapply errs_call; [done..|]. cbn [read_call_args].
    rewrite app_nil_r, <-Hn at 1. eapply errs_bind; [apply reads_struct1|].
    apply errs_add. cbv zeta. rewrite Hf2. apply errs_here, errs_empty_buf.
  - destruct Hb as (Ha & Hptr & Hl).
    destruct (unmap_layout addr ptr (zlen [])) as (Hn & Hf1 & Hf2); [done..|].
    exists ExitFailure. eapply errs_call; [done..|]. cbn [read_call_args].
    rewrite app_nil_r, <-Hn at 1. eapply errs_bind; [apply reads_struct1|].
    apply errs_add. cbv zeta. rewrite Hf2. apply errs_here, errs_empty_buf.
  - destruct Hb as (Hptr & Hl & Hdir).
    destruct (packet_layout ptr (zlen []) dir) as (Hn & Hf1 & Hf2 & Hf3); [done..|].
    exists Abort. eapply errs_call; [done..|]. cbn [read_call_args].
    rewrite app_nil_r, <-Hn at 1. eapply errs_bind; [apply reads_struct1|].
    apply errs_add. cbv zeta. rewrite Hf2. apply errs_here, errs_empty_packet.
Qed.

Lemma errs_bad_kind brk bs b :
  bs !! 24%nat = Some b → kind_of_Z (byte_to_Z b) = None → errs brk read_entry bs ExitFailure.
Proof.
  intros Hb Hk. destruct (decide (length bs < 26)%nat); [by apply errs_header|].
  rewrite <-(take_drop 24 bs), (drop_S _ _ _ Hb).
  destruct (drop 25 bs) as [|b' rest] eqn:Hd.
  { apply (f_equal length) in Hd. rewrite length_drop in Hd. simpl in Hd. lia. }
  change (b :: b' :: rest) with ([b] ++ [b'] ++ rest).
  rewrite <-(le_bytes_value [b]), <-(le_bytes_value [b']).
  apply errs_kind; [rewrite length_take; lia|apply (le_value_range [b])
    |apply (le_value_range [b'])|].
  rewrite <-Hk. f_equal. unfold le_value. lia.
Qed.

(** What the reader refuses: a header cut by the end of the file, a kind byte
    that is no entry kind, and a recorded buffer of length 0. *)
Theorem read_item_rejects s l f qs rs :
  log_open s l f → qrep (rr_q s) qs rs →
  (length (f_rest (rr_host s) f) < 26)%nat
  ∨ (∃ b, f_rest (rr_host s) f !! 24%nat = Some b ∧ kind_of_Z (byte_to_Z b) = None)
  ∨ (∃ i rest, fits_item i ∧ empty_buf i = true ∧ f_rest (rr_host s) f = item_bytes i ++ rest) →
  ∃ e s', rr_read_item s = Err e s'.
Proof.
  intros Hl Hq H0.
  assert (∃ e, errs (q_brk (rr_q s)) read_entry (f_rest (rr_host s) f) e) as [e He].
  { destruct H0 as [?|[(b & ? & ?)|(i & rest & Hi & Hb & ->)]].
    - exists ExitFailure. by apply errs_header.
    - exists ExitFailure. by eapply errs_bad_kind.
    - by apply errs_empty_item. }
  exists e. by eapply read_item_err.
Qed.

End Format.
