(* ===== verification/RRReplay.v ===== *)
(** * Replaying ([rr_log.c], section REPLAY, and the end of a session)

    The queue is filled from the file up to the next event that may interrupt
    the guest; the [rr_replay_*] functions take entries from it when the guest
    reaches their program point. *)

From S2P Require Import Prelude CFile RRTypes PandaCallbacks RRState RRQueue RRFormat.
Local Open Scope Z_scope.

Section Replay.
Context `{TargetPhys} `{Machine}.

(** ** Log management *)

Definition g_new0_log (t : RR_log_type) (name : string) : RR_log :=
  mkLog t pp_zero name None 0 0 entry_zero 0.

Definition rr_create_record_log (filename : string) : RR () :=
  modify (set_rr_nondet_log (Some (g_new0_log RECORD filename)));;
  h ← gets rr_host;
  let '(fp, h') := fopen_w h filename in
  modify (set_rr_host h');;
  upd_log (set_log_fp fp);;
  rr_assert (bool_decide (is_Some fp));;
  l ← get_log; log_fwrite (pp_bytes (last_prog_point l)).

Definition rr_create_replay_log (filename : string) : RR () :=
  modify (set_rr_nondet_log (Some (g_new0_log REPLAY filename)));;
  h ← gets rr_host;
  let fp := fopen_r h filename in
  upd_log (set_log_fp fp);;
  rr_assert (bool_decide (is_Some fp));;
  upd_log (λ l, set_bytes_read 0 (set_log_size (wrap 64 (stat_size h filename)) l));;
  bs ← fread_struct 24;
  upd_log (set_last_prog_point (mkPP (field 0 8 bs) (field 8 8 bs) (field 16 8 bs)));;
  add_bytes_read 24.

(** [rewind] and [fwrite] of the header when recording, then [fclose]. *)
Definition rr_destroy_log : RR () :=
  l ← get_log;
  match log_fp l with
  | Some f =>
      (if decide (log_type l = RECORD)
       then upd_log (set_log_fp (Some (rewind f)));; log_fwrite (pp_bytes (last_prog_point l))
       else mret ());;
      upd_log (set_log_fp None)
  | None => mret ()
  end;;
  modify (set_rr_nondet_log None).

(** ** End of a replay *)

(** The queue is exactly the end-of-log entry. *)
Definition queue_is_last : RR bool :=
  h ← gets (λ s, rr_queue_head (rr_q s)); t ← gets (λ s, rr_queue_tail (rr_q s));
  if decide (h = t) then
    match h with
    | Some p => n ← on_q (q_load p); mret (bool_decide (kind (qn_entry n) = RR_LAST))
    | None => mret false
    end
  else mret false.

Definition heap_fuel (s : rr_state) : nat := size (q_heap (rr_q s)).

(** [config.replay] builds with [-DRR_QUIT_AFTER_REPLAY]. *)
Definition RR_QUIT_AFTER_REPLAY : bool := true.

Definition rr_do_end_replay (is_error : bool) : RR () :=
  modify (λ s, set_rr_q (set_rr_max_num_queue_entries 0 (rr_q s)) s);;
  n ← gets heap_fuel; on_q (free_recycle_list n);;
  b ← queue_is_last; emit (EvEndReplay is_error b);;
  n ← gets heap_fuel; on_q (free_queue n);;
  modify (λ s, set_rr_q (set_rr_queue_head None (set_rr_queue_tail None (rr_q s))) s);;
  rr_destroy_log;;
  modify (set_rr_mode RR_OFF);;
  if is_error then emit EvPandaCleanup;; fail Abort
  else if RR_QUIT_AFTER_REPLAY then emit EvShutdownRequest else mret ().

(** ** The queue of entries *)

Definition RR_MAX_QUEUE_LEN : Z := 65536.

(** Entries the guest must be interrupted for. *)
Definition stops_fill (e : RR_log_entry) : bool :=
  match variant e with
  | VLast => true
  | VInterrupt _ => true
  | VCall _ => callsite_loc e =? callsite_Z RR_CALLSITE_MAIN_LOOP_WAIT
  | _ => false
  end.

Definition set_next_interrupt (e : RR_log_entry) : RR () :=
  modify (λ s, set_rr_num_instr_before_next_interrupt
    (wrap 64 (guest_instr_count (prog_point e) - guest_instr_count (rr_prog_point s))) s).

(** The loop of [rr_fill_queue]; returns [num_entries]. *)
Fixpoint fill_loop (fuel : nat) (num_entries : Z) : RR Z :=
  e ← rr_log_is_empty;
  if (e : bool) then mret num_entries else
  match fuel with
  | O => fail OutOfFuel
  | S fuel' =>
      p ← rr_read_item;
      on_q (queue_append p);;
      n ← on_q (q_load p);
      let num := num_entries + 1 in
      if stops_fill (qn_entry n) then set_next_interrupt (qn_entry n);; mret num
      else if RR_MAX_QUEUE_LEN <? num
      then modify (set_rr_num_instr_before_next_interrupt (wrap 64 (-1)));; mret num
      else fill_loop fuel' num
  end.

(** At most [RR_MAX_QUEUE_LEN + 1] entries are read. *)
Definition fill_fuel : nat := Z.to_nat (RR_MAX_QUEUE_LEN + 1).

Definition rr_fill_queue : RR () :=
  hd ← gets (λ s, rr_queue_head (rr_q s)); tl ← gets (λ s, rr_queue_tail (rr_q s));
  rr_assert (bool_decide (hd = None) && bool_decide (tl = None));;
  num ← fill_loop fill_fuel 0;
  modify (λ s, if rr_max_num_queue_entries (rr_q s) <? num
               then set_rr_q (set_rr_max_num_queue_entries num (rr_q s)) s else s).

(** [rr_prog_point_compare]: 0 at the recorded point, -1 before it; past it the
    replay is over. *)
Definition rr_prog_point_compare (current recorded : RR_prog_point) : RR Z :=
  if guest_instr_count current <? guest_instr_count recorded then mret (-1)
  else if guest_instr_count current =? guest_instr_count recorded then
    if (pc current =? pc recorded) && (secondary current =? secondary recorded) then mret 0
    else if (pc current =? 0) && (guest_instr_count current =? 0) then mret 0
    else mret (-1)
  else rr_do_end_replay true;; mret 1.

(** The loop of [get_next_entry] that drops [RR_DEBUG] entries. *)
Fixpoint drop_debug (fuel : nat) : RR () :=
  h ← gets (λ s, rr_queue_head (rr_q s));
  match h with
  | None => mret ()
  | Some p =>
      n ← on_q (q_load p);
      if decide (kind (qn_entry n) = RR_DEBUG) then
        match fuel with
        | O => fail OutOfFuel
        | S fuel' => on_q queue_pop;; drop_debug fuel'
        end
      else mret ()
  end.

Definition peek : RR RR_log_entry :=
  h ← gets (λ s, rr_queue_head (rr_q s)); p ← nonnull h; n ← on_q (q_load p); mret (qn_entry n).

Definition get_next_entry (k : RR_log_entry_kind) (call_site : Z) (check_callsite : bool)
    : RR (option loc) :=
  h ← gets (λ s, rr_queue_head (rr_q s));
  (match h with None => rr_fill_queue | Some _ => mret () end);;
  h ← gets (λ s, rr_queue_head (rr_q s));
  match h with
  | None => mret None
  | Some _ =>
    (if decide (k ≠ RR_INTERRUPT_REQUEST ∧ k ≠ RR_SKIPPED_CALL)
     then n ← gets heap_fuel; drop_debug n else mret ());;
    e ← peek;
    if decide (kind e ≠ k) then mret None else
    if check_callsite && negb (callsite_loc e =? call_site) then mret None else
    cur ← gets rr_prog_point;
    c ← (if decide (prog_point e = pp_zero) then mret 0
         else rr_prog_point_compare cur (prog_point e));
    if c =? 0 then p ← on_q queue_pop; mret (Some p) else mret None
  end.

(** ** The replay functions *)

Definition rr_replay_debug (call_site : Z) : RR () :=
  h ← gets (λ s, rr_queue_head (rr_q s));
  match h with
  | None => mret ()
  | Some _ =>
      e ← peek; cur ← gets rr_prog_point;
      if decide (kind e ≠ RR_DEBUG) then mret () else
      if guest_instr_count cur <? guest_instr_count (prog_point e) then mret ()
      else p ← on_q queue_pop; on_q (add_to_recycle_list p)
  end.

Definition entry_at (p : loc) : RR RR_log_entry := n ← on_q (q_load p); mret (qn_entry n).

(** The common part of [rr_replay_input_1/2/4/8]. *)
Definition replay_input (k : RR_log_entry_kind) (sel : RR_variant → option Z) (call_site : Z)
    : RR Z :=
  r ← get_next_entry k call_site false;
  match r with
  | None => fail ExitFailure
  | Some p =>
      e ← entry_at p;
      rr_assert (callsite_loc e =? call_site);;
      v ← nonnull (sel (variant e));
      on_q (add_to_recycle_list p);;
      mret v
  end.

Definition input_1_of (v : RR_variant) : option Z := match v with VInput1 x => Some x | _ => None end.
Definition input_2_of (v : RR_variant) : option Z := match v with VInput2 x => Some x | _ => None end.
Definition input_4_of (v : RR_variant) : option Z := match v with VInput4 x => Some x | _ => None end.
Definition input_8_of (v : RR_variant) : option Z := match v with VInput8 x => Some x | _ => None end.
Definition interrupt_of (v : RR_variant) : option Z :=
  match v with VInterrupt x => Some x | _ => None end.
Definition exit_of (v : RR_variant) : option Z := match v with VExit x => Some x | _ => None end.
Definition call_of (v : RR_variant) : option RR_skipped_call_args :=
  match v with VCall a => Some a | _ => None end.

Definition rr_replay_input_1 : Z → RR Z := replay_input RR_INPUT_1 input_1_of.
Definition rr_replay_input_2 : Z → RR Z := replay_input RR_INPUT_2 input_2_of.
Definition rr_replay_input_4 : Z → RR Z := replay_input RR_INPUT_4 input_4_of.
Definition rr_replay_input_8 : Z → RR Z := replay_input RR_INPUT_8 input_8_of.

Definition rr_replay_interrupt_request (call_site : Z) : RR Z :=
  r ← get_next_entry RR_INTERRUPT_REQUEST call_site true;
  match r with
  | None => mret 0
  | Some p =>
      e ← entry_at p;
      v ← nonnull (interrupt_of (variant e));
      on_q (add_to_recycle_list p);;
      rr_fill_queue;;
      mret v
  end.

Definition rr_replay_exit_request (call_site : Z) : RR Z :=
  r ← get_next_entry RR_EXIT_REQUEST call_site false;
  match r with
  | None => mret 0
  | Some p =>
      e ← entry_at p;
      rr_assert (callsite_loc e =? call_site);;
      v ← nonnull (exit_of (variant e));
      on_q (add_to_recycle_list p);;
      mret v
  end.

(** The callbacks of a [panda_cbs] list, as an event. *)
Definition run_callbacks (t : panda_cb_type) (ev : list Z → rr_event) : RR () :=
  cbs ← on_cbs (panda_run_callbacks t); emit (ev cbs).

(** The bytes [memcpy] or the device write takes from the buffer. *)
Definition buf_bytes (b : host_buf) (len : Z) : RR (list byte) :=
  if len <=? Z.of_nat (length (buf_data b)) then mret (take (Z.to_nat len) (buf_data b))
  else fail OutOfBounds.

(** One skipped call: the device's memory access or the plugins' callbacks. *)
Definition replay_call (args : RR_skipped_call_args) : RR () :=
  match args with
  | ArgsMemRw a =>
      d ← buf_bytes (rw_buf a) (rw_len a); emit (EvMemRw (rw_addr a) d (rw_len a))
  | ArgsRegion a => emit (EvRegMem (rg_start_addr a) (rg_size a) (rg_phys_offset a))
  | ArgsUnmap a =>
      tr ← gets rr_trace;
      plen ← nonnull (phys_map tr (um_addr a) (um_len a));
      assert_or OutOfBounds (um_len a <=? plen);;
      d ← buf_bytes (um_buf a) (um_len a);
      emit (EvMapUnmap (um_addr a) plen d)
  | ArgsHd a =>
      run_callbacks PANDA_CB_REPLAY_HD_TRANSFER
        (λ c, EvHdTransfer c (hd_type a) (hd_src_addr a) (hd_dest_addr a) (hd_num_bytes a))
  | ArgsPacket a old =>
      run_callbacks PANDA_CB_REPLAY_HANDLE_PACKET
        (λ c, EvHandlePacket c (buf_data (hp_buf a)) (hp_size a) (hp_direction a) old)
  | ArgsNet a =>
      run_callbacks PANDA_CB_REPLAY_NET_TRANSFER
        (λ c, EvNetTransfer c (nt_type a) (nt_src_addr a) (nt_dest_addr a) (nt_num_bytes a))
  end.

(** The loop of [rr_replay_skipped_calls_internal]. *)
Fixpoint skipped_calls_loop (fuel : nat) (call_site : Z) : RR () :=
  r ← get_next_entry RR_SKIPPED_CALL call_site false;
  match r with
  | None => mret ()
  | Some p =>
    match fuel with
    | O => fail OutOfFuel
    | S fuel' =>
        e ← entry_at p;
        args ← nonnull (call_of (variant e));
        replay_call args;;
        on_q (add_to_recycle_list p);;
        hd ← gets (λ s, rr_queue_head (rr_q s));
        (if bool_decide (hd = None) && (call_site =? callsite_Z RR_CALLSITE_MAIN_LOOP_WAIT)
         then rr_fill_queue else mret ());;
        skipped_calls_loop fuel' call_site
    end
  end.

(** Every iteration consumes an entry: one of the queue, or one of the at least
    26 bytes an entry takes in the file. *)
Definition log_bytes_left (s : rr_state) : nat :=
  match rr_nondet_log s ≫= log_fp with
  | Some f => length (f_rest (rr_host s) f)
  | None => 0
  end.

Definition rr_replay_skipped_calls_internal (call_site : Z) : RR () :=
  n ← gets (λ s, heap_fuel s + log_bytes_left s)%nat; skipped_calls_loop n call_site.

Definition rr_replay_finished : RR bool :=
  e ← rr_log_is_empty;
  if (e : bool) then
    hd ← peek; cur ← gets rr_prog_point;
    mret (bool_decide (kind hd = RR_LAST)
          && (guest_instr_count (prog_point hd) <=? guest_instr_count cur))
  else mret false.

Definition replay_get_guest_instr_count : RR Z :=
  l ← gets rr_nondet_log;
  match l with
  | Some _ => e ← peek; mret (guest_instr_count (prog_point e))
  | None => mret 0
  end.

Definition replay_get_total_num_instructions (s : rr_state) : Z :=
  match rr_nondet_log s with
  | Some l => guest_instr_count (last_prog_point l)
  | None => 0
  end.

End Replay.
