(* ===== verification/RRReplayInv.v ===== *)
(** * The replay invariant: the queue and the file are one list of entries

    [replay_inv s pend] says that the entries still to be replayed are [pend]:
    those in the queue followed by those in the file. Filling the queue does not
    change [pend]; the replay functions take entries from its front. *)

From S2P Require Import Prelude CFile RRTypes PandaCallbacks RRState RRQueue RRFormat RRReplay.
Local Open Scope Z_scope.

Section Inv.
Context `{TargetPhys} `{Machine}.

(** ** Abstract views *)

(** An entry of the queue is what reading an item yields. *)
Definition loaded (e : RR_log_entry) (i : log_item) : Prop :=
  ∃ brk, 0 < brk ∧ e = load_item brk i.

(** Items at which filling stops. *)
Definition stops_item (i : log_item) : bool :=
  match li_body i with
  | LLast => true
  | LInterrupt _ => true
  | LCall _ => li_callsite i =? callsite_Z RR_CALLSITE_MAIN_LOOP_WAIT
  | _ => false
  end.

Inductive fill_end := FStop (i : log_item) | FCut | FEmpty.

(** What a filling of the queue takes from the file, with room for [n] entries
    before the cut. *)
Fixpoint fill_take (n : nat) (items : list log_item) {struct items}
    : list log_item * list log_item * fill_end :=
  match items with
  | [] => ([], [], FEmpty)
  | i :: items' =>
      if stops_item i then ([i], items', FStop i) else
      match n with
      | O => ([i], items', FCut)
      | S n' => let '(t, r, e) := fill_take n' items' in (i :: t, r, e)
      end
  end.

Definition next_interrupt (s : rr_state) (e : fill_end) : Z :=
  match e with
  | FStop i => wrap 64 (guest_instr_count (li_pp i) - guest_instr_count (rr_prog_point s))
  | FCut => wrap 64 (-1)
  | FEmpty => rr_num_instr_before_next_interrupt s
  end.

(** A stopping item is the last of its queue. *)
Fixpoint seg (qi : list log_item) : Prop :=
  match qi with
  | [] => True
  | i :: qi' => (stops_item i = true → qi' = []) ∧ seg qi'
  end.

(** The countdown is the distance to the stopping item, if there is one. *)
Definition countdown_ok (s : rr_state) (qi : list log_item) : Prop :=
  ∀ i, last qi = Some i → stops_item i = true →
    rr_num_instr_before_next_interrupt s
    = wrap 64 (guest_instr_count (li_pp i) - guest_instr_count (rr_prog_point s)).

(** The file side and the queue side. *)
Definition replays (s : rr_state) (qi fi : list log_item) : Prop :=
  ∃ l f qs rs, log_at s l f fi ∧ rr_mode s = RR_REPLAY ∧ qrep (rr_q s) qs rs ∧
    0 < q_brk (rr_q s) ∧ Forall2 loaded qs.*2 qi.

Definition replay_inv (s : rr_state) (pend : list log_item) : Prop :=
  ∃ qi fi, pend = qi ++ fi ∧ replays s qi fi ∧ seg qi ∧ countdown_ok s qi.

(** Only the log, the queue and the countdown differ. *)
Definition rr_frame (s s' : rr_state) : Prop :=
  ∃ l q n, s' = set_rr_num_instr_before_next_interrupt n (set_rr_nondet_log l (set_rr_q q s)).

Lemma rr_frame_refl s : rr_frame s s.
Proof. exists (rr_nondet_log s), (rr_q s), (rr_num_instr_before_next_interrupt s). by destruct s. Qed.

Lemma rr_frame_trans s1 s2 s3 : rr_frame s1 s2 → rr_frame s2 s3 → rr_frame s1 s3.
Proof. intros (? & ? & ? & ->) (l & q & n & ->). by exists l, q, n. Qed.

Lemma rr_frame_pp s s' : rr_frame s s' → rr_prog_point s' = rr_prog_point s.
Proof. by intros (? & ? & ? & ->). Qed.

Lemma rr_frame_q s q : rr_frame s (set_rr_q q s).
Proof. exists (rr_nondet_log s), q, (rr_num_instr_before_next_interrupt s). by destruct s. Qed.

(** ** Filling the queue *)

Lemma stops_loaded brk i : stops_fill (load_item brk i) = stops_item i.
Proof. by destruct i as [p cs []]. Qed.

Lemma fill_take_app n items :
  (fill_take n items).1.1 ++ (fill_take n items).1.2 = items.
Proof.
  revert n. induction items as [|i items IH]; intros n; [done|]. simpl.
  destruct (stops_item i); [done|]. destruct n as [|n]; [done|].
  specialize (IH n). destruct (fill_take n items) as [[t r] e]. simpl in *. by f_equal.
Qed.

Lemma fill_take_seg n items : seg (fill_take n items).1.1.
Proof.
  revert n. induction items as [|i items IH]; intros n; [done|]. simpl.
  destruct (stops_item i) eqn:E; [done|]. destruct n as [|n]; [simpl; by rewrite E|].
  specialize (IH n). destruct (fill_take n items) as [[t r] e]. simpl in *. by rewrite E.
Qed.

Lemma fill_take_stop n items i :
  last (fill_take n items).1.1 = Some i → stops_item i = true →
  (fill_take n items).2 = FStop i.
Proof.
  revert n. induction items as [|j items IH]; intros n; [done|]. simpl.
  destruct (stops_item j) eqn:E; [by intros [= ->]|]. destruct n as [|n]; simpl.
  { intros [= ->]. congruence. }
  specialize (IH n). destruct (fill_take n items) as [[t r] e]. simpl in *.
  destruct t; simpl in *; [|done]. intros [= ->]. congruence.
Qed.

Lemma fill_take_nil n items : (fill_take n items).1.1 = [] → items = [].
Proof.
  destruct items as [|i items]; [done|]. simpl. destruct (stops_item i); [done|].
  destruct n; [done|]. by destruct (fill_take n items) as [[t r] e].
Qed.

Lemma chain_member h p xs l e : chain h p xs → (l, e) ∈ xs → ∃ nx, h !! l = Some (mkQnode e nx).
Proof.
  revert p. induction xs as [|[l' e'] xs IH]; intros p Hc Hin; [by apply not_elem_of_nil in Hin|].
  destruct Hc as [-> (nx & Hl & Hc)]. apply elem_of_cons in Hin as [[= -> ->]|Hin]; eauto.
Qed.

(** One iteration of the loop: the next item is read and appended. *)
Lemma fill_step s l f i items qs rs :
  log_at s l f (i :: items) → rr_mode s = RR_REPLAY → qrep (rr_q s) qs rs → 0 < q_brk (rr_q s) →
  ∃ p s1 nx q' rs',
    let l' := l_next l f i in let s' := set_rr_nondet_log (Some l') (set_rr_q q' s) in
    let e := load_item (q_brk (rr_q s)) i in
    rr_read_item s = Ok p s1 ∧ on_q (queue_append p) s1 = Ok () s' ∧
    on_q (q_load p) s' = Ok (mkQnode e nx) s' ∧
    log_at s' l' (f_advance f (length (item_bytes i))) items ∧
    qrep q' (qs ++ [(p, e)]) rs' ∧ 0 < q_brk q' ∧
    rr_max_num_queue_entries q' = rr_max_num_queue_entries (rr_q s).
Proof.
  intros Hl Hm Hq Hb.
  destruct (read_item_ok s l f i items qs rs) as (p & q1 & rs' & Hread & Hl' & Hq1 & Hd & Hb1 & Hx1);
    [done..|].
  destruct (append_rep _ _ _ _ _ Hq1 Hd) as (q2 & Happ & Hq2 & [Hb2 Hx2]).
  assert (0 ≤ body_alloc (li_body i)).
  { destruct (li_body i) as [| | | | | |[]| |]; simpl; try done; apply zlen_nonneg. }
  destruct (chain_member _ _ _ p (load_item (q_brk (rr_q s)) i) (qr_queue _ _ _ Hq2))
      as [nx Hnx]; [apply elem_of_app; right; by left|].
  do 2 eexists. exists nx, q2, rs'. cbv zeta. split; [exact Hread|]. split; [by erewrite on_q_ok by exact Happ|].
  split; [by erewrite on_q_ok by (by apply q_load_ok)|].
  split; [by destruct Hl'|]. split; [done|]. split; [lia|congruence].
Qed.

Lemma fill_loop_S n num :
  fill_loop (S n) num =
    (e ← rr_log_is_empty;
     if (e : bool) then mret num else
     p ← rr_read_item; on_q (queue_append p);; nd ← on_q (q_load p);
     if stops_fill (qn_entry nd) then set_next_interrupt (qn_entry nd);; mret (num + 1)
     else if RR_MAX_QUEUE_LEN <? num + 1
     then modify (set_rr_num_instr_before_next_interrupt (wrap 64 (-1)));; mret (num + 1)
     else fill_loop n (num + 1)).
Proof. done. Qed.

Lemma fill_loop_ok n : ∀ num s l f items qs rs,
  num + Z.of_nat n = RR_MAX_QUEUE_LEN →
  log_at s l f items → rr_mode s = RR_REPLAY → qrep (rr_q s) qs rs → 0 < q_brk (rr_q s) →
  let '(t, r, e) := fill_take n items in
  ∃ l' f' q' qs' rs',
    let s' := set_rr_num_instr_before_next_interrupt (next_interrupt s e)
                (set_rr_nondet_log (Some l') (set_rr_q q' s)) in
    fill_loop (S n) num s = Ok (num + Z.of_nat (length t)) s' ∧
    log_at s' l' f' r ∧ qrep q' (qs ++ qs') rs' ∧ 0 < q_brk q' ∧ Forall2 loaded qs'.*2 t ∧
    rr_max_num_queue_entries q' = rr_max_num_queue_entries (rr_q s).
Proof.
  induction n as [|n IH]; intros num s l f items qs rs Hn Hl Hm Hq Hb.
  all: rewrite fill_loop_S, (bind_Ok _ _ _ _ _ (is_empty_ok _ _ _ _ Hl)).
  all: destruct items as [|i items]; cbn [fill_take].
  1, 3: exists l, f, (rr_q s), [], rs; cbv zeta; rewrite app_nil_r, Z.add_0_r;
    simpl; replace (set_rr_num_instr_before_next_interrupt _ _) with s
      by (destruct Hl; destruct s; simpl in *; by simplify_eq); split_and!; try done; constructor.
  all: rewrite bool_decide_false by done.
  all: destruct (fill_step s l f i items qs rs)
    as (p & s1 & nx & q1 & rs' & Hread & Happ & Hload & Hl1 & Hq1 & Hb1 & Hx1); [done..|].
  all: rewrite (bind_Ok _ _ _ _ _ Hread), (bind_Ok _ _ _ _ _ Happ), (bind_Ok _ _ _ _ _ Hload).
  all: cbn [qn_entry]; cbv zeta; rewrite stops_loaded.
  all: assert (Hld : loaded (load_item (q_brk (rr_q s)) i) i) by (by exists (q_brk (rr_q s))).
  all: destruct (stops_item i).
  1, 3: do 2 eexists; exists q1, [(p, load_item (q_brk (rr_q s)) i)], rs'; split; [done|];
    split; [by destruct Hl1|]; split; [done|]; split; [done|]; split; [by repeat constructor|done].
  - rewrite (proj2 (Z.ltb_lt _ _)) by lia.
    do 2 eexists. exists q1, [(p, load_item (q_brk (rr_q s)) i)], rs'. split; [done|].
    split; [by destruct Hl1|]. split; [done|]. split; [done|]. split; [by repeat constructor|done].
  - rewrite (proj2 (Z.ltb_ge _ _)) by lia.
    specialize (IH (num + 1) _ _ _ _ _ _ ltac:(lia) Hl1 Hm Hq1 Hb1).
    destruct (fill_take n items) as [[t r] e].
    destruct IH as (l' & f' & q' & qs' & rs'' & Hloop & Hl' & Hq' & Hb' & Hf & Hx').
    exists l', f', q', ((p, load_item (q_brk (rr_q s)) i) :: qs'), rs''. cbv zeta.
    rewrite Hloop. split; [replace (num + Z.of_nat (length (i :: t))) with (num + 1 + Z.of_nat (length t)) by (simpl; lia); by destruct e|].
    split; [by destruct Hl', e|]. rewrite <-app_assoc in Hq'. split; [done|].
    split; [done|]. split; [by constructor|simpl in Hx'; congruence].
Qed.

Lemma fill_take_length n items : (length (fill_take n items).1.1 ≤ S n)%nat.
Proof.
  revert n. induction items as [|i items IH]; intros n; simpl; [lia|].
  destruct (stops_item i); [simpl; lia|]. destruct n as [|n]; [simpl; lia|].
  specialize (IH n). destruct (fill_take n items) as [[t r] e]. simpl in *. lia.
Qed.

(** Filling an empty queue moves [fill_take] of the file to it. *)
Lemma fill_queue_exact s fi :
  replays s [] fi →
  let '(t, r, e) := fill_take (Z.to_nat RR_MAX_QUEUE_LEN) fi in
  ∃ s', rr_fill_queue s = Ok () s' ∧ replays s' t r ∧ rr_frame s s' ∧
    rr_num_instr_before_next_interrupt s' = next_interrupt s e.
Proof.
  intros (l & f & qs & rs & Hl & Hm & Hq & Hb & Hf).
  apply Forall2_nil_inv_r, fmap_nil_inv in Hf as ->.
  destruct (Hq) as [Hqq Hqt _ _ _ _ _]. simpl in Hqq, Hqt.
  unfold rr_fill_queue. rewrite !bind_gets, Hqq, Hqt. erewrite bind_Ok by done.
  pose proof (fill_loop_ok (Z.to_nat RR_MAX_QUEUE_LEN) 0 s l f fi [] rs eq_refl Hl Hm Hq Hb) as HL.
  destruct (fill_take _ fi) as [[t r] e].
  destruct HL as (l' & f' & q' & qs' & rs' & Hloop & Hl' & Hq' & Hb' & Hf' & Hx').
  assert (fill_fuel = S (Z.to_nat RR_MAX_QUEUE_LEN)) as -> by done.
  rewrite (bind_Ok _ _ _ _ _ Hloop). unfold modify. simpl in Hl'.
  set (q'' := if rr_max_num_queue_entries q' <? 0 + Z.of_nat (length t)
              then set_rr_max_num_queue_entries (0 + Z.of_nat (length t)) q' else q').
  exists (set_rr_num_instr_before_next_interrupt (next_interrupt s e)
           (set_rr_nondet_log (Some l') (set_rr_q q'' s))).
  split; [f_equal; subst q''; simpl; by case_match|].
  split; [|by split; [do 3 eexists|]].
  exists l', f', qs', rs'. split; [by destruct Hl'|]. split; [done|].
  split; [subst q''; simpl; case_match; by destruct Hq'|].
  split; [subst q''; simpl; by case_match|done].
Qed.

Lemma fill_queue_ok s fi :
  replays s [] fi →
  ∃ s' qi' fi', rr_fill_queue s = Ok () s' ∧ replays s' qi' fi' ∧ fi = qi' ++ fi' ∧
    seg qi' ∧ countdown_ok s' qi' ∧ rr_frame s s' ∧ (qi' = [] → fi = []).
Proof.
  intros Hr. pose proof (fill_queue_exact s fi Hr) as HL.
  pose proof (fill_take_app (Z.to_nat RR_MAX_QUEUE_LEN) fi) as Happ.
  pose proof (fill_take_seg (Z.to_nat RR_MAX_QUEUE_LEN) fi) as Hseg.
  pose proof (fill_take_stop (Z.to_nat RR_MAX_QUEUE_LEN) fi) as Hstop.
  pose proof (fill_take_nil (Z.to_nat RR_MAX_QUEUE_LEN) fi) as Hnil.
  destruct (fill_take _ fi) as [[t r] e]. simpl in Happ, Hseg, Hstop, Hnil.
  destruct HL as (s' & Hfill & Hr' & Hf & Hn). exists s', t, r.
  split_and!; try done. intros i Hi Hs. rewrite Hn, (rr_frame_pp _ _ Hf).
  by rewrite (Hstop i Hi Hs).
Qed.

(** ** Taking entries *)

Lemma replays_frame s s' qi fi :
  replays s qi fi → rr_nondet_log s' = rr_nondet_log s → rr_host s' = rr_host s →
  rr_mode s' = rr_mode s → rr_q s' = rr_q s → replays s' qi fi.
Proof.
  intros (l & f & qs & rs & Hl & Hm & Hq & Hb & Hf) E1 E2 E3 E4.
  exists l, f, qs, rs. rewrite E3, E4. split_and!; try done.
  destruct Hl. split; try done; by rewrite ?E1, ?E2.
Qed.

(** A state between taking the entry [p] and recycling it. *)
Definition holding (s : rr_state) (p : loc) (i : log_item) (qi fi : list log_item) : Prop :=
  ∃ l f qs rs e, log_at s l f fi ∧ rr_mode s = RR_REPLAY ∧ qrep (rr_q s) qs rs ∧
    0 < q_brk (rr_q s) ∧ Forall2 loaded qs.*2 qi ∧ detached (rr_q s) qs rs p e ∧ loaded e i.

Lemma pop_ok s i qi fi :
  replays s (i :: qi) fi →
  ∃ p s', on_q queue_pop s = Ok p s' ∧ holding s' p i qi fi ∧ rr_frame s s' ∧
    rr_num_instr_before_next_interrupt s' = rr_num_instr_before_next_interrupt s.
Proof.
  intros (l & f & qs & rs & Hl & Hm & Hq & Hb & Hf).
  apply Forall2_cons_inv_r in Hf as (e & es & He & Hes & Hqs).
  destruct qs as [|[p e'] qs]; [done|]. simplify_eq/=.
  destruct (pop_rep _ _ _ _ _ Hq) as (q' & Hp & Hq' & Hd & [Hb' _]).
  exists p, (set_rr_q q' s). split; [by apply on_q_ok|].
  split; [|by split; [apply rr_frame_q|]].
  exists l, f, qs, rs, e. simpl. rewrite Hb'. by split_and!; try done; destruct Hl.
Qed.

Lemma recycle_ok s p i qi fi :
  holding s p i qi fi →
  ∃ s', on_q (add_to_recycle_list p) s = Ok () s' ∧ replays s' qi fi ∧ rr_frame s s' ∧
    rr_num_instr_before_next_interrupt s' = rr_num_instr_before_next_interrupt s.
Proof.
  intros (l & f & qs & rs & e & Hl & Hm & Hq & Hb & Hf & Hd & He).
  destruct (recycle_rep _ _ _ _ _ Hq Hd) as (q' & Hr & Hq' & [Hb' _]).
  exists (set_rr_q q' s). split; [by apply on_q_ok|]. split; [|by split; [apply rr_frame_q|]].
  eexists l, f, qs, _. simpl. rewrite Hb'. by split_and!; try done; destruct Hl.
Qed.

Lemma entry_at_ok s p i qi fi :
  holding s p i qi fi → ∃ e, entry_at p s = Ok e s ∧ loaded e i.
Proof.
  intros (l & f & qs & rs & e & Hl & Hm & Hq & Hb & Hf & (Hd & _) & He).
  exists e. split; [|done]. unfold entry_at.
  erewrite bind_Ok by (apply on_q_ok; by apply q_load_ok). by destruct s.
Qed.

Lemma peek_ok s i qi fi :
  replays s (i :: qi) fi → ∃ p e, rr_queue_head (rr_q s) = Some p ∧
    on_q (q_load p) s = Ok e s ∧ peek s = Ok (qn_entry e) s ∧ loaded (qn_entry e) i.
Proof.
  intros (l & f & qs & rs & Hl & Hm & Hq & Hb & Hf).
  apply Forall2_cons_inv_r in Hf as (e & es & He & Hes & Hqs).
  destruct qs as [|[p e'] qs]; [done|]. simplify_eq/=.
  destruct (qr_queue _ _ _ Hq) as [Hh (nx & Hp & _)].
  assert (on_q (q_load p) s = Ok (mkQnode e nx) s) as Hld.
  { erewrite on_q_ok by (by apply q_load_ok). by destruct s. }
  exists p, (mkQnode e nx). split_and!; try done.
  unfold peek. rewrite bind_gets, Hh, bind_nonnull. by rewrite (bind_Ok _ _ _ _ _ Hld).
Qed.

(** ** The end of a replay *)

Definition only_last (qi : list log_item) : bool :=
  match qi with [i] => bool_decide (body_kind (li_body i) = RR_LAST) | _ => false end.

Lemma loaded_kind e i : loaded e i → kind e = body_kind (li_body i).
Proof. intros (brk & _ & ->). unfold kind. simpl. by destruct (li_body i). Qed.
Lemma loaded_pp e i : loaded e i → prog_point e = li_pp i.
Proof. by intros (brk & _ & ->). Qed.
Lemma loaded_cs e i : loaded e i → callsite_loc e = li_callsite i.
Proof. by intros (brk & _ & ->). Qed.

Lemma queue_is_last_ok s qs rs qi :
  qrep (rr_q s) qs rs → Forall2 loaded qs.*2 qi → queue_is_last s = Ok (only_last qi) s.
Proof.
  intros [Hq Ht Hrc Hnd _ _ _] Hf. unfold queue_is_last. rewrite !bind_gets, Ht.
  destruct qs as [|[p e] qs].
  { apply Forall2_nil_inv_l in Hf as ->. simpl in Hq. rewrite Hq. by rewrite decide_True. }
  destruct Hq as [Hh (nx & Hp & Hq)]. rewrite Hh. csimpl in *.
  apply Forall2_cons_inv_l in Hf as (i & qi' & Hi & Hf & ->).
  apply NoDup_cons in Hnd as [Hpx Hnd]. destruct qs as [|x qs].
  - apply Forall2_nil_inv_l in Hf as ->. simpl. rewrite decide_True by done.
    assert (on_q (q_load p) s = Ok (mkQnode e nx) s) as Hld.
    { erewrite on_q_ok by (by apply q_load_ok). by destruct s. }
    rewrite (bind_Ok _ _ _ _ _ Hld). simpl. by rewrite (loaded_kind _ _ Hi).
  - apply Forall2_cons_inv_l in Hf as (i' & qi'' & Hi' & Hf & ->).
    rewrite decide_False; [done|]. intros Hx. symmetry in Hx.
    change (last (x.1 :: qs.*1) = Some p) in Hx. apply last_Some_elem_of in Hx.
    apply Hpx. change (p ∈ (x.1 :: qs.*1) ++ rs.*1). apply elem_of_app. by left.
Qed.

Definition ended (s : rr_state) (q' : rr_queue) (is_error : bool) (qi : list log_item) : rr_state :=
  set_rr_mode RR_OFF (set_rr_nondet_log None (set_rr_q q'
    (set_rr_trace (rr_trace s ++ [EvEndReplay is_error (only_last qi)]
       ++ [if is_error then EvPandaCleanup else EvShutdownRequest]) s))).

Lemma end_replay_heap s l f fi qi qs rs is_error :
  log_at s l f fi → qrep (rr_q s) qs rs → Forall2 loaded qs.*2 qi →
  ∃ q', qrep q' [] [] ∧
    (∀ k, q_heap q' !! k = if decide (k ∈ qs.*1 ++ rs.*1) then None else q_heap (rr_q s) !! k) ∧
    rr_do_end_replay is_error s
    = if is_error then Err Abort (ended s q' true qi) else Ok () (ended s q' false qi).
Proof.
  intros Hl Hq Hf. unfold rr_do_end_replay.
  rewrite bind_modify, bind_gets.
  set (q1 := set_rr_max_num_queue_entries 0 (rr_q s)).
  assert (Hq1 : qrep q1 qs rs) by (by destruct Hq).
  destruct (free_recycle_rep (size (q_heap q1)) q1 qs rs Hq1) as (q2 & Hfr & Hq2 & _ & Hh2).
  { eapply chain_size, (NoDup_app (qs.*1)); [apply Hq1|apply Hq1]. }
  erewrite bind_Ok by (apply on_q_ok; exact Hfr).
  erewrite bind_Ok by (eapply queue_is_last_ok; [exact Hq2|exact Hf]).
  unfold emit. rewrite bind_modify, bind_gets. unfold heap_fuel. simpl.
  destruct (free_queue_rep (size (q_heap q2)) q2 qs) as (q3 & Hfq & Hq3 & _ & Hh3).
  { rewrite <-(qr_tail _ _ _ Hq2). by destruct q2. }
  { eapply chain_size; [apply Hq2|]. pose proof (qr_nodup _ _ _ Hq2) as Hnd. simpl in Hnd.
    by rewrite app_nil_r in Hnd. }
  erewrite bind_Ok by (apply on_q_ok; exact Hfq). rewrite bind_modify.
  exists (set_rr_queue_head None (set_rr_queue_tail None q3)). split; [done|]. split.
  { intros k. simpl. rewrite Hh3, Hh2. repeat case_decide; try done; exfalso; set_solver. }
  assert (∀ st, rr_nondet_log st = Some l → rr_destroy_log st = Ok () (set_rr_nondet_log None st))
    as Hdes.
  { intros st Hst. unfold rr_destroy_log. erewrite bind_Ok by (by apply get_log_ok).
    rewrite (la_fp _ _ _ _ Hl), (la_type _ _ _ _ Hl). rewrite decide_False by done.
    erewrite bind_Ok; [|erewrite bind_Ok by done; by apply upd_log_ok]. done. }
  erewrite bind_Ok by (apply Hdes; simpl; apply Hl). rewrite bind_modify.
  unfold ended. rewrite !app_assoc. by destruct is_error.
Qed.

Lemma end_replay_ok s qi fi is_error :
  replays s qi fi →
  ∃ q', qrep q' [] [] ∧
    rr_do_end_replay is_error s
    = if is_error then Err Abort (ended s q' true qi) else Ok () (ended s q' false qi).
Proof.
  intros (l & f & qs & rs & Hl & Hm & Hq & Hb & Hf).
  destruct (end_replay_heap s l f fi qi qs rs is_error Hl Hq Hf) as (q' & Hq' & _ & He). eauto.
Qed.

(** ** The next entry *)

(** The guest is at the recorded point ([pp_here]) or past it ([pp_ahead]). *)
Definition pp_here (cur rec : RR_prog_point) : bool :=
  bool_decide (rec = pp_zero)
  || (guest_instr_count cur =? guest_instr_count rec)
     && ((pc cur =? pc rec) && (secondary cur =? secondary rec)
         || (pc cur =? 0) && (guest_instr_count cur =? 0)).
Definition pp_ahead (cur rec : RR_prog_point) : bool :=
  negb (bool_decide (rec = pp_zero)) && (guest_instr_count rec <? guest_instr_count cur).

(** The item has the kind, and where it is checked the call site, asked for. *)
Definition wanted (k : RR_log_entry_kind) (cs : Z) (chk : bool) (i : log_item) : bool :=
  bool_decide (body_kind (li_body i) = k) && (negb chk || (li_callsite i =? cs)).

(** Looking for an input or an exit request skips debug entries. *)
Definition skips_debug (k : RR_log_entry_kind) : Prop :=
  k ≠ RR_INTERRUPT_REQUEST ∧ k ≠ RR_SKIPPED_CALL.
Definition no_debug (i : log_item) : Prop := li_body i ≠ LDebug.

Lemma compare_ok cur rec s :
  rec ≠ pp_zero → pp_ahead cur rec = false →
  rr_prog_point_compare cur rec s = Ok (if pp_here cur rec then 0 else -1) s.
Proof.
  unfold pp_ahead, pp_here, rr_prog_point_compare. intros Hz.
  rewrite bool_decide_false by done. simpl. intros Ha%Z.ltb_ge.
  destruct (Z.ltb_spec (guest_instr_count cur) (guest_instr_count rec)) as [Hlt|Hge].
  - by rewrite (proj2 (Z.eqb_neq _ _)) by lia.
  - rewrite (proj2 (Z.eqb_eq _ _)) by lia. simpl.
    destruct ((pc cur =? pc rec) && (secondary cur =? secondary rec)); [done|].
    by destruct ((pc cur =? 0) && (guest_instr_count cur =? 0)).
Qed.

Lemma compare_ahead cur rec s :
  pp_ahead cur rec = true →
  rr_prog_point_compare cur rec s = (rr_do_end_replay true;; mret 1) s.
Proof.
  unfold pp_ahead, rr_prog_point_compare. intros [_ Ha%Z.ltb_lt]%andb_prop.
  rewrite (proj2 (Z.ltb_ge _ _)) by lia. by rewrite (proj2 (Z.eqb_neq _ _)) by lia.
Qed.

(** The first step of [get_next_entry]: an empty queue is filled again. *)
Lemma refill_ok s pend :
  replay_inv s pend →
  ∃ s' qi fi,
    (h ← gets (λ s, rr_queue_head (rr_q s));
     match h with None => rr_fill_queue | Some _ => mret () end) s = Ok () s' ∧
    pend = qi ++ fi ∧ replays s' qi fi ∧ seg qi ∧ countdown_ok s' qi ∧ rr_frame s s' ∧
    (qi = [] → pend = []).
Proof.
  intros (qi & fi & -> & Hr & Hs & Hc). destruct qi as [|i qi].
  - pose proof Hr as (l & f & qs & rs & Hl & Hm & Hq & Hb & Hf).
    apply Forall2_nil_inv_r, fmap_nil_inv in Hf as ->.
    pose proof (qr_queue _ _ _ Hq) as Hh. simpl in Hh.
    destruct (fill_queue_ok s fi Hr) as (s' & qi' & fi' & Hfill & Hr' & -> & ? & ? & ? & Hnil).
    exists s', qi', fi'. rewrite bind_gets, Hh. by split_and!.
  - destruct (peek_ok _ _ _ _ Hr) as (p & e & Hh & _).
    exists s, (i :: qi), fi. rewrite bind_gets, Hh. split_and!; try done. apply rr_frame_refl.
Qed.

Lemma drop_debug_ok n s i qi fi :
  replays s (i :: qi) fi → no_debug i → drop_debug n s = Ok () s.
Proof.
  intros Hr Hi. destruct (peek_ok _ _ _ _ Hr) as (p & e & Hh & Hld & _ & He).
  destruct n; cbn [drop_debug]; rewrite bind_gets, Hh, (bind_Ok _ _ _ _ _ Hld);
    (rewrite decide_False; [done|]; rewrite (loaded_kind _ _ He);
     unfold no_debug in Hi; by destruct (li_body i)).
Qed.

Lemma get_next_nil s k cs chk :
  replay_inv s [] →
  ∃ s', get_next_entry k cs chk s = Ok None s' ∧ replay_inv s' [] ∧ rr_frame s s'.
Proof.
  intros Hi. destruct (refill_ok _ _ Hi) as (s' & qi & fi & Hf & Hp & Hr & Hs & Hc & Hfr & _).
  symmetry in Hp. apply app_nil in Hp as [-> ->]. exists s'. unfold get_next_entry.
  rewrite <-bind_assoc, (bind_Ok _ _ _ _ _ Hf), bind_gets.
  pose proof Hr as (l & f & qs & rs & _ & _ & Hq & _ & Hfa).
  apply Forall2_nil_inv_r, fmap_nil_inv in Hfa as ->.
  pose proof (qr_queue _ _ _ Hq) as Hh. simpl in Hh. rewrite Hh.
  split; [done|]. split; [|done]. by exists [], [].
Qed.

(** The last step: the entry is taken when the guest is at its point. *)
Lemma take_head_ok s i qi fi cur :
  replays s (i :: qi) fi → countdown_ok s (i :: qi) →
  let m := (c ← (if decide (li_pp i = pp_zero) then mret 0
                 else rr_prog_point_compare cur (li_pp i));
            if c =? 0 then p ← on_q queue_pop; mret (Some p) else mret None) in
  if pp_here cur (li_pp i) then
    ∃ p s', m s = Ok (Some p) s' ∧ holding s' p i qi fi ∧ countdown_ok s' (i :: qi) ∧ rr_frame s s'
  else if pp_ahead cur (li_pp i) then ∃ s', m s = Err Abort s'
  else m s = Ok None s.
Proof.
  intros Hr Hc m.
  destruct (pop_ok _ _ _ _ Hr) as (p & s' & Hpop & Hh & Hfr & Hn).
  assert (∀ r, r = Ok (Some p) s' →
    ∃ p s', r = Ok (Some p) s' ∧ holding s' p i qi fi ∧ countdown_ok s' (i :: qi) ∧ rr_frame s s')
    as Hdone.
  { intros r ->. exists p, s'. split_and!; try done. intros j Hj Hj'.
    rewrite Hn, (rr_frame_pp _ _ Hfr). by apply Hc. }
  subst m. unfold pp_here at 1. case_decide as Hz; simpl.
  { rewrite bool_decide_true by done. simpl. apply Hdone. rewrite bind_ret. simpl.
    by rewrite (bind_Ok _ _ _ _ _ Hpop). }
  rewrite bool_decide_false by done. simpl.
  destruct (pp_ahead cur (li_pp i)) eqn:Ha.
  - assert ((guest_instr_count cur =? guest_instr_count (li_pp i)) = false) as ->.
    { unfold pp_ahead in Ha. apply andb_prop in Ha as [_ Ha%Z.ltb_lt]. apply Z.eqb_neq. lia. }
    simpl. destruct (end_replay_ok _ _ _ true Hr) as (q' & _ & He).
    eexists. apply bind_Err. rewrite compare_ahead by done. by apply bind_Err.
  - rewrite (bind_Ok _ _ _ _ _ (compare_ok _ _ _ Hz Ha)).
    unfold pp_here. rewrite bool_decide_false by done. simpl. case_match; simpl; [|done].
    apply Hdone. by rewrite (bind_Ok _ _ _ _ _ Hpop).
Qed.

Lemma get_next_cons s i rest k cs chk :
  replay_inv s (i :: rest) → (skips_debug k → no_debug i) →
  let cur := rr_prog_point s in
  if wanted k cs chk i && pp_here cur (li_pp i) then
    ∃ p s' qi fi, get_next_entry k cs chk s = Ok (Some p) s' ∧ holding s' p i qi fi ∧
      rest = qi ++ fi ∧ seg (i :: qi) ∧ countdown_ok s' (i :: qi) ∧ rr_frame s s'
  else if wanted k cs chk i && pp_ahead cur (li_pp i) then
    ∃ s', get_next_entry k cs chk s = Err Abort s'
  else
    ∃ s', get_next_entry k cs chk s = Ok None s' ∧ replay_inv s' (i :: rest) ∧ rr_frame s s' ∧
      is_Some (rr_queue_head (rr_q s')).
Proof.
  intros Hi Hd cur.
  destruct (refill_ok _ _ Hi) as (s1 & qi & fi & Hf & Hp & Hr & Hs & Hc & Hfr & Hne).
  destruct qi as [|i' qi]; [by specialize (Hne eq_refl)|]. simplify_eq/=.
  assert (Hinv1 : replay_inv s1 (i' :: qi ++ fi)) by (by exists (i' :: qi), fi).
  destruct (peek_ok _ _ _ _ Hr) as (hd & nd & Hh & _ & Hpk & Hld).
  unfold get_next_entry. rewrite <-bind_assoc, (bind_Ok _ _ _ _ _ Hf), bind_gets, Hh.
  erewrite bind_Ok.
  2: { case_decide as Hk; [rewrite bind_gets; by eapply drop_debug_ok, Hd|done]. }
  rewrite (bind_Ok _ _ _ _ _ Hpk), (loaded_kind _ _ Hld), (loaded_cs _ _ Hld), (loaded_pp _ _ Hld).
  assert (Hsome : is_Some (rr_queue_head (rr_q s1))) by (rewrite Hh; eauto).
  unfold wanted. destruct (decide (body_kind (li_body i') ≠ k)) as [Hk|Hk].
  { rewrite bool_decide_false by done. simpl. eauto. }
  apply dec_stable in Hk. rewrite bool_decide_true by done. simpl.
  destruct chk, (li_callsite i' =? cs) eqn:Ecs; simpl; try by eauto.
  all: rewrite bind_gets, (rr_frame_pp _ _ Hfr); fold cur;
    pose proof (take_head_ok s1 i' qi fi cur Hr Hc) as Ht; cbv zeta in Ht;
    destruct (pp_here cur (li_pp i')), (pp_ahead cur (li_pp i')); simpl in *;
    try (destruct Ht as (p & s' & Ht & ? & ? & ?); exists p, s', qi, fi;
         split; [done|]; split; [done|]; split; [done|]; split; [done|]; split; [done|];
         by eapply rr_frame_trans);
    try (destruct Ht as (s' & Ht); by exists s');
    exists s1; by rewrite Ht.
Qed.

Lemma recycle_inv s p i qi fi :
  holding s p i qi fi → seg (i :: qi) → countdown_ok s (i :: qi) →
  ∃ s', on_q (add_to_recycle_list p) s = Ok () s' ∧ replay_inv s' (qi ++ fi) ∧
    (replays s' qi fi ∧ countdown_ok s' qi) ∧ rr_frame s s'.
Proof.
  intros Hh [_ Hs] Hc. destruct (recycle_ok _ _ _ _ _ Hh) as (s' & Hr & Hrep & Hf & Hn).
  assert (countdown_ok s' qi).
  { intros j Hj Hst. rewrite Hn, (rr_frame_pp _ _ Hf). apply Hc; [|done]. by destruct qi. }
  exists s'. split; [done|]. split; [|done]. exists qi, fi. by split_and!.
Qed.

(** ** Inputs *)

Inductive input_size := In1 | In2 | In4 | In8.

Definition input_kind (n : input_size) : RR_log_entry_kind :=
  match n with In1 => RR_INPUT_1 | In2 => RR_INPUT_2 | In4 => RR_INPUT_4 | In8 => RR_INPUT_8 end.
Definition input_body (n : input_size) (v : Z) : log_body :=
  match n with In1 => LInput1 v | In2 => LInput2 v | In4 => LInput4 v | In8 => LInput8 v end.
Definition input_bits (n : input_size) : Z :=
  match n with In1 => 8 | In2 => 16 | In4 => 32 | In8 => 64 end.
Definition rr_replay_input (n : input_size) : Z → RR Z :=
  match n with
  | In1 => rr_replay_input_1 | In2 => rr_replay_input_2
  | In4 => rr_replay_input_4 | In8 => rr_replay_input_8
  end.

Definition input_sel (n : input_size) : RR_variant → option Z :=
  match n with In1 => input_1_of | In2 => input_2_of | In4 => input_4_of | In8 => input_8_of end.

Lemma rr_replay_input_unfold n : rr_replay_input n = replay_input (input_kind n) (input_sel n).
Proof. by destruct n. Qed.

Lemma input_kind_skips n : skips_debug (input_kind n).
Proof. by destruct n. Qed.

Lemma body_kind_input n v : body_kind (input_body n v) = input_kind n.
Proof. by destruct n. Qed.

(** At its point and call site an input is replayed, and consumed. *)
Lemma replay_input_ok s n v pp cs rest :
  replay_inv s (mkItem pp cs (input_body n v) :: rest) → pp_here (rr_prog_point s) pp = true →
  ∃ s', rr_replay_input n cs s = Ok v s' ∧ replay_inv s' rest ∧ rr_frame s s'.
Proof.
  intros Hi Hpp. rewrite rr_replay_input_unfold. unfold replay_input.
  pose proof (get_next_cons s _ _ (input_kind n) cs false Hi) as Hg.
  unfold wanted in Hg. simpl in Hg. rewrite body_kind_input, bool_decide_true, Hpp in Hg by done.
  destruct Hg as (p & s1 & qi & fi & Hg & Hh & -> & Hs & Hc & Hf); [by destruct n|].
  rewrite (bind_Ok _ _ _ _ _ Hg). destruct (entry_at_ok _ _ _ _ _ Hh) as (e & He & Hld).
  rewrite (bind_Ok _ _ _ _ _ He), (loaded_cs _ _ Hld). simpl. rewrite Z.eqb_refl.
  erewrite bind_Ok by done. destruct Hld as (brk & _ & ->). simpl.
  assert (input_sel n (load_body brk (input_body n v)) = Some v) as -> by (by destruct n).
  rewrite bind_nonnull. destruct (recycle_inv _ _ _ _ _ Hh Hs Hc) as (s' & Hr & Hinv & _ & Hf').
  rewrite (bind_Ok _ _ _ _ _ Hr). exists s'. split; [done|]. split; [done|].
  by eapply rr_frame_trans.
Qed.

(** Anything else stops the replay. *)
Lemma replay_input_wrong s n cs pend :
  replay_inv s pend →
  (∀ i, head pend = Some i → no_debug i ∧
     (body_kind (li_body i) = input_kind n → li_callsite i = cs →
      pp_here (rr_prog_point s) (li_pp i) = false)) →
  ∃ e s', rr_replay_input n cs s = Err e s' ∧ (e = ExitFailure ∨ e = Abort).
Proof.
  intros Hi Hp. rewrite rr_replay_input_unfold. unfold replay_input.
  destruct pend as [|i rest].
  { destruct (get_next_nil s (input_kind n) cs false Hi) as (s' & Hg & _).
    rewrite (bind_Ok _ _ _ _ _ Hg). eauto. }
  destruct (Hp i eq_refl) as [Hd Hx].
  pose proof (get_next_cons s i rest (input_kind n) cs false Hi (λ _, Hd)) as Hg.
  unfold wanted in Hg. simpl in Hg. rewrite andb_true_r in Hg.
  case_bool_decide as Hk; simpl in Hg.
  2: { destruct Hg as (s' & Hg & _). rewrite (bind_Ok _ _ _ _ _ Hg). eauto. }
  destruct (pp_here (rr_prog_point s) (li_pp i)).
  - destruct Hg as (p & s1 & qi & fi & Hg & Hh & _). rewrite (bind_Ok _ _ _ _ _ Hg).
    destruct (entry_at_ok _ _ _ _ _ Hh) as (e & He & Hld).
    rewrite (bind_Ok _ _ _ _ _ He), (loaded_cs _ _ Hld).
    destruct (Z.eqb_spec (li_callsite i) cs) as [Hcs|Hcs]; [by specialize (Hx Hk Hcs)|].
    do 2 eexists. split; [by apply bind_Err|]. by left.
  - destruct (pp_ahead (rr_prog_point s) (li_pp i)).
    + destruct Hg as (s' & Hg). do 2 eexists. split; [by apply bind_Err|]. by right.
    + destruct Hg as (s' & Hg & _). rewrite (bind_Ok _ _ _ _ _ Hg). eauto.
Qed.

(** ** Interrupt and exit requests *)

(** What is replayed for [pend], and what is left: the value of the entry when
    it is the next one, at its call site and point; else 0 and nothing is
    consumed. *)
Definition interrupt_spec (cur : RR_prog_point) (cs : Z) (pend : list log_item)
    : Z * list log_item :=
  match pend with
  | mkItem pp cs' (LInterrupt v) :: rest =>
      if (cs' =? cs) && pp_here cur pp then (v, rest) else (0, pend)
  | _ => (0, pend)
  end.

Definition exit_spec (cur : RR_prog_point) (pend : list log_item) : Z * list log_item :=
  match pend with
  | mkItem pp _ (LExit v) :: rest => if pp_here cur pp then (v, rest) else (0, pend)
  | _ => (0, pend)
  end.

(** The guest is not past the next entry. *)
Definition not_past (cur : RR_prog_point) (pend : list log_item) : Prop :=
  ∀ i, head pend = Some i → pp_ahead cur (li_pp i) = false.

Lemma here_not_ahead cur rec : pp_here cur rec = true → pp_ahead cur rec = false.
Proof.
  unfold pp_here, pp_ahead. case_bool_decide; simpl; [done|].
  intros [Hx%Z.eqb_eq _]%andb_prop. apply Z.ltb_ge. lia.
Qed.

Lemma replay_interrupt_ok s cs pend :
  replay_inv s pend → not_past (rr_prog_point s) pend →
  let r := interrupt_spec (rr_prog_point s) cs pend in
  ∃ s', rr_replay_interrupt_request cs s = Ok r.1 s' ∧ replay_inv s' r.2 ∧ rr_frame s s' ∧
    (r.2 ≠ [] → is_Some (rr_queue_head (rr_q s'))).
Proof.
  intros Hi Hn r. unfold rr_replay_interrupt_request. destruct pend as [|i rest].
  { destruct (get_next_nil s RR_INTERRUPT_REQUEST cs true Hi) as (s' & Hg & Hi' & Hf).
    rewrite (bind_Ok _ _ _ _ _ Hg). by exists s'. }
  pose proof (get_next_cons s i rest RR_INTERRUPT_REQUEST cs true Hi) as Hg.
  cbv zeta in Hg. rewrite (Hn i eq_refl), andb_false_r in Hg. destruct (wanted _ _ _ i && _) eqn:Ew.
  - destruct Hg as (p & s1 & qi & fi & Hg & Hh & -> & Hs & Hc & Hf); [by intros []|].
    rewrite (bind_Ok _ _ _ _ _ Hg). destruct (entry_at_ok _ _ _ _ _ Hh) as (e & He & Hld).
    rewrite (bind_Ok _ _ _ _ _ He). destruct Hld as (brk & _ & ->).
    apply andb_prop in Ew as [[Hk%bool_decide_eq_true Hcs]%andb_prop Hpp]. simpl in Hcs.
    destruct i as [pp cs' []]; try done. simpl in *. subst r. rewrite Hcs, Hpp.
    rewrite bind_ret. destruct (recycle_inv _ _ _ _ _ Hh Hs Hc) as (s2 & Hr & _ & [Hrep _] & Hf2).
    rewrite (bind_Ok _ _ _ _ _ Hr). destruct Hs as [->%(λ f, f eq_refl) _].
    destruct (fill_queue_ok _ _ Hrep) as (s3 & qi' & fi' & Hfill & Hr' & -> & ? & ? & Hf3 & Hne).
    rewrite (bind_Ok _ _ _ _ _ Hfill). exists s3. split; [done|]. split; [by exists qi', fi'|].
    split; [by do 2 (eapply rr_frame_trans; [done|])|]. intros Hn'.
    destruct qi' as [|j qi']; [by specialize (Hne eq_refl)|].
    destruct (peek_ok _ _ _ _ Hr') as (? & ? & -> & _). eauto.
  - destruct Hg as (s' & Hg & Hi' & Hf & Hsome); [by intros []|]. rewrite (bind_Ok _ _ _ _ _ Hg).
    exists s'. subst r. destruct i as [pp cs' []]; try by split_and!.
    unfold wanted in Ew. simpl in *. by rewrite Ew.
Qed.

Lemma replay_exit_ok s cs pend :
  replay_inv s pend → not_past (rr_prog_point s) pend →
  (∀ i, head pend = Some i → no_debug i ∧ (body_kind (li_body i) = RR_EXIT_REQUEST → li_callsite i = cs)) →
  let r := exit_spec (rr_prog_point s) pend in
  ∃ s', rr_replay_exit_request cs s = Ok r.1 s' ∧ replay_inv s' r.2 ∧ rr_frame s s'.
Proof.
  intros Hi Hn Hd r. unfold rr_replay_exit_request. destruct pend as [|i rest].
  { destruct (get_next_nil s RR_EXIT_REQUEST cs false Hi) as (s' & Hg & Hi' & Hf).
    rewrite (bind_Ok _ _ _ _ _ Hg). by exists s'. }
  destruct (Hd i eq_refl) as [Hdb Hcs].
  pose proof (get_next_cons s i rest RR_EXIT_REQUEST cs false Hi (λ _, Hdb)) as Hg.
  cbv zeta in Hg. rewrite (Hn i eq_refl), andb_false_r in Hg. destruct (wanted _ _ _ i && _) eqn:Ew.
  - destruct Hg as (p & s1 & qi & fi & Hg & Hh & -> & Hs & Hc & Hf).
    rewrite (bind_Ok _ _ _ _ _ Hg). destruct (entry_at_ok _ _ _ _ _ Hh) as (e & He & Hld).
    rewrite (bind_Ok _ _ _ _ _ He). destruct Hld as (brk & _ & ->).
    apply andb_prop in Ew as [[Hk%bool_decide_eq_true _]%andb_prop Hpp].
    rewrite <-(Hcs Hk). simpl. rewrite Z.eqb_refl. erewrite bind_Ok by done.
    destruct i as [pp cs' []]; try done. simpl in *. subst r. rewrite Hpp.
    rewrite bind_ret. destruct (recycle_inv _ _ _ _ _ Hh Hs Hc) as (s2 & Hr & Hi2 & _ & Hf2).
    rewrite (bind_Ok _ _ _ _ _ Hr). exists s2. split; [done|]. split; [done|].
    by eapply rr_frame_trans.
  - destruct Hg as (s' & Hg & Hi' & Hf & _). rewrite (bind_Ok _ _ _ _ _ Hg).
    exists s'. subst r. destruct i as [pp cs' []]; try by split.
    unfold wanted in Ew. simpl in *. by rewrite Ew.
Qed.

(** ** Skipped calls *)

(** The callbacks registered for a type, in calling order. *)
Definition cb_calls (c : cb_state) (t : panda_cb_type) : list Z :=
  match panda_run_callbacks t c with Ok ids _ => ids | Err _ _ => [] end.

Definition callbacks_ok (c : cb_state) : Prop := ∃ xss, cb_rep c xss.

(** The effect of replaying a call after the calls [tr]. *)
Definition call_event (c : cb_state) (tr : list rr_event) (k : log_call) : rr_event :=
  match k with
  | LMemRw addr _ data => EvMemRw addr data (zlen data)
  | LRegion a n o => EvRegMem a n o
  | LUnmap addr _ data => EvMapUnmap addr (default 0 (phys_map tr addr (zlen data))) data
  | LHd t a b n => EvHdTransfer (cb_calls c PANDA_CB_REPLAY_HD_TRANSFER) t a b n
  | LNet t a b n => EvNetTransfer (cb_calls c PANDA_CB_REPLAY_NET_TRANSFER) t a b n
  | LPacket ptr data dir =>
      EvHandlePacket (cb_calls c PANDA_CB_REPLAY_HANDLE_PACKET) data (zlen data) dir ptr
  end.

Fixpoint call_events (c : cb_state) (tr : list rr_event) (ks : list log_call) : list rr_event :=
  match ks with
  | [] => tr
  | k :: ks' => call_events c (tr ++ [call_event c tr k]) ks'
  end.

(** The mapping for an unmapped region covers it. *)
Definition call_maps (tr : list rr_event) (k : log_call) : Prop :=
  match k with
  | LUnmap addr _ data => ∃ plen, phys_map tr addr (zlen data) = Some plen ∧ zlen data ≤ plen
  | _ => True
  end.

Fixpoint calls_map (c : cb_state) (tr : list rr_event) (ks : list log_call) : Prop :=
  match ks with
  | [] => True
  | k :: ks' => call_maps tr k ∧ calls_map c (tr ++ [call_event c tr k]) ks'
  end.

(** The calls replayed at the current point, and the entries left. *)
Fixpoint take_calls (cur : RR_prog_point) (pend : list log_item)
    : list log_call * list log_item :=
  match pend with
  | mkItem pp cs (LCall k) :: rest =>
      if pp_here cur pp then let '(ks, r) := take_calls cur rest in (k :: ks, r)
      else ([], pend)
  | _ => ([], pend)
  end.

Lemma run_callbacks_ok s t ev :
  callbacks_ok (rr_cbs s) →
  run_callbacks t ev s
  = Ok () (set_rr_trace (rr_trace s ++ [ev (cb_calls (rr_cbs s) t)]) s).
Proof.
  intros (xss & Hc). unfold run_callbacks, cb_calls.
  destruct (lookup_lt_is_Some_2 xss (cb_idx t)) as [xs Hx].
  { rewrite (rep_last _ _ Hc). by destruct t; apply Nat.ltb_lt. }
  rewrite (run_callbacks_rep _ _ _ _ Hc Hx).
  erewrite bind_Ok by (apply on_cbs_ok; by eapply run_callbacks_rep). by destruct s.
Qed.

Lemma buf_bytes_ok brk data s : buf_bytes (HBuf brk data) (zlen data) s = Ok data s.
Proof.
  unfold buf_bytes, zlen. simpl. by rewrite Z.leb_refl, Nat2Z.id, take_ge by lia.
Qed.

Lemma replay_call_ok brk k s :
  callbacks_ok (rr_cbs s) → call_maps (rr_trace s) k →
  replay_call (load_call brk k) s
  = Ok () (set_rr_trace (rr_trace s ++ [call_event (rr_cbs s) (rr_trace s) k]) s).
Proof.
  intros Hc Hm. destruct k; simpl in *; try by apply run_callbacks_ok.
  - by rewrite (bind_Ok _ _ _ _ _ (buf_bytes_ok _ _ _)).
  - done.
  - destruct Hm as (plen & Hp & Hl). rewrite bind_gets, Hp, bind_nonnull.
    rewrite (proj2 (Z.leb_le _ _)) by done. erewrite bind_Ok by done.
    by rewrite (bind_Ok _ _ _ _ _ (buf_bytes_ok _ _ _)).
Qed.

(** Only the log, the queue, the countdown and the trace differ. *)
Definition rr_frame_tr (s s' : rr_state) (tr : list rr_event) : Prop :=
  rr_frame (set_rr_trace tr s) s'.

Lemma rr_frame_tr_of s s' : rr_frame s s' → rr_frame_tr s s' (rr_trace s).
Proof. intros (l & q & n & ->). exists l, q, n. by destruct s. Qed.

Lemma rr_frame_tr_trans s1 s2 s3 tr : rr_frame s1 s2 → rr_frame_tr s2 s3 tr → rr_frame_tr s1 s3 tr.
Proof. intros (? & ? & ? & ->) (l & q & n & ->). by exists l, q, n. Qed.

Lemma rr_frame_tr_set s1 s2 tr tr' : rr_frame_tr (set_rr_trace tr' s1) s2 tr → rr_frame_tr s1 s2 tr.
Proof. done. Qed.

Lemma rr_frame_cbs s s' : rr_frame s s' → rr_cbs s' = rr_cbs s.
Proof. by intros (? & ? & ? & ->). Qed.
Lemma rr_frame_trace s s' : rr_frame s s' → rr_trace s' = rr_trace s.
Proof. by intros (? & ? & ? & ->). Qed.

Lemma holding_trace s p i qi fi tr : holding s p i qi fi → holding (set_rr_trace tr s) p i qi fi.
Proof.
  intros (l & f & qs & rs & e & Hl & Hm & Hq & Hb & Hf & Hd & He).
  exists l, f, qs, rs, e. split; [by destruct Hl|]. by split_and!.
Qed.

(** After a call of the main loop was replayed, an empty queue is refilled. *)
Lemma main_loop_refill_ok s qi fi (c : bool) :
  replays s qi fi → seg qi → countdown_ok s qi →
  ∃ s', (hd ← gets (λ s, rr_queue_head (rr_q s));
         if bool_decide (hd = None) && c then rr_fill_queue else mret ()) s = Ok () s' ∧
    replay_inv s' (qi ++ fi) ∧ rr_frame s s'.
Proof.
  intros Hr Hs Hc. rewrite bind_gets. destruct (bool_decide _ && c) eqn:E.
  - apply andb_prop in E as [E%bool_decide_eq_true _].
    destruct qi as [|i qi]; [|destruct (peek_ok _ _ _ _ Hr) as (? & ? & ? & _); congruence].
    destruct (fill_queue_ok _ _ Hr) as (s' & qi' & fi' & Hfill & Hr' & -> & ? & ? & Hf & _).
    exists s'. split; [done|]. split; [by exists qi', fi'|done].
  - exists s. split; [done|]. split; [by exists qi, fi|apply rr_frame_refl].
Qed.

Lemma skipped_calls_S fuel cs :
  skipped_calls_loop (S fuel) cs =
    (r ← get_next_entry RR_SKIPPED_CALL cs false;
     match r with
     | None => mret ()
     | Some p =>
         e ← entry_at p; args ← nonnull (call_of (variant e)); replay_call args;;
         on_q (add_to_recycle_list p);;
         (hd ← gets (λ s, rr_queue_head (rr_q s));
          (if bool_decide (hd = None) && (cs =? callsite_Z RR_CALLSITE_MAIN_LOOP_WAIT)
           then rr_fill_queue else mret ());;
          skipped_calls_loop fuel cs)
     end).
Proof. done. Qed.

Lemma skipped_calls_stop fuel cs s pend :
  replay_inv s pend → not_past (rr_prog_point s) pend →
  (take_calls (rr_prog_point s) pend).1 = [] →
  ∃ s', skipped_calls_loop fuel cs s = Ok () s' ∧ replay_inv s' pend ∧ rr_frame s s'.
Proof.
  intros Hi Hn Ht.
  assert (∃ s', get_next_entry RR_SKIPPED_CALL cs false s = Ok None s' ∧
    replay_inv s' pend ∧ rr_frame s s') as (s' & Hg & Hi' & Hf).
  { destruct pend as [|i rest]; [by apply get_next_nil|].
    pose proof (get_next_cons s i rest RR_SKIPPED_CALL cs false Hi) as Hg. cbv zeta in Hg.
    rewrite (Hn i eq_refl), andb_false_r in Hg. destruct (wanted _ _ _ i && _) eqn:Ew.
    - apply andb_prop in Ew as [[Hk%bool_decide_eq_true _]%andb_prop Hpp].
      destruct i as [pp cs' []]; try done. simpl in *. rewrite Hpp in Ht.
      by destruct (take_calls _ rest).
    - destruct Hg as (s' & ? & ? & ? & _); [by intros []|]. by exists s'. }
  exists s'. split; [|done]. destruct fuel; cbn [skipped_calls_loop];
    by rewrite (bind_Ok _ _ _ _ _ Hg).
Qed.

Lemma skipped_calls_ok fuel cs : ∀ s pend,
  replay_inv s pend → (length pend ≤ fuel)%nat → callbacks_ok (rr_cbs s) →
  let '(ks, r) := take_calls (rr_prog_point s) pend in
  calls_map (rr_cbs s) (rr_trace s) ks → not_past (rr_prog_point s) r →
  ∃ s', skipped_calls_loop fuel cs s = Ok () s' ∧ replay_inv s' r ∧
    rr_frame_tr s s' (call_events (rr_cbs s) (rr_trace s) ks).
Proof.
  induction fuel as [|fuel IH]; intros s pend Hi Hlen Hcb;
    destruct (take_calls _ pend) as [ks r] eqn:Et; intros Hmap Hn.
  { destruct pend; [|simpl in Hlen; lia]. simplify_eq/=.
    destruct (skipped_calls_stop 0 cs s [] Hi) as (s' & ? & ? & ?); [done..|].
    exists s'. by split_and!. }
  destruct ks as [|k ks].
  { assert (r = pend) as ->.
    { destruct pend as [|[pp c []] rest]; simplify_eq/=; try done. repeat case_match; by simplify_eq. }
    destruct (skipped_calls_stop (S fuel) cs s pend Hi) as (s' & ? & ? & ?); [done|by rewrite Et|].
    exists s'. by split_and!. }
  destruct pend as [|[pp c []] rest]; simpl in Et; simplify_eq.
  destruct (pp_here (rr_prog_point s) pp) eqn:Hpp; [|done].
  destruct (take_calls (rr_prog_point s) rest) as [ks' r'] eqn:Et'. simplify_eq.
  destruct Hmap as [Hk Hmap].
  pose proof (get_next_cons s _ _ RR_SKIPPED_CALL cs false Hi) as Hg. cbv zeta in Hg.
  unfold wanted in Hg. simpl in Hg. rewrite Hpp in Hg.
  destruct Hg as (p & s1 & qi & fi & Hg & Hh & -> & Hs & Hc & Hf); [by intros []|].
  rewrite skipped_calls_S, (bind_Ok _ _ _ _ _ Hg).
  destruct (entry_at_ok _ _ _ _ _ Hh) as (e & He & Hld).
  rewrite (bind_Ok _ _ _ _ _ He). destruct Hld as (brk & _ & ->). simpl variant. simpl call_of.
  rewrite bind_nonnull. erewrite bind_Ok.
  2: { apply replay_call_ok; [by rewrite (rr_frame_cbs _ _ Hf)|by rewrite (rr_frame_trace _ _ Hf)]. }
  rewrite (rr_frame_cbs _ _ Hf), (rr_frame_trace _ _ Hf).
  set (tr1 := rr_trace s ++ [call_event (rr_cbs s) (rr_trace s) k]).
  destruct (recycle_inv (set_rr_trace tr1 s1) p (mkItem pp c (LCall k)) qi fi) as (s2 & Hr2 & _ & [Hrep2 Hcd2] & Hf2);
    [by apply holding_trace|done|by apply Hc|].
  rewrite (bind_Ok _ _ _ _ _ Hr2), <-bind_assoc.
  destruct Hs as [_ Hs].
  destruct (main_loop_refill_ok s2 qi fi (cs =? callsite_Z RR_CALLSITE_MAIN_LOOP_WAIT))
    as (s3 & Hf3 & Hi3 & Hfr3); [done|done|done|].
  rewrite (bind_Ok _ _ _ _ _ Hf3).
  pose proof (rr_frame_trans _ _ _ Hf2 Hfr3) as Hf13.
  specialize (IH s3 (qi ++ fi) Hi3). simpl in Hlen.
  rewrite (rr_frame_pp _ _ Hf13), (rr_frame_cbs _ _ Hf13), (rr_frame_trace _ _ Hf13) in IH.
  simpl in IH. rewrite (rr_frame_pp _ _ Hf), (rr_frame_cbs _ _ Hf), Et' in IH.
  destruct IH as (s' & Hloop & Hi' & Hfr'); [lia|done..|].
  exists s'. split; [done|]. split; [done|]. cbn [call_events]. fold tr1.
  destruct Hf as (? & ? & ? & ->), Hf13 as (? & ? & ? & ->), Hfr' as (l' & q' & n' & ->).
  by exists l', q', n'.
Qed.

(** The bound of the loop is never reached. *)
Lemma pend_fuel s pend :
  replay_inv s pend → (length pend ≤ heap_fuel s + log_bytes_left s)%nat.
Proof.
  intros (qi & fi & -> & (l & f & qs & rs & Hl & Hm & Hq & Hb & Hf) & _).
  rewrite length_app. apply Nat.add_le_mono.
  - rewrite <-(Forall2_length _ _ _ Hf), length_fmap. unfold heap_fuel.
    eapply chain_size; [apply Hq|]. pose proof (qr_nodup _ _ _ Hq) as Hnd.
    by apply NoDup_app in Hnd as [? _].
  - unfold log_bytes_left. rewrite (la_log _ _ _ _ Hl). simpl.
    rewrite (la_fp _ _ _ _ Hl), (la_rest _ _ _ _ Hl). clear.
    induction fi as [|i fi IH]; [simpl; lia|]. pose proof (item_bytes_pos i) as Hp.
    rewrite fmap_cons. change (concat (?a :: ?b)) with (a ++ concat b).
    rewrite length_app. unfold zlen in Hp. simpl. lia.
Qed.

Lemma replay_calls_ok cs s pend :
  replay_inv s pend → callbacks_ok (rr_cbs s) →
  let '(ks, r) := take_calls (rr_prog_point s) pend in
  calls_map (rr_cbs s) (rr_trace s) ks → not_past (rr_prog_point s) r →
  ∃ s', rr_replay_skipped_calls_internal cs s = Ok () s' ∧ replay_inv s' r ∧
    rr_frame_tr s s' (call_events (rr_cbs s) (rr_trace s) ks).
Proof.
  intros Hi Hc. unfold rr_replay_skipped_calls_internal. rewrite bind_gets.
  apply skipped_calls_ok; [done|by apply pend_fuel|done].
Qed.

End Inv.
