(* ===== verification/RRRecord.v ===== *)
(** * Recording, and the routines that act by mode

    The [rr_record_*] functions of [rr_log.c], the wrappers of [rr_log_all.h]
    and [rr_log.h] that record, replay or do nothing depending on [rr_mode], and
    the macro [RR_DO_RECORD_OR_REPLAY]. A wrapper that updates [*val] takes the
    value and returns the new one. *)

From S2P Require Import Prelude CFile RRTypes PandaCallbacks RRState RRQueue RRFormat RRReplay.
From S2P Require Import RRReplayInv.
Local Open Scope Z_scope.

Section Record.
Context `{TargetPhys} `{Machine}.

(** The part the [rr_record_*] functions share: clear [current_item], fill its
    header and variant, write it. *)
Definition record_item (call_site : Z) (v : RR_variant) : RR () :=
  pp ← gets rr_prog_point;
  upd_log (set_current_item (mkEntry pp (wrap 8 call_site) v));;
  rr_write_item.

Definition rr_record_debug (call_site : Z) : RR () := record_item call_site VDebug.
Definition rr_record_input_1 (call_site data : Z) : RR () := record_item call_site (VInput1 data).
Definition rr_record_input_2 (call_site data : Z) : RR () := record_item call_site (VInput2 data).
Definition rr_record_input_4 (call_site data : Z) : RR () := record_item call_site (VInput4 data).
Definition rr_record_input_8 (call_site data : Z) : RR () := record_item call_site (VInput8 data).

(** Zero requests are not recorded; the entry has room for 16 bits. *)
Definition rr_record_interrupt_request (call_site interrupt_request : Z) : RR () :=
  if negb (interrupt_request =? 0)
  then record_item call_site (VInterrupt (wrap 16 interrupt_request)) else mret ().
Definition rr_record_exit_request (call_site exit_request : Z) : RR () :=
  if negb (exit_request =? 0)
  then record_item call_site (VExit (wrap 16 exit_request)) else mret ().

(** [len] and [size] are [int] parameters stored in [uint32_t] fields. *)
Definition rr_record_cpu_mem_rw_call (call_site addr : Z) (buf : host_buf) (len : Z) : RR () :=
  record_item call_site (VCall (ArgsMemRw (mkMemRw addr buf (wrap 32 len)))).
Definition rr_record_cpu_mem_unmap (call_site addr : Z) (buf : host_buf) (len : Z) : RR () :=
  record_item call_site (VCall (ArgsUnmap (mkUnmap addr buf len))).
Definition rr_record_cpu_reg_io_mem_region (call_site start_addr size phys_offset : Z) : RR () :=
  record_item call_site (VCall (ArgsRegion (mkRegion start_addr size phys_offset))).
Definition rr_record_hd_transfer (call_site type src_addr dest_addr num_bytes : Z) : RR () :=
  record_item call_site (VCall (ArgsHd (mkHd type src_addr dest_addr num_bytes))).
Definition rr_record_net_transfer (call_site type src_addr dest_addr num_bytes : Z) : RR () :=
  record_item call_site (VCall (ArgsNet (mkNet type src_addr dest_addr num_bytes))).
Definition rr_record_handle_packet_call (call_site : Z) (buf : host_buf) (size direction : Z)
    : RR () :=
  record_item call_site (VCall (ArgsPacket (mkPacket buf (wrap 32 size) direction) 0)).

Definition rr_record_end_of_log : RR () :=
  record_item (callsite_Z RR_CALLSITE_LAST) VLast.

(** ** Wrappers for the current call site *)

Definition rr_cpu_physical_memory_unmap_record (addr : Z) (buf : host_buf) (len : Z) : RR () :=
  cs ← gets rr_skipped_callsite_location; rr_record_cpu_mem_unmap cs addr buf len.
Definition rr_device_mem_rw_call_record (addr : Z) (buf : host_buf) (len : Z) : RR () :=
  cs ← gets rr_skipped_callsite_location; rr_record_cpu_mem_rw_call cs addr buf len.
Definition rr_reg_mem_call_record (start_addr size phys_offset : Z) : RR () :=
  cs ← gets rr_skipped_callsite_location;
  rr_record_cpu_reg_io_mem_region cs start_addr size phys_offset.

(** [switch (rr_mode)]: record the value, replace it, or leave it. *)
Definition by_mode (record : Z → Z → RR ()) (replay : Z → RR Z) (v : Z) : RR Z :=
  m ← gets rr_mode; cs ← gets rr_skipped_callsite_location;
  match m with
  | RR_RECORD => record cs v;; mret v
  | RR_REPLAY => replay cs
  | RR_OFF => mret v
  end.

(** [int *] and [uint32_t *] point to the same 32 bits. *)
Definition rr_interrupt_request : Z → RR Z :=
  by_mode rr_record_interrupt_request rr_replay_interrupt_request.
Definition rr_exit_request : Z → RR Z :=
  by_mode rr_record_exit_request rr_replay_exit_request.
Definition rr_input_1 : Z → RR Z := by_mode rr_record_input_1 rr_replay_input_1.
Definition rr_input_2 : Z → RR Z := by_mode rr_record_input_2 rr_replay_input_2.
Definition rr_input_4 : Z → RR Z := by_mode rr_record_input_4 rr_replay_input_4.
Definition rr_input_8 : Z → RR Z := by_mode rr_record_input_8 rr_replay_input_8.

Definition rr_debug : RR () :=
  m ← gets rr_mode; cs ← gets rr_skipped_callsite_location;
  match m with
  | RR_RECORD => rr_record_debug cs
  | RR_REPLAY => rr_replay_debug cs
  | RR_OFF => mret ()
  end.

Definition rr_replay_skipped_calls : RR () :=
  cs ← gets rr_skipped_callsite_location; rr_replay_skipped_calls_internal cs.

(** [RR_DO_RECORD_OR_REPLAY(ACTION, RECORD_ACTION, REPLAY_ACTION, LOCATION)],
    for an action that computes a value. *)
Definition RR_DO_RECORD_OR_REPLAY {A} (action : RR A) (record_action : A → RR ())
    (replay_action : RR A) (location : Z) : RR A :=
  m ← gets rr_mode;
  match m with
  | RR_RECORD =>
      nested ← gets rr_record_in_progress;
      if (nested : bool) then action else
      modify (set_rr_record_in_progress true);;
      modify (set_rr_skipped_callsite_location location);;
      rr_set_program_point;;
      a ← action;
      record_action a;;
      modify (set_rr_record_in_progress false);;
      mret a
  | RR_REPLAY =>
      modify (set_rr_skipped_callsite_location location);;
      rr_set_program_point;;
      rr_replay_skipped_calls;;
      replay_action
  | RR_OFF => action
  end.

(** ** Lemmas *)

#[local] Opaque item_bytes.

(** The item a [rr_record_*] call appends. *)
Definition recorded_item (s : rr_state) (cs : Z) (v : RR_variant) : log_item :=
  mkItem (rr_prog_point s) (wrap 8 cs) (body_of_variant v).

(** The state after an item was recorded: [current_item] aside, the file and
    the descriptor are those of [item_appended]. *)
Definition recorded (s : rr_state) (l : RR_log) (f : FILE) (cs : Z) (v : RR_variant) : rr_state :=
  let l' := set_current_item (mkEntry (rr_prog_point s) (wrap 8 cs) v) l in
  item_appended (set_rr_nondet_log (Some l') s) l' f (recorded_item s cs v).

Lemma record_item_ok s l f cs v :
  recording s l f → variant_ok v → record_item cs v s = Ok () (recorded s l f cs v).
Proof.
  intros [Hm Hl Hf Hfile Hend] Hok. unfold record_item. rewrite bind_gets.
  erewrite bind_Ok by (by apply upd_log_ok). unfold recorded.
  apply write_item_ok; [by split|done].
Qed.

(** Recording goes on: the file was extended by the item's bytes. *)
Lemma recorded_recording s l f cs v :
  recording s l f → let s' := recorded s l f cs v in
  ∃ l' f', recording s' l' f' ∧ log_type l' = log_type l ∧ log_name l' = log_name l ∧
    f_name f' = f_name f ∧ last_prog_point l' = rr_prog_point s ∧
    h_data (rr_host s') (f_name f) = h_data (rr_host s) (f_name f)
      ++ item_bytes (recorded_item s cs v).
Proof.
  intros [Hm Hl Hf Hfile Hend] s'. do 2 eexists. split.
  { split; [done|reflexivity|reflexivity| |]; simpl.
    - rewrite lookup_insert_eq. eauto.
    - rewrite h_data_append, length_app. lia. }
  split_and!; try done. simpl. by rewrite h_data_append.
Qed.

End Record.
