(* ===== verification/RRMonitor.v ===== *)
(** * Sessions: the monitor commands and the main loop

    The commands set request flags; the main loop starts and ends sessions.
    File names follow [dirname] and [basename] of the C library. *)

From S2P Require Import Prelude CFile RRTypes PandaCallbacks RRState RRQueue RRFormat RRReplay.
From S2P Require Import RRReplayInv RRRecord CString.
Local Open Scope Z_scope.

(** ** Paths *)

(** [snprintf] into a buffer of 1024 bytes. *)
Definition NAME_BUF : nat := 1024.
Definition snprintf_name (s : string) : string := String.substring 0 (NAME_BUF - 1) s.

Definition rr_get_snapshot_file_name (rr_name rr_path : string) : string :=
  snprintf_name (rr_path +:+ "/" +:+ rr_name +:+ "-rr-snp").
Definition rr_get_nondet_log_file_name (rr_name rr_path : string) : string :=
  snprintf_name (rr_path +:+ "/" +:+ rr_name +:+ "-rr-nondet.log").

Definition log_path (name : option string) : string :=
  rr_get_nondet_log_file_name (basename name) (dirname name).
Definition snapshot_path (name : option string) : string :=
  rr_get_snapshot_file_name (basename name) (dirname name).

Section Monitor.
Context `{TargetPhys} `{Machine}.

(** ** Sessions *)

Definition upd_req (f : rr_requests → rr_requests) : RR () :=
  modify (λ s, set_rr_req (f (rr_req s)) s).

Definition rr_clear_rr_guest_instr_count : RR () :=
  modify (λ s, set_first_cpu (mkCpu (eip (first_cpu s)) (ecx (first_cpu s)) 0) s).

Definition rr_reset_state : RR () :=
  modify (set_rr_prog_point pp_zero);;
  modify (set_rr_please_flush_tb true);;
  modify (set_rr_record_in_progress false);;
  modify (set_rr_skipped_callsite_location 0);;
  rr_clear_rr_guest_instr_count.

Definition rr_do_begin_record (file_name_full : option string) : RR () :=
  k ← gets (λ s, rr_record_requested (rr_req s));
  (if k =? 2 then
     n ← gets (λ s, rr_snapshot_name (rr_req s)); n ← nonnull n;
     emit (EvLoadVM n);; upd_req (set_rr_snapshot_name None)
   else mret ());;
  (if (k =? 1) || (k =? 2) then emit (EvSaveVM (snapshot_path file_name_full)) else mret ());;
  rr_create_record_log (log_path file_name_full);;
  rr_reset_state;;
  modify (set_rr_mode RR_RECORD).

Definition rr_do_end_record : RR () :=
  rr_record_end_of_log;;
  rr_destroy_log;;
  modify (set_rr_mode RR_OFF).

Definition rr_do_begin_replay (file_name_full : option string) : RR () :=
  run_callbacks PANDA_CB_BEFORE_REPLAY_LOADVM EvBeforeLoadvm;;
  emit (EvLoadVMRR (snapshot_path file_name_full));;
  rr_create_replay_log (log_path file_name_full);;
  rr_reset_state;;
  modify (set_rr_mode RR_REPLAY);;
  rr_fill_queue.

(** ** Monitor commands *)

Definition qmp_begin_record (file_name : option string) : RR () :=
  upd_req (λ r, set_rr_requested_name file_name (set_rr_record_requested 1 r)).
Definition qmp_begin_record_from (snapshot file_name : option string) : RR () :=
  upd_req (λ r, set_rr_requested_name file_name
                  (set_rr_snapshot_name snapshot (set_rr_record_requested 2 r))).
Definition qmp_begin_replay (file_name : option string) : RR () :=
  upd_req (λ r, set_rr_requested_name file_name (set_rr_replay_requested 1 r)).
Definition qmp_end_record : RR () := emit EvQmpStop;; upd_req (set_rr_end_record_requested 1).
Definition qmp_end_replay : RR () := emit EvQmpStop;; upd_req (set_rr_end_replay_requested 1).
Definition panda_end_replay : RR () := upd_req (set_rr_end_replay_requested 1).

(** [hmp_*]: the arguments come from the command's dictionary, null when
    absent. *)
Definition qdict := gmap string string.
Definition qdict_get_try_str (d : qdict) (key : string) : option string := d !! key.
Definition hmp_begin_record (d : qdict) : RR () :=
  qmp_begin_record (qdict_get_try_str d "file_name").
Definition hmp_begin_record_from (d : qdict) : RR () :=
  qmp_begin_record_from (qdict_get_try_str d "snapshot") (qdict_get_try_str d "file_name").
Definition hmp_begin_replay (d : qdict) : RR () :=
  qmp_begin_replay (qdict_get_try_str d "file_name").
Definition hmp_end_record : RR () := qmp_end_record.
Definition hmp_end_replay : RR () := qmp_end_replay.

(** ** The main loop

    One iteration of [main_loop] in [vl.c], after [main_loop_wait]: the four
    requests in this order. *)
Definition handle_record_request : RR () :=
  rq ← gets rr_req;
  if negb (rr_record_requested rq =? 0) then
    rr_do_begin_record (rr_requested_name rq);; upd_req (set_rr_record_requested 0)
  else mret ().

Definition handle_replay_request : RR () :=
  rq ← gets rr_req;
  if negb (rr_replay_requested rq =? 0) then
    rr_do_begin_replay (rr_requested_name rq);; emit EvQuitTimers;;
    upd_req (set_rr_replay_requested 0)
  else mret ().

Definition handle_end_record : RR () :=
  rq ← gets rr_req; r ← gets rr_in_record;
  if negb (rr_end_record_requested rq =? 0) && r then
    rr_do_end_record;; rr_reset_state;; upd_req (set_rr_end_record_requested 0);;
    emit EvVmStart
  else mret ().

Definition handle_end_replay : RR () :=
  rq ← gets rr_req; r ← gets rr_in_replay;
  if negb (rr_end_replay_requested rq =? 0) && r then
    emit EvInitTimerAlarm;; rr_do_end_replay false;;
    upd_req (set_rr_end_replay_requested 0);; emit EvVmStop
  else mret ().

Definition main_loop_requests : RR () :=
  handle_record_request;; handle_replay_request;; handle_end_record;; handle_end_replay.

(** A request that is not pending is passed over. *)
Lemma no_record_request s : rr_record_requested (rr_req s) = 0 → handle_record_request s = Ok () s.
Proof. intros E. unfold handle_record_request. by rewrite bind_gets, E. Qed.
Lemma no_replay_request s : rr_replay_requested (rr_req s) = 0 → handle_replay_request s = Ok () s.
Proof. intros E. unfold handle_replay_request. by rewrite bind_gets, E. Qed.
Lemma no_end_record s : rr_end_record_requested (rr_req s) = 0 → handle_end_record s = Ok () s.
Proof. intros E. unfold handle_end_record. by rewrite !bind_gets, E. Qed.
Lemma no_end_replay s : rr_end_replay_requested (rr_req s) = 0 → handle_end_replay s = Ok () s.
Proof. intros E. unfold handle_end_replay. by rewrite !bind_gets, E. Qed.

End Monitor.

(** The names follow the path that was given. *)
Example log_path_relative : log_path (Some "foo") = "./foo-rr-nondet.log".
Proof. reflexivity. Qed.
Example log_path_absolute : log_path (Some "/tmp/rec/foo") = "/tmp/rec/foo-rr-nondet.log".
Proof. reflexivity. Qed.
