(* ===== verification/RRSession.v ===== *)
(** * A whole session: what was recorded is what is replayed

    The guest is deterministic: what it does next depends only on the values it
    was given. Devices are not: while recording they answer with any value and
    make any memory accesses. The steps below are the points at which the two
    meet, each the code of the emulator that runs in both modes. *)

From S2P Require Import Prelude CFile RRTypes PandaCallbacks RRState RRQueue RRFormat RRReplay.
From S2P Require Import RRReplayInv RRRecord RRMonitor.
Local Open Scope Z_scope.

Section Session.
Context `{TargetPhys} `{Machine}.

(** ** Devices *)

(** What a device does to the machine while the guest waits, with the call site
    the device passes where it does not use the current one. *)
Inductive device_call :=
| DMemRw (addr : Z) (buf : host_buf) (len : Z)
| DUnmap (addr : Z) (buf : host_buf) (len : Z)
| DRegion (start_addr size phys_offset : Z)
| DHd (call_site type src dest num_bytes : Z)
| DNet (call_site type src dest num_bytes : Z)
| DPacket (call_site : Z) (buf : host_buf) (size direction : Z).

(** The recording hooks of the devices: DMA in [cpu_physical_memory_rw_ex], *)
Definition hook_mem_rw (addr : Z) (buf : host_buf) (len : Z) : RR () :=
  r ← gets rr_in_record; p ← gets rr_record_in_progress;
  if r && p then rr_device_mem_rw_call_record addr buf len else mret ().
(** the end of a mapping in [cpu_physical_memory_unmap], *)
Definition hook_unmap (addr : Z) (buf : host_buf) (len : Z) : RR () :=
  r ← gets rr_in_record; p ← gets rr_record_in_progress;
  if r && p then rr_cpu_physical_memory_unmap_record addr buf len else mret ().
(** a new region in [cpu_register_physical_memory_log], *)
Definition hook_region (start_addr size phys_offset : Z) : RR () :=
  r ← gets rr_in_record; p ← gets rr_record_in_progress;
  if r && p then rr_reg_mem_call_record start_addr size phys_offset else mret ().
(** and the transfers that plugins follow, in [hw/ide/core.c] (of a drive that is not a
    CD) and [hw/e1000.c]. *)
Definition hook_hd (call_site type src dest num_bytes : Z) : RR () :=
  r ← gets rr_in_record;
  if (r : bool) then rr_record_hd_transfer call_site type src dest num_bytes else mret ().
Definition hook_net (call_site type src dest num_bytes : Z) : RR () :=
  r ← gets rr_in_record;
  if (r : bool) then rr_record_net_transfer call_site type src dest num_bytes else mret ().
Definition hook_packet (call_site : Z) (buf : host_buf) (size direction : Z) : RR () :=
  r ← gets rr_in_record;
  if (r : bool) then rr_record_handle_packet_call call_site buf size direction else mret ().

Definition do_device (d : device_call) : RR () :=
  match d with
  | DMemRw addr buf len => hook_mem_rw addr buf len
  | DUnmap addr buf len => hook_unmap addr buf len
  | DRegion a n o => hook_region a n o
  | DHd cs t a b n => hook_hd cs t a b n
  | DNet cs t a b n => hook_net cs t a b n
  | DPacket cs buf n dir => hook_packet cs buf n dir
  end.

Fixpoint do_devices (ds : list device_call) : RR () :=
  match ds with [] => mret () | d :: ds' => do_device d;; do_devices ds' end.

(** The devices' part of [main_loop_wait]. *)
Definition main_loop_wait_devices (devices : RR ()) : RR () :=
  r ← gets rr_in_record;
  (if (r : bool) then
     modify (set_rr_record_in_progress true);;
     modify (set_rr_skipped_callsite_location (callsite_Z RR_CALLSITE_MAIN_LOOP_WAIT));;
     rr_set_program_point
   else mret ());;
  p ← gets rr_in_replay;
  (if (p : bool) then mret () else devices);;
  r ← gets rr_in_record;
  if (r : bool) then modify (set_rr_record_in_progress false) else mret ().

(** ** The CPU loop *)

(** The head of the inner loop of [cpu_exec]: calls of the I/O thread are
    replayed, then the interrupt request [v] is recorded or replaced. *)
Definition cpu_exec_poll (v : Z) : RR Z :=
  p ← gets rr_in_replay;
  (if (p : bool) then
     modify (set_rr_skipped_callsite_location (callsite_Z RR_CALLSITE_MAIN_LOOP_WAIT));;
     rr_set_program_point;;
     rr_replay_skipped_calls
   else mret ());;
  rr_set_program_point;;
  modify (set_rr_skipped_callsite_location (callsite_Z RR_CALLSITE_CPU_EXEC_1));;
  rr_interrupt_request v.

(** After an interrupt was handled, the request is looked at again. *)
Definition cpu_exec_poll_again (v : Z) : RR Z :=
  rr_set_program_point;;
  modify (set_rr_skipped_callsite_location (callsite_Z RR_CALLSITE_CPU_EXEC_4));;
  rr_interrupt_request v.

(** The end of a replay is noticed in the CPU loop. *)
Definition cpu_exec_check_finished : RR bool :=
  m ← gets rr_mode;
  if decide (m = RR_REPLAY) then
    b ← rr_replay_finished;
    (if (b : bool) then upd_req (set_rr_end_replay_requested 1) else mret ());; mret b
  else mret false.

(** ** Steps of the guest *)

Definition rr_input (n : input_size) : Z → RR Z :=
  match n with In1 => rr_input_1 | In2 => rr_input_2 | In4 => rr_input_4 | In8 => rr_input_8 end.

(** Reading an input under [RR_DO_RECORD_OR_REPLAY], an access to a device that
    returns nothing, and the two places interrupts are polled. *)
Inductive guest_act :=
| GInput (n : input_size) (loc : RR_callsite_id)
| GDevice (loc : RR_callsite_id)
| GPoll
| GPollAgain.

Record guest_step := mkStep { st_cpu : cpu_env; st_act : guest_act }.

(** What the outside world does at a step. *)
Record world := mkWorld { w_calls : list device_call; w_value : Z }.

Definition run_step (st : guest_step) (w : world) : RR Z :=
  modify (set_first_cpu (st_cpu st));;
  match st_act st with
  | GInput n loc =>
      RR_DO_RECORD_OR_REPLAY (do_devices (w_calls w);; mret (w_value w))
        (λ v, rr_input n v;; mret ()) (rr_input n 0) (callsite_Z loc)
  | GDevice loc =>
      RR_DO_RECORD_OR_REPLAY (do_devices (w_calls w);; mret 0) (λ _, mret ()) (mret 0)
        (callsite_Z loc)
  | GPoll => main_loop_wait_devices (do_devices (w_calls w));; cpu_exec_poll (w_value w)
  | GPollAgain => cpu_exec_poll_again (w_value w)
  end.

(** The guest decides its next step from the values it got. *)
Definition guest := list Z → option guest_step.

(** Run the guest while the world goes on; returns the values it got. *)
Fixpoint run_guest (g : guest) (hist : list Z) (ws : list world) : RR (list Z) :=
  match ws with
  | [] => mret hist
  | w :: ws' =>
      match g hist with
      | None => mret hist
      | Some st => v ← run_step st w; run_guest g (hist ++ [v]) ws'
      end
  end.

(** ** What a step puts in the log *)

Definition pp_of (c : cpu_env) : RR_prog_point := mkPP (eip c) (ecx c) (rr_guest_instr_count c).

Definition dev_callsite (loc : Z) (d : device_call) : Z :=
  match d with
  | DHd cs _ _ _ _ | DNet cs _ _ _ _ | DPacket cs _ _ _ => cs
  | _ => loc
  end.

Definition dev_args (d : device_call) : RR_skipped_call_args :=
  match d with
  | DMemRw a b n => ArgsMemRw (mkMemRw a b (wrap 32 n))
  | DUnmap a b n => ArgsUnmap (mkUnmap a b n)
  | DRegion a n o => ArgsRegion (mkRegion a n o)
  | DHd _ t a b n => ArgsHd (mkHd t a b n)
  | DNet _ t a b n => ArgsNet (mkNet t a b n)
  | DPacket _ b n dir => ArgsPacket (mkPacket b (wrap 32 n) dir) 0
  end.

Definition dev_item (pp : RR_prog_point) (loc : Z) (d : device_call) : log_item :=
  mkItem pp (wrap 8 (dev_callsite loc d)) (LCall (item_of_args (dev_args d))).

Definition act_loc (a : guest_act) : Z :=
  match a with
  | GInput _ loc | GDevice loc => callsite_Z loc
  | GPoll | GPollAgain => callsite_Z RR_CALLSITE_MAIN_LOOP_WAIT
  end.

Definition poll_items (pp : RR_prog_point) (cs : RR_callsite_id) (v : Z) : list log_item :=
  if v =? 0 then [] else [mkItem pp (callsite_Z cs) (LInterrupt (wrap 16 v))].

(** The entry for the value of the step, after those of the devices. *)
Definition value_items (st : guest_step) (v : Z) : list log_item :=
  let pp := pp_of (st_cpu st) in
  match st_act st with
  | GInput n loc => [mkItem pp (callsite_Z loc) (input_body n v)]
  | GDevice _ => []
  | GPoll => poll_items pp RR_CALLSITE_CPU_EXEC_1 v
  | GPollAgain => poll_items pp RR_CALLSITE_CPU_EXEC_4 v
  end.

Definition step_calls (st : guest_step) (w : world) : list device_call :=
  match st_act st with GPollAgain => [] | _ => w_calls w end.

Definition step_items (st : guest_step) (w : world) : list log_item :=
  (dev_item (pp_of (st_cpu st)) (act_loc (st_act st)) <$> step_calls st w)
  ++ value_items st (w_value w).

Definition step_value (st : guest_step) (w : world) : Z :=
  match st_act st with GDevice _ => 0 | _ => w_value w end.

(** ** Recording *)

(** The log file [name] holds a header and [items]. *)
Definition rec_inv (s : rr_state) (name : string) (items : list log_item) : Prop :=
  ∃ l f hdr, recording s l f ∧ log_type l = RECORD ∧ f_name f = name ∧
    length hdr = 24%nat ∧ h_data (rr_host s) name = hdr ++ concat (item_bytes <$> items) ∧
    last_prog_point l = default pp_zero (li_pp <$> last items).

Definition rec_frame (s s' : rr_state) : Prop :=
  ∃ l h, s' = set_rr_nondet_log l (set_rr_host h s).

#[local] Opaque item_bytes.

Lemma rec_frame_trans s1 s2 s3 : rec_frame s1 s2 → rec_frame s2 s3 → rec_frame s1 s3.
Proof. intros (? & ? & ->) (l & h & ->). by exists l, h. Qed.

Lemma rec_frame_refl s : rec_frame s s.
Proof. exists (rr_nondet_log s), (rr_host s). by destruct s. Qed.

Lemma record_item_inv s name items cs v :
  rec_inv s name items → variant_ok v →
  ∃ s', record_item cs v s = Ok () s' ∧
    rec_inv s' name (items ++ [mkItem (rr_prog_point s) (wrap 8 cs) (body_of_variant v)]) ∧
    rec_frame s s'.
Proof.
  intros (l & f & hdr & Hr & Ht & Hn & Hh & Hd & Hp) Hv.
  rewrite (record_item_ok _ _ _ _ _ Hr Hv).
  destruct (recorded_recording _ _ _ cs v Hr) as (l' & f' & Hr' & Ht' & _ & Hn' & Hp' & Hd').
  eexists. split; [done|]. split.
  - exists l', f', hdr. split; [done|]. split; [congruence|]. split; [congruence|].
    split; [done|]. split.
    + subst name. rewrite Hd', Hd, fmap_app, concat_app, <-app_assoc. f_equal. f_equal.
      unfold recorded_item. symmetry. apply app_nil_r.
    + rewrite last_snoc. simpl. done.
  - by do 2 eexists.
Qed.

Lemma rec_inv_ext s s' name items :
  rec_inv s name items → rr_mode s' = rr_mode s → rr_nondet_log s' = rr_nondet_log s →
  rr_host s' = rr_host s → rec_inv s' name items.
Proof.
  intros (l & f & hdr & [] & ?) E1 E2 E3. exists l, f, hdr. rewrite E3. split; [|done].
  split; congruence.
Qed.

Definition dev_ok (d : device_call) : Prop := args_ok (dev_args d).

Lemma do_device_inv s name items d :
  rec_inv s name items → rr_record_in_progress s = true → dev_ok d →
  ∃ s', do_device d s = Ok () s' ∧
    rec_inv s' name (items ++ [dev_item (rr_prog_point s) (rr_skipped_callsite_location s) d]) ∧
    rec_frame s s'.
Proof.
  intros Hr Hp Hok.
  destruct (record_item_inv s name items (dev_callsite (rr_skipped_callsite_location s) d)
    (VCall (dev_args d)) Hr Hok) as (s' & Hs' & Hr' & Hf).
  exists s'. split; [|done].
  assert (rr_in_record s = true) as Hm.
  { destruct Hr as (l & f & hdr & [Hm] & _). unfold rr_in_record. by rewrite Hm. }
  destruct d; simpl;
    unfold hook_mem_rw, hook_unmap, hook_region, hook_hd, hook_net, hook_packet;
    rewrite !bind_gets, Hm, ?Hp; done.
Qed.

Lemma do_devices_inv ds : ∀ s name items,
  rec_inv s name items → rr_record_in_progress s = true → Forall dev_ok ds →
  ∃ s', do_devices ds s = Ok () s' ∧
    rec_inv s' name (items ++ (dev_item (rr_prog_point s) (rr_skipped_callsite_location s) <$> ds)) ∧
    rec_frame s s'.
Proof.
  induction ds as [|d ds IH]; intros s name items Hr Hp Hok.
  { exists s. rewrite app_nil_r. split; [done|]. split; [done|apply rec_frame_refl]. }
  apply Forall_cons in Hok as [Hd Hok]. cbn [do_devices].
  destruct (do_device_inv s name items d Hr Hp Hd) as (s1 & H1 & Hr1 & Hf1).
  rewrite (bind_Ok _ _ _ _ _ H1). destruct Hf1 as (l1 & h1 & ->).
  destruct (IH _ name _ Hr1 Hp Hok) as (s2 & H2 & Hr2 & Hf2).
  exists s2. split; [done|]. split.
  - rewrite fmap_cons. by rewrite <-app_assoc in Hr2.
  - eapply rec_frame_trans; [|done]. by do 2 eexists.
Qed.

(** The state of a recording between two steps of the guest. *)
Record rec_state (s : rr_state) (name : string) (items : list log_item) : Prop := {
  rs_inv : rec_inv s name items;
  rs_idle : rr_record_in_progress s = false;
  rs_cpu : cpu_single_env s = true;
}.

(** What recording leaves alone. *)
Definition rec_same (s s' : rr_state) : Prop :=
  rr_q s' = rr_q s ∧ rr_cbs s' = rr_cbs s ∧ rr_trace s' = rr_trace s ∧ rr_req s' = rr_req s.

Lemma rec_inv_mode s name items : rec_inv s name items → rr_mode s = RR_RECORD.
Proof. by intros (l & f & hdr & [] & _). Qed.

(** [rr_set_program_point] while the CPU runs. *)
Lemma set_point_ok s :
  cpu_single_env s = true →
  rr_set_program_point s = Ok ()
    (set_rr_prog_point (pp_of (first_cpu s)) (set_rr_num_instr_before_next_interrupt
      (wrap 64 (rr_num_instr_before_next_interrupt s
         - (rr_guest_instr_count (first_cpu s) - guest_instr_count (rr_prog_point s)))) s)).
Proof. intros Hc. unfold rr_set_program_point. by rewrite !bind_gets, Hc. Qed.

Lemma rr_input_record n v s :
  rr_mode s = RR_RECORD →
  (rr_input n v;; mret ()) s
  = record_item (rr_skipped_callsite_location s)
      (match n with In1 => VInput1 v | In2 => VInput2 v | In4 => VInput4 v | In8 => VInput8 v end) s.
Proof.
  intros Hm. destruct n; simpl;
    unfold rr_input_1, rr_input_2, rr_input_4, rr_input_8, by_mode;
    unfold mbind, M_bind, gets; rewrite Hm;
    unfold rr_record_input_1, rr_record_input_2, rr_record_input_4, rr_record_input_8;
    by destruct (record_item _ _ s) as [[]|].
Qed.

Lemma wrap8_callsite c : wrap 8 (callsite_Z c) = callsite_Z c.
Proof. apply wrap_small, callsite_Z_byte. Qed.

(** Polling for interrupts while recording. *)
Lemma poll_record s name items cs v :
  rec_inv s name items → rr_skipped_callsite_location s = callsite_Z cs →
  ∃ s', rr_interrupt_request v s = Ok v s' ∧
    rec_inv s' name (items ++ poll_items (rr_prog_point s) cs v) ∧ rec_frame s s'.
Proof.
  intros Hr Hcs. unfold rr_interrupt_request, by_mode. rewrite !bind_gets.
  rewrite (rec_inv_mode _ _ _ Hr), Hcs. unfold rr_record_interrupt_request, poll_items.
  destruct (v =? 0); simpl.
  - exists s. rewrite app_nil_r. split; [done|]. split; [done|apply rec_frame_refl].
  - destruct (record_item_inv s name items (callsite_Z cs) (VInterrupt (wrap 16 v)) Hr I)
      as (s' & Hs' & Hr' & Hf).
    rewrite (bind_Ok _ _ _ _ _ Hs'). exists s'. split; [done|].
    by rewrite wrap8_callsite in Hr'.
Qed.

Lemma rec_frame_same s s' : rec_frame s s' → rec_same s s'.
Proof. by intros (? & ? & ->). Qed.

Lemma rec_same_trans s1 s2 s3 : rec_same s1 s2 → rec_same s2 s3 → rec_same s1 s3.
Proof. unfold rec_same. intuition congruence. Qed.

(** The recording side of [RR_DO_RECORD_OR_REPLAY]. *)
Lemma macro_record (ds : list device_call) (v : Z) (ra : Z → RR ()) (pa : RR Z) loc its s name items :
  rec_state s name items → Forall dev_ok ds →
  (∀ s1 items1, rec_inv s1 name items1 → rr_prog_point s1 = pp_of (first_cpu s) →
     rr_skipped_callsite_location s1 = loc →
     ∃ s2, ra v s1 = Ok () s2 ∧ rec_inv s2 name (items1 ++ its) ∧ rec_frame s1 s2) →
  ∃ s', RR_DO_RECORD_OR_REPLAY (do_devices ds;; mret v) ra pa loc s = Ok v s' ∧
    rec_state s' name (items ++ (dev_item (pp_of (first_cpu s)) loc <$> ds) ++ its) ∧ rec_same s s' ∧
    rr_prog_point s' = pp_of (first_cpu s).
Proof.
  intros [Hr Hi Hc] Hds Hra. unfold RR_DO_RECORD_OR_REPLAY. rewrite bind_gets.
  rewrite (rec_inv_mode _ _ _ Hr), bind_gets, Hi, !bind_modify.
  erewrite bind_Ok by (by apply set_point_ok). simpl.
  rewrite bind_assoc.
  match goal with |- context [(do_devices ds ≫= _) ?st] =>
    destruct (do_devices_inv ds st name items) as (s1 & H1 & Hr1 & Hf1);
      [by eapply rec_inv_ext|done|done|] end.
  rewrite (bind_Ok _ _ _ _ _ H1), bind_ret.
  simpl in Hr1. destruct Hf1 as (l1 & h1 & ->).
  destruct (Hra _ _ Hr1) as (s2 & H2 & Hr2 & Hf2); [done..|].
  rewrite (bind_Ok _ _ _ _ _ H2), bind_modify. destruct Hf2 as (l2 & h2 & ->).
  eexists. split; [done|]. split; [|done]. split; [|done|done].
  rewrite <-app_assoc in Hr2. by eapply rec_inv_ext.
Qed.

Lemma main_loop_wait_record ds s name items :
  rec_state s name items → Forall dev_ok ds →
  ∃ s', main_loop_wait_devices (do_devices ds) s = Ok () s' ∧
    rec_state s' name (items ++ (dev_item (pp_of (first_cpu s))
      (callsite_Z RR_CALLSITE_MAIN_LOOP_WAIT) <$> ds)) ∧
    rec_same s s' ∧ first_cpu s' = first_cpu s.
Proof.
  intros [Hr Hi Hc] Hds. pose proof (rec_inv_mode _ _ _ Hr) as Hm.
  unfold main_loop_wait_devices, rr_in_record, rr_in_replay. rewrite bind_gets, Hm.
  rewrite bool_decide_true by done.
  erewrite bind_Ok by (rewrite !bind_modify; by apply set_point_ok).
  rewrite bind_gets. simpl rr_mode. rewrite Hm, bool_decide_false by done.
  match goal with |- context [(do_devices ds ≫= _) ?st] =>
    destruct (do_devices_inv ds st name items) as (s1 & H1 & Hr1 & Hf1);
      [by eapply rec_inv_ext|done|done|] end.
  rewrite (bind_Ok _ _ _ _ _ H1), bind_gets. simpl in Hr1. destruct Hf1 as (l1 & h1 & ->).
  case_bool_decide as Hx; [|by destruct Hx].
  eexists. split; [done|]. split; [|done]. split; [|done|done]. by eapply rec_inv_ext.
Qed.

(** Setting the point and polling, at either of the two places. *)
Lemma poll_at_record s name items cs v :
  rec_state s name items →
  ∃ s', (rr_set_program_point;; modify (set_rr_skipped_callsite_location (callsite_Z cs));;
         rr_interrupt_request v) s = Ok v s' ∧
    rec_state s' name (items ++ poll_items (pp_of (first_cpu s)) cs v) ∧ rec_same s s' ∧
    rr_prog_point s' = pp_of (first_cpu s).
Proof.
  intros [Hr Hi Hc]. rewrite (bind_Ok _ _ _ _ _ (set_point_ok _ Hc)), bind_modify.
  match goal with |- context [rr_interrupt_request v ?st] =>
    destruct (poll_record st name items cs v) as (s1 & H1 & Hr1 & Hf1);
      [by eapply rec_inv_ext|done|] end.
  rewrite H1. destruct Hf1 as (l1 & h1 & ->). eexists. split; [done|]. split; [|done]. by split.
Qed.

Lemma record_step st w s name items :
  rec_state s name items → Forall dev_ok (w_calls w) →
  ∃ s', run_step st w s = Ok (step_value st w) s' ∧
    rec_state s' name (items ++ step_items st w) ∧ rec_same s s' ∧
    rr_prog_point s' = pp_of (st_cpu st).
Proof.
  intros [Hr Hi Hc] Hds. unfold run_step. rewrite bind_modify.
  set (s0 := set_first_cpu (st_cpu st) s).
  assert (Hs0 : rec_state s0 name items) by (by split; [eapply rec_inv_ext|..]).
  unfold step_items, step_value, value_items, step_calls, act_loc.
  destruct (st_act st) as [n loc|loc| |] eqn:Ea.
  - apply (macro_record (w_calls w) (w_value w) _ _ _ _ s0 name items Hs0 Hds).
    intros s1 items1 Hr1 Hp Hl. rewrite rr_input_record by (by eapply rec_inv_mode).
    edestruct (record_item_inv s1 name items1) as (s2 & H2 & Hr2 & Hf2); [done| |].
    2: { exists s2. split; [exact H2|]. split; [|done].
         rewrite Hp, Hl, wrap8_callsite in Hr2. by destruct n. }
    by destruct n.
  - apply (macro_record (w_calls w) 0 _ _ _ _ s0 name items Hs0 Hds).
    intros s1 items1 Hr1 _ _. exists s1. rewrite app_nil_r. split; [done|].
    split; [done|apply rec_frame_refl].
  - destruct (main_loop_wait_record (w_calls w) s0 name items Hs0 Hds)
      as (s1 & H1 & Hr1 & Hs1 & Hcpu).
    rewrite (bind_Ok _ _ _ _ _ H1). unfold cpu_exec_poll, rr_in_replay. rewrite bind_gets.
    rewrite (rec_inv_mode _ _ _ (rs_inv _ _ _ Hr1)), bool_decide_false by done. rewrite bind_ret.
    destruct (poll_at_record s1 name _ RR_CALLSITE_CPU_EXEC_1 (w_value w) Hr1)
      as (s2 & H2 & Hr2 & Hs2 & Hp2).
    exists s2. split; [done|]. rewrite Hcpu, <-app_assoc in Hr2. split; [done|].
    split; [by eapply rec_same_trans|]. by rewrite Hp2, Hcpu.
  - apply (poll_at_record s0 name items RR_CALLSITE_CPU_EXEC_4 (w_value w) Hs0).
Qed.

(** ** Replaying *)

Record rep_state (s : rr_state) (pend : list log_item) : Prop := {
  ps_inv : replay_inv s pend;
  ps_cpu : cpu_single_env s = true;
  ps_cbs : callbacks_ok (rr_cbs s);
}.

Lemma replay_inv_mode s pend : replay_inv s pend → rr_mode s = RR_REPLAY.
Proof. by intros (qi & fi & _ & (l & f & qs & rs & _ & Hm & _) & _). Qed.

Lemma replay_inv_ext s s' pend :
  replay_inv s pend → rr_mode s' = rr_mode s → rr_nondet_log s' = rr_nondet_log s →
  rr_host s' = rr_host s → rr_q s' = rr_q s → rr_prog_point s' = rr_prog_point s →
  rr_num_instr_before_next_interrupt s' = rr_num_instr_before_next_interrupt s →
  replay_inv s' pend.
Proof.
  intros (qi & fi & -> & Hr & Hs & Hc) E1 E2 E3 E4 E5 E6. exists qi, fi.
  split; [done|]. split; [by eapply replays_frame|]. split; [done|].
  intros i Hi Hst. rewrite E5, E6. by apply Hc.
Qed.

(** Moving the program point keeps the countdown right. *)
Lemma replay_inv_point s pend p :
  replay_inv s pend →
  replay_inv (set_rr_prog_point p (set_rr_num_instr_before_next_interrupt
    (wrap 64 (rr_num_instr_before_next_interrupt s
       - (guest_instr_count p - guest_instr_count (rr_prog_point s)))) s)) pend.
Proof.
  intros (qi & fi & -> & Hr & Hs & Hc). exists qi, fi.
  split; [done|]. split; [by eapply replays_frame|]. split; [done|].
  intros i Hi Hst. simpl. rewrite (Hc i Hi Hst), wrap_sub_l. f_equal. lia.
Qed.

Definition dev_call (d : device_call) : log_call := item_of_args (dev_args d).

Lemma pp_here_refl p : pp_here p p = true.
Proof. unfold pp_here. rewrite !Z.eqb_refl. by destruct (bool_decide _). Qed.

(** Device calls of the log are performed at the first opportunity of their
    program point, so a step may find calls of later steps performed already. *)
Definition is_call (i : log_item) : bool := match li_body i with LCall _ => true | _ => false end.
Definition call_in (i : log_item) : option log_call :=
  match li_body i with LCall k => Some k | _ => None end.
Definition item_calls : list log_item → list log_call := omap call_in.

Lemma item_calls_app l1 l2 : item_calls (l1 ++ l2) = item_calls l1 ++ item_calls l2.
Proof. apply omap_app. Qed.

Lemma item_calls_devs pp loc ds : item_calls (dev_item pp loc <$> ds) = dev_call <$> ds.
Proof. induction ds as [|d ds IH]; [done|]. simpl. by f_equal. Qed.

Lemma take_calls_split pp l :
  ∃ cs, l = cs ++ (take_calls pp l).2 ∧ Forall is_call cs ∧ item_calls cs = (take_calls pp l).1.
Proof.
  induction l as [|[p c b] l IH]; [by exists []|]. cbn [take_calls].
  destruct b; try (by exists []). destruct (pp_here pp p); [|by exists []].
  destruct IH as (cs & Hl & Hc & Hk). destruct (take_calls pp l) as [ks r]. simpl in *.
  eexists (_ :: cs). simpl. split; [by f_equal|]. split; [by constructor|].
  unfold item_calls. simpl. by f_equal.
Qed.

(** What is left does not begin with a call of the point. *)
Lemma take_calls_stops pp l i r : (take_calls pp l).2 = i :: r → is_call i → pp_here pp (li_pp i) = false.
Proof.
  induction l as [|[p c b] l IH]; [done|]. cbn [take_calls].
  destruct b; try (intros [= <- <-]; done).
  destruct (pp_here pp p) eqn:E; [destruct (take_calls pp l); exact IH|]. by intros [= <- <-].
Qed.

(** The calls of the step's devices have all been performed once the step has
    replayed what it finds; those of later steps may have been, too. *)
Lemma take_calls_devs pp loc ds tail performed pend :
  (dev_item pp loc <$> ds) ++ tail = performed ++ pend → Forall is_call performed →
  ∃ performed', tail = performed' ++ (take_calls pp pend).2 ∧ Forall is_call performed' ∧
    item_calls pend = (take_calls pp pend).1 ++ item_calls (take_calls pp pend).2.
Proof.
  intros Heq Hp. destruct (take_calls_split pp pend) as (cs & Hpend & Hcs & Hk).
  rewrite Hpend, app_assoc in Heq. pose proof (take_calls_stops pp pend) as Hstop.
  assert (Hcalls : item_calls pend = (take_calls pp pend).1 ++ item_calls (take_calls pp pend).2)
    by (rewrite Hpend at 1; by rewrite item_calls_app, Hk).
  destruct (take_calls pp pend) as [ks r]. simpl in *.
  apply app_eq_inv in Heq as [(k & Hd & Hr)|(k & Hd & Hr)].
  - destruct k as [|i k].
    + exists []. simpl in Hr. subst r. by split_and!.
    + assert (i ∈ dev_item pp loc <$> ds) as (d & -> & _)%list_elem_of_fmap
        by (rewrite Hd; set_solver).
      specialize (Hstop _ _ Hr I). by rewrite pp_here_refl in Hstop.
  - exists k. split; [done|]. split; [|done]. assert (Forall is_call (performed ++ cs)) as Hall
      by (by apply Forall_app). rewrite Hd in Hall. by apply Forall_app in Hall as [_ Hall].
Qed.

(** No entry of the log is behind the guest. *)
Definition none_past (pp : RR_prog_point) (rest : list log_item) : Prop :=
  Forall (λ i, pp_ahead pp (li_pp i) = false) rest.

Lemma none_not_past pp rest : none_past pp rest → not_past pp rest.
Proof. intros Hq [] Hi. destruct rest as [|j rest]; [done|]. inversion Hq. by simplify_eq/=. Qed.

Lemma none_past_suffix pp l1 l2 : none_past pp (l1 ++ l2) → none_past pp l2.
Proof. by intros [_ ?]%Forall_app. Qed.

(** The next entry of the log that is not a device call. *)
Fixpoint next_entry (log : list log_item) : option log_item :=
  match log with [] => None | i :: log' => if is_call i then next_entry log' else Some i end.

Lemma next_entry_skip cs l : Forall is_call cs → next_entry (cs ++ l) = next_entry l.
Proof. induction 1 as [|i cs Hi Hcs IH]; [done|]. simpl. by rewrite (Is_true_true_1 _ Hi). Qed.

(** A poll at [pp] and [cs] that found no request would be given one by the log. *)
Definition overlooked (pp : RR_prog_point) (cs : Z) (log : list log_item) : Prop :=
  match next_entry log with
  | Some (mkItem pp' cs' (LInterrupt _)) => cs' = cs ∧ pp_here pp pp'
  | _ => False
  end.
#[export] Instance overlooked_dec pp cs log : Decision (overlooked pp cs log).
Proof. unfold overlooked. destruct (next_entry log) as [[? ? []]|]; apply _. Defined.

Lemma settled_interrupt pp cs performed pend :
  Forall is_call performed → ¬ overlooked pp cs (performed ++ pend) →
  interrupt_spec pp cs pend = (0, pend).
Proof.
  intros Hp Ho. unfold overlooked in Ho. rewrite next_entry_skip in Ho by done.
  destruct pend as [|[p c b] pend]; [done|]. destruct b; try done. simpl in *.
  destruct (Z.eqb_spec c cs) as [->|]; [|done]. destruct (pp_here pp p); [|done].
  exfalso. by apply Ho.
Qed.

Lemma call_events_app c ks1 : ∀ tr ks2,
  call_events c tr (ks1 ++ ks2) = call_events c (call_events c tr ks1) ks2.
Proof. induction ks1; intros; [done|]. simpl. auto. Qed.

Lemma calls_map_app c ks1 : ∀ tr ks2,
  calls_map c tr (ks1 ++ ks2) ↔ calls_map c tr ks1 ∧ calls_map c (call_events c tr ks1) ks2.
Proof. induction ks1 as [|k ks1 IH]; intros tr ks2; simpl; [naive_solver|]. rewrite IH. tauto. Qed.

(** What replaying leaves alone. *)
Definition rep_same (s s' : rr_state) : Prop :=
  rr_cbs s' = rr_cbs s ∧ rr_req s' = rr_req s ∧ rr_host s' = rr_host s ∧
  cpu_single_env s' = cpu_single_env s ∧ first_cpu s' = first_cpu s.

Lemma frame_rep_same s s' : rr_frame s s' → rep_same s s'.
Proof. by intros (? & ? & ? & ->). Qed.

Lemma frame_tr_rep_same s s' tr : rr_frame_tr s s' tr → rep_same s s' ∧ rr_trace s' = tr
  ∧ rr_prog_point s' = rr_prog_point s
  ∧ rr_skipped_callsite_location s' = rr_skipped_callsite_location s.
Proof. by intros (? & ? & ? & ->). Qed.

(** Setting the point and replaying the calls the log holds for it. *)
Lemma replay_point_calls s pp pend :
  rep_state s pend → pp = pp_of (first_cpu s) → none_past pp pend →
  calls_map (rr_cbs s) (rr_trace s) (take_calls pp pend).1 →
  ∃ s', (rr_set_program_point;; rr_replay_skipped_calls) s = Ok () s' ∧
    rep_state s' (take_calls pp pend).2 ∧ rep_same s s' ∧ rr_prog_point s' = pp ∧
    rr_skipped_callsite_location s' = rr_skipped_callsite_location s ∧
    rr_trace s' = call_events (rr_cbs s) (rr_trace s) (take_calls pp pend).1.
Proof.
  intros [Hi Hc Hcb] Hpp Hn Hm. rewrite (bind_Ok _ _ _ _ _ (set_point_ok _ Hc)).
  apply (replay_inv_point _ _ (pp_of (first_cpu s))) in Hi. rewrite <-Hpp in Hi |- *.
  assert (guest_instr_count pp = rr_guest_instr_count (first_cpu s)) as Hcnt by (by subst pp).
  rewrite Hcnt in Hi.
  match type of Hi with replay_inv ?st _ => set (s1 := st) in * end.
  unfold rr_replay_skipped_calls. rewrite bind_gets.
  pose proof (replay_calls_ok (rr_skipped_callsite_location s1) s1 _ Hi Hcb) as Hr.
  change (rr_prog_point s1) with pp in Hr.
  destruct (take_calls_split pp pend) as (cs & Hpend & _).
  destruct (take_calls pp pend) as [ks r]. simpl in *.
  destruct Hr as (s' & Hs' & Hi' & Hf); [done| |].
  { apply none_not_past. rewrite Hpend in Hn. by eapply none_past_suffix. }
  destruct (frame_tr_rep_same _ _ _ Hf) as ((E1 & E2 & E3 & E4 & E5) & Etr & Epp & Eloc).
  exists s'. split; [done|]. split; [split; [done|by rewrite E4|by rewrite E1]|].
  by split_and!.
Qed.

Definition value_ok (st : guest_step) (v : Z) : Prop :=
  match st_act st with
  | GInput n _ => in_width (input_bits n) v
  | GDevice _ => True
  | GPoll | GPollAgain => in_width 16 v
  end.

Lemma frame_rep_state s s' pend pend' :
  rep_state s pend → rr_frame s s' → replay_inv s' pend' → rep_state s' pend'.
Proof. by intros [Hi Hc Hcb] (l & q & n & ->) Hi'. Qed.

(** Polling gives what was recorded: the entry, or nothing where the log holds
    no request for the place. *)
Lemma poll_replay s cs v v' pend performed rest :
  rep_state s pend → poll_items (rr_prog_point s) cs v ++ rest = performed ++ pend →
  Forall is_call performed → rr_skipped_callsite_location s = callsite_Z cs → in_width 16 v →
  none_past (rr_prog_point s) pend →
  (v = 0 → ¬ overlooked (rr_prog_point s) (callsite_Z cs) rest) →
  ∃ s' performed' pend', rr_interrupt_request v' s = Ok v s' ∧ rep_state s' pend' ∧ rr_frame s s' ∧
    rest = performed' ++ pend' ∧ Forall is_call performed' ∧ item_calls pend' = item_calls pend ∧
    (pend' ≠ [] → is_Some (rr_queue_head (rr_q s'))).
Proof.
  intros Hs Heq Hp Hl Hv Hn Ho. pose proof (ps_inv _ _ Hs) as Hi.
  unfold rr_interrupt_request, by_mode. rewrite !bind_gets, (replay_inv_mode _ _ Hi), Hl.
  destruct (replay_interrupt_ok s (callsite_Z cs) pend Hi (none_not_past _ _ Hn))
    as (s' & H1 & Hi' & Hf & Hr).
  unfold poll_items in Heq. destruct (Z.eqb_spec v 0) as [->|Hne]; simpl in Heq.
  - subst rest. rewrite (settled_interrupt _ _ performed) in H1, Hi', Hr by auto.
    exists s', performed, pend. split_and!; try done. by eapply frame_rep_state.
  - destruct performed as [|i performed].
    2: { simplify_eq/=. apply Forall_cons in Hp as [[] _]. }
    simpl in Heq. subst pend. simpl in H1, Hi', Hr.
    rewrite Z.eqb_refl, pp_here_refl in H1, Hi', Hr. simpl in H1, Hi', Hr.
    rewrite wrap_small in H1 by done.
    exists s', [], rest. split_and!; try done. by eapply frame_rep_state.
Qed.

(** The point is set again and the request polled. *)
Lemma poll_at_replay s cs v v' pend performed rest :
  let pp := pp_of (first_cpu s) in
  rep_state s pend → poll_items pp cs v ++ rest = performed ++ pend → Forall is_call performed →
  in_width 16 v → none_past pp pend → (v = 0 → ¬ overlooked pp (callsite_Z cs) rest) →
  ∃ s' performed' pend',
    (rr_set_program_point;; modify (set_rr_skipped_callsite_location (callsite_Z cs));;
     rr_interrupt_request v') s = Ok v s' ∧ rep_state s' pend' ∧
    rest = performed' ++ pend' ∧ Forall is_call performed' ∧ item_calls pend' = item_calls pend ∧
    rep_same s s' ∧ rr_trace s' = rr_trace s ∧ rr_prog_point s' = pp ∧
    (pend' ≠ [] → is_Some (rr_queue_head (rr_q s'))).
Proof.
  intros pp [Hi Hc Hcb] Heq Hp Hv Hn Ho.
  rewrite (bind_Ok _ _ _ _ _ (set_point_ok _ Hc)), bind_modify.
  apply (replay_inv_point _ _ (pp_of (first_cpu s))) in Hi. simpl guest_instr_count in Hi at 1.
  match goal with |- context [rr_interrupt_request v' ?st] =>
    destruct (poll_replay st cs v v' pend performed rest)
      as (s' & performed' & pend' & H1 & Hs' & Hf & Hrest & Hp' & Hk & Hr) end; try done.
  { split; [|done|done]. by eapply replay_inv_ext. }
  exists s', performed', pend'. destruct Hf as (? & ? & ? & ->). by split_and!.
Qed.

(** The macro while replaying, up to its replay action. *)
Lemma macro_replay {A} (a : RR A) ra (pa : RR A) s :
  rr_mode s = RR_REPLAY →
  ∀ loc, RR_DO_RECORD_OR_REPLAY a ra pa loc s
  = (((rr_set_program_point;; rr_replay_skipped_calls);; pa)
       (set_rr_skipped_callsite_location loc s)).
Proof.
  intros Hm loc. unfold RR_DO_RECORD_OR_REPLAY. by rewrite bind_gets, Hm, bind_modify, bind_assoc.
Qed.

Lemma rr_input_replay n v s :
  rr_mode s = RR_REPLAY →
  rr_input n v s = rr_replay_input n (rr_skipped_callsite_location s) s.
Proof.
  intros Hm. destruct n; simpl; unfold rr_input_1, rr_input_2, rr_input_4, rr_input_8, by_mode;
    by rewrite !bind_gets, Hm.
Qed.

Lemma rep_state_ext s s' pend :
  rep_state s pend → rr_mode s' = rr_mode s → rr_nondet_log s' = rr_nondet_log s →
  rr_host s' = rr_host s → rr_q s' = rr_q s → rr_prog_point s' = rr_prog_point s →
  rr_num_instr_before_next_interrupt s' = rr_num_instr_before_next_interrupt s →
  cpu_single_env s' = cpu_single_env s → rr_cbs s' = rr_cbs s → rep_state s' pend.
Proof.
  intros [] ? ? ? ? ? ? E1 E2. split; [by eapply replay_inv_ext|by rewrite E1|by rewrite E2].
Qed.

(** Where a step looks for an interrupt request. *)
Definition poll_site (a : guest_act) : option RR_callsite_id :=
  match a with
  | GPoll => Some RR_CALLSITE_CPU_EXEC_1
  | GPollAgain => Some RR_CALLSITE_CPU_EXEC_4
  | _ => None
  end.

(** A poll that found no request is settled: the log does not go on with one
    for the same place and program point. *)
Definition settled (st : guest_step) (w : world) (rest : list log_item) : Prop :=
  match poll_site (st_act st) with
  | Some cs => w_value w = 0 → ¬ overlooked (pp_of (st_cpu st)) (callsite_Z cs) rest
  | None => True
  end.
#[export] Instance settled_dec st w rest : Decision (settled st w rest).
Proof. unfold settled. destruct (poll_site _); apply _. Defined.

(** The calls of the point, then the value: for any outside world the guest gets
    the value that was recorded, and the machine the calls of the log. *)
Lemma replay_step st w w' s performed pend rest :
  rep_state s pend → step_items st w ++ rest = performed ++ pend → Forall is_call performed →
  value_ok st (w_value w) → none_past (pp_of (st_cpu st)) pend → settled st w rest →
  calls_map (rr_cbs s) (rr_trace s) (item_calls pend) →
  ∃ s' performed' pend' ks, run_step st w' s = Ok (step_value st w) s' ∧ rep_state s' pend' ∧
    rest = performed' ++ pend' ∧ Forall is_call performed' ∧ item_calls pend = ks ++ item_calls pend' ∧
    rr_cbs s' = rr_cbs s ∧ rr_req s' = rr_req s ∧ first_cpu s' = st_cpu st ∧
    rr_trace s' = call_events (rr_cbs s) (rr_trace s) ks.
Proof.
  intros Hs Heq Hp Hv Hn Hset Hm. unfold run_step. rewrite bind_modify.
  set (s0 := set_first_cpu (st_cpu st) s).
  assert (Hs0 : ∀ loc, rep_state (set_rr_skipped_callsite_location loc s0) pend)
    by (intros; by eapply rep_state_ext).
  assert (Hm0 : rr_mode s0 = RR_REPLAY) by (exact (replay_inv_mode _ _ (ps_inv _ _ Hs))).
  unfold step_items in Heq. rewrite <-app_assoc in Heq.
  destruct (st_act st) as [n loc|loc| |] eqn:Ea.
  4: { unfold step_calls, value_items, step_value, settled, value_ok in *.
    rewrite Ea in *. simpl in Heq, Hset.
    destruct (poll_at_replay s0 RR_CALLSITE_CPU_EXEC_4 (w_value w) (w_value w') pend performed rest)
      as (s2 & performed2 & pend2 & H2 & Hs2 & Hrest & Hp2 & Hk2 & (F1 & F2 & _ & _ & F5) & Ftr & _ & _);
      try done; [by eapply rep_state_ext|].
    exists s2, performed2, pend2, []. by split_and!. }
  all: destruct (take_calls_devs _ _ _ _ _ _ Heq Hp) as (performed1 & Htail & Hp1 & Hcalls);
    rewrite Hcalls in Hm; apply calls_map_app in Hm as [Hm1 Hm2];
    unfold step_calls, value_items, step_value, settled, value_ok in *; rewrite Ea in *; clear Heq.
  - rewrite macro_replay by done.
    destruct (replay_point_calls _ (pp_of (st_cpu st)) _ (Hs0 (callsite_Z loc)))
      as (s1 & H1 & Hs1 & (E1 & E2 & _ & _ & E5) & Hpp & Hl & Htr); [done..|].
    rewrite (bind_Ok _ _ _ _ _ H1), rr_input_replay by (eapply replay_inv_mode, (ps_inv _ _ Hs1)).
    destruct performed1 as [|i performed1].
    2: { simplify_eq/=. apply Forall_cons in Hp1 as [Hi _]. by destruct n. }
    simpl in Htail. rewrite <-Htail in Hs1.
    rewrite Hl. destruct (replay_input_ok s1 n (w_value w) (pp_of (st_cpu st)) (callsite_Z loc) rest)
      as (s2 & H2 & Hi2 & Hf2); [apply Hs1|rewrite Hpp; apply pp_here_refl|].
    exists s2, [], rest, (take_calls (pp_of (st_cpu st)) pend).1. split; [done|].
    split; [by eapply frame_rep_state|]. split; [done|]. split; [constructor|].
    split; [rewrite Hcalls, <-Htail; f_equal; by destruct n|].
    destruct Hf2 as (? & ? & ? & ->). by split_and!.
  - rewrite macro_replay by done.
    destruct (replay_point_calls _ (pp_of (st_cpu st)) _ (Hs0 (callsite_Z loc)))
      as (s1 & H1 & Hs1 & (E1 & E2 & _ & _ & E5) & Hpp & Hl & Htr); [done..|].
    rewrite (bind_Ok _ _ _ _ _ H1). exists s1, performed1, (take_calls (pp_of (st_cpu st)) pend).2.
    exists (take_calls (pp_of (st_cpu st)) pend).1. by split_and!.
  - unfold main_loop_wait_devices, rr_in_record, rr_in_replay.
    erewrite bind_Ok.
    2: { rewrite bind_gets, Hm0, bool_decide_false, bind_ret, bind_gets, Hm0 by done.
         rewrite bool_decide_true, bind_ret, bind_gets, Hm0 by done. done. }
    unfold cpu_exec_poll, rr_in_replay. rewrite bind_gets, Hm0, bool_decide_true by done.
    rewrite bind_assoc, bind_modify.
    destruct (replay_point_calls _ (pp_of (st_cpu st)) _ (Hs0 (callsite_Z RR_CALLSITE_MAIN_LOOP_WAIT)))
      as (s1 & H1 & Hs1 & (E1 & E2 & _ & _ & E5) & Hpp & Hl & Htr); [done..|].
    rewrite (bind_Ok _ _ _ _ _ H1).
    destruct (poll_at_replay s1 RR_CALLSITE_CPU_EXEC_1 (w_value w) (w_value w') _ performed1 rest Hs1)
      as (s2 & performed2 & pend2 & H2 & Hs2 & Hrest & Hp2 & Hk2 & (F1 & F2 & _ & _ & F5) & Ftr & _ & _);
      [by rewrite E5|done|done| |by rewrite E5|].
    { rewrite E5. destruct (take_calls_split (pp_of (st_cpu st)) pend) as (cs & Hpend & _).
      rewrite Hpend in Hn. by eapply none_past_suffix. }
    exists s2, performed2, pend2, (take_calls (pp_of (st_cpu st)) pend).1.
    rewrite Hk2, F1, F2, F5, Ftr, E5. by split_and!.
Qed.

(** ** Guest runs *)

(** The steps the guest takes with the outside world [ws]. *)
Fixpoint taken (g : guest) (hist : list Z) (ws : list world) : list (guest_step * world) :=
  match ws with
  | [] => []
  | w :: ws' =>
      match g hist with
      | None => []
      | Some st => (st, w) :: taken g (hist ++ [step_value st w]) ws'
      end
  end.

Definition values (l : list (guest_step * world)) : list Z := (λ x, step_value x.1 x.2) <$> l.
Definition log_items (l : list (guest_step * world)) : list log_item :=
  concat ((λ x, step_items x.1 x.2) <$> l).
Definition run_calls (l : list (guest_step * world)) : list log_call :=
  concat ((λ x, dev_call <$> step_calls x.1 x.2) <$> l).
Definition points (l : list (guest_step * world)) : list RR_prog_point :=
  (λ x, pp_of (st_cpu x.1)) <$> l.

(** The fields have the widths the format gives them, buffers hold the bytes
    they claim and are not empty. *)
Definition step_wf (x : guest_step * world) : Prop :=
  wf_pp (pp_of (st_cpu x.1)) ∧ value_ok x.1 (w_value x.2) ∧
  Forall dev_ok (w_calls x.2) ∧ Forall (λ d, wf_call (dev_call d)) (w_calls x.2).

(** Instruction counts do not decrease; several steps may be at one point. *)
Fixpoint ordered (ps : list RR_prog_point) : Prop :=
  match ps with
  | [] => True
  | p :: ps' => Forall (λ q, guest_instr_count p ≤ guest_instr_count q) ps' ∧ ordered ps'
  end.

Fixpoint all_settled (l : list (guest_step * world)) : Prop :=
  match l with [] => True | x :: l' => settled x.1 x.2 (log_items l') ∧ all_settled l' end.

Definition run_wf (l : list (guest_step * world)) : Prop :=
  Forall step_wf l ∧ ordered (points l) ∧ all_settled l.

#[export] Instance value_ok_dec st v : Decision (value_ok st v).
Proof. unfold value_ok. destruct (st_act st); apply _. Defined.
#[export] Instance dev_ok_dec d : Decision (dev_ok d).
Proof. unfold dev_ok. destruct d; simpl; apply _. Defined.
#[export] Instance step_wf_dec x : Decision (step_wf x).
Proof. unfold step_wf. apply _. Defined.
#[export] Instance ordered_dec ps : Decision (ordered ps).
Proof. induction ps; simpl; apply _. Defined.
#[export] Instance all_settled_dec l : Decision (all_settled l).
Proof. induction l; simpl; apply _. Defined.
#[export] Instance run_wf_dec l : Decision (run_wf l).
Proof. unfold run_wf. apply _. Defined.

Lemma run_guest_record g : ∀ ws hist s name items,
  rec_state s name items → Forall step_wf (taken g hist ws) →
  ∃ s', run_guest g hist ws s = Ok (hist ++ values (taken g hist ws)) s' ∧
    rec_state s' name (items ++ log_items (taken g hist ws)) ∧ rec_same s s' ∧
    rr_prog_point s' = default (rr_prog_point s) (last (points (taken g hist ws))).
Proof.
  induction ws as [|w ws IH]; intros hist s name items Hr Hwf; cbn [run_guest taken].
  { exists s. rewrite !app_nil_r. by split_and!. }
  cbn [taken] in Hwf. destruct (g hist) as [st|].
  2: { exists s. rewrite !app_nil_r. by split_and!. }
  apply Forall_cons in Hwf as [(_ & _ & Hds & _) Hwf].
  destruct (record_step st w s name items Hr Hds) as (s1 & H1 & Hr1 & Hs1 & Hp1).
  rewrite (bind_Ok _ _ _ _ _ H1).
  destruct (IH _ _ _ _ Hr1 Hwf) as (s2 & H2 & Hr2 & Hs2 & Hp2).
  exists s2. split; [by rewrite H2, <-app_assoc|]. rewrite <-app_assoc in Hr2.
  split; [done|]. split; [by eapply rec_same_trans|]. rewrite Hp2, Hp1.
  unfold points. rewrite fmap_cons, last_cons. by destruct (last _).
Qed.

Definition last_item (pp : RR_prog_point) : log_item :=
  mkItem pp (callsite_Z RR_CALLSITE_LAST) LLast.

(** The point the end of the log is recorded at. *)
Definition end_point (l : list (guest_step * world)) : RR_prog_point :=
  default pp_zero (last (points l)).

Lemma not_ahead p q : guest_instr_count p ≤ guest_instr_count q → pp_ahead p q = false.
Proof. intros Hle. unfold pp_ahead. apply andb_false_intro2, Z.ltb_ge. lia. Qed.

Lemma step_items_pp st w i : i ∈ step_items st w → li_pp i = pp_of (st_cpu st).
Proof.
  unfold step_items, value_items, poll_items. intros [Hi|Hi]%elem_of_app.
  - apply list_elem_of_fmap in Hi as (d & -> & _). done.
  - destruct (st_act st); try case_match; set_solver.
Qed.

Lemma log_items_point l i : i ∈ log_items l → li_pp i ∈ points l.
Proof.
  unfold log_items, points. induction l as [|x l IH]; [intros Hi; by apply not_elem_of_nil in Hi|]. rewrite !fmap_cons. simpl.
  intros [Hi|Hi]%elem_of_app; apply elem_of_cons; [left; by eapply step_items_pp|auto].
Qed.

Lemma end_point_in x l : end_point (x :: l) ∈ points (x :: l).
Proof.
  unfold end_point. destruct (last (points (x :: l))) as [q|] eqn:E.
  - by apply last_Some_elem_of in E.
  - apply last_None in E. done.
Qed.

(** Neither the entries of the step nor those after it are behind the guest. *)
Lemma rest_not_past x l :
  Forall (λ q, guest_instr_count (pp_of (st_cpu x.1)) ≤ guest_instr_count q) (points l) →
  none_past (pp_of (st_cpu x.1)) (log_items (x :: l) ++ [last_item (end_point (x :: l))]).
Proof.
  intros Hb. assert (Hall : ∀ q, q ∈ points (x :: l) → pp_ahead (pp_of (st_cpu x.1)) q = false).
  { intros q [->|Hq]%elem_of_cons; apply not_ahead; [done|].
    rewrite Forall_forall in Hb. by apply Hb. }
  apply Forall_app. split; [|apply Forall_singleton, Hall, end_point_in].
  apply Forall_forall. intros i Hi. by apply Hall, log_items_point.
Qed.

(** The end of the log is not an interrupt request. *)
Lemma settled_last st w log e : settled st w log → settled st w (log ++ [last_item e]).
Proof.
  unfold settled, overlooked. destruct (poll_site _) as [cs|]; [|done]. intros Hs Hw.
  specialize (Hs Hw). induction log as [|i log IH]; [done|]. simpl in *. by destruct (is_call i); auto.
Qed.

Lemma item_calls_log l : item_calls (log_items l) = run_calls l.
Proof.
  unfold log_items, run_calls. induction l as [|x l IH]; [done|]. rewrite !fmap_cons. simpl.
  rewrite item_calls_app, IH. f_equal. unfold step_items. rewrite item_calls_app, item_calls_devs.
  assert (item_calls (value_items x.1 (w_value x.2)) = []) as ->; [|by rewrite app_nil_r].
  unfold value_items, poll_items. destruct (st_act x.1) as [[]| | |]; try done; by case_match.
Qed.

Lemma end_point_cons x l : l ≠ [] → end_point (x :: l) = end_point l.
Proof.
  intros Hl. unfold end_point, points. rewrite fmap_cons, last_cons.
  destruct (last _) eqn:E; [done|]. by apply last_None, fmap_nil_inv in E.
Qed.

(** A replay from the point where [performed], calls of the rest of the log, have
    been performed already. *)
Lemma run_guest_replay g : ∀ ws ws' hist s e performed pend,
  length ws' = length ws → run_wf (taken g hist ws) →
  (taken g hist ws ≠ [] → e = end_point (taken g hist ws)) → rep_state s pend →
  log_items (taken g hist ws) ++ [last_item e] = performed ++ pend → Forall is_call performed →
  calls_map (rr_cbs s) (rr_trace s) (item_calls pend) →
  ∃ s', run_guest g hist ws' s = Ok (hist ++ values (taken g hist ws)) s' ∧
    rep_state s' [last_item e] ∧ rr_cbs s' = rr_cbs s ∧ rr_req s' = rr_req s ∧
    pp_of (first_cpu s') = default (pp_of (first_cpu s)) (last (points (taken g hist ws))) ∧
    rr_trace s' = call_events (rr_cbs s) (rr_trace s) (item_calls pend).
Proof.
  assert (Hend : ∀ e performed pend, [last_item e] = performed ++ pend → Forall is_call performed →
    pend = [last_item e]).
  { intros e [|i performed] pend Heq Hp; [done|]. apply Forall_cons in Hp as [Hi _].
    by simplify_eq/=. }
  induction ws as [|w ws IH]; intros [|w' ws'] hist s e performed pend Hlen Hwf He Hs Heq Hp Hm;
    try done; cbn [run_guest taken] in *.
  { apply Hend in Heq as ->; [|done]. exists s. rewrite app_nil_r. by split_and!. }
  destruct (g hist) as [st|].
  2: { apply Hend in Heq as ->; [|done]. exists s. rewrite app_nil_r. by split_and!. }
  set (l := taken g (hist ++ [step_value st w]) ws) in *.
  destruct Hwf as ([(Hpp & Hv & Hds & Hwc) Hwf]%Forall_cons & [Hb Ho] & [Hset Hall]).
  specialize (He ltac:(done)).
  assert (Hn : none_past (pp_of (st_cpu st)) pend).
  { eapply (none_past_suffix _ performed). rewrite <-Heq, He. by apply (rest_not_past (st, w) l). }
  unfold log_items in Heq. rewrite fmap_cons in Heq. simpl in Heq. rewrite <-app_assoc in Heq.
  destruct (replay_step st w w' s performed pend _ Hs Heq)
    as (s1 & performed1 & pend1 & ks & H1 & Hs1 & Hrest & Hp1 & Hk & E1 & E2 & Ep & Et);
    try done; [by apply settled_last|].
  rewrite (bind_Ok _ _ _ _ _ H1). rewrite Hk in Hm |- *. apply calls_map_app in Hm as [Hm1 Hm2].
  destruct (IH ws' (hist ++ [step_value st w]) s1 e performed1 pend1)
    as (s2 & H2 & Hs2 & F1 & F2 & Fp & Ft); try done.
  { simpl in Hlen. lia. } { intros Hl. rewrite He. by apply end_point_cons. }
  { by rewrite E1, Et. }
  exists s2. split; [by rewrite H2, <-app_assoc|]. split; [done|].
  split; [congruence|]. split; [congruence|]. split.
  - rewrite Fp, Ep. unfold points. rewrite fmap_cons, last_cons. by destruct (last _).
  - by rewrite Ft, E1, Et, call_events_app.
Qed.

(** Every entry of a well-formed run is well formed. *)
Lemma step_items_wf x : step_wf x → Forall wf_item (step_items x.1 x.2).
Proof.
  destruct x as [st w]. intros (Hpp & Hv & Hds & Hwc). simpl in *. unfold step_items.
  apply Forall_app. split.
  - apply Forall_fmap. unfold step_calls. destruct (st_act st); [| | |constructor];
      (eapply Forall_impl; [exact Hwc|]; intros d Hd; split; [done|];
       split; [apply wrap_in_width; lia|done]).
  - unfold value_items, value_ok, poll_items in *. destruct (st_act st) as [n loc|loc| |]; simpl.
    + apply Forall_singleton. split; [done|]. split; [apply callsite_Z_byte|by destruct n].
    + constructor.
    + case_match; [constructor|]. apply Forall_singleton. split; [done|].
      split; [done|by apply wrap_in_width].
    + case_match; [constructor|]. apply Forall_singleton. split; [done|].
      split; [done|by apply wrap_in_width].
Qed.

Lemma log_items_wf l : Forall step_wf l → Forall wf_item (log_items l).
Proof.
  induction 1 as [|x l Hx Hl IH]; [constructor|]. unfold log_items. rewrite fmap_cons. simpl.
  apply Forall_app. split; [by apply step_items_wf|done].
Qed.

Lemma end_point_wf l : Forall step_wf l → wf_pp (end_point l).
Proof.
  intros Hl. unfold end_point. destruct (last (points l)) as [p|] eqn:E; [|done]. simpl.
  apply last_Some_elem_of, list_elem_of_fmap in E as (x & -> & Hx).
  rewrite Forall_forall in Hl. by destruct (Hl x Hx).
Qed.

(** ** Beginning and ending *)

Lemma create_record_log_ok s name :
  name ∉ h_readonly (rr_host s) →
  ∃ s', rr_create_record_log name s = Ok () s' ∧ rec_frame s s' ∧
    (∀ m, rr_mode m = RR_RECORD → rr_nondet_log m = rr_nondet_log s' → rr_host m = rr_host s' →
       rec_inv m name []).
Proof.
  intros Hro. unfold rr_create_record_log. rewrite bind_modify, bind_gets.
  unfold fopen_w. simpl rr_host. rewrite decide_False by done. rewrite bind_modify.
  erewrite bind_Ok by (by apply upd_log_ok). erewrite bind_Ok by done.
  erewrite bind_Ok by (by apply get_log_ok).
  unfold log_fwrite. erewrite bind_Ok by (by apply get_log_ok).
  simpl log_fp. rewrite bind_nonnull, bind_gets. simpl rr_host.
  unfold fwrite. rewrite bind_modify. erewrite upd_log_ok by done.
  eexists. split; [done|]. split; [by do 2 eexists|].
  intros m Hm Hl Hh. exists (set_log_fp (Some (mkFILE name 24 false)) (g_new0_log RECORD name)),
    (mkFILE name 24 false), (pp_bytes pp_zero).
  split; [|split_and!; [reflexivity|reflexivity|done| |reflexivity]].
  - split; [done|by rewrite Hl|done| |]; rewrite Hh; simpl.
    + rewrite lookup_insert_eq. eauto.
    + unfold h_data. simpl. by rewrite !lookup_insert_eq.
  - rewrite Hh. simpl. rewrite h_data_insert. unfold h_data. simpl. rewrite lookup_insert_eq.
    reflexivity.
Qed.

Lemma begin_record_ok s name :
  rr_record_requested (rr_req s) = 1 → log_path name ∉ h_readonly (rr_host s) →
  ∃ s', rr_do_begin_record name s = Ok () s' ∧ rec_inv s' (log_path name) [] ∧
    rr_record_in_progress s' = false ∧ rr_prog_point s' = pp_zero ∧ rr_q s' = rr_q s ∧
    rr_cbs s' = rr_cbs s ∧ rr_req s' = rr_req s ∧
    rr_trace s' = rr_trace s ++ [EvSaveVM (snapshot_path name)].
Proof.
  intros Hq Hro. unfold rr_do_begin_record. rewrite bind_gets, Hq.
  erewrite bind_Ok by done. erewrite bind_Ok by done.
  match goal with |- context [(rr_create_record_log _ ≫= _) ?st] =>
    destruct (create_record_log_ok st (log_path name) Hro) as (s1 & H1 & Hf1 & Hr1) end.
  rewrite (bind_Ok _ _ _ _ _ H1). destruct Hf1 as (l1 & h1 & ->).
  eexists. split; [done|]. split; [by apply Hr1|done].
Qed.

(** Closing a recorded log rewrites its header. *)
Lemma destroy_record_ok s l f :
  recording s l f → log_type l = RECORD →
  ∃ s', rr_destroy_log s = Ok () s' ∧ rec_frame s s' ∧ rr_nondet_log s' = None ∧
    h_files (rr_host s') !! f_name f
    = Some (pp_bytes (last_prog_point l) ++ drop 24 (h_data (rr_host s) (f_name f))).
Proof.
  intros [Hm Hl Hfp [d0 Hfile] Hend] Ht. unfold rr_destroy_log.
  erewrite bind_Ok by (by apply get_log_ok). rewrite Hfp, Ht, decide_True by done.
  erewrite bind_Ok.
  2: { erewrite bind_Ok by (erewrite bind_Ok by (by apply upd_log_ok); by apply log_fwrite_gen).
       by apply upd_log_ok. }
  eexists. split; [done|]. split; [by do 2 eexists|]. split; [done|].
  simpl. by rewrite lookup_insert_eq.
Qed.

Lemma end_record_ok s name items :
  rec_inv s name items →
  ∃ s', rr_do_end_record s = Ok () s' ∧ rr_mode s' = RR_OFF ∧ rr_nondet_log s' = None ∧
    rec_same s s' ∧ cpu_single_env s' = cpu_single_env s ∧
    h_files (rr_host s') !! name
    = Some (pp_bytes (rr_prog_point s)
            ++ concat (item_bytes <$> items ++ [last_item (rr_prog_point s)])).
Proof.
  intros Hr. unfold rr_do_end_record, rr_record_end_of_log.
  destruct (record_item_inv _ _ _ (callsite_Z RR_CALLSITE_LAST) VLast Hr I)
    as (s1 & H1 & Hr1 & Hf1).
  rewrite (bind_Ok _ _ _ _ _ H1). rewrite wrap8_callsite in Hr1.
  destruct Hr1 as (l & f & hdr & Hrec & Ht & Hn & Hh & Hd & Hp).
  rewrite last_snoc in Hp. simpl in Hp.
  destruct (destroy_record_ok _ _ _ Hrec Ht) as (s2 & H2 & Hf2 & Hlog & Hfile).
  rewrite (bind_Ok _ _ _ _ _ H2). destruct Hf1 as (l1 & h1 & ->), Hf2 as (l2 & h2 & ->).
  eexists. split; [done|]. split; [done|]. split; [done|]. split; [done|]. split; [done|].
  simpl in *. subst name. rewrite Hfile, Hd, drop_app_length' by done. by rewrite Hp.
Qed.

Lemma fread_struct_ok s l f n st rest :
  rr_nondet_log s = Some l → log_fp l = Some f → f_rest (rr_host s) f = st ++ rest →
  length st = n →
  fread_struct n s = Ok st (set_rr_nondet_log (Some (set_log_fp (Some (f_advance f n)) l)) s).
Proof.
  intros Hl Hf Hr Hn. unfold fread_struct, log_fread.
  erewrite bind_Ok.
  2: { erewrite bind_Ok by (by apply get_log_ok). rewrite Hf, bind_nonnull, bind_gets.
       erewrite fread_app by done. erewrite bind_Ok by (by apply upd_log_ok). done. }
  by rewrite Hn, Nat.eqb_refl.
Qed.

Lemma create_replay_log_ok s name pp items :
  wf_pp pp → h_files (rr_host s) !! name = Some (pp_bytes pp ++ concat (item_bytes <$> items)) →
  Forall wf_item items → in_width 64 (24 + zlen (concat (item_bytes <$> items))) →
  ∃ l, rr_create_replay_log name s = Ok () (set_rr_nondet_log (Some l) s) ∧
    last_prog_point l = pp ∧ log_at (set_rr_nondet_log (Some l) s) l (mkFILE name 24 false) items.
Proof.
  intros Hpp Hfile Hwf Hsz. unfold rr_create_replay_log. rewrite bind_modify, bind_gets.
  unfold fopen_r. simpl rr_host. rewrite Hfile. cbv zeta.
  erewrite bind_Ok by (by apply upd_log_ok). erewrite bind_Ok by done.
  erewrite bind_Ok by (by apply upd_log_ok).
  assert (Hdata : h_data (rr_host s) name = pp_bytes pp ++ concat (item_bytes <$> items)).
  { unfold h_data. by rewrite Hfile. }
  assert (Hstat : wrap 64 (stat_size (rr_host s) name) = 24 + zlen (concat (item_bytes <$> items))).
  { unfold stat_size. rewrite Hdata, length_app. change (length (pp_bytes pp)) with 24%nat.
    unfold zlen in *. rewrite wrap_small; [lia|]. unfold in_width in *. lia. }
  rewrite Hstat. destruct (pp_layout pp Hpp) as [Hlen Hfld].
  erewrite bind_Ok by (eapply fread_struct_ok; [done|done| |done]; exact Hdata).
  erewrite bind_Ok by (by apply upd_log_ok). rewrite Hfld. unfold add_bytes_read.
  erewrite upd_log_ok by done. eexists. split; [done|]. split; [done|].
  split; simpl; try done. unfold f_rest. simpl. by rewrite Hdata, drop_app_length' by done.
Qed.

Lemma begin_replay_ok s name pp items :
  (∃ rs, qrep (rr_q s) [] rs) → 0 < q_brk (rr_q s) → callbacks_ok (rr_cbs s) →
  wf_pp pp →
  h_files (rr_host s) !! log_path name = Some (pp_bytes pp ++ concat (item_bytes <$> items)) →
  Forall wf_item items → in_width 64 (24 + zlen (concat (item_bytes <$> items))) →
  ∃ s', rr_do_begin_replay name s = Ok () s' ∧ replay_inv s' items ∧ rr_cbs s' = rr_cbs s ∧
    rr_req s' = rr_req s ∧ cpu_single_env s' = cpu_single_env s ∧
    rr_guest_instr_count (first_cpu s') = 0 ∧
    rr_trace s' = rr_trace s ++
      [EvBeforeLoadvm (cb_calls (rr_cbs s) PANDA_CB_BEFORE_REPLAY_LOADVM);
       EvLoadVMRR (snapshot_path name)].
Proof.
  intros [rs Hq] Hb Hcb Hpp Hfile Hwf Hsz. unfold rr_do_begin_replay.
  rewrite (bind_Ok _ _ _ _ _ (run_callbacks_ok _ _ _ Hcb)). unfold emit at 1. rewrite bind_modify.
  match goal with |- context [(rr_create_replay_log _ ≫= _) ?st] =>
    destruct (create_replay_log_ok st (log_path name) pp items) as (l & H1 & Hl1 & Hat);
      [done..|] end.
  rewrite (bind_Ok _ _ _ _ _ H1). unfold rr_reset_state, rr_clear_rr_guest_instr_count.
  erewrite bind_Ok by done. rewrite bind_modify.
  match goal with |- context [rr_fill_queue ?st] =>
    destruct (fill_queue_ok st items) as (s' & qi & fi & Hfill & Hr & -> & Hs & Hc & Hf & _) end.
  { do 2 eexists. exists [], rs. split; [destruct Hat; by split|]. split; [done|].
    split; [done|]. split; [done|constructor]. }
  exists s'. split; [done|]. split; [by exists qi, fi|].
  destruct Hf as (? & ? & ? & ->). simpl. by rewrite <-app_assoc.
Qed.

(** ** Whole sessions, driven by the monitor and the main loop *)

Definition enter_cpu : RR () := modify (set_cpu_single_env true).
Definition leave_cpu : RR () := modify (set_cpu_single_env false).

Definition record_session (name : option string) (g : guest) (ws : list world) : RR (list Z) :=
  qmp_begin_record name;; main_loop_requests;;
  enter_cpu;; vs ← run_guest g [] ws; leave_cpu;;
  qmp_end_record;; main_loop_requests;; mret vs.

(** After the guest's steps the CPU loop polls once more and sees the end. *)
Definition replay_session (name : option string) (g : guest) (ws : list world)
    : RR (list Z * Z * bool) :=
  qmp_begin_replay name;; main_loop_requests;;
  enter_cpu;; vs ← run_guest g [] ws; v ← cpu_exec_poll 0; fin ← cpu_exec_check_finished;
  leave_cpu;; main_loop_requests;; mret (vs, v, fin).

Definition no_req (s : rr_state) : Prop :=
  rr_replay_requested (rr_req s) = 0 ∧ rr_record_requested (rr_req s) = 0 ∧
  rr_end_record_requested (rr_req s) = 0 ∧ rr_end_replay_requested (rr_req s) = 0.

(** Between sessions: nothing is queued, no request is pending. *)
Record idle (s : rr_state) : Prop := {
  id_req : no_req s;
  id_mode : rr_mode s = RR_OFF;
  id_queue : ∃ rs, qrep (rr_q s) [] rs;
  id_brk : 0 < q_brk (rr_q s);
  id_cbs : callbacks_ok (rr_cbs s);
}.

Lemma monitor_begin_record s name :
  no_req s → log_path name ∉ h_readonly (rr_host s) →
  ∃ s', (qmp_begin_record name;; main_loop_requests) s = Ok () s' ∧
    rec_inv s' (log_path name) [] ∧ rr_record_in_progress s' = false ∧
    rr_prog_point s' = pp_zero ∧ rr_q s' = rr_q s ∧ rr_cbs s' = rr_cbs s ∧ no_req s' ∧
    rr_trace s' = rr_trace s ++ [EvSaveVM (snapshot_path name)].
Proof.
  intros (N1 & N2 & N3 & N4) Hro. unfold qmp_begin_record, upd_req at 1. rewrite bind_modify.
  unfold main_loop_requests, handle_record_request at 1. rewrite bind_assoc, bind_gets.
  match goal with |- context [(_ ≫= _) ?st] =>
    destruct (begin_record_ok st name) as (s1 & H1 & Hr1 & Hi1 & Hp1 & Hq1 & Hc1 & Hreq1 & Ht1);
      [done|done|] end.
  erewrite bind_Ok by (simpl; rewrite (bind_Ok _ _ _ _ _ H1); done).
  erewrite bind_Ok by (apply no_replay_request; simpl; by rewrite Hreq1).
  erewrite bind_Ok by (apply no_end_record; simpl; by rewrite Hreq1).
  rewrite no_end_replay by (simpl; by rewrite Hreq1).
  eexists. split; [done|]. split; [by eapply rec_inv_ext|].
  split_and!; try done. all: unfold no_req; simpl; by rewrite Hreq1.
Qed.

Lemma monitor_end_record s name items :
  no_req s → rec_inv s name items →
  ∃ s', (qmp_end_record;; main_loop_requests) s = Ok () s' ∧
    rr_mode s' = RR_OFF ∧ no_req s' ∧ rr_q s' = rr_q s ∧ rr_cbs s' = rr_cbs s ∧
    rr_trace s' = rr_trace s ++ [EvQmpStop; EvVmStart] ∧
    h_files (rr_host s') !! name
    = Some (pp_bytes (rr_prog_point s)
            ++ concat (item_bytes <$> items ++ [last_item (rr_prog_point s)])).
Proof.
  intros (N1 & N2 & N3 & N4) Hr. unfold qmp_end_record. rewrite bind_assoc.
  unfold emit at 1, upd_req at 1. rewrite bind_modify, bind_modify.
  match goal with |- context [main_loop_requests ?st] => set (s1 := st) end.
  assert (Hr1 : rec_inv s1 name items) by (by eapply rec_inv_ext).
  unfold main_loop_requests. rewrite (bind_Ok _ _ _ _ _ (no_record_request s1 N2)).
  rewrite (bind_Ok _ _ _ _ _ (no_replay_request s1 N1)).
  unfold handle_end_record. rewrite bind_assoc, bind_gets, bind_assoc, bind_gets.
  unfold rr_in_record. rewrite (rec_inv_mode _ _ _ Hr1), bool_decide_true by done.
  destruct (end_record_ok _ _ _ Hr1) as (s2 & H2 & Hm2 & Hl2 & (E1 & E2 & E3 & E4) & _ & Hf2).
  erewrite bind_Ok by (simpl; rewrite (bind_Ok _ _ _ _ _ H2); done).
  rewrite no_end_replay by (simpl; by rewrite E4).
  eexists. split; [done|]. split; [done|]. split; [|split_and!; try done].
  - unfold no_req. simpl. by rewrite E4.
  - simpl. rewrite E3. simpl. by rewrite <-app_assoc.
Qed.

Lemma monitor_begin_replay s name pp items :
  no_req s → (∃ rs, qrep (rr_q s) [] rs) → 0 < q_brk (rr_q s) → callbacks_ok (rr_cbs s) →
  wf_pp pp →
  h_files (rr_host s) !! log_path name = Some (pp_bytes pp ++ concat (item_bytes <$> items)) →
  Forall wf_item items → in_width 64 (24 + zlen (concat (item_bytes <$> items))) →
  ∃ s', (qmp_begin_replay name;; main_loop_requests) s = Ok () s' ∧ replay_inv s' items ∧
    no_req s' ∧ rr_cbs s' = rr_cbs s ∧ rr_guest_instr_count (first_cpu s') = 0 ∧
    rr_trace s' = rr_trace s ++
      [EvBeforeLoadvm (cb_calls (rr_cbs s) PANDA_CB_BEFORE_REPLAY_LOADVM);
       EvLoadVMRR (snapshot_path name); EvQuitTimers].
Proof.
  intros (N1 & N2 & N3 & N4) Hq Hb Hcb Hpp Hfile Hwf Hsz.
  unfold qmp_begin_replay, upd_req at 1. rewrite bind_modify.
  unfold main_loop_requests. erewrite bind_Ok by (by apply no_record_request).
  unfold handle_replay_request. rewrite bind_assoc, bind_gets.
  match goal with |- context [(_ ≫= _) ?st] =>
    destruct (begin_replay_ok st name pp items) as (s1 & H1 & Hi1 & Hc1 & Hreq1 & _ & Hcnt & Ht1);
      [done..|] end.
  erewrite bind_Ok by (simpl; rewrite (bind_Ok _ _ _ _ _ H1); done).
  erewrite bind_Ok by (apply no_end_record; simpl; by rewrite Hreq1).
  rewrite no_end_replay by (simpl; by rewrite Hreq1).
  eexists. split; [done|]. split; [by eapply replay_inv_ext|].
  split; [unfold no_req; simpl; by rewrite Hreq1|]. split; [done|]. split; [done|].
  simpl. rewrite Ht1. simpl. by rewrite <-app_assoc.
Qed.

(** At the end of the log the CPU loop sees that the replay is finished. *)
Lemma end_poll_ok s e :
  rep_state s [last_item e] → pp_ahead (pp_of (first_cpu s)) e = false →
  guest_instr_count e ≤ rr_guest_instr_count (first_cpu s) →
  ∃ s1 s2, cpu_exec_poll 0 s = Ok 0 s1 ∧ cpu_exec_check_finished s1 = Ok true s2 ∧
    replays s2 [last_item e] [] ∧ rr_cbs s2 = rr_cbs s ∧
    rr_req s2 = set_rr_end_replay_requested 1 (rr_req s) ∧ rr_trace s2 = rr_trace s.
Proof.
  intros Hs Ha Hcnt.
  assert (Hn : none_past (pp_of (first_cpu s)) [last_item e]) by (by apply Forall_singleton).
  assert (Hmode : rr_mode s = RR_REPLAY) by (exact (replay_inv_mode _ _ (ps_inv _ _ Hs))).
  unfold cpu_exec_poll, rr_in_replay. rewrite bind_gets, Hmode, bool_decide_true by done.
  rewrite bind_assoc, bind_modify.
  destruct (replay_point_calls (set_rr_skipped_callsite_location
      (callsite_Z RR_CALLSITE_MAIN_LOOP_WAIT) s) (pp_of (first_cpu s)) [last_item e])
    as (s1 & H1 & Hs1 & (E1 & E2 & _ & _ & E5) & Hpp & Hl & Htr);
    [by eapply rep_state_ext|done|done|done|].
  rewrite (bind_Ok _ _ _ _ _ H1).
  destruct (poll_at_replay s1 RR_CALLSITE_CPU_EXEC_1 0 0 [last_item e] [] [last_item e])
    as (s2 & performed2 & pend2 & H2 & Hs2 & Hrest & Hp2 & _ & (F1 & F2 & _) & Ftr & Fpp & Fhd);
    [done|done|constructor|done|by rewrite E5| |].
  { by intros _ []. }
  destruct performed2 as [|i performed2].
  2: { apply Forall_cons in Hp2 as [Hi _]. by simplify_eq/=. }
  simpl in Hrest. subst pend2.
  exists s2. rewrite H2. rewrite E5 in Fpp. simpl in Fpp.
  assert (Hrep : replays s2 [last_item e] []).
  { destruct (ps_inv _ _ Hs2) as (qi & fi & Hp & Hr & _). destruct qi as [|i qi].
    - destruct (Fhd ltac:(done)) as [p Hhd].
      destruct Hr as (l & f & qs & rs & _ & _ & Hq & _ & Hfa).
      apply Forall2_nil_inv_r, fmap_nil_inv in Hfa as ->.
      pose proof (qr_queue _ _ _ Hq) as Hx. simpl in Hx. congruence.
    - injection Hp as <- Hnil. symmetry in Hnil. apply app_nil in Hnil as [-> ->]. done. }
  assert (Hfin : rr_replay_finished s2 = Ok true s2).
  { unfold rr_replay_finished. pose proof Hrep as (l & f & qs & rs & Hlog & _).
    rewrite (bind_Ok _ _ _ _ _ (is_empty_ok _ _ _ _ Hlog)), bool_decide_true by done.
    destruct (peek_ok _ _ _ _ Hrep) as (p & nd & _ & _ & Hpk & Hld).
    rewrite (bind_Ok _ _ _ _ _ Hpk), bind_gets, (loaded_kind _ _ Hld), (loaded_pp _ _ Hld).
    simpl. rewrite Fpp. simpl. unfold mret, M_ret. f_equal. by apply Z.leb_le. }
  eexists. split; [done|]. unfold cpu_exec_check_finished. rewrite bind_gets.
  rewrite decide_True by (by eapply replay_inv_mode, (ps_inv _ _ Hs2)).
  rewrite (bind_Ok _ _ _ _ _ Hfin). split; [done|].
  split; [by eapply replays_frame|]. simpl. rewrite F1, F2, Ftr, Htr, E1, E2. done.
Qed.

Lemma monitor_end_replay s e :
  rr_req s = set_rr_end_replay_requested 1 (rr_req s) → rr_record_requested (rr_req s) = 0 →
  rr_replay_requested (rr_req s) = 0 → rr_end_record_requested (rr_req s) = 0 →
  replays s [last_item e] [] →
  ∃ s', main_loop_requests s = Ok () s' ∧ rr_mode s' = RR_OFF ∧ rr_nondet_log s' = None ∧
    no_req s' ∧ qrep (rr_q s') [] [] ∧
    rr_trace s' = rr_trace s ++ [EvInitTimerAlarm; EvEndReplay false true; EvShutdownRequest; EvVmStop].
Proof.
  intros N4 N2 N1 N3 Hr. unfold main_loop_requests.
  rewrite (bind_Ok _ _ _ _ _ (no_record_request s N2)).
  rewrite (bind_Ok _ _ _ _ _ (no_replay_request s N1)).
  rewrite (bind_Ok _ _ _ _ _ (no_end_record s N3)).
  unfold handle_end_replay. rewrite !bind_gets. rewrite N4.
  assert (Hmode : rr_mode s = RR_REPLAY) by (by destruct Hr as (l & f & qs & rs & _ & Hm & _)).
  unfold rr_in_replay. rewrite Hmode, bool_decide_true by done.
  change (negb _ && true) with true. cbv iota. erewrite bind_Ok by done.
  match goal with |- context [(rr_do_end_replay false ≫= _) ?st] =>
    destruct (end_replay_ok st [last_item e] [] false) as (q' & Hq' & He);
      [by eapply replays_frame|] end.
  rewrite (bind_Ok _ _ _ _ _ He). eexists. split; [done|]. split; [done|]. split; [done|].
  split; [|split; [done|]].
  - by split_and!.
  - simpl. by rewrite <-!app_assoc.
Qed.

Lemma record_session_ok name g ws s :
  no_req s → log_path name ∉ h_readonly (rr_host s) → Forall step_wf (taken g [] ws) →
  ∃ s', record_session name g ws s = Ok (values (taken g [] ws)) s' ∧
    rr_mode s' = RR_OFF ∧ no_req s' ∧ rr_q s' = rr_q s ∧ rr_cbs s' = rr_cbs s ∧
    h_files (rr_host s') !! log_path name
    = Some (pp_bytes (end_point (taken g [] ws)) ++ concat (item_bytes <$>
        log_items (taken g [] ws) ++ [last_item (end_point (taken g [] ws))])).
Proof.
  intros Hn Hro Hwf. unfold record_session.
  destruct (monitor_begin_record s name Hn Hro)
    as (s1 & H1 & Hr1 & Hi1 & Hp1 & Hq1 & Hc1 & Hn1 & _).
  rewrite <-bind_assoc, (bind_Ok _ _ _ _ _ H1). unfold enter_cpu. rewrite bind_modify.
  destruct (run_guest_record g ws [] (set_cpu_single_env true s1) (log_path name) [])
    as (s2 & H2 & [Hr2 _ _] & (E1 & E2 & _ & E4) & Hp2); [|done|].
  { split; [by eapply rec_inv_ext|done|done]. }
  rewrite (bind_Ok _ _ _ _ _ H2). unfold leave_cpu. rewrite bind_modify.
  destruct (monitor_end_record (set_cpu_single_env false s2) (log_path name)
    (log_items (taken g [] ws))) as (s3 & H3 & Hm3 & Hn3 & Hq3 & Hc3 & _ & Hf3).
  { unfold no_req. simpl. by rewrite E4. } { by eapply rec_inv_ext. }
  rewrite <-bind_assoc, (bind_Ok _ _ _ _ _ H3). exists s3. simpl in *.
  split; [done|]. split; [done|]. split; [done|]. split; [congruence|]. split; [congruence|].
  rewrite Hf3. unfold end_point. by rewrite Hp2, Hp1.
Qed.

Definition replay_prologue (c : cb_state) (name : option string) : list rr_event :=
  [EvBeforeLoadvm (cb_calls c PANDA_CB_BEFORE_REPLAY_LOADVM);
   EvLoadVMRR (snapshot_path name); EvQuitTimers].
Definition replay_epilogue : list rr_event :=
  [EvInitTimerAlarm; EvEndReplay false true; EvShutdownRequest; EvVmStop].

Lemma replay_session_ok name g ws ws' s :
  let l := taken g [] ws in
  let items := log_items l ++ [last_item (end_point l)] in
  let tr := rr_trace s ++ replay_prologue (rr_cbs s) name in
  idle s → run_wf l → length ws' = length ws →
  h_files (rr_host s) !! log_path name
  = Some (pp_bytes (end_point l) ++ concat (item_bytes <$> items)) →
  in_width 64 (24 + zlen (concat (item_bytes <$> items))) →
  calls_map (rr_cbs s) tr (run_calls l) →
  ∃ s', replay_session name g ws' s = Ok (values l, 0, true) s' ∧ rr_mode s' = RR_OFF ∧
    rr_nondet_log s' = None ∧
    rr_trace s' = call_events (rr_cbs s) tr (run_calls l) ++ replay_epilogue.
Proof.
  intros l items tr [Hn Hm Hq Hb Hcb] Hwf Hlen Hfile Hsz Hmap. unfold replay_session.
  destruct (monitor_begin_replay s name (end_point l) items Hn Hq Hb Hcb)
    as (s1 & H1 & Hi1 & Hn1 & Hc1 & Hcnt & Ht1); [by apply end_point_wf, Hwf|done| |done|].
  { apply Forall_app. split; [apply log_items_wf, Hwf|]. apply Forall_singleton.
    split; [apply end_point_wf, Hwf|done]. }
  rewrite <-bind_assoc, (bind_Ok _ _ _ _ _ H1). unfold enter_cpu. rewrite bind_modify.
  assert (Hcalls : item_calls items = run_calls l).
  { unfold items. rewrite item_calls_app, item_calls_log. apply app_nil_r. }
  destruct (run_guest_replay g ws ws' [] (set_cpu_single_env true s1) (end_point l) [] items)
    as (s2 & H2 & Hs2 & E1 & E2 & Hcpu & Ht2); [done|done|done| |done|constructor| |].
  { split; [by eapply replay_inv_ext|done|simpl; by rewrite Hc1]. }
  { simpl. by rewrite Hcalls, Hc1, Ht1. }
  rewrite (bind_Ok _ _ _ _ _ H2). fold l in Hcpu. rewrite Hcalls in Ht2. simpl in E1, E2, Hcpu, Ht2.
  assert (pp_ahead (pp_of (first_cpu s2)) (end_point l) = false ∧
    guest_instr_count (end_point l) ≤ rr_guest_instr_count (first_cpu s2)) as [Ha Hle].
  { change (rr_guest_instr_count (first_cpu s2)) with (guest_instr_count (pp_of (first_cpu s2))).
    rewrite Hcpu. unfold end_point. destruct (last (points l)); simpl.
    - split; [apply here_not_ahead, pp_here_refl|done].
    - by rewrite Hcnt. }
  destruct (end_poll_ok s2 (end_point l) Hs2 Ha Hle)
    as (s3 & s4 & H3 & H4 & Hr4 & F1 & F2 & F3).
  rewrite (bind_Ok _ _ _ _ _ H3), (bind_Ok _ _ _ _ _ H4). unfold leave_cpu. rewrite bind_modify.
  destruct Hn1 as (N1 & N2 & N3 & N4).
  destruct (monitor_end_replay (set_cpu_single_env false s4) (end_point l))
    as (s5 & H5 & Hm5 & Hl5 & _ & _ & Ht5);
    [simpl; by rewrite F2|simpl; rewrite F2; simpl; congruence|simpl; rewrite F2; simpl; congruence
    |simpl; rewrite F2; simpl; congruence|by eapply replays_frame|].
  rewrite (bind_Ok _ _ _ _ _ H5). exists s5. split; [done|]. split; [done|]. split; [done|].
  rewrite Ht5. simpl. by rewrite F3, Ht2, Hc1, Ht1.
Qed.

(** C1. Record and replay agree. A deterministic guest runs while devices do
    anything; the session is recorded to the log file. Replayed from that file
    in an idle emulator, whatever the devices there would do, the guest gets the
    same values step by step, the machine gets the recorded device calls in
    order, the end of the log is recognised and the replay is reported as
    completed. Any number of steps may be at one program point, as the poll and
    the vector of a delivered interrupt are. The run ([run_wf]) has fields that
    fit the format and buffers that are not empty, instruction counts that do not
    decrease, and settled polls: one that found no request is not followed in the
    log, device calls aside, by a request for the same place and program point
    ([late_interrupt_early] shows what happens then). The log can be opened and is
    shorter than 2^64 bytes; the replaying machine is idle and maps the memory of
    the [cpu_physical_memory_unmap] calls it is to repeat. *)
Theorem record_replay name g ws ws' s0 :
  let l := taken g [] ws in
  no_req s0 → log_path name ∉ h_readonly (rr_host s0) → run_wf l → length ws' = length ws →
  in_width 64 (24 + zlen (concat (item_bytes <$> log_items l ++ [last_item (end_point l)]))) →
  ∃ s, record_session name g ws s0 = Ok (values l) s ∧ rr_mode s = RR_OFF ∧
    ∀ s1, idle s1 → rr_host s1 = rr_host s →
      let tr := rr_trace s1 ++ replay_prologue (rr_cbs s1) name in
      calls_map (rr_cbs s1) tr (run_calls l) →
      ∃ s2, replay_session name g ws' s1 = Ok (values l, 0, true) s2 ∧ rr_mode s2 = RR_OFF ∧
        rr_trace s2 = call_events (rr_cbs s1) tr (run_calls l) ++ replay_epilogue.
Proof.
  intros l Hn Hro Hwf Hlen Hsz.
  destruct (record_session_ok name g ws s0 Hn Hro (proj1 Hwf)) as (s & H1 & Hm & _ & _ & _ & Hf).
  exists s. split; [done|]. split; [done|]. intros s1 Hidle Hhost tr Hmap.
  destruct (replay_session_ok name g ws ws' s1) as (s2 & H2 & Hm2 & _ & Ht2);
    [done|done|done|by rewrite Hhost|done|done|]. by exists s2.
Qed.

End Session.

(** ** A concrete session *)

Module Demo.

Definition machine : Machine := λ _ _ len, Some len.
Definition target : TargetPhys := PHYS64.
#[local] Existing Instance machine.
#[local] Existing Instance target.

Definition cpu (n : Z) : cpu_env := mkCpu (4096 + n) n n.

(** An interrupt is polled and its vector read at one point; the place of the
    next steps depends on the first value; two accesses to devices are at one
    point. *)
Definition demo_guest : guest := λ hist,
  match hist with
  | [] => Some (mkStep (cpu 10) (GInput In4 RR_CALLSITE_IOPORT_READ))
  | [_] => Some (mkStep (cpu 20) GPoll)
  | [_; _] => Some (mkStep (cpu 20) (GInput In4 RR_CALLSITE_CPU_EXEC_2))
  | [_; _; _] => Some (mkStep (cpu 20) GPollAgain)
  | [v; _; _; _] => Some (mkStep (cpu (20 + v)) (GDevice RR_CALLSITE_STL_PHYS))
  | [v; _; _; _; _] => Some (mkStep (cpu (20 + v)) (GDevice RR_CALLSITE_STL_PHYS))
  | [_; _; _; _; _; _] => Some (mkStep (cpu 91) GPoll)
  | _ => None
  end.

Definition buf : host_buf := HBuf 77 [Corelib.Init.Byte.x61; Corelib.Init.Byte.x62].
Definition demo_worlds : list world :=
  [mkWorld [DMemRw 8192 buf 2] 7;
   mkWorld [DUnmap 12288 buf 2; DHd 35 4 1 2 512] 2;
   mkWorld [] 255;
   mkWorld [] 0;
   mkWorld [DRegion 1 2 3] 0;
   mkWorld [DPacket 40 buf 2 1] 0;
   mkWorld [] 0;
   mkWorld [] 9].
Definition no_world : list world := replicate 8 (mkWorld [] 0).

Definition start : rr_state := rr_init (Host ∅ ∅) (cpu 0) cb_init.
Definition taken_demo := taken demo_guest [] demo_worlds.

Lemma start_idle : idle start.
Proof.
  split; [done|done| |done|].
  - exists []. split; simpl; try done; [constructor|].
    intros l [x Hx]. by rewrite lookup_empty in Hx.
  - eexists. apply cb_init_rep.
Qed.

Lemma record_replay_witness :
  run_wf taken_demo ∧
  ∃ s, record_session (Some "demo") demo_guest demo_worlds start = Ok [7; 2; 255; 0; 0; 0; 0] s ∧
    rr_mode s = RR_OFF ∧
    ∀ s1, idle s1 → rr_host s1 = rr_host s →
      let tr := rr_trace s1 ++ replay_prologue (rr_cbs s1) (Some "demo") in
      calls_map (rr_cbs s1) tr (run_calls taken_demo) →
      ∃ s2, replay_session (Some "demo") demo_guest no_world s1
            = Ok ([7; 2; 255; 0; 0; 0; 0], 0, true) s2 ∧ rr_mode s2 = RR_OFF ∧
        rr_trace s2 = call_events (rr_cbs s1) tr (run_calls taken_demo) ++ replay_epilogue.
Proof.
  assert (Hwf : run_wf taken_demo) by (apply (bool_decide_unpack _); vm_compute; exact I).
  split; [exact Hwf|].
  apply (record_replay (Some "demo") demo_guest demo_worlds no_world start).
  - done.
  - apply not_elem_of_empty.
  - exact Hwf.
  - done.
  - apply (bool_decide_unpack _). vm_compute. exact I.
Defined.

(** The two sessions, run: the values and the calls of the replay. *)
Definition replay_from (s : rr_state) : rr_state :=
  rr_init (rr_host s) (cpu 0) cb_init.

Definition run_both (g : guest) (ws ws' : list world) : option (list Z * Z * bool * list rr_event) :=
  match record_session (Some "demo") g ws start with
  | Ok vs s =>
      match replay_session (Some "demo") g ws' (replay_from s) with
      | Ok r s' => Some (r, rr_trace s')
      | Err _ _ => None
      end
  | Err _ _ => None
  end.

Example demo_run_ok :
  run_both demo_guest demo_worlds no_world = Some (([7; 2; 255; 0; 0; 0; 0], 0, true),
    [EvBeforeLoadvm []; EvLoadVMRR "./demo-rr-snp"; EvQuitTimers;
     EvMemRw 8192 (buf_data buf) 2; EvMapUnmap 12288 2 (buf_data buf);
     EvHdTransfer [] 4 1 2 512; EvRegMem 1 2 3; EvHandlePacket [] (buf_data buf) 2 1 77;
     EvInitTimerAlarm; EvEndReplay false true; EvShutdownRequest; EvVmStop]).
Proof. vm_compute. reflexivity. Qed.

(** A request that comes between two polls of one program point is recorded for
    the second and replayed at the first. *)
Definition polling_guest : guest := λ hist, if (length hist <? 2)%nat then Some (mkStep (cpu 20) GPoll) else None.

Example late_interrupt_early :
  values (taken polling_guest [] [mkWorld [] 0; mkWorld [] 2]) = [0; 2] ∧
  (λ r, r.1.1.1) <$> run_both polling_guest [mkWorld [] 0; mkWorld [] 2] (replicate 2 (mkWorld [] 0))
  = Some [2; 0].
Proof. vm_compute. split; reflexivity. Qed.

End Demo.
