(* ===== verification/RRTheorems.v ===== *)
(** * Record/replay: what the components promise

    The properties of the queue, the log and the replay functions in the form
    their clients rely on, each at a concrete state of the session of [Demo]. *)

From S2P Require Import Prelude CFile RRTypes PandaCallbacks RRState RRQueue RRFormat RRReplay.
From S2P Require Import RRReplayInv RRRecord RRMonitor RRSession.
Local Open Scope Z_scope.

Section Theorems.
Context `{TargetPhys} `{Machine}.

#[local] Opaque item_bytes.

(** ** The log file *)

(** C15. An entry of any kind, whose fields fit the format, that was written at the
    end of the log is met by a replay that has reached the position it was written
    at: it is read back as it was and nothing is left after it, except when it is a
    call with a buffer of no bytes, which the reader refuses (it asks [fread] for
    more than 0 bytes) and the process stops. *)
Theorem item_round_trip s l f :
  let i := item_of_entry (current_item l) in
  recording s l f → variant_ok (variant (current_item l)) → fits_item i →
  in_width 64 (Z.of_nat (f_pos f) + zlen (item_bytes i)) →
  ∃ s1, rr_write_item s = Ok () s1 ∧
    ∀ s2 l2 qs rs,
      rr_host s2 = rr_host s1 → rr_mode s2 = RR_REPLAY → rr_nondet_log s2 = Some l2 →
      log_type l2 = REPLAY → log_fp l2 = Some (mkFILE (f_name f) (f_pos f) false) →
      bytes_read l2 = Z.of_nat (f_pos f) → log_size l2 = stat_size (rr_host s1) (f_name f) →
      qrep (rr_q s2) qs rs → 0 < q_brk (rr_q s2) →
      if empty_buf i then ∃ e s', rr_read_item s2 = Err e s'
      else ∃ p s', rr_read_item s2 = Ok p s' ∧
        q_heap (rr_q s') !! p = Some (mkQnode (load_item (q_brk (rr_q s2)) i) None) ∧
        rr_log_is_empty s' = Ok true s'.
Proof.
  intros i Hr Hok Hfit Hsz. rewrite (write_item_ok _ _ _ Hr Hok). eexists. split; [done|].
  intros s2 l2 qs rs Hh Hm Hl Ht Hfp Hb Hs Hq Hbrk.
  assert (Hdata : h_data (rr_host s2) (f_name f)
    = h_data (rr_host s) (f_name f) ++ item_bytes i) by (rewrite Hh; apply h_data_append).
  assert (Hsize : log_size l2 = Z.of_nat (f_pos f) + zlen (item_bytes i)).
  { rewrite Hs, <-Hh. unfold stat_size, zlen. rewrite Hdata, length_app, (rec_end _ _ _ Hr). lia. }
  assert (Hrest : f_rest (rr_host s2) (mkFILE (f_name f) (f_pos f) false) = item_bytes i ++ []).
  { unfold f_rest. simpl. rewrite Hdata, (rec_end _ _ _ Hr), drop_app_length. by rewrite app_nil_r. }
  pose proof (item_bytes_pos i) as Hpos. unfold in_width in Hsz.
  destruct (empty_buf i) eqn:He.
  - eapply read_item_rejects; [|done|right; right; by exists i, []].
    split; [split; [done|done|unfold in_width; lia]|done|done|].
    rewrite Hsize, Hb, wrap_small; [lia|]. unfold in_width. lia.
  - assert (Hat : log_at s2 l2 (mkFILE (f_name f) (f_pos f) false) [i]).
    { split; try done.
      - apply Forall_singleton. by apply wf_fits.
      - rewrite Hb, Hsize. simpl. by rewrite app_nil_r.
      - lia.
      - by rewrite Hsize. }
    destruct (read_item_ok s2 l2 _ i [] qs rs Hat Hm Hq Hbrk)
      as (p & q' & rs' & Hread & Hat' & _ & (Hd & _) & _).
    do 2 eexists. split; [exact Hread|]. split; [exact Hd|].
    rewrite (is_empty_ok _ _ _ _ Hat'). by rewrite bool_decide_true.
Qed.

(** ** The queue *)

(** C31. [rr_fill_queue] on an empty queue takes from the file exactly the entries up
    to the first one the guest must be interrupted for (at most
    [RR_MAX_QUEUE_LEN + 1] of them), sets the countdown to that entry, and reads
    the rest later. *)
Theorem fill_queue_window s items :
  replays s [] items →
  let '(t, r, e) := fill_take (Z.to_nat RR_MAX_QUEUE_LEN) items in
  ∃ s', rr_fill_queue s = Ok () s' ∧ replays s' t r ∧ t ++ r = items ∧
    (items ≠ [] → t ≠ []) ∧ Z.of_nat (length t) ≤ RR_MAX_QUEUE_LEN + 1 ∧
    rr_num_instr_before_next_interrupt s' = next_interrupt s e.
Proof.
  intros Hr. pose proof (fill_queue_exact s items Hr) as HL.
  pose proof (fill_take_app (Z.to_nat RR_MAX_QUEUE_LEN) items) as Happ.
  pose proof (fill_take_nil (Z.to_nat RR_MAX_QUEUE_LEN) items) as Hnil.
  pose proof (fill_take_length (Z.to_nat RR_MAX_QUEUE_LEN) items) as Hlen.
  destruct (fill_take _ items) as [[t r] e]. destruct HL as (s' & ? & ? & _ & ?).
  exists s'. split_and!; try done; simpl in *; [naive_solver|]. unfold RR_MAX_QUEUE_LEN in *. lia.
Qed.

(** What an input replays to: the value of the next entry when it is an input of
    this size recorded at this call site and the current point, else nothing. *)
Definition input_value (n : input_size) (b : log_body) : option Z :=
  match n, b with
  | In1, LInput1 v | In2, LInput2 v | In4, LInput4 v | In8, LInput8 v => Some v
  | _, _ => None
  end.

Definition input_spec (cur : RR_prog_point) (n : input_size) (cs : Z) (pend : list log_item)
    : option (Z * list log_item) :=
  match pend with
  | i :: rest =>
      if (li_callsite i =? cs) && pp_here cur (li_pp i)
      then (λ v, (v, rest)) <$> input_value n (li_body i) else None
  | [] => None
  end.

Lemma input_value_body n b v : input_value n b = Some v → b = input_body n v.
Proof. by destruct n, b; intros [= ->]. Qed.

Lemma input_value_none n b : input_value n b = None → body_kind b ≠ input_kind n.
Proof. by destruct n, b. Qed.

(** C8. [rr_replay_input_1/2/4/8] refine [input_spec]: where it is defined they
    return the recorded value and consume the entry; where it is not, the
    process stops. *)
Theorem replay_input_refines s n cs pend :
  replay_inv s pend → (∀ i, head pend = Some i → no_debug i) →
  match input_spec (rr_prog_point s) n cs pend with
  | Some (v, rest) => ∃ s', rr_replay_input n cs s = Ok v s' ∧ replay_inv s' rest ∧ rr_frame s s'
  | None => ∃ e s', rr_replay_input n cs s = Err e s' ∧ (e = ExitFailure ∨ e = Abort)
  end.
Proof.
  intros Hi Hd. destruct pend as [|[pp cs' b] rest]; simpl.
  { by apply (replay_input_wrong _ _ _ []). }
  pose proof (replay_input_wrong s n cs _ Hi) as Hwrong. simpl in Hwrong.
  destruct (Z.eqb_spec cs' cs) as [->|Hcs]; simpl;
    [destruct (pp_here (rr_prog_point s) pp) eqn:Hpp; simpl;
      [destruct (input_value n b) as [v|] eqn:Hv; simpl|]|].
  - apply input_value_body in Hv as ->. by apply (replay_input_ok s n v pp).
  - apply Hwrong. intros i [= <-]. split; [by apply Hd|]. intros Hk.
    by apply input_value_none in Hv.
  - apply Hwrong. intros i [= <-]. split; [by apply Hd|done].
  - apply Hwrong. intros i [= <-]. split; [by apply Hd|done].
Qed.

(** Interrupt requests: a recorded request is replayed at its call site and
    point, 0 everywhere else, and the queue is refilled behind it. *)
Theorem replay_interrupt_refines s cs pend :
  replay_inv s pend → not_past (rr_prog_point s) pend →
  let r := interrupt_spec (rr_prog_point s) cs pend in
  ∃ s', rr_replay_interrupt_request cs s = Ok r.1 s' ∧ replay_inv s' r.2 ∧ rr_frame s s'.
Proof.
  intros Hi Hn. destruct (replay_interrupt_ok s cs pend Hi Hn) as (s' & ? & ? & ? & _). by exists s'.
Qed.

(** Exit requests likewise; an entry of another call site is refused. *)
Theorem replay_exit_refines s cs pend :
  replay_inv s pend → not_past (rr_prog_point s) pend →
  (∀ i, head pend = Some i →
     no_debug i ∧ (body_kind (li_body i) = RR_EXIT_REQUEST → li_callsite i = cs)) →
  let r := exit_spec (rr_prog_point s) pend in
  ∃ s', rr_replay_exit_request cs s = Ok r.1 s' ∧ replay_inv s' r.2 ∧ rr_frame s s'.
Proof. apply replay_exit_ok. Qed.

(** C16. [rr_replay_skipped_calls_internal] returns; it has performed the calls that
    head the log and belong to the current point, in order, and nothing else. *)
Theorem replay_calls_refines cs s pend :
  replay_inv s pend → callbacks_ok (rr_cbs s) →
  let '(ks, r) := take_calls (rr_prog_point s) pend in
  calls_map (rr_cbs s) (rr_trace s) ks → not_past (rr_prog_point s) r →
  ∃ s', rr_replay_skipped_calls_internal cs s = Ok () s' ∧ replay_inv s' r ∧
    rr_frame_tr s s' (call_events (rr_cbs s) (rr_trace s) ks).
Proof. apply replay_calls_ok. Qed.

(** Once the guest is past the point of the entry it asks for, the replay is
    torn down and the process aborts. *)
Theorem past_the_log_aborts s i rest k cs chk :
  replay_inv s (i :: rest) → (skips_debug k → no_debug i) →
  wanted k cs chk i = true → pp_ahead (rr_prog_point s) (li_pp i) = true →
  ∃ s', get_next_entry k cs chk s = Err Abort s'.
Proof.
  intros Hi Hd Hw Ha. pose proof (get_next_cons s i rest k cs chk Hi Hd) as Hg. cbv zeta in Hg.
  assert (pp_here (rr_prog_point s) (li_pp i) = false) as Hh.
  { destruct (pp_here _ _) eqn:E; [|done]. apply here_not_ahead in E. congruence. }
  by rewrite Hw, Ha, Hh in Hg.
Qed.

(** The countdown is kept: in a replay whose queue holds an entry to be
    interrupted for, moving the program point leaves it at the distance to that
    entry, so the CPU loop can stop the guest there. *)
Theorem countdown_kept s p qi i :
  countdown_ok s qi → last qi = Some i → stops_item i = true →
  let s' := set_rr_prog_point p (set_rr_num_instr_before_next_interrupt
    (wrap 64 (rr_num_instr_before_next_interrupt s
       - (guest_instr_count p - guest_instr_count (rr_prog_point s)))) s) in
  rr_set_prog_point (pc p) (secondary p) (guest_instr_count p) s = Ok () s' ∧
  rr_num_instr_before_next_interrupt s' = wrap 64 (guest_instr_count (li_pp i) - guest_instr_count p).
Proof.
  intros Hc Hl Hs s'. split; [by destruct p|]. simpl.
  rewrite (Hc i Hl Hs), wrap_sub_l. f_equal. lia.
Qed.

(** At the end of a replay every entry is released, once: no access to freed
    memory, and no node of the queue or of the recycle list is left. The replay
    counts as completed when the queue held only the end of the log. *)
Theorem end_replay_releases s l f fi qi qs rs :
  log_at s l f fi → qrep (rr_q s) qs rs → Forall2 loaded qs.*2 qi →
  ∃ q' s', rr_do_end_replay false s = Ok () s' ∧ rr_q s' = q' ∧
    (∀ k, q_heap q' !! k = if decide (k ∈ qs.*1 ++ rs.*1) then None else q_heap (rr_q s) !! k) ∧
    rr_queue_head q' = None ∧ recycle_list q' = None ∧ rr_mode s' = RR_OFF ∧
    rr_nondet_log s' = None ∧
    rr_trace s' = rr_trace s ++ [EvEndReplay false (only_last qi); EvShutdownRequest].
Proof.
  intros Hl Hq Hf. destruct (end_replay_heap s l f fi qi qs rs false Hl Hq Hf) as (q' & Hq' & Hh & He).
  exists q'. eexists. split; [exact He|]. split; [done|]. split; [done|].
  split; [apply (qr_queue _ _ _ Hq')|]. split; [apply (qr_recycle _ _ _ Hq')|done].
Qed.

(** ** Debug entries *)

Lemma holding_forget s p i qi fi : holding s p i qi fi → replays s qi fi.
Proof. intros (l & f & qs & rs & e & ? & ? & ? & ? & ? & _). by exists l, f, qs, rs. Qed.

Lemma drop_debug_prefix ds : ∀ n s qi fi,
  replays s (ds ++ qi) fi → Forall (λ i, li_body i = LDebug) ds →
  (∀ i, head qi = Some i → no_debug i) → (length ds ≤ n)%nat →
  ∃ s', drop_debug n s = Ok () s' ∧ replays s' qi fi ∧ rr_frame s s'.
Proof.
  induction ds as [|d ds IH]; intros n s qi fi Hr Hd Hq Hn.
  { exists s. split; [|by split; [|apply rr_frame_refl]]. destruct qi as [|i qi].
    - destruct Hr as (l & f & qs & rs & _ & _ & Hqr & _ & Hf).
      apply Forall2_nil_inv_r, fmap_nil_inv in Hf as ->.
      pose proof (qr_queue _ _ _ Hqr) as Hh. simpl in Hh.
      destruct n; cbn [drop_debug]; by rewrite bind_gets, Hh.
    - by eapply drop_debug_ok, Hq. }
  destruct n as [|n]; [simpl in Hn; lia|]. apply Forall_cons in Hd as [Hd Hds].
  destruct (peek_ok _ _ _ _ Hr) as (p & e & Hh & Hld & _ & He).
  cbn [drop_debug]. rewrite bind_gets, Hh, (bind_Ok _ _ _ _ _ Hld).
  rewrite decide_True by (by rewrite (loaded_kind _ _ He), Hd).
  destruct (pop_ok _ _ _ _ Hr) as (p' & s1 & Hpop & Hhold & Hf1 & _).
  rewrite (bind_Ok _ _ _ _ _ Hpop).
  destruct (IH n s1 qi fi) as (s2 & H2 & Hr2 & Hf2);
    [by eapply holding_forget|done|done|simpl in Hn; lia|].
  exists s2. split; [done|]. split; [done|]. by eapply rr_frame_trans.
Qed.

(** When the queue holds nothing but debug entries, looking for an input drops
    them all and then reads the kind of the entry behind the null head. *)
Theorem debug_only_queue_crashes s qi k cs chk :
  replays s qi [] → qi ≠ [] → Forall (λ i, li_body i = LDebug) qi → skips_debug k →
  ∃ s', get_next_entry k cs chk s = Err Segv s'.
Proof.
  intros Hr Hne Hd Hk. unfold get_next_entry.
  destruct qi as [|i qi]; [done|]. destruct (peek_ok _ _ _ _ Hr) as (p & e & Hh & _).
  rewrite bind_gets, Hh, bind_ret, bind_gets, Hh. rewrite decide_True by done. rewrite bind_assoc, bind_gets.
  rewrite <-(app_nil_r (i :: qi)) in Hr.
  destruct (drop_debug_prefix (i :: qi) (heap_fuel s) s [] []) as (s' & H1 & Hr1 & _); [done..| |].
  { destruct Hr as (l & f & qs & rs & _ & _ & Hq & _ & Hf). rewrite app_nil_r in Hf.
    rewrite <-(Forall2_length _ _ _ Hf), length_fmap. unfold heap_fuel.
    eapply chain_size; [apply Hq|]. pose proof (qr_nodup _ _ _ Hq) as Hnd.
    by apply NoDup_app in Hnd as [? _]. }
  rewrite (bind_Ok _ _ _ _ _ H1).
  destruct Hr1 as (l & f & qs & rs & _ & _ & Hq & _ & Hf).
  apply Forall2_nil_inv_r, fmap_nil_inv in Hf as ->.
  pose proof (qr_queue _ _ _ Hq) as Hh'. simpl in Hh'.
  eexists. apply bind_Err. unfold peek. rewrite bind_gets, Hh'. done.
Qed.

End Theorems.

(** ** Concrete states *)

Module Examples.

#[local] Existing Instance Demo.machine.
#[local] Existing Instance Demo.target.

(** The log file with [items], and the replay of it before and after the queue
    is filled. *)
Definition log_file (items : list log_item) : host :=
  Host {[ log_path (Some "d") := pp_bytes pp_zero ++ concat (item_bytes <$> items) ]} ∅.

Definition idle_on (items : list log_item) : rr_state :=
  rr_init (log_file items) (Demo.cpu 0) cb_init.

Definition end_state {A} (o : outcome rr_state A) : rr_state :=
  match o with Ok _ s => s | Err _ s => s end.

Definition opened (items : list log_item) : rr_state :=
  set_rr_mode RR_REPLAY (end_state (rr_create_replay_log (log_path (Some "d")) (idle_on items))).

Definition replaying_on (items : list log_item) : rr_state :=
  end_state (rr_do_begin_replay (Some "d") (idle_on items)).

Definition at_point (p : RR_prog_point) (s : rr_state) : rr_state :=
  set_rr_prog_point p (set_rr_num_instr_before_next_interrupt
    (wrap 64 (rr_num_instr_before_next_interrupt s
       - (guest_instr_count p - guest_instr_count (rr_prog_point s)))) s).

Definition items_ok (items : list log_item) : Prop :=
  Forall wf_item items ∧ in_width 64 (24 + zlen (concat (item_bytes <$> items))).

#[export] Instance items_ok_dec items : Decision (items_ok items).
Proof. unfold items_ok. apply _. Defined.

Lemma empty_queue_rep : qrep queue_init [] [].
Proof.
  split; simpl; try done; [constructor|]. intros l [x Hx]. by rewrite lookup_empty in Hx.
Qed.

Lemma log_file_lookup items :
  h_files (log_file items) !! log_path (Some "d")
  = Some (pp_bytes pp_zero ++ concat (item_bytes <$> items)).
Proof. apply lookup_insert_eq. Qed.

Lemma opened_replays items : items_ok items → replays (opened items) [] items.
Proof.
  intros [Hwf Hsz]. unfold opened.
  destruct (create_replay_log_ok (idle_on items) (log_path (Some "d")) pp_zero items)
    as (l & H1 & _ & Hat); [done|apply log_file_lookup|done|done|].
  rewrite H1. simpl end_state. exists l, (mkFILE (log_path (Some "d")) 24 false), [], [].
  split; [by destruct Hat|]. split; [done|]. split; [apply empty_queue_rep|]. by split.
Qed.

Lemma replaying_on_inv items : items_ok items → replay_inv (replaying_on items) items.
Proof.
  intros [Hwf Hsz]. unfold replaying_on.
  destruct (begin_replay_ok (idle_on items) (Some "d") pp_zero items) as (s' & H1 & Hi & _);
    [exists []; apply empty_queue_rep|done|eexists; apply cb_init_rep|done|apply log_file_lookup
    |done|done|]. by rewrite H1.
Qed.

Lemma at_point_inv p items : items_ok items → replay_inv (at_point p (replaying_on items)) items.
Proof. intros. by apply replay_inv_point, replaying_on_inv. Qed.

Lemma at_point_same_cbs p s : rr_cbs (at_point p s) = rr_cbs s.
Proof. done. Qed.

Lemma at_point_cbs p items : items_ok items → callbacks_ok (rr_cbs (at_point p (replaying_on items))).
Proof.
  intros [Hwf Hsz]. rewrite at_point_same_cbs. unfold replaying_on.
  destruct (begin_replay_ok (idle_on items) (Some "d") pp_zero items) as (s' & H1 & _ & Hc & _);
    [exists []; apply empty_queue_rep|done|eexists; apply cb_init_rep|done|apply log_file_lookup
    |done|done|]. rewrite H1. cbn [end_state]. rewrite Hc. eexists. apply cb_init_rep.
Qed.

#[local] Opaque replaying_on opened.

Ltac decide_now := apply (bool_decide_unpack _); vm_compute; exact I.

Definition p1 : RR_prog_point := mkPP 4096 1 10.
Definition p2 : RR_prog_point := mkPP 4200 2 25.
Definition input_items : list log_item :=
  [mkItem p1 17 (LInput4 42); mkItem p2 18 (LInterrupt 2); mkItem p2 0 LLast].
Definition call_items : list log_item :=
  [mkItem p1 17 (LCall (LRegion 1 2 3)); mkItem p1 17 (LCall (LMemRw 8 9 [Corelib.Init.Byte.x07]));
   mkItem p2 18 (LExit 1); mkItem p2 0 LLast].

Lemma input_items_ok : items_ok input_items.
Proof. decide_now. Qed.
Lemma call_items_ok : items_ok call_items.
Proof. decide_now. Qed.

Lemma fill_queue_window_witness :
  replays (opened input_items) [] input_items ∧
  ∃ s', rr_fill_queue (opened input_items) = Ok () s' ∧
    replays s' (take 2 input_items) (drop 2 input_items) ∧
    rr_num_instr_before_next_interrupt s' = 25.
Proof.
  split; [apply opened_replays, input_items_ok|].
  destruct (fill_queue_window (opened input_items) input_items) as (s' & Hf & Hr & _ & _ & _ & Hn);
    [apply opened_replays, input_items_ok|].
  exists s'. split; [exact Hf|]. split; [exact Hr|]. rewrite Hn. vm_compute. reflexivity.
Defined.

Lemma replay_input_refines_witness :
  replay_inv (at_point p1 (replaying_on input_items)) input_items ∧
  (∃ s', rr_replay_input In4 17 (at_point p1 (replaying_on input_items)) = Ok 42 s' ∧
     replay_inv s' (drop 1 input_items)) ∧
  (∃ e s', rr_replay_input In1 17 (at_point p1 (replaying_on input_items)) = Err e s').
Proof.
  assert (Hi := at_point_inv p1 _ input_items_ok).
  assert (Hd : ∀ i, head input_items = Some i → no_debug i) by (by intros i [= <-]).
  split; [exact Hi|]. split.
  - destruct (replay_input_refines _ In4 17 _ Hi Hd) as (s' & H1 & H2 & _). exists s'. exact (conj H1 H2).
  - destruct (replay_input_refines _ In1 17 _ Hi Hd) as (e & s' & H1 & _). exists e, s'. exact H1.
Defined.

Lemma replay_interrupt_refines_witness :
  ∃ s', rr_replay_interrupt_request 18 (at_point p2 (replaying_on (drop 1 input_items))) = Ok 2 s' ∧
    replay_inv s' (drop 2 input_items).
Proof.
  assert (Hi := at_point_inv p2 (drop 1 input_items) ltac:(decide_now)).
  destruct (replay_interrupt_refines _ 18 _ Hi) as (s' & H1 & H2 & _); [by intros i [= <-]|].
  exists s'. exact (conj H1 H2).
Defined.

Lemma replay_exit_refines_witness :
  ∃ s', rr_replay_exit_request 18 (at_point p2 (replaying_on (drop 2 call_items))) = Ok 1 s' ∧
    replay_inv s' (drop 3 call_items).
Proof.
  assert (Hi := at_point_inv p2 (drop 2 call_items) ltac:(decide_now)).
  destruct (replay_exit_refines _ 18 _ Hi) as (s' & H1 & H2 & _);
    [by intros i [= <-]|by intros i [= <-]|].
  exists s'. exact (conj H1 H2).
Defined.

Lemma replay_calls_refines_witness :
  let s := at_point p1 (replaying_on call_items) in
  ∃ s', rr_replay_skipped_calls_internal 17 s = Ok () s' ∧ replay_inv s' (drop 2 call_items) ∧
    rr_frame_tr s s' (call_events (rr_cbs s) (rr_trace s)
      [LRegion 1 2 3; LMemRw 8 9 [Corelib.Init.Byte.x07]]).
Proof.
  intros s.
  assert (Hi := at_point_inv p1 call_items call_items_ok).
  assert (Hc := at_point_cbs p1 call_items call_items_ok).
  apply (replay_calls_refines 17 s call_items Hi Hc).
  - by split.
  - by intros i [= <-].
Defined.

Lemma past_the_log_aborts_witness :
  ∃ s', get_next_entry RR_INPUT_4 17 false (at_point p2 (replaying_on input_items)) = Err Abort s'.
Proof.
  apply (past_the_log_aborts _ _ _ RR_INPUT_4 17 false (at_point_inv p2 _ input_items_ok));
    [done|reflexivity|reflexivity].
Defined.

Lemma countdown_kept_witness :
  let s := at_point p1 (opened input_items) in
  rr_num_instr_before_next_interrupt
    (set_rr_num_instr_before_next_interrupt 15 s) = 15 ∧
  ∃ s', rr_set_prog_point (pc p2) (secondary p2) (guest_instr_count p2)
          (set_rr_num_instr_before_next_interrupt 15 s) = Ok () s' ∧
    rr_num_instr_before_next_interrupt s' = 0.
Proof.
  intros s. split; [reflexivity|].
  destruct (countdown_kept (set_rr_num_instr_before_next_interrupt 15 s) p2 (take 2 input_items)
    (mkItem p2 18 (LInterrupt 2))) as [H1 H2].
  - intros i [= <-] _. reflexivity.
  - reflexivity.
  - reflexivity.
  - eexists. split; [exact H1|]. rewrite H2. reflexivity.
Defined.

Lemma end_replay_releases_witness :
  ∃ s', rr_do_end_replay false (opened input_items) = Ok () s' ∧ rr_mode s' = RR_OFF ∧
    q_heap (rr_q s') = ∅.
Proof.
  assert (Hex : ∃ l f, log_at (opened input_items) l f input_items).
  { destruct (opened_replays _ input_items_ok) as (l & f & _ & _ & Hl & _). by exists l, f. }
  destruct Hex as (l & f & Hl).
  destruct (end_replay_releases (opened input_items) l f input_items [] [] [] Hl)
    as (q' & s' & H1 & H2 & H3 & _ & _ & H4 & _);
    [vm_compute; apply empty_queue_rep|constructor|].
  exists s'. split; [exact H1|]. split; [exact H4|]. rewrite H2. apply map_eq. intros k.
  rewrite H3. vm_compute. reflexivity.
Defined.

Definition debug_items : list log_item := [mkItem p1 0 LDebug; mkItem p1 0 LDebug].

Lemma debug_only_queue_crashes_witness :
  ∃ s s', replays s debug_items [] ∧ get_next_entry RR_INPUT_1 17 false s = Err Segv s'.
Proof.
  assert (Hok : items_ok debug_items) by decide_now.
  assert (Hx : fill_take (Z.to_nat RR_MAX_QUEUE_LEN) debug_items = (debug_items, [], FEmpty))
    by reflexivity.
  pose proof (fill_queue_exact _ _ (opened_replays _ Hok)) as He. rewrite Hx in He.
  destruct He as (s1 & _ & Hr1 & _).
  destruct (debug_only_queue_crashes s1 debug_items RR_INPUT_1 17 false Hr1) as [s' Hs'];
    [done|by repeat constructor|by split|].
  by exists s1, s'.
Defined.

(** Writing a call at the end of an empty log, and reading it in another process. *)
Definition rec_entry : RR_log_entry :=
  mkEntry p1 17 (VCall (ArgsMemRw (mkMemRw 4096 Demo.buf 2))).
Definition rec_log : RR_log :=
  set_current_item rec_entry (set_log_fp (Some (mkFILE "f" 24 false)) (g_new0_log RECORD "f")).
Definition rec_on : rr_state :=
  set_rr_mode RR_RECORD (set_rr_nondet_log (Some rec_log)
    (rr_init (Host {[ "f" := pp_bytes pp_zero ]} ∅) (Demo.cpu 0) cb_init)).
Definition rep_log : RR_log :=
  set_log_size 77 (set_bytes_read 24 (set_log_fp (Some (mkFILE "f" 24 false))
    (g_new0_log REPLAY "f"))).
Definition rep_on (h : host) : rr_state :=
  set_rr_mode RR_REPLAY (set_rr_nondet_log (Some rep_log) (rr_init h (Demo.cpu 0) cb_init)).

Lemma item_round_trip_witness :
  ∃ s1, rr_write_item rec_on = Ok () s1 ∧
    h_data (rr_host s1) "f" = pp_bytes pp_zero ++ item_bytes (item_of_entry rec_entry) ∧
    ∃ p s', rr_read_item (rep_on (rr_host s1)) = Ok p s' ∧ rr_log_is_empty s' = Ok true s'.
Proof.
  destruct (item_round_trip rec_on rec_log (mkFILE "f" 24 false)) as (s1 & H1 & H2).
  - split; [done|done|done|by eexists|done].
  - vm_compute. intuition discriminate.
  - decide_now.
  - decide_now.
  - exists s1. split; [exact H1|].
    assert (Hd : h_data (rr_host s1) "f" = pp_bytes pp_zero ++ item_bytes (item_of_entry rec_entry)).
    { vm_compute in H1. injection H1 as <-. vm_compute. reflexivity. }
    split; [exact Hd|].
    destruct (H2 (rep_on (rr_host s1)) rep_log [] []) as (p & s' & Hr & _ & He);
      [reflexivity..| |exact empty_queue_rep|reflexivity|].
    + unfold stat_size. simpl f_name. rewrite Hd. reflexivity.
    + by exists p, s'.
Defined.

Definition cut_log : RR_log :=
  set_log_size 40 (set_bytes_read 24 (set_log_fp (Some (mkFILE "f" 24 false))
    (g_new0_log REPLAY "f"))).
Definition cut_state : rr_state :=
  set_rr_mode RR_REPLAY (set_rr_nondet_log (Some cut_log)
    (rr_init (Host {[ "f" := zero_bytes 40 ]} ∅) (Demo.cpu 0) cb_init)).

Lemma read_item_rejects_witness : ∃ e s', rr_read_item cut_state = Err e s'.
Proof.
  apply (read_item_rejects cut_state cut_log (mkFILE "f" 24 false) [] []).
  - split; [split; [done|done|decide_now]|done|done|done].
  - apply empty_queue_rep.
  - left. vm_compute. lia.
Defined.

End Examples.
