(* ===== verification/RRModes.v ===== *)
(** * Modes of record/replay: which log is open when

    In every reachable state the mode and the log descriptor agree: no log is
    open while the mode is off, a recording writes to a log of type RECORD and a
    replay reads one of type REPLAY. Steps are the monitor commands, iterations
    of the main loop and steps of the guest. *)

From S2P Require Import Prelude CFile RRTypes PandaCallbacks RRState RRQueue RRFormat RRReplay.
From S2P Require Import RRReplayInv RRRecord RRMonitor RRSession.
From stdpp Require Import relations.
Local Open Scope Z_scope.

Create HintDb stable discriminated.

(** The part of the state the invariant is about. *)
Definition log_shape (s : rr_state) : RR_mode * option (RR_log_type * bool) :=
  (rr_mode s, (λ l, (log_type l, bool_decide (is_Some (log_fp l)))) <$> rr_nondet_log s).

(** Operations that leave it alone whenever they return. *)
Definition stable {A} (m : RR A) : Prop :=
  ∀ s a s', m s = Ok a s' → log_shape s' = log_shape s.

Lemma stable_bind {A B} (m : RR A) (k : A → RR B) :
  stable m → (∀ a, stable (k a)) → stable (m ≫= k).
Proof. intros Hm Hk s b s' (a & s1 & H1 & H2)%bind_inv_Ok. by rewrite (Hk _ _ _ _ H2), (Hm _ _ _ H1). Qed.

Lemma stable_ret {A} (a : A) : stable (mret a).
Proof. by intros s a' s' [= _ <-]. Qed.

Lemma stable_gets {A} (f : rr_state → A) : stable (gets f).
Proof. by intros s a s' [= _ <-]. Qed.

Lemma stable_fail {A} e : stable (fail e : RR A).
Proof. by intros s a s' ?. Qed.

Lemma stable_assert e b : stable (assert_or e b).
Proof. intros s a s'. unfold assert_or. by destruct b; intros [= _ <-]. Qed.

Lemma stable_nonnull {A} (p : option A) : stable (nonnull p).
Proof. intros s a s'. destruct p; [|done]. by intros [= _ <-]. Qed.

Lemma stable_modify f : (∀ s, log_shape (f s) = log_shape s) → stable (modify f).
Proof. by intros Hf s a s' [= _ <-]. Qed.

Lemma stable_on_q {A} (m : M rr_queue A) : stable (on_q m).
Proof. intros s a s'. unfold on_q. destruct (m (rr_q s)); [|done]. by intros [= _ <-]. Qed.

Lemma stable_on_cbs {A} (m : M cb_state A) : stable (on_cbs m).
Proof. intros s a s'. unfold on_cbs. destruct (m (rr_cbs s)); [|done]. by intros [= _ <-]. Qed.

Lemma stable_get_log : stable get_log.
Proof. apply stable_bind; [apply stable_gets|intros]. apply stable_nonnull. Qed.

Lemma get_log_inv s l s' : get_log s = Ok l s' → rr_nondet_log s = Some l ∧ s' = s.
Proof.
  unfold get_log. rewrite bind_gets. destruct (rr_nondet_log s); [|done]. by intros [= -> ->].
Qed.

Lemma bind_nonnull_inv {S A B} (p : option A) (k : A → M S B) s b s' :
  (nonnull p ≫= k) s = Ok b s' → ∃ a, p = Some a ∧ k a s = Ok b s'.
Proof. destruct p as [a|]; [|done]. rewrite bind_nonnull. by exists a. Qed.

Lemma stable_upd_log f :
  (∀ l, log_type (f l) = log_type l ∧ (is_Some (log_fp (f l)) ↔ is_Some (log_fp l))) →
  stable (upd_log f).
Proof.
  intros Hf s a s' (l & s1 & [E ->]%get_log_inv & H2)%bind_inv_Ok. injection H2 as _ <-.
  unfold log_shape. simpl. rewrite E. simpl.
  destruct (Hf l) as [-> Hi]. by rewrite (bool_decide_ext _ _ Hi).
Qed.

Lemma stable_log_fwrite bs : stable (log_fwrite bs).
Proof.
  intros s a s' Hx. pose proof Hx as (l & s1 & [E ->]%get_log_inv & H2)%bind_inv_Ok.
  apply bind_nonnull_inv in H2 as (f & Ef & _). rewrite (log_fwrite_gen _ _ _ _ E Ef) in Hx.
  injection Hx as _ <-. unfold log_shape. simpl. rewrite E. simpl. by rewrite Ef.
Qed.

Lemma stable_log_fread n : stable (log_fread n).
Proof.
  intros s a s' (l & s1 & [E ->]%get_log_inv & H2)%bind_inv_Ok.
  apply bind_nonnull_inv in H2 as (f & Ef & H2). rewrite bind_gets in H2.
  unfold fread in H2. erewrite bind_Ok in H2 by (by apply upd_log_ok).
  injection H2 as _ <-. unfold log_shape. simpl. rewrite E. simpl. by rewrite Ef.
Qed.

#[export] Hint Resolve stable_ret stable_gets stable_fail stable_assert stable_nonnull stable_on_q
  stable_on_cbs stable_get_log stable_log_fwrite stable_log_fread : stable.
#[export] Hint Extern 1 (stable (modify _)) => apply stable_modify; done : stable.
#[export] Hint Extern 1 (stable (upd_log _)) => apply stable_upd_log; done : stable.
#[export] Hint Extern 1 (stable (rr_assert _)) => apply stable_assert : stable.
#[export] Hint Extern 1 (stable (emit _)) => apply stable_modify; done : stable.
#[export] Hint Extern 1 (stable (upd_req _)) => apply stable_modify; done : stable.

(** Walk through an operation: binds, case distinctions, known operations. *)
Ltac stable :=
  repeat first
    [ match goal with |- ∀ _, _ => intro end
    | solve [eauto 2 with stable]
    | apply stable_bind
    | match goal with
      | |- stable (if ?b then _ else _) => destruct b
      | |- stable (match ?x with _ => _ end) => destruct x
      end ].

Section Modes.
Context `{TargetPhys} `{Machine}.

(** ** Recording and replaying do not change what is open *)

Lemma stable_write_item : stable rr_write_item.
Proof. unfold rr_write_item, write_call_args, fwrite_buf. stable. Qed.
#[local] Hint Resolve stable_write_item : stable.

Lemma stable_is_empty : stable rr_log_is_empty.
Proof. unfold rr_log_is_empty. stable. Qed.
#[local] Hint Resolve stable_is_empty : stable.

Lemma stable_add_bytes n : stable (add_bytes_read n).
Proof. unfold add_bytes_read. stable. Qed.
Lemma stable_fread_struct n : stable (fread_struct n).
Proof. unfold fread_struct. stable. Qed.
Lemma stable_fread_int n : stable (fread_int n).
Proof. unfold fread_int. stable. Qed.
#[local] Hint Resolve stable_add_bytes stable_fread_struct stable_fread_int : stable.

Lemma stable_read_item : stable rr_read_item.
Proof.
  unfold rr_read_item, read_entry, read_variant, read_call_args, read_input, fread_buf,
    fread_packet_buf. stable.
Qed.
#[local] Hint Resolve stable_read_item : stable.

Lemma stable_fill_loop n : ∀ num, stable (fill_loop n num).
Proof.
  induction n as [|n IH]; intros num; cbn [fill_loop]; unfold set_next_interrupt; stable.
Qed.
#[local] Hint Resolve stable_fill_loop : stable.

Lemma stable_fill_queue : stable rr_fill_queue.
Proof.
  unfold rr_fill_queue. stable. apply stable_modify. intros s. by case_match.
Qed.
#[local] Hint Resolve stable_fill_queue : stable.

(** A replay that ends in an error does not return. *)
Lemma end_replay_error s a s' : rr_do_end_replay true s = Ok a s' → False.
Proof.
  unfold rr_do_end_replay. intros Hx.
  repeat (apply bind_inv_Ok in Hx as (? & ? & _ & Hx)). done.
Qed.

Lemma stable_end_replay_error : stable (rr_do_end_replay true).
Proof. intros s x s' Hx. by apply end_replay_error in Hx. Qed.
#[local] Hint Resolve stable_end_replay_error : stable.

Lemma stable_compare cur rec : stable (rr_prog_point_compare cur rec).
Proof. unfold rr_prog_point_compare. stable. Qed.
#[local] Hint Resolve stable_compare : stable.

Lemma stable_drop_debug n : stable (drop_debug n).
Proof. induction n; cbn [drop_debug]; stable. Qed.
#[local] Hint Resolve stable_drop_debug : stable.

Lemma stable_peek : stable peek.
Proof. unfold peek. stable. Qed.
Lemma stable_entry_at p : stable (entry_at p).
Proof. unfold entry_at. stable. Qed.
#[local] Hint Resolve stable_peek stable_entry_at : stable.

Lemma stable_get_next k cs chk : stable (get_next_entry k cs chk).
Proof. unfold get_next_entry. stable. Qed.
#[local] Hint Resolve stable_get_next : stable.

Lemma stable_replay_input k sel cs : stable (replay_input k sel cs).
Proof. unfold replay_input. stable. Qed.
Lemma stable_replay_interrupt cs : stable (rr_replay_interrupt_request cs).
Proof. unfold rr_replay_interrupt_request. stable. Qed.
Lemma stable_replay_exit cs : stable (rr_replay_exit_request cs).
Proof. unfold rr_replay_exit_request. stable. Qed.
Lemma stable_replay_debug cs : stable (rr_replay_debug cs).
Proof. unfold rr_replay_debug. stable. Qed.

Lemma stable_run_callbacks t ev : stable (run_callbacks t ev).
Proof. unfold run_callbacks. stable. Qed.
Lemma stable_buf_bytes b n : stable (buf_bytes b n).
Proof. unfold buf_bytes. stable. Qed.
#[local] Hint Resolve stable_run_callbacks stable_buf_bytes : stable.
Lemma stable_replay_call a : stable (replay_call a).
Proof. unfold replay_call. stable. Qed.
#[local] Hint Resolve stable_replay_call : stable.

Lemma stable_calls_loop n cs : stable (skipped_calls_loop n cs).
Proof. induction n; cbn [skipped_calls_loop]; stable. Qed.
#[local] Hint Resolve stable_calls_loop : stable.
Lemma stable_replay_calls : stable rr_replay_skipped_calls.
Proof. unfold rr_replay_skipped_calls, rr_replay_skipped_calls_internal. stable. Qed.
#[local] Hint Resolve stable_replay_input stable_replay_interrupt stable_replay_exit
  stable_replay_debug stable_replay_calls : stable.

(** ** Recording *)

Lemma stable_record_item cs v : stable (record_item cs v).
Proof. unfold record_item. stable. Qed.
#[local] Hint Resolve stable_record_item : stable.

Lemma stable_rr_input n v : stable (rr_input n v).
Proof.
  destruct n; unfold rr_input, rr_input_1, rr_input_2, rr_input_4, rr_input_8, by_mode,
    rr_record_input_1, rr_record_input_2, rr_record_input_4, rr_record_input_8,
    rr_replay_input_1, rr_replay_input_2, rr_replay_input_4, rr_replay_input_8; stable.
Qed.
Lemma stable_rr_interrupt v : stable (rr_interrupt_request v).
Proof. unfold rr_interrupt_request, by_mode, rr_record_interrupt_request. stable. Qed.
Lemma stable_rr_exit v : stable (rr_exit_request v).
Proof. unfold rr_exit_request, by_mode, rr_record_exit_request. stable. Qed.
Lemma stable_rr_debug : stable rr_debug.
Proof. unfold rr_debug, rr_record_debug. stable. Qed.
Lemma stable_set_program_point : stable rr_set_program_point.
Proof. unfold rr_set_program_point, rr_set_prog_point. stable. Qed.
#[local] Hint Resolve stable_rr_input stable_rr_interrupt stable_rr_exit stable_rr_debug
  stable_set_program_point : stable.

(** ** Steps of the guest and of the devices *)

Lemma stable_do_device d : stable (do_device d).
Proof.
  unfold do_device, hook_mem_rw, hook_unmap, hook_region, hook_hd, hook_net, hook_packet,
    rr_device_mem_rw_call_record, rr_record_cpu_mem_rw_call,
    rr_cpu_physical_memory_unmap_record, rr_record_cpu_mem_unmap, rr_reg_mem_call_record,
    rr_record_cpu_reg_io_mem_region, rr_record_hd_transfer, rr_record_net_transfer,
    rr_record_handle_packet_call. stable.
Qed.
#[local] Hint Resolve stable_do_device : stable.
Lemma stable_do_devices ds : stable (do_devices ds).
Proof. induction ds; cbn [do_devices]; stable. Qed.
#[local] Hint Resolve stable_do_devices : stable.

Lemma stable_record_or_replay {A} (act : RR A) rec rep loc :
  stable act → (∀ a, stable (rec a)) → stable rep → stable (RR_DO_RECORD_OR_REPLAY act rec rep loc).
Proof. intros. unfold RR_DO_RECORD_OR_REPLAY. stable. Qed.

Lemma stable_run_step st w : stable (run_step st w).
Proof.
  unfold run_step, main_loop_wait_devices, cpu_exec_poll, cpu_exec_poll_again. stable;
    apply stable_record_or_replay; stable.
Qed.

Lemma stable_check_finished : stable cpu_exec_check_finished.
Proof. unfold cpu_exec_check_finished, rr_replay_finished. stable. Qed.

(** ** Opening and closing logs *)

Lemma stable_reset_state : stable rr_reset_state.
Proof. unfold rr_reset_state, rr_clear_rr_guest_instr_count. stable. Qed.
#[local] Hint Resolve stable_reset_state stable_rr_input stable_run_step : stable.

(** From whatever was open, [m] ends in the shape [sh]. *)
Definition reaches {A} (m : RR A) (sh : RR_mode → option (RR_log_type * bool) → Prop) : Prop :=
  ∀ s a s', m s = Ok a s' → sh (log_shape s').1 (log_shape s').2.

Lemma reaches_stable_r {A B} (m : RR A) (k : A → RR B) sh :
  reaches m sh → (∀ a, stable (k a)) → reaches (m ≫= k) sh.
Proof. intros Hm Hk s b s' (a & s1 & H1 & H2)%bind_inv_Ok. rewrite (Hk _ _ _ _ H2).
  exact (Hm _ _ _ H1). Qed.

Lemma reaches_r {A B} (m : RR A) (k : A → RR B) sh :
  (∀ a, reaches (k a) sh) → reaches (m ≫= k) sh.
Proof. intros Hk s b s' (a & s1 & _ & H2)%bind_inv_Ok. exact (Hk _ _ _ _ H2). Qed.

Lemma reaches_set_mode {A} (m : RR A) sh md :
  reaches m (λ _, sh) → reaches (m;; modify (set_rr_mode md)) (λ md' x, md' = md ∧ sh x).
Proof. intros Hm s b s' (a & s1 & H1 & [= _ <-])%bind_inv_Ok. split; [done|].
  exact (Hm _ _ _ H1). Qed.

Lemma reaches_assoc {A B C} (m : RR A) (f : A → RR B) (g : B → RR C) sh :
  reaches ((m ≫= f) ≫= g) sh → reaches (m ≫= λ a, f a ≫= g) sh.
Proof. intros Hm s c s' Hx. rewrite <-bind_assoc in Hx. exact (Hm _ _ _ Hx). Qed.

Definition open_log (t : RR_log_type) (x : option (RR_log_type * bool)) : Prop := x = Some (t, true).

(** Once the descriptor is set, the log has a stream or the process is gone. *)
Lemma reaches_open {A} t name fp (k : RR A) s a s' :
  stable k → rr_nondet_log s = Some (g_new0_log t name) →
  (upd_log (set_log_fp fp);; rr_assert (bool_decide (is_Some fp));; k) s = Ok a s' →
  open_log t (log_shape s').2.
Proof.
  intros Hk E Hx. erewrite bind_Ok in Hx by (by apply upd_log_ok).
  destruct fp as [f|]; [|done]. unfold rr_assert in Hx.
  rewrite (bind_Ok _ _ _ _ _ (assert_true ExitFailure _ _ (bool_decide_eq_true_2 _ (mk_is_Some _ _ eq_refl)))) in Hx.
  rewrite (Hk _ _ _ Hx). done.
Qed.

Lemma create_record_reaches name : reaches (rr_create_record_log name) (λ _, open_log RECORD).
Proof.
  intros s a s'. unfold rr_create_record_log. rewrite bind_modify, bind_gets.
  destruct (fopen_w _ name) as [fp h']. rewrite bind_modify.
  apply reaches_open with name; [stable|done].
Qed.

Lemma create_replay_reaches name : reaches (rr_create_replay_log name) (λ _, open_log REPLAY).
Proof.
  intros s a s'. unfold rr_create_replay_log. rewrite bind_modify, bind_gets.
  apply reaches_open with name; [stable|done].
Qed.

Lemma destroy_reaches : reaches rr_destroy_log (λ _ x, x = None).
Proof.
  unfold rr_destroy_log. do 2 (apply reaches_r; intros ?). by intros s u s' [= _ <-].
Qed.

Definition off_shape (md : RR_mode) (x : option (RR_log_type * bool)) : Prop :=
  md = RR_OFF ∧ x = None.

Lemma begin_record_reaches name :
  reaches (rr_do_begin_record name) (λ md x, md = RR_RECORD ∧ open_log RECORD x).
Proof.
  unfold rr_do_begin_record. do 3 (apply reaches_r; intros ?).
  apply reaches_assoc.
  apply (reaches_set_mode (rr_create_record_log (log_path name);; rr_reset_state)).
  apply reaches_stable_r; [apply create_record_reaches|stable].
Qed.

Lemma begin_replay_reaches name :
  reaches (rr_do_begin_replay name) (λ md x, md = RR_REPLAY ∧ open_log REPLAY x).
Proof.
  unfold rr_do_begin_replay. do 2 (apply reaches_r; intros ?).
  apply reaches_assoc, reaches_assoc.
  apply reaches_stable_r; [|stable].
  apply (reaches_set_mode (rr_create_replay_log (log_path name);; rr_reset_state)).
  apply reaches_stable_r; [apply create_replay_reaches|stable].
Qed.

Lemma end_record_reaches : reaches rr_do_end_record off_shape.
Proof.
  unfold rr_do_end_record. apply reaches_r; intros ?. apply reaches_set_mode, destroy_reaches.
Qed.

Lemma end_replay_reaches : reaches (rr_do_end_replay false) off_shape.
Proof.
  unfold rr_do_end_replay. do 8 (apply reaches_r; intros ?).
  apply reaches_assoc.
  apply reaches_stable_r; [apply reaches_set_mode, destroy_reaches|stable].
Qed.

(** ** The invariant *)

Definition shape_ok (md : RR_mode) (x : option (RR_log_type * bool)) : Prop :=
  match md with
  | RR_OFF => x = None
  | RR_RECORD => open_log RECORD x
  | RR_REPLAY => open_log REPLAY x
  end.

(** No log while off; otherwise an open log of the right type. *)
Definition mode_inv (s : rr_state) : Prop := shape_ok (log_shape s).1 (log_shape s).2.

Definition keeps {A} (m : RR A) : Prop := ∀ s a s', mode_inv s → m s = Ok a s' → mode_inv s'.

Lemma stable_keeps {A} (m : RR A) : stable m → keeps m.
Proof. intros Hm s a s' Hi Hx. unfold mode_inv. by rewrite (Hm _ _ _ Hx). Qed.

Lemma reaches_keeps {A} (m : RR A) sh :
  reaches m sh → (∀ md x, sh md x → shape_ok md x) → keeps m.
Proof. intros Hm Hs s a s' _ Hx. by eapply Hs, Hm. Qed.

Lemma keeps_bind {A B} (m : RR A) (k : A → RR B) : keeps m → (∀ a, keeps (k a)) → keeps (m ≫= k).
Proof. intros Hm Hk s b s' Hi (a & s1 & H1 & H2)%bind_inv_Ok. eapply Hk; [|done]. by eapply Hm. Qed.

Lemma keeps_main_loop : keeps main_loop_requests.
Proof.
  unfold main_loop_requests, handle_record_request, handle_replay_request, handle_end_record,
    handle_end_replay.
  repeat first
    [ match goal with |- keeps (if ?b then _ else _) => destruct b end
    | solve [apply stable_keeps; stable]
    | eapply reaches_keeps; [apply begin_record_reaches|by intros ?? [-> ?]]
    | eapply reaches_keeps; [apply begin_replay_reaches|by intros ?? [-> ?]]
    | eapply reaches_keeps; [apply end_record_reaches|by intros ?? [-> ?]]
    | eapply reaches_keeps; [apply end_replay_reaches|by intros ?? [-> ?]]
    | apply keeps_bind; [|intros ?] ].
Qed.

(** What happens to the emulator, one step at a time: the monitor and the
    plugins ask for sessions to begin and end, the main loop goes round, the
    CPU loop starts, stops, looks for the end of a replay and runs the guest
    with its devices. A step that stops the process leads nowhere. *)
Inductive session_step : rr_state → rr_state → Prop :=
| step_begin_record d s u s' : hmp_begin_record d s = Ok u s' → session_step s s'
| step_begin_record_from d s u s' : hmp_begin_record_from d s = Ok u s' → session_step s s'
| step_begin_replay d s u s' : hmp_begin_replay d s = Ok u s' → session_step s s'
| step_end_record s u s' : hmp_end_record s = Ok u s' → session_step s s'
| step_end_replay s u s' : hmp_end_replay s = Ok u s' → session_step s s'
| step_plugin_end s u s' : panda_end_replay s = Ok u s' → session_step s s'
| step_main_loop s u s' : main_loop_requests s = Ok u s' → session_step s s'
| step_cpu_env b s : session_step s (set_cpu_single_env b s)
| step_guest st w s v s' : run_step st w s = Ok v s' → session_step s s'
| step_exit_request v s v' s' : rr_exit_request v s = Ok v' s' → session_step s s'
| step_debug s u s' : rr_debug s = Ok u s' → session_step s s'
| step_check_finished s b s' : cpu_exec_check_finished s = Ok b s' → session_step s s'.

Lemma session_step_inv s s' : mode_inv s → session_step s s' → mode_inv s'.
Proof.
  intros Hi Hs. destruct Hs;
    unfold hmp_begin_record, hmp_begin_record_from, hmp_begin_replay, qmp_begin_record,
      qmp_begin_record_from, qmp_begin_replay, panda_end_replay in *;
    try solve [eapply stable_keeps; [|exact Hi|done];
      first [apply stable_run_step | apply stable_check_finished | stable]].
  - by eapply keeps_main_loop.
  - done.
Qed.

(** C32. In every state a sequence of such steps leads to from start-up, the mode
    says which log is open: none when record/replay is off, one of type RECORD
    with a stream while recording, one of type REPLAY with a stream while
    replaying. *)
Theorem mode_log_invariant h cpu cbs s :
  rtc session_step (rr_init h cpu cbs) s →
  match rr_mode s with
  | RR_OFF => rr_nondet_log s = None
  | RR_RECORD => ∃ l, rr_nondet_log s = Some l ∧ log_type l = RECORD ∧ is_Some (log_fp l)
  | RR_REPLAY => ∃ l, rr_nondet_log s = Some l ∧ log_type l = REPLAY ∧ is_Some (log_fp l)
  end.
Proof.
  intros Hs. assert (Hi : mode_inv s).
  { revert Hs. generalize (rr_init h cpu cbs), (eq_refl : mode_inv (rr_init h cpu cbs)).
    intros s0 Hi Hs. induction Hs as [|s0 s1 s2 Hs _ IH]; [done|]. by apply IH, (session_step_inv s0). }
  revert Hi. unfold mode_inv, log_shape. simpl.
  destruct (rr_mode s), (rr_nondet_log s) as [l|]; try done; simpl.
  all: intros [= Ht Hb%bool_decide_eq_true]; eauto.
Qed.

End Modes.

(** Begin to record, go round the main loop: the log is open for writing. *)
Module ModesExample.
#[local] Existing Instance Demo.machine.
#[local] Existing Instance Demo.target.

Definition state_of {A} (r : outcome rr_state A) : rr_state :=
  match r with Ok _ s | Err _ s => s end.
Definition asked : rr_state := state_of (hmp_begin_record {["file_name" := "demo"]} Demo.start).
Definition begun : rr_state := state_of (main_loop_requests asked).

Lemma mode_log_invariant_witness :
  rtc session_step Demo.start begun ∧
  ∃ l, rr_nondet_log begun = Some l ∧ log_type l = RECORD ∧ is_Some (log_fp l).
Proof.
  assert (Hs : rtc session_step Demo.start begun).
  { apply (rtc_l _ _ asked); [by eapply step_begin_record|].
    apply rtc_once. eapply step_main_loop. vm_compute. reflexivity. }
  split; [exact Hs|]. exact (mode_log_invariant _ _ _ _ Hs).
Defined.
End ModesExample.
