(* ===== verification/PandaPlugins.v ===== *)
(** * Plugins: loading, lookup and unloading ([panda_plugin.c], [cpu-exec.c], [vl.c])

    The plugin table, the names that were loaded, the requests to unload, and
    the flags plugins set. What lies behind [dlopen] and [dlsym] (the shared
    objects and their [init_plugin] and [uninit_plugin]) is a parameter: it may
    do anything to the state the plugin interface gives access to. *)

From S2P Require Import Prelude CString PandaCallbacks.
From stdpp Require Import relations.
Local Open Scope Z_scope.

(** ** State *)

Definition MAX_PANDA_PLUGINS : nat := 16.
Definition MAX_PANDA_PLUGIN_ARGS : nat := 32.
Definition PLUGIN_NAME : nat := 256.

Record panda_plugin := mkPlugin { name : string; plugin : Z }.

(** Calls to the dynamic linker and of the plugins' clean-up. *)
Inductive pl_event :=
| EvDlopen (filename : string) (handle : option Z)
| EvUninit (handle : Z)
| EvDlclose (handle : Z).

Record pl_state := mkPl {
  panda_plugins : list panda_plugin;
  nb_panda_plugins : Z;
  panda_plugins_to_unload : list bool;
  panda_plugin_to_unload : bool;
  panda_plugins_loaded : list (option string);
  nb_panda_plugins_loaded : Z;
  panda_please_flush_tb : bool;
  panda_update_pc : bool;
  panda_use_memcb : bool;
  panda_tb_chaining : bool;
  panda_argv : list string;
  panda_argc : Z;
  pl_cbs : cb_state;
  pl_trace : list pl_event;
}.

Definition set_panda_plugins (x : list panda_plugin) (s : pl_state) : pl_state :=
  mkPl x (nb_panda_plugins s) (panda_plugins_to_unload s) (panda_plugin_to_unload s)
    (panda_plugins_loaded s) (nb_panda_plugins_loaded s) (panda_please_flush_tb s)
    (panda_update_pc s) (panda_use_memcb s) (panda_tb_chaining s) (panda_argv s) (panda_argc s)
    (pl_cbs s) (pl_trace s).
Definition set_nb_panda_plugins (x : Z) (s : pl_state) : pl_state :=
  mkPl (panda_plugins s) x (panda_plugins_to_unload s) (panda_plugin_to_unload s)
    (panda_plugins_loaded s) (nb_panda_plugins_loaded s) (panda_please_flush_tb s)
    (panda_update_pc s) (panda_use_memcb s) (panda_tb_chaining s) (panda_argv s) (panda_argc s)
    (pl_cbs s) (pl_trace s).
Definition set_panda_plugins_to_unload (x : list bool) (s : pl_state) : pl_state :=
  mkPl (panda_plugins s) (nb_panda_plugins s) x (panda_plugin_to_unload s) (panda_plugins_loaded
    s) (nb_panda_plugins_loaded s) (panda_please_flush_tb s) (panda_update_pc s)
    (panda_use_memcb s) (panda_tb_chaining s) (panda_argv s) (panda_argc s) (pl_cbs s) (pl_trace
    s).
Definition set_panda_plugin_to_unload (x : bool) (s : pl_state) : pl_state :=
  mkPl (panda_plugins s) (nb_panda_plugins s) (panda_plugins_to_unload s) x
    (panda_plugins_loaded s) (nb_panda_plugins_loaded s) (panda_please_flush_tb s)
    (panda_update_pc s) (panda_use_memcb s) (panda_tb_chaining s) (panda_argv s) (panda_argc s)
    (pl_cbs s) (pl_trace s).
Definition set_panda_plugins_loaded (x : list (option string)) (s : pl_state) : pl_state :=
  mkPl (panda_plugins s) (nb_panda_plugins s) (panda_plugins_to_unload s)
    (panda_plugin_to_unload s) x (nb_panda_plugins_loaded s) (panda_please_flush_tb s)
    (panda_update_pc s) (panda_use_memcb s) (panda_tb_chaining s) (panda_argv s) (panda_argc s)
    (pl_cbs s) (pl_trace s).
Definition set_nb_panda_plugins_loaded (x : Z) (s : pl_state) : pl_state :=
  mkPl (panda_plugins s) (nb_panda_plugins s) (panda_plugins_to_unload s)
    (panda_plugin_to_unload s) (panda_plugins_loaded s) x (panda_please_flush_tb s)
    (panda_update_pc s) (panda_use_memcb s) (panda_tb_chaining s) (panda_argv s) (panda_argc s)
    (pl_cbs s) (pl_trace s).
Definition set_panda_please_flush_tb (x : bool) (s : pl_state) : pl_state :=
  mkPl (panda_plugins s) (nb_panda_plugins s) (panda_plugins_to_unload s)
    (panda_plugin_to_unload s) (panda_plugins_loaded s) (nb_panda_plugins_loaded s) x
    (panda_update_pc s) (panda_use_memcb s) (panda_tb_chaining s) (panda_argv s) (panda_argc s)
    (pl_cbs s) (pl_trace s).
Definition set_panda_update_pc (x : bool) (s : pl_state) : pl_state :=
  mkPl (panda_plugins s) (nb_panda_plugins s) (panda_plugins_to_unload s)
    (panda_plugin_to_unload s) (panda_plugins_loaded s) (nb_panda_plugins_loaded s)
    (panda_please_flush_tb s) x (panda_use_memcb s) (panda_tb_chaining s) (panda_argv s)
    (panda_argc s) (pl_cbs s) (pl_trace s).
Definition set_panda_use_memcb (x : bool) (s : pl_state) : pl_state :=
  mkPl (panda_plugins s) (nb_panda_plugins s) (panda_plugins_to_unload s)
    (panda_plugin_to_unload s) (panda_plugins_loaded s) (nb_panda_plugins_loaded s)
    (panda_please_flush_tb s) (panda_update_pc s) x (panda_tb_chaining s) (panda_argv s)
    (panda_argc s) (pl_cbs s) (pl_trace s).
Definition set_panda_tb_chaining (x : bool) (s : pl_state) : pl_state :=
  mkPl (panda_plugins s) (nb_panda_plugins s) (panda_plugins_to_unload s)
    (panda_plugin_to_unload s) (panda_plugins_loaded s) (nb_panda_plugins_loaded s)
    (panda_please_flush_tb s) (panda_update_pc s) (panda_use_memcb s) x (panda_argv s)
    (panda_argc s) (pl_cbs s) (pl_trace s).
Definition set_panda_argv (x : list string) (s : pl_state) : pl_state :=
  mkPl (panda_plugins s) (nb_panda_plugins s) (panda_plugins_to_unload s)
    (panda_plugin_to_unload s) (panda_plugins_loaded s) (nb_panda_plugins_loaded s)
    (panda_please_flush_tb s) (panda_update_pc s) (panda_use_memcb s) (panda_tb_chaining s) x
    (panda_argc s) (pl_cbs s) (pl_trace s).
Definition set_panda_argc (x : Z) (s : pl_state) : pl_state :=
  mkPl (panda_plugins s) (nb_panda_plugins s) (panda_plugins_to_unload s)
    (panda_plugin_to_unload s) (panda_plugins_loaded s) (nb_panda_plugins_loaded s)
    (panda_please_flush_tb s) (panda_update_pc s) (panda_use_memcb s) (panda_tb_chaining s)
    (panda_argv s) x (pl_cbs s) (pl_trace s).
Definition set_pl_cbs (x : cb_state) (s : pl_state) : pl_state :=
  mkPl (panda_plugins s) (nb_panda_plugins s) (panda_plugins_to_unload s)
    (panda_plugin_to_unload s) (panda_plugins_loaded s) (nb_panda_plugins_loaded s)
    (panda_please_flush_tb s) (panda_update_pc s) (panda_use_memcb s) (panda_tb_chaining s)
    (panda_argv s) (panda_argc s) x (pl_trace s).
Definition set_pl_trace (x : list pl_event) (s : pl_state) : pl_state :=
  mkPl (panda_plugins s) (nb_panda_plugins s) (panda_plugins_to_unload s)
    (panda_plugin_to_unload s) (panda_plugins_loaded s) (nb_panda_plugins_loaded s)
    (panda_please_flush_tb s) (panda_update_pc s) (panda_use_memcb s) (panda_tb_chaining s)
    (panda_argv s) (panda_argc s) (pl_cbs s) x.

Definition pl_init (cbs : cb_state) : pl_state :=
  mkPl (replicate MAX_PANDA_PLUGINS (mkPlugin EmptyString 0)) 0
    (replicate MAX_PANDA_PLUGINS false) false (replicate MAX_PANDA_PLUGINS None) 0
    false false false true (replicate MAX_PANDA_PLUGIN_ARGS EmptyString) 0 cbs [].

Abbreviation PL := (M pl_state).

(** What is behind the dynamic linker: the handle of a file (null when it cannot
    be loaded), and the two entry points of a plugin. *)
Class DynLinker := {
  dl_open : list pl_event → string → option Z;
  init_plugin : Z → option (Z → PL bool);
  uninit_plugin : Z → option (Z → PL ());
}.

Definition pl_on_cbs {A} (m : M cb_state A) : PL A := λ s,
  match m (pl_cbs s) with
  | Ok a c => Ok a (set_pl_cbs c s)
  | Err e c => Err e (set_pl_cbs c s)
  end.

Definition pl_emit (e : pl_event) : PL () := modify (λ s, set_pl_trace (pl_trace s ++ [e]) s).

(** Assignments to elements of the arrays. *)
Definition store_plugin (i : Z) (p : panda_plugin) : PL () :=
  a ← gets panda_plugins; _ ← at_idx a i;
  modify (set_panda_plugins (<[Z.to_nat i := p]> a)).
Definition store_loaded (i : Z) (f : option string) : PL () :=
  a ← gets panda_plugins_loaded; _ ← at_idx a i;
  modify (set_panda_plugins_loaded (<[Z.to_nat i := f]> a)).
Definition store_to_unload (i : Z) (b : bool) : PL () :=
  a ← gets panda_plugins_to_unload; _ ← at_idx a i;
  modify (set_panda_plugins_to_unload (<[Z.to_nat i := b]> a)).

Section Plugins.
Context `{DynLinker}.

(** ** Loading *)

(** The loop that looks for [filename]: [n] names from index [i]. *)
Fixpoint find_loaded (n : nat) (i : Z) (filename : string) : PL bool :=
  match n with
  | O => mret false
  | S n' =>
      a ← gets panda_plugins_loaded; x ← at_idx a i; f ← nonnull x;
      if String.eqb filename f then mret true else find_loaded n' (i + 1) filename
  end.

(** Opening the file and running the plugin's [init_plugin]. *)
Definition open_plugin (filename : string) : PL bool :=
  h ← gets (λ s, dl_open (pl_trace s) filename);
  pl_emit (EvDlopen filename h);;
  match h with
  | None => mret false
  | Some plugin =>
      match init_plugin plugin with
      | None => pl_emit (EvDlclose plugin);; mret false
      | Some init_fn =>
          ok ← init_fn plugin;
          if (ok : bool) then
            n ← gets nb_panda_plugins;
            store_plugin n (mkPlugin (strncpy (basename (Some filename)) PLUGIN_NAME) plugin);;
            modify (λ s, set_nb_panda_plugins (nb_panda_plugins s + 1) s);;
            mret true
          else pl_emit (EvDlclose plugin);; mret false
      end
  end.

Definition panda_load_plugin (filename : string) : PL bool :=
  k ← gets nb_panda_plugins_loaded;
  dup ← find_loaded (Z.to_nat k) 0 filename;
  if (dup : bool) then mret true else
  store_loaded k (Some filename);;
  modify (λ s, set_nb_panda_plugins_loaded (nb_panda_plugins_loaded s + 1) s);;
  open_plugin filename.

(** [panda_plugin_path]: [dir] is [PANDA_PLUGIN_DIR], [qemu] the emulator's path. *)
Definition panda_plugin_path (plugin_dir : option string) (qemu_file plugin_name : string)
    : string :=
  snprintf 1024
    match plugin_dir with
    | Some dir => dir +:+ "/panda_" +:+ plugin_name +:+ ".so"
    | None => dirname (Some qemu_file) +:+ "/panda_plugins/panda_" +:+ plugin_name +:+ ".so"
    end.

Definition panda_require (plugin_dir : option string) (qemu_file plugin_name : string) : PL () :=
  ok ← panda_load_plugin (panda_plugin_path plugin_dir qemu_file plugin_name);
  if (ok : bool) then mret () else fail Abort.

(** The loop over the files of the command line in [main]. *)
Fixpoint load_plugin_files (files : list string) : PL () :=
  match files with
  | [] => mret ()
  | f :: fs =>
      ok ← panda_load_plugin f;
      if (ok : bool) then load_plugin_files fs else fail Abort
  end.

(** ** Unloading *)

(** [memmove] of [(nb - i - 1)] elements from [i + 1] to [i]; a negative count
    is a huge one for [memmove]. *)
Definition panda_delete_plugin (i : Z) : PL () :=
  n ← gets nb_panda_plugins;
  (if negb (i =? n - 1) then
     assert_or OutOfBounds ((0 <=? n - i - 1) && (n <=? Z.of_nat MAX_PANDA_PLUGINS));;
     modify (λ s, set_panda_plugins
       (take (Z.to_nat i) (panda_plugins s)
        ++ take (Z.to_nat (n - i - 1)) (drop (Z.to_nat (i + 1)) (panda_plugins s))
        ++ drop (Z.to_nat (n - 1)) (panda_plugins s)) s)
   else mret ());;
  modify (λ s, set_nb_panda_plugins (nb_panda_plugins s - 1) s).

Definition panda_do_unload_plugin (plugin_idx : Z) : PL () :=
  a ← gets panda_plugins; p ← at_idx a plugin_idx;
  let h := plugin p in
  (match uninit_plugin h with
   | None => mret ()
   | Some uninit_fn => pl_emit (EvUninit h);; uninit_fn h
   end);;
  pl_on_cbs (panda_unregister_callbacks h);;
  panda_delete_plugin plugin_idx;;
  pl_emit (EvDlclose h).

Definition panda_unload_plugin_idx (plugin_idx : Z) : PL () :=
  n ← gets nb_panda_plugins;
  if (n <=? plugin_idx) || (plugin_idx <? 0) then mret () else
  modify (set_panda_plugin_to_unload true);;
  store_to_unload plugin_idx true.

(** The search of [panda_unload_plugin]: [n] plugins from index [i]. *)
Fixpoint unload_search (n : nat) (i : Z) (h : Z) : PL () :=
  match n with
  | O => mret ()
  | S n' =>
      a ← gets panda_plugins; p ← at_idx a i;
      if plugin p =? h then panda_unload_plugin_idx i else unload_search n' (i + 1) h
  end.

Definition panda_unload_plugin (h : Z) : PL () :=
  n ← gets nb_panda_plugins; unload_search (Z.to_nat n) 0 h.

(** The loop of [panda_unload_plugins]. *)
Fixpoint unload_loop (fuel : nat) : PL () :=
  n ← gets nb_panda_plugins;
  if 0 <? n then
    match fuel with
    | O => fail OutOfFuel
    | S fuel' => panda_do_unload_plugin (n - 1);; unload_loop fuel'
    end
  else mret ().

Definition panda_unload_plugins : PL () :=
  n ← gets nb_panda_plugins; unload_loop (Z.to_nat n).

(** The requests are served in the CPU loop, between blocks: [n] indices from [i]. *)
Fixpoint unload_requested (n : nat) (i : Z) : PL () :=
  match n with
  | O => mret ()
  | S n' =>
      a ← gets panda_plugins_to_unload; b ← at_idx a i;
      (if (b : bool) then panda_do_unload_plugin i;; store_to_unload i false else mret ());;
      unload_requested n' (i + 1)
  end.

Definition cpu_exec_unload : PL () :=
  b ← gets panda_plugin_to_unload;
  if (b : bool) then
    modify (set_panda_plugin_to_unload false);; unload_requested MAX_PANDA_PLUGINS 0
  else mret ().

(** ** Lookup *)

Fixpoint find_by_name (n : nat) (i : Z) (plugin_name : string) : PL (option Z) :=
  match n with
  | O => mret None
  | S n' =>
      a ← gets panda_plugins; p ← at_idx a i;
      if strneq (name p) plugin_name PLUGIN_NAME then mret (Some (plugin p))
      else find_by_name n' (i + 1) plugin_name
  end.

Definition panda_get_plugin_by_name (plugin_name : string) : PL (option Z) :=
  n ← gets nb_panda_plugins; find_by_name (Z.to_nat n) 0 plugin_name.

(** ** Flags *)

Definition panda_flush_tb : PL bool :=
  b ← gets panda_please_flush_tb;
  if (b : bool) then modify (set_panda_please_flush_tb false);; mret true else mret false.
Definition panda_do_flush_tb : PL () := modify (set_panda_please_flush_tb true).
Definition panda_enable_precise_pc : PL () := modify (set_panda_update_pc true).
Definition panda_disable_precise_pc : PL () := modify (set_panda_update_pc false).
Definition panda_enable_memcb : PL () := modify (set_panda_use_memcb true).
Definition panda_disable_memcb : PL () := modify (set_panda_use_memcb false).
Definition panda_enable_tb_chaining : PL () := modify (set_panda_tb_chaining true).
Definition panda_disable_tb_chaining : PL () := modify (set_panda_tb_chaining false).

(** ** Monitor commands

    A missing file name is a null pointer; a missing index is -1. *)
Definition qmp_load_plugin (filename : option string) : PL () :=
  f ← nonnull filename; _ ← panda_load_plugin f; mret ().
Definition qmp_unload_plugin (index : Z) : PL () :=
  n ← gets nb_panda_plugins;
  if (n <=? index) || (index <? 0) then mret () else panda_unload_plugin_idx (int32 index).
Definition hmp_panda_load_plugin (filename : option string) : PL () := qmp_load_plugin filename.
Definition hmp_panda_unload_plugin (index : option Z) : PL () :=
  qmp_unload_plugin (int32 (default (-1) index)).
Definition hmp_panda_plugin_cmd : PL (list Z) := pl_on_cbs (panda_run_callbacks PANDA_CB_MONITOR).

End Plugins.

(** ** The table *)

(** The plugins that are loaded and the names that were. *)
Definition live (s : pl_state) : list panda_plugin :=
  take (Z.to_nat (nb_panda_plugins s)) (panda_plugins s).
Definition names (s : pl_state) : list (option string) :=
  take (Z.to_nat (nb_panda_plugins_loaded s)) (panda_plugins_loaded s).

Record pl_inv (s : pl_state) : Prop := {
  pi_plugins : length (panda_plugins s) = MAX_PANDA_PLUGINS;
  pi_to_unload : length (panda_plugins_to_unload s) = MAX_PANDA_PLUGINS;
  pi_loaded : length (panda_plugins_loaded s) = MAX_PANDA_PLUGINS;
  pi_range : 0 ≤ nb_panda_plugins s ≤ nb_panda_plugins_loaded s;
  pi_max : nb_panda_plugins_loaded s ≤ Z.of_nat MAX_PANDA_PLUGINS;
  pi_names : Forall is_Some (names s);
  pi_nodup : NoDup (names s);
}.

(** What the operations of the interface do at most: names are only added, and
    no plugin is added without a name. *)
Record evolves (s s' : pl_state) : Prop := {
  ev_inv : pl_inv s';
  ev_names : names s `prefix_of` names s';
  ev_slack : nb_panda_plugins s' - nb_panda_plugins_loaded s'
             ≤ nb_panda_plugins s - nb_panda_plugins_loaded s;
}.

(** Plugins act on the table through the interface only, and a plugin that is
    being unloaded neither loads nor unloads others. *)
Class PluginLaws `{DynLinker} := {
  init_evolves h f s b s' :
    init_plugin h = Some f → pl_inv s → f h s = Ok b s' → evolves s s';
  uninit_evolves h f s u s' :
    uninit_plugin h = Some f → pl_inv s → f h s = Ok u s' →
    evolves s s' ∧ panda_plugins s' = panda_plugins s ∧ nb_panda_plugins s' = nb_panda_plugins s;
}.

Section Table.
Context `{PluginLaws}.

Lemma evolves_refl s : pl_inv s → evolves s s.
Proof. by split. Qed.

Lemma evolves_trans s1 s2 s3 : evolves s1 s2 → evolves s2 s3 → evolves s1 s3.
Proof. intros [? ? ?] [? ? ?]. split; [done| |lia]. by transitivity (names s2). Qed.

Lemma live_length s : pl_inv s → length (live s) = Z.to_nat (nb_panda_plugins s).
Proof.
  intros [Hp _ _ Hr Hm _ _]. unfold live. rewrite length_take, Hp. unfold MAX_PANDA_PLUGINS in *. lia.
Qed.

Lemma names_length s : pl_inv s → length (names s) = Z.to_nat (nb_panda_plugins_loaded s).
Proof.
  intros [_ _ Hp Hr Hm _ _]. unfold names. rewrite length_take, Hp. unfold MAX_PANDA_PLUGINS in *. lia.
Qed.

(** Changes elsewhere keep the invariant. *)
Lemma pl_inv_ext s s' :
  pl_inv s → length (panda_plugins s') = length (panda_plugins s) →
  length (panda_plugins_to_unload s') = length (panda_plugins_to_unload s) →
  panda_plugins_loaded s' = panda_plugins_loaded s →
  nb_panda_plugins_loaded s' = nb_panda_plugins_loaded s →
  0 ≤ nb_panda_plugins s' ≤ nb_panda_plugins s → evolves s s'.
Proof.
  intros [] E1 E2 E3 E4 E5.
  assert (Hn : names s' = names s) by (unfold names; by rewrite E3, E4).
  split; [split; rewrite ?Hn; try congruence; lia|by rewrite Hn|lia].
Qed.

(** ** Loading *)

Lemma find_loaded_ok f s n : ∀ i,
  0 ≤ i → (Z.to_nat i + n ≤ length (panda_plugins_loaded s))%nat →
  Forall is_Some (take n (drop (Z.to_nat i) (panda_plugins_loaded s))) →
  find_loaded n i f s
  = Ok (bool_decide (Some f ∈ take n (drop (Z.to_nat i) (panda_plugins_loaded s)))) s.
Proof.
  induction n as [|n IH]; intros i Hi Hl Hf; cbn [find_loaded].
  { rewrite bool_decide_false; [done|]. by apply not_elem_of_nil. }
  destruct (lookup_lt_is_Some_2 (panda_plugins_loaded s) (Z.to_nat i)) as [x Hx]; [lia|].
  rewrite (drop_S _ _ _ Hx) in *. cbn [take] in *. apply Forall_cons in Hf as [[g ->] Hf].
  rewrite bind_gets, (bind_Ok _ _ _ _ _ (at_idx_ok _ _ _ _ Hi Hx)), bind_nonnull.
  destruct (String.eqb_spec f g) as [->|Hne].
  - rewrite bool_decide_true; [done|]. by apply list_elem_of_here.
  - replace (S (Z.to_nat i)) with (Z.to_nat (i + 1)) in * by lia. rewrite IH; [|lia..|done].
    f_equal. apply bool_decide_ext. rewrite elem_of_cons. naive_solver.
Qed.

Lemma find_loaded_names f s :
  pl_inv s →
  find_loaded (Z.to_nat (nb_panda_plugins_loaded s)) 0 f s = Ok (bool_decide (Some f ∈ names s)) s.
Proof.
  intros [_ _ Hl Hr Hm Hn _].
  by rewrite find_loaded_ok; [|lia|rewrite Hl; unfold MAX_PANDA_PLUGINS in *; simpl; lia|].
Qed.

(** The state in which the plugin is opened: the name is recorded. *)
Definition recorded_name (f : string) (s : pl_state) : pl_state :=
  let k := nb_panda_plugins_loaded s in
  set_nb_panda_plugins_loaded (k + 1)
    (set_panda_plugins_loaded (<[Z.to_nat k := Some f]> (panda_plugins_loaded s)) s).

Lemma names_recorded f s :
  pl_inv s → nb_panda_plugins_loaded s < Z.of_nat MAX_PANDA_PLUGINS →
  names (recorded_name f s) = names s ++ [Some f].
Proof.
  intros [_ _ Hl Hr Hm _ _] Hk. unfold names, recorded_name. simpl.
  replace (Z.to_nat (nb_panda_plugins_loaded s + 1)) with (S (Z.to_nat (nb_panda_plugins_loaded s)))
    by lia.
  rewrite (take_S_r _ _ (Some f)) by (apply list_lookup_insert_eq; lia).
  by rewrite take_insert_ge by lia.
Qed.

Lemma recorded_evolves f s :
  pl_inv s → nb_panda_plugins_loaded s < Z.of_nat MAX_PANDA_PLUGINS → Some f ∉ names s →
  evolves s (recorded_name f s) ∧
  nb_panda_plugins (recorded_name f s) < nb_panda_plugins_loaded (recorded_name f s).
Proof.
  intros Hi Hk Hf. pose proof (names_recorded f s Hi Hk) as Hn. destruct Hi as [? ? Hl Hr Hm Hs Hnd].
  split; [|simpl; lia]. split; [|rewrite Hn; by eexists|simpl; lia].
  split; [done|done|simpl; by rewrite length_insert|simpl; lia|simpl; lia|rewrite Hn..].
  - apply Forall_app. split; [done|]. apply Forall_singleton. eauto.
  - apply NoDup_app. split; [done|]. split; [|apply NoDup_singleton].
    intros x Hx ->%list_elem_of_singleton. done.
Qed.

Lemma load_known f s : pl_inv s → Some f ∈ names s → panda_load_plugin f s = Ok true s.
Proof.
  intros Hi Hf. unfold panda_load_plugin. rewrite bind_gets.
  by rewrite (bind_Ok _ _ _ _ _ (find_loaded_names f s Hi)), bool_decide_true.
Qed.

Lemma load_new f s :
  pl_inv s → Some f ∉ names s → nb_panda_plugins_loaded s < Z.of_nat MAX_PANDA_PLUGINS →
  panda_load_plugin f s = open_plugin f (recorded_name f s).
Proof.
  intros Hi Hf Hk. unfold panda_load_plugin. rewrite bind_gets.
  rewrite (bind_Ok _ _ _ _ _ (find_loaded_names f s Hi)), bool_decide_false by done.
  destruct Hi as [_ _ Hl Hr _ _ _]. unfold store_loaded.
  destruct (lookup_lt_is_Some_2 (panda_plugins_loaded s) (Z.to_nat (nb_panda_plugins_loaded s)))
    as [x Hx]; [rewrite Hl; lia|].
  rewrite bind_assoc, bind_gets, bind_assoc.
  by erewrite bind_Ok by (apply at_idx_ok; [lia|done]).
Qed.

(** The array is full once 16 names were loaded, unloaded plugins included. *)
Lemma load_full f s :
  pl_inv s → Some f ∉ names s → nb_panda_plugins_loaded s = Z.of_nat MAX_PANDA_PLUGINS →
  panda_load_plugin f s = Err OutOfBounds s.
Proof.
  intros Hi Hf Hk. unfold panda_load_plugin. rewrite bind_gets.
  rewrite (bind_Ok _ _ _ _ _ (find_loaded_names f s Hi)), bool_decide_false by done.
  unfold store_loaded. rewrite bind_assoc, bind_gets, bind_assoc.
  apply bind_Err, at_idx_out. rewrite (pi_loaded _ Hi). lia.
Qed.

(** Adding a plugin to the table. *)
Lemma add_plugin_ok p s :
  pl_inv s → nb_panda_plugins s < nb_panda_plugins_loaded s →
  let s' := set_nb_panda_plugins (nb_panda_plugins s + 1)
    (set_panda_plugins (<[Z.to_nat (nb_panda_plugins s) := p]> (panda_plugins s)) s) in
  (store_plugin (nb_panda_plugins s) p;;
   modify (λ s, set_nb_panda_plugins (nb_panda_plugins s + 1) s);; mret true) s = Ok true s' ∧
  pl_inv s' ∧ live s' = live s ++ [p].
Proof.
  intros [Hp ? ? Hr Hm ? ?] Hk s'. split; [|split].
  - destruct (lookup_lt_is_Some_2 (panda_plugins s) (Z.to_nat (nb_panda_plugins s))) as [x Hx];
      [rewrite Hp; unfold MAX_PANDA_PLUGINS in *; lia|].
    unfold store_plugin. rewrite bind_assoc, bind_gets, bind_assoc.
    by erewrite bind_Ok by (apply at_idx_ok; [lia|done]).
  - split; try done; simpl; [by rewrite length_insert|lia].
  - unfold live. simpl.
    replace (Z.to_nat (nb_panda_plugins s + 1)) with (S (Z.to_nat (nb_panda_plugins s))) by lia.
    rewrite (take_S_r _ _ p) by (apply list_lookup_insert_eq; rewrite Hp; unfold MAX_PANDA_PLUGINS in *; lia).
    by rewrite take_insert_ge by lia.
Qed.

(** [open_plugin] with a name recorded for it. *)
Lemma open_evolves f s b s' :
  pl_inv s → nb_panda_plugins s < nb_panda_plugins_loaded s →
  open_plugin f s = Ok b s' →
  pl_inv s' ∧ names s `prefix_of` names s' ∧
  nb_panda_plugins s' - nb_panda_plugins_loaded s' ≤ nb_panda_plugins s - nb_panda_plugins_loaded s + 1.
Proof.
  intros Hi Hk. unfold open_plugin, pl_emit. rewrite bind_gets, bind_modify.
  set (s1 := set_pl_trace _ s). assert (Hi1 : pl_inv s1) by (by destruct Hi).
  destruct (dl_open _ f) as [h|]; [|intros [= _ <-]; split_and!; [done|done|simpl; lia]].
  destruct (init_plugin h) as [fn|] eqn:Ei; [|intros [= _ <-]; split_and!; [by destruct Hi|done|simpl; lia]].
  intros (ok & s2 & H2 & Hx)%bind_inv_Ok.
  destruct (init_evolves _ _ _ _ _ Ei Hi1 H2) as [Hi2 Hn2 Hs2]. simpl in Hs2.
  destruct ok; [|injection Hx as _ <-; split_and!; [by destruct Hi2|done|simpl; lia]].
  rewrite bind_gets in Hx.
  destruct (add_plugin_ok (mkPlugin (strncpy (basename (Some f)) PLUGIN_NAME) h) s2 Hi2 ltac:(lia))
    as (E & Hi3 & _).
  rewrite E in Hx. injection Hx as _ <-. split_and!; [done|done|simpl; lia].
Qed.

Lemma load_evolves f s b s' :
  pl_inv s → panda_load_plugin f s = Ok b s' → evolves s s' ∧ Some f ∈ names s'.
Proof.
  intros Hi Hx. destruct (decide (Some f ∈ names s)) as [Hf|Hf].
  { rewrite (load_known f s Hi Hf) in Hx. injection Hx as _ <-. split; [by apply evolves_refl|done]. }
  destruct (decide (nb_panda_plugins_loaded s < Z.of_nat MAX_PANDA_PLUGINS)) as [Hk|Hk].
  - rewrite (load_new f s Hi Hf Hk) in Hx.
    destruct (recorded_evolves f s Hi Hk Hf) as [[Hi1 Hn1 Hs1] Hlt].
    destruct (open_evolves f _ _ _ Hi1 Hlt Hx) as (Hi2 & Hn2 & Hs2). simpl in Hs2. split; [split|].
    + done.
    + by transitivity (names (recorded_name f s)).
    + lia.
    + rewrite (names_recorded f s Hi Hk) in Hn2. destruct Hn2 as [k ->]. set_solver.
  - assert (nb_panda_plugins_loaded s = Z.of_nat MAX_PANDA_PLUGINS) as E.
    { pose proof (pi_max _ Hi). lia. }
    by rewrite (load_full f s Hi Hf E) in Hx.
Qed.

(** ** Unloading *)

Lemma delete_take {A} (a : list A) (i n : nat) :
  (i < n ≤ length a)%nat →
  delete i (take n a) = take i a ++ take (n - i - 1) (drop (S i) a).
Proof.
  intros Hi. rewrite delete_take_drop, take_take, Nat.min_l by lia.
  f_equal. rewrite take_drop_commute. f_equal. f_equal. lia.
Qed.

Lemma delete_plugin_ok i s :
  pl_inv s → 0 ≤ i < nb_panda_plugins s →
  ∃ a, panda_delete_plugin i s
       = Ok () (set_nb_panda_plugins (nb_panda_plugins s - 1) (set_panda_plugins a s)) ∧
    length a = MAX_PANDA_PLUGINS ∧
    take (Z.to_nat (nb_panda_plugins s - 1)) a = delete (Z.to_nat i) (live s).
Proof.
  intros [Hp _ _ Hr Hm _ _] Hi. unfold panda_delete_plugin, live. rewrite bind_gets.
  set (n := nb_panda_plugins s) in *. rewrite delete_take by lia.
  destruct (Z.eqb_spec i (n - 1)) as [->|Hne]; simpl.
  - exists (panda_plugins s). split; [by destruct s|]. split; [done|].
    replace (Z.to_nat n - Z.to_nat (n - 1) - 1)%nat with 0%nat by lia. by rewrite app_nil_r.
  - unfold assert_or. rewrite (proj2 (Z.leb_le 0 _)), (proj2 (Z.leb_le n _)) by lia. simpl.
    eexists. split; [done|]. replace (Z.to_nat (i + 1)) with (S (Z.to_nat i)) by lia.
    replace (Z.to_nat (n - i - 1)) with (Z.to_nat n - Z.to_nat i - 1)%nat by lia.
    assert (Hlen : length (take (Z.to_nat i) (panda_plugins s)
      ++ take (Z.to_nat n - Z.to_nat i - 1) (drop (S (Z.to_nat i)) (panda_plugins s)))
      = Z.to_nat (n - 1)).
    { rewrite length_app, !length_take, length_drop, Hp. unfold MAX_PANDA_PLUGINS in *. lia. }
    rewrite app_assoc. split.
    + rewrite length_app, Hlen, length_drop, Hp. unfold MAX_PANDA_PLUGINS in *. lia.
    + by rewrite take_app_le, firstn_all2 by lia.
Qed.

(** The calls of a plugin's own code when it is unloaded. *)
Definition run_uninit (h : Z) : PL () :=
  match uninit_plugin h with
  | None => mret ()
  | Some uninit_fn => pl_emit (EvUninit h);; uninit_fn h
  end.

Lemma run_uninit_evolves h s u s' :
  pl_inv s → run_uninit h s = Ok u s' →
  evolves s s' ∧ panda_plugins s' = panda_plugins s ∧ nb_panda_plugins s' = nb_panda_plugins s.
Proof.
  unfold run_uninit. intros Hi Hx. destruct (uninit_plugin h) as [f|] eqn:E.
  - unfold pl_emit in Hx. rewrite bind_modify in Hx.
    eapply uninit_evolves in Hx as (He & Hp & Hn); [|done|by destruct Hi].
    split; [|done]. destruct He. by split.
  - injection Hx as _ <-. split; [by apply evolves_refl|done].
Qed.

Lemma do_unload_evolves i s u s' :
  pl_inv s → panda_do_unload_plugin i s = Ok u s' → evolves s s'.
Proof.
  intros Hi. unfold panda_do_unload_plugin. rewrite bind_gets.
  intros (p & s1 & (Hi0 & Hl & ->)%at_idx_inv & Hx)%bind_inv_Ok. fold (run_uninit (plugin p)) in Hx.
  apply bind_inv_Ok in Hx as (u2 & s2 & H2 & Hx).
  destruct (run_uninit_evolves _ _ _ _ Hi H2) as (He & Ea & En).
  apply bind_inv_Ok in Hx as (u3 & s3 & H3 & Hx).
  unfold pl_on_cbs in H3. destruct (panda_unregister_callbacks _ _) as [u' c|]; [|done].
  injection H3 as _ <-. apply bind_inv_Ok in Hx as (u4 & s4 & H4 & Hx). injection Hx as _ <-.
  eapply evolves_trans; [exact He|]. pose proof (ev_inv _ _ He) as Hi2.
  destruct (decide (i < nb_panda_plugins s2)) as [Hlt|Hge].
  - destruct (delete_plugin_ok i (set_pl_cbs c s2)) as (a & E & Hla & _); [by destruct Hi2|simpl; lia|].
    rewrite E in H4. injection H4 as _ <-.
    apply pl_inv_ext; simpl; try done; [by rewrite Hla, (pi_plugins _ Hi2)|lia].
  - unfold panda_delete_plugin in H4. rewrite bind_gets in H4. simpl in H4.
    destruct (Z.eqb_spec i (nb_panda_plugins s2 - 1)); [lia|]. simpl in H4.
    unfold assert_or in H4. by rewrite (proj2 (Z.leb_gt 0 _)) in H4 by lia.
Qed.

Lemma store_to_unload_evolves i b s u s' :
  pl_inv s → store_to_unload i b s = Ok u s' → evolves s s'.
Proof.
  intros Hi Hx. unfold store_to_unload in Hx. rewrite bind_gets in Hx.
  apply bind_inv_Ok in Hx as (x & s1 & (_ & _ & ->)%at_idx_inv & [= _ <-]).
  apply pl_inv_ext; simpl; try done; [by rewrite length_insert|].
  destruct Hi. lia.
Qed.

Lemma unload_idx_evolves i s u s' :
  pl_inv s → panda_unload_plugin_idx i s = Ok u s' → evolves s s'.
Proof.
  intros Hi Hx. unfold panda_unload_plugin_idx in Hx. rewrite bind_gets in Hx.
  destruct (_ || _); [injection Hx as _ <-; by apply evolves_refl|].
  rewrite bind_modify in Hx. apply store_to_unload_evolves in Hx; [|by destruct Hi].
  by destruct Hx.
Qed.

Lemma unload_search_evolves h n : ∀ i s u s',
  pl_inv s → unload_search n i h s = Ok u s' → evolves s s'.
Proof.
  induction n as [|n IH]; intros i s u s' Hi; cbn [unload_search].
  { intros [= _ <-]. by apply evolves_refl. }
  rewrite bind_gets. intros (p & s1 & (_ & _ & ->)%at_idx_inv & Hx)%bind_inv_Ok.
  destruct (_ =? _); [by eapply unload_idx_evolves|by eapply IH].
Qed.

Lemma unload_loop_evolves n : ∀ s u s', pl_inv s → unload_loop n s = Ok u s' → evolves s s'.
Proof.
  induction n as [|n IH]; intros s u s' Hi; cbn [unload_loop]; rewrite bind_gets.
  all: destruct (_ <? _); try done; try (intros [= _ <-]; by apply evolves_refl).
  intros (u1 & s1 & H1 & Hx)%bind_inv_Ok. apply do_unload_evolves in H1; [|done].
  eapply evolves_trans; [done|]. eapply IH; [apply H1|done].
Qed.

Lemma unload_requested_evolves n : ∀ i s u s',
  pl_inv s → unload_requested n i s = Ok u s' → evolves s s'.
Proof.
  induction n as [|n IH]; intros i s u s' Hi; cbn [unload_requested].
  { intros [= _ <-]. by apply evolves_refl. }
  rewrite bind_gets. intros (b & s1 & (_ & _ & ->)%at_idx_inv & Hx)%bind_inv_Ok.
  apply bind_inv_Ok in Hx as (u2 & s2 & H2 & Hx).
  assert (He : evolves s s2).
  { destruct b; [|injection H2 as _ <-; by apply evolves_refl].
    apply bind_inv_Ok in H2 as (u3 & s3 & H3 & H2). apply do_unload_evolves in H3; [|done].
    eapply evolves_trans; [done|]. eapply store_to_unload_evolves; [apply H3|done]. }
  eapply evolves_trans; [done|]. eapply IH; [apply He|done].
Qed.

Lemma cpu_exec_unload_evolves s u s' : pl_inv s → cpu_exec_unload s = Ok u s' → evolves s s'.
Proof.
  intros Hi. unfold cpu_exec_unload. rewrite bind_gets.
  destruct (panda_plugin_to_unload s); [|intros [= _ <-]; by apply evolves_refl].
  rewrite bind_modify. intros Hx%unload_requested_evolves; [|by destruct Hi]. by destruct Hx.
Qed.

(** ** Theorems *)

(** Steps of the emulator that involve the table: the monitor's and the command
    line's loads, a plugin that requires another, requests to unload from the
    monitor and from plugins, the CPU loop serving them, the clean-up at exit,
    and changes to the callback lists. *)
Inductive plugin_step : pl_state → pl_state → Prop :=
| step_hmp_load f s u s' : hmp_panda_load_plugin f s = Ok u s' → plugin_step s s'
| step_load f s b s' : panda_load_plugin f s = Ok b s' → plugin_step s s'
| step_require d q n s u s' : panda_require d q n s = Ok u s' → plugin_step s s'
| step_hmp_unload i s u s' : hmp_panda_unload_plugin i s = Ok u s' → plugin_step s s'
| step_unload h s u s' : panda_unload_plugin h s = Ok u s' → plugin_step s s'
| step_cpu_exec s u s' : cpu_exec_unload s = Ok u s' → plugin_step s s'
| step_cleanup s u s' : panda_unload_plugins s = Ok u s' → plugin_step s s'
| step_callbacks c s : plugin_step s (set_pl_cbs c s).

Lemma plugin_step_evolves s s' : pl_inv s → plugin_step s s' → evolves s s'.
Proof.
  intros Hi Hs. destruct Hs as [f s u s' Hx|f s b s' Hx|d q n s u s' Hx|i s u s' Hx|h s u s' Hx
    |s u s' Hx|s u s' Hx|c s].
  - destruct f as [f|]; [|done]. unfold hmp_panda_load_plugin, qmp_load_plugin in Hx.
    rewrite bind_nonnull in Hx. apply bind_inv_Ok in Hx as (b & s1 & H1 & [= _ <-]).
    by eapply load_evolves.
  - by eapply load_evolves.
  - apply bind_inv_Ok in Hx as (b & s1 & H1 & Hx). destruct b; [|done]. injection Hx as _ <-.
    by eapply load_evolves.
  - unfold hmp_panda_unload_plugin, qmp_unload_plugin in Hx. rewrite bind_gets in Hx.
    destruct (_ || _); [injection Hx as _ <-; by apply evolves_refl|by eapply unload_idx_evolves].
  - unfold panda_unload_plugin in Hx. rewrite bind_gets in Hx. by eapply unload_search_evolves.
  - by eapply cpu_exec_unload_evolves.
  - unfold panda_unload_plugins in Hx. rewrite bind_gets in Hx. by eapply unload_loop_evolves.
  - apply pl_inv_ext; [done..|]. destruct Hi. simpl. lia.
Qed.

Lemma pl_init_inv cbs : pl_inv (pl_init cbs).
Proof. split; try done; constructor. Qed.

(** C35. In every reachable state there are at most as many plugins as names that
    were ever loaded, and at most 16 of these, all different; a plugin with a
    17th name, even after others were unloaded, writes past the array of names. *)
Theorem plugin_table_invariant cbs s :
  rtc plugin_step (pl_init cbs) s →
  0 ≤ nb_panda_plugins s ≤ nb_panda_plugins_loaded s ∧
  nb_panda_plugins_loaded s ≤ Z.of_nat MAX_PANDA_PLUGINS ∧ NoDup (names s) ∧
  (nb_panda_plugins_loaded s = Z.of_nat MAX_PANDA_PLUGINS →
   ∀ f, Some f ∉ names s → panda_load_plugin f s = Err OutOfBounds s).
Proof.
  intros Hs. assert (Hi : pl_inv s).
  { pose proof (pl_init_inv cbs) as Hi. revert Hi. generalize dependent (pl_init cbs).
    intros s0 Hs. induction Hs as [|s0 s1 s2 Hs _ IH]; [done|]. intros Hi.
    by apply IH, (ev_inv s0), plugin_step_evolves. }
  destruct Hi. split_and!; try done; [lia..|]. intros Hk f Hf. by apply load_full.
Qed.

(** A plugin that could not be loaded counts as loaded: the next attempt with
    the same file name returns true and does nothing. *)
Theorem failed_load_reported f s s' :
  pl_inv s → panda_load_plugin f s = Ok false s' → panda_load_plugin f s' = Ok true s'.
Proof. intros Hi Hx. destruct (load_evolves _ _ _ _ Hi Hx) as [He Hf]. by apply load_known; [apply He|]. Qed.

Lemma find_by_name_ok n : ∀ i (pn : string) s,
  0 ≤ i → (Z.to_nat i + n ≤ length (panda_plugins s))%nat →
  find_by_name n i pn s
  = Ok (plugin ∘ snd <$> list_find (λ p, strneq (name p) pn PLUGIN_NAME)
          (take n (drop (Z.to_nat i) (panda_plugins s)))) s.
Proof.
  induction n as [|n IH]; intros i pn s Hi Hl; cbn [find_by_name]; [done|].
  destruct (lookup_lt_is_Some_2 (panda_plugins s) (Z.to_nat i)) as [p Hp]; [lia|].
  rewrite bind_gets, (bind_Ok _ _ _ _ _ (at_idx_ok _ _ _ _ Hi Hp)), (drop_S _ _ _ Hp).
  cbn [take list_find]. destruct (strneq (name p) pn PLUGIN_NAME).
  - by rewrite decide_True.
  - rewrite decide_False by (by intros []). rewrite IH by lia.
    replace (Z.to_nat (i + 1)) with (S (Z.to_nat i)) by lia.
    by destruct (list_find _ _) as [[]|].
Qed.

(** [panda_get_plugin_by_name] finds the first loaded plugin of that name. *)
Lemma get_by_name_ok pn s :
  pl_inv s →
  panda_get_plugin_by_name pn s
  = Ok (plugin ∘ snd <$> list_find (λ p, strneq (name p) pn PLUGIN_NAME) (live s)) s.
Proof.
  intros [Hp _ _ Hr Hm _ _]. unfold panda_get_plugin_by_name. rewrite bind_gets.
  by rewrite find_by_name_ok by (rewrite ?Hp; unfold MAX_PANDA_PLUGINS in *; simpl; lia).
Qed.

Lemma list_find_snoc {A} (P : A → Prop) `{∀ x, Decision (P x)} l x :
  Forall (λ y, ¬ P y) l → P x → list_find P (l ++ [x]) = Some (length l, x).
Proof.
  intros Hl Hx. induction l as [|y l IH]; simpl; [by rewrite decide_True|].
  apply Forall_cons in Hl as [Hy Hl]. by rewrite decide_False, IH.
Qed.

(** A plugin that was loaded is the last of the table, under the base name of
    its file, and is found by that name unless an earlier one has it too. *)
Theorem load_then_lookup f s s' :
  pl_inv s → Some f ∉ names s → panda_load_plugin f s = Ok true s' →
  let pn := basename (Some f) in
  ∃ ps h, live s' = ps ++ [mkPlugin (strncpy pn PLUGIN_NAME) h] ∧
    (Forall (λ q, ¬ strneq (name q) pn PLUGIN_NAME) ps →
     panda_get_plugin_by_name pn s' = Ok (Some h) s').
Proof.
  intros Hi Hf Hx. cbv zeta. destruct (load_evolves _ _ _ _ Hi Hx) as [[Hi' _ _] _].
  assert (Hk : nb_panda_plugins_loaded s < Z.of_nat MAX_PANDA_PLUGINS).
  { destruct (decide (nb_panda_plugins_loaded s = Z.of_nat MAX_PANDA_PLUGINS)) as [E|];
      [by rewrite (load_full f s Hi Hf E) in Hx|]. pose proof (pi_max _ Hi). lia. }
  rewrite (load_new f s Hi Hf Hk) in Hx. destruct (recorded_evolves f s Hi Hk Hf) as [[Hi1 _ _] Hlt].
  unfold open_plugin, pl_emit in Hx. rewrite bind_gets, bind_modify in Hx.
  destruct (dl_open _ f) as [h|]; [|done]. destruct (init_plugin h) as [fn|] eqn:Ei; [|done].
  apply bind_inv_Ok in Hx as (ok & s2 & H2 & Hx). destruct ok; [|done]. rewrite bind_gets in Hx.
  apply (init_evolves _ _ _ _ _ Ei) in H2 as [Hi2 _ Hs2]; [|by destruct Hi1]. simpl in Hs2, Hlt.
  match type of Hx with context [store_plugin _ ?p] =>
    destruct (add_plugin_ok p s2 Hi2 ltac:(lia)) as (E & _ & Hl) end.
  rewrite E in Hx. apply (f_equal (λ o, match o with Ok _ st | Err _ st => st end)) in Hx.
  cbv beta iota in Hx. rewrite Hx in Hl. exists (live s2), h. split; [done|].
  intros Hq. rewrite (get_by_name_ok _ _ Hi'), Hl.
  rewrite (list_find_snoc (λ p, strneq (name p) (basename (Some f)) PLUGIN_NAME)); [done|done|].
  simpl. by rewrite strneq_strncpy.
Qed.

(** A plugin whose own clean-up touches the emulator's flags at most. *)
Definition set_flags (flush pc mem chain : bool) (s : pl_state) : pl_state :=
  set_panda_please_flush_tb flush
    (set_panda_update_pc pc (set_panda_use_memcb mem (set_panda_tb_chaining chain s))).
Definition quiet_uninit (h : Z) : Prop :=
  ∀ f, uninit_plugin h = Some f → ∀ s, ∃ a b c d, f h s = Ok () (set_flags a b c d s).

(** What the plugin sees of its end: its clean-up, then the closing of its file. *)
Definition unload_events (h : Z) : list pl_event :=
  match uninit_plugin h with Some _ => [EvUninit h] | None => [] end ++ [EvDlclose h].

Lemma quiet_run h s :
  quiet_uninit h →
  ∃ a b c d tr, run_uninit h s = Ok () (set_flags a b c d (set_pl_trace (pl_trace s ++ tr) s)) ∧
    tr ++ [EvDlclose h] = unload_events h.
Proof.
  intros Hq. unfold run_uninit, unload_events. destruct (uninit_plugin h) as [f|] eqn:E.
  - unfold pl_emit. rewrite bind_modify. set (s1 := set_pl_trace _ s).
    destruct (Hq f E s1) as (a & b & c & d & Hf). exists a, b, c, d, [EvUninit h]. by rewrite Hf.
  - exists (panda_please_flush_tb s), (panda_update_pc s), (panda_use_memcb s), (panda_tb_chaining s), [].
    rewrite app_nil_r. by destruct s.
Qed.

Lemma do_unload_ok i p xss s :
  pl_inv s → cb_rep (pl_cbs s) xss → live s !! Z.to_nat i = Some p → 0 ≤ i →
  quiet_uninit (plugin p) → Forall (unregister_safe (plugin p)) xss →
  ∃ s', panda_do_unload_plugin i s = Ok () s' ∧ pl_inv s' ∧
    live s' = delete (Z.to_nat i) (live s) ∧ nb_panda_plugins s' = nb_panda_plugins s - 1 ∧
    cb_rep (pl_cbs s') (without (plugin p) <$> xss) ∧
    panda_plugins_to_unload s' = panda_plugins_to_unload s ∧
    panda_plugin_to_unload s' = panda_plugin_to_unload s ∧
    pl_trace s' = pl_trace s ++ unload_events (plugin p).
Proof.
  intros Hi Hc Hl Hi0 Hq Hs.
  assert (Hlt : i < nb_panda_plugins s).
  { apply lookup_lt_Some in Hl. rewrite (live_length _ Hi) in Hl. lia. }
  apply lookup_take_Some in Hl as [Hl _].
  unfold panda_do_unload_plugin. rewrite bind_gets, (bind_Ok _ _ _ _ _ (at_idx_ok _ _ _ _ Hi0 Hl)).
  fold (run_uninit (plugin p)). destruct (quiet_run _ s Hq) as (a & b & c & d & tr & Hu & Htr).
  rewrite (bind_Ok _ _ _ _ _ Hu).
  destruct (unregister_rep (pl_cbs s) xss (plugin p) Hc Hs) as (cb' & Hr & Hc').
  erewrite bind_Ok by (unfold pl_on_cbs; simpl; by rewrite Hr).
  destruct (delete_plugin_ok i (set_pl_cbs cb' (set_flags a b c d (set_pl_trace (pl_trace s ++ tr) s)))) as (arr & E & Hlen & Hd);
    [by destruct Hi|simpl; lia|].
  rewrite (bind_Ok _ _ _ _ _ E). eexists. split; [done|]. split_and!; try done.
  - destruct Hi. split; try done; simpl; lia.
  - simpl. by rewrite <-app_assoc, Htr.
Qed.

(** Without requests the CPU loop unloads nothing. *)
Lemma unload_requested_none n : ∀ i s,
  0 ≤ i → (∀ k, (Z.to_nat i ≤ k < Z.to_nat i + n)%nat → panda_plugins_to_unload s !! k = Some false) →
  unload_requested n i s = Ok () s.
Proof.
  induction n as [|n IH]; intros i s Hi Hf; cbn [unload_requested]; [done|].
  rewrite bind_gets, (bind_Ok _ _ _ _ _ (at_idx_ok _ _ _ _ Hi (Hf (Z.to_nat i) ltac:(lia)))).
  rewrite bind_ret. apply IH; [lia|]. intros k Hk. apply Hf. lia.
Qed.

Lemma unload_requested_app n m : ∀ i s,
  unload_requested (n + m) i s = (unload_requested n i;; unload_requested m (i + Z.of_nat n)) s.
Proof.
  induction n as [|n IH]; intros i s.
  - rewrite Z.add_0_r. done.
  - cbn [unload_requested Nat.add]. rewrite bind_assoc, !bind_gets, bind_assoc.
    apply bind_ext; intros b s1 _. rewrite bind_assoc. apply bind_ext; intros u s2 _.
    rewrite IH. by replace (i + 1 + Z.of_nat n) with (i + Z.of_nat (S n)) by lia.
Qed.

(** The requests to unload that are pending, as indices. *)
Definition requests (s : pl_state) (js : list nat) : Prop :=
  ∀ k, (k < MAX_PANDA_PLUGINS)%nat →
    panda_plugins_to_unload s !! k = Some (bool_decide (k ∈ js)).

(** The walk over the flags up to a request, the request, the rest. *)
Lemma unload_requested_first n j s :
  (j < n ≤ MAX_PANDA_PLUGINS)%nat →
  (∀ k, (k < j)%nat → panda_plugins_to_unload s !! k = Some false) →
  panda_plugins_to_unload s !! j = Some true →
  unload_requested n 0 s
  = (panda_do_unload_plugin (Z.of_nat j);; store_to_unload (Z.of_nat j) false;;
     unload_requested (n - j - 1) (Z.of_nat j + 1)) s.
Proof.
  intros Hj Hf Ht. replace n with (j + S (n - j - 1))%nat at 1 by lia.
  rewrite unload_requested_app, (bind_Ok _ _ _ _ _ (unload_requested_none j 0 s ltac:(lia) ltac:(intros; apply Hf; lia))).
  cbn [unload_requested]. rewrite Z.add_0_l, bind_gets.
  erewrite bind_Ok by (apply at_idx_ok; [lia|by rewrite Nat2Z.id]).
  cbv beta iota. by rewrite bind_assoc.
Qed.

Lemma store_to_unload_ok j b s :
  pl_inv s → (j < MAX_PANDA_PLUGINS)%nat →
  store_to_unload (Z.of_nat j) b s
  = Ok () (set_panda_plugins_to_unload (<[j := b]> (panda_plugins_to_unload s)) s).
Proof.
  intros Hi Hj. unfold store_to_unload. rewrite bind_gets.
  destruct (lookup_lt_is_Some_2 (panda_plugins_to_unload s) j) as [x Hx];
    [by rewrite (pi_to_unload _ Hi)|].
  erewrite bind_Ok by (apply at_idx_ok; [lia|by rewrite Nat2Z.id]). by rewrite Nat2Z.id.
Qed.

(** The state after a request for the plugin [j]. *)
Definition asked (j : nat) (s : pl_state) : pl_state :=
  set_panda_plugins_to_unload (<[j := true]> (panda_plugins_to_unload s))
    (set_panda_plugin_to_unload true s).

Lemma live_lt j p s :
  pl_inv s → live s !! j = Some p →
  Z.of_nat j < nb_panda_plugins s ∧ (j < MAX_PANDA_PLUGINS)%nat.
Proof.
  intros Hi Hl. apply lookup_lt_Some in Hl. rewrite (live_length _ Hi) in Hl.
  destruct Hi. unfold MAX_PANDA_PLUGINS in *. lia.
Qed.

Lemma unload_idx_ok j p s :
  pl_inv s → live s !! j = Some p → panda_unload_plugin_idx (Z.of_nat j) s = Ok () (asked j s).
Proof.
  intros Hi Hl. destruct (live_lt _ _ _ Hi Hl) as [Hlt Hj]. unfold panda_unload_plugin_idx.
  rewrite bind_gets. rewrite (proj2 (Z.leb_gt _ _)), (proj2 (Z.ltb_ge _ _)) by lia.
  change (false || false) with false. cbv iota. rewrite bind_modify.
  rewrite store_to_unload_ok; [done|by destruct Hi|done].
Qed.

Lemma cpu_exec_unload_on s :
  panda_plugin_to_unload s = true →
  cpu_exec_unload s = unload_requested MAX_PANDA_PLUGINS 0 (set_panda_plugin_to_unload false s).
Proof. intros E. unfold cpu_exec_unload. by rewrite bind_gets, E, bind_modify. Qed.

Lemma asked_inv j s : pl_inv s → pl_inv (asked j s).
Proof. intros []. split; try done. simpl. by rewrite length_insert. Qed.

Lemma asked_requests j js s :
  pl_inv s → requests s js → (j < MAX_PANDA_PLUGINS)%nat → requests (asked j s) (j :: js).
Proof.
  intros Hi Hr Hj k Hk. simpl. destruct (decide (k = j)) as [->|Hne].
  - rewrite list_lookup_insert_eq by (by rewrite (pi_to_unload _ Hi)).
    rewrite bool_decide_true; [done|]. by apply list_elem_of_here.
  - rewrite list_lookup_insert_ne by done. rewrite (Hr k Hk). f_equal. apply bool_decide_ext.
    rewrite elem_of_cons. naive_solver.
Qed.

(** Serving the first request of the table: the state in which the walk goes on. *)
Lemma serve_first j js p xss s n :
  pl_inv s → cb_rep (pl_cbs s) xss → requests s (j :: js) → Forall (λ k, j < k)%nat js →
  live s !! j = Some p → quiet_uninit (plugin p) → Forall (unregister_safe (plugin p)) xss →
  n = MAX_PANDA_PLUGINS →
  ∃ s', unload_requested n 0 s = unload_requested (n - j - 1) (Z.of_nat j + 1) s' ∧
    pl_inv s' ∧ live s' = delete j (live s) ∧ nb_panda_plugins s' = nb_panda_plugins s - 1 ∧
    cb_rep (pl_cbs s') (without (plugin p) <$> xss) ∧ requests s' js ∧
    panda_plugin_to_unload s' = panda_plugin_to_unload s ∧
    pl_trace s' = pl_trace s ++ unload_events (plugin p).
Proof.
  intros Hi Hc Hr Hjs Hl Hq Hs ->. destruct (live_lt _ _ _ Hi Hl) as [Hlt Hj].
  rewrite Forall_forall in Hjs.
  rewrite (unload_requested_first _ j s).
  2: lia.
  2: { intros k Hk. rewrite Hr by lia. rewrite bool_decide_false; [done|].
       intros [->|Hin]%elem_of_cons; [lia|]. specialize (Hjs _ Hin). lia. }
  2: { rewrite Hr by lia. rewrite bool_decide_true; [done|]. by apply list_elem_of_here. }
  destruct (do_unload_ok (Z.of_nat j) p xss s) as (s2 & E2 & Hi2 & Hl2 & Hn2 & Hc2 & Hu2 & Hb2 & Ht2);
    [done|done|by rewrite Nat2Z.id|lia|done|done|].
  rewrite (bind_Ok _ _ _ _ _ E2), (bind_Ok _ _ _ _ _ (store_to_unload_ok j false s2 Hi2 Hj)).
  rewrite Nat2Z.id in Hl2. eexists. split; [done|]. split_and!; try done.
  - destruct Hi2. split; try done; simpl. by rewrite length_insert.
  - intros k Hk. simpl. rewrite Hu2. destruct (decide (k = j)) as [->|Hne].
    + rewrite list_lookup_insert_eq by (by rewrite (pi_to_unload _ Hi)).
      rewrite bool_decide_false; [done|]. intros Hin. specialize (Hjs _ Hin). lia.
    + rewrite list_lookup_insert_ne by done. rewrite (Hr k Hk). f_equal. apply bool_decide_ext.
      rewrite elem_of_cons. naive_solver.
Qed.

(** C33. A single request to unload a plugin is served at the next block: its clean-up
    runs (if it has one), then its callbacks are unregistered, it leaves the table
    while the others stay in order, its file is closed, and no request is left.
    No other request is pending ([requests s []]; [unload_two_requests] shows that
    a second one hits another plugin), the plugin's clean-up returns and changes
    at most the emulator's flags ([quiet_uninit]), and where its callback is the
    first of an event no other plugin has one there ([unregister_safe];
    [unregister_front_dangles] shows the dangling head otherwise). *)
Theorem unload_request_served j p xss s :
  pl_inv s → cb_rep (pl_cbs s) xss → requests s [] → live s !! j = Some p →
  quiet_uninit (plugin p) → Forall (unregister_safe (plugin p)) xss →
  ∃ s1 s2, panda_unload_plugin_idx (Z.of_nat j) s = Ok () s1 ∧ live s1 = live s ∧
    cpu_exec_unload s1 = Ok () s2 ∧ pl_inv s2 ∧ live s2 = delete j (live s) ∧
    cb_rep (pl_cbs s2) (without (plugin p) <$> xss) ∧ requests s2 [] ∧
    panda_plugin_to_unload s2 = false ∧ pl_trace s2 = pl_trace s ++ unload_events (plugin p).
Proof.
  intros Hi Hc Hr Hl Hq Hs. destruct (live_lt _ _ _ Hi Hl) as [Hlt Hj].
  exists (asked j s). rewrite (unload_idx_ok j p s Hi Hl).
  rewrite cpu_exec_unload_on by done.
  destruct (serve_first j [] p xss (set_panda_plugin_to_unload false (asked j s)) MAX_PANDA_PLUGINS)
    as (s2 & E2 & Hi2 & Hl2 & _ & Hc2 & Hr2 & Hb2 & Ht2);
    [by destruct (asked_inv j s Hi)|done|by apply asked_requests|done|done|done|done|done|].
  rewrite E2. exists s2. split; [done|]. split; [done|]. split; [|done].
  apply unload_requested_none; [lia|]. intros k Hk. by apply Hr2; lia.
Qed.

(** Two requests before the next block: after the first plugin left, the second
    index denotes the plugin behind the one that was meant, which is unloaded
    in its place. *)
Theorem unload_two_requests i j p q r xss s :
  pl_inv s → cb_rep (pl_cbs s) xss → requests s [] → (i < j)%nat →
  live s !! i = Some p → live s !! j = Some q → live s !! S j = Some r →
  quiet_uninit (plugin p) → quiet_uninit (plugin r) →
  Forall (unregister_safe (plugin p)) xss →
  Forall (unregister_safe (plugin r)) (without (plugin p) <$> xss) →
  ∃ s1 s2, (panda_unload_plugin_idx (Z.of_nat i);; panda_unload_plugin_idx (Z.of_nat j)) s = Ok () s1 ∧
    cpu_exec_unload s1 = Ok () s2 ∧
    live s2 !! pred j = Some q ∧
    pl_trace s2 = pl_trace s ++ unload_events (plugin p) ++ unload_events (plugin r).
Proof.
  intros Hi Hc Hr Hij Hlp Hlq Hlr Hqp Hqr Hsp Hsr.
  destruct (live_lt _ _ _ Hi Hlp) as [_ Hi16]. destruct (live_lt _ _ _ Hi Hlr) as [HSj Hj16].
  pose proof (asked_inv i s Hi) as Hia.
  assert (Hreq : requests (asked j (asked i s)) (i :: [j])).
  { pose proof (asked_requests j _ _ Hia (asked_requests i [] s Hi Hr Hi16) ltac:(lia)) as Hx.
    intros k Hk. rewrite (Hx k Hk). f_equal. apply bool_decide_ext. set_solver. }
  rewrite (bind_Ok _ _ _ _ _ (unload_idx_ok i p s Hi Hlp)).
  rewrite (unload_idx_ok j q (asked i s) Hia Hlq). exists (asked j (asked i s)).
  rewrite cpu_exec_unload_on by done.
  destruct (serve_first i [j] p xss (set_panda_plugin_to_unload false (asked j (asked i s)))
    MAX_PANDA_PLUGINS) as (s2 & E2 & Hi2 & Hl2 & Hn2 & Hc2 & Hr2 & _ & Ht2);
    [by destruct (asked_inv j _ Hia)|done|done|by apply Forall_singleton|done|done|done|done|].
  rewrite E2.
  assert (Hlr2 : live s2 !! j = Some r).
  { rewrite Hl2. rewrite list_lookup_delete_ge by lia. done. }
  replace (MAX_PANDA_PLUGINS - i - 1)%nat with ((j - i - 1) + S (MAX_PANDA_PLUGINS - j - 1))%nat by lia.
  rewrite unload_requested_app.
  rewrite (bind_Ok _ _ _ _ _ (unload_requested_none (j - i - 1) (Z.of_nat i + 1) s2 ltac:(lia)
    ltac:(intros k Hk; rewrite Hr2 by lia; rewrite bool_decide_false; [done|];
          rewrite list_elem_of_singleton; lia))).
  replace (Z.of_nat i + 1 + Z.of_nat (j - i - 1)) with (Z.of_nat j) by lia.
  cbn [unload_requested]. rewrite bind_gets.
  erewrite bind_Ok by (apply at_idx_ok; [lia|rewrite Nat2Z.id; apply Hr2; lia]).
  rewrite bool_decide_true by (by apply list_elem_of_here). rewrite bind_assoc.
  destruct (do_unload_ok (Z.of_nat j) r _ s2 Hi2 Hc2)
    as (s3 & E3 & Hi3 & Hl3 & _ & _ & Hu3 & _ & Ht3); [by rewrite Nat2Z.id|lia|done|done|].
  rewrite (bind_Ok _ _ _ _ _ E3).
  rewrite (bind_Ok _ _ _ _ _ (store_to_unload_ok j false s3 Hi3 ltac:(lia))).
  eexists. split; [done|]. split.
  { apply unload_requested_none; [lia|]. intros k Hk. simpl. rewrite list_lookup_insert_ne by lia.
    rewrite Hu3, Hr2 by lia. rewrite bool_decide_false; [done|].
    rewrite list_elem_of_singleton. lia. }
  rewrite Nat2Z.id in Hl3. split.
  - change (live _) with (live s3). rewrite Hl3, list_lookup_delete_lt by lia. rewrite Hl2.
    destruct j as [|j]; [lia|]. simpl pred. by rewrite list_lookup_delete_ge by lia.
  - simpl. rewrite Ht3, Ht2. by rewrite <-app_assoc.
Qed.

(** ** Clean-up *)

(** No event has callbacks of two plugins. *)
Definition one_owner (xs : list (loc * cb_info)) : Prop :=
  ∀ x y, x ∈ xs → y ∈ xs → ci_owner x.2 = ci_owner y.2.

Definition without_all (hs : list Z) (xs : list (loc * cb_info)) : list (loc * cb_info) :=
  filter (λ x, ci_owner x.2 ∉ hs) xs.

Lemma without_all_nil xs : without_all [] xs = xs.
Proof.
  unfold without_all. induction xs as [|x xs IH]; [done|].
  rewrite filter_cons_True, IH; [done|]. by apply not_elem_of_nil.
Qed.

Lemma without_all_cons h hs xs : without_all (h :: hs) xs = without_all hs (without h xs).
Proof.
  unfold without_all, without. rewrite list_filter_filter. apply list_filter_iff.
  intros x. rewrite not_elem_of_cons. naive_solver.
Qed.

Lemma one_owner_without h xs : one_owner xs → one_owner (without h xs).
Proof. intros Ho x y [_ Hx]%list_elem_of_filter [_ Hy]%list_elem_of_filter. by apply Ho. Qed.

Lemma one_owner_safe h xs : one_owner xs → unregister_safe h xs.
Proof.
  intros Ho. destruct xs as [|x xs]; [by right|]. destruct (decide (ci_owner x.2 = h)) as [E|E].
  - right. unfold without.
    destruct (filter _ _) as [|y ys] eqn:Ef; [done|].
    assert (Hy : y ∈ filter (λ z : loc * cb_info, ci_owner z.2 ≠ h) (x :: xs))
      by (rewrite Ef; apply list_elem_of_here).
    apply list_elem_of_filter in Hy as [Hne Hin].
    by rewrite (Ho y x Hin (list_elem_of_here _ _)) in Hne.
  - left. by intros y [= <-].
Qed.

Lemma live_last n s :
  pl_inv s → nb_panda_plugins s = Z.of_nat (S n) →
  ∃ ps p, live s = ps ++ [p] ∧ length ps = n.
Proof.
  intros Hi Hn. pose proof (live_length _ Hi) as Hl. rewrite Hn, Nat2Z.id in Hl.
  destruct (live s) as [|p ps _] using rev_ind; [done|]. exists ps, p. split; [done|].
  rewrite length_app in Hl. simpl in Hl. lia.
Qed.

Lemma unload_loop_ok n : ∀ s xss,
  pl_inv s → nb_panda_plugins s = Z.of_nat n → cb_rep (pl_cbs s) xss → Forall one_owner xss →
  Forall (λ p, quiet_uninit (plugin p)) (live s) →
  ∃ s', unload_loop n s = Ok () s' ∧ pl_inv s' ∧ nb_panda_plugins s' = 0 ∧
    cb_rep (pl_cbs s') (without_all (plugin <$> reverse (live s)) <$> xss) ∧
    pl_trace s' = pl_trace s ++ concat (unload_events ∘ plugin <$> reverse (live s)).
Proof.
  induction n as [|n IH]; intros s xss Hi Hn Hc Ho Hq; cbn [unload_loop]; rewrite bind_gets, Hn.
  { exists s. assert (live s = []) as -> by (unfold live; by rewrite Hn).
    split_and!; try done; [|by rewrite app_nil_r]. simpl.
    rewrite (list_fmap_ext _ id), list_fmap_id; [done|]. intros. apply without_all_nil. }
  rewrite (proj2 (Z.ltb_lt _ _)) by lia. destruct (live_last n s Hi Hn) as (ps & p & Hl & Hps).
  rewrite Hl in Hq. apply Forall_app in Hq as [Hq Hqp]. rewrite Forall_singleton in Hqp.
  destruct (do_unload_ok (Z.of_nat (S n) - 1) p xss s) as (s1 & E1 & Hi1 & Hl1 & Hn1 & Hc1 & _ & _ & Ht1);
    [done|done| |lia|exact Hqp|by eapply Forall_impl, one_owner_safe|].
  { rewrite Hl. rewrite lookup_app_r by lia. by replace (_ - _)%nat with 0%nat by lia. }
  assert (live s1 = ps) as Hps1.
  { rewrite Hl1, Hl. replace (Z.to_nat _) with (length ps) by lia.
    by rewrite delete_middle, app_nil_r. }
  rewrite (bind_Ok _ _ _ _ _ E1).
  destruct (IH s1 (without (plugin p) <$> xss)) as (s2 & E2 & Hi2 & Hn2 & Hc2 & Ht2);
    [done|lia|done| |by rewrite Hps1|].
  { apply Forall_fmap. eapply Forall_impl; [exact Ho|]. intros. by apply one_owner_without. }
  exists s2. rewrite Hps1 in *. rewrite Hl, reverse_app, reverse_singleton. simpl.
  split_and!; try done.
  - rewrite <-list_fmap_compose in Hc2. erewrite list_fmap_ext; [exact Hc2|].
    intros _ xs _. apply without_all_cons.
  - by rewrite Ht2, Ht1, <-app_assoc.
Qed.

(** The clean-up at exit: when no event has callbacks of two plugins, all
    plugins are unloaded, the last loaded first; their callbacks are gone and
    their files closed. *)
Theorem unload_all_reverse s xss :
  pl_inv s → cb_rep (pl_cbs s) xss → Forall one_owner xss →
  Forall (λ p, quiet_uninit (plugin p)) (live s) →
  ∃ s', panda_unload_plugins s = Ok () s' ∧ live s' = [] ∧
    cb_rep (pl_cbs s') (without_all (plugin <$> reverse (live s)) <$> xss) ∧
    pl_trace s' = pl_trace s ++ concat (unload_events ∘ plugin <$> reverse (live s)).
Proof.
  intros Hi Hc Ho Hq. unfold panda_unload_plugins. rewrite bind_gets.
  destruct (unload_loop_ok (Z.to_nat (nb_panda_plugins s)) s xss Hi) as (s' & E & Hi' & Hn & Hc' & Ht);
    [destruct Hi; lia|done..|].
  exists s'. split_and!; try done. unfold live. by rewrite Hn.
Qed.

End Table.

(** ** Concrete plugins *)

Module PluginExamples.

(** A host with plugins: the handle of a file is the length of its name; an
    even plugin wants the blocks after, an odd one before they are executed. *)
Definition wanted_type (h : Z) : panda_cb_type :=
  if Z.even h then PANDA_CB_AFTER_BLOCK_EXEC else PANDA_CB_BEFORE_BLOCK_EXEC.

#[local] Instance linker : DynLinker := {
  dl_open _ f := if String.eqb f "missing.so" then None else Some (Z.of_nat (String.length f));
  init_plugin h := Some (λ h, pl_on_cbs (panda_register_callback h (wanted_type h) (10 * h));; mret true);
  uninit_plugin h := Some (λ _, panda_do_flush_tb);
}.

#[local] Instance linker_laws : PluginLaws.
Proof.
  split.
  - intros h f s b s' [= <-] Hi (u & s1 & H1 & [= _ <-])%bind_inv_Ok. unfold pl_on_cbs in H1.
    destruct (panda_register_callback _ _ _ _) as [u' c|]; [|done]. injection H1 as _ <-.
    apply pl_inv_ext; try done. destruct Hi. simpl. lia.
  - intros h f s u s' [= <-] Hi [= _ <-]. split; [|done].
    apply pl_inv_ext; try done. destruct Hi. simpl. lia.
Qed.

Definition state_of {A} (r : outcome pl_state A) : pl_state := match r with Ok _ s | Err _ s => s end.
Definition zero : pl_state := pl_init cb_init.
Definition one : pl_state := state_of (panda_load_plugin "panda_a.so" zero).
Definition two : pl_state := state_of (panda_load_plugin "panda_bb.so" one).
Definition three : pl_state := state_of (panda_load_plugin "panda_ccc.so" two).

Lemma load_one : panda_load_plugin "panda_a.so" zero = Ok true one.
Proof. vm_compute. reflexivity. Qed.
Lemma load_two : panda_load_plugin "panda_bb.so" one = Ok true two.
Proof. vm_compute. reflexivity. Qed.
Lemma load_three : panda_load_plugin "panda_ccc.so" two = Ok true three.
Proof. vm_compute. reflexivity. Qed.

Lemma zero_inv : pl_inv zero.
Proof. apply pl_init_inv. Qed.
Lemma one_inv : pl_inv one.
Proof. eapply load_evolves; [apply zero_inv|apply load_one]. Qed.
Lemma two_inv : pl_inv two.
Proof. eapply load_evolves; [apply one_inv|apply load_two]. Qed.
Lemma three_inv : pl_inv three.
Proof. eapply load_evolves; [apply two_inv|apply load_three]. Qed.

Lemma loads_reach : rtc plugin_step zero three.
Proof.
  eapply rtc_l; [exact (step_load _ _ _ _ load_one)|].
  eapply rtc_l; [exact (step_load _ _ _ _ load_two)|].
  apply rtc_once. exact (step_load _ _ _ _ load_three).
Qed.

Definition after_idx : nat := cb_idx PANDA_CB_AFTER_BLOCK_EXEC.
Definition before_idx : nat := cb_idx PANDA_CB_BEFORE_BLOCK_EXEC.
Definition cb_a : loc * cb_info := (1%positive, mkInfo 100 10 true).
Definition cb_b : loc * cb_info := (2%positive, mkInfo 110 11 true).
Definition cb_c : loc * cb_info := (3%positive, mkInfo 120 12 true).
Definition lists_two : list (list (loc * cb_info)) :=
  <[before_idx := [cb_b]]> (<[after_idx := [cb_a]]> (replicate PANDA_CB_LAST [])).
Definition lists_three : list (list (loc * cb_info)) := <[after_idx := [cb_c; cb_a]]> lists_two.

Lemma two_rep : cb_rep (pl_cbs two) lists_two.
Proof.
  pose proof (exec_register_rep cb_init _ 10 PANDA_CB_AFTER_BLOCK_EXEC 100 [] cb_init_rep eq_refl) as H1.
  pose proof (exec_register_rep _ _ 11 PANDA_CB_BEFORE_BLOCK_EXEC 110 [] H1 eq_refl) as H2.
  vm_compute in H2 |- *. exact H2.
Qed.
Lemma three_rep : cb_rep (pl_cbs three) lists_three.
Proof.
  pose proof (exec_register_rep _ _ 12 PANDA_CB_AFTER_BLOCK_EXEC 120 [cb_a] two_rep eq_refl) as H1.
  vm_compute in H1 |- *. exact H1.
Qed.

Lemma quiet h : quiet_uninit h.
Proof.
  intros f [= <-] s. exists true, (panda_update_pc s), (panda_use_memcb s), (panda_tb_chaining s).
  by destruct s.
Qed.

Lemma no_requests s : panda_plugins_to_unload s = replicate MAX_PANDA_PLUGINS false → requests s [].
Proof. intros E k Hk. rewrite E. by apply lookup_replicate. Qed.

Lemma plugin_table_invariant_witness :
  rtc plugin_step (pl_init cb_init) three ∧
  0 ≤ nb_panda_plugins three ≤ nb_panda_plugins_loaded three ∧
  nb_panda_plugins_loaded three ≤ Z.of_nat MAX_PANDA_PLUGINS ∧ NoDup (names three) ∧
  (nb_panda_plugins_loaded three = Z.of_nat MAX_PANDA_PLUGINS →
   ∀ f, Some f ∉ names three → panda_load_plugin f three = Err OutOfBounds three).
Proof.
  split; [apply loads_reach|]. apply (plugin_table_invariant cb_init). apply loads_reach.
Defined.

Lemma failed_load_reported_witness :
  panda_load_plugin "missing.so" (state_of (panda_load_plugin "missing.so" zero))
  = Ok true (state_of (panda_load_plugin "missing.so" zero)).
Proof. apply (failed_load_reported "missing.so" zero _ zero_inv). reflexivity. Defined.

Lemma load_then_lookup_witness :
  let pn := basename (Some "panda_a.so") in
  ∃ ps h, live one = ps ++ [mkPlugin (strncpy pn PLUGIN_NAME) h] ∧
    (Forall (λ q, ¬ strneq (name q) pn PLUGIN_NAME) ps →
     panda_get_plugin_by_name pn one = Ok (Some h) one).
Proof.
  apply (load_then_lookup "panda_a.so" zero one zero_inv); [|exact load_one].
  apply not_elem_of_nil.
Defined.

Lemma unload_request_served_witness :
  ∃ s1 s2, panda_unload_plugin_idx 0 two = Ok () s1 ∧ live s1 = live two ∧
    cpu_exec_unload s1 = Ok () s2 ∧ pl_inv s2 ∧ live s2 = [mkPlugin "panda_bb.so" 11] ∧
    cb_rep (pl_cbs s2) (without 10 <$> lists_two) ∧ requests s2 [] ∧
    panda_plugin_to_unload s2 = false ∧ pl_trace s2 = pl_trace two ++ [EvUninit 10; EvDlclose 10].
Proof.
  apply (unload_request_served 0 (mkPlugin "panda_a.so" 10) lists_two two two_inv two_rep
    (no_requests two eq_refl) eq_refl (quiet 10)).
  apply Forall_insert; [apply Forall_insert; [apply Forall_replicate; by right|by right]|].
  left. by intros x [= <-].
Defined.

Lemma unload_two_requests_witness :
  ∃ s1 s2, (panda_unload_plugin_idx 0;; panda_unload_plugin_idx 1) three = Ok () s1 ∧
    cpu_exec_unload s1 = Ok () s2 ∧ live s2 !! 0%nat = Some (mkPlugin "panda_bb.so" 11) ∧
    pl_trace s2 = pl_trace three ++ [EvUninit 10; EvDlclose 10; EvUninit 12; EvDlclose 12].
Proof.
  apply (unload_two_requests 0 1 (mkPlugin "panda_a.so" 10) (mkPlugin "panda_bb.so" 11)
    (mkPlugin "panda_ccc.so" 12) lists_three three three_inv three_rep (no_requests three eq_refl)
    ltac:(lia) eq_refl eq_refl eq_refl (quiet 10) (quiet 12)).
  - apply Forall_insert; [apply Forall_insert; [apply Forall_insert; [apply Forall_replicate; by right|by right]|]|].
    all: left; by intros x [= <-].
  - repeat (apply Forall_cons; split; [first [by right|left; by intros x [= <-]]|]). by apply Forall_nil.
Defined.

Lemma unload_all_reverse_witness :
  ∃ s', panda_unload_plugins two = Ok () s' ∧ live s' = [] ∧
    cb_rep (pl_cbs s') (without_all [11; 10] <$> lists_two) ∧
    pl_trace s' = pl_trace two ++ [EvUninit 11; EvDlclose 11; EvUninit 10; EvDlclose 10].
Proof.
  change [EvUninit 11; EvDlclose 11; EvUninit 10; EvDlclose 10]
    with (concat (unload_events ∘ plugin <$> reverse (live two))).
  apply (unload_all_reverse two lists_two two_inv two_rep).
  - apply Forall_insert; [apply Forall_insert; [apply Forall_replicate|]|].
    + by intros x y ?%not_elem_of_nil.
    + by intros x y ->%list_elem_of_singleton ->%list_elem_of_singleton.
    + by intros x y ->%list_elem_of_singleton ->%list_elem_of_singleton.
  - apply Forall_forall. intros p _. apply quiet.
Defined.

(** With two plugins on the same event the clean-up reads freed memory: the last
    loaded one leaves the list's head dangling, and the walk for the first one
    starts there. *)
Definition is_use_after_free {A} (r : outcome pl_state A) : bool :=
  match r with Err UseAfterFree _ => true | _ => false end.
Example cleanup_use_after_free : is_use_after_free (panda_unload_plugins three) = true.
Proof. vm_compute. reflexivity. Qed.

(** Both plugins of a table of two asked for in one go: the second index is past
    the end of the table by then. *)
Definition is_out_of_bounds {A} (r : outcome pl_state A) : bool :=
  match r with Err OutOfBounds _ => true | _ => false end.
Example unload_both_out_of_bounds :
  is_out_of_bounds ((panda_unload_plugin_idx 0;; panda_unload_plugin_idx 1;; cpu_exec_unload) two) = true.
Proof. vm_compute. reflexivity. Qed.

End PluginExamples.
