(* ===== verification/PandaArgs.v ===== *)
(** * Plugin arguments ([panda_plugin.c], and the [-panda-*] options of [vl.c])

    Arguments are strings ["plugin:key=value"] kept in a table; a plugin asks
    for its own and looks keys up, as booleans, numbers or strings. *)

From Stdlib Require Import Ascii.
From stdpp Require Import pretty.
From S2P Require Import Prelude CString PandaCallbacks PandaPlugins.
Local Open Scope Z_scope.

Abbreviation chars := String.list_ascii_of_string.
Abbreviation str := String.string_of_list_ascii.

Definition colon : ascii := ":"%char.
Definition equals : ascii := "="%char.
Definition comma : ascii := ","%char.
Definition semicolon : ascii := ";"%char.

(** ** The table *)

Definition panda_add_arg (arg : string) (arglen : Z) : PL bool :=
  if 255 <? arglen then mret false else
  n ← gets panda_argc; a ← gets panda_argv; _ ← at_idx a n;
  modify (λ s, set_panda_argc (panda_argc s + 1)
                 (set_panda_argv (<[Z.to_nat n := strncpy arg 255]> a) s));;
  mret true.

Definition strlen (s : string) : Z := Z.of_nat (String.length s).

Record panda_arg := mkArg { key : string; value : string }.

(** The inner loop of [panda_get_args] over one argument: the key starts after
    the last colon before the first equals sign, the value after that sign. *)
Fixpoint scan_arg (cs : list ascii) (k : option (list ascii))
    : option (list ascii) * option (list ascii) :=
  match cs with
  | [] => (k, None)
  | c :: cs' =>
      if decide (c = colon) then scan_arg cs' (Some [])
      else if decide (c = equals) then (k, Some cs')
      else scan_arg cs' ((λ l, l ++ [c]) <$> k)
  end.

Definition parse_arg (arg : string) : option panda_arg :=
  let '(k, v) := scan_arg (chars arg) None in
  (λ k, mkArg (str k) (str (default [] v))) <$> k.

(** [strncmp(plugin_name, arg, strlen(plugin_name)) == 0]. *)
Definition arg_matches (plugin_name arg : string) : bool :=
  strneq plugin_name arg (String.length plugin_name).

(** The second pass: null as soon as an argument has no colon. *)
Fixpoint parse_args (plugin_name : string) (args : list string) : option (list panda_arg) :=
  match args with
  | [] => Some []
  | a :: args' =>
      if arg_matches plugin_name a then
        p ← parse_arg a; ps ← parse_args plugin_name args'; Some (p :: ps)
      else parse_args plugin_name args'
  end.

Definition panda_get_args (plugin_name : string) (s : pl_state) : option (list panda_arg) :=
  let args := take (Z.to_nat (panda_argc s)) (panda_argv s) in
  if (length (filter (λ a, arg_matches plugin_name a = true) args) =? 0)%nat then None
  else parse_args plugin_name args.

(** ** Lookup *)

(** The loop all [panda_parse_*] functions share. *)
Fixpoint find_arg (args : list panda_arg) (argname : string) : option string :=
  match args with
  | [] => None
  | a :: args' => if String.eqb (key a) argname then Some (value a) else find_arg args' argname
  end.

Definition lookup_arg (args : option (list panda_arg)) (argname : string) : option string :=
  l ← args; find_arg l argname.

Definition panda_parse_string (args : option (list panda_arg)) (argname : string)
    (defval : option string) : option string :=
  match lookup_arg args argname with Some v => Some v | None => defval end.

Definition panda_parse_bool (args : option (list panda_arg)) (argname : string) : bool :=
  match lookup_arg args argname with
  | Some v => negb (String.eqb "false" v || String.eqb "no" v)
  | None => false
  end.

(** *** [strtoull(s, NULL, 0)] *)

Definition ascii_Z (c : ascii) : Z := Z.of_nat (nat_of_ascii c).
Definition isspace (c : ascii) : bool := (ascii_Z c =? 32) || ((9 <=? ascii_Z c) && (ascii_Z c <=? 13)).
Definition digit_value (c : ascii) : option Z :=
  let z := ascii_Z c in
  if (48 <=? z) && (z <=? 57) then Some (z - 48)
  else if (97 <=? z) && (z <=? 122) then Some (z - 87)
  else if (65 <=? z) && (z <=? 90) then Some (z - 55)
  else None.

Definition digit_in (base : Z) (c : ascii) : option Z :=
  d ← digit_value c; if d <? base then Some d else None.

Fixpoint digits (base : Z) (cs : list ascii) (acc : Z) : Z :=
  match cs with
  | [] => acc
  | c :: cs' =>
      match digit_in base c with
      | Some d => digits base cs' (acc * base + d)
      | None => acc
      end
  end.

Definition ULLONG_MAX : Z := 2 ^ 64 - 1.

(** Base 0: a prefix [0x] before a hexadecimal digit, a leading [0], or decimal. *)
Definition strtoull_digits (cs : list ascii) : Z :=
  match cs with
  | c :: c' :: c'' :: cs' =>
      if decide (c = "0"%char) then
        if decide (c' = "x"%char ∨ c' = "X"%char) then
          match digit_in 16 c'' with
          | Some _ => digits 16 (c'' :: cs') 0
          | None => 0
          end
        else digits 8 cs 0
      else digits 10 cs 0
  | c :: _ => if decide (c = "0"%char) then digits 8 cs 0 else digits 10 cs 0
  | [] => 0
  end.

Definition strtoull (s : string) : Z :=
  let cs := drop_while isspace (chars s) in
  let '(neg, ds) :=
    match cs with
    | c :: cs' => if decide (c = "-"%char) then (true, cs')
                  else if decide (c = "+"%char) then (false, cs') else (false, cs)
    | [] => (false, [])
    end in
  let v := strtoull_digits ds in
  if ULLONG_MAX <? v then ULLONG_MAX else if (neg : bool) then wrap 64 (- v) else v.

(** [target_ulong] has [w] bits; [unsigned long] has 64. *)
Definition panda_parse_ulong (w : Z) (args : option (list panda_arg)) (argname : string)
    (defval : Z) : Z :=
  match lookup_arg args argname with Some v => wrap w (strtoull v) | None => defval end.
Definition panda_parse_uint32 (args : option (list panda_arg)) (argname : string) (defval : Z) : Z :=
  match lookup_arg args argname with Some v => wrap 32 (strtoull v) | None => defval end.
Definition panda_parse_uint64 (args : option (list panda_arg)) (argname : string) (defval : Z) : Z :=
  match lookup_arg args argname with Some v => strtoull v | None => defval end.

(** ** [str_split] *)

(** The pieces between delimiters, empty ones included. *)
Fixpoint fields (delim : ascii) (cs : list ascii) : list (list ascii) :=
  match cs with
  | [] => [[]]
  | c :: cs' =>
      if decide (c = delim) then [] :: fields delim cs'
      else match fields delim cs' with
           | f :: fs => (c :: f) :: fs
           | [] => [[c]]
           end
  end.

(** The tokens [strtok] finds: the pieces that are not empty. *)
Definition tokens (delim : ascii) (cs : list ascii) : list (list ascii) :=
  filter (λ f, f ≠ []) (fields delim cs).

(** [count] before the space for the terminating null is added: the delimiters,
    and one more unless the last delimiter is the last character. *)
Definition split_count (delim : ascii) (cs : list ascii) : nat :=
  length (filter (λ c, c = delim) cs)
  + (if decide (last cs = Some delim) then 0 else 1).

(** [assert(idx < count)] and [assert(idx == count - 1)]. *)
Definition str_split (delim : ascii) (a_str : string) : PL (list string) :=
  let cs := chars a_str in
  let toks := tokens delim cs in
  assert_or Abort (length toks <=? S (split_count delim cs))%nat;;
  assert_or Abort (length toks =? split_count delim cs)%nat;;
  mret (str <$> toks).

(** ** Command line *)

(** [case QEMU_OPTION_panda_arg]: an argument that is too long is dropped. *)
Definition option_panda_arg (optarg : string) : PL () :=
  _ ← panda_add_arg optarg (strlen optarg); mret ().

(** The options of one plugin: [arg_str] has 255 bytes. *)
Fixpoint add_options (plugin_name : list ascii) (opts : list (list ascii)) : PL () :=
  match opts with
  | [] => mret ()
  | o :: os =>
      let arg_str := snprintf 255 (str (plugin_name ++ [colon] ++ o)) in
      _ ← panda_add_arg arg_str (strlen arg_str);
      add_options plugin_name os
  end.

(** Split at the first [c]: the part before and, when it occurs, the part after. *)
Fixpoint cut (c : ascii) (cs : list ascii) : list ascii * option (list ascii) :=
  match cs with
  | [] => ([], None)
  | x :: cs' =>
      if decide (x = c) then ([], Some cs')
      else let '(a, b) := cut c cs' in (x :: a, b)
  end.

Definition MAX_PLUGIN_FILES : nat := 16.

(** One plugin of [-panda-plugins]: its options become arguments, its file is
    added to [panda_plugin_files]. *)
Definition add_plugin_spec (path : string → string) (files : list string) (spec : list ascii)
    : PL (list string) :=
  let '(pn, opts) := cut colon spec in
  (match opts with Some o => add_options pn (fields comma o) | None => mret () end);;
  assert_or OutOfBounds (length files <? MAX_PLUGIN_FILES)%nat;;
  mret (files ++ [path (str pn)]).

Fixpoint add_plugin_specs (path : string → string) (files : list string)
    (specs : list (list ascii)) : PL (list string) :=
  match specs with
  | [] => mret files
  | sp :: sps => files' ← add_plugin_spec path files sp; add_plugin_specs path files' sps
  end.

(** [case QEMU_OPTION_panda_plugins]; [path] is [panda_plugin_path]. *)
Definition option_panda_plugins (path : string → string) (files : list string) (optarg : string)
    : PL (list string) :=
  add_plugin_specs path files (fields semicolon (chars optarg)).

(** [case QEMU_OPTION_panda_plugin]. *)
Definition option_panda_plugin (files : list string) (optarg : string) : PL (list string) :=
  assert_or OutOfBounds (length files <? MAX_PLUGIN_FILES)%nat;; mret (files ++ [optarg]).

(** ** Lemmas on strings *)

Lemma chars_app a b : chars (a +:+ b) = chars a ++ chars b.
Proof. induction a as [|c a IH]; simpl; [done|]. by rewrite IH. Qed.

Lemma str_chars s : str (chars s) = s.
Proof. apply String.string_of_list_ascii_of_string. Qed.
Lemma chars_str l : chars (str l) = l.
Proof. apply String.list_ascii_of_string_of_list_ascii. Qed.
Lemma length_str l : String.length (str l) = length l.
Proof. induction l; simpl; congruence. Qed.
Lemma length_chars s : length (chars s) = String.length s.
Proof. induction s; simpl; congruence. Qed.

Lemma substring_all n (s : string) : (String.length s ≤ n)%nat → String.substring 0 n s = s.
Proof.
  revert n. induction s as [|c s IH]; intros [|n] Hn; simpl in *; [done|done|lia|]. f_equal. apply IH. lia.
Qed.

Lemma substring_chars n (s : string) : String.substring 0 n s = str (take n (chars s)).
Proof. revert n. induction s as [|c s IH]; intros [|n]; simpl; [done..|]. by rewrite IH. Qed.

(** An argument matches a plugin's name when it begins with it. *)
Lemma arg_matches_prefix pn arg :
  arg_matches pn arg = true ↔ chars pn `prefix_of` chars arg.
Proof.
  unfold arg_matches, strneq. rewrite String.eqb_eq, !substring_chars, <-length_chars, firstn_all.
  rewrite str_chars. split.
  - intros E. apply (f_equal chars) in E. rewrite chars_str in E. rewrite E. apply prefix_take.
  - intros [k ->]. rewrite take_app_length. by rewrite str_chars.
Qed.

(** ** Lists of pieces *)

(** Pieces joined by a delimiter. *)
Fixpoint join (delim : ascii) (ps : list (list ascii)) : list ascii :=
  match ps with
  | [] => []
  | [p] => p
  | p :: ps' => p ++ delim :: join delim ps'
  end.

Lemma fields_plain delim p : delim ∉ p → fields delim p = [p].
Proof.
  induction p as [|c p IH]; simpl; [done|]. intros [Hc Hp]%not_elem_of_cons.
  by rewrite decide_False, IH by congruence.
Qed.

Lemma fields_app delim p cs : delim ∉ p → fields delim (p ++ delim :: cs) = p :: fields delim cs.
Proof.
  induction p as [|c p IH]; simpl; [by rewrite decide_True|]. intros [Hc Hp]%not_elem_of_cons.
  by rewrite decide_False, IH by congruence.
Qed.

Lemma fields_join delim ps :
  ps ≠ [] → Forall (λ p, delim ∉ p) ps → fields delim (join delim ps) = ps.
Proof.
  intros Hne Hf. induction Hf as [|p ps Hp Hf IH]; [done|]. destruct ps as [|p' ps].
  - by apply fields_plain.
  - change (join delim (p :: p' :: ps)) with (p ++ delim :: join delim (p' :: ps)).
    by rewrite fields_app, IH.
Qed.

Lemma join_fields delim cs : join delim (fields delim cs) = cs.
Proof.
  induction cs as [|c cs IH]; [done|]. cbn [fields]. destruct (decide (c = delim)) as [->|Hc].
  - destruct (fields delim cs) as [|f fs] eqn:E; [|by rewrite <-IH].
    by destruct cs as [|c cs]; simpl in E; [|destruct (decide _), (fields delim cs)].
  - destruct (fields delim cs) as [|f fs] eqn:E; simpl in *; [by subst|].
    destruct fs; by subst.
Qed.

Lemma cut_plain c p : c ∉ p → cut c p = (p, None).
Proof.
  induction p as [|x p IH]; simpl; [done|]. intros [Hc Hp]%not_elem_of_cons.
  by rewrite decide_False, IH by congruence.
Qed.

Lemma cut_app c p cs : c ∉ p → cut c (p ++ c :: cs) = (p, Some cs).
Proof.
  induction p as [|x p IH]; simpl; [by rewrite decide_True|]. intros [Hc Hp]%not_elem_of_cons.
  by rewrite decide_False, IH by congruence.
Qed.

(** ** Arguments *)

Lemma scan_plain l : ∀ k rest,
  colon ∉ l → equals ∉ l → scan_arg (l ++ rest) k = scan_arg rest ((λ x, x ++ l) <$> k).
Proof.
  induction l as [|c l IH]; intros k rest; [by destruct k; simpl; rewrite ?app_nil_r|].
  intros [H1 Hc]%not_elem_of_cons [H2 He]%not_elem_of_cons. cbn [app scan_arg].
  rewrite !decide_False by congruence. rewrite IH by done.
  destruct k; simpl; [|done]. by rewrite <-app_assoc.
Qed.

(** A [-panda-arg]. *)
Record arg_spec := mkSpec { sp_plugin : string; sp_key : string; sp_value : string }.
Definition print_arg (a : arg_spec) : string :=
  sp_plugin a +:+ String colon (sp_key a +:+ String equals (sp_value a)).
Definition plain (s : string) : Prop := (colon ∉ chars s) ∧ (equals ∉ chars s).
Definition arg_ok (a : arg_spec) : Prop :=
  plain (sp_plugin a) ∧ plain (sp_key a) ∧ strlen (print_arg a) ≤ 255.

Lemma chars_print a :
  chars (print_arg a)
  = chars (sp_plugin a) ++ colon :: chars (sp_key a) ++ equals :: chars (sp_value a).
Proof. unfold print_arg. rewrite chars_app. simpl. rewrite chars_app. done. Qed.

Lemma parse_print a : arg_ok a → parse_arg (print_arg a) = Some (mkArg (sp_key a) (sp_value a)).
Proof.
  intros ([Hp1 Hp2] & [Hk1 Hk2] & _). unfold parse_arg. rewrite chars_print, scan_plain by done.
  cbn [scan_arg fmap option_fmap option_map]. rewrite decide_True by done.
  rewrite scan_plain by done. cbn [scan_arg]. rewrite decide_False by done. rewrite decide_True by done.
  simpl. by rewrite !str_chars.
Qed.

(** The table holds exactly the arguments [args]. *)
Definition args_are (s : pl_state) (args : list string) : Prop :=
  panda_argc s = Z.of_nat (length args) ∧ length (panda_argv s) = MAX_PANDA_PLUGIN_ARGS ∧
  take (length args) (panda_argv s) = args.

Lemma add_arg_ok s args a :
  args_are s args → strlen a ≤ 255 → (length args < MAX_PANDA_PLUGIN_ARGS)%nat →
  ∃ s', panda_add_arg a (strlen a) s = Ok true s' ∧ args_are s' (args ++ [a]).
Proof.
  intros (Hc & Hl & Ht) Ha Hn. unfold panda_add_arg. rewrite (proj2 (Z.ltb_ge _ _)) by lia.
  rewrite !bind_gets, Hc. destruct (lookup_lt_is_Some_2 (panda_argv s) (length args)) as [x Hx]; [lia|].
  erewrite bind_Ok by (apply at_idx_ok; [lia|by rewrite Nat2Z.id]). rewrite bind_modify, Nat2Z.id.
  eexists. split; [done|]. unfold args_are. simpl. rewrite length_app, length_insert. simpl.
  split_and!; [lia|done|]. rewrite Nat.add_1_r.
  rewrite (take_S_r _ _ (strncpy a 255)) by (apply list_lookup_insert_eq; lia).
  rewrite take_insert_ge, Ht by lia. unfold strncpy. rewrite substring_all; [done|].
  unfold strlen in Ha. lia.
Qed.

(** A table that is full is overrun. *)
Lemma add_arg_full s args a :
  args_are s args → strlen a ≤ 255 → length args = MAX_PANDA_PLUGIN_ARGS →
  panda_add_arg a (strlen a) s = Err OutOfBounds s.
Proof.
  intros (Hc & Hl & Ht) Ha Hn. unfold panda_add_arg. rewrite (proj2 (Z.ltb_ge _ _)) by lia.
  rewrite !bind_gets. apply bind_Err, at_idx_out. rewrite Hl, Hc, Hn. done.
Qed.

(** The [-panda-arg] options of a command line, in order. *)
Fixpoint add_printed (specs : list arg_spec) : PL () :=
  match specs with
  | [] => mret ()
  | a :: specs' => option_panda_arg (print_arg a);; add_printed specs'
  end.

Lemma add_printed_ok specs : ∀ s args,
  args_are s args → Forall arg_ok specs →
  (length args + length specs ≤ MAX_PANDA_PLUGIN_ARGS)%nat →
  ∃ s', add_printed specs s = Ok () s' ∧ args_are s' (args ++ (print_arg <$> specs)).
Proof.
  induction specs as [|a specs IH]; intros s args Ha Hok Hn.
  { exists s. by rewrite app_nil_r. }
  apply Forall_cons in Hok as [Hok Hoks]. simpl in Hn.
  destruct (add_arg_ok s args (print_arg a) Ha) as (s1 & E1 & H1); [apply Hok|lia|].
  destruct (IH s1 _ H1 Hoks) as (s2 & E2 & H2); [rewrite length_app; simpl; lia|].
  exists s2. cbn [add_printed]. unfold option_panda_arg. rewrite bind_assoc, (bind_Ok _ _ _ _ _ E1).
  split; [done|]. by rewrite <-app_assoc in H2.
Qed.

(** The arguments a plugin is given. *)
Definition args_for (pn : string) (specs : list arg_spec) : list panda_arg :=
  (λ a, mkArg (sp_key a) (sp_value a)) <$> filter (λ a, sp_plugin a = pn) specs.

(** No other plugin's name begins with this one. *)
Definition name_distinct (pn : string) (specs : list arg_spec) : Prop :=
  Forall (λ a, chars pn `prefix_of` chars (print_arg a) → sp_plugin a = pn) specs.

Lemma matches_own pn specs a :
  name_distinct pn (a :: specs) → arg_matches pn (print_arg a) = bool_decide (sp_plugin a = pn).
Proof.
  intros [Hd _]%Forall_cons. apply eq_true_iff_eq. rewrite arg_matches_prefix, bool_decide_eq_true.
  split; [done|]. intros <-. rewrite chars_print. by eexists.
Qed.

Lemma parse_args_printed pn specs :
  Forall arg_ok specs → name_distinct pn specs →
  parse_args pn (print_arg <$> specs) = Some (args_for pn specs).
Proof.
  intros Hok Hd. induction Hok as [|a specs Ha Hok IH]; [done|]. cbn [fmap list_fmap parse_args].
  rewrite (matches_own pn specs a Hd), parse_print by done.
  apply Forall_cons in Hd as [_ Hd]. rewrite (IH Hd). unfold args_for.
  destruct (decide (sp_plugin a = pn)) as [E|E].
  - by rewrite bool_decide_true, filter_cons_True by done.
  - by rewrite bool_decide_false, filter_cons_False by done.
Qed.

(** What is put on the command line is what the plugin gets: its own arguments,
    with their keys and values, in order; null when there are none. *)
Theorem args_round_trip s pn specs :
  args_are s [] → Forall arg_ok specs → (length specs ≤ MAX_PANDA_PLUGIN_ARGS)%nat →
  name_distinct pn specs →
  ∃ s', add_printed specs s = Ok () s' ∧
    panda_get_args pn s' = match args_for pn specs with [] => None | l => Some l end.
Proof.
  intros Ha Hok Hn Hd. destruct (add_printed_ok specs s [] Ha Hok Hn) as (s' & E & Hc & Hl & Ht).
  exists s'. split; [done|]. unfold panda_get_args. simpl in Hc, Ht.
  rewrite Hc, Nat2Z.id, Ht, parse_args_printed by done.
  assert (Hlen : length (filter (λ a, arg_matches pn a = true) (print_arg <$> specs))
    = length (args_for pn specs)).
  { unfold args_for. rewrite length_fmap. clear -Hd.
    induction specs as [|a specs IH]; [done|]. cbn [fmap list_fmap].
    pose proof (matches_own pn specs a Hd) as Hm. apply Forall_cons in Hd as [_ Hd].
    destruct (decide (sp_plugin a = pn)) as [E|E].
    - rewrite bool_decide_true in Hm by done. rewrite !filter_cons_True by done. simpl. by rewrite IH.
    - rewrite bool_decide_false in Hm by done.
      rewrite (filter_cons_False _ (print_arg a)) by (by rewrite Hm). rewrite filter_cons_False by done.
      by rewrite IH. }
  rewrite Hlen. by destruct (args_for pn specs).
Qed.

(** Names are compared up to the length of the one that is asked for: a plugin
    also gets the arguments of every plugin whose name begins with its own. *)
Theorem args_of_longer_name s pn ext k v :
  args_are s [] → plain pn → arg_ok (mkSpec (pn +:+ ext) k v) →
  ∃ s', add_printed [mkSpec (pn +:+ ext) k v] s = Ok () s' ∧
    panda_get_args pn s' = Some [mkArg k v].
Proof.
  intros Ha Hp Hok.
  destruct (add_printed_ok [mkSpec (pn +:+ ext) k v] s [] Ha) as (s' & E & Hc & Hl & Ht);
    [by apply Forall_singleton|simpl; unfold MAX_PANDA_PLUGIN_ARGS; lia|].
  exists s'. split; [done|]. unfold panda_get_args. simpl in Hc, Ht. rewrite Hc.
  change (Z.to_nat _) with 1%nat. rewrite Ht.
  assert (Hm : arg_matches pn (print_arg (mkSpec (pn +:+ ext) k v)) = true).
  { apply arg_matches_prefix. rewrite chars_print. simpl. rewrite chars_app, <-app_assoc. by eexists. }
  rewrite filter_cons_True by done. simpl. by rewrite Hm, parse_print.
Qed.

(** ** Splitting *)

Lemma split_count_fields delim cs :
  split_count delim cs
  = (length (fields delim cs) - (if decide (last (fields delim cs) = Some [] ∧ cs ≠ []) then 1 else 0))%nat.
Proof.
  unfold split_count.
  assert (Hlen : ∀ l, length (fields delim l) = S (length (filter (λ c, c = delim) l))).
  { intros l. induction l as [|c l IH]; [done|]. cbn [fields].
    destruct (decide (c = delim)) as [E|E].
    - rewrite filter_cons_True by done. simpl. by rewrite IH.
    - rewrite filter_cons_False by done. destruct (fields delim l); simpl in *; lia. }
  assert (Hlast : ∀ l, l ≠ [] → (last l = Some delim ↔ last (fields delim l) = Some [])).
  { intros l. induction l as [|c l IH]; [done|]. intros _. cbn [fields].
    destruct (decide (l = [])) as [->|Hl]; simpl.
    - destruct (decide (c = delim)); simpl; naive_solver.
    - specialize (IH Hl). destruct l as [|x l]; [done|].
      change (last (c :: x :: l)) with (last (x :: l)). rewrite IH.
      destruct (decide (c = delim)) as [E|E].
      + destruct (fields delim (x :: l)) as [|f fs] eqn:Ef; [|done].
        exfalso. pose proof (Hlen (x :: l)) as Hx. rewrite Ef in Hx. done.
      + destruct (fields delim (x :: l)) as [|f fs] eqn:Ef; [done|].
        destruct fs; simpl; [|done].
        pose proof (Hlen (x :: l)) as Hx. rewrite Ef in Hx. simpl in Hx.
        assert (Hf : f = x :: l). { pose proof (join_fields delim (x :: l)) as Hj. by rewrite Ef in Hj. }
        subst f. naive_solver. }
  rewrite Hlen. destruct (decide (cs = [])) as [->|Hne]; simpl.
  - done.
  - specialize (Hlast cs Hne). destruct (decide (last cs = Some delim)) as [E|E].
    + rewrite decide_True by naive_solver. lia.
    + rewrite decide_False by naive_solver. lia.
Qed.

Lemma filter_all {A} (P : A → Prop) `{∀ x, Decision (P x)} l : Forall P l → filter P l = l.
Proof. induction 1; [done|]. by rewrite filter_cons_True; [f_equal|]. Qed.

(** [str_split] gives back the pieces of a joined string, with or without a
    delimiter at the end. *)
Theorem str_split_join delim ps s :
  ps ≠ [] → Forall (λ p, (delim ∉ chars p) ∧ p ≠ EmptyString) ps →
  str_split delim (str (join delim (chars <$> ps))) s = Ok ps s ∧
  str_split delim (str (join delim (chars <$> ps ++ [EmptyString]))) s = Ok ps s.
Proof.
  intros Hne Hf.
  assert (H1 : Forall (λ p, delim ∉ p) (chars <$> ps)).
  { apply Forall_fmap. eapply Forall_impl; [exact Hf|]. by intros ? []. }
  assert (H2 : filter (λ f, f ≠ []) (chars <$> ps) = chars <$> ps).
  { apply filter_all, Forall_fmap. eapply Forall_impl; [exact Hf|]. intros p [_ Hp] E.
    by destruct p. }
  assert (Hs : str <$> (chars <$> ps) = ps).
  { rewrite <-list_fmap_compose. rewrite (list_fmap_ext _ id), list_fmap_id; [done|].
    intros. apply str_chars. }
  destruct (exists_last Hne) as (qs & q & Hq). assert (Hqe : chars q ≠ []).
  { rewrite Hq in Hf. apply Forall_app in Hf as [_ Hf]. apply Forall_singleton in Hf as [_ Hx].
    by destruct q. }
  split; unfold str_split; rewrite chars_str; unfold tokens; rewrite split_count_fields.
  - rewrite !fields_join by (first [by destruct ps|done]). rewrite H2.
    rewrite decide_False. 2: { rewrite fmap_last, Hq, last_snoc. simpl. naive_solver. }
    rewrite Nat.sub_0_r. rewrite Nat.eqb_refl. rewrite (proj2 (Nat.leb_le _ _)) by lia.
    unfold assert_or. simpl. by rewrite Hs.
  - rewrite fmap_app. rewrite !fields_join by (first [by destruct ps|apply Forall_app; split; [done|]; apply Forall_singleton; apply not_elem_of_nil]).
    rewrite filter_app, H2. simpl. rewrite app_nil_r, length_app, last_snoc. simpl.
    rewrite decide_True. 2: { split; [done|]. destruct ps as [|p ps]; [done|].
      destruct ps; simpl; by destruct (chars p). }
    rewrite Nat.add_sub, Nat.eqb_refl. rewrite (proj2 (Nat.leb_le _ _)) by lia.
    unfold assert_or. simpl. by rewrite Hs.
Qed.

(** Any other empty piece stops the process: a delimiter in front, two in a row,
    or the empty string. *)
Theorem str_split_empty_piece delim ps s :
  Forall (λ p, delim ∉ chars p) ps → EmptyString ∈ ps →
  str_split delim (str (join delim (chars <$> ps ++ [EmptyString]))) s = Err Abort s ∧
  (ps = [EmptyString] ∨ last ps ≠ Some EmptyString →
   str_split delim (str (join delim (chars <$> ps))) s = Err Abort s).
Proof.
  intros Hf Hin.
  assert (H1 : Forall (λ p, delim ∉ p) (chars <$> ps)) by (by apply Forall_fmap).
  assert (Hlt : (length (filter (λ f, f ≠ []) (chars <$> ps)) < length ps)%nat).
  { apply list_elem_of_split in Hin as (l1 & l2 & ->).
    rewrite fmap_app, fmap_cons, filter_app, filter_cons_False by naive_solver.
    rewrite !length_app. simpl length.
    pose proof (length_filter (λ f : list ascii, f ≠ []) (chars <$> l1)) as L1.
    pose proof (length_filter (λ f : list ascii, f ≠ []) (chars <$> l2)) as L2.
    rewrite length_fmap in L1, L2. lia. }
  assert (Hne : ps ≠ []) by (by intros ->; apply not_elem_of_nil in Hin).
  assert (Herr : ∀ n m : nat, (n < m)%nat → (assert_or Abort (n <=? S m)%nat;;
    assert_or Abort (n =? m)%nat;; mret (str <$> filter (λ f : list ascii, f ≠ []) (chars <$> ps))) s = Err Abort s).
  { intros n m Hnm. rewrite (proj2 (Nat.leb_le _ _)), (proj2 (Nat.eqb_neq _ _)) by lia. done. }
  split; [|intros Hcase]; unfold str_split; rewrite chars_str; unfold tokens; rewrite split_count_fields.
  - rewrite fmap_app. rewrite !fields_join by (first [by destruct ps|apply Forall_app; split; [done|]; apply Forall_singleton; apply not_elem_of_nil]).
    rewrite filter_app. simpl. rewrite app_nil_r, length_app, last_snoc. simpl.
    rewrite length_fmap. apply Herr. destruct (decide _); lia.
  - rewrite !fields_join by (first [by destruct ps|done]). rewrite length_fmap. apply Herr.
    destruct (decide _) as [[Hl Hj]|]; [|lia]. exfalso. destruct Hcase as [->|Hcase]; [by simpl in Hj|].
    rewrite fmap_last in Hl. destruct (last ps) as [q|]; [|done]. simpl in Hl.
    destruct q; [done|]. done.
Qed.

(** ** Numbers *)

Lemma digit_in_pretty d :
  (d < 10)%N → digit_in 10 (pretty_N_char d) = Some (Z.of_N d).
Proof.
  intros Hd. assert (d = 0 ∨ d = 1 ∨ d = 2 ∨ d = 3 ∨ d = 4 ∨ d = 5 ∨ d = 6 ∨ d = 7 ∨ d = 8 ∨ d = 9)%N
    as Hc by lia.
  by repeat destruct Hc as [->|Hc]; [..|subst].
Qed.

(** Reading on behind a printed number. *)
Lemma digits_pretty x : ∀ s, digits 10 (chars (pretty_N_go x s)) 0 = digits 10 (chars s) (Z.of_N x).
Proof.
  induction (N.lt_wf_0 x) as [x _ IH]; intros s.
  assert (x = 0 ∨ 0 < x)%N as [->|Hx] by lia; [by rewrite pretty_N_go_0|].
  rewrite pretty_N_go_step by done. rewrite IH by (by apply N.div_lt). simpl.
  rewrite digit_in_pretty by (by apply N.mod_lt). f_equal.
  rewrite N2Z.inj_div, N2Z.inj_mod. change (Z.of_N 10) with 10.
  pose proof (Z.div_mod (Z.of_N x) 10). lia.
Qed.

Lemma pretty_head x : ∀ s, (0 < x)%N →
  ∃ d cs, (0 < d < 10)%N ∧ chars (pretty_N_go x s) = pretty_N_char d :: cs.
Proof.
  induction (N.lt_wf_0 x) as [x _ IH]; intros s Hx. rewrite pretty_N_go_step by done.
  destruct (decide (x < 10)%N) as [Hs|Hs].
  - rewrite N.div_small, pretty_N_go_0, N.mod_small by done. eauto.
  - apply IH; [by apply N.div_lt|]. apply N.div_str_pos. lia.
Qed.

(** A decimal number is read back; one that does not fit 64 bits gives the
    largest that does. *)
Lemma strtoull_pretty n : strtoull (pretty n) = Z.min (Z.of_N n) ULLONG_MAX.
Proof.
  unfold pretty, pretty_N. destruct (decide (n = 0%N)) as [->|Hn]; [done|].
  destruct (pretty_head n "" ltac:(lia)) as (d & cs & Hd & E).
  assert (Hc : digits 10 (pretty_N_char d :: cs) 0 = Z.of_N n) by (by rewrite <-E, digits_pretty).
  unfold strtoull. rewrite E.
  assert (d = 1 ∨ d = 2 ∨ d = 3 ∨ d = 4 ∨ d = 5 ∨ d = 6 ∨ d = 7 ∨ d = 8 ∨ d = 9)%N as Hd' by lia.
  assert (Hv : strtoull_digits (pretty_N_char d :: cs) = Z.of_N n).
  { rewrite <-Hc. clear -Hd'. destruct cs as [|c1 [|c2 cs]];
      by repeat destruct Hd' as [->|Hd']; [..|subst]. }
  assert (Hs : drop_while isspace (pretty_N_char d :: cs) = pretty_N_char d :: cs)
    by (clear -Hd'; by repeat destruct Hd' as [->|Hd']; [..|subst]).
  rewrite Hs. rewrite !decide_False by (clear -Hd'; by repeat destruct Hd' as [->|Hd']; [..|subst]).
  rewrite Hv. destruct (Z.ltb_spec ULLONG_MAX (Z.of_N n)); lia.
Qed.

(** The numeric arguments: a decimal value comes back as it is in 64 bits,
    saturated; in 32 bits, and in the 32-bit [target_ulong], what does not fit is
    cut off without a warning. *)
Theorem numeric_args args k n d :
  lookup_arg args k = Some (pretty n) →
  panda_parse_uint64 args k d = Z.min (Z.of_N n) ULLONG_MAX ∧
  panda_parse_uint32 args k d = wrap 32 (Z.min (Z.of_N n) ULLONG_MAX) ∧
  (∀ w, panda_parse_ulong w args k d = wrap w (Z.min (Z.of_N n) ULLONG_MAX)) ∧
  (Z.of_N n < 2 ^ 32 → panda_parse_uint32 args k d = Z.of_N n).
Proof.
  intros E. unfold panda_parse_uint64, panda_parse_uint32, panda_parse_ulong. rewrite E, strtoull_pretty.
  split_and!; try done. intros Hn. unfold ULLONG_MAX. rewrite Z.min_l by lia. apply wrap_small.
  unfold in_width. lia.
Qed.

(** ** [-panda-plugins] *)

(** A plugin with its options, as printed on the command line. *)
Record plugin_spec := mkPS { ps_name : string; ps_opts : list string }.
Definition print_plugin (p : plugin_spec) : list ascii :=
  chars (ps_name p) ++
  match ps_opts p with [] => [] | os => colon :: join comma (chars <$> os) end.
Definition print_plugins (ps : list plugin_spec) : string := str (join semicolon (print_plugin <$> ps)).

Definition opt_string (p : plugin_spec) (o : string) : string := ps_name p +:+ String colon o.
Definition option_strings (p : plugin_spec) : list string := opt_string p <$> ps_opts p.

(** Separators occur as such only, and arguments fit [arg_str]. *)
Definition plugin_spec_ok (p : plugin_spec) : Prop :=
  (colon ∉ chars (ps_name p)) ∧ (semicolon ∉ print_plugin p) ∧
  Forall (λ o, (comma ∉ chars o) ∧ strlen (opt_string p o) ≤ 254) (ps_opts p).

Lemma add_options_ok p os : ∀ s args,
  args_are s args → Forall (λ o, (comma ∉ chars o) ∧ strlen (opt_string p o) ≤ 254) os →
  (length args + length os ≤ MAX_PANDA_PLUGIN_ARGS)%nat →
  ∃ s', add_options (chars (ps_name p)) (chars <$> os) s = Ok () s' ∧
    args_are s' (args ++ (opt_string p <$> os)).
Proof.
  induction os as [|o os IH]; intros s args Ha Hok Hn.
  { exists s. by rewrite app_nil_r. }
  apply Forall_cons in Hok as [[_ Hl] Hoks]. simpl in Hn.
  assert (E : snprintf 255 (str (chars (ps_name p) ++ [colon] ++ chars o)) = opt_string p o).
  { replace (str _) with (opt_string p o).
    - unfold snprintf. apply substring_all. unfold strlen in Hl. lia.
    - unfold opt_string. rewrite <-(str_chars (_ +:+ _)), chars_app. done. }
  destruct (add_arg_ok s args (opt_string p o) Ha) as (s1 & E1 & H1); [lia|lia|].
  destruct (IH s1 _ H1 Hoks) as (s2 & E2 & H2); [rewrite length_app; simpl; lia|].
  exists s2. cbn [add_options fmap list_fmap]. rewrite E, (bind_Ok _ _ _ _ _ E1).
  split; [done|]. by rewrite <-app_assoc in H2.
Qed.

Lemma add_spec_ok path files p s args :
  args_are s args → plugin_spec_ok p →
  (length args + length (ps_opts p) ≤ MAX_PANDA_PLUGIN_ARGS)%nat →
  (length files < MAX_PLUGIN_FILES)%nat →
  ∃ s', add_plugin_spec path files (print_plugin p) s = Ok (files ++ [path (ps_name p)]) s' ∧
    args_are s' (args ++ option_strings p).
Proof.
  intros Ha (Hc & _ & Ho) Hn Hf. unfold add_plugin_spec, print_plugin, option_strings.
  assert (Hok : ∀ st : pl_state, (assert_or OutOfBounds (length files <? MAX_PLUGIN_FILES)%nat;;
    mret (files ++ [path (str (chars (ps_name p)))])) st = Ok (files ++ [path (ps_name p)]) st).
  { intros st. rewrite (proj2 (Nat.ltb_lt _ _)) by lia. by rewrite str_chars. }
  destruct (ps_opts p) as [|o os] eqn:Eo.
  - rewrite app_nil_r, cut_plain by done. exists s. rewrite bind_ret, Hok, app_nil_r. done.
  - rewrite cut_app by done. rewrite fields_join; [|done|].
    2: { apply Forall_fmap. eapply Forall_impl; [exact Ho|]. by intros ? []. }
    destruct (add_options_ok p (o :: os) s args Ha Ho Hn) as (s1 & E1 & H1).
    exists s1. by rewrite (bind_Ok _ _ _ _ _ E1), Hok.
Qed.

Lemma add_specs_ok path ps : ∀ files s args,
  args_are s args → Forall plugin_spec_ok ps →
  (length args + length (concat (option_strings <$> ps)) ≤ MAX_PANDA_PLUGIN_ARGS)%nat →
  (length files + length ps ≤ MAX_PLUGIN_FILES)%nat →
  ∃ s', add_plugin_specs path files (print_plugin <$> ps) s
        = Ok (files ++ (path ∘ ps_name <$> ps)) s' ∧
    args_are s' (args ++ concat (option_strings <$> ps)).
Proof.
  induction ps as [|p ps IH]; intros files s args Ha Hok Hn Hf.
  { exists s. by rewrite !app_nil_r. }
  apply Forall_cons in Hok as [Hp Hps]. cbn [fmap list_fmap concat] in *. rewrite length_app in Hn.
  simpl in Hf.
  destruct (add_spec_ok path files p s args Ha Hp) as (s1 & E1 & H1).
  { unfold option_strings in Hn. rewrite length_fmap in Hn. lia. } { lia. }
  destruct (IH (files ++ [path (ps_name p)]) s1 _ H1 Hps) as (s2 & E2 & H2);
    [rewrite length_app; lia|rewrite length_app; simpl; lia|].
  exists s2. cbn [add_plugin_specs]. rewrite (bind_Ok _ _ _ _ _ E1), E2.
  rewrite <-!app_assoc in *. done.
Qed.

(** [-panda-plugins name:opt,opt;name;...] adds each plugin's file, in order, and
    each of its options as an argument of that plugin, in order. *)
Theorem panda_plugins_option path ps s :
  args_are s [] → ps ≠ [] → Forall plugin_spec_ok ps →
  (length (concat (option_strings <$> ps)) ≤ MAX_PANDA_PLUGIN_ARGS)%nat →
  (length ps ≤ MAX_PLUGIN_FILES)%nat →
  ∃ s', option_panda_plugins path [] (print_plugins ps) s = Ok (path ∘ ps_name <$> ps) s' ∧
    args_are s' (concat (option_strings <$> ps)).
Proof.
  intros Ha Hne Hok Hn Hf. unfold option_panda_plugins, print_plugins. rewrite chars_str.
  rewrite fields_join; [|by destruct ps|].
  - by apply (add_specs_ok path ps [] s []).
  - apply Forall_fmap. eapply Forall_impl; [exact Hok|]. by intros p (_ & ? & _).
Qed.

(** ** Concrete command lines *)

Module ArgExamples.

Definition zero : pl_state := pl_init cb_init.
Lemma zero_args : args_are zero [].
Proof. done. Qed.

Definition specs : list arg_spec :=
  [mkSpec "asidstory" "width" "80"; mkSpec "stringsearch" "name" "a:b=c"; mkSpec "asidstory" "summary" "no"].

Lemma specs_ok : Forall arg_ok specs.
Proof.
  repeat (apply Forall_cons; split;
    [split_and!; [split; apply (bool_decide_unpack _); vm_compute; exact I
                 |split; apply (bool_decide_unpack _); vm_compute; exact I|by vm_compute]|]).
  by apply Forall_nil.
Qed.

Lemma args_round_trip_witness :
  ∃ s', add_printed specs zero = Ok () s' ∧
    panda_get_args "asidstory" s' = Some [mkArg "width" "80"; mkArg "summary" "no"].
Proof.
  apply (args_round_trip zero "asidstory" specs zero_args specs_ok).
  - simpl. unfold MAX_PANDA_PLUGIN_ARGS. lia.
  - repeat (apply Forall_cons; split; [|]); [done| |done|by apply Forall_nil].
    intros Hp. apply (bool_decide_pack _) in Hp. vm_compute in Hp. destruct Hp.
Defined.

Lemma args_of_longer_name_witness :
  ∃ s', add_printed [mkSpec "osi_linux" "kconf" "x"] zero = Ok () s' ∧
    panda_get_args "osi" s' = Some [mkArg "kconf" "x"].
Proof.
  apply (args_of_longer_name zero "osi" "_linux" "kconf" "x" zero_args).
  - split; apply (bool_decide_unpack _); vm_compute; exact I.
  - split_and!; [split; apply (bool_decide_unpack _); vm_compute; exact I
                |split; apply (bool_decide_unpack _); vm_compute; exact I|by vm_compute].
Defined.

Lemma str_split_join_witness :
  str_split comma "ab,c" zero = Ok ["ab"; "c"] zero ∧ str_split comma "ab,c," zero = Ok ["ab"; "c"] zero.
Proof.
  apply (str_split_join comma ["ab"; "c"] zero); [done|].
  repeat (apply Forall_cons; split; [split; [apply (bool_decide_unpack _); vm_compute; exact I|done]|]).
  by apply Forall_nil.
Defined.

Lemma str_split_empty_piece_witness :
  str_split comma "a,,b," zero = Err Abort zero ∧
  (["a"; EmptyString; "b"] = [EmptyString] ∨ last ["a"; EmptyString; "b"] ≠ Some EmptyString →
   str_split comma "a,,b" zero = Err Abort zero).
Proof.
  apply (str_split_empty_piece comma ["a"; EmptyString; "b"] zero).
  - repeat (apply Forall_cons; split; [apply (bool_decide_unpack _); vm_compute; exact I|]). by apply Forall_nil.
  - set_solver.
Defined.

Definition num_args : option (list panda_arg) := Some [mkArg "n" "4294967303"].
Lemma numeric_args_witness :
  panda_parse_uint64 num_args "n" 0 = 4294967303 ∧ panda_parse_uint32 num_args "n" 0 = 7 ∧
  (∀ w, panda_parse_ulong w num_args "n" 0 = wrap w 4294967303) ∧
  (Z.of_N 4294967303 < 2 ^ 32 → panda_parse_uint32 num_args "n" 0 = Z.of_N 4294967303).
Proof. apply (numeric_args num_args "n" 4294967303%N 0). reflexivity. Defined.

Definition plugins : list plugin_spec :=
  [mkPS "osi" []; mkPS "asidstory" ["width=80"; "summary"]].
Definition so_path (n : string) : string := "panda_" +:+ n +:+ ".so".

Lemma panda_plugins_option_witness :
  ∃ s', option_panda_plugins so_path [] "osi;asidstory:width=80,summary" zero
        = Ok ["panda_osi.so"; "panda_asidstory.so"] s' ∧
    args_are s' ["asidstory:width=80"; "asidstory:summary"].
Proof.
  apply (panda_plugins_option so_path plugins zero zero_args); [done| |simpl..].
  - repeat (apply Forall_cons; split;
      [split_and!; [apply (bool_decide_unpack _); vm_compute; exact I
                   |apply (bool_decide_unpack _); vm_compute; exact I
                   |apply (bool_decide_unpack _); vm_compute; exact I]|]).
    by apply Forall_nil.
  - unfold MAX_PANDA_PLUGIN_ARGS. lia.
  - unfold MAX_PLUGIN_FILES. lia.
Defined.

(** Other notations of numbers. *)
Example strtoull_cases :
  strtoull "0x1F" = 31 ∧ strtoull "017" = 15 ∧ strtoull "  +12abc" = 12 ∧ strtoull "-1" = ULLONG_MAX ∧
  strtoull "0x" = 0 ∧ strtoull "99999999999999999999" = ULLONG_MAX.
Proof. by vm_compute. Qed.

End ArgExamples.
