(* ===== verification/Scissors.v ===== *)
(** * The scissors plugin ([panda_plugins/scissors/scissors.c])

    While a replay runs, the entries from the instruction count [start] to [end]
    are copied to a new log, with the counts moved to start at 0; a snapshot is
    saved at the start. Entries already in the queue are written from memory, the
    rest are copied from the old log's file. The static [entry], through which the
    source passes the item at hand, is only ever read again for a message. *)

From S2P Require Import Prelude CFile CString RRTypes PandaCallbacks RRState RRQueue RRFormat.
From S2P Require Import RRReplay RRReplayInv RRRecord RRMonitor RRSession PandaPlugins PandaArgs.
From stdpp Require Import sorting.
Local Open Scope Z_scope.

(** ** State *)

Record sc_state := mkSc {
  sc_rr : rr_state;
  start_count : Z;
  actual_start_count : Z;
  end_count : Z;
  nondet_name : string;
  snp_name : string;
  oldlog : option FILE;
  newlog : option FILE;
  orig_last_prog_point : RR_prog_point;
  snipping : bool;
  snip_done : bool;
}.

Definition set_sc_rr (x : rr_state) (s : sc_state) : sc_state :=
  mkSc x (start_count s) (actual_start_count s) (end_count s) (nondet_name s) (snp_name s)
    (oldlog s) (newlog s) (orig_last_prog_point s) (snipping s) (snip_done s).
Definition set_start_count (x : Z) (s : sc_state) : sc_state :=
  mkSc (sc_rr s) x (actual_start_count s) (end_count s) (nondet_name s) (snp_name s) (oldlog s)
    (newlog s) (orig_last_prog_point s) (snipping s) (snip_done s).
Definition set_actual_start_count (x : Z) (s : sc_state) : sc_state :=
  mkSc (sc_rr s) (start_count s) x (end_count s) (nondet_name s) (snp_name s) (oldlog s) (newlog
    s) (orig_last_prog_point s) (snipping s) (snip_done s).
Definition set_end_count (x : Z) (s : sc_state) : sc_state :=
  mkSc (sc_rr s) (start_count s) (actual_start_count s) x (nondet_name s) (snp_name s) (oldlog
    s) (newlog s) (orig_last_prog_point s) (snipping s) (snip_done s).
Definition set_nondet_name (x : string) (s : sc_state) : sc_state :=
  mkSc (sc_rr s) (start_count s) (actual_start_count s) (end_count s) x (snp_name s) (oldlog s)
    (newlog s) (orig_last_prog_point s) (snipping s) (snip_done s).
Definition set_snp_name (x : string) (s : sc_state) : sc_state :=
  mkSc (sc_rr s) (start_count s) (actual_start_count s) (end_count s) (nondet_name s) x (oldlog
    s) (newlog s) (orig_last_prog_point s) (snipping s) (snip_done s).
Definition set_oldlog (x : option FILE) (s : sc_state) : sc_state :=
  mkSc (sc_rr s) (start_count s) (actual_start_count s) (end_count s) (nondet_name s) (snp_name
    s) x (newlog s) (orig_last_prog_point s) (snipping s) (snip_done s).
Definition set_newlog (x : option FILE) (s : sc_state) : sc_state :=
  mkSc (sc_rr s) (start_count s) (actual_start_count s) (end_count s) (nondet_name s) (snp_name
    s) (oldlog s) x (orig_last_prog_point s) (snipping s) (snip_done s).
Definition set_orig_last_prog_point (x : RR_prog_point) (s : sc_state) : sc_state :=
  mkSc (sc_rr s) (start_count s) (actual_start_count s) (end_count s) (nondet_name s) (snp_name
    s) (oldlog s) (newlog s) x (snipping s) (snip_done s).
Definition set_snipping (x : bool) (s : sc_state) : sc_state :=
  mkSc (sc_rr s) (start_count s) (actual_start_count s) (end_count s) (nondet_name s) (snp_name
    s) (oldlog s) (newlog s) (orig_last_prog_point s) x (snip_done s).
Definition set_snip_done (x : bool) (s : sc_state) : sc_state :=
  mkSc (sc_rr s) (start_count s) (actual_start_count s) (end_count s) (nondet_name s) (snp_name
    s) (oldlog s) (newlog s) (orig_last_prog_point s) (snipping s) x.

Abbreviation SC := (M sc_state).

Section Scissors.
Context `{TargetPhys} `{Machine}.

Definition on_rr {A} (m : RR A) : SC A := λ s,
  match m (sc_rr s) with
  | Ok a r => Ok a (set_sc_rr r s)
  | Err e r => Err e (set_sc_rr r s)
  end.

(** A failed check ends the replay with an error. *)
Definition sassert (condition : bool) : SC () :=
  if condition then mret () else on_rr (rr_do_end_replay true).

(** [fread] on the old log, [fwrite] on the new one. *)
Definition old_fread (n : nat) : SC (list byte) :=
  f ← gets oldlog; f ← nonnull f; h ← gets (λ s, rr_host (sc_rr s));
  let '(bs, f') := fread h f n in
  modify (set_oldlog (Some f'));; mret bs.

Definition new_fwrite (bs : list byte) : SC () :=
  f ← gets newlog; f ← nonnull f; h ← gets (λ s, rr_host (sc_rr s));
  let '(h', f') := fwrite h f bs in
  modify (λ s, set_newlog (Some f') (set_sc_rr (set_rr_host h' (sc_rr s)) s)).

(** Instruction counts in the new log start at the cut. *)
Definition shift_pp (a : Z) (p : RR_prog_point) : RR_prog_point :=
  mkPP (pc p) (secondary p) (wrap 64 (guest_instr_count p - a)).

(** ** Entries of the queue *)

(** [fwrite(buf, 1, len, newlog) > 0]. *)
Definition write_buf (b : host_buf) (len : Z) : SC () :=
  if len <=? Z.of_nat (length (buf_data b))
  then new_fwrite (take (Z.to_nat len) (buf_data b));; sassert (0 <? len)
  else fail OutOfBounds.

(** For a memory write the buffer is replaced by a new one before it is written:
    what goes to the log was never initialised. *)
Definition write_call (args : RR_skipped_call_args) : SC () :=
  match args with
  | ArgsMemRw a =>
      new_fwrite (mem_rw_struct (rw_addr a) (buf_addr (rw_buf a)) (rw_len a));;
      if 0 <? rw_len a then fail UninitRead else sassert false
  | ArgsUnmap a =>
      new_fwrite (unmap_struct (um_addr a) (buf_addr (um_buf a)) (um_len a));;
      write_buf (um_buf a) (um_len a)
  | ArgsRegion a =>
      new_fwrite (region_struct (rg_start_addr a) (rg_size a) (rg_phys_offset a))
  | ArgsHd a =>
      new_fwrite (transfer_struct (hd_type a) (hd_src_addr a) (hd_dest_addr a) (hd_num_bytes a))
  | ArgsNet a =>
      new_fwrite (transfer_struct (nt_type a) (nt_src_addr a) (nt_dest_addr a) (nt_num_bytes a))
  | ArgsPacket a _ =>
      new_fwrite (packet_struct (buf_addr (hp_buf a)) (hp_size a) (hp_direction a));;
      write_buf (hp_buf a) (hp_size a)
  end.

Definition write_entry (item : RR_log_entry) : SC () :=
  e ← gets end_count;
  if e <? guest_instr_count (prog_point item) then mret () else
  a ← gets actual_start_count;
  new_fwrite (pp_bytes (shift_pp a (prog_point item)));;
  new_fwrite (le_bytes 1 (kind_Z (kind item)));;
  new_fwrite (le_bytes 1 (callsite_loc item));;
  match variant item with
  | VInput1 v => new_fwrite (le_bytes 1 v)
  | VInput2 v => new_fwrite (le_bytes 2 v)
  | VInput4 v => new_fwrite (le_bytes 4 v)
  | VInput8 v => new_fwrite (le_bytes 8 v)
  | VInterrupt v => new_fwrite (le_bytes 2 v)
  | VExit v => new_fwrite (le_bytes 2 v)
  | VCall args => new_fwrite (le_bytes 1 (call_kind_Z (call_kind args)));; write_call args
  | VDebug => mret ()
  | VLast => mret ()
  end.

(** The loop over the queue, from [rr_get_queue_head()]. *)
Fixpoint write_queue (fuel : nat) (item : option loc) : SC () :=
  match item with
  | None => mret ()
  | Some p =>
      n ← on_rr (on_q (q_load p)); e ← gets end_count;
      if guest_instr_count (prog_point (qn_entry n)) <? e then
        match fuel with
        | O => fail OutOfFuel
        | S fuel' => write_entry (qn_entry n);; write_queue fuel' (qn_next n)
        end
      else mret ()
  end.

(** ** Entries of the file *)

(** [sassert(fread(&x, n, 1, oldlog) == 1)], and the same followed by
    [sassert(fwrite(&x, n, 1, newlog) == 1)]. *)
Definition read_struct (n : nat) : SC (list byte) :=
  bs ← old_fread n; sassert (length bs =? n)%nat;; mret bs.
Definition copy_struct (n : nat) : SC (list byte) :=
  bs ← read_struct n; new_fwrite bs;; mret bs.

(** A buffer of [len] bytes; of one that was only partly read the rest is not
    initialised. A packet must be read in one piece. *)
Definition copy_buf (len : Z) : SC () :=
  bs ← old_fread (Z.to_nat len);
  sassert (0 <? length bs)%nat;;
  assert_or UninitRead (length bs =? Z.to_nat len)%nat;;
  new_fwrite bs;; sassert (0 <? len).
Definition copy_packet (size : Z) : SC () :=
  bs ← old_fread (Z.to_nat size);
  sassert ((0 <? length bs) && (length bs =? Z.to_nat size))%nat;;
  new_fwrite bs;; sassert (0 <? size).

Definition copy_call (k : RR_skipped_call_kind) : SC () :=
  match k with
  | RR_CALL_CPU_MEM_RW => st ← copy_struct 24; copy_buf (field 16 4 st)
  | RR_CALL_CPU_MEM_UNMAP => st ← copy_struct 24; copy_buf (field 16 phys_bytes st)
  | RR_CALL_CPU_REG_MEM_REGION => _ ← copy_struct 24; mret ()
  | RR_CALL_HD_TRANSFER => _ ← copy_struct 32; mret ()
  | RR_CALL_NET_TRANSFER => _ ← copy_struct 32; mret ()
  | RR_CALL_HANDLE_PACKET => st ← copy_struct 16; copy_packet (field 8 4 st)
  | RR_CALL_LAST => sassert false
  end.

Definition copy_variant (k : RR_log_entry_kind) : SC () :=
  match k with
  | RR_INPUT_1 => _ ← copy_struct 1; mret ()
  | RR_INPUT_2 => _ ← copy_struct 2; mret ()
  | RR_INPUT_4 => _ ← copy_struct 4; mret ()
  | RR_INPUT_8 => _ ← copy_struct 8; mret ()
  | RR_INTERRUPT_REQUEST => _ ← copy_struct 2; mret ()
  | RR_EXIT_REQUEST => _ ← copy_struct 2; mret ()
  | RR_SKIPPED_CALL =>
      c ← copy_struct 1;
      match call_kind_of_Z (le_value c) with Some ck => copy_call ck | None => sassert false end
  | RR_LAST => mret ()
  | RR_DEBUG => mret ()
  end.

Definition copy_entry : SC RR_prog_point :=
  pst ← read_struct 24;
  let pp := mkPP (field 0 8 pst) (field 8 8 pst) (field 16 8 pst) in
  e ← gets end_count;
  if e <? guest_instr_count pp then mret pp else
  a ← gets actual_start_count;
  new_fwrite (pp_bytes (shift_pp a pp));;
  k ← read_struct 1; cs ← read_struct 1;
  new_fwrite k;; new_fwrite cs;;
  match kind_of_Z (le_value k) with Some kd => copy_variant kd | None => sassert false end;;
  mret pp.

(** The loop over the file; every entry it copies takes at least 26 bytes. *)
Fixpoint copy_loop (fuel : nat) (pp : RR_prog_point) : SC () :=
  e ← gets end_count; f ← gets oldlog; f ← nonnull f;
  if (guest_instr_count pp <? e) && negb (f_eof f) then
    match fuel with
    | O => fail OutOfFuel
    | S fuel' => pp' ← copy_entry; copy_loop fuel' pp'
    end
  else mret ().

Definition old_left (s : sc_state) : nat :=
  match oldlog s with Some f => length (f_rest (rr_host (sc_rr s)) f) | None => 0 end.

(** ** The plugin *)

Definition end_snip : SC () :=
  p ← gets (λ s, rr_prog_point (sc_rr s)); a ← gets actual_start_count;
  new_fwrite (pp_bytes (shift_pp a p));;
  new_fwrite (le_bytes 1 (kind_Z RR_LAST));;
  new_fwrite (le_bytes 1 (callsite_Z RR_CALLSITE_LAST));;
  f ← gets newlog; f ← nonnull f;
  modify (set_newlog (Some (rewind f)));;
  new_fwrite (pp_bytes (shift_pp a p));;
  modify (set_newlog None);;
  modify (set_snip_done true).

(** The cut: the snapshot, the new log, its entries. *)
Definition begin_snip (count : Z) : SC () :=
  l ← on_rr get_log;
  h ← gets (λ s, rr_host (sc_rr s));
  modify (set_oldlog (fopen_r h (log_name l)));;
  sassert (bool_decide (is_Some (fopen_r h (log_name l))));;
  bs ← read_struct 24;
  modify (set_orig_last_prog_point (mkPP (field 0 8 bs) (field 8 8 bs) (field 16 8 bs)));;
  modify (set_actual_start_count count);;
  snp ← gets snp_name;
  on_rr (emit (EvSaveVM snp));;
  name ← gets nondet_name;
  h ← gets (λ s, rr_host (sc_rr s));
  let '(fp, h') := fopen_w h name in
  modify (λ s, set_newlog fp (set_sc_rr (set_rr_host h' (sc_rr s)) s));;
  sassert (bool_decide (is_Some fp));;
  new_fwrite (pp_bytes pp_zero);;
  lf ← nonnull (log_fp l);
  modify (λ s, set_oldlog ((λ f, fseek_set f (f_pos lf)) <$> oldlog s) s);;
  hd ← gets (λ s, rr_queue_head (rr_q (sc_rr s)));
  n ← gets (λ s, heap_fuel (sc_rr s));
  write_queue n hd;;
  n ← gets old_left;
  copy_loop (S n) pp_zero;;
  modify (set_snipping true).

Definition before_block_exec (num_guest_insns : Z) : SC () :=
  count ← gets (λ s, guest_instr_count (rr_prog_point (sc_rr s)));
  sn ← gets snipping; st ← gets start_count;
  (if negb sn && (st <? wrap 64 (count + num_guest_insns)) then begin_snip count else mret ());;
  sn ← gets snipping; dn ← gets snip_done; e ← gets end_count;
  if sn && negb dn && (e <? count) then
    end_snip;; on_rr (upd_req (set_rr_end_replay_requested 1))
  else mret ().

(** [init_plugin], without the registration of the callback; [args] are the
    plugin's arguments. *)
Definition init_scissors (args : option (list panda_arg)) : SC () :=
  let name := default "scissors" (panda_parse_string args "name" (Some "scissors")) in
  modify (λ s, set_start_count (panda_parse_uint64 args "start" 0)
    (set_end_count (panda_parse_uint64 args "end" ULLONG_MAX)
      (set_nondet_name (snprintf 128 (name +:+ "-rr-nondet.log"))
        (set_snp_name (snprintf 128 (name +:+ "-rr-snp")) s)))).

Definition uninit_scissors : SC () :=
  sn ← gets snipping; dn ← gets snip_done;
  if sn && negb dn then end_snip else mret ().

(** ** Lemmas: copying

    [copies m ins outs r]: with the two files open, the old one at [ins] and the
    new one at its end, [m] returns [r], has read [ins] and appended [outs]. *)

Definition sc_host (s : sc_state) : host := rr_host (sc_rr s).

Record sc_open (s : sc_state) (fo fn : FILE) : Prop := {
  so_old : oldlog s = Some fo;
  so_new : newlog s = Some fn;
  so_names : f_name fo ≠ f_name fn;
  so_file : is_Some (h_files (sc_host s) !! f_name fn);
  so_end : f_pos fn = length (h_data (sc_host s) (f_name fn));
}.

Definition fmoved (f : FILE) (n : nat) : FILE := mkFILE (f_name f) (f_pos f + n) (f_eof f).
Definition appended (h : host) (name : string) (o : list byte) : host :=
  Host (<[name := h_data h name ++ o]> (h_files h)) (h_readonly h).
Definition moved (n : nat) (o : list byte) (s : sc_state) (fo fn : FILE) : sc_state :=
  set_oldlog (Some (fmoved fo n)) (set_newlog (Some (fmoved fn (length o)))
    (set_sc_rr (set_rr_host (appended (sc_host s) (f_name fn) o) (sc_rr s)) s)).

Lemma fmoved_0 f : fmoved f 0 = f.
Proof. unfold fmoved. rewrite Nat.add_0_r. by destruct f. Qed.

Lemma fmoved_fmoved f n m : fmoved (fmoved f n) m = fmoved f (n + m).
Proof. unfold fmoved. simpl. by rewrite Nat.add_assoc. Qed.

Lemma data_appended h name o : h_data (appended h name o) name = h_data h name ++ o.
Proof. apply h_data_insert. Qed.

Lemma appended_appended h name o p :
  appended (appended h name o) name p = appended h name (o ++ p).
Proof.
  unfold appended at 1. rewrite data_appended. unfold appended. simpl.
  by rewrite insert_insert_eq, app_assoc.
Qed.

Lemma moved_open n o s fo fn :
  sc_open s fo fn → sc_open (moved n o s fo fn) (fmoved fo n) (fmoved fn (length o)).
Proof.
  intros [H1 H2 H3 H4 H5]. split; try done; unfold sc_host; simpl.
  - rewrite lookup_insert_eq. eauto.
  - rewrite data_appended, length_app, H5. done.
Qed.

Lemma moved_rest s fo fn ins o rest :
  sc_open s fo fn → f_rest (sc_host s) fo = ins ++ rest →
  f_rest (sc_host (moved (length ins) o s fo fn)) (fmoved fo (length ins)) = rest.
Proof.
  intros Ho Hr. unfold f_rest, sc_host in *. simpl.
  unfold appended. rewrite h_data_insert_ne by (by apply not_eq_sym, Ho). by eapply drop_add_app.
Qed.

Lemma moved_moved n o m p s fo fn :
  moved m p (moved n o s fo fn) (fmoved fo n) (fmoved fn (length o)) = moved (n + m) (o ++ p) s fo fn.
Proof.
  unfold moved. rewrite !fmoved_fmoved, length_app. unfold sc_host. simpl.
  by rewrite appended_appended.
Qed.

Lemma moved_0 s fo fn : sc_open s fo fn → moved 0 [] s fo fn = s.
Proof.
  intros [H1 H2 _ [d Hd] _]. unfold moved. simpl length. rewrite !fmoved_0.
  assert (Ha : appended (sc_host s) (f_name fn) [] = sc_host s).
  { unfold appended, h_data. rewrite Hd, app_nil_r. simpl. rewrite insert_id by done.
    by destruct (sc_host s). }
  rewrite Ha, <-H1, <-H2. unfold sc_host. destruct s as [r ? ? ? ? ? ? ? ? ? ?]. by destruct r.
Qed.

Definition copies {A} (e a : Z) (m : SC A) (ins outs : list byte) (r : A) : Prop :=
  ∀ s fo fn rest, sc_open s fo fn → end_count s = e → actual_start_count s = a →
    f_rest (sc_host s) fo = ins ++ rest → m s = Ok r (moved (length ins) outs s fo fn).

Lemma copies_bind {A B} e a (m : SC A) (k : A → SC B) i1 i2 o1 o2 x r :
  copies e a m i1 o1 x → copies e a (k x) i2 o2 r → copies e a (m ≫= k) (i1 ++ i2) (o1 ++ o2) r.
Proof.
  intros Hm Hk s fo fn rest Ho He Ha Hr. rewrite <-app_assoc in Hr.
  rewrite (bind_Ok _ _ _ _ _ (Hm s fo fn _ Ho He Ha Hr)).
  rewrite (Hk (moved (length i1) o1 s fo fn) _ _ rest (moved_open _ _ _ _ _ Ho) He Ha
    (moved_rest _ _ _ _ _ _ Ho Hr)).
  by rewrite moved_moved, length_app.
Qed.

Lemma copies_ret {A} e a (x : A) : copies e a (mret x) [] [] x.
Proof. intros s fo fn rest Ho He Ha Hr. by rewrite moved_0. Qed.

Lemma copies_conv {A} e a (m : SC A) i i' o o' r :
  copies e a m i o r → i = i' → o = o' → copies e a m i' o' r.
Proof. by intros ? -> ->. Qed.

Lemma copies_end {B} e a (k : Z → SC B) i o r : copies e a (k e) i o r → copies e a (gets end_count ≫= k) i o r.
Proof. intros Hk s fo fn rest Ho He Ha Hr. rewrite bind_gets, He. by apply (Hk s fo fn rest). Qed.

Lemma copies_start {B} e a (k : Z → SC B) i o r :
  copies e a (k a) i o r → copies e a (gets actual_start_count ≫= k) i o r.
Proof. intros Hk s fo fn rest Ho He Ha Hr. rewrite bind_gets, Ha. by apply (Hk s fo fn rest). Qed.

Lemma new_fwrite_ok bs s fn :
  newlog s = Some fn → f_pos fn = length (h_data (sc_host s) (f_name fn)) →
  new_fwrite bs s = Ok () (set_newlog (Some (fmoved fn (length bs)))
    (set_sc_rr (set_rr_host (appended (sc_host s) (f_name fn) bs) (sc_rr s)) s)).
Proof.
  intros Hn Hp. unfold new_fwrite. rewrite bind_gets, Hn, bind_nonnull, bind_gets. fold (sc_host s).
  by rewrite fwrite_append.
Qed.

Lemma copies_fwrite e a bs : copies e a (new_fwrite bs) [] bs ().
Proof.
  intros s fo fn rest Ho He Ha Hr. destruct Ho as [H1 H2 H3 H4 H5].
  rewrite (new_fwrite_ok bs s fn) by done. unfold moved. rewrite fmoved_0, <-H1. by destruct s.
Qed.

Lemma copies_fwrite_then {B} e a bs (m : SC B) i o r :
  copies e a m i o r → copies e a (new_fwrite bs;; m) i (bs ++ o) r.
Proof. intros Hm. apply (copies_bind e a (new_fwrite bs) (λ _, m) [] i bs o () r); [apply copies_fwrite|done]. Qed.

Lemma copies_fread e a bs n : length bs = n → copies e a (old_fread n) bs [] bs.
Proof.
  intros Hn s fo fn rest Ho He Ha Hr. pose proof (moved_0 _ _ _ Ho) as Hm. destruct Ho as [H1 H2 H3 H4 H5].
  unfold old_fread. rewrite bind_gets, H1, bind_nonnull, bind_gets. fold (sc_host s).
  rewrite (fread_app _ _ _ _ _ Hr Hn). rewrite bind_modify. unfold mret, M_ret. f_equal.
  rewrite <-Hm at 1. unfold moved, fmoved. by rewrite Hn.
Qed.

Lemma sassert_true s : sassert true s = Ok () s.
Proof. done. Qed.

Lemma copies_sassert e a b : b = true → copies e a (sassert b) [] [] ().
Proof. intros -> . apply copies_ret. Qed.

Lemma copies_assert_or e a err b : b = true → copies e a (assert_or err b) [] [] ().
Proof. intros -> . apply copies_ret. Qed.

Lemma copies_read_struct e a bs n : length bs = n → copies e a (read_struct n) bs [] bs.
Proof.
  intros Hn. unfold read_struct. eapply copies_conv.
  { eapply copies_bind; [by apply copies_fread|]. eapply copies_bind; [|apply copies_ret].
    apply copies_sassert. by apply Nat.eqb_eq. }
  all: by rewrite ?app_nil_r.
Qed.

Lemma copies_struct e a bs n : length bs = n → copies e a (copy_struct n) bs bs bs.
Proof.
  intros Hn. unfold copy_struct. eapply copies_conv.
  { eapply copies_bind; [by apply copies_read_struct|]. eapply copies_bind; [apply copies_fwrite|apply copies_ret]. }
  all: by rewrite ?app_nil_r.
Qed.

Lemma copies_buf e a bs : 0 < zlen bs → copies e a (copy_buf (zlen bs)) bs bs ().
Proof.
  intros Hn. unfold copy_buf, zlen in *. rewrite Nat2Z.id. eapply copies_conv.
  { eapply copies_bind; [by apply copies_fread|]. eapply copies_bind; [apply copies_sassert, Nat.ltb_lt; lia|].
    eapply copies_bind; [apply copies_assert_or, Nat.eqb_refl|].
    eapply copies_bind; [apply copies_fwrite|apply copies_sassert, Z.ltb_lt; lia]. }
  all: by rewrite ?app_nil_r.
Qed.

Lemma copies_packet e a bs : 0 < zlen bs → copies e a (copy_packet (zlen bs)) bs bs ().
Proof.
  intros Hn. unfold copy_packet, zlen in *. rewrite Nat2Z.id. eapply copies_conv.
  { eapply copies_bind; [by apply copies_fread|].
    eapply copies_bind; [apply copies_sassert; rewrite Nat.eqb_refl, andb_true_r; apply Nat.ltb_lt; lia|].
    eapply copies_bind; [apply copies_fwrite|apply copies_sassert, Z.ltb_lt; lia]. }
  all: by rewrite ?app_nil_r.
Qed.

Lemma copies_struct_only e a bs n : length bs = n → copies e a (_ ← copy_struct n; mret ()) bs bs ().
Proof.
  intros Hn. eapply copies_conv; [eapply copies_bind; [by apply copies_struct|apply copies_ret]|..];
    by rewrite app_nil_r.
Qed.

Lemma copies_call e a c : wf_call c →
  copies e a (k ← copy_struct 1;
    match call_kind_of_Z (le_value k) with Some ck => copy_call ck | None => sassert false end)
    (call_bytes c) (call_bytes c) ().
Proof.
  intros Hwf. destruct c as [addr ptr d|s n o|addr ptr d|t s d n|t s d n|ptr d dir]; simpl in Hwf;
    unfold call_bytes; (eapply copies_bind; [by apply copies_struct|]); cbv beta;
    rewrite le_value_le_bytes by done; rewrite call_kind_of_kind_Z; cbn [copy_call].
  - destruct Hwf as (Ha & _ & Hd & Hl). destruct (mem_rw_layout addr ptr (zlen d) Ha Hl) as (L & _ & F).
    eapply copies_bind; [by apply copies_struct|]. rewrite F. by apply copies_buf.
  - destruct Hwf as (Ha & Hn & Ho). destruct (region_layout s n o Ha Hn Ho) as (L & _).
    by apply copies_struct_only.
  - destruct Hwf as (Ha & _ & Hd & Hl). destruct (unmap_layout addr ptr (zlen d) Ha Hl) as (L & _ & F).
    eapply copies_bind; [by apply copies_struct|]. rewrite F. by apply copies_buf.
  - destruct Hwf as (H1 & H2 & H3 & H4). destruct (transfer_layout t s d n H1 H2 H3 H4) as (L & _).
    by apply copies_struct_only.
  - destruct Hwf as (H1 & H2 & H3 & H4). destruct (transfer_layout t s d n H1 H2 H3 H4) as (L & _).
    by apply copies_struct_only.
  - destruct Hwf as (H1 & H2 & H3 & H4). destruct (packet_layout ptr (zlen d) dir H1 H3 H4) as (L & _ & F & _).
    eapply copies_bind; [by apply copies_struct|]. rewrite F. by apply copies_packet.
Qed.

Lemma copies_body e a b : wf_body b → copies e a (copy_variant (body_kind b)) (body_bytes b) (body_bytes b) ().
Proof.
  intros Hwf. destruct b; cbn [body_kind copy_variant body_bytes];
    first [by apply copies_struct_only | by apply copies_call | apply copies_ret].
Qed.

(** The item in the new log. *)
Definition shift_item (a : Z) (i : log_item) : log_item :=
  mkItem (shift_pp a (li_pp i)) (li_callsite i) (li_body i).

Lemma copies_entry e a i :
  wf_item i → guest_instr_count (li_pp i) ≤ e →
  copies e a copy_entry (item_bytes i) (item_bytes (shift_item a i)) (li_pp i).
Proof.
  intros (Hp & Hc & Hb) He. destruct (pp_layout _ Hp) as [Lp Fp]. unfold copy_entry, item_bytes.
  cbn [shift_item li_pp li_callsite li_body].
  rewrite <-(app_nil_l (pp_bytes (shift_pp _ _) ++ _)).
  eapply copies_bind; [by apply copies_read_struct|]. rewrite Fp. apply copies_end.
  rewrite (proj2 (Z.ltb_ge _ _)) by done. apply copies_start.
  eapply copies_conv.
  { eapply copies_bind; [apply copies_fwrite|].
    eapply copies_bind; [by apply (copies_read_struct _ _ (le_bytes 1 (kind_Z (body_kind (li_body i)))))|].
    eapply copies_bind; [by apply (copies_read_struct _ _ (le_bytes 1 (li_callsite i)))|].
    eapply copies_bind; [apply copies_fwrite|]. eapply copies_bind; [apply copies_fwrite|].
    rewrite le_value_le_bytes by (destruct (body_kind (li_body i)); done). rewrite kind_of_kind_Z.
    eapply copies_bind; [by apply copies_body|apply copies_ret]. }
  all: by rewrite ?app_nil_r.
Qed.

(** ** Entries of the queue *)

(** Not a memory write: those lose their data. *)
Definition not_mem_rw (e : RR_log_entry) : Prop :=
  match variant e with VCall (ArgsMemRw _) => False | _ => True end.

Lemma copies_write_buf e a b len :
  0 < len ≤ zlen (buf_data b) →
  copies e a (write_buf b len) [] (take (Z.to_nat len) (buf_data b)) ().
Proof.
  intros [Hl Hb]. unfold write_buf, zlen in *. rewrite (proj2 (Z.leb_le _ _)) by lia. eapply copies_conv.
  { eapply copies_bind; [apply copies_fwrite|apply copies_sassert, Z.ltb_lt; lia]. }
  all: by rewrite ?app_nil_r.
Qed.

Lemma copies_write_call e a args :
  args_ok args → not_mem_rw (mkEntry pp_zero 0 (VCall args)) → wf_call (item_of_args args) →
  copies e a (new_fwrite (le_bytes 1 (call_kind_Z (call_kind args)));; write_call args) []
    (call_bytes (item_of_args args)) ().
Proof.
  intros Hok Hn Hwf. destruct args as [w|w|w|w|w|w old]; [done|..];
    (eapply copies_conv; [eapply copies_fwrite_then|done|]);
    cbn [write_call item_of_args call_bytes call_kind] in *.
  - apply copies_fwrite.
  - done.
  - eapply copies_fwrite_then. apply copies_write_buf. simpl in *.
    destruct Hwf as (_ & _ & Hz & _). unfold zlen in Hz. rewrite length_take in Hz. lia.
  - simpl in Hok. by rewrite zlen_take.
  - apply copies_fwrite.
  - done.
  - apply copies_fwrite.
  - done.
  - eapply copies_fwrite_then. apply copies_write_buf. simpl in *.
    destruct Hwf as (_ & Hz & _). unfold zlen in Hz. rewrite length_take in Hz. lia.
  - simpl in Hok. by rewrite zlen_take.
Qed.

Lemma copies_write_entry e a en :
  variant_ok (variant en) → not_mem_rw en → wf_item (item_of_entry en) →
  guest_instr_count (prog_point en) ≤ e →
  copies e a (write_entry en) [] (item_bytes (shift_item a (item_of_entry en))) ().
Proof.
  intros Hok Hn (_ & _ & Hwf) He. unfold write_entry. apply copies_end.
  rewrite (proj2 (Z.ltb_ge _ _)) by done. apply copies_start. unfold item_bytes.
  cbn [shift_item li_pp li_callsite li_body item_of_entry].
  rewrite body_kind_of_variant. do 3 apply copies_fwrite_then. unfold not_mem_rw in Hn. simpl in Hwf.
  destruct (variant en) as [v|v|v|v|v|v|args| |]; cbn [body_of_variant body_bytes];
    first [apply copies_fwrite | apply copies_ret | by apply copies_write_call].
Qed.

(** The entries of the queue that are wanted. *)
Definition before_end (e : Z) (en : RR_log_entry) : bool := guest_instr_count (prog_point en) <? e.
Definition queue_cut (e : Z) (ens : list RR_log_entry) : list RR_log_entry := take_while (before_end e) ens.

Definition entry_ok (en : RR_log_entry) : Prop :=
  variant_ok (variant en) ∧ not_mem_rw en ∧ wf_item (item_of_entry en).

(** Queued entries as the replay made them, memory writes among them. *)
Definition queued_ok (en : RR_log_entry) : Prop :=
  variant_ok (variant en) ∧ wf_item (item_of_entry en).
Definition is_mem_write (en : RR_log_entry) : bool :=
  match variant en with VCall (ArgsMemRw _) => true | _ => false end.

Lemma queue_cut_ok e ens :
  Forall queued_ok ens → existsb is_mem_write (queue_cut e ens) = false →
  Forall entry_ok (queue_cut e ens).
Proof.
  unfold queue_cut. induction 1 as [|en ens [Hv Hw] Hens IH]; cbn [take_while existsb]; [constructor|].
  destruct (before_end e en); cbn [existsb]; [|constructor].
  intros [Hm Hex]%orb_false_iff. constructor; [|by apply IH]. split; [done|]. split; [|done].
  unfold not_mem_rw, is_mem_write in *. by destruct (variant en) as [| | | | | |[]| |].
Qed.

Definition queue_bytes (a : Z) (ens : list RR_log_entry) : list byte :=
  concat ((λ en, item_bytes (shift_item a (item_of_entry en))) <$> ens).

Lemma on_rr_same {A} (m : RR A) a s : m (sc_rr s) = Ok a (sc_rr s) → on_rr m s = Ok a s.
Proof. intros Hm. unfold on_rr. rewrite Hm. by destruct s. Qed.

Lemma on_rr_load p n s :
  q_heap (rr_q (sc_rr s)) !! p = Some n → on_rr (on_q (q_load p)) s = Ok n s.
Proof.
  intros Hp. apply on_rr_same. unfold on_q, q_load. rewrite Hp. by destruct (sc_rr s).
Qed.

Lemma write_queue_ok e a qs : ∀ fuel p s fo fn,
  sc_open s fo fn → end_count s = e → actual_start_count s = a →
  chain (q_heap (rr_q (sc_rr s))) p qs → (length (queue_cut e qs.*2) ≤ fuel)%nat →
  Forall entry_ok (queue_cut e qs.*2) →
  write_queue fuel p s = Ok () (moved 0 (queue_bytes a (queue_cut e qs.*2)) s fo fn).
Proof.
  induction qs as [|[l en] qs IH]; intros fuel p s fo fn Ho He Ha Hc Hf Hok.
  { simpl in Hc. subst p. destruct fuel; simpl; by rewrite moved_0. }
  destruct Hc as [-> (nx & Hl & Hc)]. rewrite fmap_cons in *. cbn [queue_cut take_while] in *.
  assert (Hstep : write_queue fuel (Some l) s
    = if before_end e en then
        match fuel with O => fail OutOfFuel | S f' => write_entry en;; write_queue f' nx end s
      else Ok () s).
  { destruct fuel; cbn [write_queue]; rewrite (bind_Ok _ _ _ _ _ (on_rr_load _ _ _ Hl)), bind_gets, He;
      cbn [qn_entry qn_next]; fold (before_end e en); by destruct (before_end e en). }
  unfold before_end at 1 in Hstep. change (guest_instr_count (prog_point (l, en).2)) with
    (guest_instr_count (prog_point en)) in *. rewrite Hstep. clear Hstep. fold (before_end e en).
  fold (queue_cut e qs.*2) in *. change (before_end e (l, en).2) with (before_end e en) in *.
  destruct (before_end e en) eqn:Eb; [|by rewrite moved_0].
  destruct fuel as [|fuel]; [simpl in Hf; lia|]. apply Forall_cons in Hok as [(Hv & Hn & Hw) Hok].
  unfold before_end in Eb. apply Z.ltb_lt in Eb.
  rewrite (bind_Ok _ _ _ _ _ (copies_write_entry e a en Hv Hn Hw ltac:(lia) s fo fn _ Ho He Ha eq_refl)).
  rewrite (IH fuel nx _ _ _ (moved_open _ _ _ _ _ Ho) He Ha Hc); [|simpl in Hf; lia|done].
  rewrite moved_moved. done.
Qed.

(** ** Entries of the file *)

(** The entries the loop copies after the count [c], and whether it finds the end
    of the cut before the end of the file. *)
Fixpoint file_cut (e c : Z) (items : list log_item) : list log_item :=
  if c <? e then
    match items with
    | [] => []
    | i :: items' =>
        if e <? guest_instr_count (li_pp i) then []
        else i :: file_cut e (guest_instr_count (li_pp i)) items'
    end
  else [].

Fixpoint cut_ends (e c : Z) (items : list log_item) : bool :=
  if c <? e then
    match items with
    | [] => false
    | i :: items' =>
        if e <? guest_instr_count (li_pp i) then true
        else cut_ends e (guest_instr_count (li_pp i)) items'
    end
  else true.

Definition file_bytes (a : Z) (items : list log_item) : list byte :=
  concat (item_bytes ∘ shift_item a <$> items).

Lemma copies_past e a i rest0 :
  wf_item i → e < guest_instr_count (li_pp i) →
  ∀ s fo fn rest, sc_open s fo fn → end_count s = e → actual_start_count s = a →
    f_rest (sc_host s) fo = item_bytes i ++ rest → rest = rest0 →
    copy_entry s = Ok (li_pp i) (moved 24 [] s fo fn).
Proof.
  intros (Hp & _ & _) He s fo fn rest Ho Hee Ha Hr _. destruct (pp_layout _ Hp) as [Lp Fp].
  unfold item_bytes in Hr. rewrite <-app_assoc in Hr. rewrite <-Lp.
  refine (copies_conv e a copy_entry (pp_bytes (li_pp i) ++ []) _ ([] ++ []) _ _ _ (app_nil_r _) eq_refl s fo fn _ Ho Hee Ha Hr).
  unfold copy_entry. eapply copies_bind; [by apply copies_read_struct|]. rewrite Fp. apply copies_end.
  rewrite (proj2 (Z.ltb_lt _ _)) by done. apply copies_ret.
Qed.

Lemma copy_loop_test fuel pp s fo :
  oldlog s = Some fo → f_eof fo = false →
  copy_loop fuel pp s
  = (if guest_instr_count pp <? end_count s then
       match fuel with O => fail OutOfFuel | S fuel' => pp' ← copy_entry; copy_loop fuel' pp' end
     else mret ()) s.
Proof.
  intros Ho He. destruct fuel; cbn [copy_loop]; rewrite bind_gets, bind_gets, Ho, bind_nonnull, He;
    by destruct (_ <? _).
Qed.

Lemma copy_loop_ok e a items : ∀ fuel pp s fo fn,
  sc_open s fo fn → f_eof fo = false → end_count s = e → actual_start_count s = a →
  f_rest (sc_host s) fo = concat (item_bytes <$> items) → Forall wf_item items →
  cut_ends e (guest_instr_count pp) items = true → (length items < fuel)%nat →
  ∃ n, copy_loop fuel pp s
       = Ok () (moved n (file_bytes a (file_cut e (guest_instr_count pp) items)) s fo fn).
Proof.
  induction items as [|i items IH]; intros fuel pp s fo fn Ho Heof He Ha Hr Hwf Hc Hf;
    rewrite (copy_loop_test _ _ _ _ (so_old _ _ _ Ho) Heof), He; cbn [file_cut cut_ends] in *;
    destruct (Z.ltb_spec (guest_instr_count pp) e) as [Hlt|Hge]; try done.
  { exists 0%nat. by rewrite moved_0. }
  2: { exists 0%nat. by rewrite moved_0. }
  destruct fuel as [|fuel]; [lia|]. apply Forall_cons in Hwf as [Hi Hwf].
  rewrite fmap_cons in Hr. cbn [concat] in Hr.
  destruct (Z.ltb_spec e (guest_instr_count (li_pp i))) as [Hp|Hn].
  - rewrite (bind_Ok _ _ _ _ _ (copies_past e a i _ Hi Hp s fo fn _ Ho He Ha Hr eq_refl)).
    exists 24%nat. rewrite (copy_loop_test _ _ _ (fmoved fo 24)) by done.
    change (end_count _) with (end_count s). rewrite He, (proj2 (Z.ltb_ge _ _)) by lia. done.
  - rewrite (bind_Ok _ _ _ _ _ (copies_entry e a i Hi Hn s fo fn _ Ho He Ha Hr)).
    destruct (IH fuel (li_pp i) (moved (length (item_bytes i)) (item_bytes (shift_item a i)) s fo fn)
      (fmoved fo (length (item_bytes i))) (fmoved fn (length (item_bytes (shift_item a i)))))
      as (n & Hn'); try done.
    + by apply moved_open.
    + by apply moved_rest.
    + simpl in Hf. lia.
    + exists (length (item_bytes i) + n)%nat. rewrite Hn', moved_moved. done.
Qed.

(** The replay as seen by the plugin: its own file is another one. *)
Lemma replays_moved n o s fo fn qi fi :
  replays (sc_rr s) qi fi →
  (∀ l f, rr_nondet_log (sc_rr s) = Some l → log_fp l = Some f → f_name f ≠ f_name fn) →
  replays (sc_rr (moved n o s fo fn)) qi fi.
Proof.
  intros (l & f & qs & rs & Hl & Hm & Hq & Hb & Hf) Hne. exists l, f, qs, rs. split_and!; try done.
  pose proof (Hne l f (la_log _ _ _ _ Hl) (la_fp _ _ _ _ Hl)) as Hn.
  destruct Hl. split; try done. unfold f_rest in *. simpl. unfold appended.
  by rewrite h_data_insert_ne by done.
Qed.

(** Reading past the end of the old log stops the process. *)
Lemma copy_loop_abort e a items : ∀ fuel pp s fo fn qi fi,
  sc_open s fo fn → f_eof fo = false → end_count s = e → actual_start_count s = a →
  f_rest (sc_host s) fo = concat (item_bytes <$> items) → Forall wf_item items →
  cut_ends e (guest_instr_count pp) items = false → (length items < fuel)%nat →
  replays (sc_rr s) qi fi →
  (∀ l f, rr_nondet_log (sc_rr s) = Some l → log_fp l = Some f → f_name f ≠ f_name fn) →
  ∃ s', copy_loop fuel pp s = Err Abort s'.
Proof.
  induction items as [|i items IH]; intros fuel pp s fo fn qi fi Ho Heof He Ha Hr Hwf Hc Hf Hrep Hne;
    rewrite (copy_loop_test _ _ _ _ (so_old _ _ _ Ho) Heof), He; cbn [file_cut cut_ends] in *;
    destruct (Z.ltb_spec (guest_instr_count pp) e) as [Hlt|Hge]; try done;
    (destruct fuel as [|fuel]; [lia|]).
  - unfold copy_entry, read_struct, old_fread. rewrite !bind_assoc, bind_gets, (so_old _ _ _ Ho).
    rewrite bind_assoc, bind_nonnull, bind_assoc, bind_gets. unfold fread. fold (sc_host s). rewrite Hr. simpl.
    rewrite bind_assoc, bind_modify, bind_ret, bind_assoc. unfold sassert, on_rr. simpl.
    destruct (end_replay_ok (sc_rr s) qi fi true Hrep) as (q' & _ & Hend).
    unfold mbind, M_bind. simpl. rewrite Hend. by eexists.
  - apply Forall_cons in Hwf as [Hi Hwf]. rewrite fmap_cons in Hr. cbn [concat] in Hr.
    destruct (Z.ltb_spec e (guest_instr_count (li_pp i))) as [Hp|Hn]; [done|].
    rewrite (bind_Ok _ _ _ _ _ (copies_entry e a i Hi Hn s fo fn _ Ho He Ha Hr)).
    apply (IH fuel (li_pp i) _ (fmoved fo (length (item_bytes i)))
      (fmoved fn (length (item_bytes (shift_item a i)))) qi fi); try done.
    + by apply moved_open.
    + by apply moved_rest.
    + simpl in Hf. lia.
    + by apply replays_moved.
Qed.

(** ** The cut *)

(** A replay with [qs] queued and [fi] left in the file, whose log can be opened
    again, and a new log that can be written. *)
Record at_cut (s : sc_state) (l : RR_log) (lf : FILE) (qs : list (loc * RR_log_entry))
    (qi fi : list log_item) : Prop := {
  ac_log : log_at (sc_rr s) l lf fi;
  ac_mode : rr_mode (sc_rr s) = RR_REPLAY;
  ac_rs : ∃ rs, qrep (rr_q (sc_rr s)) qs rs;
  ac_brk : 0 < q_brk (rr_q (sc_rr s));
  ac_loaded : Forall2 loaded qs.*2 qi;
  ac_name : f_name lf = log_name l;
  ac_header : (24 ≤ length (h_data (sc_host s) (log_name l)))%nat;
  ac_exists : is_Some (h_files (sc_host s) !! log_name l);
  ac_other : log_name l ≠ nondet_name s;
  ac_writable : nondet_name s ∉ h_readonly (sc_host s);
}.

Lemma read_struct_ok n s fo :
  oldlog s = Some fo → (n ≤ length (f_rest (sc_host s) fo))%nat →
  read_struct n s = Ok (take n (f_rest (sc_host s) fo)) (set_oldlog (Some (fmoved fo n)) s).
Proof.
  intros Ho Hn. unfold read_struct, old_fread. rewrite bind_assoc, bind_gets, Ho, bind_assoc, bind_nonnull.
  rewrite bind_assoc, bind_gets. unfold fread. fold (sc_host s).
  assert (Hl : length (take n (f_rest (sc_host s) fo)) = n) by (rewrite length_take; lia).
  rewrite bind_assoc, bind_modify, bind_ret, Hl, Nat.eqb_refl, Nat.ltb_irrefl, orb_false_r. done.
Qed.

(** The state once both logs are open and the header is written. *)
Definition opened (count : Z) (s : sc_state) (l : RR_log) (lf : FILE) (hdr : RR_prog_point) : sc_state :=
  mkSc (set_rr_host (Host (<[nondet_name s := pp_bytes pp_zero]> (h_files (sc_host s)))
          (h_readonly (sc_host s)))
          (set_rr_trace (rr_trace (sc_rr s) ++ [EvSaveVM (snp_name s)]) (sc_rr s)))
    (start_count s) count (end_count s) (nondet_name s) (snp_name s)
    (Some (mkFILE (log_name l) (f_pos lf) false)) (Some (mkFILE (nondet_name s) 24 false))
    hdr (snipping s) (snip_done s).

Lemma opened_open count s l lf hdr qs qi fi :
  at_cut s l lf qs qi fi →
  sc_open (opened count s l lf hdr) (mkFILE (log_name l) (f_pos lf) false)
    (mkFILE (nondet_name s) 24 false) ∧
  f_rest (sc_host (opened count s l lf hdr)) (mkFILE (log_name l) (f_pos lf) false)
  = concat (item_bytes <$> fi) ∧
  replays (sc_rr (opened count s l lf hdr)) qi fi.
Proof.
  intros [Hl Hm [rs Hq] Hb Hld Hn Hh He Hne Hw]. split_and!.
  - split; try done; unfold sc_host; simpl; [rewrite lookup_insert_eq; eauto|].
    by rewrite h_data_insert.
  - unfold f_rest, sc_host. simpl. rewrite h_data_insert_ne by done.
    rewrite <-(la_rest _ _ _ _ Hl). unfold f_rest. by rewrite Hn.
  - exists l, lf, qs, rs. split_and!; try done. destruct Hl. split; try done.
    unfold f_rest in *. simpl. rewrite h_data_insert_ne by (rewrite Hn; done). done.
Qed.

Lemma begin_snip_opens count s l lf qs qi fi :
  at_cut s l lf qs qi fi →
  ∃ hdr, begin_snip count s =
    (write_queue (heap_fuel (sc_rr s)) (rr_queue_head (rr_q (sc_rr s)));;
     n ← gets old_left; copy_loop (S n) pp_zero;; modify (set_snipping true))
    (opened count s l lf hdr).
Proof.
  intros Hac. destruct Hac as [Hl Hm [rs Hq] Hb Hld Hn Hh [d Hd] Hne Hw]. unfold begin_snip.
  rewrite (bind_Ok _ _ _ _ _ (on_rr_same _ _ _ (get_log_ok _ _ (la_log _ _ _ _ Hl)))).
  rewrite bind_gets, bind_modify. unfold fopen_r. fold (sc_host s). rewrite Hd.
  rewrite bool_decide_true by eauto. rewrite (bind_Ok _ _ _ _ _ (sassert_true _)).
  set (s1 := set_oldlog _ _). set (fo := mkFILE (log_name l) 0 false).
  assert (Hrest : f_rest (sc_host s1) fo = h_data (sc_host s) (log_name l)) by done.
  rewrite (bind_Ok _ _ _ _ _ (read_struct_ok 24 s1 fo eq_refl ltac:(by rewrite Hrest))).
  rewrite !bind_modify, bind_gets. erewrite bind_Ok by reflexivity. rewrite !bind_gets.
  unfold fopen_w. simpl. fold (sc_host s). rewrite decide_False by done.
  rewrite bind_modify, bool_decide_true by eauto. rewrite (bind_Ok _ _ _ _ _ (sassert_true _)).
  eexists (mkPP _ _ _).
  match goal with |- (_ ≫= _) ?st = _ =>
    rewrite (bind_Ok _ _ _ _ _ (new_fwrite_ok (pp_bytes pp_zero) st (mkFILE (nondet_name s) 0 false)
      eq_refl ltac:(unfold sc_host; simpl; by rewrite h_data_insert))) end.
  rewrite (la_fp _ _ _ _ Hl), bind_nonnull, bind_modify, !bind_gets. unfold opened, appended, sc_host.
  cbn [set_oldlog set_newlog set_sc_rr sc_rr rr_host set_rr_host h_files h_readonly f_name].
  rewrite h_data_insert, insert_insert_eq. reflexivity.
Qed.

(** The items of the new log, without its end. *)
Definition cut_items (e a : Z) (qs : list RR_log_entry) (fi : list log_item) : list log_item :=
  (shift_item a ∘ item_of_entry <$> queue_cut e qs) ++ (shift_item a <$> file_cut e 0 fi).

Lemma cut_bytes e a qs fi :
  queue_bytes a (queue_cut e qs) ++ file_bytes a (file_cut e 0 fi)
  = concat (item_bytes <$> cut_items e a qs fi).
Proof.
  unfold cut_items, queue_bytes, file_bytes. rewrite fmap_app, concat_app.
  by rewrite <-!list_fmap_compose.
Qed.

Lemma queue_cut_length e ens : (length (queue_cut e ens) ≤ length ens)%nat.
Proof.
  unfold queue_cut. induction ens as [|x ens IH]; cbn [take_while length]; [lia|].
  destruct (before_end e x); simpl; lia.
Qed.

Lemma items_length (fi : list log_item) : (length fi ≤ length (concat (item_bytes <$> fi)))%nat.
Proof.
  induction fi as [|i fi IH]; [done|]. rewrite fmap_cons. cbn [concat]. rewrite length_app.
  pose proof (item_bytes_pos i) as Hp. unfold zlen in Hp. simpl length at 1. lia.
Qed.

Lemma old_left_moved n o s fo fn :
  sc_open s fo fn → old_left (moved n o s fo fn)
  = length (f_rest (sc_host (moved n o s fo fn)) (fmoved fo n)).
Proof. done. Qed.

(** The two loops, from the opened state. *)
Lemma queue_part count s l lf qs qi fi hdr :
  at_cut s l lf qs qi fi → Forall entry_ok (queue_cut (end_count s) qs.*2) →
  write_queue (heap_fuel (sc_rr s)) (rr_queue_head (rr_q (sc_rr s))) (opened count s l lf hdr)
  = Ok () (moved 0 (queue_bytes count (queue_cut (end_count s) qs.*2)) (opened count s l lf hdr)
             (mkFILE (log_name l) (f_pos lf) false) (mkFILE (nondet_name s) 24 false)).
Proof.
  intros Hac Hok. destruct (opened_open count s l lf hdr _ _ _ Hac) as (Ho & _ & _).
  destruct (ac_rs _ _ _ _ _ _ Hac) as [rs Hq].
  apply (write_queue_ok (end_count s) count qs); [done..|apply Hq| |done].
  etransitivity; [apply queue_cut_length|]. rewrite length_fmap.
  eapply chain_size; [apply Hq|]. by pose proof (qr_nodup _ _ _ Hq) as [? _]%NoDup_app.
Qed.

Lemma begin_snip_ok count s l lf qs qi fi :
  at_cut s l lf qs qi fi → Forall entry_ok (queue_cut (end_count s) qs.*2) →
  cut_ends (end_count s) 0 fi = true →
  ∃ s' fn, begin_snip count s = Ok () s' ∧ snipping s' = true ∧ newlog s' = Some fn ∧
    f_name fn = nondet_name s ∧ f_eof fn = false ∧
    h_files (sc_host s') !! nondet_name s
    = Some (pp_bytes pp_zero ++ concat (item_bytes <$> cut_items (end_count s) count qs.*2 fi)) ∧
    f_pos fn = length (h_data (sc_host s') (nondet_name s)) ∧
    actual_start_count s' = count ∧ end_count s' = end_count s ∧ snip_done s' = snip_done s ∧
    rr_prog_point (sc_rr s') = rr_prog_point (sc_rr s) ∧
    rr_trace (sc_rr s') = rr_trace (sc_rr s) ++ [EvSaveVM (snp_name s)].
Proof.
  intros Hac Hok Hend. destruct (begin_snip_opens count s l lf qs qi fi Hac) as (hdr & ->).
  rewrite (bind_Ok _ _ _ _ _ (queue_part count s l lf qs qi fi hdr Hac Hok)).
  destruct (opened_open count s l lf hdr _ _ _ Hac) as (Ho & Hrest & _).
  set (fo := mkFILE (log_name l) (f_pos lf) false) in *. set (fn := mkFILE (nondet_name s) 24 false) in *.
  set (qb := queue_bytes _ _). set (s0 := opened count s l lf hdr) in *.
  pose proof (moved_open 0 qb s0 fo fn Ho) as Ho1.
  pose proof (moved_rest s0 fo fn [] qb _ Ho Hrest) as Hrest1.
  rewrite bind_gets. unfold old_left. rewrite (so_old _ _ _ Ho1). change (rr_host (sc_rr ?x)) with (sc_host x).
  simpl length in Hrest1. rewrite Hrest1.
  destruct (copy_loop_ok (end_count s) count fi (S (length (concat (item_bytes <$> fi)))) pp_zero
    (moved 0 qb s0 fo fn) (fmoved fo 0) (fmoved fn (length qb))) as (n & Hcl);
    [done|done|done|done|done|apply (la_wf _ _ _ _ (ac_log _ _ _ _ _ _ Hac))|done
    |pose proof (items_length fi); lia|].
  rewrite (bind_Ok _ _ _ _ _ Hcl), moved_moved. eexists. exists (fmoved fn (length (qb ++ file_bytes count (file_cut (end_count s) 0 fi)))).
  split; [reflexivity|]. split; [done|]. split; [done|]. split; [done|]. split; [done|].
  change (guest_instr_count pp_zero) with 0.
  assert (Hfile : h_files (sc_host (moved (0 + n) (qb ++ file_bytes count (file_cut (end_count s) 0 fi)) s0 fo fn))
    !! nondet_name s = Some (pp_bytes pp_zero ++ concat (item_bytes <$> cut_items (end_count s) count qs.*2 fi))).
  { unfold sc_host, moved, appended. simpl h_files. rewrite lookup_insert_eq.
    unfold sc_host, s0, opened. simpl. rewrite h_data_insert. by rewrite <-cut_bytes. }
  split; [exact Hfile|]. split; [|done].
  change (sc_host (set_snipping true ?x)) with (sc_host x).
  rewrite (h_data_lookup _ _ _ Hfile), <-cut_bytes, (length_app (pp_bytes pp_zero)). done.
Qed.

(** Ending the cut: the end-of-log entry and the header. *)
Definition last_pp (a : Z) (s : sc_state) : RR_prog_point := shift_pp a (rr_prog_point (sc_rr s)).

Lemma end_snip_ok s fn items :
  newlog s = Some fn → f_pos fn = length (h_data (sc_host s) (f_name fn)) →
  h_files (sc_host s) !! f_name fn = Some (pp_bytes pp_zero ++ concat (item_bytes <$> items)) →
  let e := last_pp (actual_start_count s) s in
  ∃ s', end_snip s = Ok () s' ∧ snip_done s' = true ∧ snipping s' = snipping s ∧
    rr_req (sc_rr s') = rr_req (sc_rr s) ∧
    h_files (sc_host s') !! f_name fn
    = Some (pp_bytes e ++ concat (item_bytes <$> items ++ [last_item e])).
Proof.
  intros Hn Hp Hf e. unfold end_snip. rewrite !bind_gets. fold (last_pp (actual_start_count s) s). fold e.
  assert (Hd : h_data (sc_host s) (f_name fn) = pp_bytes pp_zero ++ concat (item_bytes <$> items)).
  { by apply h_data_lookup. }
  set (h := sc_host s) in *. set (nm := f_name fn) in *.
  rewrite (bind_Ok _ _ _ _ _ (new_fwrite_ok (pp_bytes e) s fn Hn Hp)).
  match goal with |- context [(new_fwrite _ ≫= _) ?st] =>
    rewrite (bind_Ok _ _ _ _ _ (new_fwrite_ok (le_bytes 1 (kind_Z RR_LAST)) st
      (fmoved fn (length (pp_bytes e))) eq_refl
      ltac:(unfold sc_host; simpl; rewrite data_appended, length_app; simpl; by rewrite Hp))) end.
  match goal with |- context [(new_fwrite _ ≫= _) ?st] =>
    rewrite (bind_Ok _ _ _ _ _ (new_fwrite_ok (le_bytes 1 (callsite_Z RR_CALLSITE_LAST)) st
      (fmoved (fmoved fn (length (pp_bytes e))) (length (le_bytes 1 (kind_Z RR_LAST)))) eq_refl
      ltac:(unfold sc_host; simpl; rewrite !data_appended, !length_app; simpl; by rewrite Hp))) end.
  rewrite bind_gets. cbn [newlog set_newlog]. rewrite bind_nonnull, bind_modify.
  unfold sc_host at 1 2 3. cbn [sc_rr set_newlog set_sc_rr rr_host set_rr_host fmoved f_name].
  fold h nm. rewrite !appended_appended.
  unfold new_fwrite. rewrite bind_assoc, bind_gets. cbn [newlog set_newlog].
  rewrite bind_assoc, bind_nonnull, bind_assoc, bind_gets. unfold fwrite.
  cbn [f_name rewind f_pos sc_rr set_newlog set_sc_rr rr_host set_rr_host]. rewrite bind_modify, bind_modify.
  eexists. split; [reflexivity|]. split; [done|]. split; [done|]. split; [done|].
  unfold sc_host. cbn [h_files sc_rr set_newlog set_sc_rr set_rr_host rr_host set_snip_done].
  rewrite lookup_insert_eq. f_equal.
  change (f_name _) with nm. change (rr_host (sc_rr s)) with h.
  rewrite data_appended, Hd. rewrite take_0, app_nil_l. f_equal. rewrite <-app_assoc.
  change (length (pp_bytes e)) with (length (pp_bytes pp_zero)). rewrite Nat.add_0_l, drop_app_length.
  by rewrite fmap_app, concat_app.
Qed.

(** The cut begins at the first block that goes past the start; at a later block
    past the end, the new log is complete. *)
Lemma cut_completed n s l lf qs qi fi :
  let count := guest_instr_count (rr_prog_point (sc_rr s)) in
  let items := cut_items (end_count s) count qs.*2 fi in
  at_cut s l lf qs qi fi → Forall entry_ok (queue_cut (end_count s) qs.*2) →
  cut_ends (end_count s) 0 fi = true →
  snipping s = false → snip_done s = false →
  start_count s < wrap 64 (count + n) → count ≤ end_count s →
  ∃ s1 fn, before_block_exec n s = Ok () s1 ∧ snipping s1 = true ∧ newlog s1 = Some fn ∧
    rr_trace (sc_rr s1) = rr_trace (sc_rr s) ++ [EvSaveVM (snp_name s)] ∧
    ∀ m s2, newlog s2 = Some fn → snipping s2 = true → snip_done s2 = false →
      actual_start_count s2 = actual_start_count s1 → end_count s2 = end_count s →
      h_files (sc_host s2) !! nondet_name s = h_files (sc_host s1) !! nondet_name s →
      end_count s < guest_instr_count (rr_prog_point (sc_rr s2)) →
      let e := shift_pp count (rr_prog_point (sc_rr s2)) in
      ∃ s3, before_block_exec m s2 = Ok () s3 ∧ snip_done s3 = true ∧
        rr_end_replay_requested (rr_req (sc_rr s3)) = 1 ∧
        h_files (sc_host s3) !! nondet_name s
        = Some (pp_bytes e ++ concat (item_bytes <$> items ++ [last_item e])).
Proof.
  intros count items Hac Hok Hend Hsn Hdn Hst Hce.
  destruct (begin_snip_ok count s l lf qs qi fi Hac Hok Hend)
    as (s1 & fn & H1 & Hsn1 & Hn1 & Hnm & _ & Hf1 & Hp1 & Ha1 & He1 & Hd1 & _ & Ht1).
  exists s1, fn. split_and!; try done.
  { unfold before_block_exec. rewrite !bind_gets, Hsn. fold count. rewrite (proj2 (Z.ltb_lt _ _)) by done.
    change (negb false && true) with true. cbv iota. rewrite (bind_Ok _ _ _ _ _ H1), !bind_gets, He1.
    rewrite (proj2 (Z.ltb_ge _ _)) by done. by rewrite andb_false_r. }
  intros m s2 Hn2 Hsn2 Hdn2 Ha2 He2 Hf2 Hlt e. unfold before_block_exec. rewrite !bind_gets, Hsn2.
  change (negb true && _) with false. cbv iota. rewrite bind_ret, !bind_gets, Hsn2, Hdn2, He2.
  rewrite (proj2 (Z.ltb_lt _ _)) by done. change (true && negb false && true) with true. cbv iota.
  rewrite Hf1 in Hf2. rewrite <-Hnm in Hf2.
  destruct (end_snip_ok s2 fn items Hn2) as (s3 & H3 & Hd3 & _ & Hr3 & Hf3); [|done|].
  { rewrite (h_data_lookup _ _ _ Hf2). rewrite (h_data_lookup _ _ _ Hf1) in Hp1. done. }
  rewrite (bind_Ok _ _ _ _ _ H3). eexists. split; [reflexivity|]. split; [done|]. split; [done|].
  rewrite <-Hnm. change (h_files (sc_host s3) !! f_name fn
    = Some (pp_bytes e ++ concat (item_bytes <$> items ++ [last_item e]))).
  rewrite Hf3. unfold last_pp. by rewrite Ha2, Ha1.
Qed.

(** The entries of the new log are well formed, so that the log can be replayed. *)
Lemma cut_log_wf e a qs fi p :
  Forall entry_ok (queue_cut e qs) → Forall wf_item fi → wf_pp p →
  Forall wf_item (cut_items e a qs fi ++ [last_item (shift_pp a p)]).
Proof.
  intros Hq Hf Hp.
  assert (Hs : ∀ i, wf_item i → wf_item (shift_item a i)).
  { intros i ((H1 & H2 & H3) & H4 & H5). split; [|done]. split_and!; try done. by apply wrap_in_width. }
  apply Forall_app. split; [unfold cut_items; apply Forall_app; split|].
  - apply Forall_fmap. eapply Forall_impl; [exact Hq|]. intros en (_ & _ & Hw). by apply Hs.
  - apply Forall_fmap. clear -Hf Hs. generalize 0 as c. induction Hf as [|i fi Hi Hf IH]; intros c;
      cbn [file_cut]; destruct (c <? e); try constructor.
    destruct (e <? _); constructor; [by apply Hs|apply IH].
  - apply Forall_singleton. destruct Hp as (H1 & H2 & H3). split; [|done].
    split_and!; try done. by apply wrap_in_width.
Qed.

(** When no entry of the log is at or past the end of the cut (no end was given,
    or one behind the end of the log), the loop reads past the end of the old log
    and the process aborts. *)
Lemma cut_past_end n s l lf qs qi fi :
  let count := guest_instr_count (rr_prog_point (sc_rr s)) in
  at_cut s l lf qs qi fi → Forall entry_ok (queue_cut (end_count s) qs.*2) →
  cut_ends (end_count s) 0 fi = false → snipping s = false →
  start_count s < wrap 64 (count + n) →
  ∃ s', before_block_exec n s = Err Abort s'.
Proof.
  intros count Hac Hok Hend Hsn Hst. unfold before_block_exec. rewrite !bind_gets, Hsn. fold count.
  rewrite (proj2 (Z.ltb_lt _ _)) by done. change (negb false && true) with true. cbv iota.
  destruct (begin_snip_opens count s l lf qs qi fi Hac) as (hdr & E).
  destruct (opened_open count s l lf hdr _ _ _ Hac) as (Ho & Hrest & Hrep).
  pose proof (queue_part count s l lf qs qi fi hdr Hac Hok) as Hqp.
  set (fo := mkFILE (log_name l) (f_pos lf) false) in *. set (fn := mkFILE (nondet_name s) 24 false) in *.
  set (qb := queue_bytes _ _) in *. set (s0 := opened count s l lf hdr) in *.
  pose proof (moved_open 0 qb s0 fo fn Ho) as Ho1.
  pose proof (moved_rest s0 fo fn [] qb _ Ho Hrest) as Hrest1. simpl length in Hrest1.
  assert (Hne : ∀ l' f, rr_nondet_log (sc_rr s0) = Some l' → log_fp l' = Some f → f_name f ≠ f_name fn).
  { intros l' f Hl' Hf'. destruct Hac as [Hl _ _ _ _ Hn _ _ Hne _].
    change (rr_nondet_log (sc_rr s) = Some l') in Hl'. rewrite (la_log _ _ _ _ Hl) in Hl'.
    injection Hl' as <-. rewrite (la_fp _ _ _ _ Hl) in Hf'. injection Hf' as <-. by rewrite Hn. }
  destruct (copy_loop_abort (end_count s) count fi (S (length (concat (item_bytes <$> fi)))) pp_zero
    (moved 0 qb s0 fo fn) (fmoved fo 0) (fmoved fn (length qb)) qi fi) as (s' & Hcl);
    [done|done|done|done|done|apply (la_wf _ _ _ _ (ac_log _ _ _ _ _ _ Hac))|done
    |pose proof (items_length fi); lia|by apply replays_moved|done|].
  exists s'. apply bind_Err. rewrite E, (bind_Ok _ _ _ _ _ Hqp), bind_gets. unfold old_left.
  rewrite (so_old _ _ _ Ho1). change (rr_host (sc_rr ?x)) with (sc_host x). rewrite Hrest1.
  by apply bind_Err.
Qed.

(** A memory write that is still in the queue loses its data: what is written is
    a buffer that was never filled. *)
Lemma queued_write_lost s fo fn en w :
  sc_open s fo fn → variant en = VCall (ArgsMemRw w) → 0 < rw_len w →
  guest_instr_count (prog_point en) ≤ end_count s →
  ∃ s', write_entry en s = Err UninitRead s'.
Proof.
  intros Ho Hv Hl He. unfold write_entry. rewrite !bind_gets, (proj2 (Z.ltb_ge _ _)) by done.
  rewrite bind_gets, Hv.
  pose proof (copies_fwrite (end_count s) (actual_start_count s)) as Hw.
  rewrite (bind_Ok _ _ _ _ _ (Hw (pp_bytes _) s fo fn _ Ho eq_refl eq_refl eq_refl)).
  pose proof (moved_open 0 (pp_bytes (shift_pp (actual_start_count s) (prog_point en))) s fo fn Ho) as Ho1.
  rewrite (bind_Ok _ _ _ _ _ (Hw _ _ _ _ _ Ho1 eq_refl eq_refl eq_refl)).
  pose proof (moved_open 0 (le_bytes 1 (kind_Z (kind en))) _ _ _ Ho1) as Ho2.
  rewrite (bind_Ok _ _ _ _ _ (Hw _ _ _ _ _ Ho2 eq_refl eq_refl eq_refl)).
  pose proof (moved_open 0 (le_bytes 1 (callsite_loc en)) _ _ _ Ho2) as Ho3.
  rewrite (bind_Ok _ _ _ _ _ (Hw _ _ _ _ _ Ho3 eq_refl eq_refl eq_refl)). cbn [write_call].
  pose proof (moved_open 0 (le_bytes 1 (call_kind_Z (call_kind (ArgsMemRw w)))) _ _ _ Ho3) as Ho4.
  rewrite (bind_Ok _ _ _ _ _ (Hw _ _ _ _ _ Ho4 eq_refl eq_refl eq_refl)).
  rewrite (proj2 (Z.ltb_lt _ _)) by done. by eexists.
Qed.

(** Writing the queue stops at the first memory write among the wanted entries. *)
Lemma write_queue_stops e a qs : ∀ fuel p s fo fn,
  sc_open s fo fn → end_count s = e → actual_start_count s = a →
  chain (q_heap (rr_q (sc_rr s))) p qs → (length (queue_cut e qs.*2) ≤ fuel)%nat →
  Forall queued_ok qs.*2 → existsb is_mem_write (queue_cut e qs.*2) = true →
  ∃ s', write_queue fuel p s = Err UninitRead s'.
Proof.
  induction qs as [|[l en] qs IH]; intros fuel p s fo fn Ho He Ha Hc Hf Hok Hex; [done|].
  destruct Hc as [-> (nx & Hl & Hc)]. rewrite fmap_cons in *. cbn [queue_cut take_while] in *.
  change ((l, en).2) with en in *. fold (queue_cut e qs.*2) in *.
  destruct (before_end e en) eqn:Eb; [|done]. destruct fuel as [|fuel]; [simpl in Hf; lia|].
  cbn [write_queue]. rewrite (bind_Ok _ _ _ _ _ (on_rr_load _ _ _ Hl)), bind_gets, He.
  cbn [qn_entry qn_next]. fold (before_end e en). rewrite Eb. unfold before_end in Eb.
  apply Z.ltb_lt in Eb. apply Forall_cons in Hok as [[Hv Hw] Hok]. simpl in Hex.
  destruct (is_mem_write en) eqn:Em.
  - unfold is_mem_write in Em. destruct (variant en) as [| | | | | |[w| | | | |]| |] eqn:Ev; try done.
    destruct Hw as (_ & _ & Hw). unfold item_of_entry in Hw. rewrite Ev in Hw. simpl in Hv, Hw.
    destruct (queued_write_lost s fo fn en w Ho Ev) as (s' & Hs'); [|lia|exists s'; by apply bind_Err].
    destruct Hw as (_ & _ & Hz & _). unfold zlen in Hz. rewrite length_take in Hz. lia.
  - assert (not_mem_rw en) as Hn.
    { unfold not_mem_rw, is_mem_write in *. by destruct (variant en) as [| | | | | |[]| |]. }
    rewrite (bind_Ok _ _ _ _ _ (copies_write_entry e a en Hv Hn Hw ltac:(lia) s fo fn _ Ho He Ha eq_refl)).
    apply (IH fuel nx _ _ _ (moved_open _ _ _ _ _ Ho) He Ha Hc); [simpl in Hf; lia|done..].
Qed.

(** ** The window of the log that is cut out *)

Definition icount (i : log_item) : Z := guest_instr_count (li_pp i).

(** What is left of the log: the queue, then the file. *)
Definition pending (qs : list RR_log_entry) (fi : list log_item) : list log_item :=
  (item_of_entry <$> qs) ++ fi.

(** The entries before the end, and of those at the end itself the first one that
    is still in the file. *)
Definition window (e : Z) (qs : list RR_log_entry) (fi : list log_item) : list log_item :=
  filter (λ i, icount i < e) (pending qs fi) ++ take 1 (filter (λ i, icount i = e) fi).

Lemma cut_filter_none {A} (P : A → Prop) `{!∀ x, Decision (P x)} (l : list A) :
  Forall (λ x, ¬ P x) l → filter P l = [].
Proof. induction 1 as [|x l Hx Hl IH]; [done|]. by rewrite filter_cons_False. Qed.

Lemma queue_cut_window e qs :
  StronglySorted Z.le (icount <$> (item_of_entry <$> qs)) →
  item_of_entry <$> queue_cut e qs = filter (λ i, icount i < e) (item_of_entry <$> qs).
Proof.
  induction qs as [|en qs IH]; [done|]. cbn [fmap list_fmap queue_cut take_while].
  intros [Hs Hle]%StronglySorted_inv. fold (queue_cut e qs). unfold before_end.
  change (guest_instr_count (prog_point en)) with (icount (item_of_entry en)) in *.
  destruct (Z.ltb_spec (icount (item_of_entry en)) e).
  - rewrite filter_cons_True by done. rewrite fmap_cons. f_equal. by apply IH.
  - rewrite filter_cons_False by lia. rewrite cut_filter_none; [done|].
    apply (Forall_fmap icount) in Hle. eapply Forall_impl; [exact Hle|]. simpl. lia.
Qed.

Lemma file_cut_window e fi : ∀ c, c < e → StronglySorted Z.le (icount <$> fi) →
  file_cut e c fi = filter (λ i, icount i < e) fi ++ take 1 (filter (λ i, icount i = e) fi).
Proof.
  induction fi as [|i fi IH]; intros c Hc; cbn [file_cut]; rewrite (proj2 (Z.ltb_lt _ _)) by done;
    [done|]. rewrite fmap_cons. intros [Hs Hle]%StronglySorted_inv. fold (icount i).
  apply (Forall_fmap icount) in Hle.
  assert (Hnone : e ≤ icount i → filter (λ j, icount j < e) fi = []).
  { intros He. apply cut_filter_none. eapply Forall_impl; [exact Hle|]. simpl. lia. }
  destruct (Z.ltb_spec e (icount i)).
  - rewrite !filter_cons_False, Hnone by lia. rewrite cut_filter_none; [done|].
    eapply Forall_impl; [exact Hle|]. simpl. lia.
  - destruct (decide (icount i < e)) as [Hlt|].
    + rewrite filter_cons_True, filter_cons_False by lia. rewrite (IH _ Hlt Hs). done.
    + rewrite filter_cons_False, filter_cons_True, Hnone by lia. cbn [take app]. f_equal.
      destruct fi; cbn [file_cut]; by rewrite (proj2 (Z.ltb_ge _ _)) by lia.
Qed.

Lemma cut_ends_exists e fi : ∀ c, c < e → cut_ends e c fi = existsb (λ i, e <=? icount i) fi.
Proof.
  induction fi as [|i fi IH]; intros c Hc; cbn [cut_ends existsb];
    rewrite (proj2 (Z.ltb_lt _ _)) by done; [done|]. fold (icount i).
  destruct (Z.ltb_spec e (icount i)); [by rewrite (proj2 (Z.leb_le _ _)) by lia|].
  destruct (Z.leb_spec e (icount i)); [|by apply IH].
  destruct fi; cbn [cut_ends]; by rewrite (proj2 (Z.ltb_ge _ _)) by lia.
Qed.

Lemma cut_items_window e a qs fi :
  0 < e → StronglySorted Z.le (icount <$> pending qs fi) →
  cut_items e a qs fi = shift_item a <$> window e qs fi.
Proof.
  intros He Hs. unfold cut_items, window, pending in *. rewrite fmap_app in Hs.
  apply StronglySorted_app in Hs as (_ & Hq & Hf).
  rewrite filter_app, <-app_assoc, fmap_app. f_equal.
  - by rewrite list_fmap_compose, queue_cut_window.
  - by rewrite file_cut_window.
Qed.

(** C17. The scissors plugin cuts the replay. At the first block that goes past the
    start it copies what is left of the log, whose counts do not decrease, with an
    end after 0 that the guest has not passed. Three things can happen: a memory
    write among the wanted entries that are queued makes it write a buffer that was
    never filled; if no entry left in the file is at or past the end (as with the
    default end), it reads past the end of the old log and the process aborts;
    otherwise the snapshot is taken and, when a later block is past the end, the
    replay is asked to stop and the new log is complete. It consists of the entries
    left before the end and of the first one in the file at the end itself, in
    order, with counts relative to the cut, then of the end-of-log entry at the
    point the guest has reached, which is also in the header; all are well formed. *)
Theorem scissors_cut n s l lf qs qi fi :
  let count := guest_instr_count (rr_prog_point (sc_rr s)) in
  let items := shift_item count <$> window (end_count s) qs.*2 fi in
  at_cut s l lf qs qi fi → Forall queued_ok qs.*2 →
  StronglySorted Z.le (icount <$> pending qs.*2 fi) →
  snipping s = false → snip_done s = false →
  start_count s < wrap 64 (count + n) → count ≤ end_count s → 0 < end_count s →
  if existsb is_mem_write (queue_cut (end_count s) qs.*2)
  then ∃ s', before_block_exec n s = Err UninitRead s'
  else if existsb (λ i, end_count s <=? icount i) fi then
    ∃ s1 fn, before_block_exec n s = Ok () s1 ∧ snipping s1 = true ∧ newlog s1 = Some fn ∧
      rr_trace (sc_rr s1) = rr_trace (sc_rr s) ++ [EvSaveVM (snp_name s)] ∧
      ∀ m s2, newlog s2 = Some fn → snipping s2 = true → snip_done s2 = false →
        actual_start_count s2 = actual_start_count s1 → end_count s2 = end_count s →
        h_files (sc_host s2) !! nondet_name s = h_files (sc_host s1) !! nondet_name s →
        end_count s < guest_instr_count (rr_prog_point (sc_rr s2)) →
        wf_pp (rr_prog_point (sc_rr s2)) →
        let e := shift_pp count (rr_prog_point (sc_rr s2)) in
        ∃ s3, before_block_exec m s2 = Ok () s3 ∧ snip_done s3 = true ∧
          rr_end_replay_requested (rr_req (sc_rr s3)) = 1 ∧
          h_files (sc_host s3) !! nondet_name s
          = Some (pp_bytes e ++ concat (item_bytes <$> items ++ [last_item e])) ∧
          Forall wf_item (items ++ [last_item e])
  else ∃ s', before_block_exec n s = Err Abort s'.
Proof.
  intros count items Hac Hq Hs Hsn Hdn Hst Hce He.
  assert (Hcut : items = cut_items (end_count s) count qs.*2 fi) by (by rewrite cut_items_window).
  destruct (existsb is_mem_write _) eqn:Hmem.
  { unfold before_block_exec. rewrite !bind_gets, Hsn. fold count.
    rewrite (proj2 (Z.ltb_lt _ _)) by done. change (negb false && true) with true. cbv iota.
    destruct (begin_snip_opens count s l lf qs qi fi Hac) as (hdr & E).
    destruct (opened_open count s l lf hdr _ _ _ Hac) as (Ho & _ & _).
    destruct (ac_rs _ _ _ _ _ _ Hac) as [rs Hqr].
    destruct (write_queue_stops (end_count s) count qs (heap_fuel (sc_rr s))
      (rr_queue_head (rr_q (sc_rr s))) (opened count s l lf hdr) _ _ Ho eq_refl eq_refl)
      as (s' & Hs'); [apply Hqr| |done|done|].
    - etransitivity; [apply queue_cut_length|]. rewrite length_fmap.
      eapply chain_size; [apply Hqr|]. by pose proof (qr_nodup _ _ _ Hqr) as [? _]%NoDup_app.
    - exists s'. apply bind_Err. rewrite E. by apply bind_Err. }
  assert (Hok : Forall entry_ok (queue_cut (end_count s) qs.*2)) by (by apply queue_cut_ok).
  rewrite <-(cut_ends_exists (end_count s) fi 0 He).
  destruct (cut_ends (end_count s) 0 fi) eqn:Hend; [|by eapply cut_past_end].
  destruct (cut_completed n s l lf qs qi fi Hac Hok Hend Hsn Hdn Hst Hce)
    as (s1 & fn & H1 & H2 & H3 & H4 & H5).
  exists s1, fn. split_and!; try done. intros m s2 ? ? ? ? ? ? ? Hwf e.
  destruct (H5 m s2) as (s3 & ? & ? & ? & Hfile); [done..|]. fold count in Hfile.
  exists s3. rewrite Hcut. split_and!; try done. apply cut_log_wf; [done| |done].
  apply (la_wf _ _ _ _ (ac_log _ _ _ _ _ _ Hac)).
Qed.

End Scissors.

(** ** A concrete cut *)

Module ScissorsExamples.

#[local] Existing Instance Demo.machine.
#[local] Existing Instance Demo.target.

(** The log has two entries the guest has not reached in the queue, the end in the
    file; the cut is from 0 to 20. *)
Definition items : list log_item :=
  [mkItem (mkPP 4096 1 10) 17 (LInput4 42); mkItem (mkPP 4200 2 25) 18 (LInterrupt 2);
   mkItem (mkPP 4200 2 25) 68 LLast].
Definition file : string := log_path (Some "d").
Definition data : list byte := pp_bytes (mkPP 4200 2 25) ++ concat (item_bytes <$> items).
Definition host0 : host := Host {[ file := data ]} ∅.

Definition queued : list (loc * RR_log_entry) :=
  [(1%positive, load_item 4096 (mkItem (mkPP 4096 1 10) 17 (LInput4 42)));
   (2%positive, load_item 4096 (mkItem (mkPP 4200 2 25) 18 (LInterrupt 2)))].
Definition heap0 : gmap loc qnode :=
  {[ 1%positive := mkQnode (load_item 4096 (mkItem (mkPP 4096 1 10) 17 (LInput4 42))) (Some 2%positive);
     2%positive := mkQnode (load_item 4096 (mkItem (mkPP 4200 2 25) 18 (LInterrupt 2))) None ]}.
Definition log0 : RR_log :=
  mkLog REPLAY (mkPP 4200 2 25) file (Some (mkFILE file 82 false)) 108 82 entry_zero 2.
Definition rr0 : rr_state :=
  set_rr_mode RR_REPLAY (set_rr_nondet_log (Some log0)
    (set_rr_q (mkQueue heap0 3%positive 4096 (Some 1%positive) (Some 2%positive) None
                 (replicate (Z.to_nat RR_HIST_SIZE) entry_zero) 0 2)
       (rr_init host0 (Demo.cpu 0) cb_init))).

(** This is the state at the beginning of the replay. *)
Definition same_view (s1 s2 : rr_state) : Prop :=
  rr_q s1 = rr_q s2 ∧ rr_nondet_log s1 = rr_nondet_log s2 ∧ rr_host s1 = rr_host s2 ∧
  rr_mode s1 = rr_mode s2.
Example rr0_reached :
  match rr_do_begin_replay (Some "d") (rr_init host0 (Demo.cpu 0) cb_init) with
  | Ok _ s => same_view s rr0
  | Err _ _ => False
  end.
Proof. vm_compute. done. Qed.

Definition start_at (e : Z) : sc_state :=
  mkSc rr0 0 0 e "scissors-rr-nondet.log" "scissors-rr-snp" None None pp_zero false false.

Lemma queued_rep : qrep (rr_q rr0) queued [].
Proof.
  split; try done.
  - split; [done|]. exists (Some 2%positive). split; [done|]. split; [done|]. by exists None.
  - apply (bool_decide_unpack _). vm_compute. exact I.
  - intros l [x Hx]. change (heap0 !! l = Some x) in Hx. unfold heap0 in Hx.
    apply lookup_insert_Some in Hx as [[<- _]|[_ Hx]]; [done|].
    by apply lookup_singleton_Some in Hx as [<- _].
Qed.

Lemma start_at_cut e : at_cut (start_at e) log0 (mkFILE file 82 false) queued (take 2 items) (drop 2 items).
Proof.
  split; try done.
  - split; try done; apply (bool_decide_unpack _); vm_compute; exact I.
  - exists []. apply queued_rep.
  - apply Forall2_cons; split; [by exists 4096|]. apply Forall2_cons; split; [by exists 4096|].
    by apply Forall2_nil.
  - apply (bool_decide_unpack _). vm_compute. exact I.
Qed.

Lemma queued_wf : Forall queued_ok queued.*2.
Proof.
  repeat (apply Forall_cons; split; [split; [done|apply (bool_decide_unpack _); vm_compute; exact I]|]).
  by apply Forall_nil.
Qed.

Lemma pending_sorted : StronglySorted Z.le (icount <$> pending queued.*2 (drop 2 items)).
Proof. repeat constructor; vm_compute; discriminate. Qed.

Lemma scissors_cut_witness :
  at_cut (start_at 20) log0 (mkFILE file 82 false) queued (take 2 items) (drop 2 items) ∧
  ∃ s1 fn, before_block_exec 5 (start_at 20) = Ok () s1 ∧ snipping s1 = true ∧ newlog s1 = Some fn ∧
    rr_trace (sc_rr s1) = [EvSaveVM "scissors-rr-snp"] ∧
    ∀ m s2, newlog s2 = Some fn → snipping s2 = true → snip_done s2 = false →
      actual_start_count s2 = actual_start_count s1 → end_count s2 = 20 →
      h_files (sc_host s2) !! "scissors-rr-nondet.log" = h_files (sc_host s1) !! "scissors-rr-nondet.log" →
      20 < guest_instr_count (rr_prog_point (sc_rr s2)) → wf_pp (rr_prog_point (sc_rr s2)) →
      let e := shift_pp 0 (rr_prog_point (sc_rr s2)) in
      ∃ s3, before_block_exec m s2 = Ok () s3 ∧ snip_done s3 = true ∧
        rr_end_replay_requested (rr_req (sc_rr s3)) = 1 ∧
        h_files (sc_host s3) !! "scissors-rr-nondet.log"
        = Some (pp_bytes e ++ concat (item_bytes <$>
            [mkItem (mkPP 4096 1 10) 17 (LInput4 42)] ++ [last_item e])) ∧
        Forall wf_item ([mkItem (mkPP 4096 1 10) 17 (LInput4 42)] ++ [last_item e]).
Proof.
  split; [apply start_at_cut|].
  apply (scissors_cut 5 (start_at 20) log0 (mkFILE file 82 false) queued _ _ (start_at_cut 20)
    queued_wf pending_sorted); done.
Defined.

(** With the default end the copy does not find the end of the cut. *)
Example default_end_aborts :
  match before_block_exec 5 (start_at ULLONG_MAX) with Err Abort _ => True | _ => False end.
Proof. vm_compute. exact I. Qed.

End ScissorsExamples.
