(* ===== verification/RRPrint.v ===== *)
(** * The log printer ([rr_print.c])

    A program of its own that reads a log and prints one entry after the other.
    Buffers are skipped with [fseek], not read. The output is the list of the
    strings printed. *)

From stdpp Require Import pretty.
From S2P Require Import Prelude CFile RRTypes PandaCallbacks RRState RRQueue RRFormat RRSession.
Local Open Scope Z_scope.

(** ** Number formats *)

Definition hex_char (d : Z) : Ascii.ascii :=
  Ascii.ascii_of_nat (Z.to_nat (if d <? 10 then 48 + d else 87 + d)).

(** The [n] lowest hexadecimal digits of [z]. *)
Fixpoint hex_fixed (n : nat) (z : Z) (s : string) : string :=
  match n with
  | O => s
  | S n' => hex_fixed n' (z / 16) (String (hex_char (z mod 16)) s)
  end.

Fixpoint hex_width (fuel : nat) (z : Z) : nat :=
  match fuel with
  | O => 0
  | S f => if z =? 0 then 0 else S (hex_width f (z / 16))
  end.

(** [%lx] and [%08llx] of a 64-bit value. *)
Definition hex (z : Z) : string := hex_fixed (Nat.max 1 (hex_width 16 z)) z EmptyString.
Definition hex8 (z : Z) : string := hex_fixed (Nat.max 8 (hex_width 16 z)) z EmptyString.

(** [%d] of a 32-bit and [%ld] of a 64-bit value. *)
Definition int64 (z : Z) : Z := wrap 64 (z + 2 ^ 63) - 2 ^ 63.
Definition dec (z : Z) : string := pretty z.

Definition newline : string := String (Ascii.ascii_of_nat 10) EmptyString.
Definition tab : string := String (Ascii.ascii_of_nat 9) EmptyString.

(** [printf("%s", NULL)] prints (null). *)
Definition or_null (s : option string) : string := default "(null)" s.

(** ** State *)

Record pr_state := mkPr {
  pr_host : host;
  pr_fp : option FILE;
  pr_size : Z;
  pr_last : RR_prog_point;
  pr_item_number : Z;
  pr_out : list string;
}.
Definition set_pr_fp (x : option FILE) (s : pr_state) : pr_state :=
  mkPr (pr_host s) x (pr_size s) (pr_last s) (pr_item_number s) (pr_out s).
Definition set_pr_item_number (x : Z) (s : pr_state) : pr_state :=
  mkPr (pr_host s) (pr_fp s) (pr_size s) (pr_last s) x (pr_out s).

Abbreviation PR := (M pr_state).

Section Print.
Context `{TargetPhys}.

Definition printf (t : string) : PR () :=
  modify (λ s, mkPr (pr_host s) (pr_fp s) (pr_size s) (pr_last s) (pr_item_number s) (pr_out s ++ [t])).

(** ** Printing *)

Definition prog_point_string (p : RR_prog_point) : string :=
  "{guest_instr_count=" +:+ dec (guest_instr_count p) +:+ " pc=0x" +:+ hex8 (pc p)
  +:+ ", secondary=0x" +:+ hex8 (secondary p) +:+ "}" +:+ newline.

Definition rr_spit_prog_point (p : RR_prog_point) : PR () := printf (prog_point_string p).

Definition input_line (what : string) (v : Z) (cs : Z) : string :=
  tab +:+ what +:+ dec v +:+ " from " +:+ or_null (get_callsite_string cs) +:+ newline.

(** [callbytes] is an [int]; for network transfers and packets it is not set. *)
Definition callbytes (a : RR_skipped_call_args) : option Z :=
  match a with
  | ArgsMemRw a => Some (int32 (24 + rw_len a))
  | ArgsRegion _ => Some 24
  | ArgsUnmap a => Some (int32 (24 + um_len a))
  | ArgsHd _ => Some 32
  | ArgsNet _ | ArgsPacket _ _ => None
  end.

Definition call_line (k : RR_skipped_call_kind) (cs n : Z) : string :=
  tab +:+ "RR_SKIPPED_CALL_(" +:+ or_null (get_skipped_call_kind_string (call_kind_Z k))
  +:+ ") from " +:+ or_null (get_callsite_string cs) +:+ " " +:+ dec n +:+ " bytes" +:+ newline.

Definition hd_line (a : RR_hd_transfer_args) : string :=
  "This is a HD transfer. Source: 0x" +:+ hex (hd_src_addr a) +:+ ", Dest: 0x"
  +:+ hex (hd_dest_addr a) +:+ ", Len: " +:+ dec (int32 (hd_num_bytes a)) +:+ newline.

Definition rr_spit_log_entry (item : RR_log_entry) : PR () :=
  let cs := callsite_loc item in
  rr_spit_prog_point (prog_point item);;
  match variant item with
  | VInput1 v => printf (input_line "RR_INPUT_1 " v cs)
  | VInput2 v => printf (input_line "RR_INPUT_2 " v cs)
  | VInput4 v => printf (input_line "RR_INPUT_4 " (int32 v) cs)
  | VInput8 v => printf (input_line "RR_INPUT_8 " (int64 v) cs)
  | VInterrupt v => printf (input_line "RR_INTERRUPT_REQUEST_" v cs)
  | VExit v => printf (input_line "RR_EXIT_REQUEST_" v cs)
  | VCall a =>
      (match a with ArgsHd h => printf (hd_line h) | _ => mret () end);;
      match callbytes a with
      | Some n => printf (call_line (call_kind a) cs n)
      | None => fail UninitRead
      end
  | VLast => printf (tab +:+ "RR_LAST" +:+ newline)
  | VDebug => printf (tab +:+ "RR_DEBUG" +:+ newline)
  end.

(** ** Reading *)

Definition pr_stream : PR FILE := f ← gets pr_fp; nonnull f.

Definition pr_fread (n : nat) : PR (list byte) :=
  f ← pr_stream; h ← gets pr_host;
  let '(bs, f') := fread h f n in
  modify (set_pr_fp (Some f'));; mret bs.

(** [assert(fread(&x, n, 1, fp) == 1)]. *)
Definition pr_struct (n : nat) : PR (list byte) :=
  bs ← pr_fread n; assert_or Abort (length bs =? n)%nat;; mret bs.

Definition pr_fseek (n : Z) : PR () :=
  f ← pr_stream; modify (set_pr_fp (Some (fseek_cur f (Z.to_nat n)))).

Definition pr_is_empty : PR bool :=
  f ← pr_stream; n ← gets pr_size; mret (wrap 64 (n - Z.of_nat (f_pos f)) =? 0).

(** The buffer field keeps the pointer that was recorded. *)
Definition pr_call (k : RR_skipped_call_kind) : PR RR_skipped_call_args :=
  match k with
  | RR_CALL_CPU_MEM_RW =>
      st ← pr_struct 24;
      let len := field 16 4 st in
      pr_fseek len;;
      mret (ArgsMemRw (mkMemRw (field 0 phys_bytes st) (HBuf (field 8 8 st) []) len))
  | RR_CALL_CPU_MEM_UNMAP =>
      st ← pr_struct 24;
      let len := field 16 phys_bytes st in
      pr_fseek len;;
      mret (ArgsUnmap (mkUnmap (field 0 phys_bytes st) (HBuf (field 8 8 st) []) len))
  | RR_CALL_CPU_REG_MEM_REGION =>
      st ← pr_struct 24;
      mret (ArgsRegion (mkRegion (field 0 phys_bytes st) (field 8 8 st) (field 16 8 st)))
  | RR_CALL_HD_TRANSFER =>
      st ← pr_struct 32;
      mret (ArgsHd (mkHd (field 0 4 st) (field 8 8 st) (field 16 8 st) (field 24 4 st)))
  | RR_CALL_HANDLE_PACKET =>
      st ← pr_struct 16;
      let size := field 8 4 st in
      pr_fseek size;;
      mret (ArgsPacket (mkPacket (HBuf (field 0 8 st) []) size (field 12 1 st)) 0)
  | RR_CALL_NET_TRANSFER =>
      st ← pr_struct 32;
      mret (ArgsNet (mkNet (field 0 4 st) (field 8 8 st) (field 16 8 st) (field 24 4 st)))
  | RR_CALL_LAST => fail Abort
  end.

Definition pr_variant (k : RR_log_entry_kind) : PR RR_variant :=
  match k with
  | RR_INPUT_1 => v ← pr_struct 1; mret (VInput1 (le_value v))
  | RR_INPUT_2 => v ← pr_struct 2; mret (VInput2 (le_value v))
  | RR_INPUT_4 => v ← pr_struct 4; mret (VInput4 (le_value v))
  | RR_INPUT_8 => v ← pr_struct 8; mret (VInput8 (le_value v))
  | RR_INTERRUPT_REQUEST => v ← pr_struct 2; mret (VInterrupt (le_value v))
  | RR_EXIT_REQUEST => v ← pr_struct 2; mret (VExit (le_value v))
  | RR_SKIPPED_CALL =>
      c ← pr_struct 1;
      match call_kind_of_Z (le_value c) with
      | Some ck => a ← pr_call ck; mret (VCall a)
      | None => fail Abort
      end
  | RR_LAST => mret VLast
  | RR_DEBUG => mret VDebug
  end.

(** The fields of one entry, in file order. *)
Definition pr_entry : PR RR_log_entry :=
  pst ← pr_struct 24;
  k ← pr_struct 1; cs ← pr_struct 1;
  match kind_of_Z (le_value k) with
  | Some kd =>
      v ← pr_variant kd;
      mret (mkEntry (mkPP (field 0 8 pst) (field 8 8 pst) (field 16 8 pst)) (le_value cs) v)
  | None => fail Abort
  end.

Definition count_item (s : pr_state) : pr_state := set_pr_item_number (wrap 64 (pr_item_number s + 1)) s.

Definition pr_read_item : PR RR_log_entry :=
  e ← pr_is_empty; assert_or Abort (negb e);;
  en ← pr_entry; modify count_item;; mret en.

Definition pr_create_replay_log (filename : string) : PR () :=
  h ← gets pr_host;
  assert_or Abort (bool_decide (is_Some (fopen_r h filename)));;
  modify (λ s, mkPr h (fopen_r h filename) (wrap 64 (stat_size h filename)) pp_zero 0 (pr_out s));;
  printf ("opened " +:+ filename +:+ " for read.  len=" +:+ dec (wrap 64 (stat_size h filename))
          +:+ " bytes." +:+ newline);;
  bs ← pr_struct 24;
  modify (λ s, mkPr (pr_host s) (pr_fp s) (pr_size s)
                 (mkPP (field 0 8 bs) (field 8 8 bs) (field 16 8 bs)) (pr_item_number s) (pr_out s)).

(** The loop of [main]; every entry takes at least 26 bytes. *)
Fixpoint print_loop (fuel : nat) : PR () :=
  e ← pr_is_empty;
  if (e : bool) then mret () else
  match fuel with
  | O => fail OutOfFuel
  | S fuel' => en ← pr_read_item; rr_spit_log_entry en;; print_loop fuel'
  end.

Definition rr_print_main (filename : string) : PR () :=
  pr_create_replay_log filename;;
  p ← gets pr_last;
  printf ("RR Log with " +:+ dec (guest_instr_count p) +:+ " instructions" +:+ newline);;
  n ← gets (λ s, length (h_data (pr_host s) filename));
  print_loop n.

(** ** Lemmas: reading

    [skims m ins r]: with [ins] next in the file, [m] returns [r] and is past it. *)

Definition fwd (f : FILE) (n : nat) : FILE := mkFILE (f_name f) (f_pos f + n) false.
Definition advanced (s : pr_state) (f : FILE) (n : nat) : pr_state := set_pr_fp (Some (fwd f n)) s.

Definition skims {A} (m : PR A) (ins : list byte) (r : A) : Prop :=
  ∀ s f rest, pr_fp s = Some f → f_eof f = false → f_rest (pr_host s) f = ins ++ rest →
    m s = Ok r (advanced s f (length ins)).

Lemma advanced_0 s f : pr_fp s = Some f → f_eof f = false → advanced s f 0 = s.
Proof.
  intros Hf He. unfold advanced, fwd. rewrite Nat.add_0_r, <-He. destruct f, s. simpl in *. by subst.
Qed.

Lemma skims_ret {A} (a : A) : skims (mret a) [] a.
Proof. intros s f rest Hf He Hr. by rewrite advanced_0. Qed.

Lemma skims_bind {A B} (m : PR A) (k : A → PR B) i1 i2 a b :
  skims m i1 a → skims (k a) i2 b → skims (m ≫= k) (i1 ++ i2) b.
Proof.
  intros Hm Hk s f rest Hf He Hr. rewrite <-app_assoc in Hr.
  rewrite (bind_Ok _ _ _ _ _ (Hm s f _ Hf He Hr)).
  rewrite (Hk (advanced s f (length i1)) (fwd f (length i1)) rest eq_refl eq_refl).
  - unfold advanced, fwd, set_pr_fp. simpl. by rewrite length_app, Nat.add_assoc.
  - unfold f_rest in *. simpl. by eapply drop_add_app.
Qed.

Lemma skims_struct bs n : length bs = n → skims (pr_struct n) bs bs.
Proof.
  intros Hn s f rest Hf He Hr. unfold pr_struct, pr_fread, pr_stream.
  rewrite !bind_assoc, bind_gets, Hf, bind_nonnull, bind_assoc, bind_gets.
  rewrite (fread_app _ _ _ _ _ Hr Hn), bind_assoc, bind_modify, bind_ret.
  rewrite (proj2 (Nat.eqb_eq _ _)) by done. rewrite He, <-Hn. done.
Qed.

Lemma skims_struct_then {B} bs n (k : list byte → PR B) i b :
  length bs = n → skims (k bs) i b → skims (pr_struct n ≫= k) (bs ++ i) b.
Proof. intros Hn Hk. eapply skims_bind; [by apply skims_struct|done]. Qed.

Lemma skims_fseek d : skims (pr_fseek (zlen d)) d ().
Proof.
  intros s f rest Hf He Hr. unfold pr_fseek, pr_stream. rewrite bind_assoc, bind_gets, Hf, bind_nonnull.
  unfold zlen. rewrite Nat2Z.id. done.
Qed.

(** The entry as the printer holds it: the buffers are not there. *)
Definition skim_call (c : log_call) : RR_skipped_call_args :=
  match c with
  | LMemRw addr ptr d => ArgsMemRw (mkMemRw addr (HBuf ptr []) (zlen d))
  | LRegion s n o => ArgsRegion (mkRegion s n o)
  | LUnmap addr ptr d => ArgsUnmap (mkUnmap addr (HBuf ptr []) (zlen d))
  | LHd t s d n => ArgsHd (mkHd t s d n)
  | LNet t s d n => ArgsNet (mkNet t s d n)
  | LPacket ptr d dir => ArgsPacket (mkPacket (HBuf ptr []) (zlen d) dir) 0
  end.
Definition skim_body (b : log_body) : RR_variant :=
  match b with
  | LInput1 v => VInput1 v | LInput2 v => VInput2 v | LInput4 v => VInput4 v | LInput8 v => VInput8 v
  | LInterrupt v => VInterrupt v | LExit v => VExit v | LCall c => VCall (skim_call c)
  | LDebug => VDebug | LLast => VLast
  end.
Definition skim_item (i : log_item) : RR_log_entry :=
  mkEntry (li_pp i) (li_callsite i) (skim_body (li_body i)).

Lemma ptr_field_rw addr ptr len :
  in_width 64 ptr → field 8 8 (mem_rw_struct addr ptr len) = ptr.
Proof.
  intros Hp. unfold field, mem_rw_struct, phys_field.
  assert (Hl : length (le_bytes phys_bytes addr ++ zero_bytes (8 - phys_bytes)) = 8%nat).
  { rewrite length_app, length_le_bytes. unfold zero_bytes. rewrite length_replicate.
    unfold phys_bytes. destruct target_phys_bits; lia. }
  rewrite (drop_app_length' _ _ 8) by done. rewrite take_app_length' by (by rewrite length_le_bytes).
  by apply le_value_le_bytes.
Qed.
Lemma ptr_field_unmap addr ptr len :
  in_width 64 ptr → field 8 8 (unmap_struct addr ptr len) = ptr.
Proof.
  intros Hp. unfold field, unmap_struct, phys_field.
  assert (Hl : length (le_bytes phys_bytes addr ++ zero_bytes (8 - phys_bytes)) = 8%nat).
  { rewrite length_app, length_le_bytes. unfold zero_bytes. rewrite length_replicate.
    unfold phys_bytes. destruct target_phys_bits; lia. }
  rewrite (drop_app_length' _ _ 8) by done. rewrite take_app_length' by (by rewrite length_le_bytes).
  by apply le_value_le_bytes.
Qed.

Lemma skims_buf {A} d (a : A) : skims (pr_fseek (zlen d);; mret a) d a.
Proof. rewrite <-(app_nil_r d) at 2. eapply skims_bind; [apply skims_fseek|apply skims_ret]. Qed.

Lemma skims_map {A B} (m : PR A) (g : A → B) i a :
  skims m i a → skims (x ← m; mret (g x)) i (g a).
Proof. intros Hm. rewrite <-(app_nil_r i). eapply skims_bind; [done|apply skims_ret]. Qed.

Lemma skims_call c :
  wf_call c →
  skims (k ← pr_struct 1;
    match call_kind_of_Z (le_value k) with Some ck => a ← pr_call ck; mret (VCall a) | None => fail Abort end)
    (call_bytes c) (VCall (skim_call c)).
Proof.
  intros Hwf. destruct c as [addr ptr d|s n o|addr ptr d|t s d n|t s d n|ptr d dir]; simpl in Hwf;
    unfold call_bytes; (apply skims_struct_then; [done|]);
    rewrite le_value_le_bytes by done; rewrite call_kind_of_kind_Z; cbn [pr_call skim_call];
    apply (skims_map _ VCall).
  - destruct Hwf as (Ha & Hp & Hd & Hl). destruct (mem_rw_layout addr ptr (zlen d) Ha Hl) as (L & F1 & F2).
    apply skims_struct_then; [done|]. cbv zeta. rewrite F1, F2, ptr_field_rw by done. apply skims_buf.
  - destruct Hwf as (Ha & Hn & Ho). destruct (region_layout s n o Ha Hn Ho) as (L & F1 & F2 & F3).
    rewrite <-(app_nil_r (region_struct _ _ _)). apply skims_struct_then; [done|].
    rewrite F1, F2, F3. apply skims_ret.
  - destruct Hwf as (Ha & Hp & Hd & Hl). destruct (unmap_layout addr ptr (zlen d) Ha Hl) as (L & F1 & F2).
    apply skims_struct_then; [done|]. cbv zeta. rewrite F1, F2, ptr_field_unmap by done. apply skims_buf.
  - destruct Hwf as (H1 & H2 & H3 & H4). destruct (transfer_layout t s d n H1 H2 H3 H4) as (L & F1 & F2 & F3 & F4).
    rewrite <-(app_nil_r (transfer_struct _ _ _ _)). apply skims_struct_then; [done|].
    rewrite F1, F2, F3, F4. apply skims_ret.
  - destruct Hwf as (H1 & H2 & H3 & H4). destruct (transfer_layout t s d n H1 H2 H3 H4) as (L & F1 & F2 & F3 & F4).
    rewrite <-(app_nil_r (transfer_struct _ _ _ _)). apply skims_struct_then; [done|].
    rewrite F1, F2, F3, F4. apply skims_ret.
  - destruct Hwf as (H1 & H2 & H3 & H4). destruct (packet_layout ptr (zlen d) dir H1 H3 H4) as (L & F1 & F2 & F3).
    apply skims_struct_then; [done|]. cbv zeta. rewrite F1, F2, F3. apply skims_buf.
Qed.

Lemma skims_value {A} n v (g : Z → A) :
  in_width (8 * Z.of_nat n) v → skims (x ← pr_struct n; mret (g (le_value x))) (le_bytes n v) (g v).
Proof.
  intros Hv. rewrite <-(app_nil_r (le_bytes n v)). apply skims_struct_then; [apply length_le_bytes|].
  rewrite le_value_le_bytes by done. apply skims_ret.
Qed.

Lemma skims_body b : wf_body b → skims (pr_variant (body_kind b)) (body_bytes b) (skim_body b).
Proof.
  intros Hwf. destruct b; cbn [body_kind pr_variant body_bytes skim_body];
    first [apply skims_value; exact Hwf | by apply skims_call | apply skims_ret].
Qed.

(** What is printed for an entry. *)
Definition body_lines (cs : Z) (b : log_body) : option (list string) :=
  match b with
  | LInput1 v => Some [input_line "RR_INPUT_1 " v cs]
  | LInput2 v => Some [input_line "RR_INPUT_2 " v cs]
  | LInput4 v => Some [input_line "RR_INPUT_4 " (int32 v) cs]
  | LInput8 v => Some [input_line "RR_INPUT_8 " (int64 v) cs]
  | LInterrupt v => Some [input_line "RR_INTERRUPT_REQUEST_" v cs]
  | LExit v => Some [input_line "RR_EXIT_REQUEST_" v cs]
  | LCall (LMemRw _ _ d) => Some [call_line RR_CALL_CPU_MEM_RW cs (int32 (24 + zlen d))]
  | LCall (LRegion _ _ _) => Some [call_line RR_CALL_CPU_REG_MEM_REGION cs 24]
  | LCall (LUnmap _ _ d) => Some [call_line RR_CALL_CPU_MEM_UNMAP cs (int32 (24 + zlen d))]
  | LCall (LHd t s d n) => Some [hd_line (mkHd t s d n); call_line RR_CALL_HD_TRANSFER cs 32]
  | LCall (LNet _ _ _ _) | LCall (LPacket _ _ _) => None
  | LDebug => Some [tab +:+ "RR_DEBUG" +:+ newline]
  | LLast => Some [tab +:+ "RR_LAST" +:+ newline]
  end.
Definition item_lines (i : log_item) : option (list string) :=
  (λ ls, prog_point_string (li_pp i) :: ls) <$> body_lines (li_callsite i) (li_body i).

Definition printed (s : pr_state) (ls : list string) : pr_state :=
  mkPr (pr_host s) (pr_fp s) (pr_size s) (pr_last s) (pr_item_number s) (pr_out s ++ ls).

Lemma spit_ok i ls s :
  item_lines i = Some ls → rr_spit_log_entry (skim_item i) s = Ok () (printed s ls).
Proof.
  destruct i as [p cs b]. unfold item_lines. simpl. intros Hl.
  destruct (body_lines cs b) as [bl|] eqn:Eb; [|done]. injection Hl as <-.
  unfold rr_spit_log_entry, rr_spit_prog_point, printf. rewrite bind_modify. unfold printed.
  destruct b as [v|v|v|v|v|v|[]| |]; simpl in *; try done; injection Eb as <-; simpl;
    rewrite ?bind_ret, ?bind_modify; cbn; unfold modify; simpl; by rewrite <-?app_assoc.
Qed.

Lemma read_item_ok_pr i s f rest :
  wf_item i → pr_fp s = Some f → f_eof f = false →
  f_rest (pr_host s) f = item_bytes i ++ rest →
  in_width 64 (pr_size s) → pr_size s = Z.of_nat (f_pos f) + zlen (item_bytes i ++ rest) →
  pr_read_item s = Ok (skim_item i) (count_item (advanced s f (length (item_bytes i)))).
Proof.
  intros (Hp & Hc & Hb) Hf He Hr Hw Hsz. destruct (pp_layout _ Hp) as [Lp Fp].
  unfold pr_read_item, pr_is_empty, pr_stream. rewrite !bind_assoc, bind_gets, Hf, bind_nonnull.
  rewrite bind_assoc, bind_gets, bind_ret.
  assert (Hpos : 0 < zlen (item_bytes i ++ rest)).
  { pose proof (item_bytes_pos i). rewrite zlen_app. pose proof (zlen_nonneg rest). lia. }
  rewrite Hsz, (proj2 (Z.eqb_neq _ _)); [change (negb false) with true|];
    [rewrite (bind_Ok _ _ _ _ _ (assert_true Abort true _ eq_refl))|].
  2: { replace (_ - _) with (zlen (item_bytes i ++ rest)) by lia. rewrite wrap_small; [lia|].
       unfold in_width in *. lia. }
  assert (Hsk : skims pr_entry (item_bytes i) (skim_item i)).
  { unfold item_bytes, pr_entry. apply skims_struct_then; [done|]. rewrite Fp.
    apply skims_struct_then; [done|]. rewrite le_value_le_bytes by (destruct (body_kind (li_body i)); done).
    rewrite kind_of_kind_Z. apply skims_struct_then; [done|]. rewrite le_value_le_bytes by done.
    apply (skims_map _ (λ v, mkEntry (li_pp i) (li_callsite i) v)). by apply skims_body. }
  by rewrite (bind_Ok _ _ _ _ _ (Hsk s f rest Hf He Hr)).
Qed.

#[local] Opaque item_bytes pp_bytes.

(** The printer stands at [items] of the file. *)
Record pr_at (s : pr_state) (f : FILE) (items : list log_item) : Prop := {
  pa_fp : pr_fp s = Some f;
  pa_eof : f_eof f = false;
  pa_rest : f_rest (pr_host s) f = concat (item_bytes <$> items);
  pa_wf : Forall wf_item items;
  pa_width : in_width 64 (pr_size s);
  pa_size : pr_size s = Z.of_nat (f_pos f) + zlen (concat (item_bytes <$> items));
}.

Lemma pr_is_empty_ok s f items :
  pr_at s f items → pr_is_empty s = Ok (bool_decide (items = [])) s.
Proof.
  intros [Hf _ _ _ Hw Hs]. unfold pr_is_empty, pr_stream.
  rewrite bind_assoc, bind_gets, Hf, bind_nonnull, bind_gets, Hs. unfold mret, M_ret. f_equal.
  replace (_ - _) with (zlen (concat (item_bytes <$> items))) by lia.
  rewrite wrap_small by (unfold in_width in *; pose proof (zlen_nonneg (concat (item_bytes <$> items))); lia).
  destruct items as [|i items]; [done|]. rewrite bool_decide_false by done. apply Z.eqb_neq.
  rewrite fmap_cons. cbn [concat]. rewrite zlen_app. pose proof (item_bytes_pos i).
  pose proof (zlen_nonneg (concat (item_bytes <$> items))). lia.
Qed.

Lemma print_loop_ok items : ∀ n s f lss,
  pr_at s f items → mapM item_lines items = Some lss → (length items ≤ n)%nat →
  ∃ s', print_loop n s = Ok () s' ∧ pr_out s' = pr_out s ++ concat lss.
Proof.
  induction items as [|i items IH]; intros n s f lss Hat Hl Hn.
  { simpl in Hl. injection Hl as <-. exists s. rewrite app_nil_r. split; [|done].
    destruct n; cbn [print_loop]; by rewrite (bind_Ok _ _ _ _ _ (pr_is_empty_ok _ _ _ Hat)). }
  destruct n as [|n]; [simpl in Hn; lia|]. cbn [print_loop].
  rewrite (bind_Ok _ _ _ _ _ (pr_is_empty_ok _ _ _ Hat)), bool_decide_false by done.
  destruct Hat as [Hf He Hr Hwf Hw Hs]. rewrite fmap_cons in Hr, Hs. cbn [concat] in Hr, Hs.
  apply Forall_cons in Hwf as [Hi Hwf].
  rewrite (bind_Ok _ _ _ _ _ (read_item_ok_pr i s f _ Hi Hf He Hr Hw Hs)).
  cbn in Hl. destruct (item_lines i) as [ls|] eqn:El; [|done]. simpl in Hl.
  destruct (mapM item_lines items) as [lss'|] eqn:Em; [|done]. injection Hl as <-.
  rewrite (bind_Ok _ _ _ _ _ (spit_ok i ls _ El)).
  destruct (IH n (printed (count_item (advanced s f (length (item_bytes i)))) ls) (fwd f (length (item_bytes i))) lss')
    as (s' & H1 & H2); [|done|simpl in Hn; lia|].
  { split; try done.
    - unfold f_rest in *. simpl. by eapply drop_add_app.
    - simpl. rewrite zlen_app in Hs. unfold zlen in *. lia. }
  exists s'. split; [done|]. rewrite H2. simpl. by rewrite <-app_assoc.
Qed.

Lemma count_items (items : list log_item) : (length items ≤ length (concat (item_bytes <$> items)))%nat.
Proof.
  induction items as [|i items IH]; [done|]. rewrite fmap_cons. cbn [concat]. rewrite length_app.
  pose proof (item_bytes_pos i) as Hp. unfold zlen in Hp. simpl length at 1. lia.
Qed.

(** C40. The printer terminates on every well-formed log without network entries and
    prints each entry, in order, to the end. *)
Theorem print_log s name p items lss :
  wf_pp p → Forall wf_item items → mapM item_lines items = Some lss →
  h_files (pr_host s) !! name = Some (pp_bytes p ++ concat (item_bytes <$> items)) →
  in_width 64 (24 + zlen (concat (item_bytes <$> items))) →
  ∃ s', rr_print_main name s = Ok () s' ∧
    pr_out s' = pr_out s ++
      ["opened " +:+ name +:+ " for read.  len=" +:+ dec (24 + zlen (concat (item_bytes <$> items)))
         +:+ " bytes." +:+ newline;
       "RR Log with " +:+ dec (guest_instr_count p) +:+ " instructions" +:+ newline] ++ concat lss.
Proof.
  intros Hp Hwf Hl Hf Hw. destruct (pp_layout _ Hp) as [Lp Fp].
  pose proof (h_data_lookup _ _ _ Hf) as Hd.
  assert (Hst : stat_size (pr_host s) name = 24 + zlen (concat (item_bytes <$> items))).
  { unfold stat_size. rewrite Hd, length_app, Lp. unfold zlen. lia. }
  unfold rr_print_main, pr_create_replay_log. rewrite bind_assoc, bind_gets. unfold fopen_r. rewrite Hf.
  rewrite bool_decide_true by eauto.
  rewrite bind_assoc, (bind_Ok _ _ _ _ _ (assert_true Abort true _ eq_refl)), bind_assoc, bind_modify, bind_assoc.
  unfold printf. rewrite bind_modify, bind_assoc, Hst, (wrap_small 64) by done.
  set (s1 := mkPr _ _ _ _ _ _). set (f0 := mkFILE name 0 false).
  rewrite (bind_Ok _ _ _ _ _ (skims_struct (pp_bytes p) 24 Lp s1 f0 (concat (item_bytes <$> items))
    eq_refl eq_refl ltac:(unfold f_rest; simpl; exact Hd))).
  rewrite bind_modify, bind_gets, bind_modify, bind_gets, Fp.
  match goal with |- context [print_loop _ ?st] => set (s2 := st) end.
  destruct (print_loop_ok items (length (h_data (pr_host s) name)) s2 (fwd f0 (length (pp_bytes p))) lss)
    as (s' & H1 & H2).
  { split; try done. unfold f_rest. simpl. rewrite Hd. by rewrite drop_app_length. }
  { done. }
  { rewrite Hd, length_app. pose proof (count_items items). lia. }
  exists s'. split; [exact H1|]. rewrite H2. unfold s2, s1. simpl pr_out. by rewrite <-!app_assoc.
Qed.

(** For a network transfer or a packet the printer reads a variable it never set. *)
Theorem print_network_uninit i s :
  item_lines i = None → ∃ s', rr_spit_log_entry (skim_item i) s = Err UninitRead s'.
Proof.
  destruct i as [p cs b]. unfold item_lines. simpl. intros Hl.
  destruct b as [v|v|v|v|v|v|[]| |]; simpl in Hl; try done; by eexists.
Qed.

End Print.

(** ** Concrete logs *)

Module PrintExamples.
#[local] Existing Instance Demo.target.

Definition items : list log_item :=
  [mkItem (mkPP 4096 1 10) 17 (LInput4 4294967295);
   mkItem (mkPP 4100 2 20) 5 (LCall (LMemRw 8192 77 [Corelib.Init.Byte.x61; Corelib.Init.Byte.x62]));
   mkItem (mkPP 4104 2 30) 5 (LCall (LHd 2 255 4096 512));
   mkItem (mkPP 4200 2 35) 13 LLast].
Definition last_pp : RR_prog_point := mkPP 4200 2 35.
Definition log_file : string := "demo-rr-nondet.log".
Definition pr0 : pr_state :=
  mkPr (Host {[ log_file := pp_bytes last_pp ++ concat (item_bytes <$> items) ]} ∅) None 0 pp_zero 0 [].
Definition item_text : list (list string) := default [] (mapM item_lines items).

Lemma print_log_witness :
  ∃ s', rr_print_main log_file pr0 = Ok () s' ∧
    pr_out s' = pr_out pr0 ++
      ["opened " +:+ log_file +:+ " for read.  len=" +:+ dec (24 + zlen (concat (item_bytes <$> items)))
         +:+ " bytes." +:+ newline;
       "RR Log with " +:+ dec 35 +:+ " instructions" +:+ newline] ++ concat item_text.
Proof.
  apply (print_log pr0 log_file last_pp items item_text).
  - apply (bool_decide_unpack _). vm_compute. exact I.
  - apply (bool_decide_unpack _). vm_compute. exact I.
  - vm_compute. reflexivity.
  - vm_compute. reflexivity.
  - by vm_compute.
Defined.

Lemma print_network_uninit_witness :
  ∃ s', rr_spit_log_entry (skim_item (mkItem (mkPP 4096 1 10) 5 (LCall (LNet 0 1 2 60)))) pr0
        = Err UninitRead s'.
Proof. apply (print_network_uninit (mkItem (mkPP 4096 1 10) 5 (LCall (LNet 0 1 2 60))) pr0). reflexivity. Defined.

(** The second line printed for an entry. *)
Example input_text :
  body_lines 3 (LInput4 4294967295)
  = Some [tab +:+ "RR_INPUT_4 -1 from " +:+ or_null (get_callsite_string 3) +:+ newline].
Proof. vm_compute. reflexivity. Qed.

End PrintExamples.
