(* ===== verification/HostMem.v ===== *)
(** * The emulator's own memory

    The address space of the emulator as a finite map from addresses to bytes:
    guest RAM and the buffers of the devices live in it. An access to an address
    that is not mapped is a fault. Addresses are 64-bit. *)

From S2P Require Import Prelude.
Local Open Scope Z_scope.

Abbreviation hmem := (gmap Z byte).

Fixpoint mem_read (m : hmem) (a : Z) (n : nat) : option (list byte) :=
  match n with
  | O => Some []
  | S n' => b ← m !! a; l ← mem_read m (a + 1) n'; Some (b :: l)
  end.

Fixpoint mem_write (m : hmem) (a : Z) (d : list byte) : hmem :=
  match d with
  | [] => m
  | b :: d' => mem_write (<[a := b]> m) (a + 1) d'
  end.

Fixpoint mem_unmap (m : hmem) (a : Z) (n : nat) : hmem :=
  match n with
  | O => m
  | S n' => mem_unmap (delete a m) (a + 1) n'
  end.

(** The [n] addresses from [a] on. *)
Definition in_range (a n k : Z) : Prop := a ≤ k < a + n.
Definition mapped (m : hmem) (a n : Z) : Prop := ∀ k, in_range a n k → is_Some (m !! k).
Definition unmapped (m : hmem) (a n : Z) : Prop := ∀ k, in_range a n k → m !! k = None.
Definition apart (a n b k : Z) : Prop := ∀ x, in_range a n x → in_range b k x → False.

Lemma apart_sym a n b k : apart a n b k → apart b k a n.
Proof. intros Ha x H1 H2. by apply (Ha x). Qed.

(** ** Lemmas *)

Lemma mem_write_lookup d : ∀ m a k,
  mem_write m a d !! k
  = if decide (a ≤ k < a + Z.of_nat (length d)) then d !! Z.to_nat (k - a) else m !! k.
Proof.
  induction d as [|b d IH]; intros m a k; cbn [mem_write length].
  { by rewrite decide_False by lia. }
  rewrite IH. destruct (decide (k = a)) as [->|Hk].
  { rewrite decide_False by lia. rewrite decide_True by lia.
    rewrite lookup_insert_eq. by rewrite Z.sub_diag. }
  destruct (decide (a + 1 ≤ k < a + 1 + Z.of_nat (length d))).
  - rewrite decide_True by lia. by replace (Z.to_nat (k - a)) with (S (Z.to_nat (k - (a + 1)))) by lia.
  - rewrite decide_False by lia. by apply lookup_insert_ne.
Qed.

Lemma mem_read_Some m n : ∀ a l,
  mem_read m a n = Some l ↔ length l = n ∧ ∀ i, (i < n)%nat → m !! (a + Z.of_nat i) = l !! i.
Proof.
  induction n as [|n IH]; intros a l; cbn [mem_read].
  { split; [intros [= <-]; split; [done|lia]|]. intros [Hl _]. by destruct l. }
  split.
  - destruct (m !! a) as [b|] eqn:Hb; [|done]. simpl. destruct (mem_read m (a + 1) n) as [l'|] eqn:Hr; [|done].
    intros [= <-]. apply IH in Hr as [Hl Hi]. split; [simpl; lia|].
    intros [|i] Hlt; simpl; [by rewrite Z.add_0_r|]. rewrite <-Hi by lia. f_equal. lia.
  - intros [Hl Hi]. destruct l as [|b l]; [done|]. simpl in Hl.
    pose proof (Hi 0%nat ltac:(lia)) as H0. rewrite Z.add_0_r in H0. rewrite H0. simpl.
    rewrite (proj2 (IH (a + 1) l)); [done|]. split; [lia|]. intros i Hlt.
    pose proof (Hi (S i) ltac:(lia)) as HS. simpl in HS. rewrite <-HS. f_equal. lia.
Qed.

Lemma mem_read_length m a n l : mem_read m a n = Some l → length l = n.
Proof. intros H. by apply mem_read_Some in H as [? _]. Qed.

Lemma mem_read_mapped m a n : mapped m a (Z.of_nat n) → is_Some (mem_read m a n).
Proof.
  revert a. induction n as [|n IH]; intros a Hm; cbn [mem_read]; [done|].
  destruct (Hm a) as [b ->]; [unfold in_range; lia|]. simpl.
  destruct (IH (a + 1)) as [l ->]; [|done].
  intros k Hk. apply Hm. unfold in_range in *. lia.
Qed.

Lemma mem_read_ext m m' a n :
  (∀ k, in_range a (Z.of_nat n) k → m' !! k = m !! k) → mem_read m' a n = mem_read m a n.
Proof.
  revert a. induction n as [|n IH]; intros a Hm; cbn [mem_read]; [done|].
  rewrite Hm by (unfold in_range; lia). rewrite IH; [done|].
  intros k Hk. apply Hm. unfold in_range in *. lia.
Qed.

Lemma mem_read_write m a d : mem_read (mem_write m a d) a (length d) = Some d.
Proof.
  apply mem_read_Some. split; [done|]. intros i Hi. rewrite mem_write_lookup.
  rewrite decide_True by lia. f_equal. lia.
Qed.

Lemma mem_read_write_apart m a d b n :
  apart a (Z.of_nat (length d)) b (Z.of_nat n) → mem_read (mem_write m a d) b n = mem_read m b n.
Proof.
  intros Ha. apply mem_read_ext. intros k Hk. rewrite mem_write_lookup, decide_False; [done|].
  intros Hk'. by apply (Ha k).
Qed.

Lemma mapped_write m a d b n : mapped m b n → mapped (mem_write m a d) b n.
Proof.
  intros Hm k Hk. rewrite mem_write_lookup. destruct (decide _); [|by apply Hm].
  apply lookup_lt_is_Some. lia.
Qed.

Lemma mapped_sub m a n b k : a ≤ b → b + k ≤ a + n → mapped m a n → mapped m b k.
Proof. intros H1 H2 Hm x Hx. apply Hm. unfold in_range in *. lia. Qed.

Lemma mem_unmap_lookup n : ∀ m a k,
  mem_unmap m a n !! k = if decide (in_range a (Z.of_nat n) k) then None else m !! k.
Proof.
  induction n as [|n IH]; intros m a k; cbn [mem_unmap]; unfold in_range in *.
  { by rewrite decide_False by lia. }
  rewrite IH. destruct (decide (k = a)) as [->|Hk].
  { rewrite decide_False by lia. rewrite lookup_delete_eq, decide_True by lia. done. }
  rewrite lookup_delete_ne by done.
  destruct (decide (a + 1 ≤ k < _)); [rewrite decide_True by lia|rewrite decide_False by lia]; done.
Qed.

Lemma mem_write_app m a d1 d2 :
  mem_write m a (d1 ++ d2) = mem_write (mem_write m a d1) (a + Z.of_nat (length d1)) d2.
Proof.
  revert m a. induction d1 as [|b d1 IH]; intros m a; cbn [app mem_write length].
  { f_equal. lia. }
  rewrite IH. f_equal. lia.
Qed.
