(* ===== verification/RamList.v ===== *)
(** * Guest RAM ([exec.c], [cpu-all.h])

    The list of RAM blocks, each a range of RAM addresses ([ram_addr_t]) backed
    by a range of the emulator's memory, and the dirty byte of every page.
    Modelled for a host without Xen and KVM and without [-mem-path]: blocks are
    backed by [qemu_vmalloc] or by memory the caller passes. *)

From S2P Require Import Prelude CString HostMem.
Local Open Scope Z_scope.

(** ** Pages *)

Definition TARGET_PAGE_BITS : Z := 12.
Definition TARGET_PAGE_SIZE : Z := Z.shiftl 1 TARGET_PAGE_BITS.
Definition TARGET_PAGE_MASK : Z := Z.lnot (TARGET_PAGE_SIZE - 1).
Definition RAM_ADDR_MAX : Z := 2 ^ 64 - 1.
(** Of a [ram_addr_t]. *)
Definition TARGET_PAGE_ALIGN (addr : Z) : Z :=
  Z.land (wrap 64 (addr + TARGET_PAGE_SIZE - 1)) TARGET_PAGE_MASK.

Definition RAM_PREALLOC_MASK : Z := 1.
Definition CODE_DIRTY_FLAG : Z := 2.

(** ** State *)

Record RAMBlock := mkBlock {
  blk_host : Z;
  blk_offset : Z;
  blk_length : Z;
  blk_flags : Z;
  blk_idstr : string;
}.

Record ram_state := mkRam {
  ram_blocks : list RAMBlock;
  phys_dirty : list Z;
  ram_mem : hmem;
}.
Definition set_ram_blocks (x : list RAMBlock) (s : ram_state) : ram_state :=
  mkRam x (phys_dirty s) (ram_mem s).
Definition set_phys_dirty (x : list Z) (s : ram_state) : ram_state :=
  mkRam (ram_blocks s) x (ram_mem s).
Definition set_ram_mem (x : hmem) (s : ram_state) : ram_state :=
  mkRam (ram_blocks s) (phys_dirty s) x.

Abbreviation RAM := (M ram_state).

(** The host's allocator: where [qemu_vmalloc] puts [n] bytes, if there is room,
    and what fresh memory holds. *)
Class HostAlloc := {
  vmalloc_at : hmem → Z → option Z;
  garbage : Z → byte;
}.
(** Fresh memory is mapped nowhere yet, and is inside the address space. *)
Class HostAllocLaws `{HostAlloc} := {
  vmalloc_fresh : ∀ m n p, vmalloc_at m n = Some p → unmapped m p n;
  vmalloc_range : ∀ m n p, vmalloc_at m n = Some p → 0 < p ∧ p + n < 2 ^ 64;
}.

Section Ram.
Context `{HostAlloc}.

Definition garbage_bytes (a : Z) (n : nat) : list byte := (λ i, garbage (a + Z.of_nat i)) <$> seq 0 n.

(** Without memory the process aborts. *)
Definition qemu_vmalloc (size : Z) : RAM Z :=
  m ← gets ram_mem;
  match vmalloc_at m size with
  | Some p => modify (set_ram_mem (mem_write m p (garbage_bytes p (Z.to_nat size))));; mret p
  | None => fail Abort
  end.

Definition qemu_vfree (p size : Z) : RAM () :=
  modify (λ s, set_ram_mem (mem_unmap (ram_mem s) p (Z.to_nat size)) s).

(** ** Allocation *)

(** The start of the first block at or behind [e]. *)
Definition next_start (bs : list RAMBlock) (e : Z) : Z :=
  foldl (λ nx b, if e <=? blk_offset b then Z.min nx (blk_offset b) else nx) RAM_ADDR_MAX bs.

Definition find_step (bs : list RAMBlock) (size : Z) (acc : Z * Z) (b : RAMBlock) : Z * Z :=
  let '(offset, mingap) := acc in
  let e := wrap 64 (blk_offset b + blk_length b) in
  let gap := wrap 64 (next_start bs e - e) in
  if (size <=? gap) && (gap <? mingap) then (e, gap) else (offset, mingap).

Definition find_ram_offset (size : Z) : RAM Z :=
  bs ← gets ram_blocks;
  match bs with
  | [] => mret 0
  | _ =>
      let '(offset, _) := foldl (find_step bs size) (RAM_ADDR_MAX, RAM_ADDR_MAX) bs in
      assert_or Abort (negb (offset =? RAM_ADDR_MAX));; mret offset
  end.

Definition last_ram_offset (bs : list RAMBlock) : Z :=
  foldl (λ l b, Z.max l (wrap 64 (blk_offset b + blk_length b))) 0 bs.

(** [snprintf(idstr, 256, "%s/", id)] when the device has a path, then
    [pstrcat(idstr, 256, name)]. *)
Definition block_idstr (id : option string) (name : string) : string :=
  let pre := match id with Some i => snprintf 256 (i +:+ "/") | None => "" end in
  snprintf 256 (pre +:+ name).

(** [g_realloc] of the dirty bytes, then 0xff for the pages of the new block. *)
Definition fill_dirty (offset size n : Z) (d : list Z) : list Z :=
  let d' := take (Z.to_nat n) d ++ ((λ i, byte_to_Z (garbage (Z.of_nat i))) <$> seq (length d) (Z.to_nat n - length d)) in
  let first := Z.to_nat (Z.shiftr offset TARGET_PAGE_BITS) in
  let count := Z.to_nat (Z.shiftr size TARGET_PAGE_BITS) in
  take first d' ++ replicate count 255 ++ drop (first + count) d'.

Definition qemu_ram_alloc_from_ptr (id : option string) (name : string) (size : Z)
    (host : option Z) : RAM Z :=
  let size := TARGET_PAGE_ALIGN size in
  let idstr := block_idstr id name in
  bs ← gets ram_blocks;
  assert_or Abort (forallb (λ b, negb (bool_decide (blk_idstr b = idstr))) bs);;
  offset ← find_ram_offset size;
  p ← (match host with Some p => mret (p, RAM_PREALLOC_MASK) | None => p ← qemu_vmalloc size; mret (p, 0) end);
  let b := mkBlock p.1 offset size p.2 idstr in
  modify (set_ram_blocks (b :: bs));;
  let n := Z.shiftr (last_ram_offset (b :: bs)) TARGET_PAGE_BITS in
  let first := Z.shiftr offset TARGET_PAGE_BITS in
  let count := Z.shiftr size TARGET_PAGE_BITS in
  assert_or OutOfBounds (first + count <=? n);;
  modify (λ s, set_phys_dirty (fill_dirty offset size n (phys_dirty s)) s);;
  mret offset.

Definition qemu_ram_alloc (id : option string) (name : string) (size : Z) : RAM Z :=
  qemu_ram_alloc_from_ptr id name size None.

Fixpoint remove_block (addr : Z) (bs : list RAMBlock) : option (RAMBlock * list RAMBlock) :=
  match bs with
  | [] => None
  | b :: bs' =>
      if addr =? blk_offset b then Some (b, bs')
      else '(x, l) ← remove_block addr bs'; Some (x, b :: l)
  end.

Definition qemu_ram_free_from_ptr (addr : Z) : RAM () :=
  bs ← gets ram_blocks;
  match remove_block addr bs with
  | Some (_, bs') => modify (set_ram_blocks bs')
  | None => mret ()
  end.

Definition qemu_ram_free (addr : Z) : RAM () :=
  bs ← gets ram_blocks;
  match remove_block addr bs with
  | Some (b, bs') =>
      modify (set_ram_blocks bs');;
      if Z.land (blk_flags b) RAM_PREALLOC_MASK =? 0 then qemu_vfree (blk_host b) (blk_length b) else mret ()
  | None => mret ()
  end.

(** ** Translation *)

Definition in_block (addr : Z) (b : RAMBlock) : bool := wrap 64 (addr - blk_offset b) <? blk_length b.
Definition host_in (addr : Z) (b : RAMBlock) : Z := blk_host b + wrap 64 (addr - blk_offset b).

(** The block moves to the front of the list. *)
Definition qemu_get_ram_ptr (addr : Z) : RAM Z :=
  bs ← gets ram_blocks;
  match list_find (λ b, in_block addr b = true) bs with
  | Some (i, b) => modify (set_ram_blocks (b :: delete i bs));; mret (host_in addr b)
  | None => fail Abort
  end.

Definition qemu_safe_ram_ptr (addr : Z) : RAM Z :=
  bs ← gets ram_blocks;
  match list_find (λ b, in_block addr b = true) bs with
  | Some (_, b) => mret (host_in addr b)
  | None => fail Abort
  end.

(** Returns the pointer (null for no bytes) and the new [*size]. *)
Definition qemu_ram_ptr_length (addr size : Z) : RAM (option Z * Z) :=
  if size =? 0 then mret (None, 0) else
  bs ← gets ram_blocks;
  match list_find (λ b, in_block addr b = true) bs with
  | Some (_, b) =>
      let size' :=
        if blk_length b <? wrap 64 (wrap 64 (addr - blk_offset b) + size)
        then wrap 64 (blk_length b - addr + blk_offset b) else size in
      mret (Some (host_in addr b), size')
  | None => fail Abort
  end.

Definition backs (ptr : Z) (b : RAMBlock) : bool :=
  negb (blk_host b =? 0) && (wrap 64 (ptr - blk_host b) <? blk_length b).

Definition qemu_ram_addr_from_host (ptr : Z) (s : ram_state) : option Z :=
  match list_find (λ b, backs ptr b = true) (ram_blocks s) with
  | Some (_, b) => Some (wrap 64 (blk_offset b + wrap 64 (ptr - blk_host b)))
  | None => None
  end.

Definition qemu_ram_addr_from_host_nofail (ptr : Z) : RAM Z :=
  r ← gets (qemu_ram_addr_from_host ptr);
  match r with Some a => mret a | None => fail Abort end.

(** ** Dirty bytes *)

Definition page_index (addr : Z) : Z := Z.shiftr addr TARGET_PAGE_BITS.

Definition cpu_physical_memory_get_dirty_flags (addr : Z) : RAM Z :=
  d ← gets phys_dirty; at_idx d (page_index addr).
Definition cpu_physical_memory_is_dirty (addr : Z) : RAM bool :=
  v ← cpu_physical_memory_get_dirty_flags addr; mret (v =? 255).
Definition cpu_physical_memory_get_dirty (addr dirty_flags : Z) : RAM Z :=
  v ← cpu_physical_memory_get_dirty_flags addr; mret (Z.land v dirty_flags).
Definition set_dirty_byte (addr : Z) (f : Z → Z) : RAM () :=
  v ← cpu_physical_memory_get_dirty_flags addr;
  modify (λ s, set_phys_dirty (<[Z.to_nat (page_index addr) := f v]> (phys_dirty s)) s).
Definition cpu_physical_memory_set_dirty (addr : Z) : RAM () := set_dirty_byte addr (λ _, 255).
Definition cpu_physical_memory_set_dirty_flags (addr dirty_flags : Z) : RAM () :=
  set_dirty_byte addr (λ v, wrap 8 (Z.lor v dirty_flags)).

(** ** Lemmas: pages *)

Lemma wrap_neg w z : - 2 ^ w ≤ z < 0 → wrap w z = z + 2 ^ w.
Proof. intros Hz. symmetry. apply (Zmod_unique _ _ (-1)); lia. Qed.

Lemma page_mask a : Z.land a TARGET_PAGE_MASK = a - a mod 4096.
Proof.
  change TARGET_PAGE_MASK with (Z.lnot (Z.ones 12)). rewrite <-Z.ldiff_land, Z.ldiff_ones_r by lia.
  rewrite Z.shiftl_mul_pow2, Z.shiftr_div_pow2 by lia. change (2 ^ 12) with 4096.
  pose proof (Z.div_mod a 4096 ltac:(lia)). lia.
Qed.

Lemma page_offset a : Z.land a (Z.lnot TARGET_PAGE_MASK) = a mod 4096.
Proof.
  unfold TARGET_PAGE_MASK. rewrite Z.lnot_involutive. change (TARGET_PAGE_SIZE - 1) with (Z.ones 12).
  by rewrite Z.land_ones by lia.
Qed.

Lemma page_index_div a : page_index a = a / 4096.
Proof. unfold page_index. by rewrite Z.shiftr_div_pow2. Qed.

Lemma page_align a : 0 ≤ a ≤ 2 ^ 64 - 4096 →
  a ≤ TARGET_PAGE_ALIGN a < a + 4096 ∧ TARGET_PAGE_ALIGN a mod 4096 = 0.
Proof.
  intros Ha. unfold TARGET_PAGE_ALIGN. rewrite page_mask. change TARGET_PAGE_SIZE with 4096.
  rewrite wrap_small by (unfold in_width; lia).
  pose proof (Z.mod_pos_bound (a + 4096 - 1) 4096). split; [lia|].
  rewrite Zminus_mod, Z.mod_mod, Z.sub_diag by lia. done.
Qed.

(** ** Lemmas: blocks *)

Definition block_ok (b : RAMBlock) : Prop :=
  0 ≤ blk_offset b ∧ 0 ≤ blk_length b ∧ blk_offset b + blk_length b ≤ RAM_ADDR_MAX ∧
  blk_offset b mod 4096 = 0 ∧ blk_length b mod 4096 = 0 ∧
  0 < blk_host b ∧ blk_host b + blk_length b < 2 ^ 64.

(** One range ends before the other begins. *)
Definition clear_of (a n b k : Z) : Prop := a + n ≤ b ∨ b + k ≤ a.

Definition blocks_apart (b c : RAMBlock) : Prop :=
  clear_of (blk_offset b) (blk_length b) (blk_offset c) (blk_length c) ∧
  apart (blk_host b) (blk_length b) (blk_host c) (blk_length c).

Fixpoint all_apart (bs : list RAMBlock) : Prop :=
  match bs with [] => True | b :: bs' => Forall (blocks_apart b) bs' ∧ all_apart bs' end.

Record ram_ok (s : ram_state) : Prop := {
  ro_blocks : Forall block_ok (ram_blocks s);
  ro_apart : all_apart (ram_blocks s);
  ro_mapped : Forall (λ b, mapped (ram_mem s) (blk_host b) (blk_length b)) (ram_blocks s);
  ro_names : NoDup (blk_idstr <$> ram_blocks s);
  ro_dirty : Forall (λ b, blk_offset b + blk_length b ≤ 4096 * Z.of_nat (length (phys_dirty s))) (ram_blocks s);
  ro_bytes : Forall (in_width 8) (phys_dirty s);
}.

Lemma blocks_apart_sym b c : blocks_apart b c → blocks_apart c b.
Proof. intros [Hc Ha]. split; [unfold clear_of in *; lia|by apply apart_sym]. Qed.

Lemma all_apart_perm bs cs : bs ≡ₚ cs → all_apart bs → all_apart cs.
Proof.
  induction 1 as [|b bs cs Hp IH|b c bs|bs cs ds _ IH1 _ IH2]; simpl; auto.
  - intros [Hb Ha]. split; [by rewrite <-Hp|auto].
  - intros [Hc [Hb Ha]]. apply Forall_cons in Hc as [Hcb Hc].
    split; [|done]. apply Forall_cons. split; [by apply blocks_apart_sym|done].
Qed.

Lemma in_block_range addr b :
  in_width 64 addr → block_ok b → in_block addr b = true ↔ in_range (blk_offset b) (blk_length b) addr.
Proof.
  intros Ha (H1 & H2 & H3 & _). unfold in_block, in_range, in_width, RAM_ADDR_MAX in *.
  rewrite Z.ltb_lt. destruct (decide (blk_offset b ≤ addr)).
  - rewrite wrap_small by (unfold in_width; lia). lia.
  - rewrite wrap_neg by lia. lia.
Qed.

Lemma backs_range ptr b :
  in_width 64 ptr → block_ok b → backs ptr b = true ↔ in_range (blk_host b) (blk_length b) ptr.
Proof.
  intros Ha (_ & H2 & _ & _ & _ & H3 & H4). unfold backs, in_range, in_width in *.
  rewrite (proj2 (Z.eqb_neq _ _)) by lia. simpl. rewrite Z.ltb_lt. destruct (decide (blk_host b ≤ ptr)).
  - rewrite wrap_small by (unfold in_width; lia). lia.
  - rewrite wrap_neg by lia. lia.
Qed.

(** At most one element of a list with [P]: the one that is found does not
    depend on the order. *)
Definition sole {A} (P : A → Prop) (l : list A) : Prop :=
  ∀ i j x y, l !! i = Some x → l !! j = Some y → P x → P y → i = j.

Lemma find_sole {A} (P : A → Prop) `{∀ x, Decision (P x)} l i x :
  sole P l → l !! i = Some x → P x → list_find P l = Some (i, x).
Proof.
  intros Hs Hl Hx. apply list_find_Some. split_and!; [done..|].
  intros j y Hy Hji Hpy. rewrite (Hs j i y x Hy Hl Hpy Hx) in Hji. lia.
Qed.

(** [owner addr s b]: [b] is the block [addr] lies in. *)
Definition owner (addr : Z) (s : ram_state) (b : RAMBlock) : Prop :=
  b ∈ ram_blocks s ∧ in_range (blk_offset b) (blk_length b) addr.

Lemma apart_sole (P : RAMBlock → Prop) s :
  (∀ b c, block_ok b → block_ok c → blocks_apart b c → P b → P c → False) →
  ram_ok s → sole P (ram_blocks s).
Proof.
  intros HP [Hb Ha _ _ _ _]. induction (ram_blocks s) as [|b bs IH]; [intros i j x y Hi; done|].
  apply Forall_cons in Hb as [Hb Hbs]. destruct Ha as [Hap Ha].
  assert (Hno : ∀ i c, bs !! i = Some c → P b → P c → False).
  { intros i c Hc. apply HP; [done|by eapply (Forall_lookup_1 _ _ _ _ Hbs)|].
    by apply (Forall_lookup_1 _ _ _ _ Hap Hc). }
  intros [|i] [|j] x y; simpl; intros Hi Hj Hx Hy; simplify_eq; [done|exfalso; eauto..|].
  f_equal. by eapply (IH Hbs Ha).
Qed.

Lemma in_block_sole addr s :
  in_width 64 addr → ram_ok s → sole (λ b, in_block addr b = true) (ram_blocks s).
Proof.
  intros Hw. apply apart_sole. intros b c Hb Hc [Ha _] H1 H2.
  apply in_block_range in H1; [|done..]. apply in_block_range in H2; [|done..].
  unfold clear_of, in_range in *. lia.
Qed.

Lemma backs_sole ptr s :
  in_width 64 ptr → ram_ok s → sole (λ b, backs ptr b = true) (ram_blocks s).
Proof.
  intros Hw. apply apart_sole. intros b c Hb Hc [_ Ha] H1 H2.
  apply backs_range in H1; [|done..]. apply backs_range in H2; [|done..]. by apply (Ha ptr).
Qed.

Lemma owner_found addr s b :
  in_width 64 addr → ram_ok s → owner addr s b →
  ∃ i, list_find (λ b, in_block addr b = true) (ram_blocks s) = Some (i, b) ∧ ram_blocks s !! i = Some b.
Proof.
  intros Hw Hok [Hin Hr]. apply list_elem_of_lookup in Hin as [i Hi]. exists i. split; [|done].
  apply find_sole; [by apply in_block_sole|done|]. apply in_block_range; [done| |done].
  by eapply (Forall_lookup_1 _ _ _ _ (ro_blocks _ Hok)).
Qed.

Lemma owner_host addr s b :
  in_width 64 addr → ram_ok s → owner addr s b → host_in addr b = blk_host b + (addr - blk_offset b).
Proof.
  intros Hw Hok [Hin Hr]. unfold host_in. rewrite wrap_small; [done|].
  pose proof (proj1 (Forall_forall _ _) (ro_blocks _ Hok) b Hin) as (H1 & _).
  unfold in_width, in_range in *. lia.
Qed.

(** The order of the blocks is all that a lookup changes. *)
Record ram_eqv (s s' : ram_state) : Prop := {
  re_blocks : ram_blocks s ≡ₚ ram_blocks s';
  re_dirty : phys_dirty s = phys_dirty s';
  re_mem : ram_mem s = ram_mem s';
}.
#[global] Instance ram_eqv_equiv : Equivalence ram_eqv.
Proof.
  split.
  - by split.
  - intros x y []. by split.
  - intros x y z [A1 A2 A3] [B1 B2 B3]. split; [by trans (ram_blocks y)|congruence..].
Qed.
#[global] Instance ram_ok_proper : Proper (ram_eqv ==> iff) ram_ok.
Proof.
  assert (Hone : ∀ s s', ram_eqv s s' → ram_ok s → ram_ok s').
  { intros s s' [Hb Hd Hm] [H1 H2 H3 H4 H5 H6]. rewrite Hd, Hm in *.
    split; [by rewrite <-Hb|by eapply all_apart_perm|by rewrite <-Hb|by rewrite <-Hb|by rewrite <-Hb|done]. }
  intros s s' He. split; apply Hone; [done|by symmetry].
Qed.
#[global] Instance owner_proper addr : Proper (ram_eqv ==> (=) ==> iff) (owner addr).
Proof. intros s s' [Hb _ _] b ? <-. unfold owner. by rewrite Hb. Qed.

Lemma get_ram_ptr_ok addr s b :
  in_width 64 addr → ram_ok s → owner addr s b →
  ∃ s', qemu_get_ram_ptr addr s = Ok (blk_host b + (addr - blk_offset b)) s' ∧ ram_eqv s s'.
Proof.
  intros Hw Hok Ho. destruct (owner_found addr s b Hw Hok Ho) as (i & Hf & Hi).
  unfold qemu_get_ram_ptr. rewrite bind_gets, Hf, bind_modify. eexists. rewrite <-(owner_host addr s b) by done.
  split; [reflexivity|]. split; try done. simpl. by apply delete_Permutation.
Qed.

Lemma no_owner_found addr s :
  in_width 64 addr → ram_ok s → (∀ b, ¬ owner addr s b) →
  list_find (λ b, in_block addr b = true) (ram_blocks s) = None.
Proof.
  intros Hw Hok Hno. apply list_find_None, Forall_forall. intros b Hin Hb.
  apply (Hno b). split; [done|]. apply in_block_range in Hb; [done..|].
  by apply (proj1 (Forall_forall _ _) (ro_blocks _ Hok)).
Qed.

Lemma all_apart_elem bs b c : all_apart bs → b ∈ bs → c ∈ bs → b = c ∨ blocks_apart b c.
Proof.
  induction bs as [|x bs IH]; [by intros _ ?%elem_of_nil|]. intros [Hx Ha] Hb Hc.
  apply elem_of_cons in Hb as [->|Hb]; apply elem_of_cons in Hc as [->|Hc]; auto.
  - right. by apply (proj1 (Forall_forall _ _) Hx).
  - right. apply blocks_apart_sym. by apply (proj1 (Forall_forall _ _) Hx).
Qed.

(** ** Lemmas: the gap that is chosen *)

Lemma next_start_spec bs e :
  next_start bs e ≤ RAM_ADDR_MAX ∧ (e ≤ RAM_ADDR_MAX → e ≤ next_start bs e) ∧
  Forall (λ b, e ≤ blk_offset b → next_start bs e ≤ blk_offset b) bs.
Proof.
  unfold next_start. induction bs as [|b bs IH] using rev_ind; [by split_and!|].
  rewrite foldl_snoc. destruct IH as (H1 & H2 & H3). set (nx := foldl _ _ bs) in *.
  destruct (Z.leb_spec e (blk_offset b)); (split_and!; [lia..|]); apply Forall_app.
  - split; [eapply Forall_impl; [exact H3|]; simpl; lia|apply Forall_singleton; lia].
  - split; [done|apply Forall_singleton; lia].
Qed.

Definition block_end (b : RAMBlock) : Z := blk_offset b + blk_length b.
Definition gap_after (bs : list RAMBlock) (b : RAMBlock) : Z := next_start bs (block_end b) - block_end b.

Lemma block_end_wrap b : block_ok b → wrap 64 (blk_offset b + blk_length b) = block_end b.
Proof. intros (H1 & H2 & H3 & _). apply wrap_small. unfold in_width, RAM_ADDR_MAX, block_end in *. lia. Qed.

Lemma gap_wrap bs b : block_ok b → wrap 64 (next_start bs (block_end b) - block_end b) = gap_after bs b.
Proof.
  intros (H1 & H2 & H3 & _). destruct (next_start_spec bs (block_end b)) as (N1 & N2 & _).
  apply wrap_small. unfold in_width, gap_after, RAM_ADDR_MAX, block_end in *. lia.
Qed.

(** The choice after the blocks [ds]: the end of the block with the smallest
    gap that is large enough, the first of these in list order. *)
Lemma find_fold bs size ds :
  Forall block_ok ds → 0 ≤ size →
  let '(offset, mingap) := foldl (find_step bs size) (RAM_ADDR_MAX, RAM_ADDR_MAX) ds in
  mingap ≤ RAM_ADDR_MAX ∧
  (Forall (λ b, size ≤ gap_after bs b → mingap ≤ gap_after bs b) ds) ∧
  ((offset = RAM_ADDR_MAX ∧ mingap = RAM_ADDR_MAX) ∨
   (∃ b, b ∈ ds ∧ offset = block_end b ∧ mingap = gap_after bs b ∧ size ≤ mingap)).
Proof.
  intros Hok Hsz. induction ds as [|b ds IH] using rev_ind; [by split_and!; [|constructor|left]|].
  apply Forall_app in Hok as [Hok Hb]. rewrite Forall_singleton in Hb. rewrite foldl_snoc.
  specialize (IH Hok). destruct (foldl _ _ ds) as [o g]. destruct IH as (I1 & I2 & I3).
  unfold find_step. rewrite block_end_wrap, gap_wrap by done.
  destruct (Z.leb_spec size (gap_after bs b)); destruct (Z.ltb_spec (gap_after bs b) g); simpl.
  1: { split_and!; [lia| |right; exists b; split_and!; [set_solver|done|done|lia]].
       apply Forall_app. split; [|apply Forall_singleton; lia].
       eapply Forall_impl; [exact I2|]. simpl. lia. }
  all: split_and!; [lia| |destruct I3 as [|(c & Hc & ?)]; [by left|right; exists c; set_solver]].
  all: apply Forall_app; split; [done|apply Forall_singleton; lia].
Qed.

Lemma gap_is_clear bs b size :
  Forall block_ok bs → all_apart bs → b ∈ bs → size ≤ gap_after bs b →
  Forall (λ c, clear_of (block_end b) size (blk_offset c) (blk_length c)) bs.
Proof.
  intros Hok Ha Hb Hs. apply Forall_forall. intros c Hc.
  destruct (proj1 (Forall_forall _ _) Hok b Hb) as (B1 & B2 & B3 & _).
  destruct (next_start_spec bs (block_end b)) as (N1 & N2 & N3).
  pose proof (proj1 (Forall_forall _ _) N3 c Hc) as Nc. simpl in Nc.
  unfold clear_of, gap_after, block_end in *.
  destruct (all_apart_elem bs b c Ha Hb Hc) as [->|[[Hap|Hap] _]]; lia.
Qed.

Lemma block_end_aligned b : block_ok b → block_end b mod 4096 = 0.
Proof.
  intros (_ & _ & _ & H1 & H2 & _). unfold block_end. rewrite Z.add_mod, H1, H2 by lia. done.
Qed.

(** The place for a new block: 0 in an empty list; else the end of the block
    with the smallest gap behind it that is large enough. It overlaps no block.
    The process aborts when there is no such gap. *)
Lemma find_ram_offset_spec size s :
  ram_ok s → 0 ≤ size ≤ RAM_ADDR_MAX →
  match find_ram_offset size s with
  | Ok offset s' =>
      s' = s ∧ 0 ≤ offset ∧ offset mod 4096 = 0 ∧ offset + size ≤ RAM_ADDR_MAX ∧
      Forall (λ b, clear_of offset size (blk_offset b) (blk_length b)) (ram_blocks s) ∧
      (ram_blocks s = [] ∨
       ∃ b, b ∈ ram_blocks s ∧ offset = block_end b ∧
         Forall (λ c, size ≤ gap_after (ram_blocks s) c →
                      gap_after (ram_blocks s) b ≤ gap_after (ram_blocks s) c) (ram_blocks s))
  | Err e s' =>
      e = Abort ∧ s' = s ∧
      Forall (λ b, gap_after (ram_blocks s) b < size) (ram_blocks s)
  end.
Proof.
  intros Hok Hsz. unfold find_ram_offset. rewrite bind_gets.
  pose proof (find_fold (ram_blocks s) size (ram_blocks s) (ro_blocks _ Hok) ltac:(lia)) as Hf.
  destruct (ram_blocks s) as [|b0 bs0] eqn:Eb; [repeat split; [lia..|constructor|by left]|].
  rewrite <-Eb in *. destruct (foldl _ _ _) as [o g]. destruct Hf as (F1 & F2 & F3).
  destruct F3 as [[-> ->]|(b & Hb & -> & -> & Hg)].
  - simpl. split_and!; [done..|]. apply Forall_forall. intros c Hc.
    pose proof (proj1 (Forall_forall _ _) F2 c Hc) as Hg.
    pose proof (proj1 (Forall_forall _ _) (ro_blocks _ Hok) c Hc) as (B1 & B2 & _).
    destruct (next_start_spec (ram_blocks s) (block_end c)) as (N1 & _ & N3).
    pose proof (proj1 (Forall_forall _ _) N3 c Hc) as Nc. simpl in *.
    unfold gap_after, block_end, RAM_ADDR_MAX in *. lia.
  - pose proof (proj1 (Forall_forall _ _) (ro_blocks _ Hok) b Hb) as Hbo.
    pose proof (block_end_aligned b Hbo) as Hal. pose proof Hbo as (B1 & B2 & B3 & _).
    rewrite (proj2 (Z.eqb_neq _ _)) by (intros E; rewrite E in Hal; by vm_compute in Hal).
    rewrite (bind_Ok _ _ _ _ _ (assert_true Abort true _ eq_refl)).
    destruct (next_start_spec (ram_blocks s) (block_end b)) as (N1 & _).
    split_and!; [done|unfold block_end; lia|done|unfold gap_after in Hg; lia| |right; eauto].
    by apply gap_is_clear; [apply Hok..|done|done].
Qed.

(** ** Lemmas: the dirty bytes of a new block *)

Lemma last_ram_offset_spec bs :
  Forall block_ok bs →
  Forall (λ b, block_end b ≤ last_ram_offset bs) bs ∧
  0 ≤ last_ram_offset bs ∧ last_ram_offset bs mod 4096 = 0.
Proof.
  intros Hok. unfold last_ram_offset. induction bs as [|b bs IH] using rev_ind; [by split_and!|].
  apply Forall_app in Hok as [Hok Hb]. rewrite Forall_singleton in Hb. rewrite foldl_snoc.
  destruct (IH Hok) as (I1 & I2 & I3). set (l := foldl _ _ bs) in *. rewrite block_end_wrap by done.
  split_and!; [|lia|].
  - apply Forall_app. split; [|apply Forall_singleton; lia].
    eapply Forall_impl; [exact I1|]. simpl. lia.
  - destruct (Z.max_spec l (block_end b)) as [[_ ->]|[_ ->]]; [by apply block_end_aligned|done].
Qed.

Lemma fill_dirty_spec offset size n d :
  0 ≤ offset → 0 ≤ size → offset mod 4096 = 0 → size mod 4096 = 0 → offset + size ≤ 4096 * n →
  Forall (in_width 8) d →
  let d' := fill_dirty offset size n d in
  length d' = Z.to_nat n ∧ Forall (in_width 8) d' ∧
  ∀ i, (i < Z.to_nat n)%nat →
    (in_range offset size (4096 * Z.of_nat i) → d' !! i = Some 255) ∧
    (¬ in_range offset size (4096 * Z.of_nat i) → (i < length d)%nat → d' !! i = d !! i).
Proof.
  intros Ho Hs Hoa Hsa Hn Hd. unfold fill_dirty. cbv zeta.
  rewrite !Z.shiftr_div_pow2 by done. change (2 ^ TARGET_PAGE_BITS) with 4096.
  set (x := take (Z.to_nat n) d ++ _).
  assert (Hx : length x = Z.to_nat n).
  { unfold x. rewrite length_app, length_take, length_fmap, length_seq. lia. }
  assert (Hxw : Forall (in_width 8) x).
  { apply Forall_app. split; [by apply Forall_take|]. apply Forall_fmap, Forall_forall.
    intros ? _. apply byte_to_Z_range. }
  assert (Hxi : ∀ i, (i < Z.to_nat n)%nat → (i < length d)%nat → x !! i = d !! i).
  { intros i Hi Hid. unfold x. rewrite lookup_app_l by (rewrite length_take; lia). by apply lookup_take_lt. }
  pose proof (Z.div_mod offset 4096 ltac:(lia)). pose proof (Z.div_mod size 4096 ltac:(lia)).
  set (first := Z.to_nat (offset / 4096)). set (count := Z.to_nat (size / 4096)).
  assert (0 ≤ offset / 4096) by (by apply Z.div_pos). assert (0 ≤ size / 4096) by (by apply Z.div_pos).
  assert (Hfc : (first + count ≤ Z.to_nat n)%nat) by lia.
  assert (Hft : length (take first x) = first) by (rewrite length_take; lia).
  split_and!.
  - rewrite !length_app, Hft, length_replicate, length_drop. lia.
  - repeat (apply Forall_app; split); [by apply Forall_take| |by apply Forall_drop].
    by apply Forall_replicate.
  - intros i Hi. unfold in_range. split.
    + intros Hr. rewrite lookup_app_r, Hft by lia. rewrite lookup_app_l by (rewrite length_replicate; lia).
      apply lookup_replicate_2. lia.
    + intros Hr Hid. rewrite <-Hxi by done. destruct (decide (i < first)%nat).
      * rewrite lookup_app_l by lia. by apply lookup_take_lt.
      * rewrite lookup_app_r, Hft by lia. rewrite lookup_app_r; rewrite length_replicate; [|lia].
        rewrite lookup_drop. f_equal. lia.
Qed.

Lemma page_in_range off n a :
  off mod 4096 = 0 → n mod 4096 = 0 → in_range off n a ↔ in_range off n (4096 * (a / 4096)).
Proof.
  intros Ho Hn. unfold in_range.
  pose proof (Z.div_mod off 4096 ltac:(lia)). pose proof (Z.div_mod n 4096 ltac:(lia)).
  pose proof (Z.div_mod a 4096 ltac:(lia)). pose proof (Z.mod_pos_bound a 4096 ltac:(lia)). lia.
Qed.

Lemma page_nat a : 0 ≤ a → 4096 * Z.of_nat (Z.to_nat (page_index a)) = 4096 * (a / 4096).
Proof. intros Ha. rewrite page_index_div, Z2Nat.id; [done|]. by apply Z.div_pos. Qed.

(** Memory the caller passes for a block: mapped, and not backing another one. *)
Definition host_free (p n : Z) (s : ram_state) : Prop :=
  0 < p ∧ p + n < 2 ^ 64 ∧ mapped (ram_mem s) p n ∧
  Forall (λ b, apart p n (blk_host b) (blk_length b)) (ram_blocks s).

(** The backing memory of a new block. *)
Definition block_memory (host : option Z) (size : Z) : RAM (Z * Z) :=
  match host with
  | Some p => mret (p, RAM_PREALLOC_MASK)
  | None => p ← qemu_vmalloc size; mret (p, 0)
  end.

Lemma length_garbage a n : length (garbage_bytes a n) = n.
Proof. unfold garbage_bytes. by rewrite length_fmap, length_seq. Qed.

Lemma block_memory_ok `{!HostAllocLaws} host size s :
  ram_ok s → 0 ≤ size → (∀ p, host = Some p → host_free p size s) →
  match block_memory host size s with
  | Ok p s' =>
      ram_blocks s' = ram_blocks s ∧ phys_dirty s' = phys_dirty s ∧ host_free p.1 size s' ∧
      Forall (λ b, mapped (ram_mem s') (blk_host b) (blk_length b)) (ram_blocks s) ∧
      Forall (λ b, ∀ x, in_range (blk_host b) (blk_length b) x → ram_mem s' !! x = ram_mem s !! x) (ram_blocks s)
  | Err e s' => e = Abort ∧ s' = s
  end.
Proof.
  intros Hok Hsz Hh. unfold block_memory. destruct host as [p|].
  - cbn. split_and!; [done..|by apply Hh|apply (ro_mapped _ Hok)|by apply Forall_true].
  - unfold qemu_vmalloc. rewrite bind_assoc, bind_gets.
    destruct (vmalloc_at (ram_mem s) size) as [p|] eqn:Ep; [|done].
    pose proof (vmalloc_fresh _ _ _ Ep) as Hfr. destruct (vmalloc_range _ _ _ Ep) as [Hp1 Hp2].
    rewrite bind_assoc, bind_modify, bind_ret. cbn.
    assert (Hap : Forall (λ b, apart p size (blk_host b) (blk_length b)) (ram_blocks s)).
    { eapply Forall_impl; [apply (ro_mapped _ Hok)|]. intros b Hm x H1 H2. destruct (Hm x H2) as [y Hy].
      by rewrite (Hfr x H1) in Hy. }
    split_and!; try done.
    + split_and!; try done. intros x Hx. cbn. rewrite mem_write_lookup, length_garbage, decide_True
        by (unfold in_range in Hx; lia).
      apply lookup_lt_is_Some. rewrite length_garbage. unfold in_range in Hx. lia.
    + eapply Forall_impl; [apply (ro_mapped _ Hok)|]. intros b. apply mapped_write.
    + eapply Forall_impl; [exact Hap|]. intros b Hb x Hx. rewrite mem_write_lookup, decide_False; [done|].
      rewrite length_garbage. intros ?. apply (Hb x); [unfold in_range; lia|done].
Qed.

Lemma name_free_spec bs i :
  forallb (λ b, negb (bool_decide (blk_idstr b = i))) bs = true → i ∉ blk_idstr <$> bs.
Proof.
  intros Hn Hin. apply list_elem_of_fmap in Hin as (b & -> & Hb).
  rewrite forallb_forall in Hn. specialize (Hn b). rewrite bool_decide_true in Hn by done.
  discriminate Hn. by apply list_elem_of_In.
Qed.

(** A new block in front of the list, with the dirty bytes resized. *)
Lemma add_block_ok b s s1 :
  ram_ok s → block_ok b → ram_blocks s1 = ram_blocks s → phys_dirty s1 = phys_dirty s →
  blk_idstr b ∉ blk_idstr <$> ram_blocks s →
  Forall (λ c, clear_of (blk_offset b) (blk_length b) (blk_offset c) (blk_length c)) (ram_blocks s) →
  host_free (blk_host b) (blk_length b) s1 →
  Forall (λ c, mapped (ram_mem s1) (blk_host c) (blk_length c)) (ram_blocks s) →
  let n := Z.shiftr (last_ram_offset (b :: ram_blocks s)) TARGET_PAGE_BITS in
  blk_offset b + blk_length b ≤ 4096 * n ∧
  ram_ok (mkRam (b :: ram_blocks s) (fill_dirty (blk_offset b) (blk_length b) n (phys_dirty s)) (ram_mem s1)).
Proof.
  intros Hok Hb E1 E2 Hn Hc (P1 & P2 & P3 & P4) Hm n. rewrite E1 in P4.
  destruct (last_ram_offset_spec (b :: ram_blocks s)) as (L1 & L2 & L3); [constructor; [done|apply Hok]|].
  assert (Hn4 : 4096 * n = last_ram_offset (b :: ram_blocks s)).
  { unfold n. rewrite Z.shiftr_div_pow2 by done. change (2 ^ TARGET_PAGE_BITS) with 4096.
    pose proof (Z.div_mod (last_ram_offset (b :: ram_blocks s)) 4096 ltac:(lia)). lia. }
  assert (Hbn : blk_offset b + blk_length b ≤ 4096 * n).
  { apply Forall_cons in L1 as [L1 _]. unfold block_end in L1. lia. }
  destruct Hb as (B1 & B2 & B3 & B4 & B5 & B6).
  destruct (fill_dirty_spec (blk_offset b) (blk_length b) n (phys_dirty s)) as (D1 & D2 & _);
    [done..|apply Hok|].
  split; [done|]. split; simpl.
  - constructor; [done|apply Hok].
  - split; [|apply Hok]. apply Forall_forall. intros c Hin. split.
    + by apply (proj1 (Forall_forall _ _) Hc).
    + by apply (proj1 (Forall_forall _ _) P4).
  - by constructor.
  - constructor; [done|apply Hok].
  - rewrite D1. eapply Forall_impl; [exact L1|]. intros c Hcl. unfold block_end in Hcl. lia.
  - done.
Qed.

(** The dirty bytes after a block was added. *)
Lemma added_dirty b s s' k :
  ram_ok s → ram_ok s' → block_ok b → ram_blocks s' = b :: ram_blocks s →
  phys_dirty s' = fill_dirty (blk_offset b) (blk_length b) k (phys_dirty s) →
  blk_offset b + blk_length b ≤ 4096 * k →
  Forall (λ c, clear_of (blk_offset b) (blk_length b) (blk_offset c) (blk_length c)) (ram_blocks s) →
  (∀ a, in_range (blk_offset b) (blk_length b) a → cpu_physical_memory_is_dirty a s' = Ok true s') ∧
  Forall (λ c, ∀ a, in_range (blk_offset c) (blk_length c) a →
    phys_dirty s' !! Z.to_nat (page_index a) = phys_dirty s !! Z.to_nat (page_index a)) (ram_blocks s).
Proof.
  intros Hok Hok' Hb Hbs Hd Hk Hcl. pose proof (ro_dirty _ Hok') as Hd'. rewrite Hbs in Hd'.
  pose proof Hb as (B1 & B2 & B3 & B4 & B5 & _).
  destruct (fill_dirty_spec _ _ k (phys_dirty s) B1 B2 B4 B5 Hk (ro_bytes _ Hok)) as (D1 & _ & D3).
  rewrite <-Hd in D1, D3. split.
  - intros a Ha. unfold cpu_physical_memory_is_dirty, cpu_physical_memory_get_dirty_flags.
    pose proof (proj1 (page_in_range _ _ a B4 B5) Ha) as Hr.
    assert (0 ≤ a) by (unfold in_range in Ha; lia).
    assert (Hl : phys_dirty s' !! Z.to_nat (page_index a) = Some 255).
    { pose proof (page_nat a ltac:(lia)). apply D3; unfold in_range in *; lia. }
    rewrite bind_assoc, bind_gets. erewrite bind_Ok; [|apply at_idx_ok; [|exact Hl]]; [done|].
    rewrite page_index_div. by apply Z.div_pos.
  - apply Forall_forall. intros c Hc a Ha.
    pose proof (proj1 (Forall_forall _ _) (ro_blocks _ Hok) c Hc) as (C1 & C2 & _ & C4 & C5 & _).
    assert (0 ≤ a) by (unfold in_range in Ha; lia). pose proof (page_nat a ltac:(lia)) as Hpn.
    pose proof (proj1 (page_in_range _ _ a C4 C5) Ha) as Hr.
    pose proof (proj1 (Forall_forall _ _) Hcl c Hc) as Hco. unfold clear_of in Hco.
    pose proof (proj1 (Forall_forall _ _) Hd' c ltac:(by right)) as Hl'. simpl in Hl'. rewrite D1 in Hl'.
    pose proof (proj1 (Forall_forall _ _) (ro_dirty _ Hok) c Hc) as Hl. simpl in Hl.
    apply D3; unfold in_range in *; lia.
Qed.

(** C34. Allocation keeps the list well formed: the new block is page aligned, holds
    the wanted size, overlaps no other in RAM or in the host's memory, all its
    pages are dirty, and nothing changes for the other blocks. Otherwise the
    process aborts: the name is taken, no gap is large enough, or the host is out
    of memory. *)
Theorem ram_alloc_ok `{!HostAllocLaws} id name size host s :
  ram_ok s → 0 ≤ size ≤ 2 ^ 64 - 4096 →
  (∀ p, host = Some p → host_free p (TARGET_PAGE_ALIGN size) s) →
  match qemu_ram_alloc_from_ptr id name size host s with
  | Ok offset s' =>
      ram_ok s' ∧ ∃ b, ram_blocks s' = b :: ram_blocks s ∧ blk_offset b = offset ∧
        size ≤ blk_length b < size + 4096 ∧ blk_idstr b = block_idstr id name ∧
        (∀ a, in_range offset (blk_length b) a → cpu_physical_memory_is_dirty a s' = Ok true s') ∧
        Forall (λ c, ∀ a, in_range (blk_offset c) (blk_length c) a →
          phys_dirty s' !! Z.to_nat (page_index a) = phys_dirty s !! Z.to_nat (page_index a)) (ram_blocks s) ∧
        Forall (λ c, ∀ x, in_range (blk_host c) (blk_length c) x → ram_mem s' !! x = ram_mem s !! x) (ram_blocks s)
  | Err e s' => e = Abort
  end.
Proof.
  intros Hok Hsz Hh. destruct (page_align size Hsz) as [Hal Hal0]. unfold qemu_ram_alloc_from_ptr.
  set (n := TARGET_PAGE_ALIGN size) in *. rewrite bind_gets.
  destruct (forallb _ (ram_blocks s)) eqn:En; [|done].
  rewrite (bind_Ok _ _ _ _ _ (assert_true Abort true _ eq_refl)).
  pose proof (find_ram_offset_spec n s Hok ltac:(unfold RAM_ADDR_MAX; lia)) as Hf.
  destruct (find_ram_offset n s) as [off s0|e s0] eqn:Ef; [|rewrite (bind_Err _ _ _ _ _ Ef); by destruct Hf].
  destruct Hf as (-> & F1 & F2 & F3 & F4 & _). rewrite (bind_Ok _ _ _ _ _ Ef).
  pose proof (block_memory_ok host n s Hok ltac:(lia) Hh) as Hm. fold (block_memory host n).
  destruct (block_memory host n s) as [[p fl] s1|e s1] eqn:Em; [|rewrite (bind_Err _ _ _ _ _ Em); by destruct Hm].
  destruct Hm as (M1 & M2 & (P1 & P2 & P3 & P4) & M4 & M5). simpl in *.
  rewrite (bind_Ok _ _ _ _ _ Em), bind_modify. cbn [fst snd].
  set (b := mkBlock p off n fl (block_idstr id name)).
  assert (Hb : block_ok b) by (by split_and!; simpl; try lia).
  destruct (add_block_ok b s s1 Hok Hb M1 M2 (name_free_spec _ _ En) F4 (conj P1 (conj P2 (conj P3 P4))) M4)
    as [Hn Hr].
  set (k := Z.shiftr (last_ram_offset _) _) in *. cbn [blk_offset blk_length b] in Hn.
  rewrite (proj2 (Z.leb_le _ _)).
  2: { rewrite !Z.shiftr_div_pow2 by done. change (2 ^ TARGET_PAGE_BITS) with 4096.
       pose proof (Z.div_mod off 4096 ltac:(lia)). pose proof (Z.div_mod n 4096 ltac:(lia)). lia. }
  rewrite (bind_Ok _ _ _ _ _ (assert_true OutOfBounds true _ eq_refl)), bind_modify.
  change (set_phys_dirty _ _) with (mkRam (b :: ram_blocks s) (fill_dirty off n k (phys_dirty s1)) (ram_mem s1)).
  rewrite M2. split; [exact Hr|]. exists b.
  destruct (added_dirty b s _ k Hok Hr Hb eq_refl eq_refl Hn F4) as [HD1 HD2].
  split_and!; try done; simpl; lia.
Qed.

(** C37. The two lookups agree: the same host pointer, or an abort outside of every
    block. [qemu_get_ram_ptr] only reorders the list, with the block in front;
    the pointer leads back to the address. *)
Theorem ram_lookup addr s :
  in_width 64 addr → ram_ok s →
  match qemu_get_ram_ptr addr s, qemu_safe_ram_ptr addr s with
  | Ok p s1, Ok q s2 =>
      q = p ∧ s2 = s ∧ ram_eqv s s1 ∧ ram_ok s1 ∧
      (∃ b, head (ram_blocks s1) = Some b ∧ owner addr s b ∧ p = blk_host b + (addr - blk_offset b)) ∧
      qemu_ram_addr_from_host p s1 = Some addr
  | Err Abort s1, Err Abort s2 => s1 = s ∧ s2 = s ∧ ∀ b, ¬ owner addr s b
  | _, _ => False
  end.
Proof.
  intros Hw Hok. unfold qemu_get_ram_ptr, qemu_safe_ram_ptr. rewrite !bind_gets.
  destruct (list_find _ (ram_blocks s)) as [[i b]|] eqn:Ef.
  - apply list_find_Some in Ef as (Hi & Hb & _). pose proof (list_elem_of_lookup_2 _ _ _ Hi) as Hin.
    pose proof (proj1 (Forall_forall _ _) (ro_blocks _ Hok) b Hin) as Hbo.
    apply in_block_range in Hb; [|done..].
    assert (Ho : owner addr s b) by (by split). rewrite (owner_host addr s b Hw Hok Ho).
    rewrite bind_modify. set (s1 := set_ram_blocks _ s).
    assert (He : ram_eqv s s1) by (split; [by apply delete_Permutation|done..]).
    assert (Hok1 : ram_ok s1) by (by rewrite <-He).
    set (p := blk_host b + (addr - blk_offset b)). cbn. split_and!; try done; [by exists b|].
    destruct Hbo as (B1 & B2 & B3 & _ & _ & B6 & B7). unfold in_range, in_width in *.
    assert (Hp : in_width 64 p) by (unfold in_width, p; lia).
    unfold qemu_ram_addr_from_host.
    rewrite (find_sole _ (ram_blocks s1) 0 b (backs_sole p s1 Hp Hok1) eq_refl).
    + unfold p. replace (_ - blk_host b) with (addr - blk_offset b) by lia.
      rewrite (wrap_small 64 (addr - _)) by (unfold in_width; lia).
      replace (blk_offset b + _) with addr by lia. by rewrite wrap_small.
    + apply backs_range; [done|by apply (proj1 (Forall_forall _ _) (ro_blocks _ Hok))|].
      unfold in_range, p. lia.
  - apply list_find_None in Ef. split_and!; [done..|]. intros b [Hin Hr].
    apply (proj1 (Forall_forall _ _) Ef b Hin), in_block_range; [done| |done].
    by apply (proj1 (Forall_forall _ _) (ro_blocks _ Hok)).
Qed.

(** ** Freeing *)

Lemma remove_block_perm addr bs b bs' :
  remove_block addr bs = Some (b, bs') → bs ≡ₚ b :: bs' ∧ blk_offset b = addr.
Proof.
  revert b bs'. induction bs as [|x bs IH]; intros b bs'; cbn [remove_block]; [done|].
  destruct (Z.eqb_spec addr (blk_offset x)) as [->|_]; [by intros [= <- <-]|].
  destruct (remove_block addr bs) as [[y l]|]; [|done]. intros [= <- <-].
  destruct (IH y l eq_refl) as [Hp Ho]. split; [|done]. by rewrite Hp, Permutation_swap.
Qed.

Lemma drop_block_ok s b bs' m :
  ram_ok s → ram_blocks s ≡ₚ b :: bs' →
  (Forall (λ c, mapped m (blk_host c) (blk_length c)) bs') →
  ram_ok (mkRam bs' (phys_dirty s) m).
Proof.
  intros [H1 H2 H3 H4 H5 H6] Hp Hm. rewrite Hp in H1, H3, H4, H5. apply (all_apart_perm _ _ Hp) in H2.
  apply Forall_cons in H1 as [_ H1], H5 as [_ H5]. destruct H2 as [_ H2].
  apply NoDup_cons in H4 as [_ H4]. by split.
Qed.

(** Freeing removes one block and keeps the rest well formed; memory of the
    caller stays mapped, memory of [qemu_vmalloc] does not. *)
Theorem ram_free_ok addr s :
  ram_ok s →
  ∃ s', qemu_ram_free addr s = Ok () s' ∧ ram_ok s' ∧
    (s' = s ∨
     ∃ b, ram_blocks s ≡ₚ b :: ram_blocks s' ∧ blk_offset b = addr ∧
       Forall (λ c, ∀ x, in_range (blk_host c) (blk_length c) x → ram_mem s' !! x = ram_mem s !! x) (ram_blocks s') ∧
       (Z.land (blk_flags b) RAM_PREALLOC_MASK = 0 → unmapped (ram_mem s') (blk_host b) (blk_length b))).
Proof.
  intros Hok. unfold qemu_ram_free. rewrite bind_gets.
  destruct (remove_block addr (ram_blocks s)) as [[b bs']|] eqn:Er; [|eauto].
  destruct (remove_block_perm _ _ _ _ Er) as [Hp Ho]. rewrite bind_modify.
  assert (Hm : Forall (λ c, mapped (ram_mem s) (blk_host c) (blk_length c)) bs').
  { pose proof (ro_mapped _ Hok) as Hm. rewrite Hp in Hm. by apply Forall_cons in Hm as [_ Hm]. }
  destruct (Z.eqb_spec (Z.land (blk_flags b) RAM_PREALLOC_MASK) 0) as [Ez|Ez].
  - eexists. split; [reflexivity|].
    assert (Hx : Forall (λ c, ∀ x, in_range (blk_host c) (blk_length c) x →
        mem_unmap (ram_mem s) (blk_host b) (Z.to_nat (blk_length b)) !! x = ram_mem s !! x) bs').
    { pose proof (all_apart_perm _ _ Hp (ro_apart _ Hok)) as [Hap _]. eapply Forall_impl; [exact Hap|].
      intros c [_ Hc] x Hx. rewrite mem_unmap_lookup, decide_False; [done|]. intros Hr.
      apply (Hc x); [unfold in_range in *; lia|done]. }
    split; [|right; exists b; split_and!; try done].
    + apply (drop_block_ok s b); [done|done|]. apply Forall_forall. intros c Hc x Hr. simpl.
      rewrite (proj1 (Forall_forall _ _) Hx c Hc x Hr). by apply (proj1 (Forall_forall _ _) Hm c Hc).
    + intros _ x Hr. simpl. rewrite mem_unmap_lookup, decide_True; [done|]. unfold in_range in *. lia.
  - eexists. split; [reflexivity|]. split; [by apply (drop_block_ok s b)|].
    right. exists b. split_and!; try done. by apply Forall_true.
Qed.

End Ram.
