(* ===== verification/Radix.v ===== *)
(** * Radix trees of page descriptors ([exec.c])

    [l1_phys_map] and [l1_map] have the same shape: a top table, tables of
    [L2_SIZE] pointers, and leaves of [L2_SIZE] descriptors; the number of levels
    follows from the width of the addresses, as in the macros. The trees differ in
    what a descriptor is and what a new leaf holds. *)

From S2P Require Import Prelude CString HostMem RamList.
Local Open Scope Z_scope.

Definition L2_BITS : Z := 10.
Definition L2_SIZE : Z := Z.shiftl 1 L2_BITS.

Section Space.
(** The width of the address space in bits. *)
Context (bits : Z).

Definition L1_BITS_REM : Z := (bits - TARGET_PAGE_BITS) mod L2_BITS.
Definition L1_BITS : Z := if L1_BITS_REM <? 4 then L1_BITS_REM + L2_BITS else L1_BITS_REM.
Definition L1_SIZE : Z := Z.shiftl 1 L1_BITS.
Definition L1_SHIFT : Z := bits - TARGET_PAGE_BITS - L1_BITS.
Definition LEVELS : nat := Z.to_nat (L1_SHIFT / L2_BITS - 1).
Definition l1_key (index : Z) : Z := Z.land (Z.shiftr index L1_SHIFT) (L1_SIZE - 1).
End Space.

Definition l2_key (i : nat) (index : Z) : Z := Z.land (Z.shiftr index (Z.of_nat i * L2_BITS)) (L2_SIZE - 1).
Definition leaf_key (index : Z) : nat := Z.to_nat (Z.land index (L2_SIZE - 1)).

(** A table [i] levels above the leaves; a null pointer is an absent key. *)
Fixpoint rtab (A : Type) (i : nat) : Type :=
  match i with O => list A | S i' => gmap Z (rtab A i') end.

Section Tree.
Context {A : Type}.

Fixpoint tab_find (i : nat) (index : Z) : rtab A i → option A :=
  match i with
  | O => λ t : list A, t !! leaf_key index
  | S i' => λ t : gmap Z (rtab A i'), t !! l2_key i index ≫= tab_find i' index
  end.

(** The tables on the path to [index], made where they are missing; [new] is what
    a new leaf holds. *)
Fixpoint tab_alloc (new : list A) (i : nat) (index : Z) : option (rtab A i) → rtab A i :=
  match i with
  | O => λ o : option (list A), default new o
  | S i' => λ o : option (gmap Z (rtab A i')), let t := default ∅ o in
                 <[l2_key i index := tab_alloc new i' index (t !! l2_key i index)]> t
  end.

Fixpoint tab_store (i : nat) (index : Z) (d : A) : rtab A i → rtab A i :=
  match i with
  | O => λ t : list A, <[leaf_key index := d]> t
  | S i' => λ t : gmap Z (rtab A i'), alter (tab_store i' index d) (l2_key i index) t
  end.

(** All descriptors of a table changed. *)
Fixpoint tab_map (f : A → A) (i : nat) : rtab A i → rtab A i :=
  match i with
  | O => λ t : list A, f <$> t
  | S i' => λ t : gmap Z (rtab A i'), tab_map f i' <$> t
  end.

(** ** Lemmas *)

(** Leaves are full. *)
Fixpoint tab_ok (i : nat) : rtab A i → Prop :=
  match i with
  | O => λ t : list A, length t = Z.to_nat L2_SIZE
  | S i' => λ t : gmap Z (rtab A i'), map_Forall (λ _, tab_ok i') t
  end.

Lemma leaf_key_lt index : (leaf_key index < Z.to_nat L2_SIZE)%nat.
Proof.
  unfold leaf_key. change (L2_SIZE - 1) with (Z.ones 10). rewrite Z.land_ones by lia.
  pose proof (Z.mod_pos_bound index (2 ^ 10)). change L2_SIZE with (2 ^ 10). lia.
Qed.

#[local] Arguments leaf_key : simpl never.

Lemma tab_alloc_ok new i index (o : option (rtab A i)) :
  length new = Z.to_nat L2_SIZE → (∀ t, o = Some t → tab_ok i t) → tab_ok i (tab_alloc new i index o).
Proof.
  intros Hn. induction i as [|i IH]; intros Ho; cbn [tab_alloc tab_ok].
  { destruct o as [t|]; simpl; [by apply Ho|done]. }
  assert (Ht : map_Forall (λ _, tab_ok i) (default (∅ : gmap Z (rtab A i)) o)).
  { destruct o as [t|]; simpl; [by apply (Ho t)|apply map_Forall_empty]. }
  apply (map_Forall_insert_2 (M:=gmap Z)); [|done]. apply IH. intros t Et. by apply (Ht _ _ Et).
Qed.

Lemma tab_store_ok i index d (t : rtab A i) : tab_ok i t → tab_ok i (tab_store i index d t).
Proof.
  induction i as [|i IH]; cbn [tab_store tab_ok]; intros Ht.
  { exact (eq_trans (length_insert _ _ _) Ht). }
  intros k t' Hk. apply (lookup_alter_Some (M:=gmap Z)) in Hk as [(_ & u & Hu & ->)|[_ Hk]]; [by eapply IH, Ht|by eapply Ht].
Qed.

Lemma tab_map_ok f i (t : rtab A i) : tab_ok i t → tab_ok i (tab_map f i t).
Proof.
  induction i as [|i IH]; cbn [tab_map tab_ok]; intros Ht.
  { exact (eq_trans (length_fmap _ _) Ht). }
  intros k t' Hk. apply (lookup_fmap_Some (M:=gmap Z)) in Hk as (u & <- & Hu). by eapply IH, Ht.
Qed.

Lemma tab_map_find f i index (t : rtab A i) : tab_find i index (tab_map f i t) = f <$> tab_find i index t.
Proof.
  induction i as [|i IH]; cbn [tab_find tab_map]; [apply list_lookup_fmap|].
  change (gmap Z (rtab A i)) in t. rewrite (lookup_fmap (M:=gmap Z)). destruct (t !! l2_key (S i) index); simpl; [apply IH|done].
Qed.

(** Allocation keeps what is there and finds its own page. *)
Lemma tab_alloc_find new i index (o : option (rtab A i)) :
  length new = Z.to_nat L2_SIZE → (∀ t, o = Some t → tab_ok i t) →
  is_Some (tab_find i index (tab_alloc new i index o)).
Proof.
  intros Hn. induction i as [|i IH]; intros Ho; cbn [tab_alloc tab_find].
  { apply lookup_lt_is_Some. pose proof (tab_alloc_ok new 0 index o Hn Ho) as Hl. cbn in Hl.
    pose proof (leaf_key_lt index). lia. }
  rewrite (lookup_insert_eq (M:=gmap Z)). simpl. apply IH. intros t Et. destruct o as [u|]; [|done]. by apply (Ho u eq_refl _ _ Et).
Qed.

Lemma tab_alloc_keeps new i index j (t : rtab A i) d :
  tab_find i j t = Some d → tab_find i j (tab_alloc new i index (Some t)) = Some d.
Proof.
  induction i as [|i IH]; cbn [tab_alloc tab_find]; [done|]. simpl. intros Hf. change (gmap Z (rtab A i)) in t.
  destruct (t !! l2_key (S i) j) as [u|] eqn:Eu; [|done]. simpl in Hf.
  destruct (decide (l2_key (S i) index = l2_key (S i) j)) as [E|E].
  - rewrite E, (lookup_insert_eq (M:=gmap Z)), Eu. simpl. by apply IH.
  - rewrite (lookup_insert_ne (M:=gmap Z)), Eu by done. done.
Qed.

(** A page that was not there holds what a new leaf has at its place. *)
Lemma tab_alloc_new new index j d i (o : option (rtab A i)) :
  (o ≫= tab_find i j) = None → tab_find i j (tab_alloc new i index o) = Some d → new !! leaf_key j = Some d.
Proof.
  revert o. induction i as [|i IH]; intros o Ho; cbn [tab_alloc tab_find].
  - destruct o as [t|]; simpl in Ho |- *; [intros E; by rewrite E in Ho|done].
  - destruct (decide (l2_key (S i) index = l2_key (S i) j)) as [E|E].
    + rewrite E, lookup_insert_eq. simpl. apply IH. destruct o as [t|]; [exact Ho|]. simpl. by rewrite lookup_empty.
    + rewrite lookup_insert_ne by done. destruct o as [t|]; simpl in *.
      * change (gmap Z (rtab A i)) in t. intros E'. by rewrite E' in Ho.
      * by rewrite lookup_empty.
Qed.

(** Pages of the same leaf. *)
Fixpoint same_leaf (i : nat) (a b : Z) : Prop :=
  match i with O => True | S i' => l2_key i a = l2_key i b ∧ same_leaf i' a b end.

Lemma tab_store_same i a b d (t : rtab A i) :
  tab_ok i t → is_Some (tab_find i a t) → same_leaf i a b → leaf_key a = leaf_key b →
  tab_find i b (tab_store i a d t) = Some d.
Proof.
  induction i as [|i IH]; cbn [tab_store tab_find same_leaf tab_ok]; intros Hok Hs Hl E.
  - rewrite E. apply list_lookup_insert_eq. rewrite Hok. apply leaf_key_lt.
  - change (gmap Z (rtab A i)) in t. destruct Hl as [Hk Hl]. rewrite <-Hk.
    destruct (t !! l2_key (S i) a) as [u|] eqn:Eu; [|by destruct Hs]. simpl in Hs.
    rewrite lookup_alter_eq, Eu. simpl. apply IH; [by apply (Hok _ _ Eu)|done..].
Qed.

Lemma tab_store_other i a b d (t : rtab A i) :
  ¬ (same_leaf i a b ∧ leaf_key a = leaf_key b) →
  tab_find i b (tab_store i a d t) = tab_find i b t.
Proof.
  induction i as [|i IH]; cbn [tab_store tab_find same_leaf]; intros Hn.
  - apply list_lookup_insert_ne. naive_solver.
  - change (gmap Z (rtab A i)) in t. destruct (decide (l2_key (S i) a = l2_key (S i) b)) as [E|E].
    + rewrite <-E, lookup_alter_eq. destruct (t !! l2_key (S i) a); [|done]. simpl. apply IH. naive_solver.
    + by rewrite lookup_alter_ne.
Qed.

Lemma tab_find_same i a b (t : rtab A i) :
  same_leaf i a b → leaf_key a = leaf_key b → tab_find i a t = tab_find i b t.
Proof.
  revert t. induction i as [|i IH]; intros t Hl E; cbn [tab_find same_leaf] in *; [by rewrite E|].
  destruct Hl as [-> Hl]. change (gmap Z (rtab A i)) in t. destruct (t !! l2_key (S i) b); simpl; [by apply IH|done].
Qed.
End Tree.

(** The keys of an index are its digits: two indexes share a slot when they agree
    modulo the size of the address space. *)
Lemma mod_mul_iff a b p q : 0 < p → 0 < q →
  a mod (p * q) = b mod (p * q) ↔ a mod p = b mod p ∧ (a / p) mod q = (b / p) mod q.
Proof.
  intros Hp Hq. rewrite !Z.rem_mul_r by lia.
  pose proof (Z.mod_pos_bound a p Hp). pose proof (Z.mod_pos_bound b p Hp). split; [|by intros [-> ->]].
  intros E. set (x := (a / p) mod q) in *. set (y := (b / p) mod q) in *.
  assert (x = y) by nia. subst x. split; [nia|done].
Qed.

Lemma key_mod x n : 0 ≤ n → Z.land x (Z.shiftl 1 n - 1) = x mod 2 ^ n.
Proof.
  intros Hn. rewrite Z.shiftl_1_l. replace (2 ^ n - 1) with (Z.ones n); [by apply Z.land_ones|].
  rewrite Z.ones_equiv. lia.
Qed.

Lemma l2_key_div i a : l2_key i a = (a / 2 ^ (10 * Z.of_nat i)) mod 2 ^ 10.
Proof.
  unfold l2_key, L2_SIZE, L2_BITS. rewrite key_mod, Z.shiftr_div_pow2 by lia. do 3 f_equal. lia.
Qed.

Lemma leaf_key_mod a b : leaf_key a = leaf_key b ↔ a mod 2 ^ 10 = b mod 2 ^ 10.
Proof.
  unfold leaf_key, L2_SIZE, L2_BITS. rewrite !key_mod by lia.
  pose proof (Z.mod_pos_bound a (2 ^ 10)). pose proof (Z.mod_pos_bound b (2 ^ 10)). lia.
Qed.

Lemma same_leaf_mod i a b :
  same_leaf i a b ∧ leaf_key a = leaf_key b ↔
  a mod 2 ^ (10 * Z.of_nat (S i)) = b mod 2 ^ (10 * Z.of_nat (S i)).
Proof.
  induction i as [|i IH]; cbn [same_leaf].
  { rewrite leaf_key_mod. change (10 * Z.of_nat 1) with 10. naive_solver. }
  replace (10 * Z.of_nat (S (S i))) with (10 * Z.of_nat (S i) + 10) by lia.
  rewrite Z.pow_add_r, mod_mul_iff, <-IH, !l2_key_div by lia. naive_solver.
Qed.

(** The address space has room for a top table and one level of leaves. *)
Class SpaceOk (bits : Z) := space_large : 26 ≤ bits.

Lemma l1_split bits `{!SpaceOk bits} :
  0 ≤ L1_BITS bits ∧ L1_SHIFT bits = 10 * Z.of_nat (S (LEVELS bits)) ∧
  L1_SHIFT bits + L1_BITS bits = bits - TARGET_PAGE_BITS.
Proof.
  unfold SpaceOk in *. unfold LEVELS, L1_SHIFT, L1_BITS, L1_BITS_REM, L2_BITS, TARGET_PAGE_BITS in *.
  set (b := bits) in *. pose proof (Z.div_mod (b - 12) 10 ltac:(lia)).
  pose proof (Z.mod_pos_bound (b - 12) 10 ltac:(lia)). set (q := (b - 12) / 10) in *. set (r := (b - 12) mod 10) in *.
  destruct (Z.ltb_spec r 4).
  - replace (b - 12 - (r + 10)) with ((q - 1) * 10) by lia. rewrite Z.div_mul by lia. lia.
  - replace (b - 12 - r) with (q * 10) by lia. rewrite Z.div_mul by lia. lia.
Qed.

Lemma keys_mod bits `{!SpaceOk bits} a b :
  a mod 2 ^ (bits - TARGET_PAGE_BITS) = b mod 2 ^ (bits - TARGET_PAGE_BITS) ↔
  l1_key bits a = l1_key bits b ∧ same_leaf (LEVELS bits) a b ∧ leaf_key a = leaf_key b.
Proof.
  destruct (l1_split bits) as (H1 & H2 & H3). unfold l1_key, L1_SIZE.
  rewrite <-H3, same_leaf_mod, <-H2, !key_mod, !Z.shiftr_div_pow2, Z.pow_add_r, mod_mul_iff by lia.
  naive_solver.
Qed.

(** ** The tree as a map *)

Section Map.
Context {A : Type} (bits : Z).

Definition tree : Type := gmap Z (rtab A (LEVELS bits)).

Definition tree_find (m : gmap Z (rtab A (LEVELS bits))) (index : Z) : option A :=
  m !! l1_key bits index ≫= tab_find (LEVELS bits) index.
Definition tree_alloc (new : list A) (m : gmap Z (rtab A (LEVELS bits))) (index : Z) : gmap Z (rtab A (LEVELS bits)) :=
  <[l1_key bits index := tab_alloc new (LEVELS bits) index (m !! l1_key bits index)]> m.
Definition tree_store (m : gmap Z (rtab A (LEVELS bits))) (index : Z) (d : A) : gmap Z (rtab A (LEVELS bits)) :=
  alter (tab_store (LEVELS bits) index d) (l1_key bits index) m.
Definition tree_map (f : A → A) (m : gmap Z (rtab A (LEVELS bits))) : gmap Z (rtab A (LEVELS bits)) :=
  tab_map f (LEVELS bits) <$> m.

Definition tree_ok (m : gmap Z (rtab A (LEVELS bits))) : Prop := map_Forall (λ _, tab_ok (LEVELS bits)) m.

Implicit Types m : gmap Z (rtab A (LEVELS bits)).

Lemma tree_alloc_ok new m index : length new = Z.to_nat L2_SIZE → tree_ok m → tree_ok (tree_alloc new m index).
Proof.
  intros Hn Hok. apply map_Forall_insert_2; [|done]. apply tab_alloc_ok; [done|]. intros t Et. by apply (Hok _ _ Et).
Qed.

Lemma tree_alloc_finds new m index :
  length new = Z.to_nat L2_SIZE → tree_ok m → is_Some (tree_find (tree_alloc new m index) index).
Proof.
  intros Hn Hok. unfold tree_find, tree_alloc. rewrite lookup_insert_eq. simpl.
  apply tab_alloc_find; [done|]. intros t Et. by apply (Hok _ _ Et).
Qed.

Lemma tree_alloc_keeps new m index j d :
  tree_find m j = Some d → tree_find (tree_alloc new m index) j = Some d.
Proof.
  unfold tree_find, tree_alloc. intros Hj.
  destruct (m !! l1_key bits j) as [t|] eqn:Et; [|done]. simpl in Hj.
  destruct (decide (l1_key bits index = l1_key bits j)) as [E|E].
  - rewrite E, lookup_insert_eq, Et. simpl. by apply tab_alloc_keeps.
  - by rewrite lookup_insert_ne, Et by done.
Qed.

Lemma tree_alloc_new new m index j d :
  tree_find m j = None → tree_find (tree_alloc new m index) j = Some d → new !! leaf_key j = Some d.
Proof.
  unfold tree_find, tree_alloc. intros Hn Hf. destruct (decide (l1_key bits index = l1_key bits j)) as [E|E].
  - rewrite E, lookup_insert_eq in Hf. by apply (tab_alloc_new new index j d (LEVELS bits) (m !! l1_key bits j)).
  - rewrite lookup_insert_ne in Hf by done. by rewrite Hn in Hf.
Qed.

Lemma tree_store_ok m index d : tree_ok m → tree_ok (tree_store m index d).
Proof.
  intros Hok k u Hk. unfold tree_store in Hk. apply lookup_alter_Some in Hk as [(_ & v & Hv & ->)|[_ Hk]]; [|by eapply Hok].
  eapply tab_store_ok, Hok, Hv.
Qed.

Lemma tree_map_ok f m : tree_ok m → tree_ok (tree_map f m).
Proof. intros Hok k u Hk. apply lookup_fmap_Some in Hk as (v & <- & Hv). eapply tab_map_ok, Hok, Hv. Qed.

Lemma tree_map_find f m index : tree_find (tree_map f m) index = f <$> tree_find m index.
Proof.
  unfold tree_find, tree_map. rewrite lookup_fmap. destruct (m !! l1_key bits index); simpl; [apply tab_map_find|done].
Qed.

(** Page numbers that share a descriptor. *)
Definition same_index (a b : Z) : Prop :=
  a mod 2 ^ (bits - TARGET_PAGE_BITS) = b mod 2 ^ (bits - TARGET_PAGE_BITS).

Lemma tree_store_same `{!SpaceOk bits} m index d j :
  tree_ok m → is_Some (tree_find m index) → same_index index j → tree_find (tree_store m index d) j = Some d.
Proof.
  unfold tree_find, tree_store, same_index. intros Hok Hs. rewrite keys_mod by done. intros (E1 & E2 & E3).
  destruct (m !! l1_key bits index) as [t|] eqn:Et; [|by destruct Hs]. simpl in Hs.
  rewrite <-E1, lookup_alter_eq, Et. simpl. apply tab_store_same; [by apply (Hok _ _ Et)|done..].
Qed.

Lemma tree_store_other `{!SpaceOk bits} m index d j :
  ¬ same_index index j → tree_find (tree_store m index d) j = tree_find m j.
Proof.
  unfold tree_find, tree_store, same_index. rewrite keys_mod by done. intros Hn.
  destruct (decide (l1_key bits index = l1_key bits j)) as [E|E]; [|by rewrite lookup_alter_ne].
  rewrite <-E, lookup_alter_eq. destruct (m !! l1_key bits index) as [t|]; [|done]. simpl.
  apply tab_store_other. naive_solver.
Qed.

Lemma tree_find_same `{!SpaceOk bits} m j k : same_index j k → tree_find m j = tree_find m k.
Proof.
  unfold same_index. rewrite keys_mod by done. intros (E1 & E2 & E3). unfold tree_find. rewrite E1.
  destruct (m !! l1_key bits k); simpl; [by apply tab_find_same|done].
Qed.
End Map.
#[global] Arguments tree : clear implicits.
