(* ===== verification/PhysPages.v ===== *)
(** * The physical page table ([exec.c])

    [l1_phys_map]: the radix tree whose leaves hold the descriptors of physical
    pages. *)

From S2P Require Import Prelude CString HostMem RamList Radix.
Local Open Scope Z_scope.

Definition IO_MEM_SHIFT : Z := 3.
Definition IO_MEM_RAM : Z := Z.shiftl 0 IO_MEM_SHIFT.
Definition IO_MEM_ROM : Z := Z.shiftl 1 IO_MEM_SHIFT.
Definition IO_MEM_UNASSIGNED : Z := Z.shiftl 2 IO_MEM_SHIFT.
Definition IO_MEM_NOTDIRTY : Z := Z.shiftl 3 IO_MEM_SHIFT.
Definition IO_MEM_ROMD : Z := 1.
Definition IO_MEM_NB_ENTRIES : Z := Z.shiftl 1 (TARGET_PAGE_BITS - IO_MEM_SHIFT).

Record PhysPageDesc := mkDesc { phys_offset : Z; region_offset : Z }.
#[export] Instance PhysPageDesc_eq_dec : EqDecision PhysPageDesc.
Proof. solve_decision. Defined.

(** The width the build selects, with and without [TARGET_X86_64]. *)
Definition TARGET_PHYS_ADDR_SPACE_BITS (x86_64 : bool) : Z := if x86_64 then 52 else 36.

(** The tables are written against any width, [phys_space_bits]. *)
Class PhysSpace := phys_space_bits : Z.
(** The physical address space has room for a top table and one level of leaves. *)
Abbreviation PhysSpaceOk := (SpaceOk phys_space_bits).

(** Both widths of the target have that room. *)
#[export] Instance target_space_ok x86_64 : SpaceOk (TARGET_PHYS_ADDR_SPACE_BITS x86_64).
Proof. unfold SpaceOk. destruct x86_64; simpl; lia. Qed.

Abbreviation ptab := (rtab PhysPageDesc).
Abbreviation P_LEVELS := (LEVELS phys_space_bits).

Section Pages.
Context `{PhysSpace}.

(** A new leaf: all pages unassigned. *)
Definition new_leaf (index : Z) : list PhysPageDesc :=
  (λ i, mkDesc IO_MEM_UNASSIGNED (wrap 64 (Z.shiftl (index + Z.of_nat i) TARGET_PAGE_BITS)))
  <$> seq 0 (Z.to_nat L2_SIZE).

(** [phys_page_find_alloc(index, 0)], [phys_page_find_alloc(index, 1)] and the
    assignment through the pointer they return. *)
Definition phys_page_find (m : gmap Z (ptab P_LEVELS)) (index : Z) : option PhysPageDesc :=
  tree_find phys_space_bits m index.
Definition phys_page_alloc (m : gmap Z (ptab P_LEVELS)) (index : Z) : gmap Z (ptab P_LEVELS) :=
  tree_alloc phys_space_bits (new_leaf index) m index.
Definition phys_page_store (m : gmap Z (ptab P_LEVELS)) (index : Z) (d : PhysPageDesc) : gmap Z (ptab P_LEVELS) :=
  tree_store phys_space_bits m index d.

(** ** Lemmas *)

Definition phys_map_ok (m : gmap Z (ptab P_LEVELS)) : Prop := tree_ok phys_space_bits m.
Definition same_page (a b : Z) : Prop :=
  a mod 2 ^ (phys_space_bits - TARGET_PAGE_BITS) = b mod 2 ^ (phys_space_bits - TARGET_PAGE_BITS).

#[local] Arguments new_leaf : simpl never.

Lemma length_new_leaf index : length (new_leaf index) = Z.to_nat L2_SIZE.
Proof. unfold new_leaf. by rewrite length_fmap, length_seq. Qed.

Lemma page_alloc_ok m index : phys_map_ok m → phys_map_ok (phys_page_alloc m index).
Proof. apply tree_alloc_ok, length_new_leaf. Qed.

Lemma page_alloc_finds m index : phys_map_ok m → is_Some (phys_page_find (phys_page_alloc m index) index).
Proof. apply tree_alloc_finds, length_new_leaf. Qed.

Lemma page_alloc_keeps m index j d :
  phys_page_find m j = Some d → phys_page_find (phys_page_alloc m index) j = Some d.
Proof. apply tree_alloc_keeps. Qed.

Lemma page_store_ok m index d : phys_map_ok m → phys_map_ok (phys_page_store m index d).
Proof. apply tree_store_ok. Qed.

Lemma page_store_same `{!PhysSpaceOk} m index d j :
  phys_map_ok m → is_Some (phys_page_find m index) → same_page index j →
  phys_page_find (phys_page_store m index d) j = Some d.
Proof. by apply tree_store_same. Qed.

Lemma page_store_other `{!PhysSpaceOk} m index d j :
  ¬ same_page index j → phys_page_find (phys_page_store m index d) j = phys_page_find m j.
Proof. by apply tree_store_other. Qed.

Lemma page_find_same `{!PhysSpaceOk} m j k : same_page j k → phys_page_find m j = phys_page_find m k.
Proof. by apply tree_find_same. Qed.

Definition fresh_desc (index j : Z) : PhysPageDesc :=
  mkDesc IO_MEM_UNASSIGNED (wrap 64 (Z.shiftl (index + Z.land j (L2_SIZE - 1)) TARGET_PAGE_BITS)).

Lemma new_leaf_lookup index j d : new_leaf index !! leaf_key j = Some d → d = fresh_desc index j.
Proof.
  unfold new_leaf. rewrite list_lookup_fmap, fmap_Some. intros (n & Hs & ->).
  apply lookup_seq in Hs as [-> _]. unfold fresh_desc, leaf_key. rewrite Nat.add_0_l, Z2Nat.id; [done|].
  unfold L2_SIZE, L2_BITS. rewrite key_mod by lia. apply Z.mod_pos_bound. lia.
Qed.

Lemma page_alloc_new m index j d :
  phys_page_find m j = None → phys_page_find (phys_page_alloc m index) j = Some d → d = fresh_desc index j.
Proof. intros Hn Hf. by eapply new_leaf_lookup, tree_alloc_new. Qed.

(** The page table is a map from page numbers, taken modulo the size of the
    address space. A page that was made is found and keeps the descriptors that
    were there; a store is seen through its own page number and no other. *)
Theorem page_table_map `{!PhysSpaceOk} (m : gmap Z (ptab P_LEVELS)) index :
  phys_map_ok m →
  phys_map_ok (phys_page_alloc m index) ∧
  is_Some (phys_page_find (phys_page_alloc m index) index) ∧
  (∀ j d, phys_page_find m j = Some d → phys_page_find (phys_page_alloc m index) j = Some d) ∧
  (∀ d, is_Some (phys_page_find m index) →
     phys_map_ok (phys_page_store m index d) ∧
     ∀ j, (same_page index j → phys_page_find (phys_page_store m index d) j = Some d) ∧
          (¬ same_page index j → phys_page_find (phys_page_store m index d) j = phys_page_find m j)).
Proof.
  intros Hok. split_and!.
  - by apply page_alloc_ok.
  - by apply page_alloc_finds.
  - apply page_alloc_keeps.
  - intros d Hs. split; [by apply page_store_ok|]. intros j.
    split; [by apply page_store_same|apply page_store_other].
Qed.

(** A page of a new leaf is unassigned. Its region offset counts from the page
    that was asked for, not from the first page of the leaf. *)
Theorem new_leaf_offsets m index j d :
  phys_page_find m j = None → phys_page_find (phys_page_alloc m index) j = Some d →
  phys_offset d = IO_MEM_UNASSIGNED ∧
  region_offset d = wrap 64 (Z.shiftl (index + Z.land j (L2_SIZE - 1)) TARGET_PAGE_BITS).
Proof. intros Hn Hf. by rewrite (page_alloc_new m index j d Hn Hf). Qed.

End Pages.
