(* ===== verification/IOMem.v ===== *)
(** * I/O memory ([exec.c])

    The table of device functions ([io_mem_read], [io_mem_write],
    [io_mem_opaque], [io_mem_used]), the wrappers that swap bytes for devices of
    the other endianness, pages shared by several regions ([subpage_t]), and the
    registration of a region in the physical page table. What a device function
    does when it is called is the business of [PhysMem]. *)

From S2P Require Import Prelude CString HostMem RamList Radix PhysPages RRTypes.
Local Open Scope Z_scope.

Definition IO_MEM_SUBPAGE_RAM : Z := Z.shiftl 4 IO_MEM_SHIFT.
Definition IO_MEM_SUBPAGE : Z := 2.

Inductive device_endian := DEVICE_NATIVE_ENDIAN | DEVICE_BIG_ENDIAN | DEVICE_LITTLE_ENDIAN.

(** [TARGET_WORDS_BIGENDIAN] *)
Class TargetEndian := target_words_bigendian : bool.

(** ** State *)

(** The functions of the tables; which of the three sizes one is for follows from
    its place. The functions of devices and of watchpoints are known by a number. *)
Inductive io_fn :=
| FnUnassigned
| FnNotdirty
| FnSubpage
| FnSubpageRam
| FnSwap
| FnDevice (id : Z).
#[export] Instance io_fn_eq_dec : EqDecision io_fn.
Proof. solve_decision. Defined.

Inductive io_opaque :=
| OpNull
| OpSubpage (p : Z)
| OpSwap (p : Z)
| OpDevice (p : Z).
#[export] Instance io_opaque_eq_dec : EqDecision io_opaque.
Proof. solve_decision. Defined.

(** A row of the tables; a null function pointer is [None]. *)
Record io_row := mkRow {
  row_read : list (option io_fn);
  row_write : list (option io_fn);
  row_opaque : io_opaque;
}.
Definition SwapEndianContainer := io_row.

Record subpage_t := mkSub {
  sub_base : Z;
  sub_io_index : list Z;
  sub_region_offset : list Z;
}.

Record io_state `{PhysSpace} := mkIO {
  l1_phys_map : gmap Z (ptab P_LEVELS);
  io_rows : list io_row;
  io_mem_used : list bool;
  subpages : gmap Z subpage_t;
  containers : gmap Z SwapEndianContainer;
  io_fresh : Z;
}.
Arguments io_state {_}.

Section Setters.
Context `{PhysSpace}.
Definition set_l1_phys_map (x : gmap Z (ptab P_LEVELS)) (s : io_state) : io_state :=
  mkIO _ x (io_rows s) (io_mem_used s) (subpages s) (containers s) (io_fresh s).
Definition set_io_rows (x : list io_row) (s : io_state) : io_state :=
  mkIO _ (l1_phys_map s) x (io_mem_used s) (subpages s) (containers s) (io_fresh s).
Definition set_io_mem_used (x : list bool) (s : io_state) : io_state :=
  mkIO _ (l1_phys_map s) (io_rows s) x (subpages s) (containers s) (io_fresh s).
Definition set_subpages (x : gmap Z subpage_t) (s : io_state) : io_state :=
  mkIO _ (l1_phys_map s) (io_rows s) (io_mem_used s) x (containers s) (io_fresh s).
Definition set_containers (x : gmap Z SwapEndianContainer) (s : io_state) : io_state :=
  mkIO _ (l1_phys_map s) (io_rows s) (io_mem_used s) (subpages s) x (io_fresh s).
Definition set_io_fresh (x : Z) (s : io_state) : io_state :=
  mkIO _ (l1_phys_map s) (io_rows s) (io_mem_used s) (subpages s) (containers s) x.
End Setters.

Abbreviation IOM := (M io_state).

Section IOMem.
Context `{PhysSpace} `{TargetPhys} `{TargetEndian}.

(** ** The tables *)

Definition three {A} (x : A) : list A := [x; x; x].

(** Sets the flag of the first free index and returns it; -1 if there is none. *)
Definition get_free_io_mem_idx : IOM Z :=
  u ← gets io_mem_used;
  match list_find (λ b, b = false) u with
  | Some (i, _) => modify (set_io_mem_used (<[i := true]> u));; mret (Z.of_nat i)
  | None => mret (-1)
  end.

Definition set_row (i : Z) (r : io_row) : IOM () :=
  l ← gets io_rows;
  _ ← at_idx l i;
  modify (set_io_rows (<[Z.to_nat i := r]> l)).

Definition swapendian_init (io_index : Z) : IOM () :=
  l ← gets io_rows; r ← at_idx l io_index;
  c ← gets io_fresh;
  modify (λ s, set_io_fresh (c + 1) (set_containers (<[c := r]> (containers s)) s));;
  set_row io_index (mkRow (three (Some FnSwap)) (three (Some FnSwap)) (OpSwap c)).

Definition swapendian_del (io_index : Z) : IOM () :=
  l ← gets io_rows; r ← at_idx l io_index;
  if decide (row_read r !! 0%nat = Some (Some FnSwap)) then
    match row_opaque r with
    | OpSwap c => modify (λ s, set_containers (delete c (containers s)) s)
    | _ => fail UseAfterFree
    end
  else mret ().

Definition or_unassigned (f : option io_fn) : option io_fn :=
  match f with Some _ => f | None => Some FnUnassigned end.

Definition cpu_register_io_memory_fixed (io_index : Z) (mem_read mem_write : list (option io_fn))
    (opaque : io_opaque) (endian : device_endian) : IOM Z :=
  i ← (if io_index <=? 0 then get_free_io_mem_idx
       else let i := Z.shiftr io_index IO_MEM_SHIFT in
            mret (if IO_MEM_NB_ENTRIES <=? i then -1 else i));
  if i =? -1 then mret (-1) else
  set_row i (mkRow (or_unassigned <$> mem_read) (or_unassigned <$> mem_write) opaque);;
  (match endian with
   | DEVICE_BIG_ENDIAN => if target_words_bigendian then mret () else swapendian_init i
   | DEVICE_LITTLE_ENDIAN => if target_words_bigendian then swapendian_init i else mret ()
   | DEVICE_NATIVE_ENDIAN => mret ()
   end);;
  mret (Z.shiftl i IO_MEM_SHIFT).

Definition cpu_register_io_memory (mem_read mem_write : list (option io_fn)) (opaque : io_opaque)
    (endian : device_endian) : IOM Z :=
  cpu_register_io_memory_fixed 0 mem_read mem_write opaque endian.

Definition cpu_unregister_io_memory (io_table_address : Z) : IOM () :=
  let io_index := Z.shiftr io_table_address IO_MEM_SHIFT in
  swapendian_del io_index;;
  set_row io_index (mkRow (three (Some FnUnassigned)) (three (Some FnUnassigned)) OpNull);;
  modify (λ s, set_io_mem_used (<[Z.to_nat io_index := false]> (io_mem_used s)) s).

(** The fixed entries; [watch] is the number of the watchpoint functions. *)
Definition io_mem_init (watch : Z) : IOM Z :=
  cpu_register_io_memory_fixed IO_MEM_ROM (three None) (three (Some FnUnassigned)) OpNull DEVICE_NATIVE_ENDIAN;;
  cpu_register_io_memory_fixed IO_MEM_UNASSIGNED (three (Some FnUnassigned)) (three (Some FnUnassigned))
    OpNull DEVICE_NATIVE_ENDIAN;;
  cpu_register_io_memory_fixed IO_MEM_NOTDIRTY (three None) (three (Some FnNotdirty)) OpNull DEVICE_NATIVE_ENDIAN;;
  cpu_register_io_memory_fixed IO_MEM_SUBPAGE_RAM (three (Some FnSubpageRam)) (three (Some FnSubpageRam))
    OpNull DEVICE_NATIVE_ENDIAN;;
  modify (λ s, set_io_mem_used (replicate 5 true ++ drop 5 (io_mem_used s)) s);;
  cpu_register_io_memory (three (Some (FnDevice watch))) (three (Some (FnDevice watch))) OpNull
    DEVICE_NATIVE_ENDIAN.

(** The static tables at the start of the program. *)
Definition io_start : io_state :=
  mkIO _ ∅ (replicate (Z.to_nat IO_MEM_NB_ENTRIES) (mkRow (three None) (three None) OpNull))
    (replicate (Z.to_nat IO_MEM_NB_ENTRIES) false) ∅ ∅ 0.

(** ** Subpages *)

Definition SUBPAGE_IDX (addr : Z) : Z := Z.land addr (Z.lnot TARGET_PAGE_MASK).

(** [for (; idx <= eidx; idx++) a[idx] = v] *)
Definition fill_range {A} (idx eidx : Z) (v : A) (a : list A) : list A :=
  if eidx <? idx then a
  else take (Z.to_nat idx) a ++ replicate (Z.to_nat (eidx + 1 - idx)) v ++ drop (Z.to_nat (eidx + 1)) a.

Definition subpage_register (mmio start end_ memory region_offset : Z) : IOM Z :=
  if (TARGET_PAGE_SIZE <=? start) || (TARGET_PAGE_SIZE <=? end_) then mret (-1) else
  let idx := SUBPAGE_IDX start in
  let eidx := SUBPAGE_IDX end_ in
  let memory := if Z.land memory (Z.lnot TARGET_PAGE_MASK) =? IO_MEM_RAM then IO_MEM_SUBPAGE_RAM else memory in
  let memory := Z.land (Z.shiftr memory IO_MEM_SHIFT) (IO_MEM_NB_ENTRIES - 1) in
  m ← gets subpages; sp ← nonnull (m !! mmio);
  modify (set_subpages (<[mmio := mkSub (sub_base sp) (fill_range idx eidx memory (sub_io_index sp))
    (fill_range idx eidx region_offset (sub_region_offset sp))]> m));;
  mret 0.

(** Returns the subpage and the new [*phys]. *)
Definition subpage_init (base orig_memory region_offset : Z) : IOM (Z * Z) :=
  c ← gets io_fresh;
  let zeros := replicate (Z.to_nat TARGET_PAGE_SIZE) 0 in
  modify (λ s, set_io_fresh (c + 1) (set_subpages (<[c := mkSub base zeros zeros]> (subpages s)) s));;
  subpage_memory ← cpu_register_io_memory (three (Some FnSubpage)) (three (Some FnSubpage)) (OpSubpage c)
    DEVICE_NATIVE_ENDIAN;
  subpage_register c 0 (TARGET_PAGE_SIZE - 1) orig_memory region_offset;;
  mret (c, wrap 64 (Z.lor subpage_memory IO_MEM_SUBPAGE)).

(** ** Registration *)

(** First and last byte of the region in the page of [addr], and whether the page
    is only partly covered. *)
Definition CHECK_SUBPAGE (addr start_addr orig_size : Z) : Z * Z * bool :=
  let '(start_addr2, need1) :=
    if start_addr <? addr then (0, false)
    else let a := Z.land start_addr (Z.lnot TARGET_PAGE_MASK) in (a, 0 <? a) in
  let '(end_addr2, need2) :=
    if TARGET_PAGE_SIZE <=? wrap 64 (wrap 64 (start_addr + orig_size) - addr)
    then (TARGET_PAGE_SIZE - 1, false)
    else let a := Z.land (wrap 64 (start_addr + orig_size - 1)) (Z.lnot TARGET_PAGE_MASK) in
         (a, a <? TARGET_PAGE_SIZE - 1) in
  (start_addr2, end_addr2, need1 || need2).

(** RAM and ROM regions, and ROMD ones, go on in RAM; the number of a device
    stays. *)
Definition next_offset (phys_offset : Z) : Z :=
  if (Z.land phys_offset (Z.lnot TARGET_PAGE_MASK) <=? IO_MEM_ROM) || negb (Z.land phys_offset IO_MEM_ROMD =? 0)
  then wrap 64 (phys_offset + TARGET_PAGE_SIZE) else phys_offset.

Definition store_desc (index : Z) (d : PhysPageDesc) : IOM () :=
  modify (λ s, set_l1_phys_map (phys_page_store (l1_phys_map s) index d) s).

(** The subpage of a row of the table. *)
Definition subpage_of (io_index : Z) : IOM Z :=
  l ← gets io_rows; r ← at_idx l io_index;
  match row_opaque r with OpSubpage p => mret p | _ => fail Segv end.

(** The page of [addr] was assigned before. Returns the next [phys_offset]. *)
Definition register_assigned (d : PhysPageDesc) (start_addr orig_size addr phys_off region_off : Z) : IOM Z :=
  let index := Z.shiftr addr TARGET_PAGE_BITS in
  let orig_memory := phys_offset d in
  let '(start_addr2, end_addr2, need_subpage) := CHECK_SUBPAGE addr start_addr orig_size in
  if (need_subpage : bool) then
    '(sp, phys) ← (if Z.land orig_memory IO_MEM_SUBPAGE =? 0
      then subpage_init (Z.land addr TARGET_PAGE_MASK) orig_memory (region_offset d)
      else sp ← subpage_of (Z.shiftr (Z.land orig_memory (Z.lnot TARGET_PAGE_MASK)) IO_MEM_SHIFT);
           mret (sp, orig_memory));
    subpage_register sp start_addr2 end_addr2 phys_off region_off;;
    store_desc index (mkDesc phys 0);;
    mret phys_off
  else
    store_desc index (mkDesc phys_off (region_offset d));;
    mret (next_offset phys_off).

(** It was not. *)
Definition register_unassigned (start_addr orig_size addr phys_off region_off : Z) : IOM Z :=
  let index := Z.shiftr addr TARGET_PAGE_BITS in
  modify (λ s, set_l1_phys_map (phys_page_alloc (l1_phys_map s) index) s);;
  store_desc index (mkDesc phys_off region_off);;
  if (Z.land phys_off (Z.lnot TARGET_PAGE_MASK) <=? IO_MEM_ROM) || negb (Z.land phys_off IO_MEM_ROMD =? 0)
  then mret (wrap 64 (phys_off + TARGET_PAGE_SIZE))
  else
    let '(start_addr2, end_addr2, need_subpage) := CHECK_SUBPAGE addr start_addr orig_size in
    (if (need_subpage : bool) then
       '(sp, phys) ← subpage_init (Z.land addr TARGET_PAGE_MASK) IO_MEM_UNASSIGNED (Z.land addr TARGET_PAGE_MASK);
       subpage_register sp start_addr2 end_addr2 phys_off region_off;;
       store_desc index (mkDesc phys 0)
     else mret ());;
    mret phys_off.

Definition register_page (start_addr orig_size addr phys_off region_off : Z) : IOM Z :=
  p ← gets (λ s, phys_page_find (l1_phys_map s) (Z.shiftr addr TARGET_PAGE_BITS));
  match p with
  | Some d =>
      if negb (phys_offset d =? IO_MEM_UNASSIGNED)
      then register_assigned d start_addr orig_size addr phys_off region_off
      else register_unassigned start_addr orig_size addr phys_off region_off
  | None => register_unassigned start_addr orig_size addr phys_off region_off
  end.

(** [do ... while (addr != end_addr)] *)
Fixpoint register_loop (fuel : nat) (start_addr orig_size end_addr addr phys_off region_off : Z) : IOM () :=
  match fuel with
  | O => fail OutOfFuel
  | S fuel' =>
      phys_off' ← register_page start_addr orig_size addr phys_off region_off;
      let addr' := wrap phys_width (addr + TARGET_PAGE_SIZE) in
      if addr' =? end_addr then mret ()
      else register_loop fuel' start_addr orig_size end_addr addr' phys_off' (wrap 64 (region_off + TARGET_PAGE_SIZE))
  end.

(** The number of turns: the pages of the size, in the width of an address; all
    pages of the address space when that is 0. *)
Definition register_turns (size : Z) : Z :=
  let k := wrap phys_width size / TARGET_PAGE_SIZE in
  if k =? 0 then 2 ^ (phys_width - TARGET_PAGE_BITS) else k.

(** The page table part of [cpu_register_physical_memory_log]. *)
Definition register_region (start_addr size phys_off region_off : Z) : IOM () :=
  let region_off := if phys_off =? IO_MEM_UNASSIGNED then start_addr else region_off in
  let region_off := Z.land region_off TARGET_PAGE_MASK in
  let size' := Z.land (wrap 64 (size + TARGET_PAGE_SIZE - 1)) TARGET_PAGE_MASK in
  let end_addr := wrap phys_width (start_addr + size') in
  register_loop (Z.to_nat (register_turns size')) start_addr size end_addr start_addr phys_off region_off.

Definition cpu_get_physical_page_desc (addr : Z) (s : io_state) : Z :=
  match phys_page_find (l1_phys_map s) (Z.shiftr addr TARGET_PAGE_BITS) with
  | Some d => phys_offset d
  | None => IO_MEM_UNASSIGNED
  end.

End IOMem.
