(* ===== verification/PhysView.v ===== *)
(** * Guest RAM as the guest sees it

    The abstract side of physical memory access: RAM is a function from RAM
    addresses to bytes, the page table a translation from physical to RAM
    addresses; a write of a buffer sets one byte after the other. Where two pages
    share RAM, the later byte wins. *)

From S2P Require Import Prelude CString HostMem RamList Radix PhysPages.
Local Open Scope Z_scope.

Definition view := Z → option byte.
Definition view_eq (v w : view) : Prop := ∀ x, v x = w x.
Infix "≈" := view_eq (at level 70) : panda_scope.
Local Open Scope panda_scope.

#[export] Instance view_eq_equiv : Equivalence view_eq.
Proof. split; [by intros v x|by intros v w E x|intros u v w E1 E2 x; by rewrite E1]. Qed.

(** ** Writing *)

Definition view_set (v : view) (ra : Z) (b : byte) : view := λ x, if x =? ra then Some b else v x.

Fixpoint view_write (tr : Z → option Z) (v : view) (addr : Z) (d : list byte) : view :=
  match d with
  | [] => v
  | b :: d' => view_write tr (match tr addr with Some ra => view_set v ra b | None => v end) (addr + 1) d'
  end.

(** What is read at [n] addresses. *)
Fixpoint view_read (tr : Z → option Z) (v : view) (addr : Z) (n : nat) : option (list byte) :=
  match n with
  | O => Some []
  | S n' => ra ← tr addr; b ← v ra; l ← view_read tr v (addr + 1) n'; Some (b :: l)
  end.

(** The last byte of [d] that goes to [x]. *)
Fixpoint last_hit (tr : Z → option Z) (addr : Z) (d : list byte) (x : Z) : option byte :=
  match d with
  | [] => None
  | b :: d' =>
      match last_hit tr (addr + 1) d' x with
      | Some c => Some c
      | None => if decide (tr addr = Some x) then Some b else None
      end
  end.

Lemma view_write_hit tr d : ∀ v addr x,
  view_write tr v addr d x = match last_hit tr addr d x with Some b => Some b | None => v x end.
Proof.
  induction d as [|b d IH]; intros v addr x; cbn [view_write last_hit]; [done|].
  rewrite IH. destruct (last_hit tr (addr + 1) d x); [done|].
  destruct (tr addr) as [ra|] eqn:Et; [|by rewrite decide_False].
  unfold view_set. destruct (Z.eqb_spec x ra) as [->|E]; [by rewrite decide_True|].
  rewrite decide_False; [done|]. intros [= ->]. done.
Qed.

#[export] Instance view_write_proper tr : Proper (view_eq ==> eq ==> eq ==> view_eq) (view_write tr).
Proof. intros v w E a ? <- d ? <- x. by rewrite !view_write_hit, E. Qed.

Lemma last_hit_app tr d1 : ∀ addr d2 x,
  last_hit tr addr (d1 ++ d2) x
  = match last_hit tr (addr + Z.of_nat (length d1)) d2 x with
    | Some b => Some b | None => last_hit tr addr d1 x end.
Proof.
  induction d1 as [|b d1 IH]; intros addr d2 x; cbn [app last_hit length].
  { rewrite Z.add_0_r. by destruct (last_hit tr addr d2 x). }
  rewrite IH. replace (addr + 1 + Z.of_nat (length d1)) with (addr + Z.of_nat (S (length d1))) by lia.
  by destruct (last_hit tr (addr + Z.of_nat (S (length d1))) d2 x).
Qed.

Lemma view_write_app tr v addr d1 d2 :
  view_write tr v addr (d1 ++ d2)
  ≈ view_write tr (view_write tr v addr d1) (addr + Z.of_nat (length d1)) d2.
Proof.
  intros x. rewrite !view_write_hit, last_hit_app.
  by destruct (last_hit tr (addr + Z.of_nat (length d1)) d2 x).
Qed.

(** Writing the rest of a buffer again changes nothing. *)
Lemma view_write_again tr v addr d1 d2 :
  view_write tr (view_write tr v addr (d1 ++ d2)) (addr + Z.of_nat (length d1)) d2
  ≈ view_write tr v addr (d1 ++ d2).
Proof.
  intros x. rewrite !view_write_hit, last_hit_app.
  by destruct (last_hit tr (addr + Z.of_nat (length d1)) d2 x).
Qed.

(** ** Reading back *)

Definition injective_on (tr : Z → option Z) (addr n : Z) : Prop :=
  ∀ a b x, in_range addr n a → in_range addr n b → tr a = Some x → tr b = Some x → a = b.
Definition total_on (tr : Z → option Z) (addr n : Z) : Prop :=
  ∀ a, in_range addr n a → is_Some (tr a).

Lemma last_hit_miss tr d : ∀ addr x,
  (∀ a, in_range addr (Z.of_nat (length d)) a → tr a ≠ Some x) → last_hit tr addr d x = None.
Proof.
  induction d as [|b d IH]; intros addr x Hm; cbn [last_hit]; [done|].
  rewrite IH.
  - rewrite decide_False; [done|]. apply Hm. unfold in_range. simpl. lia.
  - intros a Ha. apply Hm. unfold in_range in *. simpl. lia.
Qed.

Lemma view_read_write tr d : ∀ v addr,
  total_on tr addr (Z.of_nat (length d)) → injective_on tr addr (Z.of_nat (length d)) →
  view_read tr (view_write tr v addr d) addr (length d) = Some d.
Proof.
  induction d as [|b d IH]; intros v addr Ht Hi; cbn [length view_read]; [done|].
  destruct (Ht addr) as [ra Hra]; [unfold in_range; simpl; lia|]. rewrite Hra. simpl.
  assert (Hm : last_hit tr (addr + 1) d ra = None).
  { apply last_hit_miss. intros a Ha E. unfold in_range in Ha. simpl in Hi.
    assert (addr = a) by (eapply (Hi _ _ ra); [..|done|done]; unfold in_range; lia). lia. }
  rewrite view_write_hit. rewrite Hra, Hm. unfold view_set. rewrite Z.eqb_refl. simpl.
  rewrite IH; [done|intros a Ha; apply Ht|intros a c x Ha Hc; apply Hi];
    unfold in_range in *; simpl; lia.
Qed.

#[export] Instance view_read_proper tr : Proper (view_eq ==> eq ==> eq ==> eq) (view_read tr).
Proof.
  intros v w E a ? <- n ? <-. revert a. induction n as [|n IH]; intros a; cbn [view_read]; [done|].
  destruct (tr a); simpl; [|done]. by rewrite E, IH.
Qed.

(** ** Chunks: addresses that follow one another in RAM *)

Definition contiguous (tr : Z → option Z) (addr ra n : Z) : Prop :=
  ∀ i, 0 ≤ i < n → tr (addr + i) = Some (ra + i).

Definition view_put (v : view) (ra : Z) (d : list byte) : view := λ x,
  if decide (in_range ra (Z.of_nat (length d)) x) then d !! Z.to_nat (x - ra) else v x.

Lemma view_write_chunk tr d : ∀ v addr ra,
  contiguous tr addr ra (Z.of_nat (length d)) → view_write tr v addr d ≈ view_put v ra d.
Proof.
  induction d as [|b d IH]; intros v addr ra Hc; cbn [view_write].
  { intros x. unfold view_put, in_range. simpl. by rewrite decide_False by lia. }
  pose proof (Hc 0 ltac:(simpl; lia)) as H0. rewrite !Z.add_0_r in H0. rewrite H0.
  rewrite (IH _ (addr + 1) (ra + 1)).
  - intros x. unfold view_put, view_set, in_range. simpl length. destruct (Z.eqb_spec x ra) as [->|E].
    + rewrite decide_False by lia. rewrite decide_True by lia. by rewrite Z.sub_diag.
    + destruct (decide (ra + 1 ≤ x < ra + 1 + Z.of_nat (length d))).
      * rewrite decide_True by lia. by replace (Z.to_nat (x - ra)) with (S (Z.to_nat (x - (ra + 1)))) by lia.
      * by rewrite decide_False by lia.
  - intros i Hi. replace (addr + 1 + i) with (addr + (i + 1)) by lia. rewrite Hc by (simpl; lia). f_equal. lia.
Qed.

Lemma view_read_chunk tr v n : ∀ addr ra l,
  contiguous tr addr ra (Z.of_nat n) → length l = n →
  (∀ i, (i < n)%nat → v (ra + Z.of_nat i) = l !! i) → view_read tr v addr n = Some l.
Proof.
  induction n as [|n IH]; intros addr ra l Hc Hl Hv; cbn [view_read]; [by destruct l|].
  destruct l as [|b l]; [done|]. pose proof (Hc 0 ltac:(lia)) as H0. rewrite !Z.add_0_r in H0.
  rewrite H0. simpl. pose proof (Hv 0%nat ltac:(lia)) as V0. rewrite Z.add_0_r in V0. rewrite V0. simpl.
  rewrite (IH (addr + 1) (ra + 1) l); [done| |by injection Hl|].
  - intros i Hi. replace (addr + 1 + i) with (addr + (i + 1)) by lia. rewrite Hc by lia. f_equal. lia.
  - intros i Hi. pose proof (Hv (S i) ltac:(lia)) as V. simpl in V. rewrite <-V. f_equal. lia.
Qed.

Lemma view_read_app tr v n1 n2 : ∀ addr,
  view_read tr v addr (n1 + n2)
  = l1 ← view_read tr v addr n1; l2 ← view_read tr v (addr + Z.of_nat n1) n2; Some (l1 ++ l2).
Proof.
  induction n1 as [|n1 IH]; intros addr; cbn [Nat.add view_read].
  { rewrite Z.add_0_r. simpl. by destruct (view_read tr v addr n2). }
  destruct (tr addr) as [ra|]; simpl; [|done]. destruct (v ra); simpl; [|done]. rewrite IH.
  replace (addr + 1 + Z.of_nat n1) with (addr + Z.of_nat (S n1)) by lia.
  destruct (view_read tr v (addr + 1) n1); simpl; [|done].
  by destruct (view_read tr v (addr + Z.of_nat (S n1)) n2).
Qed.

(** ** The RAM of the emulator as a view *)

Definition ram_view (r : ram_state) : view := λ ra,
  '(_, b) ← list_find (λ b, in_block ra b = true) (ram_blocks r); ram_mem r !! host_in ra b.

Lemma ram_view_owner r ra b :
  in_width 64 ra → ram_ok r → owner ra r b →
  ram_view r ra = ram_mem r !! (blk_host b + (ra - blk_offset b)).
Proof.
  intros Hw Hok Ho. destruct (owner_found _ _ _ Hw Hok Ho) as (i & Hf & _). unfold ram_view.
  rewrite Hf. simpl. by rewrite (owner_host _ _ _ Hw Hok Ho).
Qed.

Lemma ram_view_none r ra :
  in_width 64 ra → ram_ok r → (∀ b, ¬ owner ra r b) → ram_view r ra = None.
Proof. intros Hw Hok Hn. unfold ram_view. by rewrite no_owner_found. Qed.

Lemma owner_dec ra r : (∃ b, owner ra r b) ∨ (∀ b, ¬ owner ra r b).
Proof.
  unfold owner. induction (ram_blocks r) as [|b bs IH]; [right; intros b [Hb _]; by apply elem_of_nil in Hb|].
  destruct (decide (in_range (blk_offset b) (blk_length b) ra)) as [Hr|Hr].
  - left. exists b. split; [by left|done].
  - destruct IH as [(c & Hc & Hr')|IH]; [left; exists c; split; [by right|done]|].
    right. intros c [Hc Hr']. apply elem_of_cons in Hc as [->|Hc]; [done|]. by apply (IH c).
Qed.

Definition view_agree (v w : view) : Prop := ∀ x, in_width 64 x → v x = w x.

Lemma ram_view_eqv r r' : ram_ok r → ram_eqv r r' → view_agree (ram_view r) (ram_view r').
Proof.
  intros Hok He x Hx. assert (Hok' : ram_ok r') by (by rewrite <-He).
  destruct (owner_dec x r) as [(b & Ho)|Hn].
  - assert (Ho' : owner x r' b) by (by rewrite <-He).
    rewrite (ram_view_owner r x b), (ram_view_owner r' x b) by done. by rewrite (re_mem _ _ He).
  - rewrite (ram_view_none r), (ram_view_none r'); try done. intros b Ho. apply (Hn b). by rewrite He.
Qed.

(** A store inside one block. *)
Lemma ram_view_store r b ra d :
  ram_ok r → b ∈ ram_blocks r →
  blk_offset b ≤ ra → ra + Z.of_nat (length d) ≤ blk_offset b + blk_length b →
  let r' := set_ram_mem (mem_write (ram_mem r) (blk_host b + (ra - blk_offset b)) d) r in
  ram_ok r' ∧ view_agree (ram_view r') (view_put (ram_view r) ra d).
Proof.
  intros Hok Hb H1 H2 r'.
  assert (Hok' : ram_ok r').
  { destruct Hok as [? ? Hm ? ? ?]. split; try done. eapply Forall_impl; [exact Hm|].
    intros c. apply mapped_write. }
  split; [done|]. intros x Hx. unfold view_put.
  destruct (owner_dec x r) as [(c & Ho)|Hn].
  - assert (Ho' : owner x r' c) by done. rewrite (ram_view_owner r' x c), (ram_view_owner r x c) by done.
    cbn [ram_mem r' set_ram_mem]. rewrite mem_write_lookup. destruct Ho as [Hc Hr].
    destruct (all_apart_elem _ _ _ (ro_apart _ Hok) Hb Hc) as [<-|[Hcl Hap]].
    + destruct (decide (in_range ra (Z.of_nat (length d)) x)) as [Hin|Hin]; unfold in_range in Hin.
      * rewrite decide_True by lia. f_equal. lia.
      * by rewrite decide_False by lia.
    + rewrite decide_False.
      2: { intros Hin. apply (Hap (blk_host c + (x - blk_offset c))); unfold in_range in *; lia. }
      rewrite decide_False; [done|]. unfold clear_of, in_range in *. lia.
  - rewrite (ram_view_none r' x) by done. rewrite decide_False; [by rewrite ram_view_none|].
    intros Hin. apply (Hn b). split; [done|]. unfold in_range in *. lia.
Qed.
