(* ===== verification/PhysMem.v ===== *)
(** * Access to guest memory by physical address ([exec.c])

    [cpu_physical_memory_rw] and its safe variant, the mapping of guest memory
    into the emulator with the bounce buffer for I/O pages,
    [panda_memsavep], and the registration of memory with its record/replay hook.
    Accesses to I/O pages go through the tables of [IOMem] to the functions of
    the devices, a parameter; calls that a replay performs meanwhile
    ([rr_replay_skipped_calls]) are performed by [perform_call]. Plugin
    callbacks, invalidation of translated code, TLB flushes and callbacks of
    waiting map clients are events. *)

From S2P Require Import Prelude CFile CString HostMem RamList Radix PhysPages RRTypes PandaCallbacks.
From S2P Require Import RRState RRQueue RRFormat RRReplay RRReplayInv RRRecord IOMem.
Local Open Scope Z_scope.

(** ** State *)

Record BounceBuffer := mkBounce { bb_buffer : option Z; bb_addr : Z; bb_len : Z }.
Record MapClient := mkClient { mc_id : Z; mc_opaque : Z; mc_callback : Z }.

Inductive mem_event :=
| EvTbInvalidate (first last : Z)
| EvRamCallbacks (after : bool) (cbs : list Z) (is_write : bool) (buf addr len : Z)
| EvMapClient (callback opaque : Z)
| EvSetMemory (start_addr size phys_offset : Z) (log_dirty : bool)
| EvTlbFlush
| EvTlbSetDirty.

Record mem_state `{PhysSpace} := mkMM {
  mm_rr : rr_state;
  mm_ram : ram_state;
  mm_io : io_state;
  bounce : BounceBuffer;
  map_client_list : list MapClient;
  mc_fresh : Z;
  mm_trace : list mem_event;
}.
Arguments mem_state {_}.

Section Setters.
Context `{PhysSpace}.
Definition set_mm_rr (x : rr_state) (s : mem_state) : mem_state :=
  mkMM _ x (mm_ram s) (mm_io s) (bounce s) (map_client_list s) (mc_fresh s) (mm_trace s).
Definition set_mm_ram (x : ram_state) (s : mem_state) : mem_state :=
  mkMM _ (mm_rr s) x (mm_io s) (bounce s) (map_client_list s) (mc_fresh s) (mm_trace s).
Definition set_mm_io (x : io_state) (s : mem_state) : mem_state :=
  mkMM _ (mm_rr s) (mm_ram s) x (bounce s) (map_client_list s) (mc_fresh s) (mm_trace s).
Definition set_bounce (x : BounceBuffer) (s : mem_state) : mem_state :=
  mkMM _ (mm_rr s) (mm_ram s) (mm_io s) x (map_client_list s) (mc_fresh s) (mm_trace s).
Definition set_map_client_list (x : list MapClient) (s : mem_state) : mem_state :=
  mkMM _ (mm_rr s) (mm_ram s) (mm_io s) (bounce s) x (mc_fresh s) (mm_trace s).
Definition set_mc_fresh (x : Z) (s : mem_state) : mem_state :=
  mkMM _ (mm_rr s) (mm_ram s) (mm_io s) (bounce s) (map_client_list s) x (mm_trace s).
Definition set_mm_trace (x : list mem_event) (s : mem_state) : mem_state :=
  mkMM _ (mm_rr s) (mm_ram s) (mm_io s) (bounce s) (map_client_list s) (mc_fresh s) x.
Definition mm_map (s : mem_state) : gmap Z (ptab P_LEVELS) := l1_phys_map (mm_io s).
End Setters.

Abbreviation MM := (M mem_state).

(** The functions of the devices: number, log2 of the access size, the opaque
    pointer, address (and value). A write by the CPU to a page with translated
    code drops the code that was there, which may set the page's dirty flag for
    code. *)
Class Devices `{PhysSpace} := {
  dev_read : Z → Z → io_opaque → Z → MM Z;
  dev_write : Z → Z → io_opaque → Z → Z → MM ();
  tb_invalidate_phys_page_fast : Z → Z → MM ();
}.

Section PhysMem.
Context `{TargetPhys} `{TargetEndian} `{Machine} `{HostAlloc} `{PhysSpace} `{!Devices}.

(** ** Parts of the state *)

Definition in_rr {A} (m : RR A) : MM A := λ s,
  match m (mm_rr s) with
  | Ok a r => Ok a (set_mm_rr r s)
  | Err e r => Err e (set_mm_rr r s)
  end.
Definition in_ram {A} (m : RAM A) : MM A := λ s,
  match m (mm_ram s) with
  | Ok a r => Ok a (set_mm_ram r s)
  | Err e r => Err e (set_mm_ram r s)
  end.
Definition in_io {A} (m : IOM A) : MM A := λ s,
  match m (mm_io s) with
  | Ok a r => Ok a (set_mm_io r s)
  | Err e r => Err e (set_mm_io r s)
  end.
Definition mm_emit (e : mem_event) : MM () := modify (λ s, set_mm_trace (mm_trace s ++ [e]) s).

(** Loads and stores of the emulator. *)
Definition load (p n : Z) : MM (list byte) :=
  m ← gets (λ s, ram_mem (mm_ram s)); nonnull (mem_read m p (Z.to_nat n)).
Definition store (p : Z) (d : list byte) : MM () :=
  m ← gets (λ s, ram_mem (mm_ram s));
  _ ← nonnull (mem_read m p (length d));
  modify (λ s, set_mm_ram (set_ram_mem (mem_write m p d) (mm_ram s)) s).
Definition memcpy (dst src n : Z) : MM () := d ← load src n; store dst d.
(** [ldub_p], [lduw_p], [ldl_p] and the stores: in the order of the target. *)
Definition target_order (d : list byte) : list byte := if target_words_bigendian then reverse d else d.
Definition ld_p (n : nat) (p : Z) : MM Z := d ← load p (Z.of_nat n); mret (le_value (target_order d)).
Definition st_p (n : nat) (p v : Z) : MM () := store p (target_order (le_bytes n v)).

(** ** I/O functions *)

(** [bswap16], [bswap32]; a byte stays. *)
Definition bswap (n : nat) (v : Z) : Z := le_value (reverse (le_bytes n v)).
Definition io_size (k : Z) : nat := Z.to_nat (2 ^ k).

Definition table_row (i : Z) : MM io_row := l ← gets (λ s, io_rows (mm_io s)); at_idx l i.

(** Where a subpage sends an access: the row and the address. *)
Definition subpage_target (o : io_opaque) (addr : Z) : MM (Z * Z) :=
  match o with
  | OpSubpage p =>
      m ← gets (λ s, subpages (mm_io s)); sp ← nonnull (m !! p);
      let idx := SUBPAGE_IDX addr in
      off ← at_idx (sub_region_offset sp) idx;
      i ← at_idx (sub_io_index sp) idx;
      mret (i, wrap phys_width (addr + off))
  | _ => fail Segv
  end.

Definition container_of (o : io_opaque) : MM io_row :=
  match o with
  | OpSwap c => m ← gets (λ s, containers (mm_io s)); r ← nonnull (m !! c); mret r
  | _ => fail Segv
  end.

(** The functions of the emulator itself. A wrapper calls the function it hides,
    a subpage the one of the row it finds: [call]. *)
Definition unassigned_mem_read (k addr : Z) : MM Z := mret 0.
Definition unassigned_mem_write (k addr val : Z) : MM () := mret ().
Definition subpage_ram_read (k addr : Z) : MM Z := ptr ← in_ram (qemu_get_ram_ptr addr); ld_p (io_size k) ptr.
Definition subpage_ram_write (k addr val : Z) : MM () :=
  ptr ← in_ram (qemu_get_ram_ptr addr); st_p (io_size k) ptr val.

Definition subpage_readlen (call : io_row → Z → Z → MM Z) (o : io_opaque) (k addr : Z) : MM Z :=
  '(i, addr') ← subpage_target o addr; r' ← table_row i; call r' k addr'.
Definition subpage_writelen (call : io_row → Z → Z → Z → MM ()) (o : io_opaque) (k addr val : Z) : MM () :=
  '(i, addr') ← subpage_target o addr; r' ← table_row i; call r' k addr' val.

Definition swapendian_mem_read (call : io_row → Z → Z → MM Z) (o : io_opaque) (k addr : Z) : MM Z :=
  c ← container_of o; v ← call c k addr; mret (if k =? 0 then v else bswap (io_size k) v).
Definition swapendian_mem_write (call : io_row → Z → Z → Z → MM ()) (o : io_opaque) (k addr val : Z) : MM () :=
  c ← container_of o; call c k addr (if k =? 0 then val else bswap (io_size k) val).

(** [io_mem_read[i][k](io_mem_opaque[i], addr)] for the row [i] of the tables. *)
Fixpoint row_read_call (fuel : nat) (r : io_row) (k addr : Z) : MM Z :=
  match fuel with
  | O => fail OutOfFuel
  | S fuel' =>
      f ← at_idx (row_read r) k; fn ← nonnull f;
      v ← match fn with
          | FnUnassigned | FnNotdirty => unassigned_mem_read k addr
          | FnSubpage => subpage_readlen (row_read_call fuel') (row_opaque r) k addr
          | FnSubpageRam => subpage_ram_read k addr
          | FnSwap => swapendian_mem_read (row_read_call fuel') (row_opaque r) k addr
          | FnDevice id => dev_read id k (row_opaque r) addr
          end;
      mret (wrap 32 v)
  end.

(** A write to a RAM page that holds translated code, or once did. *)
Definition notdirty_mem_write (k ram_addr val : Z) : MM () :=
  flags ← in_ram (cpu_physical_memory_get_dirty_flags ram_addr);
  flags ← (if Z.land flags CODE_DIRTY_FLAG =? 0 then
      tb_invalidate_phys_page_fast ram_addr (2 ^ k);;
      in_ram (cpu_physical_memory_get_dirty_flags ram_addr)
    else mret flags);
  ptr ← in_ram (qemu_get_ram_ptr ram_addr);
  st_p (io_size k) ptr val;;
  let flags := Z.lor flags (Z.land 255 (Z.lnot CODE_DIRTY_FLAG)) in
  in_ram (cpu_physical_memory_set_dirty_flags ram_addr flags);;
  if flags =? 255 then mm_emit EvTlbSetDirty else mret ().

Fixpoint row_write_call (fuel : nat) (r : io_row) (k addr val : Z) : MM () :=
  match fuel with
  | O => fail OutOfFuel
  | S fuel' =>
      f ← at_idx (row_write r) k; fn ← nonnull f;
      match fn with
      | FnUnassigned => unassigned_mem_write k addr val
      | FnNotdirty => notdirty_mem_write k addr val
      | FnSubpage => subpage_writelen (row_write_call fuel') (row_opaque r) k addr val
      | FnSubpageRam => subpage_ram_write k addr val
      | FnSwap => swapendian_mem_write (row_write_call fuel') (row_opaque r) k addr val
      | FnDevice id => dev_write id k (row_opaque r) addr val
      end
  end.

(** A chain of subpages and wrappers without a cycle is no longer than this. *)
Definition io_depth (s : mem_state) : nat := S (length (io_rows (mm_io s)) + size (containers (mm_io s))).

Definition io_mem_read (io_index k addr : Z) : MM Z :=
  n ← gets io_depth; r ← table_row io_index; row_read_call n r k addr.
Definition io_mem_write (io_index k addr val : Z) : MM () :=
  n ← gets io_depth; r ← table_row io_index; row_write_call n r k addr val.

(** ** Registration of memory *)

Definition cpu_register_physical_memory_log (start_addr size phys_off region_off : Z) (log_dirty : bool) : MM () :=
  r ← gets (λ s, rr_in_record (mm_rr s)); n ← gets (λ s, rr_record_in_progress (mm_rr s));
  (if r && n then in_rr (rr_reg_mem_call_record start_addr size phys_off) else mret ());;
  assert_or Abort (negb (size =? 0));;
  mm_emit (EvSetMemory start_addr size phys_off log_dirty);;
  in_io (register_region start_addr size phys_off region_off);;
  mm_emit EvTlbFlush.

(** ** Reading and writing *)

Section Calls.
(** Performs a call recorded in the log. *)
Variable perform_call : rr_event → MM ().

Fixpoint perform_calls (es : list rr_event) : MM () :=
  match es with [] => mret () | e :: es' => perform_call e;; perform_calls es' end.

(** [RR_DO_RECORD_OR_REPLAY] around an action on the machine. *)
Definition mm_record_or_replay {A} (action : MM A) (record_action : A → RR ())
    (replay_action : RR A) (location : Z) : MM A :=
  m ← gets (λ s, rr_mode (mm_rr s));
  match m with
  | RR_RECORD =>
      nested ← gets (λ s, rr_record_in_progress (mm_rr s));
      if (nested : bool) then action else
      in_rr (modify (set_rr_record_in_progress true));;
      in_rr (modify (set_rr_skipped_callsite_location location));;
      in_rr rr_set_program_point;;
      a ← action;
      in_rr (record_action a);;
      in_rr (modify (set_rr_record_in_progress false));;
      mret a
  | RR_REPLAY =>
      in_rr (modify (set_rr_skipped_callsite_location location));;
      in_rr rr_set_program_point;;
      n ← gets (λ s, length (rr_trace (mm_rr s)));
      in_rr rr_replay_skipped_calls;;
      es ← gets (λ s, drop n (rr_trace (mm_rr s)));
      perform_calls es;;
      in_rr replay_action
  | RR_OFF => action
  end.

(** An I/O read of [2^k] bytes: recorded, or taken from the log. *)
Definition io_read (io_index k addr1 : Z) (size : nat) (input : Z → RR Z) (loc : RR_callsite_id) : MM Z :=
  mm_record_or_replay (v ← io_mem_read io_index k addr1; mret (wrap (8 * Z.of_nat size) v))
    (λ v, input v;; mret ()) (input 0) (callsite_Z loc).

(** An I/O write: nothing to record, and not performed in a replay. *)
Definition io_write (io_index k addr1 val : Z) (loc : RR_callsite_id) : MM () :=
  if io_index =? Z.shiftr IO_MEM_NOTDIRTY IO_MEM_SHIFT then io_mem_write io_index k addr1 val
  else mm_record_or_replay (io_mem_write io_index k addr1 val) (λ _, mret ()) (mret ()) (callsite_Z loc).

Definition run_ram_callbacks (after is_write : bool) (buf addr1 l : Z) : MM () :=
  m ← gets (λ s, rr_mode (mm_rr s));
  if decide (m = RR_REPLAY) then
    cbs ← in_rr (on_cbs (panda_run_callbacks
      (if after then PANDA_CB_REPLAY_AFTER_CPU_PHYSICAL_MEM_RW_RAM
       else PANDA_CB_REPLAY_BEFORE_CPU_PHYSICAL_MEM_RW_RAM)));
    mm_emit (EvRamCallbacks after cbs is_write buf addr1 l)
  else mret ().

(** A write to a RAM page: its code is dropped unless the page is dirty in all
    respects, then every flag but the one for code is set. *)
Definition mark_dirty (addr1 l : Z) : MM () :=
  d ← in_ram (cpu_physical_memory_is_dirty addr1);
  if (d : bool) then mret () else
  mm_emit (EvTbInvalidate addr1 (wrap 64 (addr1 + l)));;
  in_ram (cpu_physical_memory_set_dirty_flags addr1 (Z.land 255 (Z.lnot CODE_DIRTY_FLAG))).

Definition page_of (addr : Z) : Z := Z.land addr TARGET_PAGE_MASK.
Definition offset_of (addr : Z) : Z := Z.land addr (Z.lnot TARGET_PAGE_MASK).
Definition chunk (addr len : Z) : Z :=
  let l := int32 (wrap phys_width (page_of addr + TARGET_PAGE_SIZE - addr)) in
  if len <? l then len else l.
Definition find_desc (addr : Z) : MM (option PhysPageDesc) :=
  gets (λ s, phys_page_find (mm_map s) (Z.shiftr (page_of addr) TARGET_PAGE_BITS)).
Definition desc_pd (p : option PhysPageDesc) : Z :=
  match p with Some d => phys_offset d | None => IO_MEM_UNASSIGNED end.
Definition desc_io_index (pd : Z) : Z := Z.land (Z.shiftr pd IO_MEM_SHIFT) (IO_MEM_NB_ENTRIES - 1).
Definition desc_io_addr (p : option PhysPageDesc) (addr : Z) : Z :=
  match p with Some d => wrap phys_width (offset_of addr + region_offset d) | None => addr end.
Definition ram_addr_of (pd addr : Z) : Z := wrap 64 (page_of pd + offset_of addr).

Definition io_write_step (p : option PhysPageDesc) (addr buf l : Z) : MM Z :=
  let io_index := desc_io_index (desc_pd p) in
  let addr1 := desc_io_addr p addr in
  if (4 <=? l) && (Z.land addr1 3 =? 0) then
    val ← ld_p 4 buf; io_write io_index 2 addr1 val RR_CALLSITE_PHYS_MEM_IO_1;; mret 4
  else if (2 <=? l) && (Z.land addr1 1 =? 0) then
    val ← ld_p 2 buf; io_write io_index 1 addr1 val RR_CALLSITE_PHYS_MEM_IO_2;; mret 2
  else val ← ld_p 1 buf; io_write io_index 0 addr1 val RR_CALLSITE_PHYS_MEM_IO_3;; mret 1.

(** While a device call is recorded, the write goes to the log: all that is left
    of it, not this page's part. *)
Definition record_ram_write (addr buf len : Z) : MM () :=
  r ← gets (λ s, rr_in_record (mm_rr s)); n ← gets (λ s, rr_record_in_progress (mm_rr s));
  if r && n then
    d ← load buf len; in_rr (rr_device_mem_rw_call_record addr (HBuf buf d) len)
  else mret ().

Definition copy_to_ram (addr1 buf l : Z) : MM () :=
  ptr ← in_ram (qemu_get_ram_ptr addr1);
  run_ram_callbacks false true buf addr1 l;;
  memcpy ptr buf l;;
  run_ram_callbacks true true buf addr1 l.

Definition ram_write_step (pd addr buf len l : Z) : MM Z :=
  let addr1 := ram_addr_of pd addr in
  copy_to_ram addr1 buf l;;
  mark_dirty addr1 l;;
  record_ram_write addr buf len;;
  mret l.

Definition io_read_step (p : option PhysPageDesc) (addr buf l : Z) : MM Z :=
  let io_index := desc_io_index (desc_pd p) in
  let addr1 := desc_io_addr p addr in
  if (4 <=? l) && (Z.land addr1 3 =? 0) then
    val ← io_read io_index 2 addr1 4 rr_input_4 RR_CALLSITE_CPU_PHYSICAL_MEMORY_RW_2; st_p 4 buf val;; mret 4
  else if (2 <=? l) && (Z.land addr1 1 =? 0) then
    val ← io_read io_index 1 addr1 2 rr_input_2 RR_CALLSITE_CPU_PHYSICAL_MEMORY_RW_3; st_p 2 buf val;; mret 2
  else val ← io_read io_index 0 addr1 1 rr_input_1 RR_CALLSITE_CPU_PHYSICAL_MEMORY_RW_4; st_p 1 buf val;; mret 1.

Definition ram_read_step (pd addr buf l : Z) : MM Z :=
  ptr ← in_ram (qemu_get_ram_ptr (page_of pd));
  let dest := ptr + offset_of addr in
  let addr1 := ram_addr_of pd addr in
  run_ram_callbacks false false buf addr1 l;;
  memcpy buf dest l;;
  run_ram_callbacks true false buf addr1 l;;
  mret l.

Definition some_of (m : MM Z) : MM (option Z) := l ← m; mret (Some l).

(** One turn of the loop: the bytes transferred, or none when an I/O page was
    met in safe mode. *)
Definition rw_step (addr buf len : Z) (is_write safe : bool) : MM (option Z) :=
  let l := chunk addr len in
  p ← find_desc addr;
  let pd := desc_pd p in
  if is_write then
    if negb (offset_of pd =? IO_MEM_RAM) then
      if safe then mret None else some_of (io_write_step p addr buf l)
    else some_of (ram_write_step pd addr buf len l)
  else if (IO_MEM_ROM <? offset_of pd) && (Z.land pd IO_MEM_ROMD =? 0) then
      if safe then mret None else some_of (io_read_step p addr buf l)
    else some_of (ram_read_step pd addr buf l).

Fixpoint rw_loop (fuel : nat) (addr buf len : Z) (is_write safe : bool) : MM Z :=
  if 0 <? len then
    match fuel with
    | O => fail OutOfFuel
    | S fuel' =>
        r ← rw_step addr buf len is_write safe;
        match r with
        | None => mret (-1)
        | Some l => rw_loop fuel' (wrap phys_width (addr + l)) (buf + l) (len - l) is_write safe
        end
    end
  else mret 0.

(** Every turn transfers a byte at least. *)
Definition cpu_physical_memory_rw_ex (addr buf len : Z) (is_write safe : bool) : MM Z :=
  rw_loop (Z.to_nat len) addr buf len is_write safe.

Definition cpu_physical_memory_rw (addr buf len : Z) (is_write : bool) : MM () :=
  _ ← cpu_physical_memory_rw_ex addr buf len is_write false; mret ().
Definition panda_physical_memory_rw (addr buf len : Z) (is_write : bool) : MM Z :=
  cpu_physical_memory_rw_ex addr buf len is_write true.

(** ROM loading: writes RAM and ROM pages, skips the others. *)
Fixpoint write_rom_loop (fuel : nat) (addr buf len : Z) : MM () :=
  if 0 <? len then
    match fuel with
    | O => fail OutOfFuel
    | S fuel' =>
        let l := chunk addr len in
        p ← find_desc addr;
        let pd := desc_pd p in
        (if negb (offset_of pd =? IO_MEM_RAM) && negb (offset_of pd =? IO_MEM_ROM)
            && (Z.land pd IO_MEM_ROMD =? 0) then mret ()
         else ptr ← in_ram (qemu_get_ram_ptr (ram_addr_of pd addr)); memcpy ptr buf l);;
        write_rom_loop fuel' (wrap phys_width (addr + l)) (buf + l) (len - l)
    end
  else mret ().
Definition cpu_physical_memory_write_rom (addr buf len : Z) : MM () :=
  write_rom_loop (Z.to_nat len) addr buf len.

(** ** Mapping *)

(** The pages of the range until one that is not RAM: the RAM address of the
    first and the length; or the bounce buffer, if the first page is not RAM and
    the buffer is free. *)
Fixpoint map_loop (fuel : nat) (addr len todo raddr : Z) (is_write : bool) : MM (Z * Z + Z * Z) :=
  if 0 <? len then
    match fuel with
    | O => fail OutOfFuel
    | S fuel' =>
        let l := chunk addr len in
        p ← find_desc addr;
        let pd := desc_pd p in
        if negb (offset_of pd =? IO_MEM_RAM) then
          b ← gets bounce;
          if negb (todo =? 0) || bool_decide (is_Some (bb_buffer b)) then mret (inl (raddr, todo))
          else
            buf ← in_ram (qemu_vmalloc TARGET_PAGE_SIZE);
            modify (set_bounce (mkBounce (Some buf) addr l));;
            (if is_write then mret () else cpu_physical_memory_rw addr buf l false);;
            mret (inr (buf, l))
        else
          map_loop fuel' (wrap phys_width (addr + l)) (len - l) (wrap phys_width (todo + l))
            (if todo =? 0 then ram_addr_of pd addr else raddr) is_write
    end
  else mret (inl (raddr, todo)).

(** Every page but the first and the last is a whole one. *)
Definition map_fuel (len : Z) : nat := Z.to_nat (len / TARGET_PAGE_SIZE + 2).

(** Returns the pointer (or null) and the new [*plen]. *)
Definition cpu_physical_memory_map (addr plen : Z) (is_write : bool) : MM (option Z * Z) :=
  r ← map_loop (map_fuel plen) addr plen 0 RAM_ADDR_MAX is_write;
  match r with
  | inr (buf, l) => mret (Some buf, l)
  | inl (raddr, todo) =>
      '(ret, rlen) ← in_ram (qemu_ram_ptr_length raddr todo);
      mret (ret, wrap phys_width rlen)
  end.

Definition cpu_register_map_client (opaque callback : Z) : MM Z :=
  c ← gets mc_fresh;
  modify (λ s, set_map_client_list (mkClient c opaque callback :: map_client_list s) (set_mc_fresh (c + 1) s));;
  mret c.

(** [QLIST_REMOVE] and [g_free] of a client that is in the list. *)
Definition cpu_unregister_map_client (c : Z) : MM () :=
  l ← gets map_client_list;
  assert_or UseAfterFree (bool_decide (c ∈ mc_id <$> l));;
  modify (set_map_client_list (filter (λ x, mc_id x ≠ c) l)).

Fixpoint notify_loop (fuel : nat) : MM () :=
  l ← gets map_client_list;
  match l with
  | [] => mret ()
  | c :: _ =>
      match fuel with
      | O => fail OutOfFuel
      | S fuel' =>
          mm_emit (EvMapClient (mc_callback c) (mc_opaque c));;
          cpu_unregister_map_client (mc_id c);;
          notify_loop fuel'
      end
  end.
Definition cpu_notify_map_clients : MM () := n ← gets (λ s, length (map_client_list s)); notify_loop n.

(** The pages from [addr1] on, one at a time. *)
Fixpoint unmap_dirty_loop (fuel : nat) (addr1 access_len : Z) : MM () :=
  if access_len =? 0 then mret () else
  match fuel with
  | O => fail OutOfFuel
  | S fuel' =>
      let l := if access_len <? TARGET_PAGE_SIZE then access_len else TARGET_PAGE_SIZE in
      mark_dirty addr1 l;;
      unmap_dirty_loop fuel' (wrap 64 (addr1 + l)) (access_len - l)
  end.

Definition cpu_physical_memory_unmap (buffer len : Z) (is_write : bool) (access_len : Z) : MM () :=
  b ← gets bounce;
  if decide (bb_buffer b = Some buffer) then
    (if is_write then cpu_physical_memory_rw (bb_addr b) buffer (int32 access_len) true else mret ());;
    in_ram (qemu_vfree buffer TARGET_PAGE_SIZE);;
    modify (λ s, set_bounce (mkBounce None (bb_addr (bounce s)) (bb_len (bounce s))) s);;
    cpu_notify_map_clients
  else if is_write then
    addr1 ← in_ram (qemu_ram_addr_from_host_nofail buffer);
    r ← gets (λ s, rr_in_record (mm_rr s)); n ← gets (λ s, rr_record_in_progress (mm_rr s));
    (if r && n then
       d ← load buffer access_len;
       in_rr (rr_cpu_physical_memory_unmap_record addr1 (HBuf buffer d) access_len)
     else mret ());;
    unmap_dirty_loop (map_fuel access_len) addr1 access_len
  else mret ().

(** ** [panda_memsavep] *)

(** The pages of RAM from [addr] on, written to the file; pages that cannot be
    read are zero. *)
Fixpoint memsavep_loop (fuel : nat) (mem_buf addr ram_size : Z) : MM (list byte) :=
  if addr <? ram_size then
    match fuel with
    | O => fail OutOfFuel
    | S fuel' =>
        res ← panda_physical_memory_rw addr mem_buf TARGET_PAGE_SIZE false;
        page ← (if res =? -1 then mret (zero_bytes (Z.to_nat TARGET_PAGE_SIZE)) else load mem_buf TARGET_PAGE_SIZE);
        rest ← memsavep_loop fuel' mem_buf (addr + TARGET_PAGE_SIZE) ram_size;
        mret (page ++ rest)
    end
  else mret [].

(** Without a file nothing is done; [mem_buf] is on the stack. Returns what is
    written. *)
Definition panda_memsavep (f : option ()) (mem_buf ram_size : Z) : MM (list byte) :=
  match f with
  | None => mret []
  | Some _ => memsavep_loop (Z.to_nat (ram_size / TARGET_PAGE_SIZE + 1)) mem_buf 0 ram_size
  end.

End Calls.

(** ** Recorded calls

    A memory write is performed from a copy of the recorded buffer, an unmapped
    buffer by mapping it again, memory is registered again; the other calls only
    run plugin callbacks, which the log component does. *)
Fixpoint perform_call (depth : nat) (e : rr_event) : MM () :=
  match depth with
  | O => fail OutOfFuel
  | S depth' =>
      match e with
      | EvMemRw addr data len =>
          buf ← in_ram (qemu_vmalloc (Z.of_nat (length data)));
          store buf data;;
          cpu_physical_memory_rw (perform_call depth') addr buf (int32 len) true;;
          in_ram (qemu_vfree buf (Z.of_nat (length data)))
      | EvMapUnmap addr _ data =>
          let len := Z.of_nat (length data) in
          '(host_buf, plen) ← cpu_physical_memory_map (perform_call depth') addr len true;
          p ← nonnull host_buf;
          store p data;;
          cpu_physical_memory_unmap (perform_call depth') p plen true len
      | EvRegMem start_addr size phys_offset => cpu_register_physical_memory_log start_addr size phys_offset 0 false
      | _ => mret ()
      end
  end.

End PhysMem.
