(* ===== verification/PhysMemFacts.v ===== *)
(** * Physical memory access: theorems

    Writes and reads of RAM pages refine the view of [PhysView]; the safe variant
    never reaches a device; what a recording wrote by DMA is what the replay of
    its log entries writes. *)

From S2P Require Import Prelude CFile CString HostMem RamList Radix PhysPages PhysView RRTypes.
From S2P Require Import PandaCallbacks RRState RRQueue RRFormat RRReplay RRReplayInv RRRecord IOMem.
From S2P Require Import PhysMem.
Local Open Scope Z_scope.
Local Open Scope panda_scope.

Section Facts.
Context `{TargetPhys} `{TargetEndian} `{Machine} `{HostAlloc} `{PhysSpace} `{!Devices}.
Variable perform : rr_event → MM ().

(** ** Running parts *)

Lemma bind_in_ram {A B} (m : RAM A) (k : A → MM B) s a r :
  m (mm_ram s) = Ok a r → (in_ram m ≫= k) s = k a (set_mm_ram r s).
Proof. intros E. unfold mbind, M_bind, in_ram. by rewrite E. Qed.

Lemma bind_in_rr {A B} (m : RR A) (k : A → MM B) s a r :
  m (mm_rr s) = Ok a r → (in_rr m ≫= k) s = k a (set_mm_rr r s).
Proof. intros E. unfold mbind, M_bind, in_rr. by rewrite E. Qed.

Lemma load_ok s p n d :
  mem_read (ram_mem (mm_ram s)) p (Z.to_nat n) = Some d → load p n s = Ok d s.
Proof. intros E. unfold load. by rewrite bind_gets, E. Qed.

Lemma store_ok s p d :
  mapped (ram_mem (mm_ram s)) p (Z.of_nat (length d)) →
  store p d s = Ok () (set_mm_ram (set_ram_mem (mem_write (ram_mem (mm_ram s)) p d) (mm_ram s)) s).
Proof.
  intros Hm. unfold store. rewrite bind_gets. destruct (mem_read_mapped _ _ _ Hm) as [l ->]. done.
Qed.

(** ** Pages and chunks *)

Lemma find_desc_ok addr s : find_desc addr s = Ok (phys_page_find (mm_map s) (addr / 4096)) s.
Proof.
  unfold find_desc, gets, page_of. rewrite page_mask, Z.shiftr_div_pow2 by done.
  change (2 ^ TARGET_PAGE_BITS) with 4096. do 2 f_equal.
  pose proof (Z.div_mod addr 4096 ltac:(lia)). symmetry.
  apply (Z.div_unique _ _ _ 0); [left; lia|lia].
Qed.

Lemma chunk_eq addr len : chunk addr len = Z.min len (4096 - addr mod 4096).
Proof.
  unfold chunk, page_of. rewrite page_mask. change TARGET_PAGE_SIZE with 4096.
  pose proof (Z.mod_pos_bound addr 4096 ltac:(lia)).
  replace (addr - addr mod 4096 + 4096 - addr) with (4096 - addr mod 4096) by lia.
  assert (E : wrap phys_width (4096 - addr mod 4096) = 4096 - addr mod 4096).
  { apply wrap_small. unfold in_width. destruct phys_width_cases as [->| ->]; lia. }
  rewrite E. unfold int32. rewrite wrap_small by (unfold in_width; lia).
  replace (_ + 2 ^ 31 - 2 ^ 31) with (4096 - addr mod 4096) by lia.
  destruct (Z.ltb_spec len (4096 - addr mod 4096)); lia.
Qed.

(** The RAM address of a physical address on a RAM page. *)
Definition ram_trans (m : gmap Z (ptab P_LEVELS)) (a : Z) : option Z :=
  d ← phys_page_find m (a / 4096);
  if decide (phys_offset d mod 4096 = 0) then Some (phys_offset d + a mod 4096) else None.

Definition ram_page (s : mem_state) (a : Z) : Prop :=
  ∃ d b, phys_page_find (mm_map s) (a / 4096) = Some d ∧ phys_offset d mod 4096 = 0 ∧
    owner (phys_offset d) (mm_ram s) b.
Definition ram_range (s : mem_state) (addr n : Z) : Prop := ∀ a, in_range addr n a → ram_page s a.

(** Memory that backs no block. *)
Definition unbacked (r : ram_state) (p n : Z) : Prop :=
  Forall (λ b, apart p n (blk_host b) (blk_length b)) (ram_blocks r).

Lemma mod_in_page addr i : 0 ≤ i → addr mod 4096 + i < 4096 →
  (addr + i) / 4096 = addr / 4096 ∧ (addr + i) mod 4096 = addr mod 4096 + i.
Proof.
  intros Hi Hlt. pose proof (Z.div_mod addr 4096 ltac:(lia)). pose proof (Z.mod_pos_bound addr 4096 ltac:(lia)).
  assert ((addr + i) / 4096 = addr / 4096) by (symmetry; apply (Z.div_unique _ _ _ (addr mod 4096 + i)); lia).
  split; [done|]. rewrite Z.mod_eq by lia. lia.
Qed.

Lemma page_contiguous m addr d n :
  phys_page_find m (addr / 4096) = Some d → phys_offset d mod 4096 = 0 →
  n ≤ 4096 - addr mod 4096 →
  contiguous (ram_trans m) addr (phys_offset d + addr mod 4096) n.
Proof.
  intros Hf Ha Hn i Hi. destruct (mod_in_page addr i) as [E1 E2]; [lia..|]. unfold ram_trans.
  rewrite E1, E2, Hf. simpl. rewrite decide_True by done. f_equal. lia.
Qed.

(** A RAM page lies in its block. *)
Lemma owner_page s pd b :
  ram_ok (mm_ram s) → owner pd (mm_ram s) b → pd mod 4096 = 0 →
  in_width 64 pd ∧ 0 ≤ pd ∧ pd + 4096 ≤ 2 ^ 64 ∧ pd + 4096 ≤ blk_offset b + blk_length b ∧
  blk_offset b ≤ pd ∧ block_ok b.
Proof.
  intros Hok [Hin Hr] Ha. pose proof (proj1 (Forall_forall _ _) (ro_blocks _ Hok) b Hin) as Hb.
  pose proof Hb as (B1 & B2 & B3 & B4 & B5 & _). unfold in_range, RAM_ADDR_MAX in *.
  pose proof (Z.div_mod pd 4096 ltac:(lia)). pose proof (Z.div_mod (blk_offset b) 4096 ltac:(lia)).
  pose proof (Z.div_mod (blk_length b) 4096 ltac:(lia)).
  assert (pd + 4096 ≤ blk_offset b + blk_length b) by lia. unfold in_width. split_and!; try done; lia.
Qed.

Lemma ram_addr_eq pd addr : pd mod 4096 = 0 → in_width 64 pd → pd + 4096 ≤ 2 ^ 64 →
  ram_addr_of pd addr = pd + addr mod 4096.
Proof.
  intros Ha Hw Hu. unfold ram_addr_of, page_of, offset_of. rewrite page_mask, page_offset, Ha, Z.sub_0_r.
  pose proof (Z.mod_pos_bound addr 4096 ltac:(lia)). apply wrap_small. unfold in_width in *. lia.
Qed.

(** ** Dirty pages *)

Definition not_code : Z := Z.land 255 (Z.lnot CODE_DIRTY_FLAG).

Lemma or_flags v : in_width 8 v →
  let w := wrap 8 (Z.lor v not_code) in
  Z.land v w = v ∧ Z.land w not_code = not_code ∧ in_width 8 w.
Proof.
  intros Hv. cbv zeta.
  assert (Hall : Forall (λ v, Z.land v (wrap 8 (Z.lor v not_code)) = v ∧
    Z.land (wrap 8 (Z.lor v not_code)) not_code = not_code ∧ in_width 8 (wrap 8 (Z.lor v not_code))) (seqZ 0 256)).
  { apply (bool_decide_unpack _). vm_compute. exact I. }
  rewrite Forall_forall in Hall. apply (Hall v), elem_of_seqZ. unfold in_width in Hv. lia.
Qed.

Definition invalidated (s : mem_state) (i : nat) : Prop :=
  ∃ a e, EvTbInvalidate a e ∈ mm_trace s ∧ Z.to_nat (page_index a) = i.

(** What a transfer to or from RAM leaves alone: the page table, the bounce
    buffer, the waiting clients, the blocks up to their order. Dirty flags are
    only added, and a page does not become fully dirty before its code was
    dropped. *)
Record mem_frame (s s1 : mem_state) : Prop := {
  mf_map : mm_map s1 = mm_map s;
  mf_bounce : bounce s1 = bounce s;
  mf_clients : map_client_list s1 = map_client_list s;
  mf_fresh : mc_fresh s1 = mc_fresh s;
  mf_ok : ram_ok (mm_ram s1);
  mf_blocks : ram_blocks (mm_ram s) ≡ₚ ram_blocks (mm_ram s1);
  mf_dirty : ∀ i v, phys_dirty (mm_ram s) !! i = Some v →
    ∃ w, phys_dirty (mm_ram s1) !! i = Some w ∧ Z.land v w = v;
  mf_inval : ∀ i, phys_dirty (mm_ram s1) !! i = Some 255 →
    phys_dirty (mm_ram s) !! i = Some 255 ∨ invalidated s1 i;
  mf_trace : mm_trace s `prefix_of` mm_trace s1;
}.

Lemma mem_frame_refl s : ram_ok (mm_ram s) → mem_frame s s.
Proof. intros Hok. split; try done; [|auto]. intros i v Hv. exists v. by rewrite Z.land_diag. Qed.

Lemma invalidated_prefix s s1 i : mm_trace s `prefix_of` mm_trace s1 → invalidated s i → invalidated s1 i.
Proof.
  intros [k Hk] (a & e & He & Hi). exists a, e. split; [|done]. rewrite Hk. apply elem_of_app. by left.
Qed.

Lemma mem_frame_trans s s1 s2 : mem_frame s s1 → mem_frame s1 s2 → mem_frame s s2.
Proof.
  intros [A1 A2 A3 A4 A5 A6 A7 A8 A9] [B1 B2 B3 B4 B5 B6 B7 B8 B9]. split; try congruence.
  - by trans (ram_blocks (mm_ram s1)).
  - intros i v Hv. destruct (A7 i v Hv) as (w & Hw & E). destruct (B7 i w Hw) as (x & Hx & E').
    exists x. split; [done|]. rewrite <-E at 1. rewrite <-Z.land_assoc, E'. done.
  - intros i Hi. destruct (B8 i Hi) as [Hi'|Hi']; [|auto]. destruct (A8 i Hi') as [|Hx]; [auto|].
    right. by apply (invalidated_prefix s1).
  - by trans (mm_trace s1).
Qed.

Lemma frame_page s s1 a : mem_frame s s1 → ram_page s a → ram_page s1 a.
Proof.
  intros [F1 _ _ _ _ F6 _ _ _] (d & b & Hd & Ha & Hin & Hr). exists d, b. rewrite F1.
  split_and!; try done. split; [by rewrite <-F6|done].
Qed.

Lemma frame_unbacked s s1 p n : mem_frame s s1 → unbacked (mm_ram s) p n → unbacked (mm_ram s1) p n.
Proof. intros Hf Hu. unfold unbacked. by rewrite <-(mf_blocks _ _ Hf). Qed.

Lemma dirty_lookup s ra b :
  ram_ok (mm_ram s) → owner ra (mm_ram s) b →
  ∃ v, phys_dirty (mm_ram s) !! Z.to_nat (page_index ra) = Some v ∧ in_width 8 v ∧ 0 ≤ page_index ra.
Proof.
  intros Hok [Hin Hr]. pose proof (proj1 (Forall_forall _ _) (ro_dirty _ Hok) b Hin) as Hd. simpl in Hd.
  pose proof (proj1 (Forall_forall _ _) (ro_blocks _ Hok) b Hin) as (B1 & _). unfold in_range in Hr.
  assert (0 ≤ page_index ra) by (rewrite page_index_div; apply Z.div_pos; lia).
  destruct (lookup_lt_is_Some_2 (phys_dirty (mm_ram s)) (Z.to_nat (page_index ra))) as [v Hv].
  { rewrite page_index_div in *. pose proof (Z.div_mod ra 4096 ltac:(lia)).
    pose proof (Z.mod_pos_bound ra 4096 ltac:(lia)). lia. }
  exists v. split_and!; try done. by apply (Forall_lookup_1 _ _ _ _ (ro_bytes _ Hok) Hv).
Qed.

Lemma set_dirty_ok r i v w :
  ram_ok r → phys_dirty r !! i = Some v → in_width 8 w → ram_ok (set_phys_dirty (<[i := w]> (phys_dirty r)) r).
Proof.
  intros [R1 R2 R3 R4 R5 R6] Hv Hw. split; try done; simpl; [by rewrite length_insert|by apply Forall_insert].
Qed.

Lemma mark_dirty_ok s ra l b :
  ram_ok (mm_ram s) → owner ra (mm_ram s) b →
  ∃ s1, mark_dirty ra l s = Ok () s1 ∧ mem_frame s s1 ∧ mm_rr s1 = mm_rr s ∧
    ram_blocks (mm_ram s1) = ram_blocks (mm_ram s) ∧ ram_mem (mm_ram s1) = ram_mem (mm_ram s) ∧
    (∃ w, phys_dirty (mm_ram s1) !! Z.to_nat (page_index ra) = Some w ∧ Z.land w not_code = not_code) ∧
    (phys_dirty (mm_ram s) !! Z.to_nat (page_index ra) = Some 255 ∨
     invalidated s1 (Z.to_nat (page_index ra))).
Proof.
  intros Hok Ho. destruct (dirty_lookup s ra b Hok Ho) as (v & Hv & Hw & Hp). unfold mark_dirty.
  set (i := Z.to_nat (page_index ra)) in *.
  assert (Hd : cpu_physical_memory_is_dirty ra (mm_ram s) = Ok (v =? 255) (mm_ram s)).
  { unfold cpu_physical_memory_is_dirty, cpu_physical_memory_get_dirty_flags.
    by rewrite bind_assoc, bind_gets, (bind_Ok _ _ _ _ _ (at_idx_ok _ _ _ _ Hp Hv)). }
  rewrite (bind_in_ram _ _ _ _ _ Hd). replace (set_mm_ram (mm_ram s) s) with s by (by destruct s).
  destruct (Z.eqb_spec v 255) as [->|Hne].
  { exists s. split_and!; try done; [by apply mem_frame_refl|by exists 255|by left]. }
  destruct (or_flags v Hw) as (O1 & O2 & O3). unfold mm_emit. rewrite bind_modify.
  set (s0 := set_mm_trace _ s). unfold in_ram, cpu_physical_memory_set_dirty_flags, set_dirty_byte.
  change (mm_ram s0) with (mm_ram s). unfold cpu_physical_memory_get_dirty_flags.
  rewrite bind_assoc, bind_gets, (bind_Ok _ _ _ _ _ (at_idx_ok _ _ _ _ Hp Hv)). fold i.
  eexists. split; [reflexivity|].
  assert (Hinv : ∀ r, invalidated (set_mm_ram r s0) i).
  { intros r. exists ra, (wrap 64 (ra + l)). split; [|done]. apply elem_of_app. right. by left. }
  pose proof (lookup_lt_Some _ _ _ Hv) as Hlt.
  split_and!; try done; [| |by right].
  - split; try done; [by eapply set_dirty_ok|..].
    + intros j u Hu. simpl. destruct (decide (i = j)) as [<-|Hij].
      * rewrite list_lookup_insert_eq by done. eexists. split; [done|]. by simplify_eq.
      * rewrite list_lookup_insert_ne by done. exists u. by rewrite Z.land_diag.
    + intros j. simpl. destruct (decide (i = j)) as [<-|Hij]; [by right|].
      rewrite list_lookup_insert_ne by done. by left.
    + by apply prefix_app_r.
  - eexists. split; [by apply list_lookup_insert_eq|done].
Qed.

(** ** The log while memory is written *)

(** The record/replay state allows the transfer: callback lists are intact in a
    replay, the log is open while a device call is recorded. *)
Definition rr_calm (r : rr_state) : Prop :=
  match rr_mode r with
  | RR_OFF => True
  | RR_REPLAY => ∃ xss, cb_rep (rr_cbs r) xss
  | RR_RECORD => rr_record_in_progress r = true → ∃ l f, recording r l f
  end.

Definition logging (r : rr_state) : bool := rr_in_record r && rr_record_in_progress r.

(** [items] were appended to the log; nothing else that matters changed. *)
Record logs (r r1 : rr_state) (items : list log_item) : Prop := {
  lg_mode : rr_mode r1 = rr_mode r;
  lg_pp : rr_prog_point r1 = rr_prog_point r;
  lg_site : rr_skipped_callsite_location r1 = rr_skipped_callsite_location r;
  lg_nested : rr_record_in_progress r1 = rr_record_in_progress r;
  lg_file : ∃ l f l1 f1, recording r l f ∧ recording r1 l1 f1 ∧ f_name f1 = f_name f ∧
    h_data (rr_host r1) (f_name f) = h_data (rr_host r) (f_name f) ++ concat (item_bytes <$> items);
}.

Definition rr_wrote (r r1 : rr_state) (items : list log_item) : Prop :=
  if logging r then logs r r1 items else r1 = r.

Lemma logs_trans r r1 r2 xs ys : logs r r1 xs → logs r1 r2 ys → logs r r2 (xs ++ ys).
Proof.
  intros [A1 A2 A3 A4 (l & f & l1 & f1 & Ha & Hb & En & Ed)] [B1 B2 B3 B4 (l1' & f1' & l2 & f2 & Hc & Hd & En' & Ed')].
  split; try congruence. assert (f1' = f1) as ->.
  { pose proof (rec_log _ _ _ Hb) as L1. pose proof (rec_log _ _ _ Hc) as L2. rewrite L1 in L2. injection L2 as <-.
    pose proof (rec_fp _ _ _ Hb) as P1. pose proof (rec_fp _ _ _ Hc) as P2. rewrite P1 in P2. by injection P2. }
  exists l, f, l2, f2. split_and!; try done; [congruence|].
  rewrite <-En, Ed', En, Ed, fmap_app, concat_app, app_assoc. done.
Qed.

Lemma logs_logging r r1 xs : logs r r1 xs → logging r1 = logging r.
Proof. intros [A1 _ _ A4 _]. unfold logging, rr_in_record. by rewrite A1, A4. Qed.

Lemma rr_wrote_trans r r1 r2 xs ys : rr_wrote r r1 xs → rr_wrote r1 r2 ys → rr_wrote r r2 (xs ++ ys).
Proof.
  unfold rr_wrote. destruct (logging r) eqn:E.
  - intros Ha. rewrite (logs_logging _ _ _ Ha), E. by apply logs_trans.
  - intros ->. by rewrite E.
Qed.

Lemma calm_recording r : rr_calm r → logging r = true → ∃ l f, recording r l f.
Proof.
  unfold rr_calm, logging, rr_in_record. intros Hc E. apply andb_prop in E as [E Ep].
  apply bool_decide_eq_true in E. rewrite E in Hc. by apply Hc.
Qed.

Lemma rr_wrote_refl r : rr_calm r → rr_wrote r r [].
Proof.
  intros Hc. unfold rr_wrote. destruct (logging r) eqn:E; [|done].
  destruct (calm_recording r Hc E) as (l & f & Hr). split; try done. exists l, f, l, f. simpl. by rewrite app_nil_r.
Qed.

Lemma rr_wrote_calm r r1 xs : rr_calm r → rr_wrote r r1 xs → rr_calm r1.
Proof.
  intros Hc. unfold rr_wrote. destruct (logging r) eqn:E; [|by intros ->].
  intros [A1 _ _ _ (_ & _ & l1 & f1 & _ & Hr & _)]. unfold rr_calm. rewrite A1.
  unfold logging, rr_in_record in E. apply andb_prop in E as [E _]. apply bool_decide_eq_true in E.
  rewrite E. intros _. eauto.
Qed.

(** The entry for a call at the current point and call site. *)
Definition site_item (r : rr_state) (c : log_call) : log_item :=
  mkItem (rr_prog_point r) (wrap 8 (rr_skipped_callsite_location r)) (LCall c).
Abbreviation dma_item r addr buf d := (site_item r (LMemRw addr buf d)).

#[local] Opaque item_bytes.

Lemma record_dma r l f addr buf d :
  recording r l f → zlen d < 2 ^ 32 →
  ∃ r1, rr_device_mem_rw_call_record addr (HBuf buf d) (zlen d) r = Ok () r1 ∧
    logs r r1 [dma_item r addr buf d].
Proof.
  intros Hrec Hlen. unfold rr_device_mem_rw_call_record, rr_record_cpu_mem_rw_call.
  rewrite bind_gets, (wrap_small 32) by (unfold in_width; pose proof (zlen_nonneg d); lia).
  set (v := VCall _). set (cs := rr_skipped_callsite_location r).
  assert (Hok : variant_ok v) by (simpl; unfold zlen; lia).
  rewrite (record_item_ok r l f cs v Hrec Hok). eexists. split; [reflexivity|].
  destruct (recorded_recording r l f cs v Hrec) as (l1 & f1 & Hr1 & _ & _ & En & _ & Ed).
  split; try done. exists l, f, l1, f1. split_and!; try done. rewrite Ed. simpl. rewrite app_nil_r.
  do 2 f_equal. unfold recorded_item, site_item, v. simpl. unfold zlen. by rewrite Nat2Z.id, take_ge.
Qed.

Lemma ram_callbacks_ok s after w buf ra l :
  rr_calm (mm_rr s) →
  ∃ es, run_ram_callbacks after w buf ra l s = Ok () (set_mm_trace (mm_trace s ++ es) s).
Proof.
  intros Hc. unfold run_ram_callbacks. rewrite bind_gets.
  destruct (decide (rr_mode (mm_rr s) = RR_REPLAY)) as [E|E].
  - unfold rr_calm in Hc. rewrite E in Hc. destruct Hc as [xss Hr].
    set (t := if after then _ else _). destruct (rep_idx _ _ t Hr) as [xs Hx].
    eexists. erewrite bind_in_rr; [|apply on_cbs_ok; by eapply run_callbacks_rep].
    unfold mm_emit, modify. f_equal. destruct s as [r ? ? ? ? ? ?]. by destruct r.
  - exists []. rewrite app_nil_r. by destruct s.
Qed.

(** ** One chunk *)

Lemma frame_eqv s r : ram_ok (mm_ram s) → ram_eqv (mm_ram s) r → mem_frame s (set_mm_ram r s).
Proof.
  intros Hok He. split; try done; simpl.
  - by rewrite <-He.
  - apply He.
  - intros i v Hv. exists v. rewrite <-(re_dirty _ _ He), Z.land_diag. done.
  - intros i. rewrite <-(re_dirty _ _ He). by left.
Qed.

Lemma frame_trace s es : ram_ok (mm_ram s) → mem_frame s (set_mm_trace (mm_trace s ++ es) s).
Proof.
  intros Hok. split; try done; simpl; [| |by apply prefix_app_r].
  - intros i v Hv. exists v. by rewrite Z.land_diag.
  - by left.
Qed.

Lemma frame_rr s r : ram_ok (mm_ram s) → mem_frame s (set_mm_rr r s).
Proof.
  intros Hok. split; try done; simpl; [|by left]. intros i v Hv. exists v. by rewrite Z.land_diag.
Qed.

Lemma frame_store s m :
  ram_ok (set_ram_mem m (mm_ram s)) → mem_frame s (set_mm_ram (set_ram_mem m (mm_ram s)) s).
Proof.
  intros Hok. split; try done; simpl; [|by left]. intros i v Hv. exists v. by rewrite Z.land_diag.
Qed.

(** Reads of memory that backs no RAM. *)
Definition keeps_unbacked (s s1 : mem_state) : Prop :=
  ∀ p n, unbacked (mm_ram s) p (Z.of_nat n) →
    mem_read (ram_mem (mm_ram s1)) p n = mem_read (ram_mem (mm_ram s)) p n.

Lemma mem_read_take m p n k d :
  mem_read m p n = Some d → (k ≤ n)%nat → mem_read m p k = Some (take k d).
Proof.
  intros [Hl Hi]%mem_read_Some Hk. apply mem_read_Some. rewrite length_take. split; [lia|].
  intros i Hik. rewrite Hi by lia. by rewrite lookup_take_lt.
Qed.

Lemma mem_read_drop m p n k d :
  mem_read m p n = Some d → (k ≤ n)%nat → mem_read m (p + Z.of_nat k) (n - k) = Some (drop k d).
Proof.
  intros [Hl Hi]%mem_read_Some Hk. apply mem_read_Some. rewrite length_drop. split; [lia|].
  intros i Hik. rewrite lookup_drop, <-Hi by lia. f_equal. lia.
Qed.

(** The copy into the block [b] that holds RAM address [ra]. *)
Lemma copy_in s b ra p n d :
  ram_ok (mm_ram s) → b ∈ ram_blocks (mm_ram s) → blk_offset b ≤ ra →
  ra + n ≤ blk_offset b + blk_length b → 0 ≤ n →
  mem_read (ram_mem (mm_ram s)) p (Z.to_nat n) = Some d →
  ∃ s1, memcpy (blk_host b + (ra - blk_offset b)) p n s = Ok () s1 ∧ mem_frame s s1 ∧
    mm_rr s1 = mm_rr s ∧ ram_blocks (mm_ram s1) = ram_blocks (mm_ram s) ∧ mm_trace s1 = mm_trace s ∧
    phys_dirty (mm_ram s1) = phys_dirty (mm_ram s) ∧
    view_agree (ram_view (mm_ram s1)) (view_put (ram_view (mm_ram s)) ra d) ∧ keeps_unbacked s s1.
Proof.
  intros Hok Hb Hlo Hhi Hn Hd. pose proof (mem_read_length _ _ _ _ Hd) as Hl.
  destruct (ram_view_store (mm_ram s) b ra d Hok Hb Hlo ltac:(lia)) as [Hok1 Hv].
  unfold memcpy. rewrite (bind_Ok _ _ _ _ _ (load_ok _ _ _ _ Hd)).
  rewrite store_ok.
  2: { eapply (mapped_sub _ (blk_host b) (blk_length b)); [lia..|].
       by apply (proj1 (Forall_forall _ _) (ro_mapped _ Hok)). }
  eexists. split; [reflexivity|]. split_and!; try done; [by apply frame_store|].
  intros q k Hq. simpl. apply mem_read_write_apart. intros x Hx Hx'.
  apply (proj1 (Forall_forall _ _) Hq b Hb x Hx'). unfold in_range in *. lia.
Qed.

Definition marked (s : mem_state) (ra : Z) : Prop :=
  ∃ w, phys_dirty (mm_ram s) !! Z.to_nat (page_index ra) = Some w ∧ Z.land w not_code = not_code.
Definition code_dropped (s s1 : mem_state) (ra : Z) : Prop :=
  phys_dirty (mm_ram s) !! Z.to_nat (page_index ra) = Some 255 ∨
  invalidated s1 (Z.to_nat (page_index ra)).

Lemma log_write s addr buf len d :
  rr_calm (mm_rr s) → 0 ≤ len < 2 ^ 31 → mem_read (ram_mem (mm_ram s)) buf (Z.to_nat len) = Some d →
  ∃ r1, record_ram_write addr buf len s = Ok () (set_mm_rr r1 s) ∧
    rr_wrote (mm_rr s) r1 [dma_item (mm_rr s) addr buf d].
Proof.
  intros Hc Hlen Hd. unfold record_ram_write. rewrite !bind_gets. unfold rr_wrote, logging.
  destruct (rr_in_record (mm_rr s)) eqn:Er; simpl; [|exists (mm_rr s); split; [by destruct s|done]].
  destruct (rr_record_in_progress (mm_rr s)) eqn:Ep; [|exists (mm_rr s); split; [by destruct s|done]].
  unfold rr_in_record in Er. apply bool_decide_eq_true in Er. unfold rr_calm in Hc. rewrite Er in Hc.
  destruct (Hc Ep) as (l & f & Hrec). pose proof (mem_read_length _ _ _ _ Hd) as Hl.
  destruct (record_dma (mm_rr s) l f addr buf d Hrec) as (r1 & E1 & E2); [unfold zlen; lia|].
  exists r1. split; [|done]. rewrite (bind_Ok _ _ _ _ _ (load_ok _ _ _ _ Hd)).
  replace len with (zlen d) by (unfold zlen; lia). unfold in_rr. by rewrite E1.
Qed.

Lemma view_agree_trans (u v w : view) : view_agree u v → view_agree v w → view_agree u w.
Proof. intros A B x Hx. by rewrite A, B. Qed.

Lemma view_put_agree v w ra d : view_agree v w → view_agree (view_put v ra d) (view_put w ra d).
Proof. intros A x Hx. unfold view_put. destruct (decide _); [done|by apply A]. Qed.

Lemma copy_to_ram_ok s b ra buf l d :
  ram_ok (mm_ram s) → rr_calm (mm_rr s) → owner ra (mm_ram s) b →
  in_width 64 ra → ra + l ≤ blk_offset b + blk_length b → 0 ≤ l →
  mem_read (ram_mem (mm_ram s)) buf (Z.to_nat l) = Some d →
  ∃ s1, copy_to_ram ra buf l s = Ok () s1 ∧ mem_frame s s1 ∧ mm_rr s1 = mm_rr s ∧
    phys_dirty (mm_ram s1) = phys_dirty (mm_ram s) ∧
    view_agree (ram_view (mm_ram s1)) (view_put (ram_view (mm_ram s)) ra d) ∧ keeps_unbacked s s1.
Proof.
  intros Hok Hc Ho Hw Hhi Hl Hd. pose proof Ho as [Hin Hr]. unfold copy_to_ram.
  destruct (get_ram_ptr_ok ra (mm_ram s) b Hw Hok Ho) as (r & Er & Heq).
  rewrite (bind_in_ram _ _ _ _ _ Er). pose proof (frame_eqv s r Hok Heq) as F1.
  set (sA := set_mm_ram r s) in *. destruct (ram_callbacks_ok sA false true buf ra l Hc) as (es & Ec).
  rewrite (bind_Ok _ _ _ _ _ Ec). pose proof (frame_trace sA es (mf_ok _ _ F1)) as F2.
  set (sB := set_mm_trace _ sA) in *.
  destruct (copy_in sB b ra buf l d (mf_ok _ _ F2)) as (sC & EC & F3 & C1 & C2 & C3 & C4 & C5 & C6).
  { change (mm_ram sB) with r. by rewrite <-(re_blocks _ _ Heq). }
  { unfold in_range in Hr. lia. }
  { done. } { done. }
  { change (mm_ram sB) with r. by rewrite <-(re_mem _ _ Heq). }
  rewrite (bind_Ok _ _ _ _ _ EC). destruct (ram_callbacks_ok sC true true buf ra l) as (es' & Ec'); [by rewrite C1|].
  exists (set_mm_trace (mm_trace sC ++ es') sC). split; [done|].
  split; [eapply mem_frame_trans, mem_frame_trans, mem_frame_trans; [exact F1|exact F2|exact F3|]; apply frame_trace, F3|].
  split_and!; [done|by rewrite (re_dirty _ _ Heq)| |].
  - eapply view_agree_trans; [exact C5|]. apply view_put_agree. intros x Hx. symmetry.
    by apply ram_view_eqv.
  - intros q k Hq. simpl. rewrite C6; [|by apply (frame_unbacked s); [eapply mem_frame_trans|]].
    change (mm_ram sB) with r. by rewrite <-(re_mem _ _ Heq).
Qed.

Lemma ram_write_step_ok s addr buf len d dsc b :
  let ra := phys_offset dsc + addr mod 4096 in
  ram_ok (mm_ram s) → rr_calm (mm_rr s) → phys_offset dsc mod 4096 = 0 →
  owner (phys_offset dsc) (mm_ram s) b → 0 < len < 2 ^ 31 →
  mem_read (ram_mem (mm_ram s)) buf (Z.to_nat len) = Some d → unbacked (mm_ram s) buf len →
  ∃ s1, ram_write_step (phys_offset dsc) addr buf len (chunk addr len) s = Ok (chunk addr len) s1 ∧
    mem_frame s s1 ∧ rr_wrote (mm_rr s) (mm_rr s1) [dma_item (mm_rr s) addr buf d] ∧
    view_agree (ram_view (mm_ram s1)) (view_put (ram_view (mm_ram s)) ra (take (Z.to_nat (chunk addr len)) d)) ∧
    keeps_unbacked s s1 ∧ marked s1 ra ∧ code_dropped s s1 ra.
Proof.
  intros ra Hok Hc Ha Ho Hlen Hd Hu. destruct (owner_page s _ _ Hok Ho Ha) as (W1 & W2 & W3 & W4 & W5 & W6).
  pose proof (Z.mod_pos_bound addr 4096 ltac:(lia)) as Hm. rewrite chunk_eq.
  set (l := Z.min len (4096 - addr mod 4096)). unfold ram_write_step. rewrite (ram_addr_eq _ _ Ha W1 W3). fold ra.
  assert (Hora : owner ra (mm_ram s) b) by (split; [apply Ho|unfold in_range; lia]).
  pose proof (mem_read_take _ _ _ (Z.to_nat l) _ Hd ltac:(lia)) as Hd'.
  destruct (copy_to_ram_ok s b ra buf l (take (Z.to_nat l) d) Hok Hc Hora) as (s1 & E1 & F1 & R1 & D1 & V1 & K1);
    [unfold in_width in *; lia|lia|lia|exact Hd'|].
  rewrite (bind_Ok _ _ _ _ _ E1).
  assert (Ho1 : owner ra (mm_ram s1) b) by (split; [rewrite <-(mf_blocks _ _ F1)|]; apply Hora).
  destruct (mark_dirty_ok s1 ra l b (mf_ok _ _ F1) Ho1) as (s2 & E2 & F2 & R2 & B2 & M2 & W & I2).
  rewrite (bind_Ok _ _ _ _ _ E2).
  destruct (log_write s2 addr buf len d) as (r3 & E3 & L3); [by rewrite R2, R1|lia| |].
  { rewrite M2, K1; [done|]. by rewrite Z2Nat.id by lia. }
  rewrite (bind_Ok _ _ _ _ _ E3). eexists. split; [reflexivity|].
  rewrite R2, R1 in L3. split_and!.
  - eapply mem_frame_trans, mem_frame_trans; [exact F1|exact F2|]. apply frame_rr, F2.
  - exact L3.
  - simpl. eapply view_agree_trans; [|exact V1]. intros x Hx. unfold ram_view. by rewrite B2, M2.
  - intros q k Hq. simpl. by rewrite M2, K1.
  - exact W.
  - unfold code_dropped in *. rewrite <-D1. exact I2.
Qed.

(** ** The whole transfer *)

(** What goes to the log for a write: at each page all that is left of it. *)
Fixpoint dma_calls (n : nat) (addr buf : Z) (d : list byte) : list log_call :=
  match n, d with
  | S n', _ :: _ =>
      let l := chunk addr (zlen d) in
      LMemRw addr buf d :: dma_calls n' (addr + l) (buf + l) (drop (Z.to_nat l) d)
  | _, _ => []
  end.

Lemma rr_wrote_step r r1 r2 c cs :
  rr_wrote r r1 [site_item r c] → rr_wrote r1 r2 (site_item r1 <$> cs) →
  rr_wrote r r2 (site_item r <$> c :: cs).
Proof.
  intros Hc Hcs. pose proof (rr_wrote_trans _ _ _ _ _ Hc Hcs) as Ht. unfold rr_wrote in *.
  destruct (logging r); [|done]. destruct Hc as [_ P S _ _]. unfold site_item in Ht at 2.
  rewrite P, S in Ht. exact Ht.
Qed.

Lemma marked_frame s s1 ra : mem_frame s s1 → marked s ra → marked s1 ra.
Proof.
  intros Hf (w & Hw & E). destruct (mf_dirty _ _ Hf _ _ Hw) as (w' & Hw' & E'). exists w'. split; [done|].
  rewrite <-E at 1. rewrite Z.land_assoc, (Z.land_comm w'), E'. done.
Qed.

Lemma code_dropped_frame s s1 s2 ra :
  mem_frame s s1 → mem_frame s1 s2 → (code_dropped s s1 ra ∨ code_dropped s1 s2 ra) → code_dropped s s2 ra.
Proof.
  intros F1 F2 [[Hd|Hi]|[Hd|Hi]]; unfold code_dropped; [by left|right|..].
  - by eapply invalidated_prefix; [apply F2|].
  - destruct (mf_inval _ _ F1 _ Hd) as [|Hi]; [by left|right]. by eapply invalidated_prefix; [apply F2|].
  - by right.
Qed.

Lemma view_write_agree tr v w addr d :
  view_agree v w → view_agree (view_write tr v addr d) (view_write tr w addr d).
Proof. intros A x Hx. rewrite !view_write_hit. by rewrite A. Qed.

Lemma ram_page_trans s a d : phys_page_find (mm_map s) (a / 4096) = Some d → phys_offset d mod 4096 = 0 →
  ram_trans (mm_map s) a = Some (phys_offset d + a mod 4096).
Proof. intros Hf Ha. unfold ram_trans. rewrite Hf. simpl. by rewrite decide_True. Qed.

(** One turn of the loop on a RAM page. *)
Lemma rw_step_write s addr buf len d safe :
  ram_ok (mm_ram s) → rr_calm (mm_rr s) → ram_page s addr → 0 < len < 2 ^ 31 →
  mem_read (ram_mem (mm_ram s)) buf (Z.to_nat len) = Some d → unbacked (mm_ram s) buf len →
  let l := chunk addr len in
  ∃ s1, rw_step perform addr buf len true safe s = Ok (Some l) s1 ∧
    mem_frame s s1 ∧ rr_wrote (mm_rr s) (mm_rr s1) [dma_item (mm_rr s) addr buf d] ∧
    view_agree (ram_view (mm_ram s1))
      (view_write (ram_trans (mm_map s)) (ram_view (mm_ram s)) addr (take (Z.to_nat l) d)) ∧
    keeps_unbacked s s1 ∧
    (∀ a, in_range addr l a → ∃ ra, ram_trans (mm_map s) a = Some ra ∧ marked s1 ra ∧ code_dropped s s1 ra).
Proof.
  intros Hok Hc (dsc & b & Hf & Ha & Ho) Hlen Hd Hu l.
  pose proof (Z.mod_pos_bound addr 4096 ltac:(lia)) as Hm. pose proof (chunk_eq addr len) as El. fold l in El.
  destruct (ram_write_step_ok s addr buf len d dsc b Hok Hc Ha Ho Hlen Hd Hu)
    as (s1 & E1 & F1 & L1 & V1 & K1 & M1 & D1). fold l in E1, V1.
  pose proof (mem_read_length _ _ _ _ Hd) as Hdl.
  exists s1. split_and!; try done.
  - unfold rw_step. rewrite (bind_Ok _ _ _ _ _ (find_desc_ok addr s)), Hf. cbn [desc_pd].
    unfold offset_of at 1. rewrite page_offset, Ha. change (negb (0 =? IO_MEM_RAM)) with false. cbv iota.
    unfold some_of. by rewrite (bind_Ok _ _ _ _ _ E1).
  - intros x Hx. rewrite V1 by done. symmetry. apply view_write_chunk.
    apply page_contiguous; [done..|]. rewrite length_take. lia.
  - intros a Hr. unfold in_range in Hr. exists (phys_offset dsc + a mod 4096).
    destruct (mod_in_page addr (a - addr)) as [Ed Em]; [lia..|].
    replace (addr + (a - addr)) with a in * by lia.
    assert (Hp : page_index (phys_offset dsc + a mod 4096) = page_index (phys_offset dsc + addr mod 4096)).
    { rewrite !page_index_div, Em, Z.add_assoc.
      destruct (mod_in_page (phys_offset dsc + addr mod 4096) (a - addr)) as [-> _]; [lia| |done].
      rewrite Zplus_mod, Ha, Z.add_0_l, !Z.mod_mod by lia. lia. }
    unfold marked, code_dropped in *. rewrite Hp. split_and!; [|done..].
    apply ram_page_trans; [by rewrite Ed|done].
Qed.

(** The buffer, the range of guest memory and the state a transfer needs. *)
Record transfer_ok (s : mem_state) (addr buf len : Z) : Prop := {
  tr_ok : ram_ok (mm_ram s);
  tr_calm : rr_calm (mm_rr s);
  tr_len : 0 ≤ len < 2 ^ 31;
  tr_addr : 0 ≤ addr ∧ addr + len ≤ 2 ^ phys_width;
  tr_pages : ram_range s addr len;
  tr_unbacked : unbacked (mm_ram s) buf len;
}.

Lemma unbacked_sub r p n q k : p ≤ q → q + k ≤ p + n → unbacked r p n → unbacked r q k.
Proof.
  intros Hpq Hk Hu. eapply Forall_impl; [exact Hu|]. intros b Ha x Hx. apply Ha. unfold in_range in *. lia.
Qed.

(** What is left of a transfer after a chunk. *)
Lemma transfer_rest s s1 addr buf len l xs :
  transfer_ok s addr buf len → mem_frame s s1 → rr_wrote (mm_rr s) (mm_rr s1) xs →
  0 ≤ l ≤ len → transfer_ok s1 (addr + l) (buf + l) (len - l).
Proof.
  intros [T1 T2 T3 T4 T5 T6] Hf Hw Hl. split; [apply Hf|by eapply rr_wrote_calm|lia|lia| |].
  - intros a Ha. eapply frame_page; [done|]. apply T5. unfold in_range in *. lia.
  - eapply frame_unbacked; [done|]. by eapply (unbacked_sub _ buf len); [lia..|].
Qed.

Lemma chunk_pos addr len : 0 < len → 0 < chunk addr len ≤ len.
Proof. rewrite chunk_eq. pose proof (Z.mod_pos_bound addr 4096 ltac:(lia)). lia. Qed.

(** The next address does not wrap around unless the transfer is over. *)
Lemma next_addr addr len l :
  0 ≤ addr → addr + len ≤ 2 ^ phys_width → 0 ≤ l < len → wrap phys_width (addr + l) = addr + l.
Proof. intros H1' H2' H3'. apply wrap_small. unfold in_width. lia. Qed.

Lemma rw_loop_write n : ∀ s addr buf len d safe,
  transfer_ok s addr buf len → len ≤ Z.of_nat n →
  mem_read (ram_mem (mm_ram s)) buf (Z.to_nat len) = Some d →
  ∃ s1, rw_loop perform n addr buf len true safe s = Ok 0 s1 ∧ mem_frame s s1 ∧
    rr_wrote (mm_rr s) (mm_rr s1) (site_item (mm_rr s) <$> dma_calls n addr buf d) ∧
    view_agree (ram_view (mm_ram s1)) (view_write (ram_trans (mm_map s)) (ram_view (mm_ram s)) addr d) ∧
    keeps_unbacked s s1 ∧
    (∀ a, in_range addr len a → ∃ ra, ram_trans (mm_map s) a = Some ra ∧ marked s1 ra ∧ code_dropped s s1 ra).
Proof.
  induction n as [|n IH]; intros s addr buf len d safe HT Hn Hd; pose proof (mem_read_length _ _ _ _ Hd) as Hdl;
    pose proof HT as [T1 T2 T3 T4 T5 T6]; cbn [rw_loop]; destruct (Z.ltb_spec 0 len) as [Hp|Hp]; [lia| | |].
  1, 3: exists s; destruct d; [|simpl in Hdl; lia]; split_and!;
    [done|by apply mem_frame_refl|by apply rr_wrote_refl|done|done|unfold in_range; lia].
  destruct (chunk_pos addr len Hp) as [Hl1 Hl2]. set (l := chunk addr len) in *.
  destruct (rw_step_write s addr buf len d safe T1 T2) as (s1 & E1 & F1 & L1 & V1 & K1 & M1);
    [apply T5; unfold in_range; lia|lia|done|done|]. fold l in E1, V1, M1.
  rewrite (bind_Ok _ _ _ _ _ E1).
  pose proof (transfer_rest _ _ _ _ _ l _ HT F1 L1 ltac:(lia)) as HT1.
  pose proof (mem_read_drop _ _ _ (Z.to_nat l) _ Hd ltac:(lia)) as Hd1.
  rewrite <-K1 in Hd1.
  2: { eapply (unbacked_sub _ buf len); [lia..|done]. }
  replace (Z.to_nat len - Z.to_nat l)%nat with (Z.to_nat (len - l)) in Hd1 by lia. rewrite Z2Nat.id in Hd1 by lia.
  destruct (IH s1 (addr + l) (buf + l) (len - l) (drop (Z.to_nat l) d) safe HT1 ltac:(lia) Hd1)
    as (s2 & E2 & F2 & L2 & V2 & K2 & M2).
  assert (Enext : rw_loop perform n (wrap phys_width (addr + l)) (buf + l) (len - l) true safe s1 = Ok 0 s2).
  { destruct (decide (len - l = 0)) as [E0|E0]; [|by rewrite (next_addr addr len) by lia].
    rewrite E0 in *. by destruct n. }
  exists s2. rewrite Enext. rewrite (mf_map _ _ F1) in V2, M2.
  pose proof (mem_frame_trans _ _ _ F1 F2) as F. split_and!; [done|done| | | |].
  - destruct d as [|b d]; [simpl in Hdl; lia|]. cbn [dma_calls].
    replace (zlen (b :: d)) with len by (unfold zlen; lia). fold l. by eapply rr_wrote_step.
  - eapply view_agree_trans; [exact V2|]. eapply view_agree_trans; [apply view_write_agree, V1|].
    intros x Hx. rewrite <-(take_drop (Z.to_nat l) d) at 3. rewrite (view_write_app _ _ _ _ _ x).
    rewrite length_take. do 2 f_equal. lia.
  - intros p k Hpk. rewrite K2 by (by eapply frame_unbacked). by apply K1.
  - intros a Hr. destruct (decide (a < addr + l)) as [Hlt|Hge].
    + destruct (M1 a) as (ra & Ht & Hm & Hc); [unfold in_range in *; lia|]. exists ra. split_and!; [done|..].
      * exact (marked_frame _ _ _ F2 Hm).
      * apply (code_dropped_frame _ _ _ _ F1 F2). by left.
    + destruct (M2 a) as (ra & Ht & Hm & Hc); [unfold in_range in *; lia|]. exists ra. split_and!; [done..|].
      apply (code_dropped_frame _ _ _ _ F1 F2). by right.
Qed.

(** ** Reading *)

Lemma store_unbacked r p d :
  ram_ok r → unbacked r p (Z.of_nat (length d)) →
  let r' := set_ram_mem (mem_write (ram_mem r) p d) r in
  ram_ok r' ∧ view_agree (ram_view r') (ram_view r).
Proof.
  intros Hok Hu r'.
  assert (Hok' : ram_ok r').
  { destruct Hok as [? ? Hm ? ? ?]. split; try done. eapply Forall_impl; [exact Hm|]. intros c. apply mapped_write. }
  split; [done|]. intros x Hx. destruct (owner_dec x r) as [(b & Ho)|Hn].
  - rewrite (ram_view_owner r' x b), (ram_view_owner r x b) by done. simpl.
    rewrite mem_write_lookup, decide_False; [done|]. intros Hr. destruct Ho as [Hin Hr'].
    apply (proj1 (Forall_forall _ _) Hu b Hin (blk_host b + (x - blk_offset b))); unfold in_range in *; lia.
  - by rewrite !ram_view_none.
Qed.

Definition keeps_outside (s s1 : mem_state) (p n : Z) : Prop :=
  ∀ x, ¬ in_range p n x → ram_mem (mm_ram s1) !! x = ram_mem (mm_ram s) !! x.

Lemma view_read_block r b tr addr ra n :
  ram_ok r → b ∈ ram_blocks r → contiguous tr addr ra (Z.of_nat n) →
  in_width 64 ra → blk_offset b ≤ ra → ra + Z.of_nat n ≤ blk_offset b + blk_length b →
  ∃ d, mem_read (ram_mem r) (blk_host b + (ra - blk_offset b)) n = Some d ∧
    view_read tr (ram_view r) addr n = Some d.
Proof.
  intros Hok Hb Hc Hw Hlo Hhi.
  destruct (mem_read_mapped (ram_mem r) (blk_host b + (ra - blk_offset b)) n) as [d Hd].
  { eapply (mapped_sub _ (blk_host b) (blk_length b)); [lia..|].
    by apply (proj1 (Forall_forall _ _) (ro_mapped _ Hok)). }
  exists d. split; [done|]. apply mem_read_Some in Hd as [Hl Hd].
  apply (view_read_chunk _ _ _ _ ra); [done..|]. intros i Hi.
  pose proof (proj1 (Forall_forall _ _) (ro_blocks _ Hok) b Hb) as (B1 & B2 & B3 & _).
  rewrite (ram_view_owner r _ b); [| |done|].
  - rewrite <-Hd by done. f_equal. lia.
  - unfold in_width, RAM_ADDR_MAX in *. lia.
  - split; [done|]. unfold in_range. lia.
Qed.

Lemma ram_read_step_ok s addr buf len dsc b :
  ram_ok (mm_ram s) → rr_calm (mm_rr s) → phys_page_find (mm_map s) (addr / 4096) = Some dsc →
  phys_offset dsc mod 4096 = 0 → owner (phys_offset dsc) (mm_ram s) b → 0 < len →
  let l := chunk addr len in
  mapped (ram_mem (mm_ram s)) buf l → unbacked (mm_ram s) buf l →
  ∃ s1 d, ram_read_step (phys_offset dsc) addr buf l s = Ok l s1 ∧ mem_frame s s1 ∧ mm_rr s1 = mm_rr s ∧
    view_read (ram_trans (mm_map s)) (ram_view (mm_ram s)) addr (Z.to_nat l) = Some d ∧
    mem_read (ram_mem (mm_ram s1)) buf (Z.to_nat l) = Some d ∧
    view_agree (ram_view (mm_ram s1)) (ram_view (mm_ram s)) ∧ keeps_outside s s1 buf l.
Proof.
  intros Hok Hc Hf Ha Ho Hlen l Hmp Hu. destruct (owner_page s _ _ Hok Ho Ha) as (W1 & W2 & W3 & W4 & W5 & W6).
  pose proof (Z.mod_pos_bound addr 4096 ltac:(lia)) as Hm. pose proof (chunk_eq addr len) as El. fold l in El.
  set (ra := phys_offset dsc + addr mod 4096).
  destruct (view_read_block (mm_ram s) b (ram_trans (mm_map s)) addr ra (Z.to_nat l) Hok) as (d & Hd & Hv);
    [apply Ho|apply page_contiguous; [done..|lia]|unfold in_width, ra in *; lia|lia|lia|].
  unfold ram_read_step, page_of at 1. rewrite page_mask, Ha, Z.sub_0_r.
  destruct (get_ram_ptr_ok _ (mm_ram s) b W1 Hok Ho) as (r & Er & Heq).
  rewrite (bind_in_ram _ _ _ _ _ Er). pose proof (frame_eqv s r Hok Heq) as F1. set (sA := set_mm_ram r s) in *.
  unfold offset_of at 1. rewrite page_offset. rewrite (ram_addr_eq _ _ Ha W1 W3). fold ra. cbv zeta.
  destruct (ram_callbacks_ok sA false false buf ra l Hc) as (es & Ec). rewrite (bind_Ok _ _ _ _ _ Ec).
  pose proof (frame_trace sA es (mf_ok _ _ F1)) as F2. set (sB := set_mm_trace _ sA) in *.
  unfold memcpy. rewrite bind_assoc. rewrite (re_mem _ _ Heq) in Hd.
  erewrite bind_Ok; [|apply (load_ok sB)].
  2: { change (mm_ram sB) with r. rewrite <-Hd. f_equal. lia. }
  pose proof (mem_read_length _ _ _ _ Hd) as Hdl.
  erewrite bind_Ok; [|apply (store_ok sB)]; change (mm_ram sB) with r.
  2: { rewrite <-(re_mem _ _ Heq). eapply mapped_sub; [| |exact Hmp]; lia. }
  destruct (store_unbacked r buf d) as [Hok3 Hv3]; [apply F1|rewrite Hdl, Z2Nat.id by lia; by apply (frame_unbacked s sA)|].
  pose proof (frame_store sB _ Hok3) as F3. set (sC := set_mm_ram _ sB) in *.
  destruct (ram_callbacks_ok sC true false buf ra l Hc) as (es' & Ec'). rewrite (bind_Ok _ _ _ _ _ Ec').
  eexists _, d. split; [reflexivity|]. split_and!; try done.
  - eapply mem_frame_trans, mem_frame_trans, mem_frame_trans; [exact F1|exact F2|exact F3|]. apply frame_trace, F3.
  - simpl. rewrite <-Hdl. apply mem_read_write.
  - intros x Hx. rewrite (ram_view_eqv _ _ Hok Heq x Hx). by apply Hv3.
  - intros x Hx. simpl. rewrite mem_write_lookup, decide_False; [by rewrite (re_mem _ _ Heq)|].
    unfold in_range in Hx. lia.
Qed.

Lemma rw_step_read s addr buf len safe :
  transfer_ok s addr buf len → 0 < len → mapped (ram_mem (mm_ram s)) buf len →
  let l := chunk addr len in
  ∃ s1 d, rw_step perform addr buf len false safe s = Ok (Some l) s1 ∧ mem_frame s s1 ∧ mm_rr s1 = mm_rr s ∧
    view_read (ram_trans (mm_map s)) (ram_view (mm_ram s)) addr (Z.to_nat l) = Some d ∧
    mem_read (ram_mem (mm_ram s1)) buf (Z.to_nat l) = Some d ∧
    view_agree (ram_view (mm_ram s1)) (ram_view (mm_ram s)) ∧ keeps_outside s s1 buf l.
Proof.
  intros [T1 T2 T3 T4 T5 T6] Hp Hmp l. destruct (chunk_pos addr len Hp) as [Hl1 Hl2].
  destruct (T5 addr) as (dsc & b & Hf & Ha & Ho); [unfold in_range; lia|].
  destruct (ram_read_step_ok s addr buf len dsc b T1 T2 Hf Ha Ho Hp) as (s1 & d & E1 & Hrest).
  { eapply mapped_sub; [| |exact Hmp]; lia. }
  { eapply (unbacked_sub _ buf len); [lia..|done]. }
  exists s1, d. split; [|done]. unfold rw_step.
  rewrite (bind_Ok _ _ _ _ _ (find_desc_ok addr s)), Hf. cbn [desc_pd].
  unfold offset_of at 1. rewrite page_offset, Ha. change (IO_MEM_ROM <? 0) with false. cbv iota beta.
  cbn [andb]. unfold some_of. by rewrite (bind_Ok _ _ _ _ _ E1).
Qed.

Lemma view_read_agree tr v w n : ∀ addr,
  view_agree v w → (∀ a ra, in_range addr (Z.of_nat n) a → tr a = Some ra → in_width 64 ra) →
  view_read tr v addr n = view_read tr w addr n.
Proof.
  induction n as [|n IH]; intros addr Hvw Hw; cbn [view_read]; [done|].
  destruct (tr addr) as [ra|] eqn:Et; [|done]. simpl.
  rewrite (Hvw ra) by (apply (Hw addr); [unfold in_range; lia|done]). rewrite (IH (addr + 1)); [done..|].
  intros a ra' Ha. apply Hw. unfold in_range in *. lia.
Qed.

Lemma ram_range_width s addr n a ra :
  ram_ok (mm_ram s) → ram_range s addr n → in_range addr n a →
  ram_trans (mm_map s) a = Some ra → in_width 64 ra.
Proof.
  intros Hok Hr Ha Ht. destruct (Hr a Ha) as (d & b & Hf & Hal & Ho).
  destruct (owner_page s _ _ Hok Ho Hal) as (W1 & W2 & W3 & _).
  rewrite (ram_page_trans s a d Hf Hal) in Ht. injection Ht as <-.
  pose proof (Z.mod_pos_bound a 4096 ltac:(lia)). unfold in_width in *. lia.
Qed.

Lemma rw_loop_read n : ∀ s addr buf len safe,
  transfer_ok s addr buf len → len ≤ Z.of_nat n → mapped (ram_mem (mm_ram s)) buf len →
  ∃ s1 d, rw_loop perform n addr buf len false safe s = Ok 0 s1 ∧ mem_frame s s1 ∧ mm_rr s1 = mm_rr s ∧
    view_read (ram_trans (mm_map s)) (ram_view (mm_ram s)) addr (Z.to_nat len) = Some d ∧
    mem_read (ram_mem (mm_ram s1)) buf (Z.to_nat len) = Some d ∧
    view_agree (ram_view (mm_ram s1)) (ram_view (mm_ram s)) ∧ keeps_outside s s1 buf len.
Proof.
  induction n as [|n IH]; intros s addr buf len safe HT Hn Hmp; pose proof HT as [T1 T2 T3 T4 T5 T6];
    cbn [rw_loop]; destruct (Z.ltb_spec 0 len) as [Hp|Hp]; [lia| | |].
  1, 3: exists s, []; replace len with 0 by lia; split_and!; try done; by apply mem_frame_refl.
  destruct (chunk_pos addr len Hp) as [Hl1 Hl2]. set (l := chunk addr len) in *.
  destruct (rw_step_read s addr buf len safe HT Hp Hmp) as (s1 & d1 & E1 & F1 & R1 & V1 & B1 & A1 & K1).
  fold l in E1, V1, B1, K1. rewrite (bind_Ok _ _ _ _ _ E1).
  assert (HT1 : transfer_ok s1 (addr + l) (buf + l) (len - l)).
  { eapply transfer_rest; [exact HT|exact F1| |lia]. rewrite R1. by apply rr_wrote_refl. }
  assert (Hmp1 : mapped (ram_mem (mm_ram s1)) (buf + l) (len - l)).
  { intros x Hx. rewrite K1 by (unfold in_range in *; lia). apply Hmp. unfold in_range in *. lia. }
  destruct (IH s1 (addr + l) (buf + l) (len - l) safe HT1 ltac:(lia) Hmp1)
    as (s2 & d2 & E2 & F2 & R2 & V2 & B2 & A2 & K2).
  assert (Enext : rw_loop perform n (wrap phys_width (addr + l)) (buf + l) (len - l) false safe s1 = Ok 0 s2).
  { destruct (decide (len - l = 0)) as [E0|E0]; [|by rewrite (next_addr addr len) by lia].
    rewrite E0 in *. by destruct n. }
  exists s2, (d1 ++ d2). rewrite Enext. rewrite (mf_map _ _ F1) in V2.
  rewrite (view_read_agree _ _ (ram_view (mm_ram s))) in V2; [|done|].
  2: { intros a ra Ha. apply (ram_range_width s addr len); [done..|]. unfold in_range in *. lia. }
  replace (Z.to_nat len) with (Z.to_nat l + Z.to_nat (len - l))%nat by lia.
  pose proof (mem_read_length _ _ _ _ B1) as Hd1. split_and!; [done|by eapply mem_frame_trans|congruence| | | |].
  - rewrite view_read_app, V1. simpl. rewrite Z2Nat.id, V2 by lia. done.
  - apply mem_read_Some in B1 as [_ B1]. apply mem_read_Some in B2 as [Hd2 B2]. apply mem_read_Some.
    rewrite length_app. split; [lia|]. intros i Hi. destruct (decide (i < Z.to_nat l)%nat).
    + rewrite K2 by (unfold in_range; lia). rewrite B1 by lia. by rewrite lookup_app_l by lia.
    + rewrite lookup_app_r, Hd1 by lia. rewrite <-B2 by lia. f_equal. lia.
  - by eapply view_agree_trans.
  - intros x Hx. rewrite K2 by (unfold in_range in *; lia). apply K1. unfold in_range in *. lia.
Qed.

(** ** Theorems *)

(** C6. A write to RAM pages terminates, returns 0 and is the write of the view, byte
    by byte, whatever the devices are. Every page it touched has all dirty flags
    but the one for code, and its translated code was dropped unless the page was
    fully dirty before. While a device call is recorded, each page adds an entry
    with the rest of the data to the log; otherwise the log is untouched. *)
Theorem rw_write_refines s addr buf len d safe :
  transfer_ok s addr buf len → mem_read (ram_mem (mm_ram s)) buf (Z.to_nat len) = Some d →
  ∃ s1, cpu_physical_memory_rw_ex perform addr buf len true safe s = Ok 0 s1 ∧ mem_frame s s1 ∧
    view_agree (ram_view (mm_ram s1)) (view_write (ram_trans (mm_map s)) (ram_view (mm_ram s)) addr d) ∧
    rr_wrote (mm_rr s) (mm_rr s1) (site_item (mm_rr s) <$> dma_calls (Z.to_nat len) addr buf d) ∧
    (∀ a, in_range addr len a → ∃ ra, ram_trans (mm_map s) a = Some ra ∧ marked s1 ra ∧ code_dropped s s1 ra).
Proof.
  intros HT Hd.
  destruct (rw_loop_write (Z.to_nat len) s addr buf len d safe HT) as (s1 & E & F & L & V & _ & M);
    [destruct HT; lia|done|]. by exists s1.
Qed.

(** C38. What was written is read back; the read leaves RAM, the log and the rest of the
    emulator's memory alone. The range consists of pages of RAM ([transfer_ok]) and no
    two of its addresses share RAM ([injective_on]); both buffers are memory of the
    emulator that is not RAM. *)
Theorem rw_round_trip s addr buf buf2 len d safe safe2 :
  transfer_ok s addr buf len → mem_read (ram_mem (mm_ram s)) buf (Z.to_nat len) = Some d →
  injective_on (ram_trans (mm_map s)) addr len →
  unbacked (mm_ram s) buf2 len → mapped (ram_mem (mm_ram s)) buf2 len →
  ∃ s1 s2, cpu_physical_memory_rw_ex perform addr buf len true safe s = Ok 0 s1 ∧
    cpu_physical_memory_rw_ex perform addr buf2 len false safe2 s1 = Ok 0 s2 ∧
    mem_read (ram_mem (mm_ram s2)) buf2 (Z.to_nat len) = Some d ∧
    view_agree (ram_view (mm_ram s2)) (ram_view (mm_ram s1)) ∧ mm_rr s2 = mm_rr s1 ∧
    keeps_outside s1 s2 buf2 len.
Proof.
  intros HT Hd Hi Hu2 Hm2. pose proof (mem_read_length _ _ _ _ Hd) as Hdl. pose proof HT as [T1 T2 T3 T4 T5 T6].
  destruct (rw_loop_write (Z.to_nat len) s addr buf len d safe HT ltac:(lia) Hd) as (s1 & E1 & F1 & L1 & V1 & K1 & M1).
  assert (HT2 : transfer_ok s1 addr buf2 len).
  { split; try done; [apply F1|by eapply rr_wrote_calm| |by eapply frame_unbacked].
    intros a Ha. eapply frame_page; [done|by apply T5]. }
  assert (Hmp : mapped (ram_mem (mm_ram s1)) buf2 len).
  { destruct (mem_read_mapped (ram_mem (mm_ram s)) buf2 (Z.to_nat len)) as [x Hx]; [by rewrite Z2Nat.id by lia|].
    rewrite <-K1 in Hx by (by rewrite Z2Nat.id by lia). apply mem_read_Some in Hx as [Hxl Hx].
    intros k Hk. unfold in_range in Hk. pose proof (Hx (Z.to_nat (k - buf2)) ltac:(lia)) as Hkx.
    rewrite Z2Nat.id in Hkx by lia. replace (buf2 + (k - buf2)) with k in Hkx by lia. rewrite Hkx.
    apply lookup_lt_is_Some. lia. }
  destruct (rw_loop_read (Z.to_nat len) s1 addr buf2 len safe2 HT2 ltac:(lia) Hmp)
    as (s2 & d2 & E2 & F2 & R2 & V2 & B2 & A2 & K2).
  exists s1, s2. split_and!; try done. rewrite B2. rewrite (mf_map _ _ F1) in V2.
  rewrite (view_read_agree _ _ _ _ _ V1) in V2.
  2: { intros a ra Ha. apply (ram_range_width s addr len); [done..|]. unfold in_range in *. lia. }
  rewrite <-Hdl, view_read_write in V2; [congruence|..].
  - intros a Ha. destruct (T5 a) as (dd & b & Hf & Hal & _); [unfold in_range in *; lia|].
    rewrite (ram_page_trans s a dd Hf Hal). done.
  - intros a b x Ha Hb. apply Hi; unfold in_range in *; lia.
Qed.

End Facts.

(** The safe variant does not reach any device, in any state, on any range: it
    behaves the same whatever the device tables and the recorded calls are. *)
Theorem safe_rw_no_devices `{TargetPhys} `{TargetEndian} `{Machine} `{HostAlloc} `{PhysSpace}
    (dev1 dev2 : Devices) (p1 p2 : rr_event → MM ()) addr buf len w s :
  @panda_physical_memory_rw _ _ _ _ dev1 p1 addr buf len w s
  = @panda_physical_memory_rw _ _ _ _ dev2 p2 addr buf len w s.
Proof.
  unfold panda_physical_memory_rw, cpu_physical_memory_rw_ex.
  generalize (Z.to_nat len) as n. intros n. revert addr buf len s.
  induction n as [|n IH]; intros addr buf len' s; cbn [rw_loop];
    destruct (0 <? len'); try done.
  assert (Hs : ∀ s, @rw_step _ _ _ _ dev1 p1 addr buf len' w true s = @rw_step _ _ _ _ dev2 p2 addr buf len' w true s).
  { intros s'. unfold rw_step. apply bind_ext. intros p s1 _. destruct w; simpl;
      [by destruct (negb _)|by destruct (_ && _)]. }
  unfold mbind at 1 2, M_bind at 1 2. rewrite Hs. destruct (rw_step _ _ _ _ _ _ _) as [[l|] s1|e s1]; [|done..]. apply IH.
Qed.
