(* ===== verification/IOMemFacts.v ===== *)
(** * I/O memory: theorems

    Registration of a region refines the update of a flat address space: a
    function from physical addresses to what answers there. *)

From S2P Require Import Prelude CFile CString HostMem RamList Radix PhysPages PhysView RRTypes.
From S2P Require Import PandaCallbacks RRState RRQueue RRFormat RRReplay RRReplayInv RRRecord.
From S2P Require Import IOMem PhysMem PhysMemFacts.
Local Open Scope Z_scope.

Section Facts.
Context `{TargetPhys} `{TargetEndian} `{Machine} `{HostAlloc} `{PhysSpace} `{!PhysSpaceOk} `{!Devices}.

(** ** The flat address space *)

Inductive place :=
| PlUnassigned
| PlRam (flags ra io_addr : Z)
| PlDev (io_index addr : Z).

Definition dev_place (i a : Z) : place := if i =? 2 then PlUnassigned else PlDev i a.

Definition sub_place (sp : subpage_t) (a : Z) : place :=
  match sub_io_index sp !! Z.to_nat (offset_of a), sub_region_offset sp !! Z.to_nat (offset_of a) with
  | Some i, Some o => dev_place i (wrap phys_width (a + o))
  | _, _ => PlUnassigned
  end.

Definition row_place (s : io_state) (i a : Z) : place :=
  match io_rows s !! Z.to_nat i with
  | Some r =>
      match row_opaque r with
      | OpSubpage p => match subpages s !! p with Some sp => sub_place sp a | None => PlUnassigned end
      | _ => dev_place i a
      end
  | None => PlUnassigned
  end.

(** The page is RAM, ROM or reads as such. *)
Definition ram_pd (pd : Z) : bool :=
  (offset_of pd <=? IO_MEM_ROM) || negb (Z.land pd IO_MEM_ROMD =? 0).

Definition desc_place (s : io_state) (d : PhysPageDesc) (addr : Z) : place :=
  let pd := phys_offset d in
  if pd =? IO_MEM_UNASSIGNED then PlUnassigned
  else if ram_pd pd then PlRam (offset_of pd) (ram_addr_of pd addr) (desc_io_addr (Some d) addr)
  else row_place s (desc_io_index pd) (desc_io_addr (Some d) addr).

(** What answers at [addr]. *)
Definition place_at (s : io_state) (addr : Z) : place :=
  match phys_page_find (l1_phys_map s) (addr / 4096) with
  | Some d => desc_place s d addr
  | None => PlUnassigned
  end.

(** ** Well-formed tables *)

Definition is_subpage (r : io_row) : Prop := ∃ p, row_opaque r = OpSubpage p.

(** A row that devices are reached through. *)
Definition plain_row (s : io_state) (i : Z) : Prop :=
  in_width 9 i ∧ io_mem_used s !! Z.to_nat i = Some true ∧
  ∃ r, io_rows s !! Z.to_nat i = Some r ∧ ¬ is_subpage r.

Definition sub_pd (pd : Z) : Prop := Z.land pd IO_MEM_SUBPAGE ≠ 0.

Definition page_ok (s : io_state) (d : PhysPageDesc) : Prop :=
  ram_pd (phys_offset d) = false →
  let i := desc_io_index (phys_offset d) in
  (sub_pd (phys_offset d) ∧ region_offset d = 0 ∧
    ∃ r p sp, io_rows s !! Z.to_nat i = Some r ∧ row_opaque r = OpSubpage p ∧ subpages s !! p = Some sp) ∨
  (¬ sub_pd (phys_offset d) ∧ plain_row s i).

Definition sub_ok (s : io_state) (sp : subpage_t) : Prop :=
  length (sub_io_index sp) = Z.to_nat 4096 ∧ length (sub_region_offset sp) = Z.to_nat 4096 ∧
  Forall (plain_row s) (sub_io_index sp).

Record io_wf (s : io_state) : Prop := {
  iw_map : phys_map_ok (l1_phys_map s);
  iw_rows : length (io_rows s) = Z.to_nat 512;
  iw_used : length (io_mem_used s) = Z.to_nat 512;
  iw_fresh : ∀ p, is_Some (subpages s !! p) → p < io_fresh s;
  iw_fixed : ∀ i, 0 ≤ i < 5 → plain_row s i;
  iw_sub_used : ∀ i r, io_rows s !! i = Some r → is_subpage r → io_mem_used s !! i = Some true;
  iw_sub_inj : ∀ i j r q p, io_rows s !! i = Some r → io_rows s !! j = Some q →
    row_opaque r = OpSubpage p → row_opaque q = OpSubpage p → i = j;
  iw_subs : ∀ p sp, subpages s !! p = Some sp → sub_ok s sp;
  iw_sub_fn : ∀ i r p, io_rows s !! i = Some r → row_opaque r = OpSubpage p →
    r = mkRow (three (Some FnSubpage)) (three (Some FnSubpage)) (OpSubpage p);
  iw_live : ∀ i r p, io_rows s !! i = Some r → row_opaque r = OpSubpage p → is_Some (subpages s !! p);
  iw_pages : ∀ j d, phys_page_find (l1_phys_map s) j = Some d → page_ok s d;
  iw_own : ∀ j k d e, phys_page_find (l1_phys_map s) j = Some d → phys_page_find (l1_phys_map s) k = Some e →
    ram_pd (phys_offset d) = false → ram_pd (phys_offset e) = false →
    sub_pd (phys_offset d) → sub_pd (phys_offset e) →
    desc_io_index (phys_offset d) = desc_io_index (phys_offset e) → same_page j k;
}.

(** ** Arithmetic of pages *)

Lemma offset_mod a : offset_of a = a mod 4096.
Proof. apply page_offset. Qed.

Lemma shift_page a : Z.shiftr a TARGET_PAGE_BITS = a / 4096.
Proof. by rewrite Z.shiftr_div_pow2. Qed.

Lemma mask_page a : Z.land a TARGET_PAGE_MASK = 4096 * (a / 4096).
Proof. rewrite page_mask. pose proof (Z.div_mod a 4096 ltac:(lia)). lia. Qed.

Lemma width_64 a : in_width phys_width a → in_width 64 a.
Proof. apply in_width_mono. destruct phys_width_cases as [->| ->]; lia. Qed.

Lemma wrap_phys_64 a : wrap phys_width (wrap 64 a) = wrap phys_width a.
Proof.
  unfold wrap. apply Z.mod_mod_divide.
  destruct phys_width_cases as [->| ->]; [by exists (2 ^ 32)|by exists 1].
Qed.

(** The part of page [k] of the region that starts at [start]: aligned regions and
    regions inside a page. *)
Definition region_fits (start size : Z) : Prop :=
  0 ≤ start ∧ 0 < size ∧ start + size + 4095 < 2 ^ phys_width ∧
  (start mod 4096 = 0 ∨ start mod 4096 + size ≤ 4096).

Lemma check_subpage_spec start size k :
  region_fits start size → 0 ≤ k → 4096 * k < size →
  let addr := start + 4096 * k in
  let lo := Z.max start (4096 * (addr / 4096)) - 4096 * (addr / 4096) in
  let hi := Z.min (start + size) (4096 * (addr / 4096) + 4096) - 1 - 4096 * (addr / 4096) in
  CHECK_SUBPAGE addr start size = (lo, hi, negb ((lo =? 0) && (hi =? 4095))) ∧ 0 ≤ lo ≤ hi ∧ hi < 4096.
Proof.
  intros (Hs & Hz & Hw & Hf) Hk Hlt. cbv zeta.
  assert (Hb : 2 ^ phys_width ≤ 2 ^ 64) by (destruct phys_width_cases as [->| ->]; lia).
  set (addr := start + 4096 * k). unfold CHECK_SUBPAGE. change TARGET_PAGE_SIZE with 4096.
  rewrite !page_offset. rewrite !(wrap_small 64) by (unfold in_width, addr in *; rewrite ?wrap_small; unfold in_width; lia).
  assert (Hdiv : addr / 4096 = start / 4096 + k).
  { unfold addr. rewrite (Z.mul_comm 4096), Z.div_add; lia. }
  pose proof (Z.div_mod start 4096 ltac:(lia)) as Hdm. pose proof (Z.mod_pos_bound start 4096 ltac:(lia)) as Hmb.
  pose proof (Z.div_mod (start + size - 1) 4096 ltac:(lia)) as Hdm2.
  pose proof (Z.mod_pos_bound (start + size - 1) 4096 ltac:(lia)) as Hmb2.
  assert (Hlo : (if start <? addr then (0, false) else (start mod 4096, 0 <? start mod 4096))
    = (Z.max start (4096 * (addr / 4096)) - 4096 * (addr / 4096),
       negb (Z.max start (4096 * (addr / 4096)) - 4096 * (addr / 4096) =? 0))).
  { rewrite Hdiv. unfold addr. destruct (Z.ltb_spec start (start + 4096 * k)).
    - assert (start mod 4096 = 0) by lia. replace (Z.max _ _ - _) with 0 by lia. done.
    - assert (k = 0) as -> by lia. replace (Z.max _ _ - _) with (start mod 4096) by lia.
      f_equal. destruct (Z.ltb_spec 0 (start mod 4096)), (Z.eqb_spec (start mod 4096) 0); done || lia. }
  rewrite Hlo.
  assert (Hhi : (if 4096 <=? start + size - addr then (4096 - 1, false)
     else ((start + size - 1) mod 4096, (start + size - 1) mod 4096 <? 4096 - 1))
    = (Z.min (start + size) (4096 * (addr / 4096) + 4096) - 1 - 4096 * (addr / 4096),
       negb (Z.min (start + size) (4096 * (addr / 4096) + 4096) - 1 - 4096 * (addr / 4096) =? 4095))).
  { rewrite Hdiv. unfold addr. destruct (Z.leb_spec 4096 (start + size - (start + 4096 * k))).
    - replace (Z.min _ _ - 1 - _) with 4095 by lia. done.
    - assert (E : (start + size - 1) / 4096 = start / 4096 + k) by (symmetry; apply (Z.div_unique_pos _ _ _ (start + size - 1 - 4096 * (start / 4096 + k))); lia).
      replace (Z.min _ _ - 1 - _) with ((start + size - 1) mod 4096) by lia.
      f_equal. destruct (Z.ltb_spec ((start + size - 1) mod 4096) (4096 - 1)),
        (Z.eqb_spec ((start + size - 1) mod 4096) 4095); done || lia. }
  rewrite Hhi. split; [|rewrite Hdiv; lia].
  f_equal. by rewrite negb_andb.
Qed.

(** ** Page descriptors *)

(** The descriptor of a region of the device with table index [i]. *)
Definition device_pd (pd i : Z) : Prop := 5 ≤ i < 512 ∧ pd = Z.shiftl i IO_MEM_SHIFT.
Definition subpage_pd (i : Z) : Z := wrap 64 (Z.lor (Z.shiftl i IO_MEM_SHIFT) IO_MEM_SUBPAGE).

Lemma device_pd_facts pd i : device_pd pd i →
  ram_pd pd = false ∧ ¬ sub_pd pd ∧ desc_io_index pd = i ∧ pd ≠ IO_MEM_UNASSIGNED ∧ next_offset pd = pd ∧
  (Z.land pd (Z.lnot TARGET_PAGE_MASK) =? IO_MEM_RAM) = false.
Proof.
  intros [Hi ->].
  assert (Hall : Forall (λ pd, ram_pd pd = false ∧ Z.land pd IO_MEM_SUBPAGE = 0 ∧
    Z.shiftl (desc_io_index pd) IO_MEM_SHIFT = pd ∧ pd ≠ IO_MEM_UNASSIGNED ∧ next_offset pd = pd ∧
    (Z.land pd (Z.lnot TARGET_PAGE_MASK) =? IO_MEM_RAM) = false) ((λ i, Z.shiftl i IO_MEM_SHIFT) <$> seqZ 5 507)).
  { apply (bool_decide_unpack _). vm_compute. exact I. }
  rewrite Forall_fmap, Forall_forall in Hall.
  destruct (Hall i) as (H1' & H2' & H3' & H4' & H5' & H6'); [apply elem_of_seqZ; lia|].
  unfold sub_pd. rewrite H2'. split_and!; try done; [by intros ?|].
  rewrite !Z.shiftl_mul_pow2 in H3' by done. change (2 ^ IO_MEM_SHIFT) with 8 in H3'. rewrite Z.shiftl_mul_pow2 by done.
  change (2 ^ IO_MEM_SHIFT) with 8. lia.
Qed.

Lemma subpage_pd_facts i : 5 ≤ i < 512 →
  ram_pd (subpage_pd i) = false ∧ sub_pd (subpage_pd i) ∧ desc_io_index (subpage_pd i) = i ∧
  subpage_pd i ≠ IO_MEM_UNASSIGNED.
Proof.
  intros Hi.
  assert (Hall : Forall (λ i, ram_pd (subpage_pd i) = false ∧ Z.land (subpage_pd i) IO_MEM_SUBPAGE ≠ 0 ∧
    desc_io_index (subpage_pd i) = i ∧ subpage_pd i ≠ IO_MEM_UNASSIGNED) (seqZ 5 507)).
  { apply (bool_decide_unpack _). vm_compute. exact I. }
  rewrite Forall_forall in Hall. apply Hall, elem_of_seqZ. lia.
Qed.

Lemma io_index_width pd : in_width 9 (desc_io_index pd).
Proof.
  unfold desc_io_index. change (IO_MEM_NB_ENTRIES - 1) with (Z.ones 9).
  rewrite Z.land_ones by lia. apply Z.mod_pos_bound. lia.
Qed.

(** ** Filling part of an array *)

Lemma length_fill_range {A} lo hi (v : A) l :
  0 ≤ lo → hi < Z.of_nat (length l) → length (fill_range lo hi v l) = length l.
Proof.
  intros Hlo Hhi. unfold fill_range. destruct (Z.ltb_spec hi lo); [done|].
  rewrite !length_app, length_take, length_replicate, length_drop. lia.
Qed.

Lemma lookup_fill_range {A} lo hi (v : A) l n :
  0 ≤ lo → hi < Z.of_nat (length l) →
  fill_range lo hi v l !! n = if decide (lo ≤ Z.of_nat n ≤ hi) then Some v else l !! n.
Proof.
  intros Hlo Hhi. unfold fill_range. destruct (Z.ltb_spec hi lo); [by rewrite decide_False by lia|].
  destruct (decide (Z.of_nat n < lo)) as [Hn|Hn].
  { rewrite lookup_app_l by (rewrite length_take; lia). rewrite lookup_take, decide_True by lia.
    by rewrite decide_False by lia. }
  rewrite lookup_app_r by (rewrite length_take; lia). rewrite length_take, Nat.min_l by lia.
  destruct (decide (Z.of_nat n ≤ hi)) as [Hn2|Hn2].
  { rewrite lookup_app_l by (rewrite length_replicate; lia). rewrite decide_True by lia.
    apply lookup_replicate_2. lia. }
  rewrite lookup_app_r by (rewrite length_replicate; lia). rewrite length_replicate, lookup_drop.
  rewrite decide_False by lia. f_equal. lia.
Qed.

Lemma Forall_fill_range {A} (P : A → Prop) lo hi v l : P v → Forall P l → Forall P (fill_range lo hi v l).
Proof.
  intros Hv Hl. unfold fill_range. destruct (hi <? lo); [done|].
  apply Forall_app. split; [by apply Forall_take|]. apply Forall_app. split; [by apply Forall_replicate|by apply Forall_drop].
Qed.

(** ** Steps of a registration *)

(** A step that leaves the rows in use, and the arrays and places reached through
    them, alone keeps the places. *)
Lemma row_place_ext s s' i a :
  io_rows s' !! Z.to_nat i = io_rows s !! Z.to_nat i →
  (∀ r p, io_rows s !! Z.to_nat i = Some r → row_opaque r = OpSubpage p → subpages s' !! p = subpages s !! p) →
  row_place s' i a = row_place s i a.
Proof.
  intros Hr Hs. unfold row_place. rewrite Hr. destruct (io_rows s !! Z.to_nat i) as [r|] eqn:E; [|done].
  destruct (row_opaque r) eqn:Eo; try done. by rewrite (Hs r p eq_refl Eo).
Qed.

Lemma desc_place_ext s s' d a :
  (ram_pd (phys_offset d) = false → ∀ b,
     row_place s' (desc_io_index (phys_offset d)) b = row_place s (desc_io_index (phys_offset d)) b) →
  desc_place s' d a = desc_place s d a.
Proof.
  intros Hr. unfold desc_place. destruct (_ =? _); [done|]. destruct (ram_pd (phys_offset d)); [done|]. by apply Hr.
Qed.

(** The row of an I/O page is in use. *)
Lemma page_row_used s d : io_wf s → page_ok s d → ram_pd (phys_offset d) = false →
  io_mem_used s !! Z.to_nat (desc_io_index (phys_offset d)) = Some true.
Proof.
  intros Hw Hp Hr. destruct (Hp Hr) as [(_ & _ & r & p & sp & H1' & H2' & _)|(_ & _ & Hu & _)]; [|done].
  apply (iw_sub_used _ Hw _ r H1'). by exists p.
Qed.

(** The rows of devices, and what they lead to, stay. *)
Definition rows_kept (s s' : io_state) : Prop :=
  containers s' = containers s ∧
  ∀ j, plain_row s j → plain_row s' j ∧ io_rows s' !! Z.to_nat j = io_rows s !! Z.to_nat j.

#[local] Instance rows_kept_preorder : PreOrder rows_kept.
Proof.
  split; [by intros s|]. intros s1 s2 s3 [C1 R1] [C2 R2]. split; [congruence|].
  intros j Hj. destruct (R1 j Hj) as [Hj1 E1]. destruct (R2 j Hj1) as [Hj2 E2]. split; [done|congruence].
Qed.

(** *** A new subpage *)

Definition add_subpage (i : nat) (sp : subpage_t) (s : io_state) : io_state :=
  mkIO _ (l1_phys_map s)
    (<[i := mkRow (three (Some FnSubpage)) (three (Some FnSubpage)) (OpSubpage (io_fresh s))]> (io_rows s))
    (<[i := true]> (io_mem_used s)) (<[io_fresh s := sp]> (subpages s)) (containers s) (io_fresh s + 1).

Lemma add_subpage_plain i sp s k :
  io_mem_used s !! i = Some false → plain_row s k → plain_row (add_subpage i sp s) k.
Proof.
  intros Hi (Hk & Hu & r & Hr & Hn). assert (Z.to_nat k ≠ i) by congruence.
  split; [done|]. simpl. rewrite !list_lookup_insert_ne by done. eauto.
Qed.

Lemma add_subpage_kept i sp s : io_mem_used s !! i = Some false → rows_kept s (add_subpage i sp s).
Proof.
  intros Hi. split; [done|]. intros j Hj. split; [by apply add_subpage_plain|].
  destruct Hj as (_ & Hu & _). simpl. apply list_lookup_insert_ne. congruence.
Qed.

Lemma add_subpage_row s i sp j :
  io_wf s → io_mem_used s !! i = Some false → io_mem_used s !! Z.to_nat j = Some true →
  ∀ a, row_place (add_subpage i sp s) j a = row_place s j a.
Proof.
  intros Hw Hi Hj a. assert (Z.to_nat j ≠ i) by congruence. apply row_place_ext; simpl.
  - by rewrite list_lookup_insert_ne.
  - intros r p Hr Hp. rewrite lookup_insert_ne; [done|]. intros <-.
    pose proof (iw_fresh _ Hw _ (iw_live _ Hw _ _ _ Hr Hp)). lia.
Qed.

Lemma add_subpage_wf s i sp :
  io_wf s → io_mem_used s !! i = Some false → sub_ok s sp →
  io_wf (add_subpage i sp s) ∧ ∀ a, place_at (add_subpage i sp s) a = place_at s a.
Proof.
  intros Hw Hi Hsp. pose proof (iw_rows _ Hw) as Hlr. pose proof (iw_used _ Hw) as Hlu.
  assert (Hil : (i < Z.to_nat 512)%nat) by (rewrite <-Hlu; by eapply lookup_lt_Some).
  assert (Hnew : ∀ j r p, io_rows (add_subpage i sp s) !! j = Some r → row_opaque r = OpSubpage p →
    (j = i ∧ p = io_fresh s) ∨ (j ≠ i ∧ io_rows s !! j = Some r ∧ p < io_fresh s)).
  { intros j r p. simpl. destruct (decide (j = i)) as [->|Hji].
    - rewrite list_lookup_insert_eq by lia. intros [= <-]. simpl. intros [= <-]. by left.
    - rewrite list_lookup_insert_ne by done. intros Hr Hp. right. split_and!; try done.
      apply (iw_fresh _ Hw), (iw_live _ Hw _ _ _ Hr Hp). }
  assert (Hpg : ∀ j d, phys_page_find (l1_phys_map s) j = Some d → page_ok s d) by apply (iw_pages _ Hw).
  split; [split|].
  - apply (iw_map _ Hw).
  - simpl. by rewrite length_insert.
  - simpl. by rewrite length_insert.
  - intros p. simpl. intros Hp. destruct (decide (io_fresh s = p)) as [<-|Hne]; [lia|].
    rewrite lookup_insert_ne in Hp by done. pose proof (iw_fresh _ Hw p Hp). lia.
  - intros k Hk. apply add_subpage_plain; [done|]. by apply (iw_fixed _ Hw).
  - intros j r Hr [p Hp]. simpl. destruct (Hnew j r p Hr Hp) as [[-> _]|(Hne & Hr' & _)].
    + by rewrite list_lookup_insert_eq by lia.
    + rewrite list_lookup_insert_ne by done. apply (iw_sub_used _ Hw _ _ Hr'). by exists p.
  - intros j k r q p Hr Hq Hp Hp'.
    destruct (Hnew j r p Hr Hp) as [[-> E]|(Hne & Hr' & Hl)], (Hnew k q p Hq Hp') as [[-> E']|(Hne' & Hq' & Hl')];
      [done|lia..|]. by apply (iw_sub_inj _ Hw j k r q p).
  - intros p sp' Hp. simpl in Hp.
    assert (Hs : sub_ok s sp').
    { destruct (decide (io_fresh s = p)) as [<-|Hne].
      - rewrite lookup_insert_eq in Hp. by simplify_eq.
      - rewrite lookup_insert_ne in Hp by done. by apply (iw_subs _ Hw p). }
    destruct Hs as (S1 & S2 & S3). split_and!; try done. eapply Forall_impl; [exact S3|].
    intros k. by apply add_subpage_plain.
  - intros j r p Hr Hp. destruct (Hnew j r p Hr Hp) as [[-> ->]|(Hne & Hr' & Hl)].
    + simpl in Hr. rewrite list_lookup_insert_eq in Hr by lia. by injection Hr.
    + by apply (iw_sub_fn _ Hw j).
  - intros j r p Hr Hp. simpl. destruct (Hnew j r p Hr Hp) as [[-> ->]|(Hne & Hr' & Hl)].
    + rewrite lookup_insert_eq. done.
    + rewrite lookup_insert_ne by lia. by apply (iw_live _ Hw _ _ _ Hr' Hp).
  - intros j d Hd Hr. pose proof (page_row_used s d Hw (Hpg j d Hd) Hr) as Hu.
    destruct (Hpg j d Hd Hr) as [(P1 & P2 & r & p & sp' & P3 & P4 & P5)|(P1 & P2)]; [left|right].
    + split_and!; try done. exists r, p, sp'. simpl. rewrite list_lookup_insert_ne by congruence.
      rewrite lookup_insert_ne; [done|]. intros <-.
      pose proof (iw_fresh _ Hw _ (iw_live _ Hw _ _ _ P3 P4)). lia.
    + split; [done|]. by apply add_subpage_plain.
  - apply (iw_own _ Hw).
  - intros a. unfold place_at. simpl. destruct (phys_page_find _ _) as [d|] eqn:Ed; [|done].
    apply desc_place_ext. intros Hr. apply add_subpage_row; [done..|]. apply (page_row_used s d Hw); [by eapply Hpg|done].
Qed.

(** *** A page descriptor *)

Definition with_desc (j : Z) (d : PhysPageDesc) (s : io_state) : io_state :=
  set_l1_phys_map (phys_page_store (l1_phys_map s) j d) s.

(** No page but [j] uses the row of [d], if it is that of a subpage. *)
Definition owned (s : io_state) (j : Z) (d : PhysPageDesc) : Prop :=
  ram_pd (phys_offset d) = false → sub_pd (phys_offset d) → ∀ k e,
    phys_page_find (l1_phys_map s) k = Some e → ram_pd (phys_offset e) = false → sub_pd (phys_offset e) →
    desc_io_index (phys_offset d) = desc_io_index (phys_offset e) → same_page j k.

Lemma same_page_dec j k : Decision (same_page j k).
Proof. unfold same_page. apply _. Qed.

Lemma with_desc_find s j d k :
  phys_map_ok (l1_phys_map s) → is_Some (phys_page_find (l1_phys_map s) j) →
  phys_page_find (l1_phys_map (with_desc j d s)) k
  = if same_page_dec j k then Some d else phys_page_find (l1_phys_map s) k.
Proof.
  intros Hm Hj. simpl. destruct (same_page_dec j k); [by apply page_store_same|by apply page_store_other].
Qed.

Lemma with_desc_wf s j d :
  io_wf s → is_Some (phys_page_find (l1_phys_map s) j) → page_ok s d → owned s j d →
  io_wf (with_desc j d s) ∧
  (∀ a, same_page j (a / 4096) → place_at (with_desc j d s) a = desc_place s d a) ∧
  (∀ a, ¬ same_page j (a / 4096) → place_at (with_desc j d s) a = place_at s a).
Proof.
  intros Hw Hj Hd Ho. pose proof (iw_map _ Hw) as Hm. split_and!.
  - destruct Hw as [W1 W2 W3 W4 W5 W6 W7 W8 W8' W9 W10 W11]. split; try done.
    + by apply page_store_ok.
    + intros k e. rewrite with_desc_find by done.
      destruct (same_page_dec j k); [by intros [= <-]|apply W10].
    + intros k l e f. rewrite !with_desc_find by done.
      destruct (same_page_dec j k) as [Ek|Ek], (same_page_dec j l) as [El|El]; intros He Hf.
      * intros _ _ _ _ _. unfold same_page in *. congruence.
      * simplify_eq. intros R1 R2 S1 S2 E. pose proof (Ho R1 S1 l f Hf R2 S2 E). unfold same_page in *. congruence.
      * simplify_eq. intros R1 R2 S1 S2 E. pose proof (Ho R2 S2 k e He R1 S1 (eq_sym E)).
        unfold same_page in *. congruence.
      * by apply W11.
  - intros a Ha. unfold place_at. rewrite with_desc_find by done. by destruct (same_page_dec j (a / 4096)).
  - intros a Ha. unfold place_at. rewrite with_desc_find by done. by destruct (same_page_dec j (a / 4096)).
Qed.

(** *** The tables on the way to a page *)

Definition with_page (j : Z) (s : io_state) : io_state :=
  set_l1_phys_map (phys_page_alloc (l1_phys_map s) j) s.

Lemma fresh_place s index j a : desc_place s (fresh_desc index j) a = PlUnassigned.
Proof. done. Qed.

Lemma with_page_wf s j :
  io_wf s → io_wf (with_page j s) ∧ (∀ a, place_at (with_page j s) a = place_at s a) ∧
  is_Some (phys_page_find (l1_phys_map (with_page j s)) j) ∧
  (∀ k d, phys_page_find (l1_phys_map (with_page j s)) k = Some d →
     phys_page_find (l1_phys_map s) k = Some d ∨
     (phys_page_find (l1_phys_map s) k = None ∧ phys_offset d = IO_MEM_UNASSIGNED)).
Proof.
  intros Hw. pose proof (iw_map _ Hw) as Hm.
  assert (Hf : ∀ k d, phys_page_find (l1_phys_map (with_page j s)) k = Some d →
    phys_page_find (l1_phys_map s) k = Some d ∨
    (phys_page_find (l1_phys_map s) k = None ∧ d = fresh_desc j k)).
  { intros k d Hd. simpl in Hd. destruct (phys_page_find (l1_phys_map s) k) as [e|] eqn:E.
    - rewrite (page_alloc_keeps _ _ _ _ E) in Hd. by left.
    - right. split; [done|]. by apply (page_alloc_new (l1_phys_map s)). }
  split_and!.
  - destruct Hw as [W1 W2 W3 W4 W5 W6 W7 W8 W8' W9 W10 W11]. split; try done.
    + by apply page_alloc_ok.
    + intros k d Hd. destruct (Hf k d Hd) as [Hd'|[_ ->]]; [by eapply W10|]. intros _. right.
      split; [by intros []|]. by apply (W5 2).
    + assert (Hsub : ∀ k d, phys_page_find (l1_phys_map (with_page j s)) k = Some d → sub_pd (phys_offset d) →
        phys_page_find (l1_phys_map s) k = Some d).
      { intros k d Hd Hs. destruct (Hf k d Hd) as [|[_ ->]]; [done|]. by destruct Hs. }
      intros k l d e Hd He R1 R2 S1 S2. apply (W11 k l d e); auto.
  - intros a. unfold place_at. destruct (phys_page_find (l1_phys_map (with_page j s)) (a / 4096)) as [d|] eqn:Ed.
    + destruct (Hf _ _ Ed) as [-> |[-> ->]]; [done|apply fresh_place].
    + destruct (phys_page_find (l1_phys_map s) (a / 4096)) as [d|] eqn:E; [|done].
      simpl in Ed. by rewrite (page_alloc_keeps _ _ _ _ E) in Ed.
  - by apply page_alloc_finds.
  - intros k d Hd. destruct (Hf k d Hd) as [|[? ->]]; auto.
Qed.

(** *** Part of a subpage *)

Definition sub_index (memory : Z) : Z :=
  Z.land (Z.shiftr (if Z.land memory (Z.lnot TARGET_PAGE_MASK) =? IO_MEM_RAM then IO_MEM_SUBPAGE_RAM else memory)
    IO_MEM_SHIFT) (IO_MEM_NB_ENTRIES - 1).

Definition fill_sub (lo hi i o : Z) (sp : subpage_t) : subpage_t :=
  mkSub (sub_base sp) (fill_range lo hi i (sub_io_index sp)) (fill_range lo hi o (sub_region_offset sp)).

Lemma fill_sub_ok s lo hi i o sp :
  0 ≤ lo → hi < 4096 → plain_row s i → sub_ok s sp → sub_ok s (fill_sub lo hi i o sp).
Proof.
  intros Hlo Hhi Hi (S1 & S2 & S3). split_and!; simpl.
  - rewrite length_fill_range; lia.
  - rewrite length_fill_range; lia.
  - by apply Forall_fill_range.
Qed.

Lemma fill_sub_place s lo hi i o sp a :
  0 ≤ lo → hi < 4096 → sub_ok s sp →
  sub_place (fill_sub lo hi i o sp) a
  = if decide (lo ≤ a mod 4096 ≤ hi) then dev_place i (wrap phys_width (a + o)) else sub_place sp a.
Proof.
  intros Hlo Hhi (S1 & S2 & _). unfold sub_place. rewrite offset_mod. pose proof (Z.mod_pos_bound a 4096 ltac:(lia)).
  simpl. rewrite !lookup_fill_range by lia. rewrite Z2Nat.id by lia. by destruct (decide _).
Qed.

Definition with_sub (p : Z) (sp : subpage_t) (s : io_state) : io_state :=
  set_subpages (<[p := sp]> (subpages s)) s.

(** The page that owns the subpage changes, no other. *)
Lemma with_sub_wf s p sp i r j d :
  io_wf s → io_rows s !! Z.to_nat i = Some r → row_opaque r = OpSubpage p → sub_ok s sp →
  phys_page_find (l1_phys_map s) j = Some d → ram_pd (phys_offset d) = false → sub_pd (phys_offset d) →
  desc_io_index (phys_offset d) = i →
  io_wf (with_sub p sp s) ∧
  (∀ a, same_page j (a / 4096) → phys_page_find (l1_phys_map s) (a / 4096) = Some d →
     place_at (with_sub p sp s) a = sub_place sp (desc_io_addr (Some d) a)) ∧
  (∀ a, ¬ same_page j (a / 4096) → place_at (with_sub p sp s) a = place_at s a).
Proof.
  intros Hw Hr Hp Hsp Hd Rd Sd Hi. split_and!.
  - pose proof (iw_live _ Hw _ _ _ Hr Hp) as Hlv. destruct Hw as [W1 W2 W3 W4 W5 W6 W7 W8 W8' W9 W10 W11]. split; try done.
    + intros q. simpl. intros Hq. apply W4. destruct (decide (p = q)) as [<-|]; [done|by rewrite lookup_insert_ne in Hq].
    + intros q sq. simpl. destruct (decide (p = q)) as [<-|Hne].
      * rewrite lookup_insert_eq. by intros [= <-].
      * rewrite lookup_insert_ne by done. apply W8.
    + intros k q u Hq Hu. simpl. destruct (decide (p = u)) as [<-|Hne]; [by rewrite lookup_insert_eq|].
      rewrite lookup_insert_ne by done. by apply (W9 k q).
    + intros k e He Re. destruct (W10 k e He Re) as [(P1 & P2 & q & u & su & P3 & P4 & P5)|]; [left|by right].
      split_and!; try done. simpl. destruct (decide (p = u)) as [<-|Hne].
      * exists q, p, sp. by rewrite lookup_insert_eq.
      * exists q, u, su. by rewrite lookup_insert_ne.
  - intros a Ha Hda. unfold place_at. simpl. rewrite Hda. unfold desc_place. rewrite Rd.
    destruct (Z.eqb_spec (phys_offset d) IO_MEM_UNASSIGNED) as [E|_]; [by rewrite E in Sd|].
    unfold row_place. rewrite Hi. simpl. rewrite Hr, Hp, lookup_insert_eq. done.
  - intros a Ha. unfold place_at. simpl. destruct (phys_page_find _ (a / 4096)) as [e|] eqn:Ee; [|done].
    apply desc_place_ext. intros Re b. apply row_place_ext; [done|]. intros q u Hq Hu. simpl.
    apply lookup_insert_ne. intros <-. apply Ha.
    pose proof (io_index_width (phys_offset e)) as [E0 _]. pose proof (io_index_width (phys_offset d)) as [D0 _].
    assert (E : desc_io_index (phys_offset d) = desc_io_index (phys_offset e)).
    { rewrite Hi. pose proof (iw_sub_inj _ Hw _ _ _ _ _ Hr Hq Hp Hu). lia. }
    destruct (iw_pages _ Hw _ _ Ee Re) as [(Se & _)|(_ & _ & _ & q' & Hq' & Hn)].
    + by apply (iw_own _ Hw j (a / 4096) d e).
    + destruct Hn. exists p. congruence.
Qed.

(** ** Running the code *)

Definition has_free (s : io_state) : Prop := ∃ i, io_mem_used s !! i = Some false.

Lemma free_found s : io_wf s → has_free s →
  ∃ i, list_find (λ b, b = false) (io_mem_used s) = Some (i, false) ∧ io_mem_used s !! i = Some false ∧
    5 ≤ Z.of_nat i < 512.
Proof.
  intros Hw [j Hj]. destruct (list_find_elem_of (λ b, b = false) (io_mem_used s) false) as [[i b] Hi];
    [by eapply list_elem_of_lookup_2|done|].
  pose proof Hi as Hi'. apply list_find_Some in Hi' as (Hl & -> & _). exists i. split_and!; try done.
  - destruct (decide (5 ≤ Z.of_nat i)) as [|Hlt]; [done|].
    destruct (iw_fixed _ Hw (Z.of_nat i)) as (_ & Hu & _); [lia|]. rewrite Nat2Z.id in Hu. congruence.
  - apply lookup_lt_Some in Hl. rewrite (iw_used _ Hw) in Hl. lia.
Qed.

Lemma subpage_register_run s p lo hi memory o sp :
  subpages s !! p = Some sp → 0 ≤ lo < 4096 → 0 ≤ hi < 4096 →
  subpage_register p lo hi memory o s = Ok 0 (with_sub p (fill_sub lo hi (sub_index memory) o sp) s).
Proof.
  intros Hsp Hlo Hhi. unfold subpage_register. change TARGET_PAGE_SIZE with 4096.
  rewrite (proj2 (Z.leb_gt 4096 lo)), (proj2 (Z.leb_gt 4096 hi)) by lia. cbv [orb].
  rewrite bind_gets, Hsp, bind_nonnull, bind_modify. unfold SUBPAGE_IDX, sub_index. rewrite !page_offset.
  by rewrite (Z.mod_small lo), (Z.mod_small hi) by lia.
Qed.

Definition whole_sub (base i o : Z) : subpage_t :=
  mkSub base (replicate (Z.to_nat 4096) i) (replicate (Z.to_nat 4096) o).

Lemma fill_all {A} (v w : A) n : fill_range 0 (Z.of_nat n - 1) v (replicate n w) = replicate n v.
Proof.
  apply list_eq. intros j. destruct n as [|n]; [done|]. rewrite lookup_fill_range by (rewrite ?length_replicate; lia).
  destruct (decide (j < S n)%nat).
  - rewrite decide_True by lia. by rewrite lookup_replicate_2.
  - rewrite decide_False by lia. by rewrite !lookup_ge_None_2 by (rewrite length_replicate; lia).
Qed.

Lemma subpage_init_run s base memory o i :
  io_wf s → list_find (λ b, b = false) (io_mem_used s) = Some (i, false) → (i < Z.to_nat 512)%nat →
  subpage_init base memory o s
  = Ok (io_fresh s, subpage_pd (Z.of_nat i)) (add_subpage i (whole_sub base (sub_index memory) o) s).
Proof.
  intros Hw Hi Hlt. unfold subpage_init. rewrite bind_gets, bind_modify. set (s1 := set_io_fresh _ _).
  assert (Hreg : cpu_register_io_memory (three (Some FnSubpage)) (three (Some FnSubpage)) (OpSubpage (io_fresh s))
    DEVICE_NATIVE_ENDIAN s1
    = Ok (Z.shiftl (Z.of_nat i) IO_MEM_SHIFT)
        (add_subpage i (mkSub base (replicate (Z.to_nat TARGET_PAGE_SIZE) 0) (replicate (Z.to_nat TARGET_PAGE_SIZE) 0)) s)).
  { unfold cpu_register_io_memory, cpu_register_io_memory_fixed, get_free_io_mem_idx. rewrite Z.leb_refl.
    rewrite bind_assoc, bind_gets. change (io_mem_used s1) with (io_mem_used s). rewrite Hi.
    rewrite bind_assoc, bind_modify, bind_ret. rewrite (proj2 (Z.eqb_neq (Z.of_nat i) (-1))) by lia.
    unfold set_row. rewrite bind_assoc, bind_gets. change (io_rows _) with (io_rows s).
    destruct (lookup_lt_is_Some_2 (io_rows s) i) as [r Hr]; [by rewrite (iw_rows _ Hw)|].
    rewrite bind_assoc, (bind_Ok _ _ _ _ _ (at_idx_ok (io_rows s) (Z.of_nat i) r _ ltac:(lia) ltac:(by rewrite Nat2Z.id))).
    rewrite bind_modify, bind_ret, Nat2Z.id. done. }
  rewrite (bind_Ok _ _ _ _ _ Hreg).
  change (Z.to_nat TARGET_PAGE_SIZE) with (Z.to_nat 4096).
  set (sp0 := mkSub base _ _).
  erewrite bind_Ok; [|apply (subpage_register_run _ _ _ _ _ _ sp0); [apply lookup_insert_eq|vm_compute; done|vm_compute; done]].
  assert (Hf : fill_sub 0 (TARGET_PAGE_SIZE - 1) (sub_index memory) o sp0 = whole_sub base (sub_index memory) o).
  { unfold fill_sub, sp0, whole_sub. cbn [sub_base sub_io_index sub_region_offset].
    change (TARGET_PAGE_SIZE - 1) with (Z.of_nat (Z.to_nat 4096) - 1). by rewrite !fill_all. }
  rewrite Hf. unfold mret, M_ret, with_sub, set_subpages, add_subpage. cbn [subpages l1_phys_map io_rows io_mem_used containers io_fresh].
  by rewrite insert_insert_eq.
Qed.

(** ** One page *)

Lemma plain_place s i a : plain_row s i → row_place s i a = dev_place i a.
Proof.
  intros (_ & _ & r & Hr & Hn). unfold row_place. rewrite Hr.
  destruct (row_opaque r) eqn:E; try done. destruct Hn. by exists p.
Qed.

Lemma whole_place base m o a : sub_place (whole_sub base m o) a = dev_place m (wrap phys_width (a + o)).
Proof.
  unfold sub_place, whole_sub. rewrite offset_mod. pose proof (Z.mod_pos_bound a 4096 ltac:(lia)).
  cbn [sub_io_index sub_region_offset]. by rewrite !lookup_replicate_2 by lia.
Qed.

Lemma whole_ok s base m o : plain_row s m → sub_ok s (whole_sub base m o).
Proof. intros Hm. split_and!; [apply length_replicate..|by apply Forall_replicate]. Qed.

Lemma wrap_offset a : wrap phys_width (a mod 4096) = a mod 4096.
Proof.
  pose proof (Z.mod_pos_bound a 4096 ltac:(lia)). apply wrap_small. unfold in_width.
  destruct phys_width_cases as [->| ->]; lia.
Qed.

Lemma io_addr_eq pd o a : desc_io_addr (Some (mkDesc pd o)) a = wrap phys_width (a mod 4096 + o).
Proof. unfold desc_io_addr. by rewrite offset_mod. Qed.

(** A page becomes a subpage: [m0] with offset [o0], but [i] with offset [o] in a
    part of it. *)
Lemma split_page s j base m0 o0 i o lo hi n :
  io_wf s → is_Some (phys_page_find (l1_phys_map s) j) → plain_row s m0 → plain_row s i →
  io_mem_used s !! n = Some false → 5 ≤ Z.of_nat n < 512 → 0 ≤ lo → hi < 4096 →
  let s' := with_desc j (mkDesc (subpage_pd (Z.of_nat n)) 0)
    (add_subpage n (fill_sub lo hi i o (whole_sub base m0 o0)) s) in
  io_wf s' ∧ rows_kept s s' ∧
  (∀ a, same_page j (a / 4096) →
     place_at s' a = if decide (lo ≤ a mod 4096 ≤ hi) then dev_place i (wrap phys_width (a mod 4096 + o))
                     else dev_place m0 (wrap phys_width (a mod 4096 + o0))) ∧
  (∀ a, ¬ same_page j (a / 4096) → place_at s' a = place_at s a).
Proof.
  intros Hw Hj Hm Hi Hn Hn5 Hlo Hhi s'. set (sp := fill_sub lo hi i o (whole_sub base m0 o0)) in *.
  assert (Hsp : sub_ok s sp) by (by apply fill_sub_ok, whole_ok).
  destruct (add_subpage_wf s n sp Hw Hn Hsp) as [Hw1 Hp1]. set (s1 := add_subpage n sp s) in *.
  destruct (subpage_pd_facts (Z.of_nat n) Hn5) as (F1 & F2 & F3 & F4).
  set (d := mkDesc (subpage_pd (Z.of_nat n)) 0) in *.
  assert (Hrow : io_rows s1 !! n
    = Some (mkRow (three (Some FnSubpage)) (three (Some FnSubpage)) (OpSubpage (io_fresh s)))).
  { simpl. apply list_lookup_insert_eq. rewrite (iw_rows _ Hw). lia. }
  assert (Hsub : subpages s1 !! io_fresh s = Some sp) by apply lookup_insert_eq.
  destruct (with_desc_wf s1 j d) as (Hw2 & Hs2 & Ho2); [done|done| | |].
  { intros _. left. cbn [phys_offset region_offset d]. rewrite F3, Nat2Z.id. split_and!; try done. eauto 10. }
  { intros _ _ k e He Re Se. cbn [phys_offset d]. rewrite F3. intros E.
    pose proof (page_row_used s e Hw (iw_pages _ Hw k e He) Re) as Hu. rewrite <-E, Nat2Z.id in Hu. congruence. }
  split_and!; try done.
  - by apply (add_subpage_kept n sp s).
  - intros a Ha. rewrite Hs2 by done. unfold desc_place. cbn [phys_offset d]. rewrite F1.
    rewrite (proj2 (Z.eqb_neq _ _)) by done. unfold row_place. rewrite F3, Nat2Z.id, Hrow. cbn [row_opaque]. rewrite Hsub.
    unfold d. rewrite io_addr_eq, Z.add_0_r, wrap_offset. unfold sp. rewrite (fill_sub_place s) by (done || by apply whole_ok).
    rewrite whole_place, Z.mod_mod by lia. done.
  - intros a Ha. by rewrite Ho2, Hp1.
Qed.

(** What a page holds: its descriptor's offset. *)
Definition pd_at (s : io_state) (j : Z) : Z := desc_pd (phys_page_find (l1_phys_map s) j).

Lemma pd_unassigned s a : pd_at s (a / 4096) = IO_MEM_UNASSIGNED → place_at s a = PlUnassigned.
Proof.
  unfold pd_at, place_at, desc_place. destruct (phys_page_find _ _) as [d|]; [|done]. simpl. intros ->. done.
Qed.

Lemma store_find s j d k :
  io_wf s → is_Some (phys_page_find (l1_phys_map s) j) →
  pd_at (with_desc j d s) k = if same_page_dec j k then phys_offset d else pd_at s k.
Proof.
  intros Hw Hj. unfold pd_at. rewrite with_desc_find by (done || apply Hw).
  by destruct (same_page_dec j k).
Qed.

Lemma alloc_pd s j k : io_wf s → pd_at (with_page j s) k = pd_at s k.
Proof.
  intros Hw. destruct (with_page_wf s j Hw) as (_ & _ & _ & Hf). unfold pd_at.
  destruct (phys_page_find (l1_phys_map (with_page j s)) k) as [d|] eqn:Ed.
  - destruct (Hf k d Ed) as [-> |[-> E]]; [done|]. simpl. done.
  - destruct (phys_page_find (l1_phys_map s) k) as [d|] eqn:E; [|done].
    simpl in Ed. by rewrite (page_alloc_keeps _ _ _ _ E) in Ed.
Qed.

(** The bytes of the page of [start + 4096 k] that belong to the region. *)
Definition region_page (start k : Z) : Z := (start + 4096 * k) / 4096.
Definition region_lo (start k : Z) : Z := Z.max start (4096 * region_page start k) - 4096 * region_page start k.
Definition region_hi (start size k : Z) : Z :=
  Z.min (start + size) (4096 * region_page start k + 4096) - 1 - 4096 * region_page start k.
Definition region_whole (start size k : Z) : bool := (region_lo start k =? 0) && (region_hi start size k =? 4095).

Lemma find_shift s addr : phys_page_find (l1_phys_map s) (Z.shiftr addr TARGET_PAGE_BITS)
  = phys_page_find (l1_phys_map s) (addr / 4096).
Proof. by rewrite shift_page. Qed.

(** A page without an owner is assigned. *)
Lemma unassigned_run s start size k pd o :
  io_wf s → region_fits start size → 0 ≤ k → 4096 * k < size →
  pd_at s (region_page start k) = IO_MEM_UNASSIGNED →
  (ram_pd pd = true ∨ region_whole start size k = true) → 
  register_page start size (start + 4096 * k) pd o s
  = Ok (next_offset pd) (with_desc (region_page start k) (mkDesc pd o) (with_page (region_page start k) s)).
Proof.
  intros Hw Hf Hk Hlt Hpd Hcase.
  destruct (check_subpage_spec start size k Hf Hk Hlt) as (HC & _ & _).
  assert (Hrun : register_unassigned start size (start + 4096 * k) pd o s
    = Ok (next_offset pd) (with_desc (region_page start k) (mkDesc pd o) (with_page (region_page start k) s))).
  { unfold register_unassigned, store_desc. rewrite bind_modify, bind_modify, !shift_page. rewrite HC.
    fold (region_page start k). fold (region_lo start k). fold (region_hi start size k).
    unfold next_offset. fold (offset_of pd). fold (ram_pd pd).
    destruct (ram_pd pd) eqn:Er; [done|]. destruct Hcase as [?|Hwh]; [done|]. unfold region_whole in Hwh.
    rewrite Hwh. done. }
  unfold register_page. rewrite bind_gets, find_shift. fold (region_page start k). unfold pd_at in Hpd.
  destruct (phys_page_find _ _) as [d|]; [|done]. simpl in Hpd. by rewrite Hpd.
Qed.

Lemma unassigned_wf s j pd o :
  io_wf s → page_ok s (mkDesc pd o) → (ram_pd pd = false → ¬ sub_pd pd) →
  let s' := with_desc j (mkDesc pd o) (with_page j s) in
  io_wf s' ∧ rows_kept s s' ∧ (∀ i, io_mem_used s' !! i = io_mem_used s !! i) ∧
  (∀ a, same_page j (a / 4096) → place_at s' a = desc_place s (mkDesc pd o) a) ∧
  (∀ a, ¬ same_page j (a / 4096) → place_at s' a = place_at s a) ∧
  (∀ k, ¬ same_page j k → pd_at s' k = pd_at s k).
Proof.
  intros Hw Hp Hn s'. destruct (with_page_wf s j Hw) as (Hw1 & Hp1 & Hf1 & _).
  destruct (with_desc_wf (with_page j s) j (mkDesc pd o)) as (Hw2 & Hs2 & Ho2); [done|done|done| |].
  { intros Hr Hs. by destruct (Hn Hr). }
  split_and!; try done.
  - intros a Ha. by rewrite Ho2, Hp1.
  - intros k Hk. unfold s'. rewrite store_find by done. destruct (same_page_dec j k); [done|]. by apply alloc_pd.
Qed.

(** The page of a device region, whole or in part. *)
Record page_step (s s' : io_state) (start size k i o : Z) : Prop := {
  ps_wf : io_wf s';
  ps_rows : rows_kept s s';
  ps_free : region_whole start size k = true → ∀ n, io_mem_used s' !! n = io_mem_used s !! n;
  ps_place : ∀ a, same_page (region_page start k) (a / 4096) →
    place_at s' a = if decide (region_lo start k ≤ a mod 4096 ≤ region_hi start size k)
                    then PlDev i (wrap phys_width (a mod 4096 + o)) else place_at s a;
  ps_other : ∀ a, ¬ same_page (region_page start k) (a / 4096) → place_at s' a = place_at s a;
  ps_pd : ∀ j, ¬ same_page (region_page start k) j → pd_at s' j = pd_at s j;
}.

Lemma device_page_ok s pd i o : device_pd pd i → plain_row s i → page_ok s (mkDesc pd o).
Proof.
  intros Hd Hp _. destruct (device_pd_facts pd i Hd) as (_ & Hs & Hi & _). right. simpl. by rewrite Hi.
Qed.

Lemma dev_place_ne i a : 5 ≤ i → dev_place i a = PlDev i a.
Proof. intros Hi. unfold dev_place. by rewrite (proj2 (Z.eqb_neq i 2)) by lia. Qed.

Lemma sub_index_eq pd : ram_pd pd = false → sub_index pd = desc_io_index pd.
Proof.
  unfold ram_pd, sub_index, desc_io_index. intros Hr. apply orb_false_elim in Hr as [Hr _].
  fold (offset_of pd). change IO_MEM_RAM with 0. apply Z.leb_gt in Hr.
  rewrite (proj2 (Z.eqb_neq _ _)); [done|]. change IO_MEM_ROM with 8 in Hr. lia.
Qed.

Lemma page_whole s start size k pd i o :
  io_wf s → region_fits start size → 0 ≤ k → 4096 * k < size → device_pd pd i → plain_row s i →
  region_whole start size k = true → pd_at s (region_page start k) = IO_MEM_UNASSIGNED →
  ∃ s', register_page start size (start + 4096 * k) pd o s = Ok pd s' ∧ page_step s s' start size k i o.
Proof.
  intros Hw Hf Hk Hlt Hd Hi Hwh Hpd. rewrite unassigned_run by auto.
  destruct (device_pd_facts pd i Hd) as (D1 & D2 & D3 & D4 & D5 & _). rewrite D5. eexists. split; [reflexivity|].
  destruct (unassigned_wf s (region_page start k) pd o Hw (device_page_ok s pd i o Hd Hi)) as (W1 & W2 & W3 & W4 & W5 & W6);
    [done|]. split; try done.
  intros a Ha. rewrite W4 by done. unfold region_whole in Hwh.
  apply andb_prop in Hwh as [E1 E2]. apply Z.eqb_eq in E1, E2. rewrite E1, E2.
  pose proof (Z.mod_pos_bound a 4096 ltac:(lia)). rewrite decide_True by lia.
  unfold desc_place. cbn [phys_offset]. rewrite D1, (proj2 (Z.eqb_neq _ _)), D3 by done.
  rewrite (plain_place s) by done. rewrite io_addr_eq. apply dev_place_ne. apply Hd.
Qed.

(** The table entry of a new subpage and what it leaves alone. *)
Lemma page_split_step s s0 start size k i o m0 o0 n base :
  io_wf s0 → is_Some (phys_page_find (l1_phys_map s0) (region_page start k)) →
  plain_row s0 m0 → plain_row s0 i → 5 ≤ i → io_mem_used s0 !! n = Some false → 5 ≤ Z.of_nat n < 512 →
  0 ≤ region_lo start k → region_hi start size k < 4096 → region_whole start size k = false →
  rows_kept s s0 →
  (∀ a, same_page (region_page start k) (a / 4096) → place_at s a = dev_place m0 (wrap phys_width (a mod 4096 + o0))) →
  (∀ a, ¬ same_page (region_page start k) (a / 4096) → place_at s0 a = place_at s a) →
  (∀ j, ¬ same_page (region_page start k) j → pd_at s0 j = pd_at s j) →
  page_step s (with_desc (region_page start k) (mkDesc (subpage_pd (Z.of_nat n)) 0)
    (add_subpage n (fill_sub (region_lo start k) (region_hi start size k) i o (whole_sub base m0 o0)) s0))
    start size k i o.
Proof.
  intros Hw Hj Hm Hi Hi5 Hn Hn5 Hlo Hhi Hwh Hpl Hsame Hoth Hpds.
  destruct (split_page s0 (region_page start k) base m0 o0 i o _ _ n Hw Hj Hm Hi Hn Hn5 Hlo Hhi) as (W1 & W2 & W3 & W4).
  split; try done.
  - by trans s0.
  - by rewrite Hwh.
  - intros a Ha. rewrite W3, Hsame by done. by rewrite (dev_place_ne i) by done.
  - intros a Ha. by rewrite W4, Hoth.
  - intros j Hjn. assert (Hadd : ∀ sp, io_wf (add_subpage n sp s0) → pd_at (with_desc (region_page start k)
      (mkDesc (subpage_pd (Z.of_nat n)) 0) (add_subpage n sp s0)) j = pd_at s0 j).
    { intros sp Hsp. rewrite store_find by done. by destruct (same_page_dec _ j). }
    rewrite Hadd, Hpds by done || (apply add_subpage_wf; [done|done|by apply fill_sub_ok, whole_ok]). done.
Qed.

Lemma split_runs s j memory o0 pd o lo hi n base :
  io_wf s → list_find (λ b, b = false) (io_mem_used s) = Some (n, false) → 5 ≤ Z.of_nat n < 512 →
  0 ≤ lo < 4096 → 0 ≤ hi < 4096 →
  ('(sp, phys) ← subpage_init base memory o0;
   subpage_register sp lo hi pd o;; store_desc j (mkDesc phys 0)) s
  = Ok () (with_desc j (mkDesc (subpage_pd (Z.of_nat n)) 0)
      (add_subpage n (fill_sub lo hi (sub_index pd) o (whole_sub base (sub_index memory) o0)) s)).
Proof.
  intros Hw Hn Hn5 Hlo Hhi. rewrite (bind_Ok _ _ _ _ _ (subpage_init_run s base memory o0 n Hw Hn ltac:(lia))).
  erewrite bind_Ok; [|apply subpage_register_run; [apply lookup_insert_eq|lia|lia]].
  unfold store_desc, modify. do 2 f_equal. unfold with_sub, add_subpage, set_subpages.
  cbn [subpages l1_phys_map io_rows io_mem_used containers io_fresh]. by rewrite insert_insert_eq.
Qed.

Lemma has_free_ext s s' : (∀ n, io_mem_used s' !! n = io_mem_used s !! n) → has_free s → has_free s'.
Proof. intros Hu [n Hn]. exists n. by rewrite Hu. Qed.

(** An unassigned page that is covered in part. *)
Lemma unassigned_split s start size addr pd i o lo hi :
  io_wf s → device_pd pd i → plain_row s i → has_free s → pd_at s (addr / 4096) = IO_MEM_UNASSIGNED →
  CHECK_SUBPAGE addr start size = (lo, hi, true) → 0 ≤ lo < 4096 → 0 ≤ hi < 4096 →
  ∃ n base s2, register_page start size addr pd o s
      = Ok pd (with_desc (addr / 4096) (mkDesc (subpage_pd (Z.of_nat n)) 0)
          (add_subpage n (fill_sub lo hi i o (whole_sub base 2 base)) s2)) ∧
    io_wf s2 ∧ rows_kept s s2 ∧ io_mem_used s2 !! n = Some false ∧ 5 ≤ Z.of_nat n < 512 ∧
    is_Some (phys_page_find (l1_phys_map s2) (addr / 4096)) ∧
    (∀ a, same_page (addr / 4096) (a / 4096) → place_at s a = PlUnassigned) ∧
    (∀ a, ¬ same_page (addr / 4096) (a / 4096) → place_at s2 a = place_at s a) ∧
    (∀ k, ¬ same_page (addr / 4096) k → pd_at s2 k = pd_at s k).
Proof.
  intros Hw Hd Hi Hfree Hpd HC Hlo Hhi.
  destruct (device_pd_facts pd i Hd) as (D1 & D2 & D3 & D4 & D5 & D6).
  destruct (unassigned_wf s (addr / 4096) pd o Hw (device_page_ok s pd i o Hd Hi)) as (W1 & W2 & W3 & W4 & W5 & W6);
    [done|]. set (s2 := with_desc _ _ _) in *.
  destruct (free_found s2 W1 (has_free_ext s s2 W3 Hfree)) as (n & Hn & Hu & Hn5).
  exists n, (Z.land addr TARGET_PAGE_MASK), s2. split_and!; try done; [| |lia|..].
  - assert (Hun : register_unassigned start size addr pd o s
      = Ok pd (with_desc (addr / 4096) (mkDesc (subpage_pd (Z.of_nat n)) 0)
          (add_subpage n (fill_sub lo hi i o
             (whole_sub (Z.land addr TARGET_PAGE_MASK) 2 (Z.land addr TARGET_PAGE_MASK))) s2))).
    { unfold register_unassigned. rewrite bind_modify. erewrite bind_Ok; [|reflexivity]. rewrite !shift_page, HC.
      fold (offset_of pd). fold (ram_pd pd). rewrite D1.
      erewrite bind_Ok; [|apply (split_runs s2 _ _ _ _ _ _ _ n); done]. by rewrite (sub_index_eq pd), D3. }
    unfold register_page. rewrite bind_gets, find_shift. unfold pd_at in Hpd.
    destruct (phys_page_find _ _) as [d|]; [|done]. simpl in Hpd. by rewrite Hpd.
  - lia.
  - destruct (with_page_wf s (addr / 4096) Hw) as (Hw' & _ & Hs' & _).
    unfold s2. rewrite with_desc_find by (done || apply Hw'). by destruct (same_page_dec _ _).
  - intros a Ha. apply pd_unassigned. unfold pd_at in *. by rewrite <-(page_find_same _ _ _ Ha).
Qed.

Lemma page_part_unassigned s start size k pd i o :
  io_wf s → region_fits start size → 0 ≤ k → 4096 * k < size → device_pd pd i → plain_row s i →
  region_whole start size k = false → pd_at s (region_page start k) = IO_MEM_UNASSIGNED → has_free s →
  ∃ s', register_page start size (start + 4096 * k) pd o s = Ok pd s' ∧ page_step s s' start size k i o.
Proof.
  intros Hw Hf Hk Hlt Hd Hi Hwh Hpd Hfree.
  destruct (check_subpage_spec start size k Hf Hk Hlt) as (HC & Hlo & Hhi).
  fold (region_page start k) in HC, Hlo, Hhi. fold (region_lo start k) in HC, Hlo.
  fold (region_hi start size k) in HC, Hlo, Hhi. fold (region_whole start size k) in HC. rewrite Hwh in HC.
  destruct (unassigned_split s start size (start + 4096 * k) pd i o _ _ Hw Hd Hi Hfree Hpd HC)
    as (n & base & s2 & E & W1 & W2 & Hu & Hn5 & Hj & Hun & Hoth & Hpds); [lia..|].
  fold (region_page start k) in *. eexists. split; [exact E|].
  assert (Hm2 : plain_row s2 2) by (by apply W2, (iw_fixed _ Hw)). assert (Hi2 : plain_row s2 i) by (by apply W2).
  apply (page_split_step s s2); try done; [apply Hd|lia].
Qed.

Lemma page_part_device s start size k pd i o d :
  io_wf s → region_fits start size → 0 ≤ k → 4096 * k < size → device_pd pd i → plain_row s i →
  region_whole start size k = false → phys_page_find (l1_phys_map s) (region_page start k) = Some d →
  phys_offset d ≠ IO_MEM_UNASSIGNED → ram_pd (phys_offset d) = false → ¬ sub_pd (phys_offset d) → has_free s →
  ∃ s', register_page start size (start + 4096 * k) pd o s = Ok pd s' ∧ page_step s s' start size k i o.
Proof.
  intros Hw Hf Hk Hlt Hd Hi Hwh Hfind Hne Hr Hs Hfree.
  destruct (check_subpage_spec start size k Hf Hk Hlt) as (HC & Hlo & Hhi).
  destruct (device_pd_facts pd i Hd) as (D1 & _ & D3 & _).
  destruct (free_found s Hw Hfree) as (n & Hn & Hu & Hn5).
  destruct (iw_pages _ Hw _ _ Hfind Hr) as [[? _]|[_ Hpl]]; [done|].
  eexists. split.
  - unfold register_page. rewrite bind_gets, find_shift. fold (region_page start k). rewrite Hfind.
    rewrite (proj2 (Z.eqb_neq _ _)) by done. unfold register_assigned. rewrite HC, shift_page.
    fold (region_page start k). fold (region_lo start k). fold (region_hi start size k).
    fold (region_whole start size k). rewrite Hwh. cbn [negb].
    rewrite (proj2 (Z.eqb_eq (Z.land (phys_offset d) IO_MEM_SUBPAGE) 0)) by (by apply dec_stable).
    pose proof (split_runs s (region_page start k) (phys_offset d) (region_offset d) pd o (region_lo start k)
      (region_hi start size k) n (Z.land (start + 4096 * k) TARGET_PAGE_MASK) Hw Hn Hn5 ltac:(unfold region_lo, region_page in *; lia)
      ltac:(unfold region_hi, region_page in *; lia)) as Hrun.
    apply bind_inv_Ok in Hrun as ([sp phys] & s1 & E1 & Hrun). rewrite (bind_Ok _ _ _ _ _ E1).
    apply bind_inv_Ok in Hrun as (r & s2 & E2 & Hrun). rewrite (bind_Ok _ _ _ _ _ E2).
    rewrite (bind_Ok _ _ _ _ _ Hrun). reflexivity.
  - assert (Hi5 : 5 ≤ i) by apply Hd.
    assert (Hlo0 : 0 ≤ region_lo start k) by apply Hlo. assert (Hhi0 : region_hi start size k < 4096) by apply Hhi.
    rewrite !sub_index_eq, D3 by done. apply (page_split_step s s); try done.
    intros a Ha. unfold place_at. rewrite <-(page_find_same _ _ _ Ha), Hfind. unfold desc_place.
    rewrite Hr, (proj2 (Z.eqb_neq _ _)) by done. rewrite (plain_place s) by done.
    destruct d as [pd' o']. by rewrite io_addr_eq.
Qed.

Lemma page_part_sub s start size k pd i o d :
  io_wf s → region_fits start size → 0 ≤ k → 4096 * k < size → device_pd pd i → plain_row s i →
  region_whole start size k = false → phys_page_find (l1_phys_map s) (region_page start k) = Some d →
  phys_offset d ≠ IO_MEM_UNASSIGNED → ram_pd (phys_offset d) = false → sub_pd (phys_offset d) →
  ∃ s', register_page start size (start + 4096 * k) pd o s = Ok pd s' ∧ page_step s s' start size k i o.
Proof.
  intros Hw Hf Hk Hlt Hd Hi Hwh Hfind Hne Hr Hs.
  destruct (check_subpage_spec start size k Hf Hk Hlt) as (HC & Hlo & Hhi).
  assert (Hb : 0 ≤ region_lo start k ≤ region_hi start size k ∧ region_hi start size k < 4096) by (by split).
  destruct (device_pd_facts pd i Hd) as (D1 & _ & D3 & _).
  destruct (iw_pages _ Hw _ _ Hfind Hr) as [(_ & Hro & r & p & sp & P3 & P4 & P5)|[? _]]; [|done].
  pose proof (iw_subs _ Hw _ _ P5) as Hsp.
  set (sp' := fill_sub (region_lo start k) (region_hi start size k) i o sp).
  assert (Hsp' : sub_ok s sp') by (by apply fill_sub_ok; [apply Hlo|apply Hhi|..]).
  destruct (with_sub_wf s p sp' (desc_io_index (phys_offset d)) r (region_page start k) d Hw P3 P4 Hsp' Hfind Hr Hs eq_refl)
    as (W1 & W2 & W3). set (s1 := with_sub p sp' s) in *.
  assert (Hf1 : phys_page_find (l1_phys_map s1) (region_page start k) = Some d) by done.
  destruct (with_desc_wf s1 (region_page start k) d) as (V1 & V2 & V3);
    [done|by rewrite Hf1|by apply (iw_pages _ W1 _ _ Hf1)|by intros R1 S1 l e He R2 S2 E; apply (iw_own _ W1 _ _ d e)|].
  exists (with_desc (region_page start k) d s1). split.
  - unfold register_page. rewrite bind_gets, find_shift. fold (region_page start k). rewrite Hfind.
    rewrite (proj2 (Z.eqb_neq _ _)) by done. unfold register_assigned. rewrite HC, shift_page.
    fold (region_page start k). fold (region_lo start k). fold (region_hi start size k).
    fold (region_whole start size k). rewrite Hwh. cbn [negb]. rewrite (proj2 (Z.eqb_neq (Z.land _ _) 0)) by done.
    assert (Hsub : subpage_of (Z.shiftr (Z.land (phys_offset d) (Z.lnot TARGET_PAGE_MASK)) IO_MEM_SHIFT) s = Ok p s).
    { unfold subpage_of. rewrite bind_gets.
      assert (E : Z.shiftr (Z.land (phys_offset d) (Z.lnot TARGET_PAGE_MASK)) IO_MEM_SHIFT = desc_io_index (phys_offset d)).
      { unfold desc_io_index. change (Z.lnot TARGET_PAGE_MASK) with (Z.ones 12).
        change (IO_MEM_NB_ENTRIES - 1) with (Z.shiftr (Z.ones 12) IO_MEM_SHIFT). by rewrite Z.shiftr_land. }
      rewrite E. rewrite (bind_Ok _ _ _ _ _ (at_idx_ok _ _ r _ (proj1 (io_index_width _)) P3)), P4. done. }
    rewrite bind_assoc, (bind_Ok _ _ _ _ _ Hsub), bind_ret.
    erewrite bind_Ok; [|apply (subpage_register_run _ _ _ _ _ _ sp); [done|lia|lia]].
    rewrite (sub_index_eq pd), D3 by done. fold sp'. fold s1. unfold store_desc. rewrite bind_modify.
    replace (mkDesc (phys_offset d) 0) with d by (destruct d; simpl in *; by subst). done.
  - split; try done.
    + intros a Ha. rewrite V2 by done.
      assert (Hda : phys_page_find (l1_phys_map s) (a / 4096) = Some d) by (by rewrite <-(page_find_same _ _ _ Ha)).
      pose proof (W2 a Ha Hda) as W2a. unfold place_at in W2a at 1. change (l1_phys_map s1) with (l1_phys_map s) in W2a.
      rewrite Hda in W2a. rewrite W2a. unfold sp'. rewrite (fill_sub_place s) by (done || apply Hlo || apply Hhi).
      destruct d as [pd' o']. simpl in Hro. subst o'. rewrite io_addr_eq, Z.add_0_r, wrap_offset, Z.mod_mod by lia.
      rewrite (dev_place_ne i) by apply Hd. destruct (decide _); [done|].
      unfold place_at. rewrite Hda. unfold desc_place. cbn [phys_offset] in *. rewrite Hr, (proj2 (Z.eqb_neq _ _)) by done.
      unfold row_place. by rewrite P3, P4, P5, io_addr_eq, Z.add_0_r, wrap_offset.
    + intros a Ha. by rewrite V3, W3.
    + intros j Hj. rewrite store_find by (done || by rewrite Hf1). by destruct (same_page_dec _ j).
Qed.

(** ** The whole region *)

(** Pages that are wholly covered are unassigned, pages that are covered in part
    are not RAM. *)
Definition page_ready (s : io_state) (start size k : Z) : Prop :=
  if region_whole start size k then pd_at s (region_page start k) = IO_MEM_UNASSIGNED
  else ram_pd (pd_at s (region_page start k)) = false.

Lemma page_device s start size k pd i o :
  io_wf s → region_fits start size → 0 ≤ k → 4096 * k < size → device_pd pd i → plain_row s i →
  page_ready s start size k → has_free s →
  ∃ s', register_page start size (start + 4096 * k) pd o s = Ok pd s' ∧ page_step s s' start size k i o.
Proof.
  intros Hw Hf Hk Hlt Hd Hi Hr Hfree. unfold page_ready in Hr.
  destruct (region_whole start size k) eqn:Hwh; [by apply page_whole|].
  destruct (decide (pd_at s (region_page start k) = IO_MEM_UNASSIGNED)) as [E|E]; [by apply page_part_unassigned|].
  unfold pd_at in *. destruct (phys_page_find _ _) as [d|] eqn:Ed; [|done]. simpl in *.
  destruct (decide (Z.land (phys_offset d) IO_MEM_SUBPAGE = 0)) as [Es|Es].
  - apply (page_part_device s start size k pd i o d); try done. by intros [].
  - by apply (page_part_sub s start size k pd i o d).
Qed.

Definition space_pages : Z := 2 ^ (phys_space_bits - TARGET_PAGE_BITS).
Definition in_space (a : Z) : Prop := 0 ≤ a < 4096 * space_pages.

Lemma same_page_eq j k : 0 ≤ j < space_pages → 0 ≤ k < space_pages → same_page j k ↔ j = k.
Proof. unfold same_page, space_pages. intros Hj Hk. rewrite !Z.mod_small by done. done. Qed.

Lemma region_page_eq start k : region_page start k = start / 4096 + k.
Proof. unfold region_page. rewrite (Z.mul_comm 4096), Z.div_add; lia. Qed.

Lemma region_inner start size k :
  region_fits start size → 0 ≤ k → 4096 * (k + 1) < size → region_whole start size k = true.
Proof.
  intros (F0 & F1 & _ & Hf) Hk Hlt. pose proof (Z.div_mod start 4096 ltac:(lia)).
  pose proof (Z.mod_pos_bound start 4096 ltac:(lia)).
  unfold region_whole, region_lo, region_hi. rewrite region_page_eq.
  apply andb_true_intro. split; apply Z.eqb_eq; lia.
Qed.

(** The bytes of the region from page [k] on. *)
Definition region_from (start size k a : Z) : Prop := start ≤ a < start + size ∧ region_page start k ≤ a / 4096.
#[local] Instance region_from_dec start size k a : Decision (region_from start size k a).
Proof. unfold region_from. apply _. Defined.

(** The address a device of the region is given for [a]. *)
Definition region_addr (start o a : Z) : Z := wrap phys_width (a - 4096 * (start / 4096) + 4096 * (o / 4096)).

Lemma region_addr_page start o k a :
  a / 4096 = region_page start k →
  wrap phys_width (a mod 4096 + wrap 64 (4096 * (o / 4096) + 4096 * k)) = region_addr start o a.
Proof.
  rewrite region_page_eq. intros E. unfold region_addr.
  rewrite <-(wrap_phys_64 (a mod 4096 + _)), (Z.add_comm (a mod 4096)), wrap_add_l, wrap_phys_64.
  f_equal. pose proof (Z.div_mod a 4096 ltac:(lia)). lia.
Qed.

Lemma covered_page start size k a :
  region_fits start size → 0 ≤ k → 4096 * k < size → a / 4096 = region_page start k →
  region_lo start k ≤ a mod 4096 ≤ region_hi start size k ↔ start ≤ a < start + size.
Proof.
  intros (F0 & F1 & _ & Hf) Hk Hlt E. unfold region_lo, region_hi. rewrite <-E.
  pose proof (Z.div_mod a 4096 ltac:(lia)). pose proof (Z.mod_pos_bound a 4096 ltac:(lia)). lia.
Qed.

Lemma register_loop_ok n : ∀ s start size k pd i o,
  io_wf s → region_fits start size → start + size ≤ 4096 * space_pages →
  0 ≤ k → 4096 * k < size → 4096 * (k + Z.of_nat n - 1) < size ≤ 4096 * (k + Z.of_nat n) →
  device_pd pd i → plain_row s i → has_free s →
  (∀ j, k ≤ j → 4096 * j < size → page_ready s start size j) →
  ∃ s', register_loop n start size (wrap phys_width (start + 4096 * (k + Z.of_nat n))) (start + 4096 * k) pd
      (wrap 64 (4096 * (o / 4096) + 4096 * k)) s = Ok () s' ∧
    io_wf s' ∧ rows_kept s s' ∧
    ∀ a, in_space a → place_at s' a
      = if decide (region_from start size k a) then PlDev i (region_addr start o a) else place_at s a.
Proof.
  induction n as [|n IH]; intros s start size k pd i o Hw Hf Hsp Hk Hlt Hn Hd Hi Hfree Hready; [lia|].
  cbn [register_loop].
  destruct (page_device s start size k pd i (wrap 64 (4096 * (o / 4096) + 4096 * k)) Hw Hf Hk Hlt Hd Hi
    (Hready k ltac:(lia) Hlt) Hfree) as (s1 & E1 & [Q1 Q2 Q3 Q4 Q5 Q6]).
  rewrite (bind_Ok _ _ _ _ _ E1). change TARGET_PAGE_SIZE with 4096.
  pose proof Hf as (F0 & F1 & F2 & F3). pose proof (Z.div_mod start 4096 ltac:(lia)) as Hdm.
  pose proof (Z.mod_pos_bound start 4096 ltac:(lia)) as Hmb.
  assert (Hpg : ∀ j, 0 ≤ j → 4096 * j < size → 0 ≤ region_page start j < space_pages).
  { intros j Hj Hjl. rewrite region_page_eq. pose proof (Z.div_pos start 4096). lia. }
  assert (Hstep : ∀ a, in_space a → place_at s1 a
    = if decide (start ≤ a < start + size ∧ a / 4096 = region_page start k)
      then PlDev i (region_addr start o a) else place_at s a).
  { intros a Ha. assert (Hap : 0 ≤ a / 4096 < space_pages).
    { unfold in_space in Ha. split; [apply Z.div_pos; lia|apply Z.div_lt_upper_bound; lia]. }
    destruct (decide (a / 4096 = region_page start k)) as [E|E].
    - rewrite Q4 by (apply same_page_eq; auto). pose proof (covered_page start size k a Hf Hk Hlt E) as Hc.
      destruct (decide (region_lo start k ≤ _ ≤ _)) as [D|D].
      + rewrite decide_True by tauto. by rewrite (region_addr_page start).
      + rewrite decide_False; [done|]. tauto.
    - rewrite decide_False by naive_solver. apply Q5. rewrite same_page_eq by auto. auto. }
  destruct n as [|n].
  - replace (start + 4096 * (k + Z.of_nat 1)) with (start + 4096 * k + 4096) by lia. rewrite Z.eqb_refl.
    exists s1. split; [done|]. split_and!; [done..|]. intros a Ha. rewrite Hstep by done.
    assert (Hiff : region_from start size k a ↔ start ≤ a < start + size ∧ a / 4096 = region_page start k).
    { unfold region_from. split; [|lia]. intros [Hr Hge]. split; [done|]. rewrite region_page_eq in *.
      assert (a / 4096 < start / 4096 + k + 1) by (apply Z.div_lt_upper_bound; lia). lia. }
    destruct (decide (region_from _ _ _ _)) as [D|D]; [by rewrite decide_True by tauto|by rewrite decide_False by tauto].
  - assert (Hwid : 0 ≤ start + 4096 * k + 4096 ∧ start + 4096 * (k + Z.of_nat (S (S n))) < 2 ^ phys_width) by lia.
    rewrite (wrap_small _ (start + 4096 * k + 4096)) by (unfold in_width; lia).
    rewrite (wrap_small _ (start + 4096 * (k + _))) by (unfold in_width; lia).
    rewrite (proj2 (Z.eqb_neq _ _)) by lia.
    destruct (IH s1 start size (k + 1) pd i o) as (s' & E & R1 & R2 & R3); try done; [lia|lia|lia|by apply Q2|..].
    { apply (has_free_ext s s1); [|done]. apply Q3, region_inner; [done..|lia]. }
    { intros j Hj Hjl. pose proof (Hready j ltac:(lia) Hjl) as Hrj. unfold page_ready in *.
      rewrite Q6; [done|]. rewrite same_page_eq by auto with lia. rewrite !region_page_eq. lia. }
    exists s'. replace (start + 4096 * (k + 1)) with (start + 4096 * k + 4096) in E by lia.
    rewrite (wrap_add_l 64 (4096 * (o / 4096) + 4096 * k)).
    replace (4096 * (o / 4096) + 4096 * k + 4096) with (4096 * (o / 4096) + 4096 * (k + 1)) by lia.
    rewrite (wrap_small phys_width (start + 4096 * (k + 1 + _))) in E by (unfold in_width; lia).
    replace (start + 4096 * (k + Z.of_nat (S (S n)))) with (start + 4096 * (k + 1 + Z.of_nat (S n))) by lia.
    split; [exact E|]. split; [done|]. split; [by trans s1|]. intros a Ha. rewrite R3, Hstep by done.
    pose proof (region_page_eq start k). pose proof (region_page_eq start (k + 1)). unfold region_from.
    repeat (match goal with |- context [decide ?P] => destruct (decide P) end); try done; lia.
Qed.

(** The number of turns is enough. *)
Lemma register_region_ok s start size pd i o :
  io_wf s → in_width 64 o → region_fits start size → start + size ≤ 4096 * space_pages → device_pd pd i → plain_row s i → has_free s →
  (∀ k, 0 ≤ k → 4096 * k < size → page_ready s start size k) →
  ∃ s', register_region start size pd o s = Ok () s' ∧ io_wf s' ∧ rows_kept s s' ∧
    ∀ a, in_space a → place_at s' a
      = if (start <=? a) && (a <? start + size) then PlDev i (region_addr start o a) else place_at s a.
Proof.
  intros Hw Ho Hf Hsp Hd Hi Hfree Hready. pose proof Hf as (F0 & F1 & F2 & F3). unfold register_region.
  destruct (device_pd_facts pd i Hd) as (_ & _ & _ & D4 & _).
  rewrite (proj2 (Z.eqb_neq pd IO_MEM_UNASSIGNED)) by done. rewrite !mask_page. change TARGET_PAGE_SIZE with 4096.
  assert (Hw64 : 2 ^ phys_width ≤ 2 ^ 64) by (destruct phys_width_cases as [->| ->]; lia).
  rewrite (wrap_small 64 (size + 4096 - 1)) by (unfold in_width; lia).
  set (n := (size + 4096 - 1) / 4096).
  assert (Hn : 4096 * (n - 1) < size ≤ 4096 * n).
  { unfold n. pose proof (Z.div_mod (size + 4096 - 1) 4096 ltac:(lia)).
    pose proof (Z.mod_pos_bound (size + 4096 - 1) 4096 ltac:(lia)). lia. }
  assert (Ht : register_turns (4096 * n) = n).
  { unfold register_turns. change TARGET_PAGE_SIZE with 4096. rewrite (wrap_small phys_width) by (unfold in_width; lia).
    rewrite Z.mul_comm, Z.div_mul by lia. rewrite (proj2 (Z.eqb_neq n 0)) by lia. done. }
  rewrite Ht. destruct (register_loop_ok (Z.to_nat n) s start size 0 pd i o) as (s' & E & R1 & R2 & R3);
    [done|done|done|lia|lia|lia|done|done|done|done|].
  rewrite Z.mul_0_r, !Z.add_0_r, Z.add_0_l, Z2Nat.id in E by lia.
  rewrite (wrap_small 64) in E.
  2: { unfold in_width in *. pose proof (Z.div_mod o 4096 ltac:(lia)). pose proof (Z.mod_pos_bound o 4096 ltac:(lia)). lia. }
  exists s'. split; [exact E|]. split_and!; try done. intros a Ha. rewrite R3 by done.
  assert (Hiff : region_from start size 0 a ↔ start ≤ a < start + size).
  { unfold region_from. rewrite region_page_eq, Z.add_0_r. split; [tauto|]. intros Hr. split; [done|].
    apply Z.div_le_mono; lia. }
  destruct (decide (region_from _ _ _ _)) as [D|D]; rewrite Hiff in D;
    destruct (Z.leb_spec start a), (Z.ltb_spec a (start + size)); simpl; done || lia.
Qed.

(** ** Reaching a device *)

(** A row that leads to the functions of device [id], through the wrapper that
    swaps bytes or not. *)
Definition dev_row (id : Z) (op : io_opaque) : io_row :=
  mkRow (three (Some (FnDevice id))) (three (Some (FnDevice id))) op.
Definition leads_to (s : io_state) (r : io_row) (id : Z) (op : io_opaque) (swap : bool) : Prop :=
  if swap then ∃ c, r = mkRow (three (Some FnSwap)) (three (Some FnSwap)) (OpSwap c) ∧ containers s !! c = Some (dev_row id op)
  else r = dev_row id op.

Definition swapped (swap : bool) (k v : Z) : Z := if swap && negb (k =? 0) then bswap (io_size k) v else v.
Definition dev_read_as (swap : bool) (id k : Z) (op : io_opaque) (a : Z) : M mem_state Z :=
  v ← dev_read id k op a; mret (wrap 32 (swapped swap k (if swap then wrap 32 v else v))).
Definition dev_write_as (swap : bool) (id k : Z) (op : io_opaque) (a v : Z) : M mem_state () :=
  dev_write id k op a (swapped swap k v).

Lemma three_at {S A} (x : A) k (s : S) : 0 ≤ k < 3 → at_idx (three x) k s = Ok x s.
Proof.
  intros Hk. apply at_idx_ok; [lia|]. assert (Hc : k = 0 ∨ k = 1 ∨ k = 2) by lia.
  by destruct Hc as [->|[->| ->]].
Qed.

Lemma dev_row_calls n s id op k a v : 0 ≤ k < 3 →
  row_read_call (S n) (dev_row id op) k a s = dev_read_as false id k op a s ∧
  row_write_call (S n) (dev_row id op) k a v s = dev_write_as false id k op a v s.
Proof.
  intros Hk. cbn [row_read_call row_write_call dev_row row_read row_write row_opaque].
  rewrite !(bind_Ok _ _ _ _ _ (three_at _ _ _ Hk)), !bind_nonnull. done.
Qed.

Lemma leads_to_calls n s r id op swap k a v : 0 ≤ k < 3 → leads_to (mm_io s) r id op swap →
  row_read_call (S (S n)) r k a s = dev_read_as swap id k op a s ∧
  row_write_call (S (S n)) r k a v s = dev_write_as swap id k op a v s.
Proof.
  intros Hk Hl. destruct swap; [|rewrite Hl; by apply dev_row_calls].
  destruct Hl as (c & -> & Hc). split.
  - remember (S n) as n' eqn:En. cbn [row_read_call row_read row_opaque]; unfold swapendian_mem_read.
    rewrite (bind_Ok _ _ _ _ _ (three_at _ _ _ Hk)), bind_nonnull. cbn [container_of].
    rewrite !bind_assoc, bind_gets, Hc. rewrite bind_assoc, bind_nonnull, bind_ret.
    rewrite bind_assoc. unfold mbind at 1, M_bind at 1. subst n'. rewrite (proj1 (dev_row_calls n s id op k a 0 Hk)).
    unfold dev_read_as, mbind, M_bind, mret, M_ret. destruct (dev_read id k op a s) as [x s1|e s1]; [|done].
    unfold swapped. simpl. by destruct (k =? 0).
  - remember (S n) as n' eqn:En. cbn [row_write_call row_write row_opaque]; unfold swapendian_mem_write.
    rewrite (bind_Ok _ _ _ _ _ (three_at _ _ _ Hk)), bind_nonnull. cbn [container_of].
    rewrite !bind_assoc, bind_gets, Hc. rewrite bind_assoc, bind_nonnull, bind_ret. subst n'.
    rewrite (proj2 (dev_row_calls n s id op k a _ Hk)). unfold dev_write_as, swapped. simpl. by destruct (k =? 0).
Qed.

(** An access through the page table ends at the device of the place. *)
Lemma place_reached s a i b r id op swap k v :
  io_wf (mm_io s) → place_at (mm_io s) a = PlDev i b →
  io_rows (mm_io s) !! Z.to_nat i = Some r → leads_to (mm_io s) r id op swap → 0 ≤ k < 3 →
  ∃ d, phys_page_find (mm_map s) (a / 4096) = Some d ∧ ram_pd (phys_offset d) = false ∧
    io_mem_read (desc_io_index (phys_offset d)) k (desc_io_addr (Some d) a) s = dev_read_as swap id k op b s ∧
    io_mem_write (desc_io_index (phys_offset d)) k (desc_io_addr (Some d) a) v s = dev_write_as swap id k op b v s.
Proof.
  intros Hw Hpl Hr Hl Hk. unfold place_at in Hpl. unfold mm_map. destruct (phys_page_find _ _) as [d|] eqn:Ed; [|done].
  unfold desc_place in Hpl. destruct (_ =? IO_MEM_UNASSIGNED); [done|]. destruct (ram_pd (phys_offset d)) eqn:Er; [done|].
  exists d. split; [done|]. split; [done|]. set (j := desc_io_index (phys_offset d)) in *.
  pose proof (proj1 (io_index_width (phys_offset d))) as Hj0. fold j in Hj0.
  unfold row_place in Hpl. destruct (io_rows (mm_io s) !! Z.to_nat j) as [q|] eqn:Eq; [|done].
  assert (Hrow : table_row j s = Ok q s).
  { unfold table_row. rewrite bind_gets. by apply at_idx_ok. }
  assert (Hdep : ∃ n, io_depth s = S (S (S n))).
  { unfold io_depth. rewrite (iw_rows _ Hw). exists (Z.to_nat 510 + size (containers (mm_io s)))%nat. lia. }
  destruct Hdep as [n Hn]. unfold io_mem_read, io_mem_write. rewrite !bind_gets, Hn, !(bind_Ok _ _ _ _ _ Hrow).
  destruct (row_opaque q) as [|p|c|p] eqn:Eo.
  1,3,4: unfold dev_place in Hpl; destruct (j =? 2); [done|]; injection Hpl as <- <-; rewrite Hr in Eq; injection Eq as <-;
    by apply leads_to_calls.
  destruct (iw_pages _ Hw _ _ Ed Er) as [(_ & _ & q' & p' & sp & P3 & P4 & P5)|(_ & _ & _ & q' & P3 & P4)].
  2: { destruct P4. exists p. fold j in P3. congruence. }
  fold j in P3. assert (q' = q) as -> by congruence. assert (p' = p) as -> by congruence. rewrite P5 in Hpl.
  unfold sub_place in Hpl. set (ad := desc_io_addr (Some d) a) in *.
  pose proof (Z.mod_pos_bound ad 4096 ltac:(lia)) as Hmb.
  assert (Hidx : 0 ≤ SUBPAGE_IDX ad) by (unfold SUBPAGE_IDX; rewrite page_offset; lia).
  change (offset_of ad) with (SUBPAGE_IDX ad) in Hpl.
  destruct (sub_io_index sp !! _) as [i'|] eqn:Ei; [|done]. destruct (sub_region_offset sp !! _) as [off|] eqn:Eoff; [|done].
  unfold dev_place in Hpl. destruct (i' =? 2); [done|]. injection Hpl as -> <-.
  assert (Hfn : q = mkRow (three (Some FnSubpage)) (three (Some FnSubpage)) (OpSubpage p)).
  { apply (iw_sub_fn _ Hw _ _ _ Eq Eo). }
  assert (Ht : subpage_target (row_opaque q) ad s = Ok (i, wrap phys_width (ad + off)) s).
  { rewrite Eo. cbn [subpage_target]. rewrite bind_gets, P5, bind_nonnull.
    rewrite (bind_Ok _ _ _ _ _ (at_idx_ok _ _ _ _ Hidx Eoff)). by rewrite (bind_Ok _ _ _ _ _ (at_idx_ok _ _ _ _ Hidx Ei)). }
  assert (Hrow' : table_row i s = Ok r s).
  { unfold table_row. rewrite bind_gets. apply at_idx_ok; [|done].
    destruct (iw_subs _ Hw _ _ P5) as (_ & _ & Hf). by apply (Forall_lookup_1 _ _ _ _ Hf Ei). }
  split.
  - remember (S (S n)) as n' eqn:En. cbn [row_read_call]; unfold subpage_readlen. rewrite Hfn at 1. cbn [row_read].
    rewrite (bind_Ok _ _ _ _ _ (three_at _ _ _ Hk)), bind_nonnull. rewrite bind_assoc, (bind_Ok _ _ _ _ _ Ht).
    rewrite bind_assoc, (bind_Ok _ _ _ _ _ Hrow'). subst n'. unfold mbind at 1, M_bind at 1.
    rewrite (proj1 (leads_to_calls n s r id op swap k _ 0 Hk Hl)). unfold dev_read_as, mbind, M_bind, mret, M_ret.
    destruct (dev_read _ _ _ _ s); [|done]. by rewrite wrap_wrap by lia.
  - remember (S (S n)) as n' eqn:En. cbn [row_write_call]; unfold subpage_writelen. rewrite Hfn at 1. cbn [row_write].
    rewrite (bind_Ok _ _ _ _ _ (three_at _ _ _ Hk)), bind_nonnull. rewrite (bind_Ok _ _ _ _ _ Ht).
    rewrite (bind_Ok _ _ _ _ _ Hrow'). subst n'. apply (proj2 (leads_to_calls n s r id op swap k _ v Hk Hl)).
Qed.

(** ** A new device *)

Definition add_row (n : nat) (r : io_row) (cs : gmap Z SwapEndianContainer) (f : Z) (s : io_state) : io_state :=
  mkIO _ (l1_phys_map s) (<[n := r]> (io_rows s)) (<[n := true]> (io_mem_used s)) (subpages s) cs f.

Lemma add_row_plain n r cs f s k :
  io_mem_used s !! n = Some false → plain_row s k → plain_row (add_row n r cs f s) k.
Proof.
  intros Hi (Hk & Hu & q & Hq & Hn). assert (Z.to_nat k ≠ n) by congruence.
  split; [done|]. simpl. rewrite !list_lookup_insert_ne by done. eauto.
Qed.

Lemma add_row_wf s n r cs f :
  io_wf s → io_mem_used s !! n = Some false → ¬ is_subpage r → io_fresh s ≤ f →
  io_wf (add_row n r cs f s) ∧ plain_row (add_row n r cs f s) (Z.of_nat n) ∧
  ∀ a, place_at (add_row n r cs f s) a = place_at s a.
Proof.
  intros Hw Hn Hr Hf. pose proof (iw_rows _ Hw) as Hlr. pose proof (iw_used _ Hw) as Hlu.
  assert (Hnl : (n < Z.to_nat 512)%nat) by (rewrite <-Hlu; by eapply lookup_lt_Some).
  assert (Hold : ∀ j q p, io_rows (add_row n r cs f s) !! j = Some q → row_opaque q = OpSubpage p →
    j ≠ n ∧ io_rows s !! j = Some q).
  { intros j q p. simpl. destruct (decide (j = n)) as [->|Hj].
    - rewrite list_lookup_insert_eq by lia. intros [= <-] Hp. destruct Hr. by exists p.
    - by rewrite list_lookup_insert_ne. }
  split_and!.
  - split.
    + apply (iw_map _ Hw).
    + simpl. by rewrite length_insert.
    + simpl. by rewrite length_insert.
    + intros p Hp. pose proof (iw_fresh _ Hw p Hp). simpl. lia.
    + intros k Hk. apply add_row_plain; [done|]. by apply (iw_fixed _ Hw).
    + intros j q Hq [p Hp]. destruct (Hold j q p Hq Hp) as [Hj Hq']. simpl. rewrite list_lookup_insert_ne by done.
      apply (iw_sub_used _ Hw _ _ Hq'). by exists p.
    + intros j k q q' p Hq Hq' Hp Hp'. destruct (Hold j q p Hq Hp), (Hold k q' p Hq' Hp').
      by apply (iw_sub_inj _ Hw j k q q' p).
    + intros p sp Hp. destruct (iw_subs _ Hw p sp Hp) as (S1 & S2 & S3). split_and!; try done.
      eapply Forall_impl; [exact S3|]. intros k. by apply add_row_plain.
    + intros j q p Hq Hp. destruct (Hold j q p Hq Hp). by apply (iw_sub_fn _ Hw j).
    + intros j q p Hq Hp. destruct (Hold j q p Hq Hp). by apply (iw_live _ Hw j q).
    + intros j d Hd Hrd. pose proof (page_row_used s d Hw (iw_pages _ Hw j d Hd) Hrd) as Hu.
      destruct (iw_pages _ Hw j d Hd Hrd) as [(P1 & P2 & q & p & sp & P3 & P4 & P5)|(P1 & P2)]; [left|right].
      * split_and!; try done. exists q, p, sp. simpl. by rewrite list_lookup_insert_ne by congruence.
      * split; [done|]. by apply add_row_plain.
    + apply (iw_own _ Hw).
  - split; [unfold in_width; lia|]. rewrite Nat2Z.id. simpl. rewrite !list_lookup_insert_eq by lia. eauto.
  - intros a. unfold place_at. simpl. destruct (phys_page_find _ _) as [d|] eqn:Ed; [|done].
    apply desc_place_ext. intros Hrd b. pose proof (page_row_used s d Hw (iw_pages _ Hw _ d Ed) Hrd) as Hu.
    apply row_place_ext; [|done]. simpl. apply list_lookup_insert_ne. congruence.
Qed.

(** Whether a device of this endianness is wrapped. *)
Definition swaps (e : device_endian) : bool :=
  match e with
  | DEVICE_NATIVE_ENDIAN => false
  | DEVICE_BIG_ENDIAN => negb target_words_bigendian
  | DEVICE_LITTLE_ENDIAN => target_words_bigendian
  end.

Lemma register_io_ok s id op e n :
  io_wf s → list_find (λ b, b = false) (io_mem_used s) = Some (n, false) → (∀ p, op ≠ OpSubpage p) →
  ∃ s', cpu_register_io_memory (three (Some (FnDevice id))) (three (Some (FnDevice id))) op e s
      = Ok (Z.shiftl (Z.of_nat n) IO_MEM_SHIFT) s' ∧
    io_wf s' ∧ plain_row s' (Z.of_nat n) ∧
    (∃ r, io_rows s' !! n = Some r ∧ leads_to s' r id op (swaps e)) ∧
    l1_phys_map s' = l1_phys_map s ∧ io_mem_used s' = <[n := true]> (io_mem_used s) ∧
    (∀ a, place_at s' a = place_at s a).
Proof.
  intros Hw Hn Hop. pose proof Hn as Hn'. apply list_find_Some in Hn' as (Hu & _ & _).
  assert (Hnl : (n < Z.to_nat 512)%nat) by (rewrite <-(iw_used _ Hw); by eapply lookup_lt_Some).
  destruct (lookup_lt_is_Some_2 (io_rows s) n) as [q Hq]; [by rewrite (iw_rows _ Hw)|].
  unfold cpu_register_io_memory, cpu_register_io_memory_fixed, get_free_io_mem_idx. rewrite Z.leb_refl.
  rewrite bind_assoc, bind_gets, Hn. rewrite bind_assoc, bind_modify, bind_ret.
  rewrite (proj2 (Z.eqb_neq (Z.of_nat n) (-1))) by lia. unfold set_row at 1. rewrite bind_assoc, bind_gets.
  rewrite bind_assoc. erewrite bind_Ok; [|apply at_idx_ok; [lia|rewrite Nat2Z.id; exact Hq]].
  rewrite bind_modify, Nat2Z.id. change (mkRow _ _ op) with (dev_row id op).
  set (s1 := set_io_rows _ _).
  assert (Hplain : s1 = add_row n (dev_row id op) (containers s) (io_fresh s) s) by done.
  assert (Hswap : swapendian_init (Z.of_nat n) s1
    = Ok () (add_row n (mkRow (three (Some FnSwap)) (three (Some FnSwap)) (OpSwap (io_fresh s)))
        (<[io_fresh s := dev_row id op]> (containers s)) (io_fresh s + 1) s)).
  { unfold swapendian_init. rewrite bind_gets. erewrite bind_Ok.
    2: { apply at_idx_ok; [lia|]. rewrite Nat2Z.id. apply list_lookup_insert_eq. simpl. rewrite (iw_rows _ Hw). lia. }
    rewrite bind_gets, bind_modify. unfold set_row. rewrite bind_gets. erewrite bind_Ok.
    2: { apply at_idx_ok; [lia|]. rewrite Nat2Z.id. apply list_lookup_insert_eq. simpl. rewrite (iw_rows _ Hw). lia. }
    unfold modify. f_equal. unfold add_row, set_io_rows. simpl. rewrite Nat2Z.id, list_insert_insert_eq. done. }
  assert (Hlk : ∀ r, (<[n := r]> (io_rows s)) !! n = Some r) by (intros r; apply list_lookup_insert_eq; rewrite (iw_rows _ Hw); lia).
  assert (Hend : (match e with
     | DEVICE_BIG_ENDIAN => if target_words_bigendian then mret () else swapendian_init (Z.of_nat n)
     | DEVICE_LITTLE_ENDIAN => if target_words_bigendian then swapendian_init (Z.of_nat n) else mret ()
     | DEVICE_NATIVE_ENDIAN => mret ()
     end) s1 = Ok () (if swaps e then add_row n (mkRow (three (Some FnSwap)) (three (Some FnSwap)) (OpSwap (io_fresh s)))
        (<[io_fresh s := dev_row id op]> (containers s)) (io_fresh s + 1) s else s1)).
  { destruct e; simpl; [done|..]; destruct target_words_bigendian; done. }
  rewrite (bind_Ok _ _ _ _ _ Hend). eexists. split; [reflexivity|]. destruct (swaps e) eqn:Es.
  - destruct (add_row_wf s n (mkRow (three (Some FnSwap)) (three (Some FnSwap)) (OpSwap (io_fresh s)))
      (<[io_fresh s := dev_row id op]> (containers s)) (io_fresh s + 1) Hw Hu) as (W1 & W2 & W3);
      [by intros [p ?]|lia|].
    split_and!; try done. eexists. split; [apply Hlk|]. exists (io_fresh s). split; [done|apply lookup_insert_eq].
  - rewrite Hplain. destruct (add_row_wf s n (dev_row id op) (containers s) (io_fresh s) Hw Hu) as (W1 & W2 & W3);
      [by intros [p E]; apply (Hop p)|lia|].
    split_and!; try done. eexists. split; [apply Hlk|done].
Qed.

(** ** RAM *)

Lemma ram_pd_page pd : pd mod 4096 = 0 → ram_pd pd = true ∧ next_offset pd = wrap 64 (pd + 4096).
Proof.
  intros Hp. unfold next_offset, ram_pd. change (Z.land pd (Z.lnot TARGET_PAGE_MASK)) with (offset_of pd).
  rewrite offset_mod, Hp. done.
Qed.

Lemma ram_desc_place s pd o a :
  pd mod 4096 = 0 → in_width 64 (pd + a mod 4096) →
  desc_place s (mkDesc pd o) a = PlRam 0 (pd + a mod 4096) (wrap phys_width (a mod 4096 + o)).
Proof.
  intros Hp Hw. unfold desc_place. cbn [phys_offset]. rewrite (proj1 (ram_pd_page pd Hp)), io_addr_eq, offset_mod, Hp.
  destruct (Z.eqb_spec pd IO_MEM_UNASSIGNED) as [->|_]; [done|]. unfold ram_addr_of, page_of.
  rewrite page_mask, offset_mod, Hp, Z.sub_0_r, wrap_small by done. done.
Qed.

Lemma register_loop_ram n : ∀ s start size k pd o,
  io_wf s → region_fits start size → start mod 4096 = 0 → size mod 4096 = 0 → start + size ≤ 4096 * space_pages →
  0 ≤ k → 4096 * (k + Z.of_nat n) = size → (0 < n)%nat →
  0 ≤ pd → pd mod 4096 = 0 → pd + size ≤ 2 ^ 64 →
  (∀ j, k ≤ j → 4096 * j < size → pd_at s (region_page start j) = IO_MEM_UNASSIGNED) →
  ∃ s', register_loop n start size (wrap phys_width (start + size)) (start + 4096 * k) (wrap 64 (pd + 4096 * k))
      (wrap 64 (4096 * (o / 4096) + 4096 * k)) s = Ok () s' ∧
    io_wf s' ∧
    (∀ a, in_space a → place_at s' a
      = if decide (region_from start size k a) then PlRam 0 (pd + (a - start)) (region_addr start o a) else place_at s a) ∧
    (∀ j, 0 ≤ j < space_pages → pd_at s' j
      = if decide (region_page start k ≤ j < start / 4096 + size / 4096) then pd + 4096 * (j - start / 4096) else pd_at s j).
Proof.
  induction n as [|n IH]; intros s start size k pd o Hw Hf Hs0 Hz0 Hsp Hk Hn Hnz Hpd0 Hpd Hpdw Hready; [lia|].
  cbn [register_loop]. pose proof Hf as (F0 & F1 & F2 & F3).
  pose proof (Z.div_mod start 4096 ltac:(lia)) as Hdm.
  assert (Hw1 : wrap 64 (pd + 4096 * k) = pd + 4096 * k) by (apply wrap_small; unfold in_width; lia).
  assert (Hp1 : (pd + 4096 * k) mod 4096 = 0) by (by rewrite (Z.mul_comm 4096), Z.mod_add by lia).
  destruct (ram_pd_page _ Hp1) as [Hr1 Hno1]. rewrite Hw1.
  set (ro := wrap 64 (4096 * (o / 4096) + 4096 * k)).
  rewrite (bind_Ok _ _ _ _ _ (unassigned_run s start size k (pd + 4096 * k) ro Hw Hf Hk ltac:(lia)
    (Hready k ltac:(lia) ltac:(lia)) (or_introl Hr1))).
  rewrite Hno1. change TARGET_PAGE_SIZE with 4096.
  destruct (unassigned_wf s (region_page start k) (pd + 4096 * k) ro Hw) as (W1 & _ & _ & W4 & W5 & W6);
    [by intros Hr; simpl in Hr; rewrite Hr1 in Hr|by rewrite Hr1|].
  set (s1 := with_desc _ _ _) in *.
  assert (Hpg : ∀ j, 0 ≤ j → 4096 * j < size → 0 ≤ region_page start j < space_pages).
  { intros j Hj Hjl. rewrite region_page_eq. pose proof (Z.div_pos start 4096). lia. }
  assert (Hstep : ∀ a, in_space a → place_at s1 a
    = if decide (a / 4096 = region_page start k) then PlRam 0 (pd + (a - start)) (region_addr start o a) else place_at s a).
  { intros a Ha. assert (Hap : 0 ≤ a / 4096 < space_pages).
    { unfold in_space in Ha. split; [apply Z.div_pos; lia|apply Z.div_lt_upper_bound; lia]. }
    pose proof (Z.div_mod a 4096 ltac:(lia)). pose proof (Z.mod_pos_bound a 4096 ltac:(lia)).
    destruct (decide (a / 4096 = region_page start k)) as [E|E].
    - rewrite W4 by (apply same_page_eq; auto with lia). pose proof E as E'. rewrite region_page_eq in E'.
      rewrite ram_desc_place; [|done|unfold in_width; lia]. unfold ro. rewrite (region_addr_page start) by done. f_equal. lia.
    - apply W5. rewrite same_page_eq by auto with lia. auto. }
  assert (Hin : ∀ a, a / 4096 = region_page start k → start ≤ a < start + size).
  { intros a E. rewrite region_page_eq in E. pose proof (Z.div_mod a 4096 ltac:(lia)).
    pose proof (Z.mod_pos_bound a 4096 ltac:(lia)). lia. }
  assert (Hpds : ∀ j, 0 ≤ j < space_pages → pd_at s1 j = if decide (j = region_page start k) then pd + 4096 * k else pd_at s j).
  { intros j Hj. destruct (decide (j = region_page start k)) as [->|Hne].
    - unfold s1. destruct (with_page_wf s (region_page start k) Hw) as (Hw' & _ & Hs' & _).
      rewrite store_find by done. by destruct (same_page_dec _ _).
    - apply W6. rewrite same_page_eq by auto with lia. auto. }
  pose proof (Z.div_mod size 4096 ltac:(lia)) as Hdz. pose proof (region_page_eq start k) as Hrk.
  destruct n as [|n].
  - replace (start + 4096 * k + 4096) with (start + size) by lia. rewrite Z.eqb_refl.
    exists s1. split; [done|]. split; [done|]. split.
    2: { intros j Hj. rewrite Hpds by done.
         repeat (match goal with |- context [decide ?P] => destruct (decide P) end); try done; lia. }
    intros a Ha. rewrite Hstep by done.
    assert (Hiff : region_from start size k a ↔ a / 4096 = region_page start k).
    { unfold region_from. split; [|intros E; split; [by apply Hin|lia]]. intros [Hr Hge]. rewrite region_page_eq in *.
      assert (a / 4096 < start / 4096 + k + 1) by (apply Z.div_lt_upper_bound; lia). lia. }
    destruct (decide (region_from _ _ _ _)) as [D|D]; [by rewrite decide_True by tauto|by rewrite decide_False by tauto].
  - rewrite !(wrap_small phys_width) by (unfold in_width; lia). rewrite (proj2 (Z.eqb_neq _ _)) by lia.
    destruct (IH s1 start size (k + 1) pd o) as (s' & E & R1 & R3 & R4); try done; try lia.
    { intros j Hj Hjl. rewrite W6; [apply Hready; lia|]. rewrite same_page_eq by auto with lia. rewrite !region_page_eq. lia. }
    exists s'. rewrite (wrap_small phys_width) in E by (unfold in_width; lia).
    unfold ro. rewrite (wrap_add_l 64 (4096 * (o / 4096) + 4096 * k)).
    replace (start + 4096 * (k + 1)) with (start + 4096 * k + 4096) in E by lia.
    replace (pd + 4096 * (k + 1)) with (pd + 4096 * k + 4096) in E by lia.
    replace (4096 * (o / 4096) + 4096 * (k + 1)) with (4096 * (o / 4096) + 4096 * k + 4096) in E by lia.
    split; [exact E|]. split; [done|]. pose proof (region_page_eq start (k + 1)). split.
    2: { intros j Hj. rewrite R4, Hpds by done.
         repeat (match goal with |- context [decide ?P] => destruct (decide P) end); try done; lia. }
    intros a Ha. rewrite R3, Hstep by done. pose proof (Hin a). unfold region_from.
    repeat (match goal with |- context [decide ?P] => destruct (decide P) end); try done; lia.
Qed.

Lemma ram_trans_pd s a :
  ram_trans (l1_phys_map s) a
  = if decide (pd_at s (a / 4096) mod 4096 = 0) then Some (pd_at s (a / 4096) + a mod 4096) else None.
Proof. unfold ram_trans, pd_at. by destruct (phys_page_find _ _). Qed.

(** ** The tables at the start *)

Lemma tables_wf s :
  l1_phys_map s = ∅ → subpages s = ∅ → length (io_rows s) = Z.to_nat 512 → length (io_mem_used s) = Z.to_nat 512 →
  Forall (λ r, row_opaque r = OpNull) (io_rows s) →
  (∀ i, 0 ≤ i < 5 → io_mem_used s !! Z.to_nat i = Some true) → io_wf s.
Proof.
  intros E1 E2 E3 E4 Hr Hu.
  assert (Hn : ∀ i r, io_rows s !! i = Some r → ¬ is_subpage r).
  { intros i r Hi [p Hp]. pose proof (Forall_lookup_1 _ _ _ _ Hr Hi). congruence. }
  assert (Hf : ∀ j, phys_page_find (l1_phys_map s) j = None) by (intros j; rewrite E1; unfold phys_page_find, tree_find; by rewrite lookup_empty).
  split; try done.
  - rewrite E1. apply map_Forall_empty.
  - intros p [sp Hp]. rewrite E2 in Hp. by rewrite lookup_empty in Hp.
  - intros i Hi. split; [unfold in_width; lia|]. split; [by apply Hu|].
    destruct (lookup_lt_is_Some_2 (io_rows s) (Z.to_nat i)) as [r Hir]; [lia|]. eauto.
  - intros i r Hi Hs. by destruct (Hn i r Hi).
  - intros i j r q p Hi _ Hp. destruct (Hn i r Hi). by exists p.
  - intros p sp Hp. by rewrite E2, lookup_empty in Hp.
  - intros i r p Hi Hp. destruct (Hn i r Hi). by exists p.
  - intros i r p Hi Hp. destruct (Hn i r Hi). by exists p.
  - intros j d Hd. by rewrite Hf in Hd.
  - intros j k d e Hd. by rewrite Hf in Hd.
Qed.

Lemma io_mem_init_wf watch :
  ∃ s, io_mem_init watch io_start = Ok 40 s ∧ io_wf s ∧ plain_row s 5 ∧ l1_phys_map s = ∅ ∧
    io_mem_used s = replicate 6 true ++ replicate (Z.to_nat 506) false.
Proof.
  eexists. split; [vm_compute; reflexivity|].
  assert (Hp : ∀ s, io_wf s → (∃ r, io_rows s !! 5%nat = Some r ∧ row_opaque r = OpNull) →
    io_mem_used s !! 5%nat = Some true → plain_row s 5).
  { intros s _ (r & Hr & Ho) Hu. split; [unfold in_width; lia|]. split; [done|]. exists r. split; [done|]. intros [p ?]. congruence. }
  assert (Hw : ∀ s, l1_phys_map s = ∅ → subpages s = ∅ → length (io_rows s) = Z.to_nat 512 →
    io_mem_used s = replicate 6 true ++ replicate (Z.to_nat 506) false →
    Forall (λ r, row_opaque r = OpNull) (io_rows s) → io_wf s).
  { intros s E1 E2 E3 E4 Hr. apply tables_wf; try done; rewrite E4; [by vm_compute|].
    intros i Hi. assert (Hc : i = 0 ∨ i = 1 ∨ i = 2 ∨ i = 3 ∨ i = 4) by lia.
    by destruct Hc as [->|[->|[->|[->| ->]]]]. }
  match goal with |- io_wf ?x ∧ _ => set (s := x) end.
  assert (Hs : io_wf s).
  { apply Hw; [done..|]. apply (bool_decide_unpack _). vm_compute. exact I. }
  split_and!; [done| |done|done]. apply Hp; [done| |done]. eexists. by split.
Qed.

(** ** Theorems *)

Lemma record_region r l f start size pd :
  recording r l f →
  ∃ r1, rr_reg_mem_call_record start size pd r = Ok () r1 ∧ logs r r1 [site_item r (LRegion start size pd)].
Proof.
  intros Hrec. unfold rr_reg_mem_call_record, rr_record_cpu_reg_io_mem_region. rewrite bind_gets.
  set (v := VCall _). set (cs := rr_skipped_callsite_location r).
  rewrite (record_item_ok r l f cs v Hrec I). eexists. split; [reflexivity|].
  destruct (recorded_recording r l f cs v Hrec) as (l1 & f1 & Hr1 & _ & _ & En & _ & Ed).
  split; try done. exists l, f, l1, f1. split_and!; try done. rewrite Ed. simpl. by rewrite app_nil_r.
Qed.

(** Registration around the page table: the call is logged, the TLB flushed. *)
Lemma register_log_ok s start size pd o log_dirty io :
  rr_calm (mm_rr s) → size ≠ 0 → register_region start size pd o (mm_io s) = Ok () io →
  ∃ s', cpu_register_physical_memory_log start size pd o log_dirty s = Ok () s' ∧
    mm_io s' = io ∧ mm_ram s' = mm_ram s ∧
    rr_wrote (mm_rr s) (mm_rr s') [site_item (mm_rr s) (LRegion start size pd)] ∧
    mm_trace s' = mm_trace s ++ [EvSetMemory start size pd log_dirty; EvTlbFlush].
Proof.
  intros Hc Hz E2. unfold cpu_register_physical_memory_log. rewrite !bind_gets.
  assert (Hrec : ∃ r1, (if rr_in_record (mm_rr s) && rr_record_in_progress (mm_rr s)
      then in_rr (rr_reg_mem_call_record start size pd) else mret ()) s = Ok () (set_mm_rr r1 s) ∧
      rr_wrote (mm_rr s) r1 [site_item (mm_rr s) (LRegion start size pd)]).
  { unfold rr_wrote. fold (logging (mm_rr s)). destruct (logging (mm_rr s)) eqn:El.
    - destruct (calm_recording _ Hc El) as (l & f & Hrec). destruct (record_region _ l f start size pd Hrec) as (r1 & E & Hl).
      exists r1. split; [|done]. unfold in_rr. by rewrite E.
    - exists (mm_rr s). split; [|done]. by destruct s. }
  destruct Hrec as (r1 & E1 & Hwr). rewrite (bind_Ok _ _ _ _ _ E1).
  rewrite (proj2 (Z.eqb_neq size 0)) by done.
  rewrite (bind_Ok _ _ _ _ _ (assert_true Abort true _ eq_refl)). erewrite bind_Ok; [|reflexivity].
  unfold in_io. unfold mbind at 1, M_bind at 1. cbn [mm_io set_mm_trace set_mm_rr]. rewrite E2.
  eexists. split; [reflexivity|]. split_and!; try done. simpl. by rewrite <-app_assoc.
Qed.

(** C7. Registration of a device region is the update of the flat address space: every
    address of the region answers with the device, at its offset from the first page
    of the region plus [region_offset] rounded down to a page, and every other
    address answers as before. The tables stay well formed; a recording logs the
    call, the TLB is flushed. The region begins on a page boundary or lies inside a
    page ([region_fits]); the pages it covers wholly are unassigned, those it covers
    in part are not RAM ([page_ready]); a row of the table is free. Outside of these
    conditions the code does something else: [crossing_region_lost] and
    [reassigned_page_offset]. *)
Theorem register_device_refines s start size pd i o log_dirty :
  io_wf (mm_io s) → rr_calm (mm_rr s) → in_width 64 o →
  region_fits start size → start + size ≤ 4096 * space_pages →
  device_pd pd i → plain_row (mm_io s) i → has_free (mm_io s) →
  (∀ k, 0 ≤ k → 4096 * k < size → page_ready (mm_io s) start size k) →
  ∃ s', cpu_register_physical_memory_log start size pd o log_dirty s = Ok () s' ∧
    io_wf (mm_io s') ∧ mm_ram s' = mm_ram s ∧
    (∀ a, in_space a → place_at (mm_io s') a
       = if (start <=? a) && (a <? start + size) then PlDev i (region_addr start o a) else place_at (mm_io s) a) ∧
    rr_wrote (mm_rr s) (mm_rr s') [site_item (mm_rr s) (LRegion start size pd)] ∧
    mm_trace s' = mm_trace s ++ [EvSetMemory start size pd log_dirty; EvTlbFlush].
Proof.
  intros Hw Hc Ho Hf Hsp Hd Hi Hfree Hready. pose proof Hf as (_ & Hz & _).
  destruct (register_region_ok (mm_io s) start size pd i o Hw Ho Hf Hsp Hd Hi Hfree Hready) as (io & E & R1 & _ & R3).
  destruct (register_log_ok s start size pd o log_dirty io Hc ltac:(lia) E) as (s' & E' & <- & L).
  exists s'. destruct L as (L1 & L2 & L3). by split_and!.
Qed.

(** Pages of RAM that lose their owner. *)
Lemma gone_page s start size k ro :
  io_wf s → region_fits start size → start mod 4096 = 0 → size mod 4096 = 0 → 0 ≤ k → 4096 * k < size →
  pd_at s (region_page start k) mod 4096 = 0 →
  ∃ s', register_page start size (start + 4096 * k) IO_MEM_UNASSIGNED ro s = Ok IO_MEM_UNASSIGNED s' ∧ io_wf s' ∧
    ∀ j, pd_at s' j = if same_page_dec (region_page start k) j then IO_MEM_UNASSIGNED else pd_at s j.
Proof.
  intros Hw Hf Hs0 Hz0 Hk Hlt Hpd. destruct (check_subpage_spec start size k Hf Hk Hlt) as (HC & _ & _).
  fold (region_page start k) in HC. pose proof (Z.div_mod start 4096 ltac:(lia)). pose proof (Z.div_mod size 4096 ltac:(lia)).
  pose proof (region_page_eq start k) as Hp.
  replace (Z.max _ _ - _) with 0 in HC by lia. replace (Z.min _ _ - 1 - _) with 4095 in HC by lia.
  destruct (phys_page_find (l1_phys_map s) (region_page start k)) as [d|] eqn:Ed; unfold pd_at in Hpd; rewrite Ed in Hpd; [|done].
  simpl in Hpd. set (d' := mkDesc IO_MEM_UNASSIGNED (region_offset d)). exists (with_desc (region_page start k) d' s).
  destruct (with_desc_wf s (region_page start k) d' Hw) as (V1 & _ & _); [by rewrite Ed| |by intros _ []|].
  { intros _. right. split; [by intros []|]. apply (iw_fixed _ Hw). done. }
  split_and!; [|done|].
  - unfold register_page. rewrite bind_gets, find_shift. fold (region_page start k). rewrite Ed.
    destruct (Z.eqb_spec (phys_offset d) IO_MEM_UNASSIGNED) as [E|_]; [by rewrite E in Hpd|].
    cbn [negb]. unfold register_assigned. rewrite HC, shift_page. fold (region_page start k).
    cbn [negb andb Z.eqb Pos.eqb]. unfold store_desc. by rewrite bind_modify.
  - intros j. by rewrite store_find by (done || by rewrite Ed).
Qed.

Lemma register_loop_gone n : ∀ s start size k ro,
  io_wf s → region_fits start size → start mod 4096 = 0 → size mod 4096 = 0 → start + size ≤ 4096 * space_pages →
  0 ≤ k → 4096 * (k + Z.of_nat n) = size → (0 < n)%nat →
  (∀ j, k ≤ j → 4096 * j < size → pd_at s (region_page start j) mod 4096 = 0) →
  ∃ s', register_loop n start size (wrap phys_width (start + size)) (start + 4096 * k) IO_MEM_UNASSIGNED ro s = Ok () s' ∧
    io_wf s' ∧
    (∀ j, 0 ≤ j < space_pages → pd_at s' j
      = if decide (region_page start k ≤ j < start / 4096 + size / 4096) then IO_MEM_UNASSIGNED else pd_at s j).
Proof.
  induction n as [|n IH]; intros s start size k ro Hw Hf Hs0 Hz0 Hsp Hk Hn Hnz Hram; [lia|].
  cbn [register_loop]. pose proof Hf as (F0 & F1 & F2 & F3). pose proof (Z.div_mod start 4096 ltac:(lia)) as Hdm.
  pose proof (Z.div_mod size 4096 ltac:(lia)) as Hdz. pose proof (region_page_eq start) as Hrk.
  destruct (gone_page s start size k ro Hw Hf Hs0 Hz0 Hk ltac:(lia)) as (s1 & E1 & W1 & Hpd1); [apply Hram; lia|].
  rewrite (bind_Ok _ _ _ _ _ E1). change TARGET_PAGE_SIZE with 4096.
  assert (Hpg : ∀ j, 0 ≤ j → 4096 * j < size → 0 ≤ region_page start j < space_pages).
  { intros j Hj Hjl. rewrite region_page_eq. pose proof (Z.div_pos start 4096). lia. }
  assert (Hpds : ∀ j, 0 ≤ j < space_pages →
    pd_at s1 j = if decide (j = region_page start k) then IO_MEM_UNASSIGNED else pd_at s j).
  { intros j Hj. rewrite Hpd1. destruct (same_page_dec _ _) as [D|D]; rewrite same_page_eq in D by auto with lia;
      case_decide; done || lia. }
  rewrite !(wrap_small phys_width) by (unfold in_width; lia).
  destruct n as [|n].
  - replace (start + 4096 * k + 4096) with (start + size) by lia. rewrite Z.eqb_refl.
    exists s1. split_and!; [done..|]. intros j Hj. rewrite Hpds by done. pose proof (Hrk k). repeat case_decide; done || lia.
  - rewrite (proj2 (Z.eqb_neq _ _)) by lia.
    destruct (IH s1 start size (k + 1) (wrap 64 (ro + 4096))) as (s' & E & R1 & R4); try done; try lia.
    { intros j Hj Hjl. rewrite Hpds by auto with lia. rewrite decide_False by (rewrite !Hrk; lia). apply Hram; lia. }
    exists s'. rewrite (wrap_small phys_width) in E by (unfold in_width; lia).
    replace (start + 4096 * (k + 1)) with (start + 4096 * k + 4096) in E by lia.
    split_and!; [exact E|done|]. intros j Hj. rewrite R4, Hpds by done. pose proof (Hrk k). pose proof (Hrk (k + 1)).
    repeat case_decide; done || lia.
Qed.

(** The number of turns for whole pages. *)
Lemma whole_turns start size :
  region_fits start size → size mod 4096 = 0 →
  4096 * (wrap 64 (size + 4096 - 1) / 4096) = size ∧ register_turns size = size / 4096.
Proof.
  intros (F0 & F1 & F2 & F3) Hz0. pose proof (Z.div_mod size 4096 ltac:(lia)) as Hdz.
  assert (Hw64 : 2 ^ phys_width ≤ 2 ^ 64) by (destruct phys_width_cases as [->| ->]; lia).
  rewrite (wrap_small 64) by (unfold in_width; lia).
  replace ((size + 4096 - 1) / 4096) with (size / 4096) by (apply (Z.div_unique _ _ _ 4095); lia). split; [lia|].
  unfold register_turns. change TARGET_PAGE_SIZE with 4096. rewrite (wrap_small phys_width) by (unfold in_width; lia).
  by rewrite (proj2 (Z.eqb_neq _ 0)) by lia.
Qed.

Lemma register_gone_ok s start size o :
  io_wf s → region_fits start size → start mod 4096 = 0 → size mod 4096 = 0 → start + size ≤ 4096 * space_pages →
  (∀ k, 0 ≤ k → 4096 * k < size → pd_at s (region_page start k) mod 4096 = 0) →
  ∃ s', register_region start size IO_MEM_UNASSIGNED o s = Ok () s' ∧ io_wf s' ∧
    (∀ j, 0 ≤ j < space_pages → pd_at s' j
      = if decide (start / 4096 ≤ j < start / 4096 + size / 4096) then IO_MEM_UNASSIGNED else pd_at s j).
Proof.
  intros Hw Hf Hs0 Hz0 Hsp Hram. destruct (whole_turns start size Hf Hz0) as [Hsize Ht]. pose proof Hf as (F0 & F1 & _).
  pose proof (Z.div_mod size 4096 ltac:(lia)) as Hdz.
  unfold register_region. rewrite !mask_page. change TARGET_PAGE_SIZE with 4096. rewrite Hsize, Ht.
  destruct (register_loop_gone (Z.to_nat (size / 4096)) s start size 0 (4096 * (start / 4096))) as (s' & E & R1 & R4);
    try done; try lia.
  rewrite Z.mul_0_r, Z.add_0_r in E. exists s'. split_and!; [exact E|done|]. intros j Hj.
  by rewrite R4, region_page_eq, Z.add_0_r by done.
Qed.

Lemma register_ram_ok s start size pd o :
  io_wf s → in_width 64 o → region_fits start size → start mod 4096 = 0 → size mod 4096 = 0 →
  start + size ≤ 4096 * space_pages → 0 ≤ pd → pd mod 4096 = 0 → pd + size ≤ 2 ^ 64 →
  (∀ k, 0 ≤ k → 4096 * k < size → pd_at s (region_page start k) = IO_MEM_UNASSIGNED) →
  ∃ s', register_region start size pd o s = Ok () s' ∧ io_wf s' ∧
    (∀ a, in_space a → place_at s' a
      = if decide (region_from start size 0 a) then PlRam 0 (pd + (a - start)) (region_addr start o a) else place_at s a) ∧
    (∀ j, 0 ≤ j < space_pages → pd_at s' j
      = if decide (start / 4096 ≤ j < start / 4096 + size / 4096) then pd + 4096 * (j - start / 4096) else pd_at s j).
Proof.
  intros Hw Ho Hf Hs0 Hz0 Hsp Hpd0 Hpd Hpdw Hready. pose proof Hf as (F0 & F1 & F2 & F3). unfold register_region.
  destruct (Z.eqb_spec pd IO_MEM_UNASSIGNED) as [->|_]; [done|]. rewrite !mask_page. change TARGET_PAGE_SIZE with 4096.
  destruct (whole_turns start size Hf Hz0) as [-> Ht].
  pose proof (Z.div_mod size 4096 ltac:(lia)) as Hdz. pose proof (Z.div_mod start 4096 ltac:(lia)) as Hds.
  rewrite Ht. destruct (register_loop_ram (Z.to_nat (size / 4096)) s start size 0 pd o) as (s' & E & R1 & R3 & R4);
    try done; try lia.
  rewrite Z.mul_0_r, !Z.add_0_r in E. rewrite (wrap_small 64 pd) in E by (unfold in_width; lia).
  rewrite (wrap_small 64) in E.
  2: { unfold in_width in *. pose proof (Z.div_mod o 4096 ltac:(lia)). pose proof (Z.mod_pos_bound o 4096 ltac:(lia)). lia. }
  exists s'. split_and!; [exact E|done|done|]. intros j Hj. rewrite R4, region_page_eq, Z.add_0_r by done. done.
Qed.

(** Registration of RAM: every address of the region is the RAM that follows
    [pd], page by page; the other addresses stay. *)
Theorem register_ram_refines s start size pd o :
  io_wf s → in_width 64 o → region_fits start size → start mod 4096 = 0 → size mod 4096 = 0 →
  start + size ≤ 4096 * space_pages → 0 ≤ pd → pd mod 4096 = 0 → pd + size ≤ 2 ^ 64 →
  (∀ k, 0 ≤ k → 4096 * k < size → pd_at s (region_page start k) = IO_MEM_UNASSIGNED) →
  ∃ s', register_region start size pd o s = Ok () s' ∧ io_wf s' ∧
    ∀ a, in_space a →
      let inside := (start <=? a) && (a <? start + size) in
      place_at s' a = (if inside then PlRam 0 (pd + (a - start)) (region_addr start o a) else place_at s a) ∧
      ram_trans (l1_phys_map s') a = (if inside then Some (pd + (a - start)) else ram_trans (l1_phys_map s) a).
Proof.
  intros Hw Ho Hf Hs0 Hz0 Hsp Hpd0 Hpd Hpdw Hready.
  pose proof (Z.div_mod size 4096 ltac:(lia)) as Hdz. pose proof (Z.div_mod start 4096 ltac:(lia)) as Hds.
  destruct (register_ram_ok s start size pd o) as (s' & E & R1 & R3 & R4); try done.
  exists s'. split; [exact E|]. split; [done|]. intros a Ha. cbv zeta.
  pose proof (Z.div_mod a 4096 ltac:(lia)) as Hda. pose proof (Z.mod_pos_bound a 4096 ltac:(lia)) as Hma.
  assert (Hap : 0 ≤ a / 4096 < space_pages).
  { unfold in_space in Ha. split; [apply Z.div_pos; lia|apply Z.div_lt_upper_bound; lia]. }
  pose proof (region_page_eq start 0) as Hr0. rewrite Z.add_0_r in Hr0. split.
  - rewrite R3 by done. unfold region_from.
    destruct (Z.leb_spec start a), (Z.ltb_spec a (start + size)); simpl; case_decide; try done; lia.
  - rewrite !ram_trans_pd, R4 by done.
    destruct (Z.leb_spec start a), (Z.ltb_spec a (start + size)); simpl; repeat case_decide; try done; try lia.
    + f_equal. lia.
    + exfalso. revert select (¬ _ mod 4096 = 0). intros Hn. apply Hn. rewrite (Z.mul_comm 4096), Z.mod_add by lia. done.
Qed.

(** A page that was assigned before keeps its old region offset: the new device
    is called with addresses of the old region. *)
Theorem reassigned_page_offset s start pd i o d :
  io_wf s → in_space start → start mod 4096 = 0 → start + 8191 < 2 ^ phys_width →
  device_pd pd i → plain_row s i →
  phys_page_find (l1_phys_map s) (start / 4096) = Some d → phys_offset d ≠ IO_MEM_UNASSIGNED →
  ∃ s', register_region start 4096 pd o s = Ok () s' ∧ io_wf s' ∧
    ∀ a, start ≤ a < start + 4096 → place_at s' a = PlDev i (wrap phys_width (a - start + region_offset d)).
Proof.
  intros Hw Hsp Hs0 Hwid Hd Hi Hfind Hne. destruct (device_pd_facts pd i Hd) as (D1 & D2 & D3 & D4 & D5 & D6).
  pose proof (Z.div_mod start 4096 ltac:(lia)) as Hdm. unfold in_space in Hsp.
  assert (Hf : region_fits start 4096) by (unfold region_fits; lia).
  destruct (check_subpage_spec start 4096 0 Hf ltac:(lia) ltac:(lia)) as (HC & _ & _).
  rewrite Z.mul_0_r, Z.add_0_r in HC.
  replace (Z.max start (4096 * (start / 4096)) - 4096 * (start / 4096)) with 0 in HC by lia.
  replace (Z.min (start + 4096) (4096 * (start / 4096) + 4096) - 1 - 4096 * (start / 4096)) with 4095 in HC by lia.
  unfold register_region. rewrite (proj2 (Z.eqb_neq pd IO_MEM_UNASSIGNED)) by done.
  change (Z.land (wrap 64 (4096 + TARGET_PAGE_SIZE - 1)) TARGET_PAGE_MASK) with 4096.
  assert (Ht : register_turns 4096 = 1).
  { unfold register_turns. rewrite (wrap_small phys_width); [done|].
    unfold in_width. destruct phys_width_cases as [->| ->]; lia. }
  rewrite Ht. change (Z.to_nat 1) with 1%nat. cbn [register_loop]. change TARGET_PAGE_SIZE with 4096.
  assert (Hrun : register_page start 4096 start pd (Z.land o TARGET_PAGE_MASK) s
    = Ok pd (with_desc (start / 4096) (mkDesc pd (region_offset d)) s)).
  { unfold register_page. rewrite bind_gets, find_shift, Hfind. rewrite (proj2 (Z.eqb_neq _ _)) by done.
    unfold register_assigned. rewrite HC, shift_page. cbn [negb andb Z.eqb Pos.eqb]. unfold store_desc.
    by rewrite bind_modify, D5. }
  rewrite (bind_Ok _ _ _ _ _ Hrun), Z.eqb_refl.
  destruct (with_desc_wf s (start / 4096) (mkDesc pd (region_offset d)) Hw) as (V1 & V2 & _);
    [by rewrite Hfind|by apply (device_page_ok s pd i)|by intros _ Hs; destruct (D2 Hs)|].
  eexists. split; [reflexivity|]. split; [done|]. intros a Ha.
  assert (E : a / 4096 = start / 4096) by (symmetry; apply (Z.div_unique _ _ _ (a - start)); lia).
  rewrite V2 by (by rewrite E). unfold desc_place. cbn [phys_offset]. rewrite D1, (proj2 (Z.eqb_neq _ _)), D3 by done.
  rewrite (plain_place s) by done. rewrite io_addr_eq, dev_place_ne by apply Hd. f_equal. f_equal.
  pose proof (Z.div_mod a 4096 ltac:(lia)). lia.
Qed.

(** C18. A device that is added to the table and mapped is what the accesses to its
    region reach, also where the region shares a page with others: the device
    function is called with the offset of the access from the first page of the
    region, plus [region_offset] rounded down to a page, and values are swapped
    exactly when the device's byte order is not the target's; all other addresses
    answer as before. The region begins on a page boundary or lies inside a page,
    covers no page that is assigned already and no part of a RAM page, and two rows
    of the table are free, the conditions of a registration. *)
Theorem mmio_end_to_end s id op e start size o n m :
  io_wf s → (∀ p, op ≠ OpSubpage p) → in_width 64 o →
  region_fits start size → start + size ≤ 4096 * space_pages →
  n ≠ m → io_mem_used s !! n = Some false → io_mem_used s !! m = Some false →
  (∀ k, 0 ≤ k → 4096 * k < size → page_ready s start size k) →
  ∃ s', (pd ← cpu_register_io_memory (three (Some (FnDevice id))) (three (Some (FnDevice id))) op e;
         register_region start size pd o) s = Ok () s' ∧ io_wf s' ∧
    (∀ a, in_space a → ¬ (start ≤ a < start + size) → place_at s' a = place_at s a) ∧
    ∀ t a k v, mm_io t = s' → start ≤ a < start + size → 0 ≤ k < 3 →
      ∃ d, phys_page_find (mm_map t) (a / 4096) = Some d ∧ ram_pd (phys_offset d) = false ∧
        io_mem_read (desc_io_index (phys_offset d)) k (desc_io_addr (Some d) a) t
        = dev_read_as (swaps e) id k op (region_addr start o a) t ∧
        io_mem_write (desc_io_index (phys_offset d)) k (desc_io_addr (Some d) a) v t
        = dev_write_as (swaps e) id k op (region_addr start o a) v t.
Proof.
  intros Hw Hop Ho Hf Hsp Hnm Hn Hm Hready.
  destruct (free_found s Hw ltac:(by exists n)) as (i & Hi & Hui & Hi5).
  destruct (register_io_ok s id op e i Hw Hi Hop) as (s1 & E1 & W1 & P1 & (r & Hr & Hl) & M1 & U1 & L1).
  rewrite (bind_Ok _ _ _ _ _ E1).
  assert (Hfree : has_free s1).
  { unfold has_free. rewrite U1. destruct (decide (i = n)) as [->|].
    - exists m. by rewrite list_lookup_insert_ne.
    - exists n. by rewrite list_lookup_insert_ne. }
  destruct (register_region_ok s1 start size (Z.shiftl (Z.of_nat i) IO_MEM_SHIFT) (Z.of_nat i) o)
    as (s' & E2 & W2 & [C2 R2] & L2); try done.
  { unfold page_ready, pd_at. by rewrite M1. }
  exists s'. split; [exact E2|]. split; [done|]. split.
  { intros a Ha Hna. rewrite L2, L1 by done.
    destruct (Z.leb_spec start a), (Z.ltb_spec a (start + size)); simpl; done || lia. }
  intros t a k v <- Ha Hk. destruct (R2 _ P1) as [_ Hrow]. rewrite Nat2Z.id in Hrow.
  apply (place_reached t a (Z.of_nat i) _ r); [done| |by rewrite Nat2Z.id, Hrow| |done].
  - rewrite L2 by (unfold in_space; destruct Hf; lia).
    by rewrite (proj2 (Z.leb_le _ _)), (proj2 (Z.ltb_lt _ _)) by lia.
  - unfold leads_to in *. destruct (swaps e); [|done]. destruct Hl as (c & -> & Hc). exists c. by rewrite C2.
Qed.

(** A small region across a page boundary is not registered at all: no address
    answers differently. *)
Theorem crossing_region_lost s start size pd i o :
  io_wf s → 0 ≤ start → 0 < size < 4096 → start + size + 4095 < 2 ^ phys_width →
  4096 < start mod 4096 + size → device_pd pd i → plain_row s i → has_free s →
  pd_at s (start / 4096) = IO_MEM_UNASSIGNED →
  ∃ s', register_region start size pd o s = Ok () s' ∧ io_wf s' ∧ ∀ a, place_at s' a = place_at s a.
Proof.
  intros Hw H0' Hsz Hwid Hx Hd Hi Hfree Hpd.
  destruct (device_pd_facts pd i Hd) as (D1 & D2 & D3 & D4 & D5 & D6).
  pose proof (Z.div_mod start 4096 ltac:(lia)) as Hdm. pose proof (Z.mod_pos_bound start 4096 ltac:(lia)) as Hmb.
  assert (Hw64 : 2 ^ phys_width ≤ 2 ^ 64) by (destruct phys_width_cases as [->| ->]; lia).
  set (hi := start mod 4096 + size - 4097).
  assert (Hhi : (start + size - 1) mod 4096 = hi) by (symmetry; apply (Z.mod_unique _ _ (start / 4096 + 1)); unfold hi; lia).
  assert (HC : CHECK_SUBPAGE start start size = (start mod 4096, hi, true)).
  { unfold CHECK_SUBPAGE. rewrite Z.ltb_irrefl, !page_offset. change TARGET_PAGE_SIZE with 4096.
    rewrite (wrap_small 64 (start + size)) by (unfold in_width; lia).
    rewrite (wrap_small 64 (start + size - start)) by (unfold in_width; lia).
    rewrite (wrap_small 64 (start + size - 1)) by (unfold in_width; lia).
    rewrite (proj2 (Z.leb_gt _ _)) by lia. rewrite Hhi. by rewrite (proj2 (Z.ltb_lt 0 (start mod 4096))) by lia. }
  unfold register_region. rewrite (proj2 (Z.eqb_neq pd IO_MEM_UNASSIGNED)) by done. rewrite !mask_page.
  change TARGET_PAGE_SIZE with 4096. rewrite (wrap_small 64 (size + 4096 - 1)) by (unfold in_width; lia).
  replace ((size + 4096 - 1) / 4096) with 1 by (apply (Z.div_unique _ _ _ (size - 1)); lia).
  assert (Ht : register_turns (4096 * 1) = 1).
  { unfold register_turns. rewrite (wrap_small phys_width); [done|].
    unfold in_width. destruct phys_width_cases as [->| ->]; lia. }
  rewrite Ht. change (Z.to_nat 1) with 1%nat. cbn [register_loop]. rewrite Z.mul_1_r.
  set (ro := 4096 * (o / 4096)).
  destruct (unassigned_split s start size start pd i ro _ _ Hw Hd Hi Hfree Hpd HC)
    as (n & base & s2 & E & W1 & W2 & Hu & Hn5 & Hj & Hun & Hoth & Hpds); [lia|unfold hi; lia|].
  rewrite (bind_Ok _ _ _ _ _ E), Z.eqb_refl. eexists. split; [reflexivity|].
  destruct (split_page s2 (start / 4096) base 2 base i ro (start mod 4096) hi n W1 Hj) as (V1 & _ & V3 & V4);
    [by apply W2, (iw_fixed _ Hw)|by apply W2|done|done|lia|unfold hi; lia|].
  split; [done|]. intros a. destruct (same_page_dec (start / 4096) (a / 4096)) as [Ha|Ha].
  - rewrite V3, Hun by done. rewrite decide_False by (unfold hi; lia). done.
  - by rewrite V4, Hoth.
Qed.

End Facts.
