(* ===== verification/PhysMemExamples.v ===== *)
(** * Physical memory: a concrete machine

    An allocator that puts new memory behind all mapped addresses, a machine with
    two pages of RAM and the theorems of [RamList], [PhysPages] and
    [PhysMemFacts] applied to it. *)

From S2P Require Import Prelude CFile CString HostMem RamList Radix PhysPages PhysView RRTypes.
From S2P Require Import PandaCallbacks RRState RRQueue RRFormat RRReplay RRReplayInv RRRecord IOMem.
From S2P Require Import PhysMem PhysMemFacts.
Local Open Scope Z_scope.

Module PhysMemExamples.

(** ** The host *)

Definition top_of (m : hmem) : Z := map_fold (λ k _ a, Z.max k a) 0 m.

Lemma top_of_spec m : 0 ≤ top_of m ∧ ∀ k b, m !! k = Some b → k ≤ top_of m.
Proof.
  unfold top_of. apply (map_fold_weak_ind (λ r m, 0 ≤ r ∧ ∀ k b, m !! k = Some b → k ≤ r)).
  { split; [done|]. intros k b. by rewrite lookup_empty. }
  intros i x m' r Hi [H0 Hm]. split; [lia|]. intros k b.
  destruct (decide (k = i)) as [->|Hk]; [lia|]. rewrite lookup_insert_ne by done.
  intros Hb. specialize (Hm k b Hb). lia.
Qed.

#[export] Instance bump_alloc : HostAlloc := {
  vmalloc_at m n := let p := top_of m + 1 in if p + n <? 2 ^ 64 then Some p else None;
  garbage _ := Corelib.Init.Byte.x00;
}.

#[export] Instance bump_alloc_laws : HostAllocLaws.
Proof.
  split; intros m n p; simpl; destruct (Z.ltb_spec (top_of m + 1 + n) (2 ^ 64)); intros [= <-];
    destruct (top_of_spec m) as [H0 Hm].
  - intros k Hk. unfold in_range in Hk. destruct (m !! k) as [b|] eqn:E; [|done].
    specialize (Hm k b E). lia.
  - lia.
Qed.

#[export] Instance space36 : PhysSpace := TARGET_PHYS_ADDR_SPACE_BITS false.
#[export] Instance space36_ok : PhysSpaceOk.
Proof. exact (target_space_ok false). Qed.
#[export] Instance phys64 : TargetPhys := PHYS64.
#[export] Instance no_remap : Machine := λ _ _ _, None.
#[export] Instance little_endian : TargetEndian := false.
#[export] Instance no_devices : Devices := {
  dev_read _ _ _ _ := mret 0;
  dev_write _ _ _ _ _ := mret ();
  tb_invalidate_phys_page_fast _ _ := mret ();
}.

(** ** Two pages of RAM, mapped at the physical addresses 0 and 4096 in reverse
    order, and a buffer of three bytes *)

Definition ram_block : RAMBlock := mkBlock 65536 0 8192 0 "pc.ram".
Definition demo_data : list byte := [Corelib.Init.Byte.x01; Corelib.Init.Byte.x02; Corelib.Init.Byte.x03].
Definition demo_word : list byte := le_bytes 4 67305985.
Definition demo_mem : hmem :=
  mem_write (mem_write (mem_write ∅ 65536 (zero_bytes (Z.to_nat 8192))) 1000 demo_data) 2000 demo_word.
Definition demo_ram : ram_state := mkRam [ram_block] [1; 255] demo_mem.

Definition demo_map : gmap Z (ptab P_LEVELS) :=
  phys_page_store (phys_page_store (phys_page_alloc ∅ 0) 0 (mkDesc 4096 0)) 1 (mkDesc 0 0).

Definition demo_state : mem_state :=
  mkMM _ (rr_init (Host ∅ ∅) (mkCpu 0 0 0) cb_init) demo_ram (set_l1_phys_map demo_map io_start) (mkBounce None 0 0) [] 0 [].

Lemma mapped_own m a d : mapped (mem_write m a d) a (Z.of_nat (length d)).
Proof.
  intros k Hk. unfold in_range in Hk. rewrite mem_write_lookup, decide_True by lia.
  apply lookup_lt_is_Some. lia.
Qed.

Lemma demo_ram_ok : ram_ok demo_ram.
Proof.
  split; cbn [ram_blocks phys_dirty ram_mem demo_ram].
  - constructor; [|constructor]. split_and!; by vm_compute.
  - simpl. split; constructor.
  - constructor; [|constructor]. apply mapped_write, mapped_write. apply (mapped_own ∅ 65536 (zero_bytes (Z.to_nat 8192))).
  - apply NoDup_singleton.
  - constructor; [simpl; lia|constructor].
  - repeat constructor; unfold in_width; lia.
Qed.

Lemma demo_page a : 0 ≤ a < 8192 → ram_page demo_state a ∧
  ram_trans demo_map a = Some (if a <? 4096 then 4096 + a else a - 4096).
Proof.
  intros Ha. pose proof (Z.div_mod a 4096 ltac:(lia)) as Hdm. pose proof (Z.mod_pos_bound a 4096 ltac:(lia)).
  assert (Hcase : a / 4096 = 0 ∨ a / 4096 = 1) by lia. unfold ram_page, ram_trans.
  cbn [mm_ram demo_state]. change (mm_map demo_state) with demo_map.
  destruct Hcase as [E|E]; rewrite E.
  - rewrite (proj2 (Z.ltb_lt _ _)) by lia.
    assert (Hf : phys_page_find demo_map 0 = Some (mkDesc 4096 0)) by (vm_compute; reflexivity).
    rewrite Hf. cbn -[Z.mul]. split; [|f_equal; lia].
    exists (mkDesc 4096 0), ram_block. split_and!; try done. split; [by left|]. unfold in_range; simpl; lia.
  - rewrite (proj2 (Z.ltb_ge _ _)) by lia.
    assert (Hf : phys_page_find demo_map 1 = Some (mkDesc 0 0)) by (vm_compute; reflexivity).
    rewrite Hf. cbn -[Z.mul]. split; [|f_equal; lia].
    exists (mkDesc 0 0), ram_block. split_and!; try done. split; [by left|]. unfold in_range; simpl; lia.
Qed.

(** A transfer between the buffer and the last byte of the first page and the
    first bytes of the second. *)
Lemma demo_transfer : transfer_ok demo_state 4095 1000 3.
Proof.
  split.
  - exact demo_ram_ok.
  - exact I.
  - lia.
  - vm_compute; split; [by intros ?|done].
  - intros a Ha. apply demo_page. unfold in_range in Ha. lia.
  - constructor; [|constructor]. intros x H1 H2. unfold in_range in *. simpl in H2. lia.
Qed.

(** ** The theorems applied *)

Definition no_call (_ : rr_event) : M mem_state () := mret ().

Lemma rw_write_refines_witness :
  ∃ s1, cpu_physical_memory_rw_ex no_call 4095 1000 3 true false demo_state = Ok 0 s1 ∧
    view_agree (ram_view (mm_ram s1))
      (view_write (ram_trans demo_map) (ram_view demo_ram) 4095 demo_data).
Proof.
  destruct (rw_write_refines no_call demo_state 4095 1000 3 demo_data false demo_transfer eq_refl)
    as (s1 & E & _ & V & _).
  exists s1. split; [exact E|exact V].
Defined.

Lemma rw_round_trip_witness :
  ∃ s1 s2, cpu_physical_memory_rw_ex no_call 4095 1000 3 true false demo_state = Ok 0 s1 ∧
    cpu_physical_memory_rw_ex no_call 4095 2000 3 false true s1 = Ok 0 s2 ∧
    mem_read (ram_mem (mm_ram s2)) 2000 3 = Some demo_data.
Proof.
  destruct (rw_round_trip no_call demo_state 4095 1000 2000 3 demo_data false true demo_transfer eq_refl)
    as (s1 & s2 & E1 & E2 & Hr & _).
  - intros a b x Ha Hb. unfold in_range in *. change (mm_map demo_state) with demo_map.
    rewrite (proj2 (demo_page a ltac:(lia))), (proj2 (demo_page b ltac:(lia))). intros [= <-].
    destruct (Z.ltb_spec a 4096), (Z.ltb_spec b 4096); intros [= E]; lia.
  - constructor; [|constructor]. intros x H1 H2. unfold in_range in *. simpl in H2. lia.
  - eapply mapped_sub; [| |apply (mapped_own _ 2000 demo_word)]; simpl; lia.
  - exists s1, s2. split; [exact E1|]. split; [exact E2|exact Hr].
Defined.

Definition empty_ram : ram_state := mkRam [] [] ∅.

Lemma empty_ram_ok : ram_ok empty_ram.
Proof. split; simpl; constructor. Qed.

Lemma ram_alloc_ok_witness :
  match qemu_ram_alloc_from_ptr None "vga.vram" 5000 None demo_ram with
  | Ok offset s' => offset = 8192 ∧ ram_ok s'
  | Err _ _ => False
  end.
Proof.
  pose proof (ram_alloc_ok None "vga.vram" 5000 None demo_ram demo_ram_ok ltac:(lia) ltac:(done)) as Ht.
  assert (Hr : match qemu_ram_alloc_from_ptr None "vga.vram" 5000 None demo_ram with
    | Ok offset _ => offset =? 8192 | Err _ _ => false end = true) by (vm_compute; reflexivity).
  destruct (qemu_ram_alloc_from_ptr None "vga.vram" 5000 None demo_ram) as [o s'|e s']; [|done].
  split; [by apply Z.eqb_eq|apply Ht].
Defined.

Lemma ram_lookup_witness :
  match qemu_get_ram_ptr 4099 demo_ram, qemu_safe_ram_ptr 4099 demo_ram with
  | Ok p s1, Ok q s2 => q = p ∧ p = 69635 ∧ qemu_ram_addr_from_host p s1 = Some 4099
  | _, _ => False
  end.
Proof.
  pose proof (ram_lookup 4099 demo_ram ltac:(unfold in_width; lia) demo_ram_ok) as Ht.
  assert (E1 : qemu_get_ram_ptr 4099 demo_ram = Ok 69635 demo_ram) by reflexivity.
  assert (E2 : qemu_safe_ram_ptr 4099 demo_ram = Ok 69635 demo_ram) by reflexivity.
  rewrite E1, E2 in *. destruct Ht as (_ & _ & _ & _ & _ & Ha). split; [reflexivity|]. split; [reflexivity|exact Ha].
Defined.

Lemma ram_free_ok_witness :
  ∃ s', qemu_ram_free 0 demo_ram = Ok () s' ∧ ram_ok s' ∧ ram_blocks s' = [].
Proof.
  destruct (ram_free_ok 0 demo_ram demo_ram_ok) as (s' & E & Hok & _).
  exists s'. split; [exact E|]. split; [exact Hok|].
  assert (Hl : match qemu_ram_free 0 demo_ram with Ok _ r => length (ram_blocks r) | Err _ _ => 1%nat end = 0%nat)
    by (vm_compute; reflexivity).
  rewrite E in Hl. by apply nil_length_inv.
Defined.

Definition no_pages : gmap Z (ptab P_LEVELS) := ∅.

Lemma page_table_map_witness :
  phys_map_ok (phys_page_alloc no_pages 5) ∧ is_Some (phys_page_find (phys_page_alloc no_pages 5) 5).
Proof.
  destruct (page_table_map no_pages 5) as (H1 & H2 & _); [apply (map_Forall_empty (M:=gmap Z))|].
  split; [exact H1|exact H2].
Defined.

Lemma new_leaf_offsets_witness :
  ∃ d, phys_page_find (phys_page_alloc no_pages 3) 3 = Some d ∧ region_offset d = 6 * 4096.
Proof.
  destruct (phys_page_find (phys_page_alloc no_pages 3) 3) as [d|] eqn:E; [|by vm_compute in E].
  assert (En : phys_page_find no_pages 3 = None) by reflexivity.
  exists d. split; [reflexivity|]. exact (proj2 (new_leaf_offsets no_pages 3 3 d En E)).
Defined.

End PhysMemExamples.
