(* ===== verification/IOMemExamples.v ===== *)
(** * I/O memory: a concrete machine

    The theorems of [IOMemFacts] applied to the tables after [io_mem_init]. *)

From S2P Require Import Prelude CFile CString HostMem RamList Radix PhysPages PhysView RRTypes.
From S2P Require Import PandaCallbacks RRState RRQueue RRFormat RRReplay RRReplayInv RRRecord.
From S2P Require Import IOMem PhysMem PhysMemFacts IOMemFacts PhysMemExamples.
Import PhysMemExamples.
Local Open Scope Z_scope.

Module IOMemExamples.

Lemma empty_pd s j : l1_phys_map s = ∅ → pd_at s j = IO_MEM_UNASSIGNED.
Proof. intros E. unfold pd_at, phys_page_find, tree_find. by rewrite E, lookup_empty. Qed.

Lemma empty_ready s start size k : l1_phys_map s = ∅ → page_ready s start size k.
Proof. intros E. unfold page_ready. rewrite empty_pd by done. by destruct (region_whole start size k). Qed.

Lemma space36_pages : space_pages = 2 ^ 24.
Proof. reflexivity. Qed.

Lemma fits start size : 0 ≤ start → 0 < size → start + size < 2 ^ 36 →
  (start mod 4096 = 0 ∨ start mod 4096 + size ≤ 4096) → region_fits start size.
Proof. intros. unfold region_fits. change phys_width with 64. split_and!; try done; lia. Qed.

Definition mem_with (io : io_state) : mem_state :=
  mkMM _ (rr_init (Host ∅ ∅) (mkCpu 0 0 0) cb_init) demo_ram io (mkBounce None 0 0) [] 0 [].

(** A region of 5000 bytes: a whole page and part of the next one. *)
Lemma register_device_refines_witness :
  ∃ io s', io_mem_init 0 io_start = Ok 40 io ∧
    cpu_register_physical_memory_log 12288 5000 40 0 false (mem_with io) = Ok () s' ∧
    place_at (mm_io s') 17000 = PlDev 5 4712 ∧ place_at (mm_io s') 17288 = PlUnassigned.
Proof.
  destruct (io_mem_init_wf 0) as (io & E & Hw & Hp & Hm & Hu).
  destruct (register_device_refines (mem_with io) 12288 5000 40 5 0 false Hw I) as (s' & E' & _ & _ & Hpl & _).
  - by apply in_width_0.
  - apply fits; try lia. by left.
  - rewrite space36_pages. lia.
  - split; [lia|reflexivity].
  - exact Hp.
  - exists 6%nat. cbn [mm_io mem_with]. by rewrite Hu.
  - intros k _ _. by apply empty_ready.
  - exists io, s'. split; [exact E|]. split; [exact E'|].
    assert (Hs : ∀ a, 0 ≤ a < 2 ^ 36 → in_space a) by (intros a Ha; unfold in_space; rewrite space36_pages; lia).
    split; rewrite Hpl by (apply Hs; lia); [reflexivity|]. simpl.
    apply (pd_unassigned io 17288). by apply empty_pd.
Defined.

Lemma register_ram_refines_witness :
  ∃ io s', io_mem_init 0 io_start = Ok 40 io ∧ register_region 8192 8192 4096 0 io = Ok () s' ∧
    ram_trans (l1_phys_map s') 12289 = Some 8193.
Proof.
  destruct (io_mem_init_wf 0) as (io & E & Hw & Hp & Hm & Hu).
  destruct (register_ram_refines io 8192 8192 4096 0 Hw (in_width_0 64 ltac:(lia))) as (s' & E' & _ & Hpl); try done; try lia.
  - apply fits; try lia. by left.
  - intros k _ _. by apply empty_pd.
  - exists io, s'. split; [exact E|]. split; [exact E'|].
    exact (proj2 (Hpl 12289 ltac:(unfold in_space; rewrite space36_pages; lia))).
Defined.

(** A big-endian device on a little-endian target. *)
Lemma mmio_end_to_end_witness :
  ∃ io s', io_mem_init 0 io_start = Ok 40 io ∧
    (pd ← cpu_register_io_memory (three (Some (FnDevice 7))) (three (Some (FnDevice 7))) (OpDevice 1) DEVICE_BIG_ENDIAN;
     register_region 4352 16 pd 0) io = Ok () s' ∧
    ∃ d, phys_page_find (l1_phys_map s') 1 = Some d ∧
      io_mem_write (desc_io_index (phys_offset d)) 1 (desc_io_addr (Some d) 4354) 258 (mem_with s')
      = dev_write_as true 7 1 (OpDevice 1) 258 258 (mem_with s').
Proof.
  destruct (io_mem_init_wf 0) as (io & E & Hw & Hp & Hm & Hu).
  destruct (mmio_end_to_end io 7 (OpDevice 1) DEVICE_BIG_ENDIAN 4352 16 0 6 7 Hw ltac:(done) (in_width_0 64 ltac:(lia))) as (s' & E' & _ & _ & Hr); try done.
  - apply fits; try lia. right. by vm_compute.
  - by rewrite Hu.
  - by rewrite Hu.
  - intros k _ _. by apply empty_ready.
  - exists io, s'. split; [exact E|]. split; [exact E'|].
    destruct (Hr (mem_with s') 4354 1 258 eq_refl ltac:(lia) ltac:(lia)) as (d & Hd & _ & _ & Hwr).
    exists d. split; [exact Hd|exact Hwr].
Defined.

Lemma crossing_region_lost_witness :
  ∃ io s', io_mem_init 0 io_start = Ok 40 io ∧ register_region 4090 10 40 0 io = Ok () s' ∧
    place_at s' 4090 = PlUnassigned ∧ place_at s' 4099 = PlUnassigned.
Proof.
  destruct (io_mem_init_wf 0) as (io & E & Hw & Hp & Hm & Hu).
  destruct (crossing_region_lost io 4090 10 40 5 0 Hw) as (s' & E' & _ & Hpl); try done; try lia.
  - exists 6%nat. by rewrite Hu.
  - by apply empty_pd.
  - exists io, s'. split; [exact E|]. split; [exact E'|].
    split; rewrite Hpl; apply pd_unassigned; by apply empty_pd.
Defined.

Lemma reassigned_page_offset_witness :
  ∃ s d s', phys_page_find (l1_phys_map s) 1 = Some d ∧ region_offset d = 8192 ∧
    register_region 4096 4096 40 0 s = Ok () s' ∧ place_at s' 4100 = PlDev 5 8196.
Proof.
  destruct (io_mem_init_wf 0) as (io & E & Hw & Hp & Hm & Hu).
  assert (Hd : device_pd 40 5) by (split; [lia|reflexivity]).
  assert (Hok : page_ok io (mkDesc 40 8192)) by (by apply (device_page_ok io 40 5)).
  destruct (unassigned_wf io 1 40 8192 Hw Hok) as (W1 & (_ & W2) & _); [by intros _ []|].
  set (s := with_desc 1 (mkDesc 40 8192) (with_page 1 io)) in *.
  assert (Hf : phys_page_find (l1_phys_map s) 1 = Some (mkDesc 40 8192)).
  { destruct (with_page_wf io 1 Hw) as (Hw1 & _ & Hs1 & _). unfold s.
    rewrite with_desc_find by (done || apply Hw1). by destruct (same_page_dec 1 1). }
  destruct (reassigned_page_offset s 4096 40 5 0 (mkDesc 40 8192) W1) as (s' & E' & _ & Hpl); try done.
  exists s, (mkDesc 40 8192), s'. split; [exact Hf|]. split; [reflexivity|]. split; [exact E'|].
  exact (Hpl 4100 ltac:(lia)).
Defined.

End IOMemExamples.
