(* ===== verification/LdStPhys.v ===== *)
(** * Loads and stores of fixed size by physical address ([exec.c])

    [ldl_phys], [stl_phys] and their variants: the page is looked up once, I/O
    goes through the tables and the log, RAM is accessed in place. Addresses are
    aligned. *)

From S2P Require Import Prelude CFile CString HostMem RamList Radix PhysPages PhysView RRTypes.
From S2P Require Import PandaCallbacks RRState RRQueue RRFormat RRReplay RRReplayInv RRRecord.
From S2P Require Import IOMem PhysMem PhysMemFacts.
Local Open Scope Z_scope.
Local Open Scope panda_scope.

Section LdSt.
Context `{TargetPhys} `{TargetEndian} `{Machine} `{HostAlloc} `{PhysSpace} `{!Devices}.
Variable perform : rr_event → MM ().

(** The byte order of an access of the given endianness. *)
Definition big_order (endian : device_endian) : bool :=
  match endian with
  | DEVICE_LITTLE_ENDIAN => false
  | DEVICE_BIG_ENDIAN => true
  | DEVICE_NATIVE_ENDIAN => target_words_bigendian
  end.
Definition ordered (endian : device_endian) (d : list byte) : list byte :=
  if big_order endian then reverse d else d.
(** [ldl_le_p], [ldl_be_p], [ldl_p], [stl_le_p], ... *)
Definition ld_e (n : nat) (endian : device_endian) (ptr : Z) : MM Z :=
  d ← load ptr (Z.of_nat n); mret (le_value (ordered endian d)).
Definition st_e (n : nat) (endian : device_endian) (ptr val : Z) : MM () :=
  store ptr (ordered endian (le_bytes n val)).

(** A value read from, or written to, a device of the target's order. *)
Definition io_swap (n : nat) (endian : device_endian) (val : Z) : Z :=
  match endian with
  | DEVICE_NATIVE_ENDIAN => val
  | DEVICE_LITTLE_ENDIAN => if target_words_bigendian then bswap n val else val
  | DEVICE_BIG_ENDIAN => if target_words_bigendian then val else bswap n val
  end.

Definition phys_desc (addr : Z) : MM (option PhysPageDesc) :=
  gets (λ s, phys_page_find (mm_map s) (Z.shiftr addr TARGET_PAGE_BITS)).
Definition read_is_io (pd : Z) : bool := (IO_MEM_ROM <? offset_of pd) && (Z.land pd IO_MEM_ROMD =? 0).
Definition ram_ptr (pd addr : Z) : MM Z :=
  p ← in_ram (qemu_get_ram_ptr (page_of pd)); mret (p + offset_of addr).

(** ** Loads *)

Definition ldl_phys_internal (addr : Z) (endian : device_endian) : MM Z :=
  p ← phys_desc addr;
  let pd := desc_pd p in
  if read_is_io pd then
    val ← io_read perform (desc_io_index pd) 2 (desc_io_addr p addr) 4 rr_input_4 RR_CALLSITE_LDL_PHYS;
    mret (io_swap 4 endian val)
  else ptr ← ram_ptr pd addr; ld_e 4 endian ptr.
Definition ldl_phys (addr : Z) : MM Z := ldl_phys_internal addr DEVICE_NATIVE_ENDIAN.
Definition ldl_le_phys (addr : Z) : MM Z := ldl_phys_internal addr DEVICE_LITTLE_ENDIAN.
Definition ldl_be_phys (addr : Z) : MM Z := ldl_phys_internal addr DEVICE_BIG_ENDIAN.

(** Two accesses of 32 bits; the endianness that was asked for is not used. *)
Definition io_read_8 (io_index addr : Z) : MM Z :=
  a ← io_mem_read io_index 2 addr;
  b ← io_mem_read io_index 2 (wrap phys_width (addr + 4));
  mret (if target_words_bigendian then Z.lor (Z.shiftl a 32) b else Z.lor a (Z.shiftl b 32)).

Definition ldq_phys_internal (addr : Z) (endian : device_endian) : MM Z :=
  p ← phys_desc addr;
  let pd := desc_pd p in
  if read_is_io pd then
    let io_index := desc_io_index pd in
    if io_index =? Z.shiftr IO_MEM_NOTDIRTY IO_MEM_SHIFT then io_read_8 io_index (desc_io_addr p addr)
    else mm_record_or_replay perform (io_read_8 io_index (desc_io_addr p addr)) (λ v, rr_input_8 v;; mret ())
           (rr_input_8 0) (callsite_Z RR_CALLSITE_LDQ_PHYS)
  else ptr ← ram_ptr pd addr; ld_e 8 endian ptr.
Definition ldq_phys (addr : Z) : MM Z := ldq_phys_internal addr DEVICE_NATIVE_ENDIAN.
Definition ldq_le_phys (addr : Z) : MM Z := ldq_phys_internal addr DEVICE_LITTLE_ENDIAN.
Definition ldq_be_phys (addr : Z) : MM Z := ldq_phys_internal addr DEVICE_BIG_ENDIAN.

(** [val] is a local variable at [val_ptr]. *)
Definition ldub_phys (val_ptr addr : Z) : MM Z :=
  cpu_physical_memory_rw perform addr val_ptr 1 false;; ld_p 1 val_ptr.

(** The device is read whatever the mode is. *)
Definition lduw_phys_internal (addr : Z) (endian : device_endian) : MM Z :=
  p ← phys_desc addr;
  let pd := desc_pd p in
  if read_is_io pd then
    val ← io_mem_read (desc_io_index pd) 1 (desc_io_addr p addr);
    mret (wrap 32 (io_swap 2 endian val))
  else ptr ← ram_ptr pd addr; ld_e 2 endian ptr.
Definition lduw_phys (addr : Z) : MM Z := lduw_phys_internal addr DEVICE_NATIVE_ENDIAN.
Definition lduw_le_phys (addr : Z) : MM Z := lduw_phys_internal addr DEVICE_LITTLE_ENDIAN.
Definition lduw_be_phys (addr : Z) : MM Z := lduw_phys_internal addr DEVICE_BIG_ENDIAN.

(** ** Stores *)

Definition write_is_io (pd : Z) : bool := negb (offset_of pd =? IO_MEM_RAM).

Definition stl_phys_notdirty (in_migration : bool) (addr val : Z) : MM () :=
  p ← phys_desc addr;
  let pd := desc_pd p in
  if write_is_io pd then io_write perform (desc_io_index pd) 2 (desc_io_addr p addr) val RR_CALLSITE_STL_PHYS_ND
  else
    let addr1 := ram_addr_of pd addr in
    ptr ← in_ram (qemu_get_ram_ptr addr1);
    st_e 4 DEVICE_NATIVE_ENDIAN ptr val;;
    if in_migration then mark_dirty addr1 4 else mret ().

Definition io_write_8 (io_index addr val : Z) : MM () :=
  let lo := wrap 32 val in
  let hi := Z.shiftr val 32 in
  io_mem_write io_index 2 addr (if target_words_bigendian then hi else lo);;
  io_mem_write io_index 2 (wrap phys_width (addr + 4)) (if target_words_bigendian then lo else hi).

Definition stq_phys_notdirty (addr val : Z) : MM () :=
  p ← phys_desc addr;
  let pd := desc_pd p in
  if write_is_io pd then
    let io_index := desc_io_index pd in
    if io_index =? Z.shiftr IO_MEM_NOTDIRTY IO_MEM_SHIFT then io_write_8 io_index (desc_io_addr p addr) val
    else mm_record_or_replay perform (io_write_8 io_index (desc_io_addr p addr) val) (λ _, mret ()) (mret ())
           (callsite_Z RR_CALLSITE_STQ_PHYS_ND)
  else ptr ← ram_ptr pd addr; st_e 8 DEVICE_NATIVE_ENDIAN ptr val.

Definition st_ram (n : nat) (pd addr val : Z) (endian : device_endian) : MM () :=
  let addr1 := ram_addr_of pd addr in
  ptr ← in_ram (qemu_get_ram_ptr addr1);
  st_e n endian ptr val;;
  mark_dirty addr1 (Z.of_nat n).

Definition stl_phys_internal (addr val : Z) (endian : device_endian) : MM () :=
  p ← phys_desc addr;
  let pd := desc_pd p in
  if write_is_io pd then
    io_write perform (desc_io_index pd) 2 (desc_io_addr p addr) (io_swap 4 endian val) RR_CALLSITE_STL_PHYS
  else st_ram 4 pd addr val endian.
Definition stl_phys (addr val : Z) : MM () := stl_phys_internal addr val DEVICE_NATIVE_ENDIAN.
Definition stl_le_phys (addr val : Z) : MM () := stl_phys_internal addr val DEVICE_LITTLE_ENDIAN.
Definition stl_be_phys (addr val : Z) : MM () := stl_phys_internal addr val DEVICE_BIG_ENDIAN.

Definition stb_phys (v_ptr addr val : Z) : MM () :=
  st_p 1 v_ptr val;; cpu_physical_memory_rw perform addr v_ptr 1 true.

(** Here too the device is written in every mode. *)
Definition stw_phys_internal (addr val : Z) (endian : device_endian) : MM () :=
  p ← phys_desc addr;
  let pd := desc_pd p in
  if write_is_io pd then io_mem_write (desc_io_index pd) 1 (desc_io_addr p addr) (io_swap 2 endian val)
  else st_ram 2 pd addr val endian.
Definition stw_phys (addr val : Z) : MM () := stw_phys_internal addr val DEVICE_NATIVE_ENDIAN.
Definition stw_le_phys (addr val : Z) : MM () := stw_phys_internal addr val DEVICE_LITTLE_ENDIAN.
Definition stw_be_phys (addr val : Z) : MM () := stw_phys_internal addr val DEVICE_BIG_ENDIAN.

(** The variable at [val_ptr] holds the value in the order of the target, which
    is what [tswap64] gives on any host; [cpu_to_le64] and [cpu_to_be64] below. *)
Definition stq_phys (val_ptr addr val : Z) : MM () :=
  store val_ptr (target_order (le_bytes 8 val));;
  cpu_physical_memory_rw perform addr val_ptr 8 true.

Definition stq_le_phys (val_ptr addr val : Z) : MM () :=
  store val_ptr (le_bytes 8 val);; cpu_physical_memory_rw perform addr val_ptr 8 true.
Definition stq_be_phys (val_ptr addr val : Z) : MM () :=
  store val_ptr (reverse (le_bytes 8 val));; cpu_physical_memory_rw perform addr val_ptr 8 true.

(** ** Lemmas *)

Lemma phys_desc_ok addr s : phys_desc addr s = Ok (phys_page_find (mm_map s) (addr / 4096)) s.
Proof. unfold phys_desc, gets. by rewrite Z.shiftr_div_pow2. Qed.

Lemma length_ordered e d : length (ordered e d) = length d.
Proof. unfold ordered. destruct (big_order e); [apply length_reverse|done]. Qed.

Lemma ordered_twice e d : ordered e (ordered e d) = d.
Proof. unfold ordered. destruct (big_order e); [apply reverse_involutive|done]. Qed.

(** A page of RAM and the access inside it. *)
Record ram_access (s : mem_state) (addr : Z) (n : nat) (d : PhysPageDesc) (b : RAMBlock) : Prop := {
  ra_ok : ram_ok (mm_ram s);
  ra_find : phys_page_find (mm_map s) (addr / 4096) = Some d;
  ra_page : phys_offset d mod 4096 = 0;
  ra_owner : owner (phys_offset d) (mm_ram s) b;
  ra_room : addr mod 4096 + Z.of_nat n ≤ 4096;
}.

Lemma page_access s addr n :
  ram_ok (mm_ram s) → ram_page s addr → (n = 1 ∨ n = 2 ∨ n = 4 ∨ n = 8) → addr mod n = 0 →
  ∃ d b, ram_access s addr (Z.to_nat n) d b.
Proof.
  intros Hok (d & b & Hf & Ha & Ho) Hn Hm. exists d, b. split; try done.
  pose proof (Z.div_mod addr 4096 ltac:(lia)). pose proof (Z.mod_pos_bound addr 4096 ltac:(lia)).
  assert (Hmm : (addr mod 4096) mod n = 0).
  { rewrite <-Hm. apply Z.mod_mod_divide. destruct Hn as [->|[->|[->| ->]]]; [by exists 4096|by exists 2048|by exists 1024|by exists 512]. }
  pose proof (Z.div_mod (addr mod 4096) n ltac:(lia)). nia.
Qed.

Lemma st_ram_ok s addr val e n d b :
  ram_access s addr n d b → (0 < n)%nat →
  ∃ s1, st_ram n (phys_offset d) addr val e s = Ok () s1 ∧ mem_frame s s1 ∧ mm_rr s1 = mm_rr s ∧
    view_agree (ram_view (mm_ram s1))
      (view_write (ram_trans (mm_map s)) (ram_view (mm_ram s)) addr (ordered e (le_bytes n val))) ∧
    marked s1 (phys_offset d + addr mod 4096) ∧ code_dropped s s1 (phys_offset d + addr mod 4096).
Proof.
  intros [Hok Hf Ha Ho Hroom] Hn. destruct (owner_page s _ _ Hok Ho Ha) as (W1 & W2 & W3 & W4 & W5 & W6).
  pose proof (Z.mod_pos_bound addr 4096 ltac:(lia)) as Hm. unfold st_ram. rewrite (ram_addr_eq _ _ Ha W1 W3). cbv zeta.
  set (ra := phys_offset d + addr mod 4096).
  assert (Hora : owner ra (mm_ram s) b) by (split; [apply Ho|unfold in_range; lia]).
  destruct (get_ram_ptr_ok ra (mm_ram s) b ltac:(unfold in_width in *; lia) Hok Hora) as (r & Er & Heq).
  rewrite (bind_in_ram _ _ _ _ _ Er). pose proof (frame_eqv s r Hok Heq) as F1. set (sA := set_mm_ram r s) in *.
  set (bs := ordered e (le_bytes n val)). assert (Hbl : length bs = n) by (unfold bs; by rewrite length_ordered, length_le_bytes).
  assert (Hb : b ∈ ram_blocks r) by (rewrite <-(re_blocks _ _ Heq); apply Ho).
  destruct (ram_view_store r b ra bs (mf_ok _ _ F1) Hb ltac:(lia) ltac:(lia)) as [Hok2 Hv2].
  unfold st_e. fold bs. erewrite bind_Ok; [|apply (store_ok sA)]; change (mm_ram sA) with r.
  2: { eapply (mapped_sub _ (blk_host b) (blk_length b)); [lia..|].
       by apply (proj1 (Forall_forall _ _) (ro_mapped _ (mf_ok _ _ F1))). }
  pose proof (frame_store sA _ Hok2) as F2. set (sB := set_mm_ram _ sA) in *.
  destruct (mark_dirty_ok sB ra (Z.of_nat n) b Hok2) as (s1 & E1 & F3 & R1 & B1 & M1 & Hmk & Hcd).
  { split; [done|apply Hora]. }
  exists s1. split; [exact E1|]. split_and!; [by eapply mem_frame_trans, mem_frame_trans|done| |done|].
  - intros x Hx. rewrite (view_write_chunk _ _ _ _ ra) by (rewrite Hbl; apply page_contiguous; [done..|lia]).
    transitivity (ram_view (mm_ram sB) x); [unfold ram_view; by rewrite B1, M1|].
    transitivity (view_put (ram_view r) ra bs x); [exact (Hv2 x Hx)|]. apply view_put_agree; [|done]. intros y Hy. symmetry. by apply ram_view_eqv.
  - unfold code_dropped. change (phys_dirty (mm_ram sB)) with (phys_dirty r) in Hcd. by rewrite (re_dirty _ _ Heq).
Qed.

Lemma ld_ram_ok s addr e n d b :
  ram_access s addr n d b →
  ∃ bs s1, (ptr ← ram_ptr (phys_offset d) addr; ld_e n e ptr) s = Ok (le_value (ordered e bs)) s1 ∧
    view_read (ram_trans (mm_map s)) (ram_view (mm_ram s)) addr n = Some bs ∧
    mem_frame s s1 ∧ mm_rr s1 = mm_rr s ∧ ram_eqv (mm_ram s) (mm_ram s1).
Proof.
  intros [Hok Hf Ha Ho Hroom]. destruct (owner_page s _ _ Hok Ho Ha) as (W1 & W2 & W3 & W4 & W5 & W6).
  pose proof (Z.mod_pos_bound addr 4096 ltac:(lia)) as Hm.
  set (ra := phys_offset d + addr mod 4096).
  destruct (view_read_block (mm_ram s) b (ram_trans (mm_map s)) addr ra n Hok) as (bs & Hbs & Hv);
    [apply Ho|apply page_contiguous; [done..|lia]|unfold in_width, ra in *; lia|lia|lia|].
  unfold ram_ptr, page_of. rewrite page_mask, Ha, Z.sub_0_r.
  destruct (get_ram_ptr_ok _ (mm_ram s) b W1 Hok Ho) as (r & Er & Heq).
  rewrite bind_assoc, (bind_in_ram _ _ _ _ _ Er), bind_ret. unfold offset_of. rewrite page_offset.
  exists bs, (set_mm_ram r s). split_and!; try done; [|by apply frame_eqv].
  unfold ld_e. erewrite bind_Ok; [done|]. apply load_ok. rewrite Nat2Z.id. simpl. rewrite <-(re_mem _ _ Heq), <-Hbs. f_equal. unfold ra. lia.
Qed.

(** ** Theorems *)

Lemma stl_ram s addr val e d b :
  ram_access s addr 4 d b → stl_phys_internal addr val e s = st_ram 4 (phys_offset d) addr val e s.
Proof.
  intros [_ Hf Ha _ _]. unfold stl_phys_internal. rewrite (bind_Ok _ _ _ _ _ (phys_desc_ok addr s)), Hf.
  cbn [desc_pd]. unfold write_is_io, offset_of. by rewrite page_offset, Ha.
Qed.

Lemma stw_ram s addr val e d b :
  ram_access s addr 2 d b → stw_phys_internal addr val e s = st_ram 2 (phys_offset d) addr val e s.
Proof.
  intros [_ Hf Ha _ _]. unfold stw_phys_internal. rewrite (bind_Ok _ _ _ _ _ (phys_desc_ok addr s)), Hf.
  cbn [desc_pd]. unfold write_is_io, offset_of. by rewrite page_offset, Ha.
Qed.

Lemma read_is_ram d : phys_offset d mod 4096 = 0 → read_is_io (phys_offset d) = false.
Proof. intros Ha. unfold read_is_io, offset_of. by rewrite page_offset, Ha. Qed.

(** The fixed-size store to RAM does to RAM what the general routine does with
    the same bytes. But only the general routine tells a recording: the store
    changes RAM behind the back of the log. *)
Theorem stl_equals_rw s addr val e buf safe :
  transfer_ok s addr buf 4 → addr mod 4 = 0 →
  mem_read (ram_mem (mm_ram s)) buf 4 = Some (ordered e (le_bytes 4 val)) →
  ∃ s1 s2, stl_phys_internal addr val e s = Ok () s1 ∧
    cpu_physical_memory_rw_ex perform addr buf 4 true safe s = Ok 0 s2 ∧
    mem_frame s s1 ∧ view_agree (ram_view (mm_ram s1)) (ram_view (mm_ram s2)) ∧
    mm_rr s1 = mm_rr s ∧
    rr_wrote (mm_rr s) (mm_rr s2) [site_item (mm_rr s) (LMemRw addr buf (ordered e (le_bytes 4 val)))].
Proof.
  intros HT Hal Hd. pose proof HT as [T1 T2 T3 T4 T5 T6].
  destruct (page_access s addr 4 T1 (T5 addr ltac:(unfold in_range; lia)) ltac:(lia) Hal) as (d & b & HA).
  change (Z.to_nat 4) with 4%nat in HA. set (bs := ordered e (le_bytes 4 val)) in *.
  destruct (st_ram_ok s addr val e 4 d b HA ltac:(lia)) as (s1 & E1 & F1 & R1 & V1 & _).
  destruct (rw_loop_write perform 4 s addr buf 4 bs safe HT ltac:(lia) Hd) as (s2 & E2 & _ & L2 & V2 & _).
  exists s1, s2. split; [by rewrite (stl_ram _ _ _ _ _ _ HA)|]. split; [exact E2|]. split_and!; try done.
  - intros x Hx. by rewrite V1, V2.
  - assert (Hbl : length bs = 4%nat) by (unfold bs; by rewrite length_ordered, length_le_bytes).
    assert (Hdc : dma_calls 4 addr buf bs = [LMemRw addr buf bs]).
    { destruct bs as [|c bs'] eqn:Eb; [done|]. cbn [dma_calls]. f_equal.
      assert (Hc : chunk addr (zlen (c :: bs')) = 4).
      { rewrite chunk_eq. unfold zlen. rewrite Hbl. destruct HA as [_ _ _ _ Hr]. lia. }
      rewrite Hc, drop_ge by (rewrite Hbl; lia). done. }
    by rewrite Hdc in L2.
Qed.

(** C39. What was stored is loaded back, for each width and byte order; another order
    gives the bytes reversed. The address is aligned and in a page of RAM, and no two
    of the four bytes from it on share RAM. *)
Theorem ld_st_phys_round_trip s addr val e e' :
  ram_ok (mm_ram s) → ram_page s addr →
  injective_on (ram_trans (mm_map s)) addr 4 →
  (addr mod 4 = 0 → in_width 32 val →
     ∃ s1 s2, stl_phys_internal addr val e s = Ok () s1 ∧
       ldl_phys_internal addr e' s1 = Ok (if bool_decide (big_order e = big_order e') then val else bswap 4 val) s2) ∧
  (addr mod 2 = 0 → in_width 16 val →
     ∃ s1 s2, stw_phys_internal addr val e s = Ok () s1 ∧
       lduw_phys_internal addr e' s1 = Ok (if bool_decide (big_order e = big_order e') then val else bswap 2 val) s2).
Proof.
  intros Hok Hp Hinj.
  assert (Hgen : ∀ n, (0 < n ≤ 4)%nat → ∀ d b, ram_access s addr n d b → in_width (8 * Z.of_nat n) val →
    ∃ s1 s2, st_ram n (phys_offset d) addr val e s = Ok () s1 ∧ phys_page_find (mm_map s1) (addr / 4096) = Some d ∧
      (ptr ← ram_ptr (phys_offset d) addr; ld_e n e' ptr) s1
      = Ok (if bool_decide (big_order e = big_order e') then val else bswap n val) s2).
  { intros n Hn d b HA Hw. destruct (st_ram_ok s addr val e n d b HA ltac:(lia)) as (s1 & E1 & F1 & _ & V1 & _).
    assert (HA1 : ram_access s1 addr n d b).
    { destruct HA as [A1 A2 A3 [A4 A4'] A5]. split; [apply F1|by rewrite (mf_map _ _ F1)|done| |done].
      split; [by rewrite <-(mf_blocks _ _ F1)|done]. }
    destruct (ld_ram_ok s1 addr e' n d b HA1) as (bs & s2 & E2 & Hv & _).
    exists s1, s2. split; [done|]. split; [apply HA1|]. rewrite E2. f_equal.
    set (w := ordered e (le_bytes n val)) in *.
    assert (Hwl : length w = n) by (unfold w; by rewrite length_ordered, length_le_bytes).
    assert (Hpt : ∀ a, in_range addr (Z.of_nat n) a → is_Some (ram_trans (mm_map s) a)).
    { intros a Ha. destruct HA as [_ A2 A3 _ A5]. pose proof (Z.mod_pos_bound addr 4096 ltac:(lia)).
      pose proof (page_contiguous _ _ _ (Z.of_nat n) A2 A3 ltac:(lia) (a - addr)) as Hc.
      replace (addr + (a - addr)) with a in Hc by lia. rewrite Hc by (unfold in_range in Ha; lia). done. }
    assert (Hbs : bs = w).
    { rewrite (mf_map _ _ F1) in Hv. rewrite (view_read_agree _ _ _ _ _ V1) in Hv.
      - rewrite <-Hwl in Hv. rewrite view_read_write in Hv; [congruence|by rewrite Hwl|].
        intros a c x Ha Hc. apply Hinj; unfold in_range in *; lia.
      - intros a ra Ha Hra. destruct HA as [_ A2 A3 A4 A5]. pose proof (Z.mod_pos_bound addr 4096 ltac:(lia)).
        pose proof (page_contiguous _ _ _ (Z.of_nat n) A2 A3 ltac:(lia) (a - addr)) as Hc.
        replace (addr + (a - addr)) with a in Hc by lia. rewrite Hc in Hra by (unfold in_range in Ha; lia). injection Hra as <-.
        destruct (owner_page s _ _ Hok A4 A3) as (W1 & W2 & W3 & _). unfold in_width, in_range in *. lia. }
    rewrite Hbs. unfold w, ordered. destruct (big_order e), (big_order e'); simpl; rewrite ?reverse_involutive;
      try done; by apply le_value_le_bytes. }
  split; intros Hal Hw.
  - destruct (page_access s addr 4 Hok Hp ltac:(lia) Hal) as (d & b & HA). change (Z.to_nat 4) with 4%nat in HA.
    destruct (Hgen 4%nat ltac:(lia) d b HA Hw) as (s1 & s2 & E1 & Hf & E2). exists s1, s2.
    rewrite (stl_ram _ _ _ _ _ _ HA). split; [done|]. unfold ldl_phys_internal.
    rewrite (bind_Ok _ _ _ _ _ (phys_desc_ok addr s1)), Hf. cbn [desc_pd]. rewrite (read_is_ram d) by apply HA. exact E2.
  - destruct (page_access s addr 2 Hok Hp ltac:(lia) Hal) as (d & b & HA). change (Z.to_nat 2) with 2%nat in HA.
    destruct (Hgen 2%nat ltac:(lia) d b HA Hw) as (s1 & s2 & E1 & Hf & E2). exists s1, s2.
    rewrite (stw_ram _ _ _ _ _ _ HA). split; [done|]. unfold lduw_phys_internal.
    rewrite (bind_Ok _ _ _ _ _ (phys_desc_ok addr s1)), Hf. cbn [desc_pd]. rewrite (read_is_ram d) by apply HA. exact E2.
Qed.

End LdSt.

(** In a replay the wide loads do not reach a device: whatever the devices of the
    replaying machine are, the guest gets the same value. *)
Theorem replay_loads_no_devices `{TargetPhys} `{TargetEndian} `{Machine} `{HostAlloc} `{PhysSpace}
    (dev1 dev2 : Devices) (perform : rr_event → MM ()) addr endian s :
  rr_mode (mm_rr s) = RR_REPLAY →
  @ldl_phys_internal _ _ _ _ dev1 perform addr endian s = @ldl_phys_internal _ _ _ _ dev2 perform addr endian s ∧
  (desc_io_index (desc_pd (phys_page_find (mm_map s) (addr / 4096))) ≠ 3 →
   @ldq_phys_internal _ _ _ _ dev1 perform addr endian s = @ldq_phys_internal _ _ _ _ dev2 perform addr endian s).
Proof.
  intros Hm. split.
  - unfold ldl_phys_internal. rewrite !(bind_Ok _ _ _ _ _ (phys_desc_ok addr s)). destruct (read_is_io _); [|done].
    unfold io_read, mm_record_or_replay. rewrite !bind_assoc, !bind_gets, Hm. done.
  - intros Hn. unfold ldq_phys_internal. rewrite !(bind_Ok _ _ _ _ _ (phys_desc_ok addr s)). destruct (read_is_io _); [|done].
    change (Z.shiftr IO_MEM_NOTDIRTY IO_MEM_SHIFT) with 3. rewrite (proj2 (Z.eqb_neq _ _)) by done.
    unfold mm_record_or_replay. rewrite !bind_gets, Hm. done.
Qed.
