(* ===== verification/LdStExamples.v ===== *)
(** * Loads and stores of fixed size: a concrete machine *)

From S2P Require Import Prelude CFile CString HostMem RamList Radix PhysPages PhysView RRTypes.
From S2P Require Import PandaCallbacks RRState RRQueue RRFormat RRReplay RRReplayInv RRRecord.
From S2P Require Import IOMem PhysMem PhysMemFacts LdStPhys PhysMemExamples.
Import PhysMemExamples.
Local Open Scope Z_scope.

Module LdStExamples.

Lemma demo_transfer_word : transfer_ok demo_state 4096 2000 4.
Proof.
  split.
  - exact demo_ram_ok.
  - exact I.
  - lia.
  - vm_compute; split; [by intros ?|done].
  - intros a Ha. apply demo_page. unfold in_range in Ha. lia.
  - constructor; [|constructor]. intros x H1 H2. unfold in_range in *. simpl in H2. lia.
Qed.

Lemma demo_word_bytes :
  mem_read (ram_mem (mm_ram demo_state)) 2000 4
  = Some (ordered DEVICE_NATIVE_ENDIAN (le_bytes 4 67305985)).
Proof. vm_compute. reflexivity. Qed.

Lemma stl_equals_rw_witness :
  ∃ s1 s2, stl_phys no_call 4096 67305985 demo_state = Ok () s1 ∧
    cpu_physical_memory_rw_ex no_call 4096 2000 4 true false demo_state = Ok 0 s2 ∧
    view_agree (ram_view (mm_ram s1)) (ram_view (mm_ram s2)).
Proof.
  destruct (stl_equals_rw no_call demo_state 4096 67305985 DEVICE_NATIVE_ENDIAN 2000 false
    demo_transfer_word eq_refl demo_word_bytes) as (s1 & s2 & E1 & E2 & _ & V & _).
  exists s1, s2. split; [exact E1|]. split; [exact E2|exact V].
Defined.

Lemma demo_injective addr : 0 ≤ addr ≤ 8188 → injective_on (ram_trans (mm_map demo_state)) addr 4.
Proof.
  intros Hr a b x Ha Hb. unfold in_range in *. change (mm_map demo_state) with demo_map.
  rewrite (proj2 (demo_page a ltac:(lia))), (proj2 (demo_page b ltac:(lia))). intros [= <-].
  destruct (Z.ltb_spec a 4096), (Z.ltb_spec b 4096); intros [= E]; lia.
Qed.

(** A big-endian store and a little-endian load of 16 bits, and a load of 32 bits in
    the order of the store. *)
Lemma ld_st_phys_round_trip_witness :
  (∃ s1 s2, stw_be_phys 4098 513 demo_state = Ok () s1 ∧ lduw_le_phys 4098 s1 = Ok 258 s2) ∧
  ∃ s1 s2, stl_phys_internal no_call 4100 67305985 DEVICE_BIG_ENDIAN demo_state = Ok () s1 ∧
    ldl_phys_internal no_call 4100 DEVICE_BIG_ENDIAN s1 = Ok 67305985 s2.
Proof.
  split.
  - destruct (ld_st_phys_round_trip no_call demo_state 4098 513 DEVICE_BIG_ENDIAN DEVICE_LITTLE_ENDIAN demo_ram_ok)
      as [_ Hw]; [apply demo_page; lia|apply demo_injective; lia|].
    destruct (Hw eq_refl ltac:(unfold in_width; lia)) as (s1 & s2 & E1 & E2). exists s1, s2. split; [exact E1|exact E2].
  - destruct (ld_st_phys_round_trip no_call demo_state 4100 67305985 DEVICE_BIG_ENDIAN DEVICE_BIG_ENDIAN demo_ram_ok)
      as [Hl _]; [apply demo_page; lia|apply demo_injective; lia|].
    destruct (Hl eq_refl ltac:(unfold in_width; lia)) as (s1 & s2 & E1 & E2). exists s1, s2. split; [exact E1|exact E2].
Defined.

(** ** A replay *)

Definition device_value (v : Z) : Devices := {|
  dev_read _ _ _ _ := mret v;
  dev_write _ _ _ _ _ := mret ();
  tb_invalidate_phys_page_fast _ _ := mret ();
|}.

Definition device_io : io_state :=
  set_io_rows (<[5%nat := mkRow (three (Some (FnDevice 0))) (three (Some (FnDevice 0))) OpNull]> (io_rows io_start))
    (set_l1_phys_map (phys_page_store (phys_page_alloc ∅ 3) 3 (mkDesc 40 0)) io_start).

Definition replaying : mem_state :=
  mkMM _ (set_rr_mode RR_REPLAY (rr_init (Host ∅ ∅) (mkCpu 0 0 0) cb_init)) demo_ram device_io (mkBounce None 0 0) [] 0 [].

Lemma replay_loads_no_devices_witness :
  @ldl_phys_internal _ _ _ _ (device_value 1) no_call 12288 DEVICE_NATIVE_ENDIAN replaying
  = @ldl_phys_internal _ _ _ _ (device_value 2) no_call 12288 DEVICE_NATIVE_ENDIAN replaying.
Proof.
  exact (proj1 (replay_loads_no_devices (device_value 1) (device_value 2) no_call 12288 DEVICE_NATIVE_ENDIAN
    replaying eq_refl)).
Defined.

Definition value_of (o : outcome mem_state Z) : option Z := match o with Ok v _ => Some v | Err _ _ => None end.

(** A 16-bit load does reach the device in a replay: the guest gets what the
    replaying machine's device says. *)
Example narrow_load_reads_device :
  value_of (@lduw_phys_internal _ _ _ (device_value 1) 12288 DEVICE_NATIVE_ENDIAN replaying) = Some 1 ∧
  value_of (@lduw_phys_internal _ _ _ (device_value 2) 12288 DEVICE_NATIVE_ENDIAN replaying) = Some 2.
Proof. vm_compute. split; reflexivity. Qed.

End LdStExamples.
