(* ===== verification/PhysReplay.v ===== *)
(** * Memory written by devices, recorded and replayed

    The composition of physical memory access with record/replay: a device that
    is called while the guest is recorded writes guest memory by DMA and returns
    a value; the replay performs the writes from the log and returns the value,
    and guest memory is the same as after the recording, whatever the devices of
    the replaying machine are. *)

From S2P Require Import Prelude CFile CString HostMem RamList Radix PhysPages PhysView RRTypes.
From S2P Require Import PandaCallbacks RRState RRQueue RRFormat RRReplay RRReplayInv RRRecord RRSession.
From S2P Require Import IOMem PhysMem PhysMemFacts.
Local Open Scope Z_scope.
Local Open Scope panda_scope.

(** ** Mapped addresses *)

Definition same_mapped (m m' : hmem) : Prop := ∀ a, is_Some (m !! a) ↔ is_Some (m' !! a).

#[export] Instance same_mapped_equiv : Equivalence same_mapped.
Proof.
  split; [by intros m a|intros m m' E a; by rewrite (E a)|intros m1 m2 m3 E1 E2 a; by rewrite (E1 a)].
Qed.

(** The allocator finds [n] bytes wherever the same addresses are in use. *)
Definition has_room `{HostAlloc} (m : hmem) (n : Z) : Prop :=
  ∀ m' k, same_mapped m m' → 0 ≤ k ≤ n → is_Some (vmalloc_at m' k).

#[export] Instance has_room_proper `{HostAlloc} : Proper (same_mapped ==> eq ==> iff) has_room.
Proof.
  intros m m' E n ? <-. split; intros Hr x k Hx; apply Hr; [by rewrite E|by rewrite <-E].
Qed.

Section Replica.
Context `{TargetPhys} `{TargetEndian} `{Machine} `{HostAlloc} `{!HostAllocLaws} `{PhysSpace} `{!Devices}.

Lemma fresh_unbacked r p n : ram_ok r → unmapped (ram_mem r) p n → unbacked r p n.
Proof.
  intros Hok Hu. eapply Forall_impl; [exact (ro_mapped _ Hok)|]. intros b Hm x Hx Hb.
  destruct (Hm x Hb) as [y Hy]. by rewrite Hu in Hy.
Qed.

(** Memory that backs no RAM can go. *)
Lemma free_unbacked r p n :
  ram_ok r → unbacked r p (Z.of_nat n) →
  let r' := set_ram_mem (mem_unmap (ram_mem r) p n) r in
  ram_ok r' ∧ view_agree (ram_view r') (ram_view r).
Proof.
  intros Hok Hu r'. unfold unbacked in Hu. rewrite Forall_forall in Hu.
  assert (Hin : ∀ b x, b ∈ ram_blocks r → in_range (blk_host b) (blk_length b) x →
      ram_mem r' !! x = ram_mem r !! x).
  { intros b x Hb Hx. simpl. rewrite mem_unmap_lookup, decide_False; [done|]. intros Hx'. by apply (Hu b Hb x). }
  assert (Hok' : ram_ok r').
  { destruct Hok as [? ? Hm ? ? ?]. split; try done. simpl. rewrite Forall_forall in Hm |- *.
    intros b Hb x Hx. specialize (Hin b x Hb Hx). simpl in Hin. rewrite Hin. by apply (Hm b Hb). }
  split; [done|]. intros x Hx. destruct (owner_dec x r) as [(b & Ho)|Hn]; [|by rewrite !ram_view_none].
  rewrite (ram_view_owner r' x b), (ram_view_owner r x b) by done. destruct Ho as [Hb Hr].
  apply (Hin b); [done|]. unfold in_range in *. lia.
Qed.

Lemma keeps_mapped s s1 :
  ram_ok (mm_ram s) → mem_frame s s1 → keeps_unbacked s s1 →
  same_mapped (ram_mem (mm_ram s)) (ram_mem (mm_ram s1)).
Proof.
  intros Hok Hf Hk a.
  destruct (decide (Exists (λ b, blk_host b ≤ a < blk_host b + blk_length b) (ram_blocks (mm_ram s)))) as [He|He].
  - apply Exists_exists in He as (b & Hb & Ha). pose proof (ro_mapped _ Hok) as M1.
    pose proof (ro_mapped _ (mf_ok _ _ Hf)) as M2. rewrite <-(mf_blocks _ _ Hf) in M2.
    rewrite Forall_forall in M1, M2. by split; intros _; [apply (M2 b Hb)|apply (M1 b Hb)].
  - assert (Hu : unbacked (mm_ram s) a (Z.of_nat 1)).
    { apply Forall_forall. intros b Hb x Hx Hx'. apply He, Exists_exists. exists b. split; [done|].
      unfold in_range in *. lia. }
    pose proof (Hk a 1%nat Hu) as E. simpl in E.
    destruct (ram_mem (mm_ram s1) !! a), (ram_mem (mm_ram s) !! a); simpl in E; done.
Qed.

(** ** One recorded write *)

(** A replaying machine, and a range of its RAM that can be written. *)
Record replica_ok (t : mem_state) : Prop := {
  rp_ram : ram_ok (mm_ram t);
  rp_mode : rr_mode (mm_rr t) = RR_REPLAY;
  rp_cbs : callbacks_ok (rr_cbs (mm_rr t));
}.
Record dma_range (t : mem_state) (addr len : Z) : Prop := {
  dr_len : 0 ≤ len < 2 ^ 31;
  dr_addr : 0 ≤ addr ∧ addr + len ≤ 2 ^ phys_width;
  dr_pages : ram_range t addr len;
}.

Lemma dma_range_frame t t1 addr len : mem_frame t t1 → dma_range t addr len → dma_range t1 addr len.
Proof. intros Hf [D1 D2 D3]. split; try done. intros a Ha. eapply frame_page; [done|]. by apply D3. Qed.

Lemma replica_calm t : replica_ok t → rr_calm (mm_rr t).
Proof. intros [_ Hm Hc]. unfold rr_calm. by rewrite Hm. Qed.

(** What a step of the replay leaves: the same machine, with RAM as in [v]. *)
Record replica_step (t t1 : mem_state) (v : view) : Prop := {
  rt_frame : mem_frame t t1;
  rt_rr : mm_rr t1 = mm_rr t;
  rt_mapped : same_mapped (ram_mem (mm_ram t)) (ram_mem (mm_ram t1));
  rt_view : view_agree (ram_view (mm_ram t1)) v;
}.

Lemma replica_step_trans t t1 t2 v w :
  replica_step t t1 v → replica_step t1 t2 w → replica_step t t2 w.
Proof.
  intros [F1 R1 M1 _] [F2 R2 M2 V2]. split; [by eapply mem_frame_trans|congruence|by etrans|done].
Qed.

Lemma replica_step_ok t t1 v : replica_ok t → replica_step t t1 v → replica_ok t1.
Proof. intros [A1 A2 A3] [F R _ _]. split; [apply F|by rewrite R|by rewrite R]. Qed.

Abbreviation written t addr d := (view_write (ram_trans (mm_map t)) (ram_view (mm_ram t)) addr d).

(** The copy of the recorded buffer. *)
Lemma copy_made t d :
  ram_ok (mm_ram t) → has_room (ram_mem (mm_ram t)) (zlen d) →
  ∃ p tA tB, in_ram (qemu_vmalloc (zlen d)) t = Ok p tA ∧ store p d tA = Ok () tB ∧
    mem_frame t tB ∧ mm_rr tB = mm_rr t ∧ unmapped (ram_mem (mm_ram t)) p (zlen d) ∧
    unbacked (mm_ram tB) p (zlen d) ∧ mem_read (ram_mem (mm_ram tB)) p (length d) = Some d ∧
    view_agree (ram_view (mm_ram tB)) (ram_view (mm_ram t)) ∧
    ∀ a, ¬ in_range p (zlen d) a → ram_mem (mm_ram tB) !! a = ram_mem (mm_ram t) !! a.
Proof.
  intros Hok Hroom. destruct (Hroom (ram_mem (mm_ram t)) (zlen d) ltac:(done)) as [p Hp]; [unfold zlen; lia|].
  pose proof (vmalloc_fresh _ _ _ Hp) as Hfr. pose proof (fresh_unbacked _ _ _ Hok Hfr) as Hu.
  set (g := garbage_bytes p (length d)).
  assert (Hg : length g = length d) by (unfold g, garbage_bytes; by rewrite length_fmap, length_seq).
  destruct (store_unbacked (mm_ram t) p g Hok) as [OkA VA]; [by rewrite Hg|]. set (rA := set_ram_mem _ _) in OkA, VA.
  destruct (store_unbacked rA p d OkA Hu) as [OkB VB].
  assert (Hm : mapped (ram_mem rA) p (Z.of_nat (length d))).
  { intros k Hk. simpl. rewrite mem_write_lookup, Hg, decide_True by exact Hk.
    apply lookup_lt_is_Some. rewrite Hg. unfold in_range in Hk. lia. }
  exists p, (set_mm_ram rA t). eexists. split.
  { unfold in_ram, qemu_vmalloc. rewrite bind_gets, Hp. unfold zlen. rewrite Nat2Z.id. reflexivity. }
  split; [apply (store_ok (set_mm_ram rA t) p d Hm)|]. split_and!; try done.
  - apply (mem_frame_trans _ (set_mm_ram rA t)); [by apply frame_store|by apply (frame_store (set_mm_ram rA t))].
  - apply mem_read_write.
  - by eapply view_agree_trans.
  - intros a Ha. simpl. rewrite !mem_write_lookup, Hg. unfold in_range, zlen in Ha. by rewrite !decide_False.
Qed.

Lemma perform_mem_rw depth t addr d :
  replica_ok t → dma_range t addr (zlen d) → has_room (ram_mem (mm_ram t)) (zlen d) →
  ∃ t1, perform_call (S depth) (EvMemRw addr d (zlen d)) t = Ok () t1 ∧ replica_step t t1 (written t addr d).
Proof.
  intros Hrep HD Hroom. pose proof Hrep as [Hok Hmode _]. pose proof HD as [D1 D2 D3].
  destruct (copy_made t d Hok Hroom) as (p & tA & tB & EA & EB & FB & RB & Hfr & HuB & Hd & VB & KB).
  assert (Hn : Z.to_nat (zlen d) = length d) by (unfold zlen; lia).
  assert (HT : transfer_ok tB addr p (zlen d)).
  { split; try done; [apply FB|rewrite RB; by apply replica_calm|].
    intros a Ha. eapply frame_page; [done|]. by apply D3. }
  rewrite <-Hn in Hd.
  destruct (rw_loop_write (perform_call depth) (Z.to_nat (zlen d)) tB addr p (zlen d) d false HT ltac:(lia) Hd)
    as (tC & EC & FC & LC & VC & KC & _).
  destruct (free_unbacked (mm_ram tC) p (length d)) as [OkD VD]; [apply FC|by apply (frame_unbacked tB)|].
  exists (set_mm_ram (set_ram_mem (mem_unmap (ram_mem (mm_ram tC)) p (length d)) (mm_ram tC)) tC). split.
  - cbn [perform_call]. change (Z.of_nat (length d)) with (zlen d).
    rewrite (bind_Ok _ _ _ _ _ EA), (bind_Ok _ _ _ _ _ EB). unfold cpu_physical_memory_rw, cpu_physical_memory_rw_ex.
    replace (int32 (zlen d)) with (zlen d) by (unfold int32, wrap; rewrite Z.mod_small; lia).
    rewrite bind_assoc, (bind_Ok _ _ _ _ _ EC), bind_ret. unfold qemu_vfree, in_ram, modify. by rewrite Hn.
  - split.
    + eapply mem_frame_trans; [exact FB|]. eapply mem_frame_trans; [exact FC|]. by apply frame_store.
    + unfold rr_wrote, logging, rr_in_record in LC. rewrite RB, Hmode in LC. done.
    + pose proof (keeps_mapped tB tC (mf_ok _ _ FB) FC KC) as SC. intros a. simpl. rewrite mem_unmap_lookup.
      destruct (decide (in_range p (Z.of_nat (length d)) a)) as [Ha|Ha]; [by rewrite Hfr|].
      by rewrite <-(SC a), (KB a Ha).
    + eapply view_agree_trans; [exact VD|]. eapply view_agree_trans; [exact VC|].
      rewrite (mf_map _ _ FB). by apply view_write_agree.
Qed.

(** ** The entries of a write

    One entry for each page, with all the data that was left: replaying the later
    ones writes the same bytes again. *)

Definition is_mem_rw (k : log_call) : Prop := match k with LMemRw _ _ _ => True | _ => False end.

Lemma dma_calls_rw n : ∀ addr buf d, Forall is_mem_rw (dma_calls n addr buf d).
Proof. induction n as [|n IH]; intros addr buf [|b d]; cbn [dma_calls]; by constructor. Qed.

Lemma call_events_rw c ks : ∀ tr, Forall is_mem_rw ks → call_events c tr ks = tr ++ (call_event c [] <$> ks).
Proof.
  induction ks as [|k ks IH]; intros tr Hks; cbn [call_events]; [by rewrite app_nil_r|].
  apply Forall_cons in Hks as [Hk Hks]. rewrite IH by done. rewrite <-app_assoc. by destruct k.
Qed.

Lemma perform_calls_app f es1 : ∀ es2 (t : mem_state),
  perform_calls f (es1 ++ es2) t = (perform_calls f es1;; perform_calls f es2) t.
Proof.
  induction es1 as [|e es1 IH]; intros es2 t; [done|]. cbn [app perform_calls].
  rewrite bind_assoc. apply bind_ext. intros [] t1 _. apply IH.
Qed.

Lemma perform_dma depth c n : ∀ t addr buf d,
  replica_ok t → dma_range t addr (zlen d) → has_room (ram_mem (mm_ram t)) (zlen d) →
  zlen d ≤ Z.of_nat n →
  ∃ t1, perform_calls (perform_call (S depth)) (call_event c [] <$> dma_calls n addr buf d) t = Ok () t1 ∧
    replica_step t t1 (written t addr d).
Proof.
  assert (Hnil : ∀ t addr, replica_ok t → replica_step t t (written t addr [])).
  { intros t addr [A _ _]. split; try done. by apply mem_frame_refl. }
  induction n as [|n IH]; intros t addr buf d Hrep HD Hroom Hn.
  { destruct d; [|unfold zlen in Hn; simpl in Hn; lia]. eauto. }
  destruct d as [|b d']; [eauto|]. cbn [dma_calls]. set (d := b :: d') in *. rewrite fmap_cons.
  cbn [perform_calls call_event]. pose proof HD as [D1 D2 D3].
  destruct (perform_mem_rw depth t addr d Hrep HD Hroom) as (t1 & E1 & S1). rewrite (bind_Ok _ _ _ _ _ E1).
  assert (Hpos : 0 < zlen d) by (unfold d, zlen; simpl; lia). destruct (chunk_pos addr (zlen d) Hpos) as [Hl1 Hl2].
  set (l := chunk addr (zlen d)) in *. set (d2 := drop (Z.to_nat l) d).
  assert (Hz : zlen d2 = zlen d - l) by (unfold d2, zlen in *; rewrite length_drop; lia).
  pose proof S1 as [F1 _ M1 V1].
  destruct (IH t1 (addr + l) (buf + l) d2) as (t2 & E2 & S2).
  - by eapply replica_step_ok.
  - apply (dma_range_frame t); [done|]. split; [lia|lia|]. intros a Ha. apply D3. unfold in_range in *. lia.
  - rewrite <-M1. intros m k Hm Hk. apply Hroom; [done|lia].
  - lia.
  - exists t2. split; [done|]. pose proof (replica_step_trans _ _ _ _ _ S1 S2) as [F M R V]. split; try done.
    eapply view_agree_trans; [exact V|]. rewrite (mf_map _ _ F1). eapply view_agree_trans; [by apply view_write_agree|].
    intros x _. assert (Hsp : d = take (Z.to_nat l) d ++ d2) by (symmetry; apply take_drop).
    rewrite Hsp at 1. replace (addr + l) with (addr + Z.of_nat (length (take (Z.to_nat l) d)))
      by (rewrite length_take; unfold zlen in *; lia).
    rewrite view_write_again. by rewrite <-Hsp.
Qed.

(** ** A device call: any number of writes, and a value *)

Record dma_write := mkDma { dma_addr : Z; dma_buf : Z; dma_data : list byte }.

Definition dma_entries (w : dma_write) : list log_call :=
  dma_calls (Z.to_nat (zlen (dma_data w))) (dma_addr w) (dma_buf w) (dma_data w).
Definition dma_log (ws : list dma_write) : list log_call := concat (dma_entries <$> ws).

Fixpoint dma_view (tr : Z → option Z) (v : view) (ws : list dma_write) : view :=
  match ws with
  | [] => v
  | w :: ws' => dma_view tr (view_write tr v (dma_addr w) (dma_data w)) ws'
  end.

Lemma dma_view_agree tr ws : ∀ v w, view_agree v w → view_agree (dma_view tr v ws) (dma_view tr w ws).
Proof. induction ws as [|x ws IH]; intros v w Ha; cbn [dma_view]; [done|]. by apply IH, view_write_agree. Qed.

Lemma dma_log_rw ws : Forall is_mem_rw (dma_log ws).
Proof.
  induction ws as [|w ws IH]; [constructor|]. unfold dma_log. rewrite fmap_cons. simpl.
  apply Forall_app. split; [apply dma_calls_rw|exact IH].
Qed.

Lemma dma_log_map c ws : ∀ tr, calls_map c tr (dma_log ws).
Proof.
  generalize (dma_log_rw ws). generalize (dma_log ws) as ks. clear ws.
  induction ks as [|k ks IH]; intros Hks tr; [done|]. apply Forall_cons in Hks as [Hk Hks].
  split; [by destruct k|by apply IH].
Qed.

Definition target_ok (t : mem_state) (w : dma_write) : Prop :=
  dma_range t (dma_addr w) (zlen (dma_data w)) ∧ has_room (ram_mem (mm_ram t)) (zlen (dma_data w)).

Lemma perform_dma_log depth c ws : ∀ t,
  replica_ok t → Forall (target_ok t) ws →
  ∃ t1, perform_calls (perform_call (S depth)) (call_event c [] <$> dma_log ws) t = Ok () t1 ∧
    replica_step t t1 (dma_view (ram_trans (mm_map t)) (ram_view (mm_ram t)) ws).
Proof.
  induction ws as [|w ws IH]; intros t Hrep Hws.
  { exists t. split; [done|]. split; try done. by apply mem_frame_refl, Hrep. }
  apply Forall_cons in Hws as [[HD Hroom] Hws]. unfold dma_log. rewrite fmap_cons. cbn [concat].
  rewrite fmap_app, perform_calls_app. fold (dma_log ws).
  destruct (perform_dma depth c (Z.to_nat (zlen (dma_data w))) t (dma_addr w) (dma_buf w) (dma_data w) Hrep HD Hroom) as (t1 & E1 & S1);
    [by rewrite Z2Nat.id by apply HD|].
  unfold dma_entries. rewrite (bind_Ok _ _ _ _ _ E1). pose proof S1 as [F1 R1 M1 V1].
  destruct (IH t1) as (t2 & E2 & S2); [by eapply replica_step_ok| |].
  { eapply Forall_impl; [exact Hws|]. intros x [Hx1 Hx2]. split; [by apply (dma_range_frame t)|by rewrite <-M1]. }
  exists t2. split; [done|]. pose proof (replica_step_trans _ _ _ _ _ S1 S2) as [F R M V]. split; try done.
  eapply view_agree_trans; [exact V|]. rewrite (mf_map _ _ F1). cbn [dma_view]. by apply dma_view_agree.
Qed.

(** The device of the recording machine: its buffers are not guest RAM. *)
Section Device.
Variable perform : rr_event → MM ().

Fixpoint do_dma (ws : list dma_write) : MM () :=
  match ws with
  | [] => mret ()
  | w :: ws' =>
      cpu_physical_memory_rw perform (dma_addr w) (dma_buf w) (zlen (dma_data w)) true;; do_dma ws'
  end.

Record source_ok (s : mem_state) (w : dma_write) : Prop := {
  so_range : dma_range s (dma_addr w) (zlen (dma_data w));
  so_unbacked : unbacked (mm_ram s) (dma_buf w) (zlen (dma_data w));
  so_data : mem_read (ram_mem (mm_ram s)) (dma_buf w) (Z.to_nat (zlen (dma_data w))) = Some (dma_data w);
}.

Lemma source_frame s s1 w : mem_frame s s1 → keeps_unbacked s s1 → source_ok s w → source_ok s1 w.
Proof.
  intros Hf Hk [S1 S2 S3]. split; [by apply (dma_range_frame s)|by apply (frame_unbacked s)|].
  rewrite Hk; [done|]. rewrite Z2Nat.id; [done|apply S1].
Qed.

Lemma wrote_then r r1 r2 cs1 cs2 :
  rr_wrote r r1 (site_item r <$> cs1) → rr_wrote r1 r2 (site_item r1 <$> cs2) →
  rr_wrote r r2 (site_item r <$> cs1 ++ cs2).
Proof.
  intros W1 W2. rewrite fmap_app. eapply rr_wrote_trans; [done|]. unfold rr_wrote in W1.
  destruct (logging r); [|by subst]. destruct W1 as [_ P S _ _]. unfold site_item in W2. by rewrite P, S in W2.
Qed.

Lemma do_dma_ok ws : ∀ s,
  ram_ok (mm_ram s) → rr_calm (mm_rr s) → Forall (source_ok s) ws →
  ∃ s1, do_dma ws s = Ok () s1 ∧ mem_frame s s1 ∧
    rr_wrote (mm_rr s) (mm_rr s1) (site_item (mm_rr s) <$> dma_log ws) ∧
    view_agree (ram_view (mm_ram s1)) (dma_view (ram_trans (mm_map s)) (ram_view (mm_ram s)) ws).
Proof.
  induction ws as [|w ws IH]; intros s Hok Hc Hws.
  { exists s. split_and!; [done|by apply mem_frame_refl|by apply rr_wrote_refl|done]. }
  apply Forall_cons in Hws as [[[D1 D2 D3] Hu Hd] Hws]. cbn [do_dma].
  destruct (rw_loop_write perform (Z.to_nat (zlen (dma_data w))) s (dma_addr w) (dma_buf w) (zlen (dma_data w)) (dma_data w) false)
    as (s1 & E1 & F1 & L1 & V1 & K1 & _); [by split|lia|done|].
  unfold cpu_physical_memory_rw, cpu_physical_memory_rw_ex. rewrite bind_assoc, (bind_Ok _ _ _ _ _ E1), bind_ret.
  destruct (IH s1) as (s2 & E2 & F2 & L2 & V2).
  - apply F1.
  - by eapply rr_wrote_calm.
  - eapply Forall_impl; [exact Hws|]. intros x. by apply source_frame.
  - exists s2. split; [done|]. split; [by eapply mem_frame_trans|]. split; [by eapply wrote_then|].
    eapply view_agree_trans; [exact V2|]. rewrite (mf_map _ _ F1). cbn [dma_view]. by apply dma_view_agree.
Qed.

(** ** The macro while recording *)

(** The entries of a device call that returned [v] at the point [pp]. *)
Definition call_items (pp : RR_prog_point) (loc : Z) (ks : list log_call) : list log_item :=
  (λ k, mkItem pp loc (LCall k)) <$> ks.
Definition device_items (pp : RR_prog_point) (loc : RR_callsite_id) (n : input_size) (ws : list dma_write) (v : Z)
    : list log_item :=
  call_items pp (callsite_Z loc) (dma_log ws) ++ [mkItem pp (callsite_Z loc) (input_body n v)].

(** The file of the log grew by [items]. *)
Definition log_grew (r r1 : rr_state) (items : list log_item) : Prop :=
  ∃ l f l1 f1, recording r l f ∧ recording r1 l1 f1 ∧ f_name f1 = f_name f ∧
    h_data (rr_host r1) (f_name f) = h_data (rr_host r) (f_name f) ++ concat (item_bytes <$> items).

#[local] Opaque item_bytes.

Lemma recording_ext r r' l f :
  recording r l f → rr_mode r' = rr_mode r → rr_nondet_log r' = rr_nondet_log r → rr_host r' = rr_host r →
  recording r' l f.
Proof. intros [] E1 E2 E3. split; congruence. Qed.

Lemma recording_file r l f l' f' : recording r l f → recording r l' f' → f_name f' = f_name f.
Proof.
  intros [_ L1 P1 _ _] [_ L2 P2 _ _]. rewrite L1 in L2. injection L2 as <-. rewrite P1 in P2. by injection P2 as <-.
Qed.

Lemma log_grew_trans r r1 r2 xs ys : log_grew r r1 xs → log_grew r1 r2 ys → log_grew r r2 (xs ++ ys).
Proof.
  intros (l & f & l1 & f1 & Ra & Rb & En & Ed) (l1' & f1' & l2 & f2 & Rc & Rd & En' & Ed').
  pose proof (recording_file _ _ _ _ _ Rb Rc) as Ef. exists l, f, l2, f2. split_and!; try done; [congruence|].
  rewrite Ef, En in Ed'. by rewrite Ed', Ed, fmap_app, concat_app, app_assoc.
Qed.

(** Recording the value of the device. *)
Lemma value_recorded r n v loc :
  rr_skipped_callsite_location r = callsite_Z loc → (∃ l f, recording r l f) →
  ∃ r1, (rr_input n v;; mret ()) r = Ok () r1 ∧
    log_grew r r1 [mkItem (rr_prog_point r) (callsite_Z loc) (input_body n v)].
Proof.
  intros Hs (l & f & Hr). rewrite rr_input_record by apply Hr. rewrite Hs.
  set (x := match n with In1 => _ | _ => _ end). assert (Hx : variant_ok x) by (by destruct n).
  rewrite (record_item_ok r l f _ x Hr Hx). eexists. split; [reflexivity|].
  destruct (recorded_recording r l f (callsite_Z loc) x Hr) as (l1 & f1 & Hr1 & _ & _ & En & _ & Ed).
  exists l, f, l1, f1. split_and!; try done. rewrite Ed. simpl. rewrite app_nil_r. f_equal. f_equal.
  unfold recorded_item. rewrite wrap8_callsite. f_equal. by destruct n.
Qed.

Lemma dma_recorded ws s n v loc :
  ram_ok (mm_ram s) → Forall (source_ok s) ws →
  (∃ l f, recording (mm_rr s) l f) → rr_record_in_progress (mm_rr s) = false → cpu_single_env (mm_rr s) = true →
  ∃ s1, mm_record_or_replay perform (do_dma ws;; mret v) (λ v, rr_input n v;; mret ()) (rr_input n 0)
      (callsite_Z loc) s = Ok v s1 ∧
    log_grew (mm_rr s) (mm_rr s1) (device_items (pp_of (first_cpu (mm_rr s))) loc n ws v) ∧
    rr_record_in_progress (mm_rr s1) = false ∧ ram_ok (mm_ram s1) ∧ mm_map s1 = mm_map s ∧
    view_agree (ram_view (mm_ram s1)) (dma_view (ram_trans (mm_map s)) (ram_view (mm_ram s)) ws).
Proof.
  intros Hok Hws (l & f & Hr) Hn Hcpu. unfold mm_record_or_replay. rewrite bind_gets, (rec_mode _ _ _ Hr), bind_gets, Hn.
  do 2 (erewrite bind_in_rr; [|reflexivity]). erewrite bind_in_rr; [|by apply set_point_ok].
  set (pp := pp_of _). match goal with |- ∃ s1, _ ?st = _ ∧ _ => set (sA := st) end.
  assert (HrA : recording (mm_rr sA) l f) by (by eapply recording_ext).
  destruct (do_dma_ok ws sA Hok) as (sB & EB & FB & LB & VB).
  { unfold rr_calm. rewrite (rec_mode _ _ _ HrA). eauto. }
  { eapply Forall_impl; [exact Hws|]. intros w [[? ? ?] ? ?]. split; [by split|done..]. }
  rewrite bind_assoc, (bind_Ok _ _ _ _ _ EB), bind_ret.
  assert (Hlog : logging (mm_rr sA) = true) 
    by (unfold logging, rr_in_record; by rewrite bool_decide_true by apply HrA).
  unfold rr_wrote in LB. rewrite Hlog in LB. destruct LB as [_ BP BS _ BF].
  destruct (value_recorded (mm_rr sB) n v loc) as (r2 & E2 & G2); [by rewrite BS|destruct BF as (? & ? & ? & ? & ? & ? & _); eauto|].
  rewrite (bind_in_rr _ _ _ _ _ E2). erewrite bind_in_rr; [|reflexivity].
  pose proof (log_grew_trans _ _ _ _ _ BF G2) as (l0 & f0 & l2 & f2 & R0 & R2 & En & Ed).
  eexists. split; [reflexivity|]. split.
  { exists l0, f0, l2, f2. split_and!; [by eapply recording_ext|by eapply recording_ext|done|].
    simpl. rewrite Ed. unfold device_items, call_items. simpl. rewrite BP. f_equal. do 3 f_equal.
    apply list_fmap_ext. intros _ k _. unfold site_item. simpl. by rewrite wrap8_callsite. }
  split_and!; [done|apply FB|apply FB|exact VB].
Qed.

End Device.

(** ** The macro while replaying *)

Lemma take_call_items pp loc ks tail :
  take_calls pp tail = ([], tail) → take_calls pp (call_items pp loc ks ++ tail) = (ks, tail).
Proof.
  intros Ht. induction ks as [|k ks IH]; [done|]. unfold call_items. rewrite fmap_cons, <-app_comm_cons. cbn [take_calls].
  fold (call_items pp loc ks). by rewrite pp_here_refl, IH.
Qed.

(** The calls of the point are taken from the log. *)
Lemma calls_taken r pp loc ks tail :
  rep_state r (call_items pp loc ks ++ tail) → rr_prog_point r = pp →
  not_past pp tail → take_calls pp tail = ([], tail) → calls_map (rr_cbs r) (rr_trace r) ks →
  ∃ r1, rr_replay_skipped_calls r = Ok () r1 ∧ rep_state r1 tail ∧ rr_prog_point r1 = pp ∧
    rr_cbs r1 = rr_cbs r ∧ rr_skipped_callsite_location r1 = rr_skipped_callsite_location r ∧
    rr_trace r1 = call_events (rr_cbs r) (rr_trace r) ks.
Proof.
  intros [Hi Hc Hcb] Hpp Hn Ht Hm. unfold rr_replay_skipped_calls. rewrite bind_gets.
  pose proof (replay_calls_ok (rr_skipped_callsite_location r) r _ Hi Hcb) as Hr.
  rewrite Hpp, (take_call_items _ _ _ _ Ht) in Hr. destruct (Hr Hm Hn) as (r1 & E & Hi1 & Hf).
  destruct (frame_tr_rep_same _ _ _ Hf) as ((E1 & E2 & E3 & E4 & E5) & Etr & Epp & Eloc).
  exists r1. split; [done|]. split; [split; [done|by rewrite E4|by rewrite E1]|]. split_and!; congruence.
Qed.

Lemma set_point_replay r pend :
  rep_state r pend →
  ∃ r1, rr_set_program_point r = Ok () r1 ∧ rep_state r1 pend ∧ rr_prog_point r1 = pp_of (first_cpu r) ∧
    rr_cbs r1 = rr_cbs r ∧ rr_trace r1 = rr_trace r ∧
    rr_skipped_callsite_location r1 = rr_skipped_callsite_location r.
Proof.
  intros [Hi Hc Hcb]. rewrite (set_point_ok _ Hc). eexists. split; [reflexivity|]. split; [|done].
  split; [|done..]. by apply (replay_inv_point r pend (pp_of (first_cpu r))).
Qed.

Lemma dma_performed {A} depth ws t n v loc rest (action : MM Z) (ra : Z → RR A) :
  rep_state (mm_rr t) (device_items (pp_of (first_cpu (mm_rr t))) loc n ws v ++ rest) →
  ram_ok (mm_ram t) → Forall (target_ok t) ws →
  ∃ t1, mm_record_or_replay (perform_call (S depth)) action (λ v, ra v;; mret ()) (rr_input n 0)
      (callsite_Z loc) t = Ok v t1 ∧
    rep_state (mm_rr t1) rest ∧ ram_ok (mm_ram t1) ∧ mm_map t1 = mm_map t ∧
    view_agree (ram_view (mm_ram t1)) (dma_view (ram_trans (mm_map t)) (ram_view (mm_ram t)) ws).
Proof.
  intros Hrep Hok Hws. set (pp := pp_of _) in *. unfold mm_record_or_replay.
  rewrite bind_gets, (replay_inv_mode _ _ (ps_inv _ _ Hrep)). erewrite bind_in_rr; [|reflexivity].
  set (r0 := set_rr_skipped_callsite_location _ _). unfold device_items in Hrep. rewrite <-app_assoc in Hrep.
  set (tail := [_] ++ rest) in Hrep.
  assert (Hr0 : rep_state r0 (call_items pp (callsite_Z loc) (dma_log ws) ++ tail)) by (by eapply rep_state_ext).
  destruct (set_point_replay r0 _ Hr0) as (r1 & E1 & Hr1 & P1 & C1 & T1 & S1).
  change (rr_skipped_callsite_location r0) with (callsite_Z loc) in S1.
  erewrite bind_in_rr; [|exact E1]. rewrite bind_gets.
  destruct (calls_taken r1 pp (callsite_Z loc) (dma_log ws) tail Hr1 P1) as (r2 & E2 & Hr2 & P2 & C2 & S2 & T2).
  { intros i [= <-]. apply here_not_ahead, pp_here_refl. }
  { by destruct n. }
  { apply dma_log_map. }
  erewrite bind_in_rr; [|exact E2]. rewrite bind_gets. cbn [mm_rr set_mm_rr].
  rewrite T2, call_events_rw by apply dma_log_rw. rewrite drop_app_length.
  match goal with |- ∃ t1, _ ?st = _ ∧ _ => set (tA := st) end.
  destruct (perform_dma_log depth (rr_cbs r1) ws tA) as (tB & EB & [FB RB _ VB]).
  { split; [done|by eapply replay_inv_mode, Hr2|apply Hr2]. }
  { eapply Forall_impl; [exact Hws|]. intros w [[? ? ?] ?]. split; [by split|done]. }
  rewrite (bind_Ok _ _ _ _ _ EB). change (mm_rr tA) with r2 in RB.
  destruct (replay_input_ok r2 n v pp (callsite_Z loc) rest) as (r3 & E3 & Hi3 & F3);
    [apply Hr2|rewrite P2; apply pp_here_refl|].
  exists (set_mm_rr r3 tB). split.
  { unfold in_rr. rewrite RB, rr_input_replay by (by eapply replay_inv_mode, Hr2). rewrite S2, S1. by rewrite E3. }
  split; [by eapply frame_rep_state|]. split_and!; [apply FB|apply FB|exact VB].
Qed.

(** ** The theorem *)

(** C2. A device call recorded on one machine and replayed on another. While it is
    recorded the device writes guest memory any number of times and returns [v]:
    exactly its writes and [v] go to the log. The replay at the same point of the
    guest, whatever the device there would do, returns [v], leaves the entries
    behind the call in the log, and its guest memory is that of the recording. *)
Theorem device_call_replayed perform depth s t ws n v loc rest (action : MM Z) :
  ram_ok (mm_ram s) → Forall (source_ok s) ws → (∃ l f, recording (mm_rr s) l f) →
  rr_record_in_progress (mm_rr s) = false → cpu_single_env (mm_rr s) = true →
  let items := device_items (pp_of (first_cpu (mm_rr s))) loc n ws v in
  rep_state (mm_rr t) (items ++ rest) → pp_of (first_cpu (mm_rr t)) = pp_of (first_cpu (mm_rr s)) →
  ram_ok (mm_ram t) → Forall (target_ok t) ws →
  mm_map t = mm_map s → view_agree (ram_view (mm_ram t)) (ram_view (mm_ram s)) →
  ∃ s1 t1,
    mm_record_or_replay perform (do_dma perform ws;; mret v) (λ v, rr_input n v;; mret ()) (rr_input n 0)
      (callsite_Z loc) s = Ok v s1 ∧
    log_grew (mm_rr s) (mm_rr s1) items ∧
    mm_record_or_replay (perform_call (S depth)) action (λ v, rr_input n v;; mret ()) (rr_input n 0)
      (callsite_Z loc) t = Ok v t1 ∧
    rep_state (mm_rr t1) rest ∧ mm_map t1 = mm_map s1 ∧
    view_agree (ram_view (mm_ram t1)) (ram_view (mm_ram s1)).
Proof.
  intros Hs Hws Hrec Hn Hcpu items Hrep Hpp Ht Hwt Hmap Hv.
  destruct (dma_recorded perform ws s n v loc Hs Hws Hrec Hn Hcpu) as (s1 & E1 & G1 & _ & _ & M1 & V1).
  unfold items in Hrep. rewrite <-Hpp in Hrep.
  destruct (dma_performed depth ws t n v loc rest action (rr_input n) Hrep Ht Hwt) as (t1 & E2 & R2 & _ & M2 & V2).
  exists s1, t1. split_and!; try done; [congruence|]. eapply view_agree_trans; [exact V2|]. rewrite Hmap.
  eapply view_agree_trans; [by apply dma_view_agree|]. intros x Hx. symmetry. by apply V1.
Qed.

End Replica.
