(* ===== verification/PhysReplayExamples.v ===== *)
(** * A device call recorded and replayed: a concrete machine

    The machine of [PhysMemExamples]; its device writes three bytes across a page
    boundary and returns 7. *)

From S2P Require Import Prelude CFile CString HostMem RamList Radix PhysPages PhysView RRTypes.
From S2P Require Import PandaCallbacks RRState RRQueue RRFormat RRReplay RRReplayInv RRRecord RRSession.
From S2P Require Import IOMem PhysMem PhysMemFacts PhysReplay PhysMemExamples.
Import PhysMemExamples.
Local Open Scope Z_scope.

Module PhysReplayExamples.

Definition ws : list dma_write := [mkDma 4095 1000 demo_data].
Definition cpu : cpu_env := mkCpu 4096 0 12.
Definition items : list log_item := device_items (pp_of cpu) RR_CALLSITE_LDL_PHYS In4 ws 7.

Definition with_rr (r : rr_state) : mem_state :=
  mkMM _ r demo_ram (set_l1_phys_map demo_map io_start) (mkBounce None 0 0) [] 0 [].

Definition run {S} (m : M S ()) (s : S) : S := match m s with Ok _ s' => s' | Err _ s' => s' end.

(** The recording machine, its log just created. *)
Definition recorder : rr_state :=
  set_rr_mode RR_RECORD (set_cpu_single_env true
    (run (rr_create_record_log "rec") (rr_init (Host ∅ ∅) cpu cb_init))).

Lemma recorder_records : ∃ l f, recording recorder l f.
Proof.
  destruct (create_record_log_ok (rr_init (Host ∅ ∅) cpu cb_init) "rec") as (s' & E & _ & Hr); [done|].
  destruct (Hr recorder) as (l & f & _ & Hrec & _); [done| | |eauto]; unfold recorder, run; by rewrite E.
Qed.

(** The replaying machine, a log with [its] just opened. *)
Definition log_host (its : list log_item) : host :=
  Host {[ "rec" := pp_bytes (pp_of cpu) ++ concat (item_bytes <$> its) ]} ∅.
Definition replayer (its : list log_item) : rr_state :=
  set_rr_mode RR_REPLAY (set_cpu_single_env true (run (rr_create_replay_log "rec") (rr_init (log_host its) cpu cb_init))).

Lemma replayer_replays its :
  Forall wf_item its → in_width 64 (24 + zlen (concat (item_bytes <$> its))) → rep_state (replayer its) (its ++ []).
Proof.
  intros Hwf Hsize. rewrite app_nil_r.
  destruct (create_replay_log_ok (rr_init (log_host its) cpu cb_init) "rec" (pp_of cpu) its) as (l & E & _ & Hat); [|done..|].
  - apply (bool_decide_unpack _). by vm_compute.
  - assert (Er : replayer its = set_rr_mode RR_REPLAY (set_cpu_single_env true
      (set_rr_nondet_log (Some l) (rr_init (log_host its) cpu cb_init)))) by (unfold replayer, run; by rewrite E).
    rewrite Er. split; [|done|by exists (replicate PANDA_CB_LAST []); apply cb_init_rep].
    exists [], its. split; [done|]. split; [|by split].
    exists l, (mkFILE "rec" 24 false), [], []. split; [destruct Hat; by split|]. split_and!; [done| |done|constructor].
    split; [done..|constructor| | |].
    + intros x [y Hy]. change (q_heap _) with (∅ : gmap loc qnode) in Hy. by rewrite lookup_empty in Hy.
    + vm_compute. done.
    + by vm_compute.
Qed.

Lemma items_replay : rep_state (replayer items) (items ++ []).
Proof. apply replayer_replays; apply (bool_decide_unpack _); by vm_compute. Qed.

Lemma top_of_bound m B : 0 ≤ B → (∀ k b, m !! k = Some b → k ≤ B) → top_of m ≤ B.
Proof.
  intros HB. unfold top_of. apply (map_fold_weak_ind (λ r m, (∀ k b, m !! k = Some b → k ≤ B) → r ≤ B)); [done|].
  intros i x m' r Hi IH Hm. apply Z.max_lub; [by apply (Hm i x); rewrite lookup_insert_eq|].
  apply IH. intros k b Hk. apply (Hm k b). rewrite lookup_insert_ne; [done|]. intros ->. congruence.
Qed.

Lemma demo_mem_bound k : is_Some (demo_mem !! k) → k ≤ 2 ^ 20.
Proof.
  unfold demo_mem. rewrite !mem_write_lookup, lookup_empty. change (length demo_word) with 4%nat.
  change (length demo_data) with 3%nat. unfold zero_bytes. rewrite length_replicate.
  repeat case_decide; intros [x Hx]; try done; lia.
Qed.

Lemma demo_room : has_room demo_mem 3.
Proof.
  intros m k Hm Hk. simpl. destruct (Z.ltb_spec (top_of m + 1 + k) (2 ^ 64)) as [|Hge]; [by eexists|].
  pose proof (top_of_bound m (2 ^ 20) ltac:(done)) as Hb. exfalso.
  assert (top_of m ≤ 2 ^ 20); [|lia]. apply Hb. intros a b Ha. apply demo_mem_bound, Hm. by eexists.
Qed.

Lemma demo_source : Forall (source_ok (with_rr recorder)) ws.
Proof.
  constructor; [|constructor]. destruct demo_transfer as [_ _ T3 T4 T5 T6]. split; [by split|done|].
  vm_compute. reflexivity.
Qed.

Lemma demo_target : Forall (target_ok (with_rr (replayer items))) ws.
Proof.
  constructor; [|constructor]. destruct demo_transfer as [_ _ T3 T4 T5 T6]. split; [by split|apply demo_room].
Qed.

(** On the replaying machine the device would stop the process. *)
Lemma device_call_replayed_witness :
  ∃ s1 t1,
    mm_record_or_replay no_call (do_dma no_call ws;; mret 7) (λ v, rr_input In4 v;; mret ()) (rr_input In4 0)
      (callsite_Z RR_CALLSITE_LDL_PHYS) (with_rr recorder) = Ok 7 s1 ∧
    mm_record_or_replay (perform_call 1) (fail Abort) (λ v, rr_input In4 v;; mret ()) (rr_input In4 0)
      (callsite_Z RR_CALLSITE_LDL_PHYS) (with_rr (replayer items)) = Ok 7 t1 ∧
    view_agree (ram_view (mm_ram t1)) (ram_view (mm_ram s1)).
Proof.
  destruct (device_call_replayed no_call 0 (with_rr recorder) (with_rr (replayer items)) ws In4 7 RR_CALLSITE_LDL_PHYS []
    (fail Abort) demo_ram_ok demo_source recorder_records eq_refl eq_refl items_replay eq_refl demo_ram_ok
    demo_target eq_refl ltac:(by intros x)) as (s1 & t1 & E1 & _ & E2 & _ & _ & V).
  exists s1, t1. split; [exact E1|]. split; [exact E2|exact V].
Defined.

End PhysReplayExamples.
