(* ===== verification/Int128.v ===== *)
(** * 128-bit integers ([int128.h])

    A signed 128-bit integer is a pair of 64-bit halves. [i128] is its value; the
    operations are those of [Z] as long as nothing overflows, which is how the
    rest of the development uses them. *)

From S2P Require Import Prelude.
Local Open Scope Z_scope.

Record Int128 := mkI128 { lo : Z; hi : Z }.

#[export] Instance Int128_eq_dec : EqDecision Int128.
Proof. solve_decision. Defined.

(** [int64_t] arithmetic wraps around. *)
Definition int64 (z : Z) : Z := wrap 64 (z + 2 ^ 63) - 2 ^ 63.

Definition int128_make64 (a : Z) : Int128 := mkI128 a 0.
(** Asserts that the value fits. *)
Definition int128_get64 (a : Int128) : option Z := if hi a =? 0 then Some (lo a) else None.
Definition int128_zero : Int128 := int128_make64 0.
Definition int128_one : Int128 := int128_make64 1.
Definition int128_2_64 : Int128 := mkI128 0 1.

Definition int128_add (a b : Int128) : Int128 :=
  let l := wrap 64 (lo a + lo b) in
  mkI128 l (int64 (int64 (hi a + hi b) + Z.b2z ((l <? lo a) || (l <? lo b)))).
Definition int128_neg (a : Int128) : Int128 :=
  int128_add (mkI128 (wrap 64 (Z.lnot (lo a))) (Z.lnot (hi a))) int128_one.
Definition int128_sub (a b : Int128) : Int128 := int128_add a (int128_neg b).
Definition int128_nonneg (a : Int128) : bool := 0 <=? hi a.
Definition int128_eq (a b : Int128) : bool := (lo a =? lo b) && (hi a =? hi b).
Definition int128_ne (a b : Int128) : bool := negb (int128_eq a b).
Definition int128_ge (a b : Int128) : bool := int128_nonneg (int128_sub a b).
Definition int128_lt (a b : Int128) : bool := negb (int128_ge a b).
Definition int128_le (a b : Int128) : bool := int128_ge b a.
Definition int128_gt (a b : Int128) : bool := negb (int128_le a b).
Definition int128_nz (a : Int128) : bool := negb (lo a =? 0) || negb (hi a =? 0).
Definition int128_min (a b : Int128) : Int128 := if int128_le a b then a else b.
Definition int128_max (a b : Int128) : Int128 := if int128_ge a b then a else b.

(** ** Values *)

Definition i128 (a : Int128) : Z := lo a + 2 ^ 64 * hi a.
Definition i128_ok (a : Int128) : Prop := in_width 64 (lo a) ∧ - 2 ^ 63 ≤ hi a < 2 ^ 63.
(** Far enough from the bounds for a sum or a difference. *)
Definition i128_small (a : Int128) : Prop := i128_ok a ∧ - 2 ^ 126 ≤ i128 a < 2 ^ 126.

Lemma int64_small z : - 2 ^ 63 ≤ z < 2 ^ 63 → int64 z = z.
Proof. intros Hz. unfold int64. rewrite wrap_small; unfold in_width; lia. Qed.

Lemma i128_inj a b : i128_ok a → i128_ok b → i128 a = i128 b → a = b.
Proof.
  destruct a as [la ha], b as [lb hb]. unfold i128_ok, i128, in_width. simpl. intros [Ha _] [Hb _] E.
  assert (ha = hb) by lia. f_equal; lia.
Qed.

(** The carry out of the low half. *)
Lemma add_carry x y :
  in_width 64 x → in_width 64 y →
  let l := wrap 64 (x + y) in
  in_width 64 l ∧ x + y = l + 2 ^ 64 * Z.b2z ((l <? x) || (l <? y)).
Proof.
  intros Hx Hy l. unfold in_width in *. unfold l, wrap. destruct (Z_lt_le_dec (x + y) (2 ^ 64)) as [Hs|Hs].
  - rewrite Z.mod_small by lia. rewrite !(proj2 (Z.ltb_ge _ _)) by lia. simpl. lia.
  - replace ((x + y) mod 2 ^ 64) with (x + y - 2 ^ 64) by (apply (Z.mod_unique _ _ 1); lia).
    rewrite (proj2 (Z.ltb_lt _ x)) by lia. simpl. lia.
Qed.

Lemma i128_add a b :
  i128_ok a → i128_ok b → - 2 ^ 127 ≤ i128 a + i128 b < 2 ^ 127 →
  i128 (int128_add a b) = i128 a + i128 b ∧ i128_ok (int128_add a b).
Proof.
  destruct a as [la ha], b as [lb hb]. unfold i128_ok, i128, int128_add. cbn [lo hi]. intros [Ha Ha'] [Hb Hb'] Hs.
  destruct (add_carry la lb Ha Hb) as [Hl He]. set (c := Z.b2z _) in *. set (l := wrap 64 (la + lb)) in *.
  assert (Hc : 0 ≤ c ≤ 1) by (unfold c; destruct (_ || _); simpl; lia). unfold in_width in *.
  assert (Hi : int64 (int64 (ha + hb) + c) = ha + hb + c).
  { unfold int64, wrap.
    replace ((ha + hb + 2 ^ 63) mod 2 ^ 64 - 2 ^ 63 + c + 2 ^ 63) with ((ha + hb + 2 ^ 63) mod 2 ^ 64 + c) by lia.
    rewrite Zplus_mod_idemp_l, Z.mod_small; lia. }
  rewrite Hi. lia.
Qed.

Lemma i128_neg a : i128_ok a → - 2 ^ 127 < i128 a → i128 (int128_neg a) = - i128 a ∧ i128_ok (int128_neg a).
Proof.
  destruct a as [la ha]. intros [Hl Hh] Hmin. unfold int128_neg. cbn [lo hi] in *.
  assert (Hnl : wrap 64 (Z.lnot la) = 2 ^ 64 - 1 - la).
  { unfold wrap, Z.lnot, in_width in *. symmetry. apply (Z.mod_unique _ _ (-1)); lia. }
  rewrite Hnl. unfold Z.lnot. set (n := mkI128 _ _).
  assert (Hn : i128_ok n) by (unfold i128_ok, n, in_width in *; simpl; lia).
  assert (Ev : i128 n = - i128 (mkI128 la ha) - 1) by (unfold i128, n; simpl; lia).
  destruct (i128_add n int128_one Hn) as [E O]; [by unfold i128_ok, in_width; simpl; lia| |].
  - rewrite Ev. change (i128 int128_one) with 1. unfold i128, i128_ok, in_width in *. simpl in *. lia.
  - rewrite E, Ev. change (i128 int128_one) with 1. split; [lia|done].
Qed.

Lemma i128_sub a b :
  i128_small a → i128_small b → i128 (int128_sub a b) = i128 a - i128 b ∧ i128_ok (int128_sub a b).
Proof.
  intros [Ha Ba] [Hb Bb]. destruct (i128_neg b Hb) as [En On]; [lia|]. unfold int128_sub.
  destruct (i128_add a _ Ha On) as [E O]; [rewrite En; lia|]. split; [lia|done].
Qed.

Lemma i128_nonneg a : i128_ok a → int128_nonneg a = (0 <=? i128 a).
Proof.
  destruct a as [la ha]. unfold i128_ok, int128_nonneg, i128, in_width. simpl. intros [Hl _].
  destruct (Z.leb_spec 0 ha), (Z.leb_spec 0 (la + 2 ^ 64 * ha)); try done; lia.
Qed.

Lemma i128_ge a b : i128_small a → i128_small b → int128_ge a b = (i128 b <=? i128 a).
Proof.
  intros Ha Hb. destruct (i128_sub a b Ha Hb) as [E O]. unfold int128_ge. rewrite i128_nonneg, E by done.
  destruct (Z.leb_spec 0 (i128 a - i128 b)), (Z.leb_spec (i128 b) (i128 a)); try done; lia.
Qed.

(** The operations compute what their names say: on integers of less than 127
    bits a sum, difference or negation is exact, and the comparisons, minimum and
    maximum are those of the values. *)
Theorem int128_exact a b :
  i128_small a → i128_small b →
  i128 (int128_add a b) = i128 a + i128 b ∧ i128 (int128_sub a b) = i128 a - i128 b ∧
  i128 (int128_neg a) = - i128 a ∧
  int128_eq a b = (i128 a =? i128 b) ∧ int128_ge a b = (i128 b <=? i128 a) ∧ int128_lt a b = (i128 a <? i128 b) ∧
  int128_nz a = negb (i128 a =? 0) ∧
  i128 (int128_min a b) = Z.min (i128 a) (i128 b) ∧ i128 (int128_max a b) = Z.max (i128 a) (i128 b) ∧
  int128_get64 a = (if decide (in_width 64 (i128 a)) then Some (i128 a) else None).
Proof.
  intros Ha Hb. pose proof Ha as [Oa Va]. pose proof Hb as [Ob Vb].
  split_and!.
  - apply i128_add; [done..|lia].
  - by apply i128_sub.
  - apply i128_neg; [done|lia].
  - unfold int128_eq. destruct (Z.eqb_spec (i128 a) (i128 b)) as [E|E].
    + rewrite (i128_inj a b Oa Ob E). by rewrite !Z.eqb_refl.
    + apply not_true_iff_false. intros [E1%Z.eqb_eq E2%Z.eqb_eq]%andb_prop. apply E. unfold i128. lia.
  - by apply i128_ge.
  - unfold int128_lt. rewrite i128_ge by done. by rewrite Z.ltb_antisym.
  - unfold int128_nz. rewrite <-negb_andb. f_equal. destruct Oa as [Hl _]. unfold i128, in_width in *.
    destruct (Z.eqb_spec (lo a) 0), (Z.eqb_spec (hi a) 0), (Z.eqb_spec (lo a + 2 ^ 64 * hi a) 0); try done; lia.
  - unfold int128_min, int128_le. rewrite i128_ge by done. destruct (Z.leb_spec (i128 a) (i128 b)); lia.
  - unfold int128_max. rewrite i128_ge by done. destruct (Z.leb_spec (i128 b) (i128 a)); lia.
  - unfold int128_get64. destruct Oa as [Hl _]. unfold i128, in_width in *.
    destruct (Z.eqb_spec (hi a) 0) as [->|E]; case_decide; try lia; [f_equal; lia|done].
Qed.

(** The largest 64-bit value and one more. *)
Lemma int128_exact_witness :
  i128 (int128_add (int128_make64 18446744073709551615) int128_one) = 2 ^ 64 ∧
  int128_get64 int128_2_64 = None.
Proof.
  destruct (int128_exact (int128_make64 18446744073709551615) int128_one) as (H1 & _);
    [unfold i128_small, i128_ok, in_width; vm_compute; intuition congruence..|].
  split; [exact H1|reflexivity].
Defined.
