(* ===== verification/FlatView.v ===== *)
(** * Memory regions and their flat view ([memory.c], [memory.h])

    Devices describe memory as a graph of regions: containers with subregions in
    order of priority, regions that answer accesses themselves, and aliases of
    parts of other regions. Rendering flattens the graph to a sorted list of
    ranges of absolute addresses; two views are compared to tell the backend what
    changed. [Int128] values are integers here (see [Int128]): absolute addresses
    stay far below 127 bits. *)

From S2P Require Import Prelude RRTypes IOMem.
Local Open Scope Z_scope.

(** ** Ranges of addresses *)

Record AddrRange := mkAR { ar_start : Z; ar_size : Z }.
#[export] Instance AddrRange_eq_dec : EqDecision AddrRange.
Proof. solve_decision. Defined.

Definition addrrange_make (start size : Z) : AddrRange := mkAR start size.
Definition addrrange_equal (r1 r2 : AddrRange) : bool :=
  (ar_start r1 =? ar_start r2) && (ar_size r1 =? ar_size r2).
Definition addrrange_end (r : AddrRange) : Z := ar_start r + ar_size r.
Definition addrrange_shift (r : AddrRange) (delta : Z) : AddrRange := mkAR (ar_start r + delta) (ar_size r).
Definition addrrange_contains (r : AddrRange) (addr : Z) : bool :=
  (ar_start r <=? addr) && (addr <? addrrange_end r).
Definition addrrange_intersects (r1 r2 : AddrRange) : bool :=
  addrrange_contains r1 (ar_start r2) || addrrange_contains r2 (ar_start r1).
Definition addrrange_intersection (r1 r2 : AddrRange) : AddrRange :=
  let start := Z.max (ar_start r1) (ar_start r2) in
  let end_ := Z.min (addrrange_end r1) (addrrange_end r2) in
  addrrange_make start (end_ - start).

(** ** Event notifiers *)

Record MemoryRegionIoeventfd := mkFd {
  fd_addr : AddrRange;
  match_data : bool;
  fd_data : Z;
  fd_fd : Z;
}.
#[export] Instance MemoryRegionIoeventfd_eq_dec : EqDecision MemoryRegionIoeventfd.
Proof. solve_decision. Defined.

Definition memory_region_ioeventfd_before (a b : MemoryRegionIoeventfd) : bool :=
  let sa := ar_start (fd_addr a) in let sb := ar_start (fd_addr b) in
  let za := ar_size (fd_addr a) in let zb := ar_size (fd_addr b) in
  if sa <? sb then true else if sb <? sa then false
  else if za <? zb then true else if zb <? za then false
  else if Z.b2z (match_data a) <? Z.b2z (match_data b) then true
  else if Z.b2z (match_data b) <? Z.b2z (match_data a) then false
  else if match_data a && (fd_data a <? fd_data b) then true
  else if match_data a && (fd_data b <? fd_data a) then false
  else if fd_fd a <? fd_fd b then true
  else false.

Definition memory_region_ioeventfd_equal (a b : MemoryRegionIoeventfd) : bool :=
  negb (memory_region_ioeventfd_before a b) && negb (memory_region_ioeventfd_before b a).

(** ** Regions *)

(** Callbacks are known by a number; [None] is a null pointer. The list of ports
    ends before the entry of size 0. *)
Record MemoryRegionPortio := mkPortio {
  po_offset : Z; po_len : Z; po_size : Z; po_read : option Z; po_write : option Z;
}.
Record MemoryRegionOps := mkOps {
  ops_read : option Z;
  ops_write : option Z;
  endianness : device_endian;
  valid_min_access_size : Z;
  valid_max_access_size : Z;
  valid_unaligned : bool;
  impl_min_access_size : Z;
  impl_max_access_size : Z;
  impl_unaligned : bool;
  old_portio : option (list MemoryRegionPortio);
  old_mmio_read : list (option Z);
  old_mmio_write : list (option Z);
}.

Inductive mr_destructor :=
| memory_region_destructor_none
| memory_region_destructor_ram
| memory_region_destructor_ram_from_ptr
| memory_region_destructor_iomem
| memory_region_destructor_rom_device.

(** Regions are known by a number, the address of the structure. *)
Record MemoryRegion := mkMR {
  mr_ops : option MemoryRegionOps;
  mr_opaque : Z;
  mr_parent : option Z;
  mr_size : Z;
  mr_addr : Z;
  mr_offset : Z;
  backend_registered : bool;
  destructor : mr_destructor;
  mr_ram_addr : Z;
  mr_iorange : Z * Z;
  terminates : bool;
  mr_readable : bool;
  mr_readonly : bool;
  mr_alias : option Z;
  alias_offset : Z;
  priority : Z;
  may_overlap : bool;
  subregions : list Z;
  mr_coalesced : list AddrRange;
  mr_name : string;
  mr_dirty_log_mask : Z;
  mr_ioeventfds : list MemoryRegionIoeventfd;
}.

(** ** Flat views *)

Record FlatRange := mkFR {
  fr_mr : Z;
  offset_in_region : Z;
  fr_addr : AddrRange;
  fr_dirty_log_mask : Z;
  fr_readable : bool;
  fr_readonly : bool;
}.
#[export] Instance FlatRange_eq_dec : EqDecision FlatRange.
Proof. solve_decision. Defined.
Abbreviation FlatView := (list FlatRange).

Definition flatrange_equal (a b : FlatRange) : bool :=
  (fr_mr a =? fr_mr b) && addrrange_equal (fr_addr a) (fr_addr b)
  && (offset_in_region a =? offset_in_region b)
  && eqb (fr_readable a) (fr_readable b) && eqb (fr_readonly a) (fr_readonly b).

Definition flatview_init : FlatView := [].
(** The array grows when it is full. *)
Definition flatview_insert (view : FlatView) (pos : nat) (range : FlatRange) : FlatView :=
  take pos view ++ range :: drop pos view.

Definition can_merge (r1 r2 : FlatRange) : bool :=
  (addrrange_end (fr_addr r1) =? ar_start (fr_addr r2))
  && (fr_mr r1 =? fr_mr r2)
  && (offset_in_region r1 + ar_size (fr_addr r1) =? offset_in_region r2)
  && (fr_dirty_log_mask r1 =? fr_dirty_log_mask r2)
  && eqb (fr_readable r1) (fr_readable r2) && eqb (fr_readonly r1) (fr_readonly r2).

Definition grow (r : FlatRange) (n : Z) : FlatRange :=
  mkFR (fr_mr r) (offset_in_region r) (addrrange_make (ar_start (fr_addr r)) (ar_size (fr_addr r) + n))
    (fr_dirty_log_mask r) (fr_readable r) (fr_readonly r).

(** [while (j < nr && can_merge(ranges[j-1], ranges[j]))] *)
Fixpoint merge_loop (fuel : nat) (view : FlatView) (i j : nat) : FlatView * nat :=
  match fuel, view !! (j - 1)%nat, view !! j, view !! i with
  | S fuel', Some a, Some b, Some r =>
      if can_merge a b then merge_loop fuel' (<[i := grow r (ar_size (fr_addr b))]> view) i (S j) else (view, j)
  | _, _, _, _ => (view, j)
  end.

Fixpoint simplify_loop (fuel : nat) (view : FlatView) (i : nat) : FlatView :=
  match fuel with
  | O => view
  | S fuel' =>
      if decide (i < length view)%nat then
        let '(view, j) := merge_loop (length view) view i (S i) in
        simplify_loop fuel' (take (S i) view ++ drop j view) (S i)
      else view
  end.
(** At most one turn for each range. *)
Definition flatview_simplify (view : FlatView) : FlatView := simplify_loop (length view) view 0.

(** ** Rendering *)

Section Render.
Context `{TargetPhys} {S : Type}.
Variable rg : gmap Z MemoryRegion.

(** [int128_get64] *)
Definition get64 (z : Z) : M S Z := assert_or Abort (bool_decide (in_width 64 z));; mret z.

(** The region itself, in the gaps of the view. [mk] makes the range of a start,
    an offset in the region and a size. *)
Fixpoint render_gaps (fuel : nat) (mk : Z → Z → Z → FlatRange) (view : FlatView) (i : nat)
    (base off remain : Z) : M S FlatView :=
  match view !! i with
  | None => mret (if remain =? 0 then view else flatview_insert view i (mk base off remain))
  | Some r =>
      if remain =? 0 then mret view else
      match fuel with
      | O => fail OutOfFuel
      | Datatypes.S fuel' =>
          if addrrange_end (fr_addr r) <=? base then render_gaps fuel' mk view (Datatypes.S i) base off remain else
          '(view, i, base, off, remain) ←
            (if base <? ar_start (fr_addr r) then
               let now := Z.min remain (ar_start (fr_addr r) - base) in
               n ← get64 now;
               mret (flatview_insert view i (mk base off now), Datatypes.S i, base + now,
                     wrap phys_width (off + n), remain - now)
             else mret (view, i, base, off, remain));
          '(base, off, remain) ←
            (if base =? ar_start (fr_addr r) then
               let now := Z.min remain (ar_size (fr_addr r)) in
               n ← get64 now;
               mret (base + now, wrap phys_width (off + n), remain - now)
             else mret (base, off, remain));
          render_gaps fuel' mk view (Datatypes.S i) base off remain
      end
  end.

(** [QTAILQ_FOREACH] over the subregions, with the view passed along. *)
Fixpoint foreach_region (f : FlatView → Z → M S FlatView) (l : list Z) (view : FlatView) : M S FlatView :=
  match l with
  | [] => mret view
  | sub :: l' => view ← f view sub; foreach_region f l' view
  end.

Fixpoint render_memory_region (fuel : nat) (view : FlatView) (mr base : Z) (clip : AddrRange) (readonly : bool)
    : M S FlatView :=
  match fuel with
  | O => fail OutOfFuel
  | Datatypes.S fuel' =>
      r ← nonnull (rg !! mr);
      let base := base + mr_addr r in
      let readonly := readonly || mr_readonly r in
      let tmp := addrrange_make base (mr_size r) in
      if negb (addrrange_intersects tmp clip) then mret view else
      let clip := addrrange_intersection tmp clip in
      match mr_alias r with
      | Some al =>
          a ← nonnull (rg !! al);
          render_memory_region fuel' view al (base - mr_addr a - alias_offset r) clip readonly
      | None =>
          view ← foreach_region (λ view sub, render_memory_region fuel' view sub base clip readonly)
            (subregions r) view;
          if terminates r then
            off ← get64 (ar_start clip - base);
            render_gaps (length view)
              (λ b o n, mkFR mr o (addrrange_make b n) (mr_dirty_log_mask r) (mr_readable r) readonly)
              view 0 (ar_start clip) (wrap phys_width off) (ar_size clip)
          else mret view
      end
  end.

(** Without a cycle of aliases and subregions no chain is longer than this. *)
Definition render_depth : nat := Datatypes.S (size rg).

Definition generate_memory_topology (mr : Z) : M S FlatView :=
  view ← render_memory_region render_depth flatview_init mr 0 (addrrange_make 0 (2 ^ 64)) false;
  mret (flatview_simplify view).

End Render.

(** ** Telling the backend *)

(** A table of functions; a null pointer is [None]. *)
Record AddressSpaceOps (S : Type) := mkASOps {
  range_add : FlatRange → M S ();
  range_del : FlatRange → M S ();
  log_start : option (FlatRange → M S ());
  log_stop : option (FlatRange → M S ());
  ioeventfd_add : MemoryRegionIoeventfd → M S ();
  ioeventfd_del : MemoryRegionIoeventfd → M S ();
}.
Arguments range_add {S}. Arguments range_del {S}. Arguments log_start {S}. Arguments log_stop {S}.
Arguments ioeventfd_add {S}. Arguments ioeventfd_del {S}.

Section Topology.
Context {S : Type}.
Variable ops : AddressSpaceOps S.

Definition call_opt {A} (f : option (A → M S ())) (a : A) : M S () := g ← nonnull f; g a.

(** The range is in both views: dirty logging may have changed. *)
Definition pass_both (adding : bool) (frold frnew : FlatRange) : M S () :=
  if adding then
    if negb (fr_dirty_log_mask frold =? 0) && (fr_dirty_log_mask frnew =? 0) then call_opt (log_stop ops) frnew
    else if negb (fr_dirty_log_mask frnew =? 0) && (fr_dirty_log_mask frold =? 0) then call_opt (log_start ops) frnew
    else mret ()
  else mret ().

Definition old_first (frold frnew : FlatRange) : bool :=
  (ar_start (fr_addr frold) <? ar_start (fr_addr frnew))
  || (ar_start (fr_addr frold) =? ar_start (fr_addr frnew)) && negb (flatrange_equal frold frnew).

Fixpoint topology_loop (fuel : nat) (old_view new_view : FlatView) (adding : bool) : M S () :=
  match fuel with
  | O => match old_view, new_view with [], [] => mret () | _, _ => fail OutOfFuel end
  | Datatypes.S fuel' =>
      match old_view, new_view with
      | [], [] => mret ()
      | frold :: old', [] =>
          (if adding then mret () else range_del ops frold);; topology_loop fuel' old' [] adding
      | [], frnew :: new' =>
          (if adding then range_add ops frnew else mret ());; topology_loop fuel' [] new' adding
      | frold :: old', frnew :: new' =>
          if old_first frold frnew then
            (if adding then mret () else range_del ops frold);; topology_loop fuel' old' new_view adding
          else if flatrange_equal frold frnew then
            pass_both adding frold frnew;; topology_loop fuel' old' new' adding
          else
            (if adding then range_add ops frnew else mret ());; topology_loop fuel' old_view new' adding
      end
  end.
Definition address_space_update_topology_pass (old_view new_view : FlatView) (adding : bool) : M S () :=
  topology_loop (length old_view + length new_view) old_view new_view adding.

Fixpoint ioeventfd_loop (fuel : nat) (fds_new fds_old : list MemoryRegionIoeventfd) : M S () :=
  match fuel with
  | O => match fds_old, fds_new with [], [] => mret () | _, _ => fail OutOfFuel end
  | Datatypes.S fuel' =>
      match fds_old, fds_new with
      | [], [] => mret ()
      | o :: old', [] => ioeventfd_del ops o;; ioeventfd_loop fuel' [] old'
      | [], n :: new' => ioeventfd_add ops n;; ioeventfd_loop fuel' new' []
      | o :: old', n :: new' =>
          if memory_region_ioeventfd_before o n then ioeventfd_del ops o;; ioeventfd_loop fuel' fds_new old'
          else if memory_region_ioeventfd_before n o then ioeventfd_add ops n;; ioeventfd_loop fuel' new' fds_old
          else ioeventfd_loop fuel' new' old'
      end
  end.
Definition address_space_add_del_ioeventfds (fds_new fds_old : list MemoryRegionIoeventfd) : M S () :=
  ioeventfd_loop (length fds_new + length fds_old) fds_new fds_old.

End Topology.

(** The event notifiers of a view, at their absolute addresses. *)
Definition shifted_fds (rg : gmap Z MemoryRegion) (fr : FlatRange) : list MemoryRegionIoeventfd :=
  match rg !! fr_mr fr with
  | None => []
  | Some r =>
      omap (λ f,
        let tmp := addrrange_shift (fd_addr f) (ar_start (fr_addr fr) - offset_in_region fr) in
        if addrrange_intersects (fr_addr fr) tmp then Some (mkFd tmp (match_data f) (fd_data f) (fd_fd f))
        else None) (mr_ioeventfds r)
  end.
Definition view_ioeventfds (rg : gmap Z MemoryRegion) (view : FlatView) : list MemoryRegionIoeventfd :=
  concat (shifted_fds rg <$> view).
