(* ===== verification/FlatViewFacts.v ===== *)
(** * Flat views: theorems

    What answers at an address is defined on the graph of regions ([region_at]):
    the first subregion that answers, by priority, then the region itself.
    Rendering computes exactly this, for all addresses at once, as long as no
    region begins inside a range rendered before. *)

From S2P Require Import Prelude RRTypes IOMem FlatView.
Local Open Scope Z_scope.

(** ** What a view says about an address *)

Record hit := mkHit { h_mr : Z; h_offset : Z; h_mask : Z; h_readable : bool; h_readonly : bool }.

Abbreviation fr_start r := (ar_start (fr_addr r)).
Abbreviation fr_size r := (ar_size (fr_addr r)).
Abbreviation fr_end r := (addrrange_end (fr_addr r)).

(** Sorted, disjoint, non-empty ranges from [b] on. *)
Fixpoint view_from (b : Z) (view : FlatView) : Prop :=
  match view with
  | [] => True
  | r :: v => b ≤ fr_start r ∧ 0 < fr_size r ∧ view_from (fr_end r) v
  end.

Lemma view_from_le b b' view : b' ≤ b → view_from b view → view_from b' view.
Proof. destruct view; simpl; [done|]. intros ? (? & ? & ?). split_and!; [lia|done..]. Qed.

Lemma contains_spec r a : addrrange_contains r a = true ↔ ar_start r ≤ a < addrrange_end r.
Proof. unfold addrrange_contains. rewrite andb_true_iff, Z.leb_le, Z.ltb_lt. done. Qed.

Lemma contains_false r a : addrrange_contains r a = false ↔ ¬ (ar_start r ≤ a < addrrange_end r).
Proof. rewrite <-contains_spec. by destruct (addrrange_contains r a); split. Qed.

(** Both ranges hold the address exactly when their intersection does. *)
Lemma contains_intersection r1 r2 a :
  addrrange_contains (addrrange_intersection r1 r2) a = addrrange_contains r1 a && addrrange_contains r2 a.
Proof.
  apply eq_bool_prop_intro. unfold addrrange_contains, addrrange_intersection, addrrange_end, addrrange_make. simpl.
  rewrite !Is_true_true, !andb_true_iff, !Z.leb_le, !Z.ltb_lt. lia.
Qed.

Lemma intersects_false r1 r2 a :
  addrrange_intersects r1 r2 = false → addrrange_contains r1 a && addrrange_contains r2 a = false.
Proof.
  unfold addrrange_intersects. intros [E1%contains_false E2%contains_false]%orb_false_iff.
  apply andb_false_iff. destruct (addrrange_contains r1 a) eqn:H1; [right|by left].
  apply contains_spec in H1. apply contains_false. lia.
Qed.

Section View.
Context `{TargetPhys}.

Definition range_at (r : FlatRange) (a : Z) : option hit :=
  if addrrange_contains (fr_addr r) a
  then Some (mkHit (fr_mr r) (wrap phys_width (offset_in_region r + (a - fr_start r)))
               (fr_dirty_log_mask r) (fr_readable r) (fr_readonly r))
  else None.

Fixpoint view_at (view : FlatView) (a : Z) : option hit :=
  match view with
  | [] => None
  | r :: v => match range_at r a with Some h => Some h | None => view_at v a end
  end.

Lemma view_at_below b view a : view_from b view → a < b → view_at view a = None.
Proof.
  revert b. induction view as [|r v IH]; intros b; simpl; [done|]. intros (Hb & Hs & Hv) Ha.
  unfold range_at. destruct (addrrange_contains (fr_addr r) a) eqn:E.
  - apply contains_spec in E. lia.
  - apply (IH (fr_end r) Hv). unfold addrrange_end. lia.
Qed.

(** ** Filling the gaps

    The loop over the array as a function of the list. *)
Fixpoint fill_gaps (mk : Z → Z → Z → FlatRange) (view : FlatView) (base off remain : Z) : FlatView :=
  match view with
  | [] => if remain =? 0 then [] else [mk base off remain]
  | r :: v =>
      if remain =? 0 then view
      else if fr_end r <=? base then r :: fill_gaps mk v base off remain
      else
        let n1 := if base <? fr_start r then Z.min remain (fr_start r - base) else 0 in
        let n2 := if base + n1 =? fr_start r then Z.min (remain - n1) (fr_size r) else 0 in
        (if base <? fr_start r then [mk base off n1] else [])
        ++ r :: fill_gaps mk v (base + n1 + n2) (wrap phys_width (off + n1 + n2)) (remain - n1 - n2)
  end.

Lemma fill_gaps_done mk view base off : fill_gaps mk view base off 0 = view.
Proof. by destruct view. Qed.

Lemma get64_ok {S} z (s : S) : in_width 64 z → get64 z s = Ok z s.
Proof. intros Hz. unfold get64. by rewrite bool_decide_true. Qed.

Definition small_range (r : FlatRange) : Prop := 0 ≤ fr_size r < 2 ^ 64.

Lemma wrap_add_twice w a b c : wrap w (wrap w (a + b) + c) = wrap w (a + b + c).
Proof. apply wrap_add_l. Qed.

Lemma render_gaps_eq {S} mk suf : ∀ fuel pre base off remain (s : S),
  Forall small_range suf → 0 ≤ remain < 2 ^ 64 → (length suf ≤ fuel)%nat → in_width phys_width off →
  render_gaps fuel mk (pre ++ suf) (length pre) base off remain s
  = Ok (pre ++ fill_gaps mk suf base off remain) s.
Proof.
  induction suf as [|r v IH]; intros fuel pre base off remain s Hsm Hrem Hfuel Hoff.
  - destruct fuel; cbn [render_gaps fill_gaps]; rewrite lookup_ge_None_2 by (rewrite app_nil_r; lia);
      (destruct (remain =? 0); [done|]); unfold flatview_insert; rewrite app_nil_r, take_ge, drop_ge by lia; done.
  - apply Forall_cons in Hsm as [Hr Hsm]. destruct fuel as [|fuel]; [simpl in Hfuel; lia|].
    cbn [render_gaps fill_gaps]. rewrite list_lookup_middle by done. destruct (Z.eqb_spec remain 0) as [->|Hnz]; [done|].
    assert (Hstep : ∀ pre' b o m, 0 ≤ m < 2 ^ 64 → in_width phys_width o →
      render_gaps fuel mk (pre' ++ r :: v) (Datatypes.S (length pre')) b o m s
      = Ok (pre' ++ r :: fill_gaps mk v b o m) s).
    { intros pre' b o m Hm Ho. replace (pre' ++ r :: v) with ((pre' ++ [r]) ++ v) by (by rewrite <-app_assoc).
      replace (Datatypes.S (length pre')) with (length (pre' ++ [r])) by (rewrite length_app; simpl; lia).
      rewrite IH by (try done; simpl in Hfuel; lia). by rewrite <-app_assoc. }
    destruct (fr_end r <=? base); [by apply Hstep|].
    assert (Hw : ∀ z, in_width phys_width (wrap phys_width z)) by (intros; apply wrap_in_width; unfold phys_width; lia).
    unfold small_range in Hr. destruct (Z.ltb_spec base (fr_start r)) as [Hlt|Hge].
    + set (n1 := Z.min remain (fr_start r - base)). assert (Hn1 : 0 ≤ n1 ≤ remain) by lia.
      rewrite bind_assoc, (bind_Ok _ _ _ _ _ (get64_ok n1 s ltac:(unfold in_width; lia))), bind_ret.
      replace (flatview_insert (pre ++ r :: v) (length pre) (mk base off n1)) with ((pre ++ [mk base off n1]) ++ r :: v)
        by (unfold flatview_insert; rewrite take_app_length, drop_app_length; by rewrite <-app_assoc).
      replace (Datatypes.S (length pre)) with (length (pre ++ [mk base off n1])) by (rewrite length_app; simpl; lia).
      destruct (Z.eqb_spec (base + n1) (fr_start r)) as [He|Hne].
      * set (n2 := Z.min (remain - n1) (fr_size r)).
        rewrite bind_assoc, (bind_Ok _ _ _ _ _ (get64_ok n2 s ltac:(unfold in_width; lia))), bind_ret.
        rewrite Hstep by (try apply Hw; lia). rewrite wrap_add_twice. by rewrite <-app_assoc.
      * rewrite bind_ret, Hstep by (try apply Hw; lia). rewrite !Z.add_0_r, Z.sub_0_r. by rewrite <-app_assoc.
    + rewrite bind_ret, !Z.add_0_r, Z.sub_0_r. destruct (Z.eqb_spec base (fr_start r)) as [He|Hne].
      * set (n2 := Z.min remain (fr_size r)).
        rewrite bind_assoc, (bind_Ok _ _ _ _ _ (get64_ok n2 s ltac:(unfold in_width; lia))), bind_ret.
        rewrite Hstep by (try apply Hw; lia). done.
      * rewrite bind_ret, Hstep by done. rewrite !Z.add_0_r, Z.sub_0_r. by rewrite wrap_small by done.
Qed.

(** No range of the view holds [b] without beginning there. *)
Definition straddled (view : FlatView) (b : Z) : bool :=
  existsb (λ r, (fr_start r <? b) && (b <? fr_end r)) view.

Lemma straddled_cons r v b :
  straddled (r :: v) b = false → ¬ (fr_start r < b < fr_end r) ∧ straddled v b = false.
Proof.
  unfold straddled. simpl. intros [E Hv]%orb_false_iff. split; [|done]. intros [H1 H2].
  by rewrite (proj2 (Z.ltb_lt _ _) H1), (proj2 (Z.ltb_lt _ _) H2) in E.
Qed.

Definition region_hit (mr m : Z) (rd ro : bool) (off : Z) : hit := mkHit mr (wrap phys_width off) m rd ro.

(** Earlier answers win. *)
Definition or_else (h h' : option hit) : option hit := match h with Some _ => h | None => h' end.

Lemma view_at_cons r v a : view_at (r :: v) a = or_else (range_at r a) (view_at v a).
Proof. simpl. by destruct (range_at r a). Qed.

Lemma view_at_none r v a :
  view_at (r :: v) a = None → ¬ (fr_start r ≤ a < fr_end r).
Proof.
  rewrite view_at_cons. unfold range_at. destruct (addrrange_contains (fr_addr r) a) eqn:Ec; [done|].
  by apply contains_false in Ec.
Qed.

Lemma straddled_end e v : view_from e v → straddled v e = false.
Proof.
  revert e. induction v as [|q v IH]; intros e; [done|]. simpl. intros (A & B & C). unfold straddled. simpl.
  rewrite (proj2 (Z.ltb_ge _ _)) by lia. simpl. apply (IH e). eapply view_from_le; [|done]. unfold addrrange_end. lia.
Qed.

(** The answer of a region of [n] bytes at [base], from [b] on. *)
Definition piece (mr m : Z) (rd ro : bool) (base off n b a : Z) : option hit :=
  if (b <=? a) && (a <? base + n) then Some (region_hit mr m rd ro (off + (a - base))) else None.

Lemma piece_0 mr m rd ro base off b n a : base + n ≤ b → piece mr m rd ro base off n b a = None.
Proof. intros Hb. unfold piece. destruct (Z.leb_spec b a), (Z.ltb_spec a (base + n)); simpl; try done; lia. Qed.

Lemma fill_gaps_ok mr m rd ro view : ∀ lo base off remain,
  view_from lo view → lo ≤ base → 0 ≤ remain → straddled view base = false →
  let view' := fill_gaps (λ b o n, mkFR mr o (addrrange_make b n) m rd ro) view base off remain in
  view_from lo view' ∧
  ∀ a, view_at view' a = or_else (view_at view a) (piece mr m rd ro base off remain base a).
Proof.
  induction view as [|r v IH]; intros lo base off remain Hv Hlo Hrem Hst view'; subst view'; cbn [fill_gaps].
  { destruct (Z.eqb_spec remain 0) as [->|Hnz].
    - split; [done|]. intros a. by rewrite piece_0 by lia.
    - split; [simpl; split_and!; [done|lia|done]|]. intros a. unfold piece. simpl.
      unfold range_at, addrrange_contains, addrrange_end. simpl. by destruct ((base <=? a) && (a <? base + remain)). }
  destruct Hv as (Hv1 & Hv2 & Hv3). apply straddled_cons in Hst as [Hr Hst].
  destruct (Z.eqb_spec remain 0) as [->|Hnz].
  { split; [done|]. intros a. rewrite piece_0 by lia. by destruct (view_at (r :: v) a). }
  destruct (Z.leb_spec (fr_end r) base) as [He|He].
  { destruct (IH (fr_end r) base off remain) as [V A]; [done..|]. split; [done|]. intros a.
    rewrite !view_at_cons, A. by destruct (range_at r a). }
  set (n1 := if base <? fr_start r then Z.min remain (fr_start r - base) else 0).
  set (n2 := if base + n1 =? fr_start r then Z.min (remain - n1) (fr_size r) else 0).
  assert (Hn1 : n1 = Z.min remain (fr_start r - base)) by (unfold n1; destruct (Z.ltb_spec base (fr_start r)); lia).
  assert (Hn2 : n2 = Z.min (remain - n1) (fr_size r)).
  { unfold n2. destruct (Z.eqb_spec (base + n1) (fr_start r)); unfold addrrange_end in *; lia. }
  set (rest := fill_gaps _ v _ _ _).
  assert (HR : view_from (fr_end r) rest ∧
    ∀ a, view_at rest a = or_else (view_at v a) (piece mr m rd ro base off remain (fr_end r) a)).
  { unfold rest. destruct (Z_le_gt_dec (remain - n1 - n2) 0) as [Hz|Hz].
    - replace (remain - n1 - n2) with 0 by lia. rewrite fill_gaps_done. split; [done|]. intros a.
      rewrite piece_0 by (unfold addrrange_end in *; lia). by destruct (view_at v a).
    - assert (Hend : base + n1 + n2 = fr_end r) by (unfold addrrange_end; lia). rewrite Hend.
      destruct (IH (fr_end r) (fr_end r) (wrap phys_width (off + n1 + n2)) (remain - n1 - n2)) as [V A];
        [done|lia|lia|by apply straddled_end|]. split; [done|]. intros a. rewrite A. f_equal. unfold piece.
      replace (fr_end r + (remain - n1 - n2)) with (base + remain) by lia. case_match; [|done].
      unfold region_hit. rewrite wrap_add_l. do 3 f_equal. lia. }
  clearbody rest. destruct HR as [VR AR].
  assert (Hview : ∀ a, view_at (r :: rest) a
      = or_else (view_at (r :: v) a) (piece mr m rd ro base off remain (fr_end r) a)).
  { intros a. rewrite !view_at_cons, AR. by destruct (range_at r a). }
  assert (Hmiss : ∀ a, view_at (r :: v) a = None → ¬ (base ≤ a < base + n1) →
      piece mr m rd ro base off remain (fr_end r) a = piece mr m rd ro base off remain base a).
  { intros a Hn%view_at_none Ha. unfold piece.
    destruct (Z.leb_spec (fr_end r) a), (Z.leb_spec base a), (Z.ltb_spec a (base + remain)); simpl; try done;
      unfold addrrange_end in *; lia. }
  destruct (Z.ltb_spec base (fr_start r)) as [Hlt|Hge]; cbn [app].
  - split; [simpl; unfold addrrange_end; simpl; split_and!; try done; lia|]. intros a.
    rewrite view_at_cons, Hview. unfold range_at, addrrange_contains, addrrange_end. cbn [fr_addr addrrange_make ar_start ar_size].
    destruct (Z.leb_spec base a) as [H1|H1], (Z.ltb_spec a (base + n1)) as [H2|H2]; cbn [andb or_else].
    1: { rewrite (view_at_below (fr_start r)) by (simpl; lia || done). simpl. unfold piece.
         by rewrite (proj2 (Z.leb_le _ _)), (proj2 (Z.ltb_lt _ _)) by lia. }
    all: destruct (view_at (r :: v) a) eqn:Ev; [done|]; apply (Hmiss a Ev); lia.
  - split; [simpl; split_and!; try done; lia|]. intros a. rewrite Hview.
    destruct (view_at (r :: v) a) eqn:Ev; [done|]. apply (Hmiss a Ev). lia.
Qed.

(** ** The graph of regions

    What answers at [a] in the region [mr] placed at [base]. *)

Section Graph.
Variable rg : gmap Z MemoryRegion.

Fixpoint first_at (f : Z → option hit) (l : list Z) : option hit :=
  match l with [] => None | x :: l' => or_else (f x) (first_at f l') end.

Fixpoint region_at (fuel : nat) (mr base : Z) (readonly : bool) (a : Z) : option hit :=
  match fuel, rg !! mr with
  | S fuel', Some r =>
      let base := base + mr_addr r in
      let readonly := readonly || mr_readonly r in
      if addrrange_contains (addrrange_make base (mr_size r)) a then
        match mr_alias r with
        | Some al => x ← rg !! al; region_at fuel' al (base - mr_addr x - alias_offset r) readonly a
        | None =>
            or_else (first_at (λ sub, region_at fuel' sub base readonly a) (subregions r))
              (if terminates r
               then Some (region_hit mr (mr_dirty_log_mask r) (mr_readable r) readonly (a - base)) else None)
        end
      else None
  | _, _ => None
  end.

(** No pointer dangles and no chain is longer than [fuel]; regions that answer are
    smaller than the address space. *)
Fixpoint nested (fuel : nat) (mr : Z) : bool :=
  match fuel, rg !! mr with
  | S fuel', Some r =>
      (0 <=? mr_size r) && (mr_size r <=? 2 ^ 64) && (negb (terminates r) || (mr_size r <? 2 ^ 64))
      && match mr_alias r with
         | Some al => bool_decide (is_Some (rg !! al)) && nested fuel' al
         | None => forallb (nested fuel') (subregions r)
         end
  | _, _ => false
  end.

(** Rendering as a function of lists. *)
Fixpoint render (fuel : nat) (view : FlatView) (mr base : Z) (clip : AddrRange) (readonly : bool) : FlatView :=
  match fuel, rg !! mr with
  | S fuel', Some r =>
      let base := base + mr_addr r in
      let readonly := readonly || mr_readonly r in
      let tmp := addrrange_make base (mr_size r) in
      if negb (addrrange_intersects tmp clip) then view else
      let clip := addrrange_intersection tmp clip in
      match mr_alias r with
      | Some al =>
          match rg !! al with
          | Some x => render fuel' view al (base - mr_addr x - alias_offset r) clip readonly
          | None => view
          end
      | None =>
          let view := foldl (λ v sub, render fuel' v sub base clip readonly) view (subregions r) in
          if terminates r then
            fill_gaps (λ b o n, mkFR mr o (addrrange_make b n) (mr_dirty_log_mask r) (mr_readable r) readonly)
              view (ar_start clip) (wrap phys_width (ar_start clip - base)) (ar_size clip)
          else view
      end
  | _, _ => view
  end.

Fixpoint all_safe (safe : FlatView → Z → bool) (step : FlatView → Z → FlatView) (l : list Z) (view : FlatView) : bool :=
  match l with
  | [] => true
  | x :: l' => safe view x && all_safe safe step l' (step view x)
  end.

(** No region begins inside a range that was rendered before. *)
Fixpoint render_safe (fuel : nat) (view : FlatView) (mr base : Z) (clip : AddrRange) (readonly : bool) : bool :=
  match fuel, rg !! mr with
  | S fuel', Some r =>
      let base := base + mr_addr r in
      let readonly := readonly || mr_readonly r in
      let tmp := addrrange_make base (mr_size r) in
      if negb (addrrange_intersects tmp clip) then true else
      let clip := addrrange_intersection tmp clip in
      match mr_alias r with
      | Some al =>
          match rg !! al with
          | Some x => render_safe fuel' view al (base - mr_addr x - alias_offset r) clip readonly
          | None => true
          end
      | None =>
          all_safe (λ v sub, render_safe fuel' v sub base clip readonly)
            (λ v sub, render fuel' v sub base clip readonly) (subregions r) view
          && (negb (terminates r) || negb (straddled
                (foldl (λ v sub, render fuel' v sub base clip readonly) view (subregions r)) (ar_start clip)))
      end
  | _, _ => true
  end.

(** A range of addresses a region is clipped to. *)
Definition clip_ok (c : AddrRange) : Prop := 0 ≤ ar_start c ∧ 0 ≤ ar_size c.

Lemma intersection_ok base n c :
  clip_ok c → 0 ≤ n → addrrange_intersects (addrrange_make base n) c = true →
  let i := addrrange_intersection (addrrange_make base n) c in
  clip_ok i ∧ base ≤ ar_start i ∧ (n < 2 ^ 64 → ar_size i < 2 ^ 64) ∧ (ar_start i - base ≤ n) ∧
  (n = 0 → ar_start i = base) ∧ (0 < n → ar_start i < base + n).
Proof.
  unfold clip_ok, addrrange_intersects, addrrange_contains, addrrange_intersection, addrrange_make, addrrange_end. simpl.
  intros [Hc1 Hc2] Hn [[H1%Z.leb_le H2%Z.ltb_lt]%andb_prop|[H1%Z.leb_le H2%Z.ltb_lt]%andb_prop]%orb_prop; lia.
Qed.

(** What rendering promises for a region placed at [base]: the view stays sorted,
    and gains what answers in the clip. *)
Definition gains (view view' : FlatView) (clip : AddrRange) (at_ : Z → option hit) : Prop :=
  view_from 0 view' ∧ Forall small_range view' ∧
  ∀ a, view_at view' a = or_else (view_at view a) (if addrrange_contains clip a then at_ a else None).

Lemma gains_each {S} (f : FlatView → Z → M S FlatView) step safe at_ clip l :
  (∀ view x s, x ∈ l → view_from 0 view → Forall small_range view → safe view x = true →
     f view x s = Ok (step view x) s ∧ gains view (step view x) clip (at_ x)) →
  ∀ view s, view_from 0 view → Forall small_range view → all_safe safe step l view = true →
    foreach_region f l view s = Ok (foldl step view l) s ∧
    gains view (foldl step view l) clip (λ a, first_at (λ x, at_ x a) l).
Proof.
  induction l as [|x l IH]; intros Hf view s Hv Hsm Hsafe.
  { split; [done|]. split_and!; try done. intros a. simpl. destruct (view_at view a), (addrrange_contains clip a); done. }
  simpl in Hsafe. apply andb_prop in Hsafe as [Hx Hl].
  destruct (Hf view x s ltac:(by left) Hv Hsm Hx) as [E (V1 & S1 & A1)].
  destruct (IH ltac:(intros; apply Hf; [by right|done..]) (step view x) s V1 S1 Hl) as [E2 (V2 & S2 & A2)].
  split; [cbn [foreach_region foldl]; by rewrite (bind_Ok _ _ _ _ _ E)|]. split_and!; [done..|].
  intros a. cbn [foldl first_at]. rewrite A2, A1. destruct (view_at view a); [done|]. simpl.
  destruct (addrrange_contains clip a); [|done]. by destruct (at_ x a).
Qed.

Lemma fill_small mk view : ∀ base off remain,
  (∀ b o n, fr_addr (mk b o n) = addrrange_make b n) → 0 ≤ remain < 2 ^ 64 → Forall small_range view →
  Forall small_range (fill_gaps mk view base off remain).
Proof.
  induction view as [|r v IH]; intros base off remain Hmk Hrem Hsm; cbn [fill_gaps].
  - destruct (remain =? 0); [done|]. constructor; [|done]. unfold small_range. rewrite Hmk. done.
  - destruct (remain =? 0); [done|]. apply Forall_cons in Hsm as [Hr Hsm]. destruct (_ <=? base); [constructor; auto|].
    unfold small_range in Hr. apply Forall_app. split.
    + destruct (Z.ltb_spec base (fr_start r)); [|constructor]. constructor; [|constructor].
      unfold small_range. rewrite Hmk. simpl. lia.
    + constructor; [done|]. apply IH; [done| |done]. repeat case_match; lia.
Qed.

Lemma gains_then v v1 v2 c f g :
  gains v v1 c f → gains v1 v2 c g → gains v v2 c (λ a, or_else (f a) (g a)).
Proof.
  intros (_ & _ & A1) (V2 & S2 & A2). split_and!; [done..|]. intros a. rewrite A2, A1.
  destruct (view_at v a); [done|]. simpl. destruct (addrrange_contains c a); [|done]. by destruct (f a).
Qed.

(** The region itself, behind what was rendered before. *)
Lemma region_itself {S} mr m rd ro view b clip (s : S) :
  let mk := λ b o n, mkFR mr o (addrrange_make b n) m rd ro in
  let view' := fill_gaps mk view (ar_start clip) (wrap phys_width (ar_start clip - b)) (ar_size clip) in
  clip_ok clip → ar_size clip < 2 ^ 64 → in_width 64 (ar_start clip - b) →
  view_from 0 view → Forall small_range view → straddled view (ar_start clip) = false →
  (off ← get64 (ar_start clip - b);
   render_gaps (length view) mk view 0 (ar_start clip) (wrap phys_width off) (ar_size clip)) s = Ok view' s ∧
  gains view view' clip (λ a, Some (region_hit mr m rd ro (a - b))).
Proof.
  intros mk view' [Hc1 Hc2] Hsz Hoff Hv Hsm Hst. split.
  - rewrite (bind_Ok _ _ _ _ _ (get64_ok _ s Hoff)).
    apply (render_gaps_eq mk view (length view) []); try done. apply wrap_in_width. unfold phys_width. lia.
  - destruct (fill_gaps_ok mr m rd ro view 0 (ar_start clip) (wrap phys_width (ar_start clip - b)) (ar_size clip))
      as [V A]; [done..|].
    split_and!; [done|by apply fill_small|]. intros a. unfold view', mk. rewrite A. f_equal.
    unfold piece, addrrange_contains, addrrange_end. case_match; [|done]. unfold region_hit. rewrite wrap_add_l.
    do 3 f_equal. lia.
Qed.

(** Clipping to the region itself is no restriction. *)
Lemma gains_clip view view' tmp clip at_ at' :
  gains view view' (addrrange_intersection tmp clip) at_ →
  (∀ a, at' a = if addrrange_contains tmp a then at_ a else None) → gains view view' clip at'.
Proof.
  intros (G1 & G2 & G3) Hat. split_and!; try done. intros a. rewrite G3, contains_intersection, Hat. f_equal.
  by destruct (addrrange_contains tmp a), (addrrange_contains clip a).
Qed.

Lemma render_ok {S} fuel : ∀ view mr base clip ro (s : S),
  nested fuel mr = true → clip_ok clip → view_from 0 view → Forall small_range view →
  render_safe fuel view mr base clip ro = true →
  render_memory_region rg fuel view mr base clip ro s = Ok (render fuel view mr base clip ro) s ∧
  gains view (render fuel view mr base clip ro) clip (region_at fuel mr base ro).
Proof.
  induction fuel as [|fuel IH]; intros view mr base clip ro s Hn Hc Hv Hsm Hsafe; [done|].
  cbn [nested render_memory_region render region_at render_safe] in *.
  destruct (rg !! mr) as [r|] eqn:Er; [|done]. rewrite bind_nonnull.
  apply andb_prop in Hn as [Hn Hkids]. apply andb_prop in Hn as [Hn Hterm]. apply andb_prop in Hn as [Hz1 Hz2].
  apply Z.leb_le in Hz1, Hz2. set (b := base + mr_addr r) in *. set (ro' := ro || mr_readonly r) in *.
  set (tmp := addrrange_make b (mr_size r)) in *.
  destruct (addrrange_intersects tmp clip) eqn:Ei; cbn [negb] in *.
  2: { split; [done|]. split_and!; try done. intros a. pose proof (intersects_false tmp clip a Ei) as Hf.
       destruct (addrrange_contains tmp a), (addrrange_contains clip a); try done; by destruct (view_at view a). }
  destruct (intersection_ok b (mr_size r) clip Hc Hz1 Ei) as (Hc' & Hb1 & Hb2 & Hb3 & Hb4 & Hb5).
  fold tmp in Hc', Hb1, Hb2, Hb3, Hb4, Hb5. set (clip' := addrrange_intersection tmp clip) in *.
  destruct (mr_alias r) as [al|].
  - apply andb_prop in Hkids as [[x Hx]%bool_decide_eq_true Hal]. rewrite Hx in *. rewrite bind_nonnull.
    destruct (IH view al (b - mr_addr x - alias_offset r) clip' ro' s) as [E G]; [done..|]. split; [done|].
    by eapply gains_clip.
  - apply andb_prop in Hsafe as [Hall Hstr].
    edestruct (gains_each (λ view sub, render_memory_region (S:=S) rg fuel view sub b clip' ro')
      (λ v sub, render fuel v sub b clip' ro') (λ v sub, render_safe fuel v sub b clip' ro')
      (λ sub, region_at fuel sub b ro') clip' (subregions r)) with (view := view) (s := s) as [E G]; [|done..|].
    { intros v x s' Hx Hv' Hsm' Hs'. apply IH; try done. by apply (proj1 (forallb_forall _ _) Hkids), list_elem_of_In. }
    rewrite (bind_Ok _ _ _ _ _ E). set (view1 := foldl _ view (subregions r)) in *.
    destruct (terminates r); cbn [negb orb] in *.
    2: { split; [done|]. eapply gains_clip; [exact G|]. intros a. simpl. by destruct (first_at _ _). }
    apply Z.ltb_lt in Hterm. apply negb_true_iff in Hstr. pose proof G as (G1 & G2 & _).
    destruct (region_itself mr (mr_dirty_log_mask r) (mr_readable r) ro' view1 b clip' s) as [E2 G3]; try done; [by apply Hb2| |].
    { unfold in_width. destruct (Z.eq_dec (mr_size r) 0); lia. }
    split; [done|]. eapply gains_clip; [by eapply gains_then|]. done.
Qed.

End Graph.

(** ** Merging

    The loop over the array as a function of the list: [cur] is the range that
    grows, [last] the one it was compared with last. *)
Fixpoint merge_from (cur last : FlatRange) (view : FlatView) : FlatView :=
  match view with
  | [] => [cur]
  | r :: v => if can_merge last r then merge_from (grow cur (fr_size r)) r v else cur :: merge_from r r v
  end.
Definition merge_all (view : FlatView) : FlatView :=
  match view with [] => [] | r :: v => merge_from r r v end.

Lemma merge_loop_eq v : ∀ fuel pre cur mid last,
  (length v ≤ fuel)%nat → last = default cur (list.last mid) →
  ∃ cur' mid' v', merge_loop fuel (pre ++ cur :: mid ++ v) (length pre) (S (length pre + length mid))
      = (pre ++ cur' :: mid' ++ v', S (length pre + length mid')) ∧
    merge_from cur last v = cur' :: merge_all v' ∧ (length v' ≤ length v)%nat.
Proof.
  induction v as [|r v IH]; intros fuel pre cur mid lst Hf Hl.
  { exists cur, mid, []. split; [|done]. destruct fuel; [done|]. cbn [merge_loop].
    rewrite (lookup_ge_None_2 _ (S _)) by (rewrite length_app; simpl; rewrite length_app; simpl; lia).
    by destruct ((pre ++ cur :: mid ++ []) !! _). }
  destruct fuel as [|fuel]; [simpl in Hf; lia|]. cbn [merge_loop merge_from].
  set (l := pre ++ cur :: mid ++ r :: v).
  assert (Hj : l !! S (length pre + length mid) = Some r).
  { unfold l. rewrite lookup_app_r by lia. replace (S _ - _)%nat with (S (length mid)) by lia. simpl.
    rewrite lookup_app_r by lia. by rewrite Nat.sub_diag. }
  assert (Hi : l !! length pre = Some cur) by (unfold l; by apply list_lookup_middle).
  assert (Hj1 : l !! (S (length pre + length mid) - 1)%nat = Some lst).
  { replace (S (length pre + length mid) - 1)%nat with (length pre + length mid)%nat by lia. unfold l.
    rewrite lookup_app_r by lia. replace (_ - _)%nat with (length mid) by lia. subst lst.
    destruct mid as [|m mid _] using rev_ind; [done|]. rewrite last_snoc. simpl. rewrite length_app. simpl.
    replace (length mid + 1)%nat with (S (length mid)) by lia. simpl. rewrite <-app_assoc. by apply list_lookup_middle. }
  rewrite Hj1, Hj, Hi. destruct (can_merge lst r).
  - assert (Hu : <[length pre := grow cur (fr_size r)]> l = pre ++ grow cur (fr_size r) :: (mid ++ [r]) ++ v).
    { unfold l. rewrite <-(Nat.add_0_r (length pre)), insert_app_r. simpl. by rewrite <-app_assoc. }
    rewrite Hu. replace (S (S (length pre + length mid))) with (S (length pre + length (mid ++ [r])))%nat
      by (rewrite length_app; simpl; lia).
    destruct (IH fuel pre (grow cur (fr_size r)) (mid ++ [r]) r) as (c & m & v' & E & Em & Hlen);
      [simpl in Hf; lia|by rewrite last_snoc|]. exists c, m, v'. split_and!; [done..|simpl; lia].
  - exists cur, mid, (r :: v). by split_and!.
Qed.

Lemma simplify_loop_eq fuel : ∀ pre v, (length v ≤ fuel)%nat → simplify_loop fuel (pre ++ v) (length pre) = pre ++ merge_all v.
Proof.
  induction fuel as [|fuel IH]; intros pre v Hf; [destruct v; [done|simpl in Hf; lia]|]. cbn [simplify_loop].
  destruct v as [|r v]; [rewrite decide_False by (rewrite length_app; simpl; lia); done|].
  rewrite decide_True by (rewrite length_app; simpl; lia).
  destruct (merge_loop_eq v (length (pre ++ r :: v)) pre r [] r) as (c & m & v' & E & Em & Hlen);
    [rewrite length_app; simpl; lia|done|]. simpl app in E. rewrite Nat.add_0_r in E. rewrite E. cbv zeta.
  assert (Hd : take (S (length pre)) (pre ++ c :: m ++ v') ++ drop (S (length pre + length m)) (pre ++ c :: m ++ v')
    = (pre ++ [c]) ++ v').
  { rewrite take_app_ge, drop_app_ge by lia. replace (S (length pre) - length pre)%nat with 1%nat by lia.
    replace (S (length pre + length m) - length pre)%nat with (S (length m)) by lia. simpl. by rewrite drop_app_length. }
  rewrite Hd. replace (S (length pre)) with (length (pre ++ [c])) by (rewrite length_app; simpl; lia).
  rewrite IH by (simpl in Hf; lia). rewrite <-app_assoc. simpl. by rewrite Em.
Qed.

Lemma simplify_eq view : flatview_simplify view = merge_all view.
Proof. apply (simplify_loop_eq (length view) []). done. Qed.

(** No two neighbours could be one range. *)
Fixpoint unmergeable (view : FlatView) : Prop :=
  match view with
  | [] => True
  | r :: v => match v with [] => True | q :: _ => can_merge r q = false end ∧ unmergeable v
  end.

(** [cur] is a run of ranges that ends with [last]. *)
Record run (cur last : FlatRange) : Prop := {
  run_mr : fr_mr last = fr_mr cur;
  run_offset : offset_in_region last = offset_in_region cur + (fr_start last - fr_start cur);
  run_end : fr_end last = fr_end cur;
  run_start : fr_start cur ≤ fr_start last;
  run_size : 0 < fr_size last;
  run_mask : fr_dirty_log_mask last = fr_dirty_log_mask cur;
  run_readable : fr_readable last = fr_readable cur;
  run_readonly : fr_readonly last = fr_readonly cur;
}.

Lemma can_merge_spec r1 r2 :
  can_merge r1 r2 = true ↔ fr_end r1 = fr_start r2 ∧ fr_mr r1 = fr_mr r2 ∧
    offset_in_region r1 + fr_size r1 = offset_in_region r2 ∧ fr_dirty_log_mask r1 = fr_dirty_log_mask r2 ∧
    fr_readable r1 = fr_readable r2 ∧ fr_readonly r1 = fr_readonly r2.
Proof. unfold can_merge. rewrite !andb_true_iff, !Z.eqb_eq, !eqb_true_iff. tauto. Qed.

Lemma run_grow cur last r :
  run cur last → can_merge last r = true → 0 < fr_size r → run (grow cur (fr_size r)) r.
Proof.
  intros [R1 R2 R3 R4 R5 R6 R7 R8] (M1 & M2 & M3 & M4 & M5 & M6)%can_merge_spec Hs.
  unfold addrrange_end in *. split; simpl; unfold addrrange_end; simpl; try congruence; try done; lia.
Qed.

Lemma grow_at cur last r a :
  run cur last → can_merge last r = true → 0 < fr_size r →
  range_at (grow cur (fr_size r)) a = or_else (range_at cur a) (range_at r a).
Proof.
  intros [R1 R2 R3 R4 R5 R6 R7 R8] (M1 & M2 & M3 & M4 & M5 & M6)%can_merge_spec Hs.
  unfold range_at, addrrange_contains, addrrange_end in *. simpl.
  destruct (Z.leb_spec (fr_start cur) a), (Z.ltb_spec a (fr_start cur + fr_size cur)),
    (Z.ltb_spec a (fr_start cur + (fr_size cur + fr_size r))), (Z.leb_spec (fr_start r) a),
    (Z.ltb_spec a (fr_start r + fr_size r)); simpl; try done; try lia.
  f_equal. f_equal; [congruence| |congruence..]. f_equal. lia.
Qed.

Lemma run_merge cur last r : run cur last → can_merge cur r = can_merge last r.
Proof.
  intros [R1 R2 R3 R4 R5 R6 R7 R8]. unfold can_merge. rewrite R3, R1, R6, R7, R8. do 4 f_equal.
  unfold addrrange_end in *. f_equal. lia.
Qed.

Lemma merge_from_head v : ∀ cur last, ∃ n w, merge_from cur last v = grow cur n :: w.
Proof.
  induction v as [|r v IH]; intros cur last; cbn [merge_from].
  - exists 0, []. destruct cur as [? ? [? ?] ? ? ?]. unfold grow. simpl. by rewrite Z.add_0_r.
  - destruct (can_merge last r).
    + destruct (IH (grow cur (fr_size r)) r) as (n & w & E). exists (fr_size r + n), w. rewrite E.
      unfold grow. simpl. by rewrite Z.add_assoc.
    + exists 0. eexists. destruct cur as [? ? [? ?] ? ? ?]. unfold grow. simpl. by rewrite Z.add_0_r.
Qed.

Lemma merge_from_ok v : ∀ b cur last,
  run cur last → b ≤ fr_start cur → view_from (fr_end cur) v →
  view_from b (merge_from cur last v) ∧ unmergeable (merge_from cur last v) ∧
  ∀ a, view_at (merge_from cur last v) a = view_at (cur :: v) a.
Proof.
  induction v as [|r v IH]; intros b cur last HR Hb Hv; cbn [merge_from].
  { split; [|done]. destruct HR. simpl. unfold addrrange_end in *. split_and!; [done|lia|done]. }
  destruct Hv as (V1 & V2 & V3). destruct (can_merge last r) eqn:Em.
  - pose proof (run_grow _ _ _ HR Em V2) as HR'.
    destruct (IH b (grow cur (fr_size r)) r HR') as (I1 & I2 & I3); [done|by rewrite <-(run_end _ _ HR')|].
    split_and!; [done..|]. intros a. rewrite I3, !view_at_cons, (grow_at _ _ _ _ HR Em V2). by destruct (range_at cur a).
  - destruct (IH (fr_end cur) r r) as (I1 & I2 & I3); [|done..|].
    { split; try done; lia. }
    split_and!; [|split; [|done]|].
    + destruct HR. simpl. unfold addrrange_end in *. split_and!; [done|lia|done].
    + destruct (merge_from_head v r r) as (n & w & ->). rewrite <-Em, <-(run_merge cur last r HR). done.
    + intros a. rewrite !(view_at_cons cur), I3. done.
Qed.

(** Merging neighbours changes what the view says at no address, and leaves no
    two neighbours that could be merged. *)
Lemma simplify_ok b view :
  view_from b view →
  view_from b (flatview_simplify view) ∧ unmergeable (flatview_simplify view) ∧
  ∀ a, view_at (flatview_simplify view) a = view_at view a.
Proof.
  rewrite simplify_eq. destruct view as [|r v]; [done|]. intros (V1 & V2 & V3).
  apply merge_from_ok; [|done..]. split; try done; lia.
Qed.

(** ** Regions that do not overlap

    When no two subregions of a container overlap, no region begins inside a range
    rendered before. *)

Definition region_range (base : Z) (r : MemoryRegion) : AddrRange := addrrange_make (base + mr_addr r) (mr_size r).

Definition apart_regions (rg : gmap Z MemoryRegion) (x y : Z) : Prop :=
  ∀ rx ry, rg !! x = Some rx → rg !! y = Some ry →
    addrrange_end (region_range 0 rx) ≤ ar_start (region_range 0 ry) ∨
    addrrange_end (region_range 0 ry) ≤ ar_start (region_range 0 rx).

Fixpoint all_apart_regions (rg : gmap Z MemoryRegion) (l : list Z) : Prop :=
  match l with [] => True | x :: l' => Forall (apart_regions rg x) l' ∧ all_apart_regions rg l' end.

Definition no_overlap (rg : gmap Z MemoryRegion) : Prop := map_Forall (λ _ r, all_apart_regions rg (subregions r)) rg.

(** No range of the view touches [c]; all new ranges are inside [c]. *)
Definition clear_of (c : AddrRange) (view : FlatView) : Prop :=
  Forall (λ r, fr_end r ≤ ar_start c ∨ addrrange_end c ≤ fr_start r) view.
Definition adds_within (c : AddrRange) (view view' : FlatView) : Prop :=
  Forall (λ r, r ∈ view ∨ ar_start c ≤ fr_start r ∧ fr_end r ≤ addrrange_end c) view'.
Definition sub_range (c c' : AddrRange) : Prop := ar_start c' ≤ ar_start c ∧ addrrange_end c ≤ addrrange_end c'.

Lemma clear_sub c c' view : sub_range c c' → clear_of c' view → clear_of c view.
Proof. intros [H1 H2] Hf. eapply Forall_impl; [exact Hf|]. intros r [?|?]; [left|right]; lia. Qed.

Lemma adds_sub c c' view view' : sub_range c c' → adds_within c view view' → adds_within c' view view'.
Proof. intros [H1 H2] Hf. eapply Forall_impl; [exact Hf|]. intros r [?|?]; [by left|right; lia]. Qed.

Lemma adds_trans c view v1 v2 : adds_within c view v1 → adds_within c v1 v2 → adds_within c view v2.
Proof.
  unfold adds_within. intros A1 A2. rewrite Forall_forall in A1. eapply Forall_impl; [exact A2|].
  intros r [Hr|Hr]; [by apply A1|by right].
Qed.

Lemma adds_refl c view : adds_within c view view.
Proof. apply Forall_forall. by left. Qed.

Lemma sub_range_trans a b c : sub_range a b → sub_range b c → sub_range a c.
Proof. unfold sub_range. lia. Qed.

Lemma sub_intersection r1 r2 : sub_range (addrrange_intersection r1 r2) r2 ∧ sub_range (addrrange_intersection r1 r2) r1.
Proof. unfold sub_range, addrrange_intersection, addrrange_make, addrrange_end. simpl. lia. Qed.

Lemma fill_within mk view : ∀ base off remain,
  (∀ b o n, fr_addr (mk b o n) = addrrange_make b n) → 0 ≤ remain → Forall small_range view →
  adds_within (addrrange_make base remain) view (fill_gaps mk view base off remain).
Proof.
  induction view as [|r v IH]; intros base off remain Hmk Hrem Hsm; cbn [fill_gaps].
  { destruct (remain =? 0); [constructor|]. constructor; [|done]. right. rewrite Hmk. lia. }
  apply Forall_cons in Hsm as [Hr Hsm]. unfold small_range in Hr.
  destruct (remain =? 0); [apply adds_refl|].
  assert (Hlift : ∀ b n w, base ≤ b → b + n ≤ base + remain →
    adds_within (addrrange_make b n) v w → adds_within (addrrange_make base remain) (r :: v) w).
  { intros b n w H1 H2 Hf. eapply Forall_impl; [exact Hf|]. unfold addrrange_end. simpl. intros q [?|[? ?]]; [left; by right|right; lia]. }
  destruct (_ <=? base).
  { constructor; [left; by left|]. apply (Hlift base remain); [lia..|]. by apply IH. }
  set (n1 := if base <? fr_start r then _ else 0). set (n2 := if _ =? fr_start r then _ else 0).
  assert (Hn1 : 0 ≤ n1 ≤ remain) by (unfold n1; destruct (Z.ltb_spec base (fr_start r)); lia).
  assert (Hn2 : 0 ≤ n2 ≤ remain - n1) by (unfold n2; destruct (_ =? fr_start r); lia).
  apply Forall_app. split.
  - destruct (base <? fr_start r); [|constructor]. constructor; [|constructor]. right. rewrite Hmk.
    unfold addrrange_end. simpl. lia.
  - constructor; [left; by left|]. apply (Hlift (base + n1 + n2) (remain - n1 - n2)); [lia..|]. apply IH; [done|lia|done].
Qed.

(** Nothing that is clear of a range, or inside it, straddles its start. *)
Lemma clear_not_straddled c view view' :
  0 ≤ ar_size c → clear_of c view → adds_within c view view' → straddled view' (ar_start c) = false.
Proof.
  intros Hc Hcl Ha. unfold straddled. apply not_true_iff_false. rewrite existsb_exists.
  intros (r & Hr%list_elem_of_In & [H1%Z.ltb_lt H2%Z.ltb_lt]%andb_prop).
  unfold adds_within, clear_of in *. rewrite Forall_forall in Ha, Hcl.
  destruct (Ha r Hr) as [Hin|Hin]; [|lia]. specialize (Hcl r Hin). unfold addrrange_end in *. lia.
Qed.

(** The part of a region that is rendered. *)
Definition shown (rg : gmap Z MemoryRegion) (base : Z) (clip : AddrRange) (mr : Z) : AddrRange :=
  match rg !! mr with Some r => addrrange_intersection (region_range base r) clip | None => clip end.

Lemma shown_sub rg base clip mr : sub_range (shown rg base clip mr) clip.
Proof. unfold shown. destruct (rg !! mr); [apply sub_intersection|]. unfold sub_range. lia. Qed.

Lemma shown_apart rg base clip x y view view' :
  is_Some (rg !! x) → is_Some (rg !! y) → apart_regions rg x y →
  adds_within (shown rg base clip x) view view' → clear_of (shown rg base clip y) view →
  clear_of (shown rg base clip y) view'.
Proof.
  intros [rx Hx] [ry Hy] Ha Hadd Hcl. specialize (Ha rx ry Hx Hy). unfold shown in *. rewrite Hx in Hadd. rewrite Hy in *.
  unfold clear_of, adds_within, region_range, addrrange_intersection, addrrange_make, addrrange_end in *. simpl in *.
  rewrite Forall_forall in *. intros r Hr. destruct (Hadd r Hr) as [Hin|Hin]; [by apply Hcl|]. lia.
Qed.

Section Apart.
Variable rg : gmap Z MemoryRegion.

(** What rendering keeps when regions do not overlap. *)
Definition quiet_step (view view' : FlatView) (c : AddrRange) (safe : bool) : Prop :=
  safe = true ∧ adds_within c view view' ∧ Forall small_range view'.

Lemma apart_each fuel base clip ro l :
  (∀ view x, x ∈ l → Forall small_range view → clear_of (shown rg base clip x) view →
     quiet_step view (render rg fuel view x base clip ro) (shown rg base clip x) (render_safe rg fuel view x base clip ro)) →
  Forall (λ x, is_Some (rg !! x)) l → all_apart_regions rg l →
  ∀ view, Forall small_range view → Forall (λ x, clear_of (shown rg base clip x) view) l →
    quiet_step view (foldl (λ v x, render rg fuel v x base clip ro) view l) clip
      (all_safe (λ v x, render_safe rg fuel v x base clip ro) (λ v x, render rg fuel v x base clip ro) l view).
Proof.
  induction l as [|x l IH]; intros Hf Hex Hap view Hsm Hcl.
  { split_and!; [done|apply adds_refl|done]. }
  apply Forall_cons in Hex as [Hx Hex]. destruct Hap as [Hapx Hap]. apply Forall_cons in Hcl as [Hclx Hcl].
  destruct (Hf view x ltac:(by left) Hsm Hclx) as (S1 & A1 & M1). cbn [foldl all_safe]. rewrite S1. simpl.
  destruct (IH ltac:(intros; apply Hf; [by right|done..]) Hex Hap (render rg fuel view x base clip ro) M1) as (S2 & A2 & M2).
  { rewrite Forall_forall in *. intros y Hy. apply (shown_apart rg base clip x y view); auto. }
  split_and!; [done| |done]. eapply adds_trans; [|exact A2]. eapply adds_sub; [apply shown_sub|exact A1].
Qed.

Lemma apart_render fuel : ∀ view mr base clip ro,
  no_overlap rg → nested rg fuel mr = true → clip_ok clip → Forall small_range view →
  clear_of (shown rg base clip mr) view →
  quiet_step view (render rg fuel view mr base clip ro) (shown rg base clip mr) (render_safe rg fuel view mr base clip ro).
Proof.
  induction fuel as [|fuel IH]; intros view mr base clip ro Hno Hn Hc Hsm Hcl; [done|].
  cbn [nested render render_safe] in *. unfold shown in *. destruct (rg !! mr) as [r|] eqn:Er; [|done].
  apply andb_prop in Hn as [Hn Hkids]. apply andb_prop in Hn as [Hn Hterm]. apply andb_prop in Hn as [Hz1 Hz2].
  apply Z.leb_le in Hz1, Hz2. unfold region_range in *. set (b := base + mr_addr r) in *. set (ro' := ro || mr_readonly r) in *.
  destruct (addrrange_intersects _ clip) eqn:Ei; cbn [negb] in *.
  2: { split_and!; [done|apply adds_refl|done]. }
  destruct (intersection_ok b (mr_size r) clip Hc Hz1 Ei) as (Hc' & Hb1 & Hb2 & _).
  set (clip' := addrrange_intersection _ clip) in *.
  destruct (mr_alias r) as [al|].
  - apply andb_prop in Hkids as [[x Hx]%bool_decide_eq_true Hal]. rewrite Hx in *.
    set (bb := b - mr_addr x - alias_offset r).
    destruct (IH view al bb clip' ro') as (S1 & A1 & M1); try done; [by eapply clear_sub, Hcl; apply shown_sub|].
    split_and!; [done| |done]. eapply adds_sub, A1. apply shown_sub.
  - assert (Hex : Forall (λ x, is_Some (rg !! x)) (subregions r)).
    { apply Forall_forall. intros x Hx. apply list_elem_of_In in Hx. pose proof (proj1 (forallb_forall _ _) Hkids x Hx) as Hn'.
      destruct fuel; [done|]. cbn [nested] in Hn'. by destruct (rg !! x); [eexists|]. }
    destruct (apart_each fuel b clip' ro' (subregions r)) with (view := view) as (S1 & A1 & M1); try done.
    + intros v x Hx Hsm' Hcl'. apply IH; try done. by apply (proj1 (forallb_forall _ _) Hkids), list_elem_of_In.
    + by apply (Hno mr r).
    + apply Forall_forall. intros x _. eapply clear_sub, Hcl. apply shown_sub.
    + rewrite S1. set (view1 := foldl _ view (subregions r)) in *. destruct Hc' as [Hc1 Hc2].
      destruct (terminates r); cbn [negb orb andb] in *; [|by split_and!]. apply Z.ltb_lt in Hterm.
      rewrite (clear_not_straddled clip' view) by done. split_and!; [done| |].
      * eapply adds_trans; [exact A1|].
        replace clip' with (addrrange_make (ar_start clip') (ar_size clip')) at 1 by (by destruct clip').
        by apply fill_within.
      * apply fill_small; [done| |done]. auto with lia.
Qed.

End Apart.

(** ** The theorems *)

Definition whole_space : AddrRange := addrrange_make 0 (2 ^ 64).

Lemma topology_ok {S} rg root (s : S) :
  nested rg (render_depth rg) root = true →
  render_safe rg (render_depth rg) flatview_init root 0 whole_space false = true →
  ∃ view, generate_memory_topology rg root s = Ok view s ∧ view_from 0 view ∧ unmergeable view ∧
    ∀ a, in_width 64 a → view_at view a = region_at rg (render_depth rg) root 0 false a.
Proof.
  intros Hn Hsafe.
  destruct (render_ok rg (render_depth rg) flatview_init root 0 whole_space false s) as [E (V & _ & A)]; try done.
  unfold generate_memory_topology. fold whole_space. rewrite (bind_Ok _ _ _ _ _ E).
  destruct (simplify_ok 0 _ V) as (V2 & U2 & A2). eexists. split; [reflexivity|]. split_and!; [done..|].
  intros a Ha. rewrite A2, A. simpl. rewrite (proj2 (contains_spec _ _)); [done|].
  unfold in_width, addrrange_end in *. simpl. lia.
Qed.

(** Rendering does not depend on the state it passes along. *)
Lemma topology_state {S} rg root view (s : S) :
  nested rg (render_depth rg) root = true →
  render_safe rg (render_depth rg) flatview_init root 0 whole_space false = true →
  generate_memory_topology rg root () = Ok view () → generate_memory_topology rg root s = Ok view s.
Proof.
  intros Hn Hsafe. unfold generate_memory_topology. fold whole_space.
  destruct (render_ok rg (render_depth rg) flatview_init root 0 whole_space false ()) as [E _]; try done.
  destruct (render_ok rg (render_depth rg) flatview_init root 0 whole_space false s) as [E' _]; try done.
  rewrite (bind_Ok _ _ _ _ _ E), (bind_Ok _ _ _ _ _ E'). by intros [= <-].
Qed.

(** C20. The view of a graph of regions says at every address what the graph says: the
    region reached by following subregions in order of priority and aliases, and
    the offset in it. The view is sorted, its ranges are disjoint, and none could
    be merged with the next. Rendering returns. The graph has no dangling pointer
    and no cycle ([nested]), and no region begins strictly inside a range that was
    rendered before it ([render_safe]; there the view has overlapping ranges, see
    [overlapping_view]), which is always so when subregions do not overlap. *)
Theorem topology_refines {S} rg root (s : S) :
  nested rg (render_depth rg) root = true →
  render_safe rg (render_depth rg) flatview_init root 0 whole_space false = true ∨ no_overlap rg →
  ∃ view, generate_memory_topology rg root s = Ok view s ∧ view_from 0 view ∧ unmergeable view ∧
    ∀ a, in_width 64 a → view_at view a = region_at rg (render_depth rg) root 0 false a.
Proof.
  intros Hn [Hsafe|Hno]; [by apply topology_ok|].
  destruct (apart_render rg (render_depth rg) flatview_init root 0 whole_space false) as (Hsafe & _); try done; [constructor|].
  by apply topology_ok.
Qed.

End View.
