(* ===== verification/TopologyFacts.v ===== *)
(** * Changes of the topology: theorems

    Two passes over the old and the new view tell the backend of an address space
    what to remove and what to add. The backend is known by an interface: a
    relation between its state and the ranges it has, and what its functions do to
    them. *)

From S2P Require Import Prelude RRTypes IOMem FlatView FlatViewFacts.
Local Open Scope Z_scope.

(** ** The interface *)

(** What identifies a range: all but its dirty logging. *)
Definition fr_key (r : FlatRange) : FlatRange :=
  mkFR (fr_mr r) (offset_in_region r) (fr_addr r) 0 (fr_readable r) (fr_readonly r).

Definition disjoint_ranges (r q : FlatRange) : Prop := fr_end r ≤ fr_start q ∨ fr_end q ≤ fr_start r.

(** The ranges the backend has, and the ranges it can take. *)
Class Backend {S} (ops : AddressSpaceOps S) := {
  has_ranges : list FlatRange → S → Prop;
  range_ok : FlatRange → Prop;
}.

(** A range can be added where there is none, and removed where it is; a range that
    stays may have its logging changed. *)
Class BackendLaws {S} (ops : AddressSpaceOps S) `{!Backend ops} := {
  ranges_perm l l' s : l ≡ₚ l' → has_ranges l s → has_ranges l' s;
  range_add_ok l r s : has_ranges l s → range_ok r → 0 < fr_size r → Forall (disjoint_ranges r) l →
    ∃ s', range_add ops r s = Ok () s' ∧ has_ranges (fr_key r :: l) s';
  range_del_ok l r s : has_ranges (fr_key r :: l) s → range_ok r → Forall (disjoint_ranges r) l →
    ∃ s', range_del ops r s = Ok () s' ∧ has_ranges l s';
  both_ok l o r s : fr_key r ∈ l → has_ranges l s → range_ok o → range_ok r →
    ∃ s', pass_both ops true o r s = Ok () s' ∧ has_ranges l s';
}.

(** ** Views as sets of ranges *)

Lemma equal_key a b : flatrange_equal a b = true ↔ fr_key a = fr_key b.
Proof.
  unfold flatrange_equal, addrrange_equal, fr_key. rewrite !andb_true_iff, !Z.eqb_eq, !eqb_true_iff.
  destruct a as [? ? [? ?] ? ? ?], b as [? ? [? ?] ? ? ?]. simpl. split; [intros; destruct_and?; congruence|].
  intros [= -> -> -> -> -> ->]. tauto.
Qed.

Lemma view_from_in b view r : view_from b view → r ∈ view → b ≤ fr_start r ∧ 0 < fr_size r.
Proof.
  revert b. induction view as [|q v IH]; intros b; [by intros _ Hr; inversion Hr|]. intros (V1 & V2 & V3) [->|Hr]%elem_of_cons; [done|].
  destruct (IH _ V3 Hr). unfold addrrange_end in *. lia.
Qed.

(** A range of the new view is in the old one, up to logging. *)
Definition kept (view : FlatView) (r : FlatRange) : bool := existsb (flatrange_equal r) view.

Definition removed (old new : FlatView) : FlatView := filter (λ r, kept new r = false) old.
Definition added (old new : FlatView) : FlatView := filter (λ r, kept old r = false) new.

Section Passes.
Context {S : Type} (ops : AddressSpaceOps S).

Fixpoint each_range (f : FlatRange → M S ()) (l : FlatView) : M S () :=
  match l with [] => mret () | r :: l' => f r;; each_range f l' end.

Definition find_equal (view : FlatView) (r : FlatRange) : option FlatRange := find (λ o, flatrange_equal o r) view.

(** What the second pass does with a range of the new view. *)
Definition add_or_log (old : FlatView) (r : FlatRange) : M S () :=
  match find_equal old r with Some o => pass_both ops true o r | None => range_add ops r end.

Lemma kept_later q v r : view_from (fr_end q) v → fr_start r ≤ fr_start q → 0 < fr_size q → kept v r = false.
Proof.
  intros Hv Hr Hq. unfold kept. apply not_true_iff_false. rewrite existsb_exists. intros (x & Hx%list_elem_of_In & Ex).
  apply equal_key in Ex. destruct (view_from_in _ _ _ Hv Hx) as [Hs _]. unfold addrrange_end in *.
  destruct r, x. unfold fr_key in Ex. simpl in *. injection Ex as -> -> -> -> ->. lia.
Qed.

Lemma old_first_spec o n :
  old_first o n = true ↔ fr_start o < fr_start n ∨ fr_start o = fr_start n ∧ flatrange_equal o n = false.
Proof. unfold old_first. rewrite orb_true_iff, andb_true_iff, Z.ltb_lt, Z.eqb_eq, negb_true_iff. done. Qed.

Lemma kept_cons x view r : kept (x :: view) r = flatrange_equal r x || kept view r.
Proof. done. Qed.

Lemma equal_start a b : flatrange_equal a b = true → fr_start a = fr_start b.
Proof. intros E%equal_key. destruct a, b. unfold fr_key in E. simpl in *. by injection E as -> -> -> -> ->. Qed.

Lemma equal_ne a b : fr_start a ≠ fr_start b → flatrange_equal a b = false.
Proof. intros Hne. apply not_true_iff_false. by intros ?%equal_start. Qed.

Lemma removed_skip n old new :
  Forall (λ o, flatrange_equal o n = false) old → removed old (n :: new) = removed old new.
Proof.
  induction 1 as [|o old Ho _ IH]; [done|]. unfold removed in *. rewrite !filter_cons, IH.
  assert (Hk : kept (n :: new) o = kept new o) by (by rewrite kept_cons, Ho).
  destruct (kept new o) eqn:E; [rewrite !decide_False by congruence|rewrite !decide_True by congruence]; done.
Qed.

Lemma later_starts b view x : view_from b view → x < b → Forall (λ r, x ≠ fr_start r) view.
Proof. intros Hv Hx. apply Forall_forall. intros r Hr. destruct (view_from_in _ _ _ Hv Hr). lia. Qed.

Lemma each_range_ext f g l (s : S) : Forall (λ r, ∀ s, f r s = g r s) l → each_range f l s = each_range g l s.
Proof.
  intros Hl. revert s. induction Hl as [|r l Hr _ IH]; intros s; [done|]. cbn [each_range].
  unfold mbind, M_bind. rewrite Hr. destruct (g r s); [apply IH|done].
Qed.

(** The three cases of the comparison, for sorted views. *)
Lemma pass_cases o old n new :
  view_from (fr_start o) (o :: old) → view_from (fr_start n) (n :: new) →
  if old_first o n then Forall (λ r, flatrange_equal o r = false) (n :: new)
  else if flatrange_equal o n then
    Forall (λ r, flatrange_equal r n = false) old ∧ Forall (λ r, flatrange_equal o r = false) new
  else Forall (λ r, flatrange_equal r n = false) (o :: old).
Proof.
  intros (_ & O2 & O3) (_ & N2 & N3). unfold addrrange_end in *.
  assert (Hold : ∀ r, r ∈ old → fr_start o < fr_start r) by (intros r Hr; destruct (view_from_in _ _ _ O3 Hr); unfold addrrange_end in *; lia).
  assert (Hnew : ∀ r, r ∈ new → fr_start n < fr_start r) by (intros r Hr; destruct (view_from_in _ _ _ N3 Hr); unfold addrrange_end in *; lia).
  destruct (old_first o n) eqn:Ef; [|destruct (flatrange_equal o n) eqn:Ee].
  - apply old_first_spec in Ef. apply Forall_forall. intros r [->|Hr]%elem_of_cons.
    + destruct Ef as [Hlt|[_ Hne]]; [apply equal_ne; lia|done].
    + apply equal_ne. specialize (Hnew r Hr). lia.
  - apply equal_start in Ee. split; apply Forall_forall; intros r Hr; apply equal_ne;
      [specialize (Hold r Hr)|specialize (Hnew r Hr)]; lia.
  - assert (Hlt : fr_start n < fr_start o).
    { destruct (Z.lt_trichotomy (fr_start o) (fr_start n)) as [Hc|[Hc|Hc]]; [|exfalso|done];
        [exfalso|]; apply not_true_iff_false in Ef; apply Ef, old_first_spec; auto. }
    apply Forall_forall. intros r [->|Hr]%elem_of_cons; apply equal_ne; [lia|]. specialize (Hold r Hr). lia.
Qed.

Lemma kept_false view r : Forall (λ x, flatrange_equal r x = false) view → kept view r = false.
Proof. induction 1 as [|x v Hx _ IH]; [done|]. by rewrite kept_cons, Hx. Qed.

Lemma view_tail b r v : view_from b (r :: v) → view_from (fr_start r) (r :: v) ∧ view_from (fr_end r) v.
Proof. intros (V1 & V2 & V3). by split. Qed.

(** The first pass removes exactly the ranges that are not in the new view. *)
Lemma pass_removes fuel : ∀ old new bo bn s,
  (length old + length new ≤ fuel)%nat → view_from bo old → view_from bn new →
  topology_loop ops fuel old new false s = each_range (range_del ops) (removed old new) s.
Proof.
  induction fuel as [|fuel IH]; intros old new bo bn s Hf Ho Hn.
  { destruct old, new; simpl in Hf; try lia; done. }
  destruct old as [|o old], new as [|n new]; cbn [topology_loop]; simpl in Hf.
  - done.
  - rewrite bind_ret. destruct (view_tail _ _ _ Hn) as [_ Hn']. by rewrite (IH [] new 0 (fr_end n)) by (simpl; lia || done).
  - destruct (view_tail _ _ _ Ho) as [_ Ho']. unfold removed. rewrite filter_cons, decide_True by done. cbn [each_range].
    apply bind_ext. intros [] s1 _. by apply (IH old [] (fr_end o) 0); [simpl; lia|..].
  - destruct (view_tail _ _ _ Ho) as [Ho1 Ho']. destruct (view_tail _ _ _ Hn) as [Hn1 Hn'].
    pose proof (pass_cases o old n new Ho1 Hn1) as Hc. destruct (old_first o n); [|destruct (flatrange_equal o n) eqn:Ee].
    + unfold removed. rewrite filter_cons, decide_True by (by apply kept_false). cbn [each_range].
      apply bind_ext. intros [] s1 _. by apply (IH old (n :: new) (fr_end o) (fr_start n)); [simpl; lia|..].
    + destruct Hc as [Hc1 _]. unfold pass_both. rewrite bind_ret, (IH old new (fr_end o) (fr_end n)) by (simpl; lia || done).
      f_equal. rewrite <-(removed_skip n old new Hc1). unfold removed. rewrite filter_cons, decide_False; [done|].
      by rewrite kept_cons, Ee.
    + rewrite bind_ret, (IH (o :: old) new (fr_start o) (fr_end n)) by (simpl; lia || done).
      by rewrite removed_skip.
Qed.

Lemma add_or_log_skip o old r s :
  flatrange_equal o r = false → add_or_log (o :: old) r s = add_or_log old r s.
Proof. intros E. unfold add_or_log, find_equal. simpl. by rewrite E. Qed.

(** The second pass goes through the new view: a range that was there before may
    start or stop logging, another is added. *)
Lemma pass_adds fuel : ∀ old new bo bn s,
  (length old + length new ≤ fuel)%nat → view_from bo old → view_from bn new →
  topology_loop ops fuel old new true s = each_range (add_or_log old) new s.
Proof.
  induction fuel as [|fuel IH]; intros old new bo bn s Hf Ho Hn.
  { destruct old, new; simpl in Hf; try lia; done. }
  destruct old as [|o old], new as [|n new]; cbn [topology_loop]; simpl in Hf.
  - done.
  - destruct (view_tail _ _ _ Hn) as [_ Hn']. cbn [each_range]. unfold add_or_log at 1. simpl.
    apply bind_ext. intros [] s1 _. by apply (IH [] new 0 (fr_end n)); [simpl; lia|..].
  - destruct (view_tail _ _ _ Ho) as [_ Ho']. rewrite bind_ret. by rewrite (IH old [] (fr_end o) 0) by (simpl; lia || done).
  - destruct (view_tail _ _ _ Ho) as [Ho1 Ho']. destruct (view_tail _ _ _ Hn) as [Hn1 Hn'].
    pose proof (pass_cases o old n new Ho1 Hn1) as Hc.
    assert (Hskip : ∀ l s, Forall (λ r, flatrange_equal o r = false) l →
      each_range (add_or_log old) l s = each_range (add_or_log (o :: old)) l s).
    { intros l s' Hl. apply each_range_ext. eapply Forall_impl; [exact Hl|]. intros r Hr s2. by rewrite add_or_log_skip. }
    destruct (old_first o n); [|destruct (flatrange_equal o n) eqn:Ee].
    + rewrite bind_ret, (IH old (n :: new) (fr_end o) (fr_start n)) by (simpl; lia || done). by apply Hskip.
    + cbn [each_range]. destruct Hc as [_ Hc].
      assert (Hhd : add_or_log (o :: old) n = pass_both ops true o n) by (unfold add_or_log, find_equal; simpl; by rewrite Ee).
      rewrite Hhd. apply bind_ext. intros [] s1 _. rewrite (IH old new (fr_end o) (fr_end n)) by (simpl; lia || done). by apply Hskip.
    + cbn [each_range]. assert (Hnone : add_or_log (o :: old) n = range_add ops n).
      { unfold add_or_log, find_equal. destruct (find _ _) as [x|] eqn:Ex; [|done]. apply find_some in Ex as [Hx Ex].
        rewrite Forall_forall in Hc. by rewrite (Hc x) in Ex by (by apply list_elem_of_In). }
      rewrite Hnone. apply bind_ext. intros [] s1 _.
      by rewrite (IH (o :: old) new (fr_start o) (fr_end n)) by (simpl; lia || done).
Qed.

End Passes.

(** ** The backend follows the view *)

Section Sync.
Context {S : Type} (ops : AddressSpaceOps S) `{!Backend ops} `{!BackendLaws ops}.

Lemma key_start r : fr_start (fr_key r) = fr_start r.
Proof. done. Qed.

Lemma view_from_app b v1 r v2 x :
  view_from b (v1 ++ r :: v2) → x ∈ v1 ∨ x ∈ v2 → disjoint_ranges r x.
Proof.
  revert b. induction v1 as [|q v1 IH]; intros b; simpl.
  - intros (V1 & V2 & V3) [Hx|Hx]; [inversion Hx|]. destruct (view_from_in _ _ _ V3 Hx). left. lia.
  - intros (V1 & V2 & V3) [[->|Hx]%elem_of_cons|Hx]; [|by eapply IH; eauto..].
    right. eapply (view_from_in _ _ r); [exact V3|]. apply elem_of_app. right. by left.
Qed.

Lemma view_keys_NoDup b view : view_from b view → NoDup (fr_key <$> view).
Proof.
  revert b. induction view as [|r v IH]; intros b; [constructor|]. intros (V1 & V2 & V3). rewrite fmap_cons.
  constructor; [|by apply (IH (fr_end r))]. intros (x & E & Hx)%list_elem_of_fmap.
  destruct (view_from_in _ _ _ V3 Hx). assert (fr_start r = fr_start x) by (rewrite <-key_start, E; done).
  unfold addrrange_end in *. lia.
Qed.

Lemma kept_spec view r : kept view r = true ↔ ∃ x, x ∈ view ∧ fr_key r = fr_key x.
Proof.
  unfold kept. rewrite existsb_exists. split; intros (x & Hx & E); exists x.
  - by rewrite list_elem_of_In, <-equal_key.
  - by rewrite <-list_elem_of_In, equal_key.
Qed.

(** The ranges that are in both views are the same, seen from either. *)
Lemma kept_both b b' old new :
  view_from b old → view_from b' new →
  fr_key <$> filter (λ r, ¬ kept new r = false) old ≡ₚ fr_key <$> filter (λ r, ¬ kept old r = false) new.
Proof.
  intros Ho Hn. assert (Hsub : ∀ v w, NoDup (fr_key <$> v) → NoDup (fr_key <$> filter (λ r, ¬ kept w r = false) v)).
  { intros v w Hnd. eapply sublist_NoDup; [exact Hnd|]. apply fmap_sublist, sublist_filter. }
  apply NoDup_Permutation; [by eapply Hsub, view_keys_NoDup..|].
  assert (Hin : ∀ v w k, k ∈ fr_key <$> filter (λ r, ¬ kept w r = false) v →
    k ∈ fr_key <$> filter (λ r, ¬ kept v r = false) w).
  { intros v w k (r & -> & [Hk%not_false_iff_true Hr]%list_elem_of_filter)%list_elem_of_fmap.
    apply kept_spec in Hk as (x & Hx & E). apply list_elem_of_fmap. exists x. split; [done|].
    apply list_elem_of_filter. split; [|done]. apply not_false_iff_true, kept_spec. by exists r. }
  intros k. split; apply Hin.
Qed.

Lemma view_from_remove b v1 r v2 : view_from b (v1 ++ r :: v2) → view_from b (v1 ++ v2).
Proof.
  revert b. induction v1 as [|q v1 IH]; intros b; simpl; intros (V1 & V2 & V3).
  - eapply view_from_le, V3. unfold addrrange_end. lia.
  - split_and!; [done..|]. by apply IH.
Qed.

Lemma remove_each l : ∀ view rest s,
  view_from 0 view → view ≡ₚ l ++ rest → Forall range_ok l → has_ranges (fr_key <$> l ++ rest) s →
  ∃ s', each_range (range_del ops) l s = Ok () s' ∧ has_ranges (fr_key <$> rest) s'.
Proof.
  induction l as [|r l IH]; intros view rest s Hv Hp Hok Hs; [by exists s|]. cbn [each_range].
  apply Forall_cons in Hok as [Hr Hok]. destruct (Permutation_vs_cons_inv Hp) as (v1 & v2 & ->).
  assert (Hp' : v1 ++ v2 ≡ₚ l ++ rest).
  { apply (Permutation_cons_inv (a:=r)). by rewrite <-Hp, Permutation_middle. }
  destruct (range_del_ok (fr_key <$> l ++ rest) r s) as (s1 & E & H1); [done..| |].
  - apply Forall_forall. intros k (x & -> & Hx)%list_elem_of_fmap. rewrite <-Hp' in Hx.
    apply (view_from_app 0 v1 r v2 x Hv). by apply elem_of_app.
  - rewrite (bind_Ok _ _ _ _ _ E). apply (IH (v1 ++ v2)); [|done..]. by eapply view_from_remove.
Qed.

Lemma add_each b old new l : ∀ fin s,
  view_from b new → Forall range_ok old → Forall range_ok new → new = fin ++ l →
  let ko := filter (λ r, ¬ kept new r = false) old in
  has_ranges (fr_key <$> ko ++ added old fin) s →
  ∃ s', each_range (add_or_log ops old) l s = Ok () s' ∧ has_ranges (fr_key <$> ko ++ added old new) s'.
Proof.
  induction l as [|r l IH]; intros fin s Hv Hold Hok Hnew ko Hs.
  { exists s. rewrite app_nil_r in Hnew. by subst fin. }
  cbn [each_range]. change (add_or_log ops old r)
    with (match find_equal old r with Some o => pass_both ops true o r | None => range_add ops r end).
  assert (Hnext : ∀ s1, has_ranges (fr_key <$> ko ++ added old (fin ++ [r])) s1 →
    ∃ s', each_range (add_or_log ops old) l s1 = Ok () s' ∧ has_ranges (fr_key <$> ko ++ added old new) s').
  { intros s1 H1. apply (IH (fin ++ [r])); [done|done|done| |done]. by rewrite <-app_assoc. }
  assert (Hrn : r ∈ new) by (subst new; apply elem_of_app; right; by left).
  pose proof (proj1 (Forall_forall _ _) Hok r Hrn) as Hr.
  destruct (find_equal old r) as [o|] eqn:Ef.
  - apply find_some in Ef as [Ho%list_elem_of_In Eo%equal_key].
    assert (Hk : added old (fin ++ [r]) = added old fin).
    { unfold added. rewrite filter_app, filter_cons, decide_False, app_nil_r; [done|].
      apply not_false_iff_true, kept_spec. by exists o. }
    assert (Hin : fr_key r ∈ fr_key <$> ko ++ added old fin).
    { rewrite <-Eo. apply list_elem_of_fmap_2, elem_of_app. left. apply list_elem_of_filter. split; [|done].
      apply not_false_iff_true, kept_spec. by exists r. }
    destruct (both_ok _ o r s Hin Hs (proj1 (Forall_forall _ _) Hold o Ho) Hr) as (s1 & E1 & H1). rewrite (bind_Ok _ _ _ _ _ E1).
    apply Hnext. by rewrite Hk.
  - assert (Hnone : ∀ o, o ∈ old → fr_key o ≠ fr_key r).
    { intros o Ho E. pose proof (find_none _ _ Ef o ltac:(by apply list_elem_of_In)) as Hf. simpl in Hf.
      apply equal_key in E. congruence. }
    destruct (range_add_ok (fr_key <$> ko ++ added old fin) r s Hs Hr) as (s1 & E1 & H1).
    + by destruct (view_from_in b new r Hv Hrn).
    + apply Forall_forall. intros k (x & -> & [Hx|Hx]%elem_of_app)%list_elem_of_fmap.
      * apply list_elem_of_filter in Hx as [Hk%not_false_iff_true Hx]. apply kept_spec in Hk as (y & Hy & Ey). rewrite Ey.
        rewrite Hnew in Hy, Hv. apply elem_of_app in Hy as [Hy|[->|Hy]%elem_of_cons]; [|by destruct (Hnone x Hx)|];
          apply (view_from_app b fin r l y Hv); auto.
      * apply list_elem_of_filter in Hx as [_ Hx]. rewrite Hnew in Hv. apply (view_from_app b fin r l x Hv). by left.
    + rewrite (bind_Ok _ _ _ _ _ E1). apply Hnext. eapply ranges_perm, H1. rewrite <-fmap_cons.
      apply fmap_Permutation. unfold added. rewrite filter_app, filter_cons, decide_True; [|].
      * rewrite filter_nil. rewrite app_assoc. apply Permutation_cons_append.
      * apply not_true_iff_false. rewrite kept_spec. intros (x & Hx & E). by apply (Hnone x Hx).
Qed.

Lemma passes_ok old new s :
  view_from 0 old → view_from 0 new → Forall range_ok old → Forall range_ok new → has_ranges (fr_key <$> old) s →
  ∃ s', (address_space_update_topology_pass ops old new false;;
         address_space_update_topology_pass ops old new true) s = Ok () s' ∧
    has_ranges (fr_key <$> new) s'.
Proof.
  intros Ho Hn Hko Hkn Hs. unfold address_space_update_topology_pass.
  assert (Hp : old ≡ₚ removed old new ++ filter (λ r, ¬ kept new r = false) old) by (symmetry; apply filter_app_complement).
  destruct (remove_each (removed old new) old (filter (λ r, ¬ kept new r = false) old) s) as (s1 & E1 & H1); [done|done| | |].
  { apply Forall_forall. intros r [_ Hr]%list_elem_of_filter. by apply (proj1 (Forall_forall _ _) Hko). }
  { eapply ranges_perm, Hs. by apply fmap_Permutation. }
  rewrite (bind_Ok _ _ _ _ _ (eq_trans (pass_removes ops _ old new 0 0 s (le_n _) Ho Hn) E1)).
  destruct (add_each 0 old new new [] s1) as (s2 & E2 & H2); [done..|by rewrite app_nil_r|].
  rewrite (pass_adds ops _ old new 0 0) by (done || lia). exists s2. split; [done|]. simpl in H2.
  eapply ranges_perm, H2. rewrite fmap_app, (kept_both 0 0 old new Ho Hn), <-fmap_app. apply fmap_Permutation.
  unfold added. rewrite Permutation_app_comm. apply filter_app_complement.
Qed.

(** C21. After the two passes the backend has exactly the ranges of the new view; a
    range is only ever added where no other is. Both passes return. *)
Theorem topology_passes_sync old new s :
  view_from 0 old → view_from 0 new → Forall range_ok old → Forall range_ok new → has_ranges (fr_key <$> old) s →
  ∃ s', (address_space_update_topology_pass ops old new false;;
         address_space_update_topology_pass ops old new true) s = Ok () s' ∧
    has_ranges (fr_key <$> new) s'.
Proof. apply passes_ok. Qed.

End Sync.
