(* ===== verification/IOPort.v ===== *)
(** * The tables of I/O ports ([ioport.c], [ioport.h])

    For each of the 65536 ports and each access size there may be a function to
    read and one to write; the port has one opaque pointer. Regions of ports are
    registered with the functions that forward to an [IORange]. The accesses
    themselves are in [RegionIO]. *)

From S2P Require Import Prelude RRTypes.
Local Open Scope Z_scope.

Definition MAX_IOPORTS : Z := 64 * 1024.
Definition IOPORTS_MASK : Z := MAX_IOPORTS - 1.

(** The opaque pointer: the [IORange] of a memory region, or a device's own. *)
Inductive port_opaque :=
| PoIorange (mr : Z)
| PoDevice (p : Z).
#[export] Instance port_opaque_eq_dec : EqDecision port_opaque.
Proof. solve_decision. Defined.

(** [ioport_readb_thunk] .. [ioport_readl_thunk] (or the writers), or a function
    of a device. *)
Inductive port_fn :=
| PortThunk (size : Z)
| PortFn (id : Z).
#[export] Instance port_fn_eq_dec : EqDecision port_fn.
Proof. solve_decision. Defined.

(** The tables are keyed by access size (0, 1, 2) and port; no entry is a null
    pointer. *)
Record port_state := mkPorts {
  ioport_opaque : gmap Z port_opaque;
  ioport_read_table : gmap (Z * Z) port_fn;
  ioport_write_table : gmap (Z * Z) port_fn;
}.
Abbreviation PT := (M port_state).

Definition set_read_table (x : gmap (Z * Z) port_fn) (s : port_state) : port_state :=
  mkPorts (ioport_opaque s) x (ioport_write_table s).
Definition set_write_table (x : gmap (Z * Z) port_fn) (s : port_state) : port_state :=
  mkPorts (ioport_opaque s) (ioport_read_table s) x.
Definition set_ioport_opaque (x : gmap Z port_opaque) (s : port_state) : port_state :=
  mkPorts x (ioport_read_table s) (ioport_write_table s).

Definition ioport_bsize (size : Z) : option Z :=
  if size =? 1 then Some 0 else if size =? 2 then Some 1 else if size =? 4 then Some 2 else None.

(** Is [i] in the tables? *)
Definition port_in (i : Z) : PT () := assert_or OutOfBounds (i <? MAX_IOPORTS).

(** [for (i = start; i < start + length; ++i)], compared as unsigned numbers. *)
Fixpoint each_port (n : nat) (body : Z → PT ()) (i : Z) : PT () :=
  match n with
  | O => mret ()
  | S n' => body i;; each_port n' body (i + 1)
  end.
Definition ports_from (start length : Z) : nat := Z.to_nat (wrap 32 (start + length) - start).

(** [hw_error] does not return. *)
Definition claim_port (opaque : port_opaque) (i : Z) : PT () :=
  o ← gets ioport_opaque;
  match o !! i with
  | Some p => if decide (p = opaque) then mret () else fail Abort
  | None => mret ()
  end;;
  modify (λ s, set_ioport_opaque (<[i := opaque]> (ioport_opaque s)) s).

Definition register_ioport_read (start length size : Z) (func : option port_fn) (opaque : port_opaque) : PT Z :=
  match ioport_bsize size with
  | None => fail Abort
  | Some bsize =>
      each_port (ports_from start length) (λ i,
        port_in i;;
        modify (λ s, set_read_table (partial_alter (λ _, func) (bsize, i) (ioport_read_table s)) s);;
        claim_port opaque i) start;;
      mret 0
  end.

Definition register_ioport_write (start length size : Z) (func : option port_fn) (opaque : port_opaque) : PT Z :=
  match ioport_bsize size with
  | None => fail Abort
  | Some bsize =>
      each_port (ports_from start length) (λ i,
        port_in i;;
        modify (λ s, set_write_table (partial_alter (λ _, func) (bsize, i) (ioport_write_table s)) s);;
        claim_port opaque i) start;;
      mret 0
  end.

(** The [IORange] of region [mr], with its base and length. *)
Definition ioport_register (mr base len : Z) : PT () :=
  let start := wrap 32 base in
  let length := int32 len in
  register_ioport_read start length 1 (Some (PortThunk 1)) (PoIorange mr);;
  register_ioport_read start length 2 (Some (PortThunk 2)) (PoIorange mr);;
  register_ioport_read start length 4 (Some (PortThunk 4)) (PoIorange mr);;
  register_ioport_write start length 1 (Some (PortThunk 1)) (PoIorange mr);;
  register_ioport_write start length 2 (Some (PortThunk 2)) (PoIorange mr);;
  register_ioport_write start length 4 (Some (PortThunk 4)) (PoIorange mr);;
  mret ().

Definition isa_unassign_ioport (start length : Z) : PT () :=
  each_port (ports_from start length) (λ i,
    port_in i;;
    modify (λ s, mkPorts (delete i (ioport_opaque s))
      (delete (2, i) (delete (1, i) (delete (0, i) (ioport_read_table s))))
      (delete (2, i) (delete (1, i) (delete (0, i) (ioport_write_table s)))))) start.

Definition isa_is_ioport_assigned (start : Z) : PT bool :=
  port_in start;;
  r ← gets ioport_read_table; w ← gets ioport_write_table;
  mret (bool_decide (is_Some (r !! (0, start))) || bool_decide (is_Some (w !! (0, start)))
     || bool_decide (is_Some (r !! (1, start))) || bool_decide (is_Some (w !! (1, start)))
     || bool_decide (is_Some (r !! (2, start))) || bool_decide (is_Some (w !! (2, start)))).

(** ** What the tables say about a port *)

(** The entry of a port of a region, and of one nobody has. *)
Definition thunk_of (b : Z) : option port_fn :=
  if b =? 0 then Some (PortThunk 1) else if b =? 1 then Some (PortThunk 2) else if b =? 2 then Some (PortThunk 4) else None.

Definition port_of_region (s : port_state) (mr p : Z) : Prop :=
  ioport_opaque s !! p = Some (PoIorange mr) ∧
  ∀ b, 0 ≤ b < 3 → ioport_read_table s !! (b, p) = thunk_of b ∧ ioport_write_table s !! (b, p) = thunk_of b.
Definition port_free (s : port_state) (p : Z) : Prop :=
  ioport_opaque s !! p = None ∧
  ∀ b, 0 ≤ b < 3 → ioport_read_table s !! (b, p) = None ∧ ioport_write_table s !! (b, p) = None.
Definition same_port (s s' : port_state) (p : Z) : Prop :=
  ioport_opaque s' !! p = ioport_opaque s !! p ∧
  ∀ b, ioport_read_table s' !! (b, p) = ioport_read_table s !! (b, p) ∧
       ioport_write_table s' !! (b, p) = ioport_write_table s !! (b, p).

(** ** Lemmas *)

Lemma each_port_inv (I : Z → port_state → Prop) n body : ∀ i s,
  I i s →
  (∀ j t, i ≤ j < i + Z.of_nat n → I j t → ∃ t', body j t = Ok () t' ∧ I (j + 1) t') →
  ∃ s', each_port n body i s = Ok () s' ∧ I (i + Z.of_nat n) s'.
Proof.
  induction n as [|n IH]; intros i s Hi Hstep; simpl.
  - exists s. rewrite Z.add_0_r. done.
  - destruct (Hstep i s ltac:(lia) Hi) as (t & E & Ht). rewrite (bind_Ok _ _ _ _ _ E).
    destruct (IH (i + 1) t Ht) as (s' & E' & Hs').
    { intros j u Hj. apply Hstep. lia. }
    exists s'. split; [done|]. replace (i + Z.of_nat (S n)) with (i + 1 + Z.of_nat n) by lia. done.
Qed.

Lemma ports_from_eq start length :
  0 ≤ start → 0 ≤ length → start + length ≤ MAX_IOPORTS → Z.of_nat (ports_from start length) = length.
Proof. intros. unfold ports_from, MAX_IOPORTS in *. rewrite wrap_small by (unfold in_width; lia). lia. Qed.

(** The ports from [start] on have a new owner and, where [fr] and [fw] say so, new
    functions. *)
Record ports_set (start length : Z) (fr fw : Z → option (option port_fn)) (op : port_opaque) (s s' : port_state) : Prop := {
  ps_opaque p : ioport_opaque s' !! p = if decide (start ≤ p < start + length) then Some op else ioport_opaque s !! p;
  ps_read b p : ioport_read_table s' !! (b, p)
    = if decide (start ≤ p < start + length) then default (ioport_read_table s !! (b, p)) (fr b) else ioport_read_table s !! (b, p);
  ps_write b p : ioport_write_table s' !! (b, p)
    = if decide (start ≤ p < start + length) then default (ioport_write_table s !! (b, p)) (fw b) else ioport_write_table s !! (b, p);
}.

Definition then_set (f g : Z → option (option port_fn)) (b : Z) : option (option port_fn) :=
  match g b with Some x => Some x | None => f b end.

Lemma ports_set_trans start length fr fw gr gw op s s1 s2 :
  ports_set start length fr fw op s s1 → ports_set start length gr gw op s1 s2 →
  ports_set start length (then_set fr gr) (then_set fw gw) op s s2.
Proof.
  intros [A1 A2 A3] [B1 B2 B3]. split.
  - intros p. rewrite B1, A1. by case_decide.
  - intros b p. rewrite B2, A2. unfold then_set. case_decide; [|done]. by destruct (gr b).
  - intros b p. rewrite B3, A3. unfold then_set. case_decide; [|done]. by destruct (gw b).
Qed.

(** Nobody else has the ports. *)
Definition claimable (start length : Z) (op : port_opaque) (s : port_state) : Prop :=
  ∀ p, start ≤ p < start + length → ioport_opaque s !! p = None ∨ ioport_opaque s !! p = Some op.

Lemma claimable_after start length fr fw op s s' : ports_set start length fr fw op s s' → claimable start length op s'.
Proof. intros [A1 _ _] p Hp. rewrite A1, decide_True by done. by right. Qed.

Lemma claim_ok op i s :
  ioport_opaque s !! i = None ∨ ioport_opaque s !! i = Some op →
  claim_port op i s = Ok () (set_ioport_opaque (<[i := op]> (ioport_opaque s)) s).
Proof. intros Hi. unfold claim_port. rewrite bind_gets. destruct Hi as [->| ->]; [done|]. by rewrite decide_True. Qed.

Definition only (b : Z) (f : option port_fn) (x : Z) : option (option port_fn) := if x =? b then Some f else None.
Definition no_fn (b : Z) : option (option port_fn) := None.

Section Register.
Context (start length : Z) (op : port_opaque).
Hypothesis (Hs : 0 ≤ start) (Hl : 0 ≤ length) (Hm : start + length ≤ MAX_IOPORTS).

(** One loop: [upd] changes one of the tables at the port. *)
Lemma register_loop_ports (upd : Z → port_state → port_state) fr fw s :
  claimable start length op s →
  (∀ i t, ioport_opaque (upd i t) = ioport_opaque t ∧ ∀ b p,
    ioport_read_table (upd i t) !! (b, p) = (if decide (p = i) then default (ioport_read_table t !! (b, p)) (fr b) else ioport_read_table t !! (b, p)) ∧
    ioport_write_table (upd i t) !! (b, p) = (if decide (p = i) then default (ioport_write_table t !! (b, p)) (fw b) else ioport_write_table t !! (b, p))) →
  ∃ s', each_port (ports_from start length) (λ i, port_in i;; modify (upd i);; claim_port op i) start s = Ok () s' ∧
    ports_set start length fr fw op s s'.
Proof.
  intros Hc Hupd.
  destruct (each_port_inv (λ i t, start ≤ i ∧ ports_set start (i - start) fr fw op s t) (ports_from start length)
    (λ i, port_in i;; modify (upd i);; claim_port op i) start s) as (s' & E & _ & Hs').
  - split; [lia|]. split; intros; by rewrite decide_False by lia.
  - rewrite ports_from_eq by done. intros i t Hi [_ [T1 T2 T3]]. destruct (Hupd i t) as [U1 U2].
    assert (Hown : ioport_opaque (upd i t) !! i = None ∨ ioport_opaque (upd i t) !! i = Some op).
    { rewrite U1, T1, decide_False by lia. apply Hc. lia. }
    exists (set_ioport_opaque (<[i := op]> (ioport_opaque (upd i t))) (upd i t)). split.
    + unfold port_in. rewrite (bind_Ok _ _ _ () t) by (apply assert_true, Z.ltb_lt; lia). rewrite bind_modify. by apply claim_ok.
    + split; [lia|]. split; simpl.
      * intros p. rewrite U1. destruct (decide (p = i)) as [->|Hne].
        { rewrite lookup_insert_eq, decide_True by lia. done. }
        rewrite lookup_insert_ne, T1 by done. repeat case_decide; done || lia.
      * intros b p. destruct (U2 b p) as [-> _]. rewrite T2. repeat case_decide; done || lia.
      * intros b p. destruct (U2 b p) as [_ ->]. rewrite T3. repeat case_decide; done || lia.
  - exists s'. split; [done|]. rewrite ports_from_eq in Hs' by done. by replace (start + length - start) with length in Hs' by lia.
Qed.

Lemma alter_table (t : gmap (Z * Z) port_fn) f b i c p :
  partial_alter (λ _, f) (b, i) t !! (c, p) = if decide (p = i) then default (t !! (c, p)) (only b f c) else t !! (c, p).
Proof.
  unfold only. destruct (Z.eqb_spec c b) as [->|Hne].
  - destruct (decide (p = i)) as [->|Hp]; [by rewrite lookup_partial_alter_eq|]. rewrite lookup_partial_alter_ne; [done|congruence].
  - rewrite lookup_partial_alter_ne by congruence. by case_decide.
Qed.

Lemma register_read_ok size b f s :
  ioport_bsize size = Some b → claimable start length op s →
  ∃ s', register_ioport_read start length size f op s = Ok 0 s' ∧ ports_set start length (only b f) no_fn op s s'.
Proof.
  intros Hb Hc. unfold register_ioport_read. rewrite Hb.
  destruct (register_loop_ports (λ i s, set_read_table (partial_alter (λ _, f) (b, i) (ioport_read_table s)) s)
    (only b f) no_fn s Hc) as (s' & E & Hs').
  { intros i t. split; [done|]. intros c p. split; [apply alter_table|]. simpl. by case_decide. }
  exists s'. by rewrite (bind_Ok _ _ _ _ _ E).
Qed.

Lemma register_write_ok size b f s :
  ioport_bsize size = Some b → claimable start length op s →
  ∃ s', register_ioport_write start length size f op s = Ok 0 s' ∧ ports_set start length no_fn (only b f) op s s'.
Proof.
  intros Hb Hc. unfold register_ioport_write. rewrite Hb.
  destruct (register_loop_ports (λ i s, set_write_table (partial_alter (λ _, f) (b, i) (ioport_write_table s)) s)
    no_fn (only b f) s Hc) as (s' & E & Hs').
  { intros i t. split; [done|]. intros c p. split; [|apply alter_table]. simpl. by case_decide. }
  exists s'. by rewrite (bind_Ok _ _ _ _ _ E).
Qed.

End Register.

Lemma wrap_ports base len :
  0 ≤ base → 0 ≤ len → base + len ≤ MAX_IOPORTS → wrap 32 base = base ∧ int32 len = len.
Proof.
  intros. unfold MAX_IOPORTS, int32 in *. rewrite !wrap_small by (unfold in_width; lia). lia.
Qed.

(** A region of ports is registered: its ports lead to the region, the others are
    as before. *)
Lemma ioport_register_ok mr base len s :
  0 ≤ base → 0 ≤ len → base + len ≤ MAX_IOPORTS → claimable base len (PoIorange mr) s →
  ∃ s', ioport_register mr base len s = Ok () s' ∧
    ∀ p, if decide (base ≤ p < base + len) then port_of_region s' mr p else same_port s s' p.
Proof.
  intros Hb Hl Hm Hc. destruct (wrap_ports base len Hb Hl Hm) as [Eb El]. unfold ioport_register. rewrite Eb, El.
  destruct (register_read_ok base len (PoIorange mr) Hb Hl Hm 1 0 (Some (PortThunk 1)) s eq_refl Hc) as (s1 & E1 & P1).
  rewrite (bind_Ok _ _ _ _ _ E1).
  destruct (register_read_ok base len (PoIorange mr) Hb Hl Hm 2 1 (Some (PortThunk 2)) s1 eq_refl) as (s2 & E2 & P2);
    [by eapply claimable_after|]. rewrite (bind_Ok _ _ _ _ _ E2).
  destruct (register_read_ok base len (PoIorange mr) Hb Hl Hm 4 2 (Some (PortThunk 4)) s2 eq_refl) as (s3 & E3 & P3);
    [by eapply claimable_after|]. rewrite (bind_Ok _ _ _ _ _ E3).
  destruct (register_write_ok base len (PoIorange mr) Hb Hl Hm 1 0 (Some (PortThunk 1)) s3 eq_refl) as (s4 & E4 & P4);
    [by eapply claimable_after|]. rewrite (bind_Ok _ _ _ _ _ E4).
  destruct (register_write_ok base len (PoIorange mr) Hb Hl Hm 2 1 (Some (PortThunk 2)) s4 eq_refl) as (s5 & E5 & P5);
    [by eapply claimable_after|]. rewrite (bind_Ok _ _ _ _ _ E5).
  destruct (register_write_ok base len (PoIorange mr) Hb Hl Hm 4 2 (Some (PortThunk 4)) s5 eq_refl) as (s6 & E6 & P6);
    [by eapply claimable_after|]. rewrite (bind_Ok _ _ _ _ _ E6).
  exists s6. split; [done|].
  destruct (ports_set_trans _ _ _ _ _ _ _ _ _ _ (ports_set_trans _ _ _ _ _ _ _ _ _ _ (ports_set_trans _ _ _ _ _ _ _ _ _ _
    (ports_set_trans _ _ _ _ _ _ _ _ _ _ (ports_set_trans _ _ _ _ _ _ _ _ _ _ P1 P2) P3) P4) P5) P6) as [Q1 Q2 Q3].
  intros p. destruct (decide (base ≤ p < base + len)) as [Hp|Hp].
  - split; [by rewrite Q1, decide_True|]. intros b Hb3. rewrite Q2, Q3, !decide_True by done.
    assert (b = 0 ∨ b = 1 ∨ b = 2) as [->|[->| ->]] by lia; done.
  - split; [by rewrite Q1, decide_False|]. intros b. by rewrite Q2, Q3, !decide_False.
Qed.

(** Ports are given back. *)
Lemma unassign_ok start len s :
  0 ≤ start → 0 ≤ len → start + len ≤ MAX_IOPORTS →
  ∃ s', isa_unassign_ioport start len s = Ok () s' ∧
    ∀ p, if decide (start ≤ p < start + len) then port_free s' p else same_port s s' p.
Proof.
  intros Hs Hl Hm. unfold isa_unassign_ioport.
  destruct (each_port_inv (λ i t, start ≤ i ∧ ∀ p, if decide (start ≤ p < i) then port_free t p else same_port s t p)
    (ports_from start len) (λ i, port_in i;; modify (λ s, mkPorts (delete i (ioport_opaque s))
      (delete (2, i) (delete (1, i) (delete (0, i) (ioport_read_table s))))
      (delete (2, i) (delete (1, i) (delete (0, i) (ioport_write_table s)))))) start s) as (s' & E & _ & Hs').
  - split; [lia|]. intros p. by rewrite decide_False by lia.
  - rewrite ports_from_eq by done. intros i t Hi [_ Ht]. eexists. split.
    { unfold port_in. rewrite (bind_Ok _ _ _ () t) by (apply assert_true, Z.ltb_lt; lia). reflexivity. }
    split; [lia|]. intros p. specialize (Ht p). unfold port_free, same_port in *. simpl. destruct (decide (p = i)) as [->|Hne].
    + rewrite decide_True by lia. split; [by rewrite lookup_delete_eq|]. intros b Hb.
      assert (b = 0 ∨ b = 1 ∨ b = 2) as [->|[->| ->]] by lia; by simplify_map_eq.
    + rewrite lookup_delete_ne by done.
      assert (Hd : ∀ (m : gmap (Z * Z) port_fn) b, delete (2, i) (delete (1, i) (delete (0, i) m)) !! (b, p) = m !! (b, p))
        by (intros m b; rewrite !lookup_delete_ne by congruence; done).
      destruct (decide (start ≤ p < i)).
      * rewrite decide_True by lia. destruct Ht as [T1 T2]. split; [done|]. intros b Hb. rewrite !Hd. by apply T2.
      * rewrite decide_False by lia. destruct Ht as [T1 T2]. split; [done|]. intros b. rewrite !Hd. apply T2.
  - exists s'. split; [done|]. by rewrite ports_from_eq in Hs'.
Qed.

(** A port another device has is refused: the emulator stops. *)
Lemma claim_refused op i s q : ioport_opaque s !! i = Some q → q ≠ op → claim_port op i s = Err Abort s.
Proof.
  intros Hi Hq. unfold claim_port. rewrite bind_gets, Hi, decide_False by done. apply bind_Err. done.
Qed.
