(* ===== verification/MemRegion.v ===== *)
(** * Memory regions: the API ([memory.c])

    Regions live in a store; an address space has a root and the view that was
    last given to its backend. Every change of a region renders the address spaces
    again, unless a transaction is open. The backend of the memory space is the
    registration of physical memory ([PhysMem]), that of the port space the tables
    of ports ([IOPort]); coalesced MMIO, dirty logging and event notifiers of KVM
    are events. *)

From S2P Require Import Prelude CFile CString HostMem RamList Radix PhysPages RRTypes PandaCallbacks.
From S2P Require Import RRState RRQueue RRFormat RRReplay RRReplayInv RRRecord IOMem PhysMem IOPort FlatView.
Local Open Scope Z_scope.

(** ** State *)

Record AddressSpace := mkAS {
  as_root : option Z;
  current_map : FlatView;
  as_ioeventfds : list MemoryRegionIoeventfd;
}.

Inductive mt_event :=
| EvSyncDirty (start_addr end_addr : Z)
| EvLogStart (start_addr size : Z)
| EvLogStop (start_addr size : Z)
| EvIoeventfd (pio : bool) (fd addr data : Z) (assign : bool)
| EvCoalesced (add : bool) (addr size : Z)
| EvResetDirty (start end_ flags : Z).

Record mt_state `{PhysSpace} := mkMT {
  mt_mm : mem_state;
  mt_ports : port_state;
  regions : gmap Z MemoryRegion;
  memory_region_transaction_depth : Z;
  address_space_memory : AddressSpace;
  address_space_io : AddressSpace;
  mt_trace : list mt_event;
}.
Arguments mt_state {_}.

Section Setters.
Context `{PhysSpace}.
Definition set_mt_mm (x : mem_state) (s : mt_state) : mt_state :=
  mkMT _ x (mt_ports s) (regions s) (memory_region_transaction_depth s) (address_space_memory s) (address_space_io s) (mt_trace s).
Definition set_mt_ports (x : port_state) (s : mt_state) : mt_state :=
  mkMT _ (mt_mm s) x (regions s) (memory_region_transaction_depth s) (address_space_memory s) (address_space_io s) (mt_trace s).
Definition set_regions (x : gmap Z MemoryRegion) (s : mt_state) : mt_state :=
  mkMT _ (mt_mm s) (mt_ports s) x (memory_region_transaction_depth s) (address_space_memory s) (address_space_io s) (mt_trace s).
Definition set_depth (x : Z) (s : mt_state) : mt_state :=
  mkMT _ (mt_mm s) (mt_ports s) (regions s) x (address_space_memory s) (address_space_io s) (mt_trace s).
Definition set_space (io : bool) (x : AddressSpace) (s : mt_state) : mt_state :=
  if io then mkMT _ (mt_mm s) (mt_ports s) (regions s) (memory_region_transaction_depth s) (address_space_memory s) x (mt_trace s)
  else mkMT _ (mt_mm s) (mt_ports s) (regions s) (memory_region_transaction_depth s) x (address_space_io s) (mt_trace s).
Definition set_mt_trace (x : list mt_event) (s : mt_state) : mt_state :=
  mkMT _ (mt_mm s) (mt_ports s) (regions s) (memory_region_transaction_depth s) (address_space_memory s) (address_space_io s) x.
Definition space (io : bool) (s : mt_state) : AddressSpace :=
  if io then address_space_io s else address_space_memory s.
End Setters.

Abbreviation MT := (M mt_state).

(** Setters of the fields of a region that change. *)
Definition set_parent (x : option Z) (r : MemoryRegion) : MemoryRegion :=
  mkMR (mr_ops r) (mr_opaque r) x (mr_size r) (mr_addr r) (mr_offset r) (backend_registered r) (destructor r)
    (mr_ram_addr r) (mr_iorange r) (terminates r) (mr_readable r) (mr_readonly r) (mr_alias r) (alias_offset r)
    (priority r) (may_overlap r) (subregions r) (mr_coalesced r) (mr_name r) (mr_dirty_log_mask r) (mr_ioeventfds r).
Definition set_addr (x : Z) (r : MemoryRegion) : MemoryRegion :=
  mkMR (mr_ops r) (mr_opaque r) (mr_parent r) (mr_size r) x (mr_offset r) (backend_registered r) (destructor r)
    (mr_ram_addr r) (mr_iorange r) (terminates r) (mr_readable r) (mr_readonly r) (mr_alias r) (alias_offset r)
    (priority r) (may_overlap r) (subregions r) (mr_coalesced r) (mr_name r) (mr_dirty_log_mask r) (mr_ioeventfds r).
Definition set_priority (overlap : bool) (prio : Z) (r : MemoryRegion) : MemoryRegion :=
  mkMR (mr_ops r) (mr_opaque r) (mr_parent r) (mr_size r) (mr_addr r) (mr_offset r) (backend_registered r) (destructor r)
    (mr_ram_addr r) (mr_iorange r) (terminates r) (mr_readable r) (mr_readonly r) (mr_alias r) (alias_offset r)
    prio overlap (subregions r) (mr_coalesced r) (mr_name r) (mr_dirty_log_mask r) (mr_ioeventfds r).
Definition set_offset (x : Z) (r : MemoryRegion) : MemoryRegion :=
  mkMR (mr_ops r) (mr_opaque r) (mr_parent r) (mr_size r) (mr_addr r) x (backend_registered r) (destructor r)
    (mr_ram_addr r) (mr_iorange r) (terminates r) (mr_readable r) (mr_readonly r) (mr_alias r) (alias_offset r)
    (priority r) (may_overlap r) (subregions r) (mr_coalesced r) (mr_name r) (mr_dirty_log_mask r) (mr_ioeventfds r).
Definition set_backend (d : mr_destructor) (ram_addr : Z) (registered : bool) (r : MemoryRegion) : MemoryRegion :=
  mkMR (mr_ops r) (mr_opaque r) (mr_parent r) (mr_size r) (mr_addr r) (mr_offset r) registered d
    ram_addr (mr_iorange r) (terminates r) (mr_readable r) (mr_readonly r) (mr_alias r) (alias_offset r)
    (priority r) (may_overlap r) (subregions r) (mr_coalesced r) (mr_name r) (mr_dirty_log_mask r) (mr_ioeventfds r).
Definition set_iorange (x : Z * Z) (r : MemoryRegion) : MemoryRegion :=
  mkMR (mr_ops r) (mr_opaque r) (mr_parent r) (mr_size r) (mr_addr r) (mr_offset r) (backend_registered r) (destructor r)
    (mr_ram_addr r) x (terminates r) (mr_readable r) (mr_readonly r) (mr_alias r) (alias_offset r)
    (priority r) (may_overlap r) (subregions r) (mr_coalesced r) (mr_name r) (mr_dirty_log_mask r) (mr_ioeventfds r).
Definition set_access (readable readonly : bool) (r : MemoryRegion) : MemoryRegion :=
  mkMR (mr_ops r) (mr_opaque r) (mr_parent r) (mr_size r) (mr_addr r) (mr_offset r) (backend_registered r) (destructor r)
    (mr_ram_addr r) (mr_iorange r) (terminates r) readable readonly (mr_alias r) (alias_offset r)
    (priority r) (may_overlap r) (subregions r) (mr_coalesced r) (mr_name r) (mr_dirty_log_mask r) (mr_ioeventfds r).
Definition set_subregions (x : list Z) (r : MemoryRegion) : MemoryRegion :=
  mkMR (mr_ops r) (mr_opaque r) (mr_parent r) (mr_size r) (mr_addr r) (mr_offset r) (backend_registered r) (destructor r)
    (mr_ram_addr r) (mr_iorange r) (terminates r) (mr_readable r) (mr_readonly r) (mr_alias r) (alias_offset r)
    (priority r) (may_overlap r) x (mr_coalesced r) (mr_name r) (mr_dirty_log_mask r) (mr_ioeventfds r).
Definition set_coalesced (x : list AddrRange) (r : MemoryRegion) : MemoryRegion :=
  mkMR (mr_ops r) (mr_opaque r) (mr_parent r) (mr_size r) (mr_addr r) (mr_offset r) (backend_registered r) (destructor r)
    (mr_ram_addr r) (mr_iorange r) (terminates r) (mr_readable r) (mr_readonly r) (mr_alias r) (alias_offset r)
    (priority r) (may_overlap r) (subregions r) x (mr_name r) (mr_dirty_log_mask r) (mr_ioeventfds r).
Definition set_mask (x : Z) (r : MemoryRegion) : MemoryRegion :=
  mkMR (mr_ops r) (mr_opaque r) (mr_parent r) (mr_size r) (mr_addr r) (mr_offset r) (backend_registered r) (destructor r)
    (mr_ram_addr r) (mr_iorange r) (terminates r) (mr_readable r) (mr_readonly r) (mr_alias r) (alias_offset r)
    (priority r) (may_overlap r) (subregions r) (mr_coalesced r) (mr_name r) x (mr_ioeventfds r).
Definition set_ioeventfds (x : list MemoryRegionIoeventfd) (r : MemoryRegion) : MemoryRegion :=
  mkMR (mr_ops r) (mr_opaque r) (mr_parent r) (mr_size r) (mr_addr r) (mr_offset r) (backend_registered r) (destructor r)
    (mr_ram_addr r) (mr_iorange r) (terminates r) (mr_readable r) (mr_readonly r) (mr_alias r) (alias_offset r)
    (priority r) (may_overlap r) (subregions r) (mr_coalesced r) (mr_name r) (mr_dirty_log_mask r) x.
Definition set_kind (ops : option MemoryRegionOps) (opaque : Z) (r : MemoryRegion) : MemoryRegion :=
  mkMR ops opaque (mr_parent r) (mr_size r) (mr_addr r) (mr_offset r) (backend_registered r) (destructor r)
    (mr_ram_addr r) (mr_iorange r) true (mr_readable r) (mr_readonly r) (mr_alias r) (alias_offset r)
    (priority r) (may_overlap r) (subregions r) (mr_coalesced r) (mr_name r) (mr_dirty_log_mask r) (mr_ioeventfds r).
Definition set_alias (orig offset : Z) (r : MemoryRegion) : MemoryRegion :=
  mkMR (mr_ops r) (mr_opaque r) (mr_parent r) (mr_size r) (mr_addr r) (mr_offset r) (backend_registered r) (destructor r)
    (mr_ram_addr r) (mr_iorange r) (terminates r) (mr_readable r) (mr_readonly r) (Some orig) offset
    (priority r) (may_overlap r) (subregions r) (mr_coalesced r) (mr_name r) (mr_dirty_log_mask r) (mr_ioeventfds r).

(** What KVM answers to a request for an event notifier: negative is an error. *)
Class KvmEventfd := kvm_set_ioeventfd : bool → Z → Z → Z → bool → Z.

(** The number of [memory_region_read_thunk] and [memory_region_write_thunk] among
    the functions of devices. *)
Class RegionThunks := memory_region_thunk : Z.

Section MemRegion.
Context `{TargetPhys} `{TargetEndian} `{Machine} `{HostAlloc} `{PhysSpace} `{!KvmEventfd} `{!RegionThunks}.

Definition in_mm {A} (m : MM A) : MT A := λ s,
  match m (mt_mm s) with
  | Ok a r => Ok a (set_mt_mm r s)
  | Err e r => Err e (set_mt_mm r s)
  end.
Definition in_pt {A} (m : PT A) : MT A := λ s,
  match m (mt_ports s) with
  | Ok a r => Ok a (set_mt_ports r s)
  | Err e r => Err e (set_mt_ports r s)
  end.
Definition mt_emit (e : mt_event) : MT () := modify (λ s, set_mt_trace (mt_trace s ++ [e]) s).
Definition region (mr : Z) : MT MemoryRegion := rg ← gets regions; nonnull (rg !! mr).
Definition upd_region (mr : Z) (f : MemoryRegion → MemoryRegion) : MT () :=
  r ← region mr; modify (λ s, set_regions (<[mr := f r]> (regions s)) s).

(** ** The memory space *)

Definition memory_region_prepare_ram_addr (mr : Z) : MT () :=
  r ← region mr;
  if backend_registered r then mret () else
  ops ← nonnull (mr_ops r);
  a ← in_mm (in_io (cpu_register_io_memory (three (Some (FnDevice memory_region_thunk)))
    (three (Some (FnDevice memory_region_thunk))) (OpDevice mr) (endianness ops)));
  upd_region mr (set_backend memory_region_destructor_iomem (wrap 64 a) true).

Definition as_memory_range_add (fr : FlatRange) : MT () :=
  memory_region_prepare_ram_addr (fr_mr fr);;
  r ← region (fr_mr fr);
  let '(phys_off, region_off) :=
    if Z.land (mr_ram_addr r) (Z.lnot TARGET_PAGE_MASK) <=? IO_MEM_ROM
    then (wrap 64 (mr_ram_addr r + offset_in_region fr), 0) else (mr_ram_addr r, offset_in_region fr) in
  let phys_off := if fr_readable fr then phys_off
    else Z.land phys_off (Z.land (Z.lnot TARGET_PAGE_MASK) (Z.lnot IO_MEM_ROMD)) in
  let phys_off := if fr_readonly fr then Z.lor phys_off IO_MEM_ROM else phys_off in
  start ← get64 (ar_start (fr_addr fr)); size ← get64 (ar_size (fr_addr fr));
  in_mm (cpu_register_physical_memory_log (wrap phys_width start) size phys_off region_off
    (negb (fr_dirty_log_mask fr =? 0))).

Definition as_memory_range_del (fr : FlatRange) : MT () :=
  (if fr_dirty_log_mask fr =? 0 then mret () else
     start ← get64 (ar_start (fr_addr fr)); end_ ← get64 (addrrange_end (fr_addr fr));
     mt_emit (EvSyncDirty (wrap phys_width start) (wrap phys_width end_)));;
  start ← get64 (ar_start (fr_addr fr)); size ← get64 (ar_size (fr_addr fr));
  in_mm (cpu_register_physical_memory_log (wrap phys_width start) size IO_MEM_UNASSIGNED 0 false).

Definition as_memory_log_start (fr : FlatRange) : MT () :=
  start ← get64 (ar_start (fr_addr fr)); size ← get64 (ar_size (fr_addr fr));
  mt_emit (EvLogStart (wrap phys_width start) size).
Definition as_memory_log_stop (fr : FlatRange) : MT () :=
  start ← get64 (ar_start (fr_addr fr)); size ← get64 (ar_size (fr_addr fr));
  mt_emit (EvLogStop (wrap phys_width start) size).

Definition set_eventfd (pio : bool) (fd : MemoryRegionIoeventfd) (assign : bool) : MT () :=
  a ← get64 (ar_start (fd_addr fd));
  assert_or Abort (0 <=? kvm_set_ioeventfd pio (fd_fd fd) a (fd_data fd) assign);;
  mt_emit (EvIoeventfd pio (fd_fd fd) a (fd_data fd) assign).
Definition eventfd_size (fd : MemoryRegionIoeventfd) (n : Z) : MT () :=
  assert_or Abort (match_data fd);;
  size ← get64 (ar_size (fd_addr fd)); assert_or Abort (size =? n).

Definition as_memory_ioeventfd_add (fd : MemoryRegionIoeventfd) : MT () := eventfd_size fd 4;; set_eventfd false fd true.
Definition as_memory_ioeventfd_del (fd : MemoryRegionIoeventfd) : MT () := set_eventfd false fd false.

Definition address_space_ops_memory : AddressSpaceOps mt_state :=
  mkASOps _ as_memory_range_add as_memory_range_del (Some as_memory_log_start) (Some as_memory_log_stop)
    as_memory_ioeventfd_add as_memory_ioeventfd_del.

(** ** The port space *)

Definition as_io_range_add (fr : FlatRange) : MT () :=
  start ← get64 (ar_start (fr_addr fr)); size ← get64 (ar_size (fr_addr fr));
  upd_region (fr_mr fr) (set_iorange (start, size));;
  in_pt (ioport_register (fr_mr fr) start size).
Definition as_io_range_del (fr : FlatRange) : MT () :=
  start ← get64 (ar_start (fr_addr fr)); size ← get64 (ar_size (fr_addr fr));
  in_pt (isa_unassign_ioport (wrap 32 start) (int32 size)).
Definition as_io_ioeventfd_add (fd : MemoryRegionIoeventfd) : MT () := eventfd_size fd 2;; set_eventfd true fd true.
Definition as_io_ioeventfd_del (fd : MemoryRegionIoeventfd) : MT () := set_eventfd true fd false.

(** There are no functions for logging. *)
Definition address_space_ops_io : AddressSpaceOps mt_state :=
  mkASOps _ as_io_range_add as_io_range_del None None as_io_ioeventfd_add as_io_ioeventfd_del.

Definition space_ops (io : bool) : AddressSpaceOps mt_state :=
  if io then address_space_ops_io else address_space_ops_memory.

(** ** Updates *)

Definition address_space_update_ioeventfds (io : bool) : MT () :=
  a ← gets (space io); rg ← gets regions;
  let fds := view_ioeventfds rg (current_map a) in
  address_space_add_del_ioeventfds (space_ops io) fds (as_ioeventfds a);;
  modify (set_space io (mkAS (as_root a) (current_map a) fds)).

Definition address_space_update_topology (io : bool) : MT () :=
  a ← gets (space io); rg ← gets regions;
  root ← nonnull (as_root a);
  new_view ← generate_memory_topology rg root;
  address_space_update_topology_pass (space_ops io) (current_map a) new_view false;;
  address_space_update_topology_pass (space_ops io) (current_map a) new_view true;;
  modify (set_space io (mkAS (as_root a) new_view (as_ioeventfds a)));;
  address_space_update_ioeventfds io.

Definition memory_region_update_topology : MT () :=
  d ← gets memory_region_transaction_depth;
  if negb (d =? 0) then mret () else
  m ← gets (λ s, as_root (address_space_memory s));
  (match m with Some _ => address_space_update_topology false | None => mret () end);;
  i ← gets (λ s, as_root (address_space_io s));
  match i with Some _ => address_space_update_topology true | None => mret () end.

(** The counter is an [unsigned]. *)
Definition memory_region_transaction_begin : MT () :=
  modify (λ s, set_depth (wrap 32 (memory_region_transaction_depth s + 1)) s).
Definition memory_region_transaction_commit : MT () :=
  d ← gets memory_region_transaction_depth;
  assert_or Abort (negb (d =? 0));;
  modify (set_depth (d - 1));;
  memory_region_update_topology.

(** ** Making and destroying regions *)

Definition mr_zero : MemoryRegion :=
  mkMR None 0 None 0 0 0 false memory_region_destructor_none 0 (0, 0) false false false None 0 0 false [] [] "" 0 [].

(** The fields that are not set keep what the memory held. *)
Definition memory_region_init (mr : Z) (name : string) (size : Z) : MT () :=
  rg ← gets regions;
  let r := default mr_zero (rg !! mr) in
  let size := if size =? 2 ^ 64 - 1 then 2 ^ 64 else size in
  modify (set_regions (<[mr := mkMR None (mr_opaque r) None size 0 0 (backend_registered r)
    memory_region_destructor_none (mr_ram_addr r) (mr_iorange r) false true false None (alias_offset r)
    0 false [] [] name 0 []]> rg)).

Definition memory_region_init_io (mr : Z) (ops : MemoryRegionOps) (opaque : Z) (name : string) (size : Z) : MT () :=
  memory_region_init mr name size;;
  upd_region mr (set_kind (Some ops) opaque);;
  r ← region mr;
  upd_region mr (set_backend (destructor r) (mr_ram_addr r) false).

Definition memory_region_init_ram (mr : Z) (dev : option string) (name : string) (size : Z) : MT () :=
  memory_region_init mr name size;;
  a ← in_mm (in_ram (qemu_ram_alloc dev name size));
  upd_region mr (λ r, set_backend memory_region_destructor_ram a true (set_kind (mr_ops r) (mr_opaque r) r)).

Definition memory_region_init_ram_ptr (mr : Z) (dev : option string) (name : string) (size ptr : Z) : MT () :=
  memory_region_init mr name size;;
  a ← in_mm (in_ram (qemu_ram_alloc_from_ptr dev name size (Some ptr)));
  upd_region mr (λ r, set_backend memory_region_destructor_ram_from_ptr a true (set_kind (mr_ops r) (mr_opaque r) r)).

Definition memory_region_init_alias (mr : Z) (name : string) (orig offset size : Z) : MT () :=
  memory_region_init mr name size;;
  upd_region mr (set_alias orig offset).

Definition memory_region_init_rom_device (mr : Z) (ops : MemoryRegionOps) (opaque : Z) (dev : option string)
    (name : string) (size : Z) : MT () :=
  memory_region_init mr name size;;
  a ← in_mm (in_ram (qemu_ram_alloc dev name size));
  d ← in_mm (in_io (cpu_register_io_memory (three (Some (FnDevice memory_region_thunk)))
    (three (Some (FnDevice memory_region_thunk))) (OpDevice mr) (endianness ops)));
  upd_region mr (λ r, set_backend memory_region_destructor_rom_device
    (Z.lor (Z.lor a (wrap 64 d)) IO_MEM_ROMD) true (set_kind (Some ops) opaque r)).

Definition run_destructor (r : MemoryRegion) : MT () :=
  match destructor r with
  | memory_region_destructor_none => mret ()
  | memory_region_destructor_ram => in_mm (in_ram (qemu_ram_free (mr_ram_addr r)))
  | memory_region_destructor_ram_from_ptr => in_mm (in_ram (qemu_ram_free_from_ptr (mr_ram_addr r)))
  | memory_region_destructor_iomem => in_mm (in_io (cpu_unregister_io_memory (int32 (mr_ram_addr r))))
  | memory_region_destructor_rom_device =>
      in_mm (in_ram (qemu_ram_free (Z.land (mr_ram_addr r) TARGET_PAGE_MASK)));;
      in_mm (in_io (cpu_unregister_io_memory
        (int32 (Z.land (mr_ram_addr r) (Z.lnot (Z.lor TARGET_PAGE_MASK IO_MEM_ROMD))))))
  end.

(** ** Coalesced MMIO *)

Definition coalesce_range (r : MemoryRegion) (fr : FlatRange) : MT () :=
  start ← get64 (ar_start (fr_addr fr)); size ← get64 (ar_size (fr_addr fr));
  mt_emit (EvCoalesced false start size);;
  (fix each (l : list AddrRange) : MT () :=
     match l with
     | [] => mret ()
     | c :: l' =>
         let tmp := addrrange_shift c (ar_start (fr_addr fr) - offset_in_region fr) in
         (if negb (addrrange_intersects tmp (fr_addr fr)) then mret () else
            let tmp := addrrange_intersection tmp (fr_addr fr) in
            start ← get64 (ar_start tmp); size ← get64 (ar_size tmp);
            mt_emit (EvCoalesced true start size));;
         each l'
     end) (mr_coalesced r).

Fixpoint foreach_range (f : FlatRange → MT ()) (mr : Z) (view : FlatView) : MT () :=
  match view with
  | [] => mret ()
  | fr :: view' => (if fr_mr fr =? mr then f fr else mret ());; foreach_range f mr view'
  end.

Definition memory_region_update_coalesced_range (mr : Z) : MT () :=
  r ← region mr; view ← gets (λ s, current_map (address_space_memory s));
  foreach_range (coalesce_range r) mr view.

Definition memory_region_add_coalescing (mr offset size : Z) : MT () :=
  upd_region mr (λ r, set_coalesced (mr_coalesced r ++ [addrrange_make offset size]) r);;
  memory_region_update_coalesced_range mr.
Definition memory_region_clear_coalescing (mr : Z) : MT () :=
  upd_region mr (set_coalesced []);;
  memory_region_update_coalesced_range mr.
Definition memory_region_set_coalescing (mr : Z) : MT () :=
  memory_region_clear_coalescing mr;;
  r ← region mr; size ← get64 (mr_size r);
  memory_region_add_coalescing mr 0 size.

Definition memory_region_destroy (mr : Z) : MT () :=
  r ← region mr;
  assert_or Abort (bool_decide (subregions r = []));;
  run_destructor r;;
  memory_region_clear_coalescing mr.

(** ** Properties of a region *)

Definition memory_region_size (mr : Z) : MT Z :=
  r ← region mr; if mr_size r =? 2 ^ 64 then mret (2 ^ 64 - 1) else get64 (mr_size r).
Definition memory_region_set_offset (mr offset : Z) : MT () := upd_region mr (set_offset offset).

Definition memory_region_set_log (mr : Z) (log : bool) (client : Z) : MT () :=
  let mask := wrap 8 (Z.shiftl 1 client) in
  upd_region mr (λ r, set_mask (Z.lor (Z.land (mr_dirty_log_mask r) (Z.lnot mask)) (Z.b2z log * mask)) r);;
  memory_region_update_topology.

Definition memory_region_get_dirty (mr addr client : Z) : MT bool :=
  r ← region mr; assert_or Abort (terminates r);;
  d ← in_mm (in_ram (cpu_physical_memory_get_dirty (wrap 64 (mr_ram_addr r + addr)) (Z.shiftl 1 client)));
  mret (negb (d =? 0)).
Definition memory_region_set_dirty (mr addr : Z) : MT () :=
  r ← region mr; assert_or Abort (terminates r);;
  in_mm (in_ram (cpu_physical_memory_set_dirty (wrap 64 (mr_ram_addr r + addr)))).
Definition memory_region_sync_dirty_bitmap (mr : Z) : MT () :=
  view ← gets (λ s, current_map (address_space_memory s));
  foreach_range (λ fr, start ← get64 (ar_start (fr_addr fr)); end_ ← get64 (addrrange_end (fr_addr fr));
    mt_emit (EvSyncDirty (wrap phys_width start) (wrap phys_width end_))) mr view.
Definition memory_region_reset_dirty (mr addr size client : Z) : MT () :=
  r ← region mr; assert_or Abort (terminates r);;
  mt_emit (EvResetDirty (wrap 64 (mr_ram_addr r + addr)) (wrap 64 (mr_ram_addr r + addr + size)) (Z.shiftl 1 client)).

Definition memory_region_set_readonly (mr : Z) (readonly : bool) : MT () :=
  r ← region mr;
  if eqb (mr_readonly r) readonly then mret () else
  upd_region mr (set_access (mr_readable r) readonly);; memory_region_update_topology.
Definition memory_region_rom_device_set_readable (mr : Z) (readable : bool) : MT () :=
  r ← region mr;
  if eqb (mr_readable r) readable then mret () else
  upd_region mr (set_access readable (mr_readonly r));; memory_region_update_topology.

(** Follows aliases; the depth is bounded as for rendering. *)
Fixpoint get_ram_ptr_loop (fuel : nat) (mr : Z) : MT Z :=
  match fuel with
  | O => fail OutOfFuel
  | S fuel' =>
      r ← region mr;
      match mr_alias r with
      | Some al => p ← get_ram_ptr_loop fuel' al; mret (p + alias_offset r)
      | None =>
          assert_or Abort (terminates r);;
          in_mm (in_ram (qemu_get_ram_ptr (Z.land (mr_ram_addr r) TARGET_PAGE_MASK)))
      end
  end.
Definition memory_region_get_ram_ptr (mr : Z) : MT Z :=
  rg ← gets regions; get_ram_ptr_loop (render_depth rg) mr.

(** ** Event notifiers of a region *)

Fixpoint insert_fd (f : MemoryRegionIoeventfd) (l : list MemoryRegionIoeventfd) : list MemoryRegionIoeventfd :=
  match l with
  | [] => [f]
  | g :: l' => if memory_region_ioeventfd_before f g then f :: l else g :: insert_fd f l'
  end.
Fixpoint remove_fd (f : MemoryRegionIoeventfd) (l : list MemoryRegionIoeventfd) : option (list MemoryRegionIoeventfd) :=
  match l with
  | [] => None
  | g :: l' => if memory_region_ioeventfd_equal f g then Some l' else cons g <$> remove_fd f l'
  end.

Definition memory_region_add_eventfd (mr addr size : Z) (mtch : bool) (data fd : Z) : MT () :=
  upd_region mr (λ r, set_ioeventfds (insert_fd (mkFd (addrrange_make addr size) mtch data fd) (mr_ioeventfds r)) r);;
  memory_region_update_topology.
Definition memory_region_del_eventfd (mr addr size : Z) (mtch : bool) (data fd : Z) : MT () :=
  r ← region mr;
  match remove_fd (mkFd (addrrange_make addr size) mtch data fd) (mr_ioeventfds r) with
  | None => fail Abort
  | Some l => upd_region mr (set_ioeventfds l);; memory_region_update_topology
  end.

(** ** The graph *)

(** [rg !! x] is the region of a list element. *)
Fixpoint insert_by_priority (rg : gmap Z MemoryRegion) (prio sub : Z) (l : list Z) : list Z :=
  match l with
  | [] => [sub]
  | x :: l' =>
      if priority (default mr_zero (rg !! x)) <=? prio then sub :: l else x :: insert_by_priority rg prio sub l'
  end.

(** The check for collisions has no effect. *)
Definition memory_region_add_subregion_common (mr offset sub : Z) : MT () :=
  s ← region sub;
  assert_or Abort (bool_decide (mr_parent s = None));;
  upd_region sub (λ r, set_addr offset (set_parent (Some mr) r));;
  rg ← gets regions;
  upd_region mr (λ r, set_subregions (insert_by_priority rg (priority s) sub (subregions r)) r);;
  memory_region_update_topology.

Definition memory_region_add_subregion (mr offset sub : Z) : MT () :=
  upd_region sub (set_priority false 0);;
  memory_region_add_subregion_common mr offset sub.
Definition memory_region_add_subregion_overlap (mr offset sub prio : Z) : MT () :=
  upd_region sub (set_priority true prio);;
  memory_region_add_subregion_common mr offset sub.

Definition memory_region_del_subregion (mr sub : Z) : MT () :=
  s ← region sub;
  assert_or Abort (bool_decide (mr_parent s = Some mr));;
  upd_region sub (set_parent None);;
  upd_region mr (λ r, set_subregions (filter (λ x, x ≠ sub) (subregions r)) r);;
  memory_region_update_topology.

Definition set_root (io : bool) (mr : Z) : MT () :=
  modify (λ s, set_space io (mkAS (Some mr) (current_map (space io s)) (as_ioeventfds (space io s))) s);;
  memory_region_update_topology.
Definition set_system_memory_map (mr : Z) : MT () := set_root false mr.
Definition set_system_io_map (mr : Z) : MT () := set_root true mr.

End MemRegion.
