(* ===== verification/RamTopology.v ===== *)
(** * RAM regions in the page table: theorems

    The backend of the memory space meets the interface of [TopologyFacts] for
    views made of whole pages of RAM. With the correctness of rendering this
    gives what a change of the graph of regions is for: afterwards the page table
    translates guest addresses as the graph says. *)

From S2P Require Import Prelude CFile CString HostMem RamList Radix PhysPages PhysView RRTypes PandaCallbacks.
From S2P Require Import RRState RRQueue RRFormat RRReplay RRReplayInv RRRecord IOMem PhysMem PhysMemFacts IOMemFacts.
From S2P Require Import IOPort FlatView FlatViewFacts TopologyFacts MemRegion.
Local Open Scope Z_scope.

Section RamSpace.
Context `{TargetPhys} `{TargetEndian} `{Machine} `{HostAlloc} `{PhysSpace} `{!PhysSpaceOk} `{!Devices}.
Context `{!KvmEventfd} `{!RegionThunks}.

(** ** Ranges of RAM *)

Definition ram_region (rg : gmap Z MemoryRegion) (mr : Z) : option Z :=
  m ← rg !! mr; if backend_registered m then Some (mr_ram_addr m) else None.

(** Whole pages of a region of RAM, readable and writable. *)
Record ram_fr (rg : gmap Z MemoryRegion) (r : FlatRange) : Prop := {
  rf_start : fr_start r mod 4096 = 0;
  rf_size : fr_size r mod 4096 = 0;
  rf_fits : region_fits (fr_start r) (fr_size r);
  rf_space : fr_start r + fr_size r ≤ 4096 * space_pages;
  rf_offset : 0 ≤ offset_in_region r ∧ offset_in_region r mod 4096 = 0 ∧ offset_in_region r + fr_size r ≤ 2 ^ phys_width;
  rf_region : ∃ p, ram_region rg (fr_mr r) = Some p ∧ 0 ≤ p ∧ p mod 4096 = 0 ∧ p + offset_in_region r + fr_size r ≤ 2 ^ 64;
  rf_access : fr_readable r = true ∧ fr_readonly r = false;
}.

Definition ram_base (rg : gmap Z MemoryRegion) (r : FlatRange) : Z :=
  default 0 (ram_region rg (fr_mr r)) + offset_in_region r.

Definition page_in (r : FlatRange) (j : Z) : Prop := fr_start r / 4096 ≤ j < fr_start r / 4096 + fr_size r / 4096.
#[local] Instance page_in_dec r j : Decision (page_in r j).
Proof. unfold page_in. apply _. Defined.

Definition page_of_range (rg : gmap Z MemoryRegion) (r : FlatRange) (j : Z) : Z :=
  ram_base rg r + 4096 * (j - fr_start r / 4096).

Lemma ram_fr_key rg r : ram_fr rg r ↔ ram_fr rg (fr_key r).
Proof. split; intros [F1 F2 F3 F4 F5 F6 F7]; by split. Qed.

Lemma page_in_bounds rg r j : ram_fr rg r → page_in r j → 0 ≤ j < space_pages.
Proof.
  intros [F1 F2 (F3 & _) F4 _ _ _] [Hj1 Hj2]. pose proof (Z.div_mod (fr_start r) 4096 ltac:(lia)).
  pose proof (Z.div_mod (fr_size r) 4096 ltac:(lia)). pose proof (Z.div_pos (fr_start r) 4096). lia.
Qed.

Lemma page_in_addr rg r a : ram_fr rg r → addrrange_contains (fr_addr r) a = true ↔ page_in r (a / 4096).
Proof.
  intros [F1 F2 _ _ _ _ _]. rewrite contains_spec. unfold page_in, addrrange_end.
  pose proof (Z.div_mod (fr_start r) 4096 ltac:(lia)). pose proof (Z.div_mod (fr_size r) 4096 ltac:(lia)).
  pose proof (Z.div_mod a 4096 ltac:(lia)). pose proof (Z.mod_pos_bound a 4096 ltac:(lia)). lia.
Qed.

Lemma page_aligned rg r j : ram_fr rg r → page_of_range rg r j mod 4096 = 0.
Proof.
  intros [_ _ _ _ (_ & F5 & _) (p & F6 & _ & Hp & _) _]. unfold page_of_range, ram_base. rewrite F6. simpl.
  rewrite (Z.mul_comm 4096), Z.mod_add by lia. rewrite Z.add_mod, Hp, F5 by lia. done.
Qed.

Lemma disjoint_pages rg r q j :
  ram_fr rg r → ram_fr rg q → disjoint_ranges r q → page_in r j → page_in q j → False.
Proof.
  intros [R1 R2 _ _ _ _ _] [Q1 Q2 _ _ _ _ _] Hd Hr Hq. unfold disjoint_ranges, addrrange_end, page_in in *.
  pose proof (Z.div_mod (fr_start r) 4096 ltac:(lia)). pose proof (Z.div_mod (fr_size r) 4096 ltac:(lia)).
  pose proof (Z.div_mod (fr_start q) 4096 ltac:(lia)). pose proof (Z.div_mod (fr_size q) 4096 ltac:(lia)). lia.
Qed.

(** ** The page table has the ranges *)

Record pages_are (rg : gmap Z MemoryRegion) (l : list FlatRange) (io : io_state) : Prop := {
  pa_wf : io_wf io;
  pa_ok : Forall (ram_fr rg) l;
  pa_in : ∀ r j, r ∈ l → page_in r j → pd_at io j = page_of_range rg r j;
  pa_out : ∀ j, 0 ≤ j < space_pages → (∀ r, r ∈ l → ¬ page_in r j) → pd_at io j = IO_MEM_UNASSIGNED;
}.

Lemma pages_are_perm rg l l' io : l ≡ₚ l' → pages_are rg l io → pages_are rg l' io.
Proof.
  intros Hp [P1 P2 P3 P4]. split; [done|by rewrite <-Hp| |].
  - intros r j Hr. apply P3. by rewrite Hp.
  - intros j Hj Hn. apply P4; [done|]. intros r Hr. apply Hn. by rewrite <-Hp.
Qed.

(** Only the RAM behind the regions matters. *)
Definition same_ram_regions (rg rg' : gmap Z MemoryRegion) : Prop := ∀ mr, ram_region rg' mr = ram_region rg mr.

Lemma ram_fr_same rg rg' r : same_ram_regions rg rg' → ram_fr rg r → ram_fr rg' r.
Proof. intros E [F1 F2 F3 F4 F5 F6 F7]. split; try done. by rewrite E. Qed.

Lemma pages_are_same rg rg' l io : same_ram_regions rg rg' → pages_are rg l io → pages_are rg' l io.
Proof.
  intros E [P1 P2 P3 P4]. split; [done| | |done].
  - eapply Forall_impl; [exact P2|]. intros r. by apply ram_fr_same.
  - intros r j Hr Hj. unfold page_of_range, ram_base. rewrite E. by apply P3.
Qed.

Lemma region_page_in r k : 0 ≤ k → 4096 * k < fr_size r → fr_size r mod 4096 = 0 → page_in r (region_page (fr_start r) k).
Proof.
  intros Hk Hlt Hz. unfold page_in. rewrite region_page_eq. pose proof (Z.div_mod (fr_size r) 4096 ltac:(lia)). lia.
Qed.

Lemma pages_add rg l r io :
  pages_are rg l io → ram_fr rg r → Forall (disjoint_ranges r) l →
  ∃ io', register_region (fr_start r) (fr_size r) (ram_base rg r) 0 io = Ok () io' ∧ pages_are rg (r :: l) io'.
Proof.
  intros [P1 P2 P3 P4] Hr Hd. pose proof Hr as [F1 F2 F3 F4 (F5 & F5' & F5'') (p & F6 & F7 & F8 & F9) _].
  assert (Hne : ∀ q j, q ∈ l → page_in r j → page_in q j → False).
  { intros q j Hq. eapply disjoint_pages; [done| |]; [by apply (proj1 (Forall_forall _ _) P2)|].
    by apply (proj1 (Forall_forall _ _) Hd). }
  assert (Hb : ram_base rg r = p + offset_in_region r) by (unfold ram_base; by rewrite F6).
  destruct (register_ram_ok io (fr_start r) (fr_size r) (ram_base rg r) 0) as (io' & E & W & _ & Hpd); try done; try lia.
  { rewrite Hb, Z.add_mod, F8, F5' by lia. done. }
  { intros k Hk Hlt. pose proof (region_page_in r k Hk Hlt F2) as Hin. apply P4; [by eapply page_in_bounds|].
    intros q Hq Hq'. by eapply Hne. }
  exists io'. split; [done|]. fold (page_in r) in Hpd. split; [done|by constructor| |].
  - intros q j [->|Hq]%elem_of_cons Hj.
    + rewrite Hpd by (by eapply page_in_bounds). by rewrite decide_True.
    + rewrite Hpd by (eapply page_in_bounds; [|done]; by apply (proj1 (Forall_forall _ _) P2)).
      rewrite decide_False; [by apply P3|]. intros Hr'. by eapply Hne.
  - intros j Hj Hn. rewrite Hpd, decide_False by (done || by apply Hn; left). apply P4; [done|].
    intros q Hq. apply Hn. by right.
Qed.

Lemma pages_del rg l r io :
  pages_are rg (r :: l) io → Forall (disjoint_ranges r) l →
  ∃ io', register_region (fr_start r) (fr_size r) IO_MEM_UNASSIGNED 0 io = Ok () io' ∧ pages_are rg l io'.
Proof.
  intros [P1 [Hr P2]%Forall_cons P3 P4] Hd. pose proof Hr as [F1 F2 F3 F4 _ _ _].
  destruct (register_gone_ok io (fr_start r) (fr_size r) 0) as (io' & E & W & Hpd); try done.
  { intros k Hk Hlt. rewrite (P3 r); [by apply page_aligned|by left|by apply region_page_in]. }
  exists io'. split; [done|]. fold (page_in r) in Hpd. split; [done|done| |].
  - intros q j Hq Hj. pose proof (proj1 (Forall_forall _ _) P2 q Hq) as Hqf.
    rewrite Hpd by (by eapply page_in_bounds). rewrite decide_False; [apply P3; [by right|done]|].
    intros Hr'. eapply disjoint_pages; [exact Hr|exact Hqf| |done..]. by apply (proj1 (Forall_forall _ _) Hd).
  - intros j Hj Hn. rewrite Hpd by done. case_decide as Hc; [done|]. apply P4; [done|].
    intros q [->|Hq]%elem_of_cons; [done|by apply Hn].
Qed.

(** ** The backend *)

(** Only the page table, the log and what is traced differ. *)
Record same_regions (s0 s : mt_state) : Prop := {
  sr_regions : regions s = regions s0;
  sr_depth : memory_region_transaction_depth s = memory_region_transaction_depth s0;
  sr_memory : address_space_memory s = address_space_memory s0;
  sr_io : address_space_io s = address_space_io s0;
  sr_ports : mt_ports s = mt_ports s0;
  sr_ram : mm_ram (mt_mm s) = mm_ram (mt_mm s0);
}.

Record ram_state_ok (s0 : mt_state) (l : list FlatRange) (s : mt_state) : Prop := {
  ro_same : same_regions s0 s;
  ro_calm : rr_calm (mm_rr (mt_mm s));
  ro_pages : pages_are (regions s0) l (mm_io (mt_mm s));
}.

#[local] Instance ram_backend (s0 : mt_state) : Backend address_space_ops_memory :=
  { has_ranges := ram_state_ok s0; range_ok := ram_fr (regions s0) }.

Lemma ram_fr_64 rg r : ram_fr rg r →
  get64 (S:=mt_state) (fr_start r) = mret (fr_start r) ∧ get64 (S:=mt_state) (fr_size r) = mret (fr_size r) ∧
  get64 (S:=mt_state) (fr_end r) = mret (fr_end r) ∧ wrap phys_width (fr_start r) = fr_start r.
Proof.
  intros [_ _ (F1 & F2 & F3 & _) _ _ _ _]. unfold addrrange_end.
  assert (Hw : 2 ^ phys_width ≤ 2 ^ 64) by (destruct phys_width_cases as [->| ->]; lia).
  assert (Hg : ∀ z, 0 ≤ z < 2 ^ 64 → get64 (S:=mt_state) z = mret z).
  { intros z Hz. unfold get64. by rewrite bool_decide_true by done. }
  rewrite !Hg by lia. split_and!; try done. apply wrap_small. unfold in_width. lia.
Qed.

(** A registration leaves the regions alone. *)
Lemma register_in_mm s0 l' s start size pd log io :
  same_regions s0 s → rr_calm (mm_rr (mt_mm s)) → size ≠ 0 →
  register_region start size pd 0 (mm_io (mt_mm s)) = Ok () io → pages_are (regions s0) l' io →
  ∃ s', in_mm (cpu_register_physical_memory_log start size pd 0 log) s = Ok () s' ∧ ram_state_ok s0 l' s'.
Proof.
  intros [S1 S2 S3 S4 S5 S6] Hc Hz E Hp. destruct (register_log_ok (mt_mm s) start size pd 0 log io Hc Hz E) as (m & E' & <- & Hr & Hw & _).
  unfold in_mm. rewrite E'. eexists. split; [reflexivity|]. split; [split; simpl; congruence| |done].
  by eapply rr_wrote_calm.
Qed.

Lemma ram_range_add s0 l r s :
  ram_state_ok s0 l s → ram_fr (regions s0) r → Forall (disjoint_ranges r) l →
  ∃ s', as_memory_range_add r s = Ok () s' ∧ ram_state_ok s0 (fr_key r :: l) s'.
Proof.
  intros [Hs Hc Hp] Hr Hd. destruct (ram_fr_64 _ _ Hr) as (G1 & G2 & _ & G4).
  destruct (pages_add _ l (fr_key r) _ Hp) as (io & E & Hp'); [by apply (proj1 (ram_fr_key _ r))|done|].
  destruct Hr as [_ _ (_ & Fz & _) _ (F5 & _ & F5') (p & F6 & F7 & F8 & F9) [F10 F11]].
  unfold ram_region in F6. destruct (regions s0 !! fr_mr r) as [m|] eqn:Em; [simpl in F6|done].
  destruct (backend_registered m) eqn:Eb; [injection F6 as <-|done].
  assert (Hreg : region (fr_mr r) s = Ok m s).
  { unfold region. rewrite bind_gets, (sr_regions _ _ Hs), Em. done. }
  assert (Hprep : memory_region_prepare_ram_addr (fr_mr r) s = Ok () s).
  { unfold memory_region_prepare_ram_addr. by rewrite (bind_Ok _ _ _ _ _ Hreg), Eb. }
  unfold as_memory_range_add. rewrite (bind_Ok _ _ _ _ _ Hprep), (bind_Ok _ _ _ _ _ Hreg).
  change (Z.land (mr_ram_addr m) (Z.lnot TARGET_PAGE_MASK)) with (offset_of (mr_ram_addr m)).
  rewrite offset_mod, F8. change (0 <=? IO_MEM_ROM) with true. cbv iota zeta beta. rewrite F10, F11, G1, G2.
  rewrite wrap_small by (unfold in_width; lia). unfold mbind, M_bind, mret, M_ret. rewrite G4.
  apply (register_in_mm s0 _ s _ _ _ _ io); [done|done|lia| |done].
  unfold ram_base, ram_region in E. cbn [fr_key fr_mr fr_addr offset_in_region] in E. rewrite Em in E. simpl in E. by rewrite Eb in E.
Qed.

Lemma emit_ok s0 l e s : ram_state_ok s0 l s → ∃ s', mt_emit e s = Ok () s' ∧ ram_state_ok s0 l s'.
Proof. intros [[S1 S2 S3 S4 S5 S6] Hc Hp]. eexists. split; [reflexivity|]. by split. Qed.

Lemma ram_range_del s0 l r s :
  ram_state_ok s0 (fr_key r :: l) s → ram_fr (regions s0) r → Forall (disjoint_ranges r) l →
  ∃ s', as_memory_range_del r s = Ok () s' ∧ ram_state_ok s0 l s'.
Proof.
  intros Hs Hr Hd. destruct (ram_fr_64 _ _ Hr) as (G1 & G2 & G3 & G4). pose proof Hr as [_ _ (_ & Fz & _) _ _ _ _].
  assert (Hdel : ∀ t, ram_state_ok s0 (fr_key r :: l) t → ∃ s',
    in_mm (cpu_register_physical_memory_log (fr_start r) (fr_size r) IO_MEM_UNASSIGNED 0 false) t = Ok () s' ∧ ram_state_ok s0 l s').
  { intros t [Ht Hc Hp]. destruct (pages_del _ l (fr_key r) _ Hp) as (io & E & Hp'); [done|].
    apply (register_in_mm s0 l t _ _ _ _ io); [done|done|lia|exact E|done]. }
  unfold as_memory_range_del. rewrite G1, G2, G3. unfold mbind, M_bind, mret, M_ret. rewrite G4.
  destruct (fr_dirty_log_mask r =? 0); [by apply Hdel|].
  destruct (emit_ok s0 _ (EvSyncDirty (fr_start r) (wrap phys_width (fr_end r))) s Hs) as (t & E & Ht). rewrite E. by apply Hdel.
Qed.

#[local] Instance ram_laws (s0 : mt_state) : BackendLaws address_space_ops_memory (Backend0:=ram_backend s0).
Proof.
  split; simpl.
  - intros l l' s Hp [S1 S2 S3]. split; [done..|]. by eapply pages_are_perm.
  - intros l r s Hs Hr _ Hd. by apply ram_range_add.
  - intros l r s Hs Hr Hd. by apply ram_range_del.
  - intros l o r s _ Hs _ Hr. destruct (ram_fr_64 _ _ Hr) as (G1 & G2 & _ & G4).
    assert (L1 : as_memory_log_start r s = mt_emit (EvLogStart (fr_start r) (fr_size r)) s)
      by (unfold as_memory_log_start; rewrite G1, G2, !bind_ret, G4; done).
    assert (L2 : as_memory_log_stop r s = mt_emit (EvLogStop (fr_start r) (fr_size r)) s)
      by (unfold as_memory_log_stop; rewrite G1, G2, !bind_ret, G4; done).
    unfold pass_both, call_opt. destruct (_ && _); [rewrite bind_nonnull, L2; by apply emit_ok|].
    destruct (_ && _); [rewrite bind_nonnull, L1; by apply emit_ok|by exists s].
Qed.

(** ** The whole update *)

(** What a graph of regions says about a guest address: the RAM behind it. *)
Definition graph_ram (rg : gmap Z MemoryRegion) (root a : Z) : option Z :=
  h ← region_at rg (render_depth rg) root 0 false a; p ← ram_region rg (h_mr h); Some (p + h_offset h).

Lemma view_at_in view a :
  match view_at view a with
  | Some h => ∃ r, r ∈ view ∧ range_at r a = Some h
  | None => ∀ r, r ∈ view → range_at r a = None
  end.
Proof.
  induction view as [|r v IH]; simpl; [by intros r Hr; inversion Hr|].
  destruct (range_at r a) as [h|] eqn:Er; [exists r; by split; [left|]|].
  destruct (view_at v a) as [h|].
  - destruct IH as (q & Hq & Eq). exists q. by split; [right|].
  - intros q [->|Hq]%elem_of_cons; [done|by apply IH].
Qed.

(** The page table that has the ranges of a view translates as the view says. *)
Lemma pages_translate rg view io a :
  pages_are rg (fr_key <$> view) io → Forall (ram_fr rg) view → in_space a →
  ram_trans (l1_phys_map io) a = (h ← view_at view a; p ← ram_region rg (h_mr h); Some (p + h_offset h)).
Proof.
  intros [_ _ P3 P4] Hok Ha. rewrite ram_trans_pd. pose proof (view_at_in view a) as Hv.
  pose proof (Z.div_mod a 4096 ltac:(lia)) as Hda. pose proof (Z.mod_pos_bound a 4096 ltac:(lia)) as Hma.
  destruct (view_at view a) as [h|].
  - destruct Hv as (r & Hr & Eh). unfold range_at in Eh. destruct (addrrange_contains _ _) eqn:Ec; [injection Eh as <-|done].
    pose proof (proj1 (Forall_forall _ _) Hok r Hr) as Hf. pose proof Ec as Ep. rewrite (page_in_addr rg) in Ep by done.
    rewrite (P3 (fr_key r)) by (done || by apply list_elem_of_fmap_2). change (page_of_range rg (fr_key r)) with (page_of_range rg r).
    rewrite decide_True by (by apply page_aligned). pose proof Hf as [F1 F2 F3 _ (F5 & _ & F5') (p & F6 & _) _].
    apply contains_spec in Ec. unfold addrrange_end in Ec. simpl. rewrite F6. simpl. f_equal.
    rewrite wrap_small by (unfold in_width; lia). unfold page_of_range, ram_base. rewrite F6. simpl.
    pose proof (Z.div_mod (fr_start r) 4096 ltac:(lia)). lia.
  - rewrite P4; [done| |].
    + unfold in_space in Ha. split; [apply Z.div_pos; lia|apply Z.div_lt_upper_bound; lia].
    + intros k (r & -> & Hr)%list_elem_of_fmap Hp. specialize (Hv r Hr). unfold range_at in Hv.
      rewrite (proj2 (page_in_addr rg r a (proj1 (Forall_forall _ _) Hok r Hr))) in Hv by done. done.
Qed.

Lemma before_irrefl f : memory_region_ioeventfd_before f f = false.
Proof. unfold memory_region_ioeventfd_before. rewrite !Z.ltb_irrefl. by destruct (match_data f). Qed.

(** Notifiers that stay are left alone. *)
Lemma same_fds {S} (ops : AddressSpaceOps S) l s : address_space_add_del_ioeventfds ops l l s = Ok () s.
Proof.
  unfold address_space_add_del_ioeventfds.
  assert (Hl : ∀ fuel, (length l ≤ fuel)%nat → ioeventfd_loop ops fuel l l s = Ok () s); [|apply Hl; lia].
  induction l as [|f l IH]; intros [|fuel] Hf; simpl in *; try done; [lia|]. rewrite before_irrefl. apply IH. lia.
Qed.

(** What an update does once the passes are done. *)
Lemma update_run io s root view s1 :
  as_root (space io s) = Some root → generate_memory_topology (regions s) root s = Ok view s →
  (address_space_update_topology_pass (space_ops io) (current_map (space io s)) view false;;
   address_space_update_topology_pass (space_ops io) (current_map (space io s)) view true) s = Ok () s1 →
  view_ioeventfds (regions s1) view = as_ioeventfds (space io s) →
  address_space_update_topology io s = Ok () (set_space io (mkAS (Some root) view (as_ioeventfds (space io s))) s1).
Proof.
  intros Hroot Hview E1 Hfds. unfold address_space_update_topology. rewrite !bind_gets, Hroot, bind_nonnull.
  rewrite (bind_Ok _ _ _ _ _ Hview), <-bind_assoc, (bind_Ok _ _ _ _ _ E1), bind_modify.
  unfold address_space_update_ioeventfds. rewrite !bind_gets.
  destruct io; cbn [space set_space address_space_memory address_space_io regions current_map as_ioeventfds as_root] in *;
    by rewrite Hfds, (bind_Ok _ _ _ _ _ (same_fds _ _ _)).
Qed.

(** The page table is what the current view of the memory space says. *)
Record ram_machine (s : mt_state) : Prop := {
  rm_calm : rr_calm (mm_rr (mt_mm s));
  rm_view : view_from 0 (current_map (address_space_memory s));
  rm_ok : Forall (ram_fr (regions s)) (current_map (address_space_memory s));
  rm_pages : pages_are (regions s) (fr_key <$> current_map (address_space_memory s)) (mm_io (mt_mm s));
}.

Lemma update_ok s root view :
  ram_machine s → as_root (address_space_memory s) = Some root →
  nested (regions s) (render_depth (regions s)) root = true →
  render_safe (regions s) (render_depth (regions s)) flatview_init root 0 whole_space false = true →
  generate_memory_topology (regions s) root () = Ok view () → Forall (ram_fr (regions s)) view →
  view_ioeventfds (regions s) view = as_ioeventfds (address_space_memory s) →
  ∃ s', address_space_update_topology false s = Ok () s' ∧ ram_machine s' ∧
    regions s' = regions s ∧ mm_ram (mt_mm s') = mm_ram (mt_mm s) ∧
    current_map (address_space_memory s') = view ∧
    address_space_io s' = address_space_io s ∧ mt_ports s' = mt_ports s ∧
    ∀ a, in_space a → in_width 64 a → ram_trans (mm_map (mt_mm s')) a = graph_ram (regions s) root a.
Proof.
  intros [M1 M2 M3 M4] Hroot Hn Hsafe Hview%(topology_state _ _ _ s) Hok Hfds; [|done..].
  destruct (topology_ok (regions s) root s Hn Hsafe) as (v & E & Hv & _ & Hat). rewrite Hview in E. injection E as <-.
  destruct (passes_ok address_space_ops_memory (Backend0:=ram_backend s) (current_map (address_space_memory s)) view s)
    as (s1 & E1 & [[S1 S2 S3 S4 S5 S6] C1 P1]); try done.
  set (s2 := set_space false (mkAS (Some root) view (as_ioeventfds (address_space_memory s))) s1).
  assert (E2 : address_space_update_topology false s = Ok () s2) by (by apply update_run; [..|rewrite S1]).
  exists s2. split; [done|]. rewrite <-S1 in P1, Hok. split_and!; try done.
  intros a Ha Haw. rewrite S1 in P1, Hok. unfold graph_ram. rewrite <-Hat by done.
  apply (pages_translate (regions s) view); done.
Qed.

End RamSpace.
