(* ===== verification/PortTopology.v ===== *)
(** * Port regions in the tables of ports: theorems

    The backend of the port space meets the interface of [TopologyFacts]: after an
    update each port leads to the region the graph has there. With [RamTopology]
    this covers both address spaces of an update. *)

From S2P Require Import Prelude CFile CString HostMem RamList Radix PhysPages PhysView RRTypes PandaCallbacks.
From S2P Require Import RRState RRQueue RRFormat RRReplay RRReplayInv RRRecord IOMem PhysMem PhysMemFacts IOMemFacts.
From S2P Require Import IOPort FlatView FlatViewFacts TopologyFacts MemRegion RamTopology.
Local Open Scope Z_scope.

Section PortSpace.
Context `{TargetPhys} `{TargetEndian} `{Machine} `{HostAlloc} `{PhysSpace} `{!PhysSpaceOk} `{!Devices}.
Context `{!KvmEventfd} `{!RegionThunks}.

(** Ranges inside the ports, without dirty logging. *)
Record port_fr (rg : gmap Z MemoryRegion) (r : FlatRange) : Prop := {
  pf_start : 0 ≤ fr_start r;
  pf_size : 0 < fr_size r;
  pf_max : fr_end r ≤ MAX_IOPORTS;
  pf_mask : fr_dirty_log_mask r = 0;
  pf_region : is_Some (rg !! fr_mr r);
}.

(** The tables have exactly the ranges. *)
Record ports_are (l : list FlatRange) (s : port_state) : Prop := {
  pt_ok : Forall (λ r, 0 ≤ fr_start r ∧ fr_end r ≤ MAX_IOPORTS) l;
  pt_in : ∀ r p, r ∈ l → addrrange_contains (fr_addr r) p = true → port_of_region s (fr_mr r) p;
  pt_out : ∀ p, 0 ≤ p < MAX_IOPORTS → (∀ r, r ∈ l → addrrange_contains (fr_addr r) p = false) → port_free s p;
}.

Lemma same_region s s' mr p : same_port s s' p → port_of_region s mr p → port_of_region s' mr p.
Proof.
  intros [S1 S2] [P1 P2]. split; [by rewrite S1|]. intros b Hb. destruct (S2 b) as [-> ->]. by apply P2.
Qed.
Lemma same_free s s' p : same_port s s' p → port_free s p → port_free s' p.
Proof.
  intros [S1 S2] [P1 P2]. split; [by rewrite S1|]. intros b Hb. destruct (S2 b) as [-> ->]. by apply P2.
Qed.

Lemma disjoint_contains r q p :
  disjoint_ranges r q → addrrange_contains (fr_addr r) p = true → addrrange_contains (fr_addr q) p = true → False.
Proof. intros Hd Hr%contains_spec Hq%contains_spec. unfold disjoint_ranges, addrrange_end in *. lia. Qed.

Lemma ports_add rg l r s :
  ports_are l s → port_fr rg r → Forall (disjoint_ranges r) l →
  ∃ s', ioport_register (fr_mr r) (fr_start r) (fr_size r) s = Ok () s' ∧ ports_are (fr_key r :: l) s'.
Proof.
  intros [P1 P2 P3] [F1 F2 F3 F4 F5] Hd. pose proof (proj1 (Forall_forall _ _) Hd) as Hd'.
  assert (Hfree : ∀ p, addrrange_contains (fr_addr r) p = true → port_free s p).
  { intros p Hp. pose proof Hp as Hp'%contains_spec. apply P3; [lia|]. intros q Hq. apply not_true_iff_false. intros Hc.
    by apply (disjoint_contains r q p (Hd' q Hq)). }
  destruct (ioport_register_ok (fr_mr r) (fr_start r) (fr_size r) s) as (s' & E & Hs'); [lia|lia|done|..].
  { intros p Hp. left. apply Hfree, contains_spec. done. }
  exists s'. split; [done|]. split.
  - constructor; [done|done].
  - intros q p [->|Hq]%elem_of_cons Hp; specialize (Hs' p).
    + apply contains_spec in Hp. by rewrite decide_True in Hs' by done.
    + rewrite decide_False in Hs'; [by eapply same_region, P2|]. intros Hc.
      by apply (disjoint_contains r q p (Hd' q Hq)); [apply contains_spec|].
  - intros p Hp Hn. specialize (Hs' p). rewrite decide_False in Hs'.
    + eapply same_free, P3; [done|done|]. intros q Hq. apply Hn. by right.
    + specialize (Hn (fr_key r) ltac:(by left)). by apply contains_false in Hn.
Qed.

Lemma ports_del l r s :
  ports_are (fr_key r :: l) s → 0 < fr_size r → Forall (disjoint_ranges r) l →
  ∃ s', isa_unassign_ioport (wrap 32 (fr_start r)) (int32 (fr_size r)) s = Ok () s' ∧ ports_are l s'.
Proof.
  intros [[[F1 F3] P1]%Forall_cons P2 P3] F2 Hd. pose proof (proj1 (Forall_forall _ _) Hd) as Hd'.
  destruct (wrap_ports (fr_start r) (fr_size r)) as [-> ->]; [done|lia|done|].
  destruct (unassign_ok (fr_start r) (fr_size r) s) as (s' & E & Hs'); [done|lia|done|].
  exists s'. split; [done|]. split; [done|..].
  - intros q p Hq Hp. specialize (Hs' p). rewrite decide_False in Hs'.
    + eapply same_region, P2; [done|by right|done].
    + intros Hc. by apply (disjoint_contains r q p (Hd' q Hq)); [apply contains_spec|].
  - intros p Hp Hn. specialize (Hs' p). case_decide as Hc; [done|]. eapply same_free, P3; [done|done|].
    intros q [->|Hq]%elem_of_cons; [by apply contains_false|by apply Hn].
Qed.

(** ** The backend *)

(** Only the tables of ports and the [IORange]s of the regions differ. *)
Definition no_iorange (r : MemoryRegion) : MemoryRegion := set_iorange (0, 0) r.
Record same_memory (s0 s : mt_state) : Prop := {
  sm_regions : no_iorange <$> regions s = no_iorange <$> regions s0;
  sm_depth : memory_region_transaction_depth s = memory_region_transaction_depth s0;
  sm_memory : address_space_memory s = address_space_memory s0;
  sm_io : address_space_io s = address_space_io s0;
  sm_mm : mt_mm s = mt_mm s0;
}.
Record port_state_ok (s0 : mt_state) (l : list FlatRange) (s : mt_state) : Prop := {
  po_same : same_memory s0 s;
  po_ports : ports_are l (mt_ports s);
}.

#[local] Instance port_backend (s0 : mt_state) : Backend address_space_ops_io :=
  { has_ranges := port_state_ok s0; range_ok := port_fr (regions s0) }.

Lemma port_fr_64 rg r : port_fr rg r →
  get64 (S:=mt_state) (fr_start r) = mret (fr_start r) ∧ get64 (S:=mt_state) (fr_size r) = mret (fr_size r).
Proof.
  intros [F1 F2 F3 _ _]. unfold addrrange_end, MAX_IOPORTS in *.
  assert (Hg : ∀ z, 0 ≤ z < 2 ^ 64 → get64 (S:=mt_state) z = mret z).
  { intros z Hz. unfold get64. by rewrite bool_decide_true by done. }
  rewrite !Hg by lia. done.
Qed.

Lemma iorange_same s0 s mr m x :
  same_memory s0 s → regions s !! mr = Some m → same_memory s0 (set_regions (<[mr := set_iorange x m]> (regions s)) s).
Proof.
  intros [S1 S2 S3 S4 S5] Hm. split; simpl; try done. rewrite fmap_insert.
  change (no_iorange (set_iorange x m)) with (no_iorange m). rewrite insert_id; [done|]. by rewrite lookup_fmap, Hm.
Qed.

Lemma same_lookup s0 s mr : same_memory s0 s → is_Some (regions s0 !! mr) → is_Some (regions s !! mr).
Proof.
  intros [S1 _ _ _ _] Hm. assert (Hf : is_Some ((no_iorange <$> regions s) !! mr)) by (rewrite S1, lookup_fmap; by destruct (regions s0 !! mr); destruct Hm).
  rewrite lookup_fmap in Hf. by destruct (regions s !! mr); destruct Hf.
Qed.

#[local] Instance port_laws (s0 : mt_state) : BackendLaws address_space_ops_io (Backend0:=port_backend s0).
Proof.
  split; simpl.
  - intros l l' s Hp [S1 [P1 P2 P3]]. split; [done|]. split; [by rewrite <-Hp| |].
    + intros r p Hr. apply P2. by rewrite Hp.
    + intros p Hb Hn. apply P3; [done|]. intros r Hr. apply Hn. by rewrite <-Hp.
  - intros l r s [S1 P1] Hr _ Hd. destruct (port_fr_64 _ _ Hr) as [G1 G2].
    destruct (ports_add _ l r _ P1 Hr Hd) as (pt & E & P2).
    destruct (same_lookup s0 s (fr_mr r) S1 (pf_region _ _ Hr)) as [m Hm].
    unfold as_io_range_add. rewrite G1, G2, !bind_ret. unfold upd_region, region. rewrite bind_assoc, bind_assoc, bind_gets, Hm.
    rewrite bind_nonnull, bind_modify. unfold in_pt. simpl. rewrite E. eexists. split; [reflexivity|].
    split; [|done]. destruct (iorange_same s0 s (fr_mr r) m (fr_start r, fr_size r) S1 Hm) as [T1 T2 T3 T4 T5]. by split.
  - intros l r s [S1 P1] Hr Hd. destruct (port_fr_64 _ _ Hr) as [G1 G2].
    destruct (ports_del l r _ P1 (pf_size _ _ Hr) Hd) as (pt & E & P2).
    unfold as_io_range_del. rewrite G1, G2, !bind_ret. unfold in_pt. rewrite E. eexists. split; [reflexivity|].
    split; [|done]. by destruct S1; split.
  - intros l o r s _ Hs Ho Hr. exists s. split; [|done]. unfold pass_both.
    by rewrite (pf_mask _ _ Ho), (pf_mask _ _ Hr).
Qed.

(** ** The whole update *)

Lemma ports_follow rg view s p :
  ports_are (fr_key <$> view) s → Forall (port_fr rg) view → 0 ≤ p < MAX_IOPORTS →
  match view_at view p with Some h => port_of_region s (h_mr h) p | None => port_free s p end.
Proof.
  intros [_ P2 P3] Hok Hp. pose proof (view_at_in view p) as Hv. destruct (view_at view p) as [h|].
  - destruct Hv as (r & Hr & Eh). unfold range_at in Eh. destruct (addrrange_contains _ _) eqn:Ec; [injection Eh as <-|done].
    apply (P2 (fr_key r)); [by apply list_elem_of_fmap_2|done].
  - apply P3; [done|]. intros k (r & -> & Hr)%list_elem_of_fmap. specialize (Hv r Hr). unfold range_at in Hv.
    simpl. by destruct (addrrange_contains (fr_addr r) p).
Qed.

Record port_machine (s : mt_state) : Prop := {
  pm_view : view_from 0 (current_map (address_space_io s));
  pm_ok : Forall (port_fr (regions s)) (current_map (address_space_io s));
  pm_ports : ports_are (fr_key <$> current_map (address_space_io s)) (mt_ports s);
}.

Lemma same_fd_list (rg rg' : gmap Z MemoryRegion) view :
  no_iorange <$> rg' = no_iorange <$> rg → view_ioeventfds rg' view = view_ioeventfds rg view.
Proof.
  intros E. unfold view_ioeventfds. f_equal. apply list_fmap_ext. intros _ fr _. unfold shifted_fds.
  assert (Hl : no_iorange <$> rg' !! fr_mr fr = no_iorange <$> rg !! fr_mr fr) by (by rewrite <-!lookup_fmap, E).
  destruct (rg' !! fr_mr fr) as [m'|], (rg !! fr_mr fr) as [m|]; simpl in Hl; try done. injection Hl as Hm.
  assert (Ef : mr_ioeventfds m' = mr_ioeventfds m) by congruence. by rewrite Ef.
Qed.

Lemma port_update_ok s root view :
  port_machine s → as_root (address_space_io s) = Some root →
  nested (regions s) (render_depth (regions s)) root = true →
  render_safe (regions s) (render_depth (regions s)) flatview_init root 0 whole_space false = true →
  generate_memory_topology (regions s) root () = Ok view () → Forall (port_fr (regions s)) view →
  view_ioeventfds (regions s) view = as_ioeventfds (address_space_io s) →
  ∃ s', address_space_update_topology true s = Ok () s' ∧ port_machine s' ∧
    no_iorange <$> regions s' = no_iorange <$> regions s ∧ mt_mm s' = mt_mm s ∧
    address_space_memory s' = address_space_memory s ∧ current_map (address_space_io s') = view ∧
    ∀ p, 0 ≤ p < MAX_IOPORTS →
      match region_at (regions s) (render_depth (regions s)) root 0 false p with
      | Some h => port_of_region (mt_ports s') (h_mr h) p
      | None => port_free (mt_ports s') p
      end.
Proof.
  intros [M1 M2 M3] Hroot Hn Hsafe Hview%(topology_state _ _ _ s) Hok Hfds; [|done..].
  destruct (topology_ok (regions s) root s Hn Hsafe) as (v & E & Hv & _ & Hat). rewrite Hview in E. injection E as <-.
  destruct (passes_ok address_space_ops_io (Backend0:=port_backend s) (current_map (address_space_io s)) view s)
    as (s1 & E1 & [Hs1 P1]); try done.
  pose proof Hs1 as [S1 S2 S3 S4 S5].
  set (s2 := set_space true (mkAS (Some root) view (as_ioeventfds (address_space_io s))) s1).
  assert (E2 : address_space_update_topology true s = Ok () s2) by (apply (update_run true s root view s1); try done; by rewrite (same_fd_list _ _ view S1)).
  exists s2. split; [done|]. split_and!; try done.
  - split; [done| |done]. eapply Forall_impl; [exact Hok|]. intros r [F1 F2 F3 F4 F5]. split; try done.
    by apply (same_lookup s s1).
  - intros p Hp. rewrite <-Hat; [|unfold in_width, MAX_IOPORTS in *; lia]. by apply (ports_follow (regions s) view).
Qed.

(** ** Both address spaces *)

Lemma no_iorange_ram (rg rg' : gmap Z MemoryRegion) : no_iorange <$> rg' = no_iorange <$> rg → same_ram_regions rg rg'.
Proof.
  intros E mr. unfold ram_region.
  assert (Hl : no_iorange <$> rg' !! mr = no_iorange <$> rg !! mr) by (by rewrite <-!lookup_fmap, E).
  destruct (rg' !! mr) as [m'|], (rg !! mr) as [m|]; simpl in Hl; try done. injection Hl as Hm. simpl.
  assert (Eb : backend_registered m' = backend_registered m) by congruence.
  assert (Ea : mr_ram_addr m' = mr_ram_addr m) by congruence. by rewrite Eb, Ea.
Qed.

(** What an address space is rendered from, and the view that comes out. *)
Record renders (rg : gmap Z MemoryRegion) (a : AddressSpace) (root : Z) (view : FlatView) : Prop := {
  rn_root : as_root a = Some root;
  rn_nested : nested rg (render_depth rg) root = true;
  rn_safe : render_safe rg (render_depth rg) flatview_init root 0 whole_space false = true;
  rn_view : generate_memory_topology rg root () = Ok view ();
  rn_fds : view_ioeventfds rg view = as_ioeventfds a;
}.

(** The guest's memory and ports are those of the graph. *)
Definition guest_sees (rg : gmap Z MemoryRegion) (rm ri : Z) (s : mt_state) : Prop :=
  (∀ a, in_space a → in_width 64 a → ram_trans (mm_map (mt_mm s)) a = graph_ram rg rm a) ∧
  (∀ p, 0 ≤ p < MAX_IOPORTS →
     match region_at rg (render_depth rg) ri 0 false p with
     | Some h => port_of_region (mt_ports s) (h_mr h) p
     | None => port_free (mt_ports s) p
     end).

Lemma update_both s rm ri vm vi :
  ram_machine s → port_machine s → memory_region_transaction_depth s = 0 →
  renders (regions s) (address_space_memory s) rm vm → renders (regions s) (address_space_io s) ri vi →
  Forall (ram_fr (regions s)) vm → Forall (port_fr (regions s)) vi →
  ∃ s', memory_region_update_topology s = Ok () s' ∧ ram_machine s' ∧ port_machine s' ∧
    mm_ram (mt_mm s') = mm_ram (mt_mm s) ∧ guest_sees (regions s) rm ri s'.
Proof.
  intros Hm Hp Hd [R1 R2 R3 R4 R5] [Q1 Q2 Q3 Q4 Q5] Hvm Hvi.
  destruct (update_ok s rm vm) as (s1 & E1 & M1 & S1 & S2 & S3 & S4 & S5 & A1); try done.
  destruct (port_update_ok s1 ri vi) as (s2 & E2 & P2 & T1 & T2 & T3 & T4 & A2); try (by rewrite ?S1, ?S4).
  { destruct Hp as [H1' H2' H3']. split; by rewrite ?S1, ?S4, ?S5. }
  exists s2. split_and!; try done.
  - unfold memory_region_update_topology. rewrite bind_gets, Hd. cbn [Z.eqb negb]. rewrite bind_gets, R1, (bind_Ok _ _ _ _ _ E1).
    rewrite bind_gets, S4, Q1. done.
  - pose proof (no_iorange_ram _ _ T1) as Hr. destruct M1 as [C1 C2 C3 C4]. split; rewrite ?T2, ?T3; try done.
    + eapply Forall_impl; [exact C3|]. intros r. by apply ram_fr_same.
    + by eapply pages_are_same.
  - by rewrite T2.
  - split; [by rewrite T2|]. by rewrite S1 in A2.
Qed.

(** ** Transactions *)

(** Subregions are added with a priority, or without overlap. *)
Record sub_add := mkAdd { sa_mr : Z; sa_offset : Z; sa_sub : Z; sa_prio : option Z }.

Definition add_subregion (x : sub_add) : MT () :=
  match sa_prio x with
  | Some p => memory_region_add_subregion_overlap (sa_mr x) (sa_offset x) (sa_sub x) p
  | None => memory_region_add_subregion (sa_mr x) (sa_offset x) (sa_sub x)
  end.
Fixpoint add_subregions (l : list sub_add) : MT () :=
  match l with [] => mret () | x :: l' => add_subregion x;; add_subregions l' end.

(** The graph with a subregion added: it must not have a parent. *)
Definition placed (x : sub_add) (m : MemoryRegion) : MemoryRegion :=
  set_addr (sa_offset x) (set_parent (Some (sa_mr x)) (set_priority (bool_decide (is_Some (sa_prio x))) (default 0 (sa_prio x)) m)).
Definition graph_add (rg : gmap Z MemoryRegion) (x : sub_add) : option (gmap Z MemoryRegion) :=
  m ← rg !! sa_sub x;
  if decide (mr_parent m = None) then
    let rg1 := <[sa_sub x := placed x m]> rg in
    b ← rg1 !! sa_mr x;
    Some (<[sa_mr x := set_subregions (insert_by_priority rg1 (default 0 (sa_prio x)) (sa_sub x) (subregions b)) b]> rg1)
  else None.
Fixpoint graph_adds (rg : gmap Z MemoryRegion) (l : list sub_add) : option (gmap Z MemoryRegion) :=
  match l with [] => Some rg | x :: l' => rg' ← graph_add rg x; graph_adds rg' l' end.

Lemma upd_region_ok mr f m s :
  regions s !! mr = Some m → upd_region mr f s = Ok () (set_regions (<[mr := f m]> (regions s)) s).
Proof. intros Hm. unfold upd_region, region. by rewrite bind_assoc, bind_gets, Hm, bind_nonnull. Qed.

(** While a transaction is open only the graph changes. *)
Lemma common_deferred mr offset sub m b s :
  memory_region_transaction_depth s ≠ 0 → regions s !! sub = Some m → mr_parent m = None →
  let rg1 := <[sub := set_addr offset (set_parent (Some mr) m)]> (regions s) in
  rg1 !! mr = Some b →
  memory_region_add_subregion_common mr offset sub s
  = Ok () (set_regions (<[mr := set_subregions (insert_by_priority rg1 (priority m) sub (subregions b)) b]> rg1) s).
Proof.
  intros Hd Em Hp rg1 Eb. unfold memory_region_add_subregion_common. unfold region at 1. rewrite bind_assoc, bind_gets, Em, bind_nonnull.
  rewrite (bind_Ok _ _ _ () s) by (by rewrite bool_decide_true).
  rewrite (bind_Ok _ _ _ _ _ (upd_region_ok sub _ m s Em)), bind_gets.
  rewrite (bind_Ok _ _ _ _ _ (upd_region_ok mr _ b (set_regions rg1 s) Eb)).
  unfold memory_region_update_topology. rewrite bind_gets. cbn [memory_region_transaction_depth set_regions].
  by rewrite (proj2 (Z.eqb_neq _ _)).
Qed.

Lemma add_deferred x rg s :
  memory_region_transaction_depth s ≠ 0 → graph_add (regions s) x = Some rg → add_subregion x s = Ok () (set_regions rg s).
Proof.
  unfold graph_add. intros Hd E. destruct (regions s !! sa_sub x) as [m|] eqn:Em; [simpl in E|done].
  destruct (decide (mr_parent m = None)) as [Hp|]; [|done].
  set (rg1 := <[sa_sub x := _]> (regions s)) in E. destruct (rg1 !! sa_mr x) as [b|] eqn:Eb; [simpl in E; injection E as <-|done].
  assert (Hrun : ∀ o p, placed x m = set_addr (sa_offset x) (set_parent (Some (sa_mr x)) (set_priority o p m)) → default 0 (sa_prio x) = p →
    (upd_region (sa_sub x) (set_priority o p);; memory_region_add_subregion_common (sa_mr x) (sa_offset x) (sa_sub x)) s
    = Ok () (set_regions (<[sa_mr x := set_subregions (insert_by_priority rg1 (default 0 (sa_prio x)) (sa_sub x) (subregions b)) b]> rg1) s)).
  { intros o p Epl Ep. rewrite (bind_Ok _ _ _ _ _ (upd_region_ok (sa_sub x) (set_priority o p) m s Em)).
    pose proof (common_deferred (sa_mr x) (sa_offset x) (sa_sub x) (set_priority o p m) b
      (set_regions (<[sa_sub x := set_priority o p m]> (regions s)) s) Hd) as Hc.
    cbn [regions set_regions] in Hc. rewrite lookup_insert_eq, insert_insert_eq, <-Epl in Hc. fold rg1 in Hc.
    rewrite (Hc eq_refl Hp Eb), Ep. done. }
  unfold add_subregion, memory_region_add_subregion, memory_region_add_subregion_overlap.
  unfold placed in Hrun. destruct (sa_prio x) as [p|]; by apply Hrun.
Qed.

Lemma adds_deferred l : ∀ rg s,
  memory_region_transaction_depth s ≠ 0 → graph_adds (regions s) l = Some rg → add_subregions l s = Ok () (set_regions rg s).
Proof.
  induction l as [|x l IH]; intros rg s Hd E; simpl in *; [injection E as <-; by destruct s|].
  destruct (graph_add (regions s) x) as [rg1|] eqn:E1; [simpl in E|done].
  rewrite (bind_Ok _ _ _ _ _ (add_deferred x rg1 s Hd E1)). by rewrite (IH rg).
Qed.

(** Adding subregions moves no RAM and no region goes away. *)
Definition grows (rg rg' : gmap Z MemoryRegion) : Prop := same_ram_regions rg rg' ∧ ∀ mr, is_Some (rg !! mr) → is_Some (rg' !! mr).

Lemma grows_insert rg mr m m' :
  rg !! mr = Some m → backend_registered m' = backend_registered m → mr_ram_addr m' = mr_ram_addr m → grows rg (<[mr := m']> rg).
Proof.
  intros Hm Hb Ha. split; intros k; unfold ram_region; destruct (decide (k = mr)) as [->|Hne];
    rewrite ?lookup_insert_eq, ?lookup_insert_ne by done; [by rewrite Hm; simpl; rewrite Hb, Ha|done|done|done].
Qed.
Lemma grows_trans rg rg1 rg2 : grows rg rg1 → grows rg1 rg2 → grows rg rg2.
Proof. intros [A1 A2] [B1 B2]. split; [intros k; by rewrite B1, A1|auto]. Qed.

Lemma graph_add_grows rg x rg' : graph_add rg x = Some rg' → grows rg rg'.
Proof.
  unfold graph_add. destruct (rg !! sa_sub x) as [m|] eqn:Em; [simpl|done]. destruct (decide _); [|done].
  set (rg1 := <[sa_sub x := _]> rg). destruct (rg1 !! sa_mr x) as [b|] eqn:Eb; [simpl|done]. intros [= <-].
  apply (grows_trans _ rg1); [by apply (grows_insert rg (sa_sub x) m)|by apply (grows_insert rg1 (sa_mr x) b)].
Qed.
Lemma graph_adds_grows l : ∀ rg rg', graph_adds rg l = Some rg' → grows rg rg'.
Proof.
  induction l as [|x l IH]; intros rg rg' E; simpl in E; [by injection E as <-|].
  destruct (graph_add rg x) as [rg1|] eqn:E1; [|done]. eapply grows_trans; [by eapply graph_add_grows|by apply IH].
Qed.

(** C19. A transaction that adds subregions, on a machine whose memory is RAM: the
    address spaces are rendered once, at the end, and then the page table translates
    every guest address to the RAM the new graph has there, and the tables lead every
    port to the region of the new graph, or to none. The graphs in between need not
    be renderable. The new graphs are renderable ([renders]: no cycle, no region
    begins inside a rendered range, the ioeventfds do not change); every range of the
    new memory view is whole pages of RAM that can be read and written ([ram_fr]: no
    devices and no ROM in this address space), every range of the new port view is
    not dirty-logged and within the 65536 ports ([port_fr]), and the views before the
    transaction were such, too. *)
Theorem transaction_refines s l rg rm ri vm vi :
  ram_machine s → port_machine s → memory_region_transaction_depth s = 0 →
  graph_adds (regions s) l = Some rg →
  renders rg (address_space_memory s) rm vm → renders rg (address_space_io s) ri vi →
  Forall (ram_fr rg) vm → Forall (port_fr rg) vi →
  ∃ s', (memory_region_transaction_begin;; add_subregions l;; memory_region_transaction_commit) s = Ok () s' ∧
    ram_machine s' ∧ port_machine s' ∧ mm_ram (mt_mm s') = mm_ram (mt_mm s) ∧ guest_sees rg rm ri s'.
Proof.
  intros [M1 M2 M3 M4] [P1 P2 P3] Hd Hg R1 R2 Hvm Hvi. destruct (graph_adds_grows l _ _ Hg) as [G1 G2].
  destruct (update_both (set_regions rg s) rm ri vm vi) as (s' & E & A1 & A2 & A3 & A4); try done.
  - split; try done; [eapply Forall_impl; [exact M3|]; intros r; by apply ram_fr_same|by eapply pages_are_same].
  - split; try done. eapply Forall_impl; [exact P2|]. intros r [F1 F2 F3 F4 F5]. split; auto.
  - exists s'. split_and!; try done. unfold memory_region_transaction_begin. rewrite bind_modify, Hd.
    change (wrap 32 (0 + 1)) with 1. rewrite (bind_Ok _ _ _ _ _ (adds_deferred l rg (set_depth 1 s) ltac:(done) Hg)).
    unfold memory_region_transaction_commit. rewrite bind_gets. cbn [memory_region_transaction_depth set_regions set_depth].
    rewrite (bind_Ok _ _ _ _ _ (assert_true _ _ _ eq_refl)), bind_modify. rewrite <-E. f_equal. destruct s. simpl in *. by subst.
Qed.

End PortSpace.
