(* ===== verification/FlatViewExamples.v ===== *)
(** * Flat views: concrete graphs

    The theorems of [FlatViewFacts] and [TopologyFacts] applied to small machines,
    and what rendering does with a region that begins inside a range of a region
    of higher priority. *)

From S2P Require Import Prelude CFile HostMem RamList Radix PhysPages RRTypes IOMem PhysMemExamples FlatView FlatViewFacts TopologyFacts.
Import PhysMemExamples.
Local Open Scope Z_scope.

Module FlatViewExamples.

Definition leaf (addr size prio : Z) : MemoryRegion :=
  mkMR None 0 (Some 1) size addr 0 true memory_region_destructor_none 0 (0, 0) true true false None 0 prio true
    [] [] "" 0 [].
Definition window (addr size orig off : Z) : MemoryRegion :=
  mkMR None 0 (Some 1) size addr 0 false memory_region_destructor_none 0 (0, 0) false true true (Some orig) off 0 true
    [] [] "" 0 [].
Definition bus (size : Z) (subs : list Z) : MemoryRegion :=
  mkMR None 0 None size 0 0 false memory_region_destructor_none 0 (0, 0) false true false None 0 0 false
    subs [] "" 0 [].

(** RAM with a device in front of it, and a read-only alias of the second half of
    the RAM above it. *)
Definition demo_graph : gmap Z MemoryRegion :=
  {[ 1 := bus (2 ^ 64) [3; 2; 4]; 2 := leaf 0 65536 0; 3 := leaf 4096 4096 1; 4 := window 131072 32768 2 32768 ]}.

(** Without the device there is no overlap. *)
Definition flat_graph : gmap Z MemoryRegion :=
  {[ 1 := bus (2 ^ 64) [2; 4]; 2 := leaf 0 65536 0; 4 := window 131072 32768 2 32768 ]}.

Lemma flat_apart : no_overlap flat_graph.
Proof.
  assert (Hsubs : all_apart_regions flat_graph [2; 4]).
  { split; [|by repeat constructor]. constructor; [|constructor]. intros rx ry [= <-] [= <-]. left. by vm_compute. }
  unfold no_overlap. intros i r Hr. unfold flat_graph in Hr.
  repeat (rewrite lookup_insert_Some in Hr; destruct Hr as [[<- <-]|[_ Hr]]; [done|]).
  apply lookup_singleton_Some in Hr as [<- <-]. done.
Qed.

Lemma topology_refines_witness :
  (∃ view, generate_memory_topology demo_graph 1 () = Ok view () ∧ length view = 4%nat ∧
    view_at view 5000 = Some (mkHit 3 904 0 true false) ∧
    view_at view 131073 = Some (mkHit 2 32769 0 true true) ∧ view_at view 70000 = None) ∧
  ∃ view, generate_memory_topology flat_graph 1 () = Ok view () ∧
    view_at view 40000 = Some (mkHit 2 40000 0 true false) ∧
    view_at view 131073 = Some (mkHit 2 32769 0 true true).
Proof.
  split.
  - destruct (topology_refines demo_graph 1 () eq_refl (or_introl eq_refl)) as (view & E & _ & _ & A).
    exists view. split; [exact E|]. rewrite !A by (split; [lia|reflexivity]). split; [|split_and!; reflexivity].
    vm_compute in E. by injection E as <-.
  - destruct (topology_refines flat_graph 1 () eq_refl (or_intror flat_apart)) as (view & E & _ & _ & A).
    exists view. split; [exact E|]. rewrite !A by (split; [lia|reflexivity]). split; reflexivity.
Defined.

(** The condition on the order of rendering is needed. The region 3 has the higher
    priority and covers the first ten bytes; the region 2 covers the bytes from 5
    on. Rendering region 2 finds its start inside the range of region 3, moves
    past that range without cutting anything off, and adds the whole of region 2:
    two ranges of the view have the bytes 5 to 9. *)
Definition overlap_graph : gmap Z MemoryRegion :=
  {[ 1 := bus (2 ^ 64) [3; 2]; 2 := leaf 5 15 0; 3 := leaf 0 10 1 ]}.

(** Rendering a region that begins inside a range of a region of higher priority
    gives a view with overlapping ranges: byte 5 is in the range of the region of
    higher priority, where the graph puts it, and in the other one too, which is
    the one registered last. *)
Theorem overlapping_view :
  ∃ a b, generate_memory_topology overlap_graph 1 () = Ok [a; b] () ∧
    fr_mr a = 3 ∧ fr_mr b = 2 ∧ addrrange_contains (fr_addr a) 5 = true ∧ addrrange_contains (fr_addr b) 5 = true ∧
    region_at overlap_graph (render_depth overlap_graph) 1 0 false 5 = Some (mkHit 3 5 0 true false).
Proof. vm_compute. eexists _, _. split_and!; reflexivity. Qed.

(** ** A backend that keeps a list *)

Definition list_backend : AddressSpaceOps (list FlatRange) :=
  mkASOps _ (λ r, modify (cons (fr_key r)))
    (λ r, l ← gets id; match list_find (.= fr_key r) l with Some (i, _) => modify (delete i) | None => fail Abort end)
    (Some (λ _, mret ())) (Some (λ _, mret ())) (λ _, mret ()) (λ _, mret ()).

#[local] Instance list_Backend : Backend list_backend := { has_ranges l s := l ≡ₚ s; range_ok _ := True }.

#[local] Instance list_laws : BackendLaws list_backend.
Proof.
  split.
  - intros l l' s Hp Hl. simpl in *. by rewrite <-Hp.
  - intros l r s Hl _ _ _. eexists. split; [reflexivity|]. simpl in *. by rewrite Hl.
  - intros l r s Hl _ _. simpl in *. unfold mbind, M_bind, gets, id.
    destruct (list_find (.= fr_key r) s) as [[i x]|] eqn:Ef.
    + apply list_find_Some in Ef as (Hi & -> & _). eexists. split; [reflexivity|].
      apply (Permutation_cons_inv (a:=fr_key r)). rewrite Hl. by apply delete_Permutation.
    + apply list_find_None in Ef. exfalso. rewrite <-Hl in Ef. by inversion Ef.
  - intros l o r s _ Hl _ _. exists s. split; [|exact Hl]. unfold pass_both. by repeat destruct (_ && _).
Qed.

(** The device of [demo_graph] goes: one range is replaced by the whole RAM. *)
Lemma topology_passes_sync_witness :
  ∃ old new s',
    generate_memory_topology demo_graph 1 () = Ok old () ∧ generate_memory_topology flat_graph 1 () = Ok new () ∧
    (address_space_update_topology_pass list_backend old new false;;
     address_space_update_topology_pass list_backend old new true) (fr_key <$> old) = Ok () s' ∧
    fr_key <$> new ≡ₚ s'.
Proof.
  destruct (topology_ok demo_graph 1 ()) as (old & E & V & _); [reflexivity..|].
  destruct (topology_ok flat_graph 1 ()) as (new & E' & V' & _); [reflexivity..|].
  destruct (topology_passes_sync list_backend old new (fr_key <$> old) V V') as (s' & Es & Hs);
    [by apply Forall_true..|reflexivity|].
  exists old, new, s'. split_and!; done.
Defined.

End FlatViewExamples.
