(* ===== verification/PortTopologyExamples.v ===== *)
(** * Updates of the address spaces: a concrete machine

    Two RAM blocks, an alias of a part of the first one, and a clock at two
    ports. *)

From S2P Require Import Prelude CFile CString HostMem RamList Radix PhysPages PhysView RRTypes PandaCallbacks.
From S2P Require Import RRState RRQueue RRFormat RRReplay RRReplayInv RRRecord IOMem PhysMem PhysMemFacts IOMemFacts.
From S2P Require Import PhysMemExamples IOMemExamples IOPort FlatView FlatViewFacts TopologyFacts MemRegion RamTopology PortTopology.
Import PhysMemExamples IOMemExamples.
Local Open Scope Z_scope.

Module PortTopologyExamples.

#[local] Instance no_kvm : KvmEventfd := λ _ _ _ _ _, -1.
#[local] Instance thunk0 : RegionThunks := 0.

Definition leaf (size ram : Z) : MemoryRegion :=
  mkMR None 0 None size 0 0 true memory_region_destructor_ram ram (0, 0) true true false None 0 0 false [] [] "" 0 [].
Definition bus (size : Z) : MemoryRegion :=
  mkMR None 0 None size 0 0 false memory_region_destructor_none 0 (0, 0) false true false None 0 0 false [] [] "" 0 [].
Definition alias (size orig off : Z) : MemoryRegion :=
  mkMR None 0 None size 0 0 false memory_region_destructor_none 0 (0, 0) false true false (Some orig) off 0 false [] [] "" 0 [].
Definition clock : MemoryRegion :=
  mkMR None 0 None 2 0 112 false memory_region_destructor_none 0 (0, 0) true true false None 0 0 false [] [] "" 0 [].

Definition parts : gmap Z MemoryRegion :=
  {[ 1 := bus (2 ^ 64); 2 := leaf 65536 0; 3 := leaf 8192 65536; 4 := alias 4096 2 8192; 5 := bus 65536; 6 := clock ]}.
Definition plan : list sub_add :=
  [mkAdd 1 0 2 None; mkAdd 1 65536 3 None; mkAdd 1 1048576 4 (Some 1); mkAdd 5 112 6 None].

Definition machine : gmap Z MemoryRegion := Eval vm_compute in default ∅ (graph_adds parts plan).
Definition machine_start (rg : gmap Z MemoryRegion) (io : io_state) : mt_state :=
  mkMT _ (mem_with io) (mkPorts ∅ ∅ ∅) rg 0 (mkAS (Some 1) [] []) (mkAS (Some 5) [] []) [].

Definition memory_view : FlatView :=
  [mkFR 2 0 (mkAR 0 65536) 0 true false; mkFR 3 0 (mkAR 65536 8192) 0 true false;
   mkFR 2 8192 (mkAR 1048576 4096) 0 true false].
Definition port_view : FlatView := [mkFR 6 0 (mkAR 112 2) 0 true false].

Lemma memory_ok : Forall (ram_fr machine) memory_view.
Proof.
  assert (Hr : ∀ mr off start size p, ram_region machine mr = Some p → 0 ≤ p < 2 ^ 20 → p mod 4096 = 0 →
    0 ≤ start < 2 ^ 21 → start mod 4096 = 0 → 0 < size < 2 ^ 20 → size mod 4096 = 0 →
    0 ≤ off < 2 ^ 20 → off mod 4096 = 0 → ram_fr machine (mkFR mr off (mkAR start size) 0 true false)).
  { intros mr off start size p Hp Hp0 Hp1 Hs0 Hs1 Hz0 Hz1 Ho0 Ho1. split; simpl; try done.
    - apply fits; lia.
    - rewrite space36_pages. lia.
    - change phys_width with 64. lia.
    - exists p. split_and!; try done; lia. }
  repeat apply Forall_cons_2; [by eapply Hr; [reflexivity|..]..|constructor].
Qed.

Lemma ports_ok : Forall (port_fr machine) port_view.
Proof. apply Forall_cons_2; [|constructor]. by split. Qed.

Lemma memory_renders : renders machine (mkAS (Some 1) [] []) 1 memory_view.
Proof. split; vm_compute; reflexivity. Qed.
Lemma ports_render : renders machine (mkAS (Some 5) [] []) 5 port_view.
Proof. split; vm_compute; reflexivity. Qed.

Lemma start_ram rg io : io_wf io → l1_phys_map io = ∅ → ram_machine (machine_start rg io).
Proof.
  intros Hw Hm. split; [exact I|exact I|constructor|]. split; [exact Hw|constructor|by intros r j Hr; inversion Hr|].
  intros j _ _. by apply empty_pd.
Qed.
Lemma start_ports rg io : port_machine (machine_start rg io).
Proof.
  split; [exact I|constructor|]. split; [constructor|by intros r p Hr; inversion Hr|]. intros p _ _. done.
Qed.

Lemma space_ok a : 0 ≤ a < 2 ^ 36 → in_space a ∧ in_width 64 a.
Proof. intros Ha. unfold in_space, in_width. rewrite space36_pages. lia. Qed.

Lemma plan_ok : graph_adds parts plan = Some machine.
Proof. vm_compute. reflexivity. Qed.

(** What the graph says about some addresses and ports. *)
Lemma ram_70000 : graph_ram machine 1 70000 = Some 70000.
Proof. vm_compute. reflexivity. Qed.
Lemma ram_alias : graph_ram machine 1 1048580 = Some 8196.
Proof. vm_compute. reflexivity. Qed.
Lemma port_112 : region_at machine (render_depth machine) 5 0 false 112 = Some (mkHit 6 0 0 true false).
Proof. vm_compute. reflexivity. Qed.
Lemma port_114 : region_at machine (render_depth machine) 5 0 false 114 = None.
Proof. vm_compute. reflexivity. Qed.

Lemma in_ports_112 : 0 ≤ 112 < MAX_IOPORTS.
Proof. done. Qed.
Lemma in_ports_114 : 0 ≤ 114 < MAX_IOPORTS.
Proof. done. Qed.

Lemma transaction_refines_witness :
  ∃ io s', io_mem_init 0 io_start = Ok 40 io ∧
    (memory_region_transaction_begin;; add_subregions plan;; memory_region_transaction_commit) (machine_start parts io)
    = Ok () s' ∧
    ram_trans (mm_map (mt_mm s')) 70000 = Some 70000 ∧ ram_trans (mm_map (mt_mm s')) 1048580 = Some 8196 ∧
    port_of_region (mt_ports s') 6 112 ∧ port_free (mt_ports s') 114.
Proof.
  destruct (io_mem_init_wf 0) as (io & E & Hw & Hp & Hm & Hu).
  destruct (transaction_refines (machine_start parts io) plan machine 1 5 memory_view port_view
    (start_ram parts io Hw Hm) (start_ports parts io) eq_refl plan_ok memory_renders ports_render memory_ok ports_ok)
    as (s' & E' & _ & _ & _ & A & B).
  exists io, s'. split; [exact E|]. split; [exact E'|].
  pose proof (B 112 in_ports_112) as B1. rewrite port_112 in B1. pose proof (B 114 in_ports_114) as B2. rewrite port_114 in B2.
  rewrite !A by (apply space_ok; lia). split_and!; [exact ram_70000|exact ram_alias|exact B1|exact B2].
Defined.

End PortTopologyExamples.
