(* ===== verification/RegionIO.v ===== *)
(** * Accesses to regions and ports ([memory.c], [ioport.c])

    The functions that are registered for a region: they check an access, split it
    into accesses the device implements, and call the device. Port accesses look
    their function up in the tables of ports and are recorded and replayed. Last,
    lists of ports that a device registers as regions. *)

From S2P Require Import Prelude CFile CString HostMem RamList Radix PhysPages RRTypes PandaCallbacks.
From S2P Require Import RRState RRQueue RRFormat RRReplay RRReplayInv RRRecord IOMem PhysMem IOPort FlatView MemRegion.
Local Open Scope Z_scope.

(** The functions of devices: [MemoryRegionOps] callbacks get the opaque pointer,
    an address and a size; the older kinds get the pointer and an address. *)
Class RegionDevices `{PhysSpace} := {
  region_read : Z → Z → Z → Z → M mt_state Z;
  region_write : Z → Z → Z → Z → Z → M mt_state ();
  old_mmio_read_fn : Z → Z → Z → M mt_state Z;
  old_mmio_write_fn : Z → Z → Z → Z → M mt_state ();
  portio_read_fn : Z → Z → Z → M mt_state Z;
  portio_write_fn : Z → Z → Z → Z → M mt_state ();
  port_read_fn : Z → option port_opaque → Z → M mt_state Z;
  port_write_fn : Z → option port_opaque → Z → Z → M mt_state ();
}.

Section RegionIO.
Context `{TargetPhys} `{TargetEndian} `{Machine} `{HostAlloc} `{PhysSpace} `{!KvmEventfd} `{!RegionThunks} `{RD : !RegionDevices}.

Definition region_ops (r : MemoryRegion) : MT MemoryRegionOps := nonnull (mr_ops r).

(** ** Splitting an access *)

(** An accessor gets the address, [*value], the size, the shift and the mask, and
    returns the new [*value]. *)
Definition accessor : Type := Z → Z → Z → Z → Z → MT Z.

Definition memory_region_read_accessor (r : MemoryRegion) : accessor := λ addr value size shift mask,
  ops ← region_ops r; f ← nonnull (ops_read ops);
  tmp ← region_read f (mr_opaque r) addr size;
  mret (Z.lor value (wrap 64 (Z.shiftl (Z.land (wrap 64 tmp) mask) shift))).
Definition memory_region_write_accessor (r : MemoryRegion) : accessor := λ addr value size shift mask,
  ops ← region_ops r; f ← nonnull (ops_write ops);
  region_write f (mr_opaque r) addr (Z.land (Z.shiftr value shift) mask) size;;
  mret value.

Section Access.
Variables (access : accessor) (addr size access_size access_mask : Z).
(** [for (i = 0; i < size; i += access_size)] *)
Fixpoint access_loop (fuel : nat) (i value : Z) : MT Z :=
  if i <? size then
    match fuel with
    | O => fail OutOfFuel
    | S fuel' =>
        value ← access (wrap phys_width (addr + i)) value access_size (i * 8) access_mask;
        access_loop fuel' (i + access_size) value
    end
  else mret value.
End Access.

(** The mask is computed with a shift of [64 - access_size * 8], which must not be
    negative. *)
Definition access_with_adjusted_size (addr value size access_size_min access_size_max : Z) (access : accessor) : MT Z :=
  let access_size_min := if access_size_min =? 0 then 1 else access_size_min in
  let access_size_max := if access_size_max =? 0 then 4 else access_size_max in
  let access_size := Z.max (Z.min size access_size_max) access_size_min in
  assert_or OutOfBounds (access_size <=? 8);;
  let access_mask := Z.shiftr (2 ^ 64 - 1) (64 - access_size * 8) in
  access_loop access addr size access_size access_mask (Z.to_nat size) 0 value.

(** ** The functions registered for a region *)

Definition memory_region_access_valid (ops : MemoryRegionOps) (addr size : Z) : bool :=
  if negb (valid_unaligned ops) && negb (Z.land addr (size - 1) =? 0) then false
  else if valid_max_access_size ops =? 0 then true
  else negb ((valid_max_access_size ops <? size) || (size <? valid_min_access_size ops)).

(** The number of the lowest bit that is set: halves of the word that are zero are
    shifted out. *)
Definition ffs_step (k : Z) (p : Z * Z) : Z * Z :=
  let '(num, word) := p in if Z.land word (Z.ones k) =? 0 then (num + k, Z.shiftr word k) else (num, word).
Definition bitops_ffsl (word : Z) : Z :=
  fst (ffs_step 1 (ffs_step 2 (ffs_step 4 (ffs_step 8 (ffs_step 16 (ffs_step 32 (0, word))))))).

Definition memory_region_read_thunk_n (mr addr size : Z) : MT Z :=
  r ← region mr; ops ← region_ops r;
  if negb (memory_region_access_valid ops addr size) then mret (2 ^ 32 - 1) else
  match ops_read ops with
  | None => o ← at_idx (old_mmio_read ops) (bitops_ffsl size); f ← nonnull o;
            v ← old_mmio_read_fn f (mr_opaque r) addr; mret (wrap 32 v)
  | Some _ =>
      data ← access_with_adjusted_size (wrap phys_width (addr + mr_offset r)) 0 size
        (impl_min_access_size ops) (impl_max_access_size ops) (memory_region_read_accessor r);
      mret (wrap 32 data)
  end.
Definition memory_region_write_thunk_n (mr addr size data : Z) : MT () :=
  r ← region mr; ops ← region_ops r;
  if negb (memory_region_access_valid ops addr size) then mret () else
  match ops_write ops with
  | None => o ← at_idx (old_mmio_write ops) (bitops_ffsl size); f ← nonnull o;
            old_mmio_write_fn f (mr_opaque r) addr (wrap 32 data)
  | Some _ =>
      access_with_adjusted_size (wrap phys_width (addr + mr_offset r)) data size
        (impl_min_access_size ops) (impl_max_access_size ops) (memory_region_write_accessor r);;
      mret ()
  end.
Definition memory_region_read_thunk_b (mr addr : Z) : MT Z := memory_region_read_thunk_n mr addr 1.
Definition memory_region_read_thunk_w (mr addr : Z) : MT Z := memory_region_read_thunk_n mr addr 2.
Definition memory_region_read_thunk_l (mr addr : Z) : MT Z := memory_region_read_thunk_n mr addr 4.
Definition memory_region_write_thunk_b (mr addr data : Z) : MT () := memory_region_write_thunk_n mr addr 1 data.
Definition memory_region_write_thunk_w (mr addr data : Z) : MT () := memory_region_write_thunk_n mr addr 2 data.
Definition memory_region_write_thunk_l (mr addr data : Z) : MT () := memory_region_write_thunk_n mr addr 4 data.

(** ** Port regions *)

(** The sums are 32 bits wide. *)
Definition find_portio (ports : list MemoryRegionPortio) (offset width : Z) (write : bool) : option MemoryRegionPortio :=
  find (λ m, (po_offset m <=? offset) && (offset <? wrap 32 (po_offset m + po_len m)) && (width =? po_size m)
    && bool_decide (is_Some (if write then po_write m else po_read m))) ports.

Definition portio_read (r : MemoryRegion) (m : MemoryRegionPortio) (offset : Z) : MT Z :=
  f ← nonnull (po_read m); v ← portio_read_fn f (mr_opaque r) (wrap 32 offset); mret (wrap 32 v).
Definition portio_write (r : MemoryRegion) (m : MemoryRegionPortio) (offset data : Z) : MT () :=
  f ← nonnull (po_write m); portio_write_fn f (mr_opaque r) (wrap 32 offset) (wrap 32 data).

(** Offsets are counted from the start of the region, functions of the list get
    port numbers. *)
Definition memory_region_iorange_read (mr offset width : Z) : MT Z :=
  r ← region mr; ops ← region_ops r;
  match old_portio ops with
  | Some ports =>
      match find_portio ports offset width false with
      | Some m => portio_read r m (offset + mr_offset r)
      | None =>
          if width =? 2 then
            m ← (match find_portio ports offset 1 false with Some m => mret m | None => fail Abort end);
            lo ← portio_read r m (offset + mr_offset r);
            hi ← portio_read r m (offset + mr_offset r + 1);
            mret (Z.lor lo (wrap 32 (Z.shiftl hi 8)))
          else mret (2 ^ (width * 8) - 1)
      end
  | None =>
      access_with_adjusted_size (wrap phys_width (offset + mr_offset r)) 0 width
        (impl_min_access_size ops) (impl_max_access_size ops) (memory_region_read_accessor r)
  end.
(** A word is written as two bytes through an entry for reading bytes. *)
Definition memory_region_iorange_write (mr offset width data : Z) : MT () :=
  r ← region mr; ops ← region_ops r;
  match old_portio ops with
  | Some ports =>
      match find_portio ports offset width true with
      | Some m => portio_write r m (offset + mr_offset r) data
      | None =>
          if width =? 2 then
            m ← (match find_portio ports offset 1 false with Some m => mret m | None => fail Abort end);
            portio_write r m (offset + mr_offset r) (Z.land data 255);;
            portio_write r m (offset + mr_offset r + 1) (Z.shiftr data 8)
          else mret ()
      end
  | None =>
      access_with_adjusted_size (wrap phys_width (offset + mr_offset r)) data width
        (impl_min_access_size ops) (impl_max_access_size ops) (memory_region_write_accessor r);;
      mret ()
  end.

(** ** Ports *)

(** The function of a port. A thunk subtracts the base of the [IORange]. *)
Definition call_port_read (f : port_fn) (opaque : option port_opaque) (address : Z) : MT Z :=
  match f with
  | PortFn id => v ← port_read_fn id opaque address; mret (wrap 32 v)
  | PortThunk size =>
      match opaque with
      | Some (PoIorange mr) =>
          r ← region mr;
          data ← memory_region_iorange_read mr (wrap 64 (address - fst (mr_iorange r))) size;
          mret (wrap 32 data)
      | _ => fail Segv
      end
  end.
Definition call_port_write (f : port_fn) (opaque : option port_opaque) (address data : Z) : MT () :=
  match f with
  | PortFn id => port_write_fn id opaque address data
  | PortThunk size =>
      match opaque with
      | Some (PoIorange mr) =>
          r ← region mr; memory_region_iorange_write mr (wrap 64 (address - fst (mr_iorange r))) size data
      | _ => fail Segv
      end
  end.

Section Ports.
(** Performs a call recorded in the log. *)
Variable perform : rr_event → MM ().

(** [RR_DO_RECORD_OR_REPLAY] around a port access. *)
Definition mt_rr {A} (m : RR A) : MT A := in_mm (in_rr m).
Definition mt_record_or_replay {A} (action : MT A) (record_action : A → RR ()) (replay_action : RR A) (location : Z) : MT A :=
  m ← gets (λ s, rr_mode (mm_rr (mt_mm s)));
  match m with
  | RR_RECORD =>
      nested ← gets (λ s, rr_record_in_progress (mm_rr (mt_mm s)));
      if (nested : bool) then action else
      mt_rr (modify (set_rr_record_in_progress true));;
      mt_rr (modify (set_rr_skipped_callsite_location location));;
      mt_rr rr_set_program_point;;
      a ← action;
      mt_rr (record_action a);;
      mt_rr (modify (set_rr_record_in_progress false));;
      mret a
  | RR_REPLAY =>
      mt_rr (modify (set_rr_skipped_callsite_location location));;
      mt_rr rr_set_program_point;;
      n ← gets (λ s, length (rr_trace (mm_rr (mt_mm s))));
      mt_rr rr_replay_skipped_calls;;
      es ← gets (λ s, drop n (rr_trace (mm_rr (mt_mm s))));
      in_mm (perform_calls perform es);;
      mt_rr replay_action
  | RR_OFF => action
  end.

(** [func(ioport_opaque[address], address)], where [func] is the entry of the
    table or the default for the size. *)
Definition port_read_action (default : Z → MT Z) (func : option port_fn) (address : Z) : MT Z :=
  match func with
  | Some f => o ← gets (λ s, ioport_opaque (mt_ports s)); call_port_read f (o !! address) address
  | None => default address
  end.
Definition port_write_action (default : Z → Z → MT ()) (func : option port_fn) (address data : Z) : MT () :=
  match func with
  | Some f => o ← gets (λ s, ioport_opaque (mt_ports s)); call_port_write f (o !! address) address data
  | None => default address data
  end.
Definition ioport_read_as (default : Z → MT Z) (index address : Z) : MT Z :=
  in_pt (port_in address);;
  t ← gets (λ s, ioport_read_table (mt_ports s));
  mt_record_or_replay (port_read_action default (t !! (index, address)) address)
    (λ v, rr_input_4 v;; mret ()) (rr_input_4 0) (callsite_Z RR_CALLSITE_IOPORT_READ).
Definition ioport_write_as (default : Z → Z → MT ()) (index address data : Z) : MT () :=
  in_pt (port_in address);;
  t ← gets (λ s, ioport_write_table (mt_ports s));
  mt_record_or_replay (port_write_action default (t !! (index, address)) address data)
    (λ _, mret ()) (mret ()) (callsite_Z RR_CALLSITE_IOPORT_WRITE).

Definition default_ioport_readb (address : Z) : MT Z := mret 255.
Definition default_ioport_writeb (address data : Z) : MT () := mret ().
(** Two byte accesses, which wrap around at the last port. *)
Definition default_ioport_readw (address : Z) : MT Z :=
  data ← ioport_read_as default_ioport_readb 0 address;
  hi ← ioport_read_as default_ioport_readb 0 (Z.land (address + 1) IOPORTS_MASK);
  mret (Z.lor data (wrap 32 (Z.shiftl hi 8))).
Definition default_ioport_writew (address data : Z) : MT () :=
  ioport_write_as default_ioport_writeb 0 address (Z.land data 255);;
  ioport_write_as default_ioport_writeb 0 (Z.land (address + 1) IOPORTS_MASK) (Z.land (Z.shiftr data 8) 255).
Definition default_ioport_readl (address : Z) : MT Z := mret (2 ^ 32 - 1).
Definition default_ioport_writel (address data : Z) : MT () := mret ().

(** [default_func[index]] *)
Definition default_read (index : Z) : Z → MT Z :=
  if index =? 0 then default_ioport_readb else if index =? 1 then default_ioport_readw else default_ioport_readl.
Definition default_write (index : Z) : Z → Z → MT () :=
  if index =? 0 then default_ioport_writeb else if index =? 1 then default_ioport_writew else default_ioport_writel.
Definition ioport_read (index address : Z) : MT Z := ioport_read_as (default_read index) index address.
Definition ioport_write (index address data : Z) : MT () := ioport_write_as (default_write index) index address data.

Definition cpu_outb (addr val : Z) : MT () := ioport_write 0 addr (wrap 8 val).
Definition cpu_outw (addr val : Z) : MT () := ioport_write 1 addr (wrap 16 val).
Definition cpu_outl (addr val : Z) : MT () := ioport_write 2 addr (wrap 32 val).
Definition cpu_inb (addr : Z) : MT Z := v ← ioport_read 0 addr; mret (wrap 8 v).
Definition cpu_inw (addr : Z) : MT Z := v ← ioport_read 1 addr; mret (wrap 16 v).
Definition cpu_inl (addr : Z) : MT Z := ioport_read 2 addr.

End Ports.

(** ** Lists of ports *)

(** [pl_regions] are the regions made so far. *)
Record PortioList := mkPL {
  pl_ports : list MemoryRegionPortio;
  pl_address_space : option Z;
  pl_regions : list Z;
  pl_opaque : Z;
  pl_name : string;
}.

Definition portio_list_init (callbacks : list MemoryRegionPortio) (opaque : Z) (name : string) : PortioList :=
  mkPL callbacks None [] opaque name.

Definition set_po_offset (x : Z) (m : MemoryRegionPortio) : MemoryRegionPortio :=
  mkPortio x (po_len m) (po_size m) (po_read m) (po_write m).
Definition portio_ops (ports : list MemoryRegionPortio) : MemoryRegionOps :=
  mkOps None None DEVICE_NATIVE_ENDIAN 0 0 false 0 0 false (Some ports) [] [].

(** The new region is at an address that is not in use. *)
Definition portio_list_add_1 (pl : PortioList) (ports : list MemoryRegionPortio) (start off_low off_high : Z) : MT PortioList :=
  let pio := (λ m, set_po_offset (wrap 32 (po_offset m - off_low)) m) <$> ports in
  rg ← gets regions;
  let reg := fresh (dom rg) in
  memory_region_init_io reg (portio_ops pio) (pl_opaque pl) (pl_name pl) (wrap 32 (off_high - off_low));;
  memory_region_set_offset reg (wrap 32 (start + off_low));;
  a ← nonnull (pl_address_space pl);
  memory_region_add_subregion a (wrap 32 (start + off_low)) reg;;
  mret (mkPL (pl_ports pl) (pl_address_space pl) (pl_regions pl ++ [reg]) (pl_opaque pl) (pl_name pl)).

(** [open] are the entries from [pio_start] on. *)
Fixpoint portio_list_loop (pl : PortioList) (start : Z) (open rest : list MemoryRegionPortio) (off_low off_high off_last : Z)
    : MT PortioList :=
  match rest with
  | [] => portio_list_add_1 pl open start off_low off_high
  | pio :: rest' =>
      assert_or Abort (off_last <=? po_offset pio);;
      let off_last := po_offset pio in
      if off_high <? off_last then
        pl ← portio_list_add_1 pl open start off_low off_high;
        portio_list_loop pl start [pio] rest' off_last (wrap 32 (off_last + po_len pio)) off_last
      else
        portio_list_loop pl start (open ++ [pio]) rest' off_low
          (if off_high <? wrap 32 (off_last + po_len pio) then wrap 32 (off_last + po_len pio) else off_high) off_last
  end.

(** The first entry is used without a look at its size; an empty list would be
    read past its end. *)
Definition portio_list_add (pl : PortioList) (address_space start : Z) : MT PortioList :=
  let pl := mkPL (pl_ports pl) (Some address_space) (pl_regions pl) (pl_opaque pl) (pl_name pl) in
  match pl_ports pl with
  | [] => fail OutOfBounds
  | p :: rest => portio_list_loop pl start [p] rest (po_offset p) (wrap 32 (po_offset p + po_len p)) (po_offset p)
  end.

Fixpoint portio_list_del_loop (a : option Z) (l : list Z) : MT () :=
  match l with
  | [] => mret ()
  | mr :: l' =>
      asp ← nonnull a;
      memory_region_del_subregion asp mr;;
      memory_region_destroy mr;;
      modify (λ s, set_regions (delete mr (regions s)) s);;
      portio_list_del_loop a l'
  end.
(** The list keeps null pointers. *)
Definition portio_list_del (pl : PortioList) : MT () := portio_list_del_loop (pl_address_space pl) (pl_regions pl).

End RegionIO.
