(* ===== verification/RegionIOFacts.v ===== *)
(** * Accesses to regions and ports: theorems

    Split accesses are the access they stand for; an access to a port of a region
    reaches the region; a port access that was recorded is replayed without the
    device. *)

From S2P Require Import Prelude CFile CString HostMem RamList Radix PhysPages PhysView RRTypes PandaCallbacks.
From S2P Require Import RRState RRQueue RRFormat RRReplay RRReplayInv RRRecord RRSession IOMem PhysMem PhysMemFacts PhysReplay.
From S2P Require Import IOPort FlatView MemRegion RegionIO.
Local Open Scope Z_scope.

(** ** Bytes of a value *)

Lemma le_value_app bs bs' : le_value (bs ++ bs') = le_value bs + 2 ^ (8 * Z.of_nat (length bs)) * le_value bs'.
Proof.
  induction bs as [|b bs IH]; [symmetry; apply Z.mul_1_l|]. change (byte_to_Z b + 256 * le_value (bs ++ bs') = byte_to_Z b + 256 * le_value bs + 2 ^ (8 * Z.of_nat (S (length bs))) * le_value bs').
  rewrite IH.
  replace (8 * Z.of_nat (S (length bs))) with (8 + 8 * Z.of_nat (length bs)) by lia. rewrite Z.pow_add_r by lia.
  change (2 ^ 8) with 256. lia.
Qed.

Lemma lor_shift a b k : 0 ≤ k → in_width k a → 0 ≤ b → Z.lor a (Z.shiftl b k) = a + 2 ^ k * b.
Proof.
  intros Hk Ha Hb. rewrite Z.shiftl_mul_pow2 by done. rewrite (Z.mul_comm b).
  assert (Hand : Z.land a (2 ^ k * b) = 0).
  { apply Z.bits_inj'. intros n Hn. rewrite Z.land_spec, Z.bits_0, (Z.mul_comm (2 ^ k)).
    destruct (Z.lt_ge_cases n k) as [Hlt|Hge]; [by rewrite Z.mul_pow2_bits_low, andb_false_r|].
    destruct (Z.eq_dec a 0) as [->|Hne]; [by rewrite Z.testbit_0_l|]. unfold in_width in Ha.
    rewrite (Z.bits_above_log2 a n); [done|apply Ha|].
    assert (Z.log2 a < k) by (apply Z.log2_lt_pow2; lia). lia. }
  pose proof (Z.add_lor_land a (2 ^ k * b)). lia.
Qed.

(** The bytes at [n] addresses from [a] on. *)
Definition bytes_at (get : Z → byte) (a : Z) (n : nat) : list byte := get <$> seqZ a (Z.of_nat n).

Lemma bytes_at_app get a n m : bytes_at get a (n + m) = bytes_at get a n ++ bytes_at get (a + Z.of_nat n) m.
Proof. unfold bytes_at. rewrite Nat2Z.inj_add, seqZ_app, fmap_app by lia. done. Qed.
Lemma length_bytes_at get a n : length (bytes_at get a n) = n.
Proof. unfold bytes_at. rewrite length_fmap, length_seqZ. lia. Qed.

Section RegionFacts.
Context `{TargetPhys} `{TargetEndian} `{Machine} `{HostAlloc} `{PhysSpace} `{!KvmEventfd} `{!RegionThunks} `{!RegionDevices}.

(** ** Splitting *)

(** The size of the single accesses. *)
Definition access_unit (size amin amax : Z) : Z :=
  Z.max (Z.min size (if amax =? 0 then 4 else amax)) (if amin =? 0 then 1 else amin).

Lemma mask_ones n : 0 ≤ n ≤ 8 → Z.shiftr (2 ^ 64 - 1) (64 - n * 8) = Z.ones (8 * n).
Proof.
  intros Hn. replace (2 ^ 64 - 1) with (Z.ones 64) by done. rewrite Z.shiftr_div_pow2, Z.ones_div_pow2 by lia. f_equal. lia.
Qed.

(** A device whose registers are bytes: it reads [n] of them at once. *)
Definition reads_bytes (r : MemoryRegion) (get : Z → byte) (s : mt_state) : Prop :=
  ∃ ops f, mr_ops r = Some ops ∧ ops_read ops = Some f ∧
    ∀ a n, region_read f (mr_opaque r) a (Z.of_nat n) s = Ok (le_value (bytes_at get a n)) s.

Lemma read_step r get s a i n u :
  reads_bytes r get s → length u = i → (0 < n)%nat → (i + n ≤ 8)%nat →
  memory_region_read_accessor r a (le_value u) (Z.of_nat n) (8 * Z.of_nat i) (Z.ones (8 * Z.of_nat n)) s
  = Ok (le_value (u ++ bytes_at get a n)) s.
Proof.
  intros (ops & f & Eo & Ef & Hr) Hu Hn Hi.
  unfold memory_region_read_accessor, region_ops. rewrite Eo, bind_nonnull, Ef, bind_nonnull, (bind_Ok _ _ _ _ _ (Hr a n)).
  pose proof (le_value_range (bytes_at get a n)) as Hb. rewrite length_bytes_at in Hb.
  pose proof (le_value_range u) as Hv. rewrite Hu in Hv.
  assert (Hw : 2 ^ (8 * Z.of_nat n) ≤ 2 ^ 64) by (apply Z.pow_le_mono_r; lia). unfold in_width in *.
  rewrite (wrap_small 64 (le_value _)) by (unfold in_width; lia). rewrite Z.land_ones, Z.mod_small by lia.
  rewrite (wrap_small 64).
  - rewrite lor_shift by (done || lia). by rewrite le_value_app, Hu.
  - unfold in_width. rewrite Z.shiftl_mul_pow2 by lia. split; [nia|].
    assert (2 ^ (8 * Z.of_nat n) * 2 ^ (8 * Z.of_nat i) ≤ 2 ^ 64) by (rewrite <-Z.pow_add_r by lia; apply Z.pow_le_mono_r; lia). nia.
Qed.

Lemma read_loop r get s addr size n : 
  reads_bytes r get s → (0 < n)%nat → 0 ≤ addr → addr + Z.of_nat size ≤ 2 ^ phys_width → (size ≤ 8)%nat →
  ∀ k i fuel, (i + k * n = size)%nat → (k ≤ fuel)%nat →
  access_loop (memory_region_read_accessor r) addr (Z.of_nat size) (Z.of_nat n) (Z.ones (8 * Z.of_nat n)) fuel (Z.of_nat i)
    (le_value (bytes_at get addr i)) s
  = Ok (le_value (bytes_at get addr size)) s.
Proof.
  intros Hr Hn Ha Hw H8. induction k as [|k IH]; intros i fuel Hk Hf.
  - assert (i = size) as -> by lia. destruct fuel; simpl; by rewrite Z.ltb_irrefl.
  - destruct fuel as [|fuel]; [lia|]. cbn [access_loop]. rewrite (proj2 (Z.ltb_lt _ _)) by nia.
    rewrite wrap_small by (unfold in_width; nia).
    pose proof (read_step r get s (addr + Z.of_nat i) i n (bytes_at get addr i) Hr (length_bytes_at _ _ _) Hn ltac:(nia)) as E.
    rewrite (Z.mul_comm (Z.of_nat i)), (bind_Ok _ _ _ _ _ E), <-bytes_at_app, <-Nat2Z.inj_add.
    apply IH; lia.
Qed.

Lemma split_read_ok r get s addr size amin amax :
  reads_bytes r get s → 0 < size ≤ 8 → 0 ≤ amin → 0 ≤ amax → 0 ≤ addr → addr + size ≤ 2 ^ phys_width →
  (access_unit size amin amax | size) →
  access_with_adjusted_size addr 0 size amin amax (memory_region_read_accessor r) s
  = Ok (le_value (bytes_at get addr (Z.to_nat size))) s.
Proof.
  intros Hr Hs Hmin Hmax Ha Hw [k Hk]. unfold access_with_adjusted_size. fold (access_unit size amin amax).
  set (u := access_unit size amin amax) in *. assert (Hu : 0 < u) by (unfold u, access_unit; repeat case_match; lia).
  assert (Hk0 : 0 < k) by nia. assert (Hu8 : u ≤ 8) by nia.
  rewrite (bind_Ok _ _ _ () s) by (by apply assert_true, Z.leb_le). rewrite mask_ones by lia.
  replace u with (Z.of_nat (Z.to_nat u)) by lia. replace size with (Z.of_nat (Z.to_nat size)) at 1 by lia.
  apply (read_loop r get s addr (Z.to_nat size) (Z.to_nat u) Hr) with (k := Z.to_nat k) (i := 0%nat); nia.
Qed.


(** ** Ports *)

(** The size of an access to a port, by its index. *)
Definition port_size (index : Z) : Z := 2 ^ index.

Lemma thunk_size index : 0 ≤ index < 3 → thunk_of index = Some (PortThunk (port_size index)).
Proof. intros Hi. assert (index = 0 ∨ index = 1 ∨ index = 2) as [->|[->| ->]] by lia; done. Qed.

(** The function of a port of a region reads the region at the offset of the port
    from the base of its [IORange]. *)
Lemma port_read_ok r mr base len ops get s p index :
  0 ≤ index < 3 → 0 ≤ p < MAX_IOPORTS → port_of_region (mt_ports s) mr p →
  regions s !! mr = Some r → mr_iorange r = (base, len) → 0 ≤ base ≤ p → 0 ≤ mr_offset r →
  p - base + mr_offset r + port_size index ≤ 2 ^ phys_width →
  mr_ops r = Some ops → old_portio ops = None → 0 ≤ impl_min_access_size ops → 0 ≤ impl_max_access_size ops →
  (access_unit (port_size index) (impl_min_access_size ops) (impl_max_access_size ops) | port_size index) →
  reads_bytes r get s →
  call_port_read (PortThunk (port_size index)) (Some (PoIorange mr)) p s
  = Ok (le_value (bytes_at get (p - base + mr_offset r) (Z.to_nat (port_size index)))) s.
Proof.
  intros Hi Hp Hport Hr Hio Hb Ho Hw Hops Hold Hmin Hmax Hdiv Hget. unfold call_port_read.
  assert (Hreg : region mr s = Ok r s) by (unfold region; by rewrite bind_gets, Hr).
  assert (Hsize : 0 < port_size index ≤ 8) by (unfold port_size; assert (index = 0 ∨ index = 1 ∨ index = 2) as [->|[->| ->]] by lia; done).
  rewrite (bind_Ok _ _ _ _ _ Hreg), Hio. cbn [fst]. unfold MAX_IOPORTS in Hp. rewrite wrap_small by (unfold in_width; lia).
  unfold memory_region_iorange_read. rewrite !bind_assoc, (bind_Ok _ _ _ _ _ Hreg). unfold region_ops. rewrite Hops, bind_assoc, bind_nonnull, Hold.
  rewrite wrap_small by (unfold in_width; lia).
  rewrite (bind_Ok _ _ _ _ _ (split_read_ok r get s (p - base + mr_offset r) (port_size index) _ _ Hget Hsize Hmin Hmax ltac:(lia) Hw Hdiv)).
  pose proof (le_value_range (bytes_at get (p - base + mr_offset r) (Z.to_nat (port_size index)))) as Hv. rewrite length_bytes_at in Hv.
  rewrite wrap_small; [done|]. eapply in_width_mono; [|exact Hv].
  unfold port_size in *. assert (index = 0 ∨ index = 1 ∨ index = 2) as [->|[->| ->]] by lia; done.
Qed.

(** A read of a port of a region, with recording and replaying off: the guest gets
    the bytes the region has from the port's offset on, for each access size,
    however the device splits the access. *)
Theorem port_read_bytes perform r mr base len ops get s p index :
  rr_mode (mm_rr (mt_mm s)) = RR_OFF →
  0 ≤ index < 3 → 0 ≤ p < MAX_IOPORTS → port_of_region (mt_ports s) mr p →
  regions s !! mr = Some r → mr_iorange r = (base, len) → 0 ≤ base ≤ p → 0 ≤ mr_offset r →
  p - base + mr_offset r + port_size index ≤ 2 ^ phys_width →
  mr_ops r = Some ops → old_portio ops = None → 0 ≤ impl_min_access_size ops → 0 ≤ impl_max_access_size ops →
  (access_unit (port_size index) (impl_min_access_size ops) (impl_max_access_size ops) | port_size index) →
  reads_bytes r get s →
  ioport_read perform index p s = Ok (le_value (bytes_at get (p - base + mr_offset r) (Z.to_nat (port_size index)))) s.
Proof.
  intros Hm Hi Hp Hport Hr Hio Hb Ho Hw Hops Hold Hmin Hmax Hdiv Hget. pose proof Hport as [Hop Hfn]. unfold ioport_read, ioport_read_as.
  assert (Hin : in_pt (port_in p) s = Ok () s) by (unfold in_pt, port_in; rewrite assert_true by (apply Z.ltb_lt; lia); by destruct s).
  rewrite (bind_Ok _ _ _ _ _ Hin), bind_gets. unfold mt_record_or_replay. rewrite bind_gets, Hm.
  rewrite (proj1 (Hfn index Hi)), thunk_size by done. unfold port_read_action. rewrite bind_gets, Hop.
  by eapply port_read_ok.
Qed.

(** An access of up to eight bytes is the value of the bytes from its address on,
    however it is split into the accesses the device implements. *)
Theorem split_read_equals r get s addr size amin amax :
  reads_bytes r get s → 0 < size ≤ 8 → 0 ≤ amin → 0 ≤ amax → 0 ≤ addr → addr + size ≤ 2 ^ phys_width →
  (access_unit size amin amax | size) →
  access_with_adjusted_size addr 0 size amin amax (memory_region_read_accessor r) s
  = Ok (le_value (bytes_at get addr (Z.to_nat size))) s.
Proof. apply split_read_ok. Qed.

(** ** Lists of ports *)

(** The entries of one region, and the offsets it spans. *)
Record group := mkGroup { g_ports : list MemoryRegionPortio; g_low : Z; g_high : Z }.
Abbreviation po_end m := (po_offset m + po_len m).

(** The region begins with its first entry; its offsets are exactly those of its
    entries. *)
Record group_ok (g : group) : Prop := {
  go_head : ∃ m l, g_ports g = m :: l ∧ g_low g = po_offset m;
  go_in : Forall (λ m, g_low g ≤ po_offset m ∧ po_end m ≤ g_high g) (g_ports g);
  go_cover : ∀ x, g_low g ≤ x < g_high g → Exists (λ m, po_offset m ≤ x < po_end m) (g_ports g);
}.

(** There is a hole between one region and the next. *)
Fixpoint apart (b : Z) (gs : list group) : Prop :=
  match gs with [] => True | g :: gs' => b < g_low g ∧ apart (g_high g) gs' end.

Fixpoint add_groups (pl : PortioList) (start : Z) (gs : list group) : MT PortioList :=
  match gs with
  | [] => mret pl
  | g :: gs' => pl ← portio_list_add_1 pl (g_ports g) start (g_low g) (g_high g); add_groups pl start gs'
  end.

(** Entries in order, none past the 32 bits of an offset. *)
Fixpoint ports_sorted (last : Z) (l : list MemoryRegionPortio) : Prop :=
  match l with
  | [] => True
  | m :: l' => last ≤ po_offset m ∧ 0 ≤ po_len m ∧ po_end m < 2 ^ 32 ∧ ports_sorted (po_offset m) l'
  end.

Lemma group_one m : 0 ≤ po_len m → group_ok (mkGroup [m] (po_offset m) (po_end m)).
Proof.
  intros Hl. split; simpl; [by exists m, []|repeat constructor; lia|]. intros x Hx. constructor. done.
Qed.

(** An entry that touches the region joins it. *)
Lemma group_join g m :
  group_ok g → g_low g ≤ po_offset m ≤ g_high g →
  group_ok (mkGroup (g_ports g ++ [m]) (g_low g) (Z.max (g_high g) (po_end m))).
Proof.
  intros [(m0 & l & E1 & E2) G2 G3] Hm. split; simpl.
  - exists m0, (l ++ [m]). by rewrite E1.
  - apply Forall_app. split; [|repeat constructor; lia]. eapply Forall_impl; [exact G2|]. simpl. lia.
  - intros x Hx. apply Exists_app. destruct (Z.lt_ge_cases x (g_high g)) as [Hlt|Hge]; [left; apply G3; lia|].
    right. constructor. lia.
Qed.

Lemma portio_loop_groups start rest : ∀ g last,
  group_ok g → g_low g ≤ last → 0 ≤ last → g_high g < 2 ^ 32 → ports_sorted last rest →
  ∃ gs, (∀ pl s, portio_list_loop pl start (g_ports g) rest (g_low g) (g_high g) last s = add_groups pl start gs s) ∧
    concat (g_ports <$> gs) = g_ports g ++ rest ∧ Forall group_ok gs ∧ ∀ b, b < g_low g → apart b gs.
Proof.
  induction rest as [|m rest IH]; intros g last Hg Hl H0' Hh Hs.
  - exists [g]. split_and!; [|done|by apply Forall_singleton|by intros b Hb].
    intros pl s. simpl. symmetry. unfold mbind, M_bind, mret, M_ret. by destruct (portio_list_add_1 _ _ _ _ _ _).
  - destruct Hs as (S1 & S2 & S3 & S4).
    assert (Hloop : ∀ pl s, portio_list_loop pl start (g_ports g) (m :: rest) (g_low g) (g_high g) last s
      = (if g_high g <? po_offset m then
           pl ← portio_list_add_1 pl (g_ports g) start (g_low g) (g_high g);
           portio_list_loop pl start [m] rest (po_offset m) (po_end m) (po_offset m)
         else portio_list_loop pl start (g_ports g ++ [m]) rest (g_low g) (Z.max (g_high g) (po_end m)) (po_offset m)) s).
    { intros pl s. cbn [portio_list_loop]. rewrite (bind_Ok _ _ _ () s) by (by apply assert_true, Z.leb_le).
      rewrite !(wrap_small 32) by (unfold in_width; lia). destruct (g_high g <? po_offset m); [done|].
      destruct (Z.ltb_spec (g_high g) (po_end m)); do 2 f_equal; lia. }
    destruct (Z.ltb_spec (g_high g) (po_offset m)) as [Hlt|Hge].
    + destruct (IH (mkGroup [m] (po_offset m) (po_end m)) (po_offset m)) as (gs & E & Hc & Hok & Ha);
        [by apply group_one|simpl; lia..|done|].
      exists (g :: gs). split_and!; [|by rewrite fmap_cons; simpl; rewrite Hc|by constructor|].
      * intros pl s. rewrite Hloop. cbn [add_groups]. apply bind_ext. intros pl' s' _. apply E.
      * intros b Hb. split; [done|]. by apply Ha.
    + destruct (IH (mkGroup (g_ports g ++ [m]) (g_low g) (Z.max (g_high g) (po_end m))) (po_offset m)) as (gs & E & Hc & Hok & Ha);
        [apply group_join; [done|lia]|simpl; lia..|done|].
      exists gs. split_and!; [|by rewrite Hc; simpl; rewrite <-app_assoc|done|done]. intros pl s. rewrite Hloop. apply E.
Qed.

(** The ports of a device become regions: the list is cut exactly at its holes.
    Each region begins with its first entry and spans the ports of its entries and
    no others; no entry is lost, and they stay in order. *)
Theorem portio_list_regions ops a start :
  ops ≠ [] → ports_sorted 0 ops →
  ∃ gs, concat (g_ports <$> gs) = ops ∧ Forall group_ok gs ∧ apart (-1) gs ∧
    ∀ opaque name s,
      portio_list_add (portio_list_init ops opaque name) a start s
      = add_groups (mkPL ops (Some a) [] opaque name) start gs s.
Proof.
  intros Hne Hs. destruct ops as [|m ops]; [done|]. destruct Hs as (S1 & S2 & S3 & S4).
  destruct (portio_loop_groups start ops (mkGroup [m] (po_offset m) (po_end m)) (po_offset m)) as (gs & E & Hc & Hok & Ha);
    [by apply group_one|simpl; lia..|done|].
  exists gs. split_and!; [done..|apply Ha; simpl; lia|]. intros opaque name s. rewrite <-E.
  unfold portio_list_add, portio_list_init. simpl. rewrite wrap_small by (unfold in_width; lia). done.
Qed.

End RegionFacts.
