(* ===== verification/PortReplay.v ===== *)
(** * Port accesses recorded and replayed

    The macro around a port access is the macro of [PhysMem] on the machine's part
    of the state, so what [PhysReplay] shows of device calls holds for ports. *)

From S2P Require Import Prelude CFile CString HostMem RamList Radix PhysPages PhysView RRTypes PandaCallbacks.
From S2P Require Import RRState RRQueue RRFormat RRReplay RRReplayInv RRRecord RRSession IOMem PhysMem PhysMemFacts PhysReplay.
From S2P Require Import IOPort FlatView MemRegion RegionIO.
Local Open Scope Z_scope.

Section PortReplay.
Context `{TargetPhys} `{TargetEndian} `{Machine} `{HostAlloc} `{!HostAllocLaws} `{PhysSpace} `{!Devices}.
Context `{!KvmEventfd} `{!RegionThunks}.

(** The state with another record/replay part. *)
Definition with_rr (r : rr_state) (s : mt_state) : mt_state := set_mt_mm (set_mm_rr r (mt_mm s)) s.
Abbreviation mt_rr_of s := (mm_rr (mt_mm s)).

Lemma in_mm_bind {A B} (m : MM A) (k : A → MM B) s : in_mm (m ≫= k) s = (in_mm m ≫= λ a, in_mm (k a)) s.
Proof. unfold in_mm, mbind, M_bind. by destruct (m (mt_mm s)). Qed.

Lemma in_mm_gets {A B} (f : mem_state → A) (k : A → MM B) s : in_mm (gets f ≫= k) s = in_mm (k (f (mt_mm s))) s.
Proof. unfold in_mm. by rewrite bind_gets. Qed.

Lemma in_mm_ret {A} (a : A) s : in_mm (mret a) s = Ok a s.
Proof. unfold in_mm, mret, M_ret. by destruct s. Qed.

Lemma mt_rr_bind {A B} (m : RR A) (k : A → MT B) s a r :
  m (mt_rr_of s) = Ok a r → (mt_rr m ≫= k) s = k a (with_rr r s).
Proof. intros E. unfold mt_rr, mbind, M_bind, in_mm, in_rr. by rewrite E. Qed.

Lemma in_mm_rr {A B} (m : RR A) (k : A → MM B) s : in_mm (in_rr m ≫= k) s = (mt_rr m ≫= λ a, in_mm (k a)) s.
Proof. apply in_mm_bind. Qed.

Lemma bind_cong {S A B} (m m' : M S A) (k k' : A → M S B) s :
  m s = m' s → (∀ a t, k a t = k' a t) → (m ≫= k) s = (m' ≫= k') s.
Proof. intros E Hk. unfold mbind, M_bind. rewrite E. by destruct (m' s). Qed.

(** In a replay the action is not performed. *)
Lemma port_macro_replay {A} perform (action : MT A) (mma : MM A) ra rp loc s :
  rr_mode (mt_rr_of s) = RR_REPLAY →
  mt_record_or_replay perform action ra rp loc s = in_mm (mm_record_or_replay perform mma ra rp loc) s.
Proof.
  intros Hm. unfold mt_record_or_replay, mm_record_or_replay. rewrite bind_gets, in_mm_gets, Hm.
  unfold mt_rr. rewrite in_mm_bind. apply bind_cong; [done|]. intros _ t1. rewrite in_mm_bind. apply bind_cong; [done|]. intros _ t2.
  rewrite bind_gets, in_mm_gets, in_mm_bind. apply bind_cong; [done|]. intros _ t3.
  rewrite bind_gets, in_mm_gets, in_mm_bind. apply bind_cong; [done|]. by intros _ t4.
Qed.

(** While recording it is performed once, with the flag for nested accesses set. *)
Lemma port_macro_record {A} perform (action : MT A) (mma : MM A) ra rp loc s :
  rr_mode (mt_rr_of s) = RR_RECORD → rr_record_in_progress (mt_rr_of s) = false → cpu_single_env (mt_rr_of s) = true →
  (∃ l f, recording (mt_rr_of s) l f) →
  (∀ r, (∃ l f, recording r l f) → rr_record_in_progress r = true → action (with_rr r s) = in_mm mma (with_rr r s)) →
  mt_record_or_replay perform action ra rp loc s = in_mm (mm_record_or_replay perform mma ra rp loc) s.
Proof.
  intros Hm Hn Hc (l & f & Hrec) Ha. unfold mt_record_or_replay, mm_record_or_replay.
  rewrite !bind_gets, !in_mm_gets, Hm, !bind_gets, !in_mm_gets, Hn, !in_mm_rr.
  rewrite !(mt_rr_bind (modify (set_rr_record_in_progress true)) _ s () _ eq_refl).
  set (s1 := with_rr _ s). rewrite !in_mm_rr, !(mt_rr_bind (modify (set_rr_skipped_callsite_location loc)) _ s1 () _ eq_refl).
  set (s2 := with_rr _ s1). rewrite !in_mm_rr, !(mt_rr_bind _ _ s2 () _ (set_point_ok (mt_rr_of s2) Hc)).
  match goal with |- (action ≫= _) (with_rr ?x _) = _ => set (r := x); change (with_rr r s2) with (with_rr r s) end.
  rewrite in_mm_bind. apply bind_cong; [apply Ha; [exists l, f; by eapply recording_ext|done]|]. intros a t. rewrite in_mm_rr. apply bind_cong; [done|]. intros _ t1.
  rewrite in_mm_rr. apply bind_cong; [done|]. intros _ t2. by rewrite in_mm_ret.
Qed.

(** ** What the functions of the ports do *)

Lemma no_dma perform (v : Z) s : in_mm (do_dma perform [];; mret v) s = Ok v s.
Proof. unfold in_mm. cbn [do_dma]. rewrite bind_ret. by destruct s. Qed.

Lemma do_dma_app perform ws1 ws2 s : do_dma perform (ws1 ++ ws2) s = (do_dma perform ws1;; do_dma perform ws2) s.
Proof.
  revert s. induction ws1 as [|w ws1 IH]; intros s; [done|]. cbn [do_dma app]. rewrite bind_assoc.
  apply bind_ext. intros _ s' _. apply IH.
Qed.

Section Functions.
Context (dev : RegionDevices) (perform : rr_event → MM ()) (s : mt_state).

(** The function the table has for [address] writes [ws] to guest memory and
    returns [v], whenever it is called during the recording; where there is none,
    [absent] says what is done instead. *)
Definition function_does (absent : list dma_write → Z → Prop) (index address : Z) (ws : list dma_write) (v : Z) : Prop :=
  match ioport_read_table (mt_ports s) !! (index, address) with
  | Some f => ∀ t, mt_ports t = mt_ports s → (∃ l f, recording (mt_rr_of t) l f) →
      rr_record_in_progress (mt_rr_of t) = true →
      call_port_read (RD:=dev) f (ioport_opaque (mt_ports s) !! address) address t
      = in_mm (do_dma perform ws;; mret v) t
  | None => absent ws v
  end.

(** A byte that nobody has reads as ones, a long word, too; a word that nobody has
    is the bytes of the two ports, the second one wrapped around at the last port. *)
Definition nothing (ones : Z) (ws : list dma_write) (v : Z) : Prop := ws = [] ∧ v = ones.
Definition byte_does : Z → list dma_write → Z → Prop := function_does (nothing 255) 0.
Definition port_does (index address : Z) : list dma_write → Z → Prop :=
  function_does (λ ws v,
    if index =? 0 then nothing 255 ws v
    else if index =? 1 then
      ∃ ws1 v1 ws2 v2, byte_does address ws1 v1 ∧ byte_does (Z.land (address + 1) IOPORTS_MASK) ws2 v2 ∧
        ws = ws1 ++ ws2 ∧ v = Z.lor v1 (wrap 32 (Z.shiftl v2 8))
    else nothing (2 ^ 32 - 1) ws v) index address.

(** Inside of a recorded access a byte is read by its function, and nothing more. *)
Lemma nested_byte_read t a ws v :
  mt_ports t = mt_ports s → (∃ l f, recording (mt_rr_of t) l f) → rr_record_in_progress (mt_rr_of t) = true →
  0 ≤ a < MAX_IOPORTS → byte_does a ws v →
  ioport_read_as (RD:=dev) perform default_ioport_readb 0 a t = in_mm (do_dma perform ws;; mret v) t.
Proof.
  intros Hp Hr Hn Ha Hd. unfold ioport_read_as.
  assert (Hin : in_pt (port_in a) t = Ok () t).
  { unfold in_pt, port_in. rewrite assert_true by (apply Z.ltb_lt; lia). by destruct t. }
  rewrite (bind_Ok _ _ _ _ _ Hin), bind_gets. unfold mt_record_or_replay. rewrite bind_gets.
  destruct Hr as (l & f & Hr). rewrite (rec_mode _ _ _ Hr), bind_gets, Hn, Hp.
  unfold byte_does, function_does in Hd. unfold port_read_action.
  destruct (ioport_read_table (mt_ports s) !! (0, a)) as [fn|].
  - rewrite bind_gets, Hp. apply Hd; eauto.
  - destruct Hd as [-> ->]. unfold default_ioport_readb. by rewrite no_dma.
Qed.

Lemma action_does r index a ws v :
  ram_ok (mm_ram (mt_mm s)) → Forall (source_ok (mt_mm s)) ws →
  (∃ l f, recording r l f) → rr_record_in_progress r = true → 0 ≤ a < MAX_IOPORTS → port_does index a ws v →
  port_read_action (RD:=dev) (default_read (RD:=dev) perform index)
    (ioport_read_table (mt_ports s) !! (index, a)) a (with_rr r s)
  = in_mm (do_dma perform ws;; mret v) (with_rr r s).
Proof.
  intros Hok Hws Hr Hn Ha Hd. unfold port_does, function_does in Hd. unfold port_read_action.
  destruct (ioport_read_table (mt_ports s) !! (index, a)) as [fn|]; [rewrite bind_gets; by apply Hd|].
  unfold default_read. destruct (index =? 0).
  { destruct Hd as [-> ->]. unfold default_ioport_readb. by rewrite no_dma. }
  destruct (index =? 1).
  2: { destruct Hd as [-> ->]. unfold default_ioport_readl. by rewrite no_dma. }
  destruct Hd as (ws1 & v1 & ws2 & v2 & Hd1 & Hd2 & -> & ->). apply Forall_app in Hws as [Hw1 Hw2].
  unfold default_ioport_readw.
  assert (Hlog : logging r = true).
  { destruct Hr as (l & f & Hr). unfold logging, rr_in_record. rewrite (rec_mode _ _ _ Hr), Hn. done. }
  destruct (do_dma_ok perform ws1 (mt_mm (with_rr r s)) Hok) as (m1 & E1 & F1 & L1 & _).
  { unfold rr_calm. simpl. destruct Hr as (l & f & Hr). rewrite (rec_mode _ _ _ Hr). eauto. }
  { eapply Forall_impl; [exact Hw1|]. intros w [[? ? ?] ? ?]. split; [by split|done..]. }
  unfold rr_wrote in L1. simpl in L1. rewrite Hlog in L1.
  erewrite bind_Ok; [|rewrite (nested_byte_read (with_rr r s) a ws1 v1) by done; unfold in_mm; by rewrite (bind_Ok _ _ _ _ _ E1)].
  assert (Hmask : 0 ≤ Z.land (a + 1) IOPORTS_MASK < MAX_IOPORTS).
  { change IOPORTS_MASK with (Z.ones 16). rewrite Z.land_ones by lia. apply Z.mod_pos_bound. lia. }
  unfold mbind at 1, M_bind at 1.
  rewrite (nested_byte_read (set_mt_mm m1 (with_rr r s)) (Z.land (a + 1) IOPORTS_MASK) ws2 v2) by (first [done|destruct L1 as [L2 _ _ L5 (? & ? & ? & ? & _ & L6 & _)]; first [by rewrite L5|eauto]]).
  unfold in_mm, mbind, M_bind. cbn [mt_mm set_mt_mm]. rewrite do_dma_app. unfold mbind, M_bind.
  rewrite E1. by destruct (do_dma perform ws2 m1).
Qed.

End Functions.

(** ** The theorem *)

(** C22. A read of a port recorded on one machine and replayed on another, for every
    size of access and every entry of the table. The function of the port writes
    guest memory any number of times and returns a value; a byte or long word
    without a function reads as ones; a word without a function of its own is read
    as the two bytes of its ports, each by its own function or as ones, with the
    writes of both ([port_does]). Exactly these writes and the one value go to the
    log, no entry for the bytes of a word. The replay returns the value whatever the
    devices of the replaying machine are, and ends with the guest memory of the
    recording. The machines begin at the same point with the same page table and
    memory, and the writes go to RAM. *)
Theorem port_read_replayed (dev1 dev2 : RegionDevices) perform depth s t index address ws v rest :
  0 ≤ address < MAX_IOPORTS → port_does dev1 perform s index address ws v →
  ram_ok (mm_ram (mt_mm s)) → Forall (source_ok (mt_mm s)) ws → (∃ l f, recording (mt_rr_of s) l f) →
  rr_record_in_progress (mt_rr_of s) = false → cpu_single_env (mt_rr_of s) = true →
  let items := device_items (pp_of (first_cpu (mt_rr_of s))) RR_CALLSITE_IOPORT_READ In4 ws v in
  rep_state (mt_rr_of t) (items ++ rest) → pp_of (first_cpu (mt_rr_of t)) = pp_of (first_cpu (mt_rr_of s)) →
  ram_ok (mm_ram (mt_mm t)) → Forall (target_ok (mt_mm t)) ws →
  mm_map (mt_mm t) = mm_map (mt_mm s) → view_agree (ram_view (mm_ram (mt_mm t))) (ram_view (mm_ram (mt_mm s))) →
  ∃ s1 t1,
    ioport_read (RD:=dev1) perform index address s = Ok v s1 ∧
    log_grew (mt_rr_of s) (mt_rr_of s1) items ∧
    ioport_read (RD:=dev2) (perform_call (S depth)) index address t = Ok v t1 ∧
    rep_state (mt_rr_of t1) rest ∧
    view_agree (ram_view (mm_ram (mt_mm t1))) (ram_view (mm_ram (mt_mm s1))).
Proof.
  intros Hb Hact Hs Hws Hrec Hn Hcpu items Hrep Hpp Ht Hwt Hmap Hv.
  destruct (dma_recorded perform ws (mt_mm s) In4 v RR_CALLSITE_IOPORT_READ Hs Hws Hrec Hn Hcpu) as (m1 & E1 & G1 & _ & _ & M1 & V1).
  unfold items in Hrep. rewrite <-Hpp in Hrep.
  destruct (dma_performed depth ws (mt_mm t) In4 v RR_CALLSITE_IOPORT_READ rest (do_dma perform ws;; mret v) rr_input_4 Hrep Ht Hwt)
    as (m2 & E2 & R2 & _ & M2 & V2).
  cbn [rr_input] in E1, E2.
  assert (Hin : ∀ x : mt_state, in_pt (port_in address) x = Ok () x).
  { intros x. unfold in_pt, port_in. rewrite assert_true by (apply Z.ltb_lt; lia). by destruct x. }
  exists (set_mt_mm m1 s), (set_mt_mm m2 t). split_and!; try done.
  - unfold ioport_read, ioport_read_as. rewrite (bind_Ok _ _ _ _ _ (Hin s)), bind_gets.
    destruct Hrec as (l & f & Hrec). erewrite port_macro_record;
      [|apply Hrec|done|done|eauto|intros r Hr Hnr; by apply action_does]. unfold in_mm. by rewrite E1.
  - unfold ioport_read, ioport_read_as. rewrite (bind_Ok _ _ _ _ _ (Hin t)), bind_gets.
    rewrite (port_macro_replay _ _ (do_dma perform ws;; mret v)) by apply (replay_inv_mode _ _ (ps_inv _ _ Hrep)).
    unfold in_mm. by rewrite E2.
  - simpl. eapply view_agree_trans; [exact V2|]. rewrite Hmap.
    eapply view_agree_trans; [by apply dma_view_agree|]. intros x Hx. symmetry. by apply V1.
Qed.

End PortReplay.
