(* ===== verification/RegionIOExamples.v ===== *)
(** * Accesses to regions and ports: concrete devices

    A device whose registers hold the low byte of their own address, so that a read
    shows the address it reached. *)

From S2P Require Import Prelude CFile CString HostMem RamList Radix PhysPages PhysView RRTypes PandaCallbacks.
From S2P Require Import RRState RRQueue RRFormat RRReplay RRReplayInv RRRecord RRSession IOMem PhysMem PhysMemFacts PhysReplay.
From S2P Require Import PhysMemExamples PhysReplayExamples IOPort FlatView MemRegion RegionIO RegionIOFacts PortReplay.
Import PhysMemExamples.
Local Open Scope Z_scope.

Module RegionIOExamples.

#[local] Instance no_kvm : KvmEventfd := λ _ _ _ _ _, -1.
#[local] Instance thunk0 : RegionThunks := 0.

Definition low_byte (a : Z) : byte := byte_of_Z a.
#[local] Instance mirror : RegionDevices := {|
  region_read _ _ a n := mret (le_value (bytes_at low_byte a (Z.to_nat n)));
  region_write _ _ _ _ _ := mret ();
  old_mmio_read_fn _ _ _ := mret 0;
  old_mmio_write_fn _ _ _ _ := mret ();
  portio_read_fn _ _ _ := mret 0;
  portio_write_fn _ _ _ _ := mret ();
  port_read_fn id _ _ := mret (17 * id);
  port_write_fn _ _ _ _ := mret ();
|}.
(** Devices that stop the process. *)
Definition broken : RegionDevices := {|
  region_read _ _ _ _ := fail Abort;
  region_write _ _ _ _ _ := fail Abort;
  old_mmio_read_fn _ _ _ := fail Abort;
  old_mmio_write_fn _ _ _ _ := fail Abort;
  portio_read_fn _ _ _ := fail Abort;
  portio_write_fn _ _ _ _ := fail Abort;
  port_read_fn _ _ _ := fail Abort;
  port_write_fn _ _ _ _ := fail Abort;
|}.

(** Bytes at a time. *)
Definition byte_ops : MemoryRegionOps :=
  mkOps (Some 1) (Some 2) DEVICE_NATIVE_ENDIAN 0 0 false 0 1 false None [] [].
Definition port_region (size addr prio : Z) : MemoryRegion :=
  mkMR (Some byte_ops) 0 (Some 5) size addr 0 false memory_region_destructor_none 0 (addr, size) true true false None 0 prio true
    [] [] "" 0 [].

Definition one_port : Z := 112.
Definition thunks (p mr : Z) : port_state :=
  let t := {[ (0, p) := PortThunk 1; (1, p) := PortThunk 2; (2, p) := PortThunk 4 ]} in
  mkPorts {[ p := PoIorange mr ]} t t.
Definition port_machine_at (rr : rr_state) (pt : port_state) (rg : gmap Z MemoryRegion) : mt_state :=
  mkMT _ (PhysReplayExamples.with_rr rr) pt rg 0 (mkAS None [] []) (mkAS (Some 5) [] []) [].

Definition calm : rr_state := rr_init (Host ∅ ∅) (mkCpu 0 0 0) cb_init.
Definition clock_machine : mt_state := port_machine_at calm (thunks 114 6) {[ 6 := port_region 8 112 0 ]}.

Lemma mirror_reads r s : mr_ops r = Some byte_ops → reads_bytes r low_byte s.
Proof.
  intros E. exists byte_ops, 1. split_and!; [done..|]. intros a n. unfold region_read, mirror. by rewrite Nat2Z.id.
Qed.

Lemma split_read_equals_witness :
  access_with_adjusted_size 258 0 4 0 1 (memory_region_read_accessor (port_region 8 112 0)) clock_machine
  = Ok (2 + 256 * (3 + 256 * (4 + 256 * 5))) clock_machine.
Proof.
  rewrite (split_read_equals (port_region 8 112 0) low_byte clock_machine 258 4 0 1);
    [reflexivity|by apply mirror_reads|done|done|done|done|done|by exists 4].
Defined.

Lemma clock_port : port_of_region (mt_ports clock_machine) 6 114.
Proof. split; [done|]. intros b Hb. assert (b = 0 ∨ b = 1 ∨ b = 2) as [->|[->| ->]] by lia; done. Qed.

Lemma port_read_bytes_witness :
  ioport_read no_call 1 114 clock_machine = Ok (2 + 256 * 3) clock_machine.
Proof.
  rewrite (port_read_bytes no_call (port_region 8 112 0) 6 112 8 byte_ops low_byte clock_machine 114 1);
    [reflexivity|done|done|done|exact clock_port|reflexivity|reflexivity|done|done|done|reflexivity|reflexivity|done|done|by exists 2|by apply mirror_reads].
Defined.

(** Three entries with a hole. *)
Definition demo_ports : list MemoryRegionPortio :=
  [mkPortio 0 2 1 (Some 1) (Some 1); mkPortio 1 2 1 (Some 2) None; mkPortio 8 1 1 (Some 3) None].

Lemma portio_list_regions_witness :
  ∃ gs, concat (g_ports <$> gs) = demo_ports ∧ apart (-1) gs ∧ Forall group_ok gs.
Proof.
  destruct (portio_list_regions demo_ports 5 768) as (gs & E & Hok & Ha & _); [done|by repeat split|].
  exists gs. split; [exact E|]. split; [exact Ha|exact Hok].
Defined.

(** ** A port region in two pieces

    A region of four ports, with a port of a region of higher priority in the
    middle. *)
Definition split_graph : gmap Z MemoryRegion :=
  {[ 5 := mkMR None 0 None 65536 0 0 false memory_region_destructor_none 0 (0, 0) false true false None 0 0 false
       [7; 6] [] "" 0 [];
     6 := port_region 4 96 0; 7 := port_region 1 97 1 ]}.

Definition returns {S A} (m : M S A) (s : S) (a : A) : Prop := match m s with Ok b _ => b = a | Err _ _ => False end.

(** The two pieces of a region of ports share its [IORange], which keeps the base of
    the last one added: after the update port 98, at offset 2 of the region, is
    read at offset 0, and port 96 at an offset below 0. *)
Theorem split_port_region :
  let start := port_machine_at calm (mkPorts ∅ ∅ ∅) split_graph in
  returns (memory_region_update_topology;; cpu_inb no_call 98) start 0 ∧
  returns (memory_region_update_topology;; cpu_inb no_call 96) start (256 - 2).
Proof. split; vm_compute; reflexivity. Qed.

(** ** A word read from two byte ports, recorded and replayed

    The first port's function writes three bytes across a page boundary of guest
    memory before it returns. *)

Definition dma_ports : RegionDevices := {|
  region_read _ _ _ _ := mret 0;
  region_write _ _ _ _ _ := mret ();
  old_mmio_read_fn _ _ _ := mret 0;
  old_mmio_write_fn _ _ _ _ := mret ();
  portio_read_fn _ _ _ := mret 0;
  portio_write_fn _ _ _ _ := mret ();
  port_read_fn id _ _ := in_mm (do_dma no_call (if id =? 1 then PhysReplayExamples.ws else []);; mret (17 * id));
  port_write_fn _ _ _ _ := mret ();
|}.

Definition two_ports : port_state :=
  mkPorts ∅ {[ (0, 100) := PortFn 1; (0, 101) := PortFn 2 ]} ∅.
Definition word : Z := 17 + 256 * 34.
Definition word_items : list log_item :=
  device_items (pp_of PhysReplayExamples.cpu) RR_CALLSITE_IOPORT_READ In4 PhysReplayExamples.ws word.

Lemma word_replay : rep_state (PhysReplayExamples.replayer word_items) (word_items ++ []).
Proof. apply PhysReplayExamples.replayer_replays; apply (bool_decide_unpack _); by vm_compute. Qed.

Definition rec_machine : mt_state := port_machine_at PhysReplayExamples.recorder two_ports ∅.
Definition rep_machine : mt_state := port_machine_at (PhysReplayExamples.replayer word_items) (mkPorts ∅ ∅ ∅) ∅.

Lemma port_fn_does id a :
  0 ≤ id < 10 → ioport_read_table two_ports !! (0, a) = Some (PortFn id) →
  byte_does dma_ports no_call rec_machine a (if id =? 1 then PhysReplayExamples.ws else []) (17 * id).
Proof.
  intros Hid Ht. unfold byte_does, function_does. change (mt_ports rec_machine) with two_ports. rewrite Ht.
  intros t _ _ _. cbn [call_port_read port_read_fn dma_ports]. unfold in_mm, mbind, M_bind.
  destruct (do_dma _ _ _); [|done]. cbn [mret M_ret]. unfold mret, M_ret.
  rewrite wrap_small by (unfold in_width; lia). done.
Qed.

Lemma word_does : port_does dma_ports no_call rec_machine 1 100 PhysReplayExamples.ws word.
Proof.
  exists PhysReplayExamples.ws, 17, [], 34. split_and!; [|change (Z.land (100 + 1) IOPORTS_MASK) with 101|done..].
  - exact (port_fn_does 1 100 ltac:(done) eq_refl).
  - exact (port_fn_does 2 101 ltac:(done) eq_refl).
Qed.

Lemma port_read_replayed_witness :
  ∃ s1 t1, ioport_read (RD:=dma_ports) no_call 1 100 rec_machine = Ok word s1 ∧
    log_grew (mm_rr (mt_mm rec_machine)) (mm_rr (mt_mm s1)) word_items ∧
    ioport_read (RD:=broken) (perform_call 1) 1 100 rep_machine = Ok word t1 ∧
    view_agree (ram_view (mm_ram (mt_mm t1))) (ram_view (mm_ram (mt_mm s1))).
Proof.
  destruct (port_read_replayed dma_ports broken no_call 0 rec_machine rep_machine 1 100 PhysReplayExamples.ws word [])
    as (s1 & t1 & E1 & G & E2 & _ & V).
  - done.
  - exact word_does.
  - exact demo_ram_ok.
  - exact PhysReplayExamples.demo_source.
  - exact PhysReplayExamples.recorder_records.
  - reflexivity.
  - reflexivity.
  - exact word_replay.
  - reflexivity.
  - exact demo_ram_ok.
  - constructor; [|constructor]. destruct demo_transfer as [_ _ T3 T4 T5 T6]. split; [by split|apply PhysReplayExamples.demo_room].
  - reflexivity.
  - by intros x.
  - exists s1, t1. split; [exact E1|]. split; [exact G|]. split; [exact E2|exact V].
Defined.

End RegionIOExamples.
