(* ===== verification/TBCache.v ===== *)
(** * The cache of translated code ([exec.c], [exec-all.h])

    Translated blocks live in an array; a block is linked into a chain of the hash
    table of physical addresses, into the list of each page its code comes from,
    and into the list of blocks that jump to the block it was chained to. Pointers
    of the last two kinds carry a tag in their two low bits. *)

From S2P Require Import Prelude CFile CString HostMem RamList Radix PhysPages RRTypes PandaCallbacks.
From S2P Require Import RRState RRReplay.
Local Open Scope Z_scope.

(** ** Data *)

(** A pointer to a block with its tag: [None] is the null pointer, [Some (i, n)] is
    [(long)&tbs[i] | n]. A pointer without a tag has tag 0. *)
Definition tbptr : Type := option (nat * nat).

(** Arrays of two elements. *)
Definition arr2 (A : Type) : Type := A * A.
Definition get2 {A} (a : arr2 A) (n : nat) : option A :=
  match n with O => Some a.1 | 1%nat => Some a.2 | _ => None end.
Definition set2 {A} (a : arr2 A) (n : nat) (x : A) : arr2 A :=
  match n with O => (x, a.2) | 1%nat => (a.1, x) | _ => a end.

Definition CF_COUNT_MASK : Z := 0x7fff.

Record TranslationBlock := mkTB {
  tb_pc : Z;
  tb_cs_base : Z;
  tb_flags : Z;
  tb_size : Z;
  tb_cflags : Z;
  tb_tc_ptr : Z;
  phys_hash_next : tbptr;
  page_next : arr2 tbptr;
  page_addr : arr2 Z;
  tb_next_offset : arr2 Z;
  tb_jmp_offset : arr2 Z;
  jmp_next : arr2 tbptr;
  jmp_first : tbptr;
  tb_icount : Z;
  num_guest_insns : Z;
}.
Definition set_tb_pc (x : Z) (s : TranslationBlock) : TranslationBlock :=
  mkTB x (tb_cs_base s) (tb_flags s) (tb_size s) (tb_cflags s) (tb_tc_ptr s) (phys_hash_next s)
    (page_next s) (page_addr s) (tb_next_offset s) (tb_jmp_offset s) (jmp_next s) (jmp_first s)
    (tb_icount s) (num_guest_insns s).
Definition set_tb_cs_base (x : Z) (s : TranslationBlock) : TranslationBlock :=
  mkTB (tb_pc s) x (tb_flags s) (tb_size s) (tb_cflags s) (tb_tc_ptr s) (phys_hash_next s)
    (page_next s) (page_addr s) (tb_next_offset s) (tb_jmp_offset s) (jmp_next s) (jmp_first s)
    (tb_icount s) (num_guest_insns s).
Definition set_tb_flags (x : Z) (s : TranslationBlock) : TranslationBlock :=
  mkTB (tb_pc s) (tb_cs_base s) x (tb_size s) (tb_cflags s) (tb_tc_ptr s) (phys_hash_next s)
    (page_next s) (page_addr s) (tb_next_offset s) (tb_jmp_offset s) (jmp_next s) (jmp_first s)
    (tb_icount s) (num_guest_insns s).
Definition set_tb_size (x : Z) (s : TranslationBlock) : TranslationBlock :=
  mkTB (tb_pc s) (tb_cs_base s) (tb_flags s) x (tb_cflags s) (tb_tc_ptr s) (phys_hash_next s)
    (page_next s) (page_addr s) (tb_next_offset s) (tb_jmp_offset s) (jmp_next s) (jmp_first s)
    (tb_icount s) (num_guest_insns s).
Definition set_tb_cflags (x : Z) (s : TranslationBlock) : TranslationBlock :=
  mkTB (tb_pc s) (tb_cs_base s) (tb_flags s) (tb_size s) x (tb_tc_ptr s) (phys_hash_next s)
    (page_next s) (page_addr s) (tb_next_offset s) (tb_jmp_offset s) (jmp_next s) (jmp_first s)
    (tb_icount s) (num_guest_insns s).
Definition set_tb_tc_ptr (x : Z) (s : TranslationBlock) : TranslationBlock :=
  mkTB (tb_pc s) (tb_cs_base s) (tb_flags s) (tb_size s) (tb_cflags s) x (phys_hash_next s)
    (page_next s) (page_addr s) (tb_next_offset s) (tb_jmp_offset s) (jmp_next s) (jmp_first s)
    (tb_icount s) (num_guest_insns s).
Definition set_phys_hash_next (x : tbptr) (s : TranslationBlock) : TranslationBlock :=
  mkTB (tb_pc s) (tb_cs_base s) (tb_flags s) (tb_size s) (tb_cflags s) (tb_tc_ptr s) x (page_next
    s) (page_addr s) (tb_next_offset s) (tb_jmp_offset s) (jmp_next s) (jmp_first s) (tb_icount s)
    (num_guest_insns s).
Definition set_page_next (x : arr2 tbptr) (s : TranslationBlock) : TranslationBlock :=
  mkTB (tb_pc s) (tb_cs_base s) (tb_flags s) (tb_size s) (tb_cflags s) (tb_tc_ptr s)
    (phys_hash_next s) x (page_addr s) (tb_next_offset s) (tb_jmp_offset s) (jmp_next s)
    (jmp_first s) (tb_icount s) (num_guest_insns s).
Definition set_page_addr (x : arr2 Z) (s : TranslationBlock) : TranslationBlock :=
  mkTB (tb_pc s) (tb_cs_base s) (tb_flags s) (tb_size s) (tb_cflags s) (tb_tc_ptr s)
    (phys_hash_next s) (page_next s) x (tb_next_offset s) (tb_jmp_offset s) (jmp_next s)
    (jmp_first s) (tb_icount s) (num_guest_insns s).
Definition set_tb_next_offset (x : arr2 Z) (s : TranslationBlock) : TranslationBlock :=
  mkTB (tb_pc s) (tb_cs_base s) (tb_flags s) (tb_size s) (tb_cflags s) (tb_tc_ptr s)
    (phys_hash_next s) (page_next s) (page_addr s) x (tb_jmp_offset s) (jmp_next s) (jmp_first s)
    (tb_icount s) (num_guest_insns s).
Definition set_tb_jmp_offset (x : arr2 Z) (s : TranslationBlock) : TranslationBlock :=
  mkTB (tb_pc s) (tb_cs_base s) (tb_flags s) (tb_size s) (tb_cflags s) (tb_tc_ptr s)
    (phys_hash_next s) (page_next s) (page_addr s) (tb_next_offset s) x (jmp_next s) (jmp_first s)
    (tb_icount s) (num_guest_insns s).
Definition set_jmp_next (x : arr2 tbptr) (s : TranslationBlock) : TranslationBlock :=
  mkTB (tb_pc s) (tb_cs_base s) (tb_flags s) (tb_size s) (tb_cflags s) (tb_tc_ptr s)
    (phys_hash_next s) (page_next s) (page_addr s) (tb_next_offset s) (tb_jmp_offset s) x
    (jmp_first s) (tb_icount s) (num_guest_insns s).
Definition set_jmp_first (x : tbptr) (s : TranslationBlock) : TranslationBlock :=
  mkTB (tb_pc s) (tb_cs_base s) (tb_flags s) (tb_size s) (tb_cflags s) (tb_tc_ptr s)
    (phys_hash_next s) (page_next s) (page_addr s) (tb_next_offset s) (tb_jmp_offset s) (jmp_next
    s) x (tb_icount s) (num_guest_insns s).
Definition set_tb_icount (x : Z) (s : TranslationBlock) : TranslationBlock :=
  mkTB (tb_pc s) (tb_cs_base s) (tb_flags s) (tb_size s) (tb_cflags s) (tb_tc_ptr s)
    (phys_hash_next s) (page_next s) (page_addr s) (tb_next_offset s) (tb_jmp_offset s) (jmp_next
    s) (jmp_first s) x (num_guest_insns s).
Definition set_num_guest_insns (x : Z) (s : TranslationBlock) : TranslationBlock :=
  mkTB (tb_pc s) (tb_cs_base s) (tb_flags s) (tb_size s) (tb_cflags s) (tb_tc_ptr s)
    (phys_hash_next s) (page_next s) (page_addr s) (tb_next_offset s) (tb_jmp_offset s) (jmp_next
    s) (jmp_first s) (tb_icount s) x.

Record PageDesc := mkPage {
  first_tb : tbptr;
  code_write_count : Z;
  code_bitmap : option (list Z);
}.
Definition set_first_tb (x : tbptr) (p : PageDesc) : PageDesc :=
  mkPage x (code_write_count p) (code_bitmap p).
Definition set_code_write_count (x : Z) (p : PageDesc) : PageDesc :=
  mkPage (first_tb p) x (code_bitmap p).
Definition set_code_bitmap (x : option (list Z)) (p : PageDesc) : PageDesc :=
  mkPage (first_tb p) (code_write_count p) x.
(** A page of a new leaf ([g_malloc0]). *)
Definition no_code : PageDesc := mkPage None 0 None.

(** [L1_MAP_ADDR_SPACE_BITS] of system emulation on a 64-bit host. *)
Definition L1_MAP_ADDR_SPACE_BITS `{PhysSpace} : Z :=
  if 64 <? phys_space_bits then 64 else phys_space_bits.
Abbreviation V_LEVELS := (LEVELS L1_MAP_ADDR_SPACE_BITS).
Abbreviation page_map := (gmap Z (rtab PageDesc V_LEVELS)).

(** Entries of the TLB are not modelled; the calls that change them are recorded,
    and so are the plugin callbacks with the functions that were called. *)
Inductive tb_event :=
| EvTlbResetDirty (start1 length : Z)
| EvBeforeBlockTranslate (cbs : list Z) (pc : Z)
| EvAfterBlockTranslate (cbs : list Z) (tb : nat)
| EvBlockExecInvalidate (cbs : list Z) (tb : nat)
| EvCpuRestoreState (cbs : list Z) (tb : nat).

Section State.
Context `{PhysSpace} {Regs : Type}.

(** The CPU: the fields this part of the program uses, and the rest of its state. *)
Record CPUState := mkCPU {
  tb_jmp_cache : gmap Z nat;
  current_tb : option nat;
  interrupt_request : Z;
  mem_io_pc : Z;
  mem_io_vaddr : Z;
  cpu_regs : Regs;
}.
Definition set_tb_jmp_cache (x : gmap Z nat) (s : CPUState) : CPUState :=
  mkCPU x (current_tb s) (interrupt_request s) (mem_io_pc s) (mem_io_vaddr s) (cpu_regs s).
Definition set_current_tb (x : option nat) (s : CPUState) : CPUState :=
  mkCPU (tb_jmp_cache s) x (interrupt_request s) (mem_io_pc s) (mem_io_vaddr s) (cpu_regs s).
Definition set_interrupt_request (x : Z) (s : CPUState) : CPUState :=
  mkCPU (tb_jmp_cache s) (current_tb s) x (mem_io_pc s) (mem_io_vaddr s) (cpu_regs s).
Definition set_mem_io_pc (x : Z) (s : CPUState) : CPUState :=
  mkCPU (tb_jmp_cache s) (current_tb s) (interrupt_request s) x (mem_io_vaddr s) (cpu_regs s).
Definition set_mem_io_vaddr (x : Z) (s : CPUState) : CPUState :=
  mkCPU (tb_jmp_cache s) (current_tb s) (interrupt_request s) (mem_io_pc s) x (cpu_regs s).
Definition set_cpu_regs (x : Regs) (s : CPUState) : CPUState :=
  mkCPU (tb_jmp_cache s) (current_tb s) (interrupt_request s) (mem_io_pc s) (mem_io_vaddr s) x.

(** [tc_code] holds the 32-bit words of the code buffer that hold jump targets. *)
Record tb_state := mkTBS {
  tbs : list TranslationBlock;
  nb_tbs : Z;
  code_gen_max_blocks : Z;
  code_gen_buffer : Z;
  code_gen_buffer_size : Z;
  code_gen_buffer_max_size : Z;
  code_gen_ptr : Z;
  tb_phys_hash : gmap Z tbptr;
  l1_map : page_map;
  tb_invalidated_flag : bool;
  tb_flush_count : Z;
  tb_phys_invalidate_count : Z;
  tc_code : gmap Z Z;
  tb_cpu : CPUState;
  tb_ram : ram_state;
  tb_rr : rr_state;
  tb_trace : list tb_event;
}.

Definition set_tbs (x : list TranslationBlock) (s : tb_state) : tb_state :=
  mkTBS x (nb_tbs s) (code_gen_max_blocks s) (code_gen_buffer s) (code_gen_buffer_size s)
    (code_gen_buffer_max_size s) (code_gen_ptr s) (tb_phys_hash s) (l1_map s) (tb_invalidated_flag
    s) (tb_flush_count s) (tb_phys_invalidate_count s) (tc_code s) (tb_cpu s) (tb_ram s) (tb_rr s)
    (tb_trace s).
Definition set_nb_tbs (x : Z) (s : tb_state) : tb_state :=
  mkTBS (tbs s) x (code_gen_max_blocks s) (code_gen_buffer s) (code_gen_buffer_size s)
    (code_gen_buffer_max_size s) (code_gen_ptr s) (tb_phys_hash s) (l1_map s) (tb_invalidated_flag
    s) (tb_flush_count s) (tb_phys_invalidate_count s) (tc_code s) (tb_cpu s) (tb_ram s) (tb_rr s)
    (tb_trace s).
Definition set_code_gen_ptr (x : Z) (s : tb_state) : tb_state :=
  mkTBS (tbs s) (nb_tbs s) (code_gen_max_blocks s) (code_gen_buffer s) (code_gen_buffer_size s)
    (code_gen_buffer_max_size s) x (tb_phys_hash s) (l1_map s) (tb_invalidated_flag s)
    (tb_flush_count s) (tb_phys_invalidate_count s) (tc_code s) (tb_cpu s) (tb_ram s) (tb_rr s)
    (tb_trace s).
Definition set_tb_phys_hash (x : gmap Z tbptr) (s : tb_state) : tb_state :=
  mkTBS (tbs s) (nb_tbs s) (code_gen_max_blocks s) (code_gen_buffer s) (code_gen_buffer_size s)
    (code_gen_buffer_max_size s) (code_gen_ptr s) x (l1_map s) (tb_invalidated_flag s)
    (tb_flush_count s) (tb_phys_invalidate_count s) (tc_code s) (tb_cpu s) (tb_ram s) (tb_rr s)
    (tb_trace s).
Definition set_l1_map (x : page_map) (s : tb_state) : tb_state :=
  mkTBS (tbs s) (nb_tbs s) (code_gen_max_blocks s) (code_gen_buffer s) (code_gen_buffer_size s)
    (code_gen_buffer_max_size s) (code_gen_ptr s) (tb_phys_hash s) x (tb_invalidated_flag s)
    (tb_flush_count s) (tb_phys_invalidate_count s) (tc_code s) (tb_cpu s) (tb_ram s) (tb_rr s)
    (tb_trace s).
Definition set_tb_invalidated_flag (x : bool) (s : tb_state) : tb_state :=
  mkTBS (tbs s) (nb_tbs s) (code_gen_max_blocks s) (code_gen_buffer s) (code_gen_buffer_size s)
    (code_gen_buffer_max_size s) (code_gen_ptr s) (tb_phys_hash s) (l1_map s) x (tb_flush_count s)
    (tb_phys_invalidate_count s) (tc_code s) (tb_cpu s) (tb_ram s) (tb_rr s) (tb_trace s).
Definition set_tb_flush_count (x : Z) (s : tb_state) : tb_state :=
  mkTBS (tbs s) (nb_tbs s) (code_gen_max_blocks s) (code_gen_buffer s) (code_gen_buffer_size s)
    (code_gen_buffer_max_size s) (code_gen_ptr s) (tb_phys_hash s) (l1_map s) (tb_invalidated_flag
    s) x (tb_phys_invalidate_count s) (tc_code s) (tb_cpu s) (tb_ram s) (tb_rr s) (tb_trace s).
Definition set_tb_phys_invalidate_count (x : Z) (s : tb_state) : tb_state :=
  mkTBS (tbs s) (nb_tbs s) (code_gen_max_blocks s) (code_gen_buffer s) (code_gen_buffer_size s)
    (code_gen_buffer_max_size s) (code_gen_ptr s) (tb_phys_hash s) (l1_map s) (tb_invalidated_flag
    s) (tb_flush_count s) x (tc_code s) (tb_cpu s) (tb_ram s) (tb_rr s) (tb_trace s).
Definition set_tc_code (x : gmap Z Z) (s : tb_state) : tb_state :=
  mkTBS (tbs s) (nb_tbs s) (code_gen_max_blocks s) (code_gen_buffer s) (code_gen_buffer_size s)
    (code_gen_buffer_max_size s) (code_gen_ptr s) (tb_phys_hash s) (l1_map s) (tb_invalidated_flag
    s) (tb_flush_count s) (tb_phys_invalidate_count s) x (tb_cpu s) (tb_ram s) (tb_rr s) (tb_trace
    s).
Definition set_tb_cpu (x : CPUState) (s : tb_state) : tb_state :=
  mkTBS (tbs s) (nb_tbs s) (code_gen_max_blocks s) (code_gen_buffer s) (code_gen_buffer_size s)
    (code_gen_buffer_max_size s) (code_gen_ptr s) (tb_phys_hash s) (l1_map s) (tb_invalidated_flag
    s) (tb_flush_count s) (tb_phys_invalidate_count s) (tc_code s) x (tb_ram s) (tb_rr s)
    (tb_trace s).
Definition set_tb_ram (x : ram_state) (s : tb_state) : tb_state :=
  mkTBS (tbs s) (nb_tbs s) (code_gen_max_blocks s) (code_gen_buffer s) (code_gen_buffer_size s)
    (code_gen_buffer_max_size s) (code_gen_ptr s) (tb_phys_hash s) (l1_map s) (tb_invalidated_flag
    s) (tb_flush_count s) (tb_phys_invalidate_count s) (tc_code s) (tb_cpu s) x (tb_rr s)
    (tb_trace s).
Definition set_tb_rr (x : rr_state) (s : tb_state) : tb_state :=
  mkTBS (tbs s) (nb_tbs s) (code_gen_max_blocks s) (code_gen_buffer s) (code_gen_buffer_size s)
    (code_gen_buffer_max_size s) (code_gen_ptr s) (tb_phys_hash s) (l1_map s) (tb_invalidated_flag
    s) (tb_flush_count s) (tb_phys_invalidate_count s) (tc_code s) (tb_cpu s) (tb_ram s) x
    (tb_trace s).
Definition set_tb_trace (x : list tb_event) (s : tb_state) : tb_state :=
  mkTBS (tbs s) (nb_tbs s) (code_gen_max_blocks s) (code_gen_buffer s) (code_gen_buffer_size s)
    (code_gen_buffer_max_size s) (code_gen_ptr s) (tb_phys_hash s) (l1_map s) (tb_invalidated_flag
    s) (tb_flush_count s) (tb_phys_invalidate_count s) (tc_code s) (tb_cpu s) (tb_ram s) (tb_rr s)
    x.
End State.
#[global] Arguments CPUState : clear implicits.
#[global] Arguments tb_state {_} _.
Abbreviation TBM Regs := (M (tb_state Regs)).

(** What one translation made: sizes of the guest code and of the host code, the
    offsets of the two chainable jumps (0xffff for none), the counts. *)
Record gen_out := mkGen {
  g_size : Z;
  g_code_size : Z;
  g_next_offset : arr2 Z;
  g_jmp_offset : arr2 Z;
  g_icount : Z;
  g_num_insns : Z;
}.

(** The translator and the MMU, functions of the CPU's state. [None]: the guest
    faults and control leaves through [longjmp]. *)
Class Translator (Regs : Type) := {
  get_page_addr_code : Regs → Z → option Z;
  cpu_get_tb_cpu_state : Regs → Z * Z * Z;
  cpu_gen_code : Regs → rr_state → TranslationBlock → option gen_out;
  restore_state : Regs → TranslationBlock → Z → Regs;
  cpu_get_phys_page_debug : Regs → Z → Z;
}.
(** [TARGET_LONG_BITS]. *)
Class TargetLong := target_long_bits : Z.

Definition TB_JMP_PAGE_BITS : Z := 6.
Definition TB_JMP_PAGE_SIZE : Z := Z.shiftl 1 TB_JMP_PAGE_BITS.
Definition TB_JMP_ADDR_MASK : Z := TB_JMP_PAGE_SIZE - 1.
Definition TB_JMP_PAGE_MASK : Z := Z.shiftl 1 12 - TB_JMP_PAGE_SIZE.
Definition CODE_GEN_PHYS_HASH_SIZE : Z := Z.shiftl 1 15.
Definition CODE_GEN_ALIGN : Z := 16.
Definition SMC_BITMAP_USE_THRESHOLD : Z := 10.

Definition tb_jmp_cache_hash_func (pc : Z) : Z :=
  let tmp := Z.lxor pc (Z.shiftr pc (TARGET_PAGE_BITS - TB_JMP_PAGE_BITS)) in
  Z.lor (Z.land (Z.shiftr tmp (TARGET_PAGE_BITS - TB_JMP_PAGE_BITS)) TB_JMP_PAGE_MASK)
        (Z.land tmp TB_JMP_ADDR_MASK).
Definition tb_jmp_cache_hash_page (pc : Z) : Z :=
  let tmp := Z.lxor pc (Z.shiftr pc (TARGET_PAGE_BITS - TB_JMP_PAGE_BITS)) in
  Z.land (Z.shiftr tmp (TARGET_PAGE_BITS - TB_JMP_PAGE_BITS)) TB_JMP_PAGE_MASK.
Definition tb_phys_hash_func (pc : Z) : Z := Z.land (Z.shiftr pc 2) (CODE_GEN_PHYS_HASH_SIZE - 1).

(** [(tb_page_addr_t)-1]. *)
Definition NO_PAGE : Z := 2 ^ 64 - 1.

Definition page_offset_of (a : Z) : Z := Z.land a (Z.lnot TARGET_PAGE_MASK).

Section Cache.
Context `{PhysSpace} `{TargetLong} {Regs : Type} `{!Translator Regs}.
Abbreviation TB := (TBM Regs).

(** ** Parts of the state *)

Definition in_tb_ram {A} (m : RAM A) : TB A := λ s,
  match m (tb_ram s) with
  | Ok a r => Ok a (set_tb_ram r s)
  | Err e r => Err e (set_tb_ram r s)
  end.
Definition in_tb_rr {A} (m : RR A) : TB A := λ s,
  match m (tb_rr s) with
  | Ok a r => Ok a (set_tb_rr r s)
  | Err e r => Err e (set_tb_rr r s)
  end.
Definition tb_emit (e : tb_event) : TB () := modify (λ s, set_tb_trace (tb_trace s ++ [e]) s).
Definition upd_cpu (f : CPUState Regs → CPUState Regs) : TB () := modify (λ s, set_tb_cpu (f (tb_cpu s)) s).

(** [&tbs[i]] *)
Definition tb_at (i : nat) : TB TranslationBlock :=
  l ← gets tbs; match l !! i with Some t => mret t | None => fail OutOfBounds end.
Definition upd_tb (i : nat) (f : TranslationBlock → TranslationBlock) : TB () :=
  _ ← tb_at i; modify (λ s, set_tbs (alter f i (tbs s)) s).

Definition page_find (m : page_map) (index : Z) : option PageDesc := tree_find L1_MAP_ADDR_SPACE_BITS m index.
(** [page_find_alloc(index, 1)] *)
Definition page_alloc (m : page_map) (index : Z) : page_map :=
  tree_alloc L1_MAP_ADDR_SPACE_BITS (replicate (Z.to_nat L2_SIZE) no_code) m index.
Definition page_store (m : page_map) (index : Z) (d : PageDesc) : page_map :=
  tree_store L1_MAP_ADDR_SPACE_BITS m index d.
Definition page_at (index : Z) : TB PageDesc :=
  m ← gets l1_map; nonnull (page_find m index).
Definition upd_page (index : Z) (f : PageDesc → PageDesc) : TB () :=
  p ← page_at index; modify (λ s, set_l1_map (page_store (l1_map s) index (f p)) s).

(** ** Pointers to pointers

    The places a [TranslationBlock **] can point to. *)

Inductive slot :=
| SHash (h : Z)
| SHashNext (i : nat)
| SFirst (index : Z)
| SPageNext (i n : nat)
| SJmpNext (i n : nat)
| SJmpFirst (i : nat).

Definition rd (s : tb_state Regs) (p : slot) : option tbptr :=
  match p with
  | SHash h => Some (default None (tb_phys_hash s !! h))
  | SHashNext i => phys_hash_next <$> tbs s !! i
  | SFirst index => first_tb <$> page_find (l1_map s) index
  | SPageNext i n => t ← tbs s !! i; get2 (page_next t) n
  | SJmpNext i n => t ← tbs s !! i; get2 (jmp_next t) n
  | SJmpFirst i => jmp_first <$> tbs s !! i
  end.
Definition wr (p : slot) (v : tbptr) (s : tb_state Regs) : tb_state Regs :=
  let on_tb i f := set_tbs (alter f i (tbs s)) s in
  match p with
  | SHash h => set_tb_phys_hash (<[h := v]> (tb_phys_hash s)) s
  | SHashNext i => on_tb i (set_phys_hash_next v)
  | SFirst index =>
      match page_find (l1_map s) index with
      | Some d => set_l1_map (page_store (l1_map s) index (set_first_tb v d)) s
      | None => s
      end
  | SPageNext i n => on_tb i (λ t, set_page_next (set2 (page_next t) n v) t)
  | SJmpNext i n => on_tb i (λ t, set_jmp_next (set2 (jmp_next t) n v) t)
  | SJmpFirst i => on_tb i (set_jmp_first v)
  end.

Definition ld (p : slot) : TB tbptr := λ s,
  match rd s p with Some v => Ok v s | None => Err Segv s end.
Definition st (p : slot) (v : tbptr) : TB () := _ ← ld p; modify (wr p v).

(** A list has at most as many nodes as there are tagged pointers, and its end. *)
Definition list_fuel : TB nat := gets (λ s, S (S (2 * length (tbs s)))).

(** ** Chaining *)

Definition tb_set_jmp_target1 (jmp_addr addr : Z) : TB () :=
  modify (λ s, set_tc_code (<[jmp_addr := wrap 32 (addr - (jmp_addr + 4))]> (tc_code s)) s).
Definition tb_set_jmp_target (tb n : nat) (addr : Z) : TB () :=
  t ← tb_at tb; offset ← nonnull (get2 (tb_jmp_offset t) n);
  tb_set_jmp_target1 (tb_tc_ptr t + offset) addr.

Definition tb_reset_jump (tb n : nat) : TB () :=
  t ← tb_at tb; offset ← nonnull (get2 (tb_next_offset t) n);
  tb_set_jmp_target tb n (tb_tc_ptr t + offset).

Definition tb_add_jump (tb n tb_next : nat) : TB () :=
  j ← ld (SJmpNext tb n);
  match j with
  | Some _ => mret ()
  | None =>
      t ← tb_at tb_next;
      tb_set_jmp_target tb n (tb_tc_ptr t);;
      f ← ld (SJmpFirst tb_next);
      st (SJmpNext tb n) f;;
      st (SJmpFirst tb_next) (Some (tb, n))
  end.

(** ** Removal *)

(** [tb_remove(ptb, tb, offsetof(TranslationBlock, phys_hash_next))] *)
Fixpoint tb_remove (fuel : nat) (ptb : slot) (tb : nat) : TB () :=
  match fuel with
  | O => fail OutOfFuel
  | S fuel' =>
      tb1 ← ld ptb;
      match tb1 with
      | Some (i, O) =>
          if decide (i = tb) then v ← ld (SHashNext i); st ptb v
          else tb_remove fuel' (SHashNext i) tb
      | _ => fail Segv
      end
  end.

Fixpoint tb_page_remove (fuel : nat) (ptb : slot) (tb : nat) : TB () :=
  match fuel with
  | O => fail OutOfFuel
  | S fuel' =>
      tb1 ← ld ptb;
      match tb1 with
      | Some (i, n1) =>
          if decide (i = tb) then v ← ld (SPageNext i n1); st ptb v
          else tb_page_remove fuel' (SPageNext i n1) tb
      | None => fail Segv
      end
  end.

(** The next pointer behind a tagged pointer of a list of jumps. *)
Definition jmp_slot (x : nat * nat) : slot :=
  if decide (x.2 = 2%nat) then SJmpFirst x.1 else SJmpNext x.1 x.2.

(** [for(;;)] of [tb_jmp_remove]: where the pointer to [tb(n)] is stored. *)
Fixpoint jmp_find (fuel : nat) (ptb : slot) (tb n : nat) : TB slot :=
  match fuel with
  | O => fail OutOfFuel
  | S fuel' =>
      tb1 ← ld ptb;
      match tb1 with
      | Some (i, n1) =>
          if decide (n1 = n ∧ i = tb) then mret ptb else jmp_find fuel' (jmp_slot (i, n1)) tb n
      | None => fail Segv
      end
  end.

Definition tb_jmp_remove (tb n : nat) : TB () :=
  tb1 ← ld (SJmpNext tb n);
  match tb1 with
  | None => mret ()
  | Some _ =>
      fuel ← list_fuel;
      ptb ← jmp_find fuel (SJmpNext tb n) tb n;
      v ← ld (SJmpNext tb n);
      st ptb v;;
      st (SJmpNext tb n) None
  end.

Definition invalidate_page_bitmap (p : PageDesc) : PageDesc :=
  set_code_write_count 0 (set_code_bitmap None p).

(** [tb_page_remove] and [invalidate_page_bitmap] for one page of a block. *)
Definition unlink_page (tb : nat) (addr : Z) : TB () :=
  let index := Z.shiftr addr TARGET_PAGE_BITS in
  fuel ← list_fuel;
  tb_page_remove fuel (SFirst index) tb;;
  upd_page index invalidate_page_bitmap.

(** Jumps to a block, from its [jmp_first] on. *)
Fixpoint reset_jumps (fuel : nat) (tb1 : tbptr) : TB () :=
  match fuel with
  | O => fail OutOfFuel
  | S fuel' =>
      match tb1 with
      | Some (i, n1) =>
          if decide (n1 = 2%nat) then mret () else
          tb2 ← ld (SJmpNext i n1);
          tb_reset_jump i n1;;
          st (SJmpNext i n1) None;;
          reset_jumps fuel' tb2
      | None => fail Segv
      end
  end.

(** The physical address of a block's first byte. *)
Definition tb_phys_pc (t : TranslationBlock) : Z := wrap 64 ((page_addr t).1 + page_offset_of (tb_pc t)).

Definition tb_phys_invalidate (tb : nat) (paddr : Z) : TB () :=
  t ← tb_at tb;
  fuel ← list_fuel;
  tb_remove fuel (SHash (tb_phys_hash_func (tb_phys_pc t))) tb;;
  (if decide ((page_addr t).1 = paddr) then mret () else unlink_page tb (page_addr t).1);;
  (if decide ((page_addr t).2 = NO_PAGE ∨ (page_addr t).2 = paddr) then mret () else unlink_page tb (page_addr t).2);;
  modify (set_tb_invalidated_flag true);;
  upd_cpu (λ c, let h := tb_jmp_cache_hash_func (tb_pc t) in
    if decide (tb_jmp_cache c !! h = Some tb) then set_tb_jmp_cache (delete h (tb_jmp_cache c)) c else c);;
  tb_jmp_remove tb 0;;
  tb_jmp_remove tb 1;;
  f ← ld (SJmpFirst tb);
  reset_jumps fuel f;;
  st (SJmpFirst tb) (Some (tb, 2%nat));;
  modify (λ s, set_tb_phys_invalidate_count (int32 (tb_phys_invalidate_count s + 1)) s).

(** ** Dirty pages ([cpu-all.h], [exec.c]) *)

Fixpoint mask_dirty_loop (i : Z) (n : nat) (mask : Z) : RAM () :=
  match n with
  | O => mret ()
  | S n' =>
      d ← gets phys_dirty; v ← at_idx d i;
      modify (λ s, set_phys_dirty (<[Z.to_nat i := wrap 8 (Z.land v mask)]> (phys_dirty s)) s);;
      mask_dirty_loop (i + 1) n' mask
  end.
Definition cpu_physical_memory_mask_dirty_range (start length dirty_flags : Z) : RAM () :=
  mask_dirty_loop (Z.shiftr start TARGET_PAGE_BITS) (Z.to_nat (Z.shiftr length TARGET_PAGE_BITS)) (Z.lnot dirty_flags).

Definition cpu_physical_memory_reset_dirty (start end_ dirty_flags : Z) : TB () :=
  let start := Z.land start TARGET_PAGE_MASK in
  let end_ := TARGET_PAGE_ALIGN end_ in
  let length := wrap 64 (end_ - start) in
  if length =? 0 then mret () else
  in_tb_ram (cpu_physical_memory_mask_dirty_range start (int32 length) dirty_flags);;
  start1 ← in_tb_ram (qemu_safe_ram_ptr start);
  end1 ← in_tb_ram (qemu_safe_ram_ptr (wrap 64 (end_ - 1)));
  assert_or Abort (wrap 64 (end1 - start1) =? wrap 64 (end_ - 1 - start));;
  tb_emit (EvTlbResetDirty start1 length).

Definition tlb_protect_code (ram_addr : Z) : TB () :=
  cpu_physical_memory_reset_dirty ram_addr (wrap 64 (ram_addr + TARGET_PAGE_SIZE)) CODE_DIRTY_FLAG.
Definition tlb_unprotect_code_phys (ram_addr : Z) : TB () :=
  in_tb_ram (cpu_physical_memory_set_dirty_flags ram_addr CODE_DIRTY_FLAG).

(** ** Allocation and linking *)

(** [None]: too many blocks, or too much code. *)
Definition tb_alloc (pc : Z) : TB (option nat) :=
  n ← gets nb_tbs; mx ← gets code_gen_max_blocks;
  used ← gets (λ s, code_gen_ptr s - code_gen_buffer s); lim ← gets code_gen_buffer_max_size;
  if (mx <=? n) || (lim <=? wrap 64 used) then mret None else
  let i := Z.to_nat n in
  modify (set_nb_tbs (n + 1));;
  upd_tb i (λ t, set_tb_cflags 0 (set_tb_pc pc t));;
  mret (Some i).

Definition tb_free (tb : nat) : TB () :=
  n ← gets nb_tbs;
  if (0 <? n) && (Z.of_nat tb =? n - 1) then
    t ← tb_at tb;
    modify (set_code_gen_ptr (tb_tc_ptr t));;
    modify (set_nb_tbs (n - 1))
  else mret ().

(** All lists of blocks of all pages become empty. *)
Definition page_flush_tb (m : page_map) : page_map :=
  tree_map L1_MAP_ADDR_SPACE_BITS (λ p, invalidate_page_bitmap (set_first_tb None p)) m.

Definition tb_flush : TB () :=
  used ← gets (λ s, code_gen_ptr s - code_gen_buffer s); sz ← gets code_gen_buffer_size;
  assert_or Abort (wrap 64 used <=? sz);;
  modify (set_nb_tbs 0);;
  upd_cpu (set_tb_jmp_cache ∅);;
  modify (set_tb_phys_hash ∅);;
  modify (λ s, set_l1_map (page_flush_tb (l1_map s)) s);;
  modify (λ s, set_code_gen_ptr (code_gen_buffer s) s);;
  modify (λ s, set_tb_flush_count (int32 (tb_flush_count s + 1)) s).

Definition tb_alloc_page (tb n : nat) (paddr : Z) : TB () :=
  let index := Z.shiftr paddr TARGET_PAGE_BITS in
  upd_tb tb (λ t, set_page_addr (set2 (page_addr t) n paddr) t);;
  modify (λ s, set_l1_map (page_alloc (l1_map s) index) s);;
  f ← ld (SFirst index);
  st (SPageNext tb n) f;;
  st (SFirst index) (Some (tb, n));;
  upd_page index invalidate_page_bitmap;;
  match f with Some _ => mret () | None => tlb_protect_code paddr end.

(** The jump [n], if the block has one, leads back to the block's own exit. *)
Definition init_jump (tb n : nat) : TB () :=
  t ← tb_at tb; o ← nonnull (get2 (tb_next_offset t) n);
  if o =? 0xffff then mret () else tb_reset_jump tb n.

Definition tb_link_page (tb : nat) (phys_pc phys_page2 : Z) : TB () :=
  let ptb := SHash (tb_phys_hash_func phys_pc) in
  v ← ld ptb;
  st (SHashNext tb) v;;
  st ptb (Some (tb, O));;
  tb_alloc_page tb 0 (Z.land phys_pc TARGET_PAGE_MASK);;
  (if decide (phys_page2 = NO_PAGE)
   then upd_tb tb (λ t, set_page_addr (set2 (page_addr t) 1 NO_PAGE) t)
   else tb_alloc_page tb 1 phys_page2);;
  st (SJmpFirst tb) (Some (tb, 2%nat));;
  st (SJmpNext tb 0) None;;
  st (SJmpNext tb 1) None;;
  init_jump tb 0;;
  init_jump tb 1.

(** The host code written for a block replaces the jumps that were there. *)
Definition overwrite (a n : Z) (m : gmap Z Z) : gmap Z Z :=
  filter (λ kv, ¬ (a - 4 < kv.1 < a + n)) m.

(** [cpu_gen_code] with its effects on the block and on the code buffer. *)
Definition gen_into (tb : nat) : TB (option Z) :=
  r ← gets (λ s, cpu_regs (tb_cpu s)); q ← gets tb_rr; t ← tb_at tb;
  match cpu_gen_code r q t with
  | None => mret None
  | Some g =>
      upd_tb tb (λ t,
        set_tb_size (wrap 16 (g_size g)) (set_tb_next_offset (g_next_offset g)
          (set_tb_jmp_offset (g_jmp_offset g) (set_tb_icount (g_icount g)
            (set_num_guest_insns (wrap 16 (g_num_insns g)) t)))));;
      modify (λ s, set_tc_code (overwrite (tb_tc_ptr t) (g_code_size g) (tc_code s)) s);;
      mret (Some (g_code_size g))
  end.

(** Returns [None] when the guest faults. *)
Definition tb_gen_code (pc cs_base flags cflags : Z) : TB (option nat) :=
  r ← gets (λ s, cpu_regs (tb_cpu s));
  match get_page_addr_code r pc with
  | None => mret None
  | Some phys_pc =>
      o ← tb_alloc pc;
      tb ← match o with
           | Some tb => mret tb
           | None => tb_flush;; o ← tb_alloc pc; tb ← nonnull o; modify (set_tb_invalidated_flag true);; mret tb
           end;
      tc_ptr ← gets code_gen_ptr;
      upd_tb tb (λ t, set_tb_cflags (wrap 16 cflags) (set_tb_flags (wrap 64 (int32 flags))
                        (set_tb_cs_base cs_base (set_tb_tc_ptr tc_ptr t))));;
      sz ← gen_into tb;
      match sz with
      | None => mret None
      | Some code_gen_size =>
          modify (λ s, set_code_gen_ptr (Z.land (wrap 64 (code_gen_ptr s + code_gen_size + CODE_GEN_ALIGN - 1))
                                          (Z.lnot (CODE_GEN_ALIGN - 1))) s);;
          t ← tb_at tb;
          let virt_page2 := Z.land (wrap target_long_bits (pc + tb_size t - 1)) TARGET_PAGE_MASK in
          if decide (Z.land pc TARGET_PAGE_MASK = virt_page2) then
            tb_link_page tb phys_pc NO_PAGE;; mret (Some tb)
          else match get_page_addr_code r virt_page2 with
               | None => mret None
               | Some phys_page2 => tb_link_page tb phys_pc phys_page2;; mret (Some tb)
               end
      end
  end.

(** ** Lookup ([cpu-exec.c]) *)

Inductive found := Found (tb : nat) (ptb : slot) | NotFound (ptb : slot) | Fault.

(** The loop of [tb_find_slow] over a chain of the hash table. *)
Fixpoint tb_search (fuel : nat) (ptb1 : slot) (pc cs_base flags phys_page1 : Z) : TB found :=
  match fuel with
  | O => fail OutOfFuel
  | S fuel' =>
      v ← ld ptb1;
      match v with
      | None => mret (NotFound ptb1)
      | Some (tb, O) =>
          t ← tb_at tb;
          r ← gets (λ s, cpu_regs (tb_cpu s));
          if decide (tb_pc t = pc ∧ (page_addr t).1 = phys_page1 ∧ tb_cs_base t = cs_base ∧ tb_flags t = flags) then
            if decide ((page_addr t).2 = NO_PAGE) then mret (Found tb ptb1) else
            let virt_page2 := wrap target_long_bits (Z.land pc TARGET_PAGE_MASK + TARGET_PAGE_SIZE) in
            match get_page_addr_code r virt_page2 with
            | None => mret Fault
            | Some phys_page2 =>
                if decide ((page_addr t).2 = phys_page2) then mret (Found tb ptb1)
                else tb_search fuel' (SHashNext tb) pc cs_base flags phys_page1
            end
          else tb_search fuel' (SHashNext tb) pc cs_base flags phys_page1
      | Some _ => fail Segv
      end
  end.

Definition run_tb_callbacks (t : panda_cb_type) (ev : list Z → tb_event) : TB () :=
  cbs ← in_tb_rr (on_cbs (panda_run_callbacks t)); tb_emit (ev cbs).

(** The last found block becomes the head of its chain and enters the cache of
    virtual addresses. *)
Definition tb_found (h : Z) (ptb1 : slot) (pc : Z) (tb : nat) : TB () :=
  v ← ld ptb1;
  match v with
  | Some _ =>
      nx ← ld (SHashNext tb); st ptb1 nx;;
      hd ← ld (SHash h); st (SHashNext tb) hd;;
      st (SHash h) (Some (tb, O))
  | None => mret ()
  end;;
  upd_cpu (λ c, set_tb_jmp_cache (<[tb_jmp_cache_hash_func pc := tb]> (tb_jmp_cache c)) c).

Definition tb_find_slow (pc cs_base flags : Z) : TB (option nat) :=
  modify (set_tb_invalidated_flag false);;
  r ← gets (λ s, cpu_regs (tb_cpu s));
  match get_page_addr_code r pc with
  | None => mret None
  | Some phys_pc =>
      let h := tb_phys_hash_func phys_pc in
      fuel ← list_fuel;
      f ← tb_search fuel (SHash h) pc cs_base flags (Z.land phys_pc TARGET_PAGE_MASK);
      match f with
      | Fault => mret None
      | Found tb ptb1 => tb_found h ptb1 pc tb;; mret (Some tb)
      | NotFound ptb1 =>
          run_tb_callbacks PANDA_CB_BEFORE_BLOCK_TRANSLATE (λ cbs, EvBeforeBlockTranslate cbs pc);;
          o ← tb_gen_code pc cs_base flags 0;
          match o with
          | None => mret None
          | Some tb =>
              run_tb_callbacks PANDA_CB_AFTER_BLOCK_TRANSLATE (λ cbs, EvAfterBlockTranslate cbs tb);;
              tb_found h ptb1 pc tb;; mret (Some tb)
          end
      end
  end.

Definition tb_find_fast : TB (option nat) :=
  r ← gets (λ s, cpu_regs (tb_cpu s));
  let '(pc, cs_base, fl) := cpu_get_tb_cpu_state r in
  let flags := wrap 64 (int32 fl) in
  c ← gets (λ s, tb_jmp_cache (tb_cpu s));
  match c !! tb_jmp_cache_hash_func pc with
  | None => tb_find_slow pc cs_base flags
  | Some tb =>
      t ← tb_at tb;
      if decide (tb_pc t ≠ pc ∨ tb_cs_base t ≠ cs_base ∨ tb_flags t ≠ flags)
      then tb_find_slow pc cs_base flags else mret (Some tb)
  end.

(** ** The block of a host address *)

Fixpoint find_pc_loop (fuel : nat) (tc_ptr m_min m_max : Z) : TB nat :=
  match fuel with
  | O => fail OutOfFuel
  | S fuel' =>
      if m_min <=? m_max then
        let m := Z.shiftr (m_min + m_max) 1 in
        t ← tb_at (Z.to_nat m);
        if tb_tc_ptr t =? tc_ptr then mret (Z.to_nat m)
        else if tc_ptr <? tb_tc_ptr t then find_pc_loop fuel' tc_ptr m_min (m - 1)
        else find_pc_loop fuel' tc_ptr (m + 1) m_max
      else mret (Z.to_nat m_max)
  end.

Definition tb_find_pc (tc_ptr : Z) : TB (option nat) :=
  n ← gets nb_tbs;
  if n <=? 0 then mret None else
  lo ← gets code_gen_buffer; hi ← gets code_gen_ptr;
  if (tc_ptr <? lo) || (hi <=? tc_ptr) then mret None else
  i ← find_pc_loop (Z.to_nat (n + 1)) tc_ptr 0 (n - 1); mret (Some i).

(** ** Unchaining *)

(** [for(;;)] of [tb_reset_jump_recursive2]: the block a list of jumps leads to. *)
Fixpoint jmp_head (fuel : nat) (tb1 : tbptr) : TB nat :=
  match fuel with
  | O => fail OutOfFuel
  | S fuel' =>
      match tb1 with
      | Some (i, n1) => if decide (n1 = 2%nat) then mret i else v ← ld (SJmpNext i n1); jmp_head fuel' v
      | None => fail Segv
      end
  end.
(** Its second loop: from [jmp_first] to where the pointer to [tb(n)] is stored. *)
Fixpoint jmp_find_from (fuel : nat) (ptb : slot) (tb n : nat) : TB slot :=
  match fuel with
  | O => fail OutOfFuel
  | S fuel' =>
      tb1 ← ld ptb;
      match tb1 with
      | Some (i, n1) =>
          if decide (n1 = n ∧ i = tb) then mret ptb else jmp_find_from fuel' (SJmpNext i n1) tb n
      | None => fail Segv
      end
  end.

(** [tb_reset_jump_recursive2]; [rec] is [tb_reset_jump_recursive]. *)
Definition tb_reset_jump_recursive2 (rec : nat → TB ()) (tb n : nat) : TB () :=
  tb1 ← ld (SJmpNext tb n);
  match tb1 with
  | None => mret ()
  | Some _ =>
      fuel ← list_fuel;
      tb_next ← jmp_head fuel tb1;
      ptb ← jmp_find_from fuel (SJmpFirst tb_next) tb n;
      v ← ld (SJmpNext tb n);
      st ptb v;;
      st (SJmpNext tb n) None;;
      tb_reset_jump tb n;;
      rec tb_next
  end.
Fixpoint reset_recursive (depth : nat) (tb : nat) : TB () :=
  match depth with
  | O => fail OutOfFuel
  | S d => tb_reset_jump_recursive2 (reset_recursive d) tb 0;; tb_reset_jump_recursive2 (reset_recursive d) tb 1
  end.
(** Every level of the recursion removes a jump. *)
Definition tb_reset_jump_recursive (tb : nat) : TB () := d ← list_fuel; reset_recursive d tb.

Definition cpu_unlink_tb : TB () :=
  o ← gets (λ s, current_tb (tb_cpu s));
  match o with
  | Some tb => upd_cpu (set_current_tb None);; tb_reset_jump_recursive tb
  | None => mret ()
  end.

(** The path the machine takes when it is started without [-icount] ([use_icount] is
    0) and the request is made on the CPU's own thread, as the devices, the debugger
    and the invalidation of code make it here. The two others do not touch the code
    cache: a request from another thread sets the bit and wakes the CPU, and with
    [-icount] the instruction counter stops the block instead of the jumps. *)
Definition tcg_handle_interrupt (mask : Z) : TB () :=
  upd_cpu (λ c, set_interrupt_request (Z.lor (interrupt_request c) mask) c);; cpu_unlink_tb.

Definition tb_jmp_cache_clear (i : Z) (c : CPUState Regs) : CPUState Regs :=
  set_tb_jmp_cache (filter (λ kv, ¬ (i ≤ kv.1 < i + TB_JMP_PAGE_SIZE)) (tb_jmp_cache c)) c.
Definition tlb_flush_jmp_cache (addr : Z) : TB () :=
  upd_cpu (tb_jmp_cache_clear (tb_jmp_cache_hash_page (wrap target_long_bits (addr - TARGET_PAGE_SIZE))));;
  upd_cpu (tb_jmp_cache_clear (tb_jmp_cache_hash_page addr)).

(** ** Bitmaps of code *)

(** [*tab |= mask], an [uint8_t]. *)
Definition or_byte (tab : list Z) (i mask : Z) : option (list Z) :=
  if i <? 0 then None else
  b ← tab !! Z.to_nat i; Some (<[Z.to_nat i := wrap 8 (Z.lor b mask)]> tab).
Definition put_byte (tab : list Z) (i v : Z) : option (list Z) :=
  if i <? 0 then None else
  _ ← tab !! Z.to_nat i; Some (<[Z.to_nat i := v]> tab).

(** [while (start < end1) { *tab++ = 0xff; start += 8; }]; returns [tab] and [start]. *)
Fixpoint set_bits_loop (fuel : nat) (tab : list Z) (i start end1 : Z) : option (list Z * Z * Z) :=
  if start <? end1 then
    match fuel with
    | O => None
    | S fuel' => tab ← put_byte tab i 255; set_bits_loop fuel' tab (i + 1) (start + 8) end1
    end
  else Some (tab, i, start).

Definition set_bits (tab : list Z) (start len : Z) : option (list Z) :=
  let end_ := start + len in
  let i := Z.shiftr start 3 in
  let mask := Z.shiftl 255 (Z.land start 7) in
  let last := Z.lnot (Z.shiftl 255 (Z.land end_ 7)) in
  if Z.land start (Z.lnot 7) =? Z.land end_ (Z.lnot 7) then
    if start <? end_ then or_byte tab i (Z.land mask last) else Some tab
  else
    tab ← or_byte tab i mask;
    let start := Z.land (start + 8) (Z.lnot 7) in
    let end1 := Z.land end_ (Z.lnot 7) in
    '(tab, i, start) ← set_bits_loop (Z.to_nat len) tab (i + 1) start end1;
    if start <? end_ then or_byte tab i last else Some tab.

(** The bytes of the page a block covers: from the start of its first page, or on
    its second page. *)
Definition page_range (t : TranslationBlock) (n : nat) : Z * Z :=
  if decide (n = 0%nat) then
    let tb_start := page_offset_of (tb_pc t) in
    (tb_start, Z.min (tb_start + tb_size t) TARGET_PAGE_SIZE)
  else (0, page_offset_of (wrap target_long_bits (tb_pc t + tb_size t))).

Fixpoint bitmap_loop (fuel : nat) (tb : tbptr) (bm : list Z) : TB (list Z) :=
  match tb with
  | None => mret bm
  | Some (i, n) =>
      match fuel with
      | O => fail OutOfFuel
      | S fuel' =>
          t ← tb_at i;
          let '(tb_start, tb_end) := page_range t n in
          match set_bits bm tb_start (tb_end - tb_start) with
          | None => fail OutOfBounds
          | Some bm' => nx ← ld (SPageNext i n); bitmap_loop fuel' nx bm'
          end
      end
  end.

Definition build_page_bitmap (index : Z) : TB () :=
  p ← page_at index; fuel ← list_fuel;
  bm ← bitmap_loop fuel (first_tb p) (replicate (Z.to_nat (TARGET_PAGE_SIZE / 8)) 0);
  upd_page index (set_code_bitmap (Some bm)).

(** ** Invalidation of a range *)

(** What the loop knows about the block that is being executed. *)
Record smc := mkSmc { current_tb_not_found : bool; smc_current : option nat; smc_modified : option (Z * Z * Z) }.

Definition cpu_restore_state (tb : nat) (searched_pc : Z) : TB () :=
  run_tb_callbacks PANDA_CB_CPU_RESTORE_STATE (λ cbs, EvCpuRestoreState cbs tb);;
  t ← tb_at tb;
  upd_cpu (λ c, set_cpu_regs (restore_state (cpu_regs c) t searched_pc) c).

(** [TARGET_HAS_PRECISE_SMC]: code that modifies the block it is in must stop. *)
Definition smc_check (tb : nat) (m : smc) : TB smc :=
  m ← (if current_tb_not_found m then
         e ← gets (λ s, cpu_single_env (tb_rr s)); assert_or Segv e;;
         pc ← gets (λ s, mem_io_pc (tb_cpu s));
         cur ← (if pc =? 0 then mret None else tb_find_pc pc);
         mret (mkSmc false cur (smc_modified m))
       else mret m);
  match smc_current m with
  | Some cur =>
      t ← tb_at cur;
      if decide (cur = tb ∧ Z.land (tb_cflags t) CF_COUNT_MASK ≠ 1) then
        pc ← gets (λ s, mem_io_pc (tb_cpu s));
        cpu_restore_state cur pc;;
        in_tb_rr (modify (λ r, set_rr_num_instr_before_next_interrupt
          (wrap 64 (rr_num_instr_before_next_interrupt r + 1)) r));;
        r ← gets (λ s, cpu_regs (tb_cpu s));
        mret (mkSmc false (Some cur) (Some (cpu_get_tb_cpu_state r)))
      else mret m
  | None => mret m
  end.

(** The range of physical addresses a block covers on its page [n]. *)
Definition phys_range (t : TranslationBlock) (n : nat) : Z * Z :=
  if decide (n = 0%nat) then
    let tb_start := tb_phys_pc t in (tb_start, wrap 64 (tb_start + tb_size t))
  else
    let tb_start := (page_addr t).2 in
    (tb_start, wrap 64 (tb_start + page_offset_of (wrap target_long_bits (tb_pc t + tb_size t)))).

(** [tb_phys_invalidate] with [env->current_tb] saved around it. *)
Definition invalidate_one (tb : nat) : TB () :=
  e ← gets (λ s, cpu_single_env (tb_rr s));
  saved ← gets (λ s, current_tb (tb_cpu s));
  (if (e : bool) then upd_cpu (set_current_tb None) else mret ());;
  tb_phys_invalidate tb NO_PAGE;;
  if (e : bool) then
    upd_cpu (set_current_tb saved);;
    ir ← gets (λ s, interrupt_request (tb_cpu s));
    if (negb (ir =? 0)) && bool_decide (is_Some saved) then tcg_handle_interrupt ir else mret ()
  else mret ().

Fixpoint invalidate_loop (fuel : nat) (tb : tbptr) (start end_ : Z) (m : smc) : TB smc :=
  match tb with
  | None => mret m
  | Some (i, n) =>
      match fuel with
      | O => fail OutOfFuel
      | S fuel' =>
          tb_next ← ld (SPageNext i n);
          t ← tb_at i;
          let '(tb_start, tb_end) := phys_range t n in
          m ← (if (tb_end <=? start) || (end_ <=? tb_start) then mret m
               else m ← smc_check i m; invalidate_one i;; mret m);
          invalidate_loop fuel' tb_next start end_ m
      end
  end.

(** [cpu_resume_from_signal]; control leaves through [longjmp]. *)
Definition cpu_resume_from_signal : TB () := in_tb_rr (modify (set_rr_record_in_progress false)).

(** Returns [None] when control leaves through [longjmp]. *)
Definition tb_invalidate_phys_page_range (start end_ : Z) (is_cpu_write_access : bool) : TB (option ()) :=
  let index := Z.shiftr start TARGET_PAGE_BITS in
  m ← gets l1_map;
  match page_find m index with
  | None => mret (Some ())
  | Some p =>
      match code_bitmap p with
      | Some _ => mret ()
      | None =>
          let c := wrap 32 (code_write_count p + 1) in
          upd_page index (set_code_write_count c);;
          if (SMC_BITMAP_USE_THRESHOLD <=? c) && is_cpu_write_access then build_page_bitmap index else mret ()
      end;;
      f ← ld (SFirst index);
      fuel ← list_fuel;
      m ← invalidate_loop fuel f start end_ (mkSmc is_cpu_write_access None None);
      f ← ld (SFirst index);
      match f with
      | Some _ => mret ()
      | None =>
          upd_page index invalidate_page_bitmap;;
          if (is_cpu_write_access : bool) then
            e ← gets (λ s, cpu_single_env (tb_rr s)); assert_or Segv e;;
            tlb_unprotect_code_phys start
          else mret ()
      end;;
      match smc_modified m with
      | None => mret (Some ())
      | Some (pc, cs_base, flags) =>
          upd_cpu (set_current_tb None);;
          o ← tb_gen_code pc cs_base flags 1;
          match o with None => mret None | Some _ => cpu_resume_from_signal;; mret None end
      end
  end.

(** [len] is 1, 2, 4 or 8 and [start] a multiple of it. *)
Definition tb_invalidate_phys_page_fast (start len : Z) : TB (option ()) :=
  m ← gets l1_map;
  match page_find m (Z.shiftr start TARGET_PAGE_BITS) with
  | None => mret (Some ())
  | Some p =>
      match code_bitmap p with
      | Some bm =>
          let offset := page_offset_of start in
          b ← at_idx bm (Z.shiftr offset 3);
          if Z.land (Z.shiftr b (Z.land offset 7)) (Z.shiftl 1 len - 1) =? 0 then mret (Some ())
          else tb_invalidate_phys_page_range start (wrap 64 (start + len)) true
      | None => tb_invalidate_phys_page_range start (wrap 64 (start + len)) true
      end
  end.
(** The RAM address of a guest address, through the table of physical pages. *)
Definition debug_ram_addr (phys : gmap Z (ptab P_LEVELS)) (r : Regs) (pc : Z) : Z :=
  let addr := cpu_get_phys_page_debug r pc in
  let pd := match phys_page_find phys (Z.shiftr addr TARGET_PAGE_BITS) with
            | None => IO_MEM_UNASSIGNED
            | Some p => wrap target_long_bits (phys_offset p)
            end in
  Z.lor (Z.land pd TARGET_PAGE_MASK) (page_offset_of pc).
(** The blocks of one guest address. *)
Definition breakpoint_invalidate (phys : gmap Z (ptab P_LEVELS)) (pc : Z) : TB (option ()) :=
  r ← gets (λ s, cpu_regs (tb_cpu s));
  let ram_addr := debug_ram_addr phys r pc in
  tb_invalidate_phys_page_range ram_addr (wrap 64 (ram_addr + 1)) false.
(** The same code, called by record and replay. *)
Definition invalidate_single_tb (phys : gmap Z (ptab P_LEVELS)) (pc : Z) : TB (option ()) := breakpoint_invalidate phys pc.
End Cache.
