(* ===== verification/TBLists.v ===== *)
(** * The lists of the code cache

    Loads and stores of list pointers, and families of lists: the chains of the
    hash table, the blocks of each page, the jumps to each block. A family is a
    list of tagged pointers per key, kept in slots that no two lists share. *)

From S2P Require Import Prelude CFile CString HostMem RamList Radix PhysPages RRTypes PandaCallbacks.
From S2P Require Import RRState RRReplay TBCache.
From stdpp Require Import functions list.
Local Open Scope Z_scope.

#[export] Instance slot_eq_dec : EqDecision slot.
Proof. solve_decision. Defined.

Lemma get2_set2 {A} (a : arr2 A) n m x :
  get2 (set2 a n x) m = if decide (n = m) then _ ← get2 a m; Some x else get2 a m.
Proof.
  destruct n as [|[|n]], m as [|[|m]]; simpl; try done; repeat case_decide; simplify_eq; try done.
Qed.

Lemma filter_iff_in {A} (P Q : A → Prop) `{∀ x, Decision (P x), ∀ x, Decision (Q x)} (l : list A) :
  (∀ x, x ∈ l → P x ↔ Q x) → filter P l = filter Q l.
Proof.
  induction l as [|x l IH]; intros Hl; [done|]. rewrite !filter_cons. rewrite IH by (intros y Hy; apply Hl; by right).
  specialize (Hl x ltac:(left)). repeat case_decide; naive_solver.
Qed.

(** ** Chains

    From the slot [p], the pointers [l] and then the pointer [e], where [nx x] is
    the slot behind the pointer [x]; [m] says what slots hold. *)

Section Chains.
Context (nx : nat * nat → slot).
Implicit Types (m : slot → option tbptr) (p q : slot) (v e : tbptr) (x y : nat * nat) (l : list (nat * nat)).

Fixpoint chain m p l e : Prop :=
  match l with [] => m p = Some e | x :: l' => m p = Some (Some x) ∧ chain m (nx x) l' e end.

(** The slot that holds the end of the chain, and the pointer that begins one. *)
Fixpoint last_slot p l : slot := match l with [] => p | x :: l' => last_slot (nx x) l' end.
Definition first_ptr l e : tbptr := match l with [] => e | x :: _ => Some x end.

Lemma chain_first m p l e : chain m p l e → m p = Some (first_ptr l e).
Proof. destruct l; simpl; [done|by intros []]. Qed.

Lemma chain_app m p l1 x l2 e :
  chain m p (l1 ++ x :: l2) e ↔ chain m p l1 (Some x) ∧ chain m (nx x) l2 e.
Proof. revert p. induction l1 as [|y l1 IH]; intros p; simpl; [done|]. rewrite IH. tauto. Qed.

Lemma chain_last m p l e : chain m p l e → m (last_slot p l) = Some e.
Proof. revert p. induction l as [|x l IH]; intros p; simpl; [done|]. intros [_ Hl]. by apply IH. Qed.

Lemma last_slot_app p l1 x l2 : last_slot p (l1 ++ x :: l2) = last_slot (nx x) l2.
Proof. revert p. induction l1; intros p; simpl; auto. Qed.

Lemma last_slot_elem p l : last_slot p l ∈ p :: (nx <$> l).
Proof. revert p. induction l as [|x l IH]; intros p; simpl; [left|]. right. apply IH. Qed.

Lemma chain_ext m m' p l e : (∀ q, q ∈ p :: (nx <$> l) → m' q = m q) → chain m p l e → chain m' p l e.
Proof.
  revert p. induction l as [|x l IH]; intros p Hm; simpl; [rewrite Hm; [done|left]|].
  intros [Hp Hc]. split; [rewrite Hm; [done|left]|]. apply IH; [|done]. intros q Hq. apply Hm. by right.
Qed.

(** A chain with another end. *)
Lemma chain_set_last m m' p l e v : NoDup (p :: (nx <$> l)) →
  (∀ q, q ∈ p :: (nx <$> l) → m' q = if decide (q = last_slot p l) then Some v else m q) →
  chain m p l e → chain m' p l v.
Proof.
  revert p. induction l as [|x l IH]; intros p Hn Hm; simpl.
  { intros _. rewrite Hm by left. simpl. by rewrite decide_True. }
  intros [Hp Hc]. apply NoDup_cons in Hn as [Hx Hn]. split.
  - rewrite Hm by left. simpl. rewrite decide_False; [done|]. intros ->. apply Hx, last_slot_elem.
  - apply IH; [done| |done]. intros q Hq. rewrite Hm by (by right). done.
Qed.

(** Unlinking [x]. *)
Lemma chain_remove m m' p l1 x l2 e v : NoDup (p :: (nx <$> l1 ++ x :: l2)) → m (nx x) = Some v →
  (∀ q, q ∈ p :: (nx <$> l1 ++ l2) → m' q = if decide (q = last_slot p l1) then Some v else m q) →
  chain m p (l1 ++ x :: l2) e → chain m' p (l1 ++ l2) e.
Proof.
  intros Hn Hv Hm Hc. apply chain_app in Hc as [H1 H2].
  assert (Ev : v = first_ptr l2 e) by (pose proof (chain_first _ _ _ _ H2); congruence).
  rewrite fmap_app, fmap_cons in Hn. change (NoDup ((p :: (nx <$> l1)) ++ nx x :: (nx <$> l2))) in Hn.
  apply NoDup_app in Hn as (Hn1 & Hd & Hn2).
  assert (H1' : chain m' p l1 v).
  { eapply chain_set_last; [done| |done]. intros q Hq. apply Hm. rewrite fmap_app. change (q ∈ (p :: (nx <$> l1)) ++ (nx <$> l2)). set_solver. }
  destruct l2 as [|y l2]; simpl in *; [by rewrite app_nil_r, <-Ev|]. subst v.
  apply chain_app. split; [done|]. destruct H2 as [_ H2]. eapply chain_ext; [|done]. intros q Hq.
  rewrite Hm.
  - rewrite decide_False; [done|]. intros ->. apply (Hd _ (last_slot_elem p l1)). by right.
  - rewrite fmap_app. right. apply elem_of_app. by right.
Qed.

End Chains.

Lemma chain_nx_ext (nx nx' : nat * nat → slot) m p l e : (∀ x, x ∈ l → nx' x = nx x) → chain nx m p l e → chain nx' m p l e.
Proof.
  revert p. induction l as [|x l IH]; intros p Hx; simpl; [done|]. intros [Hp Hc].
  split; [done|]. rewrite Hx by left. apply IH; [|done]. intros y Hy. apply Hx. by right.
Qed.
Lemma last_slot_nx_ext (nx nx' : nat * nat → slot) p l : (∀ x, x ∈ l → nx' x = nx x) → last_slot nx' p l = last_slot nx p l.
Proof.
  revert p. induction l as [|x l IH]; intros p Hx; simpl; [done|]. rewrite (Hx x) by left. apply IH. intros y Hy. apply Hx. by right.
Qed.

(** ** Families of lists *)

Section Families.
Context {K : Type} `{EqDecision K} (root : K → slot) (nx : nat * nat → slot) (elt : nat * nat → Prop).
Context (root_inj : ∀ j k, root j = root k → j = k).
Context (nx_inj : ∀ x y, elt x → elt y → nx x = nx y → x = y).
Context (root_nx : ∀ k x, root k ≠ nx x).
Implicit Types (m : slot → option tbptr) (ls : K → list (nat * nat)) (dom : K → Prop) (e : K → tbptr).

Record family m dom ls e : Prop := {
  fam_chain : ∀ k, dom k → chain nx m (root k) (ls k) (e k);
  fam_elt : ∀ k x, dom k → x ∈ ls k → elt x;
  fam_nodup : ∀ k, dom k → NoDup (ls k);
  fam_apart : ∀ j k x, dom j → dom k → x ∈ ls j → x ∈ ls k → j = k;
}.

(** The slots the lists are kept in. *)
Definition fam_slot dom (q : slot) : Prop := (∃ k, dom k ∧ q = root k) ∨ (∃ x, elt x ∧ q = nx x).

Lemma fam_slots m dom ls e k q : family m dom ls e → dom k → q ∈ root k :: (nx <$> ls k) → fam_slot dom q.
Proof.
  intros HF Hk Hq. apply elem_of_cons in Hq as [->|Hq]; [left; eauto|].
  apply list_elem_of_fmap in Hq as (x & -> & Hx). right. exists x. split; [by eapply (fam_elt _ _ _ _ HF)|done].
Qed.

Lemma fam_slots_nodup m dom ls e k : family m dom ls e → dom k → NoDup (root k :: (nx <$> ls k)).
Proof.
  intros HF Hk. apply NoDup_cons. split.
  - intros Hq. apply list_elem_of_fmap in Hq as (x & E & _). by apply root_nx in E.
  - pose proof (fam_nodup _ _ _ _ HF k Hk) as Hn. pose proof (fam_elt _ _ _ _ HF k) as He.
    induction (ls k) as [|x l IH]; [constructor|]. apply NoDup_cons in Hn as [Hx Hn]. simpl. constructor.
    + intros Hq. apply list_elem_of_fmap in Hq as (y & E & Hy). apply Hx. apply nx_inj in E; [by subst|..]; apply He; set_solver.
    + apply IH; [done|]. intros y Hk' Hy. apply He; [done|]. by right.
Qed.

Lemma fam_frame_used m m' dom ls e : (∀ k, dom k → m' (root k) = m (root k)) →
  (∀ k x, dom k → x ∈ ls k → m' (nx x) = m (nx x)) → family m dom ls e → family m' dom ls e.
Proof.
  intros Hr Hx HF. split; [|apply HF..]. intros k Hk. eapply chain_ext; [|by apply (fam_chain _ _ _ _ HF)].
  intros q [->|Hq]%elem_of_cons; [by apply Hr|]. apply list_elem_of_fmap in Hq as (x & -> & Hq). by eapply Hx.
Qed.

Lemma fam_frame m m' dom ls e : (∀ q, fam_slot dom q → m' q = m q) → family m dom ls e → family m' dom ls e.
Proof.
  intros Hm HF. split; [|apply HF..]. intros k Hk. eapply chain_ext; [|by apply (fam_chain _ _ _ _ HF)].
  intros q Hq. apply Hm. by eapply fam_slots.
Qed.

(** The slots of one list are not those of another. *)
Lemma fam_slots_apart m dom ls e j k q : family m dom ls e → dom j → dom k →
  q ∈ root j :: (nx <$> ls j) → q ∈ root k :: (nx <$> ls k) → j = k.
Proof.
  intros HF Hj Hk Hqj Hqk. apply elem_of_cons in Hqj as [->|Hqj], Hqk as [E|Hqk].
  - by apply root_inj.
  - apply list_elem_of_fmap in Hqk as (x & E & _). by apply root_nx in E.
  - subst q. apply list_elem_of_fmap in Hqj as (x & E & _). by apply root_nx in E.
  - apply list_elem_of_fmap in Hqj as (x & -> & Hx), Hqk as (y & E & Hy).
    apply nx_inj in E as ->; [by eapply (fam_apart _ _ _ _ HF)|by apply (fam_elt _ _ _ _ HF j)|by apply (fam_elt _ _ _ _ HF k)].
Qed.

(** The same lists, perhaps of fewer keys. *)
Lemma fam_ext m dom dom' ls ls' e : (∀ k, dom' k → dom k) → (∀ k, dom' k → ls' k = ls k) →
  family m dom ls e → family m dom' ls' e.
Proof.
  intros Hd Hl HF. split.
  - intros k Hk. rewrite Hl by done. apply HF; auto.
  - intros k x Hk. rewrite Hl by done. apply (fam_elt _ _ _ _ HF); auto.
  - intros k Hk. rewrite Hl by done. apply HF; auto.
  - intros j k x Hj Hk. rewrite !Hl by done. apply (fam_apart _ _ _ _ HF); auto.
Qed.

Lemma fam_empty m dom e : (∀ k, dom k → m (root k) = Some (e k)) → family m dom (λ _, []) e.
Proof. intros Hr. split; [done|by intros ????%not_elem_of_nil|intros; apply NoDup_nil_2|by intros ? ? ? ? ? ?%not_elem_of_nil]. Qed.

(** A new key with an empty list. *)
Lemma fam_extend m dom dom' ls e k : (∀ j, dom' j → j = k ∨ dom j) → m (root k) = Some (e k) → ¬ dom k →
  family m dom ls e → family m dom' (<[k := []]> ls) e.
Proof.
  intros Hd Hk Hn HF.
  assert (Hls : ∀ j, dom' j → <[k := []]> ls j = [] ∨ (dom j ∧ <[k := []]> ls j = ls j)).
  { intros j Hj. destruct (decide (k = j)) as [<-|Ne]; [left; by rewrite fn_lookup_insert|].
    destruct (Hd j Hj) as [->|Hj']; [done|]. right. by rewrite fn_lookup_insert_ne. }
  split.
  - intros j Hj. destruct (decide (k = j)) as [<-|Ne]; [by rewrite fn_lookup_insert|].
    destruct (Hd j Hj) as [->|Hj']; [done|]. rewrite fn_lookup_insert_ne by done. by apply HF.
  - intros j x Hj. destruct (Hls j Hj) as [->|[Hj' ->]]; [by intros ?%not_elem_of_nil|]. by eapply (fam_elt _ _ _ _ HF).
  - intros j Hj. destruct (Hls j Hj) as [->|[Hj' ->]]; [constructor|]. by apply HF.
  - intros i j x Hi Hj. destruct (Hls i Hi) as [->|[Hi' ->]]; [by intros ?%not_elem_of_nil|].
    destruct (Hls j Hj) as [->|[Hj' ->]]; [by intros _ ?%not_elem_of_nil|]. by eapply (fam_apart _ _ _ _ HF).
Qed.

Lemma fam_remove m m' dom ls e k l1 x l2 v : family m dom ls e → dom k → ls k = l1 ++ x :: l2 → m (nx x) = Some v →
  (∀ q, fam_slot dom q → m' q = if decide (q = last_slot nx (root k) l1) then Some v else m q) →
  family m' dom (<[k := l1 ++ l2]> ls) e.
Proof.
  intros HF Hk El Hv Hm.
  assert (Hsub : ∀ y, y ∈ l1 ++ l2 → y ∈ ls k) by (rewrite El; set_solver).
  assert (Hls : ∀ j y, y ∈ <[k := l1 ++ l2]> ls j → y ∈ ls j).
  { intros j y. destruct (decide (k = j)) as [<-|Ne]; [rewrite fn_lookup_insert; apply Hsub|by rewrite fn_lookup_insert_ne]. }
  assert (Hlast : last_slot nx (root k) l1 ∈ root k :: (nx <$> ls k)).
  { pose proof (last_slot_elem nx (root k) l1) as Hq. apply elem_of_cons in Hq as [->|Hq]; [left|]. right.
    rewrite El, fmap_app. apply elem_of_app. by left. }
  split.
  - intros j Hj. destruct (decide (k = j)) as [<-|Ne].
    + rewrite fn_lookup_insert. eapply chain_remove; [rewrite <-El; by eapply fam_slots_nodup|done| |rewrite <-El; by apply HF].
      intros q Hq. apply Hm. eapply (fam_slots _ _ _ _ _ _ HF); [exact Hk|]. apply elem_of_cons in Hq as [->|Hq]; [left|]. right.
      apply list_elem_of_fmap in Hq as (y & -> & Hy). apply list_elem_of_fmap. eauto.
    + rewrite fn_lookup_insert_ne by done. eapply chain_ext; [|by apply HF]. intros q Hq. rewrite Hm by (by eapply fam_slots).
      rewrite decide_False; [done|]. intros ->. apply Ne. by eapply (fam_slots_apart _ _ _ _ k j).
  - intros j y Hj Hy. eapply (fam_elt _ _ _ _ HF); [exact Hj|]. by apply Hls.
  - intros j Hj. destruct (decide (k = j)) as [<-|Ne]; [|rewrite fn_lookup_insert_ne by done; by apply HF].
    rewrite fn_lookup_insert. pose proof (fam_nodup _ _ _ _ HF k Hk) as Hn. rewrite El in Hn.
    apply NoDup_app in Hn as (? & Hd & Hn). apply NoDup_cons in Hn as [_ Hn]. apply NoDup_app. set_solver.
  - intros i j y Hi Hj Hyi Hyj. by eapply (fam_apart _ _ _ _ HF); [..|apply Hls|apply Hls].
Qed.

Lemma fam_push m m' dom ls e k x : family m dom ls e → dom k → elt x → (∀ j, dom j → x ∉ ls j) →
  m' (nx x) = m (root k) → m' (root k) = Some (Some x) →
  (∀ q, fam_slot dom q → q ≠ nx x → q ≠ root k → m' q = m q) →
  family m' dom (<[k := x :: ls k]> ls) e.
Proof.
  intros HF Hk He Hf Hx Hr Hm. split.
  - intros j Hj. destruct (decide (k = j)) as [<-|Ne].
    + rewrite fn_lookup_insert. simpl. split; [done|].
      pose proof (fam_chain _ _ _ _ HF k Hk) as Hc. pose proof (fam_slots_nodup _ _ _ _ k HF Hk) as Hn.
      pose proof (fam_slots m dom ls e k) as Hs. specialize (Hf k Hk).
      assert (Hnx : ∀ y, y ∈ ls k → nx y ≠ nx x).
      { intros y Hy E. apply nx_inj in E; [by subst|by eapply (fam_elt _ _ _ _ HF)|done]. }
      destruct (ls k) as [|y l] eqn:El; simpl in *; [congruence|]. destruct Hc as [H1 H2]. split; [congruence|].
      eapply chain_ext; [|done]. intros q Hq. apply Hm.
      * eapply Hs; [done|done|]. by right.
      * apply elem_of_cons in Hq as [->|Hq]; [apply Hnx; left|]. apply list_elem_of_fmap in Hq as (z & -> & Hz). apply Hnx. by right.
      * apply NoDup_cons in Hn as [Hn _]. by intros ->.
    + rewrite fn_lookup_insert_ne by done. eapply chain_ext; [|by apply HF]. intros q Hq. apply Hm.
      * by eapply fam_slots.
      * intros ->. apply elem_of_cons in Hq as [Hq|Hq]; [by symmetry in Hq; apply root_nx in Hq|].
        apply list_elem_of_fmap in Hq as (y & E & Hy). apply nx_inj in E; [|done|by eapply (fam_elt _ _ _ _ HF)]. subst y. by eapply Hf.
      * intros ->. apply Ne. eapply (fam_slots_apart _ _ _ _ k j); [done..|left|done].
  - intros j y Hj. destruct (decide (k = j)) as [<-|Ne].
    + rewrite fn_lookup_insert. intros [->|Hy]%elem_of_cons; [done|]. by eapply (fam_elt _ _ _ _ HF).
    + rewrite fn_lookup_insert_ne by done. by eapply (fam_elt _ _ _ _ HF).
  - intros j Hj. destruct (decide (k = j)) as [<-|Ne].
    + rewrite fn_lookup_insert. constructor; [by apply Hf|by apply HF].
    + rewrite fn_lookup_insert_ne by done. by apply HF.
  - intros i j y Hi Hj. destruct (decide (k = i)) as [<-|Ni], (decide (k = j)) as [<-|Nj];
      rewrite ?fn_lookup_insert, ?fn_lookup_insert_ne by done; [done|..|by eapply (fam_apart _ _ _ _ HF)].
    + intros [->|Hy]%elem_of_cons Hy'; [by apply Hf in Hy'|by eapply (fam_apart _ _ _ _ HF)].
    + intros Hy' [->|Hy]%elem_of_cons; [by apply Hf in Hy'|by eapply (fam_apart _ _ _ _ HF)].
Qed.
End Families.

Section Lists.
Context `{PhysSpace} `{TargetLong} {Regs : Type} `{!Translator Regs} `{!SpaceOk L1_MAP_ADDR_SPACE_BITS}.
Implicit Types (s : tb_state Regs) (p q : slot) (v e : tbptr) (x y : nat * nat) (l : list (nat * nat)).

(** Page numbers inside the address space; no two of them share a descriptor. *)
Definition index_ok (index : Z) : Prop := 0 ≤ index < 2 ^ (L1_MAP_ADDR_SPACE_BITS - TARGET_PAGE_BITS).
Definition slot_ok p : Prop := match p with SFirst index => index_ok index | _ => True end.

Lemma index_ok_same a b : index_ok a → index_ok b → same_index L1_MAP_ADDR_SPACE_BITS a b → a = b.
Proof. unfold index_ok, same_index. intros Ha Hb E. by rewrite !Z.mod_small in E. Qed.

(** A write through a page's descriptor. *)
Lemma rd_first_other s m q : (∀ index, q ≠ SFirst index) → rd (set_l1_map m s) q = rd s q.
Proof. destruct q; naive_solver. Qed.

Lemma rd_wr_first s index v q : tree_ok L1_MAP_ADDR_SPACE_BITS (l1_map s) → index_ok index → slot_ok q →
  is_Some (rd s (SFirst index)) → rd (wr (SFirst index) v s) q = if decide (SFirst index = q) then Some v else rd s q.
Proof.
  intros Hok Hp Hq Hd. simpl in Hd. apply fmap_is_Some in Hd as [d Hd]. simpl. rewrite Hd.
  destruct q as [| |index'| | |]; try (case_decide; [done|]; by rewrite rd_first_other by done). simpl.
  unfold page_find, page_store in *. destruct (decide (SFirst index = SFirst index')) as [E|E].
  - injection E as <-. by rewrite tree_store_same by done.
  - rewrite tree_store_other; [done|done|]. intros E'. apply E. f_equal. by apply index_ok_same.
Qed.

Lemma rd_wr s p v q : tree_ok L1_MAP_ADDR_SPACE_BITS (l1_map s) → slot_ok p → slot_ok q → is_Some (rd s p) →
  rd (wr p v s) q = if decide (p = q) then Some v else rd s q.
Proof.
  intros Hok Hp Hq Hw. destruct p as [h|i|index|i n|i n|i]; [|..|by apply rd_wr_first| | |].
  all: destruct Hw as [w Hw]; destruct q as [h'|j|index'|j m|j m|j]; simpl in *; try done.
  1: { rewrite lookup_insert. repeat case_decide; naive_solver. }
  all: rewrite ?list_lookup_alter; repeat case_decide; simplify_eq; try done.
  all: destruct (tbs s !! _) as [t|]; simpl in *; simplify_eq; try done.
  all: rewrite ?get2_set2; repeat case_decide; simplify_eq; try done; by rewrite ?Hw.
Qed.

Lemma rd_wr_sym s p v q : tree_ok L1_MAP_ADDR_SPACE_BITS (l1_map s) → slot_ok p → slot_ok q → is_Some (rd s p) →
  rd (wr p v s) q = if decide (q = p) then Some v else rd s q.
Proof. intros. rewrite rd_wr by done. repeat case_decide; congruence. Qed.


Lemma rd_wr_ne s p v q : tree_ok L1_MAP_ADDR_SPACE_BITS (l1_map s) → slot_ok p → slot_ok q → is_Some (rd s p) → p ≠ q →
  rd (wr p v s) q = rd s q.
Proof. intros. by rewrite rd_wr, decide_False. Qed.

Lemma ld_ok s p v : rd s p = Some v → ld p s = Ok v s.
Proof. unfold ld. by intros ->. Qed.

Lemma st_ok s p v : is_Some (rd s p) → st p v s = Ok () (wr p v s).
Proof. intros [w Hw]. unfold st. by rewrite (bind_Ok _ _ _ _ _ (ld_ok _ _ _ Hw)). Qed.

(** ** The loops *)

(** The slots behind the pointers of the three kinds of lists. *)
Definition nx_hash x : slot := SHashNext x.1.
Definition nx_page x : slot := SPageNext x.1 x.2.
Definition nx_jmp x : slot := SJmpNext x.1 x.2.
Definition untagged (i : nat) : nat * nat := (i, O).

Lemma tb_remove_run s fuel p (l1 : list nat) tb l2 :
  chain nx_hash (rd s) p ((untagged <$> l1) ++ untagged tb :: l2) None → tb ∉ l1 → (length l1 < fuel)%nat →
  ∃ v, rd s (SHashNext tb) = Some v ∧
       tb_remove fuel p tb s = Ok () (wr (last_slot nx_hash p (untagged <$> l1)) v s).
Proof.
  revert fuel p. induction l1 as [|i l1 IH]; intros fuel p Hc Hn Hf; (destruct fuel as [|fuel]; [simpl in Hf; lia|]); cbn [tb_remove].
  - destruct Hc as [Hp Hc]. apply chain_first in Hc. exists (first_ptr l2 None). split; [done|].
    mrun (ld_ok _ _ _ Hp). rewrite decide_True by done. mrun (ld_ok s (SHashNext tb) _ Hc). apply st_ok. by rewrite Hp.
  - destruct Hc as [Hp Hc]. destruct (IH fuel _ Hc) as (v & Hv & E); [set_solver|simpl in Hf; lia|].
    exists v. split; [done|]. mrun (ld_ok _ _ _ Hp). rewrite decide_False by set_solver. done.
Qed.

Lemma tb_page_remove_run s fuel p l1 x l2 tb :
  chain nx_page (rd s) p (l1 ++ x :: l2) None → x.1 = tb → Forall (λ y, y.1 ≠ tb) l1 → (length l1 < fuel)%nat →
  ∃ v, rd s (nx_page x) = Some v ∧ tb_page_remove fuel p tb s = Ok () (wr (last_slot nx_page p l1) v s).
Proof.
  revert fuel p. induction l1 as [|[i n] l1 IH]; intros fuel p Hc Hx Hn Hf; (destruct fuel as [|fuel]; [simpl in Hf; lia|]); cbn [tb_page_remove].
  - destruct x as [i n], Hc as [Hp Hc]. simpl in Hx. subst i. apply chain_first in Hc. exists (first_ptr l2 None). split; [done|].
    mrun (ld_ok _ _ _ Hp). rewrite decide_True by done. mrun (ld_ok s (SPageNext tb n) _ Hc). apply st_ok. by rewrite Hp.
  - destruct Hc as [Hp Hc]. apply Forall_cons in Hn as [Hi Hn]. destruct (IH fuel _ Hc Hx Hn) as (v & Hv & E); [simpl in Hf; lia|].
    exists v. split; [done|]. mrun (ld_ok _ _ _ Hp). by rewrite decide_False by done.
Qed.

Lemma jmp_find_run s fuel p l tb n :
  chain jmp_slot (rd s) p l (Some (tb, n)) → (tb, n) ∉ l → (length l < fuel)%nat →
  jmp_find fuel p tb n s = Ok (last_slot jmp_slot p l) s.
Proof.
  revert fuel p. induction l as [|[i m] l IH]; intros fuel p Hc Hn Hf; (destruct fuel as [|fuel]; [simpl in Hf; lia|]); cbn [jmp_find].
  - mrun (ld_ok _ _ _ Hc). by rewrite decide_True.
  - destruct Hc as [Hp Hc]. mrun (ld_ok _ _ _ Hp). rewrite decide_False by (intros [-> ->]; apply Hn; left).
    apply IH; [done|set_solver|simpl in Hf; lia].
Qed.

Lemma jmp_find_from_run s fuel p l tb n :
  chain nx_jmp (rd s) p l (Some (tb, n)) → (tb, n) ∉ l → (length l < fuel)%nat →
  jmp_find_from fuel p tb n s = Ok (last_slot nx_jmp p l) s.
Proof.
  revert fuel p. induction l as [|[i m] l IH]; intros fuel p Hc Hn Hf; (destruct fuel as [|fuel]; [simpl in Hf; lia|]); cbn [jmp_find_from].
  - mrun (ld_ok _ _ _ Hc). by rewrite decide_True.
  - destruct Hc as [Hp Hc]. mrun (ld_ok _ _ _ Hp). rewrite decide_False by (intros [-> ->]; apply Hn; left).
    apply IH; [done|set_solver|simpl in Hf; lia].
Qed.

Lemma jmp_head_run s fuel p l tb :
  chain nx_jmp (rd s) p l (Some (tb, 2%nat)) → Forall (λ x, (x.2 < 2)%nat) l → (length l < fuel)%nat →
  jmp_head fuel (first_ptr l (Some (tb, 2%nat))) s = Ok tb s.
Proof.
  revert fuel p. induction l as [|[i m] l IH]; intros fuel p Hc Hn Hf; (destruct fuel as [|fuel]; [simpl in Hf; lia|]); cbn [jmp_head first_ptr].
  - by rewrite decide_True.
  - apply Forall_cons in Hn as [Hm Hn]. simpl in Hm. rewrite decide_False by lia. destruct Hc as [Hp Hc].
    mrun (ld_ok s (SJmpNext i m) _ (chain_first _ _ _ _ _ Hc)). eapply IH; [done..|simpl in Hf; lia].
Qed.

(** ** Jumps in the code *)

Definition jump_site (t : TranslationBlock) (n : nat) : Z := tb_tc_ptr t + default 0 (get2 (tb_jmp_offset t) n).
(** The target of a jump that is not chained: the block's own exit. *)
Definition exit_of (t : TranslationBlock) (n : nat) : Z := tb_tc_ptr t + default 0 (get2 (tb_next_offset t) n).
Definition jump_word (site target : Z) : Z := wrap 32 (target - (site + 4)).
Definition put_jump (t : TranslationBlock) (n : nat) (target : Z) s : tb_state Regs :=
  set_tc_code (<[jump_site t n := jump_word (jump_site t n) target]> (tc_code s)) s.

Lemma tb_at_ok s i t : tbs s !! i = Some t → tb_at i s = Ok t s.
Proof. intros E. unfold tb_at. rewrite bind_gets, E. done. Qed.

Lemma get2_lt {A} (a : arr2 A) n : (n < 2)%nat → is_Some (get2 a n).
Proof. destruct n as [|[|n]]; simpl; [eauto..|lia]. Qed.

Lemma set_target_ok s i t n a : tbs s !! i = Some t → (n < 2)%nat → tb_set_jmp_target i n a s = Ok () (put_jump t n a s).
Proof.
  intros E Hn. unfold tb_set_jmp_target. mrun (tb_at_ok _ _ _ E). unfold put_jump, jump_site.
  destruct (get2_lt (tb_jmp_offset t) n Hn) as [o Ho]. rewrite Ho. done.
Qed.

Lemma reset_jump_ok s i t n : tbs s !! i = Some t → (n < 2)%nat → tb_reset_jump i n s = Ok () (put_jump t n (exit_of t n) s).
Proof.
  intros E Hn. unfold tb_reset_jump. mrun (tb_at_ok _ _ _ E). unfold exit_of.
  destruct (get2_lt (tb_next_offset t) n Hn) as [o Ho]. rewrite Ho. cbn [nonnull]. rewrite bind_ret. by apply set_target_ok.
Qed.
End Lists.

#[global] Arguments rd : simpl never.
#[global] Arguments wr : simpl never.
