(* ===== verification/TBInv.v ===== *)
(** * The invariant of the code cache

    The abstract cache is a set of live blocks, the order of each list, and for
    each block the jumps that were chained to it. The invariant says that the
    pointers in the blocks, the hash table and the pages are these lists, that a
    block is listed exactly where its addresses say, and that the jump
    instructions in the code lead where the lists say. *)

From S2P Require Import Prelude CFile CString HostMem RamList Radix PhysPages RRTypes PandaCallbacks.
From S2P Require Import RRState RRReplay TBCache TBLists.
From stdpp Require Import functions list.
Local Open Scope Z_scope.

(** ** What operations on lists keep *)

(** A block without its list pointers. *)
Definition tb_data (t : TranslationBlock) : TranslationBlock :=
  set_phys_hash_next None (set_page_next (None, None) (set_jmp_next (None, None) (set_jmp_first None t))).

Section Inv.
Context `{PhysSpace} `{TargetLong} {Regs : Type} `{!Translator Regs} `{!SpaceOk L1_MAP_ADDR_SPACE_BITS}.
Implicit Types (s : tb_state Regs) (p q : slot) (i j n : nat).

Definition data s i : option TranslationBlock := tb_data <$> tbs s !! i.
Definition page_exists s (index : Z) : Prop := is_Some (page_find (l1_map s) index).

(** The bitmap of a page. *)
Definition bm_at s (index : Z) : option (list Z) := page_find (l1_map s) index ≫= code_bitmap.

(** The rest of the state but the cache of virtual addresses, the flag and the
    count of invalidations, and the code. *)
Definition rest s :=
  (nb_tbs s, code_gen_max_blocks s, code_gen_buffer s, code_gen_buffer_size s, code_gen_buffer_max_size s,
   code_gen_ptr s, tb_flush_count s, tb_ram s, tb_rr s, tb_trace s,
   (current_tb (tb_cpu s), interrupt_request (tb_cpu s), mem_io_pc (tb_cpu s), mem_io_vaddr (tb_cpu s), cpu_regs (tb_cpu s))).

Record keeps s s' : Prop := {
  k_tree : tree_ok L1_MAP_ADDR_SPACE_BITS (l1_map s) → tree_ok L1_MAP_ADDR_SPACE_BITS (l1_map s');
  k_data : ∀ i, data s' i = data s i;
  k_pages : ∀ index, page_exists s' index ↔ page_exists s index;
  k_rest : rest s' = rest s;
  k_bitmap : ∀ index bm, index_ok index → bm_at s' index = Some bm → bm_at s index = Some bm;
}.

#[global] Instance keeps_refl : Reflexive keeps.
Proof. by split. Qed.
#[global] Instance keeps_trans : Transitive keeps.
Proof.
  intros a b c [T1 D1 P1 R1 B1] [T2 D2 P2 R2 B2]. split; [auto|..|congruence|auto].
  - intros i. by rewrite D2.
  - intros x. by rewrite P2.
Qed.

Lemma store_exists s index d (j : Z) : tree_ok L1_MAP_ADDR_SPACE_BITS (l1_map s) → page_exists s index →
  is_Some (page_find (page_store (l1_map s) index d) j) ↔ page_exists s j.
Proof.
  intros Hok Hi. unfold page_exists, page_find, page_store in *.
  destruct (decide (index mod 2 ^ (L1_MAP_ADDR_SPACE_BITS - TARGET_PAGE_BITS) = j mod 2 ^ (L1_MAP_ADDR_SPACE_BITS - TARGET_PAGE_BITS))) as [E|E].
  - rewrite tree_store_same by done. rewrite <-(tree_find_same _ _ index j) by done. naive_solver.
  - by rewrite tree_store_other.
Qed.

(** A page that is stored has its own bitmap, the others keep theirs. *)
Lemma store_bm s index d d' k : tree_ok L1_MAP_ADDR_SPACE_BITS (l1_map s) → page_find (l1_map s) index = Some d →
  bm_at (set_l1_map (page_store (l1_map s) index d') s) k = code_bitmap d' ∧ bm_at s k = code_bitmap d ∧ same_index L1_MAP_ADDR_SPACE_BITS index k ∨
  bm_at (set_l1_map (page_store (l1_map s) index d') s) k = bm_at s k ∧ k ≠ index.
Proof.
  intros Hok Hd. unfold bm_at, page_find, page_store in *. simpl.
  destruct (decide (index mod 2 ^ (L1_MAP_ADDR_SPACE_BITS - TARGET_PAGE_BITS) = k mod 2 ^ (L1_MAP_ADDR_SPACE_BITS - TARGET_PAGE_BITS))) as [E|E].
  - left. rewrite tree_store_same by done. rewrite <-(tree_find_same _ _ index k) by done. by rewrite Hd.
  - right. rewrite tree_store_other by done. split; [done|]. by intros ->.
Qed.

Lemma data_alter s i j f : (∀ t, tb_data (f t) = tb_data t) → data (set_tbs (alter f i (tbs s)) s) j = data s j.
Proof.
  intros Hf. unfold data. simpl. rewrite list_lookup_alter. case_decide; [subst|done].
  destruct (tbs s !! _); simpl; [by rewrite Hf|done].
Qed.

Lemma wr_keeps s p v : tree_ok L1_MAP_ADDR_SPACE_BITS (l1_map s) → keeps s (wr p v s).
Proof.
  intros Hok. unfold wr. destruct p as [h|i|index|i n|i n|i].
  3: { destruct (page_find (l1_map s) index) as [d|] eqn:E; [|done]. split; simpl; try done.
       - intros _. by apply tree_store_ok.
       - intros j. apply store_exists; [done|by eexists].
       - intros k bm _. destruct (store_bm s index d (set_first_tb v d) k Hok E) as [(-> & -> & _)|[-> _]]; done. }
  all: split; simpl; try done; intros j; by apply data_alter.
Qed.

Lemma upd_page_ok s index f d : page_find (l1_map s) index = Some d →
  upd_page index f s = Ok () (set_l1_map (page_store (l1_map s) index (f d)) s).
Proof. intros E. unfold upd_page, page_at. rewrite bind_assoc, bind_gets, E. done. Qed.

(** A change of a page's bitmap. *)
Lemma set_page_keeps s index d d' : tree_ok L1_MAP_ADDR_SPACE_BITS (l1_map s) → page_find (l1_map s) index = Some d →
  first_tb d' = first_tb d → (∀ bm, code_bitmap d' = Some bm → code_bitmap d = Some bm) → index_ok index →
  let s' := set_l1_map (page_store (l1_map s) index d') s in
  keeps s s' ∧ ∀ q, slot_ok q → rd s' q = rd s q.
Proof.
  intros Hok E Ef Eb Hi s'. split.
  - split; simpl; try done; [intros _; by apply tree_store_ok|..].
    + intros j. apply store_exists; [done|by eexists].
    + intros k bm _. unfold s'. destruct (store_bm s index d d' k Hok E) as [(-> & -> & _)|[-> _]]; [apply Eb|done].
  - intros q Hq. destruct q as [| |index'| | |]; try done. unfold rd, page_find, page_store in *. simpl in *.
    destruct (decide (index = index')) as [<-|Ne].
    + rewrite tree_store_same by done. rewrite E. simpl. by rewrite Ef.
    + rewrite tree_store_other; [done|done|]. intros E'. apply Ne. by apply index_ok_same.
Qed.

(** ** The view *)

Record view := mkView {
  v_live : gset nat;
  v_hash : Z → list nat;
  v_page : Z → list (nat * nat);
  v_jumps : nat → list (nat * nat);
}.
Implicit Types v : view.

Definition elt_hash (x : nat * nat) : Prop := x.2 = O.
Definition elt2 (x : nat * nat) : Prop := (x.2 < 2)%nat.

Definition hash_family s (hs : Z → list nat) : Prop :=
  family SHash nx_hash elt_hash (rd s) (λ _, True) (λ h, untagged <$> hs h) (λ _, None).
Definition page_dom s (index : Z) : Prop := index_ok index ∧ page_exists s index.
Definition page_family s (pg : Z → list (nat * nat)) : Prop :=
  family SFirst nx_page elt2 (rd s) (page_dom s) pg (λ _, None).
Definition jump_family s (live : gset nat) (js : nat → list (nat * nat)) : Prop :=
  family SJmpFirst nx_jmp elt2 (rd s) (λ i, i ∈ live) js (λ i, Some (i, 2%nat)).

Definition hash_key (t : TranslationBlock) : Z := tb_phys_hash_func (tb_phys_pc t).
(** The [n]th page of a block is the page [index]. *)
Definition on_page (t : TranslationBlock) n (index : Z) : Prop :=
  ∃ a, get2 (page_addr t) n = Some a ∧ a ≠ NO_PAGE ∧ Z.shiftr a TARGET_PAGE_BITS = index.
Definition has_jump (t : TranslationBlock) n : Prop :=
  ∃ o, get2 (tb_next_offset t) n = Some o ∧ o ≠ 0xffff.

#[global] Instance has_jump_dec t n : Decision (has_jump t n).
Proof.
  unfold has_jump. destruct (get2 (tb_next_offset t) n) as [o|]; [|right; by intros (? & ? & _)].
  destruct (decide (o = 0xffff)) as [->|Ne]; [right; by intros (? & [= <-] & ?)|left; eauto].
Defined.

(** Code of blocks lies in the buffer in the order of the array; the jumps of a
    block lie between its start and the next block. *)
Record layout s (live : gset nat) : Prop := {
  lay_len : Z.of_nat (length (tbs s)) = code_gen_max_blocks s;
  lay_nb : 0 ≤ nb_tbs s ≤ code_gen_max_blocks s;
  lay_live : ∀ i, i ∈ live → Z.of_nat i < nb_tbs s;
  lay_bounds : ∀ i t, Z.of_nat i < nb_tbs s → data s i = Some t → code_gen_buffer s ≤ tb_tc_ptr t ≤ code_gen_ptr s;
  lay_sorted : ∀ i j t u, (i ≤ j)%nat → Z.of_nat j < nb_tbs s → data s i = Some t → data s j = Some u →
    tb_tc_ptr t ≤ tb_tc_ptr u;
  lay_site : ∀ i t n, i ∈ live → data s i = Some t → has_jump t n →
    tb_tc_ptr t ≤ jump_site t n ∧ jump_site t n + 4 ≤ code_gen_ptr s ∧
    ∀ j u, (i < j)%nat → Z.of_nat j < nb_tbs s → data s j = Some u → jump_site t n + 4 ≤ tb_tc_ptr u;
  lay_two : ∀ i t, i ∈ live → data s i = Some t → has_jump t 0 → has_jump t 1 →
    jump_site t 0 + 4 ≤ jump_site t 1 ∨ jump_site t 1 + 4 ≤ jump_site t 0;
  lay_empty : nb_tbs s = 0 → code_gen_ptr s = code_gen_buffer s;
  lay_start : ∀ i t, Z.of_nat i < nb_tbs s → data s i = Some t →
    tb_tc_ptr t mod 16 = 0 ∧ (i = O → tb_tc_ptr t = code_gen_buffer s);
}.

(** Blocks are listed where their addresses say. *)
Record listed s v : Prop := {
  li_hash : ∀ h i, i ∈ v_hash v h ↔ i ∈ v_live v ∧ ∃ t, data s i = Some t ∧ hash_key t = h;
  li_page : ∀ index i n, page_dom s index →
    (i, n) ∈ v_page v index ↔ i ∈ v_live v ∧ ∃ t, data s i = Some t ∧ on_page t n index;
  li_page_ok : ∀ i t n index, i ∈ v_live v → data s i = Some t → on_page t n index → page_dom s index;
  li_page_none : ∀ index, index_ok index → ¬ page_exists s index → v_page v index = [];
  li_page0 : ∀ i t, i ∈ v_live v → data s i = Some t → (page_addr t).1 ≠ NO_PAGE;
  li_cache : ∀ h i, tb_jmp_cache (tb_cpu s) !! h = Some i →
    i ∈ v_live v ∧ ∃ t, data s i = Some t ∧ tb_jmp_cache_hash_func (tb_pc t) = h;
}.

(** Jumps: who is chained to whom, and what the code says. *)
Record chained s v : Prop := {
  ch_from : ∀ j x, j ∈ v_live v → x ∈ v_jumps v j → x.1 ∈ v_live v ∧ ∃ t, data s x.1 = Some t ∧ has_jump t x.2;
  ch_none : ∀ i n, i ∈ v_live v → (n < 2)%nat → (∀ j, j ∈ v_live v → (i, n) ∉ v_jumps v j) →
    rd s (SJmpNext i n) = Some None;
  ch_exit : ∀ i t n, i ∈ v_live v → data s i = Some t → has_jump t n → (∀ j, j ∈ v_live v → (i, n) ∉ v_jumps v j) →
    tc_code s !! jump_site t n = Some (jump_word (jump_site t n) (exit_of t n));
  ch_jump : ∀ i j t u n, j ∈ v_live v → (i, n) ∈ v_jumps v j → data s i = Some t → data s j = Some u →
    tc_code s !! jump_site t n = Some (jump_word (jump_site t n) (tb_tc_ptr u));
}.

(** Writes to a page with code are noticed. *)
Definition guarded s v : Prop := ∀ index, page_dom s index → v_page v index ≠ [] →
  ∃ f, phys_dirty (tb_ram s) !! Z.to_nat index = Some f ∧ Z.land f CODE_DIRTY_FLAG = 0.

Record cache_inv s v : Prop := {
  ci_tree : tree_ok L1_MAP_ADDR_SPACE_BITS (l1_map s);
  ci_layout : layout s (v_live v);
  ci_listed : listed s v;
  ci_hash : hash_family s (v_hash v);
  ci_page : page_family s (v_page v);
  ci_jumps : jump_family s (v_live v) (v_jumps v);
  ci_chained : chained s v;
  ci_ram : ram_ok (tb_ram s);
  ci_guarded : guarded s v;
}.

(** ** Lists without a block *)

Definition not_tb (tb : nat) (x : nat * nat) : Prop := x.1 ≠ tb.
#[global] Instance not_tb_dec tb x : Decision (not_tb tb x).
Proof. unfold not_tb. apply _. Defined.

Definition remove_view (tb : nat) v : view :=
  mkView (v_live v ∖ {[tb]}) (λ h, filter (λ i, i ≠ tb) (v_hash v h)) (λ index, filter (not_tb tb) (v_page v index))
    (λ j, if decide (j = tb) then [] else filter (not_tb tb) (v_jumps v j)).

(** The first pointer to a block is dropped. *)
Fixpoint drop_first (tb : nat) (l : list (nat * nat)) : list (nat * nat) :=
  match l with [] => [] | x :: l' => if decide (x.1 = tb) then l' else x :: drop_first tb l' end.

Lemma drop_first_split tb l : (∃ x, x ∈ l ∧ x.1 = tb) →
  ∃ l1 x l2, l = l1 ++ x :: l2 ∧ x.1 = tb ∧ Forall (λ y, y.1 ≠ tb) l1 ∧ drop_first tb l = l1 ++ l2.
Proof.
  induction l as [|y l IH]; intros (x & Hx & E); [by apply not_elem_of_nil in Hx|]. simpl.
  destruct (decide (y.1 = tb)) as [Ey|Ey].
  - exists [], y, l. done.
  - destruct IH as (l1 & z & l2 & -> & Ez & Hl & ->).
    { exists x. split; [|done]. apply elem_of_cons in Hx as [->|Hx]; [done|done]. }
    exists (y :: l1), z, l2. split_and!; try done. by constructor.
Qed.

Lemma drop_first_not tb l : filter (not_tb tb) (drop_first tb l) = filter (not_tb tb) l.
Proof.
  induction l as [|x l IH]; [done|]. simpl. destruct (decide (x.1 = tb)) as [E|E].
  - by rewrite filter_cons_False by (unfold not_tb; naive_solver).
  - rewrite !filter_cons_True by done. by rewrite IH.
Qed.

Lemma drop_first_is tb l : filter (λ x, x.1 = tb) (drop_first tb l) = tail (filter (λ x, x.1 = tb) l).
Proof.
  induction l as [|x l IH]; [done|]. simpl. destruct (decide (x.1 = tb)) as [E|E].
  - by rewrite filter_cons_True by done.
  - rewrite !filter_cons_False by done. done.
Qed.

Lemma filter_none tb l : filter (λ x, x.1 = tb) l = [] → filter (not_tb tb) l = l.
Proof.
  induction l as [|x l IH]; [done|]. destruct (decide (x.1 = tb)) as [E|E].
  - by rewrite filter_cons_True.
  - rewrite filter_cons_False, filter_cons_True by done. intros Hl. by rewrite IH.
Qed.

Lemma filter_drop_jump (x : nat * nat) (l1 l2 : list (nat * nat)) : NoDup (l1 ++ x :: l2) → filter (λ y, y ≠ x) (l1 ++ x :: l2) = l1 ++ l2.
Proof.
  intros Hn. apply NoDup_app in Hn as (_ & Hd & Hn). apply NoDup_cons in Hn as [Hx _].
  assert (Hall : ∀ k : list (nat * nat), x ∉ k → filter (λ y, y ≠ x) k = k).
  { induction k as [|y k IH]; [done|]. intros Hk. rewrite filter_cons_True by set_solver. rewrite IH; set_solver. }
  rewrite filter_app, filter_cons_False by naive_solver. rewrite !Hall; [done|done|]. intros Hx1. apply (Hd x Hx1). left.
Qed.
End Inv.
