(* ===== verification/TBRemove.v ===== *)
(** * Invalidating a block

    [tb_phys_invalidate] takes a block out of every list: each step leaves the
    other lists alone, and together they implement [remove_view]. *)

From S2P Require Import Prelude CFile CString HostMem RamList Radix PhysPages RRTypes PandaCallbacks.
From S2P Require Import RRState RRReplay TBCache TBLists TBInv.
From stdpp Require Import functions list.
Local Open Scope Z_scope.

Section Remove.
Context `{PhysSpace} `{TargetLong} {Regs : Type} `{!Translator Regs} `{!SpaceOk L1_MAP_ADDR_SPACE_BITS}.
Implicit Types (s : tb_state Regs) (p q : slot) (i j n tb : nat) (v : view).

(** ** Kinds of slots *)

Definition hash_slot q : Prop := match q with SHash _ | SHashNext _ => True | _ => False end.
Definition page_slot q : Prop := match q with SFirst _ | SPageNext _ _ => True | _ => False end.
Definition jump_slot q : Prop := match q with SJmpNext _ _ | SJmpFirst _ => True | _ => False end.

Lemma hash_frame s s' hs : (∀ q, hash_slot q → rd s' q = rd s q) → hash_family s hs → hash_family s' hs.
Proof. intros Hr. apply fam_frame. intros q [(k & _ & ->)|(x & _ & ->)]; by apply Hr. Qed.

Lemma page_frame s s' pg : (∀ q, page_slot q → slot_ok q → rd s' q = rd s q) →
  (∀ index, page_exists s' index ↔ page_exists s index) → page_family s pg → page_family s' pg.
Proof.
  intros Hr He HF. eapply (fam_ext _ _ _ _ (page_dom s)); [|done|].
  - intros k [Hk Hp]. split; [done|]. by apply He.
  - eapply fam_frame; [|exact HF]. intros q [(k & [Hk _] & ->)|(x & _ & ->)]; by apply Hr.
Qed.

Lemma jump_frame s s' live js : (∀ q, jump_slot q → rd s' q = rd s q) → jump_family s live js → jump_family s' live js.
Proof. intros Hr. apply fam_frame. intros q [(k & _ & ->)|(x & _ & ->)]; by apply Hr. Qed.

(** The flag and the count of invalidations, and the CPU. *)
Definition aux s := (tb_invalidated_flag s, tb_phys_invalidate_count s, tb_cpu s).

(** ** The hash chain *)

Lemma untagged_elem (i : nat) (l : list nat) : untagged i ∈ untagged <$> l ↔ i ∈ l.
Proof. rewrite list_elem_of_fmap. split; [intros (k & [= ->] & ?); done|eauto]. Qed.

Lemma hash_filter (tb : nat) (l1 l2 : list nat) : NoDup (l1 ++ tb :: l2) → filter (λ i, i ≠ tb) (l1 ++ tb :: l2) = l1 ++ l2.
Proof.
  intros Hn. apply NoDup_app in Hn as (_ & Hd & Hn). apply NoDup_cons in Hn as [Hx _].
  assert (Hall : ∀ k : list nat, tb ∉ k → filter (λ i, i ≠ tb) k = k).
  { induction k as [|y k IH]; [done|]. intros Hk. rewrite filter_cons_True by set_solver. rewrite IH; set_solver. }
  rewrite filter_app, filter_cons_False by naive_solver. rewrite !Hall; [done|done|]. intros Hx1. apply (Hd tb Hx1). left.
Qed.

Lemma unlink_hash_ok s hs h tb fuel : tree_ok L1_MAP_ADDR_SPACE_BITS (l1_map s) → hash_family s hs →
  tb ∈ hs h → (∀ k, k ≠ h → tb ∉ hs k) → (length (hs h) ≤ fuel)%nat →
  ∃ s', tb_remove fuel (SHash h) tb s = Ok () s' ∧ keeps s s' ∧ tc_code s' = tc_code s ∧ aux s' = aux s ∧
    hash_family s' (λ k, filter (λ i, i ≠ tb) (hs k)) ∧ ∀ q, ¬ hash_slot q → slot_ok q → rd s' q = rd s q.
Proof.
  intros Hok HF Hin Hother Hf.
  destruct (list_elem_of_split _ _ Hin) as (l1 & l2 & El).
  assert (Hn : NoDup (hs h)).
  { pose proof (fam_nodup _ _ _ _ _ _ _ HF h I) as Hn. by apply NoDup_fmap_1 in Hn. }
  assert (Hl1 : tb ∉ l1).
  { rewrite El in Hn. apply NoDup_app in Hn as (_ & Hd & _). intros Hx. apply (Hd _ Hx). left. }
  pose proof (fam_chain _ _ _ _ _ _ _ HF h I) as Hc. cbn beta in Hc. rewrite El, fmap_app, fmap_cons in Hc.
  destruct (tb_remove_run s fuel (SHash h) l1 tb (untagged <$> l2)) as (w & Hw & E); [done|done|rewrite El, length_app in Hf; simpl in Hf; lia|].
  set (p := last_slot nx_hash (SHash h) (untagged <$> l1)) in *.
  assert (Hp : hash_slot p).
  { pose proof (last_slot_elem nx_hash (SHash h) (untagged <$> l1)) as Hp. fold p in Hp.
    apply elem_of_cons in Hp as [->|Hp]; [done|]. by apply list_elem_of_fmap in Hp as (x & -> & _). }
  assert (Hpo : slot_ok p) by (by destruct p).
  assert (Hps : is_Some (rd s p)).
  { apply chain_app in Hc as [Hc _]. apply chain_last in Hc. fold p in Hc. by rewrite Hc. }
  exists (wr p w s). split_and!; [done|by apply wr_keeps| | | |].
  - by destruct p.
  - by destruct p.
  - eapply (fam_ext _ _ _ _ (λ _, True) _ (<[h := (untagged <$> l1) ++ (untagged <$> l2)]> (λ k, untagged <$> hs k))); [done| |].
    + intros k _. destruct (decide (h = k)) as [<-|Ne].
      * rewrite fn_lookup_insert. rewrite El in *. by rewrite hash_filter, fmap_app.
      * rewrite fn_lookup_insert_ne by done. f_equal. specialize (Hother k ltac:(congruence)).
        induction (hs k) as [|y l IH]; [done|]. rewrite filter_cons_True by set_solver. rewrite IH; set_solver.
    + eapply fam_remove; [intros; congruence| |done|exact HF|done|by rewrite El, fmap_app, fmap_cons|exact Hw|].
      * intros [x1 x2] [y1 y2] Hx Hy [= ->]. unfold elt_hash in *. simpl in *. congruence.
      * intros q Hq. apply rd_wr_sym; [done..|by destruct Hq as [(? & _ & ->)|(? & _ & ->)]|done].
  - intros q Hq Hqo. apply rd_wr_ne; [done..|]. by intros <-.
Qed.

(** ** The lists of pages *)

Lemma unlink_page_ok s pg tb a : tree_ok L1_MAP_ADDR_SPACE_BITS (l1_map s) → page_family s pg →
  let index := Z.shiftr a TARGET_PAGE_BITS in
  page_dom s index → (∃ x, x ∈ pg index ∧ x.1 = tb) → (length (pg index) < 2 + 2 * length (tbs s))%nat →
  ∃ s', unlink_page tb a s = Ok () s' ∧ keeps s s' ∧ tc_code s' = tc_code s ∧ aux s' = aux s ∧
    page_family s' (<[index := drop_first tb (pg index)]> pg) ∧ (∀ q, ¬ page_slot q → rd s' q = rd s q) ∧ bm_at s' index = None.
Proof.
  intros Hok HF index [Hi He] Hin Hlen. pose proof (conj Hi He : page_dom s index) as Hdom.
  destruct (drop_first_split tb (pg index) Hin) as (l1 & x & l2 & El & Ex & Hl1 & ->).
  pose proof (fam_chain _ _ _ _ _ _ _ HF index Hdom) as Hc. rewrite El in Hc.
  destruct (tb_page_remove_run s (S (S (2 * length (tbs s)))) (SFirst index) l1 x l2 tb) as (w & Hw & E); [done..| |].
  { rewrite El, length_app in Hlen. simpl in Hlen. lia. }
  set (p := last_slot nx_page (SFirst index) l1) in *.
  assert (Hp : page_slot p ∧ slot_ok p).
  { pose proof (last_slot_elem nx_page (SFirst index) l1) as Hp. fold p in Hp.
    apply elem_of_cons in Hp as [->|Hp]; [done|]. by apply list_elem_of_fmap in Hp as (y & -> & _). }
  destruct Hp as [Hp Hpo].
  assert (Hps : is_Some (rd s p)).
  { apply chain_app in Hc as [Hc _]. apply chain_last in Hc. fold p in Hc. by rewrite Hc. }
  pose proof (wr_keeps s p w Hok) as K1. set (s1 := wr p w s) in *.
  destruct (proj2 (k_pages _ _ K1 index) He) as [d Hd].
  destruct (set_page_keeps s1 index d (invalidate_page_bitmap d)) as [K2 R2]; [by apply K1|done..|].
  exists (set_l1_map (page_store (l1_map s1) index (invalidate_page_bitmap d)) s1).
  assert (HF1 : page_family s1 (<[index := l1 ++ l2]> pg)).
  { eapply (fam_ext _ _ _ _ (page_dom s)); [|done|].
    { intros k [Hk Hk']. split; [done|]. by apply K1. }
    eapply fam_remove; [intros; congruence| |done|exact HF|done|exact El|exact Hw|].
    - intros [x1 x2] [y1 y2] _ _ [= -> ->]. done.
    - intros q Hq. apply rd_wr_sym; [done..|by destruct Hq as [(? & [? _] & ->)|(? & _ & ->)]|done]. }
  split_and!.
  - unfold unlink_page, list_fuel. rewrite bind_gets. fold index. mrun E. by apply upd_page_ok.
  - by etrans.
  - simpl. unfold s1, wr. destruct p; try done. by case_match.
  - simpl. unfold s1, wr. destruct p; try done. by case_match.
  - eapply page_frame; [|apply K2|exact HF1]. intros q _ Hq. by apply R2.
  - intros q Hq. rewrite R2 by (by destruct q). apply rd_wr_ne; [done..|by destruct q|done|]. by intros <-.
  - destruct (store_bm s1 index d (invalidate_page_bitmap d) index ltac:(by apply K1) Hd) as [(-> & _)|[_ ?]]; done.
Qed.

(** ** Jumps *)

Lemma jmp_slot_nx x : elt2 x → jmp_slot x = nx_jmp x.
Proof. unfold jmp_slot, elt2. intros Hx. by rewrite decide_False by lia. Qed.

Lemma jump_root_inj (i j : nat) : SJmpFirst i = SJmpFirst j → i = j.
Proof. congruence. Qed.
Lemma jump_nx_inj x y : elt2 x → elt2 y → nx_jmp x = nx_jmp y → x = y.
Proof. destruct x, y. by intros _ _ [= -> ->]. Qed.

(** The slots of a list of jumps that is not empty hold pointers. *)
Lemma jump_slot_some s live js j x : jump_family s live js → j ∈ live → x ∈ js j → ∃ w, rd s (nx_jmp x) = Some (Some w).
Proof.
  intros HF Hj Hx. apply list_elem_of_split in Hx as (l1 & l2 & El).
  pose proof (fam_chain _ _ _ _ _ _ _ HF j Hj) as Hc. rewrite El in Hc. apply chain_app in Hc as [_ Hc].
  apply chain_first in Hc. rewrite Hc. destruct l2; simpl; eauto.
Qed.

Lemma drop_jump_other (x : nat * nat) (l : list (nat * nat)) : x ∉ l → filter (λ y, y ≠ x) l = l.
Proof. induction l as [|y l IH]; [done|]. intros Hk. rewrite filter_cons_True by set_solver. rewrite IH; set_solver. Qed.

(** What a removal of a jump leaves alone: everything but the slots of its list. *)
Record jump_step s s' (live : gset nat) (js : nat → list (nat * nat)) : Prop := {
  js_keeps : keeps s s';
  js_aux : aux s' = aux s;
  js_links : ∀ q, ¬ jump_slot q → rd s' q = rd s q;
  js_free : ∀ i n, (n < 2)%nat → (∀ j, j ∈ live → (i, n) ∉ js j) → rd s' (SJmpNext i n) = rd s (SJmpNext i n);
}.

Lemma cut_jump_ok s live js j l1 tb n l2 w : tree_ok L1_MAP_ADDR_SPACE_BITS (l1_map s) → jump_family s live js →
  j ∈ live → js j = l1 ++ (tb, n) :: l2 → rd s (SJmpNext tb n) = Some w →
  let s' := wr (SJmpNext tb n) None (wr (last_slot nx_jmp (SJmpFirst j) l1) w s) in
  is_Some (rd s (last_slot nx_jmp (SJmpFirst j) l1)) ∧
  is_Some (rd (wr (last_slot nx_jmp (SJmpFirst j) l1) w s) (SJmpNext tb n)) ∧
  jump_step s s' live js ∧ tc_code s' = tc_code s ∧ jump_family s' live (λ k, filter (λ y, y ≠ (tb, n)) (js k)) ∧
  rd s' (SJmpNext tb n) = Some None.
Proof.
  intros Hok HF Hj El Hw. set (p := last_slot nx_jmp (SJmpFirst j) l1).
  pose proof (fam_chain _ _ _ _ _ _ _ HF j Hj) as Hc. rewrite El in Hc.
  pose proof (fam_nodup _ _ _ _ _ _ _ HF j Hj) as Hn. rewrite El in Hn.
  assert (Hx1 : (tb, n) ∉ l1) by (apply NoDup_app in Hn as (_ & Hd & _); intros Hx; apply (Hd _ Hx); left).
  assert (Hel : ∀ y, y ∈ l1 ++ (tb, n) :: l2 → elt2 y) by (intros y Hy; eapply (fam_elt _ _ _ _ _ _ _ HF j); [done|by rewrite El]).
  assert (Hpc : p = SJmpFirst j ∨ ∃ x, x ∈ l1 ∧ p = nx_jmp x).
  { pose proof (last_slot_elem nx_jmp (SJmpFirst j) l1) as Hp. fold p in Hp. apply elem_of_cons in Hp as [->|Hp]; [by left|].
    apply list_elem_of_fmap in Hp as (x & -> & Hx). right. eauto. }
  assert (Hp : jump_slot p) by (by destruct Hpc as [->|(x & _ & ->)]).
  assert (Hpo : slot_ok p) by (by destruct p).
  assert (Hps : is_Some (rd s p)).
  { apply chain_app in Hc as [Hc _]. apply chain_last in Hc. fold p in Hc. by rewrite Hc. }
  assert (Hne : p ≠ SJmpNext tb n).
  { destruct Hpc as [->|(x & Hx & ->)]; [done|]. intros E. apply (jump_nx_inj x (tb, n)) in E as ->; [done|..]; apply Hel; set_solver. }
  pose proof (wr_keeps s p w Hok) as K1. set (s1 := wr p w s) in *.
  assert (Hs1 : rd s1 (SJmpNext tb n) = Some w) by (unfold s1; by rewrite rd_wr_ne).
  pose proof (wr_keeps s1 (SJmpNext tb n) None ltac:(by apply K1)) as K2. set (s2 := wr (SJmpNext tb n) None s1) in *.
  assert (R2 : ∀ q, slot_ok q → rd s2 q = if decide (q = SJmpNext tb n) then Some None else if decide (q = p) then Some w else rd s q).
  { intros q Hq. unfold s2. rewrite rd_wr_sym; [|by apply K1|done..|by rewrite Hs1]. case_decide; [done|].
    unfold s1. by apply rd_wr_sym. }
  split_and!; [done|by rewrite Hs1| | | |].
  - split.
    + by etrans.
    + unfold s2, s1, wr. by destruct p.
    + intros q Hq. destruct q as [| |index| | |]; try done.
      1,2,4: rewrite R2, !decide_False; [done|intros E; by rewrite <-E in Hp|done|done].
      unfold s2, s1, wr. by destruct p.
    + intros i m Hx Hf. change (SJmpNext i m) with (nx_jmp (i, m)). change (elt2 (i, m)) in Hx. set (x := (i, m)) in *. rewrite R2 by done. rewrite !decide_False; [done|..].
      * intros E. destruct Hpc as [Hp'|(y & Hy & Hp')]; rewrite Hp' in E; [done|].
        apply jump_nx_inj in E as ->; [|done|apply Hel; set_solver]. apply (Hf j); [done|]. rewrite El. set_solver.
      * intros E. apply (jump_nx_inj x (tb, n)) in E as ->; [|done|apply Hel; set_solver]. apply (Hf j Hj). rewrite El. set_solver.
  - unfold s2, s1, wr. by destruct p.
  - assert (HF1 : jump_family s1 live (<[j := l1 ++ l2]> js)).
    { eapply fam_remove; [apply jump_root_inj|apply jump_nx_inj|done|exact HF|done|exact El|exact Hw|].
      intros q Hq. apply rd_wr_sym; [done..|by destruct Hq as [(? & _ & ->)|(? & _ & ->)]|done]. }
    assert (Hls : ∀ k, k ∈ live → filter (λ y, y ≠ (tb, n)) (js k) = <[j := l1 ++ l2]> js k).
    { intros k Hk. destruct (decide (j = k)) as [<-|Ne].
      - rewrite fn_lookup_insert, El. by apply filter_drop_jump.
      - rewrite fn_lookup_insert_ne by done. apply drop_jump_other. intros Hx. apply Ne.
        apply (fam_apart _ _ _ _ _ _ _ HF j k (tb, n)); [done|done| |done]. rewrite El. set_solver. }
    eapply (fam_ext _ _ _ _ (λ i, i ∈ live)); [done|exact Hls|].
    eapply fam_frame_used; [| |exact HF1].
    + intros k _. unfold s2. rewrite rd_wr_ne; [done|by apply K1|done..|by rewrite Hs1|done].
    + intros k x Hk Hx. unfold s2. rewrite rd_wr_ne; [done|by apply K1|done..|by rewrite Hs1|].
      intros E. apply (jump_nx_inj (tb, n) x) in E as <-; [|apply Hel; set_solver|by eapply (fam_elt _ _ _ _ _ _ _ HF1)].
      rewrite <-Hls in Hx by done. apply list_elem_of_filter in Hx as [Hx _]. done.
  - rewrite R2 by done. by rewrite decide_True.
Qed.

Lemma elt2_length (l : list (nat * nat)) (N : nat) : NoDup l → (∀ x, x ∈ l → elt2 x ∧ (x.1 < N)%nat) → (length l ≤ 2 * N)%nat.
Proof.
  intros Hn Hl. transitivity (length (((λ i, (i, O)) <$> seq 0 N) ++ ((λ i, (i, 1%nat)) <$> seq 0 N))).
  - apply submseteq_length, NoDup_submseteq; [done|]. intros [a b] Hx. destruct (Hl _ Hx) as [H2 HN]. unfold elt2 in H2. simpl in *.
    apply elem_of_app. rewrite !list_elem_of_fmap. destruct b as [|[|b]]; [left|right|lia]; exists a; by rewrite elem_of_seq; (split; [|lia]).
  - rewrite length_app, !length_fmap, !length_seq. lia.
Qed.

Lemma in_some_list (live : gset nat) (js : nat → list (nat * nat)) x :
  (∃ j, j ∈ live ∧ x ∈ js j) ∨ (∀ j, j ∈ live → x ∉ js j).
Proof.
  destruct (decide (set_Exists (λ j, x ∈ js j) live)) as [Hj|Hj]; [left; done|]. right.
  intros j Hj1 Hj2. apply Hj. by exists j.
Qed.

Lemma tb_jmp_remove_ok s live js tb n : tree_ok L1_MAP_ADDR_SPACE_BITS (l1_map s) → jump_family s live js →
  ((∀ j, j ∈ live → (tb, n) ∉ js j) → rd s (SJmpNext tb n) = Some None) →
  (∀ j x, j ∈ live → x ∈ js j → (x.1 < length (tbs s))%nat) →
  ∃ s', tb_jmp_remove tb n s = Ok () s' ∧ jump_step s s' live js ∧ tc_code s' = tc_code s ∧
    jump_family s' live (λ k, filter (λ y, y ≠ (tb, n)) (js k)) ∧ rd s' (SJmpNext tb n) = Some None.
Proof.
  intros Hok HF Hnone Hb. destruct (in_some_list live js (tb, n)) as [(j & Hj & Hx)|Hno].
  - destruct (list_elem_of_split _ _ Hx) as (l1 & l2 & El).
    destruct (jump_slot_some _ _ _ _ _ HF Hj Hx) as [w Hw]. change (nx_jmp (tb, n)) with (SJmpNext tb n) in Hw.
    destruct (cut_jump_ok s live js j l1 tb n l2 (Some w) Hok HF Hj El Hw) as (S1 & S2 & St & Ht & Hfam & Hr).
    eexists. split; [|by split_and!].
    pose proof (fam_chain _ _ _ _ _ _ _ HF j Hj) as Hc. rewrite El in Hc. apply chain_app in Hc as [Hc1 Hc2].
    pose proof (fam_nodup _ _ _ _ _ _ _ HF j Hj) as Hn. pose proof Hn as Hn'. rewrite El in Hn.
    assert (Hel : ∀ y, y ∈ l1 ++ l2 → elt2 y).
    { intros y Hy. eapply (fam_elt _ _ _ _ _ _ _ HF j); [done|]. rewrite El. set_solver. }
    assert (Hnx : ∀ k : list (nat * nat), (∀ y, y ∈ k → y ∈ l1 ++ l2) → ∀ y, y ∈ k → jmp_slot y = nx_jmp y) by (intros k Hk y Hy; apply jmp_slot_nx, Hel, Hk, Hy).
    assert (Hfind : jmp_find (S (S (2 * length (tbs s)))) (SJmpNext tb n) tb n s = Ok (last_slot nx_jmp (SJmpFirst j) l1) s).
    { rewrite (jmp_find_run s _ _ (l2 ++ (j, 2%nat) :: l1)).
      - rewrite last_slot_app. change (jmp_slot (j, 2%nat)) with (SJmpFirst j). f_equal. apply last_slot_nx_ext, Hnx. set_solver.
      - apply chain_app. split; [|change (jmp_slot (j, 2%nat)) with (SJmpFirst j)];
          (eapply chain_nx_ext; [|done]); apply Hnx; set_solver.
      - apply NoDup_app in Hn as (_ & Hd & Hn). apply NoDup_cons in Hn as [Hn _]. intros [Hy|Hy]%elem_of_app; [done|].
        apply elem_of_cons in Hy as [[= _ ->]|Hy]; [|by apply (Hd _ Hy); left].
        assert (elt2 (tb, 2%nat)) as He by (eapply (fam_elt _ _ _ _ _ _ _ HF j); [done|by rewrite El; set_solver]). unfold elt2 in He. simpl in He. lia.
      - pose proof (elt2_length (js j) (length (tbs s)) Hn') as Hlen. rewrite El, !length_app in *. simpl in *.
        assert (length l1 + S (length l2) ≤ 2 * length (tbs s))%nat; [|lia]. apply Hlen.
        intros y Hy. split; [eapply (fam_elt _ _ _ _ _ _ _ HF j); [done|by rewrite El]|]. apply (Hb j); [done|by rewrite El]. }
    unfold tb_jmp_remove. mrun (ld_ok _ _ _ Hw). unfold list_fuel. rewrite bind_gets. mrun Hfind. mrun (ld_ok _ _ _ Hw).
    mrun (st_ok _ _ (Some w) S1). by apply st_ok.
  - exists s. specialize (Hnone Hno). split; [unfold tb_jmp_remove; by mrun (ld_ok _ _ _ Hnone)|]. split_and!; [by split|done| |done].
    eapply (fam_ext _ _ _ _ (λ i, i ∈ live)); [done| |exact HF]. intros k Hk. by apply drop_jump_other, Hno.
Qed.

(** The jumps of a list go back to their own exits. *)
Fixpoint reset_list (l : list (nat * nat)) s : tb_state Regs :=
  match l with
  | [] => s
  | x :: l' =>
      reset_list l' (wr (nx_jmp x) None
        (match tbs s !! x.1 with Some t => put_jump t x.2 (exit_of t x.2) s | None => s end))
  end.

Lemma put_jump_keeps s t n a : keeps s (put_jump t n a s).
Proof. by split. Qed.

(** The pointers behind the first one. *)
Definition chain_behind s (l : list (nat * nat)) (e : tbptr) : Prop :=
  match l with [] => True | x :: l' => chain nx_jmp (rd s) (nx_jmp x) l' e end.

Lemma reset_jumps_run s l tb fuel : tree_ok L1_MAP_ADDR_SPACE_BITS (l1_map s) →
  chain_behind s l (Some (tb, 2%nat)) → NoDup l → (∀ x, x ∈ l → elt2 x ∧ (x.1 < length (tbs s))%nat) →
  (length l < fuel)%nat → reset_jumps fuel (first_ptr l (Some (tb, 2%nat))) s = Ok () (reset_list l s).
Proof.
  revert fuel s. induction l as [|[i n] l IH]; intros fuel s Hok Hc Hn Hl Hf; (destruct fuel as [|fuel]; [simpl in Hf; lia|]);
    cbn [reset_jumps first_ptr].
  { by rewrite decide_True. }
  destruct (Hl (i, n)) as [He Hi]; [left|]. unfold elt2 in He. simpl in He, Hi. rewrite decide_False by lia.
  apply NoDup_cons in Hn as [Hx Hn]. simpl in Hc. pose proof (chain_first _ _ _ _ _ Hc) as Hw.
  mrun (ld_ok s (SJmpNext i n) _ Hw). destruct (lookup_lt_is_Some_2 _ _ Hi) as [t Ht]. mrun (reset_jump_ok _ _ _ _ Ht He).
  cbn [reset_list fst snd]. rewrite Ht. set (s1 := put_jump t n (exit_of t n) s).
  assert (Hs1 : is_Some (rd s1 (SJmpNext i n))) by (change (rd s1 (SJmpNext i n)) with (rd s (SJmpNext i n)); by eexists).
  mrun (st_ok s1 _ None Hs1). change (nx_jmp (i, n)) with (SJmpNext i n). set (s2 := wr (SJmpNext i n) None s1).
  assert (Hlen : length (tbs s2) = length (tbs s)) by (unfold s2, wr; simpl; by rewrite length_alter).
  apply IH; [by apply (wr_keeps s1)| |done| |simpl in Hf; lia].
  - destruct l as [|y l]; [done|]. destruct Hc as [_ Hc]. simpl. eapply chain_ext; [|exact Hc]. intros q Hq.
    unfold s2. rewrite rd_wr_ne; [done|done|done| |done|].
    + apply elem_of_cons in Hq as [->|Hq]; [done|]. by apply list_elem_of_fmap in Hq as (z & -> & _).
    + intros <-. change (SJmpNext i n) with (nx_jmp (i, n)) in Hq. rewrite <-fmap_cons in Hq.
      apply list_elem_of_fmap in Hq as (z & E & Hz). apply jump_nx_inj in E as <-; [done..|]. apply Hl. by right.
  - rewrite Hlen. intros y Hy. apply Hl. by right.
Qed.

(** What it leaves: the slots of the list null, the code of its jumps reset. *)
Record reset_step s s' (l : list (nat * nat)) : Prop := {
  rs_keeps : keeps s s';
  rs_aux : aux s' = aux s;
  rs_links : ∀ q, ¬ jump_slot q → rd s' q = rd s q;
  rs_jumps : ∀ q, jump_slot q → rd s' q = if decide (q ∈ nx_jmp <$> l) then Some None else rd s q;
  rs_code : ∀ a, (∀ x t, x ∈ l → data s x.1 = Some t → jump_site t x.2 ≠ a) → tc_code s' !! a = tc_code s !! a;
  rs_reset : ∀ x t, x ∈ l → data s x.1 = Some t →
    (∀ y u, y ∈ l → data s y.1 = Some u → jump_site u y.2 = jump_site t x.2 → y = x) →
    tc_code s' !! jump_site t x.2 = Some (jump_word (jump_site t x.2) (exit_of t x.2));
}.

Lemma reset_list_ok s l : tree_ok L1_MAP_ADDR_SPACE_BITS (l1_map s) → NoDup l →
  (∀ x, x ∈ l → elt2 x ∧ (x.1 < length (tbs s))%nat) → reset_step s (reset_list l s) l.
Proof.
  revert s. induction l as [|[i n] l IH]; intros s Hok Hn Hl.
  { split; simpl; try done. intros x t Hx. by apply not_elem_of_nil in Hx. }
  cbn [reset_list fst snd]. destruct (Hl (i, n)) as [He Hi]; [left|]. simpl in Hi.
  destruct (lookup_lt_is_Some_2 _ _ Hi) as [t Ht]. rewrite Ht. apply NoDup_cons in Hn as [Hx Hn].
  set (s1 := put_jump t n (exit_of t n) s). set (s2 := wr (nx_jmp (i, n)) None s1).
  assert (K2 : keeps s s2) by (etrans; [apply put_jump_keeps|by apply (wr_keeps s1)]).
  assert (Hs1 : is_Some (rd s1 (nx_jmp (i, n)))).
  { unfold rd. simpl. rewrite Ht. by apply get2_lt. }
  assert (Hlen : length (tbs s2) = length (tbs s)) by (unfold s2, wr; simpl; by rewrite length_alter).
  destruct (IH s2) as [K3 C3 L3 J3 D3 R3]; [by apply K2|done| |].
  { rewrite Hlen. intros y Hy. apply Hl. by right. }
  assert (Hcode : tc_code s2 = <[jump_site t n := jump_word (jump_site t n) (exit_of t n)]> (tc_code s)) by done.
  assert (Hdt : data s i = Some (tb_data t)) by (unfold data; by rewrite Ht).
  split.
  - by etrans.
  - by rewrite C3.
  - intros q Hq. rewrite L3 by done. destruct q; try done; unfold s2; by rewrite rd_wr_ne.
  - intros q Hq. rewrite J3 by done. rewrite fmap_cons. destruct (decide (q ∈ nx_jmp <$> l)) as [Hin|Hin].
    + by rewrite decide_True by (by right).
    + unfold s2. rewrite rd_wr_sym; [|done|done|by destruct q|done]. destruct (decide (q = nx_jmp (i, n))) as [->|Ne].
      * by rewrite decide_True by left.
      * rewrite decide_False; [done|]. by intros [?|?]%elem_of_cons.
  - intros a Ha. rewrite D3.
    + rewrite Hcode. apply lookup_insert_ne. apply (Ha (i, n) (tb_data t)); [left|done].
    + intros x u Hx' Hu. rewrite (k_data _ _ K2) in Hu. eapply Ha; [|done]. by right.
  - intros x u Hx' Hu Hdist. destruct (decide (x ∈ l)) as [Hxl|Hxl].
    + apply R3; [done|by rewrite (k_data _ _ K2)|]. intros y w Hy Hw. rewrite (k_data _ _ K2) in Hw. apply Hdist; [by right|done].
    + apply elem_of_cons in Hx' as [->|?]; [|done]. cbn [fst snd] in *. rewrite Hdt in Hu. injection Hu as <-. rewrite D3.
      * rewrite Hcode. by rewrite lookup_insert_eq.
      * intros y w Hy Hw E. rewrite (k_data _ _ K2) in Hw. apply Hxl. rewrite <-(Hdist y w); [done|by right|done|done].
Qed.

(** ** Both pages of a block *)

Lemma keeps_length s s' : keeps s s' → length (tbs s') = length (tbs s).
Proof.
  intros K. rewrite <-(length_fmap tb_data (tbs s')), <-(length_fmap tb_data (tbs s)). f_equal.
  apply list_eq. intros i. rewrite !list_lookup_fmap. apply (k_data _ _ K).
Qed.

Lemma drop_first_other tb (l : list (nat * nat)) x y : NoDup l → x ∈ l → y ∈ l → x ≠ y → x.1 = tb → y.1 = tb →
  ∃ z, z ∈ drop_first tb l ∧ z.1 = tb.
Proof.
  intros Hn Hx Hy Hxy Ex Ey. destruct (drop_first_split tb l) as (l1 & z & l2 & -> & Ez & _ & ->); [by exists x|].
  destruct (decide (x = z)) as [->|Ne]; [exists y|exists x]; set_solver.
Qed.

(** The pointers to a block that a page holds. *)
Definition tb_ptrs tb (t : TranslationBlock) (index : Z) : list (nat * nat) :=
  (if decide (Z.shiftr (page_addr t).1 TARGET_PAGE_BITS = index) then [(tb, O)] else []) ++
  (if decide ((page_addr t).2 ≠ NO_PAGE ∧ Z.shiftr (page_addr t).2 TARGET_PAGE_BITS = index) then [(tb, 1%nat)] else []).

Lemma page_ptrs s v tb t index : listed s v → page_family s (v_page v) → page_dom s index → data s tb = Some t →
  (length (filter (λ x, x.1 = tb) (v_page v index)) ≤ length (tb_ptrs tb t index))%nat.
Proof.
  intros HL HF Hd Ht. apply submseteq_length, NoDup_submseteq.
  - apply NoDup_filter. by apply HF.
  - intros [i n] Hx. apply list_elem_of_filter in Hx as [E Hx]. simpl in E. subst i.
    apply (li_page _ _ HL index tb n Hd) in Hx as (_ & u & Hu & a & Ha & Hna & Hidx). rewrite Ht in Hu. injection Hu as <-.
    unfold tb_ptrs. destruct n as [|[|n]]; simpl in Ha; simplify_eq.
    + rewrite decide_True by done. left.
    + rewrite (decide_True (P:=_ ∧ _)) by done. apply elem_of_app. right. left.
Qed.

Definition unlink_pages tb (t : TranslationBlock) : TBM Regs () :=
  unlink_page tb (page_addr t).1;;
  if decide ((page_addr t).2 = NO_PAGE) then mret () else unlink_page tb (page_addr t).2.

Lemma page_length s v index : listed s v → page_family s (v_page v) → page_dom s index → (length (v_page v index) < 2 + 2 * length (tbs s))%nat.
Proof.
  intros HL HF Hd. pose proof (elt2_length (v_page v index) (length (tbs s))) as Hl. apply Nat.lt_succ_r, (Nat.le_le_succ_r _ _).
  apply Hl; [by apply HF|]. intros [i n] Hx. split; [by apply (fam_elt _ _ _ _ _ _ _ HF index)|].
  apply (li_page _ _ HL index i n Hd) in Hx as (_ & t & Ht & _). unfold data in Ht. apply fmap_Some in Ht as (u & Hu & _).
  by apply lookup_lt_Some in Hu.
Qed.

Lemma drop_iter_not tb k l : filter (not_tb tb) (Nat.iter k (drop_first tb) l) = filter (not_tb tb) l.
Proof. induction k as [|k IH]; [done|]. simpl. by rewrite drop_first_not. Qed.

Lemma drop_iter_is tb k l : filter (λ x, x.1 = tb) (Nat.iter k (drop_first tb) l) = drop k (filter (λ x, x.1 = tb) l).
Proof.
  induction k as [|k IH]; [done|]. simpl. rewrite drop_first_is, IH.
  generalize (filter (λ x : nat * nat, x.1 = tb) l). clear. intros l. revert k. induction l as [|x l IH]; intros [|k]; simpl; [done..|apply IH].
Qed.

Lemma drop_all s v tb t index : listed s v → page_family s (v_page v) → page_dom s index → data s tb = Some t →
  Nat.iter (length (tb_ptrs tb t index)) (drop_first tb) (v_page v index) = filter (not_tb tb) (v_page v index).
Proof.
  intros HL HF Hd Ht. rewrite <-(drop_iter_not tb (length (tb_ptrs tb t index))). symmetry. apply filter_none. rewrite drop_iter_is.
  apply drop_ge. by eapply page_ptrs.
Qed.

Lemma unlink_pages_ok s v tb t : tree_ok L1_MAP_ADDR_SPACE_BITS (l1_map s) → listed s v → page_family s (v_page v) → tb ∈ v_live v → data s tb = Some t →
  ∃ s', unlink_pages tb t s = Ok () s' ∧ keeps s s' ∧ tc_code s' = tc_code s ∧ aux s' = aux s ∧
    page_family s' (λ index, filter (not_tb tb) (v_page v index)) ∧ (∀ q, ¬ page_slot q → rd s' q = rd s q) ∧
    ∀ n index, on_page t n index → bm_at s' index = None.
Proof.
  intros Hok HL HF Hlive Ht.
  set (i0 := Z.shiftr (page_addr t).1 TARGET_PAGE_BITS).
  assert (O0 : on_page t 0 i0) by (exists (page_addr t).1; split_and!; [done|by eapply li_page0|done]).
  assert (D0 : page_dom s i0) by (by eapply li_page_ok).
  assert (X0 : (tb, O) ∈ v_page v i0) by (apply (li_page _ _ HL); eauto).
  destruct (unlink_page_ok s (v_page v) tb (page_addr t).1) as (s1 & E1 & K1 & C1 & U1 & F1 & R1 & M1);
    [done|done|done|by exists (tb, O)|by apply page_length|]. fold i0 in F1, M1.
  assert (Hon : ∀ n k, on_page t n k → n = 0%nat ∧ k = i0 ∨ n = 1%nat ∧ k = Z.shiftr (page_addr t).2 TARGET_PAGE_BITS ∧ (page_addr t).2 ≠ NO_PAGE).
  { intros n k (a & Ha & Hne & Hk). destruct n as [|[|n]]; simpl in Ha; [left|right|done]; by simplify_eq. }
  unfold unlink_pages. rewrite (bind_Ok _ _ _ _ _ E1). destruct (decide ((page_addr t).2 = NO_PAGE)) as [N|N].
  - exists s1. split_and!; try done; [|by intros n k [[-> ->]|(-> & -> & ?)]%Hon]. eapply (fam_ext _ _ _ _ (page_dom s1)); [done| |exact F1]. intros k [Hk Hk'].
    apply (k_pages _ _ K1) in Hk'. rewrite <-(drop_all s v tb t k) by done. unfold tb_ptrs. fold i0.
    rewrite (decide_False (P:=_ ∧ _)) by naive_solver. case_decide; simplify_eq; simpl;
      by rewrite ?fn_lookup_insert, ?fn_lookup_insert_ne by done.
  - set (i1 := Z.shiftr (page_addr t).2 TARGET_PAGE_BITS) in *.
    assert (O1 : on_page t 1 i1) by (by exists (page_addr t).2).
    assert (D1 : page_dom s i1) by (by eapply li_page_ok).
    assert (X1 : (tb, 1%nat) ∈ v_page v i1) by (apply (li_page _ _ HL); eauto).
    set (pg1 := <[i0 := drop_first tb (v_page v i0)]> (v_page v)) in *.
    assert (Hx : ∃ x, x ∈ pg1 i1 ∧ x.1 = tb).
    { unfold pg1. destruct (decide (i0 = i1)) as [E|Ne]; [|rewrite fn_lookup_insert_ne by done; by exists (tb, 1%nat)].
      rewrite <-E, fn_lookup_insert. rewrite <-E in X1. eapply (drop_first_other tb _ (tb, O) (tb, 1%nat)); try done. by apply HF. }
    assert (Hlen : (length (pg1 i1) < 2 + 2 * length (tbs s1))%nat).
    { rewrite (keeps_length _ _ K1). eapply Nat.le_lt_trans; [|by apply (page_length s v i1)]. unfold pg1.
      destruct (decide (i0 = i1)) as [<-|Ne]; [rewrite fn_lookup_insert|by rewrite fn_lookup_insert_ne].
      destruct (drop_first_split tb (v_page v i0)) as (l1 & x & l2 & -> & _ & _ & ->); [by exists (tb, O)|]. rewrite !length_app. simpl. lia. }
    destruct (unlink_page_ok s1 pg1 tb (page_addr t).2) as (s2 & E2 & K2 & C2 & U2 & F2 & R2 & M2);
      [by apply K1|done|by split; [apply D1|apply K1, D1]|done|done|].
    exists s2. split_and!; [done|by etrans|congruence|congruence| |intros q Hq; by rewrite R2, R1|].
    2: { intros n k [[-> ->]|(-> & -> & _)]%Hon; [|exact M2]. destruct (bm_at s2 i0) as [bm|] eqn:Eb; [|done].
         apply (k_bitmap _ _ K2) in Eb; [congruence|apply D0]. }
    eapply (fam_ext _ _ _ _ (page_dom s2)); [done| |exact F2]. intros k [Hk Hk']. apply (k_pages _ _ K2), (k_pages _ _ K1) in Hk'.
    rewrite <-(drop_all s v tb t k) by done. unfold tb_ptrs, pg1. fold i0 i1. destruct (decide (i0 = k)) as [<-|N0].
    + destruct (decide (i1 = i0)) as [E|N1].
      * rewrite decide_True, E, !fn_lookup_insert by done. done.
      * rewrite decide_False, fn_lookup_insert_ne, fn_lookup_insert by naive_solver. done.
    + destruct (decide (i1 = k)) as [<-|N1].
      * rewrite decide_True, fn_lookup_insert, fn_lookup_insert_ne by done. done.
      * rewrite decide_False, !fn_lookup_insert_ne by naive_solver. done.
Qed.

(** ** All jumps of a block and to it *)

Lemma sites_inj s live i j t u n m : layout s live → i ∈ live → j ∈ live → data s i = Some t → data s j = Some u →
  has_jump t n → has_jump u m → jump_site t n = jump_site u m → (i, n) = (j, m).
Proof.
  intros HL Hi Hj Ht Hu Hn Hm E. destruct (lay_site _ _ HL i t n Hi Ht Hn) as (A1 & _ & B1), (lay_site _ _ HL j u m Hj Hu Hm) as (A2 & _ & B2).
  pose proof (lay_live _ _ HL i Hi). pose proof (lay_live _ _ HL j Hj).
  destruct (lt_eq_lt_dec i j) as [[Hlt|<-]|Hlt]; [specialize (B1 j u Hlt ltac:(done) Hu); lia| |specialize (B2 i t Hlt ltac:(done) Ht); lia].
  rewrite Ht in Hu. injection Hu as <-. f_equal.
  assert (Hn2 : (n < 2)%nat) by (destruct Hn as (o & Ho & _), n as [|[|n]]; simpl in Ho; [lia..|done]).
  assert (Hm2 : (m < 2)%nat) by (destruct Hm as (o & Ho & _), m as [|[|m]]; simpl in Ho; [lia..|done]).
  pose proof (lay_two _ _ HL i t Hi Ht) as Htwo. destruct n as [|[|n]], m as [|[|m]]; try lia.
  - specialize (Htwo Hn Hm). lia.
  - specialize (Htwo Hm Hn). lia.
Qed.

Definition unchain tb (fuel : nat) : TBM Regs () :=
  tb_jmp_remove tb 0;; tb_jmp_remove tb 1;;
  f ← ld (SJmpFirst tb); reset_jumps fuel f;; st (SJmpFirst tb) (Some (tb, 2%nat)).

Record unchain_step s s' v tb : Prop := {
  us_keeps : keeps s s';
  us_aux : aux s' = aux s;
  us_links : ∀ q, ¬ jump_slot q → rd s' q = rd s q;
  us_family : jump_family s' (v_live v ∖ {[tb]}) (v_jumps (remove_view tb v));
  us_chained : chained s' (remove_view tb v);
  us_dead : ∀ n, (n < 2)%nat → rd s' (SJmpNext tb n) = Some None;
}.

(** The state between the removal of the block's own jumps and of the jumps to it. *)
Record own_removed s s' v tb : Prop := {
  or_keeps : keeps s s';
  or_aux : aux s' = aux s;
  or_code : tc_code s' = tc_code s;
  or_links : ∀ q, ¬ jump_slot q → rd s' q = rd s q;
  or_family : jump_family s' (v_live v) (λ j, filter (not_tb tb) (v_jumps v j));
  or_free : ∀ i n, i ∈ v_live v → (n < 2)%nat → (∀ j, j ∈ v_live v → (i, n) ∉ filter (not_tb tb) (v_jumps v j)) →
    rd s' (SJmpNext i n) = Some None;
}.

Lemma jumps_bound s v : chained s v → ∀ j x, j ∈ v_live v → x ∈ v_jumps v j → (x.1 < length (tbs s))%nat.
Proof.
  intros HC j x Hj Hx. destruct (ch_from _ _ HC j x Hj Hx) as (_ & t & Ht & _). unfold data in Ht.
  apply fmap_Some in Ht as (u & Hu & _). by apply lookup_lt_Some in Hu.
Qed.

Lemma remove_own_ok s v tb : tree_ok L1_MAP_ADDR_SPACE_BITS (l1_map s) → jump_family s (v_live v) (v_jumps v) → chained s v →
  tb ∈ v_live v → ∃ s', (tb_jmp_remove tb 0;; tb_jmp_remove tb 1) s = Ok () s' ∧ own_removed s s' v tb.
Proof.
  intros Hok HF HC Hl.
  destruct (tb_jmp_remove_ok s (v_live v) (v_jumps v) tb 0) as (sa & Ea & [Ka Ua La Fa] & Ca & FFa & Na);
    [done|done|intros; apply HC; [done|lia|done]|by apply jumps_bound|].
  set (ja := λ k, filter (λ y, y ≠ (tb, 0%nat)) (v_jumps v k)) in *.
  destruct (tb_jmp_remove_ok sa (v_live v) ja tb 1) as (sb & Eb & [Kb Ub Lb Fb] & Cb & FFb & Nb); [by apply Ka|done|..].
  { intros Hno. rewrite Fa; [apply HC; [done|lia|]|lia|];
      intros j Hj Hx; apply (Hno j Hj); apply list_elem_of_filter; by split. }
  { intros j x Hj Hx. rewrite (keeps_length _ _ Ka). apply list_elem_of_filter in Hx as [_ Hx]. by eapply jumps_bound. }
  exists sb. split; [by rewrite (bind_Ok _ _ _ _ _ Ea)|].
  assert (Hls : ∀ j, j ∈ v_live v → filter (not_tb tb) (v_jumps v j) = filter (λ y, y ≠ (tb, 1%nat)) (ja j)).
  { intros j Hj. unfold ja. rewrite list_filter_filter. apply filter_iff_in. intros [i n] Hx.
    pose proof (fam_elt _ _ _ _ _ _ _ HF j _ Hj Hx) as He. unfold elt2, not_tb in *. simpl in *.
    split; [intros Hi; split; congruence|]. intros [H1 H2] ->. destruct n as [|[|n]]; [done|done|lia]. }
  split; [by etrans|congruence|congruence|intros q Hq; by rewrite Lb, La| |].
  - eapply (fam_ext _ _ _ _ (λ i, i ∈ v_live v)); [done|exact Hls|exact FFb].
  - intros i n Hi Hn Hno. destruct (decide (i = tb)) as [->|Ne].
    + destruct n as [|[|n]]; [|done|lia]. rewrite Fb; [done|lia|].
      intros j Hj Hx. by apply list_elem_of_filter in Hx as [Hx _].
    + assert (Hno' : ∀ j, j ∈ v_live v → (i, n) ∉ v_jumps v j).
      { intros j Hj Hx. apply (Hno j Hj). by apply list_elem_of_filter. }
      rewrite Fb, Fa; [by apply HC|done|done|done|].
      intros j Hj Hx. apply list_elem_of_filter in Hx as [_ Hx]. by apply (Hno' j).
Qed.

(** The jumps to the block are reset: what is known of the final state. *)
Lemma reset_chained s s1 s2 v tb : layout s (v_live v) → chained s v → tb ∈ v_live v → own_removed s s1 v tb →
  reset_step s1 s2 (filter (not_tb tb) (v_jumps v tb)) → jump_family s (v_live v) (v_jumps v) → chained s2 (remove_view tb v).
Proof.
  intros HL HC Hl [K1 U1 C1 L1 F1 N1] [K2 U2 L2 J2 D2 R2] HF. set (l := filter (not_tb tb) (v_jumps v tb)) in *.
  assert (Hdat : ∀ i, data s2 i = data s i) by (intros i; by rewrite (k_data _ _ K2), (k_data _ _ K1)).
  assert (Hlx : ∀ x, x ∈ l → x.1 ∈ v_live v ∧ ∃ t, data s x.1 = Some t ∧ has_jump t x.2).
  { intros x Hx. apply list_elem_of_filter in Hx as [_ Hx]. by apply (ch_from _ _ HC tb). }
  assert (Hsite : ∀ x t y u, x ∈ l → data s1 x.1 = Some t → y.1 ∈ v_live v → data s y.1 = Some u → has_jump u y.2 →
    jump_site t x.2 = jump_site u y.2 → x = y).
  { intros [a n] t [b m] u Hx Ht Hy Hu Hm E. destruct (Hlx _ Hx) as (Ha & t' & Ht' & Hn). simpl in *.
    rewrite (k_data _ _ K1), Ht' in Ht. injection Ht as <-. by eapply (sites_inj s). }
  assert (Hkeep : ∀ i t n, i ∈ v_live v → data s i = Some t → has_jump t n → (i, n) ∉ l → tc_code s2 !! jump_site t n = tc_code s !! jump_site t n).
  { intros i t n Hi Ht Hn Hnl. rewrite D2, C1; [done|]. intros x u Hx Hu E. apply Hnl. by rewrite <-(Hsite x u (i, n) t). }
  split; simpl.
  - intros j x Hj Hx. rewrite decide_False in Hx by set_solver. apply list_elem_of_filter in Hx as [Hx1 Hx].
    destruct (ch_from _ _ HC j x) as (Hlive & Ht); [set_solver|done|]. unfold not_tb in Hx1. rewrite Hdat. split; [set_solver|done].
  - intros i n Hi Hn Hno. rewrite J2 by done. case_decide as Hin; [done|]. apply N1; [set_solver|done|].
    intros j Hj Hx. destruct (decide (j = tb)) as [->|Ne].
    + apply Hin. apply list_elem_of_fmap. by exists (i, n).
    + apply (Hno j); [set_solver|]. by rewrite decide_False.
  - intros i t n Hi Ht Hn Hno. rewrite Hdat in Ht. destruct (decide ((i, n) ∈ l)) as [Hin|Hin].
    + apply (R2 (i, n)); [done|by rewrite (k_data _ _ K1)|]. intros y u Hy Hu E. by apply (Hsite y u (i, n) t); [..|set_solver|done|done|].
    + rewrite (Hkeep i t n); [|set_solver|done..]. apply (ch_exit _ _ HC i t n); [set_solver|done..|]. intros j Hj Hx. destruct (decide (j = tb)) as [->|Ne].
      * apply Hin. apply list_elem_of_filter. split; [|done]. unfold not_tb. simpl. set_solver.
      * apply (Hno j); [set_solver|]. rewrite decide_False by done. apply list_elem_of_filter. split; [|done]. unfold not_tb. simpl. set_solver.
  - intros i j t u n Hj Hx Ht Hu. rewrite Hdat in Ht, Hu. rewrite decide_False in Hx by set_solver. apply list_elem_of_filter in Hx as [Hx1 Hx].
    destruct (ch_from _ _ HC j (i, n)) as (Hlive & t' & Ht' & Hn); [set_solver|done|]. simpl in *. rewrite Ht in Ht'. injection Ht' as <-.
    rewrite (Hkeep i t n); [apply (ch_jump _ _ HC i j); [set_solver|done..]|done..|].
    intros Hin. apply list_elem_of_filter in Hin as [_ Hin]. assert (tb = j) as ->; [|set_solver].
    apply (fam_apart _ _ _ _ _ _ _ HF tb j (i, n)); [done|set_solver|done|done].
Qed.

Lemma unchain_ok s v tb fuel : tree_ok L1_MAP_ADDR_SPACE_BITS (l1_map s) → layout s (v_live v) →
  jump_family s (v_live v) (v_jumps v) → chained s v → tb ∈ v_live v → (2 * length (tbs s) < fuel)%nat →
  ∃ s', unchain tb fuel s = Ok () s' ∧ unchain_step s s' v tb.
Proof.
  intros Hok HL HF HC Hl Hf. destruct (remove_own_ok s v tb Hok HF HC Hl) as (s1 & E1 & O1). pose proof O1 as [K1 U1 C1 L1 F1 N1].
  set (l := filter (not_tb tb) (v_jumps v tb)). pose proof (fam_chain _ _ _ _ _ _ _ F1 tb Hl) as Hc. cbn beta in Hc. fold l in Hc.
  assert (Hnl : NoDup l) by apply (fam_nodup _ _ _ _ _ _ _ F1 tb Hl).
  assert (Hlx : ∀ x, x ∈ l → elt2 x ∧ (x.1 < length (tbs s1))%nat).
  { intros x Hx. split; [by apply (fam_elt _ _ _ _ _ _ _ F1 tb)|]. rewrite (keeps_length _ _ K1).
    apply list_elem_of_filter in Hx as [_ Hx]. by eapply jumps_bound. }
  assert (Hlen : (length l < fuel)%nat).
  { pose proof (elt2_length l _ Hnl Hlx) as Hle. rewrite (keeps_length _ _ K1) in Hle. lia. }
  assert (Hrun : reset_jumps fuel (first_ptr l (Some (tb, 2%nat))) s1 = Ok () (reset_list l s1)).
  { apply reset_jumps_run; [by apply K1| |done..]. destruct l as [|x l']; [done|]. by destruct Hc as [_ Hc]. }
  pose proof (reset_list_ok s1 l ltac:(by apply K1) Hnl Hlx) as RS. pose proof RS as [K2 U2 L2 J2 D2 R2]. set (s2 := reset_list l s1) in *.
  assert (Hfirst : ∀ j, j ∈ v_live v → rd s2 (SJmpFirst j) = rd s1 (SJmpFirst j)).
  { intros j _. rewrite J2 by done. rewrite decide_False; [done|]. by intros (x & ? & _)%list_elem_of_fmap. }
  assert (Hs2 : is_Some (rd s2 (SJmpFirst tb))) by (rewrite Hfirst, (chain_first _ _ _ _ _ Hc) by done; eauto).
  assert (Hok2 : tree_ok L1_MAP_ADDR_SPACE_BITS (l1_map s2)) by (by apply K2, K1).
  exists (wr (SJmpFirst tb) (Some (tb, 2%nat)) s2). split.
  { unfold unchain. rewrite <-bind_assoc, (bind_Ok _ _ _ _ _ E1). mrun (ld_ok _ _ _ (chain_first _ _ _ _ _ Hc)). mrun Hrun. by apply st_ok. }
  pose proof (wr_keeps s2 (SJmpFirst tb) (Some (tb, 2%nat)) Hok2) as K3.
  pose proof (reset_chained s s1 s2 v tb HL HC Hl O1 RS HF) as [A1 A2 A3 A4].
  split.
  - etrans; [exact K1|]. by etrans.
  - change (aux (wr _ _ s2)) with (aux s2). congruence.
  - intros q Hq. rewrite <-L1, <-L2 by done. destruct q; try done; by rewrite rd_wr_ne.
  - eapply fam_frame_used; [| |eapply (fam_ext _ _ _ _ (λ i, i ∈ v_live v)); [| |exact F1]].
    + intros j Hj. rewrite rd_wr_ne by (try done; set_solver). apply Hfirst. set_solver.
    + intros j x Hj Hx. simpl in Hx. rewrite decide_False in Hx by set_solver. rewrite rd_wr_ne by done. rewrite J2, decide_False; [done| |done].
      intros (y & E & Hy)%list_elem_of_fmap. apply jump_nx_inj in E as <-; [|eapply (fam_elt _ _ _ _ _ _ _ F1 j); [set_solver|done]|by apply Hlx].
      assert (j = tb); [|set_solver]. eapply (fam_apart _ _ _ _ _ _ _ F1 j tb); [set_solver|done..].
    + set_solver.
    + intros j Hj. simpl. by rewrite decide_False by set_solver.
  - split.
    + intros j x Hj Hx. rewrite (k_data _ _ K3). by apply (A1 j).
    + intros i n Hi Hn Hno. rewrite rd_wr_ne by done. by apply A2.
    + intros i t n. rewrite (k_data _ _ K3). change (tc_code (wr _ _ s2)) with (tc_code s2). apply A3.
    + intros i j t u n. rewrite !(k_data _ _ K3). change (tc_code (wr _ _ s2)) with (tc_code s2). apply A4.
  - intros n Hn. rewrite rd_wr_ne by done. rewrite J2, decide_False; [|by intros ([a b] & [= <- <-] & Hx%list_elem_of_filter)%list_elem_of_fmap; destruct Hx as [Hx _]|done].
    apply N1; [done..|]. intros j _ Hx. by apply list_elem_of_filter in Hx as [Hx _].
Qed.

(** ** The whole operation *)

Lemma listed_keeps s s' v : keeps s s' → tb_jmp_cache (tb_cpu s') = tb_jmp_cache (tb_cpu s) → listed s v → listed s' v.
Proof.
  intros K U [A B C N D F]. assert (Hp : ∀ k, page_dom s' k ↔ page_dom s k) by (intros k; unfold page_dom; by rewrite (k_pages _ _ K)).
  split; try setoid_rewrite (k_data _ _ K); [done| | | |done|by rewrite U].
  - intros index i n Hd. apply Hp in Hd. by apply B.
  - intros i t n index Hi Ht Ho. apply Hp. by eapply C.
  - intros index Hi. rewrite (k_pages _ _ K). by apply N.
Qed.

Lemma layout_keeps s s' live live' : keeps s s' → live' ⊆ live → layout s live → layout s' live'.
Proof.
  intros K Hs [A B C D F G I J L]. pose proof (k_rest _ _ K) as R. unfold rest in R. injection R as Rnb Rmax Rbuf _ _ Rptr _ _ _ _ _.
  split; rewrite ?Rnb, ?Rmax, ?Rbuf, ?Rptr, ?(keeps_length _ _ K); try setoid_rewrite (k_data _ _ K); try done.
  - intros i Hi. by apply C, Hs.
  - intros i t n Hi. by apply G, Hs.
  - intros i t Hi. by apply I, Hs.
Qed.

Lemma chained_keeps s s' v : keeps s s' → tc_code s' = tc_code s → (∀ q, jump_slot q → rd s' q = rd s q) → chained s v → chained s' v.
Proof.
  intros K C J [A B D F]. split; try setoid_rewrite (k_data _ _ K); rewrite ?C; try done. intros i n Hi Hn Hno. rewrite J by done. by apply B.
Qed.

Lemma keeps_ram s s' : keeps s s' → tb_ram s' = tb_ram s.
Proof. intros K. pose proof (k_rest _ _ K) as R. unfold rest in R. by injection R as _ _ _ _ _ _ _ R _ _ _. Qed.

Lemma guarded_keeps s s' v v' : keeps s s' → (∀ index, v_page v index = [] → v_page v' index = []) → guarded s v → guarded s' v'.
Proof.
  intros K Hv HG index [Hi He] Hn. rewrite (keeps_ram _ _ K). apply HG; [|by auto]. split; [done|]. by apply K.
Qed.

(** The entry for the block leaves the cache of virtual addresses. *)
Definition uncache tb (t : TranslationBlock) (c : CPUState Regs) : CPUState Regs :=
  let h := tb_jmp_cache_hash_func (tb_pc t) in
  if decide (tb_jmp_cache c !! h = Some tb) then set_tb_jmp_cache (delete h (tb_jmp_cache c)) c else c.

Lemma uncached s v tb t : listed s v → data s tb = Some (tb_data t) → ∀ h i,
  tb_jmp_cache (uncache tb t (tb_cpu s)) !! h = Some i → i ≠ tb ∧ tb_jmp_cache (tb_cpu s) !! h = Some i.
Proof.
  intros HL Ht h i. unfold uncache. intros Hh.
  assert (Hi : tb_jmp_cache (tb_cpu s) !! h = Some i).
  { case_decide; simpl in Hh; [|done]. by apply lookup_delete_Some in Hh as [_ Hh]. }
  split; [|done]. intros ->. destruct (li_cache _ _ HL h tb Hi) as (_ & u & Hu & Eh). rewrite Ht in Hu. injection Hu as <-.
  change (tb_pc (tb_data t)) with (tb_pc t) in Eh. rewrite Eh in Hh. rewrite decide_True in Hh by done. simpl in Hh.
  by rewrite lookup_delete_eq in Hh.
Qed.

Lemma listed_removed s s' v tb t : keeps s s' → data s tb = Some (tb_data t) → tb_jmp_cache (tb_cpu s') = tb_jmp_cache (uncache tb t (tb_cpu s)) →
  listed s v → listed s' (remove_view tb v).
Proof.
  intros K Ht U HL. pose proof (uncached s v tb t HL Ht) as Hc. destruct HL as [A B C N D F].
  assert (Hp : ∀ k, page_dom s' k ↔ page_dom s k) by (intros k; unfold page_dom; by rewrite (k_pages _ _ K)).
  split; try setoid_rewrite (k_data _ _ K); simpl.
  - intros h i. rewrite list_elem_of_filter, A. set_solver.
  - intros index i n Hd. apply Hp in Hd. rewrite list_elem_of_filter, B by done. unfold not_tb. simpl. set_solver.
  - intros i u n index Hi Hu Ho. apply Hp. apply (C i u n); [set_solver|done..].
  - intros index Hi. rewrite (k_pages _ _ K). intros Hn. by rewrite N.
  - intros i u Hi. apply D. set_solver.
  - intros h i Hi. rewrite U in Hi. destruct (Hc h i Hi) as [Ne Hi']. destruct (F h i Hi') as [Hl Hx]. set_solver.
Qed.

Lemma hash_length s v h : cache_inv s v → (length (v_hash v h) ≤ length (tbs s))%nat.
Proof.
  intros HI. transitivity (length (seq 0 (length (tbs s)))); [|by rewrite length_seq]. apply submseteq_length, NoDup_submseteq.
  - pose proof (fam_nodup _ _ _ _ _ _ _ (ci_hash _ _ HI) h I) as Hn. by apply NoDup_fmap_1 in Hn.
  - intros i Hi. apply (li_hash _ _ (ci_listed _ _ HI)) in Hi as (_ & t & Ht & _). unfold data in Ht.
    apply fmap_Some in Ht as (u & Hu & _). apply lookup_lt_Some in Hu. apply elem_of_seq. lia.
Qed.

(** What invalidation leaves. *)
Record invalidated s s' v tb : Prop := {
  iv_inv : cache_inv s' (remove_view tb v);
  iv_keeps : keeps s s';
  iv_flag : tb_invalidated_flag s' = true;
  iv_dead : ∀ n, (n < 2)%nat → rd s' (SJmpNext tb n) = Some None;
  iv_cache : tb_jmp_cache (tb_cpu s') ⊆ tb_jmp_cache (tb_cpu s);
  iv_bitmap : ∀ t n index, data s tb = Some t → on_page t n index → bm_at s' index = None;
}.

Lemma tb_phys_invalidate_ok s v tb : cache_inv s v → tb ∈ v_live v →
  ∃ s', tb_phys_invalidate tb NO_PAGE s = Ok () s' ∧ invalidated s s' v tb.
Proof.
  intros HI Hl. pose proof HI as [Hok HLa HLi HH HP HJ HC HR HG].
  assert (Ht : ∃ t, tbs s !! tb = Some t).
  { apply lookup_lt_is_Some_2. pose proof (lay_live _ _ HLa tb Hl). pose proof (lay_nb _ _ HLa). pose proof (lay_len _ _ HLa). lia. }
  remember (S (S (2 * length (tbs s)))) as F eqn:EF.
  destruct Ht as [t Ht]. assert (Hd : data s tb = Some (tb_data t)) by (unfold data; by rewrite Ht).
  destruct (unlink_hash_ok s (v_hash v) (hash_key t) tb F) as (s1 & E1 & K1 & C1 & U1 & F1 & R1); [done|done| | | |].
  { apply (li_hash _ _ HLi). split; [done|]. by exists (tb_data t). }
  { intros k Hk Hx. apply (li_hash _ _ HLi) in Hx as (_ & u & Hu & Hk'). rewrite Hd in Hu. injection Hu as <-. by apply Hk. }
  { pose proof (hash_length s v (hash_key t) HI). lia. }
  assert (R1p : ∀ q, page_slot q → slot_ok q → rd s1 q = rd s q) by (intros q Hq Hqo; apply R1; [destruct q; simpl in *; tauto|done]).
  destruct (unlink_pages_ok s1 v tb (tb_data t)) as (s2 & E2 & K2 & C2 & U2 & F2 & R2 & M2);
    [by apply K1|by eapply listed_keeps; [..|exact HLi]; [done|injection U1 as _ _ ->]|by eapply page_frame; [exact R1p|apply K1|]|done|by rewrite (k_data _ _ K1)|].
  set (s3 := set_tb_cpu (uncache tb t (tb_cpu s2)) (set_tb_invalidated_flag true s2)).
  assert (Hrest : rest s3 = rest s2) by (unfold rest, s3, uncache; simpl; case_decide; done).
  assert (K3 : keeps s2 s3) by (by split; try done).
  assert (K03 : keeps s s3) by (etrans; [exact K1|]; by etrans).
  assert (R3 : ∀ q, jump_slot q → rd s3 q = rd s q) by (intros q Hq; change (rd s3 q) with (rd s2 q); rewrite R2, R1; destruct q; simpl in *; tauto).
  destruct (unchain_ok s3 v tb F) as (s4 & E4 & [K4 U4 L4 F4 C4 D4]).
  { by apply K03. } { by eapply layout_keeps. } { by eapply jump_frame. } { eapply chained_keeps; [done|..|done|done]. change (tc_code s3) with (tc_code s2). congruence. }
  { done. } { rewrite (keeps_length _ _ K03). lia. }
  assert (K04 : keeps s s4) by (by etrans).
  set (s5 := set_tb_phys_invalidate_count (int32 (tb_phys_invalidate_count s4 + 1)) s4).
  exists s5. split.
  - unfold unlink_pages in E2. apply bind_inv_Ok in E2 as (? & s12 & E2a & E2b).
    unfold tb_phys_invalidate, list_fuel. rewrite (bind_Ok _ _ _ _ _ (tb_at_ok _ _ _ Ht)), bind_gets, <-EF. mrun E1.
    change (page_addr (tb_data t)) with (page_addr t) in *.
    rewrite (decide_False (P:=(page_addr t).1 = NO_PAGE)) by (exact (li_page0 _ _ HLi tb (tb_data t) Hl Hd)). mrun E2a.
    assert (Hn : ∀ P : Prop, (P ∨ P) ↔ P) by tauto.
    rewrite (decide_ext _ _ _ _ (Hn _)). mrun E2b. rewrite bind_modify. unfold upd_cpu. rewrite bind_modify.
    unfold unchain in E4. rewrite <-!bind_assoc in E4. rewrite <-!bind_assoc. by rewrite (bind_Ok _ _ _ _ _ E4).
  - assert (K5 : keeps s4 s5) by (by split). assert (K05 : keeps s s5) by (by etrans).
    assert (Hc5 : tb_cpu s5 = uncache tb t (tb_cpu s)) by (injection U4 as _ _ E; change (tb_cpu s5) with (tb_cpu s4); rewrite E; unfold s3; simpl; unfold aux in *; congruence).
    assert (R4 : ∀ q, ¬ jump_slot q → rd s5 q = rd s2 q) by (intros q Hq; change (rd s5 q) with (rd s4 q); by rewrite L4).
    split; [|done|..].
    + split; simpl.
      * by apply K05.
      * eapply layout_keeps; [done| |done]. set_solver.
      * eapply listed_removed; [done|done|by rewrite Hc5|done].
      * eapply hash_frame; [|exact F1]. intros q Hq. rewrite R4, R2; destruct q; simpl in *; tauto.
      * eapply page_frame; [..|exact F2]; [intros q Hq _; apply R4; destruct q; simpl in *; tauto|].
        intros k. rewrite (k_pages _ _ K5), (k_pages _ _ K4). apply K3.
      * eapply jump_frame; [|exact F4]. done.
      * eapply chained_keeps; [exact K5|done|done|exact C4].
      * change (ram_ok (tb_ram s5)). by rewrite (keeps_ram _ _ K05).
      * eapply guarded_keeps; [done| |done]. intros index E. simpl. by rewrite E.
    + change (tb_invalidated_flag s5) with (tb_invalidated_flag s4). by injection U4 as -> _ _.
    + exact D4.
    + rewrite Hc5. unfold uncache. case_decide; [apply delete_subseteq|done].
    + intros u n k Hu Hon. rewrite Hd in Hu. injection Hu as <-. destruct (bm_at s5 k) as [bm|] eqn:Eb; [|done].
      assert (K25 : keeps s2 s5) by (etrans; [exact K3|]; by etrans). apply (k_bitmap _ _ K25) in Eb; [by rewrite (M2 n k Hon) in Eb|].
      by destruct (li_page_ok _ _ HLi tb _ n k Hl Hd Hon) as [? _].
Qed.
End Remove.
