(* ===== verification/TBInsert.v ===== *)
(** * Linking a new block

    [tb_link_page] enters a translated block into the hash chain and the lists of
    its pages, protects the pages, and sets its jumps to its own exits;
    [tb_gen_code] translates and links. *)

From S2P Require Import Prelude CFile CString HostMem RamList Radix PhysPages RRTypes PandaCallbacks.
From S2P Require Import RRState RRReplay TBCache TBLists TBInv TBRemove.
From stdpp Require Import functions list.
Local Open Scope Z_scope.

Section Insert.
Context `{PhysSpace} `{TargetLong} {Regs : Type} `{!Translator Regs} `{!SpaceOk L1_MAP_ADDR_SPACE_BITS}.
Implicit Types (s : tb_state Regs) (p q : slot) (i j n tb : nat) (v : view) (t : TranslationBlock).

(** ** The flag of a page *)

Definition guard_page (a : Z) (r : ram_state) : ram_state :=
  set_phys_dirty (alter (λ f, wrap 8 (Z.land f (Z.lnot CODE_DIRTY_FLAG))) (Z.to_nat (Z.shiftr a TARGET_PAGE_BITS)) (phys_dirty r)) r.

Lemma guard_page_ok a r : ram_ok r → ram_ok (guard_page a r).
Proof.
  intros [A B C D F G]. split; try done.
  - simpl. by rewrite length_alter.
  - simpl. apply Forall_lookup. intros i x. rewrite list_lookup_alter. case_decide; [|by apply (Forall_lookup_1 _ _ _ _ G)].
    intros (y & Hy & ->)%fmap_Some. apply wrap_in_width. lia.
Qed.

Lemma guard_page_clear a r f : phys_dirty r !! Z.to_nat (Z.shiftr a TARGET_PAGE_BITS) = Some f →
  ∃ g, phys_dirty (guard_page a r) !! Z.to_nat (Z.shiftr a TARGET_PAGE_BITS) = Some g ∧ Z.land g CODE_DIRTY_FLAG = 0.
Proof.
  intros Hf. simpl. rewrite list_lookup_alter_eq, Hf. simpl. eexists. split; [done|]. unfold wrap.
  apply Z.bits_inj'. intros k Hk. rewrite Z.bits_0, Z.land_spec. destruct (decide (k < 8)) as [H8|H8].
  - rewrite Z.mod_pow2_bits_low, Z.land_spec, Z.lnot_spec by lia. destruct (Z.testbit f k), (Z.testbit CODE_DIRTY_FLAG k); done.
  - by rewrite Z.mod_pow2_bits_high by lia.
Qed.

Lemma guard_page_keep a r k f : phys_dirty r !! k = Some f → Z.land f CODE_DIRTY_FLAG = 0 →
  ∃ g, phys_dirty (guard_page a r) !! k = Some g ∧ Z.land g CODE_DIRTY_FLAG = 0.
Proof.
  intros Hf Hz. destruct (decide (k = Z.to_nat (Z.shiftr a TARGET_PAGE_BITS))) as [->|Ne]; [by eapply guard_page_clear|].
  exists f. split; [|done]. simpl. by rewrite list_lookup_alter_ne.
Qed.

Lemma mask_one r start f : phys_dirty r !! Z.to_nat (Z.shiftr start TARGET_PAGE_BITS) = Some f → 0 ≤ start →
  cpu_physical_memory_mask_dirty_range start TARGET_PAGE_SIZE CODE_DIRTY_FLAG r = Ok () (guard_page start r).
Proof.
  intros Hf Hs. unfold cpu_physical_memory_mask_dirty_range. change (Z.to_nat (Z.shiftr TARGET_PAGE_SIZE TARGET_PAGE_BITS)) with 1%nat.
  cbn [mask_dirty_loop]. rewrite bind_gets. rewrite (bind_Ok _ _ _ _ _ (at_idx_ok _ _ _ _ ltac:(by apply Z.shiftr_nonneg) Hf)).
  rewrite bind_modify. unfold mret, M_ret, guard_page. f_equal. unfold set_phys_dirty. f_equal.
  apply list_eq. intros i. rewrite list_lookup_alter. case_decide as E; [subst i|by rewrite list_lookup_insert_ne].
  rewrite Hf. apply list_lookup_insert_eq. by apply lookup_lt_Some in Hf.
Qed.

Lemma owner_dirty r a b : ram_ok r → in_width 64 a → owner a r b → ∃ f, phys_dirty r !! Z.to_nat (Z.shiftr a TARGET_PAGE_BITS) = Some f.
Proof.
  intros Hok Hw [Hb Hr]. unfold in_range, in_width in *. apply lookup_lt_is_Some_2.
  pose proof (proj1 (Forall_forall _ _) (ro_dirty _ Hok) b Hb) as Hd. cbn beta in Hd.
  pose proof (page_nat a ltac:(lia)) as Hp. unfold page_index in Hp. pose proof (Z.mul_div_le a 4096 ltac:(lia)). lia.
Qed.

Lemma protect_ok s a b : ram_ok (tb_ram s) → a mod 4096 = 0 → in_width 64 a → owner a (tb_ram s) b →
  ∃ e, tlb_protect_code a s = Ok () (set_tb_trace (tb_trace s ++ [e]) (set_tb_ram (guard_page a (tb_ram s)) s)).
Proof.
  intros Hok Ha Hw Ho. pose proof Ho as [Hb Hr]. pose proof (proj1 (Forall_forall _ _) (ro_blocks _ Hok) b Hb) as Hbo.
  pose proof Hbo as (B1 & B2 & B3 & B4 & B5 & B6 & B7). unfold in_range, RAM_ADDR_MAX, in_width in *.
  assert (Hend : a + 4096 ≤ blk_offset b + blk_length b).
  { pose proof (Z.div_mod (blk_offset b) 4096 ltac:(lia)). pose proof (Z.div_mod (blk_length b) 4096 ltac:(lia)).
    pose proof (Z.div_mod a 4096 ltac:(lia)). lia. }
  destruct (owner_dirty (tb_ram s) a b Hok Hw Ho) as [f Hf].
  assert (Es : Z.land a TARGET_PAGE_MASK = a) by (rewrite page_mask; lia).
  assert (Ee : TARGET_PAGE_ALIGN (wrap 64 (a + TARGET_PAGE_SIZE)) = a + 4096).
  { pose proof (Z.div_mod a 4096 ltac:(lia)). change TARGET_PAGE_SIZE with 4096. rewrite wrap_small by (unfold in_width; lia).
    unfold TARGET_PAGE_ALIGN. change TARGET_PAGE_SIZE with 4096. rewrite wrap_small by (unfold in_width; lia). rewrite page_mask.
    replace ((a + 4096 + 4096 - 1) mod 4096) with 4095; [lia|]. apply (Z.mod_unique_pos _ _ (a / 4096 + 1)); [lia|].
    pose proof (Z.div_mod a 4096 ltac:(lia)). lia. }
  assert (Hptr : ∀ x, a ≤ x ≤ a + 4095 → qemu_safe_ram_ptr x (guard_page a (tb_ram s)) = Ok (blk_host b + (x - blk_offset b)) (guard_page a (tb_ram s))).
  { intros x Hx. assert (Hox : owner x (guard_page a (tb_ram s)) b) by (split; [done|unfold in_range; lia]).
    assert (Hwx : in_width 64 x) by (unfold in_width; lia).
    destruct (owner_found x _ b Hwx (guard_page_ok a _ Hok) Hox) as (i & Hi & _). unfold qemu_safe_ram_ptr. rewrite bind_gets, Hi.
    by rewrite (owner_host x _ b Hwx (guard_page_ok a _ Hok) Hox). }
  unfold tlb_protect_code, cpu_physical_memory_reset_dirty. rewrite Es, Ee.
  replace (wrap 64 (a + 4096 - a)) with TARGET_PAGE_SIZE by (replace (a + 4096 - a) with 4096 by lia; done).
  change (TARGET_PAGE_SIZE =? 0) with false. cbv iota. change (int32 TARGET_PAGE_SIZE) with TARGET_PAGE_SIZE.
  eexists. rewrite (bind_Ok _ _ _ () (set_tb_ram (guard_page a (tb_ram s)) s)) by (unfold in_tb_ram; by rewrite (mask_one _ _ _ Hf) by lia).
  rewrite (bind_Ok _ _ _ (blk_host b + (a - blk_offset b)) (set_tb_ram (guard_page a (tb_ram s)) s)) by (unfold in_tb_ram; simpl; by rewrite Hptr by lia).
  rewrite (bind_Ok _ _ _ (blk_host b + (a + 4096 - 1 - blk_offset b)) (set_tb_ram (guard_page a (tb_ram s)) s))
    by (unfold in_tb_ram; simpl; rewrite wrap_small by (unfold in_width; lia); by rewrite Hptr by lia).
  rewrite (bind_Ok _ _ _ () (set_tb_ram (guard_page a (tb_ram s)) s)); [done|]. apply assert_true.
  apply Z.eqb_eq. f_equal. lia.
Qed.

(** ** What linking keeps: all but the new block, the lists and the flags *)

Definition fixed s :=
  (nb_tbs s, code_gen_max_blocks s, code_gen_buffer s, code_gen_buffer_size s, code_gen_buffer_max_size s,
   code_gen_ptr s, tb_flush_count s, tb_phys_invalidate_count s, tb_invalidated_flag s, tb_rr s, tb_cpu s).

Record grows tb s s' : Prop := {
  g_tree : tree_ok L1_MAP_ADDR_SPACE_BITS (l1_map s) → tree_ok L1_MAP_ADDR_SPACE_BITS (l1_map s');
  g_len : length (tbs s') = length (tbs s);
  g_data : ∀ i, i ≠ tb → data s' i = data s i;
  g_pages : ∀ index, page_exists s index → page_exists s' index;
  g_fixed : fixed s' = fixed s;
  g_bitmap : ∀ index bm, index_ok index → bm_at s' index = Some bm → bm_at s index = Some bm;
}.
#[global] Instance grows_refl tb : Reflexive (grows tb).
Proof. by split. Qed.
#[global] Instance grows_trans tb : Transitive (grows tb).
Proof.
  intros a b c [A1 A2 A3 A4 A5 A6] [B1 B2 B3 B4 B5 B6]. split; [auto|congruence|intros i Hi; by rewrite B3, A3|auto|congruence|auto].
Qed.


Lemma keeps_grows tb s s' : keeps s s' → aux s' = aux s → grows tb s s'.
Proof.
  intros K U. split; [apply K|by apply keeps_length|intros; apply K|intros k; apply K| |apply K].
  pose proof (k_rest _ _ K) as R. unfold rest in R. injection R as Q1 Q2 Q3 Q4 Q5 Q6 Q7 Q8 Q9 Q10 Q11. injection U as A1 A2 A3.
  unfold fixed. by rewrite Q1, Q2, Q3, Q4, Q5, Q6, Q7, Q9, A1, A2, A3.
Qed.

Lemma upd_tb_ok s i t f : tbs s !! i = Some t → upd_tb i f s = Ok () (set_tbs (alter f i (tbs s)) s).
Proof. intros Hi. unfold upd_tb. by rewrite (bind_Ok _ _ _ _ _ (tb_at_ok _ _ _ Hi)). Qed.

(** A change of the new block's own data. *)
Lemma upd_tb_grows tb s f : grows tb s (set_tbs (alter f tb (tbs s)) s).
Proof.
  split; try done; simpl; [by rewrite length_alter|]. intros i Hi. unfold data. simpl. by rewrite list_lookup_alter_ne.
Qed.

(** New pages have no blocks. *)
Lemma alloc_pages s index : tree_ok L1_MAP_ADDR_SPACE_BITS (l1_map s) →
  let s' := set_l1_map (page_alloc (l1_map s) index) s in
  tree_ok L1_MAP_ADDR_SPACE_BITS (l1_map s') ∧ page_exists s' index ∧ (∀ k, page_exists s k → page_exists s' k) ∧
  (∀ k, page_exists s k → rd s' (SFirst k) = rd s (SFirst k)) ∧
  (∀ k, ¬ page_exists s k → page_exists s' k → rd s' (SFirst k) = Some None) ∧
  (∀ k bm, bm_at s' k = Some bm → bm_at s k = Some bm).
Proof.
  intros Hok s'. assert (Hn : length (replicate (Z.to_nat L2_SIZE) no_code) = Z.to_nat L2_SIZE) by apply length_replicate.
  assert (Hkeep : ∀ k d, page_find (l1_map s) k = Some d → page_find (l1_map s') k = Some d) by (intros k d; apply tree_alloc_keeps).
  split_and!.
  - by apply tree_alloc_ok.
  - by apply tree_alloc_finds.
  - intros k [d Hd]. eexists. by apply Hkeep.
  - intros k [d Hd]. unfold rd. by rewrite Hd, (Hkeep k d Hd).
  - intros k Hk [d Hd]. unfold rd. rewrite Hd. simpl. f_equal. unfold page_exists in Hk. apply eq_None_not_Some in Hk.
    pose proof (tree_alloc_new _ _ _ _ _ _ Hk Hd) as Hl. apply lookup_replicate in Hl as [-> _]. done.
  - intros k bm. unfold bm_at. destruct (page_find (l1_map s') k) as [d|] eqn:Hd; [|done]. simpl. destruct (page_find (l1_map s) k) as [d0|] eqn:Hd0.
    + rewrite (Hkeep k d0 Hd0) in Hd. by injection Hd as ->.
    + pose proof (tree_alloc_new _ _ _ _ _ _ Hd0 Hd) as Hl. apply lookup_replicate in Hl as [-> _]. done.
Qed.

Definition none_listed s (pg : Z → list (nat * nat)) : Prop := ∀ index, index_ok index → ¬ page_exists s index → pg index = [].

Lemma alloc_family s pg index : tree_ok L1_MAP_ADDR_SPACE_BITS (l1_map s) → page_family s pg → none_listed s pg →
  let s' := set_l1_map (page_alloc (l1_map s) index) s in page_family s' pg ∧ none_listed s' pg.
Proof.
  intros Hok HF HN s'. destruct (alloc_pages s index Hok) as (_ & _ & Hm & Hr & Hnew & _).
  assert (Hdec : ∀ k, page_exists s k ∨ ¬ page_exists s k) by (intros k; unfold page_exists; destruct (page_find _ k); [left; eauto|right; by intros []]).
  assert (Hd : ∀ k, page_dom s' k → page_dom s k ∨ pg k = []) by (intros k [Hk _]; destruct (Hdec k); [left; by split|right; by apply HN]).
  split; [split|intros k Hk Hk'; apply HN; [done|]; intros Hk2; by apply Hk', Hm].
  - intros k [Hk Hk']. destruct (Hdec k) as [He|He].
    + eapply chain_ext; [|by apply HF; split]. intros q [->|Hq]%elem_of_cons; [by apply Hr|].
      by apply list_elem_of_fmap in Hq as (x & -> & _).
    + rewrite (HN k Hk He). simpl. by apply Hnew.
  - intros k x Hk Hx. destruct (Hd k Hk) as [Hk2|E]; [by eapply (fam_elt _ _ _ _ _ _ _ HF)|]. rewrite E in Hx. by apply not_elem_of_nil in Hx.
  - intros k Hk. destruct (Hd k Hk) as [Hk2|E]; [by apply HF|]. rewrite E. constructor.
  - intros j k x Hj Hk Hx1 Hx2. destruct (Hd j Hj) as [Hj2|E], (Hd k Hk) as [Hk2|E'];
      try (rewrite E in Hx1; by apply not_elem_of_nil in Hx1); try (rewrite E' in Hx2; by apply not_elem_of_nil in Hx2).
    by eapply (fam_apart _ _ _ _ _ _ _ HF).
Qed.

Definition guards s (pg : Z → list (nat * nat)) : Prop := ∀ index, page_dom s index → pg index ≠ [] →
  ∃ f, phys_dirty (tb_ram s) !! Z.to_nat index = Some f ∧ Z.land f CODE_DIRTY_FLAG = 0.

(** What a page to be linked must be: a page of RAM. *)
Definition code_page s (a : Z) : Prop :=
  in_width 64 a ∧ a mod 4096 = 0 ∧ index_ok (Z.shiftr a TARGET_PAGE_BITS) ∧ ∃ b, owner a (tb_ram s) b.

(** The block becomes the head of the page's list. *)
Lemma push_page_ok s pg index tb n : tree_ok L1_MAP_ADDR_SPACE_BITS (l1_map s) → page_family s pg → page_dom s index → (n < 2)%nat →
  is_Some (tbs s !! tb) → (∀ k, page_dom s k → (tb, n) ∉ pg k) →
  ∃ s', (st (SPageNext tb n) (first_ptr (pg index) None);; st (SFirst index) (Some (tb, n));;
         upd_page index invalidate_page_bitmap) s = Ok () s' ∧
    keeps s s' ∧ tc_code s' = tc_code s ∧ aux s' = aux s ∧ page_family s' (<[index := (tb, n) :: pg index]> pg) ∧
    (∀ q, ¬ page_slot q → rd s' q = rd s q) ∧ bm_at s' index = None.
Proof.
  intros Hok HF Hd Hn [t Ht] Hfresh. pose proof Hd as [Hi He]. set (fp := first_ptr (pg index) None).
  pose proof (chain_first _ _ _ _ _ (fam_chain _ _ _ _ _ _ _ HF index Hd)) as Hf. fold fp in Hf.
  assert (Hs1 : is_Some (rd s (SPageNext tb n))) by (unfold rd; simpl; rewrite Ht; by apply get2_lt).
  pose proof (wr_keeps s (SPageNext tb n) fp Hok) as K1. set (s1 := wr (SPageNext tb n) fp s) in *.
  assert (Hok1 : tree_ok L1_MAP_ADDR_SPACE_BITS (l1_map s1)) by by apply K1.
  assert (Hs2 : is_Some (rd s1 (SFirst index))) by (unfold s1; rewrite rd_wr_ne by done; by rewrite Hf).
  pose proof (wr_keeps s1 (SFirst index) (Some (tb, n)) Hok1) as K2. set (s2 := wr (SFirst index) (Some (tb, n)) s1) in *.
  assert (He2 : page_exists s2 index) by (by apply K2, K1). destruct He2 as [d Hdd].
  destruct (set_page_keeps s2 index d (invalidate_page_bitmap d)) as [K3 R3]; [by apply K2|done..|].
  set (s3 := set_l1_map (page_store (l1_map s2) index (invalidate_page_bitmap d)) s2) in *.
  assert (R2 : ∀ q, slot_ok q → rd s2 q = if decide (q = SFirst index) then Some (Some (tb, n)) else if decide (q = SPageNext tb n) then Some fp else rd s q).
  { intros q Hq. unfold s2. rewrite rd_wr_sym by done. case_decide; [done|]. unfold s1. by rewrite rd_wr_sym by done. }
  exists s3. split_and!.
  - rewrite (bind_Ok _ _ _ _ _ (st_ok _ _ _ Hs1)). rewrite (bind_Ok _ _ _ _ _ (st_ok _ _ _ Hs2)). by apply upd_page_ok.
  - etrans; [exact K1|]. by etrans.
  - unfold s3, s2, s1, wr. simpl. by case_match.
  - unfold s3, s2, s1, wr. simpl. by case_match.
  - eapply page_frame; [intros q _ Hq; by apply R3|apply K3|]. eapply (fam_ext _ _ _ _ (page_dom s)); [|done|].
    { intros k [Hk Hk']. split; [done|]. by apply K1, K2. }
    eapply fam_push; [congruence| |done|exact HF|done|exact Hn|done|..].
    + intros [x1 x2] [y1 y2] _ _ [= -> ->]. done.
    + rewrite R2 by done. rewrite decide_False, decide_True by done. by rewrite Hf.
    + rewrite R2 by done. by rewrite decide_True.
    + intros q Hq N1 N2. rewrite R2 by (by destruct Hq as [(k & [Hk _] & ->)|(x & _ & ->)]). by rewrite !decide_False.
  - intros q Hq. rewrite R3, R2, !decide_False; [done|..]; destruct q; simpl in *; try tauto; congruence.
  - destruct (store_bm s2 index d (invalidate_page_bitmap d) index ltac:(by apply K2) Hdd) as [(E & _)|[_ ?]]; [exact E|done].
Qed.

Record page_linked tb s s' n (a : Z) t pg : Prop := {
  pl_grows : grows tb s s';
  pl_data : data s' tb = Some (set_page_addr (set2 (page_addr t) n a) t);
  pl_code : tc_code s' = tc_code s;
  pl_family : page_family s' (<[Z.shiftr a TARGET_PAGE_BITS := (tb, n) :: pg (Z.shiftr a TARGET_PAGE_BITS)]> pg);
  pl_dom : page_dom s' (Z.shiftr a TARGET_PAGE_BITS);
  pl_none : none_listed s' (<[Z.shiftr a TARGET_PAGE_BITS := (tb, n) :: pg (Z.shiftr a TARGET_PAGE_BITS)]> pg);
  pl_links : ∀ q, ¬ page_slot q → rd s' q = rd s q;
  pl_bitmap : bm_at s' (Z.shiftr a TARGET_PAGE_BITS) = None;
  pl_ram : ram_ok (tb_ram s') ∧ ram_blocks (tb_ram s') = ram_blocks (tb_ram s);
  pl_guards : guards s' (<[Z.shiftr a TARGET_PAGE_BITS := (tb, n) :: pg (Z.shiftr a TARGET_PAGE_BITS)]> pg);
}.

Lemma tb_alloc_page_ok s tb n a t pg : tree_ok L1_MAP_ADDR_SPACE_BITS (l1_map s) → page_family s pg → none_listed s pg →
  guards s pg → ram_ok (tb_ram s) → code_page s a → data s tb = Some t → (n < 2)%nat → (∀ k, index_ok k → (tb, n) ∉ pg k) →
  ∃ s', tb_alloc_page tb n a s = Ok () s' ∧ page_linked tb s s' n a t pg.
Proof.
  intros Hok HF HN HG HR (Hw & Ha & Hi & b & Ho) Ht Hn Hfresh. set (index := Z.shiftr a TARGET_PAGE_BITS) in *.
  unfold data in Ht. apply fmap_Some in Ht as (t0 & Ht0 & ->).
  set (f1 := λ u, set_page_addr (set2 (page_addr u) n a) u). set (s1 := set_tbs (alter f1 tb (tbs s)) s).
  assert (Hrd1 : ∀ q, rd s1 q = rd s q).
  { intros q. unfold rd, s1. destruct q; simpl; rewrite ?list_lookup_alter; try case_decide; simplify_eq; try done; by rewrite Ht0. }
  assert (HF1 : page_family s1 pg) by (eapply page_frame; [..|exact HF]; [intros; apply Hrd1|done]).
  destruct (alloc_pages s1 index Hok) as (Hok2 & Hex2 & Hm2 & _ & _ & Hb2). destruct (alloc_family s1 pg index Hok HF1 HN) as [HF2 HN2].
  set (s2 := set_l1_map (page_alloc (l1_map s1) index) s1) in *. assert (Hd2 : page_dom s2 index) by done.
  destruct (push_page_ok s2 pg index tb n) as (s3 & E3 & K3 & C3 & U3 & F3 & R3 & M3); [done..| | |].
  { simpl. rewrite list_lookup_alter_eq, Ht0. by eexists. } { intros k [Hk _]. by apply Hfresh. }
  assert (G3 : grows tb s s3).
  { etrans; [apply (upd_tb_grows tb s f1)|]. fold s1. split; [by intros _; apply K3|by rewrite (keeps_length _ _ K3)|intros i _; apply K3| | |].
    - intros k Hk. by apply K3, Hm2.
    - change (fixed s1) with (fixed s2). by apply (g_fixed tb s2 s3), keeps_grows.
    - intros k bm Hk Hb. apply (Hb2 k bm). by apply (k_bitmap _ _ K3). }
  assert (D3 : data s3 tb = Some (set_page_addr (set2 (page_addr (tb_data t0)) n a) (tb_data t0))).
  { rewrite (k_data _ _ K3). unfold data. simpl. by rewrite list_lookup_alter_eq, Ht0. }
  assert (N3 : none_listed s3 (<[index := (tb, n) :: pg index]> pg)).
  { intros k Hk Hk'. rewrite fn_lookup_insert_ne; [apply HN2; [done|]|]; [intros He; by apply Hk', K3|]. intros <-. by apply Hk', K3. }
  assert (L3 : ∀ q, ¬ page_slot q → rd s3 q = rd s q).
  { intros q Hq. rewrite R3 by done. rewrite <-Hrd1. destruct q; simpl in *; try tauto; done. }
  assert (Hram : tb_ram s3 = tb_ram s) by (by rewrite (keeps_ram _ _ K3)).
  assert (HG3 : ∀ k, page_dom s3 k → k ≠ index → <[index := (tb, n) :: pg index]> pg k ≠ [] →
    ∃ f, phys_dirty (tb_ram s) !! Z.to_nat k = Some f ∧ Z.land f CODE_DIRTY_FLAG = 0).
  { intros k [Hk _] Hne. rewrite fn_lookup_insert_ne by done. intros Hp. apply HG; [|done]. split; [done|].
    unfold page_exists. destruct (page_find (l1_map s) k) eqn:E; [eauto|]. destruct Hp. apply HN; [done|]. unfold page_exists. rewrite E. by intros []. }
  pose proof (chain_first _ _ _ _ _ (fam_chain _ _ _ _ _ _ _ HF2 index Hd2)) as Hf.
  assert (Hrun : tb_alloc_page tb n a s = (match first_ptr (pg index) None with Some _ => mret () | None => tlb_protect_code a end) s3).
  { unfold tb_alloc_page. fold index. rewrite (bind_Ok _ _ _ _ _ (upd_tb_ok _ _ _ f1 Ht0)), bind_modify. fold s1 s2.
    rewrite (bind_Ok _ _ _ _ _ (ld_ok _ _ _ Hf)). rewrite <-!bind_assoc in E3. rewrite <-!bind_assoc. by rewrite (bind_Ok _ _ _ _ _ E3). }
  rewrite Hrun. destruct (first_ptr (pg index) None) as [x|] eqn:Efp.
  - exists s3. split; [done|]. split; try done.
    + split; [done|by apply K3].
    + by rewrite Hram.
    + intros k Hk Hne. rewrite Hram. destruct (decide (k = index)) as [->|Nk]; [|by apply HG3].
      assert (Hnil : pg index ≠ []) by (by intros E; rewrite E in Efp). apply HG; [|done]. split; [done|]. unfold page_exists.
      destruct (page_find (l1_map s) index) eqn:E; [eauto|]. destruct Hnil. apply HN; [done|]. unfold page_exists. rewrite E. by intros [].
  - rewrite <-Hram in HR, Ho. destruct (protect_ok s3 a b HR Ha Hw Ho) as [e He]. eexists. split; [exact He|].
    destruct (owner_dirty (tb_ram s3) a b HR Hw Ho) as [f Hfl]. split; try done.
    + by etrans; [exact G3|].
    + split; [done|by apply K3].
    + split; [by apply guard_page_ok|simpl; congruence].
    + intros k Hk Hne. simpl. destruct (decide (k = index)) as [->|Nk]; [by eapply guard_page_clear|].
      destruct (HG3 k Hk Nk Hne) as (g & Hg & Hz). rewrite <-Hram in Hg. by eapply guard_page_keep.
Qed.

(** ** Both pages *)

Definition push_pages tb (a0 a1 : Z) (pg : Z → list (nat * nat)) : Z → list (nat * nat) :=
  let i0 := Z.shiftr a0 TARGET_PAGE_BITS in let i1 := Z.shiftr a1 TARGET_PAGE_BITS in
  let pg1 := <[i0 := (tb, O) :: pg i0]> pg in
  if decide (a1 = NO_PAGE) then pg1 else <[i1 := (tb, 1%nat) :: pg1 i1]> pg1.

Record pages_linked tb s s' (a0 a1 : Z) t pg : Prop := {
  ps_grows : grows tb s s';
  ps_data : data s' tb = Some (set_page_addr (a0, a1) t);
  ps_code : tc_code s' = tc_code s;
  ps_family : page_family s' (push_pages tb a0 a1 pg);
  ps_dom : page_dom s' (Z.shiftr a0 TARGET_PAGE_BITS) ∧ (a1 ≠ NO_PAGE → page_dom s' (Z.shiftr a1 TARGET_PAGE_BITS));
  ps_none : none_listed s' (push_pages tb a0 a1 pg);
  ps_links : ∀ q, ¬ page_slot q → rd s' q = rd s q;
  ps_bitmap : bm_at s' (Z.shiftr a0 TARGET_PAGE_BITS) = None ∧ (a1 ≠ NO_PAGE → bm_at s' (Z.shiftr a1 TARGET_PAGE_BITS) = None);
  ps_ram : ram_ok (tb_ram s') ∧ ram_blocks (tb_ram s') = ram_blocks (tb_ram s);
  ps_guards : guards s' (push_pages tb a0 a1 pg);
}.

Definition link_pages tb (a0 a1 : Z) : TBM Regs () :=
  tb_alloc_page tb 0 a0;;
  if decide (a1 = NO_PAGE) then upd_tb tb (λ t, set_page_addr (set2 (page_addr t) 1 NO_PAGE) t) else tb_alloc_page tb 1 a1.

Lemma link_pages_ok s tb a0 a1 t pg : tree_ok L1_MAP_ADDR_SPACE_BITS (l1_map s) → page_family s pg → none_listed s pg →
  guards s pg → ram_ok (tb_ram s) → code_page s a0 → (a1 ≠ NO_PAGE → code_page s a1) → data s tb = Some t →
  (∀ k n, index_ok k → (tb, n) ∉ pg k) → ∃ s', link_pages tb a0 a1 s = Ok () s' ∧ pages_linked tb s s' a0 a1 t pg.
Proof.
  intros Hok HF HN HG HR H0' H1' Ht Hfresh.
  destruct (tb_alloc_page_ok s tb 0 a0 t pg) as (s1 & E1 & [G1 D1 C1 F1 M1 N1 L1 X1 [R1 B1] U1]); [done..|lia|intros; by apply Hfresh|].
  unfold link_pages, push_pages. rewrite (bind_Ok _ _ _ _ _ E1). unfold data in D1. case_decide as Hpage.
  - apply fmap_Some in D1 as (u & Hu & D1). rewrite (upd_tb_ok _ _ _ _ Hu). eexists. split; [done|].
    set (f := λ t, set_page_addr (set2 (page_addr t) 1 NO_PAGE) t). set (s2 := set_tbs (alter f tb (tbs s1)) s1).
    assert (Hrd : ∀ q, rd s2 q = rd s1 q).
    { intros q. unfold rd, s2. destruct q; simpl; rewrite ?list_lookup_alter; try case_decide; simplify_eq; try done; by rewrite Hu. }
    split; try done; unfold push_pages; rewrite ?decide_True by done; try done.
    + etrans; [done|apply upd_tb_grows].
    + unfold data. simpl. rewrite list_lookup_alter_eq, Hu. simpl. f_equal.
      assert (E : tb_data (f u) = f (tb_data u)) by done. rewrite E, <-D1. unfold f. simpl. by subst a1.
    + eapply page_frame; [..|exact F1]; [intros; apply Hrd|done].
    + intros q Hq. by rewrite Hrd, L1.
  - destruct (H1' Hpage) as (W & A & Ii & b & Ob & Hb).
    destruct (tb_alloc_page_ok s1 tb 1 a1 (set_page_addr (set2 (page_addr t) 0 a0) t)
      (<[Z.shiftr a0 TARGET_PAGE_BITS := (tb, O) :: pg (Z.shiftr a0 TARGET_PAGE_BITS)]> pg)) as (s2 & E2 & [G2 D2 C2 F2 M2 N2 L2 X2 [R2 B2] U2]);
      [by apply G1|done|done|done|done| |done|lia| |].
    { split_and!; [done..|]. exists b. unfold owner in *. by rewrite B1. }
    { intros k Hk. destruct (decide (Z.shiftr a0 TARGET_PAGE_BITS = k)) as [<-|Ne];
        [rewrite fn_lookup_insert|rewrite fn_lookup_insert_ne by done; by apply Hfresh].
      intros [[=]|Hx]%elem_of_cons. by eapply Hfresh. }
    exists s2. split; [done|]. split; unfold push_pages; rewrite ?(decide_False (P:=a1 = NO_PAGE)) by done; try done.
    + by etrans.
    + congruence.
    + split; [|done]. destruct M1 as [M1 M1']. split; [done|by apply G2].
    + intros q Hq. by rewrite L2, L1.
    + split; [|done]. destruct (bm_at s2 (Z.shiftr a0 TARGET_PAGE_BITS)) as [bm|] eqn:Eb; [|done]. apply (g_bitmap _ _ _ G2) in Eb; [congruence|apply M1].
    + split; [done|congruence].
Qed.

(** ** The head of the hash chain *)

Lemma push_hash_ok s hs h tb : tree_ok L1_MAP_ADDR_SPACE_BITS (l1_map s) → hash_family s hs → is_Some (tbs s !! tb) → (∀ k, tb ∉ hs k) →
  ∃ w, rd s (SHash h) = Some w ∧ let s' := wr (SHash h) (Some (tb, O)) (wr (SHashNext tb) w s) in
    (st (SHashNext tb) w;; st (SHash h) (Some (tb, O))) s = Ok () s' ∧ keeps s s' ∧ tc_code s' = tc_code s ∧ aux s' = aux s ∧
    hash_family s' (<[h := tb :: hs h]> hs) ∧ (∀ q, ¬ hash_slot q → slot_ok q → rd s' q = rd s q) ∧
    ∀ i, i ≠ tb → rd s' (SHashNext i) = rd s (SHashNext i).
Proof.
  intros Hok HF [t Ht] Hfresh. pose proof (chain_first _ _ _ _ _ (fam_chain _ _ _ _ _ _ _ HF h I)) as Hw.
  set (w := first_ptr _ _) in Hw. exists w. split; [done|]. intros s'.
  assert (Hs1 : is_Some (rd s (SHashNext tb))) by (unfold rd; rewrite Ht; by eexists).
  pose proof (wr_keeps s (SHashNext tb) w Hok) as K1. set (s1 := wr (SHashNext tb) w s) in *.
  assert (Hs2 : is_Some (rd s1 (SHash h))) by (unfold rd; by eexists).
  pose proof (wr_keeps s1 (SHash h) (Some (tb, O)) ltac:(by apply K1)) as K2.
  assert (R2 : ∀ q, slot_ok q → rd s' q = if decide (q = SHash h) then Some (Some (tb, O)) else if decide (q = SHashNext tb) then Some w else rd s q).
  { intros q Hq. unfold s'. rewrite rd_wr_sym; [|by apply K1|done..]. case_decide; [done|]. unfold s1. by rewrite rd_wr_sym by done. }
  split_and!.
  - rewrite (bind_Ok _ _ _ _ _ (st_ok _ _ _ Hs1)). by apply st_ok.
  - by etrans.
  - done.
  - done.
  - eapply (fam_ext _ _ _ _ (λ _, True) _ (<[h := untagged tb :: (untagged <$> hs h)]> (λ k, untagged <$> hs k))); [done| |].
    { intros k _. destruct (decide (h = k)) as [<-|Ne]; [by rewrite !fn_lookup_insert|by rewrite !fn_lookup_insert_ne]. }
    unshelve eapply (fam_push SHash nx_hash elt_hash _ _ _ (rd s) (rd s') (λ _, True) (λ k, untagged <$> hs k) (λ _, None) h (untagged tb));
      [congruence| |done|exact HF|done|done| |..].
    + intros [x1 x2] [y1 y2] Hx Hy [= ->]. unfold elt_hash in *. simpl in *. congruence.
    + intros k _ Hx%untagged_elem. by eapply Hfresh.
    + rewrite R2 by done. rewrite decide_False, decide_True by done. by rewrite Hw.
    + rewrite R2 by done. by rewrite decide_True.
    + intros q Hq N1 N2. rewrite R2 by (by destruct Hq as [(k & _ & ->)|(x & _ & ->)]). by rewrite !decide_False.
  - intros q Hq Hqo. rewrite R2 by done. rewrite !decide_False; [done|..]; intros ->; by apply Hq.
  - intros i Hi. rewrite R2 by done. by rewrite !decide_False by congruence.
Qed.

(** ** The jumps of a new block *)

Definition init_jump_state t n s : tb_state Regs :=
  if decide (has_jump t n) then put_jump t n (exit_of t n) s else s.

Lemma init_jump_ok s tb t n : tbs s !! tb = Some t → (n < 2)%nat → init_jump tb n s = Ok () (init_jump_state t n s).
Proof.
  intros Ht Hn. unfold init_jump, init_jump_state. rewrite (bind_Ok _ _ _ _ _ (tb_at_ok _ _ _ Ht)).
  destruct (get2_lt (tb_next_offset t) n Hn) as [o Ho]. rewrite Ho. cbn [nonnull]. rewrite bind_ret.
  destruct (Z.eqb_spec o 65535) as [->|Ne].
  - rewrite decide_False; [done|]. intros (o' & Ho' & ?). congruence.
  - rewrite decide_True by (by exists o). by apply reset_jump_ok.
Qed.

Lemma init_jump_code t n s a : tc_code (init_jump_state t n s) !! a =
  if decide (has_jump t n ∧ jump_site t n = a) then Some (jump_word a (exit_of t n)) else tc_code s !! a.
Proof.
  unfold init_jump_state. destruct (decide (has_jump t n)) as [Hj|Hj].
  - simpl. destruct (decide (jump_site t n = a)) as [<-|Ne].
    + rewrite lookup_insert_eq. by rewrite decide_True.
    + rewrite lookup_insert_ne by done. by rewrite decide_False by naive_solver.
  - by rewrite decide_False by naive_solver.
Qed.

Lemma init_jump_keeps t n s : keeps s (init_jump_state t n s) ∧ aux (init_jump_state t n s) = aux s ∧ ∀ q, rd (init_jump_state t n s) q = rd s q.
Proof. unfold init_jump_state. case_decide; done. Qed.

Definition init_block tb : TBM Regs () :=
  st (SJmpFirst tb) (Some (tb, 2%nat));; st (SJmpNext tb 0) None;; st (SJmpNext tb 1) None;; init_jump tb 0;; init_jump tb 1.

Record block_init tb s s' t : Prop := {
  bi_keeps : keeps s s';
  bi_aux : aux s' = aux s;
  bi_links : ∀ q, ¬ jump_slot q → rd s' q = rd s q;
  bi_first : ∀ i, rd s' (SJmpFirst i) = if decide (i = tb) then Some (Some (tb, 2%nat)) else rd s (SJmpFirst i);
  bi_next : ∀ i n, (n < 2)%nat → rd s' (SJmpNext i n) = if decide (i = tb) then Some None else rd s (SJmpNext i n);
  bi_code : ∀ a, (∀ n, has_jump t n → jump_site t n ≠ a) → tc_code s' !! a = tc_code s !! a;
  bi_exit : (has_jump t 0 → has_jump t 1 → jump_site t 0 ≠ jump_site t 1) → ∀ n, has_jump t n →
    tc_code s' !! jump_site t n = Some (jump_word (jump_site t n) (exit_of t n));
}.

Lemma init_block_ok s tb t : tree_ok L1_MAP_ADDR_SPACE_BITS (l1_map s) → data s tb = Some t →
  ∃ s', init_block tb s = Ok () s' ∧ block_init tb s s' t.
Proof.
  intros Hok Hd. pose proof Hd as Hd0. unfold data in Hd. apply fmap_Some in Hd as (t0 & Ht0 & Et).
  assert (V : ∀ q, q = SJmpFirst tb ∨ q = SJmpNext tb 0 ∨ q = SJmpNext tb 1 → is_Some (rd s q)).
  { intros q [-> | [-> | ->]]; unfold rd; simpl; rewrite Ht0; by eexists. }
  set (s1 := wr (SJmpFirst tb) (Some (tb, 2%nat)) s). set (s2 := wr (SJmpNext tb 0) None s1). set (s3 := wr (SJmpNext tb 1) None s2).
  pose proof (wr_keeps s (SJmpFirst tb) (Some (tb, 2%nat)) Hok) as K1. fold s1 in K1. assert (O1 := k_tree _ _ K1 Hok).
  pose proof (wr_keeps s1 (SJmpNext tb 0) None O1) as K2. fold s2 in K2. assert (O2 := k_tree _ _ K2 O1).
  pose proof (wr_keeps s2 (SJmpNext tb 1) None O2) as K3. fold s3 in K3.
  assert (V1 : is_Some (rd s1 (SJmpNext tb 0))) by (unfold s1; rewrite rd_wr_ne by (try done; apply V; auto); apply V; auto).
  assert (V2 : is_Some (rd s2 (SJmpNext tb 1))) by (unfold s2; rewrite rd_wr_ne by done; unfold s1; rewrite rd_wr_ne by (try done; apply V; auto); apply V; auto).
  assert (R3 : ∀ q, slot_ok q → rd s3 q = if decide (q = SJmpNext tb 1) then Some None else if decide (q = SJmpNext tb 0) then Some None
                 else if decide (q = SJmpFirst tb) then Some (Some (tb, 2%nat)) else rd s q).
  { intros q Hq. unfold s3. rewrite rd_wr_sym by done. case_decide; [done|]. unfold s2. rewrite rd_wr_sym by done. case_decide; [done|].
    unfold s1. rewrite rd_wr_sym by (try done; apply V; auto). done. }
  assert (K03 : keeps s s3) by (etrans; [exact K1|]; by etrans).
  assert (Hd3 : data s3 tb = Some t) by (by rewrite (k_data _ _ K03)). pose proof Hd3 as Hd3'.
  unfold data in Hd3. apply fmap_Some in Hd3 as (t3 & Ht3 & Et3).
  destruct (init_jump_keeps t3 0 s3) as (K4 & U4 & R4). destruct (init_jump_keeps t3 1 (init_jump_state t3 0 s3)) as (K5 & U5 & R5).
  set (s4 := init_jump_state t3 0 s3) in *. set (s5 := init_jump_state t3 1 s4) in *.
  assert (Hj : ∀ n, has_jump t3 n ↔ has_jump t n) by (intros n; by rewrite Et3).
  assert (Hsi : ∀ n, jump_site t3 n = jump_site t n) by (intros n; by rewrite Et3).
  assert (Hex : ∀ n, exit_of t3 n = exit_of t n) by (intros n; by rewrite Et3).
  assert (Hc : ∀ a, tc_code s5 !! a = if decide (has_jump t 1 ∧ jump_site t 1 = a) then Some (jump_word a (exit_of t 1))
                   else if decide (has_jump t 0 ∧ jump_site t 0 = a) then Some (jump_word a (exit_of t 0)) else tc_code s !! a).
  { intros a. unfold s5. rewrite init_jump_code, Hsi, Hex. unfold s4. rewrite init_jump_code, Hsi, Hex. rewrite !(decide_ext _ _ _ _ (and_iff_compat_r _ (Hj _))). done. }
  exists s5. split.
  - unfold init_block. rewrite (bind_Ok _ _ _ _ _ (st_ok s _ _ (V _ (or_introl eq_refl)))), (bind_Ok _ _ _ _ _ (st_ok _ _ _ V1)), (bind_Ok _ _ _ _ _ (st_ok _ _ _ V2)).
    fold s1 s2 s3. rewrite (bind_Ok _ _ _ _ _ (init_jump_ok s3 tb t3 0 Ht3 ltac:(lia))). apply init_jump_ok; [|lia].
    unfold s4, init_jump_state. by case_decide.
  - split.
    + etrans; [exact K03|]. by etrans.
    + by rewrite U5, U4.
    + intros q Hq. rewrite R5, R4. destruct q as [| |index| | |]; simpl in Hq; try tauto; try (by rewrite R3 by done; rewrite !decide_False by done).
    + intros i. rewrite R5, R4, R3 by done. rewrite !(decide_False (P:=SJmpFirst _ = SJmpNext _ _)) by done. repeat case_decide; congruence.
    + intros i n Hn. rewrite R5, R4, R3 by done. destruct n as [|[|n]]; [| |lia]; repeat case_decide; congruence.
    + intros a Ha. rewrite Hc, !decide_False; [done|..]; intros [Hh Hs]; by apply (Ha _ Hh).
    + intros Hap n Hn. rewrite Hc. assert (n < 2)%nat by (destruct Hn as (o & Ho & _), n as [|[|n]]; simpl in Ho; [lia..|done]).
      destruct n as [|[|n]]; [|by rewrite decide_True|lia]. rewrite decide_False; [by rewrite decide_True|]. intros [Hj1 E]. by apply (Hap Hn Hj1).
Qed.

(** ** The whole operation *)

Definition insert_view tb t v : view :=
  mkView ({[tb]} ∪ v_live v) (<[hash_key t := tb :: v_hash v (hash_key t)]> (v_hash v))
    (push_pages tb (page_addr t).1 (page_addr t).2 (v_page v)) (<[tb := []]> (v_jumps v)).

(** What the caller of [tb_link_page] provides: the last block of the array, with
    its code written, and the physical addresses of its first byte and of its
    second page. *)
Record linkable s v tb t (phys_pc phys_page2 : Z) : Prop := {
  lk_new : tb ∉ v_live v;
  lk_last : Z.of_nat tb = nb_tbs s - 1;
  lk_data : data s tb = Some t;
  lk_pc : in_width 64 phys_pc ∧ phys_pc mod 4096 = tb_pc t mod 4096;
  lk_page : code_page s (Z.land phys_pc TARGET_PAGE_MASK);
  lk_page2 : phys_page2 ≠ NO_PAGE → code_page s phys_page2;
  lk_site : ∀ n, has_jump t n → tb_tc_ptr t ≤ jump_site t n ∧ jump_site t n + 4 ≤ code_gen_ptr s;
  lk_two : has_jump t 0 → has_jump t 1 → jump_site t 0 + 4 ≤ jump_site t 1 ∨ jump_site t 1 + 4 ≤ jump_site t 0;
}.

Definition linked_tb t (phys_pc phys_page2 : Z) : TranslationBlock :=
  set_page_addr (Z.land phys_pc TARGET_PAGE_MASK, phys_page2) t.

Lemma linked_phys_pc t phys_pc phys_page2 : in_width 64 phys_pc → phys_pc mod 4096 = tb_pc t mod 4096 →
  tb_phys_pc (linked_tb t phys_pc phys_page2) = phys_pc.
Proof.
  intros Hw E. unfold tb_phys_pc, linked_tb. simpl. unfold page_offset_of. rewrite page_offset, page_mask, <-E.
  replace (phys_pc - phys_pc mod 4096 + phys_pc mod 4096) with phys_pc by lia. by apply wrap_small.
Qed.

Lemma push_pages_elem tb a0 a1 pg index x :
  x ∈ push_pages tb a0 a1 pg index ↔ x ∈ pg index ∨ (x = (tb, O) ∧ Z.shiftr a0 TARGET_PAGE_BITS = index) ∨
    (x = (tb, 1%nat) ∧ a1 ≠ NO_PAGE ∧ Z.shiftr a1 TARGET_PAGE_BITS = index).
Proof.
  unfold push_pages. set (i0 := Z.shiftr a0 TARGET_PAGE_BITS). set (i1 := Z.shiftr a1 TARGET_PAGE_BITS).
  assert (H1' : x ∈ (<[i0 := (tb, O) :: pg i0]> pg) index ↔ x ∈ pg index ∨ (x = (tb, O) ∧ i0 = index)).
  { destruct (decide (i0 = index)) as [<-|Ne]; [rewrite fn_lookup_insert|rewrite fn_lookup_insert_ne by done]; [|naive_solver].
    rewrite elem_of_cons. naive_solver. }
  destruct (decide (a1 = NO_PAGE)) as [->|Na]; [naive_solver|].
  destruct (decide (i1 = index)) as [E|Ne]; [rewrite E, fn_lookup_insert|rewrite fn_lookup_insert_ne by done]; [|naive_solver].
  rewrite elem_of_cons. naive_solver.
Qed.

Lemma insert_listed s s' v tb t : listed s v → tb ∉ v_live v → grows tb s s' → tb_cpu s' = tb_cpu s → data s' tb = Some t →
  (page_addr t).1 ≠ NO_PAGE → page_dom s' (Z.shiftr (page_addr t).1 TARGET_PAGE_BITS) →
  ((page_addr t).2 ≠ NO_PAGE → page_dom s' (Z.shiftr (page_addr t).2 TARGET_PAGE_BITS)) →
  none_listed s' (v_page (insert_view tb t v)) → listed s' (insert_view tb t v).
Proof.
  intros [A B C N D F] Hnew G U Ht H0' Hd0 Hd1 HN.
  assert (Hdat : ∀ i u, i ∈ v_live v → data s' i = Some u ↔ data s i = Some u) by (intros i u Hi; by rewrite (g_data _ _ _ G) by (intros ->; done)).
  assert (Hlive : ∀ i, i ∈ {[tb]} ∪ v_live v → i = tb ∨ (i ≠ tb ∧ i ∈ v_live v)) by (intros i Hi; destruct (decide (i = tb)); set_solver).
  assert (Hon : ∀ n index, on_page t n index ↔ (n = O ∧ Z.shiftr (page_addr t).1 TARGET_PAGE_BITS = index) ∨
      (n = 1%nat ∧ (page_addr t).2 ≠ NO_PAGE ∧ Z.shiftr (page_addr t).2 TARGET_PAGE_BITS = index)).
  { intros n index. unfold on_page. destruct n as [|[|n]]; simpl; naive_solver. }
  assert (Hpd : ∀ k, index_ok k → v_page v k ≠ [] → page_dom s k).
  { intros k Hk Hp. split; [done|]. unfold page_exists. destruct (page_find (l1_map s) k) eqn:E; [eauto|].
    destruct Hp. apply N; [done|]. unfold page_exists. rewrite E. by intros []. }
  split; simpl.
  - intros h i. destruct (decide (hash_key t = h)) as [<-|Ne]; [rewrite fn_lookup_insert, elem_of_cons|rewrite fn_lookup_insert_ne by done]; rewrite A.
    + split; [intros [->|(Hi & u & Hu & E)]; [set_solver|]|].
      * split; [set_solver|]. exists u. by rewrite Hdat.
      * intros [[->|[Ni Hi]]%Hlive (u & Hu & E)]; [by left|right]. split; [done|]. exists u. by rewrite <-Hdat.
    + split; [intros (Hi & u & Hu & E); split; [set_solver|]; exists u; by rewrite Hdat|].
      intros [[->|[Ni Hi]]%Hlive (u & Hu & E)]; [congruence|]. split; [done|]. exists u. by rewrite <-Hdat.
  - intros index i n [Hi Hd]. rewrite push_pages_elem. split.
    + intros [Hx|Hx].
      * assert (Hdk : page_dom s index) by (apply Hpd; [done|]; intros E; rewrite E in Hx; by apply not_elem_of_nil in Hx).
        apply B in Hx as (Hl & u & Hu & Ho); [|done]. split; [set_solver|]. exists u. by rewrite Hdat.
      * assert (i = tb) as -> by naive_solver. split; [set_solver|]. exists t. split; [done|]. apply Hon. naive_solver.
    + intros [[->|[Ni Hl]]%Hlive (u & Hu & Ho)].
      * rewrite Ht in Hu. injection Hu as <-. right. apply Hon in Ho. naive_solver.
      * left. rewrite Hdat in Hu by done. apply B; [by eapply C|]. eauto.
  - intros i u n index [->|[Ni Hi]]%Hlive Hu Ho.
    + rewrite Ht in Hu. injection Hu as <-. apply Hon in Ho as [[_ <-]|(_ & Hne & <-)]; auto.
    + rewrite Hdat in Hu by done. destruct (C i u n index Hi Hu Ho) as [H1' H2']. split; [done|]. by apply G.
  - apply HN.
  - intros i u [->|[Ni Hi]]%Hlive Hu; [congruence|]. rewrite Hdat in Hu by done. by eapply D.
  - rewrite U. intros h i Hi. destruct (F h i Hi) as (Hl & u & Hu & E). split; [set_solver|]. exists u. by rewrite Hdat.
Qed.

Lemma insert_layout s s' v tb t u (phys_pc phys_page2 : Z) : layout s (v_live v) → linkable s v tb t phys_pc phys_page2 → grows tb s s' →
  data s' tb = Some u → tb_tc_ptr u = tb_tc_ptr t → (∀ n, has_jump u n ↔ has_jump t n) → (∀ n, jump_site u n = jump_site t n) →
  layout s' ({[tb]} ∪ v_live v).
Proof.
  intros [A B C D F G I J K] [L1 L2 L3 _ _ _ L4 L5] Gr Hu Etc Hj Hs. pose proof (g_fixed _ _ _ Gr) as R. unfold fixed in R.
  injection R as Rnb Rmax Rbuf _ _ Rptr _ _ _ _ _.
  assert (Hdat : ∀ i w, data s' i = Some w → ∃ w0, data s i = Some w0 ∧ tb_tc_ptr w = tb_tc_ptr w0 ∧ (i ≠ tb → w0 = w)).
  { intros i w Hw. destruct (decide (i = tb)) as [->|Ne].
    - exists t. split_and!; [done|congruence|done].
    - exists w. by rewrite <-(g_data _ _ _ Gr) by done. }
  assert (Hlive : ∀ i, i ∈ {[tb]} ∪ v_live v → i = tb ∨ (i ≠ tb ∧ i ∈ v_live v)) by (intros i Hi; destruct (decide (i = tb)); set_solver).
  split; rewrite ?Rnb, ?Rmax, ?Rbuf, ?Rptr, ?(g_len _ _ _ Gr); try done.
  - intros i [->|[_ Hi]]%Hlive; [lia|by apply C].
  - intros i w Hi Hw. destruct (Hdat i w Hw) as (w0 & Hw0 & -> & _). by eapply D.
  - intros i j w x Hij Hjn Hw Hx. destruct (Hdat i w Hw) as (w0 & Hw0 & -> & _), (Hdat j x Hx) as (x0 & Hx0 & -> & _). by eapply F.
  - intros i w n [->|[Ne Hi]]%Hlive Hw Hn.
    + rewrite Hu in Hw. injection Hw as <-. rewrite Hs, Etc. destruct (L4 n) as [Hl4 Hl4']; [by apply Hj|]. split_and!; [done..|].
      intros j x Hlt Hjn. lia.
    + destruct (Hdat i w Hw) as (w0 & Hw0 & _ & E). rewrite (E Ne) in Hw0. destruct (G i w n Hi Hw0 Hn) as (G1 & G2 & G3). split_and!; [done..|].
      intros j x Hlt Hjn Hx. destruct (Hdat j x Hx) as (x0 & Hx0 & -> & _). by eapply G3.
  - intros i w [->|[Ne Hi]]%Hlive Hw.
    + rewrite Hu in Hw. injection Hw as <-. rewrite !Hj, !Hs. done.
    + destruct (Hdat i w Hw) as (w0 & Hw0 & _ & E). rewrite (E Ne) in Hw0. by eapply I.
  - intros i w Hi Hw. destruct (Hdat i w Hw) as (w0 & Hw0 & -> & _). by apply K.
Qed.

Lemma insert_chained s s1 s' v tb t u : chained s v → tb ∉ v_live v → layout s' ({[tb]} ∪ v_live v) → grows tb s s1 →
  tc_code s1 = tc_code s → (∀ q, jump_slot q → rd s1 q = rd s q) → block_init tb s1 s' t → data s' tb = Some t → u = t →
  chained s' (insert_view tb u v).
Proof.
  intros [A B C D] Hnew HL Gr Hc Hr [K U L F N Cd Ex] Ht ->.
  assert (Hlive : ∀ i, i ∈ {[tb]} ∪ v_live v → i = tb ∨ (i ≠ tb ∧ i ∈ v_live v)) by (intros i Hi; destruct (decide (i = tb)); set_solver).
  assert (Hdat : ∀ i, i ≠ tb → data s' i = data s i) by (intros i Hi; by rewrite (k_data _ _ K), (g_data _ _ _ Gr)).
  assert (Hjs : ∀ j x, j ∈ {[tb]} ∪ v_live v → x ∈ <[tb := []]> (v_jumps v) j → j ≠ tb ∧ j ∈ v_live v ∧ x ∈ v_jumps v j).
  { intros j x [->|[Ne Hj]]%Hlive; [rewrite fn_lookup_insert; by intros ?%not_elem_of_nil|]. by rewrite fn_lookup_insert_ne. }
  assert (Hjs' : ∀ j, j ∈ v_live v → <[tb := []]> (v_jumps v) j = v_jumps v j) by (intros j Hj; rewrite fn_lookup_insert_ne by (by intros ->); done).
  assert (Hsite : ∀ i w n, i ∈ v_live v → data s' i = Some w → has_jump w n → tc_code s' !! jump_site w n = tc_code s !! jump_site w n).
  { intros i w n Hi Hw Hn. rewrite Cd, Hc; [done|]. intros m Hm E. assert ((tb, m) = (i, n)) as [= -> _]; [|done].
    by eapply (sites_inj s'); [exact HL|set_solver|set_solver|..]. }
  split; simpl.
  - intros j x Hj Hx. destruct (Hjs j x Hj Hx) as (Nj & Hj' & Hx'). destruct (A j x Hj' Hx') as (Hl & w & Hw & Hn). split; [set_solver|].
    exists w. rewrite Hdat; [done|]. intros E. by rewrite E in Hl.
  - intros i n [->|[Ne Hi]]%Hlive Hn Hno; rewrite N by done; [by rewrite decide_True|]. rewrite decide_False by done. rewrite Hr by done.
    apply B; [done..|]. intros j Hj Hx. apply (Hno j); [set_solver|]. by rewrite Hjs'.
  - intros i w n [->|[Ne Hi]]%Hlive Hw Hn Hno.
    + rewrite Ht in Hw. injection Hw as <-. apply Ex; [|done]. intros H0' H1' E. destruct (lay_two _ _ HL tb t ltac:(set_solver) Ht H0' H1'); lia.
    + rewrite (Hsite i w n) by done. rewrite Hdat in Hw by done. apply (C i w n); [done..|]. intros j Hj Hx. apply (Hno j); [set_solver|]. by rewrite Hjs'.
  - intros i j w x n Hj Hx Hw Hxd. destruct (Hjs j _ Hj Hx) as (Nj & Hj' & Hx'). destruct (A j _ Hj' Hx') as (Hl & w' & Hw' & Hn). simpl in *.
    assert (Ni : i ≠ tb) by (by intros ->). rewrite (Hsite i w n); [|done|done|].
    + rewrite Hdat in Hw, Hxd by done. by apply (D i j).
    + rewrite Hdat in Hw by done. by simplify_eq.
Qed.

Record linked s s' v tb t : Prop := {
  ln_inv : cache_inv s' (insert_view tb t v);
  ln_data : data s' tb = Some t;
  ln_others : ∀ i, i ≠ tb → data s' i = data s i;
  ln_fixed : fixed s' = fixed s;
  ln_len : length (tbs s') = length (tbs s);
  ln_blocks : ram_blocks (tb_ram s') = ram_blocks (tb_ram s);
  ln_grows : ∀ index bm, index_ok index → bm_at s' index = Some bm → bm_at s index = Some bm;
  ln_bitmap : ∀ n index, on_page t n index → bm_at s' index = None;
  ln_next : ∀ i, i ≠ tb → rd s' (SHashNext i) = rd s (SHashNext i);
}.

Lemma tb_link_page_ok s v tb t phys_pc phys_page2 : cache_inv s v → linkable s v tb t phys_pc phys_page2 →
  ∃ s', tb_link_page tb phys_pc phys_page2 s = Ok () s' ∧ linked s s' v tb (linked_tb t phys_pc phys_page2).
Proof.
  intros [Hok HLa HLi HH HP HJ HC HR HG] HLk. pose proof HLk as [L1 L2 L3 [L4 L5] L6 L7 L8 L9].
  set (t' := linked_tb t phys_pc phys_page2). set (h := tb_phys_hash_func phys_pc).
  assert (Hh : hash_key t' = h) by (unfold hash_key; unfold t'; by rewrite linked_phys_pc).
  destruct (push_hash_ok s (v_hash v) h tb) as (w & Hw & E1 & K1 & C1 & U1 & F1 & R1 & X1); [done|done| | |].
  { unfold data in L3. apply fmap_Some in L3 as (? & ? & _). by eexists. }
  { intros k Hk. apply (li_hash _ _ HLi) in Hk as [Hk _]. done. }
  set (s1 := wr (SHash h) _ _) in *.
  assert (R1p : ∀ q, page_slot q → slot_ok q → rd s1 q = rd s q) by (intros q Hq Hqo; apply R1; [destruct q; simpl in *; tauto|done]).
  destruct (link_pages_ok s1 tb (Z.land phys_pc TARGET_PAGE_MASK) phys_page2 t (v_page v)) as (s2 & E2 & [G2 D2 C2 F2 [M2 M2'] N2 Li2 [X2 X2'] [R2 B2] Gu2]).
  { by apply K1. } { by eapply page_frame; [exact R1p|apply K1|]. }
  { intros k Hk. rewrite (k_pages _ _ K1 k). by apply HLi. }
  { intros k [Hk Hk'] Hne. rewrite (keeps_ram _ _ K1). apply HG; [|done]. split; [done|]. by apply K1. }
  { by rewrite (keeps_ram _ _ K1). } { unfold code_page in *. by rewrite (keeps_ram _ _ K1). } { unfold code_page in *. by rewrite (keeps_ram _ _ K1). }
  { by rewrite (k_data _ _ K1). }
  { intros k n Hk Hx. destruct (decide (is_Some (page_find (l1_map s) k))) as [He|He].
    - apply (li_page _ _ HLi k tb n) in Hx as [Hx _]; [done|by split].
    - rewrite (li_page_none _ _ HLi k Hk He) in Hx. by apply not_elem_of_nil in Hx. }
  assert (G1 : grows tb s s1) by (by apply keeps_grows).
  assert (G02 : grows tb s s2) by (by etrans).
  assert (Hok2 : tree_ok L1_MAP_ADDR_SPACE_BITS (l1_map s2)) by (by apply G02).
  destruct (init_block_ok s2 tb t' Hok2 D2) as (s3 & E3 & BI). pose proof BI as [K3 U3 Li3 Fi3 Nx3 Cd3 Ex3].
  assert (G03 : grows tb s s3) by (etrans; [exact G02|by apply keeps_grows]).
  assert (D3 : data s3 tb = Some t') by (by rewrite (k_data _ _ K3)).
  assert (Hlay : layout s3 ({[tb]} ∪ v_live v)) by (by eapply insert_layout).
  assert (Hrj : ∀ q, jump_slot q → rd s2 q = rd s q).
  { intros q Hq. rewrite Li2, R1; destruct q; simpl in *; tauto. }
  exists s3. split.
  { unfold tb_link_page. rewrite (bind_Ok _ _ _ _ _ (ld_ok _ _ _ Hw)). rewrite <-bind_assoc, (bind_Ok _ _ _ _ _ E1).
    rewrite <-bind_assoc. unfold link_pages in E2. by rewrite (bind_Ok _ _ _ _ _ E2). }
  split; [|done|by intros; apply G03|by apply G03|by apply G03|by rewrite (keeps_ram _ _ K3), B2, (keeps_ram _ _ K1)|apply G03| |
    intros i Hi; rewrite Li3, Li2, X1 by (done || (simpl; tauto)); done].
  2: { assert (Hlast : ∀ k, index_ok k → bm_at s2 k = None → bm_at s3 k = None).
       { intros k Hk E. destruct (bm_at s3 k) as [bm|] eqn:Eb; [|done]. apply (k_bitmap _ _ K3) in Eb; congruence. }
       intros n k (a & Ha & Hne & <-). destruct n as [|[|n]]; simpl in Ha; [| |done]; simplify_eq; apply Hlast; auto; [apply M2|by apply M2']. }
  split; simpl.
  - by apply G03.
  - done.
  - eapply insert_listed; [exact HLi|done|exact G03| |exact D3|..].
    + pose proof (g_fixed _ _ _ G03) as R. unfold fixed in R. by injection R as _ _ _ _ _ _ _ _ _ _ R.
    + simpl. destruct L6 as (_ & Ha & _). intros E. rewrite E in Ha. vm_compute in Ha. done.
    + simpl. destruct M2 as [M M']. split; [done|]. by apply K3.
    + simpl. intros Hne. destruct (M2' Hne) as [M M']. split; [done|]. by apply K3.
    + intros k Hk. rewrite (k_pages _ _ K3 k). by apply N2.
  - rewrite Hh. eapply hash_frame; [|exact F1]. intros q Hq. rewrite Li3, Li2; destruct q; simpl in *; tauto.
  - eapply page_frame; [..|exact F2]; [intros q Hq _; apply Li3; destruct q; simpl in *; tauto|apply K3].
  - eapply (fam_extend _ _ _ _ (λ i, i ∈ v_live v)); [set_solver|rewrite Fi3; by rewrite decide_True|exact L1|].
    eapply fam_frame_used; [| |eapply jump_frame; [exact Hrj|exact HJ]].
    + intros j Hj. rewrite Fi3, decide_False by (by intros ->). done.
    + intros j [i n] Hj Hx. change (nx_jmp (i, n)) with (SJmpNext i n). rewrite Nx3, decide_False; [done| |by apply (fam_elt _ _ _ _ _ _ _ HJ j _ Hj Hx)].
      intros ->. by destruct (ch_from _ _ HC j _ Hj Hx) as [Hx' _].
  - eapply (insert_chained s s2 s3); [done..|congruence|done|exact BI|done|done].
  - by rewrite (keeps_ram _ _ K3).
  - intros k [Hk Hk'] Hne. rewrite (keeps_ram _ _ K3). apply Gu2; [|done]. split; [done|]. by apply K3.
Qed.
End Insert.
