(* ===== verification/TBGen.v ===== *)
(** * Allocating, generating and flushing blocks

    [tb_alloc], [tb_flush], [tb_free] and [tb_gen_code]: when the array or the
    buffer is full the whole cache is dropped, otherwise a new block is translated
    behind the last one and linked. *)

From S2P Require Import Prelude CFile CString HostMem RamList Radix PhysPages RRTypes PandaCallbacks.
From S2P Require Import RRState RRReplay TBCache TBLists TBInv TBRemove TBInsert.
From stdpp Require Import functions list.
Local Open Scope Z_scope.

(** The size of the host code of one block is at most [TCG_MAX_OP_SIZE * OPC_BUF_SIZE],
    which [code_gen_alloc] leaves free at the end of the buffer. *)
Definition TCG_MAX_OP_SIZE : Z := 192.
Definition OPC_BUF_SIZE : Z := 640.

(** What the translator promises about a block it made: a block covers at least one
    byte and at most a page; its jumps lie in its code and apart. *)
Record gen_ok (g : gen_out) : Prop := {
  go_size : 1 ≤ g_size g ≤ TARGET_PAGE_SIZE;
  go_code : 0 ≤ g_code_size g ≤ TCG_MAX_OP_SIZE * OPC_BUF_SIZE;
  go_jump : ∀ n o j, get2 (g_next_offset g) n = Some o → o ≠ 0xffff → get2 (g_jmp_offset g) n = Some j →
    0 ≤ j ∧ j + 4 ≤ g_code_size g;
  go_two : (g_next_offset g).1 ≠ 0xffff → (g_next_offset g).2 ≠ 0xffff →
    (g_jmp_offset g).1 + 4 ≤ (g_jmp_offset g).2 ∨ (g_jmp_offset g).2 + 4 ≤ (g_jmp_offset g).1;
}.
Class TranslatorLaws (Regs : Type) `{!Translator Regs} := {
  gen_laws : ∀ r q t g, cpu_gen_code r q t = Some g → gen_ok g;
}.

Section Gen.
Context `{PhysSpace} `{TargetLong} {Regs : Type} `{!Translator Regs} `{!TranslatorLaws Regs} `{!SpaceOk L1_MAP_ADDR_SPACE_BITS}.
Implicit Types (s : tb_state Regs) (p q : slot) (i j n tb : nat) (v : view) (t : TranslationBlock).

(** The buffer, as [code_gen_alloc] sets it up. *)
Record buffer_ok s : Prop := {
  bo_ptr : code_gen_buffer s ≤ code_gen_ptr s ≤ code_gen_buffer s + code_gen_buffer_size s;
  bo_addr : 0 < code_gen_buffer s ∧ code_gen_buffer s + code_gen_buffer_size s + 16 < 2 ^ 64;
  bo_align : code_gen_buffer s mod 16 = 0 ∧ code_gen_ptr s mod 16 = 0 ∧ code_gen_buffer_size s mod 16 = 0;
  bo_max : 0 < code_gen_buffer_max_size s ∧ code_gen_buffer_max_size s + TCG_MAX_OP_SIZE * OPC_BUF_SIZE ≤ code_gen_buffer_size s;
  bo_blocks : 0 < code_gen_max_blocks s;
}.

(** Guest code is fetched from RAM, at the same offset in its page. *)
Definition code_in_ram s : Prop := ∀ a ph, get_page_addr_code (cpu_regs (tb_cpu s)) a = Some ph →
  in_width 64 ph ∧ ph mod 4096 = a mod 4096 ∧ code_page s (Z.land ph TARGET_PAGE_MASK).

(** ** Flushing *)

Definition empty_view : view := mkView ∅ (λ _, []) (λ _, []) (λ _, []).

Lemma used_wrap s : buffer_ok s → wrap 64 (code_gen_ptr s - code_gen_buffer s) = code_gen_ptr s - code_gen_buffer s.
Proof. intros [A [B C] _ _ _]. apply wrap_small. unfold in_width. lia. Qed.

Record flushed s s' : Prop := {
  fl_inv : cache_inv s' empty_view;
  fl_buffer : buffer_ok s';
  fl_nb : nb_tbs s' = 0;
  fl_ptr : code_gen_ptr s' = code_gen_buffer s';
  fl_sizes : code_gen_max_blocks s' = code_gen_max_blocks s ∧ code_gen_buffer_max_size s' = code_gen_buffer_max_size s ∧
             code_gen_buffer s' = code_gen_buffer s;
  fl_rest : tb_ram s' = tb_ram s ∧ tb_rr s' = tb_rr s ∧ tb_trace s' = tb_trace s ∧
            tb_invalidated_flag s' = tb_invalidated_flag s ∧ tb_cpu s' = set_tb_jmp_cache ∅ (tb_cpu s);
  fl_tbs : tbs s' = tbs s;
  fl_bitmap : ∀ k, bm_at s' k = None;
}.

Lemma tb_flush_ok s v : cache_inv s v → buffer_ok s → ∃ s', tb_flush s = Ok () s' ∧ flushed s s'.
Proof.
  intros [Hok HLa _ _ _ _ _ HR _] HB. pose proof HB as [B1 B2 B3 B4 B5].
  unfold tb_flush. rewrite !bind_gets. rewrite (used_wrap s HB).
  assert (Hle : (code_gen_ptr s - code_gen_buffer s <=? code_gen_buffer_size s) = true) by (apply Z.leb_le; lia).
  rewrite (bind_Ok _ _ _ _ _ (assert_true _ _ s Hle)).
  rewrite bind_modify. unfold upd_cpu. rewrite !bind_modify. eexists. split; [reflexivity|]. set (s' := set_tb_flush_count _ _).
  assert (Hf : ∀ k, page_find (l1_map s') k = (λ d, invalidate_page_bitmap (set_first_tb None d)) <$> page_find (l1_map s) k) by (intros k; apply tree_map_find).
  assert (Hok' : tree_ok L1_MAP_ADDR_SPACE_BITS (l1_map s')) by (by apply tree_map_ok).
  split; [|split|done..|].
  - split; simpl.
    + done.
    + split; simpl; try done; try lia; try apply HLa.
    + split; simpl; intros; set_solver.
    + apply fam_empty. intros k _. done.
    + apply fam_empty. intros k [_ [d Hd]]. unfold rd. rewrite Hd. simpl. f_equal.
      rewrite Hf in Hd. apply fmap_Some in Hd as (d0 & _ & ->). done.
    + apply fam_empty. intros; set_solver.
    + split; simpl; intros; set_solver.
    + done.
    + intros k _ Hk. done.
  - simpl. lia.
  - done.
  - simpl. tauto.
  - done.
  - done.
  - intros k. unfold bm_at. rewrite Hf. by destruct (page_find (l1_map s) k).
Qed.
(** ** A new block *)

(** A state that differs in a block that is not live and in code no live block
    jumps from. *)
Record fresh s s' (live : gset nat) tb : Prop := {
  fr_not : tb ∉ live;
  fr_tbs : ∃ f, tbs s' = alter f tb (tbs s);
  fr_lists : tb_phys_hash s' = tb_phys_hash s ∧ l1_map s' = l1_map s;
  fr_cache : tb_jmp_cache (tb_cpu s') = tb_jmp_cache (tb_cpu s);
  fr_ram : tb_ram s' = tb_ram s;
  fr_code : ∀ a, a + 4 ≤ code_gen_ptr s → tc_code s' !! a = tc_code s !! a;
}.

Lemma fresh_data s s' live tb : fresh s s' live tb → ∀ i, i ∈ live → data s' i = data s i.
Proof. intros [Hn (f & Ef) _ _ _ _] i Hi. unfold data. rewrite Ef, list_lookup_alter_ne; [done|]. by intros ->. Qed.

Lemma fresh_rd s s' live tb : fresh s s' live tb → ∀ q,
  match q with SHashNext i | SPageNext i _ | SJmpNext i _ | SJmpFirst i => i ≠ tb | _ => True end → rd s' q = rd s q.
Proof.
  intros [Hn (f & Ef) [Eh Ep] _ _ _] q Hq. unfold rd. destruct q; rewrite ?Eh, ?Ep; try done;
    rewrite Ef, list_lookup_alter_ne; done.
Qed.

Lemma fresh_layout s s' live tb t : layout s live → fresh s s' live tb → Z.of_nat tb = nb_tbs s → nb_tbs s < code_gen_max_blocks s →
  nb_tbs s' = nb_tbs s + 1 → code_gen_max_blocks s' = code_gen_max_blocks s → code_gen_buffer s' = code_gen_buffer s →
  code_gen_buffer s ≤ code_gen_ptr s ≤ code_gen_ptr s' → code_gen_ptr s mod 16 = 0 → data s' tb = Some t → tb_tc_ptr t = code_gen_ptr s → layout s' live.
Proof.
  intros [A B C D E F G K L] HF Etb Hlt Enb Emx Ebuf Hptr Hal Ht Etc. pose proof HF as [Hn (f & Ef) _ _ _ _].
  assert (Hd : ∀ i, i ≠ tb → data s' i = data s i) by (intros i Hi; unfold data; rewrite Ef, list_lookup_alter_ne; done).
  assert (Hl : ∀ i, i ∈ live → i ≠ tb) by (by intros i Hi ->).
  split.
  - rewrite Ef, length_alter. congruence.
  - lia.
  - intros i Hi. specialize (C i Hi). lia.
  - intros i u Hi Hu. destruct (decide (i = tb)) as [->|Ne]; [simplify_eq; lia|]. rewrite Hd in Hu by done.
    pose proof (D i u ltac:(lia) Hu). lia.
  - intros i j u w Hij Hj Hu Hw. destruct (decide (j = tb)) as [->|Ne].
    + destruct (decide (i = tb)) as [->|Ni]; [by simplify_eq|]. rewrite Hd in Hu by done. pose proof (D i u ltac:(lia) Hu). simplify_eq. lia.
    + assert (i ≠ tb) by lia. rewrite !Hd in * by done. eapply E; [..|exact Hu|exact Hw]; lia.
  - intros i u n Hi Hu Hj. rewrite Hd in Hu by auto. destruct (F i u n Hi Hu Hj) as (F1 & F2 & F3). split_and!; [done|lia|].
    intros j w Hij Hjn Hw. destruct (decide (j = tb)) as [->|Ne]; [simplify_eq; lia|]. rewrite Hd in Hw by done. eapply F3; [done|lia|done].
  - intros i u Hi Hu. rewrite Hd in Hu by auto. by apply (G i).
  - lia.
  - intros i u Hi Hu. destruct (decide (i = tb)) as [->|Ne].
    + assert (u = t) as -> by congruence. split; [congruence|]. intros E0. rewrite Etc, Ebuf. apply K. lia.
    + rewrite Hd in Hu by done. rewrite Ebuf. apply L; [lia|done].
Qed.

Lemma fresh_inv s s' v tb : cache_inv s v → fresh s s' (v_live v) tb → layout s' (v_live v) → cache_inv s' v.
Proof.
  intros [Hok HLa HLi HH HP HJ HC HR HG] HF HLa'. pose proof HF as [Hn _ [Eh Ep] Ec Er Ecode].
  pose proof (fresh_data _ _ _ _ HF) as Hd. pose proof (fresh_rd _ _ _ _ HF) as Hrd.
  assert (Hl : ∀ i, i ∈ v_live v → i ≠ tb) by (by intros i Hi ->).
  assert (Hdom : ∀ k, page_dom s' k ↔ page_dom s k) by (intros k; unfold page_dom, page_exists; by rewrite Ep).
  split; [by rewrite Ep|done|..].
  - pose proof HLi as [A B C D E F]. split.
    + intros h i. rewrite A. split; intros (Hi & u & Hu); (split; [done|]); exists u; [rewrite Hd|rewrite <-Hd]; done.
    + intros k i n Hk. rewrite B by (by apply Hdom). split; intros (Hi & u & Hu); (split; [done|]); exists u; [rewrite Hd|rewrite <-Hd]; done.
    + intros i u n k Hi Hu Ho. rewrite Hd in Hu by done. apply Hdom. by eapply C.
    + intros k Hk. unfold page_exists. rewrite Ep. by apply D.
    + intros i u Hi Hu. rewrite Hd in Hu by done. by eapply E.
    + intros h i. rewrite Ec. intros Hi. destruct (F h i Hi) as (Hi' & u & Hu & ?). split; [done|]. exists u. by rewrite Hd.
  - eapply fam_frame_used; [..|exact HH]; [intros; by apply Hrd|]. intros h x _ Hx. apply Hrd. simpl.
    apply list_elem_of_fmap in Hx as (i & -> & Hi). apply (li_hash _ _ HLi) in Hi as [Hi _]. by apply Hl.
  - eapply (fam_ext _ _ _ _ (page_dom s)); [intros; by apply Hdom|done|].
    eapply fam_frame_used; [..|exact HP]; [intros; by apply Hrd|]. intros k [i n] Hk Hx. apply Hrd. simpl.
    apply (li_page _ _ HLi k i n Hk) in Hx as [Hi _]. by apply Hl.
  - eapply fam_frame_used; [..|exact HJ]; [intros; apply Hrd; by apply Hl|]. intros j x Hj Hx. apply Hrd. simpl.
    destruct (ch_from _ _ HC j x Hj Hx) as [Hi _]. by apply Hl.
  - pose proof HC as [A B C D]. split.
    + intros j x Hj Hx. destruct (A j x Hj Hx) as (Hi & u & Hu & ?). split; [done|]. exists u. by rewrite Hd.
    + intros i n Hi Hn' Hx. rewrite Hrd by (by apply Hl). by apply B.
    + intros i u n Hi Hu Hj Hx. rewrite Hd in Hu by done. rewrite Ecode; [by apply (C i)|]. by apply (lay_site _ _ HLa i u n).
    + intros i j u w n Hj Hx Hu Hw. destruct (A j _ Hj Hx) as (Hi & u' & Hu' & Hhj). simpl in *. rewrite !Hd in * by done. simplify_eq.
      rewrite Ecode; [by apply (D i j)|]. by apply (lay_site _ _ HLa i u n).
  - by rewrite Er.
  - intros k Hk Hne. rewrite Er. apply HG; [by apply Hdom|done].
Qed.
(** ** Allocation *)

Definition full s : Prop :=
  code_gen_max_blocks s ≤ nb_tbs s ∨ code_gen_buffer_max_size s ≤ code_gen_ptr s - code_gen_buffer s.
#[global] Instance full_dec s : Decision (full s).
Proof. unfold full. apply _. Defined.

Definition allocated (pc : Z) s : tb_state Regs :=
  set_tbs (alter (λ t, set_tb_cflags 0 (set_tb_pc pc t)) (Z.to_nat (nb_tbs s)) (tbs s)) (set_nb_tbs (nb_tbs s + 1) s).

Lemma tb_alloc_full s pc : buffer_ok s → full s → tb_alloc pc s = Ok None s.
Proof.
  intros HB Hf. unfold tb_alloc. rewrite !bind_gets, (used_wrap s HB).
  assert (E : (code_gen_max_blocks s <=? nb_tbs s) || (code_gen_buffer_max_size s <=? code_gen_ptr s - code_gen_buffer s) = true).
  { apply orb_true_iff. rewrite !Z.leb_le. exact Hf. }
  by rewrite E.
Qed.

Lemma nth_block s live : layout s live → nb_tbs s < code_gen_max_blocks s → ∃ t, tbs s !! Z.to_nat (nb_tbs s) = Some t.
Proof. intros [A B _ _ _ _ _ _ _] Hlt. apply lookup_lt_is_Some_2. lia. Qed.

Lemma tb_alloc_ok s live pc : layout s live → buffer_ok s → ¬ full s → tb_alloc pc s = Ok (Some (Z.to_nat (nb_tbs s))) (allocated pc s).
Proof.
  intros HL HB Hf. unfold tb_alloc. rewrite !bind_gets, (used_wrap s HB).
  assert (E : (code_gen_max_blocks s <=? nb_tbs s) || (code_gen_buffer_max_size s <=? code_gen_ptr s - code_gen_buffer s) = false).
  { apply orb_false_iff. rewrite !Z.leb_gt. unfold full in Hf. lia. }
  rewrite E, bind_modify. destruct (nth_block s live HL ltac:(unfold full in Hf; lia)) as [t Ht].
  by rewrite (bind_Ok _ _ _ _ _ (upd_tb_ok (set_nb_tbs (nb_tbs s + 1) s) _ t _ Ht)).
Qed.

Lemma not_in_live s live : layout s live → Z.to_nat (nb_tbs s) ∉ live.
Proof. intros [A B C _ _ _ _ _ _] Hi. specialize (C _ Hi). lia. Qed.

(** [tb_alloc], and the flush that makes room. *)
Definition room (pc : Z) : TBM Regs nat :=
  o ← tb_alloc pc;
  match o with
  | Some tb => mret tb
  | None => tb_flush;; o ← tb_alloc pc; tb ← nonnull o; modify (set_tb_invalidated_flag true);; mret tb
  end.

(** The CPU, but for its cache of blocks. *)
Definition same_cpu s s' : Prop := set_tb_jmp_cache ∅ (tb_cpu s') = set_tb_jmp_cache ∅ (tb_cpu s).

(** The cache a new block enters: the old one, or an empty one. *)
Record roomy s s1 v v1 : Prop := {
  rm_inv : cache_inv s1 v1;
  rm_buffer : buffer_ok s1;
  rm_room : ¬ full s1;
  rm_view : (¬ full s ∧ v1 = v ∧ s1 = s) ∨ (full s ∧ v1 = empty_view ∧ tb_invalidated_flag s1 = true);
  rm_regs : cpu_regs (tb_cpu s1) = cpu_regs (tb_cpu s);
  rm_ram : tb_ram s1 = tb_ram s;
  rm_rr : tb_rr s1 = tb_rr s;
  rm_tbs : tbs s1 = tbs s;
  rm_bitmap : ∀ k bm, bm_at s1 k = Some bm → bm_at s k = Some bm ∧ v1 = v;
  rm_cache : tb_jmp_cache (tb_cpu s1) ⊆ tb_jmp_cache (tb_cpu s);
  rm_cpu : same_cpu s s1;
}.

Lemma room_ok s v pc : cache_inv s v → buffer_ok s →
  ∃ s1 v1, room pc s = Ok (Z.to_nat (nb_tbs s1)) (allocated pc s1) ∧ roomy s s1 v v1.
Proof.
  intros HI HB. unfold room. destruct (decide (full s)) as [Hf|Hf].
  - rewrite (bind_Ok _ _ _ _ _ (tb_alloc_full s pc HB Hf)).
    destruct (tb_flush_ok s v HI HB) as (s1 & E1 & [FI FB Fn Fp (Fm & Fs & Fb) (Fr & Frr & _ & _ & Fc) Ft Fbm]). rewrite (bind_Ok _ _ _ _ _ E1).
    assert (Hnf : ¬ full s1) by (pose proof HB as [_ _ _ [? _] ?]; unfold full; lia).
    rewrite (bind_Ok _ _ _ _ _ (tb_alloc_ok s1 _ pc (ci_layout _ _ FI) FB Hnf)).
    exists (set_tb_invalidated_flag true s1), empty_view. split; [done|]. split; try done.
    + destruct FI as [A [B1 B2 B3 B4 B5 B6 B7 B8 B9] [C1 C2 C3 C4 C5 C6] D E F [G1 G2 G3 G4] I0 J]. by split; [|split|split|..|split| |].
    + destruct FB. by split.
    + right. done.
    + simpl. by rewrite Fc.
    + intros k bm Hk. change (bm_at s1 k = Some bm) in Hk. by rewrite Fbm in Hk.
    + simpl. rewrite Fc. apply map_empty_subseteq.
    + unfold same_cpu. simpl. by rewrite Fc.
  - rewrite (bind_Ok _ _ _ _ _ (tb_alloc_ok s _ pc (ci_layout _ _ HI) HB Hf)). exists s, v. split; [done|]. split; try done. by left.
Qed.
(** ** Generation *)

Definition header (pc cs_base flags cflags tc_ptr : Z) t : TranslationBlock :=
  set_tb_cflags (wrap 16 cflags) (set_tb_flags (wrap 64 (int32 flags)) (set_tb_cs_base cs_base (set_tb_tc_ptr tc_ptr
    (set_tb_cflags 0 (set_tb_pc pc t))))).
Definition with_gen (g : gen_out) t : TranslationBlock :=
  set_tb_size (wrap 16 (g_size g)) (set_tb_next_offset (g_next_offset g) (set_tb_jmp_offset (g_jmp_offset g)
    (set_tb_icount (g_icount g) (set_num_guest_insns (wrap 16 (g_num_insns g)) t)))).
Definition align_up (a : Z) : Z := Z.land (wrap 64 (a + CODE_GEN_ALIGN - 1)) (Z.lnot (CODE_GEN_ALIGN - 1)).

Lemma align_up_ok a : 0 ≤ a → a + 15 < 2 ^ 64 → a ≤ align_up a ≤ a + 15 ∧ align_up a mod 16 = 0.
Proof.
  intros H0' H1'. unfold align_up. change CODE_GEN_ALIGN with 16. rewrite wrap_small by (unfold in_width; lia).
  change (Z.lnot (16 - 1)) with (Z.lnot (Z.ones 4)). rewrite <-Z.ldiff_land, Z.ldiff_ones_r by lia.
  rewrite Z.shiftl_mul_pow2, Z.shiftr_div_pow2 by lia. change (2 ^ 4) with 16.
  pose proof (Z.div_mod (a + 16 - 1) 16 ltac:(lia)). pose proof (Z.mod_pos_bound (a + 16 - 1) 16 ltac:(lia)).
  split; [lia|]. by rewrite Z.mod_mul by lia.
Qed.

Section Block.
Context s v (HI : cache_inv s v) (HB : buffer_ok s) (HF : ¬ full s).
Context (pc cs_base flags cflags : Z).
Let tb := Z.to_nat (nb_tbs s).

(** The state when the code is generated. *)
Definition begun : tb_state Regs :=
  set_tbs (alter (header pc cs_base flags cflags (code_gen_ptr s)) tb (tbs s)) (set_nb_tbs (nb_tbs s + 1) s).

Lemma begin_ok : upd_tb tb (λ t, set_tb_cflags (wrap 16 cflags) (set_tb_flags (wrap 64 (int32 flags))
    (set_tb_cs_base cs_base (set_tb_tc_ptr (code_gen_ptr s) t)))) (allocated pc s) = Ok () begun.
Proof.
  destruct (nth_block s _ (ci_layout _ _ HI) ltac:(unfold full in HF; lia)) as [t Ht].
  rewrite (upd_tb_ok _ _ (set_tb_cflags 0 (set_tb_pc pc t))) by (simpl; by rewrite list_lookup_alter_eq, Ht).
  unfold allocated, begun. simpl. fold tb. rewrite list_alter_alter_eq. done.
Qed.

Lemma tb_nat : Z.of_nat tb = nb_tbs s.
Proof. pose proof (lay_nb _ _ (ci_layout _ _ HI)). unfold tb. lia. Qed.

Lemma begun_fresh : fresh s begun (v_live v) tb.
Proof. split; try done; [apply (not_in_live s), HI|by eexists]. Qed.

Lemma begun_data : ∃ t, tbs begun !! tb = Some (header pc cs_base flags cflags (code_gen_ptr s) t).
Proof.
  destruct (nth_block s _ (ci_layout _ _ HI) ltac:(unfold full in HF; lia)) as [t Ht]. exists t.
  simpl. unfold tb. by rewrite list_lookup_alter_eq, Ht.
Qed.

Lemma begun_inv : cache_inv begun v.
Proof.
  eapply fresh_inv; [exact HI|apply begun_fresh|]. destruct begun_data as [t Ht].
  eapply fresh_layout; [apply HI|apply begun_fresh|apply tb_nat|unfold full in HF; lia|done..| | | |].
  - pose proof HB as [? _ _ _ _]. simpl. lia.
  - apply HB.
  - unfold data. by rewrite Ht.
  - done.
Qed.

(** The state when it has been. *)
Definition translated (g : gen_out) : tb_state Regs :=
  set_code_gen_ptr (align_up (code_gen_ptr s + g_code_size g))
    (set_tc_code (overwrite (code_gen_ptr s) (g_code_size g) (tc_code s))
       (set_tbs (alter (with_gen g) tb (tbs begun)) begun)).

Lemma gen_run : ∃ t, let t1 := header pc cs_base flags cflags (code_gen_ptr s) t in
  tbs begun !! tb = Some t1 ∧
  match cpu_gen_code (cpu_regs (tb_cpu s)) (tb_rr s) t1 with
  | None => gen_into tb begun = Ok None begun
  | Some g => gen_into tb begun = Ok (Some (g_code_size g)) (set_tc_code (overwrite (code_gen_ptr s) (g_code_size g) (tc_code s))
       (set_tbs (alter (with_gen g) tb (tbs begun)) begun))
  end.
Proof.
  destruct begun_data as [t Ht]. exists t. split; [done|]. unfold gen_into. rewrite !bind_gets, (bind_Ok _ _ _ _ _ (tb_at_ok _ _ _ Ht)).
  change (cpu_regs (tb_cpu begun)) with (cpu_regs (tb_cpu s)). change (tb_rr begun) with (tb_rr s). case_match eqn:E; [|done].
  by rewrite (bind_Ok _ _ _ _ _ (upd_tb_ok _ _ _ _ Ht)).
Qed.

Lemma translated_fresh g : gen_ok g → fresh s (translated g) (v_live v) tb.
Proof.
  intros Hg. split; try done.
  - apply (not_in_live s), HI.
  - simpl. rewrite list_alter_alter_eq. by eexists.
  - intros a Ha. simpl. unfold overwrite. destruct (tc_code s !! a) as [w|] eqn:E.
    + apply map_lookup_filter_Some. split; [done|]. simpl. lia.
    + apply map_lookup_filter_None. by left.
Qed.

Lemma translated_buffer g : gen_ok g → code_gen_ptr s + g_code_size g ≤ code_gen_ptr (translated g) ∧ buffer_ok (translated g).
Proof.
  intros Hg. pose proof HB as [B1 [B2 B2'] [B3 [B3' B3'']] [B4 B4'] B5]. pose proof (go_code _ Hg) as Hc. unfold full in HF.
  destruct (align_up_ok (code_gen_ptr s + g_code_size g)) as [Ha Hm]; [lia|unfold TCG_MAX_OP_SIZE, OPC_BUF_SIZE in *; lia|].
  simpl. split; [lia|]. split; simpl; try done. split; [lia|].
  set (e := code_gen_buffer s + code_gen_buffer_size s). assert (e mod 16 = 0) by (unfold e; rewrite Zplus_mod, B3, B3''; done).
  assert (align_up (code_gen_ptr s + g_code_size g) ≤ e + 14) by (unfold e, TCG_MAX_OP_SIZE, OPC_BUF_SIZE in *; lia).
  pose proof (Z.div_mod e 16 ltac:(lia)). pose proof (Z.div_mod (align_up (code_gen_ptr s + g_code_size g)) 16 ltac:(lia)). lia.
Qed.

Lemma translated_data g t : tbs begun !! tb = Some t → data (translated g) tb = Some (tb_data (with_gen g t)).
Proof. intros Ht. unfold data, translated. simpl. rewrite list_lookup_alter_eq. simpl in Ht. by rewrite Ht. Qed.

Lemma translated_inv g : gen_ok g → cache_inv (translated g) v.
Proof.
  intros Hg. eapply fresh_inv; [exact HI|by apply translated_fresh|]. destruct begun_data as [t Ht].
  destruct (translated_buffer g Hg) as [Hp [Hb _ _ _ _]]. pose proof (go_code _ Hg) as Hc.
  eapply fresh_layout; [apply HI|by apply translated_fresh|apply tb_nat|unfold full in HF; lia|done..| |apply HB|by apply translated_data|done].
  pose proof HB as [? _ _ _ _]. lia.
Qed.
(** The second page, [NO_PAGE] for none; [None] when its address faults. *)
Definition second_page (r : Regs) (size : Z) : option Z :=
  let virt_page2 := Z.land (wrap target_long_bits (pc + size - 1)) TARGET_PAGE_MASK in
  if decide (Z.land pc TARGET_PAGE_MASK = virt_page2) then Some NO_PAGE else get_page_addr_code r virt_page2.

Lemma second_page_code r size a : r = cpu_regs (tb_cpu s) → code_in_ram s → second_page r size = Some a → a ≠ NO_PAGE → code_page s a.
Proof.
  intros -> Hc. unfold second_page. case_decide; [congruence|]. intros Ha _. destruct (Hc _ _ Ha) as (A & B & C).
  rewrite page_mask in C. rewrite B, page_mask in C.
  replace (a - _) with a in C; [done|]. rewrite Zminus_mod, Zmod_mod, Z.sub_diag. change (0 mod 4096) with 0. lia.
Qed.

Lemma translated_linkable g t phys_pc page2 : gen_ok g → code_in_ram s → get_page_addr_code (cpu_regs (tb_cpu s)) pc = Some phys_pc →
  tbs begun !! tb = Some (header pc cs_base flags cflags (code_gen_ptr s) t) →
  second_page (cpu_regs (tb_cpu s)) (wrap 16 (g_size g)) = Some page2 →
  linkable (translated g) v tb (tb_data (with_gen g (header pc cs_base flags cflags (code_gen_ptr s) t))) phys_pc page2.
Proof.
  intros Hg Hc Hpc Ht Hp2. destruct (Hc _ _ Hpc) as (P1 & P2 & P3). destruct (translated_buffer g Hg) as [Hp _].
  assert (Hsite : ∀ n o, get2 (g_next_offset g) n = Some o → o ≠ 0xffff → ∃ j : Z, get2 (g_jmp_offset g) n = Some j ∧ 0 ≤ j ∧ j + 4 ≤ g_code_size g).
  { intros n o Ho Hne. assert (n < 2)%nat as Hn by (destruct n as [|[|n]]; simpl in Ho; [lia..|done]).
    destruct (get2_lt (g_jmp_offset g) n Hn) as [j Hj]. exists j. split; [done|]. by eapply (go_jump _ Hg). }
  split; try done.
  - apply (not_in_live s), HI.
  - simpl. pose proof tb_nat. lia.
  - by apply translated_data.
  - intros Hne. by eapply second_page_code.
  - intros n (o & Ho & Hne). destruct (Hsite n o Ho Hne) as (j & Hj & H0' & H1'). unfold jump_site. simpl in *. rewrite Hj. simpl. lia.
  - intros (o & [= <-] & Hne) (o' & [= <-] & Hne'). simpl in *. pose proof (go_two _ Hg Hne Hne'). unfold jump_site. simpl. lia.
Qed.
End Block.

(** What [tb_gen_code] makes of the cache: it is flushed when it was full, and has
    the new block in front of the lists when nothing faulted. *)
Definition new_block (pc cs_base flags cflags : Z) s' (v1 : view) v' (r : Regs) tb : Prop :=
  ∃ t phys_pc page2, (tb ∉ v_live v1) ∧ v' = insert_view tb t v1 ∧ data s' tb = Some t ∧
    (tb_pc t, tb_cs_base t, tb_flags t, tb_cflags t) = (pc, cs_base, wrap 64 (int32 flags), wrap 16 cflags) ∧
    get_page_addr_code r pc = Some phys_pc ∧ second_page pc r (tb_size t) = Some page2 ∧ 1 ≤ tb_size t ≤ TARGET_PAGE_SIZE ∧
    page_addr t = (Z.land phys_pc TARGET_PAGE_MASK, page2).

Record generated s s' v v1 v' (pc cs_base flags cflags : Z) (o : option nat) : Prop := {
  gn_room : (¬ full s ∧ v1 = v) ∨ (full s ∧ v1 = empty_view ∧ tb_invalidated_flag s' = true) ∨ (o = None ∧ s' = s ∧ v1 = v);
  gn_inv : cache_inv s' v';
  gn_buffer : buffer_ok s';
  gn_ram : code_in_ram s';
  gn_regs : cpu_regs (tb_cpu s') = cpu_regs (tb_cpu s);
  gn_block : match o with
             | Some tb => new_block pc cs_base flags cflags s' v1 v' (cpu_regs (tb_cpu s)) tb
             | None => v' = v1
             end;
  gn_rr : tb_rr s' = tb_rr s;
  gn_data : ∀ i, i ∈ v_live v1 → data s' i = data s i;
  gn_cache : tb_jmp_cache (tb_cpu s') ⊆ tb_jmp_cache (tb_cpu s);
  gn_next : ∀ i tb, o = Some tb → i ≠ tb → rd s' (SHashNext i) = rd s (SHashNext i);
  gn_bitmap : ∀ k bm, index_ok k → bm_at s' k = Some bm → bm_at s k = Some bm ∧ v1 = v ∧ v_page v' k = v_page v k;
  gn_total : (∀ a, is_Some (get_page_addr_code (cpu_regs (tb_cpu s)) a)) →
    (∀ t, is_Some (cpu_gen_code (cpu_regs (tb_cpu s)) (tb_rr s) t)) → is_Some o;
  gn_insns : ∀ tb, o = Some tb → ∃ t0 g t, cpu_gen_code (cpu_regs (tb_cpu s)) (tb_rr s) t0 = Some g ∧
    data s' tb = Some t ∧ num_guest_insns t = wrap 16 (g_num_insns g);
  gn_cpu : same_cpu s s';
  gn_flag : tb_invalidated_flag s = false → tb_invalidated_flag s' = false → v1 = v;
  gn_quiet : ¬ full s → tb_invalidated_flag s' = tb_invalidated_flag s;
}.

Lemma code_in_ram_ext s s' : cpu_regs (tb_cpu s') = cpu_regs (tb_cpu s) → ram_blocks (tb_ram s') = ram_blocks (tb_ram s) →
  code_in_ram s → code_in_ram s'.
Proof.
  intros Er Eb Hc a ph. rewrite Er. intros Ha. destruct (Hc a ph Ha) as (A & B & C & D & E & b & F).
  split; [done|]. split; [done|]. split_and!; try done. exists b. unfold owner in *. by rewrite Eb.
Qed.

Lemma buffer_ok_fixed s s' : fixed s' = fixed s → buffer_ok s → buffer_ok s'.
Proof. intros E [A B C D F]. unfold fixed in E. injection E as E1 E2 E3 E4 E5 E6 _ _ _ _ _. split; rewrite ?E2, ?E3, ?E4, ?E5, ?E6; done. Qed.

(** The rest of [tb_gen_code], once there is room. *)
Lemma gen_in_room s v pc cs_base flags cflags phys_pc : cache_inv s v → buffer_ok s → code_in_ram s → ¬ full s →
  get_page_addr_code (cpu_regs (tb_cpu s)) pc = Some phys_pc →
  let tb := Z.to_nat (nb_tbs s) in
  ∃ o s' v', (
    tc_ptr ← gets code_gen_ptr;
    upd_tb tb (λ t, set_tb_cflags (wrap 16 cflags) (set_tb_flags (wrap 64 (int32 flags))
                      (set_tb_cs_base cs_base (set_tb_tc_ptr tc_ptr t))));;
    sz ← gen_into tb;
    match sz with
    | None => mret None
    | Some code_gen_size =>
        modify (λ s, set_code_gen_ptr (Z.land (wrap 64 (code_gen_ptr s + code_gen_size + CODE_GEN_ALIGN - 1))
                                        (Z.lnot (CODE_GEN_ALIGN - 1))) s);;
        t ← tb_at tb;
        let virt_page2 := Z.land (wrap target_long_bits (pc + tb_size t - 1)) TARGET_PAGE_MASK in
        if decide (Z.land pc TARGET_PAGE_MASK = virt_page2) then
          tb_link_page tb phys_pc NO_PAGE;; mret (Some tb)
        else match get_page_addr_code (cpu_regs (tb_cpu s)) virt_page2 with
             | None => mret None
             | Some phys_page2 => tb_link_page tb phys_pc phys_page2;; mret (Some tb)
             end
    end) (allocated pc s) = Ok o s' ∧
  tb_invalidated_flag s' = tb_invalidated_flag s ∧ generated s s' v v v' pc cs_base flags cflags o.
Proof.
  intros HI HB HC HF Hpc tb. rewrite bind_gets. change (code_gen_ptr (allocated pc s)) with (code_gen_ptr s).
  rewrite (bind_Ok _ _ _ _ _ (begin_ok s v HI HF pc cs_base flags cflags)). fold tb.
  destruct (gen_run s v HI HF pc cs_base flags cflags) as (t & Ht & Hrun). fold tb in Ht, Hrun.
  destruct (cpu_gen_code _ _ _) as [g|] eqn:Eg; rewrite (bind_Ok _ _ _ _ _ Hrun).
  2: { exists None, (begun s pc cs_base flags cflags), v. split; [done|]. split; [done|]. split; try done; [by left|by apply begun_inv|by destruct HB|by apply (fresh_data s _ _ _ (begun_fresh s v HI pc cs_base flags cflags))|].
       intros _ Hgen. specialize (Hgen (header pc cs_base flags cflags (code_gen_ptr s) t)). rewrite Eg in Hgen. by destruct Hgen. }
  pose proof (gen_laws _ _ _ _ Eg) as Hg. rewrite bind_modify. fold (translated s pc cs_base flags cflags g).
  set (t1 := header pc cs_base flags cflags (code_gen_ptr s) t) in *. set (s4 := translated s pc cs_base flags cflags g).
  assert (Hs4 : tbs s4 !! tb = Some (with_gen g t1)) by (change (tbs s4) with (alter (with_gen g) tb (tbs (begun s pc cs_base flags cflags))); by rewrite list_lookup_alter_eq, Ht).
  rewrite (bind_Ok _ _ _ _ _ (tb_at_ok _ _ _ Hs4)). change (tb_size (with_gen g t1)) with (wrap 16 (g_size g)). cbv zeta.
  pose proof (translated_inv s v HI HB HF pc cs_base flags cflags g Hg) as HI4. destruct (translated_buffer s HB HF pc cs_base flags cflags g Hg) as [_ HB4]. fold s4 in HI4, HB4.
  assert (Hrun2 : ∀ X : TBM Regs (option nat), X = match second_page pc (cpu_regs (tb_cpu s)) (wrap 16 (g_size g)) with
     | Some p2 => tb_link_page tb phys_pc p2;; mret (Some tb) | None => mret None end →
     ∃ o s' v', X s4 = Ok o s' ∧ tb_invalidated_flag s' = tb_invalidated_flag s ∧ generated s s' v v v' pc cs_base flags cflags o).
  { intros X ->. destruct (second_page _ _ _) as [p2|] eqn:Ep2.
    - destruct (tb_link_page_ok s4 v tb (tb_data (with_gen g t1)) phys_pc p2) as (s' & El & [L1 L2 L3 L4 L5 L6 L7 L8 L9]).
      { done. } { by eapply translated_linkable. }
      rewrite (bind_Ok _ _ _ _ _ El). eexists _, s', _. split; [done|].
      pose proof L4 as L4'. unfold fixed in L4'. injection L4' as _ _ _ _ _ _ _ _ Efl _ Ecpu. split; [done|]. split.
      + by left.
      + exact L1.
      + by eapply buffer_ok_fixed.
      + by eapply code_in_ram_ext; [..|exact HC]; [rewrite Ecpu|].
      + by rewrite Ecpu.
      + eexists _, _, _. split; [apply (not_in_live s), HI|]. split_and!; try done.
        all: change (tb_size _) with (wrap 16 (g_size g)); pose proof (go_size _ Hg) as Hsz; change TARGET_PAGE_SIZE with 4096 in *;
          rewrite wrap_small by (unfold in_width; lia); lia.
      + unfold fixed in L4. by injection L4.
      + intros i Hi. rewrite L3 by (intros ->; by apply (not_in_live s _ (ci_layout _ _ HI))).
        by apply (fresh_data s _ _ _ (translated_fresh s v HI pc cs_base flags cflags g Hg)).
      + by rewrite Ecpu.
      + intros i ? [= <-] Hi. rewrite L9 by done. by apply (fresh_rd s _ _ _ (translated_fresh s v HI pc cs_base flags cflags g Hg)).
      + intros k bm Hk Hb. split; [by apply (L7 k bm) in Hb|]. split; [done|]. simpl. unfold push_pages.
        assert (Hn : ∀ n, ¬ on_page (linked_tb (tb_data (with_gen g t1)) phys_pc p2) n k) by (intros n Ho; by rewrite (L8 n k Ho) in Hb).
        assert (Hne : ∀ n a, get2 (Z.land phys_pc TARGET_PAGE_MASK, p2) n = Some a → a ≠ NO_PAGE → Z.shiftr a TARGET_PAGE_BITS ≠ k) by (intros n a Ha Hna E; apply (Hn n); by exists a).
        assert (H0' : Z.land phys_pc TARGET_PAGE_MASK ≠ NO_PAGE).
        { destruct (HC _ _ Hpc) as (_ & _ & _ & Hal & _). intros E. rewrite E in Hal. vm_compute in Hal. done. }
        case_decide; rewrite !fn_lookup_insert_ne; try done; [by apply (Hne 0%nat)|by apply (Hne 0%nat)|by apply (Hne 1%nat)].
      + by eexists.
      + intros ? [= <-]. by eexists _, g, _.
      + unfold same_cpu. by rewrite Ecpu.
      + by intros _ _.
      + done.
    - exists None, s4, v. split; [done|]. split; [done|]. split; try done;
        [by left|by apply (fresh_data s _ _ _ (translated_fresh s v HI pc cs_base flags cflags g Hg))|].
      intros Ha _. unfold second_page in Ep2. case_decide; [done|].
      specialize (Ha (Z.land (wrap target_long_bits (pc + wrap 16 (g_size g) - 1)) TARGET_PAGE_MASK)). rewrite Ep2 in Ha. by destruct Ha. }
  apply Hrun2. unfold second_page. case_decide; done.
Qed.

Lemma tb_gen_code_ok s v pc cs_base flags cflags : cache_inv s v → buffer_ok s → code_in_ram s →
  ∃ o s' v1 v', tb_gen_code pc cs_base flags cflags s = Ok o s' ∧ generated s s' v v1 v' pc cs_base flags cflags o.
Proof.
  intros HI HB HC. unfold tb_gen_code. rewrite bind_gets. destruct (get_page_addr_code _ pc) as [phys_pc|] eqn:Epc.
  2: { exists None, s, v, v. split; [done|]. split; try done; [tauto|]. intros Ha _. specialize (Ha pc). rewrite Epc in Ha. by destruct Ha. }
  destruct (room_ok s v pc HI HB) as (s1 & v1 & Erm & [R1 R2 R3 R4 R5 R6 R7 R8 R10 R9 R11]). unfold room in Erm. rewrite <-bind_assoc.
  rewrite (bind_Ok _ _ _ _ _ Erm).
  destruct (gen_in_room s1 v1 pc cs_base flags cflags phys_pc) as (o & s' & v' & Er & Efl & G); [done..| |done|congruence|].
  { eapply code_in_ram_ext; [..|exact HC]; congruence. }
  rewrite R5 in Er. exists o, s', v1, v'. split; [exact Er|]. destruct G as [G1 G2 G3 G4 G5 G6 G7 G8 G9 G10 G12 G11 G13 G14 G15].
  assert (Err : tb_rr s1 = tb_rr s) by congruence. rewrite R5, Err in *. split; try done.
  - destruct R4 as [(? & ? & ?)|(? & ? & ?)]; [by left|]. right. left. split_and!; [done..|congruence].
  - intros i Hi. rewrite G8 by done. unfold data. by rewrite R8.
  - by etrans.
  - intros i tb Ho Hi. rewrite (G10 i tb Ho Hi). unfold rd. by rewrite R8.
  - intros k bm Hk Hb. destruct (G12 k bm Hk Hb) as (Hb1 & _ & Hpg). destruct (R10 k bm Hb1) as [Hb0 ->]. done.
  - unfold same_cpu in *. congruence.
  - intros _ Hfl. destruct R4 as [(_ & -> & _)|(_ & _ & Ht)]; [done|]. congruence.
  - intros Hnf. destruct R4 as [(_ & _ & <-)|(? & _ & _)]; [done|by destruct Hnf].
Qed.
End Gen.
