(* ===== verification/TBBitmap.v ===== *)
(** * Bitmaps of code

    [set_bits] against its specification, and the bitmap of a page: a bit is set
    when a block's code covers the byte. *)

From S2P Require Import Prelude CFile CString HostMem RamList Radix PhysPages RRTypes PandaCallbacks.
From S2P Require Import RRState RRReplay TBCache TBLists TBInv TBRemove.
From stdpp Require Import functions list.
Local Open Scope Z_scope.

(** Bit [k] of an array of bytes. *)
Definition bit_at (tab : list Z) (k : Z) : bool :=
  match tab !! Z.to_nat (k / 8) with Some b => Z.testbit b (k mod 8) | None => false end.

Lemma land7 x : Z.land x 7 = x mod 8.
Proof. change 7 with (Z.ones 3). by rewrite Z.land_ones by lia. Qed.
Lemma land_lnot7 x : Z.land x (Z.lnot 7) = 8 * (x / 8).
Proof.
  change 7 with (Z.ones 3). rewrite <-Z.ldiff_land, Z.ldiff_ones_r by lia. rewrite Z.shiftl_mul_pow2, Z.shiftr_div_pow2 by lia. change (2 ^ 3) with 8. lia.
Qed.
Lemma shiftr3 x : Z.shiftr x 3 = x / 8.
Proof. by rewrite Z.shiftr_div_pow2 by lia. Qed.

Lemma or_byte_ok tab i mask : Forall (in_width 8) tab → 0 ≤ i < Z.of_nat (length tab) →
  ∃ tab', or_byte tab i mask = Some tab' ∧ length tab' = length tab ∧ Forall (in_width 8) tab' ∧
    ∀ k, 0 ≤ k → bit_at tab' k = bit_at tab k || (bool_decide (k / 8 = i) && Z.testbit mask (k mod 8)).
Proof.
  intros HF Hi. destruct (lookup_lt_is_Some_2 tab (Z.to_nat i) ltac:(lia)) as [b Hb].
  unfold or_byte. replace (i <? 0) with false by (symmetry; apply Z.ltb_ge; lia). rewrite Hb. simpl. eexists. split; [done|]. split_and!.
  - by rewrite length_insert.
  - apply Forall_insert; [done|]. apply wrap_in_width. lia.
  - intros k Hk. unfold bit_at. pose proof (Z.mod_pos_bound k 8 ltac:(lia)). case_bool_decide as E.
    + subst i. rewrite list_lookup_insert_eq by (by apply lookup_lt_Some in Hb). rewrite Hb. simpl. unfold wrap.
      rewrite Z.mod_pow2_bits_low by lia. apply Z.lor_spec.
    + rewrite list_lookup_insert_ne by (intros E'; apply E; apply Z2Nat.inj in E'; [lia|lia|apply Z.div_pos; lia]). simpl. by rewrite orb_false_r.
Qed.

Lemma put_byte_ok tab i : Forall (in_width 8) tab → 0 ≤ i < Z.of_nat (length tab) →
  ∃ tab', put_byte tab i 255 = Some tab' ∧ length tab' = length tab ∧ Forall (in_width 8) tab' ∧
    ∀ k, 0 ≤ k → bit_at tab' k = bit_at tab k || bool_decide (k / 8 = i).
Proof.
  intros HF Hi. destruct (lookup_lt_is_Some_2 tab (Z.to_nat i) ltac:(lia)) as [b Hb].
  unfold put_byte. replace (i <? 0) with false by (symmetry; apply Z.ltb_ge; lia). rewrite Hb. simpl. eexists. split; [done|]. split_and!.
  - by rewrite length_insert.
  - apply Forall_insert; [done|]. done.
  - intros k Hk. unfold bit_at. pose proof (Z.mod_pos_bound k 8 ltac:(lia)). case_bool_decide as E.
    + subst i. rewrite list_lookup_insert_eq by (by apply lookup_lt_Some in Hb). change 255 with (Z.ones 8). rewrite Z.ones_spec_low by lia. by rewrite orb_true_r.
    + rewrite list_lookup_insert_ne by (intros E'; apply E; apply Z2Nat.inj in E'; [lia|lia|apply Z.div_pos; lia]). by rewrite orb_false_r.
Qed.

(** Whole bytes. *)
Lemma set_bits_loop_ok n : ∀ fuel tab i, Forall (in_width 8) tab → 0 ≤ i → i + Z.of_nat n ≤ Z.of_nat (length tab) → (n ≤ fuel)%nat →
  ∃ tab', set_bits_loop fuel tab i (8 * i) (8 * (i + Z.of_nat n)) = Some (tab', i + Z.of_nat n, 8 * (i + Z.of_nat n)) ∧
    length tab' = length tab ∧ Forall (in_width 8) tab' ∧
    ∀ k, 0 ≤ k → bit_at tab' k = bit_at tab k || bool_decide (i ≤ k / 8 < i + Z.of_nat n).
Proof.
  induction n as [|n IH]; intros fuel tab i HF Hi Hn Hf.
  - exists tab. replace (i + Z.of_nat 0) with i by lia. split_and!; [|done|done|].
    + destruct fuel; simpl; replace (8 * i <? 8 * i) with false by (symmetry; apply Z.ltb_irrefl); done.
    + intros k Hk. rewrite bool_decide_false by lia. by rewrite orb_false_r.
  - destruct fuel as [|fuel]; [lia|]. destruct (put_byte_ok tab i HF ltac:(lia)) as (tab1 & E1 & L1 & F1 & B1).
    destruct (IH fuel tab1 (i + 1) F1 ltac:(lia) ltac:(lia) ltac:(lia)) as (tab' & E & L & F & B). exists tab'. split_and!.
    + cbn [set_bits_loop]. replace (8 * i <? 8 * (i + Z.of_nat (S n))) with true by (symmetry; apply Z.ltb_lt; lia). rewrite E1. simpl.
      replace (8 * i + 8) with (8 * (i + 1)) by lia. replace (i + Z.of_nat (S n)) with (i + 1 + Z.of_nat n) by lia. exact E.
    + congruence.
    + done.
    + intros k Hk. rewrite B, B1 by done. rewrite <-orb_assoc. f_equal. do 3 case_bool_decide; try done; lia.
Qed.

(** The mask of the first byte and the mask of the last one. *)
Lemma first_mask_bit o j : 0 ≤ o < 8 → 0 ≤ j < 8 → Z.testbit (Z.shiftl 255 o) j = bool_decide (o ≤ j).
Proof.
  intros Ho Hj. rewrite Z.shiftl_spec by lia. change 255 with (Z.ones 8). case_bool_decide; [by rewrite Z.ones_spec_low by lia|by rewrite Z.testbit_neg_r by lia].
Qed.
Lemma last_mask_bit o j : 0 ≤ o < 8 → 0 ≤ j < 8 → Z.testbit (Z.lnot (Z.shiftl 255 o)) j = bool_decide (j < o).
Proof. intros Ho Hj. rewrite Z.lnot_spec, first_mask_bit by lia. do 2 case_bool_decide; try done; lia. Qed.

(** The bits from [start] to [start + len] are set, no others change. *)
Lemma set_bits_ok tab start len : Forall (in_width 8) tab → 0 ≤ start → 0 ≤ len → start + len ≤ 8 * Z.of_nat (length tab) →
  ∃ tab', set_bits tab start len = Some tab' ∧ length tab' = length tab ∧ Forall (in_width 8) tab' ∧
    ∀ k, 0 ≤ k → bit_at tab' k = bit_at tab k || bool_decide (start ≤ k < start + len).
Proof.
  intros HF Hs Hl Hb. unfold set_bits. set (e := start + len). rewrite !land_lnot7, !land7, !shiftr3.
  pose proof (Z.div_mod start 8 ltac:(lia)) as Ds. pose proof (Z.mod_pos_bound start 8 ltac:(lia)) as Ms.
  pose proof (Z.div_mod e 8 ltac:(lia)) as De. pose proof (Z.mod_pos_bound e 8 ltac:(lia)) as Me.
  assert (Hk8 : ∀ k, k = 8 * (k / 8) + k mod 8 ∧ 0 ≤ k mod 8 < 8) by (intros k; split; [apply Z.div_mod; lia|apply Z.mod_pos_bound; lia]).
  assert (Hse : start / 8 ≤ e / 8) by (apply Z.div_le_mono; lia).
  destruct (8 * (start / 8) =? 8 * (e / 8)) eqn:E; [apply Z.eqb_eq in E|apply Z.eqb_neq in E].
  - destruct (start <? e) eqn:E1; [apply Z.ltb_lt in E1|apply Z.ltb_ge in E1].
    + destruct (or_byte_ok tab (start / 8) (Z.land (Z.shiftl 255 (start mod 8)) (Z.lnot (Z.shiftl 255 (e mod 8)))) HF ltac:(lia)) as (tab' & Eo & L & F & B).
      exists tab'. split_and!; try done. intros k Hk. rewrite B by done. f_equal. destruct (Hk8 k) as [Dk Mk].
      rewrite Z.land_spec, first_mask_bit, last_mask_bit by lia. repeat case_bool_decide; try done; lia.
    + exists tab. split_and!; try done. intros k Hk. rewrite bool_decide_false by lia. by rewrite orb_false_r.
  - destruct (or_byte_ok tab (start / 8) (Z.shiftl 255 (start mod 8)) HF ltac:(lia)) as (tab1 & E1 & L1 & F1 & B1). rewrite E1. simpl.
    assert (Ediv : (start + 8) / 8 = start / 8 + 1) by (replace (start + 8) with (start + 1 * 8) by lia; apply Z.div_add; lia). rewrite Ediv.
    set (n := Z.to_nat (e / 8 - (start / 8 + 1))). assert (Hn : start / 8 + 1 + Z.of_nat n = e / 8) by lia.
    destruct (set_bits_loop_ok n (Z.to_nat len) tab1 (start / 8 + 1) F1 ltac:(lia) ltac:(lia) ltac:(lia)) as (tab2 & E2 & L2 & F2 & B2).
    rewrite Hn in E2. rewrite E2. simpl. destruct (8 * (e / 8) <? e) eqn:E3; [apply Z.ltb_lt in E3|apply Z.ltb_ge in E3].
    + destruct (or_byte_ok tab2 (e / 8) (Z.lnot (Z.shiftl 255 (e mod 8))) F2 ltac:(lia)) as (tab3 & Eo & L3 & F3 & B3).
      exists tab3. split_and!; [done|congruence|done|]. intros k Hk. rewrite B3, B2, B1 by done. rewrite <-!orb_assoc. f_equal.
      destruct (Hk8 k) as [Dk Mk]. rewrite first_mask_bit, last_mask_bit, Hn by lia. repeat case_bool_decide; try done; lia.
    + exists tab2. split_and!; [done|congruence|done|]. intros k Hk. rewrite B2, B1 by done. rewrite <-!orb_assoc. f_equal.
      destruct (Hk8 k) as [Dk Mk]. rewrite first_mask_bit, Hn by lia. repeat case_bool_decide; try done; lia.
Qed.

(** ** The bitmap of a list of blocks *)

Section Bitmaps.
Context `{PhysSpace} `{TargetLong} {Regs : Type} `{!Translator Regs} `{!SpaceOk L1_MAP_ADDR_SPACE_BITS}.
Implicit Types (s : tb_state Regs) (v : view).

(** A block covers the byte at this offset of its page [n]. *)
Definition covers (t : TranslationBlock) (n : nat) (k : Z) : Prop := (page_range t n).1 ≤ k < (page_range t n).2.

Record bitmap_of s (l : list (nat * nat)) (bm : list Z) : Prop := {
  bm_len : Z.of_nat (length bm) = 512;
  bm_bytes : Forall (in_width 8) bm;
  bm_bits : ∀ k, 0 ≤ k < 4096 → bit_at bm k = true ↔ ∃ x t, x ∈ l ∧ data s x.1 = Some t ∧ covers t x.2 k;
}.

(** The bitmaps of all pages are those of their blocks. *)
Definition bitmaps s v : Prop := ∀ k bm, index_ok k → bm_at s k = Some bm → bitmap_of s (v_page v k) bm.

Lemma bitmap_of_in s s' l bm : (∀ x, x ∈ l → data s' x.1 = data s x.1) → bitmap_of s l bm → bitmap_of s' l bm.
Proof.
  intros Hd [A B C]. split; [done|done|]. intros k Hk. rewrite (C k Hk). split; intros (x & t & Hx & Ht & Hc); exists x, t; (split; [done|]); [by rewrite Hd|by rewrite <-Hd].
Qed.
Lemma bitmap_of_ext s s' l bm : (∀ i, data s' i = data s i) → bitmap_of s l bm → bitmap_of s' l bm.
Proof. intros Hd. by apply bitmap_of_in. Qed.

Lemma bitmaps_keep s s' v v' : (∀ i, data s' i = data s i) →
  (∀ k bm, index_ok k → bm_at s' k = Some bm → bm_at s k = Some bm ∧ v_page v' k = v_page v k) → bitmaps s v → bitmaps s' v'.
Proof. intros Hd Hk HB k bm Hi Hb. destruct (Hk k bm Hi Hb) as [Hb0 ->]. eapply bitmap_of_ext; [done|]. by apply HB. Qed.
End Bitmaps.
