(* ===== verification/TBShape.v ===== *)
(** * The shape of a block

    A block lies in one page, or starts in its first page and ends in the second
    one; new blocks are such blocks, and leave the bitmaps of pages exact. *)

From S2P Require Import Prelude CFile CString HostMem RamList Radix PhysPages RRTypes PandaCallbacks.
From S2P Require Import RRState RRReplay TBCache TBLists TBInv TBRemove TBInsert TBGen TBBitmap.
From stdpp Require Import functions list.
Local Open Scope Z_scope.

(** Widths of guest addresses: 32 or 64 bits. *)
Class TargetLongOk `{TargetLong} := target_long_ok : 13 ≤ target_long_bits ≤ 64.


Section Shape.
Context `{PhysSpace} `{TargetLong} {Regs : Type} `{!Translator Regs} `{!SpaceOk L1_MAP_ADDR_SPACE_BITS} `{!TargetLongOk}.
Implicit Types (s : tb_state Regs) (i j n tb : nat) (v : view) (t : TranslationBlock) (x y : nat * nat).

(** ** Addresses *)

Lemma wrap_page k o : 0 ≤ o < 4096 →
  wrap target_long_bits (4096 * k + o) = 4096 * (k mod 2 ^ (target_long_bits - 12)) + o.
Proof.
  intros Ho. pose proof target_long_ok as Ht. unfold wrap. replace (2 ^ target_long_bits) with (4096 * 2 ^ (target_long_bits - 12)).
  2: { change 4096 with (2 ^ 12). rewrite <-Z.pow_add_r by lia. f_equal. lia. }
  assert (0 < 2 ^ (target_long_bits - 12)) by (apply Z.pow_pos_nonneg; lia). set (m := 2 ^ (target_long_bits - 12)) in *.
  symmetry. apply (Z.mod_unique_pos _ _ (k / m)); pose proof (Z.mod_pos_bound k m); pose proof (Z.div_mod k m); nia.
Qed.

Lemma page_of k o : 0 ≤ o < 4096 → Z.land (4096 * k + o) TARGET_PAGE_MASK = 4096 * k.
Proof.
  intros Ho. rewrite page_mask. replace ((4096 * k + o) mod 4096) with o; [lia|]. apply (Z.mod_unique_pos _ _ k); lia.
Qed.

Lemma wrap_long_mod a : wrap target_long_bits a mod 4096 = a mod 4096.
Proof.
  pose proof (Z.div_mod a 4096 ltac:(lia)) as E. pose proof (Z.mod_pos_bound a 4096 ltac:(lia)) as M.
  rewrite E at 1. rewrite wrap_page by lia. symmetry. apply (Z.mod_unique_pos _ _ ((a / 4096) mod 2 ^ (target_long_bits - 12))); lia.
Qed.

(** ** The shape of a block: it lies in one page, or ends in its second one *)

Definition page_base_ok (a : Z) : Prop := 0 ≤ a ≤ 2 ^ 64 - 8192 ∧ a mod 4096 = 0.
Record block_shape t : Prop := {
  bs_size : 1 ≤ tb_size t ≤ TARGET_PAGE_SIZE;
  bs_pc : in_width target_long_bits (tb_pc t);
  bs_page : page_base_ok (page_addr t).1;
  bs_second : if decide ((page_addr t).2 = NO_PAGE) then tb_pc t mod 4096 + tb_size t ≤ 4096
              else page_base_ok (page_addr t).2 ∧ 4096 < tb_pc t mod 4096 + tb_size t;
}.
Definition shaped s v : Prop := ∀ i t, i ∈ v_live v → data s i = Some t → block_shape t.


(** ** New blocks have the shape *)

Lemma one_page pc size : in_width target_long_bits pc → 1 ≤ size ≤ 4096 →
  Z.land pc TARGET_PAGE_MASK = Z.land (wrap target_long_bits (pc + size - 1)) TARGET_PAGE_MASK ↔ pc mod 4096 + size ≤ 4096.
Proof.
  intros Hpc Hs. pose proof (Z.div_mod pc 4096 ltac:(lia)) as Ep. pose proof (Z.mod_pos_bound pc 4096 ltac:(lia)) as Hm. pose proof target_long_ok as Ht.
  assert (E2 : 2 ^ target_long_bits = 4096 * 2 ^ (target_long_bits - 12)) by (change 4096 with (2 ^ 12); rewrite <-Z.pow_add_r by lia; f_equal; lia).
  assert (Hq : 0 ≤ pc / 4096 < 2 ^ (target_long_bits - 12)) by (unfold in_width in Hpc; lia).
  assert (Hbig : 2 ≤ 2 ^ (target_long_bits - 12)) by (change 2 with (2 ^ 1) at 1; apply Z.pow_le_mono_r; lia).
  set (q := pc / 4096) in *. set (o := pc mod 4096) in *. set (M := 2 ^ (target_long_bits - 12)) in *. rewrite Ep, page_of by lia.
  destruct (decide (o + size ≤ 4096)) as [Hlt|Hge].
  - replace (4096 * q + o + size - 1) with (4096 * q + (o + size - 1)) by lia. rewrite wrap_page, page_of by lia. fold M. rewrite Z.mod_small by lia. done.
  - replace (4096 * q + o + size - 1) with (4096 * (q + 1) + (o + size - 1 - 4096)) by lia. rewrite wrap_page, page_of by lia. fold M. split; [|lia].
    intros E. assert (Eq : q = (q + 1) mod M) by lia. destruct (decide (q + 1 < M)); [rewrite Z.mod_small in Eq by lia; lia|].
    assert (q + 1 = M) as Eq' by lia. rewrite Eq', Z.mod_same in Eq by lia. lia.
Qed.

Lemma code_page_base s a : ram_ok (tb_ram s) → code_page s a → page_base_ok a.
Proof.
  intros HR (Hw & Hm & _ & b & Hb & Hr). split; [|done]. pose proof (proj1 (Forall_forall _ _) (ro_blocks _ HR) b Hb) as (B1 & B2 & B3 & B4 & B5 & B6 & B7).
  unfold in_range, in_width, RAM_ADDR_MAX in *. pose proof (Z.div_mod a 4096 ltac:(lia)). pose proof (Z.div_mod (blk_offset b) 4096 ltac:(lia)).
  pose proof (Z.div_mod (blk_length b) 4096 ltac:(lia)). lia.
Qed.

Lemma new_block_shape s s' v1 v' pc cs_base flags cflags tb : code_in_ram s → ram_ok (tb_ram s) → in_width target_long_bits pc →
  new_block pc cs_base flags cflags s' v1 v' (cpu_regs (tb_cpu s)) tb → ∀ t, data s' tb = Some t → block_shape t.
Proof.
  intros HC HR Hpc (t & ph & p2 & _ & _ & Ht & Eh & Ea & E2 & Hs & Ep) u Hu. assert (u = t) as -> by congruence. injection Eh as E3 E4 E5 E6.
  change TARGET_PAGE_SIZE with 4096 in Hs. destruct (HC _ _ Ea) as (W & M & Hcp). split; rewrite ?E3; [done|done| |].
  - rewrite Ep. simpl. by eapply code_page_base.
  - rewrite Ep. simpl. pose proof (one_page pc (tb_size t) Hpc Hs) as Hsp.
    assert (Hp2 : p2 ≠ NO_PAGE → code_page s p2) by (intros Hne; by eapply (second_page_code s pc _ _ p2 eq_refl HC)).
    unfold second_page in E2. case_decide as Hd.
    + injection E2 as <-. rewrite decide_True by done. by apply Hsp.
    + destruct (HC _ _ E2) as (W2 & M2 & _). rewrite decide_False.
      * split; [|by apply Z.nle_gt; rewrite <-Hsp]. eapply code_page_base; [done|]. apply Hp2. intros ->. rewrite page_mask in M2.
        rewrite Zminus_mod, Zmod_mod, Z.sub_diag in M2. vm_compute in M2. done.
      * intros ->. rewrite page_mask in M2. rewrite Zminus_mod, Zmod_mod, Z.sub_diag in M2. vm_compute in M2. done.
Qed.

Lemma generated_shaped s s' v v1 v' pc cs_base flags cflags o : cache_inv s v → code_in_ram s → in_width target_long_bits pc → shaped s v →
  generated s s' v v1 v' pc cs_base flags cflags o → shaped s' v'.
Proof.
  intros HI HC Hpc Hs [G1 G2 G3 G4 G5 G6 G7 G8 G9 G10 G12 G11].
  assert (H1' : ∀ i t, i ∈ v_live v1 → data s' i = Some t → block_shape t).
  { intros i t Hi Ht. rewrite G8 in Ht by done. eapply Hs; [|done]. destruct G1 as [[_ ->]|[(_ & -> & _)|(_ & _ & ->)]]; [done|set_solver|done]. }
  destruct o as [tb|]; [|by rewrite G6]. intros i t Hi Ht. destruct (decide (i = tb)) as [->|Ne].
  - eapply new_block_shape; [exact HC|apply HI|done|exact G6|done].
  - apply (H1' i t); [|done]. destruct G6 as (u & ? & ? & _ & -> & _). simpl in Hi. set_solver.
Qed.

Lemma generated_bitmaps s s' v v1 v' pc cs_base flags cflags o : cache_inv s v → bitmaps s v →
  generated s s' v v1 v' pc cs_base flags cflags o → bitmaps s' v'.
Proof.
  intros HI HB G k bm Hk Hb. destruct (gn_bitmap _ _ _ _ _ _ _ _ _ _ G k bm Hk Hb) as (Hb0 & -> & ->).
  apply (bitmap_of_in s); [|by apply HB]. intros [i n] Hx. apply (gn_data _ _ _ _ _ _ _ _ _ _ G). simpl.
  apply (li_page _ _ (ci_listed _ _ HI) k i n) in Hx as [Hi _]; [done|]. split; [done|]. unfold page_exists, bm_at in *.
  destruct (page_find (l1_map s) k); [by eexists|done].
Qed.
End Shape.
