(* ===== verification/TBFind.v ===== *)
(** * Finding the block to execute

    [tb_find_slow] looks a block up in the hash chain of its physical address,
    translates one when there is none, and moves it to the head of the chain;
    [tb_find_fast] first asks the cache of virtual addresses. *)

From S2P Require Import Prelude CFile CString HostMem RamList Radix PhysPages RRTypes PandaCallbacks.
From S2P Require Import RRState RRReplay TBCache TBLists TBInv TBRemove TBInsert TBGen TBBitmap TBShape.
From stdpp Require Import functions list.
Local Open Scope Z_scope.

(** What the CPU's state names is a guest address. *)
Class FetchLaws (Regs : Type) `{!Translator Regs} `{TargetLong} := {
  fetch_pc : ∀ r, in_width target_long_bits (cpu_get_tb_cpu_state r).1.1;
  (** going back inside a block does not change what is mapped *)
  fetch_restore : ∀ r t pc a, get_page_addr_code (restore_state r t pc) a = get_page_addr_code r a;
}.

Section Find.
Context `{PhysSpace} `{TargetLong} {Regs : Type} `{!Translator Regs} `{!TranslatorLaws Regs} `{!SpaceOk L1_MAP_ADDR_SPACE_BITS}.
Context `{!TargetLongOk} `{!FetchLaws Regs}.
Implicit Types (s : tb_state Regs) (p q : slot) (i j n tb : nat) (v : view) (t : TranslationBlock) (r : Regs).

(** ** What does not matter to the cache *)

(** States with the same cache. *)
Record same_cache s s' : Prop := {
  sc_tbs : tbs s' = tbs s ∧ nb_tbs s' = nb_tbs s;
  sc_sizes : code_gen_max_blocks s' = code_gen_max_blocks s ∧ code_gen_buffer s' = code_gen_buffer s ∧
    code_gen_buffer_size s' = code_gen_buffer_size s ∧ code_gen_buffer_max_size s' = code_gen_buffer_max_size s;
  sc_ptr : code_gen_ptr s' = code_gen_ptr s;
  sc_lists : tb_phys_hash s' = tb_phys_hash s ∧ l1_map s' = l1_map s;
  sc_code : tc_code s' = tc_code s;
  sc_cache : tb_jmp_cache (tb_cpu s') = tb_jmp_cache (tb_cpu s);
  sc_ram : tb_ram s' = tb_ram s;
}.

#[global] Instance same_cache_equiv : Equivalence same_cache.
Proof.
  split.
  - by split.
  - intros a b [[] (? & ? & ? & ?) ? [] ? ? ?]. by split.
  - intros a b c [[] (? & ? & ? & ?) ? [] ? ? ?] [[] (? & ? & ? & ?) ? [] ? ? ?]. split; try split_and!; congruence.
Qed.

#[global] Instance cache_inv_proper : Proper (same_cache ==> eq ==> iff) cache_inv.
Proof.
  intros a b E v ? <-. assert (Hgo : ∀ x y, same_cache x y → cache_inv x v → cache_inv y v).
  { clear. intros x y [[] (? & ? & ? & ?) ? [] ? Ec ?] [A [B1 B2 B3 B4 B5 B6 B7 B8 B9] [C1 C2 C3 C4 C5 C6] D E F [G1 G2 G3 G4] R J].
    destruct x, y. simpl in *. subst. split; [done|by split|split; try done|done|done|done|by split|done|done].
    intros h i Hi. apply C6. simpl. by rewrite <-Ec. }
  split; apply Hgo; [done|by symmetry].
Qed.
#[global] Instance buffer_ok_proper : Proper (same_cache ==> iff) buffer_ok.
Proof.
  intros a b E. assert (Hgo : ∀ x y : tb_state Regs, same_cache x y → buffer_ok x → buffer_ok y).
  { clear. intros x y [[] (? & ? & ? & ?) ? [] ? ? ?] [A B C D F]. split; congruence. }
  split; apply Hgo; [done|by symmetry].
Qed.
Lemma same_data s s' : same_cache s s' → ∀ i, data s' i = data s i.
Proof. intros [[E _] _ _ _ _ _ _] i. unfold data. by rewrite E. Qed.
Lemma same_rd s s' : same_cache s s' → ∀ q, rd s' q = rd s q.
Proof. intros [[E _] _ _ [Eh Ep] _ _ _] q. unfold rd. by rewrite E, Eh, Ep. Qed.

(** ** Callbacks of plugins *)

Definition callbacks_ok s : Prop := ∃ xss, cb_rep (rr_cbs (tb_rr s)) xss.

Lemma run_tb_callbacks_ok s (k : panda_cb_type) ev : callbacks_ok s → ∃ e, run_tb_callbacks k ev s = Ok () (set_tb_trace (tb_trace s ++ [e]) s).
Proof.
  intros [xss Hr]. destruct (rep_idx _ _ k Hr) as [xs Hx]. pose proof (run_callbacks_rep _ _ _ _ Hr Hx) as E.
  unfold run_tb_callbacks. exists (ev (called xs)). erewrite bind_Ok by (unfold in_tb_rr; by rewrite (on_cbs_ok _ _ _ _ E)).
  unfold tb_emit, modify. destruct s as [????? ????? ????? rr ?]. by destruct rr.
Qed.

(** ** The search *)

(** A block translated for this address, code segment and state. *)
Definition block_for (pc cs_base flags : Z) t : Prop := tb_pc t = pc ∧ tb_cs_base t = cs_base ∧ tb_flags t = flags.
(** Its pages are those its addresses are mapped to. *)
Definition next_page (pc : Z) : Z := wrap target_long_bits (Z.land pc TARGET_PAGE_MASK + TARGET_PAGE_SIZE).
Definition maps r t : Prop :=
  (∃ ph, get_page_addr_code r (tb_pc t) = Some ph ∧ Z.land ph TARGET_PAGE_MASK = (page_addr t).1) ∧
  ((page_addr t).2 = NO_PAGE ∨ get_page_addr_code r (next_page (tb_pc t)) = Some (page_addr t).2).
(** The candidate of the search. *)
Definition candidate (pc cs_base flags page1 : Z) t : Prop := block_for pc cs_base flags t ∧ (page_addr t).1 = page1.
Definition hit r (pc cs_base flags page1 : Z) t : Prop := candidate pc cs_base flags page1 t ∧
  ((page_addr t).2 = NO_PAGE ∨ get_page_addr_code r (next_page pc) = Some (page_addr t).2).

Definition hits s r (pc cs_base flags page1 : Z) i : Prop := ∃ t, data s i = Some t ∧ hit r pc cs_base flags page1 t.

(** The result of the search of a chain [l]. *)
Definition search_result s p (l : list nat) (pc cs_base flags page1 : Z) (f : found) : Prop :=
  let r := cpu_regs (tb_cpu s) in
  match f with
  | Found tb q => ∃ l1 l2, l = l1 ++ tb :: l2 ∧ q = last_slot nx_hash p (untagged <$> l1) ∧ hits s r pc cs_base flags page1 tb ∧
                    Forall (λ i, ¬ hits s r pc cs_base flags page1 i) l1
  | NotFound q => q = last_slot nx_hash p (untagged <$> l) ∧ Forall (λ i, ¬ hits s r pc cs_base flags page1 i) l
  | Fault => get_page_addr_code r (next_page pc) = None
  end.

Lemma tb_search_ok s fuel p l pc cs_base flags page1 : chain nx_hash (rd s) p (untagged <$> l) None →
  (∀ i, i ∈ l → is_Some (data s i)) → (length l < fuel)%nat →
  ∃ f, tb_search fuel p pc cs_base flags page1 s = Ok f s ∧ search_result s p l pc cs_base flags page1 f.
Proof.
  revert fuel p. induction l as [|i l IH]; intros fuel p Hc Hd Hf; (destruct fuel as [|fuel]; [simpl in Hf; lia|]); cbn [tb_search].
  - mrun (ld_ok _ _ _ Hc). eexists. split; [done|]. done.
  - destruct Hc as [Hp Hc]. mrun (ld_ok _ _ _ Hp). destruct (Hd i ltac:(left)) as [t' Ht']. pose proof Ht' as Ht. unfold data in Ht.
    apply fmap_Some in Ht as (t & Ht & ->). rewrite (bind_Ok _ _ _ _ _ (tb_at_ok _ _ _ Ht)), bind_gets.
    destruct (IH fuel (SHashNext i) Hc) as (f & Ef & Hr); [intros; apply Hd; by right|simpl in Hf; lia|].
    assert (Hskip : ¬ hits s (cpu_regs (tb_cpu s)) pc cs_base flags page1 i → search_result s p (i :: l) pc cs_base flags page1 f).
    { intros Hn. destruct f as [tb q|q|]; simpl in *; [|naive_solver..].
      destruct Hr as (l1 & l2 & -> & -> & ? & ?). exists (i :: l1), l2. split_and!; try done. by constructor. }
    case_decide as Hm.
    + destruct Hm as (M1 & M2 & M3 & M4). assert (Hcand : candidate pc cs_base flags page1 (tb_data t)) by done.
      case_decide as Hn.
      { eexists. split; [done|]. exists [], l. split_and!; try done. exists (tb_data t). split; [done|]. split; [done|]. by left. }
      fold (next_page pc). destruct (get_page_addr_code _ (next_page pc)) as [p2|] eqn:Ep.
      2: { eexists. split; [done|]. done. }
      case_decide as H2'.
      * eexists. split; [done|]. exists [], l. split_and!; try done. exists (tb_data t). split; [done|]. split; [done|]. right. by rewrite Ep, <-H2'.
      * exists f. split; [done|]. apply Hskip. intros (u & Hu & _ & [Hu2|Hu2]); rewrite Ht' in Hu; injection Hu as <-; [done|].
        rewrite Ep in Hu2. injection Hu2 as ->. done.
    + exists f. split; [done|]. apply Hskip. intros (u & Hu & [(U1 & U2 & U3) U4] & _). rewrite Ht' in Hu. injection Hu as <-. by apply Hm.
Qed.
(** ** The head of the chain *)

Definition with_hash (hs : Z → list nat) v : view := mkView (v_live v) hs (v_page v) (v_jumps v).

Lemma rehash_inv s s' v hs : cache_inv s v → keeps s s' → tc_code s' = tc_code s → aux s' = aux s →
  (∀ q, ¬ hash_slot q → slot_ok q → rd s' q = rd s q) → hash_family s' hs → (∀ h i, i ∈ hs h ↔ i ∈ v_hash v h) →
  cache_inv s' (with_hash hs v).
Proof.
  intros [Hok HLa HLi HH HP HJ HC HR HG] K C U R F E. assert (Ec : tb_cpu s' = tb_cpu s) by (by injection U).
  assert (HLi' : listed s' v) by (eapply listed_keeps; [done|by rewrite Ec|done]). split; simpl.
  - by apply K.
  - by eapply layout_keeps.
  - destruct HLi' as [A B C' D E' F']. split; try done. simpl. intros h i. by rewrite E.
  - done.
  - eapply page_frame; [..|exact HP]; [intros q Hq Ho; apply R; [destruct q; simpl in *; tauto|done]|apply K].
  - eapply jump_frame; [|exact HJ]. intros q Hq. apply R; destruct q; simpl in *; tauto.
  - pose proof (chained_keeps s s' v K C) as Hch. apply Hch in HC as [A B C' D]; [by split|]. intros q Hq. apply R; destruct q; simpl in *; tauto.
  - by rewrite (keeps_ram _ _ K).
  - by eapply (guarded_keeps s s' v).
Qed.

Definition front (h : Z) tb v : view := with_hash (<[h := tb :: filter (λ i, i ≠ tb) (v_hash v h)]> (v_hash v)) v.

Lemma tb_to_front s v h l1 tb l2 : cache_inv s v → v_hash v h = l1 ++ tb :: l2 →
  let p := last_slot nx_hash (SHash h) (untagged <$> l1) in
  (∃ w, rd s p = Some (Some w)) ∧
  ∃ s', (nx ← ld (SHashNext tb); st p nx;; hd ← ld (SHash h); st (SHashNext tb) hd;; st (SHash h) (Some (tb, O))) s = Ok () s' ∧
    cache_inv s' (front h tb v) ∧ keeps s s' ∧ aux s' = aux s.
Proof.
  intros HI El p. pose proof HI as [Hok HLa HLi HH HP HJ HC HR HG].
  pose proof (fam_chain _ _ _ _ _ _ _ HH h I) as Hc. cbn beta in Hc. rewrite El, fmap_app, fmap_cons in Hc.
  pose proof Hc as Hc0. apply chain_app in Hc as [Hc1 Hc2]. apply chain_last in Hc1. fold p in Hc1.
  pose proof (chain_first _ _ _ _ _ Hc2) as Hnx.
  change (nx_hash (untagged tb)) with (SHashNext tb) in Hnx. set (nx := first_ptr (untagged <$> l2) None) in Hnx.
  assert (Hn : NoDup (v_hash v h)) by (pose proof (fam_nodup _ _ _ _ _ _ _ HH h I) as Hn; by apply NoDup_fmap_1 in Hn).
  assert (Hp : hash_slot p).
  { pose proof (last_slot_elem nx_hash (SHash h) (untagged <$> l1)) as Hp. fold p in Hp.
    apply elem_of_cons in Hp as [->|Hp]; [done|]. by apply list_elem_of_fmap in Hp as (x & -> & _). }
  assert (Hpo : slot_ok p) by (by destruct p).
  split; [by eexists|]. pose proof (wr_keeps s p nx Hok) as K1. set (s1 := wr p nx s) in *.
  set (hs1 := <[h := l1 ++ l2]> (v_hash v)).
  assert (F1 : hash_family s1 hs1).
  { eapply (fam_ext _ _ _ _ (λ _, True) _ (<[h := (untagged <$> l1) ++ (untagged <$> l2)]> (λ k, untagged <$> v_hash v k))); [done| |].
    - intros k _. unfold hs1. destruct (decide (h = k)) as [<-|Ne]; [by rewrite !fn_lookup_insert, fmap_app|by rewrite !fn_lookup_insert_ne].
    - eapply fam_remove; [intros; congruence| |done|exact HH|done|by rewrite El, fmap_app, fmap_cons|exact Hnx|].
      + intros [x1 x2] [y1 y2] Hx Hy [= ->]. unfold elt_hash in *. simpl in *. congruence.
      + intros q Hq. apply rd_wr_sym; [done..|by destruct Hq as [(? & _ & ->)|(? & _ & ->)]|]. change (is_Some (rd s p)). by rewrite Hc1. }
  assert (Hnot : ∀ k, tb ∉ hs1 k).
  { intros k. unfold hs1. destruct (decide (h = k)) as [<-|Ne].
    - rewrite fn_lookup_insert. rewrite El in Hn. apply NoDup_app in Hn as (_ & Hd & Hn). apply NoDup_cons in Hn as [Hx _].
      rewrite elem_of_app. intros [Hx1|Hx2]; [|done]. apply (Hd tb Hx1). left.
    - rewrite fn_lookup_insert_ne by done. intros Hk. apply Ne.
      apply (fam_apart _ _ _ _ _ _ _ HH h k (untagged tb)); [done..|by rewrite untagged_elem, El; set_solver|by rewrite untagged_elem]. }
  assert (Htb : is_Some (tbs s1 !! tb)).
  { apply lookup_lt_is_Some_2. rewrite (keeps_length _ _ K1). unfold rd in Hnx. apply fmap_Some in Hnx as (t & Ht & _). by apply lookup_lt_Some in Ht. }
  destruct (push_hash_ok s1 hs1 h tb ltac:(by apply K1) F1 Htb Hnot) as (w & Hw & E2 & K2 & C2 & U2 & F2 & R2 & _).
  set (s2 := wr (SHash h) _ _) in *. exists s2.
  assert (U1 : aux s1 = aux s ∧ tc_code s1 = tc_code s) by (unfold s1; clear -Hp; destruct p; by try tauto).
  split_and!.
  - mrun (ld_ok _ _ _ Hnx). rewrite (bind_Ok _ _ _ _ _ (st_ok s p nx ltac:(by rewrite Hc1))). fold s1. mrun (ld_ok _ _ _ Hw). exact E2.
  - eapply rehash_inv; [exact HI|by etrans|by destruct U1; congruence|by destruct U1; congruence| |..].
    + intros q Hq Ho. rewrite R2 by done. apply rd_wr_ne; [done..|by rewrite Hc1|]. by intros ->.
    + eapply fam_ext; [..|exact F2]; [done|]. intros k _. unfold hs1. f_equal. destruct (decide (h = k)) as [<-|Ne].
      * rewrite !fn_lookup_insert. f_equal. rewrite El in *. by rewrite hash_filter.
      * by rewrite !fn_lookup_insert_ne.
    + intros k i. destruct (decide (h = k)) as [<-|Ne]; [|by rewrite fn_lookup_insert_ne].
      rewrite fn_lookup_insert, elem_of_cons, list_elem_of_filter. destruct (decide (i = tb)) as [->|]; [|naive_solver].
      rewrite El. set_solver.
  - by etrans.
  - destruct U1. congruence.
Qed.
(** ** Addresses *)

(** A block that does not end in its first page ends in the next one. *)
Lemma second_page_next pc r size a : in_width target_long_bits pc → 1 ≤ size ≤ TARGET_PAGE_SIZE →
  second_page pc r size = Some a → a = NO_PAGE ∨ get_page_addr_code r (next_page pc) = Some a.
Proof.
  intros Hpc Hs. unfold second_page. case_decide as Hd; [intros [= <-]; by left|]. intros Ha. right. rewrite <-Ha. f_equal. clear Ha.
  change TARGET_PAGE_SIZE with 4096 in Hs. pose proof (Z.div_mod pc 4096 ltac:(lia)) as Ep. pose proof (Z.mod_pos_bound pc 4096 ltac:(lia)) as Hm.
  set (q := pc / 4096) in *. set (o := pc mod 4096) in *. unfold next_page. rewrite Ep, page_of in Hd |- * by lia.
  change TARGET_PAGE_SIZE with 4096. replace (4096 * q + 4096) with (4096 * (q + 1) + 0) by lia. rewrite wrap_page by lia.
  assert (Hq : 0 ≤ q < 2 ^ (target_long_bits - 12)).
  { pose proof target_long_ok. unfold in_width in Hpc. split; [lia|]. replace (2 ^ target_long_bits) with (4096 * 2 ^ (target_long_bits - 12)) in Hpc; [lia|].
    change 4096 with (2 ^ 12). rewrite <-Z.pow_add_r by lia. f_equal. lia. }
  destruct (decide (o + size - 1 < 4096)) as [Hlt|Hge].
  - destruct Hd. replace (4096 * q + o + size - 1) with (4096 * q + (o + size - 1)) by lia. rewrite wrap_page, page_of by lia.
    rewrite Z.mod_small by lia. done.
  - replace (4096 * q + o + size - 1) with (4096 * (q + 1) + (o + size - 1 - 4096)) by lia. rewrite wrap_page, page_of by lia. lia.
Qed.

Lemma flags_again (fl : Z) : wrap 64 (int32 (wrap 64 (int32 fl))) = wrap 64 (int32 fl).
Proof.
  unfold int32, wrap. f_equal. set (x := (fl + 2 ^ 31) mod 2 ^ 32). assert (0 ≤ x < 2 ^ 32) by (apply Z.mod_pos_bound; lia).
  f_equal. destruct (decide (2 ^ 31 ≤ x)).
  - rewrite (Z.mod_small (x - 2 ^ 31)) by lia. rewrite Z.mod_small; lia.
  - replace ((x - 2 ^ 31) mod 2 ^ 64) with (x - 2 ^ 31 + 2 ^ 64) by (apply (Z.mod_unique_pos _ _ (-1)); lia).
    symmetry. apply (Z.mod_unique_pos _ _ (2 ^ 32)); lia.
Qed.

(** ** Coherence with the MMU *)

Definition coherent s : Prop := ∀ h i t, tb_jmp_cache (tb_cpu s) !! h = Some i → data s i = Some t → maps (cpu_regs (tb_cpu s)) t.

Record good s v : Prop := {
  gd_inv : cache_inv s v;
  gd_buffer : buffer_ok s;
  gd_ram : code_in_ram s;
  gd_callbacks : callbacks_ok s;
  gd_coherent : coherent s;
  gd_shaped : shaped s v;
  gd_bitmaps : bitmaps s v;
}.

(** The block the search is for: live, translated for this state, from the pages
    that are mapped. *)
Definition right_block s v (pc cs_base flags : Z) tb : Prop :=
  tb ∈ v_live v ∧ ∃ t, data s tb = Some t ∧ block_for pc cs_base flags t ∧ maps (cpu_regs (tb_cpu s)) t.

Definition cached tb (pc : Z) (c : CPUState Regs) : CPUState Regs :=
  set_tb_jmp_cache (<[tb_jmp_cache_hash_func pc := tb]> (tb_jmp_cache c)) c.

Lemma cache_put s v (pc cs_base flags : Z) tb : good s v → right_block s v pc cs_base flags tb →
  good (set_tb_cpu (cached tb pc (tb_cpu s)) s) v ∧ right_block (set_tb_cpu (cached tb pc (tb_cpu s)) s) v pc cs_base flags tb.
Proof.
  intros [HI HB HR HC HM HS HBm] (Hl & t & Ht & (Epc & Ecs & Ef) & Hmaps). split; [|split; [done|]; by exists t].
  assert (Hc : ∀ h i, <[tb_jmp_cache_hash_func pc := tb]> (tb_jmp_cache (tb_cpu s)) !! h = Some i →
    (i = tb ∧ h = tb_jmp_cache_hash_func pc) ∨ tb_jmp_cache (tb_cpu s) !! h = Some i).
  { intros h i. rewrite lookup_insert_Some. naive_solver. }
  split; [|by destruct HB|done|done| |exact HS|by apply (bitmaps_keep s _ v)].
  - destruct HI as [A [B1 B2 B3 B4 B5 B6 B7 B8 B9] [C1 C2 C3 C4 C5 C6] D E F [G1 G2 G3 G4] R J].
    split; [done|by split|split; try done|done|done|done|by split|done|done].
    simpl. intros h i [[-> ->]|Hi]%Hc; [|by apply C6]. split; [done|]. exists t. by rewrite Epc.
  - intros h i u [[-> ->]|Hi]%Hc Hu; [|by eapply HM]. change (data s tb = Some u) in Hu. simplify_eq. done.
Qed.
Lemma good_keeps s s' v v' : good s v → cache_inv s' v' → keeps s s' → aux s' = aux s → v_live v' = v_live v → v_page v' = v_page v → good s' v'.
Proof.
  intros [HI HB HR HC HM HS HBm] HI' K U El Ep. assert (Ec : tb_cpu s' = tb_cpu s) by (by injection U).
  pose proof (k_rest _ _ K) as Hr. unfold rest in Hr. injection Hr as E1 E2 E3 E4 E5 E6 E7 E8 E9 E10 E11. split.
  - done.
  - destruct HB. split; congruence.
  - eapply code_in_ram_ext; [..|exact HR]; congruence.
  - unfold callbacks_ok. by rewrite E9.
  - intros h i t. rewrite Ec, (k_data _ _ K). apply HM.
  - intros i t. rewrite El, (k_data _ _ K). apply HS.
  - eapply bitmaps_keep; [apply K| |exact HBm]. intros k bm Hk Hb. rewrite Ep. split; [by apply (k_bitmap _ _ K)|done].
Qed.

Lemma good_same s s' v : same_cache s s' → tb_cpu s' = tb_cpu s → rr_cbs (tb_rr s') = rr_cbs (tb_rr s) → good s v → good s' v.
Proof.
  intros E Ec Er [HI HB HR HC HM HS HBm]. split.
  - by rewrite <-E.
  - by rewrite <-E.
  - eapply code_in_ram_ext; [..|exact HR]; [by rewrite Ec|by rewrite (sc_ram _ _ E)].
  - unfold callbacks_ok. by rewrite Er.
  - intros h i t. rewrite Ec, (same_data _ _ E). apply HM.
  - intros i t. rewrite (same_data _ _ E). apply HS.
  - eapply bitmaps_keep; [by apply same_data| |exact HBm]. intros k bm _. unfold bm_at. by rewrite (proj2 (sc_lists _ _ E)).
Qed.

Lemma right_keeps s s' v v' (pc cs_base flags : Z) tb : keeps s s' → aux s' = aux s → v_live v' = v_live v →
  right_block s v pc cs_base flags tb → right_block s' v' pc cs_base flags tb.
Proof.
  intros K U El (Hl & t & Ht & Hb & Hm). assert (Ec : tb_cpu s' = tb_cpu s) by (by injection U).
  split; [by rewrite El|]. exists t. by rewrite (k_data _ _ K), Ec.
Qed.

(** A step of the lookup that leaves the blocks alone. *)
Record calm s s' v v' : Prop := {
  ca_live : v_live v' = v_live v;
  ca_data : ∀ i, data s' i = data s i;
  ca_rr : tb_rr s' = tb_rr s;
  ca_flag : tb_invalidated_flag s' = tb_invalidated_flag s;
  ca_cpu : same_cpu s s';
  ca_jumps : v_jumps v' = v_jumps v;
}.

(** [tb_found] of a block on the chain, from the place the search stopped at. *)
Lemma tb_found_ok s v h l1 tb l2 pc cs_base flags : good s v → v_hash v h = l1 ++ tb :: l2 → right_block s v pc cs_base flags tb →
  ∃ s', tb_found h (last_slot nx_hash (SHash h) (untagged <$> l1)) pc tb s = Ok () s' ∧ good s' (front h tb v) ∧
    right_block s' (front h tb v) pc cs_base flags tb ∧ calm s s' v (front h tb v).
Proof.
  intros HG El HR. destruct (tb_to_front s v h l1 tb l2 (gd_inv _ _ HG) El) as ((w & Hw) & s1 & E1 & HI1 & K1 & U1).
  assert (G1 : good s1 (front h tb v)) by (by eapply good_keeps).
  assert (R1 : right_block s1 (front h tb v) pc cs_base flags tb) by (by eapply right_keeps).
  destruct (cache_put s1 (front h tb v) pc cs_base flags tb G1 R1) as [G2 R2].
  exists (set_tb_cpu (cached tb pc (tb_cpu s1)) s1). unfold tb_found. mrun (ld_ok _ _ _ Hw). mrun E1.
  split_and!; [done..|]. injection U1 as Uf _ Uc. split; [done|apply K1| |done|by unfold same_cpu; simpl; rewrite Uc|done].
  pose proof (k_rest _ _ K1) as Kr. by injection Kr.
Qed.

(** And of a block that is at the head already. *)
Lemma tb_found_head s v h p tb pc cs_base flags : good s v → rd s p = Some None → right_block s v pc cs_base flags tb →
  ∃ s', tb_found h p pc tb s = Ok () s' ∧ good s' v ∧ right_block s' v pc cs_base flags tb ∧ calm s s' v v.
Proof.
  intros HG Hp HR. destruct (cache_put s v pc cs_base flags tb HG HR) as [G2 R2].
  eexists. unfold tb_found. mrun (ld_ok _ _ _ Hp). split; [reflexivity|]. split_and!; done.
Qed.

(** After a translation, the place the search stopped at is the head of the chain or
    the end of a list. *)
Lemma after_gen_slot s s' v v1 v' pc cs_base flags tb h l : cache_inv s v → generated s s' v v1 v' pc cs_base flags 0 (Some tb) →
  v_hash v h = l → v_hash v' h = tb :: v_hash v1 h →
  (l = [] ∧ v_hash v' h = [tb]) ∨ rd s' (last_slot nx_hash (SHash h) (untagged <$> l)) = Some None.
Proof.
  intros HI G El Ev. pose proof G as [G1 G2 _ _ _ G6 _ _ _ G10 _ _ _ _ _]. pose proof (fam_chain _ _ _ _ _ _ _ (ci_hash _ _ HI) h I) as Hc.
  cbn beta in Hc. rewrite El in Hc. pose proof (chain_last _ _ _ _ _ Hc) as Hlast.
  pose proof (fam_chain _ _ _ _ _ _ _ (ci_hash _ _ G2) h I) as Hc'. cbn beta in Hc'. rewrite Ev in Hc'.
  destruct l as [|x l _] using rev_ind.
  - left. split; [done|]. rewrite Ev. destruct G1 as [[_ ->]|[(_ & -> & _)|(? & _)]]; [by rewrite El|done|done].
  - right. rewrite fmap_app in *. simpl in *. rewrite last_slot_app in *. simpl in *. change (nx_hash (untagged x)) with (SHashNext x) in *.
    destruct (decide (x = tb)) as [->|Ne]; [|by rewrite (G10 x tb)].
    assert (Ev1 : v1 = empty_view).
    { destruct G1 as [[_ ->]|[(_ & ? & _)|(? & _)]]; [|done|done]. destruct G6 as (t & ? & ? & Hn & _). destruct Hn.
      assert (Hin : tb ∈ v_hash v h) by (rewrite El; set_solver). by apply (li_hash _ _ (ci_listed _ _ HI)) in Hin as [? _]. }
    rewrite Ev1 in Hc'. destruct Hc' as [_ Hc']. exact Hc'.
Qed.
(** ** The whole lookup *)

Record looked_up s s' v v' (pc cs_base flags : Z) (o : option nat) : Prop := {
  lu_good : good s' v';
  lu_cpu : same_cpu s s';
  lu_rr : tb_rr s' = tb_rr s;
  lu_block : ∀ tb, o = Some tb → right_block s' v' pc cs_base flags tb;
  (** nothing is translated when a block is there *)
  lu_reuse : (∃ i, right_block s v pc cs_base flags i) → v_live v' = v_live v;
  lu_total : (∀ a, is_Some (get_page_addr_code (cpu_regs (tb_cpu s)) a)) →
    (∀ t, is_Some (cpu_gen_code (cpu_regs (tb_cpu s)) (tb_rr s) t)) → is_Some o;
  (** a new block is what the translator made of the present state *)
  lu_fresh : ∀ tb, o = Some tb → ¬ (∃ i, right_block s v pc cs_base flags i) →
    ∃ t0 g t, cpu_gen_code (cpu_regs (tb_cpu s)) (tb_rr s) t0 = Some g ∧ data s' tb = Some t ∧ num_guest_insns t = wrap 16 (g_num_insns g);
  (** no other block is new, and none is lost unless the flag says so *)
  lu_old : ∀ i, i ∈ v_live v' → o = Some i ∨ (i ∈ v_live v ∧ data s' i = data s i);
  lu_stays : tb_invalidated_flag s' = false → ∀ i, i ∈ v_live v → i ∈ v_live v' ∧ data s' i = data s i;
  lu_flag : tb_invalidated_flag s = false → ¬ full s → tb_invalidated_flag s' = false;
  (** nothing is chained *)
  lu_jumps : ∀ x j, j ∈ v_live v' → x ∈ v_jumps v' j → j ∈ v_live v ∧ x ∈ v_jumps v j;
}.

Lemma same_cpu_regs s s' : same_cpu s s' → cpu_regs (tb_cpu s') = cpu_regs (tb_cpu s).
Proof. by intros [=]. Qed.

(** A translation makes a block for its address, from the pages that are mapped. *)
Lemma new_block_maps pc cs_base flags cflags s' v1 v' r tb t : in_width target_long_bits pc →
  new_block pc cs_base flags cflags s' v1 v' r tb → data s' tb = Some t → maps r t.
Proof.
  intros Hpc (u & ph & p2 & N & _ & Hu & Eh & Ea & E2 & Hs & Ep) Ht. assert (u = t) as -> by congruence. injection Eh as E3 E4 E5 E6. subst pc.
  split; [exists ph; by rewrite Ep|]. rewrite Ep. simpl. by eapply second_page_next.
Qed.

Lemma generated_good s s' v v1 v' pc cs_base flags cflags o : good s v → in_width target_long_bits pc →
  generated s s' v v1 v' pc cs_base flags cflags o → good s' v'.
Proof.
  intros HG Hpc GN. pose proof GN as [G1 G2 G3 G4 G5 G6 G7 G8 G9 G10 G12 G11 _ _ _].
  split; [done..|unfold callbacks_ok; rewrite G7; apply HG| |by eapply generated_shaped; [apply HG|apply HG|..|exact GN]; [done|apply HG]|
    by eapply generated_bitmaps; [apply HG..|exact GN]].
  intros h i u Hi Hu. rewrite G5. destruct (li_cache _ _ (ci_listed _ _ G2) h i Hi) as (Hl & _).
  assert (Hold : i ∈ v_live v1 → maps (cpu_regs (tb_cpu s)) u).
  { intros Hl1. rewrite G8 in Hu by done. eapply (gd_coherent _ _ HG); [|done]. by eapply lookup_weaken. }
  destruct o as [tb|]; [|by apply Hold; rewrite <-G6]. destruct (decide (i = tb)) as [->|Ne]; [by eapply new_block_maps|].
  apply Hold. destruct G6 as (t & ? & ? & N & -> & _). simpl in Hl. set_solver.
Qed.

(** Without a flush the other blocks are untouched. *)
Lemma generated_stays s s' v v1 v' pc cs_base flags cflags o : generated s s' v v1 v' pc cs_base flags cflags o → tb_invalidated_flag s = false →
  tb_invalidated_flag s' = false → ∀ i, i ∈ v_live v → i ∈ v_live v' ∧ data s' i = data s i.
Proof.
  intros GN Hf Hf' i Hi. pose proof (gn_flag _ _ _ _ _ _ _ _ _ _ GN Hf Hf') as ->. split; [|by apply (gn_data _ _ _ _ _ _ _ _ _ _ GN)].
  pose proof (gn_block _ _ _ _ _ _ _ _ _ _ GN) as Hb. destruct o; [destruct Hb as (t & ? & ? & _ & -> & _); simpl; set_solver|by rewrite Hb].
Qed.

Lemma generated_old s s' v v1 v' pc cs_base flags cflags o : generated s s' v v1 v' pc cs_base flags cflags o →
  ∀ i, i ∈ v_live v' → o = Some i ∨ (i ∈ v_live v ∧ data s' i = data s i).
Proof.
  intros GN i Hi. pose proof GN as [G1 _ _ _ _ G6 _ G8 _ _ _ _ _ _ _].
  assert (Hv : i ∈ v_live v1 → i ∈ v_live v ∧ data s' i = data s i).
  { intros H1'. split; [|by apply G8]. destruct G1 as [[_ ->]|[(_ & -> & _)|(_ & _ & ->)]]; [done|set_solver|done]. }
  destruct o as [tb|]; [|right; apply Hv; by rewrite <-G6]. destruct G6 as (t & ? & ? & _ & -> & _). simpl in Hi.
  apply elem_of_union in Hi as [->%elem_of_singleton|Hi]; [by left|right; by apply Hv].
Qed.

Lemma generated_jumps s s' v v1 v' pc cs_base flags cflags o : generated s s' v v1 v' pc cs_base flags cflags o →
  ∀ x j, j ∈ v_live v' → x ∈ v_jumps v' j → j ∈ v_live v ∧ x ∈ v_jumps v j.
Proof.
  intros GN x j. pose proof (gn_room _ _ _ _ _ _ _ _ _ _ GN) as G1. pose proof (gn_block _ _ _ _ _ _ _ _ _ _ GN) as G6.
  assert (Hv : j ∈ v_live v1 → x ∈ v_jumps v1 j → j ∈ v_live v ∧ x ∈ v_jumps v j).
  { destruct G1 as [[_ ->]|[(_ & -> & _)|(_ & _ & ->)]]; [done|set_solver|done]. }
  destruct o as [tb|]; [|by rewrite G6]. destruct G6 as (t & ? & ? & _ & -> & _). simpl. destruct (decide (j = tb)) as [->|Ne].
  - rewrite fn_lookup_insert. by intros _ ?%not_elem_of_nil.
  - rewrite fn_lookup_insert_ne by done. intros [->%elem_of_singleton|Hj]%elem_of_union; [done|by apply Hv].
Qed.

(** It is the one that was looked for, and at the head of its chain. *)
Lemma generated_right s s' v v1 v' pc cs_base fl phys_pc tb : good s v → in_width target_long_bits pc →
  generated s s' v v1 v' pc cs_base (wrap 64 (int32 fl)) 0 (Some tb) → get_page_addr_code (cpu_regs (tb_cpu s)) pc = Some phys_pc →
  right_block s' v' pc cs_base (wrap 64 (int32 fl)) tb ∧ v_hash v' (tb_phys_hash_func phys_pc) = tb :: v_hash v1 (tb_phys_hash_func phys_pc).
Proof.
  intros HG Hpc GN Hph. pose proof GN as [_ _ _ _ G5 G6 _ _ _ _ _ _ _ _ _]. pose proof G6 as (t & ph & p2 & N & -> & Ht & Eh & Ea & E2 & Hs & Ep).
  injection Eh as E3 E4 E5 E6. rewrite flags_again in E5. rewrite Hph in Ea. injection Ea as <-. split.
  - split; [simpl; set_solver|]. exists t. rewrite G5. split_and!; [done..|]. by eapply new_block_maps.
  - simpl. assert (Ek : hash_key t = tb_phys_hash_func phys_pc); [|by rewrite Ek, fn_lookup_insert]. unfold hash_key. f_equal.
    destruct (gd_ram _ _ HG _ _ Hph) as (W & M & _). rewrite <-E3 in M. pose proof (linked_phys_pc t phys_pc p2 W M) as E. unfold linked_tb in E. rewrite <-Ep in E. by destruct t.
Qed.

(** A block in the cache that could be used is found by the search. *)
Lemma right_hits s v pc cs_base flags phys_pc i : cache_inv s v → code_in_ram s → get_page_addr_code (cpu_regs (tb_cpu s)) pc = Some phys_pc →
  right_block s v pc cs_base flags i → i ∈ v_hash v (tb_phys_hash_func phys_pc) ∧
  hits s (cpu_regs (tb_cpu s)) pc cs_base flags (Z.land phys_pc TARGET_PAGE_MASK) i.
Proof.
  intros HI HC Hph (Hl & t & Ht & (E1 & E2 & E3) & (ph & Hp & Ep) & Hm). subst. simplify_eq. destruct (HC _ _ Hph) as (W & M & _). split.
  - apply (li_hash _ _ (ci_listed _ _ HI)). split; [done|]. exists t. split; [done|]. unfold hash_key. f_equal.
    unfold tb_phys_pc, page_offset_of. rewrite <-Ep, page_offset, page_mask, <-M.
    replace (phys_pc - phys_pc mod 4096 + phys_pc mod 4096) with phys_pc by lia. by apply wrap_small.
  - exists t. done.
Qed.

Lemma hits_right s v pc cs_base flags phys_pc i : get_page_addr_code (cpu_regs (tb_cpu s)) pc = Some phys_pc → i ∈ v_live v →
  hits s (cpu_regs (tb_cpu s)) pc cs_base flags (Z.land phys_pc TARGET_PAGE_MASK) i → right_block s v pc cs_base flags i.
Proof.
  intros Hph Hl (t & Ht & [(E1 & E2 & E3) E4] & Hm). subst. split; [done|]. exists t. split; [done|]. split; [done|]. split; [eauto|done].
Qed.

Lemma hash_live s v h i : cache_inv s v → i ∈ v_hash v h → i ∈ v_live v ∧ is_Some (data s i).
Proof. intros HI Hi. apply (li_hash _ _ (ci_listed _ _ HI)) in Hi as (? & t & ? & _). split; [done|]. by exists t. Qed.

Lemma tb_find_slow_ok s v pc cs_base fl : good s v → in_width target_long_bits pc → let flags := wrap 64 (int32 fl) in
  ∃ o s' v', tb_find_slow pc cs_base flags s = Ok o s' ∧ looked_up s s' v v' pc cs_base flags o.
Proof.
  intros HG Hpc flags. unfold tb_find_slow. rewrite bind_modify. set (s0 := set_tb_invalidated_flag false s).
  assert (G0 : good s0 v) by (by apply (good_same s s0); [by split|done..|]). rewrite bind_gets. change (cpu_regs (tb_cpu s0)) with (cpu_regs (tb_cpu s)).
  destruct (get_page_addr_code _ pc) as [phys_pc|] eqn:Eph.
  2: { exists None, s0, v. split; [done|]. split; try done; [|by right]. intros Ha _. specialize (Ha pc). rewrite Eph in Ha. by destruct Ha. }
  unfold list_fuel. rewrite bind_gets. set (h := tb_phys_hash_func phys_pc).
  destruct (tb_search_ok s0 (S (S (2 * length (tbs s0)))) (SHash h) (v_hash v h) pc cs_base flags (Z.land phys_pc TARGET_PAGE_MASK)) as (f & Ef & Hf).
  { apply (fam_chain _ _ _ _ _ _ _ (ci_hash _ _ (gd_inv _ _ G0)) h I). }
  { intros i Hi. by apply (hash_live s0 v h i (gd_inv _ _ G0)) in Hi as [_ ?]. }
  { pose proof (hash_length s0 v h (gd_inv _ _ G0)). lia. }
  rewrite (bind_Ok _ _ _ _ _ Ef). destruct f as [tb q|q|].
  - destruct Hf as (l1 & l2 & El & -> & Hh & _).
    destruct (hash_live s0 v h tb (gd_inv _ _ G0)) as [Hl _]; [rewrite El; set_solver|].
    assert (HR : right_block s0 v pc cs_base flags tb) by (by eapply hits_right).
    destruct (tb_found_ok s0 v h l1 tb l2 pc cs_base flags G0 El HR) as (s' & E & G' & R' & C). mrun E.
    exists (Some tb), s', (front h tb v). split; [done|]. split; [done|apply C|apply C|naive_solver|done|done|intros ? _ []; by exists tb|..].
    + intros i Hi. right. split; [done|]. apply C.
    + intros _ i Hi. split; [done|]. apply C.
    + intros _ _. apply C.
    + done.
  - destruct Hf as [-> Hnone]. destruct (run_tb_callbacks_ok s0 PANDA_CB_BEFORE_BLOCK_TRANSLATE (λ cbs, EvBeforeBlockTranslate cbs pc) (gd_callbacks _ _ G0)) as [e1 E1].
    rewrite (bind_Ok _ _ _ _ _ E1). set (s1 := set_tb_trace _ s0) in *. assert (G1 : good s1 v) by (by apply (good_same s0 s1); [by split|done..|]).
    assert (Hno : ¬ ∃ i, right_block s v pc cs_base flags i).
    { intros [i Hi]. change (right_block s0 v pc cs_base flags i) in Hi. destruct (right_hits s0 v pc cs_base flags phys_pc i (gd_inv _ _ G0) (gd_ram _ _ G0) Eph Hi) as [Hin Hh].
      by apply (proj1 (Forall_forall _ _) Hnone i Hin). }
    destruct (tb_gen_code_ok s1 v pc cs_base flags 0 (gd_inv _ _ G1) (gd_buffer _ _ G1) (gd_ram _ _ G1)) as (o & s2 & v1 & v2 & E2 & GN).
    pose proof (generated_stays _ _ _ _ _ _ _ _ _ _ GN eq_refl) as Hstay. pose proof (generated_old _ _ _ _ _ _ _ _ _ _ GN) as Hold. pose proof (generated_good _ _ _ _ _ _ _ _ _ _ G1 Hpc GN) as G2.
    rewrite (bind_Ok _ _ _ _ _ E2). destruct o as [tb|].
    2: { exists None, s2, v2. split; [done|]. pose proof GN as [N1 N2 N3 N4 N5 N6 N7 N8 N9 N10 N12 N11 _ N14 _]. split; try done; by eapply generated_jumps. }
    destruct (generated_right s1 s2 v v1 v2 pc cs_base fl phys_pc tb G1 Hpc GN Eph) as (R2 & Eh). fold h in Eh.
    destruct (run_tb_callbacks_ok s2 PANDA_CB_AFTER_BLOCK_TRANSLATE (λ cbs, EvAfterBlockTranslate cbs tb) (gd_callbacks _ _ G2)) as [e2 E3].
    rewrite (bind_Ok _ _ _ _ _ E3). set (s3 := set_tb_trace _ s2) in *. assert (G3 : good s3 v2) by (by apply (good_same s2 s3); [by split|done..|]).
    assert (R3 : right_block s3 v2 pc cs_base flags tb) by done.
    assert (Hend : ∃ s' v', tb_found h (last_slot nx_hash (SHash h) (untagged <$> v_hash v h)) pc tb s3 = Ok () s' ∧ good s' v' ∧
      right_block s' v' pc cs_base flags tb ∧ calm s3 s' v2 v').
    { destruct (after_gen_slot s1 s2 v v1 v2 pc cs_base flags tb h (v_hash v h) (gd_inv _ _ G1) GN eq_refl Eh) as [[-> El]|Hnone'].
      - destruct (tb_found_ok s3 v2 h [] tb [] pc cs_base flags G3 El R3) as (s' & ?). by exists s', (front h tb v2).
      - destruct (tb_found_head s3 v2 h _ tb pc cs_base flags G3 Hnone' R3) as (s' & ?). by exists s', v2. }
    destruct Hend as (s' & v' & E4 & G4 & R4 & C). mrun E4. exists (Some tb), s', v'. split; [done|].
    destruct C as [C1 C2 C3 C4 C5 C6]. pose proof (gn_cpu _ _ _ _ _ _ _ _ _ _ GN) as Gc. pose proof (gn_rr _ _ _ _ _ _ _ _ _ _ GN) as Gr.
    split; [done|unfold same_cpu in *; by etrans|by rewrite C3|naive_solver|by intros ?%Hno|by eexists|..].
    + intros ? [= <-] _. destruct (gn_insns _ _ _ _ _ _ _ _ _ _ GN tb eq_refl) as (t0 & g & t & Hg & Ht & Hn). exists t0, g, t. by rewrite C2.
    + intros i Hi. rewrite C1 in Hi. rewrite C2. by apply Hold.
    + intros Hf i Hi. rewrite C1, C2. apply Hstay; [by rewrite <-Hf, C4|done].
    + intros _ Hnf. rewrite C4. exact (gn_quiet _ _ _ _ _ _ _ _ _ _ GN Hnf).
    + intros x j. rewrite C1, C6. by eapply generated_jumps.
  - exists None, s0, v. split; [done|]. split; try done; [|by right]. intros Ha _. specialize (Ha (next_page pc)). simpl in Hf. rewrite Hf in Ha. by destruct Ha.
Qed.
Lemma tb_find_fast_ok s v : good s v → let '(pc, cs_base, fl) := cpu_get_tb_cpu_state (cpu_regs (tb_cpu s)) in
  ∃ o s' v', tb_find_fast s = Ok o s' ∧ looked_up s s' v v' pc cs_base (wrap 64 (int32 fl)) o.
Proof.
  intros HG. unfold tb_find_fast. rewrite bind_gets. pose proof (fetch_pc (cpu_regs (tb_cpu s))) as Hpc.
  destruct (cpu_get_tb_cpu_state _) as [[pc cs_base] fl] eqn:Est. simpl in Hpc. rewrite bind_gets.
  destruct (tb_jmp_cache (tb_cpu s) !! _) as [tb|] eqn:Ec; [|by apply tb_find_slow_ok].
  destruct (li_cache _ _ (ci_listed _ _ (gd_inv _ _ HG)) _ tb Ec) as (Hl & t' & Ht' & _). pose proof Ht' as Ht. unfold data in Ht.
  apply fmap_Some in Ht as (t & Ht & ->). rewrite (bind_Ok _ _ _ _ _ (tb_at_ok _ _ _ Ht)). case_decide as Hd; [by apply tb_find_slow_ok|].
  assert (Hfor : block_for pc cs_base (wrap 64 (int32 fl)) t) by (split_and!; apply dec_stable; tauto).
  assert (HR : right_block s v pc cs_base (wrap 64 (int32 fl)) tb).
  { split; [done|]. exists (tb_data t). split; [done|]. split; [done|]. by apply (gd_coherent _ _ HG _ _ _ Ec). }
  exists (Some tb), s, v. split; [done|]. split; try done; [naive_solver|intros ? _ []; by exists tb|by right].
Qed.
End Find.

(** ** Hashes of virtual addresses and pages *)

Lemma jmp_hash_page_bits a k : 0 ≤ k → Z.testbit (tb_jmp_cache_hash_page a) k =
  bool_decide (6 ≤ k < 12) && xorb (Z.testbit a (k + 6)) (Z.testbit a (k + 12)).
Proof.
  intros Hk. unfold tb_jmp_cache_hash_page. change TB_JMP_PAGE_MASK with (Z.shiftl (Z.ones 6) 6). change (TARGET_PAGE_BITS - TB_JMP_PAGE_BITS) with 6.
  rewrite Z.land_spec, Z.shiftr_spec, Z.lxor_spec, Z.shiftr_spec, Z.shiftl_spec by lia. replace (k + 6 + 6) with (k + 12) by lia.
  destruct (decide (6 ≤ k < 12)) as [H6|H6].
  - rewrite bool_decide_true by done. rewrite Z.ones_spec_low by lia. by rewrite andb_true_r.
  - rewrite bool_decide_false by done. destruct (decide (k < 6)); [rewrite (Z.testbit_neg_r _ (k - 6)) by lia|rewrite (Z.ones_spec_high 6 (k - 6)) by lia]; by rewrite andb_false_r.
Qed.

Lemma jmp_hash_same_page a b : Z.land a TARGET_PAGE_MASK = Z.land b TARGET_PAGE_MASK → tb_jmp_cache_hash_page a = tb_jmp_cache_hash_page b.
Proof.
  intros E. assert (Hb : ∀ k, 12 ≤ k → Z.testbit a k = Z.testbit b k).
  { intros k Hk. assert (Hx : ∀ x, Z.testbit (Z.land x TARGET_PAGE_MASK) k = Z.testbit x k).
    { intros x. rewrite Z.land_spec. unfold TARGET_PAGE_MASK. change (Z.lnot (TARGET_PAGE_SIZE - 1)) with (Z.lnot (Z.ones 12)).
      rewrite Z.lnot_spec, Z.ones_spec_high by lia. by rewrite andb_true_r. }
    by rewrite <-(Hx a), <-(Hx b), E. }
  apply Z.bits_inj'. intros k Hk. rewrite !jmp_hash_page_bits by done. case_bool_decide; [|done]. by rewrite !Hb by lia.
Qed.

(** The entries of the addresses of a page. *)
Lemma jmp_hash_in_page a : tb_jmp_cache_hash_page a ≤ tb_jmp_cache_hash_func a < tb_jmp_cache_hash_page a + TB_JMP_PAGE_SIZE.
Proof.
  set (low := Z.land (Z.lxor a (Z.shiftr a (TARGET_PAGE_BITS - TB_JMP_PAGE_BITS))) TB_JMP_ADDR_MASK).
  change (tb_jmp_cache_hash_func a) with (Z.lor (tb_jmp_cache_hash_page a) low).
  assert (El : low = Z.lxor a (Z.shiftr a 6) mod 2 ^ 6) by (unfold low; change TB_JMP_ADDR_MASK with (Z.ones 6); by rewrite Z.land_ones by lia).
  assert (Hl : 0 ≤ low < 64) by (rewrite El; apply Z.mod_pos_bound; lia).
  assert (Hz : Z.land (tb_jmp_cache_hash_page a) low = 0).
  { apply Z.bits_inj'. intros k Hk. rewrite Z.bits_0, Z.land_spec, jmp_hash_page_bits by done. case_bool_decide; [|done]. simpl.
    rewrite El, Z.mod_pow2_bits_high by lia. apply andb_false_r. }
  rewrite <-Z.lxor_lor, <-Z.add_nocarry_lxor by done. change TB_JMP_PAGE_SIZE with 64. lia.
Qed.

Section Coherence.
Context `{PhysSpace} `{TargetLong} {Regs : Type} `{!Translator Regs} `{!SpaceOk L1_MAP_ADDR_SPACE_BITS} `{!TargetLongOk}.
Implicit Types (s : tb_state Regs) (t : TranslationBlock) (v : view).

(** The page before the next page. *)
Lemma page_before pc addr : in_width target_long_bits pc → in_width target_long_bits addr →
  Z.land (next_page pc) TARGET_PAGE_MASK = Z.land addr TARGET_PAGE_MASK →
  Z.land (wrap target_long_bits (addr - TARGET_PAGE_SIZE)) TARGET_PAGE_MASK = Z.land pc TARGET_PAGE_MASK.
Proof.
  intros Hpc Ha. pose proof target_long_ok as Ht.
  assert (Hw : ∀ x, in_width target_long_bits x → x = 4096 * (x / 4096) + x mod 4096 ∧ 0 ≤ x mod 4096 < 4096 ∧ 0 ≤ x / 4096 < 2 ^ (target_long_bits - 12)).
  { intros x Hx. unfold in_width in Hx. replace (2 ^ target_long_bits) with (4096 * 2 ^ (target_long_bits - 12)) in Hx
      by (change 4096 with (2 ^ 12); rewrite <-Z.pow_add_r by lia; f_equal; lia).
    pose proof (Z.div_mod x 4096 ltac:(lia)). pose proof (Z.mod_pos_bound x 4096 ltac:(lia)). split_and!; lia. }
  destruct (Hw pc Hpc) as (Ep & Op & Qp), (Hw addr Ha) as (Eq & Oq & Qq). set (m := 2 ^ (target_long_bits - 12)) in *.
  unfold next_page. change TARGET_PAGE_SIZE with 4096. rewrite Ep, Eq, !page_of by lia. fold m.
  replace (4096 * (pc / 4096) + 4096) with (4096 * (pc / 4096 + 1) + 0) by lia. rewrite wrap_page, page_of by lia. fold m.
  replace (4096 * (addr / 4096) + addr mod 4096 - 4096) with (4096 * (addr / 4096 - 1) + addr mod 4096) by lia. rewrite wrap_page, page_of by lia. fold m.
  intros E. f_equal. assert (Eqq : addr / 4096 = (pc / 4096 + 1) mod m) by lia. rewrite Eqq, Zminus_mod, Zmod_mod, <-Zminus_mod.
  replace (pc / 4096 + 1 - 1) with (pc / 4096) by lia. by apply Z.mod_small.
Qed.

(** The mapping of one page has changed. *)
Definition remapped (r r' : Regs) (addr : Z) : Prop :=
  ∀ a, Z.land a TARGET_PAGE_MASK ≠ Z.land addr TARGET_PAGE_MASK → get_page_addr_code r' a = get_page_addr_code r a.

Lemma flush_jmp_lookup addr s h i : ∃ s', tlb_flush_jmp_cache addr s = Ok () s' ∧ same_cache (set_tb_cpu (tb_cpu s') s) s' ∧
  cpu_regs (tb_cpu s') = cpu_regs (tb_cpu s) ∧
  (tb_jmp_cache (tb_cpu s') !! h = Some i ↔ tb_jmp_cache (tb_cpu s) !! h = Some i ∧
    ¬ (tb_jmp_cache_hash_page addr ≤ h < tb_jmp_cache_hash_page addr + TB_JMP_PAGE_SIZE) ∧
    ¬ (let a := tb_jmp_cache_hash_page (wrap target_long_bits (addr - TARGET_PAGE_SIZE)) in a ≤ h < a + TB_JMP_PAGE_SIZE)).
Proof.
  eexists. unfold tlb_flush_jmp_cache, upd_cpu. rewrite bind_modify. split; [reflexivity|]. split; [by split|]. split; [done|].
  unfold tb_jmp_cache_clear. simpl. rewrite !map_lookup_filter_Some. simpl. tauto.
Qed.

Lemma flush_coherent s v (r' : Regs) addr : cache_inv s v → coherent s → in_width target_long_bits addr →
  shaped s v → remapped (cpu_regs (tb_cpu s)) r' addr →
  ∃ s', tlb_flush_jmp_cache addr (set_tb_cpu (set_cpu_regs r' (tb_cpu s)) s) = Ok () s' ∧ coherent s' ∧ cache_inv s' v.
Proof.
  intros HI HC Ha Hpcs Hr. set (s0 := set_tb_cpu _ s). destruct (flush_jmp_lookup addr s0 0 0%nat) as (s' & E & Es & Er & _).
  assert (Hl : ∀ h i, tb_jmp_cache (tb_cpu s') !! h = Some i ↔ tb_jmp_cache (tb_cpu s) !! h = Some i ∧
    ¬ (tb_jmp_cache_hash_page addr ≤ h < tb_jmp_cache_hash_page addr + TB_JMP_PAGE_SIZE) ∧
    ¬ (let a := tb_jmp_cache_hash_page (wrap target_long_bits (addr - TARGET_PAGE_SIZE)) in a ≤ h < a + TB_JMP_PAGE_SIZE)).
  { intros h i. destruct (flush_jmp_lookup addr s0 h i) as (s'' & E'' & _ & _ & Hx). rewrite E in E''. injection E'' as <-. exact Hx. }
  exists s'. split; [done|]. split.
  - intros h i t Hh Hd. rewrite (same_data _ _ Es) in Hd. change (data s i = Some t) in Hd. apply Hl in Hh as (Hh & N1 & N2).
    destruct (li_cache _ _ (ci_listed _ _ HI) h i Hh) as (Hi & u & Hu & Eh). assert (u = t) as -> by congruence.
    pose proof (HC h i t Hh Hd) as [(ph & M1 & M1') M2]. pose proof (bs_pc _ (Hpcs i t Hi Hd)) as Hpc. rewrite Er. change (cpu_regs (tb_cpu s0)) with r'.
    assert (Np : Z.land (tb_pc t) TARGET_PAGE_MASK ≠ Z.land addr TARGET_PAGE_MASK).
    { intros Ep. apply N1. rewrite <-(jmp_hash_same_page _ _ Ep), <-Eh. apply jmp_hash_in_page. }
    split; [exists ph; by rewrite Hr|]. destruct M2 as [M2|M2]; [by left|right]. rewrite Hr; [done|]. intros En. apply N2.
    pose proof (page_before (tb_pc t) addr Hpc Ha En) as Ep. simpl. rewrite (jmp_hash_same_page _ _ Ep), <-Eh. apply jmp_hash_in_page.
  - rewrite <-Es. destruct HI as [A [B1 B2 B3 B4 B5 B6 B7 B8 B9] [C1 C2 C3 C4 C5 C6] D E' F [G1 G2 G3 G4] R J].
    split; [done|by split|split; try done|done|done|done|by split|done|done]. intros h i Hh. apply Hl in Hh as (Hh & _). by apply C6.
Qed.
End Coherence.
