(* ===== verification/TBHost.v ===== *)
(** * The block of a host address, and freeing the last block

    Blocks are laid out in the buffer in the order of the array, so that a binary
    search finds the block a host address lies in. *)

From S2P Require Import Prelude CFile CString HostMem RamList Radix PhysPages RRTypes PandaCallbacks.
From S2P Require Import RRState RRReplay TBCache TBLists TBInv TBRemove TBInsert TBGen.
From stdpp Require Import functions list.
Local Open Scope Z_scope.

Section Host.
Context `{PhysSpace} `{TargetLong} {Regs : Type} `{!Translator Regs} `{!SpaceOk L1_MAP_ADDR_SPACE_BITS}.
Implicit Types (s : tb_state Regs) (i j n tb : nat) (v : view) (t : TranslationBlock).

(** The start of a block's code; only used for blocks of the array. *)
Definition tc_at s (i : Z) : Z := default 0 (tb_tc_ptr <$> data s (Z.to_nat i)).

Section Search.
Context s (live : gset nat) (HL : layout s live).

Lemma tc_block (i : Z) : 0 ≤ i < nb_tbs s → ∃ t, tbs s !! Z.to_nat i = Some t ∧ tb_tc_ptr t = tc_at s i.
Proof.
  intros Hi. pose proof (lay_len _ _ HL). pose proof (lay_nb _ _ HL). destruct (lookup_lt_is_Some_2 (tbs s) (Z.to_nat i)) as [t Ht]; [lia|].
  exists t. split; [done|]. unfold tc_at, data. by rewrite Ht.
Qed.

Lemma tc_sorted (i j : Z) : 0 ≤ i → i ≤ j → j < nb_tbs s → tc_at s i ≤ tc_at s j.
Proof.
  intros H0' Hij Hj. destruct (tc_block i ltac:(lia)) as (t & Ht & <-), (tc_block j ltac:(lia)) as (u & Hu & <-).
  apply (lay_sorted _ _ HL (Z.to_nat i) (Z.to_nat j) (tb_data t) (tb_data u)); [lia..|unfold data; by rewrite Ht|unfold data; by rewrite Hu].
Qed.

(** What the search returns: a block that starts at the address, or the last one
    that starts before it. *)
Definition holds s (tc_ptr i : Z) : Prop := 0 ≤ i < nb_tbs s ∧
  (tc_at s i = tc_ptr ∨ tc_at s i < tc_ptr ∧ ∀ j : Z, i < j < nb_tbs s → tc_ptr < tc_at s j).

Lemma find_pc_loop_ok fuel tc_ptr m_min m_max : 0 ≤ m_min → m_max < nb_tbs s → m_min ≤ m_max + 1 → m_max - m_min + 1 < Z.of_nat fuel →
  (∀ j : Z, 0 ≤ j < m_min → tc_at s j < tc_ptr) → (∀ j : Z, m_max < j < nb_tbs s → tc_ptr < tc_at s j) → tc_at s 0 ≤ tc_ptr → 0 < nb_tbs s →
  ∃ i : Z, find_pc_loop fuel tc_ptr m_min m_max s = Ok (Z.to_nat i) s ∧ holds s tc_ptr i.
Proof.
  revert m_min m_max. induction fuel as [|fuel IH]; intros m_min m_max H0' H1' H2' Hf Hlo Hhi Hz Hn; [lia|]. cbn [find_pc_loop].
  destruct (m_min <=? m_max) eqn:E; [apply Z.leb_le in E|apply Z.leb_gt in E].
  2: { exists m_max. split; [done|]. assert (m_max + 1 = m_min) by lia. split; [|right; split; [|done]].
       - split; [|lia]. destruct (decide (m_max = -1)) as [->|]; [|lia]. specialize (Hhi 0 ltac:(lia)). lia.
       - apply Hlo. destruct (decide (m_max = -1)) as [->|]; [|lia]. specialize (Hhi 0 ltac:(lia)). lia. }
  set (m := Z.shiftr (m_min + m_max) 1). assert (Hm : m_min ≤ m ≤ m_max).
  { unfold m. rewrite Z.shiftr_div_pow2 by lia. change (2 ^ 1) with 2. pose proof (Z.div_mod (m_min + m_max) 2 ltac:(lia)).
    pose proof (Z.mod_pos_bound (m_min + m_max) 2 ltac:(lia)). lia. }
  destruct (tc_block m ltac:(lia)) as (t & Ht & Etc). rewrite (bind_Ok _ _ _ _ _ (tb_at_ok _ _ _ Ht)). rewrite Etc.
  destruct (tc_at s m =? tc_ptr) eqn:E1; [apply Z.eqb_eq in E1|apply Z.eqb_neq in E1].
  { exists m. split; [done|]. split; [lia|]. by left. }
  destruct (tc_ptr <? tc_at s m) eqn:E2; [apply Z.ltb_lt in E2|apply Z.ltb_ge in E2].
  - apply IH; try done; try lia. intros j Hj. pose proof (tc_sorted m j ltac:(lia)). lia.
  - apply IH; try done; try lia. intros j Hj. pose proof (tc_sorted j m ltac:(lia)). lia.
Qed.
End Search.

Lemma tb_find_pc_ok s v tc_ptr : cache_inv s v → code_gen_buffer s ≤ tc_ptr < code_gen_ptr s →
  ∃ i : Z, tb_find_pc tc_ptr s = Ok (Some (Z.to_nat i)) s ∧ holds s tc_ptr i.
Proof.
  intros HI Hp. pose proof (ci_layout _ _ HI) as HL.
  assert (Hn : 0 < nb_tbs s) by (pose proof (lay_nb _ _ HL); destruct (decide (nb_tbs s = 0)) as [E|]; [pose proof (lay_empty _ _ HL E)|]; lia).
  unfold tb_find_pc. rewrite bind_gets. replace (nb_tbs s <=? 0) with false by (symmetry; apply Z.leb_gt; lia). rewrite !bind_gets.
  replace ((tc_ptr <? code_gen_buffer s) || (code_gen_ptr s <=? tc_ptr)) with false
    by (symmetry; apply orb_false_iff; rewrite Z.ltb_ge, Z.leb_gt; lia).
  assert (H0' : tc_at s 0 ≤ tc_ptr).
  { destruct (tc_block s _ HL 0 ltac:(lia)) as (t & Ht & <-). destruct (lay_start _ _ HL 0%nat (tb_data t)) as [_ E]; [lia|unfold data; by rewrite (Ht : tbs s !! 0%nat = Some t)|].
    simpl in E. rewrite E by done. lia. }
  destruct (find_pc_loop_ok s _ HL (Z.to_nat (nb_tbs s + 1)) tc_ptr 0 (nb_tbs s - 1)) as (i & E & Hi); [lia..|done|done|].
  exists i. by rewrite (bind_Ok _ _ _ _ _ E).
Qed.

(** The array's block [k] has the address inside its code. *)
Lemma holds_inside s v (k tc_ptr i : Z) : cache_inv s v → 0 ≤ k < nb_tbs s → tc_at s k < tc_ptr → (∀ j : Z, k < j < nb_tbs s → tc_ptr < tc_at s j) →
  holds s tc_ptr i → i = k.
Proof.
  intros HI Hk Hlo Hhi [Hi [E|[E Hj]]].
  - destruct (decide (i < k)); [pose proof (tc_sorted s _ (ci_layout _ _ HI) i k); specialize (Hhi i); lia|].
    destruct (decide (k < i)); [specialize (Hhi i ltac:(lia)); lia|lia].
  - destruct (decide (i < k)); [specialize (Hj k ltac:(lia)); lia|]. destruct (decide (k < i)); [specialize (Hhi i ltac:(lia)); lia|lia].
Qed.
(** ** [tb_free] *)

(** The code of the last block is given back; any other block stays. *)
Lemma tb_free_ok s v tb : cache_inv s v → buffer_ok s → tb ∉ v_live v →
  ∃ s', tb_free tb s = Ok () s' ∧ cache_inv s' v ∧ buffer_ok s' ∧
    if decide (Z.of_nat tb = nb_tbs s - 1)
    then nb_tbs s' = nb_tbs s - 1 ∧ (∃ t, tbs s !! tb = Some t ∧ code_gen_ptr s' = tb_tc_ptr t)
    else s' = s.
Proof.
  intros HI HB Hl. pose proof HI as [A [B1 B2 B3 B4 B5 B6 B7 B8 B9] [C1 C2 C3 C4 C5 C6] D E F [G1 G2 G3 G4] R J].
  unfold tb_free. rewrite bind_gets. case_decide as Hd.
  2: { exists s. replace ((0 <? nb_tbs s) && (Z.of_nat tb =? nb_tbs s - 1)) with false; [done|]. symmetry. apply andb_false_iff. right. by apply Z.eqb_neq. }
  replace ((0 <? nb_tbs s) && (Z.of_nat tb =? nb_tbs s - 1)) with true by (symmetry; apply andb_true_iff; rewrite Z.ltb_lt, Z.eqb_eq; lia).
  destruct (lookup_lt_is_Some_2 (tbs s) tb ltac:(lia)) as [t Ht]. assert (Hdt : data s tb = Some (tb_data t)) by (unfold data; by rewrite Ht).
  rewrite (bind_Ok _ _ _ _ _ (tb_at_ok _ _ _ Ht)), bind_modify. eexists. split; [reflexivity|]. set (s' := set_nb_tbs _ _).
  assert (Hlt : ∀ i, i ∈ v_live v → Z.of_nat i < nb_tbs s - 1).
  { intros i Hi. specialize (B3 i Hi). assert (i ≠ tb) by (by intros ->). lia. }
  pose proof (B4 tb (tb_data t) ltac:(lia) Hdt) as Hb. pose proof (B9 tb (tb_data t) ltac:(lia) Hdt) as [Hal H0']. simpl in Hb, Hal, H0'.
  split; [|split; [|by split; [|exists t]]].
  - split; [done|split|by split|done|done|done|by split|done|done]; simpl.
    + done.
    + lia.
    + done.
    + intros i u Hi Hu. change (data s i = Some u) in Hu. pose proof (B4 i u ltac:(lia) Hu). pose proof (B5 i tb u (tb_data t) ltac:(lia) ltac:(lia) Hu Hdt). simpl in *. lia.
    + intros i j u w Hij Hj Hu Hw. change (data s i = Some u) in Hu. change (data s j = Some w) in Hw. eapply (B5 i j); [done|lia|done|done].
    + intros i u n Hi Hu Hn. change (data s i = Some u) in Hu. destruct (B6 i u n Hi Hu Hn) as (? & ? & Hnx). specialize (Hlt i Hi). split_and!; [done| |].
      * apply (Hnx tb (tb_data t)); [lia|lia|done].
      * intros j w Hij Hj Hw. eapply Hnx; [done|lia|exact Hw].
    + intros i u Hi Hu. by apply (B7 i).
    + intros Hz. apply H0'. lia.
    + intros i u Hi Hu. apply B9; [lia|done].
  - destruct HB as [X1 X2 [X3 [X4 X5]] X6 X7]. split; simpl; try done. lia.
Qed.
End Host.
