(* ===== verification/TBChain.v ===== *)
(** * Chaining and unchaining

    [tb_add_jump] makes a jump of one block lead straight to another;
    [tb_reset_jump_recursive] undoes this for a block and for all blocks the
    execution could reach from it, which is how an interrupt stops the CPU. *)

From S2P Require Import Prelude CFile CString HostMem RamList Radix PhysPages RRTypes PandaCallbacks.
From S2P Require Import RRState RRReplay TBCache TBLists TBInv TBRemove TBInsert TBGen.
From stdpp Require Import functions list.
Local Open Scope Z_scope.

Section Chain.
Context `{PhysSpace} `{TargetLong} {Regs : Type} `{!Translator Regs} `{!SpaceOk L1_MAP_ADDR_SPACE_BITS}.
Implicit Types (s : tb_state Regs) (p q : slot) (i j n tb : nat) (v : view) (t : TranslationBlock) (x y : nat * nat).

Definition with_jumps (js : nat → list (nat * nat)) v : view := mkView (v_live v) (v_hash v) (v_page v) js.

(** The cache when only jumps change. *)
Lemma rejump_inv s s' v js : cache_inv s v → keeps s s' → aux s' = aux s → (∀ q, ¬ jump_slot q → rd s' q = rd s q) →
  jump_family s' (v_live v) js → chained s' (with_jumps js v) → cache_inv s' (with_jumps js v).
Proof.
  intros [Hok HLa HLi HH HP HJ HC HR HG] K U R F C. assert (Ec : tb_cpu s' = tb_cpu s) by (by injection U).
  split; simpl; try done.
  - by apply K.
  - by eapply layout_keeps.
  - assert (HLi' : listed s' v) by (eapply listed_keeps; [done|by rewrite Ec|done]). by destruct HLi'.
  - eapply hash_frame; [|exact HH]. intros q Hq. apply R. destruct q; simpl in *; tauto.
  - eapply page_frame; [..|exact HP]; [intros q Hq _; apply R; destruct q; simpl in *; tauto|apply K].
  - by rewrite (keeps_ram _ _ K).
  - by eapply (guarded_keeps s s' v).
Qed.

(** The jump [x] leads to [j]. *)
Definition jumps_to v x j : Prop := j ∈ v_live v ∧ x ∈ v_jumps v j.
Definition no_jump v x : Prop := ∀ j, j ∈ v_live v → x ∉ v_jumps v j.

Lemma jumps_to_unique s v x i j : cache_inv s v → jumps_to v x i → jumps_to v x j → i = j.
Proof. intros HI [Hi Hx] [Hj Hy]. by apply (fam_apart _ _ _ _ _ _ _ (ci_jumps _ _ HI) i j x). Qed.

Lemma live_block s v i : cache_inv s v → i ∈ v_live v → ∃ t, tbs s !! i = Some t ∧ data s i = Some (tb_data t).
Proof.
  intros HI Hi. pose proof (ci_layout _ _ HI) as HL. pose proof (lay_live _ _ HL i Hi). pose proof (lay_nb _ _ HL). pose proof (lay_len _ _ HL).
  destruct (lookup_lt_is_Some_2 (tbs s) i ltac:(lia)) as [t Ht]. exists t. split; [done|]. unfold data. by rewrite Ht.
Qed.

(** What a patch of a jump leaves alone. *)
Lemma put_jump_other s v i t n a : cache_inv s v → i ∈ v_live v → data s i = Some (tb_data t) → has_jump t n →
  ∀ j u m, j ∈ v_live v → data s j = Some u → has_jump u m → (j, m) ≠ (i, n) →
  tc_code (put_jump t n a s) !! jump_site u m = tc_code s !! jump_site u m.
Proof.
  intros HI Hi Ht Hn j u m Hj Hu Hm Hne. unfold put_jump. simpl. rewrite lookup_insert_ne; [done|]. intros E. apply Hne.
  symmetry. by eapply (sites_inj s _ i j (tb_data t) u n m (ci_layout _ _ HI)).
Qed.

(** ** Chaining *)

Definition add_jump x j v : view := with_jumps (<[j := x :: v_jumps v j]> (v_jumps v)) v.

Lemma tb_add_jump_ok s v tb n next t : cache_inv s v → tb ∈ v_live v → next ∈ v_live v → data s tb = Some t → has_jump t n → (n < 2)%nat →
  ∃ s', tb_add_jump tb n next s = Ok () s' ∧ keeps s s' ∧ aux s' = aux s ∧
    ((∃ j, jumps_to v (tb, n) j) ∧ s' = s ∨ no_jump v (tb, n) ∧ cache_inv s' (add_jump (tb, n) next v)).
Proof.
  intros HI Hl Hnx Hd Hj Hn. pose proof HI as [Hok HLa HLi HH HP HJ HC HR HG].
  destruct (in_some_list (v_live v) (v_jumps v) (tb, n)) as [(j & Hj1 & Hx)|Hno].
  { destruct (jump_slot_some _ _ _ _ _ HJ Hj1 Hx) as [w Hw]. exists s. unfold tb_add_jump.
    rewrite (bind_Ok _ _ _ _ _ (ld_ok s (SJmpNext tb n) _ Hw)). split_and!; try done. left. split; [by exists j|done]. }
  pose proof (ch_none _ _ HC tb n Hl Hn Hno) as Hnone. destruct (live_block s v tb HI Hl) as (t0 & Ht0 & Hd0).
  assert (t = tb_data t0) as -> by congruence. destruct (live_block s v next HI Hnx) as (u & Hu & Hdu).
  unfold tb_add_jump. rewrite (bind_Ok _ _ _ _ _ (ld_ok _ _ _ Hnone)), (bind_Ok _ _ _ _ _ (tb_at_ok _ _ _ Hu)).
  rewrite (bind_Ok _ _ _ _ _ (set_target_ok _ _ _ n (tb_tc_ptr u) Ht0 Hn)). set (s1 := put_jump t0 n (tb_tc_ptr u) s).
  pose proof (put_jump_keeps s t0 n (tb_tc_ptr u)) as K1. fold s1 in K1.
  pose proof (chain_first _ _ _ _ _ (fam_chain _ _ _ _ _ _ _ HJ next Hnx)) as Hf. set (f := first_ptr _ _) in Hf.
  change (rd s (SJmpFirst next)) with (rd s1 (SJmpFirst next)) in Hf. rewrite (bind_Ok _ _ _ _ _ (ld_ok _ _ _ Hf)).
  assert (Hs1 : is_Some (rd s1 (SJmpNext tb n))) by (change (rd s1 (SJmpNext tb n)) with (rd s (SJmpNext tb n)); by rewrite Hnone).
  rewrite (bind_Ok _ _ _ _ _ (st_ok _ _ f Hs1)). pose proof (wr_keeps s1 (SJmpNext tb n) f Hok) as K2. set (s2 := wr (SJmpNext tb n) f s1) in *.
  assert (Hs2 : is_Some (rd s2 (SJmpFirst next))) by (unfold s2; rewrite rd_wr_ne by done; by rewrite Hf).
  pose proof (wr_keeps s2 (SJmpFirst next) (Some (tb, n)) ltac:(by apply K2)) as K3. set (s3 := wr (SJmpFirst next) (Some (tb, n)) s2) in *.
  assert (R : ∀ q, slot_ok q → rd s3 q = if decide (q = SJmpFirst next) then Some (Some (tb, n)) else if decide (q = SJmpNext tb n) then Some f else rd s q).
  { intros q Hq. unfold s3. rewrite rd_wr_sym; [|by apply K2|done..]. case_decide; [done|]. unfold s2. by rewrite rd_wr_sym by done. }
  assert (K : keeps s s3) by (etrans; [exact K1|]; by etrans). exists s3. split; [by apply st_ok|]. split; [done|]. split; [done|]. right. split; [done|].
  assert (Ro : ∀ q, ¬ jump_slot q → rd s3 q = rd s q).
  { intros q Hq. destruct q as [| |index| | |]; try (simpl in Hq; tauto); try (by rewrite R by done). }
  apply rejump_inv with s; try done.
  - unshelve eapply (fam_push SJmpFirst nx_jmp elt2 jump_root_inj jump_nx_inj _ (rd s) (rd s3) _ (v_jumps v) _ next (tb, n)); try done.
    + change (nx_jmp (tb, n)) with (SJmpNext tb n). rewrite R by done. rewrite decide_False, decide_True by done. by rewrite <-Hf.
    + rewrite R by done. by rewrite decide_True.
    + intros q Hq N1 N2. rewrite R by (by destruct Hq as [(k & _ & ->)|(x & _ & ->)]). by rewrite !decide_False.
  - assert (Hin : ∀ j x, x ∈ <[next := (tb, n) :: v_jumps v next]> (v_jumps v) j ↔ (x = (tb, n) ∧ j = next) ∨ x ∈ v_jumps v j).
    { intros j x. destruct (decide (next = j)) as [<-|Ne]; [rewrite fn_lookup_insert; set_solver|rewrite fn_lookup_insert_ne by done; naive_solver]. }
    assert (Hother : ∀ i u m, i ∈ v_live v → data s i = Some u → has_jump u m → (i, m) ≠ (tb, n) → tc_code s3 !! jump_site u m = tc_code s !! jump_site u m).
    { intros. by eapply (put_jump_other s v tb t0 n). }
    unfold add_jump. split; cbn [v_live v_jumps with_jumps].
    + intros j x Hjl [[-> ->]|Hx]%Hin; rewrite (k_data _ _ K); [simpl; eauto|by apply (ch_from _ _ HC j)].
    + intros i m Hi Hm Hno'. rewrite R by done. rewrite decide_False by done.
      destruct (decide ((i, m) = (tb, n))) as [[= -> ->]|Ne]; [exfalso; apply (Hno' next Hnx), Hin; by left|].
      rewrite decide_False by congruence. apply (ch_none _ _ HC); [done..|]. intros k Hk Hx. apply (Hno' k Hk), Hin. by right.
    + intros i w m Hi Hw Hm Hno'. rewrite (k_data _ _ K) in Hw.
      assert (Ne : (i, m) ≠ (tb, n)) by (intros [= -> ->]; apply (Hno' next Hnx), Hin; by left).
      rewrite (Hother i w m) by done. apply (ch_exit _ _ HC i); [done..|]. intros k Hk Hx. apply (Hno' k Hk), Hin. by right.
    + intros i j w z m Hjl Hx Hw Hz. rewrite (k_data _ _ K) in Hw, Hz. apply Hin in Hx as [[[= -> ->] ->]|Hx].
      * assert (w = tb_data t0) as -> by congruence. assert (z = tb_data u) as -> by congruence.
        change (tc_code s3) with (tc_code s1). unfold s1, put_jump. simpl. apply lookup_insert_eq.
      * destruct (ch_from _ _ HC j (i, m) Hjl Hx) as (Hi & w' & Hw' & Hm). simpl in *. assert (w' = w) as -> by congruence.
        rewrite (Hother i w m); [by apply (ch_jump _ _ HC i j)|done..|]. intros [= -> ->]. by apply (Hno j).
Qed.
(** ** Unchaining one jump *)

Definition cut_view x v : view := with_jumps (λ j, filter (λ y, y ≠ x) (v_jumps v j)) v.

Lemma elem_of_cut x v j y : y ∈ v_jumps (cut_view x v) j ↔ y ∈ v_jumps v j ∧ y ≠ x.
Proof. simpl. rewrite list_elem_of_filter. naive_solver. Qed.

Lemma page_jump_bound s v j : cache_inv s v → j ∈ v_live v → (length (v_jumps v j) ≤ 2 * length (tbs s))%nat.
Proof.
  intros HI Hj. apply elt2_length; [by apply (fam_nodup _ _ _ _ _ _ _ (ci_jumps _ _ HI))|]. intros x Hx. split.
  - by apply (fam_elt _ _ _ _ _ _ _ (ci_jumps _ _ HI) j).
  - by eapply jumps_bound; [apply HI|..].
Qed.

(** The code of a cut jump leads to the block's own exit again. *)
Lemma cut_chained s s1 v tb n t j : cache_inv s v → tb ∈ v_live v → data s tb = Some (tb_data t) → jumps_to v (tb, n) j → keeps s s1 →
  tc_code s1 = tc_code s → rd s1 (SJmpNext tb n) = Some None →
  (∀ i m, (m < 2)%nat → no_jump v (i, m) → rd s1 (SJmpNext i m) = rd s (SJmpNext i m)) →
  chained (put_jump t n (exit_of t n) s1) (cut_view (tb, n) v).
Proof.
  intros HI Hl Hd [Hj Hx] K C Hr Hfree. pose proof (ci_chained _ _ HI) as HC.
  destruct (ch_from _ _ HC j _ Hj Hx) as (_ & t' & Ht' & Hjmp). simpl in *. assert (t' = tb_data t) as -> by congruence.
  assert (Hother : ∀ i u m, i ∈ v_live v → data s i = Some u → has_jump u m → (i, m) ≠ (tb, n) →
    tc_code (put_jump t n (exit_of t n) s1) !! jump_site u m = tc_code s !! jump_site u m).
  { intros i u m Hi Hu Hm Hne. rewrite <-(put_jump_other s v tb t n (exit_of t n) HI Hl Hd Hjmp i u m Hi Hu Hm Hne). unfold put_jump. simpl. by rewrite C. }
  assert (Kp : ∀ i, data (put_jump t n (exit_of t n) s1) i = data s i) by (intros i; apply (k_data _ _ K)).
  split; cbn [v_live with_jumps cut_view].
  - intros k x Hk Hxk. apply elem_of_cut in Hxk as [Hxk _]. rewrite Kp. by apply (ch_from _ _ HC k).
  - intros i m Hi Hm Hno. change (rd s1 (SJmpNext i m) = Some None). destruct (decide ((i, m) = (tb, n))) as [[= -> ->]|Ne]; [done|].
    assert (Hno' : no_jump v (i, m)) by (intros k Hk Hx'; apply (Hno k Hk), elem_of_cut; done). rewrite Hfree by done. by apply (ch_none _ _ HC).
  - intros i u m Hi Hu Hm Hno. rewrite Kp in Hu. destruct (decide ((i, m) = (tb, n))) as [[= -> ->]|Ne].
    + assert (u = tb_data t) as -> by congruence. unfold put_jump. simpl. apply lookup_insert_eq.
    + rewrite (Hother i u m) by done. apply (ch_exit _ _ HC i); [done..|]. intros k Hk Hx'. apply (Hno k Hk), elem_of_cut. done.
  - intros i k u w m Hk Hxk Hu Hw. rewrite Kp in Hu, Hw. apply elem_of_cut in Hxk as [Hxk Hne].
    destruct (ch_from _ _ HC k (i, m) Hk Hxk) as (Hi & u' & Hu' & Hm). simpl in *. assert (u' = u) as -> by congruence.
    rewrite (Hother i u m) by done. by apply (ch_jump _ _ HC i k).
Qed.

Lemma unchain_one_ok s v tb n j : cache_inv s v → tb ∈ v_live v → (n < 2)%nat → jumps_to v (tb, n) j →
  ∃ s', (∀ rec, tb_reset_jump_recursive2 rec tb n s = rec j s') ∧ cache_inv s' (cut_view (tb, n) v) ∧ keeps s s' ∧ aux s' = aux s.
Proof.
  intros HI Hl Hn Hto. pose proof Hto as [Hj Hx]. pose proof HI as [Hok HLa HLi HH HP HJ HC HR HG].
  destruct (list_elem_of_split _ _ Hx) as (l1 & l2 & El). pose proof (fam_chain _ _ _ _ _ _ _ HJ j Hj) as Hc. rewrite El in Hc.
  apply chain_app in Hc as [Hc1 Hc2]. pose proof (chain_first _ _ _ _ _ Hc2) as Hw. change (nx_jmp (tb, n)) with (SJmpNext tb n) in Hw, Hc2.
  destruct (jump_slot_some _ _ _ _ _ HJ Hj Hx) as [w Hw']. change (nx_jmp (tb, n)) with (SJmpNext tb n) in Hw'.
  assert (Ew : first_ptr l2 (Some (j, 2%nat)) = Some w) by congruence.
  destruct (cut_jump_ok s (v_live v) (v_jumps v) j l1 tb n l2 (Some w) Hok HJ Hj El Hw') as (S1 & S2 & [K U L F] & Ec & Hfam & Hr).
  set (s1 := wr (SJmpNext tb n) None _) in *. destruct (live_block s v tb HI Hl) as (t & Ht & Hd).
  assert (Ht1 : ∃ t1, tbs s1 !! tb = Some t1 ∧ tb_data t1 = tb_data t).
  { pose proof (k_data _ _ K tb) as Ed. rewrite Hd in Ed. unfold data in Ed. apply fmap_Some in Ed as (t1 & ? & ?). by exists t1. }
  destruct Ht1 as (t1 & Ht1 & Et1). assert (Hd1 : data s tb = Some (tb_data t1)) by congruence.
  pose proof (cut_chained s s1 v tb n t1 j HI Hl Hd1 Hto K Ec Hr F) as HC'.
  assert (Hlen : (length l1 + S (length l2) ≤ 2 * length (tbs s))%nat).
  { pose proof (page_jump_bound s v j HI Hj) as Hb. rewrite El, length_app in Hb. done. }
  assert (Hn1 : (tb, n) ∉ l1).
  { pose proof (fam_nodup _ _ _ _ _ _ _ HJ j Hj) as Hnd. rewrite El in Hnd. apply NoDup_app in Hnd as (_ & Hdj & _). intros Hy. apply (Hdj _ Hy). left. }
  exists (put_jump t1 n (exit_of t1 n) s1). split_and!.
  - intros rec. unfold tb_reset_jump_recursive2. rewrite (bind_Ok _ _ _ _ _ (ld_ok _ _ _ Hw')). unfold list_fuel. rewrite bind_gets.
    rewrite (bind_Ok _ _ _ j s).
    2: { rewrite <-Ew. eapply (jmp_head_run s _ (SJmpNext tb n) l2 j Hc2); [|lia].
         apply Forall_forall. intros y Hy. apply (fam_elt _ _ _ _ _ _ _ HJ j); [done|]. rewrite El. set_solver. }
    rewrite (bind_Ok _ _ _ _ _ (jmp_find_from_run s (S (S (2 * length (tbs s)))) _ l1 tb n Hc1 Hn1 ltac:(lia))).
    rewrite (bind_Ok _ _ _ _ _ (ld_ok _ _ _ Hw')), (bind_Ok _ _ _ _ _ (st_ok _ _ (Some w) S1)), (bind_Ok _ _ _ _ _ (st_ok _ _ None S2)).
    fold s1. by rewrite (bind_Ok _ _ _ _ _ (reset_jump_ok _ _ _ _ Ht1 Hn)).
  - apply (rejump_inv s); [done|etrans; [exact K|apply put_jump_keeps]|done|done|done|done].
  - etrans; [exact K|apply put_jump_keeps].
  - done.
Qed.

(** ** Unchaining what can be reached *)

Definition jumps_from v tb : Prop := ∃ n j, jumps_to v (tb, n) j.

Record unchained s s' v v' : Prop := {
  uc_inv : cache_inv s' v';
  uc_keeps : keeps s s';
  uc_aux : aux s' = aux s;
  uc_lists : v_live v' = v_live v ∧ v_hash v' = v_hash v ∧ v_page v' = v_page v;
  uc_sub : ∀ x j, jumps_to v' x j → jumps_to v x j;
  (** where a jump was removed, nothing goes on from its target *)
  uc_closed : ∀ x j, jumps_to v x j → ¬ jumps_to v' x j → ¬ jumps_from v' j;
}.

Lemma unchained_refl s v : cache_inv s v → unchained s s v v.
Proof. by split. Qed.

Lemma unchained_trans s0 s1 s2 v0 v1 v2 : unchained s0 s1 v0 v1 → unchained s1 s2 v1 v2 → unchained s0 s2 v0 v2.
Proof.
  intros [A1 B1 C1 (D1 & D1' & D1'') E1 F1] [A2 B2 C2 (D2 & D2' & D2'') E2 F2]. split; try done; try by etrans.
  - split_and!; congruence.
  - auto.
  - intros x j Hx Hn. destruct (decide (j ∈ v_live v1 ∧ x ∈ v_jumps v1 j)) as [Hy|Hy]; [by apply (F2 x j)|].
    intros (n & k & Hk). apply (F1 x j Hx Hy). exists n, k. auto.
Qed.

(** All jumps. *)
Definition jset v : gset (nat * nat) := ⋃ ((λ j, list_to_set (v_jumps v j)) <$> elements (v_live v)).
Lemma elem_of_jset v x : x ∈ jset v ↔ ∃ j, jumps_to v x j.
Proof.
  unfold jset. rewrite elem_of_union_list. split.
  - intros (X & HX & Hx). apply list_elem_of_fmap in HX as (j & -> & Hj). exists j. split; [by apply elem_of_elements|]. by apply elem_of_list_to_set in Hx.
  - intros (j & Hj & Hx). eexists. split; [apply list_elem_of_fmap; exists j; split; [done|by apply elem_of_elements]|]. by apply elem_of_list_to_set.
Qed.
Lemma jset_sub v v' : (∀ x j, jumps_to v' x j → jumps_to v x j) → (size (jset v') ≤ size (jset v))%nat.
Proof. intros Hs. apply subseteq_size. intros x. rewrite !elem_of_jset. naive_solver. Qed.
Lemma jset_cut v x j : jumps_to v x j → (size (jset (cut_view x v)) < size (jset v))%nat.
Proof.
  intros Hx. apply subset_size. split.
  - intros y. rewrite !elem_of_jset. intros (k & Hk & Hy). apply elem_of_cut in Hy as [Hy _]. by exists k.
  - intros Hs. assert (Hxj : x ∈ jset (cut_view x v)) by (apply Hs, elem_of_jset; eauto). apply elem_of_jset in Hxj as (k & _ & Hy).
    by apply elem_of_cut in Hy as [_ ?].
Qed.
Lemma jset_bound s v : cache_inv s v → (size (jset v) ≤ 2 * length (tbs s))%nat.
Proof.
  intros HI. unfold size, set_size. simpl. apply elt2_length; [apply NoDup_elements|]. intros x Hx. apply elem_of_elements, elem_of_jset in Hx as (j & Hj & Hx). split.
  - by apply (fam_elt _ _ _ _ _ _ _ (ci_jumps _ _ HI) j).
  - by eapply jumps_bound; [apply HI|..].
Qed.

(** A block that has been invalidated has no jumps; the recursion stops there. *)
Definition stops s v tb : Prop := tb ∈ v_live v ∨ ∀ n, (n < 2)%nat → rd s (SJmpNext tb n) = Some None.
(** One exit of a block: nothing to do, or a cut and the recursion. *)
Lemma unchain_exit_ok s v tb n (rec : nat → TBM Regs ()) : cache_inv s v → stops s v tb → (n < 2)%nat →
  (∀ s1 v1 j, cache_inv s1 v1 → j ∈ v_live v1 → (size (jset v1) < size (jset v))%nat → v_live v1 = v_live v →
    ∃ s' v', rec j s1 = Ok () s' ∧ unchained s1 s' v1 v' ∧ ¬ jumps_from v' j) →
  ∃ s' v', tb_reset_jump_recursive2 rec tb n s = Ok () s' ∧ unchained s s' v v' ∧ no_jump v' (tb, n).
Proof.
  intros HI Hst Hn Hrec. destruct (in_some_list (v_live v) (v_jumps v) (tb, n)) as [(j & Hj & Hx)|Hno].
  - destruct (ch_from _ _ (ci_chained _ _ HI) j _ Hj Hx) as [Hl _]. simpl in Hl.
    destruct (unchain_one_ok s v tb n j HI Hl Hn ltac:(by split)) as (s1 & E & HI1 & K1 & U1).
    destruct (Hrec s1 (cut_view (tb, n) v) j HI1) as (s' & v' & E' & UC & Hnj); [done|by apply (jset_cut _ _ j)|done|].
    exists s', v'. rewrite E. split; [done|]. pose proof UC as [A B C D F G].
    assert (Hsub : ∀ x k, jumps_to v' x k → jumps_to v x k ∧ x ≠ (tb, n)).
    { intros x k Hk. apply F in Hk as [Hk Hy]. apply elem_of_cut in Hy as [Hy Hne]. by split; [split|]. }
    split; [|intros k Hk Hy; destruct D as [D _]; by destruct (Hsub (tb, n) k ltac:(by split; [|]))]. split; try done.
    + by etrans.
    + congruence.
    + intros x k Hk. by apply Hsub.
    + intros x k Hk Hnk. destruct (decide (x = (tb, n))) as [->|Ne].
      * assert (k = j) as -> by (by eapply (jumps_to_unique s v (tb, n)); [..|split]). done.
      * apply (G x); [|done]. destruct Hk as [Hk Hy]. split; [done|]. by apply elem_of_cut.
  - exists s, v. split; [|split; [by apply unchained_refl|done]].
    assert (Hnone : rd s (SJmpNext tb n) = Some None) by (destruct Hst as [Hl|Hd]; [by apply (ch_none _ _ (ci_chained _ _ HI))|by apply Hd]).
    unfold tb_reset_jump_recursive2. by rewrite (bind_Ok _ _ _ _ _ (ld_ok _ _ _ Hnone)).
Qed.

Lemma no_jumps_from s v tb : cache_inv s v → (∀ n, (n < 2)%nat → no_jump v (tb, n)) → ¬ jumps_from v tb.
Proof.
  intros HI Hno (n & j & Hj & Hx). pose proof (fam_elt _ _ _ _ _ _ _ (ci_jumps _ _ HI) j _ Hj Hx) as He. by apply (Hno n He j).
Qed.

Lemma reset_recursive_ok d s v tb : cache_inv s v → stops s v tb → (size (jset v) < d)%nat →
  ∃ s' v', reset_recursive d tb s = Ok () s' ∧ unchained s s' v v' ∧ ¬ jumps_from v' tb.
Proof.
  revert s v tb. induction d as [|d IH]; intros s v tb HI Hst Hd; [lia|]. cbn [reset_recursive].
  destruct (unchain_exit_ok s v tb 0 (reset_recursive d) HI Hst ltac:(lia)) as (s1 & v1 & E1 & U1 & N1).
  { intros s1 v1 j HI1 Hj Hlt _. apply IH; [done|by left|lia]. }
  rewrite (bind_Ok _ _ _ _ _ E1). pose proof U1 as [HI1 K1 A1 (L1 & _) Hsub1 _].
  assert (Hst1 : stops s1 v1 tb).
  { destruct (decide (tb ∈ v_live v)) as [Hl|Hl]; [left; by rewrite L1|]. right. destruct Hst as [?|Hz]; [done|]. intros n Hn.
    unfold tb_reset_jump_recursive2 in E1. rewrite (bind_Ok _ _ _ _ _ (ld_ok _ _ _ (Hz 0%nat ltac:(lia)))) in E1.
    injection E1 as <-. by apply Hz. }
  destruct (unchain_exit_ok s1 v1 tb 1 (reset_recursive d) HI1 Hst1 ltac:(lia)) as (s2 & v2 & E2 & U2 & N2).
  { intros s2 v2 j HI2 Hj Hlt _. pose proof (jset_sub v v1 Hsub1). apply IH; [done|by left|lia]. }
  exists s2, v2. split; [done|]. split; [by eapply unchained_trans|]. pose proof U2 as [HI2 _ _ (L2 & _) Hsub2 _].
  eapply no_jumps_from; [exact HI2|]. intros n Hn j Hj Hx. destruct n as [|[|n]]; [|by apply (N2 j)|lia].
  destruct (Hsub2 (tb, 0%nat) j ltac:(by split)) as [Hj1 Hx1]. by apply (N1 j).
Qed.

Lemma tb_reset_jump_recursive_ok s v tb : cache_inv s v → stops s v tb →
  ∃ s' v', tb_reset_jump_recursive tb s = Ok () s' ∧ unchained s s' v v' ∧ ¬ jumps_from v' tb.
Proof.
  intros HI Hst. unfold tb_reset_jump_recursive, list_fuel. rewrite bind_gets. apply reset_recursive_ok; [done..|].
  pose proof (jset_bound s v HI). lia.
Qed.

(** Where execution can get from a block without leaving the generated code. *)
Inductive reaches v : nat → nat → Prop :=
| reach_here i : reaches v i i
| reach_jump i j k n : reaches v i j → jumps_to v (j, n) k → reaches v i k.

(** After unchaining nothing that could be reached goes on anywhere. *)
Lemma unchained_reach s s' v v' tb : unchained s s' v v' → ¬ jumps_from v' tb → ∀ i, reaches v tb i → ¬ jumps_from v' i.
Proof.
  intros UC Hno i Hr. induction Hr as [i|i j k n Hr IH Hk]; [done|]. specialize (IH Hno). apply (uc_closed _ _ _ _ UC (j, n) k Hk).
  intros Hk'. apply IH. by exists n, k.
Qed.
End Chain.
