(* ===== verification/TBRange.v ===== *)
(** * Writes to code

    [tb_invalidate_phys_page_range] walks the list of blocks of a page and
    invalidates those a range of physical addresses touches. *)

From S2P Require Import Prelude CFile CString HostMem RamList Radix PhysPages RRTypes PandaCallbacks.
From S2P Require Import RRState RRReplay TBCache TBLists TBInv TBRemove TBInsert TBGen TBBitmap TBShape TBFind TBHost TBChain.
From stdpp Require Import functions list.
Local Open Scope Z_scope.

Section Range.
Context `{PhysSpace} `{TargetLong} {Regs : Type} `{!Translator Regs} `{!SpaceOk L1_MAP_ADDR_SPACE_BITS}.
Context `{!FetchLaws Regs}.
Implicit Types (s : tb_state Regs) (p q : slot) (i j n tb : nat) (v : view) (t : TranslationBlock) (x y : nat * nat) (m : smc).

(** ** A smaller cache *)

Definition sizes s := (nb_tbs s, code_gen_max_blocks s, code_gen_buffer s, code_gen_buffer_size s, code_gen_buffer_max_size s, code_gen_ptr s).

(** The blocks of [D] are gone. *)
Record shrunk (D : gset nat) s s' v v' : Prop := {
  sh_inv : cache_inv s' v';
  sh_live : v_live v' = v_live v ∖ D;
  sh_page : ∀ k, v_page v' k = filter (λ x, x.1 ∉ D) (v_page v k);
  sh_data : ∀ i, data s' i = data s i;
  sh_len : length (tbs s') = length (tbs s);
  sh_pages : ∀ k, page_exists s' k ↔ page_exists s k;
  sh_sizes : sizes s' = sizes s;
  sh_ram : ram_blocks (tb_ram s') = ram_blocks (tb_ram s);
  sh_bitmaps : bitmaps s v → bitmaps s' v';
  sh_cache : tb_jmp_cache (tb_cpu s') ⊆ tb_jmp_cache (tb_cpu s);
  sh_fetch : ∀ a, get_page_addr_code (cpu_regs (tb_cpu s')) a = get_page_addr_code (cpu_regs (tb_cpu s)) a;
  sh_cbs : rr_cbs (tb_rr s') = rr_cbs (tb_rr s);
}.

Lemma filter_id_all (P : nat * nat → Prop) `{∀ x, Decision (P x)} (l : list (nat * nat)) : (∀ x, x ∈ l → P x) → filter P l = l.
Proof. induction l as [|x l IH]; [done|]. intros Hl. rewrite filter_cons_True by (apply Hl; left). f_equal. apply IH. intros y Hy. apply Hl. by right. Qed.

Lemma shrunk_same s s' v : cache_inv s v → same_cache s s' →
  (∀ a, get_page_addr_code (cpu_regs (tb_cpu s')) a = get_page_addr_code (cpu_regs (tb_cpu s)) a) →
  rr_cbs (tb_rr s') = rr_cbs (tb_rr s) → shrunk ∅ s s' v v.
Proof.
  intros HI E Ef Er. split; [..|by rewrite (sc_cache _ _ E)|done|done].
  - by rewrite <-E.
  - set_solver.
  - intros k. symmetry. apply filter_id_all. set_solver.
  - by apply same_data.
  - by rewrite (proj1 (sc_tbs _ _ E)).
  - intros k. unfold page_exists. by rewrite (proj2 (sc_lists _ _ E)).
  - destruct E as [[] (? & ? & ? & ?) ? _ _ _ _]. unfold sizes. congruence.
  - by rewrite (sc_ram _ _ E).
  - apply bitmaps_keep; [by apply same_data|]. intros k bm _. unfold bm_at. by rewrite (proj2 (sc_lists _ _ E)).
Qed.

Lemma shrunk_trans D1 D2 s0 s1 s2 v0 v1 v2 : shrunk D1 s0 s1 v0 v1 → shrunk D2 s1 s2 v1 v2 → shrunk (D1 ∪ D2) s0 s2 v0 v2.
Proof.
  intros [A1 B1 C1 E1 F1 G1 H1' I1 J1 K1 L1 M1] [A2 B2 C2 E2 F2 G2 H2' I2 J2 K2 L2 M2].
  split; [done|rewrite B2, B1; set_solver|..|congruence|congruence|auto|by etrans|intros a; by rewrite L2, L1|congruence].
  - intros k. rewrite C2, C1, list_filter_filter. apply filter_iff_in. set_solver.
  - intros i. by rewrite E2.
  - congruence.
  - intros k. by rewrite G2.
Qed.

Lemma keeps_sizes s s' : keeps s s' → sizes s' = sizes s ∧ tb_ram s' = tb_ram s ∧ tb_rr s' = tb_rr s ∧
  current_tb (tb_cpu s') = current_tb (tb_cpu s) ∧ interrupt_request (tb_cpu s') = interrupt_request (tb_cpu s) ∧ cpu_regs (tb_cpu s') = cpu_regs (tb_cpu s).
Proof. intros K. pose proof (k_rest _ _ K) as R. unfold rest in R. injection R as E1 E2 E3 E4 E5 E6 E7 E8 E9 E10 E11 E12 E13 E14 E15. unfold sizes. by split_and!; congruence. Qed.

Lemma shrunk_removed s s' v tb : cache_inv s v → tb ∈ v_live v → invalidated s s' v tb → shrunk {[tb]} s s' v (remove_view tb v).
Proof.
  intros HI0 Hl [HI K _ _ HC HM]. destruct (keeps_sizes _ _ K) as (Es & Er & Err & _ & _ & Erg). split; try done; [..|by rewrite Er| |by rewrite Erg|by rewrite Err].
  - intros k. simpl. apply filter_iff_in. intros x _. unfold not_tb. set_solver.
  - apply K.
  - by apply keeps_length.
  - intros k. apply K.
  - apply bitmaps_keep; [apply K|]. intros k bm Hk Hb. pose proof (k_bitmap _ _ K k bm Hk Hb) as Hb0. split; [done|]. simpl. apply filter_id_all.
    intros [i n] Hx. unfold not_tb. simpl. intros ->. assert (Hdom : page_dom s k).
    { split; [done|]. unfold bm_at in Hb0. unfold page_exists. destruct (page_find (l1_map s) k); [by eexists|done]. }
    apply (li_page _ _ (ci_listed _ _ HI0) k tb n Hdom) in Hx as (_ & t & Ht & Ho). by rewrite (HM t n k Ht Ho) in Hb.
Qed.

Lemma shrunk_unchained s s' v v' : unchained s s' v v' → shrunk ∅ s s' v v'.
Proof.
  intros [HI K U (E1 & E2 & E3) _ _]. destruct (keeps_sizes _ _ K) as (Es & Er & Err & _ & _ & Erg).
  assert (Ec : tb_cpu s' = tb_cpu s) by (by injection U). split; try done; [..|by rewrite Er| |by rewrite Ec|by rewrite Ec|by rewrite Err].
  - set_solver.
  - intros k. rewrite E3. symmetry. apply filter_id_all. set_solver.
  - apply K.
  - by apply keeps_length.
  - intros k. apply K.
  - apply bitmaps_keep; [apply K|]. intros k bm Hk Hb. rewrite E3. split; [by apply (k_bitmap _ _ K)|done].
Qed.

Lemma keeps_io s s' : keeps s s' → mem_io_pc (tb_cpu s') = mem_io_pc (tb_cpu s).
Proof. intros K. pose proof (k_rest _ _ K) as R. unfold rest in R. by injection R. Qed.

(** ** One block *)

Definition single_env s : bool := cpu_single_env (tb_rr s).

(** The block that is being executed is a live one, where it could matter. *)
Definition current_ok s v : Prop := single_env s = false ∨ interrupt_request (tb_cpu s) = 0 ∨
  ∀ tb, current_tb (tb_cpu s) = Some tb → tb ∈ v_live v.

Definition cpu_kept s s' : Prop := tb_rr s' = tb_rr s ∧ interrupt_request (tb_cpu s') = interrupt_request (tb_cpu s) ∧ cpu_regs (tb_cpu s') = cpu_regs (tb_cpu s).

(** Between the steps the CPU is set to execute no block. *)
Lemma set_current_same s o : same_cache s (set_tb_cpu (set_current_tb o (tb_cpu s)) s).
Proof. by split. Qed.

Lemma cpu_unlink_tb_ok s v : cache_inv s v → (∀ tb, current_tb (tb_cpu s) = Some tb → stops s v tb) →
  ∃ s' v', cpu_unlink_tb s = Ok () s' ∧ shrunk ∅ s s' v v' ∧ cpu_kept s s' ∧ current_tb (tb_cpu s') = None ∧
    (∀ tb i, current_tb (tb_cpu s) = Some tb → reaches v tb i → ¬ jumps_from v' i) ∧ mem_io_pc (tb_cpu s') = mem_io_pc (tb_cpu s).
Proof.
  intros HI Hc. unfold cpu_unlink_tb. rewrite bind_gets. destruct (current_tb (tb_cpu s)) as [tb|] eqn:Ec.
  2: { exists s, v. split; [done|]. split; [by apply shrunk_same|]. done. }
  unfold upd_cpu. rewrite bind_modify. pose proof (set_current_same s None) as Es. set (s1 := set_tb_cpu _ s) in *.
  destruct (tb_reset_jump_recursive_ok s1 v tb) as (s' & v' & E & UC & Hno); [by rewrite <-Es|apply Hc; done|].
  exists s', v'. split; [done|]. destruct (keeps_sizes _ _ (uc_keeps _ _ _ _ UC)) as (_ & _ & K1 & K2 & K3 & K4). split_and!; try done.
  - replace (∅ : gset nat) with (∅ ∪ ∅ : gset nat) by set_solver. eapply (shrunk_trans _ _ _ s1); [by apply shrunk_same|by apply shrunk_unchained].
  - intros tb' i [= <-]. by apply (unchained_reach s1 s').
  - exact (keeps_io _ _ (uc_keeps _ _ _ _ UC)).
Qed.

Lemma invalidate_one_ok s v tb : cache_inv s v → tb ∈ v_live v → current_ok s v →
  ∃ s' v', invalidate_one tb s = Ok () s' ∧ shrunk {[tb]} s s' v v' ∧ cpu_kept s s' ∧ current_ok s' v' ∧ mem_io_pc (tb_cpu s') = mem_io_pc (tb_cpu s).
Proof.
  intros HI Hl Hc. unfold invalidate_one. rewrite !bind_gets. fold (single_env s). destruct (single_env s) eqn:Ee.
  2: { rewrite bind_ret. destruct (tb_phys_invalidate_ok s v tb HI Hl) as (s' & E & IV). rewrite (bind_Ok _ _ _ _ _ E).
       destruct (keeps_sizes _ _ (iv_keeps _ _ _ _ IV)) as (_ & _ & K1 & K2 & K3 & K4).
       exists s', (remove_view tb v). split; [done|]. split; [by apply shrunk_removed|]. split; [done|]. split; [left; unfold single_env in *; by rewrite K1|]. exact (keeps_io _ _ (iv_keeps _ _ _ _ IV)). }
  unfold upd_cpu. rewrite bind_modify. pose proof (set_current_same s None) as E1. set (s1 := set_tb_cpu _ s) in *.
  destruct (tb_phys_invalidate_ok s1 v tb) as (s2 & E2 & IV); [by rewrite <-E1|done|]. rewrite (bind_Ok _ _ _ _ _ E2), bind_modify, bind_gets.
  destruct (keeps_sizes _ _ (iv_keeps _ _ _ _ IV)) as (_ & _ & K1 & K2 & K3 & K4).
  pose proof (set_current_same s2 (current_tb (tb_cpu s))) as E3. set (s3 := set_tb_cpu _ s2) in *.
  assert (Sh : shrunk {[tb]} s s3 v (remove_view tb v)).
  { replace ({[tb]} : gset nat) with (∅ ∪ ({[tb]} ∪ ∅) : gset nat) by set_solver. eapply (shrunk_trans _ _ _ s1); [by apply shrunk_same|].
    eapply (shrunk_trans _ _ _ s2); [by apply shrunk_removed; [rewrite <-E1|..]|]. apply shrunk_same; [apply IV|done..]. }
  assert (Ck : cpu_kept s s3) by done. pose proof (keeps_io _ _ (iv_keeps _ _ _ _ IV)) as Eio. change (interrupt_request (tb_cpu s3)) with (interrupt_request (tb_cpu s2)). rewrite K3.
  change (interrupt_request (tb_cpu s1)) with (interrupt_request (tb_cpu s)).
  destruct (negb (interrupt_request (tb_cpu s) =? 0) && bool_decide (is_Some (current_tb (tb_cpu s)))) eqn:Eb.
  - apply andb_true_iff in Eb as [Eb1 Eb2]. apply negb_true_iff, Z.eqb_neq in Eb1. apply bool_decide_eq_true in Eb2 as [cur Ecur].
    destruct Hc as [?|[?|Hc]]; [congruence|done|]. specialize (Hc cur Ecur). unfold tcg_handle_interrupt, upd_cpu. rewrite bind_modify. set (s4 := set_tb_cpu _ s3).
    assert (E4 : same_cache s3 s4) by (by split). assert (HI4 : cache_inv s4 (remove_view tb v)) by (rewrite <-E4; apply Sh).
    destruct (cpu_unlink_tb_ok s4 (remove_view tb v) HI4) as (s' & v' & E5 & Sh5 & (C1 & C2 & C3) & C4 & _ & Eio5).
    { intros c Hcc. simpl in Hcc. assert (c = cur) as -> by congruence. destruct (decide (cur = tb)) as [->|Ne]; [right|left; simpl; set_solver].
      intros n Hn. rewrite (same_rd _ _ E4). rewrite (same_rd _ _ E3). by apply (iv_dead _ _ _ _ IV). }
    exists s', v'. split; [done|]. split_and!.
    + replace ({[tb]} : gset nat) with ({[tb]} ∪ (∅ ∪ ∅) : gset nat) by set_solver. eapply (shrunk_trans _ _ _ s3); [exact Sh|].
      eapply (shrunk_trans _ _ _ s4); [apply shrunk_same; [apply Sh|done..]|done].
    + split_and!; [rewrite C1; exact K1| |rewrite C3; exact K4]. rewrite C2. simpl. rewrite K3. apply Z.lor_diag.
    + right. right. by rewrite C4.
    + rewrite Eio5. exact Eio.
  - exists s3, (remove_view tb v). split; [done|]. split; [done|]. split; [done|]. split; [|exact Eio].
    apply andb_false_iff in Eb as [Eb|Eb].
    + right. left. apply negb_false_iff, Z.eqb_eq in Eb. change (interrupt_request (tb_cpu s2) = 0). rewrite K3. exact Eb.
    + right. right. apply bool_decide_eq_false in Eb. simpl. intros c Ecc. destruct Eb. by eexists.
Qed.
(** ** The block that is being executed *)

Definition no_smc : smc := mkSmc false None None.

Definition smc_ok s m : Prop := callbacks_ok s ∧ (current_tb_not_found m = true → single_env s = true) ∧
  (∀ c, smc_current m = Some c → (c < length (tbs s))%nat) ∧ ∀ r, smc_modified m = Some r → in_width target_long_bits r.1.1.

(** The CPU's registers may be restored, nothing else. *)
Definition regs_only s s' : Prop := same_cache s s' ∧ single_env s' = single_env s ∧
  current_tb (tb_cpu s') = current_tb (tb_cpu s) ∧ interrupt_request (tb_cpu s') = interrupt_request (tb_cpu s) ∧
  (∀ a, get_page_addr_code (cpu_regs (tb_cpu s')) a = get_page_addr_code (cpu_regs (tb_cpu s)) a) ∧ rr_cbs (tb_rr s') = rr_cbs (tb_rr s).

Lemma regs_only_refl s : regs_only s s.
Proof. split_and!; by try split. Qed.

Lemma current_ok_regs s s' v : regs_only s s' → current_ok s v → current_ok s' v.
Proof. intros (_ & E1 & E2 & E3 & _). unfold current_ok. by rewrite E1, E2, E3. Qed.

Lemma tb_find_pc_total s v tc_ptr : cache_inv s v → ∃ o, tb_find_pc tc_ptr s = Ok o s ∧ ∀ c, o = Some c → (c < length (tbs s))%nat.
Proof.
  intros HI. destruct (decide (code_gen_buffer s ≤ tc_ptr < code_gen_ptr s)) as [Hp|Hp].
  - destruct (tb_find_pc_ok s v tc_ptr HI Hp) as (i & E & Hi & _). eexists. split; [done|]. intros c [= <-].
    pose proof (lay_len _ _ (ci_layout _ _ HI)). pose proof (lay_nb _ _ (ci_layout _ _ HI)). lia.
  - exists None. split; [|done]. unfold tb_find_pc. rewrite bind_gets. destruct (nb_tbs s <=? 0); [done|]. rewrite !bind_gets.
    replace ((tc_ptr <? code_gen_buffer s) || (code_gen_ptr s <=? tc_ptr)) with true; [done|]. symmetry. apply orb_true_iff. rewrite Z.ltb_lt, Z.leb_le. lia.
Qed.

(** The block whose code made the access that is being served: the one around
    [env->mem_io_pc]. *)
Definition io_block s : option nat :=
  if mem_io_pc (tb_cpu s) =? 0 then None else match tb_find_pc (mem_io_pc (tb_cpu s)) s with Ok o _ => o | Err _ _ => None end.

Lemma find_pc_loop_ext s s' fuel : (∀ i, data s' i = data s i) → ∀ tc a b i, find_pc_loop fuel tc a b s = Ok i s → find_pc_loop fuel tc a b s' = Ok i s'.
Proof.
  intros Hd. induction fuel as [|fuel IH]; intros tc a b i E; cbn [find_pc_loop] in *; [done|]. destruct (a <=? b); [|by injection E as ->].
  apply bind_inv_Ok in E as (t & s1 & E1 & E). set (k := Z.to_nat _) in *. unfold tb_at in E1. rewrite bind_gets in E1.
  destruct (tbs s !! k) as [t0|] eqn:Et; [|done]. injection E1 as <- <-. specialize (Hd k). unfold data in Hd. rewrite Et in Hd. apply fmap_Some in Hd as (t' & Et' & Hd).
  rewrite (bind_Ok _ _ _ _ _ (tb_at_ok _ _ _ Et')). assert (Ep : tb_tc_ptr t' = tb_tc_ptr t0) by (change (tb_tc_ptr (tb_data t') = tb_tc_ptr (tb_data t0)); congruence).
  rewrite Ep. destruct (_ =? _); [by injection E as ->|]. destruct (_ <? _); by apply IH.
Qed.

Lemma io_block_kept D s s' v v' : cache_inv s v → shrunk D s s' v v' → mem_io_pc (tb_cpu s') = mem_io_pc (tb_cpu s) → io_block s' = io_block s.
Proof.
  intros HI Sh Eio. unfold io_block. rewrite Eio. destruct (_ =? 0); [done|]. set (pc := mem_io_pc _). destruct (tb_find_pc_total s v pc HI) as (o & E & _). rewrite E.
  pose proof (sh_sizes _ _ _ _ _ Sh) as Es. unfold sizes in Es. injection Es as En _ Eb _ _ Ep. unfold tb_find_pc in *. rewrite bind_gets in *. rewrite En.
  destruct (nb_tbs s <=? 0); [by injection E as <-|]. rewrite !bind_gets in *. rewrite Eb, Ep. destruct (_ || _); [by injection E as <-|].
  apply bind_inv_Ok in E as (i & s1 & E & E1). injection E1 as <- ->. by rewrite (bind_Ok _ _ _ _ _ (find_pc_loop_ext _ _ _ (sh_data _ _ _ _ _ Sh) _ _ _ _ E)).
Qed.

(** That block is one of [D] and longer than one instruction. *)
Definition self_modified (D : gset nat) s c t : Prop :=
  io_block s = Some c ∧ c ∈ D ∧ data s c = Some (tb_data t) ∧ Z.land (tb_cflags t) CF_COUNT_MASK ≠ 1.

(** What the walk knows after it has dropped the blocks of [D]; the registers are
    restored once, at the block that made the access. *)
Record smc_at s0 (D : gset nat) s m : Prop := {
  sa_io : mem_io_pc (tb_cpu s) = mem_io_pc (tb_cpu s0);
  sa_current : if current_tb_not_found m then D = ∅ ∧ smc_modified m = None else smc_current m = io_block s0;
  sa_modified : match smc_modified m with
                | None => cpu_regs (tb_cpu s) = cpu_regs (tb_cpu s0) ∧ ∀ c t, ¬ self_modified D s0 c t
                | Some r => r = cpu_get_tb_cpu_state (cpu_regs (tb_cpu s)) ∧
                    ∃ c t, self_modified D s0 c t ∧ cpu_regs (tb_cpu s) = restore_state (cpu_regs (tb_cpu s0)) t (mem_io_pc (tb_cpu s0))
                end;
}.

(** The first step: which block is it? *)
Lemma smc_find_ok s v m : cache_inv s v → smc_ok s m →
  ∃ m', (if current_tb_not_found m then
           e ← gets (λ s, cpu_single_env (tb_rr s)); assert_or Segv e;;
           pc ← gets (λ s, mem_io_pc (tb_cpu s));
           cur ← (if pc =? 0 then mret None else tb_find_pc pc);
           mret (mkSmc false cur (smc_modified m))
         else mret m) s = Ok m' s ∧ current_tb_not_found m' = false ∧ (∀ c, smc_current m' = Some c → (c < length (tbs s))%nat) ∧
        smc_modified m' = smc_modified m ∧ (current_tb_not_found m = false → m' = m) ∧ (current_tb_not_found m = true → smc_current m' = io_block s).
Proof.
  intros HI (_ & Hnf & Hcur & _). destruct (current_tb_not_found m) eqn:Em.
  2: { exists m. done. }
  specialize (Hnf eq_refl). unfold single_env in Hnf. rewrite bind_gets, (bind_Ok _ _ _ _ _ (assert_true _ _ s Hnf)), bind_gets.
  unfold io_block. destruct (mem_io_pc (tb_cpu s) =? 0); [rewrite bind_ret; by eexists|].
  destruct (tb_find_pc_total s v (mem_io_pc (tb_cpu s)) HI) as (o & E & Ho). rewrite (bind_Ok _ _ _ _ _ E), E. by eexists.
Qed.

Lemma smc_at_cpu s0 D s s' m : smc_at s0 D s m → cpu_regs (tb_cpu s') = cpu_regs (tb_cpu s) → mem_io_pc (tb_cpu s') = mem_io_pc (tb_cpu s) → smc_at s0 D s' m.
Proof. intros [A B C] Er Ei. split; [congruence|done|]. by rewrite Er. Qed.

(** Nothing is known to change when the block dropped is another one. *)
Lemma smc_at_other s0 D s m m' tb : smc_at s0 D s m → smc_modified m' = smc_modified m → current_tb_not_found m' = false → smc_current m' = io_block s0 →
  (smc_modified m = None → ∀ t, ¬ self_modified (D ∪ {[tb]}) s0 tb t) → smc_at s0 (D ∪ {[tb]}) s m'.
Proof.
  intros [A B C] Em Ef Ec Hn. split; [done|by rewrite Ef|]. rewrite Em. destruct (smc_modified m) as [r|].
  - destruct C as (C1 & c & t & (S1 & S2 & S3) & C3). split; [done|]. exists c, t. split; [|done]. split; [done|]. split; [set_solver|done].
  - destruct C as [C1 C2]. split; [done|]. intros c t (S1 & S2 & S3). destruct (decide (c = tb)) as [->|Ne].
    + by apply (Hn eq_refl t).
    + apply (C2 c t). split; [done|]. split; [set_solver|done].
Qed.

Lemma smc_check_ok s v tb m : cache_inv s v → smc_ok s m →
  ∃ m' s', smc_check tb m s = Ok m' s' ∧ regs_only s s' ∧ smc_ok s' m' ∧ (m = no_smc → m' = no_smc ∧ s' = s) ∧
    ∀ s0 v0 D, cache_inv s0 v0 → shrunk D s0 s v0 v → tb ∈ v_live v → smc_at s0 D s m → smc_at s0 (D ∪ {[tb]}) s' m'.
Proof.
  intros HI Hm. pose proof Hm as (Hcb & _ & _ & Hmod). unfold smc_check. destruct (smc_find_ok s v m HI Hm) as (m1 & E1 & Nf & Hc & Em1 & Hsame & Hfound).
  rewrite (bind_Ok _ _ _ _ _ E1). assert (Hno : m = no_smc → m1 = m) by (intros ->; by apply Hsame).
  assert (Hok1 : smc_ok s m1) by (split_and!; [done|by rewrite Nf|done|by rewrite Em1]).
  assert (Hcur : ∀ s0 v0 D, cache_inv s0 v0 → shrunk D s0 s v0 v → smc_at s0 D s m → smc_current m1 = io_block s0).
  { intros s0 v0 D HI0 Sh [A B _]. destruct (current_tb_not_found m) eqn:Efm; [|by rewrite (Hsame eq_refl)]. rewrite (Hfound eq_refl). by eapply io_block_kept. }
  destruct (smc_current m1) as [cur|] eqn:Ecur.
  2: { exists m1, s. split_and!; [done|apply regs_only_refl|done|intros ->; by rewrite Hno|]. intros s0 v0 D HI0 Sh Hl Hat.
       apply (smc_at_other s0 D s m); [done..|by rewrite Ecur; eapply Hcur|]. intros _ t (S1 & _). specialize (Hcur s0 v0 D HI0 Sh Hat). congruence. }
  destruct (lookup_lt_is_Some_2 (tbs s) cur ltac:(by apply Hc)) as [t Ht]. rewrite (bind_Ok _ _ _ _ _ (tb_at_ok _ _ _ Ht)).
  case_decide as Hd.
  2: { exists m1, s. split_and!; [done|apply regs_only_refl|done|intros ->; by rewrite Hno|]. intros s0 v0 D HI0 Sh Hl Hat. specialize (Hcur s0 v0 D HI0 Sh Hat).
       apply (smc_at_other s0 D s m); [done..|congruence|]. intros _ u (S1 & _ & S3 & S4). assert (cur = tb) as -> by congruence. apply Hd. split; [done|].
       rewrite <-(sh_data _ _ _ _ _ Sh) in S3. unfold data in S3. rewrite Ht in S3. apply (f_equal (from_option tb_cflags 0)) in S3. simpl in S3. by rewrite S3. }
  rewrite bind_gets. unfold cpu_restore_state. destruct (run_tb_callbacks_ok s PANDA_CB_CPU_RESTORE_STATE (λ cbs, EvCpuRestoreState cbs cur) Hcb) as [e Ee].
  rewrite bind_assoc, (bind_Ok _ _ _ _ _ Ee). set (s1 := set_tb_trace _ s). rewrite bind_assoc.
  rewrite (bind_Ok _ _ _ _ _ (tb_at_ok s1 cur t Ht)). unfold upd_cpu. rewrite bind_modify. set (s2 := set_tb_cpu _ s1).
  erewrite bind_Ok by (unfold in_tb_rr, modify; reflexivity). set (s3 := set_tb_rr _ s2). rewrite bind_gets.
  eexists _, s3. split; [done|]. assert (Er : regs_only s s3) by (split_and!; [by split|done..|intros a; apply fetch_restore|done]). split; [done|]. split; [|split].
  - split_and!; [done|done| |].
    + simpl. intros c [= <-]. by apply Hc.
    + simpl. intros r [= <-]. apply fetch_pc.
  - intros ->. rewrite (Hno eq_refl) in Ecur. done.
  - intros s0 v0 D HI0 Sh Hl Hat. specialize (Hcur s0 v0 D HI0 Sh Hat). destruct Hat as [A B C], Hd as [-> Hd].
    assert (HD : tb ∉ D) by (rewrite (sh_live _ _ _ _ _ Sh) in Hl; set_solver). split; [exact A|done|]. simpl. split; [done|].
    assert (Em : smc_modified m = None).
    { destruct (smc_modified m) as [r|]; [|done]. destruct C as (_ & c & u & (S1 & S2 & _) & _). congruence. }
    rewrite Em in C. destruct C as [C _]. exists tb, t. split; [|by rewrite A, C]. split; [done|]. split; [set_solver|]. split; [|done].
    rewrite <-(sh_data _ _ _ _ _ Sh). unfold data. by rewrite Ht.
Qed.

(** ** The list of a page *)

Definition overlaps (t : TranslationBlock) n (start end_ : Z) : Prop :=
  start < (phys_range t n).2 ∧ (phys_range t n).1 < end_.
#[global] Instance overlaps_dec t n start end_ : Decision (overlaps t n start end_).
Proof. unfold overlaps. apply _. Defined.

(** The pointer is to a block the range touches on this page. *)
Definition touched s (start end_ : Z) x : Prop := ∃ t, data s x.1 = Some t ∧ overlaps t x.2 start end_.
#[global] Instance touched_dec s start end_ x : Decision (touched s start end_ x).
Proof.
  unfold touched. destruct (data s x.1) as [t|]; [|right; by intros (? & ? & _)].
  destruct (decide (overlaps t x.2 start end_)) as [Ho|Ho]; [left; eauto|right; by intros (? & [= <-] & ?)].
Defined.
Definition touched_set s (start end_ : Z) (l : list (nat * nat)) : gset nat := list_to_set (fst <$> filter (touched s start end_) l).

(** A block is not on the page with both of its parts. *)
Definition one_part (l : list (nat * nat)) : Prop := ∀ i, (i, 0%nat) ∈ l → (i, 1%nat) ∈ l → False.

Lemma one_part_unique (l : list (nat * nat)) x y : one_part l → (∀ z, z ∈ l → elt2 z) → x ∈ l → y ∈ l → x.1 = y.1 → x = y.
Proof.
  intros Hone He Hx Hy E. destruct x as [i n], y as [k m]. simpl in E. subst k. pose proof (He _ Hx) as H1'. pose proof (He _ Hy) as H2'.
  unfold elt2 in *. simpl in *. destruct n as [|[|n]], m as [|[|m]]; try lia; try done; exfalso; by apply (Hone i).
Qed.

Lemma invalidate_loop_ok index start end_ fuel : ∀ l s v l1 m, cache_inv s v → page_dom s index → v_page v index = l1 ++ l → one_part (l1 ++ l) →
  (length l < fuel)%nat → smc_ok s m → current_ok s v →
  ∃ m' s' v', invalidate_loop fuel (first_ptr l None) start end_ m s = Ok m' s' ∧ shrunk (touched_set s start end_ l) s s' v v' ∧
    smc_ok s' m' ∧ current_ok s' v' ∧ single_env s' = single_env s ∧ (m = no_smc → m' = no_smc ∧ cpu_kept s s') ∧
    ∀ s0 v0 D, cache_inv s0 v0 → shrunk D s0 s v0 v → smc_at s0 D s m → smc_at s0 (D ∪ touched_set s start end_ l) s' m'.
Proof.
  induction fuel as [|fuel IH]; intros l s v l1 m HI Hdom El Hone Hf Hm Hc; [lia|]. pose proof HI as [Hok HLa HLi HH HP HJ HC HR HG].
  destruct l as [|[i n] l].
  { exists m, s, v. cbn [invalidate_loop first_ptr]. split; [done|]. split; [by apply shrunk_same|]. split_and!; try done.
    intros s0 v0 D _ _ Hat. replace (D ∪ touched_set s start end_ []) with D by (unfold touched_set; set_solver). done. }
  pose proof (fam_chain _ _ _ _ _ _ _ HP index Hdom) as Hch. rewrite El in Hch. apply chain_app in Hch as [_ Hch].
  pose proof (chain_first _ _ _ _ _ Hch) as Hnx. change (nx_page (i, n)) with (SPageNext i n) in Hnx.
  assert (Hin : (i, n) ∈ v_page v index) by (rewrite El; set_solver). pose proof Hin as Hin0. apply (li_page _ _ HLi index i n Hdom) in Hin as [Hi _].
  destruct (live_block s v i HI Hi) as (t & Ht & Hd). cbn [invalidate_loop first_ptr]. rewrite (bind_Ok _ _ _ _ _ (ld_ok _ _ _ Hnx)), (bind_Ok _ _ _ _ _ (tb_at_ok _ _ _ Ht)).
  assert (Htd : ∀ s', (∀ k, data s' k = data s k) → ∀ k : list (nat * nat), filter (touched s' start end_) k = filter (touched s start end_) k).
  { intros s' Hs' k. apply filter_iff_in. intros x _. unfold touched. by rewrite Hs'. }
  assert (Htouch : touched s start end_ (i, n) ↔ overlaps t n start end_).
  { unfold touched. cbn [fst snd]. rewrite Hd. split; [by intros (? & [= <-] & ?)|]. intros Ho. by exists (tb_data t). }
  destruct (phys_range t n) as [a b] eqn:Epr. unfold overlaps in Htouch. rewrite Epr in Htouch. cbn [fst snd] in Htouch.
  destruct ((b <=? start) || (end_ <=? a)) eqn:Eb.
  - rewrite bind_ret. assert (Hnt : ¬ touched s start end_ (i, n)).
    { rewrite Htouch. apply orb_true_iff in Eb. rewrite !Z.leb_le in Eb. lia. }
    destruct (IH l s v (l1 ++ [(i, n)]) m HI Hdom) as (m' & s' & v' & E & Sh & Hm' & Hc' & He & Hno & Hat'); [by rewrite <-app_assoc|by rewrite <-app_assoc|simpl in Hf; lia|done|done|].
    exists m', s', v'. split; [done|]. assert (Et : touched_set s start end_ ((i, n) :: l) = touched_set s start end_ l) by (unfold touched_set; by rewrite filter_cons_False).
    rewrite Et. by split_and!.
  - assert (Hto : touched s start end_ (i, n)).
    { rewrite Htouch. apply orb_false_iff in Eb. rewrite !Z.leb_gt in Eb. lia. }
    destruct (smc_check_ok s v i m HI Hm) as (m1 & s1 & E1 & Ro & Hm1 & Hno1 & Hat1). pose proof Ro as (Es & Ro1 & Ro2 & Ro3 & Ro4 & Ro5).
    rewrite bind_assoc, (bind_Ok _ _ _ _ _ E1). assert (HI1 : cache_inv s1 v) by (by rewrite <-Es).
    destruct (invalidate_one_ok s1 v i HI1 Hi) as (s2 & v2 & E2 & Sh2 & (Ck1 & Ck2 & Ck3) & Hc2 & Eio2); [by eapply current_ok_regs|].
    rewrite bind_assoc, (bind_Ok _ _ _ _ _ E2), bind_ret. pose proof Sh2 as [HI2 Lv2 Pg2 Dt2 Ln2 Pe2 Sz2 Rm2 _ _ _ _].
    assert (Hel : ∀ z, z ∈ v_page v index → elt2 z) by (intros z Hz; by apply (fam_elt _ _ _ _ _ _ _ HP index)).
    assert (El2 : v_page v2 index = l1 ++ l).
    { rewrite Pg2, El. pose proof (fam_nodup _ _ _ _ _ _ _ HP index Hdom) as Hnd. rewrite El in Hnd, Hel.
      assert (Hz : ∀ z, z ∈ l1 ++ l → z.1 ∉ ({[i]} : gset nat)).
      { intros z Hz Hzi. apply elem_of_singleton in Hzi. assert (z = (i, n)) as ->.
        - eapply (one_part_unique (l1 ++ (i, n) :: l)); [done|done|set_solver|set_solver|done].
        - apply NoDup_app in Hnd as (_ & Hdj & Hnd). apply NoDup_cons in Hnd as [Hnd _]. apply elem_of_app in Hz as [Hz|Hz]; [apply (Hdj _ Hz); left|done]. }
      rewrite filter_app, filter_cons_False by set_solver. rewrite <-filter_app. by apply filter_id_all. }
    assert (Hdom2 : page_dom s2 index).
    { destruct Hdom as [D1 D2]. split; [done|]. apply Pe2. unfold page_exists. by rewrite (proj2 (sc_lists _ _ Es)). }
    assert (Hm2 : smc_ok s2 m1).
    { destruct Hm1 as (M1 & M2 & M3 & M4). split_and!; [unfold callbacks_ok; by rewrite Ck1|unfold single_env in *; by rewrite Ck1|by rewrite Ln2|done]. }
    destruct (IH l s2 v2 l1 m1 HI2 Hdom2 El2) as (m' & s' & v' & E & Sh & Hm' & Hc' & He & Hno & Hat'); [intros k Hk0 Hk1; apply (Hone k); set_solver|simpl in Hf; lia|done|done|].
    assert (ED : touched_set s start end_ ((i, n) :: l) = (∅ ∪ {[i]}) ∪ touched_set s2 start end_ l).
    { unfold touched_set. rewrite filter_cons_True by done. rewrite (Htd s2); [set_solver|]. intros k. rewrite Dt2. by apply same_data. }
    exists m', s', v'. split; [done|]. rewrite ED. split_and!; [|done|done|..].
    + eapply (shrunk_trans _ _ _ s2); [|done]. eapply (shrunk_trans _ _ _ s1); [by apply shrunk_same|done].
    + rewrite He. unfold single_env in *. by rewrite Ck1.
    + intros ->. destruct (Hno1 eq_refl) as [-> ->]. destruct (Hno eq_refl) as [-> (X1 & X2 & X3)]. split; [done|]. split_and!; congruence.
    + intros s0 v0 D HI0 Sh0 Hat. pose proof (Hat1 s0 v0 D HI0 Sh0 Hi Hat) as Ha1. rewrite (union_empty_l_L {[i]}), (union_assoc_L D {[i]}). apply (Hat' s0 v0); [done| |].
      * eapply shrunk_trans; [exact Sh0|]. replace ({[i]} : gset nat) with (∅ ∪ {[i]} : gset nat) by set_solver. eapply (shrunk_trans _ _ _ s1); [by apply shrunk_same|done].
      * by apply (smc_at_cpu s0 _ s1).
Qed.
(** ** The descriptor of the page *)

(** A change of the bitmap or the count of a page. *)
Lemma page_meta_inv s v index d d' : cache_inv s v → index_ok index → page_find (l1_map s) index = Some d → first_tb d' = first_tb d →
  (∀ bm, code_bitmap d' = Some bm → code_bitmap d = Some bm ∨ bitmap_of s (v_page v index) bm) →
  let s' := set_l1_map (page_store (l1_map s) index d') s in cache_inv s' v ∧ shrunk ∅ s s' v v.
Proof.
  intros HI Hi Hd Hf Hb s'. pose proof HI as [Hok HLa HLi HH HP HJ HC HR HG].
  assert (R : ∀ q, slot_ok q → rd s' q = rd s q).
  { intros q Hq. destruct q as [| |k| | |]; try done. unfold s', rd, page_find, page_store in *. simpl in *. destruct (decide (index = k)) as [<-|Ne].
    - rewrite tree_store_same by done. rewrite Hd. simpl. by rewrite Hf.
    - rewrite tree_store_other; [done|done|]. intros E. apply Ne. by apply index_ok_same. }
  assert (P : ∀ k, page_exists s' k ↔ page_exists s k) by (intros k; apply store_exists; [done|by exists d]).
  assert (Pd : ∀ k, page_dom s' k ↔ page_dom s k) by (intros k; unfold page_dom; by rewrite P).
  assert (HI' : cache_inv s' v).
  { destruct HLa as [B1 B2 B3 B4 B5 B6 B7 B8 B9], HLi as [C1 C2 C3 C4 C5 C6], HC as [G1 G2 G3 G4].
    split; [by apply tree_store_ok|by split|..|by split|done|].
    - split; try done.
      + intros k i n Hk. apply C2. by apply Pd.
      + intros i t n k Hi' Ht Ho. apply Pd. by eapply C3.
      + intros k Hk. rewrite P. by apply C4.
    - eapply hash_frame; [|exact HH]. intros q Hq. apply R. destruct q; simpl in *; tauto.
    - eapply page_frame; [..|exact HP]; [intros q Hq Ho; by apply R|done].
    - eapply jump_frame; [|exact HJ]. intros q Hq. apply R. destruct q; simpl in *; tauto.
    - intros k Hk. apply HG. by apply Pd. }
  split; [done|]. split; try done; [set_solver|..].
  - intros k. symmetry. apply filter_id_all. set_solver.
  - intros HB k bm Hk Hbm. apply (bitmap_of_ext s); [done|]. destruct (store_bm s index d d' k Hok Hd) as [(E1 & E2 & E3)|[E1 Ne]]; fold s' in E1; rewrite E1 in Hbm; [|by apply HB].
    apply index_ok_same in E3; [|done..]. subst k. destruct (Hb bm Hbm) as [Hb'|Hb']; [apply HB; congruence|done].
Qed.

(** Dirty flags of a page without code. *)
Lemma unprotect_ok s v start : cache_inv s v → in_width 64 start → (∃ b, owner start (tb_ram s) b) → v_page v (Z.shiftr start TARGET_PAGE_BITS) = [] →
  ∃ s', tlb_unprotect_code_phys start s = Ok () s' ∧ shrunk ∅ s s' v v ∧ tb_rr s' = tb_rr s ∧ tb_cpu s' = tb_cpu s.
Proof.
  intros HI Hw [b Hb] Hnil. pose proof HI as [Hok HLa HLi HH HP HJ HC HR HG]. destruct (owner_dirty _ _ _ HR Hw Hb) as [f Hf].
  assert (Hi0 : 0 ≤ Z.shiftr start TARGET_PAGE_BITS) by (apply Z.shiftr_nonneg; unfold in_width in Hw; lia).
  unfold tlb_unprotect_code_phys, in_tb_ram, cpu_physical_memory_set_dirty_flags, set_dirty_byte, cpu_physical_memory_get_dirty_flags, page_index.
  rewrite bind_assoc, bind_gets. rewrite (bind_Ok _ _ _ _ _ (at_idx_ok _ _ _ _ Hi0 Hf)). unfold modify.
  eexists. split; [reflexivity|]. split; [|done]. set (r := set_phys_dirty _ (tb_ram s)). set (s' := set_tb_ram r s).
  assert (HR' : ram_ok r).
  { destruct HR as [R1 R2 R3 R4 R5 R6]. split; try done; unfold r; cbn [phys_dirty set_phys_dirty]; [by rewrite length_insert|].
    apply Forall_insert; [done|]. apply wrap_in_width. lia. }
  assert (HG' : guarded s' v).
  { intros k Hk Hne. destruct (HG k Hk Hne) as (g & Hg & Hz). exists g. split; [|done]. unfold s', r. simpl. rewrite list_lookup_insert_ne; [done|].
    intros E. apply Hne. apply Z2Nat.inj in E; [by rewrite <-E|done|]. destruct Hk as [[Hk _] _]. exact Hk. }
  assert (HI' : cache_inv s' v).
  { destruct HLa as [B1 B2 B3 B4 B5 B6 B7 B8 B9], HLi as [C1 C2 C3 C4 C5 C6], HC as [G1 G2 G3 G4]. by split; [|split|split|..|split| |]. }
  split; try done; [set_solver|..].
  - intros k. symmetry. apply filter_id_all. set_solver.
  - by apply bitmaps_keep.
Qed.
End Range.
