(* ===== verification/TBFast.v ===== *)
(** * The bitmap of a page and the fast path of writes

    The page's bitmap marks exactly the bytes its blocks cover, so a write that
    meets no bit touches no block. *)

From S2P Require Import Prelude CFile CString HostMem RamList Radix PhysPages RRTypes PandaCallbacks.
From S2P Require Import RRState RRReplay TBCache TBLists TBInv TBRemove TBInsert TBGen TBBitmap TBShape TBFind TBHost TBChain TBRange.
From stdpp Require Import functions list.
Local Open Scope Z_scope.

Section Fast.
Context `{PhysSpace} `{TargetLong} {Regs : Type} `{!Translator Regs} `{!SpaceOk L1_MAP_ADDR_SPACE_BITS} `{!TargetLongOk} `{!FetchLaws Regs}.
Implicit Types (s : tb_state Regs) (p q : slot) (i j n tb : nat) (v : view) (t : TranslationBlock) (x y : nat * nat) (m : smc).

Lemma shaped_shrunk D s s' v v' : shrunk D s s' v v' → shaped s v → shaped s' v'.
Proof. intros Sh Hs i t. rewrite (sh_data _ _ _ _ _ Sh), (sh_live _ _ _ _ _ Sh). intros Hi. apply Hs. set_solver. Qed.

Lemma second_end t : block_shape t → (page_addr t).2 ≠ NO_PAGE →
  page_offset_of (wrap target_long_bits (tb_pc t + tb_size t)) = tb_pc t mod 4096 + tb_size t - 4096.
Proof.
  intros [Sz Pc P0 P1] Hne. rewrite decide_False in P1 by done. unfold page_offset_of. rewrite page_offset, wrap_long_mod.
  change TARGET_PAGE_SIZE with 4096 in Sz. pose proof (Z.div_mod (tb_pc t) 4096 ltac:(lia)). pose proof (Z.mod_pos_bound (tb_pc t) 4096 ltac:(lia)).
  symmetry. apply (Z.mod_unique_pos _ _ (tb_pc t / 4096 + 1)); lia.
Qed.

(** The two ways the code computes a block's bytes on a page agree. *)
Lemma phys_page_range t n (index : Z) : block_shape t → on_page t n index → (n < 2)%nat →
  ∀ offset len, 0 ≤ offset < 4096 → 0 < len → overlaps t n (4096 * index + offset) (4096 * index + offset + len) ↔
    ∃ k, offset ≤ k < offset + len ∧ covers t n k.
Proof.
  intros Hs (a & Ha & Hne & Ei) Hn offset len Ho Hl. pose proof Hs as [Sz Pc [P0 P0'] P1]. change TARGET_PAGE_SIZE with 4096 in Sz.
  pose proof (Z.mod_pos_bound (tb_pc t) 4096 ltac:(lia)) as M. rewrite Z.shiftr_div_pow2 in Ei by done. change (2 ^ TARGET_PAGE_BITS) with 4096 in Ei.
  unfold overlaps, covers, phys_range, page_range. destruct n as [|[|n]]; [| |lia]; injection Ha as Ha.
  - rewrite !decide_True by done. cbn [fst snd]. unfold tb_phys_pc, page_offset_of. rewrite page_offset. change TARGET_PAGE_SIZE with 4096.
    pose proof (Z.div_mod a 4096 ltac:(lia)) as Da. rewrite <-Ha in *. rewrite Ei in Da.
    rewrite !(wrap_small 64) by (rewrite ?(wrap_small 64) by (unfold in_width; lia); unfold in_width; lia).
    split.
    + intros [H1' H2']. exists (Z.max offset (tb_pc t mod 4096)). lia.
    + intros (k & Hk1 & Hk2). lia.
  - rewrite !decide_False by done. cbn [fst snd]. rewrite (second_end t Hs) by congruence. rewrite decide_False in P1 by congruence. destruct P1 as [[P1 P1'] P2].
    pose proof (Z.div_mod a 4096 ltac:(lia)) as Da. rewrite <-Ha in *. rewrite Ei in Da. rewrite wrap_small by (unfold in_width; lia). split.
    + intros [H1' H2']. exists offset. lia.
    + intros (k & Hk1 & Hk2). lia.
Qed.

(** ** Building the bitmap *)

Lemma page_range_bounds t n : block_shape t → let '(a, b) := page_range t n in 0 ≤ a ∧ a ≤ b ∧ b ≤ 4096.
Proof.
  intros [Sz Pc [P0 P0'] P1]. change TARGET_PAGE_SIZE with 4096 in Sz. unfold page_range, page_offset_of. rewrite !page_offset. change TARGET_PAGE_SIZE with 4096.
  pose proof (Z.mod_pos_bound (tb_pc t) 4096 ltac:(lia)). pose proof (Z.mod_pos_bound (wrap target_long_bits (tb_pc t + tb_size t)) 4096 ltac:(lia)).
  destruct (decide (n = 0%nat)); lia.
Qed.

Lemma bitmap_loop_ok s fuel : ∀ p l l0 bm, chain nx_page (rd s) p l None → (∀ x, x ∈ l → ∃ t, data s x.1 = Some t ∧ block_shape t) →
  (length l < fuel)%nat → bitmap_of s l0 bm →
  ∃ bm', bitmap_loop fuel (first_ptr l None) bm s = Ok bm' s ∧ bitmap_of s (l0 ++ l) bm'.
Proof.
  induction fuel as [|fuel IH]; intros p l l0 bm Hc Hd Hf Hb; [lia|]. destruct l as [|[i n] l].
  { exists bm. rewrite app_nil_r. done. }
  destruct Hc as [Hp Hc]. destruct (Hd (i, n) ltac:(left)) as (t' & Ht' & Hs'). pose proof Ht' as Ht. unfold data in Ht. cbn [fst] in *. apply fmap_Some in Ht as (t & Ht & ->).
  cbn [bitmap_loop first_ptr]. rewrite (bind_Ok _ _ _ _ _ (tb_at_ok _ _ _ Ht)). pose proof (page_range_bounds (tb_data t) n Hs') as Hr.
  change (page_range (tb_data t) n) with (page_range t n) in Hr. destruct (page_range t n) as [a b] eqn:Er. destruct Hr as (R1 & R2 & R3).
  destruct Hb as [BL BB BK]. destruct (set_bits_ok bm a (b - a) BB R1 ltac:(lia) ltac:(lia)) as (bm1 & E1 & L1 & F1 & B1). rewrite E1.
  pose proof (chain_first _ _ _ _ _ Hc) as Hnx. change (nx_page (i, n)) with (SPageNext i n) in Hnx. rewrite (bind_Ok _ _ _ _ _ (ld_ok _ _ _ Hnx)).
  destruct (IH _ l (l0 ++ [(i, n)]) bm1 Hc) as (bm' & E & Hb'); [intros x Hx; apply Hd; by right|simpl in Hf; lia| |].
  { split; [congruence|done|]. intros k Hk. rewrite B1, orb_true_iff, BK, bool_decide_eq_true by lia. split.
    - intros [(x & u & Hx & Hu & Hcv)|Hk'].
      + exists x, u. set_solver.
      + exists (i, n), (tb_data t). split; [set_solver|]. split; [done|]. change (covers t n k). unfold covers. rewrite Er. cbn [fst snd]. lia.
    - intros (x & u & Hx & Hu & Hcv). apply elem_of_app in Hx as [Hx| ->%list_elem_of_singleton]; [left; eauto|right]. cbn [fst snd] in *.
      assert (u = tb_data t) as -> by congruence. change (covers t n k) in Hcv. unfold covers in Hcv. rewrite Er in Hcv. cbn [fst snd] in Hcv. lia. }
  exists bm'. split; [done|]. by rewrite <-app_assoc in Hb'.
Qed.

Lemma no_bits s : bitmap_of s [] (replicate (Z.to_nat (TARGET_PAGE_SIZE / 8)) 0).
Proof.
  split.
  - done.
  - by apply Forall_replicate.
  - intros k Hk. split; [|by intros (x & t & Hx%not_elem_of_nil & _)]. unfold bit_at. rewrite lookup_replicate_2; [by rewrite Z.bits_0|].
    change (Z.to_nat (TARGET_PAGE_SIZE / 8)) with 512%nat. assert (k / 8 < 512) by (apply Z.div_lt_upper_bound; lia). assert (0 ≤ k / 8) by (apply Z.div_pos; lia). lia.
Qed.
Lemma page_listed s v index x : cache_inv s v → page_dom s index → x ∈ v_page v index → x.1 ∈ v_live v ∧ ∃ t, data s x.1 = Some t ∧ on_page t x.2 index ∧ (x.2 < 2)%nat.
Proof.
  intros HI Hdom Hx. destruct x as [i n]. pose proof (fam_elt _ _ _ _ _ _ _ (ci_page _ _ HI) index _ Hdom Hx) as He.
  apply (li_page _ _ (ci_listed _ _ HI) index i n Hdom) in Hx as (Hi & t & Ht & Ho). split; [done|]. by exists t.
Qed.

Lemma build_page_bitmap_ok s v index : cache_inv s v → shaped s v → page_dom s index →
  ∃ d bm, page_find (l1_map s) index = Some d ∧ build_page_bitmap index s = Ok () (set_l1_map (page_store (l1_map s) index (set_code_bitmap (Some bm) d)) s) ∧
    bitmap_of s (v_page v index) bm.
Proof.
  intros HI Hs Hdom. pose proof Hdom as [_ [d Hd]]. pose proof (fam_chain _ _ _ _ _ _ _ (ci_page _ _ HI) index Hdom) as Hc.
  pose proof (chain_first _ _ _ _ _ Hc) as Hf. unfold rd in Hf. rewrite Hd in Hf. injection Hf as Hf.
  destruct (bitmap_loop_ok s (S (S (2 * length (tbs s)))) (SFirst index) (v_page v index) [] (replicate (Z.to_nat (TARGET_PAGE_SIZE / 8)) 0) Hc) as (bm & E & Hbm).
  - intros x Hx. destruct (page_listed s v index x HI Hdom Hx) as (Hi & t & Ht & _). exists t. split; [done|]. by eapply Hs.
  - pose proof (page_length s v index (ci_listed _ _ HI) (ci_page _ _ HI) Hdom). lia.
  - apply no_bits.
  - exists d, bm. split; [done|]. split; [|done]. unfold build_page_bitmap, page_at, list_fuel. rewrite bind_assoc, bind_gets, Hd. rewrite bind_nonnull, bind_gets, Hf.
    rewrite (bind_Ok _ _ _ _ _ E). by apply upd_page_ok.
Qed.

(** ** A write that meets no bit *)

Lemma untouched s v index offset len bm : cache_inv s v → shaped s v → page_dom s index → bitmap_of s (v_page v index) bm →
  0 ≤ offset < 4096 → 0 < len → offset + len ≤ 4096 →
  (∀ k, offset ≤ k < offset + len → bit_at bm k = false) ↔ touched_set s (4096 * index + offset) (4096 * index + offset + len) (v_page v index) = ∅.
Proof.
  intros HI Hs Hdom [_ _ HB] Ho Hl Hol. unfold touched_set. split.
  - intros Hk. apply set_eq. intros i. split; [|set_solver]. intros Hi. apply elem_of_list_to_set, list_elem_of_fmap in Hi as (x & -> & Hx).
    apply list_elem_of_filter in Hx as [(t & Ht & Hov) Hx]. destruct (page_listed s v index x HI Hdom Hx) as (Hi & t' & Ht' & Hon & Hn). assert (t' = t) as -> by congruence.
    apply (phys_page_range t x.2 index) in Hov as (k & Hk1 & Hk2); [|by eapply Hs|done..]. specialize (Hk k Hk1).
    assert (bit_at bm k = true) by (apply HB; [lia|]; exists x, t; done). congruence.
  - intros He k Hk. apply not_true_iff_false. intros Hb. apply HB in Hb as (x & t & Hx & Ht & Hc); [|lia].
    destruct (page_listed s v index x HI Hdom Hx) as (Hi & t' & Ht' & Hon & Hn). assert (t' = t) as -> by congruence.
    assert (Hin : x.1 ∈ (∅ : gset nat)); [|set_solver]. rewrite <-He. apply elem_of_list_to_set, list_elem_of_fmap. exists x. split; [done|].
    apply list_elem_of_filter. split; [|done]. exists t. split; [done|]. apply (phys_page_range t x.2 index); [by eapply Hs|done..|]. by exists k.
Qed.

(** The test of [tb_invalidate_phys_page_fast]: the bits of the bytes written. *)
Lemma fast_test bm offset len : Forall (in_width 8) bm → 0 ≤ offset → len ∈ [1; 2; 4; 8] → offset mod len = 0 → offset + len ≤ 8 * Z.of_nat (length bm) →
  ∃ b, bm !! Z.to_nat (Z.shiftr offset 3) = Some b ∧
    (Z.land (Z.shiftr b (Z.land offset 7)) (Z.shiftl 1 len - 1) = 0 ↔ ∀ k, offset ≤ k < offset + len → bit_at bm k = false).
Proof.
  intros HF Ho Hlen Hal Hb. rewrite shiftr3, land7.
  assert (Hin : offset mod 8 + len ≤ 8 ∧ 1 ≤ len ≤ 8).
  { pose proof (Z.div_mod offset 8 ltac:(lia)). pose proof (Z.mod_pos_bound offset 8 ltac:(lia)).
    assert (len = 1 ∨ len = 2 ∨ len = 4 ∨ len = 8) as [-> | [-> | [-> | ->]]] by set_solver; [lia|..];
      [pose proof (Z.div_mod offset 2 ltac:(lia))|pose proof (Z.div_mod offset 4 ltac:(lia))|]; lia. }
  pose proof (Z.div_mod offset 8 ltac:(lia)) as Do. pose proof (Z.mod_pos_bound offset 8 ltac:(lia)) as Mo.
  destruct (lookup_lt_is_Some_2 bm (Z.to_nat (offset / 8)) ltac:(lia)) as [b Hbb]. exists b. split; [done|].
  assert (Hbit : ∀ j : Z, 0 ≤ j < len → bit_at bm (offset + j) = Z.testbit b (offset mod 8 + j)).
  { intros j Hj. unfold bit_at. assert (E1 : (offset + j) / 8 = offset / 8) by (symmetry; apply (Z.div_unique_pos _ _ _ (offset mod 8 + j)); lia).
    assert (E2 : (offset + j) mod 8 = offset mod 8 + j) by (symmetry; apply (Z.mod_unique_pos _ _ (offset / 8)); lia). by rewrite E1, E2, Hbb. }
  assert (Ez : Z.shiftl 1 len - 1 = Z.ones len) by (rewrite Z.ones_equiv, Z.shiftl_1_l; lia). rewrite Ez. split.
  - intros E k Hk. replace k with (offset + (k - offset)) by lia. rewrite Hbit by lia.
    assert (Ht : Z.testbit (Z.land (Z.shiftr b (offset mod 8)) (Z.ones len)) (k - offset) = false) by (by rewrite E, Z.bits_0).
    rewrite Z.land_spec, Z.shiftr_spec, Z.ones_spec_low, andb_true_r in Ht by lia. rewrite <-Ht. f_equal. lia.
  - intros Hk. apply Z.bits_inj'. intros j Hj. rewrite Z.bits_0, Z.land_spec, Z.shiftr_spec by lia. destruct (decide (j < len)) as [Hlt|Hge].
    + rewrite Z.ones_spec_low, andb_true_r by lia. replace (j + offset mod 8) with (offset mod 8 + j) by lia. rewrite <-Hbit by lia. apply Hk. lia.
    + rewrite Z.ones_spec_high by lia. apply andb_false_r.
Qed.
(** ** The whole operation *)

Definition same_run s s' : Prop := tb_rr s' = tb_rr s ∧ tb_cpu s' = tb_cpu s.

Lemma shrunk_chain D s0 s1 s2 v0 v1 v2 : shrunk D s0 s1 v0 v1 → shrunk ∅ s1 s2 v1 v2 → shrunk D s0 s2 v0 v2.
Proof. intros A B. replace D with (D ∪ ∅) by set_solver. by eapply shrunk_trans. Qed.
Lemma chain_shrunk D s0 s1 s2 v0 v1 v2 : shrunk ∅ s0 s1 v0 v1 → shrunk D s1 s2 v1 v2 → shrunk D s0 s2 v0 v2.
Proof. intros A B. replace D with (∅ ∪ D) by set_solver. by eapply shrunk_trans. Qed.

Lemma bitmap_store_find s index d : tree_ok L1_MAP_ADDR_SPACE_BITS (l1_map s) → is_Some (page_find (l1_map s) index) →
  page_find (page_store (l1_map s) index d) index = Some d.
Proof. intros Hok [d0 Hd]. unfold page_find, page_store in *. rewrite tree_store_same by done. done. Qed.

(** The count of writes, and the bitmap when there were many. *)
Lemma count_write_ok s v index d (w : bool) : cache_inv s v → shaped s v → index_ok index → page_find (l1_map s) index = Some d →
  ∃ s1, (match code_bitmap d with
         | Some _ => mret ()
         | None =>
             let c := wrap 32 (code_write_count d + 1) in
             upd_page index (set_code_write_count c);;
             if (SMC_BITMAP_USE_THRESHOLD <=? c) && w then build_page_bitmap index else mret ()
         end) s = Ok () s1 ∧ shrunk ∅ s s1 v v ∧ same_run s s1.
Proof.
  intros HI Hs Hi Hd. destruct (code_bitmap d); [exists s; by split; [|split; [apply shrunk_same|]]|]. cbv zeta. set (c := wrap 32 _).
  rewrite (bind_Ok _ _ _ _ _ (upd_page_ok _ _ _ _ Hd)). set (s1 := set_l1_map _ s).
  destruct (page_meta_inv s v index d (set_code_write_count c d) HI Hi Hd eq_refl ltac:(by left)) as [HI1 Sh1]. fold s1 in HI1, Sh1.
  destruct (_ && w); [|by exists s1].
  assert (Hdom : page_dom s1 index).
  { split; [done|]. unfold page_exists, s1. simpl. rewrite bitmap_store_find; [done|apply HI|by exists d]. }
  destruct (build_page_bitmap_ok s1 v index HI1 ltac:(by eapply shaped_shrunk) Hdom) as (d1 & bm & Hd1 & E & Hbm). rewrite E.
  destruct (page_meta_inv s1 v index d1 (set_code_bitmap (Some bm) d1) HI1 Hi Hd1 eq_refl ltac:(intros ? [= <-]; by right)) as [_ Sh2].
  eexists. split; [done|]. split; [by eapply shrunk_chain|done].
Qed.

(** When no block is left the bitmap goes, and after a write of the CPU the page is
    written without a check again. *)
Lemma page_empty_ok s v start (w : bool) : cache_inv s v → page_dom s (Z.shiftr start TARGET_PAGE_BITS) → in_width 64 start →
  (w = true → single_env s = true ∧ ∃ b, owner start (tb_ram s) b) →
  ∃ s1, (f ← ld (SFirst (Z.shiftr start TARGET_PAGE_BITS));
         match f with
         | Some _ => mret ()
         | None =>
             upd_page (Z.shiftr start TARGET_PAGE_BITS) invalidate_page_bitmap;;
             if w then e ← gets (λ s, cpu_single_env (tb_rr s)); assert_or Segv e;; tlb_unprotect_code_phys start else mret ()
         end) s = Ok () s1 ∧ shrunk ∅ s s1 v v ∧ same_run s s1.
Proof.
  intros HI Hdom Hw Ht. set (index := Z.shiftr start TARGET_PAGE_BITS) in *. pose proof (chain_first _ _ _ _ _ (fam_chain _ _ _ _ _ _ _ (ci_page _ _ HI) index Hdom)) as Hf.
  rewrite (bind_Ok _ _ _ _ _ (ld_ok _ _ _ Hf)). destruct (v_page v index) as [|x l] eqn:El; simpl.
  2: { exists s. split; [done|]. split; [by apply shrunk_same|done]. }
  pose proof Hdom as [Hi [d Hd]]. rewrite (bind_Ok _ _ _ _ _ (upd_page_ok _ _ _ _ Hd)).
  destruct (page_meta_inv s v index d (invalidate_page_bitmap d) HI Hi Hd eq_refl ltac:(done)) as [HI1 Sh1]. set (s1 := set_l1_map _ s) in *.
  destruct w; [|by exists s1]. destruct (Ht eq_refl) as [He Hb]. rewrite bind_gets, (bind_Ok _ _ _ _ _ (assert_true _ _ s1 He)).
  destruct (unprotect_ok s1 v start HI1 Hw Hb El) as (s2 & E2 & Sh2 & R1 & R2). exists s2. split; [done|]. split; [by eapply shrunk_chain|].
  unfold same_run. rewrite R1, R2. done.
Qed.

(** A write by a device. *)
Lemma range_device_ok s v start end_ : cache_inv s v → shaped s v → current_ok s v → callbacks_ok s → in_width 64 start →
  let index := Z.shiftr start TARGET_PAGE_BITS in index_ok index → one_part (v_page v index) →
  ∃ s' v', tb_invalidate_phys_page_range start end_ false s = Ok (Some ()) s' ∧ shrunk (touched_set s start end_ (v_page v index)) s s' v v' ∧
    cpu_kept s s' ∧ current_ok s' v'.
Proof.
  intros HI Hs Hc Hcb Hw index Hi Hone. unfold tb_invalidate_phys_page_range. fold index. rewrite bind_gets.
  destruct (page_find (l1_map s) index) as [d|] eqn:Hd.
  2: { assert (Hnil : v_page v index = []) by (apply (li_page_none _ _ (ci_listed _ _ HI)); [done|]; unfold page_exists; rewrite Hd; by intros []).
       exists s, v. rewrite Hnil. split; [done|]. split; [by apply shrunk_same|]. done. }
  destruct (count_write_ok s v index d false HI Hs Hi Hd) as (s1 & E1 & Sh1 & R1 & R1'). rewrite (bind_Ok _ _ _ _ _ E1).
  pose proof Sh1 as [HI1 _ _ D1 L1 P1 _ _ _ _ _ _]. assert (Hdom1 : page_dom s1 index) by (split; [done|]; apply P1; by exists d).
  pose proof (chain_first _ _ _ _ _ (fam_chain _ _ _ _ _ _ _ (ci_page _ _ HI1) index Hdom1)) as Hf. rewrite (bind_Ok _ _ _ _ _ (ld_ok _ _ _ Hf)).
  unfold list_fuel. rewrite bind_gets.
  destruct (invalidate_loop_ok index start end_ (S (S (2 * length (tbs s1)))) (v_page v index) s1 v [] no_smc HI1 Hdom1) as (m' & s2 & v2 & E2 & Sh2 & _ & Hc2 & He2 & Hno & _).
  { done. } { done. } { pose proof (page_length s1 v index (ci_listed _ _ HI1) (ci_page _ _ HI1) Hdom1). lia. }
  { split_and!; [unfold callbacks_ok; by rewrite R1|done|done|done]. } { unfold current_ok, single_env in *. by rewrite R1, R1'. }
  destruct (Hno eq_refl) as [-> Ck]. unfold no_smc in E2. rewrite (bind_Ok _ _ _ _ _ E2).
  pose proof (sh_inv _ _ _ _ _ Sh2) as HI2. assert (Hdom2 : page_dom s2 index) by (split; [done|]; apply (sh_pages _ _ _ _ _ Sh2); apply Hdom1).
  destruct (page_empty_ok s2 v2 start false HI2 Hdom2 Hw ltac:(done)) as (s3 & E3 & Sh3 & R3 & R3'). fold index in E3. rewrite <-bind_assoc, (bind_Ok _ _ _ _ _ E3).
  exists s3, v2. split; [done|]. split_and!.
  - eapply shrunk_chain; [|exact Sh3]. replace (touched_set s start end_ (v_page v index)) with (touched_set s1 start end_ (v_page v index)).
    + by eapply chain_shrunk.
    + unfold touched_set. do 2 f_equal. apply filter_iff_in. intros x _. unfold touched. by rewrite D1.
  - destruct Ck as (C1 & C2 & C3). split_and!; congruence.
  - unfold current_ok, single_env in *. by rewrite R3, R3'.
Qed.
(** ** Writes by the CPU *)

Context `{!TranslatorLaws Regs}.

(** After [cpu_resume_from_signal]. *)
Definition resumed s : tb_state Regs := set_tb_rr (set_rr_record_in_progress false (tb_rr s)) s.

(** What a write leaves. The blocks of [D], those it touches, are gone. Where the
    block that made the access is one of them, the registers are those of the
    instruction that writes, a block of one instruction has been translated for that
    state of the CPU, and control has left the write; otherwise it returns. *)
Definition written (D : gset nat) s s' v v' (o : option ()) : Prop :=
  ∃ s1 v1, shrunk D s s1 v v1 ∧
    match o with
    | Some _ => s' = s1 ∧ v' = v1 ∧ cpu_regs (tb_cpu s') = cpu_regs (tb_cpu s) ∧ ∀ c t, ¬ self_modified D s c t
    | None =>
        (∃ c t, self_modified D s c t ∧ cpu_regs (tb_cpu s1) = restore_state (cpu_regs (tb_cpu s)) t (mem_io_pc (tb_cpu s))) ∧
        let '(pc, cs_base, flags) := cpu_get_tb_cpu_state (cpu_regs (tb_cpu s1)) in
        ∃ v2 s2 ob, generated s1 s2 v1 v2 v' pc cs_base flags 1 ob ∧
          s' = match ob with Some _ => resumed s2 | None => s2 end
    end.

(** It returns unless it overwrites the block it is in. *)
Lemma written_leaves D s s' v v' o : written D s s' v v' o → o = None ↔ ∃ c t, self_modified D s c t.
Proof.
  intros (s1 & v1 & _ & Ho). destruct o as [u|].
  - destruct Ho as (_ & _ & _ & Hn). split; [done|]. intros (c & t & Hc). by destruct (Hn c t).
  - destruct Ho as [(c & t & Hc & _) _]. split; [|done]. intros _. by exists c, t.
Qed.

(** The end of the operation, after the list has been walked. *)
Lemma resume_ok s0 D s v0 v m : shrunk D s0 s v0 v → buffer_ok s → code_in_ram s → smc_at s0 D s m →
  ∃ o s', (match smc_modified m with
           | None => mret (Some ())
           | Some (pc, cs_base, flags) =>
               upd_cpu (set_current_tb None);;
               o ← tb_gen_code pc cs_base flags 1;
               match o with None => mret None | Some _ => cpu_resume_from_signal;; mret None end
           end) s = Ok o s' ∧ ∃ v', written D s0 s' v0 v' o.
Proof.
  intros Sh HB HF [_ _ Hm]. destruct (smc_modified m) as [[[pc cs_base] flags]|].
  2: { exists (Some ()), s. split; [done|]. exists v, s, v. split; [done|]. by destruct Hm. }
  destruct Hm as [Er Hc]. unfold upd_cpu. rewrite bind_modify. pose proof (set_current_same s None) as Es. set (s1 := set_tb_cpu _ s) in *.
  pose proof (sh_inv _ _ _ _ _ Sh) as HI. assert (HI1 : cache_inv s1 v) by (by rewrite <-Es). assert (HB1 : buffer_ok s1) by (by rewrite <-Es).
  destruct (tb_gen_code_ok s1 v pc cs_base flags 1 HI1 HB1 ltac:(done)) as (o & s2 & v2 & v' & E & G). rewrite (bind_Ok _ _ _ _ _ E).
  assert (Sh1 : shrunk D s0 s1 v0 v) by (eapply shrunk_chain; [exact Sh|by apply shrunk_same]).
  assert (Hw : ∀ s', s' = match o with Some _ => resumed s2 | None => s2 end → written D s0 s' v0 v' None).
  { intros s' Es'. exists s1, v. split; [done|]. split; [exact Hc|]. change (cpu_regs (tb_cpu s1)) with (cpu_regs (tb_cpu s)). rewrite <-Er. by exists v2, s2, o. }
  destruct o as [tb|]; [|by exists None, s2; split; [|exists v'; apply Hw]]. unfold cpu_resume_from_signal. erewrite bind_Ok by (unfold in_tb_rr, modify; reflexivity).
  eexists None, _. split; [done|]. exists v'. by apply Hw.
Qed.

Lemma shrunk_buffer D s s' v v' : shrunk D s s' v v' → buffer_ok s → buffer_ok s'.
Proof. intros Sh [A B C E F]. pose proof (sh_sizes _ _ _ _ _ Sh) as Es. unfold sizes in Es. injection Es as E1 E2 E3 E4 E5 E6. split; congruence. Qed.
Lemma shrunk_code D s s' v v' : shrunk D s s' v v' → code_in_ram s → code_in_ram s'.
Proof.
  intros Sh HF a ph. rewrite (sh_fetch _ _ _ _ _ Sh). intros Ha. destruct (HF a ph Ha) as (A & B & C & D' & E & b & F).
  split; [done|]. split; [done|]. split_and!; try done. exists b. unfold owner in *. by rewrite (sh_ram _ _ _ _ _ Sh).
Qed.
Lemma shrunk_owner D s s' v v' a : shrunk D s s' v v' → (∃ b, owner a (tb_ram s) b) → ∃ b, owner a (tb_ram s') b.
Proof. intros Sh [b Hb]. exists b. unfold owner in *. by rewrite (sh_ram _ _ _ _ _ Sh). Qed.

Lemma written_nothing s v : cache_inv s v → written ∅ s s v v (Some ()).
Proof. intros HI. exists s, v. split; [by apply shrunk_same|]. split_and!; try done. intros c t (_ & Hc & _). set_solver. Qed.
Lemma smc_at_start s s1 : tb_cpu s1 = tb_cpu s → smc_at s ∅ s1 (mkSmc true None None).
Proof. intros E. split; [by rewrite E|done|]. simpl. split; [by rewrite E|]. intros c t (_ & Hc & _). set_solver. Qed.

Lemma range_write_ok s v start end_ : cache_inv s v → shaped s v → buffer_ok s → code_in_ram s → callbacks_ok s → current_ok s v →
  single_env s = true → in_width 64 start → (∃ b, owner start (tb_ram s) b) →
  let index := Z.shiftr start TARGET_PAGE_BITS in index_ok index → one_part (v_page v index) →
  ∃ o s' v', tb_invalidate_phys_page_range start end_ true s = Ok o s' ∧ written (touched_set s start end_ (v_page v index)) s s' v v' o.
Proof.
  intros HI Hs HB HF Hcb Hc He Hw Hb index Hi Hone. unfold tb_invalidate_phys_page_range. fold index. rewrite bind_gets.
  destruct (page_find (l1_map s) index) as [d|] eqn:Hd.
  2: { assert (Hnil : v_page v index = []) by (apply (li_page_none _ _ (ci_listed _ _ HI)); [done|]; unfold page_exists; rewrite Hd; by intros []).
       exists (Some ()), s, v. rewrite Hnil. split; [done|]. by apply written_nothing. }
  destruct (count_write_ok s v index d true HI Hs Hi Hd) as (s1 & E1 & Sh1 & R1 & R1'). rewrite (bind_Ok _ _ _ _ _ E1).
  pose proof Sh1 as [HI1 _ _ D1 L1 P1 _ _ _ _ _ _]. assert (Hdom1 : page_dom s1 index) by (split; [done|]; apply P1; by exists d).
  pose proof (chain_first _ _ _ _ _ (fam_chain _ _ _ _ _ _ _ (ci_page _ _ HI1) index Hdom1)) as Hf. rewrite (bind_Ok _ _ _ _ _ (ld_ok _ _ _ Hf)).
  unfold list_fuel. rewrite bind_gets. assert (He1 : single_env s1 = true) by (unfold single_env in *; by rewrite R1).
  destruct (invalidate_loop_ok index start end_ (S (S (2 * length (tbs s1)))) (v_page v index) s1 v [] (mkSmc true None None) HI1 Hdom1) as (m' & s2 & v2 & E2 & Sh2 & Hm2 & Hc2 & He2 & _ & Hat2).
  { done. } { done. } { pose proof (page_length s1 v index (ci_listed _ _ HI1) (ci_page _ _ HI1) Hdom1). lia. }
  { split_and!; [unfold callbacks_ok; by rewrite R1|done|done|done]. } { unfold current_ok, single_env in *. by rewrite R1, R1'. }
  rewrite (bind_Ok _ _ _ _ _ E2). assert (ED : touched_set s1 start end_ (v_page v index) = touched_set s start end_ (v_page v index)).
  { unfold touched_set. do 2 f_equal. apply filter_iff_in. intros x _. unfold touched. by rewrite D1. }
  rewrite ED in Sh2, Hat2. assert (Sh02 : shrunk (touched_set s start end_ (v_page v index)) s s2 v v2) by (by eapply chain_shrunk).
  specialize (Hat2 s v ∅ HI Sh1 (smc_at_start s s1 R1')). rewrite union_empty_l_L in Hat2.
  pose proof (sh_inv _ _ _ _ _ Sh2) as HI2. assert (Hdom2 : page_dom s2 index) by (split; [done|]; apply (sh_pages _ _ _ _ _ Sh2); apply Hdom1).
  destruct (page_empty_ok s2 v2 start true HI2 Hdom2 Hw) as (s3 & E3 & Sh3 & R3 & R3').
  { intros _. split; [congruence|]. by eapply shrunk_owner. }
  fold index in E3. rewrite <-bind_assoc, (bind_Ok _ _ _ _ _ E3). assert (Sh03 : shrunk (touched_set s start end_ (v_page v index)) s s3 v v2) by (by eapply shrunk_chain).
  destruct (resume_ok s _ s3 v v2 m' Sh03) as (o & s' & E4 & v' & W); [by eapply shrunk_buffer|by eapply shrunk_code|by apply (smc_at_cpu s _ s2); [..|rewrite R3'|rewrite R3']|].
  exists o, s', v'. split; [exact E4|done].
Qed.

(** The fast path is the full operation, unless the write touches no block. *)
Lemma fast_cases s v start len : cache_inv s v → shaped s v → len ∈ [1; 2; 4; 8] → start mod len = 0 → 0 ≤ start < 2 ^ 64 - 8 →
  let index := Z.shiftr start TARGET_PAGE_BITS in index_ok index → bitmaps s v →
  tb_invalidate_phys_page_fast start len s = tb_invalidate_phys_page_range start (start + len) true s ∨
  (touched_set s start (start + len) (v_page v index) = ∅ ∧ tb_invalidate_phys_page_fast start len s = Ok (Some ()) s).
Proof.
  intros HI Hs Hlen Hal Hst index Hi Hbm. assert (Hl8 : 1 ≤ len ≤ 8) by (assert (len = 1 ∨ len = 2 ∨ len = 4 ∨ len = 8) by set_solver; lia).
  unfold tb_invalidate_phys_page_fast. rewrite bind_gets. fold index. rewrite (wrap_small 64 (start + len)) by (unfold in_width; lia).
  destruct (page_find (l1_map s) index) as [d|] eqn:Hd.
  2: { right. assert (Hnil : v_page v index = []) by (apply (li_page_none _ _ (ci_listed _ _ HI)); [done|]; unfold page_exists; rewrite Hd; by intros []).
       by rewrite Hnil. }
  destruct (code_bitmap d) as [bm|] eqn:Ebm; [|by left]. assert (Hb1 : bitmap_of s (v_page v index) bm) by (apply Hbm; [done|]; unfold bm_at; by rewrite Hd). pose proof Hb1 as [BL BB BK].
  assert (Hdom : page_dom s index) by (split; [done|]; by exists d). unfold page_offset_of. rewrite page_offset.
  pose proof (Z.div_mod start 4096 ltac:(lia)) as Ds. pose proof (Z.mod_pos_bound start 4096 ltac:(lia)) as Ms.
  assert (Ei : index = start / 4096) by (unfold index; rewrite Z.shiftr_div_pow2 by done; done).
  assert (Hol : (start mod 4096) mod len = 0 ∧ start mod 4096 + len ≤ 4096).
  { assert (Hc8 : ∃ c, 4096 = c * len) by (assert (len = 1 ∨ len = 2 ∨ len = 4 ∨ len = 8) as [-> | [-> | [-> | ->]]] by set_solver; [exists 4096|exists 2048|exists 1024|exists 512]; done).
    destruct Hc8 as [c Hc8]. assert (Em : (start mod 4096) mod len = 0) by (rewrite Z.mod_mod_divide; [done|by exists c]). split; [done|].
    pose proof (Z.div_mod (start mod 4096) len ltac:(lia)) as Dm. rewrite Em in Dm. set (q := start mod 4096 / len) in *.
    assert (q < c) by nia. nia. }
  destruct Hol as [Hal' Hol]. destruct (fast_test bm (start mod 4096) len BB ltac:(lia) Hlen Hal' ltac:(lia)) as (b & Hbb & Htest).
  assert (Hsh0 : 0 ≤ Z.shiftr (start mod 4096) 3) by (apply Z.shiftr_nonneg; lia).
  rewrite (bind_Ok _ _ _ _ _ (at_idx_ok _ _ _ _ Hsh0 Hbb)). destruct (_ =? 0) eqn:Ez; [apply Z.eqb_eq in Ez|by left]. right. split; [|done].
  pose proof (proj1 (untouched s v index (start mod 4096) len bm HI Hs Hdom Hb1 Ms ltac:(lia) Hol) (proj1 Htest Ez)) as Hu.
  by replace (4096 * index + start mod 4096) with start in Hu by lia.
Qed.

Lemma fast_write_ok s v start len : cache_inv s v → shaped s v → buffer_ok s → code_in_ram s → callbacks_ok s → current_ok s v →
  single_env s = true → (∃ b, owner start (tb_ram s) b) → len ∈ [1; 2; 4; 8] → start mod len = 0 → 0 ≤ start < 2 ^ 64 - 8 →
  let index := Z.shiftr start TARGET_PAGE_BITS in index_ok index → one_part (v_page v index) → bitmaps s v →
  ∃ o s' v', tb_invalidate_phys_page_fast start len s = Ok o s' ∧ written (touched_set s start (start + len) (v_page v index)) s s' v v' o.
Proof.
  intros HI Hs HB HF Hcb Hc He Hb Hlen Hal Hst index Hi Hone Hbm. destruct (fast_cases s v start len HI Hs Hlen Hal Hst Hi Hbm) as [E|[ED E]]; rewrite E.
  - apply range_write_ok; try done. unfold in_width. lia.
  - fold index in ED. exists (Some ()), s, v. rewrite ED. split; [done|]. by apply written_nothing.
Qed.
(** ** The invariant after a write *)

Lemma shrunk_good D s s' v v' : good s v → shrunk D s s' v v' → good s' v'.
Proof.
  intros [HI HB HR HC HM HS HBm] Sh. split.
  - apply Sh.
  - by eapply shrunk_buffer.
  - by eapply shrunk_code.
  - unfold callbacks_ok. by rewrite (sh_cbs _ _ _ _ _ Sh).
  - intros h i t Hh Ht. pose proof (lookup_weaken _ _ _ _ Hh (sh_cache _ _ _ _ _ Sh)) as Hh0. rewrite (sh_data _ _ _ _ _ Sh) in Ht.
    destruct (HM h i t Hh0 Ht) as [(ph & M1 & M2) M3]. split; [exists ph; by rewrite (sh_fetch _ _ _ _ _ Sh)|]. by rewrite (sh_fetch _ _ _ _ _ Sh).
  - by eapply shaped_shrunk.
  - by apply (sh_bitmaps _ _ _ _ _ Sh).
Qed.

Lemma written_good D s s' v v' o : good s v → written D s s' v v' o → good s' v'.
Proof.
  intros HG (s1 & v1 & Sh & Ho). pose proof (shrunk_good _ _ _ _ _ HG Sh) as HG1. destruct o as [u|]; [by destruct Ho as (-> & -> & _)|].
  destruct Ho as [_ Ho]. pose proof (fetch_pc (cpu_regs (tb_cpu s1))) as Hpc. destruct (cpu_get_tb_cpu_state _) as [[pc cs_base] flags].
  destruct Ho as (v2 & s2 & ob & G & ->). pose proof (generated_good _ _ _ _ _ _ _ _ _ _ HG1 Hpc G) as HG2.
  destruct ob; [|done]. apply (good_same s2); [by split|done|done|exact HG2].
Qed.
End Fast.
