(* ===== verification/TBSteps.v ===== *)
(** * The cache over a run

    The operations of the code cache as steps of one machine, and the invariant
    that all of them keep. *)

From S2P Require Import Prelude CFile CString HostMem RamList Radix PhysPages RRTypes PandaCallbacks.
From S2P Require Import RRState RRReplay TBCache TBLists TBInv TBRemove TBInsert TBGen TBBitmap TBShape TBFind TBHost TBChain TBRange TBFast.
From stdpp Require Import functions list relations.
Local Open Scope Z_scope.

Section Steps.
Context `{PhysSpace} `{TargetLong} {Regs : Type} `{!Translator Regs} `{!TranslatorLaws Regs} `{!SpaceOk L1_MAP_ADDR_SPACE_BITS}.
Context `{!TargetLongOk} `{!FetchLaws Regs}.
Implicit Types (s : tb_state Regs) (i j n tb : nat) (v : view) (t : TranslationBlock).

(** ** No stale code *)

(** The byte at a physical address belongs to the code of a block. *)
Definition code_byte t n (a : Z) : Prop := on_page t n (Z.shiftr a TARGET_PAGE_BITS) ∧ covers t n (a mod 4096).

Lemma page_split a : 0 ≤ a → a = 4096 * Z.shiftr a TARGET_PAGE_BITS + a mod 4096 ∧ 0 ≤ a mod 4096 < 4096.
Proof. intros Ha. rewrite Z.shiftr_div_pow2 by done. change (2 ^ TARGET_PAGE_BITS) with 4096. split; [apply Z.div_mod; lia|apply Z.mod_pos_bound; lia]. Qed.

(** After the touched blocks of a page are gone, no byte of the range is code. *)
Lemma range_cleared s s' v v' start end_ : let index := Z.shiftr start TARGET_PAGE_BITS in
  cache_inv s v → shaped s v → 0 ≤ start → end_ ≤ 4096 * index + 4096 → page_dom s index →
  shrunk (touched_set s start end_ (v_page v index)) s s' v v' →
  ∀ a i n t, start ≤ a < end_ → i ∈ v_live v' → data s' i = Some t → (n < 2)%nat → ¬ code_byte t n a.
Proof.
  intros index HI Hs H0' Hend Hdom Sh a i n t Ha Hi Ht Hn [Hon Hc]. rewrite (sh_data _ _ _ _ _ Sh) in Ht. rewrite (sh_live _ _ _ _ _ Sh) in Hi.
  destruct (page_split start H0') as [Es Ms], (page_split a ltac:(lia)) as [Ea Ma]. fold index in Es.
  assert (Eix : Z.shiftr a TARGET_PAGE_BITS = index) by lia. rewrite Eix in *. apply elem_of_difference in Hi as [Hi Hd]. apply Hd.
  unfold touched_set. apply elem_of_list_to_set, list_elem_of_fmap. exists (i, n). split; [done|]. apply list_elem_of_filter. split.
  - exists t. split; [done|]. replace start with (4096 * index + start mod 4096) by lia.
    replace end_ with (4096 * index + start mod 4096 + (end_ - start)) by lia. cbn [snd].
    apply (phys_page_range t n index); [by eapply Hs|done|done|lia|lia|]. exists (a mod 4096). split; [lia|done].
  - apply (li_page _ _ (ci_listed _ _ HI) index i n Hdom). split; [done|]. by exists t.
Qed.

(** ** The other operations keep the invariant *)

Lemma flush_good s v : good s v → ∃ s', tb_flush s = Ok () s' ∧ good s' empty_view ∧ flushed s s'.
Proof.
  intros [HI HB HR HC HM HS HBm]. destruct (tb_flush_ok s v HI HB) as (s' & E & F). exists s'. split; [done|]. split; [|done].
  pose proof F as [F1 F2 F3 F4 F5 (R1 & R2 & R3 & R4 & R5) F7 F8]. split; [done|done|..].
  - eapply code_in_ram_ext; [..|exact HR]; [by rewrite R5|by rewrite R1].
  - unfold callbacks_ok. by rewrite R2.
  - intros h i t. rewrite R5. simpl. by rewrite lookup_empty.
  - intros i t Hi. set_solver.
  - intros k bm _. by rewrite F8.
Qed.

Lemma chain_good s v tb n next t : good s v → tb ∈ v_live v → next ∈ v_live v → data s tb = Some t → has_jump t n → (n < 2)%nat →
  ∃ s' v', tb_add_jump tb n next s = Ok () s' ∧ good s' v' ∧ ∃ j, jumps_to v' (tb, n) j.
Proof.
  intros HG Hl Hn Ht Hj H2'. destruct (tb_add_jump_ok s v tb n next t (gd_inv _ _ HG) Hl Hn Ht Hj H2') as (s' & E & K & U & [[Hx ->]|[Hno HI]]).
  - exists s, v. done.
  - exists s', (add_jump (tb, n) next v). split; [done|]. split; [by eapply good_keeps|]. exists next. split; [done|]. simpl. rewrite fn_lookup_insert. left.
Qed.

Lemma interrupt_good s v mask : good s v → (∀ tb, current_tb (tb_cpu s) = Some tb → stops s v tb) →
  ∃ s' v', tcg_handle_interrupt mask s = Ok () s' ∧ good s' v' ∧ current_tb (tb_cpu s') = None ∧
    interrupt_request (tb_cpu s') = Z.lor (interrupt_request (tb_cpu s)) mask ∧
    ∀ tb i, current_tb (tb_cpu s) = Some tb → reaches v tb i → ¬ jumps_from v' i.
Proof.
  intros HG Hst. unfold tcg_handle_interrupt, upd_cpu. rewrite bind_modify. set (s1 := set_tb_cpu _ s).
  assert (Sh0 : shrunk ∅ s s1 v v) by (apply shrunk_same; [apply HG|by split|done..]).
  destruct (cpu_unlink_tb_ok s1 v (sh_inv _ _ _ _ _ Sh0)) as (s' & v' & E & Sh & (C1 & C2 & C3) & C4 & Hr & _); [exact Hst|].
  exists s', v'. split; [done|]. split_and!; [|done|by rewrite C2|exact Hr]. eapply shrunk_good; [exact HG|]. by eapply shrunk_chain.
Qed.

Lemma remap_good s v (r' : Regs) addr : good s v → in_width target_long_bits addr → remapped (cpu_regs (tb_cpu s)) r' addr →
  code_in_ram (set_tb_cpu (set_cpu_regs r' (tb_cpu s)) s) →
  ∃ s', tlb_flush_jmp_cache addr (set_tb_cpu (set_cpu_regs r' (tb_cpu s)) s) = Ok () s' ∧ good s' v ∧ cpu_regs (tb_cpu s') = r'.
Proof.
  intros [HI HB HR HC HM HS HBm] Ha Hr Hc. destruct (flush_coherent s v r' addr HI HM Ha HS Hr) as (s' & E & Hco & HI'). exists s'. split; [done|].
  destruct (flush_jmp_lookup addr (set_tb_cpu (set_cpu_regs r' (tb_cpu s)) s) 0 0%nat) as (s'' & E'' & Es & Er & _). rewrite E in E''. injection E'' as <-.
  assert (Err : tb_rr s' = tb_rr s) by (by unfold tlb_flush_jmp_cache, upd_cpu in E; rewrite bind_modify in E; injection E as <-).
  split; [|by rewrite Er]. pose proof Es as [[T1 T2] (T3 & T4 & T5 & T6) T7 [T8 T9] T10 T11 T12]. split.
  - done.
  - destruct HB. split; simpl in *; congruence.
  - eapply code_in_ram_ext; [..|exact Hc]; [done|by rewrite T12].
  - unfold callbacks_ok. by rewrite Err.
  - done.
  - intros i t Hi Ht. eapply HS; [done|]. by rewrite (same_data _ _ Es) in Ht.
  - eapply bitmaps_keep; [..|exact HBm]; [intros i; by rewrite (same_data _ _ Es)|]. intros k bm _. unfold bm_at. by rewrite T9.
Qed.
Lemma device_good s v start end_ : good s v → current_ok s v → in_width 64 start →
  let index := Z.shiftr start TARGET_PAGE_BITS in index_ok index → one_part (v_page v index) →
  ∃ s' v', tb_invalidate_phys_page_range start end_ false s = Ok (Some ()) s' ∧ good s' v' ∧
    shrunk (touched_set s start end_ (v_page v index)) s s' v v'.
Proof.
  intros HG Hc Hw index Hi Hone. destruct (range_device_ok s v start end_ (gd_inv _ _ HG) (gd_shaped _ _ HG) Hc (gd_callbacks _ _ HG) Hw Hi Hone) as (s' & v' & E & Sh & _ & _).
  exists s', v'. split; [done|]. split; [by eapply shrunk_good|done].
Qed.

Lemma write_good s v start len : good s v → current_ok s v → single_env s = true → (∃ b, owner start (tb_ram s) b) →
  len ∈ [1; 2; 4; 8] → start mod len = 0 → 0 ≤ start < 2 ^ 64 - 8 →
  let index := Z.shiftr start TARGET_PAGE_BITS in index_ok index → one_part (v_page v index) →
  ∃ o s' v', tb_invalidate_phys_page_fast start len s = Ok o s' ∧ good s' v' ∧
    written (touched_set s start (start + len) (v_page v index)) s s' v v' o.
Proof.
  intros HG Hc He Hb Hlen Hal Hst index Hi Hone.
  destruct (fast_write_ok s v start len (gd_inv _ _ HG) (gd_shaped _ _ HG) (gd_buffer _ _ HG) (gd_ram _ _ HG) (gd_callbacks _ _ HG) Hc He Hb Hlen Hal Hst Hi Hone (gd_bitmaps _ _ HG)) as (o & s' & v' & E & W).
  exists o, s', v'. split; [done|]. split; [by eapply written_good|done].
Qed.

(** ** Steps *)

(** A block is in use, and a page may be written: facts of the state, whatever
    the order of its lists. *)
Definition live s tb : Prop := ∀ v, cache_inv s v → tb ∈ v_live v.
Definition writable s (index : Z) : Prop := ∀ v, cache_inv s v → one_part (v_page v index) ∧ current_ok s v.

Inductive tb_step : tb_state Regs → tb_state Regs → Prop :=
| step_find s s' o : tb_find_fast s = Ok o s' → tb_step s s'
| step_flush s s' : tb_flush s = Ok () s' → tb_step s s'
| step_chain s s' tb n next t :
    live s tb → live s next → data s tb = Some t → has_jump t n → (n < 2)%nat →
    tb_add_jump tb n next s = Ok () s' → tb_step s s'
| step_interrupt s s' mask :
    (∀ tb, current_tb (tb_cpu s) = Some tb → live s tb) → tcg_handle_interrupt mask s = Ok () s' → tb_step s s'
| step_device s s' start end_ :
    in_width 64 start → index_ok (Z.shiftr start TARGET_PAGE_BITS) → writable s (Z.shiftr start TARGET_PAGE_BITS) →
    tb_invalidate_phys_page_range start end_ false s = Ok (Some ()) s' → tb_step s s'
| step_write s s' start len o :
    single_env s = true → (∃ b, owner start (tb_ram s) b) → len ∈ [1; 2; 4; 8] → start mod len = 0 → 0 ≤ start < 2 ^ 64 - 8 →
    index_ok (Z.shiftr start TARGET_PAGE_BITS) → writable s (Z.shiftr start TARGET_PAGE_BITS) →
    tb_invalidate_phys_page_fast start len s = Ok o s' → tb_step s s'
| step_remap s s' r' addr :
    in_width target_long_bits addr → remapped (cpu_regs (tb_cpu s)) r' addr →
    code_in_ram (set_tb_cpu (set_cpu_regs r' (tb_cpu s)) s) →
    tlb_flush_jmp_cache addr (set_tb_cpu (set_cpu_regs r' (tb_cpu s)) s) = Ok () s' → tb_step s s'
| step_execute s r' cur :
    (∀ a, get_page_addr_code r' a = get_page_addr_code (cpu_regs (tb_cpu s)) a) →
    tb_step s (set_tb_cpu (set_current_tb cur (set_cpu_regs r' (tb_cpu s))) s).

Lemma step_good s s' v : good s v → tb_step s s' → ∃ v', good s' v'.
Proof.
  intros HG Hs. pose proof (gd_inv _ _ HG) as HI. destruct Hs as [s s' o E|s s' E|s s' tb n next t H1' H2' H3' H4' H5' E|s s' mask Hc E|s s' start end_ Hw Hi Hwr E|
    s s' start len o He Hb Hlen Hal Hst Hi Hwr E|s s' r' addr Ha Hr Hc E|s r' cur Hr].
  - pose proof (tb_find_fast_ok s v HG) as Hf. destruct (cpu_get_tb_cpu_state _) as [[pc cs_base] fl].
    destruct Hf as (o' & s1 & v' & E' & L). rewrite E in E'. injection E' as <- <-. exists v'. apply L.
  - destruct (flush_good s v HG) as (s1 & E' & G & _). rewrite E in E'. injection E' as <-. by exists empty_view.
  - destruct (chain_good s v tb n next t HG (H1' v HI) (H2' v HI) H3' H4' H5') as (s1 & v' & E' & G & _). rewrite E in E'. injection E' as <-. by exists v'.
  - destruct (interrupt_good s v mask HG) as (s1 & v' & E' & G & _); [intros tb Htb; left; by apply (Hc tb Htb)|]. rewrite E in E'. injection E' as <-. by exists v'.
  - destruct (Hwr v HI) as [Hone Hcur]. destruct (device_good s v start end_ HG Hcur Hw Hi Hone) as (s1 & v' & E' & G & _). rewrite E in E'. injection E' as <-. by exists v'.
  - destruct (Hwr v HI) as [Hone Hcur]. destruct (write_good s v start len HG Hcur He Hb Hlen Hal Hst Hi Hone) as (o' & s1 & v' & E' & G & _).
    rewrite E in E'. injection E' as <- <-. by exists v'.
  - destruct (remap_good s v r' addr HG Ha Hr Hc) as (s1 & E' & G & _). rewrite E in E'. injection E' as <-. by exists v.
  - exists v. eapply shrunk_good; [exact HG|]. apply shrunk_same; [done|by split|done|done].
Qed.
Lemma run_good s s' v : good s v → rtc tb_step s s' → ∃ v', good s' v'.
Proof. intros HG Hs. revert v HG. induction Hs as [s|s s1 s' Hs _ IH]; intros v HG; [by exists v|]. destruct (step_good s s1 v HG Hs) as [v1 HG1]. by eapply IH. Qed.
End Steps.
