(* ===== verification/TBTheorems.v ===== *)
(** * What the code cache guarantees

    The theorems about [tb_find_fast], [tb_gen_code], [tb_phys_invalidate] and the
    writes to code, stated against the abstract cache of [TBInv]. *)

From S2P Require Import Prelude CFile CString HostMem RamList Radix PhysPages RRTypes PandaCallbacks.
From S2P Require Import RRState RRReplay TBCache TBLists TBInv TBRemove TBInsert TBGen TBBitmap TBShape TBFind TBHost TBChain TBRange TBFast TBSteps.
From stdpp Require Import functions list relations.
Local Open Scope Z_scope.

Section Theorems.
Context `{PhysSpace} `{TargetLong} {Regs : Type} `{!Translator Regs} `{!TranslatorLaws Regs} `{!SpaceOk L1_MAP_ADDR_SPACE_BITS}.
Context `{!TargetLongOk} `{!FetchLaws Regs}.
Implicit Types (s : tb_state Regs) (i j n tb : nat) (v : view) (t : TranslationBlock).

(** C3. In every state that lookups, flushes, chaining, interrupts, writes to code
    by devices and by the CPU, remapped pages and the execution of blocks lead to,
    the pointers of the cache are the lists of an abstract cache: every block is on
    exactly the lists its addresses name, chained jumps lead where the lists say,
    pages with code are watched, the cache of virtual addresses agrees with the MMU
    and the bitmaps with the blocks. *)
Theorem cache_run s s' v : good s v → rtc tb_step s s' → ∃ v', good s' v'.
Proof. apply run_good. Qed.

(** C9. [tb_find_fast] returns a live block translated for the program counter,
    code segment and flags of the CPU from the physical pages that are mapped now,
    or faults; it translates only when no such block exists, and it finds or makes
    one whenever the guest's memory and the translator do not fault. *)
Theorem find_right_block s v : good s v → let '(pc, cs_base, fl) := cpu_get_tb_cpu_state (cpu_regs (tb_cpu s)) in
  ∃ o s' v', tb_find_fast s = Ok o s' ∧ looked_up s s' v v' pc cs_base (wrap 64 (int32 fl)) o.
Proof. apply tb_find_fast_ok. Qed.

(** C10. [tb_phys_invalidate] returns and takes exactly the given block off the
    cache: off its hash chain, the lists of its pages, the cache of virtual addresses
    and the lists of jumps; the jumps that led to it lead to their own exits again. *)
Theorem invalidate_unlinks s v tb : cache_inv s v → tb ∈ v_live v →
  ∃ s', tb_phys_invalidate tb NO_PAGE s = Ok () s' ∧ invalidated s s' v tb.
Proof. apply tb_phys_invalidate_ok. Qed.

(** C14. [tb_gen_code] never writes past the code buffer or the array of blocks: it
    flushes the cache when either is full; the new block is linked in front of the
    lists its addresses name, and nothing else changes. *)
Theorem gen_code_links s v pc cs_base flags cflags : cache_inv s v → buffer_ok s → code_in_ram s →
  ∃ o s' v1 v', tb_gen_code pc cs_base flags cflags s = Ok o s' ∧ generated s s' v v1 v' pc cs_base flags cflags o.
Proof. apply tb_gen_code_ok. Qed.

(** C11. After a device wrote into a page, no byte of the range belongs to the code
    of a block in the cache; exactly the blocks the range touched are gone. *)
Theorem device_write_clears s v start end_ : good s v → current_ok s v → in_width 64 start →
  let index := Z.shiftr start TARGET_PAGE_BITS in
  index_ok index → page_exists s index → one_part (v_page v index) → end_ ≤ 4096 * index + 4096 →
  ∃ s' v', tb_invalidate_phys_page_range start end_ false s = Ok (Some ()) s' ∧ good s' v' ∧
    v_live v' = v_live v ∖ touched_set s start end_ (v_page v index) ∧
    ∀ a i n t, start ≤ a < end_ → i ∈ v_live v' → data s' i = Some t → (n < 2)%nat → ¬ code_byte t n a.
Proof.
  intros HG Hc Hw index Hi He Hone Hend. destruct (device_good s v start end_ HG Hc Hw Hi Hone) as (s' & v' & E & G & Sh).
  exists s', v'. split; [done|]. split; [done|]. split; [apply Sh|]. unfold in_width in Hw.
  apply (range_cleared s s' v v' start end_ (gd_inv _ _ HG) (gd_shaped _ _ HG)); [lia|done|by split|done].
Qed.

(** C12. The fast path of a write, which looks at the bitmap of the page first, is
    equivalent to the full invalidation of the bytes. From one state both return, or
    both leave: they leave exactly when the block that makes the write is longer than
    one instruction and among those the bytes touch, and then with a block of one
    instruction translated for the state of the CPU at the instruction that writes.
    The states they end in are equal, or the write touches no block, the fast path has
    changed nothing and the other has changed neither the blocks nor their lists. The
    write is one of the CPU's: aligned, of 1, 2, 4 or 8 bytes, to RAM, to a page on
    which no block is listed with both of its parts. *)
Theorem fast_write_equals s v start len : good s v → current_ok s v → single_env s = true → (∃ b, owner start (tb_ram s) b) →
  len ∈ [1; 2; 4; 8] → start mod len = 0 → 0 ≤ start < 2 ^ 64 - 8 →
  let index := Z.shiftr start TARGET_PAGE_BITS in index_ok index → one_part (v_page v index) →
  let D := touched_set s start (start + len) (v_page v index) in
  ∃ o s1 s2 v1 v2, tb_invalidate_phys_page_fast start len s = Ok o s1 ∧ tb_invalidate_phys_page_range start (start + len) true s = Ok o s2 ∧
    good s1 v1 ∧ good s2 v2 ∧ written D s s1 v v1 o ∧ written D s s2 v v2 o ∧ (o = None ↔ ∃ c t, self_modified D s c t) ∧
    ((s1 = s2 ∧ v1 = v2) ∨ (D = ∅ ∧ s1 = s ∧ v1 = v ∧ v_live v2 = v_live v ∧ (∀ k, v_page v2 k = v_page v k) ∧ ∀ i, data s2 i = data s i)).
Proof.
  intros HG Hc He Hb Hlen Hal Hst index Hi Hone D.
  destruct (range_write_ok s v start (start + len) (gd_inv _ _ HG) (gd_shaped _ _ HG) (gd_buffer _ _ HG) (gd_ram _ _ HG) (gd_callbacks _ _ HG) Hc He) as (o & s2 & v2 & E2 & W2);
    [unfold in_width; lia|done..|]. fold index D in W2. pose proof (written_good _ _ _ _ _ _ HG W2) as HG2. pose proof (written_leaves _ _ _ _ _ _ W2) as Hl.
  destruct (fast_cases s v start len (gd_inv _ _ HG) (gd_shaped _ _ HG) Hlen Hal Hst Hi (gd_bitmaps _ _ HG)) as [E|[ED E]].
  - exists o, s2, s2, v2, v2. rewrite E. split_and!; try done. by left.
  - fold index D in ED. assert (o = Some ()) as ->.
    { destruct o as [[]|]; [done|]. destruct (proj1 Hl eq_refl) as (c & t & _ & Hc' & _). set_solver. }
    exists (Some ()), s, s2, v, v2. split_and!; try done; [by rewrite ED; apply written_nothing, HG|]. right.
    destruct W2 as (s3 & v3 & Sh & -> & -> & _). rewrite ED in Sh. split_and!; try done; [rewrite (sh_live _ _ _ _ _ Sh); set_solver| |apply Sh].
    intros k. rewrite (sh_page _ _ _ _ _ Sh). apply filter_id_all. set_solver.
Qed.

(** C23. An interrupt stops the CPU at the end of the block it executes: from none of
    the blocks it could have reached through chained jumps does a jump lead on. The
    recursion over the jumps, which may be cyclic, ends. *)
Theorem interrupt_unchains s v mask : good s v → (∀ tb, current_tb (tb_cpu s) = Some tb → tb ∈ v_live v) →
  ∃ s' v', tcg_handle_interrupt mask s = Ok () s' ∧ good s' v' ∧ current_tb (tb_cpu s') = None ∧
    interrupt_request (tb_cpu s') = Z.lor (interrupt_request (tb_cpu s)) mask ∧
    ∀ tb i, current_tb (tb_cpu s) = Some tb → reaches v tb i → ¬ jumps_from v' i.
Proof. intros HG Hc. apply interrupt_good; [done|]. intros tb Htb. left. by apply Hc. Qed.

(** The binary search of [tb_find_pc] finds the block whose code holds a host
    address: for an address behind the start of a block and before the next one it
    returns that block. *)
Theorem find_pc_block s v tc_ptr (k : Z) : cache_inv s v → code_gen_buffer s ≤ tc_ptr < code_gen_ptr s → 0 ≤ k < nb_tbs s →
  tc_at s k < tc_ptr → (∀ j : Z, k < j < nb_tbs s → tc_ptr < tc_at s j) → tb_find_pc tc_ptr s = Ok (Some (Z.to_nat k)) s.
Proof.
  intros HI Hp Hk Hlo Hhi. destruct (tb_find_pc_ok s v tc_ptr HI Hp) as (i & E & Hh). by rewrite <-(holds_inside s v k tc_ptr i HI Hk Hlo Hhi Hh).
Qed.

(** When the mapping of one page changes, dropping two runs of entries of the
    cache of virtual addresses is enough: what remains agrees with the new mapping,
    also for blocks that begin in the page before. *)
Theorem remap_coherent s v (r' : Regs) addr : good s v → in_width target_long_bits addr → remapped (cpu_regs (tb_cpu s)) r' addr →
  code_in_ram (set_tb_cpu (set_cpu_regs r' (tb_cpu s)) s) →
  ∃ s', tlb_flush_jmp_cache addr (set_tb_cpu (set_cpu_regs r' (tb_cpu s)) s) = Ok () s' ∧ good s' v ∧ cpu_regs (tb_cpu s') = r'.
Proof. apply remap_good. Qed.

(** Chaining: the jump in the code of the first block leads to the code of the
    second one, or the jump was chained before and nothing changes. *)
Theorem chained_jump s v tb n next t u : good s v → tb ∈ v_live v → next ∈ v_live v → data s tb = Some t → data s next = Some u →
  has_jump t n → (n < 2)%nat →
  ∃ s' v', tb_add_jump tb n next s = Ok () s' ∧ good s' v' ∧
    (no_jump v (tb, n) → tc_code s' !! jump_site t n = Some (jump_word (jump_site t n) (tb_tc_ptr u))).
Proof.
  intros HG Hl Hn Ht Hu Hj H2'. destruct (tb_add_jump_ok s v tb n next t (gd_inv _ _ HG) Hl Hn Ht Hj H2') as (s' & E & K & U & [[[j [Hjl Hjx]] ->]|[Hno HI]]).
  - exists s, v. split; [done|]. split; [done|]. intros Hno. by destruct (Hno j).
  - exists s', (add_jump (tb, n) next v). split; [done|]. split; [by eapply good_keeps|]. intros _.
    apply (ch_jump _ _ (ci_chained _ _ HI) tb next t u n); [done| |by rewrite (k_data _ _ K)..]. simpl. rewrite fn_lookup_insert. left.
Qed.
End Theorems.

(** [set_bits] sets exactly the bits from [start] to [start + len], whole bytes
    at a time, and stays inside the array. *)
Theorem set_bits_exact tab start len : Forall (in_width 8) tab → 0 ≤ start → 0 ≤ len → start + len ≤ 8 * Z.of_nat (length tab) →
  ∃ tab', set_bits tab start len = Some tab' ∧ length tab' = length tab ∧ Forall (in_width 8) tab' ∧
    ∀ k, 0 ≤ k → bit_at tab' k = bit_at tab k || bool_decide (start ≤ k < start + len).
Proof. apply set_bits_ok. Qed.
