(* ===== verification/TBLoop.v ===== *)
(** * The choice of the next block ([cpu-exec.c])

    The part of the CPU loop between the interrupts and the generated code: the
    cache is flushed when a plugin wants it, the block for the CPU's state is found,
    thrown away and translated again when it would run past the next recorded
    interrupt, and chained to the block that ran before; and the check that a replay
    makes progress. *)

From S2P Require Import Prelude CFile CString HostMem RamList Radix PhysPages RRTypes PandaCallbacks.
From S2P Require Import RRState RRReplay RRReplayInv TBCache TBLists TBInv TBRemove TBInsert TBGen TBBitmap TBShape TBFind TBHost TBChain TBRange TBFast TBSteps.
From stdpp Require Import functions list relations.
Local Open Scope Z_scope.

(** What the functions of the plugins answer when they are asked whether a block is
    to be translated again before it runs. *)
Class InvalidateOpt := before_block_exec_invalidate_opt : Z → nat → bool.

Section Choice.
Context `{PhysSpace} `{TargetLong} {Regs : Type} `{!Translator Regs} `{!InvalidateOpt}.
Abbreviation TB := (TBM Regs).

(** The plugins are asked once for each block that runs; [asked] is
    [bb_invalidate_done]. *)
Definition ask_invalidate (asked : bool) (tb : nat) : TB bool :=
  if asked then mret false else
  cbs ← in_tb_rr (on_cbs (panda_run_callbacks PANDA_CB_BEFORE_BLOCK_EXEC_INVALIDATE_OPT));
  tb_emit (EvBlockExecInvalidate cbs tb);;
  mret (existsb (λ f, before_block_exec_invalidate_opt f tb) cbs).

(** The block would run past the next recorded interrupt. *)
Definition runs_past (q : rr_state) (t : TranslationBlock) : bool :=
  bool_decide (rr_mode q = RR_REPLAY) && (0 <? rr_num_instr_before_next_interrupt q) &&
  (rr_num_instr_before_next_interrupt q <? num_guest_insns t).

(** [flush] is the answer of [panda_flush_tb]; [None]: the guest faults. *)
Definition find_block (phys : gmap Z (ptab P_LEVELS)) (flush asked : bool) : TB (option nat) :=
  (if flush then tb_flush;; modify (set_tb_invalidated_flag true) else mret ());;
  o ← tb_find_fast;
  match o with
  | None => mret None
  | Some tb =>
      again ← ask_invalidate asked tb;
      t ← tb_at tb; q ← gets tb_rr;
      if again || runs_past q t then
        o ← invalidate_single_tb phys (tb_pc t);
        match o with None => mret None | Some _ => tb_find_fast end
      else mret (Some tb)
  end.

(** [next_tb]: the block that ran last and the jump it left through. *)
Definition chain_block (chaining : bool) (next_tb : tbptr) (tb : nat) : TB tbptr :=
  fl ← gets tb_invalidated_flag;
  next_tb ← (if (fl : bool) then modify (set_tb_invalidated_flag false);; mret None else mret next_tb);
  m ← gets (λ s, rr_mode (tb_rr s));
  (if bool_decide (m ≠ RR_REPLAY) && chaining then
     match next_tb with
     | Some (p, n) =>
         t ← tb_at tb;
         if decide ((page_addr t).2 = NO_PAGE) then tb_add_jump p n tb else mret ()
     | None => mret ()
     end
   else mret ());;
  mret next_tb.

Definition cpu_exec_block (phys : gmap Z (ptab P_LEVELS)) (flush asked chaining : bool) (next_tb : tbptr) : TB (option (nat * tbptr)) :=
  o ← find_block phys flush asked;
  match o with
  | None => mret None
  | Some tb =>
      next_tb ← chain_block chaining next_tb tb;
      upd_cpu (set_current_tb (Some tb));;
      mret (Some (tb, next_tb))
  end.
End Choice.

(** ** Progress of a replay *)

(** The locals of [cpu_exec] that watch a replay. *)
Record replay_watch := mkWatch { saved_prog_point : RR_prog_point; rr_loop_tries : Z }.
Definition watch_start : RR replay_watch := p ← gets rr_prog_point; mret (mkWatch p 20).
Definition check_progress (w : replay_watch) : RR replay_watch :=
  m ← gets rr_mode;
  if decide (m = RR_REPLAY) then
    p ← gets rr_prog_point;
    let w := if decide (p = saved_prog_point w) then mkWatch (saved_prog_point w) (int32 (rr_loop_tries w - 1)) else mkWatch p 20 in
    (if rr_loop_tries w =? 0 then rr_do_end_replay true else mret ());; mret w
  else mret w.

(** In a replay the translator ends a block at the next recorded interrupt. *)
Class ReplayLaws (Regs : Type) `{!Translator Regs} := {
  replay_gen : ∀ r q t g, rr_mode q = RR_REPLAY → 0 < rr_num_instr_before_next_interrupt q → cpu_gen_code r q t = Some g →
    0 ≤ g_num_insns g ≤ rr_num_instr_before_next_interrupt q;
}.

Section Chosen.
Context `{PhysSpace} `{TargetLong} {Regs : Type} `{!Translator Regs} `{!TranslatorLaws Regs} `{!SpaceOk L1_MAP_ADDR_SPACE_BITS}.
Context `{!TargetLongOk} `{!FetchLaws Regs} `{!InvalidateOpt}.
Implicit Types (s : tb_state Regs) (i j n tb : nat) (v : view) (t : TranslationBlock) (r : Regs).

(** The debugger sees the memory instructions are fetched from. *)
Definition debug_agrees (phys : gmap Z (ptab P_LEVELS)) r : Prop :=
  ∀ a ph, get_page_addr_code r a = Some ph → debug_ram_addr phys r a = ph.

(** No block lies on one physical page with both of its parts: neither the ones in
    the cache nor any that could be translated. *)
Definition parts_apart s v : Prop := ∀ i t, i ∈ v_live v → data s i = Some t → (page_addr t).1 ≠ (page_addr t).2.
Definition pages_apart r : Prop := ∀ a ph ph', get_page_addr_code r a = Some ph → get_page_addr_code r (next_page a) = Some ph' →
  Z.land ph TARGET_PAGE_MASK ≠ ph'.

Lemma page_number a : Z.shiftr (Z.land a TARGET_PAGE_MASK) TARGET_PAGE_BITS = Z.shiftr a TARGET_PAGE_BITS.
Proof.
  rewrite page_mask, !Z.shiftr_div_pow2 by done. change (2 ^ TARGET_PAGE_BITS) with 4096.
  pose proof (Z.div_mod a 4096 ltac:(lia)). replace (a - a mod 4096) with (a / 4096 * 4096) by lia. by rewrite Z.div_mul.
Qed.

Lemma page_number_inj a b : a mod 4096 = 0 → b mod 4096 = 0 → Z.shiftr a TARGET_PAGE_BITS = Z.shiftr b TARGET_PAGE_BITS → a = b.
Proof. rewrite !Z.shiftr_div_pow2 by done. change (2 ^ TARGET_PAGE_BITS) with 4096. pose proof (Z.div_mod a 4096). pose proof (Z.div_mod b 4096). lia. Qed.

Lemma apart_one_part s v index : good s v → parts_apart s v → page_dom s index → one_part (v_page v index).
Proof.
  intros HG Hap Hdom i H0' H1'. pose proof (ci_listed _ _ (gd_inv _ _ HG)) as HL.
  apply (li_page _ _ HL index i 0%nat Hdom) in H0' as (Hl & t & Ht & a & Ha & Hna & Ea).
  apply (li_page _ _ HL index i 1%nat Hdom) in H1' as (_ & t' & Ht' & b & Hb & Hnb & Eb). simplify_eq/=.
  destruct (gd_shaped _ _ HG i t Hl Ht) as [_ _ [_ B1] B2]. rewrite decide_False in B2 by done. destruct B2 as [[_ B2] _].
  apply (Hap i t Hl Ht), page_number_inj; congruence.
Qed.

Lemma right_apart s v pc cs_base flags tb t : pages_apart (cpu_regs (tb_cpu s)) → right_block s v pc cs_base flags tb → data s tb = Some t →
  page_base_ok (page_addr t).1 → (page_addr t).1 ≠ (page_addr t).2.
Proof.
  intros Hp (_ & t' & Ht' & _ & (ph & Hph & Eph) & Hm) Ht [Hb _]. assert (t' = t) as -> by congruence. destruct Hm as [->|Hm].
  - unfold NO_PAGE. lia.
  - rewrite <-Eph. by eapply Hp.
Qed.

Lemma lookup_apart s s' v v' pc cs_base flags o : parts_apart s v → pages_apart (cpu_regs (tb_cpu s)) →
  looked_up s s' v v' pc cs_base flags o → parts_apart s' v'.
Proof.
  intros Hap Hp L i t Hi Ht. destruct (lu_old _ _ _ _ _ _ _ _ L i Hi) as [->|[Hv Hd]]; [|apply (Hap i); congruence].
  eapply right_apart; [by rewrite (same_cpu_regs _ _ (lu_cpu _ _ _ _ _ _ _ _ L))|by eapply (lu_block _ _ _ _ _ _ _ _ L)|done|].
  apply (bs_page _ (gd_shaped _ _ (lu_good _ _ _ _ _ _ _ _ L) i t Hi Ht)).
Qed.

Lemma ask_invalidate_ok s v asked tb : good s v → ∃ b tr, ask_invalidate asked tb s = Ok b (set_tb_trace tr s) ∧ good (set_tb_trace tr s) v ∧
  ((∀ f, before_block_exec_invalidate_opt f tb = false) → b = false).
Proof.
  intros HG. unfold ask_invalidate. destruct asked.
  { exists false, (tb_trace s). assert (E : set_tb_trace (tb_trace s) s = s) by (by destruct s). by rewrite E. }
  destruct (gd_callbacks _ _ HG) as [xss Hr]. destruct (rep_idx _ _ PANDA_CB_BEFORE_BLOCK_EXEC_INVALIDATE_OPT Hr) as [xs Hx].
  pose proof (run_callbacks_rep _ _ _ _ Hr Hx) as E.
  erewrite bind_Ok by (unfold in_tb_rr; by rewrite (on_cbs_ok _ _ _ _ E)). unfold tb_emit. rewrite bind_modify.
  eexists _, (tb_trace s ++ [EvBlockExecInvalidate (called xs) tb]). split; [destruct s as [????? ????? ????? rr ?]; by destruct rr|]. split.
  - by apply (good_same s _); [by split|done..|].
  - intros Ho. apply not_true_is_false. intros Hb. apply existsb_exists in Hb as (f & _ & Hf). by rewrite Ho in Hf.
Qed.

(** A block for an address begins at the byte the address is mapped to. *)
Lemma right_first_byte s v pc cs_base flags ph i : good s v → get_page_addr_code (cpu_regs (tb_cpu s)) pc = Some ph →
  right_block s v pc cs_base flags i → i ∈ v_live v ∧ ∃ t, data s i = Some t ∧ code_byte t 0 ph ∧ ph ≤ 2 ^ 64 - 4096.
Proof.
  intros HG Hph (Hl & t & Ht & (Epc & _) & (ph' & Hph' & Eph) & _). rewrite Epc in Hph'. simplify_eq. split; [done|]. exists t. split; [done|].
  destruct (gd_shaped _ _ HG i t Hl Ht) as [Hs Hw [Hb1 Hb2] _]. destruct (gd_ram _ _ HG _ _ Hph) as (W & M & _).
  pose proof (Z.mod_pos_bound ph 4096 ltac:(lia)). pose proof Eph as Em. rewrite page_mask in Em. split; [split|lia].
  - exists (page_addr t).1. split; [done|]. split; [unfold NO_PAGE; lia|]. rewrite <-Eph. apply page_number.
  - unfold covers, page_range, page_offset_of. rewrite page_offset. simpl. change TARGET_PAGE_SIZE with 4096 in *. lia.
Qed.

(** Throwing the block of the program counter away: afterwards there is none. *)
Lemma single_tb_ok s v phys pc cs_base flags tb t : good s v → debug_agrees phys (cpu_regs (tb_cpu s)) → parts_apart s v → current_ok s v →
  right_block s v pc cs_base flags tb → tbs s !! tb = Some t →
  ∃ s' v', invalidate_single_tb phys (tb_pc t) s = Ok (Some ()) s' ∧ good s' v' ∧ parts_apart s' v' ∧ cpu_kept s s' ∧
    ¬ ∃ i cs_base flags, right_block s' v' pc cs_base flags i.
Proof.
  intros HG Hd Hap Hc HR Ht. pose proof HR as (Hl & u & Hu & (Epc & _) & (ph & Hph & Eph) & _).
  assert (Et : tb_pc t = pc) by (unfold data in Hu; rewrite Ht in Hu; injection Hu as <-; done). rewrite Epc in Hph.
  destruct (right_first_byte s v pc cs_base flags ph tb HG Hph HR) as (_ & u' & Hu' & Hby & Hmax). assert (u' = u) as -> by congruence.
  destruct (gd_ram _ _ HG _ _ Hph) as (W & M & _ & _ & Hix & _). rewrite page_number in Hix.
  assert (Hdom : page_dom s (Z.shiftr ph TARGET_PAGE_BITS)) by (by eapply (li_page_ok _ _ (ci_listed _ _ (gd_inv _ _ HG)) tb u 0%nat); [..|apply Hby]).
  unfold invalidate_single_tb, breakpoint_invalidate. rewrite bind_gets, Et, (Hd _ _ Hph), wrap_small by (unfold in_width in *; lia).
  destruct (range_device_ok s v ph (ph + 1) (gd_inv _ _ HG) (gd_shaped _ _ HG) Hc (gd_callbacks _ _ HG) W Hix) as (s' & v' & E & Sh & Ck & _);
    [exact (apart_one_part s v _ HG Hap Hdom)|]. exists s', v'. split; [done|]. pose proof (shrunk_good _ _ _ _ _ HG Sh) as HG'. split; [done|]. split_and!; [|done|].
  - intros i x Hi Hx. rewrite (sh_data _ _ _ _ _ Sh) in Hx. rewrite (sh_live _ _ _ _ _ Sh) in Hi. apply (Hap i); set_solver.
  - intros (i & cb & fl & Hi). destruct Ck as (_ & _ & Ek). destruct (right_first_byte s' v' pc cb fl ph i HG') as (Hi' & x & Hx & Hxb & _); [by rewrite Ek|done|].
    unfold in_width in W. destruct (page_split ph ltac:(lia)) as [Es Ms].
    refine (range_cleared s s' v v' ph (ph + 1) (gd_inv _ _ HG) (gd_shaped _ _ HG) _ _ Hdom Sh ph i 0%nat x _ Hi' Hx _ Hxb); lia.
Qed.

(** ** Finding the block *)

Lemma flush_first s v (flush : bool) : good s v → parts_apart s v →
  ∃ s0 v0, (if flush then tb_flush;; modify (set_tb_invalidated_flag true) else mret ()) s = Ok () s0 ∧ good s0 v0 ∧ parts_apart s0 v0 ∧
    same_cpu s s0 ∧ tb_rr s0 = tb_rr s.
Proof.
  intros HG Hap. destruct flush; [|by exists s, v].
  destruct (flush_good s v HG) as (s1 & E & G1 & F). exists (set_tb_invalidated_flag true s1), empty_view. rewrite (bind_Ok _ _ _ _ _ E).
  destruct (fl_rest _ _ F) as (_ & Er & _ & _ & Ec). split; [done|]. split; [by apply (good_same s1 _); [by split|done..|]|].
  split; [by intros i t Hi|]. split; [unfold same_cpu; simpl; by rewrite Ec|done].
Qed.

Lemma no_current_ok s v : current_tb (tb_cpu s) = None → current_ok s v.
Proof. intros E. right. right. by rewrite E. Qed.
Lemma same_cpu_current s s' : same_cpu s s' → current_tb (tb_cpu s') = current_tb (tb_cpu s).
Proof. by intros [=]. Qed.

(** The program counter, segment and flags of the CPU are those of the block. *)
Definition chosen s v r tb : Prop :=
  let '(pc, cs_base, fl) := cpu_get_tb_cpu_state r in right_block s v pc cs_base (wrap 64 (int32 fl)) tb.

Lemma find_chosen s v : good s v → ∃ o s' v' pc cs_base fl, cpu_get_tb_cpu_state (cpu_regs (tb_cpu s)) = (pc, cs_base, fl) ∧
  tb_find_fast s = Ok o s' ∧ looked_up s s' v v' pc cs_base (wrap 64 (int32 fl)) o.
Proof.
  intros HG. pose proof (tb_find_fast_ok s v HG) as Hf. destruct (cpu_get_tb_cpu_state _) as [[pc cs_base] fl] eqn:E.
  destruct Hf as (o & s' & v' & ? & ?). by exists o, s', v', pc, cs_base, fl.
Qed.

(** The block in use fits before the next recorded interrupt. *)
Definition fits s tb : Prop := rr_mode (tb_rr s) = RR_REPLAY → 0 < rr_num_instr_before_next_interrupt (tb_rr s) →
  ∃ t, data s tb = Some t ∧ num_guest_insns t ≤ rr_num_instr_before_next_interrupt (tb_rr s).

Lemma fresh_fits `{!ReplayLaws Regs} s s' v v' pc cs_base flags tb : looked_up s s' v v' pc cs_base flags (Some tb) →
  ¬ (∃ i, right_block s v pc cs_base flags i) → fits s' tb.
Proof.
  intros L Hno Hm Hn. rewrite (lu_rr _ _ _ _ _ _ _ _ L) in *.
  destruct (lu_fresh _ _ _ _ _ _ _ _ L tb eq_refl Hno) as (t0 & g & t & Hg & Ht & E). exists t. split; [done|].
  destruct (replay_gen _ _ _ _ Hm Hn Hg) as [G1 G2]. rewrite E. pose proof (Z.mod_le (g_num_insns g) (2 ^ 16) ltac:(lia) ltac:(lia)). unfold wrap. lia.
Qed.

Lemma find_block_ok `{!ReplayLaws Regs} s v phys flush asked : good s v → debug_agrees phys (cpu_regs (tb_cpu s)) → parts_apart s v →
  pages_apart (cpu_regs (tb_cpu s)) → current_tb (tb_cpu s) = None →
  ∃ o s' v', find_block phys flush asked s = Ok o s' ∧ good s' v' ∧ cpu_kept s s' ∧
    ∀ tb, o = Some tb → chosen s' v' (cpu_regs (tb_cpu s)) tb ∧ fits s' tb.
Proof.
  intros HG Hd Hap Hpa Hcur. unfold find_block. destruct (flush_first s v flush HG Hap) as (s0 & v0 & E0 & G0 & A0 & C0 & R0).
  rewrite (bind_Ok _ _ _ _ _ E0). destruct (find_chosen s0 v0 G0) as (o & s1 & v1 & pc & cs_base & fl & Est & E1 & L1). mrun E1.
  pose proof (lu_cpu _ _ _ _ _ _ _ _ L1) as C1. pose proof (lu_rr _ _ _ _ _ _ _ _ L1) as R1. rewrite (same_cpu_regs _ _ C0) in Est.
  assert (K1 : cpu_kept s s1) by (unfold same_cpu in *; injection C0; injection C1; intros; split_and!; congruence).
  destruct o as [tb|]; [|exists None, s1, v1; split_and!; [done|apply L1|done|done]].
  pose proof (lu_block _ _ _ _ _ _ _ _ L1 tb eq_refl) as B1.
  destruct (ask_invalidate_ok s1 v1 asked tb (lu_good _ _ _ _ _ _ _ _ L1)) as (b & tr & Ea & G2 & _). rewrite (bind_Ok _ _ _ _ _ Ea).
  set (s2 := set_tb_trace tr s1) in *. destruct (live_block s2 v1 tb (gd_inv _ _ G2)) as (t & Ht & Hdt); [apply B1|].
  rewrite (bind_Ok _ _ _ _ _ (tb_at_ok _ _ _ Ht)), bind_gets. unfold chosen. rewrite Est. destruct (b || runs_past (tb_rr s2) t) eqn:Eb.
  2: { exists (Some tb), s2, v1. split_and!; [done..|]. intros ? [= <-]. split; [done|]. intros Hm Hn. exists (tb_data t). split; [done|].
       apply orb_false_iff in Eb as [_ Eb]. unfold runs_past in Eb. rewrite bool_decide_true in Eb by done. simpl in Eb. apply andb_false_iff in Eb.
       rewrite !Z.ltb_ge in Eb. simpl. simpl in Hn. lia. }
  assert (Er1 : cpu_regs (tb_cpu s1) = cpu_regs (tb_cpu s)) by apply K1.
  destruct (single_tb_ok s2 v1 phys pc cs_base (wrap 64 (int32 fl)) tb t G2) as (s3 & v3 & E3 & G3 & A3 & K3 & Hno).
  { simpl. by rewrite Er1. } { change (parts_apart s1 v1). eapply lookup_apart; [exact A0| |exact L1]. by rewrite (same_cpu_regs _ _ C0). }
  { apply no_current_ok. simpl. by rewrite (same_cpu_current _ _ C1), (same_cpu_current _ _ C0). } { exact B1. } { done. }
  mrun E3. destruct (find_chosen s3 v3 G3) as (o & s4 & v4 & pc' & cb' & fl' & Est' & E4 & L4). exists o, s4, v4. split; [done|]. split; [apply L4|].
  destruct K1 as (K1 & K2 & K4), K3 as (K5 & K6 & K7). pose proof (lu_cpu _ _ _ _ _ _ _ _ L4) as C4. pose proof (lu_rr _ _ _ _ _ _ _ _ L4) as R4.
  rewrite K7 in Est'. simpl in K5, K6, K7, Est'. rewrite Er1, Est in Est'. injection Est' as <- <- <-. split.
  - unfold same_cpu in C4. injection C4. intros. split_and!; congruence.
  - intros tb' ->. split; [by apply (lu_block _ _ _ _ _ _ _ _ L4)|]. eapply fresh_fits; [exact L4|]. intros [i Hi]. apply Hno. by exists i, cs_base, (wrap 64 (int32 fl)).
Qed.

(** ** Chaining and the whole choice *)

(** The result is good, and the CPU is set to run the block. *)
Lemma run_good_block s v r tb : good s v → chosen s v r tb →
  let s' := set_tb_cpu (set_current_tb (Some tb) (tb_cpu s)) s in good s' v ∧ chosen s' v r tb.
Proof.
  intros HG Hc s'. split; [eapply shrunk_good; [exact HG|]; apply shrunk_same; [apply HG|by split|done..]|].
  unfold chosen in *. by destruct (cpu_get_tb_cpu_state r) as [[pc cs_base] fl].
Qed.

Lemma flag_good s v f : good s v → good (set_tb_invalidated_flag f s) v.
Proof. intros HG. by apply (good_same s _); [by split|done..|]. Qed.

(** In a replay nothing is chained. *)
Lemma chain_replay s chaining next tb : rr_mode (tb_rr s) = RR_REPLAY →
  ∃ next' f, chain_block chaining next tb s = Ok next' (set_tb_invalidated_flag f s).
Proof.
  intros Hm. unfold chain_block. rewrite bind_gets. destruct (tb_invalidated_flag s) eqn:Ef.
  - rewrite bind_assoc, bind_modify, bind_ret, bind_gets. simpl. rewrite Hm. by exists None, false.
  - rewrite bind_ret, bind_gets, Hm. exists next, false. simpl. unfold mbind, M_bind. simpl. do 2 f_equal. rewrite <-Ef. by destruct s.
Qed.

(** The block that ran last and the jump it left through: it is in the cache, and the
    jump is one that can be chained and is not, or the block would not have left. *)
Definition left_through s v (next : tbptr) : Prop :=
  ∀ p n, next = Some (p, n) → (n < 2)%nat ∧ p ∈ v_live v ∧ no_jump v (p, n) ∧ ∃ t, data s p = Some t ∧ has_jump t n.

(** The jump of the last block leads to the code of the next one, when that lies in
    one page; otherwise it is left alone. *)
Definition leads_on s v (next : tbptr) tb : Prop :=
  ∀ p n tp t, next = Some (p, n) → data s p = Some tp → data s tb = Some t →
    if decide ((page_addr t).2 = NO_PAGE)
    then jumps_to v (p, n) tb ∧ tc_code s !! jump_site tp n = Some (jump_word (jump_site tp n) (tb_tc_ptr t))
    else no_jump v (p, n).

(** Otherwise the block that ran last, if it is still there, is chained. *)
Lemma chain_live s v r next tb : good s v → chosen s v r tb → rr_mode (tb_rr s) ≠ RR_REPLAY →
  (tb_invalidated_flag s = false → left_through s v next) →
  ∃ next' s' v', chain_block true next tb s = Ok next' s' ∧ good s' v' ∧ chosen s' v' r tb ∧ tb_invalidated_flag s' = false ∧
    next' = (if tb_invalidated_flag s then None else next) ∧ leads_on s' v' next' tb.
Proof.
  intros HG Hc Hm Hn. unfold chain_block. rewrite bind_gets. destruct (tb_invalidated_flag s) eqn:Ef.
  { rewrite bind_assoc, bind_modify, bind_ret, bind_gets. simpl. rewrite bool_decide_true by done. simpl.
    eexists None, _, v. split; [done|]. split; [by apply flag_good|]. split; [|done]. unfold chosen in *. by destruct (cpu_get_tb_cpu_state r) as [[? ?] ?]. }
  rewrite bind_ret, bind_gets, bool_decide_true by done. simpl. destruct next as [[p n]|]; [|by exists None, s, v].
  destruct (Hn eq_refl p n eq_refl) as (H2' & Hp & Hfree & tp & Htp & Hj). unfold chosen in *. destruct (cpu_get_tb_cpu_state r) as [[pc cs_base] fl].
  destruct (live_block s v tb (gd_inv _ _ HG)) as (t & Ht & Hdt); [apply Hc|]. rewrite bind_assoc, (bind_Ok _ _ _ _ _ (tb_at_ok _ _ _ Ht)). case_decide as H2p.
  2: { exists (Some (p, n)), s, v. split_and!; try done. intros p' n' tp' t' [= <- <-] _ Ht'. rewrite Hdt in Ht'. injection Ht' as <-. by rewrite decide_False. }
  destruct (tb_add_jump_ok s v p n tb tp (gd_inv _ _ HG) Hp (proj1 Hc) Htp Hj H2') as (s' & E & K & U & Hx). mrun E. exists (Some (p, n)), s'.
  assert (Efl : tb_invalidated_flag s' = false) by (injection U; congruence). destruct Hx as [[[j [Hx1 Hx2]] _]|[Hno HI]]; [by destruct (Hfree j Hx1)|].
  exists (add_jump (p, n) tb v). split_and!; try done; [by eapply good_keeps|by eapply right_keeps|].
  intros ? ? tp' t' [= <- <-] Htp' Ht'. assert (Hto : jumps_to (add_jump (p, n) tb v) (p, n) tb) by (split; [apply Hc|]; simpl; rewrite fn_lookup_insert; left).
  pose proof Ht' as Ht2. rewrite (k_data _ _ K), Hdt in Ht2. injection Ht2 as <-. rewrite decide_True by done. split; [done|].
  exact (ch_jump _ _ (ci_chained _ _ HI) p tb tp' (tb_data t) n (proj1 Hto) (proj2 Hto) Htp' Ht').
Qed.

(** When nobody asks for a new translation, outside of a replay, the block is found
    by one lookup. *)
Lemma find_block_once s v phys asked : good s v → rr_mode (tb_rr s) ≠ RR_REPLAY → (∀ f tb, before_block_exec_invalidate_opt f tb = false) →
  ∃ o s' v', find_block phys false asked s = Ok o s' ∧ good s' v' ∧ cpu_kept s s' ∧
    (∀ tb, o = Some tb → chosen s' v' (cpu_regs (tb_cpu s)) tb) ∧
    (tb_invalidated_flag s' = false → ∀ next, left_through s v next → left_through s' v' next) ∧
    (tb_invalidated_flag s = false → ¬ full s → tb_invalidated_flag s' = false) ∧
    ((∀ a, is_Some (get_page_addr_code (cpu_regs (tb_cpu s)) a)) → (∀ t, is_Some (cpu_gen_code (cpu_regs (tb_cpu s)) (tb_rr s) t)) → is_Some o).
Proof.
  intros HG Hm Hopt. unfold find_block. rewrite bind_ret. destruct (find_chosen s v HG) as (o & s1 & v1 & pc & cs_base & fl & Est & E1 & L1). mrun E1.
  assert (K1 : cpu_kept s s1).
  { pose proof (lu_cpu _ _ _ _ _ _ _ _ L1) as C1. unfold same_cpu in C1. injection C1. intros. split_and!; [apply L1|congruence..]. }
  assert (Hlt : tb_invalidated_flag s1 = false → ∀ next, left_through s v next → left_through s1 v1 next).
  { intros Hf next Hn p n En. destruct (Hn p n En) as (N1 & N2 & N3 & t & N4 & N5). destruct (lu_stays _ _ _ _ _ _ _ _ L1 Hf p N2) as [S1 S2].
    split_and!; [done|done| |exists t; by rewrite S2]. intros j Hj Hx. by destruct (lu_jumps _ _ _ _ _ _ _ _ L1 (p, n) j Hj Hx) as [?%N3 ?]. }
  destruct o as [tb|]; [|exists None, s1, v1; split_and!; [done|apply L1|done|done|done|apply L1|apply L1]].
  pose proof (lu_block _ _ _ _ _ _ _ _ L1 tb eq_refl) as B1.
  destruct (ask_invalidate_ok s1 v1 asked tb (lu_good _ _ _ _ _ _ _ _ L1)) as (b & tr & Ea & G2 & Hb). rewrite (bind_Ok _ _ _ _ _ Ea).
  rewrite Hb by (intros f; apply Hopt). destruct (live_block (set_tb_trace tr s1) v1 tb (gd_inv _ _ G2)) as (t & Ht & _); [apply B1|].
  rewrite (bind_Ok _ _ _ _ _ (tb_at_ok _ _ _ Ht)), bind_gets. unfold runs_past. change (tb_rr (set_tb_trace tr s1)) with (tb_rr s1).
  rewrite (lu_rr _ _ _ _ _ _ _ _ L1), bool_decide_false by done. exists (Some tb), (set_tb_trace tr s1), v1.
  split_and!; [done..|intros ? [= <-]; unfold chosen; by rewrite Est|exact Hlt|apply L1|done].
Qed.

(** C5. In a replay the block the CPU runs next is the one for its program counter,
    and it has no more instructions than are left before the next recorded
    interrupt: a longer one is thrown away and translated again. *)
Theorem replay_block_fits `{!ReplayLaws Regs} s v phys flush asked chaining next : good s v → rr_mode (tb_rr s) = RR_REPLAY →
  0 < rr_num_instr_before_next_interrupt (tb_rr s) → debug_agrees phys (cpu_regs (tb_cpu s)) → parts_apart s v →
  pages_apart (cpu_regs (tb_cpu s)) → current_tb (tb_cpu s) = None →
  ∃ o s' v', cpu_exec_block phys flush asked chaining next s = Ok o s' ∧ good s' v' ∧
    ∀ tb next', o = Some (tb, next') → current_tb (tb_cpu s') = Some tb ∧ chosen s' v' (cpu_regs (tb_cpu s)) tb ∧
      ∃ t, data s' tb = Some t ∧ num_guest_insns t ≤ rr_num_instr_before_next_interrupt (tb_rr s).
Proof.
  intros HG Hm Hn Hd Hap Hpa Hcur. destruct (find_block_ok s v phys flush asked HG Hd Hap Hpa Hcur) as (o & s1 & v1 & E & G1 & (K1 & _) & Ho).
  unfold cpu_exec_block. rewrite (bind_Ok _ _ _ _ _ E). destruct o as [tb|]; [|by exists None, s1, v1].
  destruct (Ho tb eq_refl) as [C1 F1]. destruct (chain_replay s1 chaining next tb) as (next' & f & E2); [congruence|]. rewrite (bind_Ok _ _ _ _ _ E2).
  assert (C2 : chosen (set_tb_invalidated_flag f s1) v1 (cpu_regs (tb_cpu s)) tb) by (unfold chosen in *; by destruct (cpu_get_tb_cpu_state _) as [[? ?] ?]).
  destruct (run_good_block _ _ _ tb (flag_good s1 v1 f G1) C2) as [G3 C3]. unfold upd_cpu. rewrite bind_modify. eexists _, _, v1. split; [done|]. split; [done|].
  intros ? ? [= <- <-]. split; [done|]. split; [done|]. unfold fits in F1. rewrite K1 in F1. by apply F1.
Qed.

(** C30. While a machine runs or is recorded, the block the CPU runs next is the one
    for its program counter, and it is chained: when the last block left through a
    jump that is not chained yet and the next one lies in one page, that jump leads to
    the next block from now on, in the lists and in the host code; when the next block
    lies in two pages the jump is left alone. The last block is forgotten only when
    the flag said that blocks are gone, or the lookup met a full code buffer. No plugin
    asks for a flush or for the block to be translated again: after a flush the loop
    may chain a block that is gone ([flush_chains_stale]). A block is found whenever the
    guest's memory and the translator do not fault. *)
Theorem next_block_chained s v phys asked next : good s v → rr_mode (tb_rr s) ≠ RR_REPLAY →
  (∀ f tb, before_block_exec_invalidate_opt f tb = false) → left_through s v next →
  ∃ o s' v', cpu_exec_block phys false asked true next s = Ok o s' ∧ good s' v' ∧
    ((∀ a, is_Some (get_page_addr_code (cpu_regs (tb_cpu s)) a)) → (∀ t, is_Some (cpu_gen_code (cpu_regs (tb_cpu s)) (tb_rr s) t)) → is_Some o) ∧
    ∀ tb next', o = Some (tb, next') → current_tb (tb_cpu s') = Some tb ∧ chosen s' v' (cpu_regs (tb_cpu s)) tb ∧ tb_invalidated_flag s' = false ∧
      leads_on s' v' next' tb ∧
      (next' = next ∨ (next' = None ∧ (tb_invalidated_flag s = true ∨ full s))).
Proof.
  intros HG Hm Hopt Hn. destruct (find_block_once s v phys asked HG Hm Hopt) as (o & s1 & v1 & E & G1 & (K1 & _) & Hc & Hst & Hfl & Htot).
  unfold cpu_exec_block. rewrite (bind_Ok _ _ _ _ _ E). destruct o as [tb|]; [|exists None, s1, v1; by split_and!; try done; intros A B; destruct (Htot A B)].
  destruct (chain_live s1 v1 (cpu_regs (tb_cpu s)) next tb G1 (Hc tb eq_refl)) as (next' & s2 & v2 & E2 & G2 & C2 & F2 & En & Hj); [congruence|by intros Hf; apply Hst|].
  rewrite (bind_Ok _ _ _ _ _ E2). destruct (run_good_block _ _ _ tb G2 C2) as [G3 C3]. unfold upd_cpu. rewrite bind_modify.
  eexists _, _, v2. split; [done|]. split; [done|]. split; [by intros _ _; eexists|]. intros ? ? [= <- <-]. split_and!; try done. rewrite En. destruct (tb_invalidated_flag s1) eqn:E1; [|by left].
  right. split; [done|]. destruct (tb_invalidated_flag s) eqn:E0; [by left|right]. destruct (decide (full s)) as [Hf|Hf]; [done|]. by specialize (Hfl eq_refl Hf).
Qed.
End Chosen.

(** ** A replay that does not move *)

Fixpoint check_times (n : nat) (w : replay_watch) : RR replay_watch :=
  match n with O => mret w | S n' => w' ← check_progress w; check_times n' w' end.

Lemma check_still s w : rr_mode s = RR_REPLAY → saved_prog_point w = rr_prog_point s → 2 ≤ rr_loop_tries w ≤ 20 →
  check_progress w s = Ok (mkWatch (saved_prog_point w) (rr_loop_tries w - 1)) s.
Proof.
  intros Hm Hp Ht. unfold check_progress. rewrite bind_gets, decide_True, bind_gets, decide_True by done. simpl.
  unfold int32. rewrite wrap_small by (unfold in_width; lia).
  replace (rr_loop_tries w - 1 + 2 ^ 31 - 2 ^ 31) with (rr_loop_tries w - 1) by lia. replace (rr_loop_tries w - 1 =? 0) with false by lia. done.
Qed.

Lemma check_times_still n : ∀ s w, rr_mode s = RR_REPLAY → saved_prog_point w = rr_prog_point s → Z.of_nat n < rr_loop_tries w ≤ 20 →
  check_times n w s = Ok (mkWatch (saved_prog_point w) (rr_loop_tries w - Z.of_nat n)) s.
Proof.
  induction n as [|n IH]; intros s w Hm Hp Ht; simpl.
  { destruct w. simpl. by rewrite Z.sub_0_r. }
  rewrite (bind_Ok _ _ _ _ _ (check_still s w Hm Hp ltac:(lia))), IH by (simpl; lia || done). simpl. do 2 f_equal. rewrite Nat2Z.inj_succ. lia.
Qed.

Lemma check_times_last n : ∀ s w, check_times (S n) w s = (check_times n w ≫= check_progress) s.
Proof.
  induction n as [|n IH]; intros s w.
  - simpl. rewrite bind_ret. unfold mbind, M_bind. by destruct (check_progress w s).
  - simpl in *. rewrite bind_assoc. unfold mbind, M_bind in *. destruct (check_progress w s); [|done]. by apply IH.
Qed.

(** C36. A replay whose program point has not changed since the CPU loop was entered
    is let alone nineteen times and ended with an error at the twentieth. *)
Theorem stuck_replay_ends `{TargetPhys} s pend : replay_inv s pend →
  (∀ n, (n < 20)%nat → ∃ w, (w ← watch_start; check_times n w) s = Ok w s) ∧
  ∃ s', (w ← watch_start; check_times 20 w) s = Err Abort s'.
Proof.
  intros (qi & fi & _ & Hr & _). pose proof Hr as (l & f & qs & rs & Hl & Hm & _). set (w := mkWatch (rr_prog_point s) 20).
  assert (Hw : ∀ n, (w ← watch_start; check_times n w) s = check_times n w s) by done. split.
  - intros n Hn. eexists. rewrite Hw. apply check_times_still; simpl; lia || done.
  - destruct (end_replay_ok s qi fi true Hr) as (q' & _ & He). exists (ended s q' true qi). rewrite Hw, check_times_last.
    rewrite (bind_Ok _ _ _ _ _ (check_times_still 19 s w Hm eq_refl ltac:(simpl; lia))). simpl.
    unfold check_progress. rewrite bind_gets, decide_True by done. rewrite bind_gets. simpl. rewrite decide_True by done. simpl.
    unfold mbind, M_bind. by rewrite He.
Qed.
