(* ===== verification/TBExamples.v ===== *)
(** * A small machine

    Two pages of RAM and a translator that makes blocks of sixteen bytes: the
    hypotheses of the theorems hold on it, and what happens to a block both of
    whose pages are the same physical page. *)

From S2P Require Import Prelude CFile CString HostMem RamList Radix PhysPages RRTypes PandaCallbacks.
From S2P Require Import RRState RRReplay IOMem PhysMem PhysMemExamples.
From S2P Require Import TBCache TBLists TBInv TBRemove TBInsert TBGen TBBitmap TBShape TBFind TBHost TBChain TBRange TBFast TBSteps TBTheorems.
From stdpp Require Import functions list relations.
Local Open Scope Z_scope.
Import PhysMemExamples.

Module TBExamples.

(** ** The machine *)

(** The program counter, and whether the second virtual page is mapped to the first
    physical page. *)
Definition regs : Type := Z * bool.
Definition fetch (r : regs) (a : Z) : option Z :=
  if bool_decide (0 ≤ a < 8192) then Some (if r.2 then a mod 4096 else a) else None.

(** In a replay a block ends before the next recorded interrupt. *)
Definition left_before (q : rr_state) (n : Z) : Z :=
  if bool_decide (rr_mode q = RR_REPLAY) && (0 <? rr_num_instr_before_next_interrupt q) then Z.min n (rr_num_instr_before_next_interrupt q) else n.

#[export] Instance long32 : TargetLong := 32.
#[export] Instance long32_ok : TargetLongOk.
Proof. unfold TargetLongOk, target_long_bits, long32. lia. Qed.
#[export] Instance small_translator : Translator regs := {
  get_page_addr_code := fetch;
  cpu_get_tb_cpu_state r := (wrap 32 r.1, 0, 0);
  cpu_gen_code _ q _ := Some (mkGen 16 64 (40, 50) (10, 20) 4 (left_before q 4));
  restore_state r _ _ := r;
  cpu_get_phys_page_debug _ a := a;
}.
#[export] Instance small_laws : TranslatorLaws regs.
Proof.
  split. intros r q t g [= <-]. split; try (simpl; lia); [by vm_compute|..]; [by vm_compute|].
  intros n o j Ho _ Hj. destruct n as [|[|n]]; simpl in *; simplify_eq; lia.
Qed.
#[export] Instance small_fetch : FetchLaws regs.
Proof. split; [|done]. intros r. simpl. by apply wrap_in_width. Qed.
#[export] Instance small_space : SpaceOk L1_MAP_ADDR_SPACE_BITS.
Proof. unfold SpaceOk, L1_MAP_ADDR_SPACE_BITS, phys_space_bits, space36. simpl. lia. Qed.

Definition blank : TranslationBlock := mkTB 0 0 0 0 0 0 None (None, None) (0, 0) (0, 0) (0, 0) (None, None) None 0 0.
Definition boot (r : regs) : tb_state regs :=
  mkTBS (replicate 4 blank) 0 4 1048576 262144 139264 1048576 ∅ ∅ false 0 0 ∅ (mkCPU ∅ None 0 0 0 r) demo_ram
    (set_cpu_single_env true (rr_init (Host ∅ ∅) (mkCpu 0 0 0) cb_init)) [].

Lemma small_code_in_ram s : ram_blocks (tb_ram s) = [ram_block] → code_in_ram s.
Proof.
  intros Eram a ph. set (r := cpu_regs (tb_cpu s)). simpl. unfold fetch. case_bool_decide as Ha; [|done]. intros [= <-].
  assert (Hr : 0 ≤ (if r.2 then a mod 4096 else a) < 8192 ∧ (if r.2 then a mod 4096 else a) mod 4096 = a mod 4096).
  { destruct (r.2); [pose proof (Z.mod_pos_bound a 4096); rewrite Z.mod_mod by lia|]; lia. }
  set (ph := if r.2 then a mod 4096 else a) in *. destruct Hr as [Hr Hm]. rewrite page_mask.
  pose proof (Z.mod_pos_bound ph 4096 ltac:(lia)). pose proof (Z.div_mod ph 4096 ltac:(lia)).
  split; [unfold in_width; lia|]. split; [done|]. split; [unfold in_width; lia|]. split.
  { rewrite Zminus_mod, Zmod_mod, Z.sub_diag. done. }
  rewrite Z.shiftr_div_pow2 by done. change (2 ^ TARGET_PAGE_BITS) with 4096. split.
  - change (0 ≤ (ph - ph mod 4096) / 4096 < 2 ^ 24). split; [apply Z.div_pos; lia|]. apply Z.div_lt_upper_bound; lia.
  - exists ram_block. split; [rewrite Eram; left|]. unfold in_range. simpl. lia.
Qed.
Lemma boot_code_in_ram r : code_in_ram (boot r).
Proof. by apply small_code_in_ram. Qed.

Lemma boot_no_page r k : page_find (l1_map (boot r)) k = None.
Proof. change (l1_map (boot r)) with (∅ : page_map). unfold page_find, tree_find. by rewrite lookup_empty. Qed.

Lemma boot_inv r : cache_inv (boot r) empty_view.
Proof.
  split; simpl.
  - by apply map_Forall_empty.
  - split; simpl; try done; try lia; set_solver.
  - split; simpl; intros; try set_solver.
  - apply fam_empty. by intros k _.
  - apply fam_empty. intros k [_ [d Hd]]. by rewrite boot_no_page in Hd.
  - apply fam_empty. set_solver.
  - split; simpl; intros; set_solver.
  - exact demo_ram_ok.
  - by intros k _ Hk.
Qed.

Lemma boot_good r : good (boot r) empty_view.
Proof.
  split.
  - apply boot_inv.
  - split; simpl; try lia; done.
  - apply boot_code_in_ram.
  - exists (replicate PANDA_CB_LAST []). apply cb_init_rep.
  - intros h i t. simpl. by rewrite lookup_empty.
  - intros i t Hi. set_solver.
  - intros k bm _. unfold bm_at. by rewrite boot_no_page.
Qed.
(** ** After one and two lookups *)

Definition run {A} (m : TBM regs A) (s : tb_state regs) : tb_state regs := match m s with Ok _ s' | Err _ s' => s' end.
Definition goto (pc : Z) (s : tb_state regs) : tb_state regs := set_tb_cpu (set_cpu_regs (pc, (cpu_regs (tb_cpu s)).2) (tb_cpu s)) s.

Definition one : tb_state regs := run tb_find_fast (boot (256, false)).
Definition two : tb_state regs := run tb_find_fast (goto 4080 one).
(** The first block jumps to the second one. *)
Definition chained_two : tb_state regs := run (tb_add_jump 0 1 1) two.


(** A block at the head of a hash chain is live. *)
Lemma head_live s v h i : cache_inv (Regs:=regs) s v → rd s (SHash h) = Some (Some (i, 0%nat)) → i ∈ v_live v.
Proof.
  intros HI Hh. pose proof (chain_first _ _ _ _ _ (fam_chain _ _ _ _ _ _ _ (ci_hash _ _ HI) h I)) as Hf. cbn beta in Hf. rewrite Hh in Hf.
  destruct (v_hash v h) as [|j l] eqn:El; [done|]. injection Hf as ->. apply (hash_live s v h j HI). rewrite El. left.
Qed.

Lemma find_runs s v : good s v → ∃ o, tb_find_fast s = Ok o (run tb_find_fast s).
Proof.
  intros HG. pose proof (tb_find_fast_ok s v HG) as Hf. destruct (cpu_get_tb_cpu_state _) as [[pc cs_base] fl].
  destruct Hf as (o & s' & v' & E & _). exists o. unfold run. by rewrite E.
Qed.

Lemma found_good s v : good s v → ∃ v', good (run tb_find_fast s) v'.
Proof.
  intros HG. pose proof (tb_find_fast_ok s v HG) as Hf. destruct (cpu_get_tb_cpu_state _) as [[pc cs_base] fl].
  destruct Hf as (o & s' & v' & E & L). exists v'. unfold run. rewrite E. apply L.
Qed.

Lemma goto_good s v pc : good s v → good (goto pc s) v.
Proof. intros HG. eapply shrunk_good; [exact HG|]. apply shrunk_same; [apply HG|by split|done..]. Qed.

Lemma one_good : ∃ v, good one v.
Proof. apply (found_good _ empty_view), boot_good. Qed.
Lemma two_good : ∃ v, good two v.
Proof. destruct one_good as [v HG]. by eapply found_good, goto_good. Qed.

Lemma one_live v : good one v → 0%nat ∈ v_live v.
Proof. intros HG. apply (head_live one v 64); [apply (gd_inv _ _ HG)|vm_compute; reflexivity]. Qed.
Lemma two_live v : good two v → 0%nat ∈ v_live v ∧ 1%nat ∈ v_live v.
Proof.
  intros HG. split.
  - apply (head_live two v 64); [apply (gd_inv _ _ HG)|vm_compute; reflexivity].
  - apply (head_live two v 1020); [apply (gd_inv _ _ HG)|vm_compute; reflexivity].
Qed.

Definition first_block : TranslationBlock := mkTB 256 0 0 16 0 1048576 None (None, None) (0, NO_PAGE) (40, 50) (10, 20) (None, None) None 4 4.
Definition second_block : TranslationBlock := mkTB 4080 0 0 16 0 1048640 None (None, None) (0, NO_PAGE) (40, 50) (10, 20) (None, None) None 4 4.
Lemma one_data : data one 0 = Some first_block.
Proof. vm_compute. reflexivity. Qed.
Lemma two_data : data two 0 = Some first_block ∧ data two 1 = Some second_block.
Proof. split; vm_compute; reflexivity. Qed.

(** The blocks of this machine lie in one page. *)
Lemma one_one_part v index : good one v → page_dom one index → one_part (v_page v index).
Proof.
  intros HG Hdom i _ H1'. apply (li_page _ _ (ci_listed _ _ (gd_inv _ _ HG)) index i 1%nat Hdom) in H1' as (Hl & t & Ht & a & Ha & Hne & _).
  pose proof (lay_live _ _ (ci_layout _ _ (gd_inv _ _ HG)) i Hl) as Hi. assert (En : nb_tbs one = 1) by (vm_compute; reflexivity). rewrite En in Hi.
  assert (i = 0%nat) as -> by lia. rewrite one_data in Ht. injection Ht as <-. injection Ha as <-. exact (Hne eq_refl).
Qed.
Lemma one_page_0 : page_dom one 0.
Proof. split; [by vm_compute|]. eexists. vm_compute. reflexivity. Qed.

(** ** The hypotheses of the theorems hold here *)

Lemma cache_run_witness : ∃ v', good one v'.
Proof.
  destruct (find_runs _ _ (boot_good (256, false))) as [o E].
  exact (cache_run (boot (256, false)) one empty_view (boot_good _) (rtc_once _ _ (step_find _ _ o E))).
Defined.

Lemma find_right_block_witness : ∃ o s' v', tb_find_fast (boot (256, false)) = Ok o s' ∧ looked_up (boot (256, false)) s' empty_view v' 256 0 0 o.
Proof. exact (find_right_block (boot (256, false)) empty_view (boot_good _)). Defined.

Lemma invalidate_unlinks_witness : ∃ v s', 0%nat ∈ v_live v ∧ tb_phys_invalidate 0 NO_PAGE one = Ok () s' ∧ invalidated one s' v 0.
Proof.
  destruct one_good as [v HG]. destruct (invalidate_unlinks one v 0 (gd_inv _ _ HG) (one_live v HG)) as (s' & E & IV).
  exists v, s'. split; [by apply one_live|]. by split.
Defined.

Lemma gen_code_links_witness : ∃ o s' v1 v', tb_gen_code 256 0 0 0 (boot (256, false)) = Ok o s' ∧ generated (boot (256, false)) s' empty_view v1 v' 256 0 0 0 o.
Proof. exact (gen_code_links (boot (256, false)) empty_view 256 0 0 0 (boot_inv _) (gd_buffer _ _ (boot_good _)) (boot_code_in_ram _)). Defined.

Lemma one_current v : current_ok one v.
Proof. right. left. vm_compute. reflexivity. Qed.

Lemma device_write_clears_witness : ∃ s' v', tb_invalidate_phys_page_range 256 512 false one = Ok (Some ()) s' ∧ good s' v' ∧
  ∀ a i n t, 256 ≤ a < 512 → i ∈ v_live v' → data s' i = Some t → (n < 2)%nat → ¬ code_byte t n a.
Proof.
  destruct one_good as [v HG]. destruct one_page_0 as [Hi He].
  destruct (device_write_clears one v 256 512 HG (one_current v)) as (s' & v' & E & G & _ & Hc);
    [unfold in_width; lia|exact Hi|exact He|by apply one_one_part|by vm_compute|]. exists s', v'. exact (conj E (conj G Hc)).
Defined.

Lemma one_ram : ram_blocks (tb_ram one) = [ram_block].
Proof. vm_compute. reflexivity. Qed.
Lemma one_owner : ∃ b, owner 256 (tb_ram one) b.
Proof. exists ram_block. split; [rewrite one_ram; left|unfold in_range; simpl; lia]. Qed.
Lemma four_bytes : 4 ∈ [1; 2; 4; 8].
Proof. right. right. left. Qed.
Lemma one_single : single_env one = true.
Proof. vm_compute. reflexivity. Qed.

(** The block writes from its own code. *)
Definition with_io (pc : Z) (s : tb_state regs) : tb_state regs := set_tb_cpu (set_mem_io_pc pc (tb_cpu s)) s.
Lemma with_io_good pc s v : good s v → good (with_io pc s) v.
Proof. intros HG. eapply shrunk_good; [exact HG|]. apply shrunk_same; [apply HG|by split|done..]. Qed.
Lemma with_io_same pc s v a : current_ok s v → single_env s = true → (∃ b, owner a (tb_ram s) b) →
  current_ok (with_io pc s) v ∧ single_env (with_io pc s) = true ∧ ∃ b, owner a (tb_ram (with_io pc s)) b.
Proof. done. Qed.
Definition self_writing : tb_state regs := with_io 1048581 one.
Definition returned {A} (m : TBM regs A) (s : tb_state regs) : option A := match m s with Ok a _ => Some a | Err _ _ => None end.
Lemma returned_is {A} (m : TBM regs A) s a b s' : returned m s = Some a → m s = Ok b s' → b = a.
Proof. unfold returned. intros H E. rewrite E in H. by injection H. Qed.

Lemma one_returns : returned (tb_invalidate_phys_page_fast 256 4) one = Some (Some ()).
Proof. vm_compute. reflexivity. Qed.
Lemma self_leaves : returned (tb_invalidate_phys_page_fast 256 4) self_writing = Some None.
Proof. vm_compute. reflexivity. Qed.

(** From elsewhere the write returns, from the block's own code it leaves, and the
    full invalidation does the same. *)
Lemma fast_write_equals_witness :
  (∃ s1 s2, tb_invalidate_phys_page_fast 256 4 one = Ok (Some ()) s1 ∧ tb_invalidate_phys_page_range 256 260 true one = Ok (Some ()) s2) ∧
  ∃ s1 s2 v, tb_invalidate_phys_page_fast 256 4 self_writing = Ok None s1 ∧ tb_invalidate_phys_page_range 256 260 true self_writing = Ok None s2 ∧
    ∃ c t, self_modified (touched_set self_writing 256 260 (v_page v 0)) self_writing c t.
Proof.
  destruct one_good as [v HG]. assert (Hr : 0 ≤ 256 < 2 ^ 64 - 8) by (split; [apply Zle_bool_imp_le; reflexivity|reflexivity]). split.
  - destruct (fast_write_equals one v 256 4 HG (one_current v) one_single one_owner four_bytes eq_refl Hr (proj1 one_page_0) (one_one_part v 0 HG one_page_0))
      as (o & s1 & s2 & v1 & v2 & E1 & E2 & _). pose proof (returned_is _ _ _ o s1 one_returns E1) as Eo.
    exists s1, s2. rewrite Eo in E1, E2. exact (conj E1 E2).
  - destruct (with_io_same 1048581 one v 256 (one_current v) one_single one_owner) as (Hc & He & Ho).
    destruct (fast_write_equals self_writing v 256 4 (with_io_good _ one v HG) Hc He Ho four_bytes eq_refl Hr (proj1 one_page_0) (one_one_part v 0 HG one_page_0))
      as (o & s1 & s2 & v1 & v2 & E1 & E2 & _ & _ & _ & _ & Hl & _). pose proof (returned_is _ _ _ o s1 self_leaves E1) as Eo.
    exists s1, s2, v. pose proof (proj1 Hl Eo) as Hm. rewrite Eo in E1, E2. exact (conj E1 (conj E2 Hm)).
Defined.

Definition executing (i : nat) (s : tb_state regs) : tb_state regs := set_tb_cpu (set_current_tb (Some i) (tb_cpu s)) s.
Lemma executing_good i s v : good s v → good (executing i s) v.
Proof. intros HG. eapply shrunk_good; [exact HG|]. apply shrunk_same; [apply HG|by split|done..]. Qed.

Lemma second_jump : has_jump first_block 1.
Proof. exists 50. split; [reflexivity|lia]. Qed.
Lemma chained_good : ∃ v, good chained_two v ∧ 0%nat ∈ v_live v.
Proof.
  destruct two_good as [v HG]. destruct (two_live v HG) as [L0 L1], two_data as [D0 D1].
  destruct (chain_good two v 0 1 1 first_block HG L0 L1 D0 second_jump ltac:(lia)) as (s' & v' & E & G & _).
  assert (Es : chained_two = s') by (unfold chained_two, run; by rewrite E). rewrite <-Es in G. exists v'. split; [exact G|].
  apply (head_live chained_two v' 64); [apply (gd_inv _ _ G)|vm_compute; reflexivity].
Qed.
Definition running : tb_state regs := executing 0 chained_two.

Lemma interrupt_unchains_witness : ∃ s' v v', tcg_handle_interrupt 2 running = Ok () s' ∧ good s' v' ∧ ∀ i, reaches v 0 i → ¬ jumps_from v' i.
Proof.
  destruct chained_good as (v & HG & L0).
  destruct (interrupt_unchains running v 2 (executing_good 0 _ _ HG)) as (s' & v' & E & G & _ & _ & Hr).
  { intros tb Htb. injection Htb as <-. exact L0. }
  exists s', v, v'. exact (conj E (conj G (λ i, Hr 0%nat i eq_refl))).
Defined.

Lemma one_bounds : code_gen_buffer one = 1048576 ∧ code_gen_ptr one = 1048640 ∧ nb_tbs one = 1.
Proof. vm_compute. repeat split. Qed.
Lemma find_pc_block_witness : tb_find_pc 1048581 one = Ok (Some 0%nat) one.
Proof.
  destruct one_good as [v HG]. destruct one_bounds as (Eb & Ep & En).
  apply (find_pc_block one v 1048581 0 (gd_inv _ _ HG)).
  - rewrite Eb, Ep. lia.
  - rewrite En. lia.
  - unfold tc_at. change (Z.to_nat 0) with 0%nat. rewrite one_data. simpl. lia.
  - rewrite En. lia.
Defined.

Lemma small_remapped : remapped (256, false) (256, true) 4096.
Proof.
  intros a. rewrite !page_mask. intros Ha. simpl. unfold fetch. case_bool_decide; [|done]. simpl. f_equal. apply Z.mod_small.
  change (4096 - 4096 mod 4096) with 4096 in Ha. destruct (decide (a < 4096)); [lia|]. destruct Ha.
  pose proof (Z.div_mod a 4096 ltac:(lia)). assert (a / 4096 = 1) as Hq by (symmetry; apply (Z.div_unique a 4096 1 (a - 4096)); lia). lia.
Qed.
Lemma remapped_in_ram s r : ram_blocks (tb_ram s) = [ram_block] → code_in_ram (set_tb_cpu (set_cpu_regs r (tb_cpu s)) s).
Proof. intros E. by apply small_code_in_ram. Qed.
Lemma one_regs : cpu_regs (tb_cpu one) = (256, false).
Proof. vm_compute. reflexivity. Qed.

Lemma remap_coherent_witness : ∃ v s', tlb_flush_jmp_cache 4096 (set_tb_cpu (set_cpu_regs (256, true) (tb_cpu one)) one) = Ok () s' ∧ good s' v.
Proof.
  destruct one_good as [v HG].
  destruct (remap_coherent one v (256, true) 4096 HG) as (s' & E & G & _).
  - unfold in_width, target_long_bits, long32. lia.
  - rewrite one_regs. exact small_remapped.
  - exact (remapped_in_ram one _ one_ram).
  - exists v, s'. exact (conj E G).
Defined.

Lemma chained_jump_witness : ∃ s' v', tb_add_jump 0 1 1 two = Ok () s' ∧ good s' v'.
Proof.
  destruct two_good as [v HG]. destruct (two_live v HG) as [L0 L1], two_data as [D0 D1].
  destruct (chained_jump two v 0 1 1 first_block second_block HG L0 L1 D0 D1 second_jump ltac:(lia)) as (s' & v' & E & G & _).
  exists s', v'. exact (conj E G).
Defined.

Lemma set_bits_exact_witness : ∃ tab', set_bits [1; 0; 0; 0] 3 16 = Some tab' ∧ bit_at tab' 18 = true ∧ bit_at tab' 19 = false.
Proof.
  destruct (set_bits_exact [1; 0; 0; 0] 3 16) as (tab' & E & _ & _ & Hb); [repeat constructor; lia|lia|lia|simpl; lia|].
  exists tab'. split; [exact E|]. rewrite !Hb by lia. split; reflexivity.
Defined.

(** ** A block on one physical page twice *)

(** The two virtual pages of the block at 4088 are the same physical page. *)
Definition twice : tb_state regs := run tb_find_fast (boot (4088, true)).
Definition segfaults {A} (m : TBM regs A) (s : tb_state regs) : bool := match m s with Err Segv _ => true | _ => false end.

(** A block both of whose virtual pages are mapped to one physical page is on the
    list of that page twice. A write to the page that touches both of its parts
    invalidates it a second time after it has left its hash chain, and
    [tb_remove] runs off the end of the chain. *)
Example both_pages_crash : rtc tb_step (boot (4088, true)) twice ∧ (∃ v, good twice v ∧ 0%nat ∈ v_live v) ∧
  page_addr <$> data twice 0 = Some (0, 0) ∧ segfaults (tb_invalidate_phys_page_range 0 4096 false) twice = true.
Proof.
  destruct (find_runs _ _ (boot_good (4088, true))) as [o E]. split; [exact (rtc_once _ _ (step_find _ _ o E))|]. split; [|split; vm_compute; reflexivity].
  destruct (found_good _ _ (boot_good (4088, true))) as [v HG]. exists v. split; [exact HG|].
  apply (head_live twice v 1022); [apply (gd_inv _ _ HG)|vm_compute; reflexivity].
Qed.
End TBExamples.
