(* ===== verification/TBLoopExamples.v ===== *)
(** * The CPU loop on a small machine

    The hypotheses of the theorems of [TBLoop] hold on the machine of [TBExamples];
    and what happens to the last block when a plugin flushes the cache. *)

From S2P Require Import Prelude CFile CString HostMem RamList Radix PhysPages RRTypes PandaCallbacks.
From S2P Require Import RRState RRReplay RRFormat RRReplayInv RRSession RRTheorems IOMem PhysMem PhysMemExamples.
From S2P Require Import TBCache TBLists TBInv TBRemove TBInsert TBGen TBBitmap TBShape TBFind TBHost TBChain TBRange TBFast TBSteps TBLoop TBExamples.
From stdpp Require Import functions list relations.
Local Open Scope Z_scope.
Import PhysMemExamples TBExamples.

Module TBLoopExamples.

(** No plugin wants a block to be translated again. *)
#[export] Instance no_opt : InvalidateOpt := λ _ _, false.
#[export] Instance small_replay : ReplayLaws regs.
Proof.
  split. intros r q t g Hm Hn [= <-]. simpl. unfold left_before. rewrite bool_decide_true by done.
  replace (0 <? rr_num_instr_before_next_interrupt q) with true by lia. simpl. lia.
Qed.

(** The first two pages are RAM at their own addresses. *)
Definition two_pages : gmap Z (ptab P_LEVELS) :=
  phys_page_store (phys_page_store (phys_page_alloc ∅ 0) 0 (mkDesc 0 0)) 1 (mkDesc 4096 0).

Lemma two_pages_agree pc : debug_agrees two_pages (pc, false).
Proof.
  intros a ph. simpl. unfold fetch. case_bool_decide as Ha; [|done]. intros [= <-]. unfold debug_ram_addr, page_offset_of. simpl.
  rewrite page_offset, Z.shiftr_div_pow2 by done. change (2 ^ TARGET_PAGE_BITS) with 4096. pose proof (Z.div_mod a 4096 ltac:(lia)) as E.
  pose proof (Z.mod_pos_bound a 4096 ltac:(lia)) as M. assert (Hq : a / 4096 = 0 ∨ a / 4096 = 1) by lia.
  assert (Hl : Z.lor 4096 (a mod 4096) = 4096 + a mod 4096).
  { assert (Hz : Z.land 4096 (a mod 4096) = 0) by (change 4096 with (2 ^ 12) at 2; rewrite <-Z.land_ones by lia; rewrite Z.land_comm, <-Z.land_assoc; apply Z.land_0_r).
    pose proof (Z.add_lor_land 4096 (a mod 4096)). lia. }
  destruct Hq as [Hq|Hq]; rewrite Hq in *.
  - assert (Ep : phys_page_find two_pages 0 = Some (mkDesc 0 0)) by (vm_compute; reflexivity). rewrite Ep.
    change (Z.land (wrap target_long_bits (phys_offset (mkDesc 0 0))) TARGET_PAGE_MASK) with 0. rewrite Z.lor_0_l. lia.
  - assert (Ep : phys_page_find two_pages 1 = Some (mkDesc 4096 0)) by (vm_compute; reflexivity). rewrite Ep.
    change (Z.land (wrap target_long_bits (phys_offset (mkDesc 4096 0))) TARGET_PAGE_MASK) with 4096. lia.
Qed.

Lemma small_apart pc : pages_apart (pc, false).
Proof.
  intros a ph ph'. simpl. unfold fetch. case_bool_decide as Ha; [|done]. intros [= <-]. case_bool_decide as Hb; [|done]. intros [= <-].
  unfold next_page in *. rewrite page_mask in *. unfold target_long_bits, long32 in *. change TARGET_PAGE_SIZE with 4096 in *.
  pose proof (Z.mod_pos_bound a 4096 ltac:(lia)). rewrite wrap_small by (unfold in_width; lia). lia.
Qed.

(** The first block has four instructions; in the replay two are left. *)
Definition two_left (s : tb_state regs) : tb_state regs :=
  set_tb_rr (set_rr_num_instr_before_next_interrupt 2 (set_rr_mode RR_REPLAY (tb_rr s))) s.
Lemma two_left_good s v : good s v → good (two_left s) v.
Proof. intros HG. eapply shrunk_good; [exact HG|]. apply shrunk_same; [apply HG|by split|done|]. simpl. by destruct (tb_rr s). Qed.

Lemma two_left_ok s : (∀ i, data (two_left s) i = data s i) ∧ tb_cpu (two_left s) = tb_cpu s ∧
  rr_mode (tb_rr (two_left s)) = RR_REPLAY ∧ rr_num_instr_before_next_interrupt (tb_rr (two_left s)) = 2.
Proof. split; [done|]. split; [done|]. unfold two_left. simpl. by destruct (tb_rr s). Qed.
Lemma goto_ok pc s : tb_rr (goto pc s) = tb_rr s ∧ ∀ i, data (goto pc s) i = data s i.
Proof. done. Qed.

Lemma one_apart v : good one v → parts_apart (two_left one) v.
Proof.
  intros HG i t Hi Ht. rewrite (proj1 (two_left_ok one)) in Ht.
  pose proof (lay_live _ _ (ci_layout _ _ (gd_inv _ _ HG)) i Hi) as Hn. rewrite (proj2 (proj2 one_bounds)) in Hn.
  assert (i = 0%nat) as -> by lia. rewrite one_data in Ht. injection Ht as <-. unfold first_block, NO_PAGE. simpl. lia.
Qed.
Lemma one_off : rr_mode (tb_rr one) = RR_OFF.
Proof. vm_compute. reflexivity. Qed.
Lemma one_idle : current_tb (tb_cpu one) = None.
Proof. vm_compute. reflexivity. Qed.

Lemma replay_block_fits_witness : ∃ o s' v', cpu_exec_block two_pages false false true None (two_left one) = Ok o s' ∧ good s' v' ∧
  ∀ tb next', o = Some (tb, next') → ∃ t, data s' tb = Some t ∧ num_guest_insns t ≤ 2.
Proof.
  destruct one_good as [v HG]. destruct (two_left_ok one) as (_ & Ec & Em & En).
  destruct (replay_block_fits (two_left one) v two_pages false false true None (two_left_good _ _ HG) Em) as (o & s' & v' & E & G & Hf).
  - rewrite En. lia.
  - rewrite Ec, one_regs. exact (two_pages_agree 256).
  - exact (one_apart v HG).
  - rewrite Ec, one_regs. exact (small_apart 256).
  - rewrite Ec. exact one_idle.
  - exists o, s', v'. split; [exact E|]. split; [exact G|]. intros tb next' Ho. destruct (Hf tb next' Ho) as (_ & _ & t & Ht & Hn).
    exists t. split; [exact Ht|]. rewrite En in Hn. exact Hn.
Defined.

(** The block it had been translated to before is replaced by a shorter one. *)
Definition insns (s : tb_state regs) (tb : nat) : option Z := num_guest_insns <$> data s tb.
Example shorter_block :
  match cpu_exec_block two_pages false false true None (two_left one) with
  | Ok (Some (tb, _)) s' => tb = 1%nat ∧ insns (two_left one) 0 = Some 4 ∧ insns s' 1 = Some 2 ∧ current_tb (tb_cpu s') = Some 1%nat
  | _ => False
  end.
Proof. vm_compute. repeat split. Qed.

(** A jump whose link is empty is not chained. *)
Lemma unlinked_jump (s : tb_state regs) v p n : good s v → rd s (SJmpNext p n) = Some None → no_jump v (p, n).
Proof.
  intros HG Hn j Hj Hx. destruct (jump_slot_some _ _ _ _ _ (ci_jumps _ _ (gd_inv _ _ HG)) Hj Hx) as [w Hw]. change (rd s (SJmpNext p n) = Some (Some w)) in Hw. congruence.
Qed.
Lemma one_unlinked : rd one (SJmpNext 0 1) = Some None.
Proof. vm_compute. reflexivity. Qed.
Lemma goto_4080 : returned (cpu_exec_block ∅ false false true (Some (0%nat, 1%nat))) (goto 4080 one) = Some (Some (1%nat, Some (0%nat, 1%nat))).
Proof. vm_compute. reflexivity. Qed.
Lemma goto_4080_data s' : cpu_exec_block ∅ false false true (Some (0%nat, 1%nat)) (goto 4080 one) = Ok (Some (1%nat, Some (0%nat, 1%nat))) s' →
  data s' 0 = Some first_block ∧ data s' 1 = Some second_block.
Proof.
  intros E. assert (Hd : match cpu_exec_block ∅ false false true (Some (0%nat, 1%nat)) (goto 4080 one) with
    Ok _ s' => data s' 0 = Some first_block ∧ data s' 1 = Some second_block | Err _ _ => False end) by (vm_compute; split; reflexivity).
  by rewrite E in Hd.
Qed.

(** The jump of the first block leads to the block at 4080. *)
Lemma next_block_chained_witness : ∃ s' v', cpu_exec_block ∅ false false true (Some (0%nat, 1%nat)) (goto 4080 one) = Ok (Some (1%nat, Some (0%nat, 1%nat))) s' ∧
  good s' v' ∧ jumps_to v' (0%nat, 1%nat) 1 ∧ tc_code s' !! jump_site first_block 1 = Some (jump_word (jump_site first_block 1) (tb_tc_ptr second_block)).
Proof.
  destruct one_good as [v HG].
  destruct (next_block_chained (goto 4080 one) v ∅ false (Some (0%nat, 1%nat)) (goto_good _ _ _ HG)) as (o & s' & v' & E & G & _ & Hb).
  - rewrite (proj1 (goto_ok 4080 one)). rewrite one_off. discriminate.
  - intros f tb. reflexivity.
  - intros p n [= <- <-]. split; [lia|]. split; [exact (one_live v HG)|]. split; [exact (unlinked_jump one v 0 1 HG one_unlinked)|]. exists first_block.
    rewrite (proj2 (goto_ok 4080 one)). exact (conj one_data second_jump).
  - pose proof (returned_is _ _ _ o s' goto_4080 E) as Eo. rewrite Eo in E. destruct (Hb 1%nat (Some (0%nat, 1%nat)) Eo) as (_ & _ & _ & Hl & _).
    destruct (goto_4080_data s' E) as [D0 D1]. exists s', v'. exact (conj E (conj G (Hl 0%nat 1%nat first_block second_block eq_refl D0 D1))).
Defined.

Section Stuck.
#[local] Existing Instance Demo.machine.
#[local] Existing Instance Demo.target.
Lemma stuck_replay_ends_witness : ∃ s', (w ← watch_start; check_times 20 w) (Examples.at_point Examples.p1 (Examples.replaying_on Examples.input_items)) = Err Abort s'.
Proof. exact (proj2 (stuck_replay_ends _ _ (Examples.at_point_inv Examples.p1 _ Examples.input_items_ok))). Defined.
End Stuck.

(** ** A flush forgets the last block *)

(** The word of the code buffer a jump of a block is in, and what it would hold if
    the block jumped to itself. *)
Definition jumps_to_itself (s : tb_state regs) (tb n : nat) : bool :=
  match data s tb with
  | Some t => bool_decide (tc_code s !! jump_site t n = Some (jump_word (jump_site t n) (tb_tc_ptr t)))
  | None => false
  end.

(** The block at 256 ran last and left through its second jump, a plugin asked for
    a flush, and the CPU is at 4080. The flag that says that the blocks are gone is
    cleared again by the lookup, so the jump of the new block, which has the place of
    the old one, is chained: the block at 4080 leads to itself, whatever its jump
    is for. *)
Example flush_chains_stale :
  match cpu_exec_block ∅ true false true (Some (0%nat, 1%nat)) (goto 4080 one) with
  | Ok (Some (tb, next)) s' => tb = 0%nat ∧ next = Some (0%nat, 1%nat) ∧ tb_flush_count s' = 1 ∧ nb_tbs s' = 1 ∧
      tb_pc <$> data s' 0 = Some 4080 ∧ jumps_to_itself s' 0 1 = true
  | _ => False
  end.
Proof. vm_compute. repeat split. Qed.
End TBLoopExamples.
