(* ===== verification/TLB.v ===== *)
(** * The software TLB ([exec.c], [cpu-all.h], [cpu-defs.h])

    For each mode of the MMU a table of entries, indexed by the low bits of the
    virtual page number: what generated code compares addresses with, and what it
    adds to them to get a host pointer. The low bits of the addresses say which
    accesses must not go to RAM directly. *)

From S2P Require Import Prelude CFile CString HostMem RamList Radix PhysPages RRTypes PandaCallbacks.
From S2P Require Import RRState RRReplay TBCache.
From stdpp Require Import list.
Local Open Scope Z_scope.

(** ** Data *)

Definition CPU_TLB_BITS : Z := 8.
Definition CPU_TLB_SIZE : Z := Z.shiftl 1 CPU_TLB_BITS.
Definition TLB_INVALID_MASK : Z := Z.shiftl 1 3.
Definition TLB_NOTDIRTY : Z := Z.shiftl 1 4.
Definition TLB_MMIO : Z := Z.shiftl 1 5.
Definition PAGE_READ : Z := 1.
Definition PAGE_WRITE : Z := 2.
Definition PAGE_EXEC : Z := 4.
Definition BP_MEM_READ : Z := 1.
Definition BP_MEM_WRITE : Z := 2.
Definition BP_STOP_BEFORE_ACCESS : Z := 4.
Definition BP_WATCHPOINT_HIT : Z := 8.
Definition BP_GDB : Z := 16.
Definition EXCP_DEBUG : Z := 0x10002.
Definition CPU_INTERRUPT_DEBUG : Z := 128.
Definition EINVAL : Z := 22.
Definition ENOENT : Z := 2.

Record CPUTLBEntry := mkTE { addr_read : Z; addr_write : Z; addr_code : Z; addend : Z }.
Definition set_addr_write (x : Z) (e : CPUTLBEntry) : CPUTLBEntry := mkTE (addr_read e) x (addr_code e) (addend e).

Record CPUWatchpoint := mkWP { wp_vaddr : Z; wp_len_mask : Z; wp_flags : Z }.
Definition set_wp_flags (x : Z) (w : CPUWatchpoint) : CPUWatchpoint := mkWP (wp_vaddr w) (wp_len_mask w) x.
Record CPUBreakpoint := mkBP { bp_pc : Z; bp_flags : Z }.

(** [NB_MMU_MODES]. *)
Class MMUModes := nb_mmu_modes : nat.

Section State.
Context `{PhysSpace} {Regs : Type}.

(** The TLB of the CPU next to the code cache, whose state holds the rest of the CPU
    and guest RAM. Of the pointer [watchpoint_hit] the code here uses whether it is
    null. *)
Record mmu_state := mkMMU {
  tlb_table : list (list CPUTLBEntry);
  iotlb : list (list Z);
  tlb_flush_addr : Z;
  tlb_flush_mask : Z;
  tlb_flush_count : Z;
  watchpoints : list CPUWatchpoint;
  breakpoints : list CPUBreakpoint;
  singlestep_enabled : Z;
  watchpoint_hit : bool;
  exception_index : Z;
  io_mem_watch : Z;
  mm_tb : tb_state Regs;
}.
Definition set_tlb_table (x : list (list CPUTLBEntry)) (s : mmu_state) : mmu_state :=
  mkMMU x (iotlb s) (tlb_flush_addr s) (tlb_flush_mask s) (tlb_flush_count s) (watchpoints s) (breakpoints s) (singlestep_enabled s) (watchpoint_hit s) (exception_index s) (io_mem_watch s) (mm_tb s).
Definition set_iotlb (x : list (list Z)) (s : mmu_state) : mmu_state :=
  mkMMU (tlb_table s) x (tlb_flush_addr s) (tlb_flush_mask s) (tlb_flush_count s) (watchpoints s) (breakpoints s) (singlestep_enabled s) (watchpoint_hit s) (exception_index s) (io_mem_watch s) (mm_tb s).
Definition set_tlb_flush_addr (x : Z) (s : mmu_state) : mmu_state :=
  mkMMU (tlb_table s) (iotlb s) x (tlb_flush_mask s) (tlb_flush_count s) (watchpoints s) (breakpoints s) (singlestep_enabled s) (watchpoint_hit s) (exception_index s) (io_mem_watch s) (mm_tb s).
Definition set_tlb_flush_mask (x : Z) (s : mmu_state) : mmu_state :=
  mkMMU (tlb_table s) (iotlb s) (tlb_flush_addr s) x (tlb_flush_count s) (watchpoints s) (breakpoints s) (singlestep_enabled s) (watchpoint_hit s) (exception_index s) (io_mem_watch s) (mm_tb s).
Definition set_tlb_flush_count (x : Z) (s : mmu_state) : mmu_state :=
  mkMMU (tlb_table s) (iotlb s) (tlb_flush_addr s) (tlb_flush_mask s) x (watchpoints s) (breakpoints s) (singlestep_enabled s) (watchpoint_hit s) (exception_index s) (io_mem_watch s) (mm_tb s).
Definition set_watchpoints (x : list CPUWatchpoint) (s : mmu_state) : mmu_state :=
  mkMMU (tlb_table s) (iotlb s) (tlb_flush_addr s) (tlb_flush_mask s) (tlb_flush_count s) x (breakpoints s) (singlestep_enabled s) (watchpoint_hit s) (exception_index s) (io_mem_watch s) (mm_tb s).
Definition set_breakpoints (x : list CPUBreakpoint) (s : mmu_state) : mmu_state :=
  mkMMU (tlb_table s) (iotlb s) (tlb_flush_addr s) (tlb_flush_mask s) (tlb_flush_count s) (watchpoints s) x (singlestep_enabled s) (watchpoint_hit s) (exception_index s) (io_mem_watch s) (mm_tb s).
Definition set_singlestep_enabled (x : Z) (s : mmu_state) : mmu_state :=
  mkMMU (tlb_table s) (iotlb s) (tlb_flush_addr s) (tlb_flush_mask s) (tlb_flush_count s) (watchpoints s) (breakpoints s) x (watchpoint_hit s) (exception_index s) (io_mem_watch s) (mm_tb s).
Definition set_watchpoint_hit (x : bool) (s : mmu_state) : mmu_state :=
  mkMMU (tlb_table s) (iotlb s) (tlb_flush_addr s) (tlb_flush_mask s) (tlb_flush_count s) (watchpoints s) (breakpoints s) (singlestep_enabled s) x (exception_index s) (io_mem_watch s) (mm_tb s).
Definition set_exception_index (x : Z) (s : mmu_state) : mmu_state :=
  mkMMU (tlb_table s) (iotlb s) (tlb_flush_addr s) (tlb_flush_mask s) (tlb_flush_count s) (watchpoints s) (breakpoints s) (singlestep_enabled s) (watchpoint_hit s) x (io_mem_watch s) (mm_tb s).
Definition set_mm_tb (x : tb_state Regs) (s : mmu_state) : mmu_state :=
  mkMMU (tlb_table s) (iotlb s) (tlb_flush_addr s) (tlb_flush_mask s) (tlb_flush_count s) (watchpoints s) (breakpoints s) (singlestep_enabled s) (watchpoint_hit s) (exception_index s) (io_mem_watch s) x.
End State.
#[global] Arguments mmu_state {_} _.

Section TLB.
Context `{PhysSpace} `{TargetLong} {Regs : Type} `{!Translator Regs}.
Abbreviation MMU := (M (mmu_state Regs)).
Implicit Types (e : CPUTLBEntry).

(** ** Parts of the state *)

(** A loop over the entries of all modes, and one over the entries of one index. *)
Definition each_entry (f : CPUTLBEntry → CPUTLBEntry) (t : list (list CPUTLBEntry)) : list (list CPUTLBEntry) :=
  (λ row : list CPUTLBEntry, f <$> row) <$> t.
Definition each_mode (i : nat) (f : CPUTLBEntry → CPUTLBEntry) (t : list (list CPUTLBEntry)) : list (list CPUTLBEntry) :=
  (λ row : list CPUTLBEntry, alter f i row) <$> t.
Definition upd_tlb (f : list (list CPUTLBEntry) → list (list CPUTLBEntry)) : MMU () :=
  modify (λ s, set_tlb_table (f (tlb_table s)) s).

Definition tlb_index (vaddr : Z) : nat := Z.to_nat (Z.land (Z.shiftr vaddr TARGET_PAGE_BITS) (CPU_TLB_SIZE - 1)).
(** [(target_ulong)-1]. *)
Definition minus_one : Z := 2 ^ target_long_bits - 1.

(** ** Clean pages *)

(** The entry writes to RAM directly: [(addr_write & ~TARGET_PAGE_MASK) == IO_MEM_RAM]. *)
Definition writes_ram e : bool := Z.land (addr_write e) (Z.lnot TARGET_PAGE_MASK) =? IO_MEM_RAM.
(** The host address of the page an entry writes to. *)
Definition write_host e : Z := wrap 64 (Z.land (addr_write e) TARGET_PAGE_MASK + addend e).

Definition tlb_reset_dirty_range (start length : Z) e : CPUTLBEntry :=
  if writes_ram e then
    if wrap 64 (write_host e - start) <? length
    then set_addr_write (Z.lor (Z.land (addr_write e) TARGET_PAGE_MASK) TLB_NOTDIRTY) e else e
  else e.

(** The operations of the code cache make pages clean: the entries that lead there are
    changed as each of their events says. No operation looks at the TLB in between. *)
Definition tlb_effect (ev : tb_event) (t : list (list CPUTLBEntry)) : list (list CPUTLBEntry) :=
  match ev with
  | EvTlbResetDirty start1 length => each_entry (tlb_reset_dirty_range start1 length) t
  | _ => t
  end.
Definition tlb_effects (evs : list tb_event) (t : list (list CPUTLBEntry)) : list (list CPUTLBEntry) :=
  foldl (λ t ev, tlb_effect ev t) t evs.
Definition after_tb (u : tb_state Regs) (s : mmu_state Regs) : mmu_state Regs :=
  set_mm_tb u (set_tlb_table (tlb_effects (drop (length (tb_trace (mm_tb s))) (tb_trace u)) (tlb_table s)) s).
Definition in_tb {A} (m : TBM Regs A) : MMU A := λ s,
  match m (mm_tb s) with
  | Ok a u => Ok a (after_tb u s)
  | Err x u => Err x (after_tb u s)
  end.
Definition in_mmu_ram {A} (m : RAM A) : MMU A := in_tb (in_tb_ram m).
Definition upd_env (f : CPUState Regs → CPUState Regs) : MMU () := in_tb (upd_cpu f).

(** ** Flushing *)

Definition s_cputlb_empty_entry : CPUTLBEntry := mkTE minus_one minus_one minus_one (2 ^ 64 - 1).

Definition tlb_flush : MMU () :=
  upd_env (set_current_tb None);;
  upd_tlb (each_entry (λ _, s_cputlb_empty_entry));;
  upd_env (set_tb_jmp_cache ∅);;
  modify (set_tlb_flush_addr minus_one);;
  modify (set_tlb_flush_mask 0);;
  modify (λ s, set_tlb_flush_count (int32 (tlb_flush_count s + 1)) s).

Definition entry_page (a : Z) : Z := Z.land a (Z.lor TARGET_PAGE_MASK TLB_INVALID_MASK).
Definition tlb_flush_entry (addr : Z) e : CPUTLBEntry :=
  if (addr =? entry_page (addr_read e)) || (addr =? entry_page (addr_write e)) || (addr =? entry_page (addr_code e))
  then s_cputlb_empty_entry else e.

Definition tlb_flush_page (addr : Z) : MMU () :=
  fa ← gets tlb_flush_addr; fm ← gets tlb_flush_mask;
  if Z.land addr fm =? fa then tlb_flush else
  upd_env (set_current_tb None);;
  let addr := Z.land addr TARGET_PAGE_MASK in
  upd_tlb (each_mode (tlb_index addr) (tlb_flush_entry addr));;
  in_tb (tlb_flush_jmp_cache addr).

(** ** Dirty pages *)

(** The loop over the TLB of [cpu_physical_memory_reset_dirty] is the effect of its
    event. *)
Definition mmu_reset_dirty (start end_ dirty_flags : Z) : MMU () := in_tb (cpu_physical_memory_reset_dirty start end_ dirty_flags).

Definition tlb_update_dirty e : MMU CPUTLBEntry :=
  if writes_ram e then
    ram_addr ← in_mmu_ram (qemu_ram_addr_from_host_nofail (write_host e));
    d ← in_mmu_ram (cpu_physical_memory_is_dirty ram_addr);
    mret (if (d : bool) then e else set_addr_write (Z.lor (addr_write e) TLB_NOTDIRTY) e)
  else mret e.
Fixpoint update_row (row : list CPUTLBEntry) : MMU (list CPUTLBEntry) :=
  match row with [] => mret [] | e :: row' => e' ← tlb_update_dirty e; r ← update_row row'; mret (e' :: r) end.
Fixpoint update_rows (t : list (list CPUTLBEntry)) : MMU (list (list CPUTLBEntry)) :=
  match t with [] => mret [] | r :: t' => r' ← update_row r; u ← update_rows t'; mret (r' :: u) end.
Definition cpu_tlb_update_dirty : MMU () := t ← gets tlb_table; t' ← update_rows t; modify (set_tlb_table t').

Definition tlb_set_dirty1 (vaddr : Z) e : CPUTLBEntry :=
  if addr_write e =? Z.lor vaddr TLB_NOTDIRTY then set_addr_write vaddr e else e.
Definition tlb_set_dirty (vaddr : Z) : MMU () :=
  let vaddr := Z.land vaddr TARGET_PAGE_MASK in upd_tlb (each_mode (tlb_index vaddr) (tlb_set_dirty1 vaddr)).

(** ** New entries *)

(** [while (((flush_addr ^ vaddr) & mask) != 0) mask <<= 1]. *)
Fixpoint widen (fuel : nat) (diff mask : Z) : option Z :=
  if Z.land diff mask =? 0 then Some mask else
  match fuel with O => None | S fuel' => widen fuel' diff (wrap target_long_bits (Z.shiftl mask 1)) end.
Definition tlb_add_large_page (vaddr size : Z) : MMU () :=
  let mask := wrap target_long_bits (Z.lnot (wrap target_long_bits (size - 1))) in
  fa ← gets tlb_flush_addr; fm ← gets tlb_flush_mask;
  if fa =? minus_one then
    modify (set_tlb_flush_addr (Z.land vaddr mask));; modify (set_tlb_flush_mask mask)
  else
    match widen (Z.to_nat target_long_bits) (Z.lxor fa vaddr) (Z.land mask fm) with
    | Some mask => modify (set_tlb_flush_addr (Z.land fa mask));; modify (set_tlb_flush_mask mask)
    | None => fail OutOfFuel
    end.

(** A watchpoint of the page traps: writes, and reads it is for. *)
Definition watched (vaddr prot : Z) (w : CPUWatchpoint) : bool :=
  (vaddr =? Z.land (wp_vaddr w) TARGET_PAGE_MASK) &&
  (negb (Z.land prot PAGE_WRITE =? 0) || negb (Z.land (wp_flags w) BP_MEM_READ =? 0)).

(** The I/O address of a page, before [vaddr] is subtracted. *)
Definition page_iotlb (pd paddr : Z) (p : option PhysPageDesc) : Z :=
  let io := Z.land pd (Z.lnot TARGET_PAGE_MASK) in
  if io <=? IO_MEM_ROM then
    Z.lor (Z.land pd TARGET_PAGE_MASK) (if io =? IO_MEM_RAM then IO_MEM_NOTDIRTY else IO_MEM_ROM)
  else match p with Some d => wrap 64 (io + region_offset d) | None => wrap 64 (io + paddr) end.

Definition tlb_set_page (phys : gmap Z (ptab P_LEVELS)) (vaddr paddr prot mmu_idx size : Z) : MMU () :=
  assert_or Abort (TARGET_PAGE_SIZE <=? size);;
  (if size =? TARGET_PAGE_SIZE then mret () else tlb_add_large_page vaddr size);;
  let p := phys_page_find phys (Z.shiftr paddr TARGET_PAGE_BITS) in
  let pd := match p with Some d => phys_offset d | None => IO_MEM_UNASSIGNED end in
  let io := Z.land pd (Z.lnot TARGET_PAGE_MASK) in
  let address := if (IO_MEM_ROM <? io) && (Z.land pd IO_MEM_ROMD =? 0) then Z.lor vaddr TLB_MMIO else vaddr in
  host ← in_mmu_ram (qemu_get_ram_ptr (Z.land pd TARGET_PAGE_MASK));
  let code_address := address in
  ws ← gets watchpoints; watch ← gets io_mem_watch;
  let trap := existsb (watched vaddr prot) ws in
  let io_addr := if trap then wrap 64 (watch + paddr) else page_iotlb pd paddr p in
  let address := if trap then Z.lor address TLB_MMIO else address in
  let index := tlb_index vaddr in
  aw ← (if Z.land prot PAGE_WRITE =? 0 then mret minus_one
        else if (io =? IO_MEM_ROM) || negb (Z.land pd IO_MEM_ROMD =? 0) then mret (Z.lor address TLB_MMIO)
        else if io =? IO_MEM_RAM then
          d ← in_mmu_ram (cpu_physical_memory_is_dirty pd);
          mret (if (d : bool) then address else Z.lor address TLB_NOTDIRTY)
        else mret address);
  let e := mkTE (if Z.land prot PAGE_READ =? 0 then minus_one else address) aw
                (if Z.land prot PAGE_EXEC =? 0 then minus_one else code_address) (wrap 64 (host - vaddr)) in
  t ← gets tlb_table; _ ← at_idx t mmu_idx;
  modify (λ s, set_iotlb (alter (λ row, <[index := wrap 64 (io_addr - vaddr)]> row) (Z.to_nat mmu_idx) (iotlb s)) s);;
  upd_tlb (alter (λ row, <[index := e]> row) (Z.to_nat mmu_idx)).

(** ** Watchpoints and breakpoints *)

(** The place of a watchpoint in the list stands for the pointer to it. *)
Definition cpu_watchpoint_insert (addr len flags : Z) : MMU Z :=
  let len_mask := wrap target_long_bits (Z.lnot (wrap target_long_bits (len - 1))) in
  if (negb (len =? 1) && negb (len =? 2) && negb (len =? 4) && negb (len =? 8)) || negb (Z.land addr (Z.lnot len_mask) =? 0)
  then mret (- EINVAL) else
  let wp := mkWP addr len_mask flags in
  modify (λ s, set_watchpoints (if Z.land flags BP_GDB =? 0 then watchpoints s ++ [wp] else wp :: watchpoints s) s);;
  tlb_flush_page addr;;
  mret 0.
Definition cpu_watchpoint_remove_by_ref (i : nat) : MMU () :=
  ws ← gets watchpoints;
  match ws !! i with
  | Some wp => modify (set_watchpoints (delete i ws));; tlb_flush_page (wp_vaddr wp)
  | None => fail UseAfterFree
  end.
Definition cpu_watchpoint_remove (addr len flags : Z) : MMU Z :=
  let len_mask := wrap target_long_bits (Z.lnot (wrap target_long_bits (len - 1))) in
  ws ← gets watchpoints;
  match list_find (λ w, addr = wp_vaddr w ∧ len_mask = wp_len_mask w ∧ flags = Z.land (wp_flags w) (Z.lnot BP_WATCHPOINT_HIT)) ws with
  | Some (i, _) => cpu_watchpoint_remove_by_ref i;; mret 0
  | None => mret (- ENOENT)
  end.
(** [QTAILQ_FOREACH_SAFE]; [i] watchpoints are kept so far. *)
Fixpoint remove_watchpoints (fuel i : nat) (mask : Z) : MMU () :=
  match fuel with
  | O => mret ()
  | S fuel' =>
      ws ← gets watchpoints;
      match ws !! i with
      | None => mret ()
      | Some w => if Z.land (wp_flags w) mask =? 0 then remove_watchpoints fuel' (S i) mask
                  else cpu_watchpoint_remove_by_ref i;; remove_watchpoints fuel' i mask
      end
  end.
Definition cpu_watchpoint_remove_all (mask : Z) : MMU () := n ← gets (λ s, length (watchpoints s)); remove_watchpoints n 0 mask.

Definition cpu_breakpoint_insert (phys : gmap Z (ptab P_LEVELS)) (pc flags : Z) : MMU Z :=
  let bp := mkBP pc flags in
  modify (λ s, set_breakpoints (if Z.land flags BP_GDB =? 0 then breakpoints s ++ [bp] else bp :: breakpoints s) s);;
  in_tb (breakpoint_invalidate phys pc);;
  mret 0.
Definition cpu_breakpoint_remove_by_ref (phys : gmap Z (ptab P_LEVELS)) (i : nat) : MMU () :=
  bs ← gets breakpoints;
  match bs !! i with
  | Some bp => modify (set_breakpoints (delete i bs));; in_tb (breakpoint_invalidate phys (bp_pc bp));; mret ()
  | None => fail UseAfterFree
  end.
Definition cpu_breakpoint_remove (phys : gmap Z (ptab P_LEVELS)) (pc flags : Z) : MMU Z :=
  bs ← gets breakpoints;
  match list_find (λ b, bp_pc b = pc ∧ bp_flags b = flags) bs with
  | Some (i, _) => cpu_breakpoint_remove_by_ref phys i;; mret 0
  | None => mret (- ENOENT)
  end.
Fixpoint remove_breakpoints (phys : gmap Z (ptab P_LEVELS)) (fuel i : nat) (mask : Z) : MMU () :=
  match fuel with
  | O => mret ()
  | S fuel' =>
      bs ← gets breakpoints;
      match bs !! i with
      | None => mret ()
      | Some b => if Z.land (bp_flags b) mask =? 0 then remove_breakpoints phys fuel' (S i) mask
                  else cpu_breakpoint_remove_by_ref phys i;; remove_breakpoints phys fuel' i mask
      end
  end.
Definition cpu_breakpoint_remove_all (phys : gmap Z (ptab P_LEVELS)) (mask : Z) : MMU () :=
  n ← gets (λ s, length (breakpoints s)); remove_breakpoints phys n 0 mask.

(** Without KVM. *)
Definition cpu_single_step (enabled : Z) : MMU () :=
  e ← gets singlestep_enabled;
  if e =? enabled then mret () else modify (set_singlestep_enabled enabled);; in_tb tb_flush.

(** ** Accesses *)

Definition tlb_entry (mmu_idx : nat) (index : nat) : MMU CPUTLBEntry :=
  t ← gets tlb_table;
  match (t !! mmu_idx) ≫= (λ row : list CPUTLBEntry, row !! index) with Some e => mret e | None => fail OutOfBounds end.
(** [get_page_addr_code]: the RAM address of a byte of code. [ldub_code], a load of the
    byte by the target's code, fills the TLB when it has no entry for the page. *)
Definition code_addr (ldub_code : Z → MMU ()) (mmu_idx : nat) (addr : Z) : MMU Z :=
  e ← tlb_entry mmu_idx (tlb_index addr);
  (if addr_code e =? Z.land addr TARGET_PAGE_MASK then mret () else ldub_code addr);;
  e ← tlb_entry mmu_idx (tlb_index addr);
  let pd := Z.land (addr_code e) (Z.lnot TARGET_PAGE_MASK) in
  if (IO_MEM_ROM <? pd) && (Z.land pd IO_MEM_ROMD =? 0) then fail Abort
  else in_mmu_ram (qemu_ram_addr_from_host_nofail (wrap 64 (addr + addend e))).

(** An access of the size of [len_mask] touches the watchpoint, and it is for such
    accesses. *)
Definition watch_hits (vaddr len_mask flags : Z) (w : CPUWatchpoint) : bool :=
  ((vaddr =? Z.land (wp_vaddr w) len_mask) || (Z.land vaddr (wp_len_mask w) =? wp_vaddr w)) && negb (Z.land (wp_flags w) flags =? 0).
Definition hit_watch (w : CPUWatchpoint) : CPUWatchpoint := set_wp_flags (Z.lor (wp_flags w) BP_WATCHPOINT_HIT) w.
Definition miss_watch (w : CPUWatchpoint) : CPUWatchpoint := set_wp_flags (Z.land (wp_flags w) (Z.lnot BP_WATCHPOINT_HIT)) w.
(** The first watchpoint that is hit: the block that makes the access goes, and control
    leaves. *)
Definition watch_stop (flags : Z) : MMU () :=
  pc ← gets (λ s, mem_io_pc (tb_cpu (mm_tb s)));
  o ← in_tb (tb_find_pc pc);
  match o with
  | None => fail Abort
  | Some tb =>
      in_tb (cpu_restore_state tb pc);;
      in_tb (tb_phys_invalidate tb NO_PAGE);;
      if negb (Z.land flags BP_STOP_BEFORE_ACCESS =? 0) then
        modify (set_exception_index EXCP_DEBUG);; in_tb cpu_resume_from_signal
      else
        r ← gets (λ s, cpu_regs (tb_cpu (mm_tb s)));
        let '(pc, cs_base, cpu_flags) := cpu_get_tb_cpu_state r in
        o ← in_tb (tb_gen_code pc cs_base cpu_flags 1);
        match o with None => mret () | Some _ => in_tb cpu_resume_from_signal end
  end.
Fixpoint check_watches (vaddr len_mask flags : Z) (checked ws : list CPUWatchpoint) : MMU (option ()) :=
  match ws with
  | [] => modify (set_watchpoints checked);; mret (Some ())
  | w :: ws' =>
      if watch_hits vaddr len_mask flags w then
        modify (set_watchpoints (checked ++ hit_watch w :: ws'));; modify (set_watchpoint_hit true);;
        watch_stop (wp_flags w);; mret None
      else check_watches vaddr len_mask flags (checked ++ [miss_watch w]) ws'
  end.
(** [None]: control leaves through [longjmp]. *)
Definition check_watchpoint (offset len_mask flags : Z) : MMU (option ()) :=
  e ← gets (λ s, cpu_single_env (tb_rr (mm_tb s))); assert_or Segv e;;
  h ← gets watchpoint_hit;
  if (h : bool) then in_tb (tcg_handle_interrupt CPU_INTERRUPT_DEBUG);; mret (Some ()) else
  va ← gets (λ s, mem_io_vaddr (tb_cpu (mm_tb s)));
  let vaddr := wrap target_long_bits (Z.land va TARGET_PAGE_MASK + offset) in
  ws ← gets watchpoints;
  check_watches vaddr len_mask flags [] ws.

(** A write to a page that was clean, of [len] bytes given in the target's order. *)
Definition store_ram (ptr : Z) (d : list byte) : RAM () :=
  m ← gets ram_mem;
  match mem_read m ptr (length d) with
  | Some _ => modify (set_ram_mem (mem_write m ptr d))
  | None => fail Segv
  end.
Definition notdirty_store (ram_addr flags : Z) (d : list byte) : MMU () :=
  ptr ← in_mmu_ram (qemu_get_ram_ptr ram_addr);
  in_mmu_ram (store_ram ptr d);;
  let flags := Z.lor flags (Z.land 255 (Z.lnot CODE_DIRTY_FLAG)) in
  in_mmu_ram (cpu_physical_memory_set_dirty_flags ram_addr flags);;
  if flags =? 255 then
    e ← gets (λ s, cpu_single_env (tb_rr (mm_tb s))); assert_or Segv e;;
    va ← gets (λ s, mem_io_vaddr (tb_cpu (mm_tb s))); tlb_set_dirty va
  else mret ().
(** [None]: the CPU leaves the block it executes before the store. *)
Definition notdirty_write (ram_addr : Z) (d : list byte) : MMU (option ()) :=
  flags ← in_mmu_ram (cpu_physical_memory_get_dirty_flags ram_addr);
  o ← (if Z.land flags CODE_DIRTY_FLAG =? 0 then
         o ← in_tb (tb_invalidate_phys_page_fast ram_addr (Z.of_nat (length d)));
         match o with
         | None => mret None
         | Some _ => f ← in_mmu_ram (cpu_physical_memory_get_dirty_flags ram_addr); mret (Some f)
         end
       else mret (Some flags));
  match o with
  | None => mret None
  | Some flags => notdirty_store ram_addr flags d;; mret (Some ())
  end.
End TLB.
