(* ===== verification/TLBQuiet.v ===== *)
(** * The code cache and the TLB

    What the operations of the code cache do to guest RAM: they leave the blocks
    alone, and tell the TLB about every page that stops being dirty. *)

From S2P Require Import Prelude CFile CString HostMem RamList Radix PhysPages RRTypes PandaCallbacks.
From S2P Require Import RRState RRReplay TBCache TBSteps TBLoop.
From stdpp Require Import list relations.
Local Open Scope Z_scope.

(** ** Pages of RAM in the host *)

(** The host address [h] is that of a byte of page [k] of RAM. *)
Definition host_page (r : ram_state) (h k : Z) : Prop :=
  ∃ b, b ∈ ram_blocks r ∧ in_range (blk_host b) (blk_length b) h ∧ k = Z.shiftr (blk_offset b + (h - blk_host b)) TARGET_PAGE_BITS.

(** RAM is well formed; page numbers fit 51 bits. *)
Definition ram_wf (r : ram_state) : Prop := ram_ok r ∧ Z.of_nat (length (phys_dirty r)) ≤ 2 ^ 51.
Definition dirty_page (r : ram_state) (k : Z) : Prop := 0 ≤ k ∧ phys_dirty r !! Z.to_nat k = Some 255.

(** The TLB is told that the page is clean. *)
Definition told (r : ram_state) (evs : list tb_event) (k : Z) : Prop :=
  ∃ start length, EvTlbResetDirty start length ∈ evs ∧ ∀ h, host_page r h k → wrap 64 (h - start) < length.

Section Quiet.
Context `{PhysSpace} `{TargetLong} {Regs : Type} `{!Translator Regs}.
Implicit Types (s : tb_state Regs).

(** What the CPU is doing for the guest. *)
Definition same_env s s' : Prop := mem_io_vaddr (tb_cpu s') = mem_io_vaddr (tb_cpu s) ∧ cpu_single_env (tb_rr s') = cpu_single_env (tb_rr s).
Definition kept_ram s s' : Prop := ram_wf (tb_ram s) →
  ram_wf (tb_ram s') ∧ ram_blocks (tb_ram s') = ram_blocks (tb_ram s) ∧ ram_mem (tb_ram s') = ram_mem (tb_ram s) ∧
  same_env s s' ∧
  ∃ evs, tb_trace s' = tb_trace s ++ evs ∧ ∀ k, dirty_page (tb_ram s) k → dirty_page (tb_ram s') k ∨ told (tb_ram s) evs k.

Lemma kept_ram_same s s' : tb_ram s' = tb_ram s → same_env s s' →
  (∃ evs, tb_trace s' = tb_trace s ++ evs) → kept_ram s s'.
Proof. intros Er Ev [evs Et] Hw. rewrite Er. split_and!; [done..|]. exists evs. split; [done|]. by left. Qed.

#[global] Instance kept_ram_refl : Reflexive kept_ram.
Proof. intros s. apply kept_ram_same; [done|done|]. exists []. by rewrite app_nil_r. Qed.
#[global] Instance kept_ram_trans : Transitive kept_ram.
Proof.
  intros a b c Hab Hbc Hw. destruct (Hab Hw) as (Wb & Bb & Mb & Vb & e1 & T1 & D1). destruct (Hbc Wb) as (Wc & Bc & Mc & Vc & e2 & T2 & D2).
  split_and!; [done|congruence|congruence|destruct Vb, Vc; split; congruence|]. exists (e1 ++ e2). split; [by rewrite T2, T1, app_assoc|].
  assert (Hp : ∀ h k, host_page (tb_ram b) h k ↔ host_page (tb_ram a) h k) by (intros h k; unfold host_page; by rewrite Bb).
  intros k Hk. destruct (D1 k Hk) as [Hk1|(st & ln & He & Hh)]; [|right; exists st, ln; split; [set_solver|done]].
  destruct (D2 k Hk1) as [Hk2|(st & ln & He & Hh)]; [by left|]. right. exists st, ln. split; [set_solver|]. intros h Hh'. apply Hh. by apply Hp.
Qed.

(** ** Operations *)

Definition quiet_op {A} (m : TBM Regs A) : Prop := ∀ s a s', m s = Ok a s' → kept_ram s s'.

Lemma quiet_bind {A B} (m : TBM Regs A) (k : A → TBM Regs B) : quiet_op m → (∀ a, quiet_op (k a)) → quiet_op (m ≫= k).
Proof. intros Hm Hk s b s' (a & s1 & E1 & E2)%bind_inv_Ok. etrans; [by eapply Hm|by eapply Hk]. Qed.
Lemma quiet_ret {A} (a : A) : quiet_op (mret a).
Proof. by intros s a' s' [= _ <-]. Qed.
Lemma quiet_gets {A} (f : tb_state Regs → A) : quiet_op (gets f).
Proof. by intros s a s' [= _ <-]. Qed.
Lemma quiet_fail {A} e : quiet_op (fail e : TBM Regs A).
Proof. by intros s a s' ?. Qed.
Lemma quiet_assert e b : quiet_op (assert_or e b).
Proof. intros s a s'. unfold assert_or. by destruct b; intros [= _ <-]. Qed.
Lemma quiet_nonnull {A} (p : option A) : quiet_op (nonnull p).
Proof. intros s a s'. destruct p; [|done]. by intros [= _ <-]. Qed.
Lemma quiet_at_idx {A} (l : list A) i : quiet_op (at_idx l i).
Proof. intros s a s'. unfold at_idx. case_match; [done|]. case_match; [|done]. by intros [= _ <-]. Qed.
Lemma quiet_modify (f : tb_state Regs → tb_state Regs) : (∀ s, tb_ram (f s) = tb_ram s ∧ tb_trace (f s) = tb_trace s ∧ same_env s (f s)) → quiet_op (modify f).
Proof. intros Hf s a s' [= _ <-]. apply kept_ram_same; [apply Hf..|]. exists []. rewrite app_nil_r. apply Hf. Qed.
Lemma quiet_emit e : quiet_op (tb_emit e).
Proof. intros s a s' [= _ <-]. apply kept_ram_same; [done|done|]. by eexists. Qed.
Lemma quiet_in_rr {A} (m : RR A) : (∀ q a q', m q = Ok a q' → cpu_single_env q' = cpu_single_env q) → quiet_op (in_tb_rr m).
Proof.
  intros Hm s a s'. unfold in_tb_rr. destruct (m (tb_rr s)) as [x q|] eqn:E; [|done]. intros [= _ <-]. apply kept_ram_same; [done|split; [done|by eapply Hm]|].
  exists []. by rewrite app_nil_r.
Qed.
Lemma quiet_on_cbs {A} (m : M cb_state A) : quiet_op (in_tb_rr (on_cbs m)).
Proof. apply quiet_in_rr. intros q a q'. unfold on_cbs. destruct (m (rr_cbs q)); [|done]. by intros [= _ <-]. Qed.
Lemma quiet_upd_cpu f : (∀ c, mem_io_vaddr (f c) = mem_io_vaddr c) → quiet_op (upd_cpu f).
Proof. intros Hf. apply quiet_modify. intros s. split_and!; [done|done|]. split; [apply Hf|done]. Qed.
Lemma quiet_ld p : quiet_op (ld p).
Proof. intros s a s'. unfold ld. destruct (rd s p); [|done]. by intros [= _ <-]. Qed.
Lemma wr_ram p v s : tb_ram (wr p v s) = tb_ram s ∧ tb_trace (wr p v s) = tb_trace s ∧ same_env s (wr p v s).
Proof. destruct p; try done. simpl. unfold wr. by case_match. Qed.
End Quiet.

Create HintDb quiet.
#[export] Hint Resolve quiet_ret quiet_gets quiet_fail quiet_assert quiet_nonnull quiet_at_idx quiet_emit quiet_on_cbs quiet_ld : quiet.
#[export] Hint Extern 1 (quiet_op (in_tb_rr (modify _))) => apply quiet_in_rr; intros ? ? ? [= _ <-]; done : quiet.
#[export] Hint Extern 1 (quiet_op (modify _)) => apply quiet_modify; done : quiet.
#[export] Hint Extern 1 (quiet_op (upd_cpu _)) => apply quiet_upd_cpu; intros ?; simpl; repeat case_match; done : quiet.
Ltac quiet1 :=
  first [ solve [auto with quiet nocore]
        | apply quiet_bind; [|intros ?]
        | progress case_match | progress case_decide | progress (cbv zeta) ].
Ltac quiet := repeat quiet1.

(** ** Pages that become clean *)

Lemma page_inside b (a k : Z) : block_ok b → in_range (blk_offset b) (blk_length b) a → Z.shiftr a TARGET_PAGE_BITS = k →
  ∀ x, 4096 * k ≤ x < 4096 * k + 4096 → in_range (blk_offset b) (blk_length b) x.
Proof.
  intros (_ & _ & _ & Ho & Hl & _) Ha <- x. rewrite Z.shiftr_div_pow2 by done. change (2 ^ TARGET_PAGE_BITS) with 4096. unfold in_range in *.
  pose proof (Z.div_mod a 4096). pose proof (Z.div_mod (blk_offset b) 4096). pose proof (Z.div_mod (blk_length b) 4096). pose proof (Z.mod_pos_bound a 4096). lia.
Qed.

Lemma safe_ptr_same a r p r' : qemu_safe_ram_ptr a r = Ok p r' → r' = r.
Proof. unfold qemu_safe_ram_ptr. rewrite bind_gets. destruct (list_find _ _) as [[i b]|]; [|done]. by intros [= _ <-]. Qed.
Lemma safe_ptr_inv a r p r' : qemu_safe_ram_ptr a r = Ok p r' → in_width 64 a → ram_ok r →
  r' = r ∧ ∃ b, owner a r b ∧ p = blk_host b + (a - blk_offset b).
Proof.
  intros E Hw Hok. unfold qemu_safe_ram_ptr in E. rewrite bind_gets in E. destruct (list_find _ _) as [[i b]|] eqn:Ef; [|done]. injection E as <- <-.
  split; [done|]. apply list_find_Some in Ef as (Hi & Hb & _). assert (Hin : b ∈ ram_blocks r) by (by eapply list_elem_of_lookup_2).
  assert (Ho : owner a r b) by (split; [done|]; apply in_block_range; [done|by eapply (Forall_lookup_1 _ _ _ _ (ro_blocks _ Hok))|done]).
  exists b. split; [done|]. by eapply owner_host.
Qed.

Lemma mask_loop_inv n : ∀ i mask r u r', mask_dirty_loop i n mask r = Ok u r' → ram_blocks r' = ram_blocks r ∧ ram_mem r' = ram_mem r ∧
  length (phys_dirty r') = length (phys_dirty r) ∧ (Forall (in_width 8) (phys_dirty r) → Forall (in_width 8) (phys_dirty r')) ∧
  (n ≠ 0%nat → 0 ≤ i < Z.of_nat (length (phys_dirty r))) ∧
  ∀ k : Z, 0 ≤ k → ¬ (i ≤ k < i + Z.of_nat n) → phys_dirty r' !! Z.to_nat k = phys_dirty r !! Z.to_nat k.
Proof.
  induction n as [|n IH]; intros i mask r u r' E; cbn [mask_dirty_loop] in E; [by injection E as _ <-|].
  rewrite bind_gets in E. unfold at_idx in E. destruct (i <? 0) eqn:Ei; [done|]. destruct (phys_dirty r !! Z.to_nat i) as [d|] eqn:Ed; [|done].
  rewrite bind_ret, bind_modify in E. apply IH in E as (B & M & L & F & _ & K). simpl in *. rewrite length_insert in *.
  apply lookup_lt_Some in Ed as Hlt. split_and!; [done..| | |].
  - intros HF. apply F. apply Forall_insert; [done|]. apply wrap_in_width. lia.
  - intros _. lia.
  - intros k Hk Hn. rewrite K by lia. rewrite list_lookup_insert_ne; [done|]. lia.
Qed.

Lemma mask_range_inv start len flags r u r' : cpu_physical_memory_mask_dirty_range start len flags r = Ok u r' → ram_wf r → 0 < Z.shiftr len TARGET_PAGE_BITS →
  ram_wf r' ∧ ram_blocks r' = ram_blocks r ∧ ram_mem r' = ram_mem r ∧ 0 ≤ Z.shiftr start TARGET_PAGE_BITS < 2 ^ 51 ∧
  ∀ k : Z, dirty_page r k → ¬ (Z.shiftr start TARGET_PAGE_BITS ≤ k < Z.shiftr start TARGET_PAGE_BITS + Z.shiftr len TARGET_PAGE_BITS) → dirty_page r' k.
Proof.
  intros E [[Hb Ha Hm Hn Hd Hby] Hl] Hlen. apply mask_loop_inv in E as (B & M & L & F & R & K). split_and!; [|done|done|lia|lia|].
  - split; [split; rewrite ?B, ?M, ?L; try done; by apply F|by rewrite L].
  - intros k [Hk Hdk] Hout. split; [done|]. by rewrite K by lia.
Qed.

Section Clean.
Context `{PhysSpace} `{TargetLong} {Regs : Type} `{!Translator Regs}.
Implicit Types (s : tb_state Regs).

(** The range lies in the block it begins in, but for its last page. *)
Definition one_stretch (r : ram_state) (start end_ : Z) : Prop :=
  start < end_ < start + 2 ^ 31 ∧ end_ mod 4096 = 0 ∧ ∀ a b, owner a r b → start ≤ a < end_ →
    owner start r b ∨ Z.shiftr a TARGET_PAGE_BITS = Z.shiftr (end_ - 1) TARGET_PAGE_BITS.

Lemma in_ram_inv {A} (m : RAM A) s a s' : in_tb_ram m s = Ok a s' → ∃ r, m (tb_ram s) = Ok a r ∧ s' = set_tb_ram r s.
Proof. unfold in_tb_ram. destruct (m (tb_ram s)) as [x r|]; [|done]. intros [= <- <-]. by exists r. Qed.

Lemma shift_len n : 0 ≤ n → n mod 4096 = 0 → 4096 * Z.shiftr n TARGET_PAGE_BITS = n.
Proof. intros H1 H2. rewrite Z.shiftr_div_pow2 by done. change (2 ^ TARGET_PAGE_BITS) with 4096. pose proof (Z.div_mod n 4096). lia. Qed.

Lemma told_first r st en ps : ram_ok r → in_width 64 st → st mod 4096 = 0 → st < en → en ≤ 2 ^ 64 → one_stretch r st en →
  (∃ b, owner st r b ∧ ps = blk_host b + (st - blk_offset b)) → (∃ b, owner (en - 1) r b ∧ wrap 64 (blk_host b + (en - 1 - blk_offset b) - ps) = en - 1 - st) →
  ∀ h k, host_page r h k → Z.shiftr st TARGET_PAGE_BITS ≤ k < Z.shiftr en TARGET_PAGE_BITS → wrap 64 (h - ps) < en - st.
Proof.
  intros Hok Hw Ham Hse He (_ & Hem & Hone) (b1 & [Hb1 R1] & Eps) (b2 & [Hb2 R2] & Eq) h k (b & Hb & Hh & Ek) Hk.
  pose proof (proj1 (Forall_forall _ _) (ro_blocks _ Hok)) as Hbo. unfold in_width in Hw.
  set (a := blk_offset b + (h - blk_host b)) in *. assert (Ha : in_range (blk_offset b) (blk_length b) a) by (unfold a, in_range in *; lia).
  assert (Hlo : st ≤ a < en).
  { rewrite Z.shiftr_div_pow2 in Ek by done. rewrite (Z.shiftr_div_pow2 st), (Z.shiftr_div_pow2 en) in Hk by done. change (2 ^ TARGET_PAGE_BITS) with 4096 in *. pose proof (Z.div_mod a 4096). pose proof (Z.mod_pos_bound a 4096).
    pose proof (Z.div_mod st 4096). pose proof (Z.div_mod en 4096). lia. }
  assert (Hw' : ∀ x c d, x ∈ [st; en - 1] → owner x r c → owner x r d → c = d).
  { intros x c d Hx [Hc Rc] [Hd Rd]. apply list_elem_of_lookup in Hc as [i Hi], Hd as [j Hj].
    assert (i = j); [|congruence]. apply (in_block_sole x r) with c d; try done; [unfold in_width; set_solver by lia| |];
    apply in_block_range; try done; try (by eapply (Forall_lookup_1 _ _ _ _ (ro_blocks _ Hok))); unfold in_width; set_solver by lia. }
  destruct (Hone a b) as [Hbs|Hpg]; [by split|done| |].
  - assert (b = b1) as -> by (eapply (Hw' st); [set_solver|done|by split]). rewrite Eps. rewrite wrap_small; unfold in_width, a, in_range in *; lia.
  - assert (b = b2) as ->.
    { eapply (Hw' (en - 1)); [set_solver| |by split]. split; [done|]. eapply page_inside; [by apply Hbo|exact Ha|exact Hpg|].
      rewrite Z.shiftr_div_pow2 by done. change (2 ^ TARGET_PAGE_BITS) with 4096. pose proof (Z.div_mod (en - 1) 4096). pose proof (Z.mod_pos_bound (en - 1) 4096). lia. }
    replace (h - ps) with ((blk_host b2 + (en - 1 - blk_offset b2) - ps) - (en - 1 - a)) by (unfold a; lia).
    rewrite <-wrap_sub_l, Eq, wrap_small; unfold in_width; lia.
Qed.

Lemma reset_dirty_kept start end_ flags s u s' : cpu_physical_memory_reset_dirty start end_ flags s = Ok u s' →
  (ram_wf (tb_ram s) → 0 ≤ Z.land start TARGET_PAGE_MASK → (∃ b, owner (Z.land start TARGET_PAGE_MASK) (tb_ram s) b) →
    one_stretch (tb_ram s) (Z.land start TARGET_PAGE_MASK) (TARGET_PAGE_ALIGN end_)) → kept_ram s s'.
Proof.
  unfold cpu_physical_memory_reset_dirty. set (st := Z.land start TARGET_PAGE_MASK). set (en := TARGET_PAGE_ALIGN end_). cbv zeta. intros E Hone Hw.
  destruct (wrap 64 (en - st) =? 0) eqn:El; [injection E as _ <-; by apply kept_ram_refl|]. apply Z.eqb_neq in El.
  apply bind_inv_Ok in E as ([] & s1 & E1 & E). apply in_ram_inv in E1 as (r1 & E1 & ->).
  apply bind_inv_Ok in E as (p1 & s2 & E2 & E). apply in_ram_inv in E2 as (r2 & E2 & ->). simpl in E2.
  apply bind_inv_Ok in E as (p2 & s3 & E3 & E). apply in_ram_inv in E3 as (r3 & E3 & ->). simpl in E3.
  apply bind_inv_Ok in E as ([] & s4 & E4 & E). unfold assert_or in E4. destruct (_ =? _) eqn:Eq in E4; [|done]. injection E4 as <-. apply Z.eqb_eq in Eq. injection E as _ <-.
  assert (Hen : in_width 64 en ∧ en mod 4096 = 0).
  { unfold en, TARGET_PAGE_ALIGN. rewrite page_mask. pose proof (wrap_in_width 64 (end_ + TARGET_PAGE_SIZE - 1) ltac:(lia)) as W. unfold in_width in *. set (x := wrap 64 (end_ + TARGET_PAGE_SIZE - 1)) in *. clearbody x.
    pose proof (Z.mod_pos_bound x 4096). pose proof (Z.div_mod x 4096). split; [lia|]. replace (x - x mod 4096) with (x / 4096 * 4096) by lia. by apply Z.mod_mul. }
  assert (Hst : st mod 4096 = 0) by (unfold st; rewrite page_mask; pose proof (Z.div_mod start 4096); replace (start - start mod 4096) with (start / 4096 * 4096) by lia; by apply Z.mod_mul).
  destruct Hen as [Wen Men]. pose proof (safe_ptr_same _ _ _ _ E2) as ->. pose proof (safe_ptr_same _ _ _ _ E3) as ->. set (len := wrap 64 (en - st)) in *. simpl.
  destruct (decide (0 < Z.shiftr (int32 len) TARGET_PAGE_BITS)) as [Hpos|Hneg].
  2: { unfold cpu_physical_memory_mask_dirty_range in E1. replace (Z.to_nat (Z.shiftr (int32 len) TARGET_PAGE_BITS)) with 0%nat in E1 by lia. injection E1 as <-.
       split_and!; [done..|]. eexists. split; [done|]. by left. }
  destruct (mask_range_inv _ _ _ _ _ _ E1 Hw Hpos) as (W1 & B1 & M1 & Hix & D1). split_and!; [done..|]. eexists. split; [done|]. intros k Hk.
  assert (Wst : in_width 64 st) by (rewrite Z.shiftr_div_pow2 in Hix by done; change (2 ^ TARGET_PAGE_BITS) with 4096 in Hix; unfold in_width; pose proof (Z.div_mod st 4096); lia).
  unfold in_width in *. destruct (safe_ptr_inv _ _ _ _ E2 Wst (proj1 W1)) as (_ & b1 & [Ob1 Rb1] & Ep1). rewrite B1 in Ob1.
  assert (Hs : one_stretch (tb_ram s) st en) by (apply Hone; [done|lia|by exists b1]). destruct Hs as (Hlt & Hs').
  assert (El' : len = en - st) by (apply wrap_small; unfold in_width; lia). assert (Ei : int32 len = len) by (unfold int32; rewrite wrap_small by (unfold in_width; lia); lia).
  pose proof (shift_len len ltac:(lia)) as Hsl. rewrite Ei, El' in *.
  assert (Hm : (en - st) mod 4096 = 0) by (rewrite Zminus_mod, Men, Hst; done). specialize (Hsl Hm). pose proof (shift_len st ltac:(lia) Hst). pose proof (shift_len en ltac:(lia) Men).
  destruct (decide (Z.shiftr st TARGET_PAGE_BITS ≤ k < Z.shiftr st TARGET_PAGE_BITS + Z.shiftr (en - st) TARGET_PAGE_BITS)) as [Hin|Hout]; [|left; by apply D1].
  right. exists p1, (en - st). split; [left|]. intros h Hh. rewrite (wrap_small 64 (en - 1)) in E3 by (unfold in_width; lia).
  destruct (safe_ptr_inv _ _ _ _ E3 ltac:(unfold in_width; lia) (proj1 W1)) as (_ & b2 & [Ob2 Rb2] & Ep2). rewrite B1 in Ob2. subst p2.
  eapply (told_first (tb_ram s) st en p1); [apply Hw|done|done|lia|lia|by split| | |exact Hh|lia].
  - by exists b1.
  - exists b2. split; [by split|]. rewrite Eq. apply wrap_small. unfold in_width. lia.
Qed.

Lemma owner_low r a b : ram_wf r → owner a r b → a < 2 ^ 63.
Proof.
  intros [Hok Hl] [Hb Hr]. pose proof (proj1 (Forall_forall _ _) (ro_dirty _ Hok) b Hb) as Hd. cbv beta in Hd. unfold in_range in Hr. lia.
Qed.

(** One page, or two when the address is not aligned. *)
Lemma protect_stretch r ram_addr : ram_wf r → 0 ≤ Z.land ram_addr TARGET_PAGE_MASK → (∃ b, owner (Z.land ram_addr TARGET_PAGE_MASK) r b) →
  one_stretch r (Z.land ram_addr TARGET_PAGE_MASK) (TARGET_PAGE_ALIGN (wrap 64 (ram_addr + TARGET_PAGE_SIZE))).
Proof.
  intros Hw H0' [b Hb]. pose proof (owner_low _ _ _ Hw Hb) as Hlow. rewrite page_mask in *. change TARGET_PAGE_SIZE with 4096.
  pose proof (Z.mod_pos_bound ram_addr 4096 ltac:(lia)). pose proof (Z.div_mod ram_addr 4096 ltac:(lia)). rewrite wrap_small by (unfold in_width; lia).
  destruct (page_align (ram_addr + 4096) ltac:(lia)) as [Ha Hm]. set (en := TARGET_PAGE_ALIGN _) in *. clearbody en. pose proof (Z.div_mod en 4096 ltac:(lia)).
  split; [lia|]. split; [done|]. intros a c [Hc Rc] Hae. rewrite !Z.shiftr_div_pow2 by done. change (2 ^ TARGET_PAGE_BITS) with 4096.
  pose proof (Z.div_mod a 4096 ltac:(lia)). pose proof (Z.mod_pos_bound a 4096 ltac:(lia)). pose proof (Z.div_mod (en - 1) 4096 ltac:(lia)). pose proof (Z.mod_pos_bound (en - 1) 4096 ltac:(lia)).
  destruct (decide (a / 4096 = (en - 1) / 4096)) as [|Hne]; [by right|]. left. split; [done|].
  eapply (page_inside c a (a / 4096)); [by apply (proj1 (Forall_forall _ _) (ro_blocks _ (proj1 Hw)))|done|by rewrite Z.shiftr_div_pow2|]. lia.
Qed.

Lemma quiet_protect ram_addr : quiet_op (tlb_protect_code (Regs:=Regs) ram_addr).
Proof. intros s u s' E. eapply reset_dirty_kept; [exact E|]. apply protect_stretch. Qed.

Lemma set_flags_inv a fl r u r' : cpu_physical_memory_set_dirty_flags a fl r = Ok u r' → ram_wf r → ram_wf r' ∧ ram_blocks r' = ram_blocks r ∧
  ram_mem r' = ram_mem r ∧ (in_width 8 fl → ∀ k, dirty_page r k → dirty_page r' k).
Proof.
  unfold cpu_physical_memory_set_dirty_flags, set_dirty_byte. intros (v & r1 & E1 & E)%bind_inv_Ok [[Hb Ha Hm Hn Hd Hby] Hl].
  unfold cpu_physical_memory_get_dirty_flags in E1. rewrite bind_gets in E1. unfold at_idx in E1. destruct (page_index a <? 0) eqn:Ei; [done|].
  destruct (phys_dirty r !! Z.to_nat (page_index a)) as [d|] eqn:Ed; [|done]. injection E1 as -> <-. injection E as _ <-. simpl. split_and!; [|done|done|].
  - split; [split; simpl; rewrite ?length_insert; try done|unfold set_phys_dirty; simpl; by rewrite length_insert]. apply Forall_insert; [done|]. apply wrap_in_width. lia.
  - intros Hf k [Hk Hdk]. split; [done|]. simpl. destruct (decide (Z.to_nat (page_index a) = Z.to_nat k)) as [E|E]; [|by rewrite list_lookup_insert_ne].
    rewrite E in *. rewrite list_lookup_insert_eq by (by eapply lookup_lt_Some). f_equal. assert (v = 255) as -> by congruence.
    assert (Hlor : Z.lor 255 fl = 255); [|by rewrite Hlor]. change 255 with (Z.ones 8). unfold in_width in Hf.
    apply Z.bits_inj'. intros i Hi. rewrite Z.lor_spec. destruct (decide (i < 8)); [by rewrite Z.ones_spec_low by lia|].
    rewrite Z.ones_spec_high by lia. simpl. rewrite <-(Z.mod_small fl (2 ^ 8)) by lia. apply Z.mod_pow2_bits_high. lia.
Qed.

Lemma quiet_unprotect ram_addr : quiet_op (tlb_unprotect_code_phys (Regs:=Regs) ram_addr).
Proof.
  intros s u s' (r & E & ->)%in_ram_inv Hw. destruct (set_flags_inv _ _ _ _ _ E Hw) as (W & B & M & D). split_and!; [done..|].
  exists []. split; [by rewrite app_nil_r|]. intros k Hk. left. apply D; [|done]. unfold in_width, CODE_DIRTY_FLAG. lia.
Qed.
End Clean.
#[export] Hint Resolve quiet_protect quiet_unprotect : quiet.

(** ** Every operation of the cache *)

Section Sweep.
Context `{PhysSpace} `{TargetLong} {Regs : Type} `{!Translator Regs}.
Abbreviation quietly := (quiet_op (Regs:=Regs)).

Lemma quiet_st p v : quietly (st p v).
Proof. unfold st. quiet. apply quiet_modify. apply wr_ram. Qed.
Lemma quiet_tb_at i : quietly (tb_at i).
Proof. unfold tb_at. quiet. Qed.
Lemma quiet_upd_tb i f : quietly (upd_tb i f).
Proof. unfold upd_tb. apply quiet_bind; [apply quiet_tb_at|intros]. quiet. Qed.
Lemma quiet_page_at i : quietly (page_at i).
Proof. unfold page_at. quiet. Qed.
Lemma quiet_upd_page i f : quietly (upd_page i f).
Proof. unfold upd_page. apply quiet_bind; [apply quiet_page_at|intros]. quiet. Qed.
#[local] Hint Resolve quiet_st quiet_tb_at quiet_upd_tb quiet_page_at quiet_upd_page : quiet.
Lemma quiet_list_fuel : quietly list_fuel.
Proof. unfold list_fuel. quiet. Qed.
Lemma quiet_set_jmp_target tb n a : quietly (tb_set_jmp_target tb n a).
Proof. unfold tb_set_jmp_target, tb_set_jmp_target1. quiet. Qed.
#[local] Hint Resolve quiet_list_fuel quiet_set_jmp_target : quiet.
Lemma quiet_reset_jump tb n : quietly (tb_reset_jump tb n).
Proof. unfold tb_reset_jump. quiet. Qed.
#[local] Hint Resolve quiet_reset_jump : quiet.
Lemma quiet_add_jump tb n nx : quietly (tb_add_jump tb n nx).
Proof. unfold tb_add_jump. quiet. Qed.
Lemma quiet_remove fuel : ∀ p tb, quietly (tb_remove fuel p tb).
Proof. induction fuel as [|fuel IH]; intros p tb; cbn [tb_remove]; quiet; apply IH. Qed.
Lemma quiet_page_remove fuel : ∀ p tb, quietly (tb_page_remove fuel p tb).
Proof. induction fuel as [|fuel IH]; intros p tb; cbn [tb_page_remove]; quiet; apply IH. Qed.
Lemma quiet_jmp_find fuel : ∀ p tb n, quietly (jmp_find fuel p tb n).
Proof. induction fuel as [|fuel IH]; intros p tb n; cbn [jmp_find]; quiet; apply IH. Qed.
Lemma quiet_reset_jumps fuel : ∀ p, quietly (reset_jumps fuel p).
Proof. induction fuel as [|fuel IH]; intros p; cbn [reset_jumps]; quiet; apply IH. Qed.
#[local] Hint Resolve quiet_add_jump quiet_remove quiet_page_remove quiet_jmp_find quiet_reset_jumps : quiet.
Lemma quiet_jmp_remove tb n : quietly (tb_jmp_remove tb n).
Proof. unfold tb_jmp_remove. quiet. Qed.
Lemma quiet_unlink_page tb a : quietly (unlink_page tb a).
Proof. unfold unlink_page. quiet. Qed.
#[local] Hint Resolve quiet_jmp_remove quiet_unlink_page : quiet.
Lemma quiet_phys_invalidate tb a : quietly (tb_phys_invalidate tb a).
Proof. unfold tb_phys_invalidate. quiet. Qed.
Lemma quiet_alloc pc : quietly (tb_alloc pc).
Proof. unfold tb_alloc. quiet. Qed.
Lemma quiet_flush : quietly tb_flush.
Proof. unfold tb_flush. quiet. Qed.
Lemma quiet_alloc_page tb n a : quietly (tb_alloc_page tb n a).
Proof. unfold tb_alloc_page. quiet. Qed.
Lemma quiet_init_jump tb n : quietly (init_jump tb n).
Proof. unfold init_jump. quiet. Qed.
#[local] Hint Resolve quiet_phys_invalidate quiet_alloc quiet_flush quiet_alloc_page quiet_init_jump : quiet.
Lemma quiet_link_page tb a b : quietly (tb_link_page tb a b).
Proof. unfold tb_link_page. quiet. Qed.
Lemma quiet_gen_into tb : quietly (gen_into tb).
Proof. unfold gen_into. quiet. Qed.
#[local] Hint Resolve quiet_link_page quiet_gen_into : quiet.
Lemma quiet_gen_code pc cs fl cf : quietly (tb_gen_code pc cs fl cf).
Proof. unfold tb_gen_code. quiet. Qed.
Lemma quiet_search fuel : ∀ p pc cs fl pg, quietly (tb_search fuel p pc cs fl pg).
Proof. induction fuel as [|fuel IH]; intros p pc cs fl pg; cbn [tb_search]; quiet; apply IH. Qed.
Lemma quiet_callbacks k ev : quietly (run_tb_callbacks k ev).
Proof. unfold run_tb_callbacks. quiet. Qed.
Lemma quiet_found h p pc tb : quietly (tb_found h p pc tb).
Proof. unfold tb_found. quiet. Qed.
#[local] Hint Resolve quiet_gen_code quiet_search quiet_callbacks quiet_found : quiet.
Lemma quiet_find_slow pc cs fl : quietly (tb_find_slow pc cs fl).
Proof. unfold tb_find_slow. quiet. Qed.
#[local] Hint Resolve quiet_find_slow : quiet.
Lemma quiet_find_fast : quietly tb_find_fast.
Proof. unfold tb_find_fast. quiet. Qed.
Lemma quiet_find_pc_loop fuel : ∀ p a b, quietly (find_pc_loop fuel p a b).
Proof. induction fuel as [|fuel IH]; intros p a b; cbn [find_pc_loop]; quiet; apply IH. Qed.
#[local] Hint Resolve quiet_find_fast quiet_find_pc_loop : quiet.
Lemma quiet_find_pc p : quietly (tb_find_pc p).
Proof. unfold tb_find_pc. quiet. Qed.
Lemma quiet_jmp_head fuel : ∀ p, quietly (jmp_head fuel p).
Proof. induction fuel as [|fuel IH]; intros p; cbn [jmp_head]; quiet; apply IH. Qed.
Lemma quiet_jmp_find_from fuel : ∀ p tb n, quietly (jmp_find_from fuel p tb n).
Proof. induction fuel as [|fuel IH]; intros p tb n; cbn [jmp_find_from]; quiet; apply IH. Qed.
#[local] Hint Resolve quiet_find_pc quiet_jmp_head quiet_jmp_find_from : quiet.
Lemma quiet_reset_recursive d : ∀ tb, quietly (reset_recursive d tb).
Proof. induction d as [|d IH]; intros tb; cbn [reset_recursive]; unfold tb_reset_jump_recursive2; quiet; apply IH. Qed.
#[local] Hint Resolve quiet_reset_recursive : quiet.
Lemma quiet_tcg_interrupt mask : quietly (tcg_handle_interrupt mask).
Proof. unfold tcg_handle_interrupt, cpu_unlink_tb, tb_reset_jump_recursive. quiet. Qed.
#[local] Hint Resolve quiet_tcg_interrupt : quiet.
Lemma quiet_bitmap_loop fuel : ∀ p bm, quietly (bitmap_loop fuel p bm).
Proof. induction fuel as [|fuel IH]; intros p bm; cbn [bitmap_loop]; quiet; apply IH. Qed.
#[local] Hint Resolve quiet_bitmap_loop : quiet.
Lemma quiet_build_bitmap i : quietly (build_page_bitmap i).
Proof. unfold build_page_bitmap. quiet. Qed.
Lemma quiet_restore tb pc : quietly (cpu_restore_state tb pc).
Proof. unfold cpu_restore_state. quiet. Qed.
#[local] Hint Resolve quiet_build_bitmap quiet_restore : quiet.
Lemma quiet_smc_check tb m : quietly (smc_check tb m).
Proof. unfold smc_check. quiet. Qed.
Lemma quiet_invalidate_one tb : quietly (invalidate_one tb).
Proof. unfold invalidate_one. quiet. Qed.
#[local] Hint Resolve quiet_smc_check quiet_invalidate_one : quiet.
Lemma quiet_invalidate_loop fuel : ∀ p a b m, quietly (invalidate_loop fuel p a b m).
Proof. induction fuel as [|fuel IH]; intros p a b m; cbn [invalidate_loop]; quiet; apply IH. Qed.
#[local] Hint Resolve quiet_invalidate_loop : quiet.
Lemma quiet_range a b c : quietly (tb_invalidate_phys_page_range a b c).
Proof. unfold tb_invalidate_phys_page_range, cpu_resume_from_signal. quiet. Qed.
#[local] Hint Resolve quiet_range : quiet.
Lemma quiet_fast a b : quietly (tb_invalidate_phys_page_fast a b).
Proof. unfold tb_invalidate_phys_page_fast. quiet. Qed.
Lemma quiet_jmp_cache a : quietly (tlb_flush_jmp_cache a).
Proof. unfold tlb_flush_jmp_cache. quiet. Qed.

(** A step of the cache tells the TLB about every page that becomes clean. *)
Lemma step_kept_ram s s' : tb_step (Regs:=Regs) s s' → kept_ram s s'.
Proof.
  destruct 1 as [s s' o E|s s' E|s s' tb n nx t ? ? ? ? ? E|s s' mask ? E|s s' st en ? ? ? E|s s' st ln o ? ? ? ? ? ? ? E|s s' r' addr ? ? ? E|s r' cur].
  - by eapply quiet_find_fast.
  - by eapply quiet_flush.
  - by eapply quiet_add_jump.
  - by eapply quiet_tcg_interrupt.
  - by eapply quiet_range.
  - by eapply quiet_fast.
  - etrans; [|by eapply quiet_jmp_cache]. apply kept_ram_same; [done|done|]. exists []. by rewrite app_nil_r.
  - apply kept_ram_same; [done|done|]. exists []. by rewrite app_nil_r.
Qed.
End Sweep.
