(* ===== verification/TLBFacts.v ===== *)
(** * The TLB and the dirty pages

    An entry that writes to RAM directly leads to a page that is dirty for every
    purpose: the invariant that makes clean pages, and with them the pages that
    hold translated code, trap. *)

From S2P Require Import Prelude CFile CString HostMem RamList Radix PhysPages RRTypes PandaCallbacks.
From S2P Require Import RRState RRReplay TBCache TBSteps TBShape TLB TLBQuiet.
From stdpp Require Import list relations.
Local Open Scope Z_scope.

(** The host address [h] is that of the first byte of page [k] of RAM. *)
Definition hosts_page (r : ram_state) (h k : Z) : Prop :=
  ∃ b, owner (4096 * k) r b ∧ h = blk_host b + (4096 * k - blk_offset b).

Lemma leads_page r h k o : ram_ok r → hosts_page r h k → 0 ≤ o < 4096 → host_page r (h + o) k.
Proof.
  intros Hok (b & [Hb Hr] & ->) Ho. exists b. split; [done|]. pose proof (proj1 (Forall_forall _ _) (ro_blocks _ Hok) b Hb) as Hbo.
  assert (Hk : Z.shiftr (4096 * k) TARGET_PAGE_BITS = k) by (rewrite Z.shiftr_div_pow2 by done; change (2 ^ TARGET_PAGE_BITS) with 4096; rewrite Z.mul_comm; by apply Z.div_mul).
  pose proof (page_inside b (4096 * k) k Hbo Hr Hk (4096 * k + o) ltac:(lia)) as Hi. unfold in_range in *. split; [lia|].
  replace (blk_offset b + (blk_host b + (4096 * k - blk_offset b) + o - blk_host b)) with (k * 4096 + o) by lia.
  rewrite Z.shiftr_div_pow2 by done. change (2 ^ TARGET_PAGE_BITS) with 4096. rewrite Z.div_add_l by lia. rewrite Z.div_small by lia. lia.
Qed.

Lemma dirty_eqv r r' k : ram_eqv r r' → dirty_page r k → dirty_page r' k.
Proof. intros E [A B]. split; [done|]. by rewrite <-(re_dirty _ _ E). Qed.
Lemma wf_eqv r r' : ram_eqv r r' → ram_wf r → ram_wf r'.
Proof. intros E [A B]. split; [by rewrite <-E|by rewrite <-(re_dirty _ _ E)]. Qed.
Lemma leads_eqv r r' h k : ram_eqv r r' → hosts_page r h k → hosts_page r' h k.
Proof. intros E (b & Hb & ->). exists b. split; [by rewrite <-E|done]. Qed.
Lemma leads_blocks r r' h k : ram_blocks r' = ram_blocks r → hosts_page r h k → hosts_page r' h k.
Proof. intros E (b & Hb & ->). exists b. split; [|done]. unfold owner in *. by rewrite E. Qed.

Section Facts.
Context `{PhysSpace} `{TargetLong} {Regs : Type} `{!Translator Regs} `{!TargetLongOk}.
Implicit Types (s : mmu_state Regs) (u : tb_state Regs) (e : CPUTLBEntry) (t : list (list CPUTLBEntry)).

(** ** Entries *)

Definition tlb_at t (m i : nat) : option CPUTLBEntry := (t !! m) ≫= (λ row : list CPUTLBEntry, row !! i).

Lemma each_tlb_at f t m i : tlb_at (each_entry f t) m i = f <$> tlb_at t m i.
Proof. unfold tlb_at, each_entry. rewrite list_lookup_fmap. destruct (t !! m) as [row|]; [|done]. simpl. apply list_lookup_fmap. Qed.
Lemma each_mode_at j f t m i : tlb_at (each_mode j f t) m i = (if decide (i = j) then f <$> tlb_at t m i else tlb_at t m i).
Proof.
  unfold tlb_at, each_mode. rewrite list_lookup_fmap. destruct (t !! m) as [row|]; [|by case_decide]. simpl. case_decide as E.
  - subst. apply list_lookup_alter_eq.
  - by apply list_lookup_alter_ne.
Qed.
Lemma put_tlb_at (mi j : nat) e t m i e' : tlb_at (alter (λ row : list CPUTLBEntry, <[j := e]> row) mi t) m i = Some e' →
  (m = mi ∧ i = j ∧ e' = e) ∨ (¬ (m = mi ∧ i = j) ∧ tlb_at t m i = Some e').
Proof.
  unfold tlb_at. destruct (decide (m = mi)) as [->|Ne]; [|rewrite list_lookup_alter_ne by done; naive_solver].
  rewrite list_lookup_alter_eq. destruct (t !! mi) as [row|]; [|done]. simpl. destruct (decide (i = j)) as [->|Ne].
  - intros Hi. rewrite list_lookup_insert_eq in Hi; [naive_solver|]. apply lookup_lt_Some in Hi. by rewrite length_insert in Hi.
  - rewrite list_lookup_insert_ne by done. naive_solver.
Qed.

Definition direct_ok (r : ram_state) e : Prop := writes_ram e = true → ∃ k, hosts_page r (write_host e) k ∧ dirty_page r k.
Definition table_ok (r : ram_state) t : Prop := ∀ m i e, tlb_at t m i = Some e → direct_ok r e.
Definition tlb_safe s : Prop := ram_wf (tb_ram (mm_tb s)) ∧ table_ok (tb_ram (mm_tb s)) (tlb_table s).

(** ** Addresses of entries *)

Lemma low_bits a : Z.land a (Z.lnot TARGET_PAGE_MASK) = a mod 4096.
Proof. change (Z.lnot TARGET_PAGE_MASK) with (Z.ones 12). rewrite Z.land_ones by lia. done. Qed.
Lemma writes_ram_iff e : writes_ram e = true ↔ addr_write e mod 4096 = 0.
Proof. unfold writes_ram. rewrite low_bits. apply Z.eqb_eq. Qed.
Lemma writes_ram_bit e n : 0 ≤ n < 12 → Z.testbit (addr_write e) n = true → writes_ram e = false.
Proof.
  intros Hn Hb. apply not_true_iff_false. rewrite writes_ram_iff. intros Hz. change 4096 with (2 ^ 12) in Hz.
  rewrite <-(Z.mod_pow2_bits_low (addr_write e) 12 n) in Hb by lia. rewrite Hz, Z.bits_0 in Hb. done.
Qed.
Lemma writes_ram_lor e a n : 0 ≤ n < 12 → addr_write e = Z.lor a (Z.shiftl 1 n) → writes_ram e = false.
Proof.
  intros Hn E. apply (writes_ram_bit e n Hn). rewrite E, Z.lor_spec, Z.shiftl_1_l, Z.pow2_bits_true by lia. apply orb_true_r.
Qed.
Lemma minus_one_low : minus_one mod 4096 = 4095.
Proof.
  unfold minus_one. pose proof target_long_ok. replace (2 ^ target_long_bits - 1) with ((2 ^ (target_long_bits - 12) - 1) * 4096 + 4095).
  - rewrite Z.add_comm, Z.mod_add by lia. done.
  - replace (2 ^ target_long_bits) with (2 ^ (target_long_bits - 12) * 2 ^ 12) by (rewrite <-Z.pow_add_r by lia; f_equal; lia). lia.
Qed.
Lemma empty_not_ram r : direct_ok r s_cputlb_empty_entry.
Proof. unfold direct_ok. rewrite writes_ram_iff. simpl. by rewrite minus_one_low. Qed.

(** ** What the cache tells the TLB *)

Lemma reset_range_direct st ln e : writes_ram (tlb_reset_dirty_range st ln e) = true →
  tlb_reset_dirty_range st ln e = e ∧ ¬ wrap 64 (write_host e - st) < ln.
Proof.
  unfold tlb_reset_dirty_range. destruct (writes_ram e) eqn:E; [|by rewrite E].
  destruct (_ <? ln) eqn:El; [|intros _; split; [done|]; apply Z.ltb_ge in El; lia].
  rewrite (writes_ram_lor _ (Z.land (addr_write e) TARGET_PAGE_MASK) 4); [done|lia|done].
Qed.

(** An entry that still writes directly was there before, and no event is about it. *)
Lemma effects_direct evs : ∀ t m i e, tlb_at (tlb_effects evs t) m i = Some e → writes_ram e = true →
  tlb_at t m i = Some e ∧ ∀ st ln, EvTlbResetDirty st ln ∈ evs → ¬ wrap 64 (write_host e - st) < ln.
Proof.
  induction evs as [|ev evs IH]; intros t m i e He Hw; [split; [done|]; intros ? ? []%not_elem_of_nil|].
  cbn [tlb_effects foldl] in He. apply IH in He as [He Hev]; [|done].
  assert (Hone : tlb_at t m i = Some e ∧ ∀ st ln, ev = EvTlbResetDirty st ln → ¬ wrap 64 (write_host e - st) < ln).
  { destruct ev as [st ln| | | |]; try (by split). simpl in He. rewrite each_tlb_at in He. apply fmap_Some in He as (e0 & He0 & ->).
    destruct (reset_range_direct st ln e0 Hw) as [Ee Hn]. rewrite Ee. split; [done|]. by intros ? ? [= <- <-]. }
  destruct Hone as [He' Ho]. split; [done|]. intros st ln [E|Hin]%elem_of_cons; [by apply Ho|by apply Hev].
Qed.

Lemma direct_kept u u' s : kept_ram u u' → ram_wf (tb_ram u) → mm_tb s = u → table_ok (tb_ram u) (tlb_table s) →
  tlb_safe (after_tb u' s).
Proof.
  intros Hk Hw <- Ht. destruct (Hk Hw) as (Hw' & Hb & _ & _ & evs & Et & Hd). split; [done|]. simpl. rewrite Et, drop_app_length.
  intros m i e He Hdir. destruct (effects_direct evs _ _ _ _ He Hdir) as [He0 Hev]. destruct (Ht m i e He0 Hdir) as (k & Hl & Hdk).
  exists k. split; [by eapply leads_blocks|]. destruct (Hd k Hdk) as [|(st & ln & Hin & Hh)]; [done|]. destruct (Hev st ln Hin).
  apply Hh. rewrite <-(Z.add_0_r (write_host e)). apply leads_page; [apply Hw|done|lia].
Qed.

(** An operation of the code cache keeps the TLB safe. *)
Lemma in_tb_inv {A} (m : TBM Regs A) s a s' : in_tb m s = Ok a s' → ∃ u, m (mm_tb s) = Ok a u ∧ s' = after_tb u s.
Proof. unfold in_tb. destruct (m (mm_tb s)) as [x u|]; [|done]. intros [= <- <-]. by exists u. Qed.
Lemma in_tb_Ok {A} (m : TBM Regs A) s a u : m (mm_tb s) = Ok a u → in_tb m s = Ok a (after_tb u s).
Proof. unfold in_tb. by intros ->. Qed.


(** Operations on RAM: the TLB does not change. *)
Lemma after_ram s r : after_tb (set_tb_ram r (mm_tb s)) s = set_mm_tb (set_tb_ram r (mm_tb s)) s.
Proof. unfold after_tb. simpl. rewrite drop_all. by destruct s. Qed.
Lemma after_cpu s c : after_tb (set_tb_cpu c (mm_tb s)) s = set_mm_tb (set_tb_cpu c (mm_tb s)) s.
Proof. unfold after_tb. simpl. rewrite drop_all. by destruct s. Qed.
Lemma in_mmu_ram_inv {A} (m : RAM A) s a s' : in_mmu_ram m s = Ok a s' →
  ∃ r, m (tb_ram (mm_tb s)) = Ok a r ∧ s' = set_mm_tb (set_tb_ram r (mm_tb s)) s.
Proof. intros (u & (r & E & ->)%in_ram_inv & ->)%in_tb_inv. exists r. split; [done|]. apply after_ram. Qed.
Lemma in_mmu_ram_Ok {A} (m : RAM A) s a r : m (tb_ram (mm_tb s)) = Ok a r → in_mmu_ram m s = Ok a (set_mm_tb (set_tb_ram r (mm_tb s)) s).
Proof. intros E. rewrite <-after_ram. apply in_tb_Ok. unfold in_tb_ram. by rewrite E. Qed.
Lemma bind_ram {A B} (m : RAM A) (k : A → M (mmu_state Regs) B) s a r : m (tb_ram (mm_tb s)) = Ok a r →
  (in_mmu_ram m ≫= k) s = k a (set_mm_tb (set_tb_ram r (mm_tb s)) s).
Proof. intros E. by rewrite (bind_Ok _ _ _ _ _ (in_mmu_ram_Ok _ _ _ _ E)). Qed.
Lemma upd_env_eq f s : upd_env f s = Ok () (set_mm_tb (set_tb_cpu (f (tb_cpu (mm_tb s))) (mm_tb s)) s).
Proof. unfold upd_env. rewrite <-after_cpu. by apply in_tb_Ok. Qed.

Lemma safe_ram s r : (∀ k, dirty_page (tb_ram (mm_tb s)) k → dirty_page r k) → (∀ h k, hosts_page (tb_ram (mm_tb s)) h k → hosts_page r h k) →
  ram_wf r → tlb_safe s → tlb_safe (set_mm_tb (set_tb_ram r (mm_tb s)) s).
Proof.
  intros Hd Hl Hw [_ Ht]. split; [done|]. intros m i e He Hdir. destruct (Ht m i e He Hdir) as (k & Hk & Hdk). exists k. split; [by apply Hl|by apply Hd].
Qed.

(** ** Flushing *)

Definition emptied s (c : CPUState Regs) : mmu_state Regs :=
  set_tlb_flush_count (int32 (tlb_flush_count s + 1)) (set_tlb_flush_mask 0 (set_tlb_flush_addr minus_one
    (set_mm_tb (set_tb_cpu c (mm_tb s)) (set_tlb_table (each_entry (λ _, s_cputlb_empty_entry) (tlb_table s)) s)))).
Lemma tlb_flush_eq s : tlb_flush s = Ok () (emptied s (set_tb_jmp_cache ∅ (set_current_tb None (tb_cpu (mm_tb s))))).
Proof.
  unfold tlb_flush. rewrite (bind_Ok _ _ _ _ _ (upd_env_eq _ _)). unfold upd_tlb. rewrite bind_modify. rewrite (bind_Ok _ _ _ _ _ (upd_env_eq _ _)).
  rewrite !bind_modify. by destruct s as [? ? ? ? ? ? ? ? ? ? ? []].
Qed.

Lemma emptied_safe s c : ram_wf (tb_ram (mm_tb s)) → tlb_safe (emptied s c).
Proof.
  intros Hw. split; [done|]. intros m i e He. simpl in He. rewrite each_tlb_at in He. apply fmap_Some in He as (? & _ & ->). apply empty_not_ram.
Qed.

Lemma flush_entry_direct r a e : direct_ok r e → direct_ok r (tlb_flush_entry a e).
Proof. intros He. unfold tlb_flush_entry. case_match; [apply empty_not_ram|done]. Qed.

Definition page_flushed s (addr : Z) (u : tb_state Regs) : mmu_state Regs :=
  set_mm_tb u (set_tlb_table (each_mode (tlb_index (Z.land addr TARGET_PAGE_MASK)) (tlb_flush_entry (Z.land addr TARGET_PAGE_MASK)) (tlb_table s)) s).
Lemma tlb_flush_page_eq s addr : Z.land addr (tlb_flush_mask s) ≠ tlb_flush_addr s →
  ∃ u, tlb_flush_jmp_cache (Z.land addr TARGET_PAGE_MASK) (set_tb_cpu (set_current_tb None (tb_cpu (mm_tb s))) (mm_tb s)) = Ok () u ∧
    tlb_flush_page addr s = Ok () (page_flushed s addr u).
Proof.
  intros Hne. unfold tlb_flush_page. rewrite !bind_gets. rewrite (proj2 (Z.eqb_neq _ _) Hne).
  rewrite (bind_Ok _ _ _ _ _ (upd_env_eq _ _)). unfold upd_tlb. cbv zeta. rewrite bind_modify.
  eexists. split; [reflexivity|]. unfold in_tb. simpl. unfold after_tb. simpl. rewrite drop_all. by destruct s as [? ? ? ? ? ? ? ? ? ? ? []].
Qed.
Lemma page_flushed_safe s addr u : tb_ram u = tb_ram (mm_tb s) → tlb_safe s → tlb_safe (page_flushed s addr u).
Proof.
  intros Er [Hw Ht]. split; simpl; [by rewrite Er|]. rewrite Er. intros m i e He. simpl in He. rewrite each_mode_at in He. case_decide; [|by eapply Ht].
  apply fmap_Some in He as (e0 & He0 & ->). apply flush_entry_direct. by eapply Ht.
Qed.
End Facts.
