(* ===== verification/TLBSet.v ===== *)
(** * New entries of the TLB

    What [tlb_set_page] puts into the TLB, and the region of large pages whose flush
    is a flush of everything. *)

From S2P Require Import Prelude CFile CString HostMem RamList Radix PhysPages RRTypes PandaCallbacks.
From S2P Require Import RRState RRReplay TBCache TBSteps TBShape TLB TLBQuiet TLBFacts.
From stdpp Require Import list relations.
Local Open Scope Z_scope.

Section Large.
Context `{PhysSpace} `{TargetLong} {Regs : Type} `{!Translator Regs} `{!TargetLongOk}.
Implicit Types (s : mmu_state Regs) (e : CPUTLBEntry).

(** ** Masks of naturally aligned regions *)

(** All address bits from [k] on. *)
Definition upper (k : Z) : Z := Z.shiftl (Z.ones (target_long_bits - k)) k.

Lemma upper_bit k i : 0 ≤ k ≤ target_long_bits → 0 ≤ i → Z.testbit (upper k) i = bool_decide (k ≤ i < target_long_bits).
Proof.
  intros Hk Hi. unfold upper. rewrite Z.shiftl_spec by done. destruct (decide (i < k)) as [Hlt|Hge].
  - rewrite Z.testbit_neg_r by lia. rewrite bool_decide_eq_false_2; [done|lia].
  - rewrite Z.testbit_ones by lia. case_bool_decide; [rewrite (proj2 (Z.leb_le _ _)), (proj2 (Z.ltb_lt _ _)) by lia; done|].
    rewrite (proj2 (Z.leb_le _ _)), (proj2 (Z.ltb_ge _ _)) by lia. done.
Qed.
Lemma upper_top : upper target_long_bits = 0.
Proof. unfold upper. rewrite Z.sub_diag. change (Z.ones 0) with 0. apply Z.shiftl_0_l. Qed.
Lemma upper_land a b : 0 ≤ a ≤ target_long_bits → 0 ≤ b ≤ target_long_bits → Z.land (upper a) (upper b) = upper (a `max` b).
Proof.
  intros Ha Hb. apply Z.bits_inj'. intros i Hi. rewrite Z.land_spec, !upper_bit by lia. rewrite <-bool_decide_and. apply bool_decide_ext. lia.
Qed.
Lemma wrap_bit w a i : 0 ≤ w → 0 ≤ i → Z.testbit (wrap w a) i = (bool_decide (i < w) && Z.testbit a i)%bool.
Proof.
  intros Hw Hi. unfold wrap. case_bool_decide; [by rewrite Z.mod_pow2_bits_low by lia|]. by rewrite Z.mod_pow2_bits_high by lia.
Qed.
Lemma upper_shift k : 0 ≤ k ≤ target_long_bits → wrap target_long_bits (Z.shiftl (upper k) 1) = upper ((k + 1) `min` target_long_bits).
Proof.
  intros Hk. pose proof target_long_ok. apply Z.bits_inj'. intros i Hi. rewrite wrap_bit, upper_bit by lia. rewrite Z.shiftl_spec by done.
  destruct (decide (i = 0)) as [->|Hne]; [rewrite Z.testbit_neg_r by lia; rewrite andb_false_r; symmetry; apply bool_decide_eq_false_2; lia|].
  rewrite upper_bit by lia. rewrite <-bool_decide_and. apply bool_decide_ext. lia.
Qed.
Lemma upper_mask k : 0 ≤ k ≤ target_long_bits → wrap target_long_bits (Z.lnot (wrap target_long_bits (2 ^ k - 1))) = upper k.
Proof.
  intros Hk. pose proof target_long_ok. replace (2 ^ k - 1) with (Z.ones k) by (rewrite Z.ones_equiv; lia). apply Z.bits_inj'. intros i Hi.
  rewrite wrap_bit, upper_bit, Z.lnot_spec, wrap_bit, Z.testbit_ones by lia.
  repeat case_bool_decide; simpl; try lia; try (by rewrite (proj2 (Z.leb_le _ _)), (proj2 (Z.ltb_lt _ _)) by lia); try done;
  try (by rewrite (proj2 (Z.ltb_ge i k)), andb_false_r by lia); lia.
Qed.
Lemma upper_weaker a b x y : 0 ≤ a ≤ b → b ≤ target_long_bits → Z.land x (upper a) = Z.land y (upper a) → Z.land x (upper b) = Z.land y (upper b).
Proof.
  intros Ha Hb E. replace (upper b) with (Z.land (upper a) (upper b)) by (rewrite upper_land by lia; f_equal; lia). by rewrite !Z.land_assoc, E.
Qed.
Lemma upper_idem k x : 0 ≤ k ≤ target_long_bits → Z.land (Z.land x (upper k)) (upper k) = Z.land x (upper k).
Proof. intros Hk. rewrite <-Z.land_assoc, upper_land by lia. do 2 f_equal. lia. Qed.
Lemma upper_low k x : 0 < k ≤ target_long_bits → Z.land x (upper k) ≠ minus_one.
Proof.
  intros Hk E. assert (Hb : Z.testbit (Z.land x (upper k)) 0 = Z.testbit minus_one 0) by (by rewrite E). rewrite Z.land_spec, upper_bit in Hb by lia.
  rewrite bool_decide_eq_false_2 in Hb by lia. rewrite andb_false_r in Hb. unfold minus_one in Hb. pose proof target_long_ok.
  replace (2 ^ target_long_bits - 1) with (Z.ones target_long_bits) in Hb by (rewrite Z.ones_equiv; lia).
  rewrite Z.ones_spec_low in Hb by lia. done.
Qed.
Lemma xor_same x y m : Z.land (Z.lxor x y) m = 0 ↔ Z.land x m = Z.land y m.
Proof.
  rewrite <-(Z.lxor_eq_0_iff (Z.land x m)). replace (Z.lxor (Z.land x m) (Z.land y m)) with (Z.land (Z.lxor x y) m); [done|].
  apply Z.bits_inj'. intros i _. rewrite !Z.lxor_spec, !Z.land_spec, Z.lxor_spec. by destruct (Z.testbit x i), (Z.testbit y i), (Z.testbit m i).
Qed.

(** ** The region *)

(** No large page was added since the last flush, or the addresses that agree with
    [tlb_flush_addr] from some bit on are the region. *)
Definition region_ok s : Prop := (tlb_flush_addr s = minus_one ∧ tlb_flush_mask s = 0) ∨
  ∃ k, 0 < k ≤ target_long_bits ∧ tlb_flush_mask s = upper k ∧ Z.land (tlb_flush_addr s) (upper k) = tlb_flush_addr s.
Definition in_region s (a : Z) : Prop := Z.land a (tlb_flush_mask s) = tlb_flush_addr s.
#[global] Instance in_region_dec s a : Decision (in_region s a).
Proof. unfold in_region. apply _. Defined.

(** The loop that looks for the common prefix ends: at the latest with the empty mask. *)
Lemma widen_ok diff fuel : ∀ k, 0 ≤ k ≤ target_long_bits → target_long_bits - k ≤ Z.of_nat fuel →
  ∃ k', k ≤ k' ≤ target_long_bits ∧ widen fuel diff (upper k) = Some (upper k') ∧ Z.land diff (upper k') = 0.
Proof.
  induction fuel as [|fuel IH]; intros k Hk Hf; cbn [widen].
  - assert (k = target_long_bits) as -> by lia. exists target_long_bits. rewrite upper_top, Z.land_0_r. split; [lia|done].
  - destruct (Z.land diff (upper k) =? 0) eqn:E; [apply Z.eqb_eq in E; exists k; split; [lia|done]|].
    rewrite upper_shift by done. destruct (decide (k = target_long_bits)) as [->|Hne].
    + by rewrite upper_top, Z.land_0_r in E.
    + rewrite Z.min_l by lia. destruct (IH (k + 1)) as (k' & Hk' & Ew & Ed); [lia..|]. exists k'. split; [lia|done].
Qed.

Definition with_region s (fa fm : Z) : mmu_state Regs := set_tlb_flush_mask fm (set_tlb_flush_addr fa s).

Lemma add_large_page_ok s vaddr k : region_ok s → 0 < k ≤ target_long_bits →
  ∃ fa fm, let s' := with_region s fa fm in tlb_add_large_page vaddr (2 ^ k) s = Ok () s' ∧ region_ok s' ∧
    (∀ a, Z.land a (upper k) = Z.land vaddr (upper k) → in_region s' a) ∧ (∀ a, in_region s a → in_region s' a).
Proof.
  intros Hr Hk. unfold tlb_add_large_page. rewrite upper_mask by lia. rewrite !bind_gets. destruct Hr as [[Ea Em]|(j & Hj & Em & Ea)].
  - rewrite Ea, Z.eqb_refl. rewrite bind_modify. eexists _, _. split; [reflexivity|]. split; [right; exists k; split; [lia|split; [done|by apply upper_idem; lia]]|].
    split; [by intros a|]. intros a. unfold in_region. rewrite Ea, Em, Z.land_0_r. intros E. pose proof minus_one_low as Hm. by rewrite <-E in Hm.
  - rewrite (proj2 (Z.eqb_neq _ _)) by (rewrite <-Ea; by apply upper_low). rewrite Em, upper_land by lia.
    destruct (widen_ok (Z.lxor (tlb_flush_addr s) vaddr) (Z.to_nat target_long_bits) (k `max` j)) as (n & Hn & Ew & Ed); [lia..|]. rewrite Ew. apply xor_same in Ed.
    rewrite bind_modify. eexists _, _. split; [reflexivity|]. split; [right; exists n; split; [lia|split; [done|apply upper_idem; lia]]|].
    unfold in_region. simpl. split; intros a Ha.
    + rewrite Ed. apply (upper_weaker k); [lia..|done].
    + rewrite Em in Ha. apply (upper_weaker j n); [lia..|]. by rewrite Ha, Ea.
Qed.

(** A flush of a page of the region is a flush of everything. *)
Lemma flush_region s a : in_region s a → tlb_flush_page a s = tlb_flush s.
Proof. intros Ha. unfold tlb_flush_page. rewrite !bind_gets. by rewrite (proj2 (Z.eqb_eq _ _) Ha). Qed.

Lemma region_large s vaddr size : region_ok s → size = TARGET_PAGE_SIZE ∨ (∃ k, 0 < k ≤ target_long_bits ∧ size = 2 ^ k) →
  ∃ fa fm, (if size =? TARGET_PAGE_SIZE then mret () else tlb_add_large_page vaddr size) s = Ok () (with_region s fa fm) ∧
    region_ok (with_region s fa fm) ∧ ∀ a, in_region s a → in_region (with_region s fa fm) a.
Proof.
  intros Hr Hs. destruct (size =? TARGET_PAGE_SIZE) eqn:E.
  - exists (tlb_flush_addr s), (tlb_flush_mask s). by destruct s.
  - apply Z.eqb_neq in E. destruct Hs as [|(k & Hk & ->)]; [done|]. destruct (add_large_page_ok s vaddr k Hr Hk) as (fa & fm & A & B & _ & C). by exists fa, fm.
Qed.

(** Whatever the size: nothing but the region changes. *)
Lemma large_inv s vaddr size s' : (if size =? TARGET_PAGE_SIZE then mret () else tlb_add_large_page vaddr size) s = Ok () s' →
  ∃ fa fm, s' = with_region s fa fm.
Proof.
  case_match; [intros [= <-]; exists (tlb_flush_addr s), (tlb_flush_mask s); by destruct s|]. unfold tlb_add_large_page. rewrite !bind_gets.
  case_match; [rewrite bind_modify; intros [= <-]; by eexists _, _|]. case_match; [|done]. rewrite bind_modify. intros [= <-]. by eexists _, _.
Qed.
End Large.

Section Set_page.
Context `{PhysSpace} `{TargetLong} {Regs : Type} `{!Translator Regs} `{!TargetLongOk}.
Implicit Types (s : mmu_state Regs) (e : CPUTLBEntry) (phys : gmap Z (ptab P_LEVELS)).

(** ** The entry of a page *)

Definition page_pd phys (paddr : Z) : Z := match phys_page_find phys (Z.shiftr paddr TARGET_PAGE_BITS) with Some d => phys_offset d | None => IO_MEM_UNASSIGNED end.
Definition page_io (pd : Z) : Z := Z.land pd (Z.lnot TARGET_PAGE_MASK).
(** The kinds of pages there are: RAM, ROM, a device, or a device read like ROM. *)
Definition pd_ok (pd : Z) : Prop := in_width 64 pd ∧ (page_io pd = IO_MEM_RAM ∨ IO_MEM_ROM ≤ page_io pd ∨ Z.land pd IO_MEM_ROMD ≠ 0).

Definition put s (fa fm io_addr : Z) (r : ram_state) (mmu_idx : Z) (index : nat) e : mmu_state Regs :=
  let s1 := set_mm_tb (set_tb_ram r (mm_tb s)) (with_region s fa fm) in
  set_tlb_table (alter (λ row : list CPUTLBEntry, <[index := e]> row) (Z.to_nat mmu_idx) (tlb_table s))
    (set_iotlb (alter (λ row : list Z, <[index := io_addr]> row) (Z.to_nat mmu_idx) (iotlb s)) s1).

(** What the entry for a page is like. *)
Record entry_for s (pd vaddr prot host : Z) e : Prop := {
  ef_addend : addend e = wrap 64 (host - vaddr);
  ef_code : page_io pd = IO_MEM_RAM → Z.land prot PAGE_EXEC ≠ 0 → addr_code e = vaddr;
  ef_direct : writes_ram e = true → addr_write e = vaddr ∧ page_io pd = IO_MEM_RAM ∧ dirty_page (tb_ram (mm_tb s)) (Z.shiftr pd TARGET_PAGE_BITS) ∧
    existsb (watched vaddr prot) (watchpoints s) = false;
  ef_watched : existsb (watched vaddr prot) (watchpoints s) = true → Z.testbit (addr_read e) 5 = true ∧ Z.testbit (addr_write e) 5 = true;
}.

Lemma mmio_bit a : Z.testbit (Z.lor a TLB_MMIO) 5 = true.
Proof. rewrite Z.lor_spec. apply orb_true_r. Qed.
Lemma minus_one_bit i : 0 ≤ i < 12 → Z.testbit minus_one i = true.
Proof.
  intros Hi. unfold minus_one. pose proof target_long_ok. replace (2 ^ target_long_bits - 1) with (Z.ones target_long_bits) by (rewrite Z.ones_equiv; lia).
  apply Z.ones_spec_low. lia.
Qed.
Lemma low_bit a i : 0 ≤ i < 12 → Z.testbit a i = true → a mod 4096 ≠ 0.
Proof. intros Hi Hb Ha. pose proof (writes_ram_bit (mkTE 0 a 0 0) i Hi Hb) as Hf. rewrite <-not_true_iff_false, writes_ram_iff in Hf. done. Qed.

Lemma ram_same s : set_mm_tb (set_tb_ram (tb_ram (mm_tb s)) (mm_tb s)) s = s.
Proof. by destruct s as [? ? ? ? ? ? ? ? ? ? ? []]. Qed.

Lemma is_dirty_inv a r d r' : cpu_physical_memory_is_dirty a r = Ok d r' → r' = r ∧ (d = true → dirty_page r (Z.shiftr a TARGET_PAGE_BITS)).
Proof.
  unfold cpu_physical_memory_is_dirty, cpu_physical_memory_get_dirty_flags. intros (v & r1 & E1 & E)%bind_inv_Ok. rewrite bind_gets in E1.
  unfold at_idx in E1. unfold page_index in E1. destruct (_ <? 0) eqn:En; [done|]. destruct (_ !! _) as [x|] eqn:Ex; [|done]. injection E1 as -> <-. injection E as <- <-.
  split; [done|]. intros ->%Z.eqb_eq. split; [lia|done].
Qed.
Lemma is_dirty_ok a r b : ram_ok r → owner a r b → in_width 64 a → ∃ d, cpu_physical_memory_is_dirty a r = Ok d r.
Proof.
  intros Hok [Hb Hr] Hw. unfold cpu_physical_memory_is_dirty.
  pose proof (proj1 (Forall_forall _ _) (ro_dirty _ Hok) b Hb) as Hd. cbv beta in Hd. unfold in_range, in_width in *.
  assert (Hi : 0 ≤ page_index a < Z.of_nat (length (phys_dirty r))).
  { unfold page_index. rewrite Z.shiftr_div_pow2 by done. change (2 ^ TARGET_PAGE_BITS) with 4096. pose proof (Z.div_mod a 4096). pose proof (Z.mod_pos_bound a 4096). lia. }
  destruct (lookup_lt_is_Some_2 (phys_dirty r) (Z.to_nat (page_index a))) as [x Hx]; [lia|]. exists (x =? 255).
  assert (Eg : cpu_physical_memory_get_dirty_flags a r = Ok x r).
  { unfold cpu_physical_memory_get_dirty_flags. rewrite bind_gets. unfold at_idx. by rewrite (proj2 (Z.ltb_ge _ _)), Hx by lia. }
  by rewrite (bind_Ok _ _ _ _ _ Eg).
Qed.

(** The address for writes: where the branches lead. *)
Definition write_part (pd address prot : Z) : M (mmu_state Regs) Z :=
  if Z.land prot PAGE_WRITE =? 0 then mret minus_one
  else if (page_io pd =? IO_MEM_ROM) || negb (Z.land pd IO_MEM_ROMD =? 0) then mret (Z.lor address TLB_MMIO)
  else if page_io pd =? IO_MEM_RAM then
    d ← in_mmu_ram (cpu_physical_memory_is_dirty pd); mret (if (d : bool) then address else Z.lor address TLB_NOTDIRTY)
  else mret address.

Lemma write_part_inv pd address prot s aw s' : write_part pd address prot s = Ok aw s' → s' = s ∧
  (Z.testbit address 5 = true → Z.testbit aw 5 = true) ∧
  (aw mod 4096 = 0 → aw = address ∧ (page_io pd = IO_MEM_RAM → dirty_page (tb_ram (mm_tb s)) (Z.shiftr pd TARGET_PAGE_BITS)) ∧
    (page_io pd = IO_MEM_RAM ∨ page_io pd ≠ IO_MEM_ROM ∧ Z.land pd IO_MEM_ROMD = 0)).
Proof.
  unfold write_part. destruct (_ =? 0) eqn:Ew.
  { intros [= <- <-]. split; [done|]. split; [intros _; by apply minus_one_bit|]. by rewrite minus_one_low. }
  destruct (_ || _) eqn:Er.
  { intros [= <- <-]. split; [done|]. split; [intros _; apply mmio_bit|]. intros Hm. by destruct (low_bit _ 5 ltac:(lia) (mmio_bit address)). }
  apply orb_false_iff in Er as [Er Ed]. apply Z.eqb_neq in Er. apply negb_false_iff, Z.eqb_eq in Ed.
  destruct (_ =? IO_MEM_RAM) eqn:Ei.
  - apply Z.eqb_eq in Ei. intros (d & s1 & E1 & E)%bind_inv_Ok. apply in_mmu_ram_inv in E1 as (r & Ed' & ->).
    apply is_dirty_inv in Ed' as [-> Hd]. rewrite ram_same in E. injection E as <- <-. split; [done|]. destruct d.
    + split; [done|]. intros _. split; [done|]. split; [intros _; by apply Hd|by left].
    + split; [rewrite Z.lor_spec; by intros ->|]. intros Hm. destruct (low_bit (Z.lor address TLB_NOTDIRTY) 4 ltac:(lia)); [|done].
      rewrite Z.lor_spec. apply orb_true_r.
  - apply Z.eqb_neq in Ei. intros [= <- <-]. split; [done|]. split; [done|]. intros _. split; [done|]. split; [done|]. by right.
Qed.

Lemma get_ram_ptr_inv a r h r' : qemu_get_ram_ptr a r = Ok h r' → in_width 64 a → ram_ok r →
  ∃ b, owner a r b ∧ h = blk_host b + (a - blk_offset b) ∧ ram_eqv r r'.
Proof.
  intros E Hw Hok. pose proof E as E'. unfold qemu_get_ram_ptr in E'. rewrite bind_gets in E'. destruct (list_find _ _) as [[i b]|] eqn:Ef; [|done].
  apply list_find_Some in Ef as (Hi & Hb & _). assert (Hin : b ∈ ram_blocks r) by (by eapply list_elem_of_lookup_2).
  assert (Ho : owner a r b) by (split; [done|]; apply in_block_range; [done|by eapply (Forall_lookup_1 _ _ _ _ (ro_blocks _ Hok))|done]).
  destruct (get_ram_ptr_ok a r b Hw Hok Ho) as (r1 & E1 & He). rewrite E in E1. injection E1 as -> <-. by exists b.
Qed.
Lemma page_in_width pd : in_width 64 pd → in_width 64 (Z.land pd TARGET_PAGE_MASK).
Proof. unfold in_width. rewrite page_mask. pose proof (Z.mod_pos_bound pd 4096). pose proof (Z.div_mod pd 4096). lia. Qed.

Lemma pd_kinds pd : pd_ok pd → page_io pd ≠ IO_MEM_RAM → page_io pd ≠ IO_MEM_ROM → Z.land pd IO_MEM_ROMD = 0 →
  (IO_MEM_ROM <? page_io pd) && (Z.land pd IO_MEM_ROMD =? 0) = true.
Proof. intros [_ [Ha|[Ha|Ha]]] Hb Hc Hd; [done| |done]. rewrite Hd. rewrite (proj2 (Z.ltb_lt _ _)) by lia. done. Qed.

Lemma tlb_set_page_inv phys vaddr paddr prot mmu_idx size s s' : let pd := page_pd phys paddr in
  tlb_set_page phys vaddr paddr prot mmu_idx size s = Ok () s' → ram_wf (tb_ram (mm_tb s)) → pd_ok pd → vaddr mod 4096 = 0 →
  ∃ b r fa fm io_addr e, let host := blk_host b + (Z.land pd TARGET_PAGE_MASK - blk_offset b) in
    owner (Z.land pd TARGET_PAGE_MASK) (tb_ram (mm_tb s)) b ∧ ram_eqv (tb_ram (mm_tb s)) r ∧ s' = put s fa fm io_addr r mmu_idx (tlb_index vaddr) e ∧
    entry_for s pd vaddr prot host e.
Proof.
  intros pd E Hw Hpd Hv. unfold tlb_set_page in E. apply bind_inv_Ok in E as ([] & s0 & E0 & E).
  unfold assert_or in E0. destruct (_ <=? _); [|done]. injection E0 as <-. apply bind_inv_Ok in E as ([] & s1 & E1 & E). apply large_inv in E1 as (fa & fm & ->).
  cbv zeta in E. fold (page_pd phys paddr) in E. fold pd in E. fold (page_io pd) in E.
  apply bind_inv_Ok in E as (host & s2 & E2 & E). apply in_mmu_ram_inv in E2 as (r & E2 & ->). simpl in E2.
  apply get_ram_ptr_inv in E2 as (b & Hb & -> & He); [|apply page_in_width, Hpd|apply Hw].
  rewrite !bind_gets in E. simpl in E. apply bind_inv_Ok in E as (aw & s3 & E3 & E).
  set (trap := existsb _ _) in *. set (address := if _ && _ then _ else _) in *.
  apply (write_part_inv pd (if trap then Z.lor address TLB_MMIO else address) prot) in E3 as (-> & Hbit & Hdir).
  rewrite bind_gets in E. apply bind_inv_Ok in E as (? & s4 & E4 & E). unfold at_idx in E4. destruct (_ <? 0); [done|]. destruct (_ !! _); [|done]. injection E4 as _ <-.
  rewrite bind_modify in E. injection E as <-. eexists b, r, fa, fm, _, _. split; [done|]. split; [done|]. split; [reflexivity|]. split; cbn [addend addr_code addr_read addr_write].
  - done.
  - intros Hio Hx. rewrite (proj2 (Z.eqb_neq _ _) Hx). unfold address. by rewrite Hio.
  - rewrite writes_ram_iff. cbn [addr_write]. intros Hz. destruct (Hdir Hz) as (Eaw & Hd & Hk). rewrite Eaw in *. fold trap.
    destruct trap; [by destruct (low_bit _ 5 ltac:(lia) (mmio_bit address))|].
    destruct (decide (page_io pd = IO_MEM_RAM)) as [Hio|Hio].
    + unfold address in *. rewrite Hio in *. split; [done|]. split; [done|]. split; [|done]. eapply dirty_eqv; [symmetry; exact He|by apply Hd].
    + destruct Hk as [|[Hk1 Hk2]]; [done|]. unfold address in Hz. rewrite (pd_kinds pd) in Hz by done. by destruct (low_bit _ 5 ltac:(lia) (mmio_bit vaddr)).
  - fold trap. intros Ht. rewrite Ht in *. split; [destruct (Z.land prot PAGE_READ =? 0); [by apply minus_one_bit|apply mmio_bit]|]. apply Hbit, mmio_bit.
Qed.

Lemma page_base pd : page_io pd = IO_MEM_RAM → 4096 * Z.shiftr pd TARGET_PAGE_BITS = pd ∧ Z.land pd TARGET_PAGE_MASK = pd.
Proof.
  unfold page_io. rewrite low_bits, page_mask. intros Hz. rewrite Z.shiftr_div_pow2 by done. change (2 ^ TARGET_PAGE_BITS) with 4096.
  change IO_MEM_RAM with 0 in Hz. pose proof (Z.div_mod pd 4096). lia.
Qed.
Lemma back_host host vaddr : in_width 64 host → wrap 64 (vaddr + wrap 64 (host - vaddr)) = host.
Proof. intros Hh. rewrite Z.add_comm, wrap_add_l. replace (host - vaddr + vaddr) with host by lia. by apply wrap_small. Qed.
Lemma owner_host_width a r b : ram_ok r → owner a r b → in_width 64 (blk_host b + (a - blk_offset b)).
Proof.
  intros Hok [Hb Hr]. destruct (proj1 (Forall_forall _ _) (ro_blocks _ Hok) b Hb) as (A & B & C & _ & _ & D & E). unfold in_range, in_width in *. lia.
Qed.

Lemma set_page_safe phys vaddr paddr prot mmu_idx size s s' : tlb_set_page phys vaddr paddr prot mmu_idx size s = Ok () s' →
  pd_ok (page_pd phys paddr) → vaddr mod 4096 = 0 → tlb_safe s → tlb_safe s'.
Proof.
  intros E Hpd Hv [Hw Ht]. destruct (tlb_set_page_inv _ _ _ _ _ _ _ _ E Hw Hpd Hv) as (b & r & fa & fm & io & e & Ho & He & -> & Hf).
  set (pd := page_pd phys paddr) in *. split; simpl; [by eapply wf_eqv|]. intros m i e' Hin.
  apply put_tlb_at in Hin as [(-> & -> & ->)|[_ Hin]].
  - intros Hd. destruct (ef_direct _ _ _ _ _ _ Hf Hd) as (Ea & Hio & Hdk & _). destruct (page_base pd Hio) as [Eb Em]. exists (Z.shiftr pd TARGET_PAGE_BITS). split; [|by eapply dirty_eqv].
    exists b. rewrite Eb. rewrite Em in *. split; [by rewrite <-He|]. unfold write_host. rewrite Ea, (ef_addend _ _ _ _ _ _ Hf).
    replace (Z.land vaddr TARGET_PAGE_MASK) with vaddr by (rewrite page_mask; lia). apply back_host. eapply owner_host_width; [apply Hw|done].
  - intros Hd. destruct (Ht m i e' Hin Hd) as (k & A & B). exists k. split; [by eapply leads_eqv|by eapply dirty_eqv].
Qed.

(** ** It succeeds for pages of RAM, and code is fetched from there *)

Lemma from_host_ok a r b : ram_ok r → owner a r b → in_width 64 a → qemu_ram_addr_from_host (blk_host b + (a - blk_offset b)) r = Some a.
Proof.
  intros Hok Ho Hw. pose proof (owner_host_width a r b Hok Ho) as Hp. destruct Ho as [Hb Hr]. pose proof (proj1 (Forall_forall _ _) (ro_blocks _ Hok) b Hb) as Hbo.
  apply list_elem_of_lookup in Hb as [i Hi]. set (p := blk_host b + (a - blk_offset b)) in *. unfold qemu_ram_addr_from_host.
  rewrite (find_sole _ (ram_blocks r) i b (backs_sole p r Hp Hok) Hi).
  - destruct Hbo as (B1 & B2 & B3 & _ & _ & B6 & B7). unfold in_range, in_width in *. unfold p. replace (_ - blk_host b) with (a - blk_offset b) by lia.
    rewrite (wrap_small 64 (a - _)) by (unfold in_width; lia). replace (blk_offset b + _) with a by lia. by rewrite wrap_small.
  - apply backs_range; [done|done|]. unfold in_range, p in *. lia.
Qed.
Lemma from_host_page r h k o : ram_wf r → hosts_page r h k → 0 ≤ o < 4096 →
  qemu_ram_addr_from_host_nofail (h + o) r = Ok (4096 * k + o) r.
Proof.
  intros Hw (b & Ho & ->) Hr. unfold qemu_ram_addr_from_host_nofail. rewrite bind_gets.
  assert (Ho' : owner (4096 * k + o) r b).
  { destruct Ho as [Hb Hi]. split; [done|]. eapply page_inside; [by apply (proj1 (Forall_forall _ _) (ro_blocks _ (proj1 Hw)))|exact Hi|reflexivity|].
    rewrite Z.shiftr_div_pow2 by done. change (2 ^ TARGET_PAGE_BITS) with 4096. rewrite (Z.mul_comm 4096 k), Z.div_mul by done. lia. }
  pose proof (owner_low _ _ _ Hw Ho') as Hlow. assert (0 ≤ 4096 * k + o).
  { destruct Ho' as [Hb Hi]. destruct (proj1 (Forall_forall _ _) (ro_blocks _ (proj1 Hw)) b Hb) as (A & _). unfold in_range in Hi. lia. }
  replace (_ + _ + o) with (blk_host b + (4096 * k + o - blk_offset b)) by lia. rewrite (from_host_ok (4096 * k + o)); [done|apply Hw|done|unfold in_width; lia].
Qed.

Definition page_size_ok (size : Z) : Prop := ∃ k, TARGET_PAGE_BITS ≤ k ≤ target_long_bits ∧ size = 2 ^ k.

Lemma write_part_ok pd address prot s b : ram_ok (tb_ram (mm_tb s)) → in_width 64 pd → owner pd (tb_ram (mm_tb s)) b →
  ∃ aw, write_part pd address prot s = Ok aw s.
Proof.
  intros Hok Hw Ho. unfold write_part. destruct (_ =? 0); [by eexists|]. destruct (_ || _); [by eexists|]. destruct (_ =? _); [|by eexists].
  destruct (is_dirty_ok _ _ _ Hok Ho Hw) as [d Ed]. rewrite (bind_Ok _ _ _ _ _ (in_mmu_ram_Ok _ _ _ _ Ed)), ram_same. by eexists.
Qed.

Lemma set_page_runs phys vaddr paddr prot mmu_idx size s row b : let pd := page_pd phys paddr in
  ram_wf (tb_ram (mm_tb s)) → region_ok s → page_size_ok size → page_io pd = IO_MEM_RAM → in_width 64 pd → owner pd (tb_ram (mm_tb s)) b →
  0 ≤ mmu_idx → tlb_table s !! Z.to_nat mmu_idx = Some row → ∃ s', tlb_set_page phys vaddr paddr prot mmu_idx size s = Ok () s'.
Proof.
  intros pd Hw Hr (k & Hk & ->) Hio Hpw Ho Hm Hrow. destruct (page_base pd Hio) as [_ Em]. unfold tlb_set_page. unfold assert_or at 1.
  rewrite (proj2 (Z.leb_le _ _)) by (apply (Z.pow_le_mono_r 2 TARGET_PAGE_BITS k); lia). rewrite bind_ret.
  destruct (region_large s vaddr (2 ^ k) Hr) as (fa & fm & E1 & _); [right; exists k; split; [unfold TARGET_PAGE_BITS in Hk; lia|done]|]. rewrite (bind_Ok _ _ _ _ _ E1).
  cbv zeta. fold (page_pd phys paddr). fold pd. fold (page_io pd). rewrite Em.
  destruct (get_ram_ptr_ok pd (tb_ram (mm_tb s)) b Hpw (proj1 Hw) Ho) as (r & E2 & He).
  rewrite (bind_Ok _ _ _ _ _ (in_mmu_ram_Ok _ (with_region s fa fm) _ _ E2)). rewrite !bind_gets.
  match goal with |- context [if existsb ?w ?l then Z.lor ?a TLB_MMIO else ?a] =>
    destruct (write_part_ok pd (if existsb w l then Z.lor a TLB_MMIO else a) prot (set_mm_tb (set_tb_ram r (mm_tb (with_region s fa fm))) (with_region s fa fm)) b) as [aw E3] end;
    [simpl; rewrite <-He; apply Hw|done|simpl; by rewrite <-He|]. unfold write_part in E3. rewrite (bind_Ok _ _ _ _ _ E3).
  rewrite bind_gets. unfold at_idx. rewrite (proj2 (Z.ltb_ge mmu_idx 0)) by lia. simpl. rewrite Hrow, bind_ret, bind_modify. by eexists.
Qed.

Lemma tlb_index_page vaddr o : 0 ≤ o < 4096 → vaddr mod 4096 = 0 → tlb_index (vaddr + o) = tlb_index vaddr ∧ Z.land (vaddr + o) TARGET_PAGE_MASK = vaddr.
Proof.
  intros Ho Hv. unfold tlb_index. rewrite page_mask, !Z.shiftr_div_pow2 by done. change (2 ^ TARGET_PAGE_BITS) with 4096.
  pose proof (Z.div_mod vaddr 4096 ltac:(lia)) as Ev. pose proof (Z.div_mod (vaddr + o) 4096 ltac:(lia)). pose proof (Z.mod_pos_bound (vaddr + o) 4096 ltac:(lia)).
  split; [|lia]. do 2 f_equal. lia.
Qed.

Lemma code_addr_ok fill s mi e vaddr o h k : ram_wf (tb_ram (mm_tb s)) → vaddr mod 4096 = 0 → 0 ≤ o < 4096 → tlb_at (tlb_table s) mi (tlb_index vaddr) = Some e →
  addr_code e = vaddr → addend e = wrap 64 (h - vaddr) → hosts_page (tb_ram (mm_tb s)) h k → code_addr fill mi (vaddr + o) s = Ok (4096 * k + o) s.
Proof.
  intros Hw Hv Ho He Hc Ha Hl. destruct (tlb_index_page vaddr o Ho Hv) as [Ei Em].
  assert (Ee : tlb_entry mi (tlb_index (vaddr + o)) s = Ok e s) by (unfold tlb_entry; rewrite bind_gets, Ei; unfold tlb_at in He; by rewrite He).
  unfold code_addr. rewrite (bind_Ok _ _ _ _ _ Ee), Em, Hc, Z.eqb_refl, bind_ret, (bind_Ok _ _ _ _ _ Ee), Hc, low_bits, Hv, Ha. cbv zeta.
  assert (Hh : in_width 64 (h + o)).
  { destruct (leads_page _ _ _ o (proj1 Hw) Hl Ho) as (b & Hb & Hi & _). destruct (proj1 (Forall_forall _ _) (ro_blocks _ (proj1 Hw)) b Hb) as (A & B & C & _ & _ & D & E). unfold in_range, in_width in *. lia. }
  replace (wrap 64 (vaddr + o + wrap 64 (h - vaddr))) with (h + o).
  2: { rewrite (Z.add_comm (vaddr + o)), wrap_add_l. replace (h - vaddr + (vaddr + o)) with (h + o) by lia. by rewrite wrap_small. }
  rewrite <-(ram_same s) at 2. apply (in_mmu_ram_Ok _ _ _ _ (from_host_page _ _ _ _ Hw Hl Ho)).
Qed.
End Set_page.
