(* ===== verification/TLBSteps.v ===== *)
(** * The TLB next to the code cache

    Writes to clean pages and flushes: what the pages with code and the entries of
    the TLB keep saying of each other. *)

From S2P Require Import Prelude CFile CString HostMem RamList Radix PhysPages RRTypes PandaCallbacks.
From S2P Require Import RRState RRReplay TBCache TBLists TBInv TBInsert TBGen TBBitmap TBShape TBFind TBChain TBRange TBFast TBSteps.
From S2P Require Import TLB TLBQuiet TLBFacts TLBSet.
From stdpp Require Import functions list relations.
Local Open Scope Z_scope.

Section Steps.
Context `{PhysSpace} `{TargetLong} {Regs : Type} `{!Translator Regs} `{!TranslatorLaws Regs} `{!SpaceOk L1_MAP_ADDR_SPACE_BITS}.
Context `{!TargetLongOk} `{!FetchLaws Regs}.
Implicit Types (s : mmu_state Regs) (u : tb_state Regs) (v : view) (e : CPUTLBEntry) (phys : gmap Z (ptab P_LEVELS)).

(** ** The cache next to other changes *)

(** RAM may change as long as the pages with code stay watched. *)
Lemma good_ram u v r : good u v → ram_ok r → (∀ a b, owner a (tb_ram u) b → owner a r b) → guarded (set_tb_ram r u) v → good (set_tb_ram r u) v.
Proof.
  intros [HI HB HR HC HM HS HBm] Hok Ho Hg. split; [|by destruct HB| |done|done|done|by apply (bitmaps_keep u _ v)].
  - destruct HI as [A [B1 B2 B3 B4 B5 B6 B7 B8 B9] [C1 C2 C3 C4 C5 C6] D E F [G1 G2 G3 G4] R J].
    split; [done|by split|by split|done|done|done|by split|done|done].
  - intros a ph Ha. destruct (HR a ph Ha) as (A & B & C & D & E & b & F). split; [done|]. split; [done|]. split_and!; try done. exists b. by apply Ho.
Qed.
Lemma good_eqv u v r : good u v → ram_eqv (tb_ram u) r → good (set_tb_ram r u) v.
Proof.
  intros HG He. apply good_ram; [done|rewrite <-He; apply (ci_ram _ _ (gd_inv _ _ HG))|intros a b; by rewrite He|].
  intros k Hk Hn. simpl. rewrite <-(re_dirty _ _ He). by apply (ci_guarded _ _ (gd_inv _ _ HG)).
Qed.

(** A flush: whatever is mapped now, the cache of virtual addresses agrees. *)
Lemma good_flushed u v c : good u v → code_in_ram (set_tb_cpu c u) → tb_jmp_cache c = ∅ → good (set_tb_cpu c u) v.
Proof.
  intros [HI HB HR HC HM HS HBm] Hcr Hc. split; [|by destruct HB|done|done| |done|by apply (bitmaps_keep u _ v)].
  - destruct HI as [A [B1 B2 B3 B4 B5 B6 B7 B8 B9] [C1 C2 C3 C4 C5 C6] D E F [G1 G2 G3 G4] R J].
    split; [done|by split|split; try done|done|done|done|by split|done|done]. simpl. rewrite Hc. intros h i. by rewrite lookup_empty.
  - intros h i t. simpl. rewrite Hc. by rewrite lookup_empty.
Qed.
Lemma good_current u v o : good u v → good (set_tb_cpu (set_current_tb o (tb_cpu u)) u) v.
Proof. intros HG. eapply (shrunk_good ∅); [exact HG|]. apply shrunk_same; [apply HG|by split|done|done]. Qed.

(** The page of a block is watched; a page that is dirty for every purpose holds no
    code. *)
Lemma page_watched u v i t n k : good u v → i ∈ v_live v → data u i = Some t → on_page t n k →
  page_dom u k ∧ ∃ f, phys_dirty (tb_ram u) !! Z.to_nat k = Some f ∧ Z.land f CODE_DIRTY_FLAG = 0.
Proof.
  intros HG Hi Ht Hon. pose proof (gd_inv _ _ HG) as HI. pose proof (li_page_ok _ _ (ci_listed _ _ HI) i t n k Hi Ht Hon) as Hdom. split; [done|].
  apply (ci_guarded _ _ HI k Hdom). intros En. assert (Hin : (i, n) ∈ v_page v k) by (apply (li_page _ _ (ci_listed _ _ HI) k i n Hdom); naive_solver).
  rewrite En in Hin. set_solver.
Qed.
Lemma dirty_code_free u v k : good u v → dirty_page (tb_ram u) k → ∀ i t n, i ∈ v_live v → data u i = Some t → ¬ on_page t n k.
Proof.
  intros HG [Hk Hd] i t n Hi Ht Hon. destruct (page_watched u v i t n k HG Hi Ht Hon) as (_ & f & Hf & Hz). rewrite Hd in Hf. by injection Hf as <-.
Qed.

(** ** A write to a clean page *)

(** The entries for the virtual page, in whatever mode, lead to the page [k] of RAM. *)
Definition page_entries s (vp k : Z) : Prop := ∀ m e, tlb_at (tlb_table s) m (tlb_index vp) = Some e →
  addr_write e = vp ∨ addr_write e = Z.lor vp TLB_NOTDIRTY → hosts_page (tb_ram (mm_tb s)) (wrap 64 (vp + addend e)) k.

Lemma effects_weak evs : ∀ (t : list (list CPUTLBEntry)) m i e, tlb_at (tlb_effects evs t) m i = Some e → ∃ e0, tlb_at t m i = Some e0 ∧ addend e = addend e0 ∧
  (addr_write e = addr_write e0 ∨ addr_write e = Z.lor (addr_write e0) TLB_NOTDIRTY ∧ writes_ram e0 = true).
Proof.
  induction evs as [|ev evs IH]; intros t m i e He; [exists e; naive_solver|]. cbn [tlb_effects foldl] in He.
  apply IH in He as (e1 & He1 & Ha1 & Hw1). destruct ev as [st ln| | | |]; try (by exists e1). simpl in He1. rewrite each_tlb_at in He1.
  apply fmap_Some in He1 as (e0 & He0 & ->). exists e0. split; [done|]. unfold tlb_reset_dirty_range in *. destruct (writes_ram e0) eqn:Er; [|naive_solver].
  destruct (_ <? _); [|naive_solver]. simpl in *. split; [done|].
  apply writes_ram_iff in Er as Hz. replace (Z.land (addr_write e0) TARGET_PAGE_MASK) with (addr_write e0) in * by (rewrite page_mask; lia).
  destruct Hw1 as [->|[-> Hw]]; [by right|]. exfalso. rewrite writes_ram_iff in Hw. simpl in Hw.
  destruct (low_bit (Z.lor (addr_write e0) TLB_NOTDIRTY) 4 ltac:(lia)); [|done]. rewrite Z.lor_spec. apply orb_true_r.
Qed.

Lemma notdirty_inj a b : a mod 4096 = 0 → b mod 4096 = 0 → Z.lor a TLB_NOTDIRTY = Z.lor b TLB_NOTDIRTY → a = b.
Proof.
  intros Ha Hb E. assert (Hm : ∀ x, x mod 4096 = 0 → Z.land (Z.lor x TLB_NOTDIRTY) TARGET_PAGE_MASK = x).
  { intros x Hx. rewrite Z.land_lor_distr_l. change (Z.land TLB_NOTDIRTY TARGET_PAGE_MASK) with 0. rewrite Z.lor_0_r, page_mask. lia. }
  by rewrite <-(Hm a), <-(Hm b), E.
Qed.

Lemma page_floor a : (a - a mod 4096) mod 4096 = 0.
Proof. pose proof (Z.div_mod a 4096 ltac:(lia)). replace (a - a mod 4096) with (a / 4096 * 4096) by lia. by apply Z.mod_mul. Qed.

Lemma page_entries_kept s u vp k : kept_ram (mm_tb s) u → ram_wf (tb_ram (mm_tb s)) → vp mod 4096 = 0 → page_entries s vp k → page_entries (after_tb u s) vp k.
Proof.
  intros Hk Hw Hv Hp m e He Ha. destruct (Hk Hw) as (_ & Hb & _ & _ & evs & Et & _). simpl in *. rewrite Et, drop_app_length in He.
  apply effects_weak in He as (e0 & He0 & Ea & Hw'). rewrite Ea. eapply leads_blocks; [exact Hb|]. apply (Hp m e0 He0).
  destruct Hw' as [Ew|[Ew Hr]]; [by rewrite <-Ew|]. rewrite Ew in Ha. apply writes_ram_iff in Hr. left. destruct Ha as [Ha|Ha]; [|by apply notdirty_inj].
  exfalso. destruct (low_bit (Z.lor (addr_write e0) TLB_NOTDIRTY) 4 ltac:(lia)); [|by rewrite Ha]. rewrite Z.lor_spec. apply orb_true_r.
Qed.

Lemma set_dirty_safe s va k : tlb_safe s → page_entries s (Z.land va TARGET_PAGE_MASK) k → dirty_page (tb_ram (mm_tb s)) k →
  ∃ t, tlb_set_dirty va s = Ok () (set_tlb_table t s) ∧ tlb_safe (set_tlb_table t s).
Proof.
  intros [Hw Ht] Hp Hd. set (vp := Z.land va TARGET_PAGE_MASK) in *. eexists. split; [reflexivity|]. split; [done|]. intros m i e He. simpl in He. rewrite each_mode_at in He. case_decide as Ei; [|by eapply Ht].
  subst. apply fmap_Some in He as (e0 & He0 & ->). unfold tlb_set_dirty1. fold vp in He0. destruct (_ =? _) eqn:E; [|by eapply Ht].
  apply Z.eqb_eq in E. intros _. exists k. split; [|done]. unfold write_host. simpl. assert (Hz : Z.land vp TARGET_PAGE_MASK = vp) by (unfold vp; by rewrite <-Z.land_assoc, Z.land_diag).
  fold vp. rewrite Hz. apply (Hp m e0 He0). by right.
Qed.

Record mmu_ok s v : Prop := { mo_cache : good (mm_tb s) v; mo_safe : tlb_safe s }.

Lemma store_ram_ok r b a (d : list byte) : ram_ok r → owner a r b → a + Z.of_nat (length d) ≤ blk_offset b + blk_length b →
  store_ram (blk_host b + (a - blk_offset b)) d r = Ok () (set_ram_mem (mem_write (ram_mem r) (blk_host b + (a - blk_offset b)) d) r).
Proof.
  intros Hok [Hb Hr] Hl. unfold store_ram. rewrite bind_gets. unfold in_range in Hr.
  pose proof (proj1 (Forall_forall _ _) (ro_mapped _ Hok) b Hb) as Hm. cbv beta in Hm.
  destruct (mem_read_mapped (ram_mem r) (blk_host b + (a - blk_offset b)) (length d)) as [x Hx]; [eapply mapped_sub; [..|exact Hm]; lia|]. by rewrite Hx.
Qed.

(** The dirty bits a write sets: all but the one for code. *)
Lemma set_flags_page a f r : 0 ≤ page_index a → phys_dirty r !! Z.to_nat (page_index a) = Some f → in_width 8 f →
  let fl := Z.lor f (Z.land 255 (Z.lnot CODE_DIRTY_FLAG)) in
  cpu_physical_memory_set_dirty_flags a fl r = Ok () (set_phys_dirty (<[Z.to_nat (page_index a) := fl]> (phys_dirty r)) r) ∧ in_width 8 fl ∧ Z.land fl CODE_DIRTY_FLAG = Z.land f CODE_DIRTY_FLAG.
Proof.
  intros Hp Hf Hw fl. assert (Hfl : in_width 8 fl).
  { unfold in_width in *. split; [apply Z.lor_nonneg; split; [lia|done]|]. destruct (decide (fl = 0)) as [->|Hne]; [done|].
    apply Z.log2_lt_pow2; [assert (0 ≤ fl) by (apply Z.lor_nonneg; split; [lia|done]); lia|]. unfold fl. rewrite Z.log2_lor by (lia || done).
    assert (Z.log2 f < 8) by (destruct (decide (f = 0)) as [->|]; [done|apply Z.log2_lt_pow2; lia]). change (Z.log2 (Z.land 255 (Z.lnot CODE_DIRTY_FLAG))) with 7. lia. }
  split; [|split; [done|]].
  - unfold cpu_physical_memory_set_dirty_flags, set_dirty_byte, cpu_physical_memory_get_dirty_flags. rewrite bind_assoc, bind_gets.
    unfold at_idx. rewrite (proj2 (Z.ltb_ge _ _)), Hf, bind_ret by done. unfold modify. do 3 f_equal. unfold fl. rewrite Z.lor_assoc, Z.lor_diag. fold fl. by apply wrap_small.
  - unfold fl. rewrite Z.land_lor_distr_l. change (Z.land (Z.land 255 (Z.lnot CODE_DIRTY_FLAG)) CODE_DIRTY_FLAG) with 0. apply Z.lor_0_r.
Qed.

(** RAM after the store: the same blocks, the bytes written, the page dirty but for
    code. *)
Definition stored (r : ram_state) (host a f : Z) (d : list byte) : ram_state :=
  set_phys_dirty (<[Z.to_nat (page_index a) := f]> (phys_dirty r)) (set_ram_mem (mem_write (ram_mem r) host d) r).

Lemma stored_wf r host a f d : ram_wf r → in_width 8 f → ram_wf (stored r host a f d).
Proof.
  intros [[A B C D E F] G] Hf. split; [|simpl; by rewrite length_insert]. split; simpl; try done.
  - eapply Forall_impl; [exact C|]. intros b. apply mapped_write.
  - by rewrite length_insert.
  - by apply Forall_insert.
Qed.
Lemma stored_flags r host a f f' d k : phys_dirty r !! Z.to_nat (page_index a) = Some f → 0 ≤ k → 0 ≤ page_index a →
  (k ≠ page_index a ∧ phys_dirty (stored r host a f' d) !! Z.to_nat k = phys_dirty r !! Z.to_nat k) ∨
  (k = page_index a ∧ phys_dirty (stored r host a f' d) !! Z.to_nat k = Some f').
Proof.
  intros Hf Hk Ha. simpl. destruct (decide (k = page_index a)) as [->|Ne]; [right|left]; (split; [done|]).
  - apply list_lookup_insert_eq. by eapply lookup_lt_Some.
  - apply list_lookup_insert_ne. lia.
Qed.

Lemma stored_ok s v r host ram_addr f d : mmu_ok s v → ram_eqv (tb_ram (mm_tb s)) r → in_width 64 ram_addr →
  phys_dirty r !! Z.to_nat (page_index ram_addr) = Some f → in_width 8 f →
  let fl := Z.lor f (Z.land 255 (Z.lnot CODE_DIRTY_FLAG)) in in_width 8 fl → Z.land fl CODE_DIRTY_FLAG = Z.land f CODE_DIRTY_FLAG →
  mmu_ok (set_mm_tb (set_tb_ram (stored r host ram_addr fl d) (mm_tb s)) s) v.
Proof.
  intros [HG HS] He Hw Hf Hf8 fl Hfl Hc. assert (Hp : 0 ≤ page_index ram_addr) by (apply Z.shiftr_nonneg; unfold in_width in Hw; lia).
  pose proof (wf_eqv _ _ He (proj1 HS)) as Hwf. pose proof (stored_wf r host ram_addr fl d Hwf Hfl) as Hwf'. split.
  - apply good_ram; [done|apply Hwf'|intros a b; by rewrite He|]. intros k Hk Hn. simpl tb_ram.
    destruct (ci_guarded _ _ (gd_inv _ _ HG) k Hk Hn) as (g & Hg & Hz). rewrite (re_dirty _ _ He) in Hg. pose proof (proj1 (proj1 Hk)) as Hk0.
    destruct (stored_flags r host ram_addr f fl d k Hf Hk0 Hp) as [[_ ->]|[-> ->]]; [by exists g|]. exists fl. split; [done|]. rewrite Hc. congruence.
  - apply safe_ram; [|intros h k; apply (leads_eqv _ r); done|done|done]. intros k [Hk Hd]. split; [done|]. rewrite (re_dirty _ _ He) in Hd.
    destruct (stored_flags r host ram_addr f fl d k Hf Hk Hp) as [[_ ->]|[-> ->]]; [done|]. unfold fl. assert (f = 255) as -> by congruence. done.
Qed.

Lemma notdirty_store_ok s v ram_addr f d b : mmu_ok s v → in_width 64 ram_addr → owner ram_addr (tb_ram (mm_tb s)) b →
  ram_addr + Z.of_nat (length d) ≤ blk_offset b + blk_length b →
  phys_dirty (tb_ram (mm_tb s)) !! Z.to_nat (page_index ram_addr) = Some f → cpu_single_env (tb_rr (mm_tb s)) = true →
  page_entries s (Z.land (mem_io_vaddr (tb_cpu (mm_tb s))) TARGET_PAGE_MASK) (page_index ram_addr) →
  ∃ s', notdirty_store ram_addr f d s = Ok () s' ∧ mmu_ok s' v ∧
    ram_mem (tb_ram (mm_tb s')) = mem_write (ram_mem (tb_ram (mm_tb s))) (blk_host b + (ram_addr - blk_offset b)) d ∧ ∀ i, data (mm_tb s') i = data (mm_tb s) i.
Proof.
  intros HO Hw Ho Hl Hf He Hp. pose proof HO as [HG HS]. pose proof (proj1 (proj1 HS)) as Hok. set (host := blk_host b + _).
  assert (Hf8 : in_width 8 f) by (eapply (Forall_lookup_1 _ _ _ _ (ro_bytes _ Hok)); exact Hf).
  assert (Hp0 : 0 ≤ page_index ram_addr) by (apply Z.shiftr_nonneg; unfold in_width in Hw; lia).
  destruct (get_ram_ptr_ok ram_addr _ b Hw Hok Ho) as (r & E1 & Hr). pose proof (wf_eqv _ _ Hr (proj1 HS)) as Hwf. unfold notdirty_store.
  rewrite (bind_Ok _ _ _ _ _ (in_mmu_ram_Ok _ _ _ _ E1)). fold host.
  assert (Ho' : owner ram_addr r b) by (by rewrite <-Hr).
  erewrite bind_ram by exact (store_ram_ok r b ram_addr d (proj1 Hwf) Ho' Hl). fold host. rewrite (re_dirty _ _ Hr) in Hf.
  destruct (set_flags_page ram_addr f (set_ram_mem (mem_write (ram_mem r) host d) r) Hp0 Hf Hf8) as (E3 & Hfl & Hc). cbv zeta.
  erewrite bind_ram by exact E3. set (fl := Z.lor f _) in *.
  pose proof (stored_ok s v r host ram_addr f d HO Hr Hw Hf Hf8 Hfl Hc) as HO'. set (s1 := set_mm_tb _ s) in HO'.
  match goal with |- context [(if _ then _ else _) ?x] => change x with s1 end.
  assert (Hmem : ram_mem (tb_ram (mm_tb s1)) = mem_write (ram_mem (tb_ram (mm_tb s))) host d) by (simpl; by rewrite (re_mem _ _ Hr)).
  destruct (fl =? 255) eqn:Efl; [|by exists s1]. apply Z.eqb_eq in Efl. rewrite bind_gets. simpl cpu_single_env. rewrite He. unfold assert_or. rewrite bind_ret, bind_gets.
  destruct (set_dirty_safe s1 (mem_io_vaddr (tb_cpu (mm_tb s))) (page_index ram_addr) (mo_safe _ _ HO')) as (t & E4 & S4).
  - intros m e Hin Ha. exact (leads_eqv _ r _ _ Hr (Hp m e Hin Ha)).
  - split; [done|]. rewrite <-Efl. apply list_lookup_insert_eq. by eapply lookup_lt_Some.
  - exists (set_tlb_table t s1). split; [exact E4|]. split; [by split; [apply HO'|]|]. done.
Qed.

Lemma flags_at a r b : ram_ok r → owner a r b → in_width 64 a →
  ∃ f, phys_dirty r !! Z.to_nat (page_index a) = Some f ∧ cpu_physical_memory_get_dirty_flags a r = Ok f r.
Proof.
  intros Hok Ho Hw. destruct (is_dirty_ok a r b Hok Ho Hw) as [d Ed]. unfold cpu_physical_memory_is_dirty in Ed.
  apply bind_inv_Ok in Ed as (f & r1 & E1 & E2). injection E2 as _ ->. exists f. split; [|done].
  unfold cpu_physical_memory_get_dirty_flags in E1. rewrite bind_gets in E1. unfold at_idx in E1. destruct (_ <? 0); [done|]. destruct (_ !! _); [|done]. by injection E1 as ->.
Qed.

Lemma aligned_in_page start len : len ∈ [1; 2; 4; 8] → start mod len = 0 → 1 ≤ len ≤ 8 ∧ start mod 4096 + len ≤ 4096.
Proof.
  intros Hlen Hal. assert (Hc : 1 ≤ len ≤ 8 ∧ ∃ c, 4096 = c * len).
  { assert (len = 1 ∨ len = 2 ∨ len = 4 ∨ len = 8) as [-> | [-> | [-> | ->]]] by set_solver; (split; [lia|]); [exists 4096|exists 2048|exists 1024|exists 512]; done. }
  destruct Hc as [Hl [c Hc]]. split; [done|]. assert (Em : (start mod 4096) mod len = 0) by (rewrite Z.mod_mod_divide; [done|by exists c]).
  pose proof (Z.div_mod (start mod 4096) len ltac:(lia)) as Dm. pose proof (Z.mod_pos_bound start 4096 ltac:(lia)). set (q := start mod 4096 / len) in *. assert (q < c) by nia. nia.
Qed.
Lemma room_in_block r a len b : ram_ok r → owner a r b → 1 ≤ len → a mod 4096 + len ≤ 4096 → a + len ≤ blk_offset b + blk_length b.
Proof.
  intros Hok [Hb Hr] Hl Hp. pose proof (proj1 (Forall_forall _ _) (ro_blocks _ Hok) b Hb) as Hbo.
  assert (Hi : in_range (blk_offset b) (blk_length b) (a + len - 1)); [|unfold in_range in Hi; lia].
  eapply page_inside; [done|exact Hr|reflexivity|]. rewrite Z.shiftr_div_pow2 by done. change (2 ^ TARGET_PAGE_BITS) with 4096. pose proof (Z.div_mod a 4096). pose proof (Z.mod_pos_bound a 4096). lia.
Qed.

(** The bytes of the range hold no code. *)
Definition code_free u v (start len : Z) : Prop :=
  ∀ a i n t, start ≤ a < start + len → i ∈ v_live v → data u i = Some t → (n < 2)%nat → ¬ code_byte t n a.

Lemma one_page_range a start len : 0 ≤ start → start mod 4096 + len ≤ 4096 → start ≤ a < start + len → Z.shiftr a TARGET_PAGE_BITS = Z.shiftr start TARGET_PAGE_BITS.
Proof.
  intros Hst Hp Ha. rewrite !Z.shiftr_div_pow2 by done. change (2 ^ TARGET_PAGE_BITS) with 4096. pose proof (Z.div_mod a 4096). pose proof (Z.mod_pos_bound a 4096).
  pose proof (Z.div_mod start 4096). pose proof (Z.mod_pos_bound start 4096). lia.
Qed.
Lemma cleared_code_free u u' v v' start len : good u v → good u' v' → 0 ≤ start → start mod 4096 + len ≤ 4096 →
  shrunk (touched_set u start (start + len) (v_page v (Z.shiftr start TARGET_PAGE_BITS))) u u' v v' → code_free u' v' start len.
Proof.
  intros HG HG' Hst Hp Sh a i n t Ha Hi Ht Hn Hc. pose proof Hc as [Hon _]. rewrite (one_page_range a start len Hst Hp Ha) in Hon.
  destruct (page_watched u' v' i t n _ HG' Hi Ht Hon) as [[Hix Hex] _].
  apply (range_cleared u u' v v' start (start + len) (gd_inv _ _ HG) (gd_shaped _ _ HG) Hst) with a i n t; try done.
  - rewrite Z.shiftr_div_pow2 by done. change (2 ^ TARGET_PAGE_BITS) with 4096. pose proof (Z.div_mod start 4096). lia.
  - split; [done|]. by apply (sh_pages _ _ _ _ _ Sh).
Qed.
Lemma unwatched_code_free u v start len f : good u v → 0 ≤ start → start mod 4096 + len ≤ 4096 → phys_dirty (tb_ram u) !! Z.to_nat (page_index start) = Some f →
  Z.land f CODE_DIRTY_FLAG ≠ 0 → code_free u v start len.
Proof.
  intros HG Hst Hp Hf Hnz a i n t Ha Hi Ht Hn [Hon _]. rewrite (one_page_range a start len Hst Hp Ha) in Hon.
  destruct (page_watched u v i t n _ HG Hi Ht Hon) as (_ & g & Hg & Hz). unfold page_index in Hf. congruence.
Qed.

(** What the CPU and the caller guarantee of a write to a clean page. *)
Record write_ready s v (ram_addr : Z) (d : list byte) (b : RAMBlock) : Prop := {
  wr_env : cpu_single_env (tb_rr (mm_tb s)) = true;
  wr_owner : owner ram_addr (tb_ram (mm_tb s)) b;
  wr_len : Z.of_nat (length d) ∈ [1; 2; 4; 8];
  wr_aligned : ram_addr mod Z.of_nat (length d) = 0;
  wr_index : index_ok (Z.shiftr ram_addr TARGET_PAGE_BITS);
  wr_current : current_ok (mm_tb s) v;
  wr_one : one_part (v_page v (Z.shiftr ram_addr TARGET_PAGE_BITS));
  wr_entries : page_entries s (Z.land (mem_io_vaddr (tb_cpu (mm_tb s))) TARGET_PAGE_MASK) (page_index ram_addr);
}.

(** The blocks that hold code from the bytes. *)
Definition overwritten u v (start len : Z) : gset nat := touched_set u start (start + len) (v_page v (Z.shiftr start TARGET_PAGE_BITS)).

Lemma unwatched_touched u v start len f : good u v → index_ok (Z.shiftr start TARGET_PAGE_BITS) → phys_dirty (tb_ram u) !! Z.to_nat (page_index start) = Some f →
  Z.land f CODE_DIRTY_FLAG ≠ 0 → overwritten u v start len = ∅.
Proof.
  intros HG Hi Hf Hnz. unfold overwritten, page_index in *. set (k := Z.shiftr start TARGET_PAGE_BITS) in *. assert (Hn : v_page v k = []); [|by rewrite Hn].
  destruct (page_find (l1_map u) k) as [p|] eqn:Ep.
  - destruct (v_page v k) as [|x l] eqn:El; [done|]. exfalso. assert (Hdom : page_dom u k) by (split; [done|]; by exists p).
    destruct (ci_guarded _ _ (gd_inv _ _ HG) k Hdom) as (g & Hg & Hz); [by rewrite El|]. congruence.
  - apply (li_page_none _ _ (ci_listed _ _ (gd_inv _ _ HG))); [done|]. unfold page_exists. rewrite Ep. by intros [].
Qed.

Lemma notdirty_write_ok s v ram_addr d b : mmu_ok s v → write_ready s v ram_addr d b →
  let len := Z.of_nat (length d) in let D := overwritten (mm_tb s) v ram_addr len in
  ∃ o s' v', notdirty_write ram_addr d s = Ok o s' ∧ mmu_ok s' v' ∧ (o = None ↔ ∃ c t, self_modified D (mm_tb s) c t) ∧
    match o with
    | Some _ => code_free (mm_tb s') v' ram_addr len ∧
        ram_mem (tb_ram (mm_tb s')) = mem_write (ram_mem (tb_ram (mm_tb s))) (blk_host b + (ram_addr - blk_offset b)) d
    | None => written D (mm_tb s) (mm_tb s') v v' None ∧ ram_mem (tb_ram (mm_tb s')) = ram_mem (tb_ram (mm_tb s))
    end.
Proof.
  intros HO [He Ho Hlen Hal Hix Hcur Hone Hpe] len D. pose proof HO as [HG HS]. pose proof (proj1 HS) as Hwf. pose proof (proj1 Hwf) as Hok.
  pose proof (owner_low _ _ _ Hwf Ho) as Hlow. destruct (proj1 (Forall_forall _ _) (ro_blocks _ Hok) b (proj1 Ho)) as (Hb0 & _). pose proof (proj2 Ho) as Hr. unfold in_range in Hr.
  assert (Hw : in_width 64 ram_addr) by (unfold in_width; lia). destruct (aligned_in_page _ _ Hlen Hal) as [Hl8 Hpg].
  pose proof (room_in_block _ _ _ _ Hok Ho (proj1 Hl8) Hpg) as Hroom. destruct (flags_at _ _ _ Hok Ho Hw) as (f & Hf & Ef). unfold notdirty_write.
  rewrite (bind_ram _ _ _ _ _ Ef), ram_same. destruct (Z.land f CODE_DIRTY_FLAG =? 0) eqn:Ec.
  - destruct (write_good (mm_tb s) v ram_addr (Z.of_nat (length d)) HG Hcur He (ex_intro _ b Ho) Hlen Hal ltac:(lia) Hix Hone) as (o & u & v' & E & HG' & Hwr).
    pose proof (quiet_fast _ _ _ _ _ E) as Hk. pose proof (direct_kept _ u s Hk Hwf eq_refl (proj2 HS)) as HS'. destruct (Hk Hwf) as (Hwf' & Hbl & Hmem & [Hva Hen] & _).
    rewrite bind_assoc, (bind_Ok _ _ _ _ _ (in_tb_Ok _ _ _ _ E)). destruct o as [[]|].
    all: pose proof (written_leaves _ _ _ _ _ _ Hwr) as Hlv.
    2: { rewrite bind_ret. exists None, (after_tb u s), v'. split; [done|]. split; [by split|]. split; [exact Hlv|]. split; [exact Hwr|exact Hmem]. }
    assert (Ho' : owner ram_addr (tb_ram (mm_tb (after_tb u s))) b) by (unfold owner in *; simpl; by rewrite Hbl). destruct (flags_at _ _ _ (proj1 (proj1 HS')) Ho' Hw) as (f' & Hf' & Ef').
    rewrite bind_assoc, (bind_ram _ _ _ _ _ Ef'), bind_ret, ram_same.
    destruct (notdirty_store_ok (after_tb u s) v' ram_addr f' d b) as (s' & E' & HO' & Hm' & Hd'); try done; [by rewrite <-Hen in He| |].
    { simpl tb_cpu. rewrite Hva. apply page_entries_kept; [done|done| |done]. rewrite page_mask. apply page_floor. }
    rewrite (bind_Ok _ _ _ _ _ E'). exists (Some ()), s', v'. split; [done|]. split; [done|]. split; [exact Hlv|]. split; [|by rewrite Hm'; simpl; rewrite Hmem].
    destruct Hwr as (u1 & v1 & Sh & -> & -> & _). pose proof (cleared_code_free _ _ _ _ _ _ HG HG' (proj1 Hw) Hpg Sh) as Hnc.
    intros a i n t Ha Hi. rewrite Hd'. by apply Hnc.
  - rewrite bind_ret. destruct (notdirty_store_ok s v ram_addr f d b HO Hw Ho Hroom Hf He Hpe) as (s' & E' & HO' & Hm' & Hd'). rewrite (bind_Ok _ _ _ _ _ E').
    apply Z.eqb_neq in Ec. exists (Some ()), s', v. split; [done|]. split; [done|]. split; [|split; [|done]].
    { split; [done|]. intros (c & t & _ & Hc & _). unfold D in Hc. by rewrite (unwatched_touched _ _ _ _ f HG Hix Hf Ec) in Hc. }
    intros a i n t Ha Hi. rewrite Hd'. by apply (unwatched_code_free (mm_tb s) v ram_addr (Z.of_nat (length d)) f HG (proj1 Hw) Hpg Hf Ec).
Qed.
(** ** Flushes *)

Definition with_regs (r : Regs) s : mmu_state Regs := set_mm_tb (set_tb_cpu (set_cpu_regs r (tb_cpu (mm_tb s))) (mm_tb s)) s.

Lemma flush_ok s v (r : Regs) : mmu_ok s v → code_in_ram (mm_tb (with_regs r s)) → ∃ s', tlb_flush (with_regs r s) = Ok () s' ∧ mmu_ok s' v.
Proof.
  intros [HG HS] Hc. rewrite tlb_flush_eq. eexists. split; [done|]. split; [|apply emptied_safe, HS]. by apply (good_flushed (mm_tb s) v).
Qed.

(** No entry, in whatever mode, translates the page of the address. *)
Definition translates e (vp : Z) : Prop := vp = entry_page (addr_read e) ∨ vp = entry_page (addr_write e) ∨ vp = entry_page (addr_code e).
Definition untranslated s (vp : Z) : Prop := ∀ m e, tlb_at (tlb_table s) m (tlb_index vp) = Some e → ¬ translates e vp.

Lemma empty_translates vp : vp mod 4096 = 0 → ¬ translates s_cputlb_empty_entry vp.
Proof.
  intros Hv. assert (Hn : vp ≠ entry_page minus_one); [|by intros [|[|]]]. intros E. destruct (low_bit vp 3 ltac:(lia)); [|done].
  rewrite E. unfold entry_page. rewrite Z.land_spec, minus_one_bit by lia. done.
Qed.
Lemma flush_entry_gone e vp : vp mod 4096 = 0 → ¬ translates (tlb_flush_entry vp e) vp.
Proof.
  intros Hv. unfold tlb_flush_entry. destruct (_ || _) eqn:E; [by apply empty_translates|]. apply orb_false_iff in E as [[E1 E2]%orb_false_iff E3].
  apply Z.eqb_neq in E1, E2, E3. by intros [|[|]].
Qed.

Lemma flush_page_ok s v (r : Regs) addr : mmu_ok s v → in_width target_long_bits addr → remapped (cpu_regs (tb_cpu (mm_tb s))) r addr →
  code_in_ram (mm_tb (with_regs r s)) →
  ∃ s', tlb_flush_page addr (with_regs r s) = Ok () s' ∧ mmu_ok s' v ∧ untranslated s' (Z.land addr TARGET_PAGE_MASK).
Proof.
  intros HO Ha Hr Hc. pose proof HO as [HG HS]. assert (Hz : Z.land addr TARGET_PAGE_MASK mod 4096 = 0) by (rewrite page_mask; apply page_floor).
  destruct (decide (in_region (with_regs r s) addr)) as [Hin|Hout].
  - rewrite (flush_region _ _ Hin). destruct (flush_ok s v r HO Hc) as (s' & E & HO'). exists s'. split; [done|]. split; [done|].
    rewrite tlb_flush_eq in E. injection E as <-. intros m e He. simpl in He. rewrite each_tlb_at in He. apply fmap_Some in He as (? & _ & ->). by apply empty_translates.
  - destruct (tlb_flush_page_eq _ _ Hout) as (u & Eu & E). exists (page_flushed (with_regs r s) addr u). split; [done|].
    destruct (remap_good (set_tb_cpu (set_current_tb None (tb_cpu (mm_tb s))) (mm_tb s)) v r (Z.land addr TARGET_PAGE_MASK)) as (u' & Eu' & HG' & _).
    + by apply good_current.
    + unfold in_width in *. rewrite page_mask. pose proof (Z.mod_pos_bound addr 4096 ltac:(lia)). pose proof (Z.div_mod addr 4096 ltac:(lia)). lia.
    + intros a Hne. apply Hr. by rewrite <-Z.land_assoc, Z.land_diag in Hne.
    + exact Hc.
    + pose proof (eq_trans (eq_sym Eu) Eu') as Euu. injection Euu as <-. split.
      * split; [exact HG'|]. apply page_flushed_safe; [|exact HS]. pose proof (flush_jmp_lookup (Z.land addr TARGET_PAGE_MASK)
          (set_tb_cpu (set_current_tb None (tb_cpu (mm_tb (with_regs r s)))) (mm_tb (with_regs r s))) 0 0%nat) as (u2 & E2 & Es & _).
        rewrite Eu in E2. injection E2 as <-. apply (sc_ram _ _ Es).
      * intros m e He. simpl in He. rewrite each_mode_at, decide_True in He by done. apply fmap_Some in He as (? & _ & ->). by apply flush_entry_gone.
Qed.
End Steps.
