(* ===== verification/TLBDirty.v ===== *)
(** * Dirty pages and the TLB

    Dirty bits are cleared for migration, for the display and for code, and the TLB
    is brought up to date with them. *)

From S2P Require Import Prelude CFile CString HostMem RamList Radix PhysPages RRTypes PandaCallbacks.
From S2P Require Import RRState RRReplay TBCache TBLists TBInv TBInsert TBGen TBBitmap TBShape TBFind TBChain TBRange TBFast TBSteps.
From S2P Require Import TLB TLBQuiet TLBFacts TLBSet TLBSteps.
From stdpp Require Import functions list relations.
Local Open Scope Z_scope.

Section Dirty.
Context `{PhysSpace} `{TargetLong} {Regs : Type} `{!Translator Regs} `{!TranslatorLaws Regs} `{!SpaceOk L1_MAP_ADDR_SPACE_BITS}.
Context `{!TargetLongOk} `{!FetchLaws Regs}.
Implicit Types (s : mmu_state Regs) (u : tb_state Regs) (v : view) (e : CPUTLBEntry) (phys : gmap Z (ptab P_LEVELS)).

(** ** Dirty bits are cleared *)

Lemma mask_loop_code n : ∀ i mask r x r', mask_dirty_loop i n mask r = Ok x r' → ∀ j f, phys_dirty r !! j = Some f → Z.land f CODE_DIRTY_FLAG = 0 →
  ∃ f', phys_dirty r' !! j = Some f' ∧ Z.land f' CODE_DIRTY_FLAG = 0.
Proof.
  induction n as [|n IH]; intros i mask r y r' E j f Hj Hf; cbn [mask_dirty_loop] in E; [injection E as _ <-; by exists f|].
  rewrite bind_gets in E. unfold at_idx in E. destruct (i <? 0) eqn:Ei; [done|]. destruct (phys_dirty r !! Z.to_nat i) as [d|] eqn:Ed; [|done].
  rewrite bind_ret, bind_modify in E. destruct (decide (j = Z.to_nat i)) as [->|Ne].
  - eapply IH; [exact E|simpl; apply list_lookup_insert_eq; by eapply lookup_lt_Some|]. assert (d = f) as -> by congruence.
    assert (Hb : ∀ x, Z.land x CODE_DIRTY_FLAG = 0 ↔ Z.testbit x 1 = false).
    { intros x. change CODE_DIRTY_FLAG with (2 ^ 1). split.
      - intros Hx. assert (Ht : Z.testbit (Z.land x (2 ^ 1)) 1 = false) by (by rewrite Hx). by rewrite Z.land_spec, Z.pow2_bits_true, andb_true_r in Ht by lia.
      - intros Hx. apply Z.bits_inj'. intros m Hm. rewrite Z.land_spec, Z.bits_0. destruct (decide (m = 1)) as [->|Hne]; [by rewrite Hx|].
        rewrite (Z.pow2_bits_false 1 m) by lia. apply andb_false_r. }
    apply Hb. rewrite wrap_bit by lia. apply Hb in Hf. by rewrite Z.land_spec, Hf.
  - eapply IH; [exact E| |exact Hf]. simpl. by rewrite list_lookup_insert_ne.
Qed.

Lemma mask_range_ok start len fl r x r' : cpu_physical_memory_mask_dirty_range start len fl r = Ok x r' → ram_ok r → ram_ok r' ∧ ram_blocks r' = ram_blocks r.
Proof.
  intros E [Hb Ha Hm Hn Hd Hby]. apply mask_loop_inv in E as (B & M & L & F & _ & _). split; [|done]. split; rewrite ?B, ?M, ?L; try done. by apply F.
Qed.

Lemma reset_dirty_ok s v start end_ fl s' : mmu_ok s v → mmu_reset_dirty start end_ fl s = Ok () s' →
  ((∃ b, owner (Z.land start TARGET_PAGE_MASK) (tb_ram (mm_tb s)) b) → one_stretch (tb_ram (mm_tb s)) (Z.land start TARGET_PAGE_MASK) (TARGET_PAGE_ALIGN end_)) →
  mmu_ok s' v.
Proof.
  intros [HG HS] (u & E & ->)%in_tb_inv Hone. split; [|eapply direct_kept; [eapply reset_dirty_kept; [exact E|auto]|apply HS|done|apply HS]].
  simpl. unfold cpu_physical_memory_reset_dirty in E. cbv zeta in E. destruct (_ =? 0); [by injection E as <-|].
  apply bind_inv_Ok in E as ([] & s1 & E1 & E). apply in_ram_inv in E1 as (r1 & E1 & ->).
  apply bind_inv_Ok in E as (p1 & s2 & E2 & E). apply in_ram_inv in E2 as (r2 & E2 & ->). pose proof (safe_ptr_same _ _ _ _ E2) as ->.
  apply bind_inv_Ok in E as (p2 & s3 & E3 & E). apply in_ram_inv in E3 as (r3 & E3 & ->). pose proof (safe_ptr_same _ _ _ _ E3) as ->.
  apply bind_inv_Ok in E as ([] & s4 & E4 & E). unfold assert_or in E4. destruct (_ =? _) eqn:Eq in E4; [|done]. injection E4 as <-. injection E as <-.
  pose proof (ci_ram _ _ (gd_inv _ _ HG)) as Hok. destruct (mask_range_ok _ _ _ _ _ _ E1 Hok) as [Hok1 Hb1].
  apply (good_same (set_tb_ram r1 (mm_tb s))); [by split|done|done|]. apply good_ram; [done|done|intros a b; unfold owner; by rewrite Hb1|].
  intros k Hk Hn. destruct (ci_guarded _ _ (gd_inv _ _ HG) k Hk Hn) as (f & Hf & Hz). by eapply (mask_loop_code _ _ _ _ _ _ E1).
Qed.

(** ** The TLB after dirty bits were cleared behind its back *)

Definition leads_somewhere s : Prop := ∀ m i e, tlb_at (tlb_table s) m i = Some e → writes_ram e = true → ∃ k, hosts_page (tb_ram (mm_tb s)) (write_host e) k.

Lemma leads_flags r h k : ram_wf r → hosts_page r h k → ∃ d, cpu_physical_memory_is_dirty (4096 * k + 0) r = Ok d r ∧ (d = true → dirty_page r k).
Proof.
  intros Hw (b & Ho & _). destruct (proj1 (Forall_forall _ _) (ro_blocks _ (proj1 Hw)) b (proj1 Ho)) as (Hb0 & _). pose proof (proj2 Ho) as Hr. unfold in_range in Hr.
  pose proof (owner_low _ _ _ Hw Ho). rewrite Z.add_0_r. destruct (is_dirty_ok (4096 * k) r b (proj1 Hw) Ho) as [d Ed]; [unfold in_width; lia|]. exists d. split; [done|].
  apply is_dirty_inv in Ed as [_ Hd]. intros ->. specialize (Hd eq_refl). rewrite Z.shiftr_div_pow2 in Hd by done. change (2 ^ TARGET_PAGE_BITS) with 4096 in Hd.
  by rewrite (Z.mul_comm 4096 k), Z.div_mul in Hd by done.
Qed.
Lemma update_entry_ok s e : ram_wf (tb_ram (mm_tb s)) → (writes_ram e = true → ∃ k, hosts_page (tb_ram (mm_tb s)) (write_host e) k) →
  ∃ e', tlb_update_dirty e s = Ok e' s ∧ direct_ok (tb_ram (mm_tb s)) e'.
Proof.
  intros Hw Hl. unfold tlb_update_dirty. destruct (writes_ram e) eqn:Er; [|exists e; split; [done|]; intros ?; congruence].
  destruct (Hl eq_refl) as [k Hk]. pose proof (from_host_page _ _ k 0 Hw Hk ltac:(lia)) as E1. rewrite Z.add_0_r in E1. rewrite (bind_ram _ _ _ _ _ E1), ram_same.
  destruct (leads_flags _ _ _ Hw Hk) as (d & Ed & Hd). rewrite (bind_ram _ _ _ _ _ Ed), ram_same. destruct d.
  - exists e. split; [done|]. intros _. exists k. split; [done|by apply Hd].
  - eexists. split; [reflexivity|]. intros Hc. by rewrite (writes_ram_lor _ (addr_write e) 4) in Hc.
Qed.
Lemma update_row_ok s row : ram_wf (tb_ram (mm_tb s)) → (∀ e, e ∈ row → writes_ram e = true → ∃ k, hosts_page (tb_ram (mm_tb s)) (write_host e) k) →
  ∃ row', update_row row s = Ok row' s ∧ Forall (direct_ok (tb_ram (mm_tb s))) row'.
Proof.
  intros Hw. induction row as [|e row IH]; intros Hl; cbn [update_row]; [by exists []|]. destruct (update_entry_ok s e Hw) as (e' & E & He); [intros; apply Hl; set_solver|].
  destruct IH as (row' & E' & Hrow); [intros; apply Hl; set_solver|]. rewrite (bind_Ok _ _ _ _ _ E), (bind_Ok _ _ _ _ _ E'). exists (e' :: row'). split; [done|]. by constructor.
Qed.
Lemma update_rows_ok s t : ram_wf (tb_ram (mm_tb s)) → (∀ row e, row ∈ t → e ∈ row → writes_ram e = true → ∃ k, hosts_page (tb_ram (mm_tb s)) (write_host e) k) →
  ∃ t', update_rows t s = Ok t' s ∧ Forall (Forall (direct_ok (tb_ram (mm_tb s)))) t'.
Proof.
  intros Hw. induction t as [|row t IH]; intros Hl; cbn [update_rows]; [by exists []|]. destruct (update_row_ok s row Hw) as (row' & E & He); [intros; eapply Hl; [|done|done]; set_solver|].
  destruct IH as (t' & E' & Ht); [intros; eapply Hl; [|done|done]; set_solver|]. rewrite (bind_Ok _ _ _ _ _ E), (bind_Ok _ _ _ _ _ E'). exists (row' :: t'). split; [done|]. by constructor.
Qed.
Lemma update_dirty_ok s : ram_wf (tb_ram (mm_tb s)) → leads_somewhere s → ∃ t, cpu_tlb_update_dirty s = Ok () (set_tlb_table t s) ∧ tlb_safe (set_tlb_table t s).
Proof.
  intros Hw Hl. unfold cpu_tlb_update_dirty. rewrite bind_gets. destruct (update_rows_ok s (tlb_table s) Hw) as (t & E & Ht).
  { intros row e [m Hm]%list_elem_of_lookup [i Hi]%list_elem_of_lookup. apply (Hl m i). unfold tlb_at. by rewrite Hm. }
  rewrite (bind_Ok _ _ _ _ _ E). exists t. split; [done|]. split; [done|]. intros m i e He. unfold tlb_at in He. simpl in He. destruct (t !! m) as [row|] eqn:Em; [|done].
  eapply Forall_lookup_1; [|exact He]. by eapply (Forall_lookup_1 _ _ _ _ Ht).
Qed.
End Dirty.
