(* ===== verification/TLBDebug.v ===== *)
(** * Watchpoints and breakpoints

    A watchpoint takes effect because its page leaves the TLB and comes back with
    the trapping flags; a breakpoint because the blocks with its address leave the
    code cache. *)

From S2P Require Import Prelude CFile CString HostMem RamList Radix PhysPages RRTypes PandaCallbacks.
From S2P Require Import RRState RRReplay TBCache TBLists TBInv TBInsert TBGen TBBitmap TBShape TBFind TBChain TBRange TBFast TBSteps.
From S2P Require Import TLB TLBQuiet TLBFacts TLBSet TLBSteps.
From stdpp Require Import functions list relations.
Local Open Scope Z_scope.

Section Debug.
Context `{PhysSpace} `{TargetLong} {Regs : Type} `{!Translator Regs} `{!TranslatorLaws Regs} `{!SpaceOk L1_MAP_ADDR_SPACE_BITS}.
Context `{!TargetLongOk} `{!FetchLaws Regs}.
Implicit Types (s : mmu_state Regs) (u : tb_state Regs) (v : view) (e : CPUTLBEntry) (phys : gmap Z (ptab P_LEVELS)).

(** ** Watchpoints *)

Definition len_mask (len : Z) : Z := wrap target_long_bits (Z.lnot (wrap target_long_bits (len - 1))).
Definition watch_ok (addr len : Z) : Prop := len ∈ [1; 2; 4; 8] ∧ Z.land addr (Z.lnot (len_mask len)) = 0.
#[global] Instance watch_ok_dec addr len : Decision (watch_ok addr len).
Proof. unfold watch_ok. apply _. Defined.

Definition add_watch (flags : Z) (w : CPUWatchpoint) (ws : list CPUWatchpoint) : list CPUWatchpoint :=
  if Z.land flags BP_GDB =? 0 then ws ++ [w] else w :: ws.

Lemma with_regs_same s : with_regs (cpu_regs (tb_cpu (mm_tb s))) s = s.
Proof. destruct s as [? ? ? ? ? ? ? ? ? ? ? u]. unfold with_regs. simpl. f_equal. destruct u as [? ? ? ? ? ? ? ? ? ? ? ? ? c ? ? ?]. by destruct c. Qed.

(** A flush of a page whose mapping stays. *)
Lemma flush_same_ok s v addr : mmu_ok s v → in_width target_long_bits addr →
  ∃ s', tlb_flush_page addr s = Ok () s' ∧ mmu_ok s' v ∧ untranslated s' (Z.land addr TARGET_PAGE_MASK).
Proof.
  intros HO Ha. pose proof (flush_page_ok s v (cpu_regs (tb_cpu (mm_tb s))) addr HO Ha) as F. rewrite with_regs_same in F. apply F; [done|]. apply (gd_ram _ _ (mo_cache _ _ HO)).
Qed.
(** It always returns, and leaves the lists alone. *)
Lemma flush_page_lists s addr : ∃ s', tlb_flush_page addr s = Ok () s' ∧ watchpoints s' = watchpoints s ∧ breakpoints s' = breakpoints s ∧ io_mem_watch s' = io_mem_watch s.
Proof.
  destruct (decide (in_region s addr)) as [Hin|Hout].
  - rewrite (flush_region _ _ Hin), tlb_flush_eq. by eexists.
  - destruct (tlb_flush_page_eq _ _ Hout) as (u & _ & E). rewrite E. by eexists.
Qed.

Lemma set_watch_ok s v ws : mmu_ok s v → mmu_ok (set_watchpoints ws s) v.
Proof. intros [A B]. by split. Qed.
Lemma set_break_ok s v bs : mmu_ok s v → mmu_ok (set_breakpoints bs s) v.
Proof. intros [A B]. by split. Qed.

Lemma watch_test addr len : (negb (len =? 1) && negb (len =? 2) && negb (len =? 4) && negb (len =? 8)) || negb (Z.land addr (Z.lnot (len_mask len)) =? 0) =
  bool_decide (¬ watch_ok addr len).
Proof.
  apply eq_bool_prop_intro. rewrite bool_decide_spec. unfold watch_ok. rewrite not_and_l. rewrite Is_true_true, orb_true_iff, !andb_true_iff, !negb_true_iff, !Z.eqb_neq. set_solver.
Qed.

Lemma watch_insert_ok s v addr len flags : mmu_ok s v → in_width target_long_bits addr → watch_ok addr len →
  ∃ s', cpu_watchpoint_insert addr len flags s = Ok 0 s' ∧ mmu_ok s' v ∧ watchpoints s' = add_watch flags (mkWP addr (len_mask len) flags) (watchpoints s) ∧
    untranslated s' (Z.land addr TARGET_PAGE_MASK).
Proof.
  intros HO Ha Hw. unfold cpu_watchpoint_insert. fold (len_mask len). rewrite watch_test, bool_decide_eq_false_2 by tauto. rewrite bind_modify.
  set (s1 := set_watchpoints _ s). destruct (flush_same_ok s1 v addr (set_watch_ok _ _ _ HO) Ha) as (s' & E & HO' & Hu). destruct (flush_page_lists s1 addr) as (s2 & E2 & L & _).
  rewrite E in E2. injection E2 as <-. rewrite (bind_Ok _ _ _ _ _ E). by exists s'.
Qed.
Lemma watch_insert_bad s addr len flags : ¬ watch_ok addr len → cpu_watchpoint_insert addr len flags s = Ok (- EINVAL) s.
Proof. intros Hw. unfold cpu_watchpoint_insert. fold (len_mask len). by rewrite watch_test, bool_decide_eq_true_2. Qed.

Lemma remove_ref_eq s i w : watchpoints s !! i = Some w → cpu_watchpoint_remove_by_ref i s = tlb_flush_page (wp_vaddr w) (set_watchpoints (delete i (watchpoints s)) s).
Proof. intros Hi. unfold cpu_watchpoint_remove_by_ref. by rewrite bind_gets, Hi, bind_modify. Qed.

(** The watchpoint the arguments of [cpu_watchpoint_remove] name. *)
Definition names_watch (addr len flags : Z) (w : CPUWatchpoint) : Prop :=
  addr = wp_vaddr w ∧ len_mask len = wp_len_mask w ∧ flags = Z.land (wp_flags w) (Z.lnot BP_WATCHPOINT_HIT).
#[global] Instance names_watch_dec addr len flags w : Decision (names_watch addr len flags w).
Proof. unfold names_watch. apply _. Defined.

Lemma add_watch_at flags w ws : ∃ i, add_watch flags w ws !! i = Some w ∧ delete i (add_watch flags w ws) = ws ∧
  ∀ j x, (j < i)%nat → add_watch flags w ws !! j = Some x → x ∈ ws.
Proof.
  unfold add_watch. destruct (_ =? 0).
  - exists (length ws). split; [by rewrite lookup_app_r, Nat.sub_diag by done|]. split.
    + rewrite delete_take_drop, take_app_length. rewrite drop_ge by (rewrite length_app; simpl; lia). apply app_nil_r.
    + intros j x Hj. rewrite lookup_app_l by done. apply list_elem_of_lookup_2.
  - exists O. split; [done|]. split; [done|]. intros j x Hj. lia.
Qed.

Lemma watch_remove_ok s v addr len flags w i : mmu_ok s v → in_width target_long_bits addr → watchpoints s !! i = Some w → names_watch addr len flags w →
  (∀ j x, (j < i)%nat → watchpoints s !! j = Some x → ¬ names_watch addr len flags x) →
  ∃ s', cpu_watchpoint_remove addr len flags s = Ok 0 s' ∧ mmu_ok s' v ∧ watchpoints s' = delete i (watchpoints s).
Proof.
  intros HO Ha Hi Hn Hno. unfold cpu_watchpoint_remove. fold (len_mask len). rewrite bind_gets.
  destruct (list_find _ _) as [[j x]|] eqn:Ef.
  2: { apply list_find_None in Ef. by destruct (Forall_lookup_1 _ _ _ _ Ef Hi). }
  apply list_find_Some in Ef as (Hj & Hx & Hmin). assert (j = i) as ->.
  { destruct (decide (j < i)%nat); [by destruct (Hno j x)|]. destruct (decide (i < j)%nat) as [Hlt|]; [by destruct (Hmin i w Hi Hlt)|]. lia. }
  pose proof (proj1 Hn) as ->.
  set (s1 := set_watchpoints (delete i (watchpoints s)) s). destruct (flush_same_ok s1 v (wp_vaddr w) (set_watch_ok _ _ _ HO) Ha) as (s2 & E2 & HO2 & _).
  destruct (flush_page_lists s1 (wp_vaddr w)) as (s3 & E3 & L3 & _). rewrite E2 in E3. injection E3 as <-.
  assert (Er : cpu_watchpoint_remove_by_ref i s = Ok () s2) by (by rewrite (remove_ref_eq s _ w Hi)). rewrite (bind_Ok _ _ _ _ _ Er). by exists s2.
Qed.
Lemma watch_remove_none s addr len flags : (∀ w, w ∈ watchpoints s → ¬ names_watch addr len flags w) → cpu_watchpoint_remove addr len flags s = Ok (- ENOENT) s.
Proof.
  intros Hno. unfold cpu_watchpoint_remove. fold (len_mask len). rewrite bind_gets.
  destruct (list_find _ _) as [[j x]|] eqn:Ef; [|done]. apply list_find_Some in Ef as (Hj & Hx & _). destruct (Hno x); [by eapply list_elem_of_lookup_2|done].
Qed.

(** ** The loop that removes watchpoints *)

Definition kept_watch (mask : Z) (w : CPUWatchpoint) : Prop := Z.land (wp_flags w) mask = 0.
#[global] Instance kept_watch_dec mask w : Decision (kept_watch mask w).
Proof. unfold kept_watch. apply _. Defined.

Lemma remove_watchpoints_ok mask fuel : ∀ l k s v, mmu_ok s v → Forall (λ w, in_width target_long_bits (wp_vaddr w)) l → watchpoints s = k ++ l → (length l ≤ fuel)%nat →
  ∃ s', remove_watchpoints fuel (length k) mask s = Ok () s' ∧ mmu_ok s' v ∧ watchpoints s' = k ++ filter (kept_watch mask) l.
Proof.
  induction fuel as [|fuel IH]; intros l k s v HO Hw El Hf.
  { destruct l; [|simpl in Hf; lia]. exists s. split; [done|]. by rewrite El. }
  cbn [remove_watchpoints]. rewrite bind_gets, El. rewrite lookup_app_r, Nat.sub_diag by done. destruct l as [|w l]; [exists s; by rewrite El|].
  apply Forall_cons in Hw as [Hw Hws]. simpl in Hf |- *. destruct (Z.land (wp_flags w) mask =? 0) eqn:E.
  - apply Z.eqb_eq in E. rewrite filter_cons_True by done. destruct (IH l (k ++ [w]) s v) as (s' & E' & HO' & L'); [done|done|by rewrite <-app_assoc|lia|].
    rewrite length_app in E'. simpl in E'. rewrite Nat.add_1_r in E'. exists s'. rewrite <-app_assoc in L'. done.
  - apply Z.eqb_neq in E. rewrite filter_cons_False by done. assert (Hi : watchpoints s !! length k = Some w) by (by rewrite El, lookup_app_r, Nat.sub_diag by done).
    assert (Hd : delete (length k) (k ++ w :: l) = k ++ l).
    { rewrite delete_take_drop, take_app_length. rewrite drop_app_ge by lia. by replace (S (length k) - length k)%nat with 1%nat by lia. }
    set (s1 := set_watchpoints (delete (length k) (watchpoints s)) s). destruct (flush_same_ok s1 v (wp_vaddr w) (set_watch_ok _ _ _ HO) Hw) as (s2 & E2 & HO2 & _).
    destruct (flush_page_lists s1 (wp_vaddr w)) as (s3 & E3 & L3 & _). rewrite E2 in E3. injection E3 as <-.
    assert (Er : cpu_watchpoint_remove_by_ref (length k) s = Ok () s2) by (by rewrite (remove_ref_eq s _ w Hi)).
    rewrite (bind_Ok _ _ _ _ _ Er). apply IH; [done|done| |lia]. rewrite L3. unfold s1. simpl. by rewrite El.
Qed.

(** ** Breakpoints *)

(** The byte may be invalidated: the state of the cache allows a write there. *)
Definition break_ready s v (a : Z) : Prop := let k := Z.shiftr a TARGET_PAGE_BITS in
  current_ok (mm_tb s) v ∧ 0 ≤ a < 2 ^ 64 - 1 ∧ index_ok k ∧ one_part (v_page v k).

Lemma break_invalidate_ok s v phys pc : let a := debug_ram_addr phys (cpu_regs (tb_cpu (mm_tb s))) pc in mmu_ok s v → break_ready s v a →
  ∃ s' v', in_tb (breakpoint_invalidate phys pc) s = Ok (Some ()) s' ∧ mmu_ok s' v' ∧ code_free (mm_tb s') v' a 1 ∧ breakpoints s' = breakpoints s.
Proof.
  intros a [HG HS] (Hc & Ha & Hi & Hone). destruct (device_good (mm_tb s) v a (a + 1) HG Hc ltac:(unfold in_width; lia) Hi Hone) as (u & v' & E & HG' & Sh).
  exists (after_tb u s), v'. split; [|split_and!; [| |done]].
  - apply in_tb_Ok. unfold breakpoint_invalidate. rewrite bind_gets. cbv zeta. fold a. by rewrite wrap_small by (unfold in_width; lia).
  - split; [done|]. eapply (direct_kept (mm_tb s)); [by eapply quiet_range|apply HS|done|apply HS].
  - apply (cleared_code_free (mm_tb s) u v v'); [done|done|lia| |done]. pose proof (Z.mod_pos_bound a 4096 ltac:(lia)). lia.
Qed.

Lemma break_insert_ok s v phys pc flags : let a := debug_ram_addr phys (cpu_regs (tb_cpu (mm_tb s))) pc in mmu_ok s v → break_ready s v a →
  ∃ s' v', cpu_breakpoint_insert phys pc flags s = Ok 0 s' ∧ mmu_ok s' v' ∧ code_free (mm_tb s') v' a 1 ∧ mkBP pc flags ∈ breakpoints s'.
Proof.
  intros a HO Hr. unfold cpu_breakpoint_insert. rewrite bind_modify. set (s1 := set_breakpoints _ s).
  destruct (break_invalidate_ok s1 v phys pc (set_break_ok _ _ _ HO) Hr) as (s' & v' & E & HO' & Hf & Eb). rewrite (bind_Ok _ _ _ _ _ E).
  exists s', v'. split_and!; [done|done|done|]. rewrite Eb. unfold s1. simpl. destruct (_ =? 0); set_solver.
Qed.

(** The first breakpoint with these arguments goes, or there is none. *)
Lemma break_remove_ok s v phys pc flags : let a := debug_ram_addr phys (cpu_regs (tb_cpu (mm_tb s))) pc in mmu_ok s v → break_ready s v a →
  ((mkBP pc flags ∉ breakpoints s) ∧ cpu_breakpoint_remove phys pc flags s = Ok (- ENOENT) s) ∨
  (∃ pre post s' v', breakpoints s = pre ++ mkBP pc flags :: post ∧ (mkBP pc flags ∉ pre) ∧ cpu_breakpoint_remove phys pc flags s = Ok 0 s' ∧ mmu_ok s' v' ∧
    code_free (mm_tb s') v' a 1 ∧ breakpoints s' = pre ++ post).
Proof.
  intros a HO Hr. unfold cpu_breakpoint_remove. rewrite bind_gets. destruct (list_find _ _) as [[i b]|] eqn:Ef.
  - right. apply list_find_Some in Ef as (Hi & [Hp Hfl] & Hmin). assert (b = mkBP pc flags) as -> by (destruct b; simpl in *; congruence).
    unfold cpu_breakpoint_remove_by_ref. rewrite bind_assoc, bind_gets, Hi, bind_assoc, bind_modify. set (s1 := set_breakpoints _ s).
    destruct (break_invalidate_ok s1 v phys pc (set_break_ok _ _ _ HO) Hr) as (s' & v' & E & HO' & Hf & Eb). rewrite bind_assoc. cbn [bp_pc]. rewrite (bind_Ok _ _ _ _ _ E), bind_ret.
    exists (take i (breakpoints s)), (drop (S i) (breakpoints s)), s', v'. split_and!; [by rewrite take_drop_middle| |done|done|done|by rewrite Eb; unfold s1; simpl; rewrite delete_take_drop].
    intros [j Hj]%list_elem_of_lookup. apply lookup_take_Some in Hj as [Hj Hlt]. by destruct (Hmin j _ Hj Hlt).
  - left. apply list_find_None in Ef. split; [|done]. intros Hin. by destruct (proj1 (Forall_forall _ _) Ef _ Hin).
Qed.
End Debug.
