(* ===== verification/TLBWatch.v ===== *)
(** * Watchpoints that are hit

    The check behind the accesses to watched pages: which watchpoints an access
    touches, and how the block that makes it is replaced. *)

From S2P Require Import Prelude CFile CString HostMem RamList Radix PhysPages RRTypes PandaCallbacks.
From S2P Require Import RRState RRReplay TBCache TBLists TBInv TBRemove TBInsert TBGen TBBitmap TBShape TBFind TBHost TBChain TBRange TBFast TBSteps.
From S2P Require Import TLB TLBQuiet TLBFacts TLBSet TLBSteps TLBDebug.
From stdpp Require Import functions list relations.
Local Open Scope Z_scope.

Section Watch.
Context `{PhysSpace} `{TargetLong} {Regs : Type} `{!Translator Regs} `{!TranslatorLaws Regs} `{!SpaceOk L1_MAP_ADDR_SPACE_BITS}.
Context `{!TargetLongOk} `{!FetchLaws Regs}.
Implicit Types (s : mmu_state Regs) (u : tb_state Regs) (v : view) (w : CPUWatchpoint).

(** ** The operations it is made of *)

(** An operation of the cache that keeps its invariant keeps the TLB safe too. *)
Lemma in_tb_ok {A} (m : TBM Regs A) s v a u v' : mmu_ok s v → quiet_op m → m (mm_tb s) = Ok a u → good u v' → mmu_ok (after_tb u s) v'.
Proof. intros [HG HS] Hq E HG'. split; [done|]. eapply (direct_kept (mm_tb s)); [by eapply Hq|apply HS|done|apply HS]. Qed.

Lemma restore_ok u v tb pc : good u v → tb ∈ v_live v → ∃ u' t, cpu_restore_state tb pc u = Ok () u' ∧ shrunk ∅ u u' v v ∧
  data u tb = Some (tb_data t) ∧ cpu_regs (tb_cpu u') = restore_state (cpu_regs (tb_cpu u)) t pc.
Proof.
  intros HG Hl. destruct (live_block u v tb (gd_inv _ _ HG) Hl) as (t & Ht & Hd). unfold cpu_restore_state.
  destruct (run_tb_callbacks_ok u PANDA_CB_CPU_RESTORE_STATE (λ cbs, EvCpuRestoreState cbs tb) (gd_callbacks _ _ HG)) as [e Ee].
  rewrite (bind_Ok _ _ _ _ _ Ee). set (s1 := set_tb_trace _ u). rewrite (bind_Ok _ _ _ _ _ (tb_at_ok s1 tb t Ht)). eexists _, t. split; [reflexivity|].
  split; [|done]. apply shrunk_same; [apply HG|by split|intros a; apply fetch_restore|done].
Qed.
Lemma invalidate_ok u v tb : good u v → tb ∈ v_live v → ∃ u', tb_phys_invalidate tb NO_PAGE u = Ok () u' ∧ shrunk {[tb]} u u' v (remove_view tb v) ∧
  cpu_regs (tb_cpu u') = cpu_regs (tb_cpu u).
Proof.
  intros HG Hl. destruct (tb_phys_invalidate_ok u v tb (gd_inv _ _ HG) Hl) as (u' & E & IV). exists u'. split; [done|].
  split; [by apply shrunk_removed; [apply HG|..]|]. apply (keeps_sizes _ _ (iv_keeps _ _ _ _ IV)).
Qed.
Lemma gen_good u v pc cs_base fl : good u v → in_width target_long_bits pc → ∃ o u' v1 v', tb_gen_code pc cs_base fl 1 u = Ok o u' ∧ good u' v' ∧ generated u u' v v1 v' pc cs_base fl 1 o.
Proof.
  intros HG Hpc. destruct (tb_gen_code_ok u v pc cs_base fl 1 (gd_inv _ _ HG) (gd_buffer _ _ HG) (gd_ram _ _ HG)) as (o & u' & v1 & v' & E & G).
  exists o, u', v1, v'. split; [done|]. split; [by eapply generated_good|done].
Qed.
Lemma resume_good s v : mmu_ok s v → ∃ s', in_tb cpu_resume_from_signal s = Ok () s' ∧ mmu_ok s' v ∧ watchpoints s' = watchpoints s ∧ watchpoint_hit s' = watchpoint_hit s ∧
  exception_index s' = exception_index s ∧ mm_tb s' = resumed (mm_tb s).
Proof.
  intros HO. eexists. split; [by apply in_tb_Ok|]. split; [|done]. apply (in_tb_ok cpu_resume_from_signal s v ()); [done|unfold cpu_resume_from_signal; quiet|reflexivity|].
  apply (good_same (mm_tb s)); [by split|done|done|apply HO].
Qed.

(** ** The stop *)

(** The block that makes the access is in the cache. *)
Definition accessing s v (tb : nat) : Prop := tb_find_pc (mem_io_pc (tb_cpu (mm_tb s))) (mm_tb s) = Ok (Some tb) (mm_tb s) ∧ tb ∈ v_live v.

(** What a hit leaves: the registers are those of the instruction that makes the
    access, and the block it is in has left the cache. Before the access there is a
    debug exception; otherwise a block of one instruction is translated for that state
    of the CPU, to make the access and stop behind it. *)
Definition stopped (flags : Z) s s' v v' (tb : nat) : Prop :=
  ∃ u t, shrunk {[tb]} (mm_tb s) u v (remove_view tb v) ∧ data (mm_tb s) tb = Some (tb_data t) ∧
    cpu_regs (tb_cpu u) = restore_state (cpu_regs (tb_cpu (mm_tb s))) t (mem_io_pc (tb_cpu (mm_tb s))) ∧
    if Z.land flags BP_STOP_BEFORE_ACCESS =? 0 then
      exception_index s' = exception_index s ∧
      let '(pc, cs_base, fl) := cpu_get_tb_cpu_state (cpu_regs (tb_cpu u)) in
      ∃ o u' v1, generated u u' (remove_view tb v) v1 v' pc cs_base fl 1 o ∧ mm_tb s' = match o with Some _ => resumed u' | None => u' end
    else exception_index s' = EXCP_DEBUG ∧ v' = remove_view tb v ∧ mm_tb s' = resumed u.

Lemma watch_stop_ok s v tb flags : mmu_ok s v → accessing s v tb →
  ∃ s' v', watch_stop flags s = Ok () s' ∧ mmu_ok s' v' ∧ watchpoints s' = watchpoints s ∧ watchpoint_hit s' = watchpoint_hit s ∧ stopped flags s s' v v' tb.
Proof.
  intros HO [Ef Hl]. unfold watch_stop. rewrite bind_gets. rewrite (bind_Ok _ _ _ _ _ (in_tb_Ok _ _ _ _ Ef)).
  pose proof (in_tb_ok _ s v _ _ v HO (quiet_find_pc _) Ef (mo_cache _ _ HO)) as HO0. set (s0 := after_tb (mm_tb s) s) in *. set (pc0 := mem_io_pc _).
  destruct (restore_ok (mm_tb s0) v tb pc0 (mo_cache _ _ HO0) Hl) as (u1 & t & E1 & Sh1 & Hd & R1). rewrite (bind_Ok _ _ _ _ _ (in_tb_Ok _ _ _ _ E1)).
  pose proof (shrunk_good _ _ _ _ _ (mo_cache _ _ HO0) Sh1) as G1. pose proof (in_tb_ok _ s0 v _ _ v HO0 (quiet_restore _ _) E1 G1) as HO1. set (s1 := after_tb u1 s0) in *.
  destruct (invalidate_ok (mm_tb s1) v tb (mo_cache _ _ HO1) Hl) as (u2 & E2 & Sh2 & R2). rewrite (bind_Ok _ _ _ _ _ (in_tb_Ok _ _ _ _ E2)).
  pose proof (shrunk_good _ _ _ _ _ (mo_cache _ _ HO1) Sh2) as G2. pose proof (in_tb_ok _ s1 v _ _ _ HO1 (quiet_phys_invalidate _ _) E2 G2) as HO2. set (s2 := after_tb u2 s1) in *.
  assert (Sh : shrunk {[tb]} (mm_tb s) u2 v (remove_view tb v)) by (eapply chain_shrunk; [exact Sh1|exact Sh2]).
  assert (Hr : cpu_regs (tb_cpu u2) = restore_state (cpu_regs (tb_cpu (mm_tb s))) t (mem_io_pc (tb_cpu (mm_tb s)))) by (rewrite R2; exact R1).
  unfold stopped. destruct (Z.land flags BP_STOP_BEFORE_ACCESS =? 0); cbn [negb].
  - rewrite bind_gets. pose proof (fetch_pc (cpu_regs (tb_cpu u2))) as Hpc. change (mm_tb s2) with u2. destruct (cpu_get_tb_cpu_state (cpu_regs (tb_cpu u2))) as [[pc cs_base] fl] eqn:Er.
    destruct (gen_good u2 _ pc cs_base fl (mo_cache _ _ HO2) Hpc) as (o & u3 & v1 & v3 & E3 & G3 & Gn). erewrite bind_Ok by (by apply in_tb_Ok).
    pose proof (in_tb_ok _ s2 _ _ _ _ HO2 (quiet_gen_code _ _ _ _) E3 G3) as HO3. set (s3 := after_tb u3 s2) in *. destruct o as [nt|].
    + destruct (resume_good s3 v3 HO3) as (s4 & E4 & HO4 & W & Hh & X & Em). exists s4, v3. split_and!; try done. exists u2, t. rewrite Er. split_and!; try done. by exists (Some nt), u3, v1.
    + exists s3, v3. split_and!; try done. exists u2, t. rewrite Er. split_and!; try done. by exists None, u3, v1.
  - rewrite bind_modify. set (s3 := set_exception_index _ s2). assert (HO3 : mmu_ok s3 (remove_view tb v)) by (destruct HO2; by split).
    destruct (resume_good s3 _ HO3) as (s4 & E4 & HO4 & W & Hh & X & Em). exists s4, (remove_view tb v). split_and!; try done. by exists u2, t.
Qed.

(** ** The loop *)

Lemma check_miss vaddr lm fl ws : ∀ checked s, Forall (λ w, watch_hits vaddr lm fl w = false) ws →
  check_watches vaddr lm fl checked ws s = Ok (Some ()) (set_watchpoints (checked ++ (miss_watch <$> ws)) s).
Proof.
  induction ws as [|w ws IH]; intros checked s Hw; cbn [check_watches]; [by rewrite app_nil_r|].
  apply Forall_cons in Hw as [Hw Hws]. rewrite Hw, IH by done. by rewrite <-app_assoc.
Qed.
Lemma check_skip vaddr lm fl pre w post : ∀ checked s, Forall (λ w, watch_hits vaddr lm fl w = false) pre → watch_hits vaddr lm fl w = true →
  check_watches vaddr lm fl checked (pre ++ w :: post) s =
    (watch_stop (wp_flags w);; mret None) (set_watchpoint_hit true (set_watchpoints (checked ++ (miss_watch <$> pre) ++ hit_watch w :: post) s)).
Proof.
  induction pre as [|x pre IH]; intros checked s Hp Hw; cbn [check_watches app].
  - rewrite Hw, !bind_modify. done.
  - apply Forall_cons in Hp as [Hx Hp]. rewrite Hx, IH by done. by rewrite <-app_assoc.
Qed.

Definition access_addr s (offset : Z) : Z := wrap target_long_bits (Z.land (mem_io_vaddr (tb_cpu (mm_tb s))) TARGET_PAGE_MASK + offset).

Lemma check_watchpoint_hit s v tb offset lm fl pre w post : mmu_ok s v → single_env (mm_tb s) = true → accessing s v tb → watchpoint_hit s = false → watchpoints s = pre ++ w :: post →
  Forall (λ x, watch_hits (access_addr s offset) lm fl x = false) pre → watch_hits (access_addr s offset) lm fl w = true →
  ∃ s' v', check_watchpoint offset lm fl s = Ok None s' ∧ mmu_ok s' v' ∧ watchpoint_hit s' = true ∧ watchpoints s' = (miss_watch <$> pre) ++ hit_watch w :: post ∧
    stopped (wp_flags w) s s' v v' tb.
Proof.
  intros HO He Hac Hh El Hpre Hw. unfold check_watchpoint. rewrite bind_gets. unfold single_env in He. rewrite He. unfold assert_or. rewrite bind_ret, bind_gets, Hh, !bind_gets, El. cbv zeta. fold (access_addr s offset). rewrite check_skip by done.
  set (s1 := set_watchpoint_hit true _). assert (HO1 : mmu_ok s1 v) by (destruct HO; by split).
  destruct (watch_stop_ok s1 v tb (wp_flags w) HO1 Hac) as (s' & v' & E & HO' & W & Hh' & X). rewrite (bind_Ok _ _ _ _ _ E).
  exists s', v'. split_and!; [done|done|by rewrite Hh'|by rewrite W|]. exact X.
Qed.
Lemma check_watchpoint_miss s offset lm fl : single_env (mm_tb s) = true → watchpoint_hit s = false → Forall (λ x, watch_hits (access_addr s offset) lm fl x = false) (watchpoints s) →
  check_watchpoint offset lm fl s = Ok (Some ()) (set_watchpoints (miss_watch <$> watchpoints s) s).
Proof. intros He Hh Hw. unfold check_watchpoint. rewrite bind_gets. unfold single_env in He. rewrite He. unfold assert_or. rewrite bind_ret, bind_gets, Hh, !bind_gets. cbv zeta. fold (access_addr s offset). by rewrite check_miss. Qed.

(** ** What is hit *)

(** The mask of a size [2 ^ n]. *)
Lemma size_mask_land n a : 0 ≤ n ≤ target_long_bits → in_width target_long_bits a → Z.land a (len_mask (2 ^ n)) = 2 ^ n * (a / 2 ^ n).
Proof.
  intros Hn Ha. unfold len_mask. rewrite upper_mask by lia. assert (0 < 2 ^ n) by (apply Z.pow_pos_nonneg; lia). unfold in_width in Ha.
  apply Z.bits_inj'. intros i Hi. rewrite Z.land_spec, upper_bit by lia. rewrite (Z.mul_comm (2 ^ n)), <-Z.shiftl_mul_pow2, <-Z.shiftr_div_pow2 by lia.
  rewrite Z.shiftl_spec by lia. destruct (decide (i < n)).
  - rewrite (Z.testbit_neg_r _ (i - n)) by lia. rewrite bool_decide_eq_false_2 by lia. apply andb_false_r.
  - rewrite Z.shiftr_spec by lia. replace (i - n + n) with i by lia. destruct (decide (i < target_long_bits)).
    + rewrite bool_decide_eq_true_2 by lia. apply andb_true_r.
    + rewrite bool_decide_eq_false_2, andb_false_r by lia. symmetry. rewrite <-(Z.mod_small a (2 ^ target_long_bits)) by lia. apply Z.mod_pow2_bits_high. lia.
Qed.
(** The [~1], [~3] of an access of [2 ^ k] bytes. *)
Lemma access_mask_land k a : 0 ≤ k → Z.land a (Z.lnot (2 ^ k - 1)) = 2 ^ k * (a / 2 ^ k).
Proof.
  intros Hk. replace (2 ^ k - 1) with (Z.ones k) by (rewrite Z.ones_equiv; lia). rewrite <-Z.ldiff_land, Z.ldiff_ones_r by lia.
  rewrite Z.shiftl_mul_pow2, Z.shiftr_div_pow2 by lia. lia.
Qed.

Lemma multiples_le m a b : 0 < m → a mod m = 0 → b mod m = 0 → a < b + m → a ≤ b.
Proof.
  intros Hm Ha Hb Hlt. pose proof (Z.div_mod a m ltac:(lia)) as Ea. pose proof (Z.div_mod b m ltac:(lia)) as Eb. rewrite Ha, Z.add_0_r in Ea. rewrite Hb, Z.add_0_r in Eb.
  set (p := a / m) in *. set (q := b / m) in *. clearbody p q. assert (p < q + 1) by nia. nia.
Qed.
(** Two naturally aligned ranges overlap when one contains the start of the other. *)
Lemma aligned_overlap k n a b : 0 ≤ k → 0 ≤ n → a mod 2 ^ k = 0 → b mod 2 ^ n = 0 →
  (a = 2 ^ k * (b / 2 ^ k) ∨ 2 ^ n * (a / 2 ^ n) = b) ↔ (a < b + 2 ^ n ∧ b < a + 2 ^ k).
Proof.
  intros Hk Hn Ha Hb. assert (0 < 2 ^ k) by (apply Z.pow_pos_nonneg; lia). assert (0 < 2 ^ n) by (apply Z.pow_pos_nonneg; lia).
  pose proof (Z.div_mod a (2 ^ k) ltac:(lia)). pose proof (Z.div_mod b (2 ^ k) ltac:(lia)). pose proof (Z.mod_pos_bound b (2 ^ k) ltac:(lia)).
  pose proof (Z.div_mod a (2 ^ n) ltac:(lia)). pose proof (Z.mod_pos_bound a (2 ^ n) ltac:(lia)). pose proof (Z.div_mod b (2 ^ n) ltac:(lia)). split; [intros [|]; lia|].
  intros [H1' H2']. destruct (decide (k ≤ n)) as [Hkn|Hkn].
  - right. assert (Hd : 2 ^ n = 2 ^ k * 2 ^ (n - k)) by (rewrite <-Z.pow_add_r by lia; f_equal; lia).
    assert (Hbk : b mod 2 ^ k = 0) by (rewrite <-(Z.mod_mod_divide b (2 ^ n) (2 ^ k)); [by rewrite Hb|exists (2 ^ (n - k)); lia]).
    assert (Hle : b ≤ a) by (apply (multiples_le (2 ^ k)); done). pose proof (Z.div_unique_pos a (2 ^ n) (b / 2 ^ n) (a - b) ltac:(lia) ltac:(lia)). lia.
  - left. assert (Hd : 2 ^ k = 2 ^ n * 2 ^ (k - n)) by (rewrite <-Z.pow_add_r by lia; f_equal; lia).
    assert (Han : a mod 2 ^ n = 0) by (rewrite <-(Z.mod_mod_divide a (2 ^ k) (2 ^ n)); [by rewrite Ha|exists (2 ^ (k - n)); lia]).
    assert (Hle : a ≤ b) by (apply (multiples_le (2 ^ n)); done). pose proof (Z.div_unique_pos b (2 ^ k) (a / 2 ^ k) (b - a) ltac:(lia) ltac:(lia)). lia.
Qed.

Lemma watch_hits_iff a k n w fl : 0 ≤ k → 0 ≤ n ≤ target_long_bits → in_width target_long_bits a → a mod 2 ^ k = 0 → wp_vaddr w mod 2 ^ n = 0 → wp_len_mask w = len_mask (2 ^ n) →
  watch_hits a (Z.lnot (2 ^ k - 1)) fl w = true ↔ (a < wp_vaddr w + 2 ^ n ∧ wp_vaddr w < a + 2 ^ k) ∧ Z.land (wp_flags w) fl ≠ 0.
Proof.
  intros Hk Hn Ha Hak Hwn Hm. unfold watch_hits. rewrite andb_true_iff, orb_true_iff, negb_true_iff, !Z.eqb_eq, Z.eqb_neq. rewrite Hm, size_mask_land, access_mask_land by done.
  by rewrite (aligned_overlap k n a (wp_vaddr w)) by lia.
Qed.

(** ** The first watchpoint that is hit *)

Lemma first_hit (P : CPUWatchpoint → bool) ws : Forall (λ w, P w = false) ws ∨ ∃ pre w post, ws = pre ++ w :: post ∧ Forall (λ w, P w = false) pre ∧ P w = true.
Proof.
  induction ws as [|w ws [IH|(pre & x & post & -> & Hp & Hx)]]; [by left|..].
  - destruct (P w) eqn:E; [|left; by constructor]. right. by exists [], w, ws.
  - right. destruct (P w) eqn:E; [by exists [], w, (pre ++ x :: post)|]. exists (w :: pre), x, post. split; [done|]. split; [by constructor|done].
Qed.

Lemma check_ok s v offset lm fl o s' : mmu_ok s v → (∃ tb, accessing s v tb) → (∀ tb, current_tb (tb_cpu (mm_tb s)) = Some tb → tb ∈ v_live v) →
  check_watchpoint offset lm fl s = Ok o s' → ∃ v', mmu_ok s' v'.
Proof.
  intros HO [tb Hac] Hcur E. destruct (single_env (mm_tb s)) eqn:He.
  2: { unfold check_watchpoint in E. rewrite bind_gets in E. unfold single_env in He. by rewrite He in E. }
  destruct (watchpoint_hit s) eqn:Eh.
  - unfold check_watchpoint in E. rewrite bind_gets in E. unfold single_env in He. rewrite He in E. unfold assert_or in E. rewrite bind_ret, bind_gets, Eh in E. destruct (interrupt_good (mm_tb s) v CPU_INTERRUPT_DEBUG (mo_cache _ _ HO)) as (u & v' & Eu & G & _); [intros t Ht; left; by apply Hcur|].
    rewrite (bind_Ok _ _ _ _ _ (in_tb_Ok _ _ _ _ Eu)) in E. injection E as _ <-. exists v'. by eapply in_tb_ok; [done|apply quiet_tcg_interrupt|..].
  - destruct (first_hit (watch_hits (access_addr s offset) lm fl) (watchpoints s)) as [Hm|(pre & w & post & El & Hp & Hw)].
    + rewrite check_watchpoint_miss in E by done. injection E as _ <-. exists v. by apply set_watch_ok.
    + destruct (check_watchpoint_hit s v tb offset lm fl pre w post HO He Hac Eh El Hp Hw) as (s1 & v' & E1 & HO' & _). rewrite E in E1. injection E1 as _ <-. by exists v'.
Qed.

(** A watchpoint as [cpu_watchpoint_insert] makes them, and whether an access of [2 ^ k]
    bytes at [a] touches its bytes. *)
Definition watch_formed w (n : Z) : Prop := 0 ≤ n ≤ target_long_bits ∧ wp_vaddr w mod 2 ^ n = 0 ∧ wp_len_mask w = len_mask (2 ^ n).
Definition touches (a k fl : Z) w : Prop := ∃ n, watch_formed w n ∧ (a < wp_vaddr w + 2 ^ n ∧ wp_vaddr w < a + 2 ^ k) ∧ Z.land (wp_flags w) fl ≠ 0.

Lemma hits_touches a k fl w : 0 ≤ k → in_width target_long_bits a → a mod 2 ^ k = 0 → (∃ n, watch_formed w n) →
  watch_hits a (Z.lnot (2 ^ k - 1)) fl w = true ↔ touches a k fl w.
Proof.
  intros Hk Ha Hak [n Hn]. split.
  - intros Hh. exists n. split; [done|]. destruct Hn as (A & B & C). by apply (watch_hits_iff a k n w fl).
  - intros (n' & (A & B & C) & Ht). by apply (watch_hits_iff a k n' w fl).
Qed.
Lemma misses_touches a k fl ws : 0 ≤ k → in_width target_long_bits a → a mod 2 ^ k = 0 → Forall (λ w, ∃ n, watch_formed w n) ws →
  Forall (λ w, watch_hits a (Z.lnot (2 ^ k - 1)) fl w = false) ws ↔ Forall (λ w, ¬ touches a k fl w) ws.
Proof.
  intros Hk Ha Hak Hf. rewrite !Forall_forall. split; intros Hm w Hw.
  - rewrite <-(hits_touches a k fl w Hk Ha Hak) by (by apply (proj1 (Forall_forall _ _) Hf)). rewrite (Hm w Hw). done.
  - apply not_true_iff_false. rewrite (hits_touches a k fl w Hk Ha Hak) by (by apply (proj1 (Forall_forall _ _) Hf)). by apply Hm.
Qed.
End Watch.
