(* ===== verification/TLBTheorems.v ===== *)
(** * What the TLB guarantees

    The operations of the TLB, of the debugger and of the code cache as steps of one
    machine, and the theorems about them. *)

From S2P Require Import Prelude CFile CString HostMem RamList Radix PhysPages RRTypes PandaCallbacks.
From S2P Require Import RRState RRReplay TBCache TBLists TBInv TBInsert TBGen TBBitmap TBShape TBFind TBChain TBRange TBFast TBSteps.
From S2P Require Import TLB TLBQuiet TLBFacts TLBSet TLBSteps TLBDirty TLBDebug TLBWatch.
From stdpp Require Import functions list relations.
Local Open Scope Z_scope.

Section Run.
Context `{PhysSpace} `{TargetLong} {Regs : Type} `{!Translator Regs} `{!TranslatorLaws Regs} `{!SpaceOk L1_MAP_ADDR_SPACE_BITS}.
Context `{!TargetLongOk} `{!FetchLaws Regs}.
Implicit Types (s : mmu_state Regs) (u : tb_state Regs) (v : view) (e : CPUTLBEntry) (phys : gmap Z (ptab P_LEVELS)).

(** ** Steps *)

Inductive mmu_step s : mmu_state Regs → Prop :=
| mmu_cache u : tb_step (mm_tb s) u → mmu_step s (after_tb u s)
| mmu_flush r s' : code_in_ram (mm_tb (with_regs r s)) → tlb_flush (with_regs r s) = Ok () s' → mmu_step s s'
| mmu_flush_page r addr s' :
    in_width target_long_bits addr → remapped (cpu_regs (tb_cpu (mm_tb s))) r addr → code_in_ram (mm_tb (with_regs r s)) →
    tlb_flush_page addr (with_regs r s) = Ok () s' → mmu_step s s'
| mmu_set_page phys vaddr paddr prot mmu_idx size s' :
    pd_ok (page_pd phys paddr) → vaddr mod 4096 = 0 → tlb_set_page phys vaddr paddr prot mmu_idx size s = Ok () s' → mmu_step s s'
| mmu_write ram_addr d b o s' :
    (∀ v, good (mm_tb s) v → write_ready s v ram_addr d b) → notdirty_write ram_addr d s = Ok o s' → mmu_step s s'
| mmu_reset start end_ fl s' :
    ((∃ b, owner (Z.land start TARGET_PAGE_MASK) (tb_ram (mm_tb s)) b) → one_stretch (tb_ram (mm_tb s)) (Z.land start TARGET_PAGE_MASK) (TARGET_PAGE_ALIGN end_)) →
    mmu_reset_dirty start end_ fl s = Ok () s' → mmu_step s s'
| mmu_update s' : cpu_tlb_update_dirty s = Ok () s' → mmu_step s s'
| mmu_watch addr len flags z s' :
    in_width target_long_bits addr → cpu_watchpoint_insert addr len flags s = Ok z s' → mmu_step s s'
| mmu_unwatch i w s' :
    watchpoints s !! i = Some w → in_width target_long_bits (wp_vaddr w) → cpu_watchpoint_remove_by_ref i s = Ok () s' → mmu_step s s'
| mmu_check offset lm fl o s' :
    (∀ v, good (mm_tb s) v → (∃ tb, accessing s v tb) ∧ ∀ tb, current_tb (tb_cpu (mm_tb s)) = Some tb → tb ∈ v_live v) →
    check_watchpoint offset lm fl s = Ok o s' → mmu_step s s'
| mmu_break phys pc flags z s' :
    (∀ v, good (mm_tb s) v → break_ready s v (debug_ram_addr phys (cpu_regs (tb_cpu (mm_tb s))) pc)) →
    cpu_breakpoint_insert phys pc flags s = Ok z s' → mmu_step s s'
| mmu_unbreak phys pc flags z s' :
    (∀ v, good (mm_tb s) v → break_ready s v (debug_ram_addr phys (cpu_regs (tb_cpu (mm_tb s))) pc)) →
    cpu_breakpoint_remove phys pc flags s = Ok z s' → mmu_step s s'
| mmu_single_step enabled s' : cpu_single_step enabled s = Ok () s' → mmu_step s s'.

Lemma single_step_ok s v enabled : mmu_ok s v → ∃ s' v', cpu_single_step enabled s = Ok () s' ∧ mmu_ok s' v' ∧ singlestep_enabled s' = enabled ∧
  (singlestep_enabled s ≠ enabled → v_live v' = ∅).
Proof.
  intros HO. pose proof HO as [HG HS]. unfold cpu_single_step. rewrite bind_gets. destruct (_ =? enabled) eqn:E; [apply Z.eqb_eq in E; exists s, v; naive_solver|].
  rewrite bind_modify. set (s1 := set_singlestep_enabled enabled s). destruct (flush_good (mm_tb s) v HG) as (u & Eu & HG' & _).
  exists (after_tb u s1), empty_view. split; [by apply in_tb_Ok|]. split; [|done]. split; [done|]. eapply (direct_kept (mm_tb s)); [by eapply quiet_flush|apply HS|done|apply HS].
Qed.

Lemma mmu_step_ok s s' v : mmu_ok s v → mmu_step s s' → ∃ v', mmu_ok s' v'.
Proof.
  intros HO Hs. pose proof HO as [HG HS]. destruct Hs as [u Hu|r s' Hc E|r addr s' Ha Hr Hc E|phys vaddr paddr prot mi size s' Hp Hv E|a d b o s' Hw E|start end_ fl s' Ho E|s' E|
    addr len flags z s' Ha E|i w s' Hi Ha E|offset lm fl o s' Hac E|phys pc flags z s' Hr E|phys pc flags z s' Hr E|enabled s' E].
  - destruct (step_good _ _ _ HG Hu) as [v' HG']. exists v'. split; [done|]. eapply direct_kept; [by apply step_kept_ram|apply HS|done|apply HS].
  - destruct (flush_ok s v r HO Hc) as (s1 & E1 & HO'). rewrite E in E1. injection E1 as <-. by exists v.
  - destruct (flush_page_ok s v r addr HO Ha Hr Hc) as (s1 & E1 & HO' & _). rewrite E in E1. injection E1 as <-. by exists v.
  - exists v. split; [|by eapply set_page_safe]. destruct (tlb_set_page_inv _ _ _ _ _ _ _ _ E (proj1 HS) Hp Hv) as (b & r & fa & fm & io & e & _ & He & -> & _). by apply good_eqv.
  - destruct (notdirty_write_ok s v a d b HO (Hw v HG)) as (o' & s1 & v' & E1 & HO' & _). rewrite E in E1. injection E1 as <- <-. by exists v'.
  - exists v. by eapply reset_dirty_ok.
  - destruct (update_dirty_ok s (proj1 HS)) as (t & E1 & HS').
    + intros m i e He Hd. destruct (proj2 HS m i e He Hd) as (k & Hk & _). by exists k.
    + rewrite E in E1. injection E1 as ->. by exists v.
  - destruct (decide (watch_ok addr len)) as [Hok|Hno].
    + destruct (watch_insert_ok s v addr len flags HO Ha Hok) as (s1 & E1 & HO' & _). rewrite E in E1. injection E1 as _ <-. by exists v.
    + rewrite watch_insert_bad in E by done. injection E as _ <-. by exists v.
  - rewrite (remove_ref_eq s i w Hi) in E. destruct (flush_same_ok _ v _ (set_watch_ok s v (delete i (watchpoints s)) HO) Ha) as (s1 & E1 & HO' & _).
    rewrite E in E1. injection E1 as <-. by exists v.
  - destruct (Hac v HG). by eapply (check_ok s v).
  - destruct (break_insert_ok s v phys pc flags HO (Hr v HG)) as (s1 & v' & E1 & HO' & _). rewrite E in E1. injection E1 as _ <-. by exists v'.
  - destruct (break_remove_ok s v phys pc flags HO (Hr v HG)) as [[_ E1]|(pre & post & s1 & v' & _ & _ & E1 & HO' & _)]; rewrite E in E1; injection E1 as _ <-; [by exists v|by exists v'].
  - destruct (single_step_ok s v enabled HO) as (s1 & v' & E1 & HO' & _). rewrite E in E1. injection E1 as <-. by exists v'.
Qed.
Lemma mmu_run_ok s s' v : mmu_ok s v → rtc mmu_step s s' → ∃ v', mmu_ok s' v'.
Proof. intros HO Hs. revert v HO. induction Hs as [s|s s1 s' Hs _ IH]; intros v HO; [by exists v|]. destruct (mmu_step_ok s s1 v HO Hs) as [v1 HO1]. by eapply IH. Qed.

(** ** Theorems *)

(** C4. In every state that the operations of the TLB, of the code cache and of the
    debugger lead to: an entry through which generated code writes to memory without
    a check leads, with all its bytes, to one page of RAM that is dirty for every
    purpose and on which no block of the code cache lies. The steps take from the
    caller that at a write to a clean page the modes that map its virtual page map
    it alike ([write_ready]); without that it does not hold. *)
Theorem code_writes_trapped s s' v : mmu_ok s v → rtc mmu_step s s' → ∃ v', mmu_ok s' v' ∧
  ∀ m i e, tlb_at (tlb_table s') m i = Some e → writes_ram e = true → ∃ k,
    (∀ o, 0 ≤ o < 4096 → host_page (tb_ram (mm_tb s')) (write_host e + o) k) ∧ dirty_page (tb_ram (mm_tb s')) k ∧
    ∀ tb t n, tb ∈ v_live v' → data (mm_tb s') tb = Some t → ¬ on_page t n k.
Proof.
  intros HO Hs. destruct (mmu_run_ok s s' v HO Hs) as [v' [HG HS]]. exists v'. split; [done|]. intros m i e He Hd. destruct (proj2 HS m i e He Hd) as (k & Hk & Hdk).
  exists k. split; [intros o; apply leads_page; [apply HS|done]|]. split; [done|]. by apply (dirty_code_free (mm_tb s')).
Qed.

(** C13. A write to a page that was clean ends in one of two ways. It leaves exactly
    when the block that makes it is longer than one instruction and holds code from
    the bytes: then RAM is as before, the blocks with code from the bytes are gone and
    a block of one instruction is translated for the CPU at the instruction that
    writes. Otherwise it returns: the bytes are in RAM and no block of the cache holds
    code from them. In both cases the TLB and the code cache still agree. As for the
    writes of a run, [write_ready] says that the write is aligned, of 1, 2, 4 or 8
    bytes of RAM, that the modes that map its virtual page map it alike, and that no
    block is listed on the page with both of its parts. *)
Theorem clean_write_done s v ram_addr d b : mmu_ok s v → write_ready s v ram_addr d b →
  let len := Z.of_nat (length d) in let D := overwritten (mm_tb s) v ram_addr len in
  ∃ o s' v', notdirty_write ram_addr d s = Ok o s' ∧ mmu_ok s' v' ∧ (o = None ↔ ∃ c t, self_modified D (mm_tb s) c t) ∧
    match o with
    | Some _ => code_free (mm_tb s') v' ram_addr len ∧
        ram_mem (tb_ram (mm_tb s')) = mem_write (ram_mem (tb_ram (mm_tb s))) (blk_host b + (ram_addr - blk_offset b)) d
    | None => written D (mm_tb s) (mm_tb s') v v' None ∧ ram_mem (tb_ram (mm_tb s')) = ram_mem (tb_ram (mm_tb s))
    end.
Proof. apply notdirty_write_ok. Qed.

(** C24. [tlb_set_page] returns for a page of RAM, and then code is fetched from that page
    without filling the TLB again: the RAM address of every byte of the virtual page is its offset in the physical
    one, whatever the size of the page and the other entries. *)
Theorem set_page_fetch phys vaddr paddr prot mmu_idx size s row b : let pd := page_pd phys paddr in
  ram_wf (tb_ram (mm_tb s)) → region_ok s → page_size_ok size → page_io pd = IO_MEM_RAM → in_width 64 pd → owner pd (tb_ram (mm_tb s)) b →
  vaddr mod 4096 = 0 → 0 ≤ mmu_idx → tlb_table s !! Z.to_nat mmu_idx = Some row → (tlb_index vaddr < length row)%nat → Z.land prot PAGE_EXEC ≠ 0 →
  ∃ s', tlb_set_page phys vaddr paddr prot mmu_idx size s = Ok () s' ∧
    ∀ ldub_code o, 0 ≤ o < 4096 → code_addr ldub_code (Z.to_nat mmu_idx) (vaddr + o) s' = Ok (pd + o) s'.
Proof.
  intros pd Hw Hr Hsz Hio Hpw Ho Hv Hm Hrow Hix Hx. destruct (set_page_runs phys vaddr paddr prot mmu_idx size s row b Hw Hr Hsz Hio Hpw Ho Hm Hrow) as [s' E].
  exists s'. split; [done|]. intros fill o Hoo. destruct (page_base pd Hio) as [Eb Em].
  destruct (tlb_set_page_inv phys vaddr paddr prot mmu_idx size s s' E Hw ltac:(by split; [|left]) Hv) as (b' & r & fa & fm & io & e & Ho' & He & -> & Hf).
  fold pd in Ho', Hf. rewrite Em in Ho', Hf. rewrite <-Eb at 1. apply (code_addr_ok _ _ _ e vaddr o (blk_host b' + (pd - blk_offset b'))); [by eapply wf_eqv|done|done| | | |].
  - unfold tlb_at. simpl. rewrite list_lookup_alter_eq, Hrow. simpl. by apply list_lookup_insert_eq.
  - by apply (ef_code _ _ _ _ _ _ Hf).
  - apply (ef_addend _ _ _ _ _ _ Hf).
  - exists b'. rewrite Eb. split; [|done]. simpl. by rewrite <-He.
Qed.

(** C26. [tlb_add_large_page] returns, and then a flush of any address of the new large page, or
    of one added before, is a flush of everything. *)
Theorem large_page_flush s vaddr k : region_ok s → 0 < k ≤ target_long_bits →
  ∃ s', tlb_add_large_page vaddr (2 ^ k) s = Ok () s' ∧ region_ok s' ∧
    ∀ a, in_region s a ∨ Z.land a (upper k) = Z.land vaddr (upper k) → in_region s' a ∧ tlb_flush_page a s' = tlb_flush s'.
Proof.
  intros Hr Hk. destruct (add_large_page_ok s vaddr k Hr Hk) as (fa & fm & E & Hr' & Hnew & Hold). exists (with_region s fa fm). split; [done|]. split; [done|].
  intros a Ha. assert (Hi : in_region (with_region s fa fm) a) by (destruct Ha; auto). split; [done|]. by apply flush_region.
Qed.

(** C25. [tlb_flush_page] returns and leaves no entry, in any mode, that translates the
    page, and the cache of blocks agrees with the new mapping. *)
Theorem flush_page_gone s v (r : Regs) addr : mmu_ok s v → in_width target_long_bits addr → remapped (cpu_regs (tb_cpu (mm_tb s))) r addr →
  code_in_ram (mm_tb (with_regs r s)) →
  ∃ s', tlb_flush_page addr (with_regs r s) = Ok () s' ∧ mmu_ok s' v ∧ untranslated s' (Z.land addr TARGET_PAGE_MASK).
Proof. apply flush_page_ok. Qed.

(** [cpu_tlb_update_dirty] makes the TLB safe again after dirty bits were cleared without
    telling it. *)
Theorem update_dirty_restores s : ram_wf (tb_ram (mm_tb s)) → leads_somewhere s →
  ∃ t, cpu_tlb_update_dirty s = Ok () (set_tlb_table t s) ∧ tlb_safe (set_tlb_table t s).
Proof. apply update_dirty_ok. Qed.

(** C28. A watchpoint traps: after it is set no entry translates its page, and whatever
    entry [tlb_set_page] puts there next sends writes, and the reads it is for, through
    the slow path. *)
Theorem watchpoint_traps s v addr len flags phys paddr prot mmu_idx size : mmu_ok s v → in_width target_long_bits addr → watch_ok addr len →
  let vp := Z.land addr TARGET_PAGE_MASK in
  ∃ s1, cpu_watchpoint_insert addr len flags s = Ok 0 s1 ∧ mmu_ok s1 v ∧ untranslated s1 vp ∧
    ∀ s2, tlb_set_page phys vp paddr prot mmu_idx size s1 = Ok () s2 → pd_ok (page_pd phys paddr) →
      Z.land prot PAGE_WRITE ≠ 0 ∨ Z.land flags BP_MEM_READ ≠ 0 → ∀ e, tlb_at (tlb_table s2) (Z.to_nat mmu_idx) (tlb_index vp) = Some e →
      Z.testbit (addr_read e) 5 = true ∧ Z.testbit (addr_write e) 5 = true.
Proof.
  intros HO Ha Hw vp. destruct (watch_insert_ok s v addr len flags HO Ha Hw) as (s1 & E & HO' & Ew & Hu). exists s1. split_and!; [done..|]. intros s2 E2 Hp Hprot e He.
  destruct (tlb_set_page_inv _ _ _ _ _ _ _ _ E2 (proj1 (mo_safe _ _ HO')) Hp) as (b & r & fa & fm & io & e' & _ & _ & -> & Hf); [unfold vp; rewrite page_mask; apply page_floor|].
  simpl in He. apply put_tlb_at in He as [(_ & _ & ->)|[Hne _]]; [|by destruct Hne]. apply (ef_watched _ _ _ _ _ _ Hf). rewrite Ew. apply existsb_exists.
  exists (mkWP addr (len_mask len) flags). split; [apply list_elem_of_In; unfold add_watch; destruct (_ =? 0); set_solver|]. unfold watched. simpl. fold vp. rewrite Z.eqb_refl. simpl.
  apply orb_true_iff. destruct Hprot; [left|right]; by apply negb_true_iff, Z.eqb_neq.
Qed.


(** A watchpoint that is set and removed again leaves the list as it was; a wrong
    length or an address that is not aligned is refused, and so is removing what is
    not there. *)
Theorem watchpoint_round_trip s v addr len flags : mmu_ok s v → in_width target_long_bits addr → flags = Z.land flags (Z.lnot BP_WATCHPOINT_HIT) →
  (∀ w, w ∈ watchpoints s → ¬ names_watch addr len flags w) →
  cpu_watchpoint_remove addr len flags s = Ok (- ENOENT) s ∧
  (if decide (watch_ok addr len) then
     ∃ s1 s2, cpu_watchpoint_insert addr len flags s = Ok 0 s1 ∧ cpu_watchpoint_remove addr len flags s1 = Ok 0 s2 ∧ watchpoints s2 = watchpoints s ∧ mmu_ok s2 v
   else cpu_watchpoint_insert addr len flags s = Ok (- EINVAL) s).
Proof.
  intros HO Ha Hfl Hno. split; [by apply watch_remove_none|]. case_decide as Hw; [|by apply watch_insert_bad].
  destruct (watch_insert_ok s v addr len flags HO Ha Hw) as (s1 & E & HO' & Ew & _). destruct (add_watch_at flags (mkWP addr (len_mask len) flags) (watchpoints s)) as (i & Hi & Hd & Hb).
  rewrite <-Ew in Hi, Hd, Hb. destruct (watch_remove_ok s1 v addr len flags _ i HO' Ha Hi) as (s2 & E2 & HO2 & Ew2); [by split_and!|by intros j x Hj Hx; apply Hno, (Hb j)|].
  exists s1, s2. split_and!; [done|done|congruence|done].
Qed.

(** [cpu_watchpoint_remove_all] removes exactly the watchpoints that have a bit of the
    mask, and its loop ends although the list changes under it. *)
Theorem watchpoints_removed s v mask : mmu_ok s v → Forall (λ w, in_width target_long_bits (wp_vaddr w)) (watchpoints s) →
  ∃ s', cpu_watchpoint_remove_all mask s = Ok () s' ∧ mmu_ok s' v ∧ watchpoints s' = filter (kept_watch mask) (watchpoints s).
Proof.
  intros HO Hw. unfold cpu_watchpoint_remove_all. rewrite bind_gets. by apply (remove_watchpoints_ok mask _ (watchpoints s) []).
Qed.

(** C29. A breakpoint takes effect: after it is set no block of the code cache has the
    byte at its address, so the next lookup translates it again. Removing one takes
    the first with its arguments off the list and has the same effect on the cache,
    or finds none. *)
Theorem breakpoint_clears s v phys pc flags : let a := debug_ram_addr phys (cpu_regs (tb_cpu (mm_tb s))) pc in mmu_ok s v → break_ready s v a →
  (∃ s' v', cpu_breakpoint_insert phys pc flags s = Ok 0 s' ∧ mmu_ok s' v' ∧ code_free (mm_tb s') v' a 1 ∧ mkBP pc flags ∈ breakpoints s') ∧
  (((mkBP pc flags ∉ breakpoints s) ∧ cpu_breakpoint_remove phys pc flags s = Ok (- ENOENT) s) ∨
   (∃ pre post s' v', breakpoints s = pre ++ mkBP pc flags :: post ∧ (mkBP pc flags ∉ pre) ∧ cpu_breakpoint_remove phys pc flags s = Ok 0 s' ∧ mmu_ok s' v' ∧
     code_free (mm_tb s') v' a 1 ∧ breakpoints s' = pre ++ post)).
Proof. intros a HO Hr. split; [by apply (break_insert_ok s v)|by apply (break_remove_ok s v)]. Qed.
End Run.
