(* ===== verification/TLBExamples.v ===== *)
(** * The TLB of a small machine

    The machine of [TBExamples] with two modes of the MMU and a cold TLB: the
    hypotheses of the theorems hold on it, and what happens when two modes map one
    virtual page to different physical pages. *)

From S2P Require Import Prelude CFile CString HostMem RamList Radix PhysPages RRTypes PandaCallbacks.
From S2P Require Import RRState RRReplay IOMem PhysMem PhysMemExamples.
From S2P Require Import TBCache TBLists TBInv TBInsert TBGen TBBitmap TBShape TBFind TBChain TBRange TBFast TBSteps TBExamples.
From S2P Require Import TLB TLBQuiet TLBFacts TLBSet TLBSteps TLBDirty TLBDebug TLBWatch TLBTheorems.
From stdpp Require Import functions list relations.
Local Open Scope Z_scope.
Import PhysMemExamples TBExamples.

Module TLBExamples.

(** ** The machine *)

Definition cold_row : list CPUTLBEntry := replicate 256 s_cputlb_empty_entry.
Definition cold : mmu_state regs := mkMMU [cold_row; cold_row] [replicate 256 0; replicate 256 0] minus_one 0 0 [] [] 0 false 0 40 one.

Lemma cold_entries m i e : tlb_at [cold_row; cold_row] m i = Some e → e = s_cputlb_empty_entry.
Proof.
  unfold tlb_at. destruct m as [|[|m]]; simpl; [| |done]; intros Hi; by apply (lookup_replicate_1 256) in Hi as [-> _].
Qed.
Lemma one_wf : ∃ v, good one v ∧ ram_wf (tb_ram one).
Proof. destruct one_good as [v HG]. exists v. split; [exact HG|]. split; [apply (ci_ram _ _ (gd_inv _ _ HG))|]. apply Zle_bool_imp_le. vm_compute. reflexivity. Qed.
Lemma cold_ok : ∃ v, mmu_ok cold v.
Proof.
  destruct one_wf as (v & HG & Hw). exists v. split; [exact HG|]. split; [exact Hw|]. intros m i e He. apply cold_entries in He as ->. apply empty_not_ram.
Qed.
Lemma cold_region : region_ok cold.
Proof. left. split; reflexivity. Qed.

(** The virtual page 12288 is mapped to the dirty page 1 of RAM, the virtual page 0 to
    page 0, which holds code. *)
Definition mrun {A} (m : M (mmu_state regs) A) (s : mmu_state regs) : mmu_state regs := match m s with Ok _ s' | Err _ s' => s' end.
Definition warm : mmu_state regs := mrun (tlb_set_page demo_map 12288 0 7 0 4096) cold.
Definition warmer : mmu_state regs := mrun (tlb_set_page demo_map 0 4096 7 0 4096) warm.


(** Pages 0 and 1 of RAM. *)
Lemma demo_owner u k : ram_blocks (tb_ram u) = [ram_block] → 0 ≤ k < 2 → owner (4096 * k) (tb_ram (Regs:=regs) u) ram_block.
Proof. intros E Hk. split; [rewrite E; left|unfold in_range; simpl; lia]. Qed.
Lemma demo_size : page_size_ok 4096.
Proof. exists 12. split; [unfold TARGET_PAGE_BITS, target_long_bits, long32; lia|reflexivity]. Qed.
Lemma demo_pd0 : page_pd demo_map 0 = 4096 * 1.
Proof. vm_compute. reflexivity. Qed.
Lemma demo_pd1 : page_pd demo_map 4096 = 4096 * 0.
Proof. vm_compute. reflexivity. Qed.
Lemma demo_pd_ok paddr k : page_pd demo_map paddr = 4096 * k → 0 ≤ k < 2 → page_io (page_pd demo_map paddr) = IO_MEM_RAM ∧ pd_ok (page_pd demo_map paddr).
Proof.
  intros -> Hk. assert (Hio : page_io (4096 * k) = IO_MEM_RAM) by (unfold page_io; rewrite low_bits, Z.mul_comm; apply Z.mod_mul; lia).
  split; [exact Hio|]. split; [unfold in_width; lia|]. left. exact Hio.
Qed.

(** Mapping a page of this RAM. *)
Lemma demo_map_page s v vaddr paddr k row : mmu_ok s v → ram_blocks (tb_ram (mm_tb s)) = [ram_block] → region_ok s → tlb_table s !! 0%nat = Some row →
  page_pd demo_map paddr = 4096 * k → 0 ≤ k < 2 → vaddr mod 4096 = 0 → let s' := mrun (tlb_set_page demo_map vaddr paddr 7 0 4096) s in
  tlb_set_page demo_map vaddr paddr 7 0 4096 s = Ok () s' ∧ ∃ r, mm_tb s' = set_tb_ram r (mm_tb s) ∧ ram_eqv (tb_ram (mm_tb s)) r.
Proof.
  intros HO Hb Hr Hrow Hp Hk Hv s'. destruct (demo_pd_ok paddr k Hp Hk) as [Hio Hpd]. pose proof (proj1 (mo_safe _ _ HO)) as Hw.
  destruct (set_page_runs demo_map vaddr paddr 7 0 4096 s row ram_block Hw Hr demo_size Hio (proj1 Hpd)) as [s1 E]; [rewrite Hp; by apply demo_owner|lia|exact Hrow|].
  assert (Es : s' = s1) by (unfold s', mrun; rewrite E; reflexivity). rewrite Es. split; [exact E|].
  destruct (tlb_set_page_inv _ _ _ _ _ _ _ _ E Hw Hpd Hv) as (b & r & fa & fm & io & e & _ & He & -> & _). by exists r.
Qed.
Lemma set_ram_twice r r' (u : tb_state regs) : set_tb_ram r' (set_tb_ram r u) = set_tb_ram r' u.
Proof. reflexivity. Qed.
Lemma eqv_of_set r r' (u : tb_state regs) : ram_eqv (tb_ram (set_tb_ram r u)) r' → ram_eqv r r'.
Proof. done. Qed.
Lemma one_block r : ram_eqv (tb_ram one) r → ram_blocks r = [ram_block].
Proof. intros [Hb _ _]. rewrite one_ram in Hb. by apply Permutation_singleton_l in Hb. Qed.

Lemma warm_map : ∃ v, mmu_ok warm v ∧ mmu_step cold warm ∧ ∃ r, mm_tb warm = set_tb_ram r one ∧ ram_eqv (tb_ram one) r.
Proof.
  destruct cold_ok as [v HO]. destruct (demo_map_page cold v 12288 0 1 cold_row HO one_ram cold_region eq_refl demo_pd0 ltac:(lia) eq_refl) as [E R].
  assert (St : mmu_step cold warm) by (eapply mmu_set_page; [exact (proj2 (demo_pd_ok 0 1 demo_pd0 ltac:(lia)))| |exact E]; reflexivity).
  destruct (mmu_step_ok cold warm v HO St) as [v' HO']. exists v'. exact (conj HO' (conj St R)).
Qed.
Lemma warm_table : tlb_table warm !! 0%nat = Some (<[3%nat := mkTE 12288 12288 12288 57344]> cold_row).
Proof. vm_compute. reflexivity. Qed.
Lemma warm_region : region_ok warm.
Proof. left. split; vm_compute; reflexivity. Qed.
Lemma warmer_map : ∃ v, mmu_ok warmer v ∧ rtc mmu_step cold warmer ∧ ∃ r, mm_tb warmer = set_tb_ram r one ∧ ram_eqv (tb_ram one) r.
Proof.
  destruct warm_map as (v & HO & St & r & Er & Hr). assert (Hb : ram_blocks (tb_ram (mm_tb warm)) = [ram_block]) by (rewrite Er; exact (one_block r Hr)).
  destruct (demo_map_page warm v 0 4096 0 _ HO Hb warm_region warm_table demo_pd1 ltac:(lia) eq_refl) as [E (r2 & Er2 & Hr2)].
  assert (St2 : mmu_step warm warmer) by (eapply mmu_set_page; [exact (proj2 (demo_pd_ok 4096 0 demo_pd1 ltac:(lia)))| |exact E]; reflexivity).
  destruct (mmu_step_ok warm warmer v HO St2) as [v' HO']. exists v'. split; [exact HO'|]. split; [exact (rtc_l _ _ _ _ St (rtc_once _ _ St2))|].
  exists r2. split; [exact (eq_trans Er2 (eq_trans (f_equal (set_tb_ram r2) Er) (set_ram_twice r r2 one)))|]. rewrite Er in Hr2. exact (transitivity Hr (eqv_of_set r r2 one Hr2)).
Qed.

Lemma dirty_entry : tlb_at (tlb_table warmer) 0 3 = Some (mkTE 12288 12288 12288 57344).
Proof. vm_compute. reflexivity. Qed.
Lemma code_entry : tlb_at (tlb_table warmer) 0 0 = Some (mkTE 0 16 0 65536).
Proof. vm_compute. reflexivity. Qed.
Lemma other_entry m : tlb_at (tlb_table warmer) (S m) 0 = Some s_cputlb_empty_entry ∨ tlb_at (tlb_table warmer) (S m) 0 = None.
Proof. destruct m as [|m]; [left|right]; vm_compute; reflexivity. Qed.

(** ** The hypotheses of the theorems hold here *)

Lemma code_writes_trapped_witness : ∃ v' k, mmu_ok warmer v' ∧ dirty_page (tb_ram (mm_tb warmer)) k ∧
  ∀ tb t n, tb ∈ v_live v' → data (mm_tb warmer) tb = Some t → ¬ on_page t n k.
Proof.
  destruct cold_ok as [v HO], warmer_map as (_ & _ & Hrun & _). destruct (code_writes_trapped cold warmer v HO Hrun) as (v' & HO' & Hsafe).
  destruct (Hsafe 0%nat 3%nat _ dirty_entry eq_refl) as (k & _ & Hd & Hn). exists v', k. exact (conj HO' (conj Hd Hn)).
Defined.

(** The block of the machine lies in one page. *)
Lemma lone_part u v index : good u v → nb_tbs u = 1 → data u 0 = Some first_block → page_dom u index → one_part (v_page v index).
Proof.
  intros HG En Hd Hdom i _ Hi. apply (li_page _ _ (ci_listed _ _ (gd_inv _ _ HG)) index i 1%nat Hdom) in Hi as (Hl & t & Ht & a & Ha & Hne & _).
  pose proof (lay_live _ _ (ci_layout _ _ (gd_inv _ _ HG)) i Hl) as Hi. rewrite En in Hi. assert (i = 0%nat) as -> by lia.
  rewrite Hd in Ht. injection Ht as <-. injection Ha as <-. exact (Hne eq_refl).
Qed.
(** Other RAM, the same cache. *)
Lemma ram_only r (u : tb_state regs) : tb_cpu (set_tb_ram r u) = tb_cpu u ∧ single_env (set_tb_ram r u) = single_env u ∧ nb_tbs (set_tb_ram r u) = nb_tbs u ∧
  data (set_tb_ram r u) 0 = data u 0 ∧ (∀ k, page_dom u k → page_dom (set_tb_ram r u) k) ∧ tb_ram (set_tb_ram r u) = r.
Proof. done. Qed.
Lemma current_ram r (u : tb_state regs) v : interrupt_request (tb_cpu u) = 0 → current_ok (set_tb_ram r u) v.
Proof. intros E. right. by left. Qed.
Lemma one_calm : interrupt_request (tb_cpu one) = 0 ∧ nb_tbs one = 1.
Proof. split; vm_compute; reflexivity. Qed.
Lemma one_vaddr : mem_io_vaddr (tb_cpu one) = 0.
Proof. vm_compute. reflexivity. Qed.
Lemma block_owner r (u : tb_state regs) a : ram_blocks r = [ram_block] → 0 ≤ a < 8192 → owner a (tb_ram (set_tb_ram r u)) ram_block.
Proof. intros E Ha. split; [simpl; rewrite E; left|unfold in_range; simpl; lia]. Qed.
Lemma warmer_entries : page_entries warmer 0 0.
Proof.
  destruct warmer_map as (_ & _ & _ & r & Er & Hr). intros [|m] e He Ha.
  - change (tlb_index 0) with 0%nat in He. rewrite code_entry in He. injection He as <-. rewrite Er. exists ram_block.
    split; [exact (block_owner r one 0 (one_block r Hr) ltac:(lia))|reflexivity].
  - change (tlb_index 0) with 0%nat in He. destruct (other_entry m) as [Hm|Hm]; rewrite Hm in He; [|discriminate He]. injection He as <-. destruct Ha as [Ha|Ha]; discriminate Ha.
Qed.
Lemma ready_at s v u r : mmu_ok s v → mm_tb s = set_tb_ram r u → ram_blocks r = [ram_block] → single_env u = true → nb_tbs u = 1 → data u 0 = Some first_block →
  interrupt_request (tb_cpu u) = 0 → mem_io_vaddr (tb_cpu u) = 0 → page_dom u 0 → page_entries s 0 0 → write_ready s v 256 demo_word ram_block.
Proof.
  intros HO Er Hb He En Hd Hir Hva Hdom Hp. destruct (ram_only r u) as (R1 & R2 & R3 & R4 & R5 & R6). split.
  - rewrite Er. exact He.
  - rewrite Er. apply block_owner; [exact Hb|lia].
  - exact four_bytes.
  - reflexivity.
  - exact (proj1 Hdom).
  - rewrite Er. exact (current_ram r u v Hir).
  - apply (lone_part (mm_tb s)); [apply HO|rewrite Er; congruence|rewrite Er; congruence|]. rewrite Er. exact (R5 0 Hdom).
  - rewrite Er, R1, Hva. exact Hp.
Qed.
Lemma warmer_ready : ∃ v, mmu_ok warmer v ∧ write_ready warmer v 256 demo_word ram_block.
Proof.
  destruct warmer_map as (v & HO & _ & r & Er & Hr). exists v. split; [exact HO|]. destruct one_calm as [Hir Hn].
  exact (ready_at warmer v one r HO Er (one_block r Hr) one_single Hn one_data Hir one_vaddr one_page_0 warmer_entries).
Qed.
(** The same write made by the block it overwrites. *)
Definition busy_at (pc : Z) (s : mmu_state regs) : mmu_state regs := set_mm_tb (with_io pc (mm_tb s)) s.
Lemma busy_ready pc s v : mmu_ok s v → write_ready s v 256 demo_word ram_block → mmu_ok (busy_at pc s) v ∧ write_ready (busy_at pc s) v 256 demo_word ram_block.
Proof. intros [HG HS] Hr. split; [split; [exact (with_io_good pc _ v HG)|exact HS]|]. destruct Hr. by split. Qed.
Definition outcome {A} (m : M (mmu_state regs) A) (s : mmu_state regs) : option A := match m s with Ok a _ => Some a | Err _ _ => None end.
Lemma outcome_is {A} (m : M (mmu_state regs) A) s a b s' : outcome m s = Some a → m s = Ok b s' → b = a.
Proof. unfold outcome. intros H E. rewrite E in H. by injection H. Qed.
Lemma warmer_returns : outcome (notdirty_write 256 demo_word) warmer = Some (Some ()).
Proof. vm_compute. reflexivity. Qed.
Lemma busy_leaves : outcome (notdirty_write 256 demo_word) (busy_at 1048581 warmer) = Some None.
Proof. vm_compute. reflexivity. Qed.

Lemma clean_write_done_witness :
  (∃ s' v', notdirty_write 256 demo_word warmer = Ok (Some ()) s' ∧ mmu_ok s' v' ∧ code_free (mm_tb s') v' 256 4 ∧
    ram_mem (tb_ram (mm_tb s')) = mem_write (ram_mem (tb_ram (mm_tb warmer))) (blk_host ram_block + (256 - blk_offset ram_block)) demo_word) ∧
  ∃ s' v', notdirty_write 256 demo_word (busy_at 1048581 warmer) = Ok None s' ∧ mmu_ok s' v' ∧
    ram_mem (tb_ram (mm_tb s')) = ram_mem (tb_ram (mm_tb (busy_at 1048581 warmer))).
Proof.
  destruct warmer_ready as (v & HO & Hr). split.
  - destruct (clean_write_done warmer v 256 demo_word ram_block HO Hr) as (o & s' & v' & E & HO' & _ & Hd).
    pose proof (outcome_is _ _ _ o s' warmer_returns E) as Eo. rewrite Eo in E, Hd. exists s', v'. exact (conj E (conj HO' Hd)).
  - destruct (busy_ready 1048581 warmer v HO Hr) as [HOb Hrb].
    destruct (clean_write_done (busy_at 1048581 warmer) v 256 demo_word ram_block HOb Hrb) as (o & s' & v' & E & HO' & _ & Hd).
    pose proof (outcome_is _ _ _ o s' busy_leaves E) as Eo. rewrite Eo in E, Hd. exists s', v'. exact (conj E (conj HO' (proj2 Hd))).
Defined.

Lemma set_page_fetch_witness : ∃ s', tlb_set_page demo_map 12288 0 7 0 4096 cold = Ok () s' ∧ code_addr (λ _, fail Abort) 0 12300 s' = Ok 4108 s'.
Proof.
  destruct one_wf as (v & _ & Hw). destruct (demo_pd_ok 0 1 demo_pd0 ltac:(lia)) as [Hio [Hpw _]].
  destruct (set_page_fetch demo_map 12288 0 7 0 4096 cold cold_row ram_block Hw cold_region demo_size Hio Hpw) as (s' & E & Hc).
  - rewrite demo_pd0. exact (demo_owner one 1 one_ram ltac:(lia)).
  - reflexivity.
  - lia.
  - reflexivity.
  - unfold cold_row. rewrite length_replicate. apply Nat.ltb_lt. reflexivity.
  - discriminate.
  - exists s'. split; [exact E|]. exact (Hc (λ _, fail Abort) 12 ltac:(lia)).
Defined.

Lemma large_page_flush_witness : ∃ s', tlb_add_large_page 4194304 (2 ^ 22) cold = Ok () s' ∧ tlb_flush_page 4210688 s' = tlb_flush s'.
Proof.
  destruct (large_page_flush cold 4194304 22 cold_region) as (s' & E & _ & Hf); [unfold target_long_bits, long32; lia|].
  exists s'. split; [exact E|]. exact (proj2 (Hf 4210688 (or_intror eq_refl))).
Defined.

Lemma flush_page_gone_witness : ∃ s' v, tlb_flush_page 4096 (with_regs (256, true) cold) = Ok () s' ∧ mmu_ok s' v ∧ untranslated s' 4096.
Proof.
  destruct cold_ok as [v HO]. destruct (flush_page_gone cold v (256, true) 4096 HO) as (s' & E & HO' & Hu).
  - unfold in_width, target_long_bits, long32. lia.
  - exact (eq_rect_r (λ r, remapped r (256, true) 4096) small_remapped one_regs).
  - exact (remapped_in_ram one _ one_ram).
  - exists s', v. exact (conj E (conj HO' Hu)).
Defined.

(** The dirty bits of the display are gone, and the TLB was not told. *)
Definition faded_ram (r : ram_state) : ram_state := set_phys_dirty [1; 254] r.
Definition fade (s : mmu_state regs) : mmu_state regs := set_mm_tb (set_tb_ram (faded_ram (tb_ram (mm_tb s))) (mm_tb s)) s.
Lemma fade_ready s : ram_blocks (tb_ram (mm_tb s)) = [ram_block] → tlb_safe s → ram_wf (tb_ram (mm_tb (fade s))) ∧ leads_somewhere (fade s).
Proof.
  intros Hb [[[A B C D _ _] _] Ht]. split.
  - split; [|apply Zle_bool_imp_le; reflexivity]. split; try assumption; simpl; [rewrite Hb; constructor; [simpl; lia|constructor]|repeat constructor; lia].
  - intros m i e He Hd. destruct (Ht m i e He Hd) as (k & Hk & _). exists k. exact Hk.
Qed.
Lemma warmer_blocks : ram_blocks (tb_ram (mm_tb warmer)) = [ram_block].
Proof. destruct warmer_map as (_ & _ & _ & r & Er & Hr). rewrite Er. exact (one_block r Hr). Qed.
Lemma update_dirty_restores_witness : ∃ t, cpu_tlb_update_dirty (fade warmer) = Ok () (set_tlb_table t (fade warmer)) ∧ tlb_safe (set_tlb_table t (fade warmer)).
Proof.
  destruct warmer_map as (v & HO & _). destruct (fade_ready warmer warmer_blocks (mo_safe _ _ HO)) as [Hw Hl]. exact (update_dirty_restores (fade warmer) Hw Hl).
Defined.

Lemma watch_12300 : watch_ok 12300 4.
Proof. split; [exact four_bytes|reflexivity]. Qed.
Lemma addr_12300 : in_width target_long_bits 12300.
Proof. unfold in_width, target_long_bits, long32. lia. Qed.
Lemma watchpoint_traps_witness : ∃ s1 v, cpu_watchpoint_insert 12300 4 (BP_MEM_WRITE + BP_GDB) cold = Ok 0 s1 ∧ mmu_ok s1 v ∧ untranslated s1 12288.
Proof.
  destruct cold_ok as [v HO]. destruct (watchpoint_traps cold v 12300 4 (BP_MEM_WRITE + BP_GDB) demo_map 0 7 0 4096 HO addr_12300 watch_12300) as (s1 & E & HO' & Hu & _).
  exists s1, v. exact (conj E (conj HO' Hu)).
Defined.
Lemma watchpoint_round_trip_witness : ∃ s1 s2, cpu_watchpoint_insert 12300 4 (BP_MEM_WRITE + BP_GDB) cold = Ok 0 s1 ∧
  cpu_watchpoint_remove 12300 4 (BP_MEM_WRITE + BP_GDB) s1 = Ok 0 s2 ∧ watchpoints s2 = [].
Proof.
  destruct cold_ok as [v HO]. destruct (watchpoint_round_trip cold v 12300 4 (BP_MEM_WRITE + BP_GDB) HO addr_12300 eq_refl) as [_ Hr].
  - intros w Hw. by apply not_elem_of_nil in Hw.
  - rewrite decide_True in Hr by exact watch_12300. destruct Hr as (s1 & s2 & E1 & E2 & Ew & _). exists s1, s2. exact (conj E1 (conj E2 Ew)).
Defined.

Definition two_watches : list CPUWatchpoint := [mkWP 12300 4294967292 (BP_MEM_WRITE + BP_GDB); mkWP 64 4294967295 32].
Lemma watchpoints_removed_witness : ∃ s', cpu_watchpoint_remove_all BP_GDB (set_watchpoints two_watches cold) = Ok () s' ∧ watchpoints s' = [mkWP 64 4294967295 32].
Proof.
  destruct cold_ok as [v HO]. destruct (watchpoints_removed (set_watchpoints two_watches cold) v BP_GDB (set_watch_ok _ _ _ HO)) as (s' & E & _ & Ew).
  - unfold two_watches, in_width, target_long_bits, long32. repeat constructor; simpl; lia.
  - exists s'. exact (conj E Ew).
Defined.



Lemma break_at : debug_ram_addr demo_map (256, false) 4352 = 256.
Proof. vm_compute. reflexivity. Qed.
Lemma breakpoint_clears_witness : ∃ s' v', cpu_breakpoint_insert demo_map 4352 BP_GDB cold = Ok 0 s' ∧ mmu_ok s' v' ∧ code_free (mm_tb s') v' 256 1.
Proof.
  destruct cold_ok as [v HO]. assert (Ea : debug_ram_addr demo_map (cpu_regs (tb_cpu (mm_tb cold))) 4352 = 256).
  { exact (eq_trans (f_equal (λ r, debug_ram_addr demo_map r 4352) one_regs) break_at). }
  destruct (breakpoint_clears cold v demo_map 4352 BP_GDB HO) as [(s' & v' & E & HO' & Hn & _) _].
  - rewrite Ea. split; [exact (one_current v)|]. split; [lia|]. exact (conj (proj1 one_page_0) (one_one_part v 0 (mo_cache _ _ HO) one_page_0)).
  - rewrite Ea in Hn. exists s', v'. exact (conj E (conj HO' Hn)).
Defined.

(** ** One virtual page, two modes *)

(** The display has been drawn from page 1 of RAM; mode 0 maps the virtual page 0 to it,
    mode 1 to page 0, which holds code. *)
Definition drawn : mmu_state regs := mrun (mmu_reset_dirty 4096 8192 1) cold.
Definition split_modes : mmu_state regs := mrun (tlb_set_page demo_map 0 4096 7 1 4096) (mrun (tlb_set_page demo_map 0 0 7 0 4096) drawn).
(** What an operation returns, and a part of the state it leaves. *)
Definition observe {A B} (m : M (mmu_state regs) A) (f : mmu_state regs → B) (s : mmu_state regs) : option (A * B) :=
  match m s with Ok a s' => Some (a, f s') | Err _ _ => None end.
(** The entry of mode 1 for the virtual page 0, and the list of the blocks on page 0 of
    RAM. *)
Definition mode1_view (s : mmu_state regs) : option CPUTLBEntry * option tbptr := (tlb_at (tlb_table s) 1 0, rd (mm_tb s) (SFirst 0)).

(** A write in mode 0 to page 1 ends with [tlb_set_dirty], which looks at the entries of
    every mode for the virtual page: the entry of mode 1 now writes to page 0 of RAM
    without a check, although a block of the code cache lies there. *)
Example modes_share_dirty :
  mode1_view split_modes = (Some (mkTE 0 TLB_NOTDIRTY 0 (blk_host ram_block)), Some (Some (0%nat, 0%nat))) ∧
  observe (notdirty_write 4096 demo_word) mode1_view split_modes = Some (Some (), (Some (mkTE 0 0 0 (blk_host ram_block)), Some (Some (0%nat, 0%nat)))) ∧
  writes_ram (mkTE 0 0 0 (blk_host ram_block)) = true.
Proof. split_and!; vm_compute; reflexivity. Qed.
End TLBExamples.
